(* ===== verification/_CoqProject ===== *)
-Q . S2P
Prelude.v
GoNum.v
Domain.v
GoRuntime.v
Cache.v
Repositories.v
RedisCache.v
ReadThrough.v
TaskRepo.v
Converters.v
PubSub.v
Dlq.v
World.v
TaskHandler.v
Reaper.v
Session.v
Registry.v
Cluster.v
ClusterBus.v
SettingsRepo.v
ServerControl.v
Dispatcher.v
Gateway.v
RBACRepo.v
ServersRepo.v
RBAC.v
NodesRepo.v
CachedNodes.v
CertificatesRepo.v
Enrollment.v
DaemonAuth.v
Metrics.v
MetricsHandler.v
MetricsHub.v
LoginLimit.v
Http.v
Accounts.v
UsersRepo.v
CachedUsers.v
TokensRepo.v
AuthTokens.v
UserAuth.v
UserAccess.v
Routes.v
TokenApi.v
Headers.v
FilePath.v
ServerAccess.v
UserApi.v
FileManager.v
Validation.v
Ids.v
Games.v
GameImport.v
Park.v
GamesApi.v
ServersApi.v
NodesApi.v
ParkConsistent.v
ServerCommands.v
ParkFiles.v
FileStore.v
LocalFiles.v
Uploads.v
UploadsSafe.v
UploadsArrive.v
UploadsDisk.v
UploadApi.v
Schedules.v
ScheduleFails.v
Carbon.v
SchedulesApi.v
