(* ===== verification/Prelude.v ===== *)
(** * Verification of the ShadowPanel (GameAP) control panel

    The panel ([src/]) manages game servers on remote nodes.  A daemon on each
    node keeps a gRPC stream open to one of several panel instances; users and
    administrators work through an HTTP API; the instances talk to each other
    over a message bus.  This library is a shallow embedding of the panel's own
    logic: a Go function is a Rocq function, Go state is passed explicitly, and
    the theorems are about those functions.

    ** How Go is modelled

    - [error], [result], [M]: an error is a value ([errors.Is] walks its causes);
      a call returns a value, an error or a panic; a stateful call is a function
      [S -> result A * S] of the monad [M], with [let!], [do!] and [zoom] for a
      call on a part of the state.  [wp] is its weakest precondition, [wp_step]
      the tactic that takes one step of it.
    - [uint], [uint64] and ids are [N], [int] is [Z] with the wrap-around written
      out where it is reachable ([wrap32], [add64], [add_int]); a pointer to a
      scalar is an [option]; a [time.Time] counts nanoseconds since the zero
      time; a string-typed enum is a string.
    - A Go map is a [gmap]; where the order of iteration can be seen it comes
      from [MapOrder]; the clock is [WallClock]; both are in [GoRuntime] with the
      text functions that are only fixed on ASCII.
    - Method calls under one mutex are one step.  Where the gateway, the sessions
      and the hub release the lock or wait, the model has several steps and the
      theorems let others come in between.  A request of the HTTP API is one
      step: its handler runs to its end before the next request begins, although
      the code holds no lock from its checks to its writes.  Theorems that rest
      on this say so, and [ServerControl.overlapping_requests_double],
      [LoginLimit.overlapping_guesses_pass] and
      [Enrollment.overlapping_enrollments_pass] show what overlapping requests do.
    - A handler is a function of the session in its context and the request, on a
      state of the tables it uses ([Http], [ServerAccess.Desk]); its answer is
      what it writes.  A transaction manager commits or rolls back, or fails.
    - A [float64] is a [spec_float] with binary64 rounding of every operation, and
      conversions to [int] that do not fit give the least [int], as on amd64
      ([Carbon]).  Paths are those of a Unix panel ([FilePath]).
    - Recursion that is not structural runs on fuel.  Lemmas show that it is
      enough where decimal text is written in at most 20 digits
      ([GoNum.ParseUint_FormatUint]), for the rounds of [Dlq.reprocess_loop], for
      an interval, which has at most as many matches as characters
      ([Carbon.matches_enough]) and hands each part on at most five times
      ([Carbon.process_ends]), and for [LocalFiles.mkdirAll], which runs once per
      part of the path ([LocalFiles.mkdirAll_ok]).  Where it is spent for sure,
      the bound is the argument itself: [Headers.strip_runes] and
      [GameImport.replace_all] take at least one byte per step, and
      [LocalFiles.removeDirRecursive] goes one level down a tree of known depth.

    ** The files, in order of dependency

    Shared: [Prelude] (outcomes, the monad, [wp], lemmas), [GoNum] (decimal
    text), [Domain] ([internal/domain], [internal/filters]), [GoRuntime],
    [Cache] ([internal/cache]), [RedisCache] ([internal/cache/redis.go]),
    [Repositories] ([internal/repositories/contracts.go]
    as classes of operations and classes of laws), [Converters]
    ([grpc/gateway/converters.go] and the messages it builds), [PubSub]
    ([internal/pubsub]: channels, payloads, the in-memory bus), [World] (the
    state shared by the task pipeline).

    Storage: [TaskRepo], [SettingsRepo], [ServersRepo], [NodesRepo],
    [CertificatesRepo], [RBACRepo], [UsersRepo], [TokensRepo], [Games], [Schedules]
    and [ScheduleFails] are the tables of [internal/repositories/inmemory].  Each proves an invariant of its hash
    indexes for every sequence of operations and that it meets the laws its
    clients are proved against; the filters through the indexes are proved equal
    to a scan of the table.  Every client below is proved for any
    implementation of the laws.  [ReadThrough], [CachedUsers] and [CachedNodes]
    ([internal/repositories/cached]) put Redis in front of users and nodes.

    Tasks: [ServerControl] ([services/servercontrol]) turns requests of users
    into tasks; [Dispatcher] ([services/taskdispatcher]) stores and sends them
    and takes what daemons report; [TaskHandler] ([grpc/handlers/task_handler.go])
    does so on the gRPC side; [Reaper] ([services/taskreaper]) gives up the tasks
    of nodes that are gone.  [Dlq] ([pubsub/dlq], [pubsub/retry]) is the retrying
    publisher and its dead letters.

    Connections: [Session] and [Registry] ([grpc/session]) hold the streams and
    the requests that wait for an answer; [Gateway] ([grpc/gateway/service.go])
    is a connection from its registration message to its end; [Cluster] joins
    the registries of several instances by the in-memory bus and follows a
    message to the instance that holds the daemon; [ClusterBus] joins them by a
    bus that delivers later, and instances start when they like.

    Accounts: [Http] ([pkg/api]) has requests, answers and errors; [Accounts]
    users and access tokens ([internal/domain/user.go], [auth.go],
    [internal/services/user.go]); [AuthTokens] ([pkg/auth]) the JWT and PASETO
    services; [UserAuth] the sessions, the middlewares
    ([api/middlewares/auth.go], [personal_access.go]), login, logout and the
    revocation of tokens, and [UserAccess] what credentials do over time;
    [Routes] ([api/router.go]) the whole table of routes and what stands in front
    of each handler; [TokenApi] ([api/tokens]) and [UserApi] ([api/users],
    [api/profile]) the handlers for tokens, users, permissions and profiles.

    The park: [Validation] ([pkg/validation]) and [Ids] ([pkg/idgen]) check and
    make names; [GameImport] ([services/games.go], the importers and exporters)
    brings games from elsewhere; [Park] is the state of the handlers of
    [GamesApi] ([api/games], [api/gamemods]), [ServersApi] ([api/servers],
    [api/serversettings], [api/nodes/deletenode]) and [NodesApi]
    ([api/nodes/putnode]).  [ParkConsistent] is the invariant of all of them
    together with enrolling and reporting daemons; [ServerCommands] is about
    commands and settings.

    Files: [ServerAccess] ([api/servers/base]) is how every handler for a server
    starts; [FilePath] ([path/filepath] and [filemanagerpath]), [Headers]
    ([filemanagerhttp]) and [FileManager] ([api/filemanager]) are the file
    manager, [ParkFiles] the file manager over a consistent park.  [FileStore]
    and [LocalFiles] ([internal/files]) are the storage interface, the storage in
    memory and the panel's own disk; [Uploads] ([internal/upload]) the chunked
    uploads and their janitor, [UploadsSafe], [UploadsArrive] and [UploadsDisk]
    what they deliver and leave, [UploadApi] ([api/filemanager/uploadsession])
    their handlers.

    Schedules: [Carbon] ([pkg/carbon]) reads and prints intervals, [SchedulesApi]
    ([api/servertasks]) answers the requests for scheduled tasks.

    Access: [RBAC] ([internal/rbac]) decides what a user may do;
    [LoginLimit] ([api/middlewares/login_ratelimit.go]) bounds guesses;
    [Enrollment] ([internal/enrollment]) admits new daemons by a setup key;
    [DaemonAuth] ([api/daemonapi/gettoken], [api/middlewares/daemon.go]) admits
    the requests of daemons.

    Metrics: [Metrics] ([internal/metrics/ring.go], [merge.go], [encoding.go]),
    [MetricsHandler] ([grpc/handlers/metrics_handler.go]) and [MetricsHub]
    ([internal/metrics/hub.go]): samples on their way from a daemon to the pages
    that show them.

    ** What the theorems show

    - Storage: searches are table scans with the filter as predicate, pages are
      pages of a sorted list, grants are what the operations made of them.
    - Tasks: what each request, report, sweep and flush changes and what it leaves
      alone; requests answered one after another never leave a server with two
      pending tasks of one kind; a dispatched task is stored and sent whole.
    - Bus and dead letters: the bus refines a list of subscriptions;
      reprocessing ends and handles every message once.
    - Connections: only a daemon with a valid key registers; a request is
      settled at most once, by the answer addressed to it, which waits to be
      read; a task reaches the instance that holds the node; an instance that
      has heard everything knows who is connected, to itself and since its start
      to others, as long as a daemon leaves before it returns elsewhere.
    - Access: a permission is needed for access and enough where nothing
      forbids it, as of a moment no older than cache entries live; failed logins
      are bounded and a setup key works once, for requests one after another on
      a cache that does not fail; a daemon that was enrolled gets in, and only
      the last token of a node admits.
    - Accounts: a handler runs only for whom its route asks; a session rests on a
      credential of its user; a right password gives a token, a logout takes it
      away; logins stay unique.
    - The park: every server stays well formed and refers to what exists; commands
      need abilities, settings need grants; an exported game imports back.
    - Files: paths stay in the directory of the server; served files are inert,
      whatever they are called; an upload is handed over as it was announced
      and, on the disk and in memory, arrives byte for byte.
    - Schedules: a request is answered for a user with the ability and changes
      one valid task of the server; whole seconds printed are read back rounded
      down to their unit; reading an interval always ends.
    - Metrics: series of other nodes' servers never pass; viewers get exactly the
      samples of their node.

    Theorems also record behaviour that looks unintended (a status overwritten
    by its own dispatch, a reconnect that drops the new session, a key that
    comes back, uploads that stay on the disk): they are stated like the others
    and say so.

    ** What is not modelled

    Parameters: SHA-256, bcrypt, ciphers, random numbers, XIDs and UUIDs, JSON and
    YAML text, the JWT and PASETO libraries, the Redis client, the protobuf
    encoding, the gRPC stream and the calls to a daemon are arguments, with the
    documented facts used about them as named hypotheses or classes.  Locks are not modelled beyond the
    atomicity they give.  The SQL repositories build queries for a database
    driver; the PostgreSQL and MySQL clients, the S3 storage, the plugin host, the
    legacy binary protocol, ACME, the game query protocols and the wiring in
    [internal/application] call libraries and services and are left out; so are
    the HTTP handlers not named above (console, rcon, lists, the creation of
    nodes by hand), the writes of plugins to the tables, and the streams of the
    gRPC file service. *)

From stdpp Require Import base tactics list gmap fin_maps strings sorting numbers.
From Stdlib Require Import ZArith NArith Lia.

(** ** Go errors and outcomes *)

(** A Go [error] value: [errors.New], [errors.Wrap]/[errors.WithMessage], a
    gRPC [status.Error], or a typed error carried by value. *)
Inductive error : Type :=
| ENew (msg : string)
| EWrap (msg : string) (cause : error)
| EStatus (code : string) (msg : string).

#[export] Instance error_eq_dec : EqDecision error.
Proof. solve_decision. Defined.

(** [errors.Is]: walk the chain of wrapped causes. *)
Fixpoint errors_is (e target : error) : bool :=
  bool_decide (e = target) ||
  match e with EWrap _ c => errors_is c target | _ => false end.

(** Outcome of a Go call: a value, a returned error, or a run-time panic
    (index out of range, nil dereference, write to a nil map). *)
Inductive result (A : Type) : Type :=
| Ok (a : A)
| Err (e : error)
| Panic (why : string).
Arguments Ok {A} a.
Arguments Err {A} e.
Arguments Panic {A} why.

#[export] Instance result_eq_dec {A} `{EqDecision A} : EqDecision (result A).
Proof. solve_decision. Defined.

Lemma Ok_inj {A} (a b : A) : Ok a = Ok b -> a = b.
Proof. by intros [= ->]. Qed.

Definition is_ok {A} (r : result A) : bool :=
  match r with Ok _ => true | _ => false end.

Definition result_bind {A B} (r : result A) (k : A -> result B) : result B :=
  match r with Ok a => k a | Err e => Err e | Panic w => Panic w end.

(** [errors.Wrap(err, msg)] / [errors.WithMessage(err, msg)] on a returned error. *)
Definition wrap_err {A} (msg : string) (r : result A) : result A :=
  match r with Err e => Err (EWrap msg e) | r => r end.

(** A stateful Go call: the effects made before an error stay in the state. *)
Definition M (S A : Type) : Type := S -> result A * S.

Definition ret {S A} (a : A) : M S A := fun s => (Ok a, s).
Definition fail {S A} (e : error) : M S A := fun s => (Err e, s).
Definition bind {S A B} (m : M S A) (k : A -> M S B) : M S B :=
  fun s =>
    match m s with
    | (Ok a, s') => k a s'
    | (Err e, s') => (Err e, s')
    | (Panic w, s') => (Panic w, s')
    end.
Definition get {S} : M S S := fun s => (Ok s, s).
Definition modify {S} (f : S -> S) : M S unit := fun s => (Ok tt, f s).
Definition lift {S A} (r : result A) : M S A := fun s => (r, s).
(** [if err != nil { return errors.Wrap(err, msg) }] *)
Definition wrap {S A} (msg : string) (m : M S A) : M S A :=
  fun s => let '(r, s') := m s in (wrap_err msg r, s').
(** A call whose error the caller inspects (logs, ignores): a returned error
    becomes a value, a panic still unwinds. *)
Definition attempt {S A} (m : M S A) : M S (result A) :=
  fun s =>
    match m s with
    | (Panic w, s') => (Panic w, s')
    | (r, s') => (Ok r, s')
    end.
(** Run a call of a sub-component whose state is a field of the caller's. *)
Definition zoom {S T A} (prj : S -> T) (inj : T -> S -> S) (m : M T A) : M S A :=
  fun s => let '(r, t) := m (prj s) in (r, inj t s).

(** A computation moves the state only along a relation. *)
Definition moves {S A} (P : relation S) (m : M S A) : Prop := forall s, P s (snd (m s)).
Lemma moves_ret {S A} (P : relation S) `{!PreOrder P} (a : A) : moves P (ret a).
Proof. intros s. reflexivity. Qed.
Lemma moves_lift {S A} (P : relation S) `{!PreOrder P} (r : result A) : moves P (lift r).
Proof. intros s. reflexivity. Qed.
Lemma moves_bind {S A B} (P : relation S) `{!PreOrder P} (m : M S A) (k : A -> M S B) :
  moves P m -> (forall a, moves P (k a)) -> moves P (bind m k).
Proof.
  intros Hm Hk s. specialize (Hm s). unfold bind. destruct (m s) as [[a|e|w] s1]; simpl in *; [|done..].
  etransitivity; [exact Hm|apply Hk].
Qed.
Lemma moves_wrap {S A} (P : relation S) msg (m : M S A) : moves P m -> moves P (wrap msg m).
Proof. intros Hm s. specialize (Hm s). unfold wrap. by destruct (m s). Qed.
Lemma moves_attempt {S A} (P : relation S) (m : M S A) : moves P m -> moves P (attempt m).
Proof. intros Hm s. specialize (Hm s). unfold attempt. by destruct (m s) as [[] ?]. Qed.

Lemma moves_get {S} (P : relation S) `{!PreOrder P} : moves P get.
Proof. intros s. reflexivity. Qed.

Declare Scope go_scope.
Delimit Scope go_scope with go.
Notation "'let!' x ':=' m 'in' k" := (bind m (fun x => k))
  (at level 10, x pattern, m at level 100, k at level 200) : go_scope.
Notation "'do!' m ';;' k" := (bind m (fun _ => k))
  (at level 10, m at level 99, k at level 200) : go_scope.
Notation "'let?' x ':=' m 'in' k" := (result_bind m (fun x => k))
  (at level 10, x pattern, m at level 100, k at level 200) : go_scope.
Open Scope go_scope.

(** [for _, x := range l { body }], stopping at the first error. *)
Fixpoint for_each {S A} (l : list A) (body : A -> M S unit) : M S unit :=
  match l with
  | [] => ret tt
  | x :: l' => do! body x ;; for_each l' body
  end.

Lemma moves_for_each {S A} (P : relation S) `{!PreOrder P} (l : list A) (body : A -> M S unit) :
  (forall x, moves P (body x)) -> moves P (for_each l body).
Proof.
  intros Hb. induction l as [|x l IH]; [apply (moves_ret P)|]. apply (moves_bind P); [apply Hb|done].
Qed.

(** ** Strings *)

Lemma String_app c p t : String c p +:+ t = String c (p +:+ t).
Proof. reflexivity. Qed.

Lemma length_string_app a b : String.length (a +:+ b) = String.length a + String.length b.
Proof. induction a as [|c a IH]; [done|]. rewrite String_app. simpl. by rewrite IH. Qed.

Lemma prefix_spec p s : String.prefix p s = true <-> exists t, s = p +:+ t.
Proof.
  revert s. induction p as [|c p IH]; intros s; simpl.
  - split; [intros _; by exists s|by destruct s].
  - destruct s as [|d s]; [split; [done|by intros [t [=]]]|]. simpl.
    destruct (Ascii.ascii_dec c d) as [<-|Hne].
    + rewrite IH. split; intros [t Ht]; exists t; rewrite ?String_app in *; by simplify_eq/=.
    + split; [done|]. intros [t Ht]. rewrite String_app in Ht. by simplify_eq/=.
Qed.

Lemma string_prefix_app p s : String.prefix p (p +:+ s) = true.
Proof. apply prefix_spec. by exists s. Qed.

Lemma substring_all s : String.substring 0 (String.length s) s = s.
Proof. induction s as [|c s IH]; [done|]. simpl. by rewrite IH. Qed.

Lemma substring_suffix p s :
  String.substring (String.length p) (String.length (p +:+ s) - String.length p) (p +:+ s) = s.
Proof.
  rewrite length_string_app. replace (_ + _ - _) with (String.length s) by lia.
  induction p as [|c p IH]; [apply substring_all|]. rewrite String_app. simpl. exact IH.
Qed.

(** ** Machine integers *)

Definition two32 : N := 4294967296.
Definition two64 : N := 18446744073709551616.
(** [uint64]/[uint] (the 64-bit targets) and [uint32] wrap-around. *)
Definition wrap64 (n : N) : N := (n `mod` two64)%N.
Definition wrap32 (n : N) : N := (n `mod` two32)%N.
Definition add64 (a b : N) : N := wrap64 (a + b).
Definition sub64 (a b : N) : N := wrap64 (a + two64 - b).
Definition mul64 (a b : N) : N := wrap64 (a * b).

(** ** Three-way comparisons and sorting *)

Record lawful_cmp {A} (cmp : A -> A -> comparison) : Prop := {
  cmp_opp : forall a b, cmp a b = CompOpp (cmp b a);
  cmp_trans : forall a b c, cmp a b <> Gt -> cmp b c <> Gt -> cmp a c <> Gt;
}.

(** [sort.Slice(l, less)]: a permutation of [l] in which no later element is
    less than an earlier one; merge sort is one such order. *)
Definition not_less {A} (less : A -> A -> bool) : relation A :=
  fun a b => less b a = false.
#[export] Instance not_less_dec {A} (less : A -> A -> bool) : RelDecision (not_less less).
Proof. intros a b. unfold not_less. apply _. Defined.
Definition sort_slice {A} (less : A -> A -> bool) (l : list A) : list A :=
  merge_sort (not_less less) l.

(** ** Hash indexes: key -> set of row ids *)

Section index.
Context {K : Type} `{Countable K}.

Definition idx_get (k : K) (m : gmap K (gset N)) : gset N := default ∅ (m !! k).

(** [if m[k] == nil { m[k] = make(...) }; m[k][id] = struct{}{}] *)
Definition idx_add (k : K) (id : N) (m : gmap K (gset N)) : gmap K (gset N) :=
  <[k := {[id]} ∪ idx_get k m]> m.

(** [if set, ok := m[k]; ok { delete(set, id); if len(set) == 0 { delete(m, k) } }] *)
Definition idx_remove (k : K) (id : N) (m : gmap K (gset N)) : gmap K (gset N) :=
  match m !! k with
  | Some s =>
      let s' := s ∖ {[id]} in
      if decide (size s' = 0) then delete k m else <[k := s']> m
  | None => m
  end.

(** [for _, k := range ks { if set, ok := m[k]; ok { for id := range set { out[id] } } }] *)
Definition idx_union (ks : list K) (m : gmap K (gset N)) : gset N :=
  foldl (fun acc k => acc ∪ idx_get k m) ∅ ks.

(** The [intersectWith...] helpers: keep the ids of [res] found under [ks]. *)
Definition idx_intersect (res : gset N) (ks : list K) (m : gmap K (gset N)) : gset N :=
  foldl (fun acc k => acc ∪ filter (fun id => id ∈ res) (idx_get k m)) ∅ ks.

(** An index agrees with the rows: the bucket of [k] holds exactly the ids
    whose row has key [k], and no bucket is empty. *)
Definition idx_ok {V} (key : V -> option K) (m : gmap K (gset N)) (rows : gmap N V) : Prop :=
  (forall k id, id ∈ idx_get k m <-> exists v, rows !! id = Some v /\ key v = Some k) /\
  (forall k s, m !! k = Some s -> s <> ∅).

Definition opt_add (k : option K) (id : N) (m : gmap K (gset N)) : gmap K (gset N) :=
  match k with Some k => idx_add k id m | None => m end.
Definition opt_remove (k : option K) (id : N) (m : gmap K (gset N)) : gmap K (gset N) :=
  match k with Some k => idx_remove k id m | None => m end.

Lemma elem_of_idx_add k k' id id' m :
  id' ∈ idx_get k' (idx_add k id m) <-> (k = k' /\ id = id') \/ id' ∈ idx_get k' m.
Proof.
  unfold idx_add, idx_get at 1. rewrite lookup_insert.
  case_decide; subst; simpl; unfold idx_get; set_solver.
Qed.

Lemma elem_of_idx_remove k k' id id' m :
  id' ∈ idx_get k' (idx_remove k id m) <-> id' ∈ idx_get k' m /\ ~ (k = k' /\ id = id').
Proof.
  unfold idx_remove. destruct (m !! k) as [s|] eqn:Hk; cbn zeta.
  - case_decide as Hs.
    + apply size_empty_inv in Hs. unfold idx_get at 1. rewrite lookup_delete.
      case_decide; subst; simpl.
      * unfold idx_get. rewrite Hk. simpl. set_solver.
      * unfold idx_get. set_solver.
    + unfold idx_get at 1. rewrite lookup_insert. case_decide; subst; simpl.
      * unfold idx_get. rewrite Hk. simpl. set_solver.
      * unfold idx_get. set_solver.
  - destruct (decide (k = k')) as [<-|]; [|tauto].
    unfold idx_get. rewrite Hk. set_solver.
Qed.

Lemma idx_union_acc ks m (acc : gset N) id :
  id ∈ foldl (fun acc k => acc ∪ idx_get k m) acc ks
  <-> id ∈ acc \/ exists k, k ∈ ks /\ id ∈ idx_get k m.
Proof.
  revert acc. induction ks as [|k ks IH]; intros acc; simpl; [set_solver|].
  rewrite IH. set_solver.
Qed.

Lemma elem_of_idx_union ks m id :
  id ∈ idx_union ks m <-> exists k, k ∈ ks /\ id ∈ idx_get k m.
Proof. unfold idx_union. rewrite idx_union_acc. set_solver. Qed.

Lemma idx_intersect_acc (res : gset N) ks m (acc : gset N) id :
  id ∈ foldl (fun acc k => acc ∪ filter (fun id => id ∈ res) (idx_get k m)) acc ks
  <-> id ∈ acc \/ (id ∈ res /\ exists k, k ∈ ks /\ id ∈ idx_get k m).
Proof.
  revert acc. induction ks as [|k ks IH]; intros acc; simpl; [set_solver|].
  rewrite IH, elem_of_union, elem_of_filter. set_solver.
Qed.

Lemma elem_of_idx_intersect (res : gset N) ks m id :
  id ∈ idx_intersect res ks m <-> id ∈ res /\ exists k, k ∈ ks /\ id ∈ idx_get k m.
Proof. unfold idx_intersect. rewrite idx_intersect_acc. set_solver. Qed.

Lemma idx_ok_elem {V} (key : V -> option K) m rows k id :
  idx_ok key m rows ->
  id ∈ idx_get k m <-> exists v, rows !! id = Some v /\ key v = Some k.
Proof. intros [Hm _]. apply Hm. Qed.

(** An index lookup seen from a row of the table. *)
Lemma idx_union_key {V} (key : V -> option K) m rows ks id v :
  idx_ok key m rows -> rows !! id = Some v ->
  id ∈ idx_union ks m <-> exists k, key v = Some k /\ k ∈ ks.
Proof.
  intros Hok Hv. rewrite elem_of_idx_union.
  setoid_rewrite (idx_ok_elem key m rows _ _ Hok). naive_solver.
Qed.

Lemma idx_intersect_key {V} (key : V -> option K) m rows res ks id v :
  idx_ok key m rows -> rows !! id = Some v ->
  id ∈ idx_intersect res ks m <-> id ∈ res /\ exists k, key v = Some k /\ k ∈ ks.
Proof.
  intros Hok Hv. rewrite elem_of_idx_intersect.
  setoid_rewrite (idx_ok_elem key m rows _ _ Hok). naive_solver.
Qed.

Lemma idx_union_in_dom {V} (key : V -> option K) m (rows : gmap N V) ks id :
  idx_ok key m rows -> id ∈ idx_union ks m -> is_Some (rows !! id).
Proof.
  intros Hok. rewrite elem_of_idx_union.
  setoid_rewrite (idx_ok_elem key m rows _ _ Hok). naive_solver.
Qed.

Lemma idx_get_key {V} (key : V -> option K) m rows k id v :
  idx_ok key m rows -> rows !! id = Some v -> id ∈ idx_get k m <-> key v = Some k.
Proof. intros Hok Hv. rewrite (idx_ok_elem key m rows _ _ Hok). naive_solver. Qed.

Lemma idx_ok_empty {V} (key : V -> option K) : idx_ok key ∅ (∅ : gmap N V).
Proof.
  split; [|intros k s; by rewrite lookup_empty].
  intros k id. unfold idx_get. rewrite !lookup_empty. simpl. set_solver.
Qed.

Lemma idx_ok_insert {V} (key : V -> option K) m rows id v :
  rows !! id = None -> idx_ok key m rows ->
  idx_ok key (opt_add (key v) id m) (<[id := v]> rows).
Proof.
  intros Hid [Hm Hne]. split.
  - intros k id'. rewrite lookup_insert. destruct (key v) as [kv|] eqn:Hkv; simpl.
    + rewrite elem_of_idx_add, Hm. case_decide; subst; naive_solver.
    + rewrite Hm. case_decide; subst; naive_solver.
  - intros k s. destruct (key v) as [kv|]; simpl; [|apply Hne].
    unfold idx_add. rewrite lookup_insert. case_decide; [|apply Hne].
    intros [= <-]. set_solver.
Qed.

Lemma idx_ok_delete {V} (key : V -> option K) m rows id v :
  rows !! id = Some v -> idx_ok key m rows ->
  idx_ok key (opt_remove (key v) id m) (delete id rows).
Proof.
  intros Hid [Hm Hne]. split.
  - intros k id'. rewrite lookup_delete. destruct (key v) as [kv|] eqn:Hkv; simpl.
    + rewrite elem_of_idx_remove, Hm. case_decide; subst; naive_solver.
    + rewrite Hm. case_decide; subst; naive_solver.
  - intros k s. destruct (key v) as [kv|]; simpl; [|apply Hne].
    unfold idx_remove. destruct (m !! kv) as [s0|] eqn:Hs0; [|apply Hne]. cbn zeta.
    case_decide as Hz.
    + rewrite lookup_delete. case_decide; [done|apply Hne].
    + rewrite lookup_insert. case_decide; [|apply Hne].
      intros [= <-] He. apply Hz. by rewrite He, size_empty.
Qed.

(** A row update that keeps the indexed key leaves the index valid. *)
Lemma idx_ok_same_key {V} (key : V -> option K) m rows id v v' :
  rows !! id = Some v -> key v' = key v -> idx_ok key m rows ->
  idx_ok key m (<[id := v']> rows).
Proof.
  intros Hid Hk [Hm Hne]. split; [|done].
  intros k id'. rewrite Hm, lookup_insert. destruct (decide (id = id')) as [<-|]; [|done].
  rewrite Hid. split; intros (w & [= <-] & Hw); eexists; split; [done|congruence|done|congruence].
Qed.

End index.

Lemma not_less_total {A} (less : A -> A -> bool) :
  (forall a b, less a b = true -> less b a = false) -> Total (not_less less).
Proof.
  intros Hasym a b. unfold not_less.
  destruct (less b a) eqn:Hba; [right|by left]. by apply Hasym.
Qed.

(** ** Sorting *)

Lemma sort_slice_perm {A} (less : A -> A -> bool) l : sort_slice less l ≡ₚ l.
Proof. apply merge_sort_Permutation. Qed.

Lemma sort_slice_sorted {A} (less : A -> A -> bool) l :
  (forall a b, less a b = true -> less b a = false) ->
  Sorted (not_less less) (sort_slice less l).
Proof.
  intros Hasym. pose proof (not_less_total less Hasym).
  by apply (Sorted_merge_sort (not_less less)).
Qed.

Lemma sort_slice_strongly_sorted {A} (less : A -> A -> bool) l :
  (forall a b, less a b = true -> less b a = false) ->
  Transitive (not_less less) ->
  StronglySorted (not_less less) (sort_slice less l).
Proof.
  intros Hasym Htr. apply Sorted_StronglySorted; [done|].
  by apply sort_slice_sorted.
Qed.

(** ** Lawful comparisons *)

Lemma cmp_le_eq_trans {A} (cmp : A -> A -> comparison) a b c :
  lawful_cmp cmp -> cmp a b = Eq -> cmp b c = Eq -> cmp a c = Eq.
Proof.
  intros [Hopp Htr] Hab Hbc.
  destruct (cmp a c) eqn:Hac; [done| |].
  - assert (Hca : cmp c a <> Gt).
    { apply (Htr c b a); [rewrite (Hopp c b), Hbc|rewrite (Hopp b a), Hab]; discriminate. }
    rewrite (Hopp c a), Hac in Hca. by destruct Hca.
  - exfalso. apply (Htr a b c); [by rewrite Hab|by rewrite Hbc|done].
Qed.

Lemma cmp_lt_trans_l {A} (cmp : A -> A -> comparison) a b c :
  lawful_cmp cmp -> cmp a b = Lt -> cmp b c <> Gt -> cmp a c = Lt.
Proof.
  intros Hlaw Hab Hbc. pose proof Hlaw as [Hopp Htr].
  assert (Hac : cmp a c <> Gt) by (apply (Htr a b c); [by rewrite Hab|done]).
  destruct (cmp a c) eqn:Hac'; [|done|by destruct Hac].
  exfalso. apply (Htr b c a); [done|by rewrite (Hopp c a), Hac'|by rewrite (Hopp b a), Hab].
Qed.

Lemma cmp_lt_trans_r {A} (cmp : A -> A -> comparison) a b c :
  lawful_cmp cmp -> cmp a b <> Gt -> cmp b c = Lt -> cmp a c = Lt.
Proof.
  intros Hlaw Hab Hbc. pose proof Hlaw as [Hopp Htr].
  assert (Hac : cmp a c <> Gt) by (apply (Htr a b c); [done|by rewrite Hbc]).
  destruct (cmp a c) eqn:Hac'; [|done|by destruct Hac].
  exfalso. apply (Htr c a b); [by rewrite (Hopp c a), Hac'|done|by rewrite (Hopp c b), Hbc].
Qed.

Lemma lawful_N_compare : lawful_cmp N.compare.
Proof.
  split; [intros; apply N.compare_antisym|].
  intros a b c. rewrite !N.compare_gt_iff. lia.
Qed.

Lemma lawful_Z_compare : lawful_cmp Z.compare.
Proof.
  split; [intros; apply Z.compare_antisym|].
  intros a b c. rewrite !Z.compare_gt_iff. lia.
Qed.

Lemma ascii_compare_spec (a b : Ascii.ascii) :
  Ascii.compare a b = N.compare (Ascii.N_of_ascii a) (Ascii.N_of_ascii b).
Proof. reflexivity. Qed.

Lemma lawful_string_compare : lawful_cmp String.compare.
Proof.
  split; [intros; apply String.compare_antisym|].
  induction a as [|x a IH]; intros [|y b] [|z c]; simpl; try done.
  rewrite !ascii_compare_spec.
  destruct (N.compare_spec (Ascii.N_of_ascii x) (Ascii.N_of_ascii y)) as [E1|E1|E1];
  destruct (N.compare_spec (Ascii.N_of_ascii y) (Ascii.N_of_ascii z)) as [E2|E2|E2];
  destruct (N.compare_spec (Ascii.N_of_ascii x) (Ascii.N_of_ascii z)) as [E3|E3|E3];
  try done; try lia. apply IH.
Qed.

(** [nil]-first comparison of optional columns. *)
Definition opt_cmp {A} (cmp : A -> A -> comparison) (a b : option A) : comparison :=
  match a, b with
  | None, None => Eq
  | None, Some _ => Lt
  | Some _, None => Gt
  | Some x, Some y => cmp x y
  end.

Lemma lawful_opt_cmp {A} (cmp : A -> A -> comparison) :
  lawful_cmp cmp -> lawful_cmp (opt_cmp cmp).
Proof.
  intros [Hopp Htr]. split.
  - intros [a|] [b|]; simpl; auto.
  - intros [a|] [b|] [c|]; simpl; try done. apply Htr.
Qed.

Lemma lawful_on {A B} (f : A -> B) (cmp : B -> B -> comparison) :
  lawful_cmp cmp -> lawful_cmp (fun a b => cmp (f a) (f b)).
Proof. intros [Hopp Htr]. split; intros; [apply Hopp|by eapply Htr]. Qed.

Lemma lawful_const {A} : lawful_cmp (fun _ _ : A => Eq).
Proof. by split. Qed.

(** Compare by a first key, then by a second one; compare in reverse. *)
Definition cmp_then {A} (c1 c2 : A -> A -> comparison) (a b : A) : comparison :=
  match c1 a b with Eq => c2 a b | r => r end.

Lemma lawful_then {A} (c1 c2 : A -> A -> comparison) :
  lawful_cmp c1 -> lawful_cmp c2 -> lawful_cmp (cmp_then c1 c2).
Proof.
  intros H1 H2. pose proof H1 as [O1 T1]. pose proof H2 as [O2 T2]. unfold cmp_then. split.
  - intros a b. rewrite (O1 a b). destruct (c1 b a); simpl; auto.
  - intros a b c. destruct (c1 a b) eqn:E1; [| |done].
    + destruct (c1 b c) eqn:E2; [| |done].
      * rewrite (cmp_le_eq_trans c1 a b c) by done. apply T2.
      * by rewrite (cmp_lt_trans_r c1 a b c) by (done || by rewrite E1).
    + intros _ Hbc. rewrite (cmp_lt_trans_l c1 a b c); [done|done|done|].
      by destruct (c1 b c).
Qed.

Lemma lawful_rev {A} (c : A -> A -> comparison) :
  lawful_cmp c -> lawful_cmp (fun a b => c b a).
Proof. intros [O T]. split; [intros; apply O|intros x y z Hxy Hyz; by apply (T z y x)]. Qed.

Create HintDb panel.
#[export] Hint Resolve lawful_N_compare lawful_Z_compare lawful_string_compare
  lawful_opt_cmp lawful_const lawful_then lawful_rev : panel.

(** ** Lists *)

Lemma NoDup_map_filter {A B} (f : A -> B) (P : A -> Prop) `{forall x, Decision (P x)} l :
  NoDup (map f l) -> NoDup (map f (filter P l)).
Proof.
  induction l as [|x l IH]; [constructor|]. intros [Hx Hl]%list.NoDup_cons.
  rewrite list.filter_cons. case_decide; [|by apply IH]. constructor; [|by apply IH].
  intros Hin. apply Hx. apply list_elem_of_fmap in Hin as (y & -> & Hy%list_elem_of_filter).
  apply list_elem_of_fmap_2. tauto.
Qed.

Lemma ids_strictly_sorted {A} (id : A -> N) (l : list A) :
  StronglySorted (fun a b => id a <= id b)%N l -> NoDup (map id l) ->
  StronglySorted (fun a b => id a < id b)%N l.
Proof.
  induction 1 as [|t l Hl IH Ht]; simpl; [constructor|].
  intros [Hnot Hnd]%list.NoDup_cons. constructor; [by apply IH|].
  rewrite list.Forall_forall in Ht |- *. intros t' Hin. specialize (Ht t' Hin).
  assert (id t <> id t'); [|lia].
  intros E. apply Hnot. rewrite E. by apply list_elem_of_fmap_2.
Qed.

(** Ascending ids are distinct. *)
Lemma sorted_ids_nodup {A} (id : A -> N) (l : list A) :
  StronglySorted (fun a b => id a < id b)%N l -> NoDup (map id l).
Proof.
  induction 1 as [|t l Hl IH Ht]; simpl; [constructor|].
  constructor; [|done]. rewrite list_elem_of_fmap. intros (x & Hx & Hin).
  rewrite list.Forall_forall in Ht. specialize (Ht x Hin). lia.
Qed.

(** ** Weakest preconditions *)

(** [wp m Q s]: the call [m] started in [s] ends in an outcome and a state that
    satisfy [Q]. *)
Definition wp {S A} (m : M S A) (Q : result A -> S -> Prop) (s : S) : Prop :=
  Q (fst (m s)) (snd (m s)).

Lemma wp_run {S A} (m : M S A) Q s r s' : wp m Q s -> m s = (r, s') -> Q r s'.
Proof. unfold wp. intros H E. by rewrite E in H. Qed.

Lemma wp_intro {S A} (m : M S A) (Q : result A -> S -> Prop) s :
  (forall r s', m s = (r, s') -> Q r s') -> wp m Q s.
Proof. intros H. unfold wp. apply H. by destruct (m s). Qed.

Lemma wp_mono {S A} (m : M S A) (Q Q' : result A -> S -> Prop) s :
  wp m Q s -> (forall r s', Q r s' -> Q' r s') -> wp m Q' s.
Proof. unfold wp. auto. Qed.

Lemma wp_ret {S A} (a : A) Q (s : S) : Q (Ok a) s -> wp (ret a) Q s.
Proof. done. Qed.

Lemma wp_fail {S A} e (Q : result A -> S -> Prop) s : Q (Err e) s -> wp (fail e) Q s.
Proof. done. Qed.

Lemma wp_lift {S A} (r : result A) Q (s : S) : Q r s -> wp (lift r) Q s.
Proof. done. Qed.

Lemma wp_get {S} Q (s : S) : Q (Ok s) s -> wp get Q s.
Proof. done. Qed.

Lemma wp_bind {S A B} (m : M S A) (k : A -> M S B) Q s :
  wp m (fun r s' => match r with
                    | Ok a => wp (k a) Q s'
                    | Err e => Q (Err e) s'
                    | Panic w => Q (Panic w) s'
                    end) s ->
  wp (bind m k) Q s.
Proof. unfold wp, bind. by destruct (m s) as [[a|e|w] s']. Qed.

Lemma wp_wrap {S A} msg (m : M S A) Q s :
  wp m (fun r s' => Q (wrap_err msg r) s') s -> wp (wrap msg m) Q s.
Proof. unfold wp, wrap. by destruct (m s) as [r s']. Qed.

Lemma wp_attempt {S A} (m : M S A) Q s :
  wp m (fun r s' => match r with Panic w => Q (Panic w) s' | r => Q (Ok r) s' end) s ->
  wp (attempt m) Q s.
Proof. unfold wp, attempt. by destruct (m s) as [[a|e|w] s']. Qed.

Lemma wp_zoom {S T A} (prj : S -> T) inj (m : M T A) Q s :
  wp m (fun r t => Q r (inj t s)) (prj s) -> wp (zoom prj inj m) Q s.
Proof. unfold wp, zoom. by destruct (m (prj s)) as [r t]. Qed.

(** A loop over a list, by an invariant indexed by the elements done. *)
Lemma wp_for_each {S A} (I : list A -> S -> Prop) (body : A -> M S unit)
    (Q : result unit -> S -> Prop) l : forall done s,
  I done s ->
  (forall pre x s, I (done ++ pre) s -> x ∈ l ->
     wp (body x) (fun r s' => match r with Ok _ => I (done ++ pre ++ [x]) s' | r => Q r s' end) s) ->
  (forall s, I (done ++ l) s -> Q (Ok tt) s) ->
  wp (for_each l body) Q s.
Proof.
  induction l as [|x l IH]; intros done s HI Hbody Hend; simpl.
  - apply wp_ret, Hend. by rewrite app_nil_r.
  - apply wp_bind. eapply wp_mono; [apply (Hbody [] x)|].
    + by rewrite app_nil_r.
    + set_solver.
    + intros [[]|e|w] s' H; [|exact H|exact H]. simpl in H.
      apply (IH (done ++ [x])); [done| |].
      * intros pre y s0 HI0 Hy.
        specialize (Hbody ([x] ++ pre) y s0). rewrite !app_assoc in Hbody.
        rewrite !app_assoc. apply Hbody; [by rewrite <- !app_assoc in HI0 |- *|set_solver].
      * intros s0. rewrite <- app_assoc. apply Hend.
Qed.

#[export] Hint Resolve wp_ret wp_fail wp_lift wp_get wp_bind wp_wrap wp_attempt wp_zoom : panel.

(** Step through a monadic call. *)
Ltac wp_step :=
  lazymatch goal with
  | |- wp (bind _ _) _ _ => apply wp_bind
  | |- wp (wrap _ _) _ _ => apply wp_wrap
  | |- wp (attempt _) _ _ => apply wp_attempt
  | |- wp (zoom _ _ _) _ _ => apply wp_zoom
  | |- wp get _ _ => apply wp_get
  | |- wp (ret _) _ _ => apply wp_ret
  | |- wp (fail _) _ _ => apply wp_fail
  | |- wp (lift _) _ _ => apply wp_lift
  end; cbv beta.
