(* ===== verification/GoNum.v ===== *)
(** Decimal text of machine integers: [strconv.FormatUint], [strconv.Itoa]
    and [strconv.ParseUint(s, 10, 64)], the standard-library functions the
    channel names, chunk paths and shortcodes are built with, and their
    round trip. *)

From S2P Require Import Prelude.
From stdpp Require Import base tactics strings list numbers.
From Stdlib Require Import NArith ZArith Lia Ascii.

Definition digit_char (d : N) : ascii := ascii_of_N (48 + d).
Definition char_digit (c : ascii) : option N :=
  let n := N_of_ascii c in
  if ((48 <=? n) && (n <=? 57))%N then Some (n - 48)%N else None.

Fixpoint format_fuel (fuel : nat) (n : N) (acc : string) : string :=
  match fuel with
  | O => acc
  | S f =>
      let acc' := String (digit_char (n mod 10)) acc in
      if (n / 10 =? 0)%N then acc' else format_fuel f (n / 10) acc'
  end.

(** A number written in binary digits, and read again: a text for every value of
    a countable type. *)
Fixpoint digits (p : positive) : string :=
  match p with xH => EmptyString | xO p => String "0"%char (digits p) | xI p => String "1"%char (digits p) end.
Fixpoint number (s : string) : positive :=
  match s with EmptyString => xH | String c s => if Ascii.eqb c "0"%char then xO (number s) else xI (number s) end.
Lemma number_digits p : number (digits p) = p.
Proof. induction p as [p IH|p IH|]; simpl; congruence. Qed.

(** [strconv.FormatUint(n, 10)]: a [uint64] has at most 20 decimal digits. *)
Definition FormatUint (n : N) : string := format_fuel 20 n "".

(** [strconv.Itoa] on a 64-bit [int]. *)
Definition Itoa (z : Z) : string :=
  if (z <? 0)%Z then String "-" (FormatUint (Z.to_N (- z))) else FormatUint (Z.to_N z).

Definition ErrSyntax : error := ENew "invalid syntax".
Definition ErrRange : error := ENew "value out of range".
Definition maxUint64 : N := 18446744073709551615.

(** The digit loop of [strconv.ParseUint] with base 10 and 64 bits. *)
Fixpoint parse_digits (n : N) (s : string) : result N :=
  match s with
  | EmptyString => Ok n
  | String c s' =>
      match char_digit c with
      | None => Err ErrSyntax
      | Some d =>
          if (maxUint64 / 10 + 1 <=? n)%N then Err ErrRange
          else
            let n10 := mul64 n 10 in
            let n1 := add64 n10 d in
            if ((n1 <? n10) || (maxUint64 <? n1))%N then Err ErrRange
            else parse_digits n1 s'
      end
  end.

Definition ParseUint (s : string) : result N :=
  match s with EmptyString => Err ErrSyntax | _ => parse_digits 0 s end.

(** The number a digit string denotes, without machine bounds. *)
Fixpoint digits_value (n : N) (s : string) : option N :=
  match s with
  | EmptyString => Some n
  | String c s' =>
      match char_digit c with
      | Some d => digits_value (n * 10 + d) s'
      | None => None
      end
  end.

Lemma digit_char_ok d : (d < 10)%N -> char_digit (digit_char d) = Some d.
Proof.
  intros Hd. unfold char_digit, digit_char.
  rewrite N_ascii_embedding by lia.
  replace ((48 <=? 48 + d) && (48 + d <=? 57))%N with true.
  - f_equal. lia.
  - symmetry. apply andb_true_iff. split; apply N.leb_le; lia.
Qed.

Lemma digits_value_mono n s m : digits_value n s = Some m -> (n <= m)%N.
Proof.
  revert n. induction s as [|c s IH]; intros n; simpl; [intros [= ->]; lia|].
  destruct (char_digit c); [|done]. intros H. apply IH in H. lia.
Qed.

(** The checked loop computes the denoted number exactly when it fits. *)
Lemma parse_digits_value n s m :
  (n <= maxUint64)%N -> digits_value n s = Some m -> (m <= maxUint64)%N ->
  parse_digits n s = Ok m.
Proof.
  revert n. induction s as [|c s IH]; intros n Hn; simpl; [intros [= ->]; done|].
  destruct (char_digit c) as [d|] eqn:Hc; [|done].
  intros H Hm. pose proof (digits_value_mono _ _ _ H) as Hle.
  assert (Hcut : (maxUint64 / 10 + 1 <=? n)%N = false).
  { apply N.leb_gt. change (maxUint64 / 10)%N with 1844674407370955161%N. unfold maxUint64 in *. lia. }
  rewrite Hcut. unfold mul64, add64, wrap64.
  assert (Hs : (n * 10 + d < two64)%N) by (unfold two64, maxUint64 in *; lia).
  rewrite (N.mod_small (n * 10)) by (revert Hs; unfold two64; lia).
  rewrite N.mod_small by done.
  replace ((n * 10 + d <? n * 10) || (maxUint64 <? n * 10 + d))%N with false.
  - apply IH; [lia|done|done].
  - symmetry. apply orb_false_iff. split; apply N.ltb_ge; lia.
Qed.

Lemma parse_digits_sound n s m :
  (n <= maxUint64)%N -> parse_digits n s = Ok m ->
  digits_value n s = Some m /\ (m <= maxUint64)%N.
Proof.
  revert n. induction s as [|c s IH]; intros n Hn; simpl; [intros [= ->]; done|].
  destruct (char_digit c) as [d|] eqn:Hc; [|done].
  destruct (N.leb_spec (maxUint64 / 10 + 1) n) as [|Hcut]; [done|].
  assert (Hd : (d <= 9)%N).
  { unfold char_digit in Hc. destruct (_ && _) eqn:E; [|done].
    apply andb_true_iff in E as [_ E%N.leb_le]. injection Hc as <-. lia. }
  change (maxUint64 / 10)%N with 1844674407370955161%N in Hcut.
  assert (H10 : (n * 10 < two64)%N) by (unfold maxUint64, two64 in *; lia).
  unfold mul64, add64, wrap64. rewrite (N.mod_small (n * 10)) by done.
  destruct (decide (n * 10 + d < two64)%N) as [Hs|Hs].
  - rewrite N.mod_small by done.
    replace ((n * 10 + d <? n * 10) || (maxUint64 <? n * 10 + d))%N with false.
    + apply IH. revert Hs. unfold maxUint64, two64. lia.
    + symmetry. apply orb_false_iff. split; apply N.ltb_ge; [lia|].
      revert Hs. unfold maxUint64, two64. lia.
  - assert (E : ((n * 10 + d) `mod` two64 = n * 10 + d - two64)%N).
    { symmetry. apply (N.mod_unique _ _ 1); revert Hs H10; unfold two64; lia. }
    rewrite E.
    replace (n * 10 + d - two64 <? n * 10)%N with true; [done|].
    symmetry. apply N.ltb_lt. revert Hs H10. unfold two64. lia.
Qed.

Lemma format_fuel_value f n acc :
  (n < 10 ^ N.of_nat f)%N -> f <> O ->
  digits_value 0 (format_fuel f n acc) = digits_value n acc.
Proof.
  revert n acc. induction f as [|f IH]; [done|]. intros n acc Hn _. simpl.
  assert (Hmod : (n mod 10 < 10)%N) by (apply N.mod_lt; lia).
  pose proof (N.div_mod n 10 ltac:(lia)) as Hdiv.
  destruct (N.eqb_spec (n / 10) 0) as [Hz|Hz].
  - simpl. rewrite digit_char_ok by done. f_equal. lia.
  - rewrite IH.
    + simpl. rewrite digit_char_ok by done. f_equal. lia.
    + rewrite Nat2N.inj_succ, N.pow_succ_r' in Hn. apply N.Div0.div_lt_upper_bound. lia.
    + intros ->. simpl in Hn. apply Hz. apply N.div_small. lia.
Qed.

Lemma format_fuel_cons f n acc :
  f <> O -> exists c s, format_fuel f n acc = String c s.
Proof.
  revert n acc. induction f as [|f IH]; [done|]. intros n acc _. simpl.
  case_match; [eauto|]. destruct f as [|f]; [simpl; eauto|]. by apply IH.
Qed.

Lemma FormatUint_cons n : exists c s, FormatUint n = String c s.
Proof. by apply format_fuel_cons. Qed.

Lemma FormatUint_value n :
  (n < two64)%N -> digits_value 0 (FormatUint n) = Some n.
Proof.
  intros Hn. unfold FormatUint. rewrite format_fuel_value; [done| |done].
  revert Hn. unfold two64. lia.
Qed.

Lemma ParseUint_FormatUint n : (n < two64)%N -> ParseUint (FormatUint n) = Ok n.
Proof.
  intros Hn. destruct (FormatUint_cons n) as (c & s & E).
  unfold ParseUint. rewrite E, <- E. apply parse_digits_value.
  - unfold maxUint64. lia.
  - by apply FormatUint_value.
  - revert Hn. unfold two64, maxUint64. lia.
Qed.

Lemma FormatUint_inj m n :
  (m < two64)%N -> (n < two64)%N -> FormatUint m = FormatUint n -> m = n.
Proof.
  intros Hm Hn E.
  pose proof (ParseUint_FormatUint m Hm) as Pm.
  rewrite E, ParseUint_FormatUint in Pm by done. congruence.
Qed.

(** Every text [ParseUint] accepts denotes the returned [uint64]. *)
Lemma ParseUint_bound s n : ParseUint s = Ok n -> (n < two64)%N.
Proof.
  unfold ParseUint. destruct s; [done|]. intros H.
  apply parse_digits_sound in H as [_ H]; [|unfold maxUint64; lia].
  revert H. unfold maxUint64, two64. lia.
Qed.

#[export] Hint Resolve ParseUint_FormatUint ParseUint_bound : panel.
