(* ===== verification/Domain.v ===== *)
(** The domain records of [internal/domain] and the query filters of
    [internal/filters]: daemon tasks, game servers, nodes, games, game mods,
    server settings, sorting and pagination.  A Go pointer to a scalar is an
    [option], a [time.Time] is a number of nanoseconds since the zero time
    (so [IsZero] is equality with 0), a Go string-typed enum is a [string]. *)

From S2P Require Import Prelude.
From S2P Require Import GoNum.
From stdpp Require Import base tactics strings list gmap numbers sorting.
From Stdlib Require Import NArith ZArith.

Abbreviation time := Z (only parsing).
Definition time_zero : time := 0%Z.
Definition IsZero (t : time) : bool := (t =? time_zero)%Z.
Definition second : Z := 1000000000.
Definition minute : Z := 60 * second.

(** ** Daemon tasks *)

Definition DaemonTaskStatusWaiting : string := "waiting".
Definition DaemonTaskStatusWorking : string := "working".
Definition DaemonTaskStatusError : string := "error".
Definition DaemonTaskStatusSuccess : string := "success".
Definition DaemonTaskStatusCanceled : string := "canceled".

Definition DaemonTaskTypeServerStart : string := "gsstart".
Definition DaemonTaskTypeServerStop : string := "gsstop".
Definition DaemonTaskTypeServerRestart : string := "gsrest".
Definition DaemonTaskTypeServerUpdate : string := "gsupd".
Definition DaemonTaskTypeServerInstall : string := "gsinst".
Definition DaemonTaskTypeServerDelete : string := "gsdel".
Definition DaemonTaskTypeServerMove : string := "gsmove".
Definition DaemonTaskTypeCmdExec : string := "cmdexec".

Record DaemonTask : Type := mkDaemonTask {
  dt_ID : N;
  dt_RunAftID : option N;
  dt_CreatedAt : option time;
  dt_UpdatedAt : option time;
  dt_DedicatedServerID : N;
  dt_ServerID : option N;
  dt_Task : string;
  dt_Data : option string;
  dt_Cmd : option string;
  dt_Output : option string;
  dt_Status : string;
}.

#[export] Instance DaemonTask_eq_dec : EqDecision DaemonTask.
Proof. solve_decision. Defined.

Definition dt_set_status (s : string) (t : DaemonTask) : DaemonTask :=
  mkDaemonTask (dt_ID t) (dt_RunAftID t) (dt_CreatedAt t) (dt_UpdatedAt t)
    (dt_DedicatedServerID t) (dt_ServerID t) (dt_Task t) (dt_Data t) (dt_Cmd t)
    (dt_Output t) s.
Definition dt_set_output (o : option string) (t : DaemonTask) : DaemonTask :=
  mkDaemonTask (dt_ID t) (dt_RunAftID t) (dt_CreatedAt t) (dt_UpdatedAt t)
    (dt_DedicatedServerID t) (dt_ServerID t) (dt_Task t) (dt_Data t) (dt_Cmd t)
    o (dt_Status t).
Definition dt_set_id (i : N) (t : DaemonTask) : DaemonTask :=
  mkDaemonTask i (dt_RunAftID t) (dt_CreatedAt t) (dt_UpdatedAt t)
    (dt_DedicatedServerID t) (dt_ServerID t) (dt_Task t) (dt_Data t) (dt_Cmd t)
    (dt_Output t) (dt_Status t).
Definition dt_set_times (c u : option time) (t : DaemonTask) : DaemonTask :=
  mkDaemonTask (dt_ID t) (dt_RunAftID t) c u
    (dt_DedicatedServerID t) (dt_ServerID t) (dt_Task t) (dt_Data t) (dt_Cmd t)
    (dt_Output t) (dt_Status t).

(** ** Game servers *)

Definition ServerInstalledStatusNotInstalled : Z := 0.
Definition ServerInstalledStatusInstalled : Z := 1.
Definition ServerInstalledStatusInstallationInProg : Z := 2.

Definition ServerInstalledStatus_Valid (s : Z) : bool :=
  bool_decide (s = ServerInstalledStatusNotInstalled) ||
  bool_decide (s = ServerInstalledStatusInstalled) ||
  bool_decide (s = ServerInstalledStatusInstallationInProg).

(** A [map[string]any] value is kept as its [fmt.Sprint] text, the only use
    the modelled code makes of it. *)
Abbreviation metadata := (option (gmap string string)).

Record Server : Type := mkServer {
  sv_ID : N;
  sv_UID : string;
  sv_UUID : string;
  sv_UUIDShort : string;
  sv_Enabled : bool;
  sv_Installed : Z;
  sv_Blocked : bool;
  sv_Name : string;
  sv_GameID : string;
  sv_DSID : N;
  sv_GameModID : N;
  sv_Expires : option time;
  sv_ServerIP : string;
  sv_ServerPort : Z;
  sv_QueryPort : option Z;
  sv_RconPort : option Z;
  sv_Rcon : option string;
  sv_Dir : string;
  sv_SuUser : option string;
  sv_CPULimit : option Z;
  sv_RAMLimit : option Z;
  sv_NetLimit : option Z;
  sv_StartCommand : option string;
  sv_StopCommand : option string;
  sv_ForceStopCommand : option string;
  sv_RestartCommand : option string;
  sv_ProcessActive : bool;
  sv_LastProcessCheck : option time;
  sv_Vars : option (gmap string string);
  sv_Metadata : metadata;
  sv_CreatedAt : option time;
  sv_UpdatedAt : option time;
  sv_DeletedAt : option time;
}.

Definition sv_set_installed (i : Z) (s : Server) : Server :=
  mkServer (sv_ID s) (sv_UID s) (sv_UUID s) (sv_UUIDShort s) (sv_Enabled s) i
    (sv_Blocked s) (sv_Name s) (sv_GameID s) (sv_DSID s) (sv_GameModID s)
    (sv_Expires s) (sv_ServerIP s) (sv_ServerPort s) (sv_QueryPort s)
    (sv_RconPort s) (sv_Rcon s) (sv_Dir s) (sv_SuUser s) (sv_CPULimit s)
    (sv_RAMLimit s) (sv_NetLimit s) (sv_StartCommand s) (sv_StopCommand s)
    (sv_ForceStopCommand s) (sv_RestartCommand s) (sv_ProcessActive s)
    (sv_LastProcessCheck s) (sv_Vars s) (sv_Metadata s) (sv_CreatedAt s)
    (sv_UpdatedAt s) (sv_DeletedAt s).

Definition timeExpireProcessCheck : Z := 2 * minute.

(** [Server.IsOnline], the current time as an argument. *)
Definition IsOnline (now : time) (s : Server) : bool :=
  match sv_LastProcessCheck s with
  | None => false
  | Some t =>
      if IsZero t then false
      else sv_ProcessActive s && (now - timeExpireProcessCheck <? t)%Z
  end.

(** ** Nodes, games and game mods: the columns the modelled code reads *)

Definition NodeOSLinux : string := "linux".
Definition NodeOSWindows : string := "windows".
Definition NodeOSMacOS : string := "macos".
Definition NodeOSOther : string := "other".
Definition NodePreferInstallMethodAuto : string := "auto".

Record Node : Type := mkNode {
  nd_ID : N;
  nd_Enabled : bool;
  nd_Name : string;
  nd_OS : string;
  nd_Location : string;
  nd_Provider : option string;
  nd_IPs : list string;
  nd_RAM : option string;
  nd_CPU : option string;
  nd_WorkPath : string;
  nd_SteamcmdPath : option string;
  nd_GdaemonHost : string;
  nd_GdaemonPort : Z;
  nd_GdaemonAPIKey : string;
  nd_GdaemonAPIToken : option string;
  nd_GdaemonLogin : option string;
  nd_GdaemonPassword : option string;
  nd_GdaemonServerCert : string;
  nd_ClientCertificateID : N;
  nd_PreferInstallMethod : string;
  nd_ScriptInstall : option string;
  nd_ScriptReinstall : option string;
  nd_ScriptUpdate : option string;
  nd_ScriptStart : option string;
  nd_ScriptPause : option string;
  nd_ScriptUnpause : option string;
  nd_ScriptStop : option string;
  nd_ScriptKill : option string;
  nd_ScriptRestart : option string;
  nd_ScriptStatus : option string;
  nd_ScriptStats : option string;
  nd_ScriptGetConsole : option string;
  nd_ScriptSendCommand : option string;
  nd_ScriptDelete : option string;
  nd_CreatedAt : option time;
  nd_UpdatedAt : option time;
  nd_DeletedAt : option time;
}.

Definition nd_set_id (i : N) (n : Node) : Node :=
  mkNode i (nd_Enabled n) (nd_Name n) (nd_OS n) (nd_Location n) (nd_Provider n) (nd_IPs n)
    (nd_RAM n) (nd_CPU n) (nd_WorkPath n) (nd_SteamcmdPath n) (nd_GdaemonHost n) (nd_GdaemonPort n)
    (nd_GdaemonAPIKey n) (nd_GdaemonAPIToken n) (nd_GdaemonLogin n) (nd_GdaemonPassword n)
    (nd_GdaemonServerCert n) (nd_ClientCertificateID n) (nd_PreferInstallMethod n)
    (nd_ScriptInstall n) (nd_ScriptReinstall n) (nd_ScriptUpdate n) (nd_ScriptStart n)
    (nd_ScriptPause n) (nd_ScriptUnpause n) (nd_ScriptStop n) (nd_ScriptKill n) (nd_ScriptRestart n)
    (nd_ScriptStatus n) (nd_ScriptStats n) (nd_ScriptGetConsole n) (nd_ScriptSendCommand n)
    (nd_ScriptDelete n) (nd_CreatedAt n) (nd_UpdatedAt n) (nd_DeletedAt n).
Definition nd_set_times (created updated : option time) (n : Node) : Node :=
  mkNode (nd_ID n) (nd_Enabled n) (nd_Name n) (nd_OS n) (nd_Location n) (nd_Provider n) (nd_IPs n)
    (nd_RAM n) (nd_CPU n) (nd_WorkPath n) (nd_SteamcmdPath n) (nd_GdaemonHost n) (nd_GdaemonPort n)
    (nd_GdaemonAPIKey n) (nd_GdaemonAPIToken n) (nd_GdaemonLogin n) (nd_GdaemonPassword n)
    (nd_GdaemonServerCert n) (nd_ClientCertificateID n) (nd_PreferInstallMethod n)
    (nd_ScriptInstall n) (nd_ScriptReinstall n) (nd_ScriptUpdate n) (nd_ScriptStart n)
    (nd_ScriptPause n) (nd_ScriptUnpause n) (nd_ScriptStop n) (nd_ScriptKill n) (nd_ScriptRestart n)
    (nd_ScriptStatus n) (nd_ScriptStats n) (nd_ScriptGetConsole n) (nd_ScriptSendCommand n)
    (nd_ScriptDelete n) created updated (nd_DeletedAt n).
Definition nd_set_token (token : option string) (updated : option time) (n : Node) : Node :=
  mkNode (nd_ID n) (nd_Enabled n) (nd_Name n) (nd_OS n) (nd_Location n) (nd_Provider n) (nd_IPs n)
    (nd_RAM n) (nd_CPU n) (nd_WorkPath n) (nd_SteamcmdPath n) (nd_GdaemonHost n) (nd_GdaemonPort n)
    (nd_GdaemonAPIKey n) token (nd_GdaemonLogin n) (nd_GdaemonPassword n) (nd_GdaemonServerCert n)
    (nd_ClientCertificateID n) (nd_PreferInstallMethod n) (nd_ScriptInstall n)
    (nd_ScriptReinstall n) (nd_ScriptUpdate n) (nd_ScriptStart n) (nd_ScriptPause n)
    (nd_ScriptUnpause n) (nd_ScriptStop n) (nd_ScriptKill n) (nd_ScriptRestart n)
    (nd_ScriptStatus n) (nd_ScriptStats n) (nd_ScriptGetConsole n) (nd_ScriptSendCommand n)
    (nd_ScriptDelete n) (nd_CreatedAt n) updated (nd_DeletedAt n).

#[export] Instance Node_eq_dec : EqDecision Node.
Proof. solve_decision. Defined.

Record Game : Type := mkGame {
  gm_Code : string;
  gm_Name : string;
  gm_Engine : string;
  gm_EngineVersion : string;
  gm_SteamAppIDLinux : option N;
  gm_SteamAppIDWindows : option N;
  gm_SteamAppSetConfig : option string;
  gm_RemoteRepositoryLinux : option string;
  gm_RemoteRepositoryWindows : option string;
  gm_LocalRepositoryLinux : option string;
  gm_LocalRepositoryWindows : option string;
  gm_Enabled : Z;
  gm_Metadata : metadata;
}.

Record GameMod : Type := mkGameMod {
  gmod_ID : N;
  gmod_GameCode : string;
  gmod_Name : string;
  gmod_FastRcon : list (string * string);
  gmod_Vars : list (string * string * string * bool);
  gmod_RemoteRepositoryLinux : option string;
  gmod_RemoteRepositoryWindows : option string;
  gmod_LocalRepositoryLinux : option string;
  gmod_LocalRepositoryWindows : option string;
  gmod_StartCmdLinux : option string;
  gmod_StartCmdWindows : option string;
  gmod_KickCmd : option string;
  gmod_BanCmd : option string;
  gmod_ChnameCmd : option string;
  gmod_SrestartCmd : option string;
  gmod_ChmapCmd : option string;
  gmod_SendmsgCmd : option string;
  gmod_PasswdCmd : option string;
  gmod_Metadata : metadata;
}.

(** ** Server settings *)

(** The dynamic values ([any]) a setting is built from. *)
Inductive any : Type :=
| AnyNil
| AnyString (s : string)
| AnyBool (b : bool)
| AnyInt (i : Z).

#[export] Instance any_eq_dec : EqDecision any.
Proof. solve_decision. Defined.

Inductive serverSettingType : Type :=
| serverSettingTypeUnknown
| serverSettingTypeString
| serverSettingTypeBool
| serverSettingTypeInt.

#[export] Instance serverSettingType_eq_dec : EqDecision serverSettingType.
Proof. solve_decision. Defined.

Record ServerSettingValue : Type := mkSettingValue {
  ssv_value : any;
  ssv_tp : serverSettingType;
}.

#[export] Instance ServerSettingValue_eq_dec : EqDecision ServerSettingValue.
Proof. solve_decision. Defined.

Definition NewServerSettingValue (v : any) : ServerSettingValue :=
  match v with
  | AnyString _ => mkSettingValue v serverSettingTypeString
  | AnyBool _ => mkSettingValue v serverSettingTypeBool
  | AnyInt _ => mkSettingValue v serverSettingTypeInt
  | AnyNil => mkSettingValue v serverSettingTypeUnknown
  end.

Definition ServerSettingValue_String (s : ServerSettingValue) : string * bool :=
  match ssv_tp s, ssv_value s with
  | serverSettingTypeString, AnyString str => (str, true)
  | serverSettingTypeInt, AnyInt i => (Itoa i, true)
  | serverSettingTypeBool, AnyBool b => (if b then "true"%string else "false"%string, true)
  | _, _ => (""%string, false)
  end.

Definition ServerSettingValue_Bool (s : ServerSettingValue) : bool * bool :=
  match ssv_value s with
  | AnyBool b => (b, true)
  | AnyInt i => (negb (i =? 0)%Z, true)
  | AnyString str =>
      if String.eqb str "true" then (true, true)
      else if String.eqb str "false" then (false, true)
      else (false, false)
  | AnyNil => (false, false)
  end.

Definition ServerSettingValue_Int (s : ServerSettingValue) : Z * bool :=
  match ssv_tp s, ssv_value s with
  | serverSettingTypeInt, AnyInt i => (i, true)
  | _, _ => (0%Z, false)
  end.

(** [Value] (driver.Valuer): what is written to the database column. *)
Definition ServerSettingValue_Value (s : ServerSettingValue) : option string :=
  match ssv_value s with
  | AnyNil => None
  | _ => Some (fst (ServerSettingValue_String s))
  end.

(** [UnmarshalJSON], from the value the JSON decoder read: the type tag of the
    receiver is left as it was. *)
Definition ServerSettingValue_UnmarshalJSON (decoded : any) (s : ServerSettingValue) : ServerSettingValue :=
  match decoded with
  | AnyNil => mkSettingValue (AnyString "") (ssv_tp s)
  | v => mkSettingValue v (ssv_tp s)
  end.

Record ServerSetting : Type := mkServerSetting {
  ss_ID : N;
  ss_Name : string;
  ss_ServerID : N;
  ss_Value : ServerSettingValue;
}.

#[export] Instance ServerSetting_eq_dec : EqDecision ServerSetting.
Proof. solve_decision. Defined.

(** ** Filters, sorting, pagination *)

Record FindDaemonTask : Type := mkFindDaemonTask {
  ft_IDs : list N;
  ft_DedicatedServerIDs : list N;
  ft_ServerIDs : list (option N);
  ft_Tasks : list string;
  ft_Statuses : list string;
}.

Record FindServerSetting : Type := mkFindServerSetting {
  fs_IDs : list N;
  fs_ServerIDs : list N;
  fs_Names : list string;
}.

Inductive SortDirection : Type := SortDirectionAsc | SortDirectionDesc.
Record Sorting : Type := mkSorting { so_Field : string; so_Direction : SortDirection }.
Definition DefaultLimit : N := 20.
Record Pagination : Type := mkPagination { pg_Limit : N; pg_Offset : N }.

Section ordering.
Context {A : Type} (compare : A -> A -> string -> comparison) (id : A -> N).

(** The [less] closure of the [sort...] methods: compare by each requested
    column in turn, descending columns reversed. *)
Fixpoint less_by (order : list Sorting) (a b : A) : bool :=
  match order with
  | [] => false
  | o :: rest =>
      match compare a b (so_Field o) with
      | Eq => less_by rest a b
      | Lt => match so_Direction o with SortDirectionDesc => false | SortDirectionAsc => true end
      | Gt => match so_Direction o with SortDirectionDesc => true | SortDirectionAsc => false end
      end
  end.

Definition sort_rows (rows : list A) (order : list Sorting) : list A :=
  match order with
  | [] => sort_slice (fun a b => (id a <? id b)%N) rows
  | _ => sort_slice (less_by order) rows
  end.

(** [applyPagination]: the bounds are [uint64] arithmetic, and a slice whose
    upper bound is below its lower bound panics. *)
Definition applyPagination (rows : list A) (pagination : option Pagination) : result (list A) :=
  match pagination with
  | None => Ok rows
  | Some p =>
      let limit := if (pg_Limit p =? 0)%N then DefaultLimit else pg_Limit p in
      let offset := pg_Offset p in
      let len := N.of_nat (length rows) in
      if (len <=? offset)%N then Ok []
      else
        let stop := N.min (add64 offset limit) len in
        if (stop <? offset)%N then Panic "slice bounds out of range"
        else Ok (take (N.to_nat (stop - offset)) (drop (N.to_nat offset) rows))
  end.

Hypothesis compare_lawful : forall f, lawful_cmp (fun a b => compare a b f).

(** The same ordering as one lexicographic comparison. *)
Fixpoint order_cmp (order : list Sorting) : A -> A -> comparison :=
  match order with
  | [] => fun _ _ => Eq
  | o :: rest =>
      cmp_then
        (match so_Direction o with
         | SortDirectionAsc => fun a b => compare a b (so_Field o)
         | SortDirectionDesc => fun a b => compare b a (so_Field o)
         end) (order_cmp rest)
  end.

Lemma order_cmp_lawful order : lawful_cmp (order_cmp order).
Proof.
  induction order as [|[f []] order IH]; simpl; auto with panel.
Qed.

Lemma less_by_cmp order a b :
  less_by order a b = match order_cmp order a b with Lt => true | _ => false end.
Proof.
  induction order as [|[f d] order IH]; simpl; [done|]. rewrite IH. unfold cmp_then.
  destruct d; [by destruct (compare a b f)|].
  rewrite (cmp_opp _ (compare_lawful f) a b). by destruct (compare b a f).
Qed.

Lemma less_by_asym order a b : less_by order a b = true -> less_by order b a = false.
Proof.
  rewrite !less_by_cmp, (cmp_opp _ (order_cmp_lawful order) b a).
  by destruct (order_cmp order a b).
Qed.

Lemma not_less_by order a b : not_less (less_by order) a b <-> order_cmp order a b <> Gt.
Proof.
  unfold not_less. rewrite less_by_cmp, (cmp_opp _ (order_cmp_lawful order) b a).
  by destruct (order_cmp order a b).
Qed.

Lemma less_by_trans order : Transitive (not_less (less_by order)).
Proof.
  intros a b c. rewrite !not_less_by. apply (cmp_trans _ (order_cmp_lawful order)).
Qed.

Lemma sort_rows_perm rows order : sort_rows rows order ≡ₚ rows.
Proof. destruct order; apply sort_slice_perm. Qed.

(** Requested order: no row is followed by one that compares below it. *)
Lemma sort_rows_sorted rows order :
  order <> [] ->
  StronglySorted (fun a b => order_cmp order a b <> Gt) (sort_rows rows order).
Proof.
  destruct order as [|o order]; [done|]. intros _. unfold sort_rows.
  pose proof (sort_slice_strongly_sorted (less_by (o :: order)) rows
    (less_by_asym _) (less_by_trans _)) as Hs.
  induction Hs as [|a l Hl IH Ha]; constructor; [done|].
  eapply Forall_impl; [exact Ha|]. intros b. apply not_less_by.
Qed.

(** Default order: ascending ids. *)
Lemma sort_rows_default rows :
  StronglySorted (fun a b => (id a <= id b)%N) (sort_rows rows []).
Proof.
  simpl. assert (Hs : StronglySorted (not_less (fun a b => (id a <? id b)%N))
                        (sort_slice (fun a b => (id a <? id b)%N) rows)).
  { apply sort_slice_strongly_sorted.
    - intros a b. rewrite N.ltb_lt, N.ltb_ge. lia.
    - intros a b c. unfold not_less. rewrite !N.ltb_ge. lia. }
  induction Hs as [|a l Hl IH Ha]; constructor; [done|].
  eapply Forall_impl; [exact Ha|]. intros b. unfold not_less. by rewrite N.ltb_ge.
Qed.

(** A page within [uint64]: rows [offset, offset + limit) of the list. *)
Lemma applyPagination_spec rows p :
  (N.of_nat (length rows) < two64)%N ->
  (pg_Offset p + N.max (pg_Limit p) DefaultLimit < two64)%N ->
  applyPagination rows (Some p)
  = Ok (take (N.to_nat (if (pg_Limit p =? 0)%N then DefaultLimit else pg_Limit p))
          (drop (N.to_nat (pg_Offset p)) rows)).
Proof.
  intros Hlen Hfit. unfold applyPagination.
  destruct (N.leb_spec (N.of_nat (length rows)) (pg_Offset p)) as [Hge|Hlt].
  - rewrite drop_ge by lia. by rewrite take_nil.
  - set (limit := if (pg_Limit p =? 0)%N then DefaultLimit else pg_Limit p).
    assert (Hl : (limit <= N.max (pg_Limit p) DefaultLimit)%N)
      by (unfold limit; destruct (_ =? _)%N; lia).
    unfold add64, wrap64. rewrite N.mod_small by lia.
    destruct (N.ltb_spec (N.min (pg_Offset p + limit) (N.of_nat (length rows))) (pg_Offset p)); [lia|].
    f_equal. destruct (N.le_ge_cases (pg_Offset p + limit) (N.of_nat (length rows))) as [H'|H'].
    + rewrite N.min_l by done. by replace (pg_Offset p + limit - pg_Offset p)%N with limit by lia.
    + rewrite N.min_r by done. rewrite !take_ge; [done|rewrite length_drop; lia|rewrite length_drop; lia].
Qed.
End ordering.

(** ** Setting values *)

(** A setting value keeps its text through the database column, and the
    three readings agree with what was stored; but a value decoded from JSON
    has no type tag, so its text and its column value are lost: it is written
    back as an empty string. *)
Lemma setting_value_readings (i : Z) (b : bool) (str : string) :
  ServerSettingValue_Value (NewServerSettingValue (AnyString str)) = Some str /\
  ServerSettingValue_Value (NewServerSettingValue (AnyInt i)) = Some (Itoa i) /\
  ServerSettingValue_Int (NewServerSettingValue (AnyInt i)) = (i, true) /\
  ServerSettingValue_Bool (NewServerSettingValue (AnyBool b)) = (b, true) /\
  ServerSettingValue_Bool (NewServerSettingValue (AnyString (if b then "true" else "false"))) = (b, true) /\
  (forall v, v <> AnyNil ->
     ServerSettingValue_String (ServerSettingValue_UnmarshalJSON v (mkSettingValue AnyNil serverSettingTypeUnknown)) = (""%string, false) /\
     ServerSettingValue_Value (ServerSettingValue_UnmarshalJSON v (mkSettingValue AnyNil serverSettingTypeUnknown)) = Some ""%string).
Proof.
  split_and!; [done|done|done|done|by destruct b|]. intros [| | |] Hv; done.
Qed.

