(* ===== verification/GoRuntime.v ===== *)
(** What the modelled code takes from the Go runtime and standard library and
    this development leaves open or restricts: the order of map iteration, the
    clock, and text functions beyond ASCII. *)

From S2P Require Import Prelude.
From S2P Require Import GoNum.
From S2P Require Import Domain.
From stdpp Require Import base tactics strings list gmap numbers.
From Stdlib Require Import NArith ZArith Ascii.

(** The order in which Go runs over a map: any order of the entries, which may
    be another one the next time. *)
Class MapOrder : Type := {
  range : forall {K V : Type} `{Countable K}, N -> gmap K V -> list (K * V);
  range_perm : forall {K V : Type} `{Countable K} n (m : gmap K V), range n m ≡ₚ map_to_list m;
}.

(** Go's map order, as the entries happen to be listed. *)
Definition listed_order : MapOrder.
Proof. refine {| range := fun K V _ _ n m => map_to_list m |}. done. Defined.

(** [time.Now()], by the number of the reading; a clock that does not run
    backwards and is past the zero time. *)
Class WallClock : Type := { now_at : N -> time }.
Class GoClock (C : WallClock) : Prop := {
  now_mono : forall m n, (m <= n)%N -> (now_at m <= now_at n)%Z;
  now_pos : forall n, (0 < now_at n)%Z;
}.

Lemma now_next `{GoClock} n : (now_at n <= now_at (n + 1))%Z.
Proof. apply now_mono. lia. Qed.

Definition ticking : WallClock := {| now_at n := (Z.of_N n + 1)%Z |}.
#[export] Instance ticking_clock : GoClock ticking.
Proof. split; intros; unfold now_at, ticking; lia. Qed.

(** [strings.ToLower], [strings.TrimSpace] and [strings.EqualFold] on ASCII text;
    what they do to the rest of Unicode is a parameter. *)
Class Unicode : Type := {
  unicode_lower : string -> string; unicode_trim : string -> string; unicode_fold : string -> string -> bool;
}.

Definition is_ascii (c : Ascii.ascii) : bool := (Ascii.N_of_ascii c <? 128)%N.
Definition lower_ascii (c : Ascii.ascii) : Ascii.ascii :=
  if (65 <=? Ascii.N_of_ascii c)%N && (Ascii.N_of_ascii c <=? 90)%N then Ascii.ascii_of_N (Ascii.N_of_ascii c + 32) else c.
Fixpoint all_ascii (s : string) : bool :=
  match s with EmptyString => true | String c s => is_ascii c && all_ascii s end.
Fixpoint map_ascii (f : Ascii.ascii -> Ascii.ascii) (s : string) : string :=
  match s with EmptyString => EmptyString | String c s => String (f c) (map_ascii f s) end.
Definition ToLower `{Unicode} (s : string) : string :=
  if all_ascii s then map_ascii lower_ascii s else unicode_lower s.

(** [strings.Contains(s, sub)] *)
Fixpoint Contains (s sub : string) : bool :=
  String.prefix sub s || match s with EmptyString => false | String _ s => Contains s sub end.

Definition is_space (c : Ascii.ascii) : bool :=
  (9 <=? Ascii.N_of_ascii c)%N && (Ascii.N_of_ascii c <=? 13)%N || (Ascii.N_of_ascii c =? 32)%N.
Fixpoint trim_left (s : string) : string :=
  match s with String c s' => if is_space c then trim_left s' else s | EmptyString => s end.
Fixpoint trim_right (s : string) : string :=
  match s with
  | EmptyString => EmptyString
  | String c s =>
      match trim_right s with
      | EmptyString => if is_space c then EmptyString else String c EmptyString
      | s' => String c s'
      end
  end.
Definition TrimSpace `{Unicode} (s : string) : string :=
  if all_ascii s then trim_right (trim_left s) else unicode_trim s.

Definition EqualFold `{Unicode} (s t : string) : bool :=
  if all_ascii s && all_ascii t then String.eqb (map_ascii lower_ascii s) (map_ascii lower_ascii t) else unicode_fold s t.

(** [strings.Split] by one byte. *)
Fixpoint split_byte (c : Ascii.ascii) (s : string) : list string :=
  match s with
  | EmptyString => [EmptyString]
  | String d s =>
      if Ascii.eqb d c then EmptyString :: split_byte c s
      else match split_byte c s with
           | part :: parts => String d part :: parts
           | [] => [String d EmptyString]
           end
  end.

(** [strings.TrimPrefix] *)
Definition TrimPrefix (s prefix : string) : string :=
  if String.prefix prefix s
  then String.substring (String.length prefix) (String.length s - String.length prefix) s else s.

(** [strings.IndexByte] and the two sides of the byte found. *)
Fixpoint cut_byte (c : Ascii.ascii) (s : string) : option (string * string) :=
  match s with
  | EmptyString => None
  | String d s =>
      if Ascii.eqb d c then Some (EmptyString, s)
      else match cut_byte c s with Some (a, b) => Some (String d a, b) | None => None end
  end.
(** ... of the last such byte. *)
Fixpoint cut_last (c : Ascii.ascii) (s : string) : option (string * string) :=
  match s with
  | EmptyString => None
  | String d s =>
      match cut_last c s with
      | Some (a, b) => Some (String d a, b)
      | None => if Ascii.eqb d c then Some (EmptyString, s) else None
      end
  end.
Definition has_byte (c : Ascii.ascii) (s : string) : bool := match cut_byte c s with Some _ => true | None => false end.

(** [net.SplitHostPort]: the host and the port, or nothing where it returns an
    error. *)
Definition SplitHostPort (hostport : string) : option (string * string) :=
  match cut_last ":"%char hostport with
  | None => None
  | Some (before, port) =>
      match hostport with
      | String "["%char rest =>
          match cut_byte "]"%char rest with
          | Some (host, after) =>
              (* the bracket must be followed by the last colon *)
              if String.eqb after (String ":"%char port) && negb (has_byte "["%char host) && negb (has_byte "["%char after)
                 && negb (has_byte "]"%char after)
              then Some (host, port) else None
          | None => None
          end
      | _ =>
          if has_byte ":"%char before || has_byte "["%char hostport || has_byte "]"%char hostport then None
          else Some (before, port)
      end
  end.

(** [err.Error()] *)
Fixpoint Error (e : error) : string :=
  match e with
  | ENew msg => msg
  | EWrap msg cause => msg +:+ ": " +:+ Error cause
  | EStatus code msg => "rpc error: code = " +:+ code +:+ " desc = " +:+ msg
  end.
