(* ===== verification/Cache.v ===== *)
(** The cache ([internal/cache/cache.go], [options.go], [errors.go]) as an
    interface with laws, and its in-memory implementation
    ([internal/cache/inmemory.go]): entries with an optional expiration, read
    through the clock, and the periodic cleanup. *)

From S2P Require Import Prelude.
From S2P Require Import GoNum.
From S2P Require Import Domain.
From S2P Require Import GoRuntime.
From stdpp Require Import base tactics strings list gmap numbers.
From Stdlib Require Import NArith ZArith.

(** The dynamic values ([any]) the callers put in a cache, with the types in
    which a backend that goes through JSON hands numbers back: a float by the
    integer [int(v)] makes of it, a [json.Number] by what [Int64] returns. *)
Inductive cached : Type :=
| CInt (z : Z)
| CInt64 (z : Z)
| CFloat64 (truncated : Z)
| CNumber (int64 : Z)
| CString (s : string)
| COther.

Definition ErrNotFound : error := ENew "key not found".

(** [expiration] is [Options.Expiration], 0 when no option is given. *)
Class Cache (C : Type) : Type := {
  cache_get : string -> M C cached;
  cache_set : string -> cached -> Z -> M C unit;
  cache_delete : string -> M C unit;
}.

(** A stored value and the instant after which it is gone, if any. *)
Abbreviation cache_entries := (gmap string (cached * option time)).

Definition live (now : time) (e : cached * option time) : bool :=
  match snd e with None => true | Some t => negb (t <? now)%Z end.

(** What a read at [now] finds. *)
Definition lookup_at (now : time) (m : cache_entries) (k : string) : option cached :=
  match m !! k with
  | Some e => if live now e then Some (fst e) else None
  | None => None
  end.

(** [ca_now] is a lower bound of the clock readings still to come.  A backend
    may fail, but what it stored it keeps until it expires. *)
Class CacheLaws (C : Type) `{Cache C} : Type := {
  ca_entries : C -> cache_entries;
  ca_now : C -> time;
  ca_get_law : forall k c r c', cache_get k c = (r, c') ->
    ca_entries c' = ca_entries c /\
    exists t, (ca_now c <= t <= ca_now c')%Z /\
      match r with
      | Ok v => lookup_at t (ca_entries c) k = Some v
      | Err e => errors_is e ErrNotFound = true -> lookup_at t (ca_entries c) k = None
      | Panic _ => False
      end;
  ca_set_law : forall k v d c r c', cache_set k v d c = (r, c') ->
    (ca_now c <= ca_now c')%Z /\
    match r with
    | Ok _ => exists t, (ca_now c <= t <= ca_now c')%Z /\
        ca_entries c' = <[k := (v, if (0 <? d)%Z then Some (t + d)%Z else None)]> (ca_entries c)
    | Err _ => ca_entries c' = ca_entries c
    | Panic _ => False
    end;
  ca_delete_law : forall k c r c', cache_delete k c = (r, c') ->
    (ca_now c <= ca_now c')%Z /\
    match r with
    | Ok _ => ca_entries c' = delete k (ca_entries c)
    | Err _ => ca_entries c' = ca_entries c
    | Panic _ => False
    end;
}.

(** A cache whose only error is a missing key. *)
Class CacheTotal (C : Type) `{Cache C} : Prop := {
  ca_get_total : forall k c, is_ok (fst (cache_get k c)) = true \/ fst (cache_get k c) = Err ErrNotFound;
  ca_set_total : forall k v d c, fst (cache_set k v d c) = Ok tt;
  ca_delete_total : forall k c, fst (cache_delete k c) = Ok tt;
}.

(** ** In memory *)

Record item : Type := mkItem { it_value : cached; it_expiration : time }.

Record InMemory : Type := mkInMemory { im_items : gmap string item; im_ticks : N }.

Definition NewInMemory : InMemory := mkInMemory ∅ 0.

Definition im_set (m : gmap string item) (c : InMemory) : InMemory := mkInMemory m (im_ticks c).

Section inmemory.
Context `{WallClock}.

Definition Now : M InMemory time := fun c => (Ok (now_at (im_ticks c)), mkInMemory (im_items c) (im_ticks c + 1)).

(** [time.Now().After(itm.expiration)]; a zero expiration means none. *)
Definition isExpired (itm : item) : M InMemory bool :=
  if IsZero (it_expiration itm) then ret false
  else let! now := Now in ret (it_expiration itm <? now)%Z.

Definition Get (key : string) : M InMemory cached :=
  let! c := get in
  match im_items c !! key with
  | None => fail ErrNotFound
  | Some itm =>
      let! expired := isExpired itm in
      if expired then fail ErrNotFound else ret (it_value itm)
  end.

Definition Set_ (key : string) (value : cached) (expiration : Z) : M InMemory unit :=
  let! e := (if (0 <? expiration)%Z then let! now := Now in ret (now + expiration)%Z else ret time_zero) in
  modify (fun c => im_set (<[key := mkItem value e]> (im_items c)) c).

Definition Delete (key : string) : M InMemory unit := modify (fun c => im_set (delete key (im_items c)) c).
Definition Clear : M InMemory unit := modify (im_set ∅).

(** The loop of [cleanup] over the items in Go's order. *)
Fixpoint cleanup_loop (items : list (string * item)) : M InMemory unit :=
  match items with
  | [] => ret tt
  | (key, itm) :: items =>
      let! expired := isExpired itm in
      do! (if expired then Delete key else ret tt) ;;
      cleanup_loop items
  end.

Definition cleanup `{MapOrder} : M InMemory unit :=
  let! c := get in cleanup_loop (range (im_ticks c) (im_items c)).

#[export] Instance memCache : Cache InMemory := {
  cache_get := Get; cache_set := Set_; cache_delete := Delete;
}.

(** ** The laws hold *)

Definition entry_of (i : item) : cached * option time :=
  (it_value i, if IsZero (it_expiration i) then None else Some (it_expiration i)).

Context `{!GoClock _}.

(** What [isExpired] answers, and that it only reads the clock. *)
Lemma isExpired_spec i c :
  exists t c', isExpired i c = (Ok (negb (live t (entry_of i))), c') /\ im_items c' = im_items c /\
    (now_at (im_ticks c) <= t <= now_at (im_ticks c'))%Z /\ (im_ticks c <= im_ticks c')%N.
Proof.
  unfold isExpired, live, entry_of. simpl. destruct (IsZero (it_expiration i)).
  - exists (now_at (im_ticks c)), c. simpl. split_and!; try done; lia.
  - eexists (now_at (im_ticks c)), _. split; [unfold bind; simpl; by rewrite negb_involutive|].
    simpl. split_and!; try done; try lia. apply now_next.
Qed.

#[export, program] Instance memCache_laws : CacheLaws InMemory := {
  ca_entries c := entry_of <$> im_items c;
  ca_now c := now_at (im_ticks c);
}.
Next Obligation.
  intros k c r c' E. simpl in E. unfold Get, bind, get in E. unfold lookup_at. rewrite lookup_fmap.
  destruct (im_items c !! k) as [i|] eqn:Ei.
  - destruct (isExpired_spec i c) as (t & c1 & E1 & Hc1 & Ht & _). rewrite E1 in E. simpl.
    destruct (live t (entry_of i)) eqn:El; simpl in E; injection E as <- <-; rewrite Hc1; (split; [done|]);
      exists t; rewrite El; done.
  - injection E as <- <-. split; [done|]. exists (now_at (im_ticks c)). split; [lia|done].
Qed.
Next Obligation.
  intros k v d c r c' E. simpl in E. unfold Set_, bind in E. destruct (0 <? d)%Z eqn:Ed; simpl in E; injection E as <- <-; simpl.
  - split; [apply now_next|]. exists (now_at (im_ticks c)). split; [split; [lia|apply now_next]|].
    rewrite fmap_insert. unfold entry_of. simpl. unfold IsZero.
    pose proof (now_pos (im_ticks c)). destruct (Z.eqb_spec (now_at (im_ticks c) + d) time_zero) as [E|]; [|done].
    unfold time_zero in E. apply Z.ltb_lt in Ed. lia.
  - split; [lia|]. exists (now_at (im_ticks c)). split; [lia|]. by rewrite fmap_insert.
Qed.
Next Obligation.
  intros k c r c' [= <- <-]. simpl. split; [lia|]. by rewrite fmap_delete.
Qed.

#[export] Instance memCache_total : CacheTotal InMemory.
Proof.
  split; [|by intros k v d c; simpl; unfold Set_, bind; destruct (0 <? d)%Z|done].
  intros k c. simpl. unfold Get, bind, get. destruct (im_items c !! k) as [i|]; [|by right].
  destruct (isExpired_spec i c) as (t & c1 & -> & _). destruct (negb _); [by right|by left].
Qed.

(** ** Cleanup removes nothing that could still be read *)

Lemma live_later t t' e : (t <= t')%Z -> live t e = false -> live t' e = false.
Proof. unfold live. destruct (snd e); [|done]. rewrite !negb_false_iff, !Z.ltb_lt. lia. Qed.

Lemma lookup_at_delete t k k' m :
  lookup_at t (delete k m) k' = if decide (k = k') then None else lookup_at t m k'.
Proof. unfold lookup_at. rewrite lookup_delete. by case_decide. Qed.

Lemma cleanup_loop_spec l : forall c,
  NoDup (map fst l) -> (forall k i, (k, i) ∈ l -> im_items c !! k = Some i) ->
  exists c', cleanup_loop l c = (Ok tt, c') /\ (im_ticks c <= im_ticks c')%N /\
    forall t k, (now_at (im_ticks c') <= t)%Z ->
      lookup_at t (entry_of <$> im_items c') k = lookup_at t (entry_of <$> im_items c) k.
Proof.
  induction l as [|[k i] l IH]; intros c Hnd Hl; simpl; [exists c; split_and!; done|].
  apply list.NoDup_cons in Hnd as [Hk Hnd]. unfold bind.
  destruct (isExpired_spec i c) as (t & c1 & -> & Hc1 & Ht & Hle).
  assert (Hi : im_items c !! k = Some i) by (apply Hl; set_solver).
  destruct (live t (entry_of i)) eqn:Elive; simpl.
  - destruct (IH c1 Hnd) as (c' & -> & Hle' & Hsame).
    { intros k' i' Hin. rewrite Hc1. apply Hl. set_solver. }
    exists c'. split_and!; [done|lia|]. intros t' k' Ht'. by rewrite Hsame, Hc1.
  - destruct (IH (im_set (delete k (im_items c1)) c1) Hnd) as (c' & -> & Hle' & Hsame).
    { intros k' i' Hin. simpl. rewrite Hc1, lookup_delete_ne; [apply Hl; set_solver|].
      intros <-. apply Hk, list_elem_of_fmap. by exists (k, i'). }
    exists c'. split_and!; [done|simpl in Hle'; lia|]. intros t' k' Ht'. rewrite Hsame by done. simpl.
    rewrite Hc1, fmap_delete, lookup_at_delete. case_decide as Hkk; [|done]. subst k'. unfold lookup_at.
    rewrite lookup_fmap, Hi. simpl. rewrite (live_later t t'); [done| |done].
    pose proof (now_mono _ _ Hle'). simpl in *. lia.
Qed.

Lemma cleanup_invisible `{MapOrder} c :
  exists c', cleanup c = (Ok tt, c') /\ (ca_now c <= ca_now c')%Z /\
    forall t k, (ca_now c' <= t)%Z -> lookup_at t (ca_entries c') k = lookup_at t (ca_entries c) k.
Proof.
  destruct (cleanup_loop_spec (range (im_ticks c) (im_items c)) c) as (c' & E & Hle & Hs).
  - rewrite (range_perm (im_ticks c) (im_items c)). apply NoDup_fst_map_to_list.
  - intros k i. rewrite (range_perm (im_ticks c) (im_items c)). apply elem_of_map_to_list.
  - exists c'. split_and!; [exact E|by apply now_mono|exact Hs].
Qed.
End inmemory.
