(* ===== verification/Repositories.v ===== *)
(** The repository interfaces of [internal/repositories/contracts.go] as the
    modelled services use them: each interface is a class of operations over the
    state type of an implementation, and a class of laws that states what an
    implementation promises.  The clients (task handler, dispatcher, reaper,
    server control, enrollment, daemon authentication) are proved against the
    laws; [TaskRepo], [ServersRepo], [SettingsRepo] and [NodesRepo] discharge
    them for the in-memory implementations. *)

From S2P Require Import Prelude.
From S2P Require Import GoNum.
From S2P Require Import Domain.
From stdpp Require Import base tactics strings list gmap numbers sorting.
From Stdlib Require Import NArith ZArith.

(** ** What a filter selects *)

Definition in_or_any {A} `{EqDecision A} (x : A) (l : list A) : bool :=
  match l with [] => true | _ => bool_decide (x ∈ l) end.

(** A task is selected when every non-empty column filter contains its column;
    a nil entry of [ServerIDs] selects nothing. *)
Definition task_matches (f : FindDaemonTask) (t : DaemonTask) : bool :=
  in_or_any (dt_ID t) (ft_IDs f) &&
  in_or_any (dt_DedicatedServerID t) (ft_DedicatedServerIDs f) &&
  match ft_ServerIDs f with
  | [] => true
  | l => match dt_ServerID t with Some s => bool_decide (Some s ∈ l) | None => false end
  end &&
  in_or_any (dt_Task t) (ft_Tasks f) &&
  in_or_any (dt_Status t) (ft_Statuses f).

Definition opt_task_matches (f : option FindDaemonTask) (t : DaemonTask) : bool :=
  match f with None => true | Some f => task_matches f t end.

Definition setting_matches (f : FindServerSetting) (s : ServerSetting) : bool :=
  in_or_any (ss_ID s) (fs_IDs f) &&
  in_or_any (ss_ServerID s) (fs_ServerIDs f) &&
  in_or_any (ss_Name s) (fs_Names f).

(** ** Daemon tasks *)

(** [Save] takes a pointer: the value it returns is [*task] after the call. *)
Class DaemonTaskRepository (R : Type) : Type := {
  DT_Find : R -> option FindDaemonTask -> list Sorting -> option Pagination ->
    result (list DaemonTask);
  DT_Save : time -> DaemonTask -> M R DaemonTask;
  DT_AppendOutput : N -> string -> M R unit;
  DT_Exists : R -> option FindDaemonTask -> result bool;
}.

(** The task [Save] hands back: the id given or assigned, the update time, and
    the creation time for a new task that has none. *)
Definition touched (now : time) (id : N) (t : DaemonTask) : DaemonTask :=
  let created :=
    if (dt_ID t =? 0)%N && match dt_CreatedAt t with None => true | Some c => IsZero c end
    then Some now else dt_CreatedAt t in
  dt_set_id id (dt_set_times created (Some now) t).

(** The row it stores: a save without output keeps the stored output. *)
Definition stored_row (old : option DaemonTask) (t : DaemonTask) : DaemonTask :=
  match dt_Output t with
  | Some _ => t
  | None => dt_set_output (old ≫= dt_Output) t
  end.

Definition append_row (chunk : string) (t : DaemonTask) : DaemonTask :=
  match dt_Output t with
  | None => dt_set_output (Some chunk) t
  | Some o => dt_set_output (Some (o +:+ chunk)) t
  end.

(** [dt_inv] is the implementation's invariant, [dt_rows] its table, and
    [dt_room n] says that [n] more tasks can be given a fresh id. *)
Class DaemonTaskRepositoryLaws (R : Type) `{DaemonTaskRepository R} : Type := {
  dt_inv : R -> Prop;
  dt_rows : R -> gmap N DaemonTask;
  dt_room : nat -> R -> Prop;
  dt_room_weaken : forall n r, dt_room (S n) r -> dt_room n r;
  dt_rows_id : forall r i t, dt_inv r -> dt_rows r !! i = Some t -> dt_ID t = i /\ i <> 0%N;
  dt_find_law : forall r f l, dt_inv r -> DT_Find r f [] None = Ok l ->
    StronglySorted (fun a b => dt_ID a < dt_ID b)%N l /\
    forall t, t ∈ l <->
      exists t0, dt_rows r !! dt_ID t = Some t0 /\ opt_task_matches f t0 = true /\
        t = dt_set_output None t0;
  dt_find_nopanic : forall r f w, dt_inv r -> DT_Find r f [] None <> Panic w;
  dt_exists_law : forall r f b, dt_inv r -> ft_IDs f = [] -> DT_Exists r (Some f) = Ok b ->
    b = true <-> exists i t, dt_rows r !! i = Some t /\ task_matches f t = true;
  dt_save_law : forall now t r res r', dt_inv r ->
    (if decide (dt_ID t = 0%N) then dt_room 1 r else is_Some (dt_rows r !! dt_ID t)) ->
    DT_Save now t r = (res, r') ->
    dt_inv r' /\
    (forall n, dt_room (if decide (dt_ID t = 0%N) then S n else n) r -> dt_room n r') /\
    match res with
    | Ok t' =>
        t' = touched now (dt_ID t') t /\
        dt_rows r' = <[dt_ID t' := stored_row (dt_rows r !! dt_ID t') t']> (dt_rows r) /\
        (if decide (dt_ID t = 0%N) then dt_rows r !! dt_ID t' = None else dt_ID t' = dt_ID t)
    | Err _ => dt_rows r' = dt_rows r
    | Panic _ => False
    end;
  dt_append_law : forall i c r res r', dt_inv r -> DT_AppendOutput i c r = (res, r') ->
    dt_inv r' /\
    (forall n, dt_room n r -> dt_room n r') /\
    match res with
    | Ok _ => dt_rows r' = alter (append_row c) i (dt_rows r)
    | Err _ => dt_rows r' = dt_rows r
    | Panic _ => False
    end;
}.

(** A repository none of whose calls fails. *)
Class DaemonTaskRepositoryTotal (R : Type) `{DaemonTaskRepositoryLaws R} : Prop := {
  dt_find_total : forall r f, dt_inv r -> exists l, DT_Find r f [] None = Ok l;
  dt_exists_total : forall r f, dt_inv r -> exists b, DT_Exists r f = Ok b;
  dt_save_total : forall now t r, dt_inv r ->
    (if decide (dt_ID t = 0%N) then dt_room 1 r else is_Some (dt_rows r !! dt_ID t)) ->
    is_ok (fst (DT_Save now t r)) = true;
  dt_append_total : forall i c r, dt_inv r -> is_ok (fst (DT_AppendOutput i c r)) = true;
}.

(** ** Game servers: the calls of the task pipeline *)

Class ServerRepository (V : Type) : Type := {
  SV_FindByIDs : V -> list N -> result (list Server);
  SV_FindByDSID : V -> N -> result (list Server);
  SV_Save : Server -> M V unit;
}.

(** [sv_inv] is the implementation's invariant, [sv_rows] the servers that are
    not deleted.  The pipeline saves only servers it found, with another
    installation status. *)
Class ServerRepositoryLaws (V : Type) `{ServerRepository V} : Type := {
  sv_inv : V -> Prop;
  sv_rows : V -> gmap N Server;
  sv_rows_id : forall v i s, sv_inv v -> sv_rows v !! i = Some s -> sv_ID s = i;
  sv_find_law : forall v i l, sv_inv v -> SV_FindByIDs v [i] = Ok l ->
    l = match sv_rows v !! i with Some s => [s] | None => [] end;
  sv_find_nopanic : forall v ids w, sv_inv v -> SV_FindByIDs v ids <> Panic w;
  sv_node_law : forall v n l, sv_inv v -> SV_FindByDSID v n = Ok l ->
    NoDup (map sv_ID l) /\
    forall s, s ∈ l <-> sv_rows v !! sv_ID s = Some s /\ sv_DSID s = n;
  sv_node_nopanic : forall v n w, sv_inv v -> SV_FindByDSID v n <> Panic w;
  sv_save_law : forall i s v res v', sv_inv v -> sv_rows v !! sv_ID s = Some s ->
    SV_Save (sv_set_installed i s) v = (res, v') ->
    sv_inv v' /\
    match res with
    | Ok _ => exists s', sv_rows v' = <[sv_ID s := s']> (sv_rows v) /\
                sv_Installed s' = i /\ sv_DSID s' = sv_DSID s
    | Err _ => sv_rows v' = sv_rows v
    | Panic _ => False
    end;
}.

(** Server storage none of whose calls fails. *)
Definition servers_total (V : Type) `{ServerRepository V} : Prop :=
  (forall v ids, is_ok (SV_FindByIDs v ids) = true) /\
  (forall v n, is_ok (SV_FindByDSID v n) = true) /\
  (forall s v, is_ok (fst (SV_Save s v)) = true).

(** ** Server settings *)

Class ServerSettingRepository (R : Type) : Type := {
  SS_Find : R -> option FindServerSetting -> list Sorting -> option Pagination ->
    result (list ServerSetting);
  SS_Save : ServerSetting -> M R ServerSetting;
}.

Definition ss_set_id (i : N) (s : ServerSetting) : ServerSetting :=
  mkServerSetting i (ss_Name s) (ss_ServerID s) (ss_Value s).

Class ServerSettingRepositoryLaws (Q : Type) `{ServerSettingRepository Q} : Type := {
  st_inv : Q -> Prop;
  st_rows : Q -> gmap N ServerSetting;
  st_room : nat -> Q -> Prop;
  st_rows_id : forall q i s, st_inv q -> st_rows q !! i = Some s -> ss_ID s = i /\ i <> 0%N;
  st_find_law : forall q f l, st_inv q -> SS_Find q (Some f) [] None = Ok l ->
    forall x, x ∈ l <-> st_rows q !! ss_ID x = Some x /\ setting_matches f x = true;
  st_find_nopanic : forall q f w, st_inv q -> SS_Find q f [] None <> Panic w;
  st_save_law : forall s q res q', st_inv q ->
    (if decide (ss_ID s = 0%N) then st_room 1 q else is_Some (st_rows q !! ss_ID s)) ->
    SS_Save s q = (res, q') ->
    st_inv q' /\
    (forall n, st_room (if decide (ss_ID s = 0%N) then S n else n) q -> st_room n q') /\
    match res with
    | Ok s' => s' = ss_set_id (ss_ID s') s /\ st_rows q' = <[ss_ID s' := s']> (st_rows q) /\
        (if decide (ss_ID s = 0%N) then st_rows q !! ss_ID s' = None else ss_ID s' = ss_ID s)
    | Err _ => st_rows q' = st_rows q
    | Panic _ => False
    end;
}.

(** ** Nodes and client certificates *)

(** What a paged query without order gives: a page of the selected rows in
    ascending id order. *)
Definition selects {A} (id : A -> N) (rows : gmap N A) (matches : A -> bool) (p : option Pagination)
  (res : result (list A)) : Prop :=
  exists all, StronglySorted (fun a b => id a <= id b)%N all /\
    (forall x, x ∈ all <-> rows !! id x = Some x /\ matches x = true) /\
    match res with
    | Ok l => applyPagination all p = Ok l
    | Err _ => True
    | Panic w => applyPagination all p = Panic w
    end.

(** [&filters.Pagination{Limit: 1}] *)
Definition only_first : option Pagination := Some (mkPagination 1 0).

Lemma applyPagination_first {A} (l : list A) : applyPagination l only_first = Ok (take 1 l).
Proof.
  unfold applyPagination, only_first. simpl. destruct l as [|x l]; [done|].
  change (add64 0 1) with 1%N. cbn [length]. by replace (N.min 1 (N.of_nat (S (length l)))) with 1%N by lia.
Qed.

Lemma selects_first {A} id (rows : gmap N A) matches res :
  selects id rows matches only_first res ->
  match res with
  | Ok [] => forall i x, rows !! i = Some x -> id x = i -> matches x = false
  | Ok [x] => rows !! id x = Some x /\ matches x = true /\
      forall y, rows !! id y = Some y -> matches y = true -> (id x <= id y)%N
  | Ok _ => False
  | Err _ => True
  | Panic _ => False
  end.
Proof.
  intros (all & Hsort & Hel & Hres). rewrite applyPagination_first in Hres.
  destruct res as [l|e|w]; [|done|done]. injection Hres as <-. destruct all as [|x all]; simpl.
  - intros i x Hx <-. destruct (matches x) eqn:Hm; [|done]. exfalso. by apply (list.not_elem_of_nil x), Hel.
  - destruct (proj1 (Hel x)) as [Hx Hm]; [set_solver|]. split_and!; [done|done|].
    intros y Hy Hmy. apply StronglySorted_inv in Hsort as [_ Hall]. rewrite list.Forall_forall in Hall.
    pose proof (proj2 (Hel y) (conj Hy Hmy)) as [->|Hin]%list.elem_of_cons; [lia|by apply Hall].
Qed.

(** [filters.FindNode] *)
Record FindNode : Type := mkFindNode {
  fn_IDs : list N;
  fn_GDaemonAPIKey : option string;
  fn_GDaemonAPIToken : option string;
  fn_WithDeleted : bool;
}.
Definition FindNodeByIDs (ids : list N) : FindNode := mkFindNode ids None None false.
Definition FindNodeByGDaemonAPIKey (key : string) : FindNode := mkFindNode [] (Some key) None false.

Definition node_matches (f : FindNode) (n : Node) : bool :=
  in_or_any (nd_ID n) (fn_IDs f) &&
  (fn_WithDeleted f || bool_decide (nd_DeletedAt n = None)) &&
  match fn_GDaemonAPIKey f with Some k => String.eqb (nd_GdaemonAPIKey n) k | None => true end &&
  match fn_GDaemonAPIToken f with Some t => bool_decide (nd_GdaemonAPIToken n = Some t) | None => true end.

Class NodeRepository (R : Type) : Type := {
  ND_FindAll : R -> list Sorting -> option Pagination -> result (list Node);
  ND_Find : R -> FindNode -> list Sorting -> option Pagination -> result (list Node);
  ND_Save : Node -> M R Node;
  ND_Delete : N -> M R unit;
  ND_UpdateGDaemonAPIToken : N -> string -> time -> M R unit;
}.

Class NodeRepositoryLaws (R : Type) `{NodeRepository R} : Type := {
  nr_inv : R -> Prop;
  nr_rows : R -> gmap N Node;
  nr_room : nat -> R -> Prop;
  nr_room_weaken : forall k r, nr_room (S k) r -> nr_room k r;
  nr_rows_id : forall r i n, nr_inv r -> nr_rows r !! i = Some n -> nd_ID n = i /\ i <> 0%N;
  nr_find_law : forall r f p, nr_inv r -> selects nd_ID (nr_rows r) (node_matches f) p (ND_Find r f [] p);
  nr_save_law : forall n r res r', nr_inv r ->
    (if decide (nd_ID n = 0%N) then nr_room 1 r else is_Some (nr_rows r !! nd_ID n)) ->
    ND_Save n r = (res, r') ->
    nr_inv r' /\
    (forall k, nr_room (if decide (nd_ID n = 0%N) then S k else k) r -> nr_room k r') /\
    match res with
    | Ok n' => (exists created updated, n' = nd_set_times created updated (nd_set_id (nd_ID n') n)) /\
        nr_rows r' = <[nd_ID n' := n']> (nr_rows r) /\
        (if decide (nd_ID n = 0%N) then nr_rows r !! nd_ID n' = None else nd_ID n' = nd_ID n)
    | Err _ => nr_rows r' = nr_rows r
    | Panic _ => False
    end;
  nr_delete_law : forall i r res r', nr_inv r -> ND_Delete i r = (res, r') ->
    nr_inv r' /\ (forall k, nr_room k r -> nr_room k r') /\
    match res with
    | Ok _ => nr_rows r' = delete i (nr_rows r)
    | Err _ => nr_rows r' = nr_rows r
    | Panic _ => False
    end;
  nr_token_law : forall i h t r res r', nr_inv r -> ND_UpdateGDaemonAPIToken i h t r = (res, r') ->
    nr_inv r' /\ (forall k, nr_room k r -> nr_room k r') /\
    match res with
    | Ok _ => nr_rows r' = alter (nd_set_token (Some h) (Some t)) i (nr_rows r)
    | Err _ => nr_rows r' = nr_rows r
    | Panic _ => False
    end;
}.

(** [domain.ClientCertificate] *)
Record ClientCertificate : Type := mkClientCertificate {
  cc_ID : N; cc_Fingerprint : string; cc_Expires : time; cc_Certificate : string; cc_PrivateKey : string;
}.
Definition cc_set_id (i : N) (c : ClientCertificate) : ClientCertificate :=
  mkClientCertificate i (cc_Fingerprint c) (cc_Expires c) (cc_Certificate c) (cc_PrivateKey c).

(** [filters.FindClientCertificate] is its list of ids. *)
Class ClientCertificateRepository (R : Type) : Type := {
  CC_Find : R -> list N -> list Sorting -> option Pagination -> result (list ClientCertificate);
  CC_Save : ClientCertificate -> M R ClientCertificate;
}.

Class ClientCertificateRepositoryLaws (R : Type) `{ClientCertificateRepository R} : Type := {
  cr_inv : R -> Prop;
  cr_rows : R -> gmap N ClientCertificate;
  cr_room : nat -> R -> Prop;
  cr_room_weaken : forall k r, cr_room (S k) r -> cr_room k r;
  cr_rows_id : forall r i c, cr_inv r -> cr_rows r !! i = Some c -> cc_ID c = i /\ i <> 0%N;
  cr_find_law : forall r ids p, cr_inv r ->
    selects cc_ID (cr_rows r) (fun c => in_or_any (cc_ID c) ids) p (CC_Find r ids [] p);
  cr_save_law : forall c r res r', cr_inv r ->
    (if decide (cc_ID c = 0%N) then cr_room 1 r else is_Some (cr_rows r !! cc_ID c)) ->
    CC_Save c r = (res, r') ->
    cr_inv r' /\
    (forall k, cr_room (if decide (cc_ID c = 0%N) then S k else k) r -> cr_room k r') /\
    match res with
    | Ok c' => c' = cc_set_id (cc_ID c') c /\ cr_rows r' = <[cc_ID c' := c']> (cr_rows r) /\
        (if decide (cc_ID c = 0%N) then cr_rows r !! cc_ID c' = None else cc_ID c' = cc_ID c)
    | Err _ => cr_rows r' = cr_rows r
    | Panic _ => False
    end;
}.
