(* ===== verification/RedisCache.v ===== *)
(** The cache over Redis ([internal/cache/redis.go]) on a Redis client and the
    JSON encoding, which are used through their documented behaviour: what a
    read finds, which keys a scan returns, and which values survive being
    encoded, decoded without their type, and encoded again ([GetTyped]). *)

From S2P Require Import Prelude.
From S2P Require Import GoNum.
From S2P Require Import Domain.
From S2P Require Import GoRuntime.
From S2P Require Import Cache.
From stdpp Require Import base tactics strings list gmap numbers.
From Stdlib Require Import NArith ZArith.

(** ** JSON *)

(** [json.Unmarshal] into an [any] and back; [j_nil] is the nil value. *)
Class JSONLibrary : Type := {
  J : Type;
  j_nil : J -> bool;
  unmarshal_any : string -> result J;
  marshal_any : J -> result string;
}.

(** The encoding of one type, and the values that come through it whole:
    valid UTF-8, numbers a float holds. *)
Class JSONType `{JSONLibrary} (V : Type) : Type := {
  marshal : V -> result string;
  unmarshal : string -> result V;
  portable : V -> Prop;
}.
Class JSONLaws `{JSONLibrary} (V : Type) `{!JSONType V} : Prop := {
  json_law : forall v s, portable v -> marshal v = Ok s ->
    exists j s', unmarshal_any s = Ok j /\ marshal_any j = Ok s' /\ unmarshal s' = Ok v;
}.

(** What a stored text is read as. *)
Definition decodes `{JSONLibrary} {V} `{!JSONType V} (s : string) (v : V) : Prop :=
  exists j s', unmarshal_any s = Ok j /\ marshal_any j = Ok s' /\ unmarshal s' = Ok v.

(** ** The client ([github.com/redis/go-redis]) *)

Definition RedisNil : error := ENew "redis: nil".
Class RedisClient (C : Type) : Type := {
  rd_Get : string -> M C string;
  rd_Set : string -> string -> Z -> M C unit;
  rd_Del : list string -> M C unit;
  rd_Scan : string -> M C (list string);
  rd_FlushDB : M C unit;
}.

Abbreviation redis_entries := (gmap string (string * option time)).
Definition alive (now : time) (e : string * option time) : bool :=
  match snd e with None => true | Some t => negb (t <? now)%Z end.
Definition read_at (now : time) (m : redis_entries) (k : string) : option string :=
  match m !! k with Some e => if alive now e then Some (fst e) else None | None => None end.

(** A pattern without the characters that stand for others. *)
Definition plain_pattern (p : string) : bool :=
  negb (existsb (fun c => has_byte c p) (String.list_ascii_of_string "*?[]\^")).

(** [rd_now] is a lower bound of the readings of the server's clock still to
    come.  A command that reports an error may have been carried out. *)
Class RedisLaws (C : Type) `{RedisClient C} : Type := {
  rd_entries : C -> redis_entries;
  rd_now : C -> time;
  rd_get_law : forall k c r c', rd_Get k c = (r, c') ->
    rd_entries c' = rd_entries c /\ exists t, (rd_now c <= t <= rd_now c')%Z /\
      match r with
      | Ok v => read_at t (rd_entries c) k = Some v
      | Err e => errors_is e RedisNil = true -> read_at t (rd_entries c) k = None
      | Panic _ => False
      end;
  rd_set_law : forall k v d c r c', rd_Set k v d c = (r, c') ->
    exists t, (rd_now c <= t <= rd_now c')%Z /\
    let written := <[k := (v, if (0 <? d)%Z then Some (t + d)%Z else None)]> (rd_entries c) in
    match r with
    | Ok _ => rd_entries c' = written
    | Err _ => rd_entries c' = rd_entries c \/ rd_entries c' = written
    | Panic _ => False
    end;
  rd_del_law : forall l c r c', rd_Del l c = (r, c') ->
    (rd_now c <= rd_now c')%Z /\
    let deleted := foldr delete (rd_entries c) l in
    match r with
    | Ok _ => rd_entries c' = deleted
    | Err e => (rd_entries c' = rd_entries c \/ rd_entries c' = deleted) /\ errors_is e ErrNotFound = false
    | Panic _ => False
    end;
  rd_scan_law : forall p c r c', plain_pattern p = true -> rd_Scan (p +:+ "*") c = (r, c') ->
    rd_entries c' = rd_entries c /\ exists t, (rd_now c <= t <= rd_now c')%Z /\
    match r with
    | Ok l => forall k, k ∈ l <-> is_Some (read_at t (rd_entries c) k) /\ String.prefix p k = true
    | Err _ => True
    | Panic _ => False
    end;
}.

(** ** The cache *)

Definition redisKeyPrefix : string := "gameap:".

Section redis.
Context {C : Type} `{RedisClient C} `{JSONLibrary}.

(** [Redis.Get] *)
Definition redis_Get (key : string) : M C J :=
  let! val := attempt (rd_Get (redisKeyPrefix +:+ key)) in
  match val with
  | Panic w => lift (Panic w)
  | Err e => if errors_is e RedisNil then fail ErrNotFound else fail (EWrap "redis get error" e)
  | Ok val => wrap "unmarshal error" (lift (unmarshal_any val))
  end.

(** [Redis.Set]; [expiration] is [Options.Expiration]. *)
Definition redis_Set {V} `{!JSONType V} (key : string) (value : V) (expiration : Z) : M C unit :=
  let! data := wrap "marshal error" (lift (marshal value)) in
  wrap "redis set error" (rd_Set (redisKeyPrefix +:+ key) data (if (0 <? expiration)%Z then expiration else 0%Z)).

Definition redis_Delete (key : string) : M C unit := wrap "redis delete error" (rd_Del [redisKeyPrefix +:+ key]).
Definition redis_Clear : M C unit := wrap "redis clear error" rd_FlushDB.

Definition DeletePattern (pattern : string) : M C unit :=
  let! keys := wrap "redis scan error" (rd_Scan (redisKeyPrefix +:+ pattern)) in
  match keys with
  | [] => ret tt
  | _ => wrap "redis delete pattern error" (rd_Del keys)
  end.

(** [cache.GetTyped] *)
Definition GetTyped {V} `{!JSONType V} (key : string) : M C V :=
  let! val := redis_Get key in
  let! data := wrap "failed to marshal cached value" (lift (marshal_any val)) in
  wrap "failed to unmarshal to type" (lift (unmarshal data)).
End redis.

(** ** What the operations do to the entries *)

Section laws.
Context {C : Type} `{RedisLaws C} `{JSONLibrary}.

Lemma wrap_ok {S A} msg (x : M S A) s v s' : wrap msg x s = (Ok v, s') -> x s = (Ok v, s').
Proof. unfold wrap. destruct (x s) as [[]]; simpl; congruence. Qed.

(** Reading changes nothing but the time; what is read was stored and is alive. *)
Lemma redis_Get_spec key c r c' : redis_Get key c = (r, c') ->
  rd_entries c' = rd_entries c /\ (rd_now c <= rd_now c')%Z /\
  forall j, r = Ok j -> exists s t, (rd_now c <= t <= rd_now c')%Z /\ read_at t (rd_entries c) (redisKeyPrefix +:+ key) = Some s /\ unmarshal_any s = Ok j.
Proof.
  unfold redis_Get, bind, attempt. destruct (rd_Get _ c) as [res c1] eqn:E. destruct (rd_get_law _ _ _ _ E) as (He & t & Ht & Hr).
  destruct res as [v|e|w]; [|destruct (errors_is e RedisNil); by intros [= <- <-]; split_and!; [done|lia|]|by intros [= <- <-]; split_and!; [done|lia|]].
  unfold wrap, lift. intros [= <- <-]. split_and!; [done|lia|]. intros j Hj. exists v, t. split_and!; [lia..|done|].
  by destruct (unmarshal_any v); [injection Hj as ->|..].
Qed.

Lemma GetTyped_spec {V} `{!JSONType V} key c r c' : GetTyped (V:=V) key c = (r, c') ->
  rd_entries c' = rd_entries c /\ (rd_now c <= rd_now c')%Z /\
  forall v, r = Ok v -> exists s t, (rd_now c <= t <= rd_now c')%Z /\ read_at t (rd_entries c) (redisKeyPrefix +:+ key) = Some s /\ decodes s v.
Proof.
  unfold GetTyped, bind. destruct (redis_Get key c) as [res c1] eqn:E. destruct (redis_Get_spec _ _ _ _ E) as (He & Ht & Hg).
  destruct res as [j|e|w]; [|by intros [= <- <-]..]. destruct (Hg j eq_refl) as (s & t & Hts & Hs & Hj).
  unfold wrap, lift. destruct (marshal_any j) as [d|e|w] eqn:Em; cbn [wrap_err]; [|by intros [= <- <-]..].
  destruct (unmarshal d) as [v|e|w] eqn:Eu; cbn [wrap_err]; intros [= <- <-]; (split_and!; [done|done|]); intros v' [= <-].
  exists s, t. split_and!; [lia..|done|]. by exists j, d.
Qed.

Lemma redis_Set_spec {V} `{!JSONType V} key (v : V) d c r c' : redis_Set key v d c = (r, c') ->
  rd_entries c' = rd_entries c \/
  exists s e, marshal v = Ok s /\ rd_entries c' = <[redisKeyPrefix +:+ key := (s, e)]> (rd_entries c).
Proof.
  unfold redis_Set, bind, wrap, lift. destruct (marshal v) as [s|e|w]; cbn [wrap_err]; [|intros [= <- <-]; by left..].
  destruct (rd_Set _ s _ c) as [res c1] eqn:E. destruct (rd_set_law _ _ _ _ _ _ E) as (t & _ & Hs).
  destruct res as [u|e|w]; cbn [wrap_err]; intros [= <- <-]; [right; by exists s; eexists| |done].
  destruct Hs as [->| ->]; [by left|right; by exists s; eexists].
Qed.

Lemma redis_Set_now {V} `{!JSONType V} key (v : V) d c r c' : redis_Set key v d c = (r, c') -> (rd_now c <= rd_now c')%Z.
Proof.
  unfold redis_Set, bind, wrap, lift. destruct (marshal v) as [s|e|w]; cbn [wrap_err]; [|by intros [= <- <-]..].
  destruct (rd_Set _ s _ c) as [res c1] eqn:E. destruct (rd_set_law _ _ _ _ _ _ E) as (t & Ht & _). intros [= _ <-]. lia.
Qed.

Lemma redis_Delete_spec key c c' : redis_Delete key c = (Ok tt, c') ->
  rd_entries c' = delete (redisKeyPrefix +:+ key) (rd_entries c) /\ (rd_now c <= rd_now c')%Z.
Proof. unfold redis_Delete. intros E%wrap_ok. by destruct (rd_del_law _ _ _ _ E). Qed.

(** Nothing comes back: a deletion leaves some of the entries. *)
Lemma redis_Delete_sub key c r c' : redis_Delete key c = (r, c') -> rd_entries c' ⊆ rd_entries c /\ (rd_now c <= rd_now c')%Z.
Proof.
  unfold redis_Delete, wrap. destruct (rd_Del _ c) as [res c1] eqn:E. destruct (rd_del_law _ _ _ _ E) as [Ht Hd]. intros [= _ <-]. split; [|done].
  simpl in Hd. assert (Hsub : delete (redisKeyPrefix +:+ key) (rd_entries c) ⊆ rd_entries c) by apply delete_subseteq.
  destruct res as [u|e|w]; [by rewrite Hd|by destruct Hd as [[->| ->] _]|done].
Qed.

Lemma redis_Delete_error key c e c' : redis_Delete key c = (Err e, c') -> errors_is e ErrNotFound = false.
Proof.
  unfold redis_Delete, wrap. destruct (rd_Del _ c) as [[u|e1|w] c1] eqn:E; [done| |done]. intros [= <- _].
  destruct (rd_del_law _ _ _ _ E) as [_ [_ He]]. cbn [errors_is]. by rewrite bool_decide_eq_false_2, He.
Qed.

Lemma foldr_delete_lookup (m : redis_entries) l k : foldr delete m l !! k = if bool_decide (k ∈ l) then None else m !! k.
Proof.
  induction l as [|x l IH]; cbn [foldr]; [rewrite bool_decide_eq_false_2; [done|apply list.not_elem_of_nil]|].
  destruct (decide (x = k)) as [->|Hne].
  - rewrite lookup_delete_eq, bool_decide_eq_true_2; [done|apply list_elem_of_here].
  - rewrite lookup_delete_ne, IH by done. apply (f_equal (fun b : bool => if b then None else m !! k)).
    apply bool_decide_ext. rewrite list.elem_of_cons. naive_solver.
Qed.

Lemma has_byte_app x a b : has_byte x (a +:+ b) = has_byte x a || has_byte x b.
Proof.
  unfold has_byte. induction a as [|y a IH]; [done|]. rewrite String_app. cbn [cut_byte]. destruct (Ascii.eqb y x); [done|].
  destruct (cut_byte x (a +:+ b)) as [[]|], (cut_byte x a) as [[]|]; done.
Qed.
Lemma plain_pattern_app a b : plain_pattern (a +:+ b) = plain_pattern a && plain_pattern b.
Proof.
  unfold plain_pattern. rewrite <- negb_orb. f_equal. induction (String.list_ascii_of_string "*?[]\^") as [|x l IH]; [done|].
  cbn [existsb]. rewrite has_byte_app, IH. by destruct (has_byte x a), (has_byte x b), (existsb (fun c => has_byte c a) l), (existsb (fun c => has_byte c b) l).
Qed.

(** After a pattern has been deleted nothing that starts so is read. *)
Lemma DeletePattern_spec p c c' : plain_pattern p = true -> DeletePattern (p +:+ "*") c = (Ok tt, c') ->
  rd_entries c' ⊆ rd_entries c /\ (rd_now c <= rd_now c')%Z /\
  (forall k, String.prefix (redisKeyPrefix +:+ p) k = false -> rd_entries c' !! k = rd_entries c !! k) /\
  exists t, (rd_now c <= t <= rd_now c')%Z /\
    forall k s, read_at t (rd_entries c') k = Some s -> String.prefix (redisKeyPrefix +:+ p) k = false.
Proof.
  intros Hp. unfold DeletePattern, bind. destruct (wrap "redis scan error" _ c) as [res c1] eqn:E. destruct res as [keys|e|w]; [|done..].
  apply wrap_ok in E. change (redisKeyPrefix +:+ (p +:+ "*")) with ((redisKeyPrefix +:+ p) +:+ "*") in E.
  assert (Hpp : plain_pattern (redisKeyPrefix +:+ p) = true) by (by rewrite plain_pattern_app, Hp).
  destruct (rd_scan_law _ _ _ _ Hpp E) as (He & t & Ht & Hk).
  assert (Hgone : forall m, m ⊆ rd_entries c -> (forall k, k ∈ keys -> m !! k = None) ->
    forall k s, read_at t m k = Some s -> String.prefix (redisKeyPrefix +:+ p) k = false).
  { intros m Hm Hd k s Hs. destruct (String.prefix (redisKeyPrefix +:+ p) k) eqn:Ep; [|done]. exfalso.
    assert (Hin : k ∈ keys).
    { apply Hk. split; [|done]. unfold read_at in *. destruct (m !! k) as [e|] eqn:Em; [|done].
      rewrite (lookup_weaken _ _ _ _ Em Hm). by rewrite Hs. }
    unfold read_at in Hs. by rewrite (Hd k Hin) in Hs. }
  destruct keys as [|k0 keys].
  - intros [= <-]. rewrite He. split_and!; [done|lia|done|]. exists t. split; [done|]. apply Hgone; [done|]. by intros k Hk0%list.elem_of_nil.
  - intros E2%wrap_ok. destruct (rd_del_law _ _ _ _ E2) as [Ht2 Hd]. rewrite Hd, He.
    assert (Hsub : foldr delete (rd_entries c) (k0 :: keys) ⊆ rd_entries c).
    { apply map_subseteq_spec. intros k e. rewrite foldr_delete_lookup. by destruct (bool_decide _). }
    split_and!; [done|lia| |].
    { intros k Hk0. rewrite foldr_delete_lookup, bool_decide_eq_false_2; [done|]. intros [_ Hin]%Hk. by rewrite Hk0 in Hin. }
    exists t. split; [lia|]. apply Hgone; [done|]. intros k Hin. by rewrite foldr_delete_lookup, bool_decide_eq_true_2.
Qed.
End laws.

(** A server that answers, and whose clock stands in the answers. *)
Class RedisReliable (C : Type) `{RedisLaws C} : Prop := {
  rd_get_reliable : forall k c r c', rd_Get k c = (r, c') -> exists t, (rd_now c <= t <= rd_now c')%Z /\
    r = match read_at t (rd_entries c) k with Some v => Ok v | None => Err RedisNil end;
}.

(** What is stored and alive is read. *)
Section hit.
Context {C : Type} `{RedisReliable C} `{JSONLibrary}.
Lemma redis_Get_hit key c r c' txt T j :
  rd_entries c !! (redisKeyPrefix +:+ key) = Some (txt, Some T) -> unmarshal_any txt = Ok j ->
  redis_Get key c = (r, c') -> (rd_now c' <= T)%Z -> r = Ok j.
Proof.
  intros Hin Hj. unfold redis_Get, bind, attempt. destruct (rd_Get _ c) as [rg cg] eqn:Eg. destruct (rd_get_reliable _ _ _ _ Eg) as (t & Ht & ->).
  unfold read_at. rewrite Hin. unfold alive. cbn [fst snd]. destruct (Z.ltb_spec T t) as [Hlt|_]; cbn [negb].
  - change (errors_is RedisNil RedisNil) with true. cbv iota. intros [= _ <-]. lia.
  - unfold wrap, lift. rewrite Hj. by intros [= <- _].
Qed.
Lemma GetTyped_hit {V} `{!JSONType V} key c r c' txt T j d (v : V) :
  rd_entries c !! (redisKeyPrefix +:+ key) = Some (txt, Some T) -> unmarshal_any txt = Ok j -> marshal_any j = Ok d -> unmarshal d = Ok v ->
  GetTyped key c = (r, c') -> (rd_now c' <= T)%Z -> r = Ok v.
Proof.
  intros Hin Hj Hd Hv E HT. unfold GetTyped, bind in E. destruct (redis_Get key c) as [rg cg] eqn:Eg.
  assert (Hcg : c' = cg).
  { unfold wrap, lift in E. destruct rg as [j0|e|w]; [|by injection E..]. destruct (marshal_any j0); cbn [wrap_err] in E; by injection E. }
  subst c'. rewrite (redis_Get_hit _ _ _ _ _ _ _ Hin Hj Eg HT) in E. unfold wrap, lift in E. rewrite Hd in E. cbn [wrap_err] in E. rewrite Hv in E. by injection E.
Qed.
End hit.

(** ** A server in memory *)

Module MemRedis.
Record server : Type := mkServer { items : redis_entries; ticks : N }.
Section server.
Context `{WallClock}.
Definition tick : M server time := fun c => (Ok (now_at (ticks c)), mkServer (items c) (ticks c + 1)).
Definition set_items (m : redis_entries) (c : server) : server := mkServer m (ticks c).
(** Patterns that end in a star. *)
Definition starts (pattern k : string) : bool := String.prefix (String.substring 0 (String.length pattern - 1) pattern) k.
#[export] Instance client : RedisClient server := {
  rd_Get k := let! t := tick in let! c := get in lift (match read_at t (items c) k with Some v => Ok v | None => Err RedisNil end);
  rd_Set k v d := let! t := tick in modify (fun c => set_items (<[k := (v, if (0 <? d)%Z then Some (t + d)%Z else None)]> (items c)) c);
  rd_Del l := let! t := tick in modify (fun c => set_items (foldr delete (items c) l) c);
  rd_Scan p := let! t := tick in let! c := get in
    ret (map fst (List.filter (fun e => alive t (snd e) && starts p (fst e)) (map_to_list (items c))));
  rd_FlushDB := modify (set_items ∅);
}.

Lemma starts_star p k : starts (p +:+ "*") k = String.prefix p k.
Proof.
  unfold starts. f_equal. rewrite length_string_app. replace (String.length p + String.length "*" - 1) with (String.length p) by (simpl; lia).
  induction p as [|c p IH]; [done|]. rewrite String_app. simpl. by rewrite IH.
Qed.

Context `{!GoClock _}.
#[export, program] Instance laws : RedisLaws server := { rd_entries := items; rd_now c := now_at (ticks c) }.
Next Obligation.
  intros k c r c' E. pose proof (now_next (ticks c)). injection E as <- <-. split; [done|]. exists (now_at (ticks c)). split; [simpl; lia|].
  simpl. destruct (read_at _ (items c) k); [done|]. done.
Qed.
Next Obligation.
  intros k v d c r c' E. pose proof (now_next (ticks c)). injection E as <- <-. exists (now_at (ticks c)). split; [simpl; lia|done].
Qed.
Next Obligation. intros l c r c' E. pose proof (now_next (ticks c)). injection E as <- <-. by split. Qed.
Next Obligation.
  intros p c r c' Hp E. pose proof (now_next (ticks c)). injection E as <- <-. split; [done|]. exists (now_at (ticks c)). split; [simpl; lia|].
  simpl. intros k. rewrite list_elem_of_In, in_map_iff. split.
  - intros ([k' e] & <- & [Hin Ha]%filter_In). apply andb_prop in Ha as [Ha Hst]. simpl in *. rewrite starts_star in Hst. split; [|done].
    apply list_elem_of_In, elem_of_map_to_list in Hin. unfold read_at. rewrite Hin, Ha. by eexists.
  - unfold read_at. intros [[v Hv] Hst]. destruct (items c !! k) as [e|] eqn:Ee; [|done]. destruct (alive _ e) eqn:Ea; [|done].
    exists (k, e). split; [done|]. apply filter_In. split; [by apply list_elem_of_In, elem_of_map_to_list|]. simpl. by rewrite starts_star, Ea.
Qed.
#[export] Instance reliable : RedisReliable server.
Proof.
  split. intros k c r c' E. pose proof (now_next (ticks c)). injection E as <- <-. exists (now_at (ticks c)). by split; [simpl; lia|].
Qed.
End server.
End MemRedis.
