(* ===== verification/ReadThrough.v ===== *)
(** Repositories behind a cache ([internal/repositories/cached/wrapper.go]): the
    keys, the reads that fill the cache and the removal of entries, and what
    has to hold for a cached read to tell what the repository holds. *)

From S2P Require Import Prelude.
From S2P Require Import GoNum.
From S2P Require Import Domain.
From S2P Require Import GoRuntime.
From S2P Require Import Repositories.
From S2P Require Import Cache.
From S2P Require Import RedisCache.
From stdpp Require Import base tactics strings list gmap numbers.
From Stdlib Require Import NArith ZArith Ascii.

(** ** Selections when rows change *)

Section selections.
Context {A : Type} (id : A -> N).

(** Rows that do not answer a look-up may change. *)
Lemma selects_ext (rows rows' : gmap N A) (matches : A -> bool) p l :
  (forall x, matches x = true -> rows !! id x = Some x <-> rows' !! id x = Some x) ->
  selects id rows matches p (Ok l) -> selects id rows' matches p (Ok l).
Proof.
  intros Hx (all & Hsort & Hel & Hp). exists all. split_and!; [done| |done]. intros x. rewrite Hel. split; intros [Hr Hm]; (split; [|done]); by apply Hx.
Qed.

Lemma applyPagination_map (f : A -> A) l k p : applyPagination l p = Ok k -> applyPagination (map f l) p = Ok (map f k).
Proof.
  unfold applyPagination. destruct p as [pg|]; [|by intros [= ->]]. cbv zeta. rewrite length_map. destruct (_ <=? _)%N; [by intros [= <-]|].
  destruct (_ <? _)%N; [done|]. intros [= <-]. by rewrite skipn_map, firstn_map.
Qed.

(** Rows rewritten in place, so that they answer as before, are found rewritten. *)
Lemma selects_map (f : A -> A) (rows : gmap N A) (matches : A -> bool) p l :
  (forall i x, rows !! i = Some x -> id x = i) -> (forall x, id (f x) = id x) -> (forall x, matches (f x) = matches x) ->
  selects id rows matches p (Ok l) -> selects id (f <$> rows) matches p (Ok (map f l)).
Proof.
  intros Hrow Hid Hm (all & Hsort & Hel & Hp). exists (map f all). split_and!; [| |by apply applyPagination_map].
  - clear -Hsort Hid. induction Hsort as [|x l Hs IH Hall]; simpl; constructor; [done|]. apply List.Forall_map. eapply list.Forall_impl; [exact Hall|].
    intros y. simpl. by rewrite !Hid.
  - intros x. rewrite lookup_fmap, fmap_Some, list_elem_of_fmap. split.
    + intros (y & -> & [Hy Hmy]%Hel). rewrite Hid, Hm. split; [by exists y|done].
    + intros [(y & Hy & ->) Hmx]. exists y. split; [done|]. apply Hel. rewrite Hm in Hmx. rewrite Hid in Hy. done.
Qed.

(** One id is one row. *)
Lemma selects_one_id i (rows : gmap N A) matches x l :
  rows !! i = Some x -> selects id rows matches None (Ok l) ->
  (forall j y, rows !! j = Some y -> id y = j /\ j <> 0%N) -> (forall y, matches y = true <-> id y = i) -> exists l', l = x :: l'.
Proof.
  intros Hx (all & Hsort & Hel & [= <-]) Hid Hm.
  assert (Hiff : forall y, y ∈ all <-> y = x).
  { intros y. rewrite Hel, Hm. split; [intros [Hy Hyi]; rewrite Hyi in Hy; congruence|]. intros ->. destruct (Hid _ _ Hx) as [-> _]. done. }
  destruct all as [|y all]; [exfalso; by apply (list.not_elem_of_nil x), Hiff|]. exists all. f_equal. apply Hiff, list_elem_of_here.
Qed.
End selections.

(** ** Keys *)

(** The parameters keys are made of. *)
Inductive param : Type :=
| PUint (n : N)
| PString (s : string)
| PStrings (l : list string)
| PNodeFilter (f : option FindNode)
| POrder (l : list Sorting)
| PPage (p : option Pagination).

#[export] Instance FindNode_eq_dec : EqDecision FindNode.
Proof. solve_decision. Defined.
#[export] Instance SortDirection_eq_dec : EqDecision SortDirection.
Proof. solve_decision. Defined.
#[export] Instance Sorting_eq_dec : EqDecision Sorting.
Proof. solve_decision. Defined.
#[export] Instance Pagination_eq_dec : EqDecision Pagination.
Proof. solve_decision. Defined.
#[export] Instance param_eq_dec : EqDecision param.
Proof. solve_decision. Defined.
#[export] Instance param_countable : Countable param.
Proof.
  refine (inj_countable'
    (fun p => match p with
     | PUint n => inl n | PString s => inr (inl s) | PStrings l => inr (inr (inl l))
     | PNodeFilter f => inr (inr (inr (inl ((fun f => (fn_IDs f, fn_GDaemonAPIKey f, fn_GDaemonAPIToken f, fn_WithDeleted f)) <$> f))))
     | POrder l => inr (inr (inr (inr (inl (map (fun s => (so_Field s, match so_Direction s with SortDirectionAsc => true | SortDirectionDesc => false end)) l)))))
     | PPage p => inr (inr (inr (inr (inr ((fun p => (pg_Limit p, pg_Offset p)) <$> p)))))
     end)
    (fun x => match x with
     | inl n => PUint n | inr (inl s) => PString s | inr (inr (inl l)) => PStrings l
     | inr (inr (inr (inl f))) => PNodeFilter ((fun '(i, k, t, d) => mkFindNode i k t d) <$> f)
     | inr (inr (inr (inr (inl l)))) => POrder (map (fun '(f, d) => mkSorting f (if (d : bool) then SortDirectionAsc else SortDirectionDesc)) l)
     | inr (inr (inr (inr (inr p)))) => PPage ((fun '(l, o) => mkPagination l o) <$> p)
     end) _).
  intros [n|s|l|[[]|]|l|[[]|]]; try reflexivity. f_equal. rewrite map_map. rewrite <- (map_id l) at 2. apply map_ext. by intros [? []].
Defined.

(** [encoding/json] of such parameters, the hexadecimal SHA-256 digest, and
    [fmt.Sprintf] with percent-v. *)
Class KeyLibrary : Type := {
  json_params : list param -> result string;
  sha256_hex : string -> string;
  fmt_params : list param -> string;
}.

Section keys.
Context `{KeyLibrary}.
Definition hashParams (params : list param) : string :=
  match json_params params with Ok data => sha256_hex data | _ => fmt_params params end.

(** [DefaultKeyBuilder] with its prefix. *)
Definition BuildKey (prefix operation : string) (params : list param) : string :=
  let hashed := prefix +:+ ":" +:+ operation +:+ ":" +:+ hashParams params in
  match params with
  | [] => prefix +:+ ":" +:+ operation
  | [PUint p] => if String.eqb operation "id" then prefix +:+ ":" +:+ operation +:+ ":" +:+ FormatUint p else hashed
  | _ => hashed
  end.
Definition BuildPattern (prefix operation : string) : string := prefix +:+ ":" +:+ operation +:+ ":*".
End keys.

(** Digests that tell everything; a single text is kept as it is. *)
Definition only_text (l : list param) : option string := match l with [PString s] => Some s | _ => None end.
Definition plain_digests : KeyLibrary := {|
  json_params l := Ok match only_text l with Some s => String "t"%char s | None => String "p"%char (digits (encode l)) end;
  sha256_hex s := s; fmt_params _ := ""%string;
|}.
Lemma only_text_Some l s : only_text l = Some s -> l = [PString s].
Proof. destruct l as [|[] []]; simpl; congruence. Qed.
Lemma plain_digests_inj l k : @hashParams plain_digests l = @hashParams plain_digests k -> l = k.
Proof.
  unfold hashParams. cbn [json_params sha256_hex plain_digests].
  destruct (only_text l) as [s|] eqn:El, (only_text k) as [s'|] eqn:Ek; intros E; [|discriminate E..|].
  - injection E as <-. apply only_text_Some in El, Ek. congruence.
  - assert (E' : digits (encode l) = digits (encode k)) by congruence. apply (f_equal number) in E'. rewrite !number_digits in E'. by apply (inj encode) in E'.
Qed.

(** ** The wrapper *)

(** A repository and the Redis cache in front of it. *)
Record CachedRepo (R C : Type) : Type := mkCachedRepo { cr_inner : R; cr_cache : C }.
Arguments mkCachedRepo {R C}. Arguments cr_inner {R C}. Arguments cr_cache {R C}.

Section wrapper.
Context {R C : Type} `{RedisClient C} `{JSONLibrary} (ttl : Z).
Abbreviation S := (CachedRepo R C).
Definition on_inner {A} (x : M R A) : M S A := zoom cr_inner (fun r s => mkCachedRepo r (cr_cache s)) x.
Definition on_cache {A} (x : M C A) : M S A := zoom cr_cache (fun c s => mkCachedRepo (cr_inner s) c) x.

(** [GetOrSet]: what was cached, or what was loaded. *)
Definition GetOrSet {V} `{!JSONType V} (key : string) (loader : M R V) : M S (J + V) :=
  let load :=
    let! result := on_inner loader in
    do! attempt (on_cache (redis_Set key result ttl)) ;;
    ret (inr result) in
  let! cached := attempt (on_cache (redis_Get key)) in
  match cached with
  | Panic w => lift (Panic w)
  | Ok j => if j_nil j then load else ret (inl j)
  | Err _ => load
  end.

(** [InvalidatePattern] where the cache is Redis, as the container has it. *)
Definition InvalidatePattern (pattern : string) : M S unit := on_cache (DeletePattern pattern).

Definition Invalidate (keys : list string) : M S unit :=
  for_each keys (fun key s =>
    match on_cache (redis_Delete key) s with
    | (Err e, s') => if errors_is e ErrNotFound then (Ok tt, s') else (Err e, s')
    | res => res
    end).

(** How every cached read goes: through the cache, and once more out of it in
    the right type. *)
Definition read_through {V} `{!JSONType V} (what key : string) (loader : M R V) : M S V :=
  do! wrap ("failed to get or set cache for " +:+ what) (GetOrSet key loader) ;;
  wrap ("failed to get typed cached data for " +:+ what) (on_cache (GetTyped key)).
End wrapper.

(** ** Coherence *)

Section coherence.
Context {R C : Type} `{RedisLaws C} `{JSONLibrary} (ttl : Z).
Abbreviation S := (CachedRepo R C).
Implicit Types s : S.

Lemma alive_earlier t t' e : (t <= t')%Z -> alive t' e = true -> alive t e = true.
Proof. unfold alive. destruct (snd e); [|done]. rewrite !negb_true_iff, !Z.ltb_ge. lia. Qed.
Lemma read_earlier t t' (m : redis_entries) k txt : (t <= t')%Z -> read_at t' m k = Some txt -> read_at t m k = Some txt.
Proof.
  intros Ht. unfold read_at. destruct (m !! k) as [e|]; [|done]. destruct (alive t' e) eqn:Ea; [|done]. by rewrite (alive_earlier t t').
Qed.
Lemma read_subset t (m m' : redis_entries) k txt : m' ⊆ m -> read_at t m' k = Some txt -> read_at t m k = Some txt.
Proof. intros Hm. unfold read_at. destruct (m' !! k) as [e|] eqn:E; [|done]. by rewrite (lookup_weaken _ _ _ _ E Hm). Qed.
Lemma decodes_fun {V} `{!JSONType V} txt (v v' : V) : decodes txt v -> decodes txt v' -> v = v'.
Proof. intros (j & d & E1 & E2 & E3) (j' & d' & E1' & E2' & E3'). congruence. Qed.

(** A family of keys for one kind of value: [key] is injective on the [legal]
    ones, and [view k r v] says that [v] is what [r] holds for [k]. *)
Context {K V : Type} `{!JSONType V} `{!JSONLaws V}.
Context (legal : K -> Prop) (key : K -> string) (view : K -> R -> V -> Prop).
Hypothesis key_inj : forall k k', legal k -> legal k' -> key k = key k' -> k = k'.

(** What is still to be read from the cache is what the repository holds. *)
Definition coherent s : Prop :=
  forall k t txt, legal k -> (rd_now (cr_cache s) <= t)%Z -> read_at t (rd_entries (cr_cache s)) (redisKeyPrefix +:+ key k) = Some txt ->
  exists v, decodes txt v /\ view k (cr_inner s) v.

Lemma redis_key_inj k k' : redisKeyPrefix +:+ k = redisKeyPrefix +:+ k' -> k = k'.
Proof. by intros [= ?]. Qed.

(** Entries may go, and what the repository holds for the rest may not change. *)
Lemma coherent_change s s' :
  coherent s -> (rd_now (cr_cache s) <= rd_now (cr_cache s'))%Z ->
  (forall k t txt, legal k -> (rd_now (cr_cache s') <= t)%Z -> read_at t (rd_entries (cr_cache s')) (redisKeyPrefix +:+ key k) = Some txt ->
     read_at t (rd_entries (cr_cache s)) (redisKeyPrefix +:+ key k) = Some txt /\
     forall v, view k (cr_inner s) v -> view k (cr_inner s') v) ->
  coherent s'.
Proof.
  intros Hc Ht Hk k t txt Hlk Hts Hr. destruct (Hk k t txt Hlk Hts Hr) as [Hr' Hv].
  destruct (Hc k t txt Hlk (Z.le_trans _ _ _ Ht Hts) Hr') as (v & Hd & Hv'). exists v. auto.
Qed.

(** A read leaves the repository, for these keys, as it is. *)
Definition loads (inv : R -> Prop) (k : K) (loader : M R V) : Prop :=
  forall r res r', inv r -> loader r = (res, r') ->
  inv r' /\ (forall k' v, view k' r v -> view k' r' v) /\ forall v, res = Ok v -> view k r' v /\ portable v.

Lemma read_through_spec inv what k loader s res s' :
  legal k -> inv (cr_inner s) -> coherent s -> loads inv k loader -> read_through ttl what (key k) loader s = (res, s') ->
  inv (cr_inner s') /\ coherent s' /\ (rd_now (cr_cache s) <= rd_now (cr_cache s'))%Z /\
  (forall k' v, view k' (cr_inner s) v -> view k' (cr_inner s') v) /\
  forall v, res = Ok v -> view k (cr_inner s') v.
Proof.
  intros Hlk Hi Hc Hl. unfold read_through.
  (* reading with the right type *)
  assert (Htyped : forall s1 msg, coherent s1 -> forall res s2, wrap msg (on_cache (GetTyped (V:=V) (key k))) s1 = (res, s2) ->
    cr_inner s2 = cr_inner s1 /\ coherent s2 /\ (rd_now (cr_cache s1) <= rd_now (cr_cache s2))%Z /\ forall v, res = Ok v -> view k (cr_inner s2) v).
  { intros s1 msg Hc1 res2 s2. unfold wrap, on_cache, zoom. destruct (GetTyped (key k) (cr_cache s1)) as [r2 c2] eqn:E.
    destruct (GetTyped_spec _ _ _ _ E) as (He & Ht & Hv). intros [= <- <-]. split_and!; [done| |done|].
    - apply (coherent_change s1); [done..|]. cbn [cr_cache cr_inner]. rewrite He. auto.
    - intros v Hr. destruct r2 as [v2|e|w]; [|done..]. injection Hr as ->. destruct (Hv v eq_refl) as (txt & t & Hts & Hrd & Hd).
      destruct (Hc1 k t txt Hlk ltac:(lia) Hrd) as (v' & Hd' & Hv'). by rewrite (decodes_fun _ _ _ Hd Hd'). }
  unfold bind at 1. destruct (wrap _ (GetOrSet ttl (key k) loader) s) as [r1 s1] eqn:E1. apply (f_equal snd) in E1 as Es1. cbn [snd] in Es1.
  assert (Hs1 : inv (cr_inner s1) /\ coherent s1 /\ (rd_now (cr_cache s) <= rd_now (cr_cache s1))%Z /\ forall k' v, view k' (cr_inner s) v -> view k' (cr_inner s1) v).
  { unfold wrap, GetOrSet in Es1. unfold bind at 1 in Es1. unfold attempt at 1 in Es1. unfold on_cache at 1, zoom at 1 in Es1.
    destruct (redis_Get (key k) (cr_cache s)) as [rg cg] eqn:Eg. destruct (redis_Get_spec _ _ _ _ Eg) as (He & Ht & _).
    assert (Hc0 : coherent (mkCachedRepo (cr_inner s) cg)) by (apply (coherent_change s); [done..|]; cbn [cr_cache cr_inner]; rewrite He; auto).
    set (load := bind (on_inner loader) _) in Es1.
    assert (Hload : forall rl sl, load (mkCachedRepo (cr_inner s) cg) = (rl, sl) ->
      inv (cr_inner sl) /\ coherent sl /\ (rd_now (cr_cache s) <= rd_now (cr_cache sl))%Z /\ forall k' v, view k' (cr_inner s) v -> view k' (cr_inner sl) v).
    { intros rl sl. unfold load, bind, on_inner, zoom. cbn [cr_inner cr_cache]. destruct (loader (cr_inner s)) as [rv r'] eqn:El.
      destruct (Hl _ _ _ Hi El) as (Hi' & Hkeep & Hv).
      assert (Hc1 : coherent (mkCachedRepo r' cg)) by (apply (coherent_change (mkCachedRepo (cr_inner s) cg)); [done..|]; cbn [cr_cache cr_inner]; eauto).
      destruct rv as [v|e|w]; [|by intros [= <- <-]..]. destruct (Hv v eq_refl) as [Hview Hport].
      unfold attempt, on_cache, zoom. cbn [cr_inner cr_cache]. destruct (redis_Set (key k) v ttl cg) as [rs cs] eqn:Eset.
      assert (Hnow : (rd_now cg <= rd_now cs)%Z) by (by eapply redis_Set_now).
      assert (Hc2 : coherent (mkCachedRepo r' cs)).
      { destruct (redis_Set_spec _ _ _ _ _ _ Eset) as [Hsame|(txt & e & Hm & Hins)].
        - apply (coherent_change (mkCachedRepo r' cg)); [done..|]. cbn [cr_cache cr_inner]. rewrite Hsame. auto.
        - intros k' t txt' Hlk' Hts. cbn [cr_cache cr_inner] in *. unfold read_at. rewrite Hins.
          destruct (decide (key k' = key k)) as [Hk|Hk].
          + apply key_inj in Hk as ->; [|done..]. rewrite lookup_insert_eq. destruct (alive t _); [|done]. intros [= <-]. exists v. split; [|done].
            by apply json_law.
          + rewrite lookup_insert_ne by (by intros Heq%redis_key_inj). intros Hr. apply (Hc1 k' t txt'); [done|cbn [cr_cache]; lia|done]. }
      destruct rs; intros [= <- <-]; by split_and!; [| |cbn [cr_cache]; lia|]. }
    destruct rg as [j|e|w]; [destruct (j_nil j)| |].
    - destruct (load _) as [rl sl] eqn:El. cbn [snd] in Es1. subst s1. by apply (Hload rl).
    - cbn [snd ret] in Es1. subst s1. by split_and!.
    - destruct (load _) as [rl sl] eqn:El. cbn [snd] in Es1. subst s1. by apply (Hload rl).
    - cbn [snd] in Es1. subst s1. by split_and!. }
  destruct Hs1 as (Hi1 & Hc1 & Ht1 & Hk1). destruct r1 as [x|e|w]; [|by intros [= <- <-]..].
  intros Hrun. destruct (Htyped s1 _ Hc1 _ _ Hrun) as (Hin & Hc2 & Ht2 & Hv2). rewrite Hin in *. split_and!; [done..|lia|done|done].
Qed.

(** A cached read moves the state as its steps do. *)
Lemma read_through_moves (P : relation S) `{!PreOrder P} what k (loader : M R V) :
  moves P (on_inner loader) -> moves P (on_cache (redis_Get k)) -> (forall v : V, moves P (on_cache (redis_Set k v ttl))) ->
  moves P (on_cache (GetTyped (V:=V) k)) -> moves P (read_through ttl what k loader).
Proof.
  intros Hl Hg Hs Ht. unfold read_through. apply moves_bind; [done| |intros _; by apply moves_wrap].
  apply moves_wrap. unfold GetOrSet.
  assert (Hload : moves P (let! result := on_inner loader in do! attempt (on_cache (redis_Set k result ttl)) ;; ret (inr (A:=J) result))).
  { apply moves_bind; [done..|]. intros v. apply moves_bind; [done|by apply moves_attempt|]. intros _. by apply moves_ret. }
  apply moves_bind; [done|by apply moves_attempt|]. intros [j|e|w]; [destruct (j_nil j)|..]; [done|by apply moves_ret|done|by apply moves_lift].
Qed.

(** Whatever the loader leaves alone the cached read leaves alone. *)
Lemma read_through_rows {T} (f : R -> T) what k (loader : M R V) s res s' :
  (forall r, f (snd (loader r)) = f r) -> read_through ttl what k loader s = (res, s') -> f (cr_inner s') = f (cr_inner s).
Proof.
  intros Hf E. change s' with (snd (res, s')). rewrite <- E. set (P := fun s s' : S => f (cr_inner s') = f (cr_inner s)).
  assert (PreOrder P) by (split; [intros x; done|intros x y z Hxy Hyz; unfold P in *; congruence]).
  assert (Hcache : forall A (x : M C A), moves P (on_cache x)) by (intros A x y; unfold on_cache, zoom, P; by destruct (x _)).
  apply (read_through_moves P); [|done..]. intros y. unfold on_inner, zoom, P. specialize (Hf (cr_inner y)). by destruct (loader _).
Qed.

(** The clock runs on. *)
Definition later s s' : Prop := (rd_now (cr_cache s) <= rd_now (cr_cache s'))%Z.
#[export] Instance later_preorder : PreOrder later.
Proof. split; [intros x; unfold later; lia|intros x y z; unfold later; lia]. Qed.
Lemma later_on_cache {A} (x : M C A) : (forall c r c', x c = (r, c') -> (rd_now c <= rd_now c')%Z) -> moves later (on_cache x).
Proof. intros Hx s. unfold on_cache, zoom, later. destruct (x (cr_cache s)) as [r c] eqn:E. exact (Hx _ _ _ E). Qed.
Lemma later_get k : moves later (on_cache (redis_Get k)).
Proof. apply later_on_cache. intros c r c' E. by destruct (redis_Get_spec _ _ _ _ E) as (_ & ? & _). Qed.
Lemma later_typed k : moves later (on_cache (GetTyped (V:=V) k)).
Proof. apply later_on_cache. intros c r c' E. by destruct (GetTyped_spec _ _ _ _ E) as (_ & ? & _). Qed.
Lemma later_set k (v : V) : moves later (on_cache (redis_Set k v ttl)).
Proof. apply later_on_cache. intros c r c' E. by eapply redis_Set_now. Qed.
Lemma later_load (loader : M R V) : moves later (on_inner loader).
Proof. intros s. unfold on_inner, zoom, later. destruct (loader _). simpl. lia. Qed.

(** What is stored and alive to the end is what is read. *)
Lemma read_through_hit `{!RedisReliable C} what k (loader : M R V) s res s' txt T j v d :
  rd_entries (cr_cache s) !! (redisKeyPrefix +:+ k) = Some (txt, Some T) ->
  unmarshal_any txt = Ok j -> j_nil j = false -> marshal_any j = Ok d -> unmarshal d = Ok v ->
  read_through ttl what k loader s = (res, s') -> (rd_now (cr_cache s') <= T)%Z -> res = Ok v.
Proof.
  intros Hin Hj Hnil Hd Hv E HT. destruct (on_cache (R:=R) (redis_Get k) s) as [rg sg] eqn:Eg. set (m1 := "failed to get or set cache for " +:+ what).
  set (m2 := wrap ("failed to get typed cached data for " +:+ what) (on_cache (R:=R) (GetTyped (V:=V) k))).
  set (load := let! result := on_inner loader in do! attempt (on_cache (redis_Set k result ttl)) ;; ret (inr (A:=J) result)).
  assert (Hload : moves later load).
  { apply moves_bind; [exact _|apply later_load|]. intros x. apply moves_bind; [exact _|apply moves_attempt, later_set|]. intros _. apply (moves_ret later). }
  assert (Hm2 : moves later m2) by apply moves_wrap, later_typed.
  assert (Hrest : (res, s') = (match rg with Panic w => lift (Panic w) | Ok j => do! wrap m1 (if j_nil j then load else ret (inl j)) ;; m2 | Err _ => do! wrap m1 load ;; m2 end) sg).
  { rewrite <- E. unfold read_through, bind at 1, wrap at 1, GetOrSet, bind at 1, attempt at 1. rewrite Eg. by destruct rg. }
  assert (Hlater : later sg s').
  { change s' with (snd (res, s')). rewrite Hrest. revert sg Hrest Eg. intros sg _ _. match goal with |- later sg (snd (?m sg)) => enough (moves later m) as Hmv by apply Hmv end. destruct rg as [j0|e|w]; [|apply (moves_bind later); [by apply moves_wrap|done]|apply (moves_lift later)].
    apply (moves_bind later); [apply moves_wrap|done]. destruct (j_nil j0); [done|apply (moves_ret later)]. }
  unfold on_cache at 1, zoom in Eg. destruct (redis_Get k (cr_cache s)) as [r1 c1] eqn:Eg1. injection Eg as <- <-.
  assert (HT1 : (rd_now c1 <= T)%Z) by (unfold later in Hlater; cbn [cr_cache] in Hlater; lia).
  rewrite (redis_Get_hit _ _ _ _ _ _ _ Hin Hj Eg1 HT1), Hnil in Hrest. unfold bind, wrap at 1, ret in Hrest. cbn [wrap_err] in Hrest.
  unfold m2, wrap, on_cache, zoom in Hrest. cbn [cr_cache cr_inner] in Hrest. destruct (GetTyped k c1) as [r2 c2] eqn:Et. injection Hrest as -> ->.
  destruct (redis_Get_spec _ _ _ _ Eg1) as (He1 & _ & _). rewrite <- He1 in Hin. by rewrite (GetTyped_hit _ _ _ _ _ _ _ _ _ Hin Hj Hd Hv Et HT).
Qed.

(** Taking out entries. *)
Lemma invalidate_keys_spec keys : forall s res s', Invalidate keys s = (res, s') ->
  cr_inner s' = cr_inner s /\ rd_entries (cr_cache s') ⊆ rd_entries (cr_cache s) /\ (rd_now (cr_cache s) <= rd_now (cr_cache s'))%Z.
Proof.
  induction keys as [|x keys IH]; intros s res s'; unfold Invalidate; cbn [for_each]; [by intros [= <- <-]|].
  unfold bind. unfold on_cache, zoom. destruct (redis_Delete x (cr_cache s)) as [r1 c1] eqn:E. destruct (redis_Delete_sub _ _ _ _ E) as [Hsub Ht].
  assert (Hrest : forall res s', Invalidate keys (mkCachedRepo (cr_inner s) c1) = (res, s') ->
    cr_inner s' = cr_inner s /\ rd_entries (cr_cache s') ⊆ rd_entries (cr_cache s) /\ (rd_now (cr_cache s) <= rd_now (cr_cache s'))%Z).
  { intros res0 s0 E0. destruct (IH _ _ _ E0) as (Hi & Hs & Hn). cbn [cr_cache cr_inner] in *. split_and!; [done|by etrans|lia]. }
  destruct r1 as [u|e|w]; [apply Hrest| |by intros [= <- <-]]. destruct (errors_is e ErrNotFound); [apply Hrest|by intros [= <- <-]].
Qed.

(** One entry is gone. *)
Lemma Invalidate_one x s s' : Invalidate [x] s = (Ok tt, s') ->
  cr_inner s' = cr_inner s /\ rd_entries (cr_cache s') = delete (redisKeyPrefix +:+ x) (rd_entries (cr_cache s)) /\
  (rd_now (cr_cache s) <= rd_now (cr_cache s'))%Z.
Proof.
  unfold Invalidate, for_each, bind, on_cache, zoom. destruct (redis_Delete x (cr_cache s)) as [r1 c1] eqn:E.
  destruct r1 as [[]|e|w]; [|rewrite (redis_Delete_error _ _ _ _ E); by intros [=]|by intros [=]].
  destruct (redis_Delete_spec _ _ _ E) as [He Ht]. by intros [= <-].
Qed.

(** Nothing of a pattern is read any more. *)
Lemma InvalidatePattern_spec p s s' : plain_pattern p = true -> InvalidatePattern (p +:+ "*") s = (Ok tt, s') ->
  cr_inner s' = cr_inner s /\ rd_entries (cr_cache s') ⊆ rd_entries (cr_cache s) /\ (rd_now (cr_cache s) <= rd_now (cr_cache s'))%Z /\
  (forall k, String.prefix (redisKeyPrefix +:+ p) k = false -> rd_entries (cr_cache s') !! k = rd_entries (cr_cache s) !! k) /\
  forall t k txt, (rd_now (cr_cache s') <= t)%Z -> read_at t (rd_entries (cr_cache s')) k = Some txt -> String.prefix (redisKeyPrefix +:+ p) k = false.
Proof.
  intros Hp. unfold InvalidatePattern, on_cache, zoom. destruct (DeletePattern _ (cr_cache s)) as [r c] eqn:E. intros [= -> <-].
  destruct (DeletePattern_spec _ _ _ Hp E) as (Hsub & Ht & Hkeep & t0 & Ht0 & Hgone). split_and!; [done..|].
  intros t k txt Hts Hr. apply (Hgone k txt). eapply (read_earlier t0 t); [|exact Hr]. cbn [cr_cache] in Hts. lia.
Qed.

(** Entries are only taken out, as time passes. *)
Definition thinned s s' : Prop :=
  cr_inner s' = cr_inner s /\ rd_entries (cr_cache s') ⊆ rd_entries (cr_cache s) /\ (rd_now (cr_cache s) <= rd_now (cr_cache s'))%Z.
(** There is no entry for a key. *)
Definition gone (k : K) s : Prop := rd_entries (cr_cache s) !! (redisKeyPrefix +:+ key k) = None.

Lemma thinned_refl s : thinned s s.
Proof. split_and!; [done..|lia]. Qed.
Lemma thinned_trans s1 s2 s3 : thinned s1 s2 -> thinned s2 s3 -> thinned s1 s3.
Proof. intros (E1 & Hs1 & Ht1) (E2 & Hs2 & Ht2). split_and!; [congruence|by etrans|lia]. Qed.
Lemma gone_thinned k s s' : thinned s s' -> gone k s -> gone k s'.
Proof. intros (_ & Hs & _) Hg. unfold gone in *. by eapply lookup_weaken_None. Qed.

Lemma invalidate_one msg k s s' : wrap msg (Invalidate [key k]) s = (Ok tt, s') -> thinned s s' /\ gone k s'.
Proof.
  intros (Ei & Ee & Ht)%wrap_ok%Invalidate_one. unfold gone. rewrite Ee. split; [|apply lookup_delete_eq]. split_and!; [done| |done].
  rewrite Ee. apply delete_subseteq.
Qed.
Lemma pattern_thins msg p s s' : plain_pattern p = true -> wrap msg (InvalidatePattern (p +:+ "*")) s = (Ok tt, s') -> thinned s s'.
Proof. intros Hp E%wrap_ok. destruct (InvalidatePattern_spec p s s' Hp E) as (Hi & Hs & Ht & _). by split_and!. Qed.

(** There is an entry that is still to be read. *)
Definition seen (k : K) s : Prop :=
  exists t txt, (rd_now (cr_cache s) <= t)%Z /\ read_at t (rd_entries (cr_cache s)) (redisKeyPrefix +:+ key k) = Some txt.
Lemma gone_unseen k s : gone k s -> ~ seen k s.
Proof. unfold gone. intros E (t & txt & _ & Hr). unfold read_at in Hr. by rewrite E in Hr. Qed.
Lemma pattern_unseen msg p k s s' : plain_pattern p = true -> String.prefix p (key k) = true ->
  wrap msg (InvalidatePattern (p +:+ "*")) s = (Ok tt, s') -> ~ seen k s'.
Proof.
  intros Hp Hk E%wrap_ok. destruct (InvalidatePattern_spec p s s' Hp E) as (_ & _ & _ & _ & Hgone). intros (t & txt & Ht & Hr).
  specialize (Hgone t _ txt Ht Hr). apply prefix_spec in Hk as [q Hq]. rewrite Hq in Hgone.
  change (redisKeyPrefix +:+ p +:+ q) with ((redisKeyPrefix +:+ p) +:+ q) in Hgone. by rewrite string_prefix_app in Hgone.
Qed.
Lemma seen_thinned k s s' : thinned s s' -> seen k s' -> seen k s.
Proof. intros (_ & Hs & Ht) (t & txt & Hts & Hr). exists t, txt. split; [lia|]. by eapply read_subset. Qed.

(** A write keeps coherence when the entries of everything it changes are taken
    out. *)
Lemma coherent_write s s' :
  coherent s -> rd_entries (cr_cache s') ⊆ rd_entries (cr_cache s) -> (rd_now (cr_cache s) <= rd_now (cr_cache s'))%Z ->
  (forall k v, legal k -> seen k s' -> view k (cr_inner s) v -> view k (cr_inner s') v) -> coherent s'.
Proof.
  intros Hc Hs Ht Hv. apply (coherent_change s); [done..|]. intros k t txt Hk Hts Hr. split; [by eapply read_subset|].
  intros v. apply Hv; [done|]. by exists t, txt.
Qed.

(** An empty cache tells nothing wrong. *)
Lemma coherent_empty s : (forall k, legal k -> gone k s) -> coherent s.
Proof. intros Hg k t txt Hk _ Hr. specialize (Hg k Hk). unfold gone, read_at in *. by rewrite Hg in Hr. Qed.

(** What others do to their own entries does not matter here. *)
Lemma coherent_others s c' :
  (rd_now (cr_cache s) <= rd_now c')%Z ->
  (forall k, legal k -> rd_entries c' !! (redisKeyPrefix +:+ key k) = rd_entries (cr_cache s) !! (redisKeyPrefix +:+ key k) \/
     rd_entries c' !! (redisKeyPrefix +:+ key k) = None) ->
  coherent s -> coherent (mkCachedRepo (cr_inner s) c').
Proof.
  intros Ht Hk Hc. apply (coherent_change s); [done..|]. intros k t txt Hlk Hts Hr. cbn [cr_cache cr_inner] in *. split; [|auto].
  unfold read_at in *. by destruct (Hk k Hlk) as [<-|E]; [|rewrite E in Hr].
Qed.
End coherence.
