(* ===== verification/TaskRepo.v ===== *)
(** The in-memory daemon task repository
    ([internal/repositories/inmemory/daemon_tasks.go]): the task table with
    its four hash indexes, the filter evaluation through the indexes, saving
    with output preservation, sorting and pagination.  The index-driven
    [getFilteredTaskIDs] is proved equal to a scan of the table, and the
    repository implements the [DaemonTaskRepository] interface. *)

From S2P Require Import Prelude.
From S2P Require Import GoNum.
From S2P Require Import Domain.
From S2P Require Import Repositories.
From stdpp Require Import base tactics strings list gmap numbers sorting.
From Stdlib Require Import NArith ZArith.

Record memTaskRepo : Type := mkTaskRepo {
  tasks : gmap N DaemonTask;
  nextID : N;
  dedicatedServerIDIndex : gmap N (gset N);
  serverIDIndex : gmap N (gset N);
  taskTypeIndex : gmap string (gset N);
  statusIndex : gmap string (gset N);
}.

Definition NewDaemonTaskRepository : memTaskRepo := mkTaskRepo ∅ 0 ∅ ∅ ∅ ∅.

Definition addToIndexes (t : DaemonTask) (r : memTaskRepo) : memTaskRepo :=
  mkTaskRepo (tasks r) (nextID r)
    (idx_add (dt_DedicatedServerID t) (dt_ID t) (dedicatedServerIDIndex r))
    (opt_add (dt_ServerID t) (dt_ID t) (serverIDIndex r))
    (idx_add (dt_Task t) (dt_ID t) (taskTypeIndex r))
    (idx_add (dt_Status t) (dt_ID t) (statusIndex r)).

Definition removeFromIndexes (t : DaemonTask) (r : memTaskRepo) : memTaskRepo :=
  mkTaskRepo (tasks r) (nextID r)
    (idx_remove (dt_DedicatedServerID t) (dt_ID t) (dedicatedServerIDIndex r))
    (opt_remove (dt_ServerID t) (dt_ID t) (serverIDIndex r))
    (idx_remove (dt_Task t) (dt_ID t) (taskTypeIndex r))
    (idx_remove (dt_Status t) (dt_ID t) (statusIndex r)).

Definition set_tasks (m : gmap N DaemonTask) (r : memTaskRepo) : memTaskRepo :=
  mkTaskRepo m (nextID r) (dedicatedServerIDIndex r) (serverIDIndex r)
    (taskTypeIndex r) (statusIndex r).
Definition set_nextID (n : N) (r : memTaskRepo) : memTaskRepo :=
  mkTaskRepo (tasks r) n (dedicatedServerIDIndex r) (serverIDIndex r)
    (taskTypeIndex r) (statusIndex r).

Definition nonempty {A} (l : list A) : bool :=
  match l with [] => false | _ => true end.

(** The non-nil entries of a [[]*uint] filter, in order. *)
Definition derefs (l : list (option N)) : list N := omap (fun x => x) l.

Definition intersectWithDedicatedServerIDs (r : memTaskRepo) (res : gset N) (ids : list N) : gset N :=
  idx_intersect res ids (dedicatedServerIDIndex r).
Definition intersectWithServerIDs (r : memTaskRepo) (res : gset N) (ids : list (option N)) : gset N :=
  idx_intersect res (derefs ids) (serverIDIndex r).
Definition intersectWithTasks (r : memTaskRepo) (res : gset N) (ts : list string) : gset N :=
  idx_intersect res ts (taskTypeIndex r).
Definition intersectWithStatuses (r : memTaskRepo) (res : gset N) (ss : list string) : gset N :=
  idx_intersect res ss (statusIndex r).

(** The candidates of the first non-empty filter. *)
Definition firstCandidates (r : memTaskRepo) (f : FindDaemonTask) : gset N :=
  if nonempty (ft_IDs f) then
    foldl (fun acc id => if decide (is_Some (tasks r !! id)) then {[id]} ∪ acc else acc) ∅ (ft_IDs f)
  else if nonempty (ft_DedicatedServerIDs f) then
    idx_union (ft_DedicatedServerIDs f) (dedicatedServerIDIndex r)
  else if nonempty (ft_ServerIDs f) then idx_union (derefs (ft_ServerIDs f)) (serverIDIndex r)
  else if nonempty (ft_Tasks f) then idx_union (ft_Tasks f) (taskTypeIndex r)
  else if nonempty (ft_Statuses f) then idx_union (ft_Statuses f) (statusIndex r)
  else dom (tasks r).

Definition getFilteredTaskIDs (r : memTaskRepo) (filter : option FindDaemonTask) : gset N :=
  match filter with
  | None => dom (tasks r)
  | Some f =>
      let ids := nonempty (ft_IDs f) in
      let nodes := nonempty (ft_DedicatedServerIDs f) in
      let servers := nonempty (ft_ServerIDs f) in
      let types := nonempty (ft_Tasks f) in
      let res := firstCandidates r f in
      let res := if nodes && ids
                 then intersectWithDedicatedServerIDs r res (ft_DedicatedServerIDs f) else res in
      let res := if servers && (ids || nodes)
                 then intersectWithServerIDs r res (ft_ServerIDs f) else res in
      let res := if types && (ids || nodes || servers)
                 then intersectWithTasks r res (ft_Tasks f) else res in
      if nonempty (ft_Statuses f) && (ids || nodes || servers || types)
      then intersectWithStatuses r res (ft_Statuses f) else res
  end.

Definition compareTasks (a b : DaemonTask) (field : string) : comparison :=
  if String.eqb field "id" then N.compare (dt_ID a) (dt_ID b)
  else if String.eqb field "dedicated_server_id" || String.eqb field "node_id" then
    N.compare (dt_DedicatedServerID a) (dt_DedicatedServerID b)
  else if String.eqb field "server_id" then opt_cmp N.compare (dt_ServerID a) (dt_ServerID b)
  else if String.eqb field "task" then String.compare (dt_Task a) (dt_Task b)
  else if String.eqb field "status" then String.compare (dt_Status a) (dt_Status b)
  else if String.eqb field "created_at" then opt_cmp Z.compare (dt_CreatedAt a) (dt_CreatedAt b)
  else if String.eqb field "updated_at" then opt_cmp Z.compare (dt_UpdatedAt a) (dt_UpdatedAt b)
  else Eq.

Definition sortTasks (ts : list DaemonTask) (order : list Sorting) : list DaemonTask :=
  sort_rows compareTasks dt_ID ts order.

(** The rows of a set of candidate ids (a Go map is ranged over in no
    particular order; the rows are sorted afterwards). *)
Definition rows_of (r : memTaskRepo) (ids : gset N) : list DaemonTask :=
  omap (fun id => tasks r !! id) (elements ids).

Definition FindAll (r : memTaskRepo) (order : list Sorting) (p : option Pagination)
  : result (list DaemonTask) :=
  applyPagination (sortTasks (map snd (map_to_list (tasks r))) order) p.

Definition Find (r : memTaskRepo) (filter : option FindDaemonTask) (order : list Sorting)
  (p : option Pagination) : result (list DaemonTask) :=
  applyPagination
    (sortTasks (map (dt_set_output None) (rows_of r (getFilteredTaskIDs r filter))) order) p.

Definition FindWithOutput (r : memTaskRepo) (filter : option FindDaemonTask)
  (order : list Sorting) (p : option Pagination) : result (list DaemonTask) :=
  applyPagination (sortTasks (rows_of r (getFilteredTaskIDs r filter)) order) p.

Definition Save (now : time) (task : DaemonTask) : M memTaskRepo DaemonTask := fun r =>
  let task := dt_set_times (dt_CreatedAt task) (Some now) task in
  let task :=
    if (dt_ID task =? 0)%N &&
       match dt_CreatedAt task with None => true | Some c => IsZero c end
    then dt_set_times (Some now) (dt_UpdatedAt task) task else task in
  let '(task, preserved, r) :=
    if negb (dt_ID task =? 0)%N then
      match tasks r !! dt_ID task with
      | Some old =>
          (task, match dt_Output task with None => dt_Output old | Some _ => None end,
           removeFromIndexes old r)
      | None => (task, None, r)
      end
    else
      let id := wrap32 (nextID r + 1) in
      (dt_set_id id task, None, set_nextID id r) in
  let output := match preserved with Some o => Some o | None => dt_Output task end in
  let row := dt_set_output output task in
  (Ok task, addToIndexes row (set_tasks (<[dt_ID task := row]> (tasks r)) r)).

Definition Delete (id : N) : M memTaskRepo unit := fun r =>
  let r := match tasks r !! id with Some t => removeFromIndexes t r | None => r end in
  (Ok tt, set_tasks (delete id (tasks r)) r).

Definition AppendOutput (id : N) (output : string) : M memTaskRepo unit := fun r =>
  match tasks r !! id with
  | None => (Ok tt, r)
  | Some t =>
      let t' := match dt_Output t with
                | None => dt_set_output (Some output) t
                | Some o => dt_set_output (Some (o +:+ output)) t
                end in
      (Ok tt, set_tasks (<[id := t']> (tasks r)) r)
  end.

Definition Count (r : memTaskRepo) (filter : option FindDaemonTask) : result N :=
  Ok (N.of_nat (size (getFilteredTaskIDs r filter))).

Definition Exists (r : memTaskRepo) (filter : option FindDaemonTask) : result bool :=
  match filter with
  | None => Ok false
  | Some f =>
      let candidates := getFilteredTaskIDs r filter in
      if nonempty (ft_IDs f) then Ok (bool_decide (size candidates = length (ft_IDs f)))
      else Ok (bool_decide (0 < size candidates))
  end.

#[export] Instance memTaskRepo_ops : DaemonTaskRepository memTaskRepo := {
  DT_Find := Find; DT_Save := Save; DT_AppendOutput := AppendOutput; DT_Exists := Exists;
}.

(** ** The repository invariant *)

Definition key_ds (t : DaemonTask) : option N := Some (dt_DedicatedServerID t).
Definition key_type (t : DaemonTask) : option string := Some (dt_Task t).
Definition key_status (t : DaemonTask) : option string := Some (dt_Status t).

(** Rows are stored under their own id, ids are between 1 and the counter, and
    each index agrees with the table. *)
Record repo_inv (r : memTaskRepo) : Prop := {
  inv_id : forall i t, tasks r !! i = Some t -> dt_ID t = i /\ (0 < i <= nextID r)%N;
  inv_ds : idx_ok key_ds (dedicatedServerIDIndex r) (tasks r);
  inv_srv : idx_ok dt_ServerID (serverIDIndex r) (tasks r);
  inv_type : idx_ok key_type (taskTypeIndex r) (tasks r);
  inv_status : idx_ok key_status (statusIndex r) (tasks r);
}.

(** ** Index-driven filtering equals a table scan *)

Lemma in_or_any_true {A} `{EqDecision A} (x : A) l :
  in_or_any x l = true <-> nonempty l = false \/ x ∈ l.
Proof. destruct l; simpl; [set_solver|]. rewrite bool_decide_eq_true. naive_solver. Qed.

Lemma elem_of_derefs (l : list (option N)) s : s ∈ derefs l <-> Some s ∈ l.
Proof. unfold derefs. rewrite list_elem_of_omap. naive_solver. Qed.

Lemma servers_match_true f t :
  match ft_ServerIDs f with
  | [] => true
  | l => match dt_ServerID t with Some s => bool_decide (Some s ∈ l) | None => false end
  end = true
  <-> nonempty (ft_ServerIDs f) = false \/ exists s, dt_ServerID t = Some s /\ Some s ∈ ft_ServerIDs f.
Proof.
  destruct (ft_ServerIDs f); simpl; [naive_solver|].
  destruct (dt_ServerID t); [|naive_solver]. rewrite bool_decide_eq_true. naive_solver.
Qed.

Lemma first_by_ids (r : memTaskRepo) ids (acc : gset N) id :
  id ∈ foldl (fun acc id => if decide (is_Some (tasks r !! id)) then {[id]} ∪ acc else acc) acc ids
  <-> id ∈ acc \/ (id ∈ ids /\ is_Some (tasks r !! id)).
Proof.
  revert acc. induction ids as [|i ids IH]; intros acc; simpl; [set_solver|].
  rewrite IH. case_decide; set_solver.
Qed.

Section filtering.
Context (r : memTaskRepo) (Hinv : repo_inv r).

Lemma first_in_dom f id : id ∈ firstCandidates r f -> is_Some (tasks r !! id).
Proof.
  destruct Hinv. unfold firstCandidates.
  repeat case_match; [|eauto using idx_union_in_dom..|].
  - rewrite first_by_ids. set_solver.
  - by rewrite elem_of_dom.
Qed.

Lemma filtered_in_dom f id : id ∈ getFilteredTaskIDs r f -> is_Some (tasks r !! id).
Proof.
  destruct f as [f|]; simpl; [|by rewrite elem_of_dom].
  intros Hin. apply (first_in_dom f). revert Hin.
  unfold intersectWithStatuses, intersectWithTasks, intersectWithServerIDs,
    intersectWithDedicatedServerIDs.
  repeat case_match; rewrite ?elem_of_idx_intersect; tauto.
Qed.

Lemma first_row f id t :
  tasks r !! id = Some t ->
  id ∈ firstCandidates r f <->
    if nonempty (ft_IDs f) then dt_ID t ∈ ft_IDs f
    else if nonempty (ft_DedicatedServerIDs f) then dt_DedicatedServerID t ∈ ft_DedicatedServerIDs f
    else if nonempty (ft_ServerIDs f) then exists s, dt_ServerID t = Some s /\ Some s ∈ ft_ServerIDs f
    else if nonempty (ft_Tasks f) then dt_Task t ∈ ft_Tasks f
    else if nonempty (ft_Statuses f) then dt_Status t ∈ ft_Statuses f
    else True.
Proof.
  intros Ht. destruct Hinv as [Hid Hds Hsrv Hty Hst]. unfold firstCandidates.
  destruct (nonempty (ft_IDs f)).
  { rewrite first_by_ids. destruct (Hid _ _ Ht) as [-> _]. rewrite Ht. set_solver. }
  destruct (nonempty (ft_DedicatedServerIDs f)).
  { rewrite (idx_union_key _ _ _ _ _ _ Hds Ht). unfold key_ds. naive_solver. }
  destruct (nonempty (ft_ServerIDs f)).
  { rewrite (idx_union_key _ _ _ _ _ _ Hsrv Ht). setoid_rewrite elem_of_derefs. naive_solver. }
  destruct (nonempty (ft_Tasks f)).
  { rewrite (idx_union_key _ _ _ _ _ _ Hty Ht). unfold key_type. naive_solver. }
  destruct (nonempty (ft_Statuses f)).
  { rewrite (idx_union_key _ _ _ _ _ _ Hst Ht). unfold key_status. naive_solver. }
  rewrite elem_of_dom, Ht. naive_solver.
Qed.

(** A row is a candidate exactly when the filter selects it. *)
Lemma filtered_row f id t :
  tasks r !! id = Some t ->
  id ∈ getFilteredTaskIDs r f <-> opt_task_matches f t = true.
Proof.
  intros Ht. destruct f as [f|]; simpl; [|rewrite elem_of_dom, Ht; naive_solver].
  unfold task_matches. rewrite !andb_true_iff, servers_match_true, !in_or_any_true.
  pose proof (first_row f id t Ht) as Hfirst.
  destruct Hinv as [Hid Hds Hsrv Hty Hst].
  pose proof (fun res => idx_intersect_key _ _ _ res (ft_DedicatedServerIDs f) _ _ Hds Ht) as H1.
  pose proof (fun res => idx_intersect_key _ _ _ res (derefs (ft_ServerIDs f)) _ _ Hsrv Ht) as H2.
  pose proof (fun res => idx_intersect_key _ _ _ res (ft_Tasks f) _ _ Hty Ht) as H3.
  pose proof (fun res => idx_intersect_key _ _ _ res (ft_Statuses f) _ _ Hst Ht) as H4.
  setoid_rewrite elem_of_derefs in H2.
  unfold key_ds, key_type, key_status in *.
  unfold intersectWithStatuses, intersectWithTasks, intersectWithServerIDs,
    intersectWithDedicatedServerIDs.
  destruct (nonempty (ft_IDs f)), (nonempty (ft_DedicatedServerIDs f)),
    (nonempty (ft_ServerIDs f)), (nonempty (ft_Tasks f)), (nonempty (ft_Statuses f));
    simpl in *; rewrite ?H4, ?H3, ?H2, ?H1, Hfirst; clear; naive_solver.
Qed.

End filtering.

(** ** The invariant is preserved *)

Lemma repo_inv_new : repo_inv NewDaemonTaskRepository.
Proof. split; try apply idx_ok_empty. intros i t. simpl. by rewrite lookup_empty. Qed.

Lemma repo_inv_insert r row :
  tasks r !! dt_ID row = None -> (0 < dt_ID row <= nextID r)%N -> repo_inv r ->
  repo_inv (addToIndexes row (set_tasks (<[dt_ID row := row]> (tasks r)) r)).
Proof.
  intros Hnone Hid [Hids Hds Hsrv Hty Hst]. split; simpl.
  - intros i t. rewrite lookup_insert. case_decide; [|apply Hids]. by intros [= <-]; subst.
  - by apply (idx_ok_insert key_ds).
  - by apply (idx_ok_insert dt_ServerID).
  - by apply (idx_ok_insert key_type).
  - by apply (idx_ok_insert key_status).
Qed.

Lemma repo_inv_remove r id old :
  tasks r !! id = Some old -> repo_inv r ->
  repo_inv (set_tasks (delete id (tasks r)) (removeFromIndexes old r)).
Proof.
  intros Hold [Hids Hds Hsrv Hty Hst]. destruct (Hids _ _ Hold) as [Hid _].
  split; simpl; rewrite ?Hid.
  - intros i t. rewrite lookup_delete. case_decide; [done|apply Hids].
  - by apply (idx_ok_delete key_ds).
  - by apply (idx_ok_delete dt_ServerID).
  - by apply (idx_ok_delete key_type).
  - by apply (idx_ok_delete key_status).
Qed.

Lemma repo_inv_counter r n : (nextID r <= n)%N -> repo_inv r -> repo_inv (set_nextID n r).
Proof.
  intros Hn [Hids ????]. split; simpl; try done.
  intros i t Ht. destruct (Hids _ _ Ht). split; [done|lia].
Qed.

(** Room for [n] more automatic ids. *)
Definition room (n : nat) (r : memTaskRepo) : Prop := (nextID r + N.of_nat n < two32)%N.

Lemma touched_fields now id t : dt_ID (touched now id t) = id /\ dt_Output (touched now id t) = dt_Output t.
Proof. done. Qed.

(** [Save] of a new task: the next id, a fresh row. *)
Lemma Save_new now t r :
  dt_ID t = 0%N -> room 1 r -> repo_inv r ->
  let id := (nextID r + 1)%N in
  let t' := touched now id t in
  Save now t r = (Ok t', addToIndexes t' (set_tasks (<[id := t']> (tasks r)) (set_nextID id r))) /\
  tasks r !! id = None.
Proof.
  intros Hid Hroom Hinv id t'. split.
  - unfold Save. destruct t as [i ra c u ds srv ty da cmd out st]. simpl in *. subst i. simpl.
    unfold wrap32. rewrite N.mod_small by exact Hroom.
    unfold t', touched, stored_row, dt_set_output, dt_set_id, dt_set_times; simpl.
    destruct c as [c|]; [|done]. by destruct (IsZero c).
  - destruct (tasks r !! id) as [o|] eqn:E; [|done].
    destruct (inv_id r Hinv _ _ E) as [_ ?]. unfold id in *. lia.
Qed.

(** [Save] over an existing row: the old row leaves the indexes first. *)
Lemma Save_existing now t old r :
  dt_ID t <> 0%N -> tasks r !! dt_ID t = Some old -> repo_inv r ->
  let t' := touched now (dt_ID t) t in
  let row := stored_row (Some old) t' in
  let r0 := set_tasks (delete (dt_ID t) (tasks r)) (removeFromIndexes old r) in
  Save now t r = (Ok t', addToIndexes row (set_tasks (<[dt_ID t := row]> (tasks r0)) r0)).
Proof.
  intros Hid Hold Hinv t' row r0. unfold Save.
  apply N.eqb_neq in Hid. destruct t as [i ra c u ds srv ty da cmd out st]. simpl in *.
  rewrite Hid. simpl. rewrite Hid. simpl. rewrite Hold.
  unfold row, r0, t', touched, stored_row, set_tasks, removeFromIndexes, addToIndexes,
    dt_set_output, dt_set_id, dt_set_times; simpl.
  rewrite insert_delete_eq, Hid. destruct out as [o|]; simpl; [done|].
  by destruct (dt_Output old).
Qed.

Lemma stored_row_id old t : dt_ID (stored_row old t) = dt_ID t.
Proof. unfold stored_row. by destruct (dt_Output t). Qed.

Lemma append_row_id c t : dt_ID (append_row c t) = dt_ID t.
Proof. unfold append_row. by destruct (dt_Output t). Qed.

Definition saveable (r : memTaskRepo) (t : DaemonTask) : Prop :=
  if decide (dt_ID t = 0%N) then room 1 r else is_Some (tasks r !! dt_ID t).

Lemma Save_spec now t r :
  repo_inv r -> saveable r t ->
  exists t' r', Save now t r = (Ok t', r') /\ repo_inv r' /\
    t' = touched now (dt_ID t') t /\
    tasks r' = <[dt_ID t' := stored_row (tasks r !! dt_ID t') t']> (tasks r) /\
    (if decide (dt_ID t = 0%N) then tasks r !! dt_ID t' = None else dt_ID t' = dt_ID t) /\
    (forall n, room (if decide (dt_ID t = 0%N) then S n else n) r -> room n r').
Proof.
  intros Hinv Hsv. unfold saveable in Hsv. case_decide as Hid.
  - destruct (Save_new now t r Hid Hsv Hinv) as [E Hnone].
    eexists _, _. split; [exact E|]. simpl. split_and!; [|done| |done|].
    + set (t' := touched now (nextID r + 1) t).
      apply (repo_inv_insert (set_nextID (nextID r + 1) r) t'); [done|simpl; lia|].
      apply repo_inv_counter; [lia|done].
    + rewrite Hnone. unfold stored_row. simpl. f_equal.
      destruct t as [? ? ? ? ? ? ? ? ? [o|] ?]; done.
    + intros n. unfold room. simpl. lia.
  - destruct Hsv as [old Hold]. pose proof (Save_existing now t old r Hid Hold Hinv) as E.
    eexists _, _. split; [exact E|]. destruct (inv_id r Hinv _ _ Hold) as [_ Hrange].
    split_and!; [|done| |done|done].
    + set (row := stored_row (Some old) (touched now (dt_ID t) t)).
      assert (Hrow : dt_ID row = dt_ID t) by (unfold row; by rewrite stored_row_id).
      pose proof (repo_inv_insert
        (set_tasks (delete (dt_ID t) (tasks r)) (removeFromIndexes old r)) row) as HI.
      rewrite Hrow in HI. apply HI; simpl; [by rewrite lookup_delete_eq|done|].
      by apply repo_inv_remove.
    + simpl. by rewrite insert_delete_eq, Hold.
Qed.

Lemma Delete_spec id r :
  repo_inv r ->
  exists r', Delete id r = (Ok tt, r') /\ repo_inv r' /\ tasks r' = delete id (tasks r).
Proof.
  intros Hinv. unfold Delete. destruct (tasks r !! id) as [t|] eqn:Ht.
  - eexists. split; [done|]. split; [|done]. by apply (repo_inv_remove r id t).
  - eexists. split; [done|]. split; [|done]. simpl. rewrite delete_id by done.
    destruct Hinv. by split.
Qed.

Lemma AppendOutput_spec id c r :
  repo_inv r ->
  exists r', AppendOutput id c r = (Ok tt, r') /\ repo_inv r' /\ nextID r' = nextID r /\
    tasks r' = alter (append_row c) id (tasks r).
Proof.
  intros Hinv. unfold AppendOutput. destruct (tasks r !! id) as [t|] eqn:Ht.
  - eexists. split; [done|]. simpl. fold (append_row c t).
    assert (Hal : alter (append_row c) id (tasks r) = <[id := append_row c t]> (tasks r)).
    { apply map_eq. intros j. rewrite lookup_alter, lookup_insert. case_decide; subst; [|done].
      by rewrite Ht. }
    split_and!; [|done|done].
    destruct Hinv as [Hids Hds Hsrv Hty Hst]. split; simpl.
    + intros i t0. rewrite lookup_insert. case_decide; [|apply Hids].
      intros [= <-]. subst. rewrite append_row_id. by apply Hids.
    + apply (idx_ok_same_key _ _ _ _ t); [done| |done]. unfold key_ds, append_row. by case_match.
    + apply (idx_ok_same_key _ _ _ _ t); [done| |done]. unfold append_row. by case_match.
    + apply (idx_ok_same_key _ _ _ _ t); [done| |done]. unfold key_type, append_row. by case_match.
    + apply (idx_ok_same_key _ _ _ _ t); [done| |done]. unfold key_status, append_row. by case_match.
  - eexists. split; [done|]. split_and!; [done|done|].
    apply map_eq. intros j. rewrite lookup_alter. case_decide; subst; [by rewrite Ht|done].
Qed.

(** ** What the queries return *)

Lemma compareTasks_lawful f : lawful_cmp (fun a b => compareTasks a b f).
Proof.
  unfold compareTasks. repeat case_match; try apply lawful_const;
    first [ apply (lawful_on dt_ID) | apply (lawful_on dt_DedicatedServerID)
          | apply (lawful_on dt_ServerID) | apply (lawful_on dt_Task)
          | apply (lawful_on dt_Status) | apply (lawful_on dt_CreatedAt)
          | apply (lawful_on dt_UpdatedAt) ]; auto with panel.
Qed.

Lemma elem_of_rows_of r ids t :
  repo_inv r -> t ∈ rows_of r ids <-> dt_ID t ∈ ids /\ tasks r !! dt_ID t = Some t.
Proof.
  intros Hinv. unfold rows_of. rewrite list_elem_of_omap. setoid_rewrite elem_of_elements.
  split; [|naive_solver]. intros (i & Hi & Ht).
  destruct (inv_id r Hinv _ _ Ht) as [<- _]. done.
Qed.

Lemma rows_of_ids r ids :
  repo_inv r -> (forall i, i ∈ ids -> is_Some (tasks r !! i)) ->
  map dt_ID (rows_of r ids) = elements ids.
Proof.
  intros Hinv Hdom. unfold rows_of.
  assert (Hall : forall i, i ∈ elements ids -> is_Some (tasks r !! i)) by set_solver.
  induction (elements ids) as [|i l IH]; simpl; [done|].
  destruct (Hall i) as [t Ht]; [set_solver|]. rewrite Ht. simpl.
  destruct (inv_id r Hinv _ _ Ht) as [-> _]. f_equal. apply IH. set_solver.
Qed.

Lemma sorted_rows_strict r ids (g : DaemonTask -> DaemonTask) :
  repo_inv r -> (forall i, i ∈ ids -> is_Some (tasks r !! i)) ->
  (forall t, dt_ID (g t) = dt_ID t) ->
  StronglySorted (fun a b => dt_ID a < dt_ID b)%N (sortTasks (map g (rows_of r ids)) []).
Proof.
  intros Hinv Hdom Hg. apply (ids_strictly_sorted dt_ID); [apply sort_rows_default|].
  unfold sortTasks. rewrite (sort_rows_perm compareTasks dt_ID), map_map.
  rewrite (map_ext _ dt_ID) by apply Hg. rewrite rows_of_ids by done. apply NoDup_elements.
Qed.

Lemma Find_rows r f l :
  repo_inv r -> Find r f [] None = Ok l ->
  StronglySorted (fun a b => dt_ID a < dt_ID b)%N l /\
  forall t, t ∈ l <-> exists t0, tasks r !! dt_ID t = Some t0 /\ opt_task_matches f t0 = true /\
                        t = dt_set_output None t0.
Proof.
  intros Hinv. unfold Find, applyPagination.
  intros <-%Ok_inj. split.
  - apply (sorted_rows_strict r _ (dt_set_output None)); [done| |done].
    intros i. by apply filtered_in_dom.
  - intros t. unfold sortTasks. rewrite (sort_rows_perm compareTasks dt_ID), list_elem_of_fmap.
    setoid_rewrite (elem_of_rows_of r _ _ Hinv). split.
    + intros (t0 & -> & Hc & Ht0). exists t0. simpl. split_and!; [done| |done].
      by apply (filtered_row r Hinv f (dt_ID t0)).
    + intros (t0 & Ht0 & Hm & ->).
      change (dt_ID (dt_set_output None t0)) with (dt_ID t0) in Ht0.
      exists t0. split; [done|]. split; [|done].
      by apply (proj2 (filtered_row r Hinv f (dt_ID t0) t0 Ht0)).
Qed.

Lemma Exists_rows r f b :
  repo_inv r -> ft_IDs f = [] -> Exists r (Some f) = Ok b ->
  b = true <-> exists i t, tasks r !! i = Some t /\ task_matches f t = true.
Proof.
  intros Hinv Hids. unfold Exists. rewrite Hids. simpl nonempty. cbv iota.
  intros <-%Ok_inj. rewrite bool_decide_eq_true.
  split.
  - intros Hsz. destruct (size_pos_elem_of (getFilteredTaskIDs r (Some f))) as [i Hi]; [lia|].
    destruct (filtered_in_dom r Hinv _ _ Hi) as [t Ht]. exists i, t. split; [done|].
    by apply (proj1 (filtered_row r Hinv (Some f) i t Ht)).
  - intros (i & t & Ht & Hm). apply (filtered_row r Hinv (Some f) i t Ht) in Hm.
    destruct (decide (size (getFilteredTaskIDs r (Some f)) = 0)) as [Hz|]; [|lia].
    apply size_empty_inv in Hz. set_solver.
Qed.

(** ** The interface is implemented *)

#[export, program] Instance memTaskRepo_laws : DaemonTaskRepositoryLaws memTaskRepo := {
  dt_inv := repo_inv; dt_rows := tasks; dt_room := room;
}.
Next Obligation. intros n r. unfold room. lia. Qed.
Next Obligation. intros r i t Hinv Ht. destruct (inv_id r Hinv _ _ Ht). split; [done|lia]. Qed.
Next Obligation. intros r f l. apply Find_rows. Qed.
Next Obligation. done. Qed.
Next Obligation. intros r f b. apply Exists_rows. Qed.
Next Obligation.
  intros now t r res r' Hinv Hsv E.
  destruct (Save_spec now t r Hinv Hsv) as (t' & r1 & E1 & Hi & Ht & Hr & Hid & Hroom).
  simpl in E. rewrite E1 in E. injection E as <- <-. auto.
Qed.
Next Obligation.
  intros i c r res r' Hinv E.
  destruct (AppendOutput_spec i c r Hinv) as (r1 & E1 & Hi & Hnext & Hr).
  simpl in E. rewrite E1 in E. injection E as <- <-. unfold room. rewrite Hnext. auto.
Qed.

#[export, program] Instance memTaskRepo_total : DaemonTaskRepositoryTotal memTaskRepo.
Next Obligation. intros r f _. by eexists. Qed.
Next Obligation. intros r f _. unfold DT_Exists. simpl. unfold Exists. repeat case_match; eauto. Qed.
Next Obligation.
  intros now t r Hinv Hsv. destruct (Save_spec now t r Hinv Hsv) as (t' & r1 & E1 & _).
  simpl. by rewrite E1.
Qed.
Next Obligation.
  intros i c r Hinv. destruct (AppendOutput_spec i c r Hinv) as (r1 & E1 & _).
  simpl. by rewrite E1.
Qed.

(** ** Reachable repositories *)

(** A client's calls: saves of new or stored tasks while ids remain, deletes
    and output appends. *)
Inductive task_step : memTaskRepo -> memTaskRepo -> Prop :=
| step_save now t r t' r' :
    saveable r t -> Save now t r = (Ok t', r') -> task_step r r'
| step_delete id r r' : Delete id r = (Ok tt, r') -> task_step r r'
| step_append id c r r' : AppendOutput id c r = (Ok tt, r') -> task_step r r'.

Definition task_reachable : memTaskRepo -> Prop := rtc task_step NewDaemonTaskRepository.

Lemma task_step_inv r r' : task_step r r' -> repo_inv r -> repo_inv r'.
Proof.
  intros [now t r1 t' r1' Hsv E|id r1 r1' E|id c r1 r1' E] Hinv.
  - destruct (Save_spec now t r1 Hinv Hsv) as (? & ? & E' & ? & _). rewrite E' in E. by simplify_eq.
  - destruct (Delete_spec id r1 Hinv) as (? & E' & ? & _). rewrite E' in E. by simplify_eq.
  - destruct (AppendOutput_spec id c r1 Hinv) as (? & E' & ? & _). rewrite E' in E. by simplify_eq.
Qed.

Lemma task_reachable_inv r : task_reachable r -> repo_inv r.
Proof.
  unfold task_reachable. revert r. apply rtc_ind_r; eauto using repo_inv_new, task_step_inv.
Qed.

(** C1: in every repository reachable from the empty one, [Find] without
    sorting or paging succeeds and returns exactly the rows of the table that
    the filter selects, their output column blanked, in strictly ascending id
    order: evaluating a filter through the four hash indexes is a table scan,
    whichever columns the filter constrains. *)
Theorem find_is_table_scan r f :
  task_reachable r ->
  exists l, Find r f [] None = Ok l /\
    StronglySorted (fun a b => dt_ID a < dt_ID b)%N l /\
    forall t, t ∈ l <->
      exists t0, tasks r !! dt_ID t = Some t0 /\ opt_task_matches f t0 = true /\
        t = dt_set_output None t0.
Proof.
  intros Hr. eexists. split; [reflexivity|].
  apply Find_rows; [by apply task_reachable_inv|done].
Qed.

(** A concrete repository: two tasks of node 7, one with output. *)
Definition sample_task (node : N) (st : string) : DaemonTask :=
  mkDaemonTask 0 None None None node (Some 3%N) DaemonTaskTypeServerStart None None None st.
Definition sample_repo : memTaskRepo :=
  snd (AppendOutput 2 "log" (snd (Save 5 (sample_task 7 DaemonTaskStatusWorking)
    (snd (Save 4 (sample_task 7 DaemonTaskStatusWaiting) NewDaemonTaskRepository))))).

Lemma sample_reachable : task_reachable sample_repo.
Proof.
  eapply rtc_l; [eapply (step_save 4 (sample_task 7 DaemonTaskStatusWaiting)); [|reflexivity]|].
  { unfold saveable. simpl. by unfold room. }
  eapply rtc_l; [eapply (step_save 5 (sample_task 7 DaemonTaskStatusWorking)); [|reflexivity]|].
  { unfold saveable. simpl. by unfold room. }
  eapply rtc_l; [apply (step_append 2 "log"); reflexivity|]. apply rtc_refl.
Defined.

Lemma find_is_table_scan_witness :
  task_reachable sample_repo /\
  exists l, Find sample_repo (Some (mkFindDaemonTask [] [7%N] [] [] [DaemonTaskStatusWorking])) [] None = Ok l /\
    map dt_ID l = [2%N].
Proof.
  split; [exact sample_reachable|].
  pose proof (find_is_table_scan sample_repo
    (Some (mkFindDaemonTask [] [7%N] [] [] [DaemonTaskStatusWorking])) sample_reachable) as (l & E & _).
  exists l. split; [exact E|]. vm_compute in E. injection E as <-. reflexivity.
Defined.

(** Saving a stored task without an output column (which is how [Find]
    hands tasks out) keeps the output already stored, and an explicit output
    replaces it; every other column and every other row is as saved, and the
    creation time of a stored task is whatever the caller passed. *)
Lemma save_preserves_output now t old r :
  task_reachable r -> dt_ID t <> 0%N -> tasks r !! dt_ID t = Some old ->
  exists r', Save now t r = (Ok (dt_set_times (dt_CreatedAt t) (Some now) t), r') /\
    task_reachable r' /\
    tasks r' = <[dt_ID t :=
      dt_set_output (match dt_Output t with Some o => Some o | None => dt_Output old end)
        (dt_set_times (dt_CreatedAt t) (Some now) t)]> (tasks r).
Proof.
  intros Hr Hid Hold. pose proof (task_reachable_inv r Hr) as Hinv.
  pose proof (Save_existing now t old r Hid Hold Hinv) as E. simpl in E.
  assert (Ht : touched now (dt_ID t) t = dt_set_times (dt_CreatedAt t) (Some now) t).
  { unfold touched. apply N.eqb_neq in Hid. by rewrite Hid. }
  eexists. rewrite Ht in E. split; [exact E|]. split.
  - eapply rtc_r; [exact Hr|]. eapply step_save; [|exact E].
    unfold saveable. rewrite decide_False by done. eauto.
  - simpl. rewrite insert_delete_eq. unfold stored_row. simpl. f_equal.
    destruct t as [? ? ? ? ? ? ? ? ? [o|] ?]; done.
Qed.

(** With a requested order and a page inside the [uint64] range, [Find]
    returns the rows [offset, offset + limit) (a zero limit meaning the
    default) of a list that holds every selected row once and in which no row
    is followed by one that the requested columns put before it. *)
Lemma find_page_of_sorted_scan r f order p :
  task_reachable r -> order <> [] ->
  (N.of_nat (size (tasks r)) < two64)%N ->
  (pg_Offset p + N.max (pg_Limit p) DefaultLimit < two64)%N ->
  exists l,
    Find r f order (Some p) =
      Ok (take (N.to_nat (if (pg_Limit p =? 0)%N then DefaultLimit else pg_Limit p))
            (drop (N.to_nat (pg_Offset p)) l)) /\
    StronglySorted (fun a b => order_cmp compareTasks order a b <> Gt) l /\
    NoDup (map dt_ID l) /\
    forall t, t ∈ l <->
      exists t0, tasks r !! dt_ID t = Some t0 /\ opt_task_matches f t0 = true /\
        t = dt_set_output None t0.
Proof.
  intros Hr%task_reachable_inv Hord Hsz Hfit.
  set (l := sortTasks (map (dt_set_output None) (rows_of r (getFilteredTaskIDs r f))) order).
  assert (Hperm : l ≡ₚ map (dt_set_output None) (rows_of r (getFilteredTaskIDs r f)))
    by apply (sort_rows_perm compareTasks dt_ID).
  assert (Hids : map dt_ID (rows_of r (getFilteredTaskIDs r f)) = elements (getFilteredTaskIDs r f)).
  { apply rows_of_ids; [done|]. intros i. by apply filtered_in_dom. }
  exists l. split_and!.
  - apply applyPagination_spec; [|done]. rewrite Hperm, length_map.
    rewrite <- (length_map dt_ID), Hids.
    enough (length (elements (getFilteredTaskIDs r f)) <= size (dom (tasks r)))
      by (rewrite <- size_dom in Hsz; lia).
    apply (subseteq_size (getFilteredTaskIDs r f)). intros i Hi. apply elem_of_dom.
    by apply (filtered_in_dom r Hr f).
  - apply sort_rows_sorted; [apply compareTasks_lawful|done].
  - rewrite Hperm, map_map, (map_ext _ dt_ID) by done. rewrite Hids. apply NoDup_elements.
  - intros t. destruct (Find_rows r f (sortTasks (map (dt_set_output None)
      (rows_of r (getFilteredTaskIDs r f))) []) Hr eq_refl) as [_ Hel].
    rewrite <- Hel, Hperm. unfold sortTasks.
    by rewrite (sort_rows_perm compareTasks dt_ID _ []).
Qed.

(** An explicit id does not move the id counter: after saving a task
    under an id that is not yet taken and equals the next automatic id, the
    next new task is given that same id and replaces the first one, whose node
    stays in the node index although no such row exists any more. *)
Lemma explicit_id_is_overwritten :
  let a := dt_set_id 1 (sample_task 7 DaemonTaskStatusWaiting) in
  let b := sample_task 8 DaemonTaskStatusWaiting in
  let r1 := snd (Save 1 a NewDaemonTaskRepository) in
  let '(res, r2) := Save 2 b r1 in
  (exists t, res = Ok t /\ dt_ID t = 1%N) /\
  option_map dt_DedicatedServerID (tasks r2 !! 1%N) = Some 8%N /\
  size (tasks r2) = 1 /\
  1%N ∈ getFilteredTaskIDs r2 (Some (mkFindDaemonTask [] [7%N] [] [] [])).
Proof.
  vm_compute. split; [eexists; split; reflexivity|]. split_and!; try reflexivity.
Qed.
