(* ===== verification/Converters.v ===== *)
(** The protobuf messages of the gateway stream and the conversions of
    [internal/grpc/gateway/converters.go] from domain records to them.  The
    generated message types ([pkg/proto], generated from [gateway.proto]) are
    records with the fields the conversions set; a protobuf timestamp is the
    domain time it was made from.  JSON text of server variables comes from
    [encoding/json] and is an argument ([json_vars]). *)

From S2P Require Import Prelude.
From S2P Require Import GoNum.
From S2P Require Import Domain.
From stdpp Require Import base tactics strings list gmap numbers.
From Stdlib Require Import NArith ZArith.

(** ** Enumerations *)

Inductive ProtoTaskStatus : Type :=
| TASK_STATUS_UNSPECIFIED | TASK_STATUS_WAITING | TASK_STATUS_WORKING
| TASK_STATUS_ERROR | TASK_STATUS_SUCCESS | TASK_STATUS_CANCELED.

Inductive ProtoTaskType : Type :=
| TASK_TYPE_UNSPECIFIED | TASK_TYPE_SERVER_START | TASK_TYPE_SERVER_STOP
| TASK_TYPE_SERVER_RESTART | TASK_TYPE_SERVER_UPDATE | TASK_TYPE_SERVER_INSTALL
| TASK_TYPE_SERVER_DELETE | TASK_TYPE_SERVER_MOVE | TASK_TYPE_CMD_EXEC.

Inductive ProtoInstalledStatus : Type :=
| INSTALLED_STATUS_NOT_INSTALLED | INSTALLED_STATUS_INSTALLED
| INSTALLED_STATUS_INSTALLATION_IN_PROGRESS.

#[export] Instance ProtoTaskStatus_eq_dec : EqDecision ProtoTaskStatus.
Proof. solve_decision. Defined.
#[export] Instance ProtoTaskType_eq_dec : EqDecision ProtoTaskType.
Proof. solve_decision. Defined.
#[export] Instance ProtoInstalledStatus_eq_dec : EqDecision ProtoInstalledStatus.
Proof. solve_decision. Defined.

(** ** Messages *)

Record ProtoDaemonTask : Type := mkProtoTask {
  pt_Id : N;
  pt_RunAfterId : option N;
  pt_NodeId : N;
  pt_ServerId : option N;
  pt_TaskType : ProtoTaskType;
  pt_Data : option string;
  pt_Cmd : option string;
  pt_Output : option string;
  pt_Status : ProtoTaskStatus;
  pt_CreatedAt : option time;
  pt_UpdatedAt : option time;
}.

Record ProtoServer : Type := mkProtoServer {
  ps_Id : N; ps_Uuid : string; ps_UuidShort : string; ps_Enabled : bool;
  ps_Installed : ProtoInstalledStatus; ps_Blocked : bool; ps_Name : string;
  ps_GameId : string; ps_DsId : N; ps_GameModId : N; ps_Expires : option time;
  ps_ServerIp : string; ps_ServerPort : Z; ps_QueryPort : option Z;
  ps_RconPort : option Z; ps_Rcon : option string; ps_Dir : string;
  ps_SuUser : option string; ps_CpuLimit : option Z; ps_RamLimit : option Z;
  ps_NetLimit : option Z; ps_StartCommand : option string;
  ps_StopCommand : option string; ps_ForceStopCommand : option string;
  ps_RestartCommand : option string; ps_ProcessActive : bool;
  ps_LastProcessCheck : option time; ps_Vars : option string;
  ps_CreatedAt : option time; ps_UpdatedAt : option time; ps_DeletedAt : option time;
  ps_Metadata : metadata;
}.

Record ProtoGame : Type := mkProtoGame {
  pg_Code : string; pg_Name : string; pg_Engine : string; pg_EngineVersion : string;
  pg_SteamAppIdLinux : option N; pg_SteamAppIdWindows : option N;
  pg_SteamAppSetConfig : option string; pg_RemoteRepositoryLinux : option string;
  pg_RemoteRepositoryWindows : option string; pg_Enabled : bool;
  pg_LocalRepositoryLinux : option string; pg_LocalRepositoryWindows : option string;
  pg_Metadata : metadata;
}.

Record ProtoGameMod : Type := mkProtoGameMod {
  pgm_Id : N; pgm_GameCode : string; pgm_Name : string;
  pgm_StartCmdLinux : option string; pgm_StartCmdWindows : option string;
  pgm_KickCmd : option string; pgm_BanCmd : option string;
  pgm_FastRcon : list (string * string);
  pgm_Vars : list (string * string * string * bool);
  pgm_RemoteRepositoryLinux : option string; pgm_RemoteRepositoryWindows : option string;
  pgm_LocalRepositoryLinux : option string; pgm_LocalRepositoryWindows : option string;
  pgm_ChnameCmd : option string; pgm_SrestartCmd : option string;
  pgm_ChmapCmd : option string; pgm_SendmsgCmd : option string;
  pgm_PasswdCmd : option string; pgm_Metadata : metadata;
}.

Record ProtoServerSetting : Type := mkProtoSetting {
  pss_Id : N; pss_ServerId : N; pss_Name : string; pss_Value : string;
}.

Record ServerConfigUpdate : Type := mkConfigUpdate {
  cu_Server : ProtoServer;
  cu_Settings : list ProtoServerSetting;
  cu_Game : option ProtoGame;
  cu_GameMod : option ProtoGameMod;
}.

Record RegisterAck : Type := mkRegisterAck {
  ra_Success : bool;
  ra_Servers : list ProtoServer;
  ra_PendingTasks : list ProtoDaemonTask;
  ra_Games : list ProtoGame;
  ra_GameMods : list ProtoGameMod;
  ra_HeartbeatInterval : Z;
  ra_ServerSettings : list ProtoServerSetting;
}.

Record CommandRequest : Type := mkCommandRequest {
  cr_CommandId : string; cr_ServerId : N; cr_Command : string; cr_Timeout : Z;
}.

(** The payloads the panel puts on the stream; requests whose body no modelled
    code reads are carried as their encoded bytes. *)
Inductive GatewayPayload : Type :=
| GM_RegisterAck (ack : RegisterAck)
| GM_Shutdown (reason : string) (reconnectDelay : Z)
| GM_MetricsRequest (body : string)
| GM_Task (t : ProtoDaemonTask)
| GM_TaskCancel (taskId : N) (reason : string)
| GM_Command (c : CommandRequest)
| GM_AttachRequest (sessionId : string) (serverId : N)
| GM_AttachInput (sessionId : string) (data : string)
| GM_AttachDetach (sessionId : string) (reason : string)
| GM_ServerConfigUpdate (u : ServerConfigUpdate)
| GM_ConsoleLogRequest (serverId : N) (maxBytes : Z)
| GM_FileRead (path : string) (offset length : Z)
| GM_FileWrite (path content : string) (mode : Z) (createDirs : bool) (ownerUser : string) (ownerUid ownerGid : Z)
| GM_FileList (path : string) (recursive : bool) (pattern : string)
| GM_FileOperation (requestId : string) (body : string)
| GM_FileUploadTask (transferId path checksum : string) (totalSize mode : Z)
    (ownerUser : string) (ownerUid ownerGid : Z)
| GM_FileDownloadTask (transferId path : string)
| GM_StatusRequest
| GM_HttpProxy (body : string).

Record GatewayMessage : Type := mkGatewayMessage {
  gw_RequestId : string;
  gw_Payload : GatewayPayload;
}.

(** ** Conversions *)

Definition maxInt32 : Z := 2147483647.
Definition maxUint32 : N := 4294967295.

(** Go's [int32(x)] on an [int]: the low 32 bits as a signed number. *)
Definition int32_of (z : Z) : Z := ((z + 2147483648) mod 4294967296 - 2147483648)%Z.

Definition clampToInt32 (v : Z) : Z := int32_of (Z.min v maxInt32).
Definition clampToUint32 (v : N) : N := wrap32 (N.min v maxUint32).

Definition domainTaskTypeToProto (t : string) : ProtoTaskType :=
  if String.eqb t DaemonTaskTypeServerStart then TASK_TYPE_SERVER_START
  else if String.eqb t DaemonTaskTypeServerStop then TASK_TYPE_SERVER_STOP
  else if String.eqb t DaemonTaskTypeServerRestart then TASK_TYPE_SERVER_RESTART
  else if String.eqb t DaemonTaskTypeServerUpdate then TASK_TYPE_SERVER_UPDATE
  else if String.eqb t DaemonTaskTypeServerInstall then TASK_TYPE_SERVER_INSTALL
  else if String.eqb t DaemonTaskTypeServerDelete then TASK_TYPE_SERVER_DELETE
  else if String.eqb t DaemonTaskTypeServerMove then TASK_TYPE_SERVER_MOVE
  else if String.eqb t DaemonTaskTypeCmdExec then TASK_TYPE_CMD_EXEC
  else TASK_TYPE_UNSPECIFIED.

Definition domainTaskStatusToProto (s : string) : ProtoTaskStatus :=
  if String.eqb s DaemonTaskStatusWaiting then TASK_STATUS_WAITING
  else if String.eqb s DaemonTaskStatusWorking then TASK_STATUS_WORKING
  else if String.eqb s DaemonTaskStatusError then TASK_STATUS_ERROR
  else if String.eqb s DaemonTaskStatusSuccess then TASK_STATUS_SUCCESS
  else if String.eqb s DaemonTaskStatusCanceled then TASK_STATUS_CANCELED
  else TASK_STATUS_UNSPECIFIED.

Definition ProtoTaskStatusToDomain (s : ProtoTaskStatus) : string :=
  match s with
  | TASK_STATUS_WAITING => DaemonTaskStatusWaiting
  | TASK_STATUS_WORKING => DaemonTaskStatusWorking
  | TASK_STATUS_ERROR => DaemonTaskStatusError
  | TASK_STATUS_SUCCESS => DaemonTaskStatusSuccess
  | TASK_STATUS_CANCELED => DaemonTaskStatusCanceled
  | TASK_STATUS_UNSPECIFIED => DaemonTaskStatusWaiting
  end.

Definition domainInstalledStatusToProto (s : Z) : ProtoInstalledStatus :=
  if (s =? ServerInstalledStatusNotInstalled)%Z then INSTALLED_STATUS_NOT_INSTALLED
  else if (s =? ServerInstalledStatusInstalled)%Z then INSTALLED_STATUS_INSTALLED
  else if (s =? ServerInstalledStatusInstallationInProg)%Z
  then INSTALLED_STATUS_INSTALLATION_IN_PROGRESS
  else INSTALLED_STATUS_NOT_INSTALLED.

Definition DomainDaemonTaskToProto (t : DaemonTask) : ProtoDaemonTask :=
  mkProtoTask (dt_ID t) (dt_RunAftID t) (dt_DedicatedServerID t) (dt_ServerID t)
    (domainTaskTypeToProto (dt_Task t)) (dt_Data t) (dt_Cmd t) (dt_Output t)
    (domainTaskStatusToProto (dt_Status t)) (dt_CreatedAt t) (dt_UpdatedAt t).

Definition DomainGameToProto (g : Game) : ProtoGame :=
  mkProtoGame (gm_Code g) (gm_Name g) (gm_Engine g) (gm_EngineVersion g)
    (clampToUint32 <$> gm_SteamAppIDLinux g) (clampToUint32 <$> gm_SteamAppIDWindows g)
    (gm_SteamAppSetConfig g) (gm_RemoteRepositoryLinux g) (gm_RemoteRepositoryWindows g)
    (negb (gm_Enabled g =? 0)%Z) (gm_LocalRepositoryLinux g) (gm_LocalRepositoryWindows g)
    (gm_Metadata g).

Definition DomainGameModToProto (m : GameMod) : ProtoGameMod :=
  mkProtoGameMod (gmod_ID m) (gmod_GameCode m) (gmod_Name m) (gmod_StartCmdLinux m)
    (gmod_StartCmdWindows m) (gmod_KickCmd m) (gmod_BanCmd m) (gmod_FastRcon m)
    (gmod_Vars m) (gmod_RemoteRepositoryLinux m) (gmod_RemoteRepositoryWindows m)
    (gmod_LocalRepositoryLinux m) (gmod_LocalRepositoryWindows m) (gmod_ChnameCmd m)
    (gmod_SrestartCmd m) (gmod_ChmapCmd m) (gmod_SendmsgCmd m) (gmod_PasswdCmd m)
    (gmod_Metadata m).

Definition DomainServerSettingsToProto (l : list ServerSetting) : list ProtoServerSetting :=
  map (fun s => mkProtoSetting (ss_ID s) (ss_ServerID s) (ss_Name s)
                  (fst (ServerSettingValue_String (ss_Value s)))) l.

Section server.
Context (json_vars : gmap string string -> option string).

Definition DomainServerToProto (s : Server) : ProtoServer :=
  mkProtoServer (sv_ID s) (sv_UUID s) (sv_UUIDShort s) (sv_Enabled s)
    (domainInstalledStatusToProto (sv_Installed s)) (sv_Blocked s) (sv_Name s)
    (sv_GameID s) (sv_DSID s) (sv_GameModID s) (sv_Expires s) (sv_ServerIP s)
    (clampToInt32 (sv_ServerPort s)) (clampToInt32 <$> sv_QueryPort s)
    (clampToInt32 <$> sv_RconPort s) (sv_Rcon s) (sv_Dir s) (sv_SuUser s)
    (clampToInt32 <$> sv_CPULimit s) (clampToInt32 <$> sv_RAMLimit s)
    (clampToInt32 <$> sv_NetLimit s) (sv_StartCommand s) (sv_StopCommand s)
    (sv_ForceStopCommand s) (sv_RestartCommand s) (sv_ProcessActive s)
    (sv_LastProcessCheck s) (sv_Vars s ≫= json_vars) (sv_CreatedAt s)
    (sv_UpdatedAt s) (sv_DeletedAt s) (sv_Metadata s).

Definition ps_set_start (c : option string) (p : ProtoServer) : ProtoServer :=
  mkProtoServer (ps_Id p) (ps_Uuid p) (ps_UuidShort p) (ps_Enabled p) (ps_Installed p)
    (ps_Blocked p) (ps_Name p) (ps_GameId p) (ps_DsId p) (ps_GameModId p) (ps_Expires p)
    (ps_ServerIp p) (ps_ServerPort p) (ps_QueryPort p) (ps_RconPort p) (ps_Rcon p)
    (ps_Dir p) (ps_SuUser p) (ps_CpuLimit p) (ps_RamLimit p) (ps_NetLimit p) c
    (ps_StopCommand p) (ps_ForceStopCommand p) (ps_RestartCommand p) (ps_ProcessActive p)
    (ps_LastProcessCheck p) (ps_Vars p) (ps_CreatedAt p) (ps_UpdatedAt p) (ps_DeletedAt p)
    (ps_Metadata p).

Definition DomainServerToProtoWithGameMod (s : Server) (gm : option GameMod) (nodeOS : string)
  : ProtoServer :=
  let p := DomainServerToProto s in
  match gm with
  | None => p
  | Some gm =>
      let startCmd := if String.eqb nodeOS NodeOSWindows
                      then gmod_StartCmdWindows gm else gmod_StartCmdLinux gm in
      let unset := match ps_StartCommand p with None => true | Some c => String.eqb c "" end in
      match startCmd with
      | Some _ => if unset then ps_set_start startCmd p else p
      | None => p
      end
  end.
End server.

(** ** Properties *)

Lemma int32_of_id z : (-2147483648 <= z <= 2147483647)%Z -> int32_of z = z.
Proof. intros H. unfold int32_of. rewrite Z.mod_small; lia. Qed.

Lemma int32_of_range z : (-2147483648 <= int32_of z <= 2147483647)%Z.
Proof. unfold int32_of. pose proof (Z.mod_pos_bound (z + 2147483648) 4294967296 ltac:(lia)). lia. Qed.

Definition known_status (s : string) : Prop :=
  s ∈ [DaemonTaskStatusWaiting; DaemonTaskStatusWorking; DaemonTaskStatusError;
       DaemonTaskStatusSuccess; DaemonTaskStatusCanceled].

(** The wire encoding of the known task statuses loses nothing, an unknown
    status comes back as waiting, and the eight task types are told apart. *)
Lemma task_enums_roundtrip :
  (forall s, ProtoTaskStatusToDomain (domainTaskStatusToProto s) =
     if decide (known_status s) then s else DaemonTaskStatusWaiting) /\
  (forall a b, domainTaskTypeToProto a = domainTaskTypeToProto b ->
     domainTaskTypeToProto a <> TASK_TYPE_UNSPECIFIED -> a = b).
Proof.
  split.
  - intros s. unfold domainTaskStatusToProto.
    repeat match goal with
    | |- context [String.eqb ?a ?b] =>
        destruct (String.eqb_spec a b) as [->|?]; [reflexivity|]
    end.
    rewrite decide_False; [done|]. unfold known_status. set_solver.
  - intros a b. unfold domainTaskTypeToProto.
    repeat match goal with
    | |- context [String.eqb ?a ?b] => destruct (String.eqb_spec a b) as [->|?]
    end; done.
Qed.

(** A port or limit within [int32] is sent as it is and a larger one as
    the largest [int32]; a value below the [int32] range is not clamped but
    wrapped, so the smallest such value is sent as a positive number.  An
    application id of a Steam game is never above its own value. *)
Lemma clamp_bounds :
  (forall v, (-2147483648 <= v)%Z -> clampToInt32 v = Z.min v maxInt32) /\
  (forall v, (-2147483648 <= clampToInt32 v <= maxInt32)%Z) /\
  clampToInt32 (-2147483649) = maxInt32 /\
  (forall v, clampToUint32 v = N.min v maxUint32).
Proof.
  unfold clampToInt32, clampToUint32, maxInt32, maxUint32. split_and!.
  - intros v Hv. apply int32_of_id. lia.
  - intros v. apply int32_of_range.
  - reflexivity.
  - intros v. unfold wrap32, two32. apply N.mod_small. lia.
Qed.

(** The start command a daemon receives is the server's own command when
    it has a non-empty one; otherwise the game mod's command for the node's
    system, and the server's own (empty or missing) one when the game mod has
    none.  The fallback changes no other field. *)
Lemma start_command_fallback json_vars s gm nodeOS :
  let p := DomainServerToProtoWithGameMod json_vars s (Some gm) nodeOS in
  let modCmd := if String.eqb nodeOS NodeOSWindows then gmod_StartCmdWindows gm
                else gmod_StartCmdLinux gm in
  ps_StartCommand p =
    match sv_StartCommand s, modCmd with
    | Some (String _ _ as own), _ => Some own
    | _, Some c => Some c
    | own, None => own
    end /\
  ps_set_start None p = ps_set_start None (DomainServerToProto json_vars s).
Proof.
  intros p modCmd. unfold p, DomainServerToProtoWithGameMod. fold modCmd.
  change (ps_StartCommand (DomainServerToProto json_vars s)) with (sv_StartCommand s).
  destruct modCmd as [c|], (sv_StartCommand s) as [[|ch own]|] eqn:E; simpl;
    rewrite ?E; split; reflexivity.
Qed.
