(* ===== verification/PubSub.v ===== *)
(** Publish/subscribe between panel instances ([internal/pubsub]): the channel
    names ([channels/channels.go]), the messages and the payloads the modelled
    code exchanges ([messages/messages.go], [pubsub.go]), pattern matching
    ([helpers.go]) and the in-memory driver ([memory/memory.go]).

    A payload is the JSON value that [json.Marshal] writes: the driver carries
    the value, not its text.  A [[]byte] field is kept as its bytes (the text
    would be base64) and a [time.Time] field as its instant.  A field that is
    absent or [null] decodes to the zero value; a value of another JSON type or
    out of the field's range is a decoding error. *)

From S2P Require Import Prelude.
From S2P Require Import GoNum.
From S2P Require Import Domain.
From stdpp Require Import base tactics strings list gmap numbers.
From Stdlib Require Import NArith ZArith Ascii.

(** ** Channel names *)

Definition Prefix : string := "gameap:".
Definition CachePrefix : string := Prefix +:+ "cache:".
Definition PluginPrefix : string := Prefix +:+ "plugin:".
Definition RealtimePrefix : string := Prefix +:+ "realtime:".
Definition DaemonPrefix : string := Prefix +:+ "daemon:".

Definition RealtimeTaskStatus : string := RealtimePrefix +:+ "task:status:".
Definition RealtimeTaskOutput : string := RealtimePrefix +:+ "task:output:".
Definition RealtimeTaskAll : string := RealtimePrefix +:+ "task:*".
Definition DaemonSessionConnected : string := DaemonPrefix +:+ "session:connected".
Definition DaemonSessionClosed : string := DaemonPrefix +:+ "session:closed".
Definition DaemonTaskDispatch : string := DaemonPrefix +:+ "task:dispatch:".
Definition DaemonCommandDispatch : string := DaemonPrefix +:+ "command:dispatch:".
Definition DaemonSessionAll : string := DaemonPrefix +:+ "session:*".
Definition DaemonTaskDispatchAll : string := DaemonPrefix +:+ "task:dispatch:*".
Definition DaemonAttachDispatch : string := DaemonPrefix +:+ "attach:dispatch:".
Definition DaemonAttachDispatchAll : string := DaemonPrefix +:+ "attach:dispatch:*".
Definition RealtimeMetrics : string := RealtimePrefix +:+ "metrics:".
Definition RealtimeMetricsAll : string := RealtimePrefix +:+ "metrics:*".
Definition DaemonMetricsRequest : string := DaemonPrefix +:+ "metrics:request:".
Definition DaemonMetricsResponse : string := DaemonPrefix +:+ "metrics:response:".
Definition DaemonMetricsRequestAll : string := DaemonPrefix +:+ "metrics:request:*".
Definition MetricsSubscribers : string := Prefix +:+ "metrics:subscribers:".
Definition MetricsSubscribersAll : string := Prefix +:+ "metrics:subscribers:*".

Definition BuildCacheInvalidateChannel (entityType entityID : string) : string :=
  if String.eqb entityID "" then CachePrefix +:+ "invalidate:" +:+ entityType
  else CachePrefix +:+ "invalidate:" +:+ entityType +:+ ":" +:+ entityID.
Definition BuildPluginEventChannel (eventType : string) : string :=
  PluginPrefix +:+ "events:" +:+ eventType.
Definition BuildDaemonTaskDispatchChannel (nodeID : N) : string :=
  DaemonTaskDispatch +:+ FormatUint nodeID.
Definition BuildDaemonCommandDispatchChannel (nodeID : N) : string :=
  DaemonCommandDispatch +:+ FormatUint nodeID.
Definition BuildRealtimeTaskStatusChannel (taskID : N) : string :=
  RealtimeTaskStatus +:+ FormatUint taskID.
Definition BuildRealtimeTaskOutputChannel (taskID : N) : string :=
  RealtimeTaskOutput +:+ FormatUint taskID.
Definition BuildDaemonAttachDispatchChannel (nodeID : N) : string :=
  DaemonAttachDispatch +:+ FormatUint nodeID.
Definition BuildRealtimeMetricsChannel (nodeID : N) : string :=
  RealtimeMetrics +:+ FormatUint nodeID.
Definition BuildDaemonMetricsRequestChannel (nodeID : N) : string :=
  DaemonMetricsRequest +:+ FormatUint nodeID.
Definition BuildDaemonMetricsResponseChannel (instanceID : string) : string :=
  DaemonMetricsResponse +:+ instanceID.
Definition BuildMetricsSubscribersChannel (nodeID : N) : string :=
  MetricsSubscribers +:+ FormatUint nodeID.

(** ** JSON values *)

#[warnings="-register-all"]
Inductive json : Type :=
| JNull
| JBool (b : bool)
| JNum (z : Z)
| JStr (s : string)
| JBytes (b : string)
| JTime (t : time)
| JObj (fields : list (string * json)).

Definition ErrUnmarshal : error := ENew "json: cannot unmarshal value into field".

Fixpoint field (k : string) (fields : list (string * json)) : json :=
  match fields with
  | [] => JNull
  | (k', v) :: rest => if String.eqb k k' then v else field k rest
  end.

Definition as_uint64 (j : json) : result N :=
  match j with
  | JNull => Ok 0%N
  | JNum z => if (0 <=? z)%Z && (z <? Z.of_N two64)%Z then Ok (Z.to_N z) else Err ErrUnmarshal
  | _ => Err ErrUnmarshal
  end.
Definition as_int32 (j : json) : result Z :=
  match j with
  | JNull => Ok 0%Z
  | JNum z => if (-2147483648 <=? z)%Z && (z <=? 2147483647)%Z then Ok z else Err ErrUnmarshal
  | _ => Err ErrUnmarshal
  end.
Definition as_int64 (j : json) : result Z :=
  match j with
  | JNull => Ok 0%Z
  | JNum z => if (-9223372036854775808 <=? z)%Z && (z <=? 9223372036854775807)%Z then Ok z else Err ErrUnmarshal
  | _ => Err ErrUnmarshal
  end.
Definition as_string (j : json) : result string :=
  match j with JNull => Ok ""%string | JStr s => Ok s | _ => Err ErrUnmarshal end.
Definition as_bytes (j : json) : result string :=
  match j with JNull => Ok ""%string | JBytes b => Ok b | _ => Err ErrUnmarshal end.
Definition as_bool (j : json) : result bool :=
  match j with JNull => Ok false | JBool b => Ok b | _ => Err ErrUnmarshal end.
Definition as_time (j : json) : result time :=
  match j with JNull => Ok time_zero | JTime t => Ok t | _ => Err ErrUnmarshal end.

Definition JNat (n : N) : json := JNum (Z.of_N n).
(** A field tagged [omitempty]. *)
Definition omit_str (k s : string) : list (string * json) :=
  if String.eqb s "" then [] else [(k, JStr s)].
Definition omit_bytes (k b : string) : list (string * json) :=
  if String.eqb b "" then [] else [(k, JBytes b)].

(** A payload type: how [encoding/json] writes and reads it by its tags. *)
Class Payload (T : Type) : Type := {
  to_json : T -> json;
  of_fields : list (string * json) -> result T;
}.

Definition of_json {T} `{Payload T} (j : json) : result T :=
  match j with
  | JObj fields => of_fields fields
  | JNull => of_fields []
  | _ => Err ErrUnmarshal
  end.

(** ** Payloads *)

Record DaemonSessionPayload : Type := mkSessionPayload {
  dsp_NodeID : N; dsp_InstanceID : string; dsp_Version : string; dsp_ConnectedAt : time;
}.
#[export] Instance DaemonSessionPayload_json : Payload DaemonSessionPayload := {
  to_json p := JObj [("node_id", JNat (dsp_NodeID p)); ("instance_id", JStr (dsp_InstanceID p));
    ("version", JStr (dsp_Version p)); ("connected_at", JTime (dsp_ConnectedAt p))];
  of_fields l :=
    let? n := as_uint64 (field "node_id" l) in
    let? i := as_string (field "instance_id" l) in
    let? v := as_string (field "version" l) in
    let? t := as_time (field "connected_at" l) in Ok (mkSessionPayload n i v t);
}.

Record DaemonTaskDispatchPayload : Type := mkTaskDispatchPayload {
  tdp_NodeID : N; tdp_RequestID : string; tdp_TaskID : N; tdp_TaskData : string;
}.
#[export] Instance DaemonTaskDispatchPayload_json : Payload DaemonTaskDispatchPayload := {
  to_json p := JObj [("node_id", JNat (tdp_NodeID p)); ("request_id", JStr (tdp_RequestID p));
    ("task_id", JNat (tdp_TaskID p)); ("task_data", JBytes (tdp_TaskData p))];
  of_fields l :=
    let? n := as_uint64 (field "node_id" l) in
    let? r := as_string (field "request_id" l) in
    let? t := as_uint64 (field "task_id" l) in
    let? d := as_bytes (field "task_data" l) in Ok (mkTaskDispatchPayload n r t d);
}.

Record DaemonCommandDispatchPayload : Type := mkCommandDispatchPayload {
  cdp_NodeID : N; cdp_RequestID : string; cdp_CommandID : string; cdp_ServerID : N;
  cdp_Command : string; cdp_Timeout : Z;
}.
#[export] Instance DaemonCommandDispatchPayload_json : Payload DaemonCommandDispatchPayload := {
  to_json p := JObj [("node_id", JNat (cdp_NodeID p)); ("request_id", JStr (cdp_RequestID p));
    ("command_id", JStr (cdp_CommandID p)); ("server_id", JNat (cdp_ServerID p));
    ("command", JStr (cdp_Command p)); ("timeout", JNum (cdp_Timeout p))];
  of_fields l :=
    let? n := as_uint64 (field "node_id" l) in
    let? r := as_string (field "request_id" l) in
    let? c := as_string (field "command_id" l) in
    let? s := as_uint64 (field "server_id" l) in
    let? x := as_string (field "command" l) in
    let? t := as_int32 (field "timeout" l) in Ok (mkCommandDispatchPayload n r c s x t);
}.

Record DaemonAttachDispatchPayload : Type := mkAttachDispatchPayload {
  adp_NodeID : N; adp_RequestID : string; adp_Data : string;
}.
#[export] Instance DaemonAttachDispatchPayload_json : Payload DaemonAttachDispatchPayload := {
  to_json p := JObj [("node_id", JNat (adp_NodeID p)); ("request_id", JStr (adp_RequestID p));
    ("data", JBytes (adp_Data p))];
  of_fields l :=
    let? n := as_uint64 (field "node_id" l) in
    let? r := as_string (field "request_id" l) in
    let? d := as_bytes (field "data" l) in Ok (mkAttachDispatchPayload n r d);
}.

Record DaemonMetricsRequestPayload : Type := mkMetricsRequestPayload {
  mrp_NodeID : N; mrp_RequestID : string; mrp_InstanceID : string; mrp_Data : string;
}.
#[export] Instance DaemonMetricsRequestPayload_json : Payload DaemonMetricsRequestPayload := {
  to_json p := JObj [("node_id", JNat (mrp_NodeID p)); ("request_id", JStr (mrp_RequestID p));
    ("instance_id", JStr (mrp_InstanceID p)); ("data", JBytes (mrp_Data p))];
  of_fields l :=
    let? n := as_uint64 (field "node_id" l) in
    let? r := as_string (field "request_id" l) in
    let? i := as_string (field "instance_id" l) in
    let? d := as_bytes (field "data" l) in Ok (mkMetricsRequestPayload n r i d);
}.

Record DaemonMetricsResponsePayload : Type := mkMetricsResponsePayload {
  msp_RequestID : string; msp_NodeID : N; msp_Error : string; msp_Data : string;
}.
#[export] Instance DaemonMetricsResponsePayload_json : Payload DaemonMetricsResponsePayload := {
  to_json p := JObj (("request_id", JStr (msp_RequestID p)) :: ("node_id", JNat (msp_NodeID p)) ::
    omit_str "error" (msp_Error p) ++ omit_bytes "data" (msp_Data p));
  of_fields l :=
    let? r := as_string (field "request_id" l) in
    let? n := as_uint64 (field "node_id" l) in
    let? e := as_string (field "error" l) in
    let? d := as_bytes (field "data" l) in Ok (mkMetricsResponsePayload r n e d);
}.

Record MetricsLivePayload : Type := mkMetricsLivePayload { mlp_NodeID : N; mlp_Data : string }.
#[export] Instance MetricsLivePayload_json : Payload MetricsLivePayload := {
  to_json p := JObj [("node_id", JNat (mlp_NodeID p)); ("data", JBytes (mlp_Data p))];
  of_fields l :=
    let? n := as_uint64 (field "node_id" l) in
    let? d := as_bytes (field "data" l) in Ok (mkMetricsLivePayload n d);
}.

Record MetricsSubscribersPayload : Type := mkMetricsSubscribersPayload {
  mbp_InstanceID : string; mbp_NodeID : N; mbp_Count : Z; mbp_Timestamp : time;
}.
#[export] Instance MetricsSubscribersPayload_json : Payload MetricsSubscribersPayload := {
  to_json p := JObj [("instance_id", JStr (mbp_InstanceID p)); ("node_id", JNat (mbp_NodeID p));
    ("count", JNum (mbp_Count p)); ("timestamp", JTime (mbp_Timestamp p))];
  of_fields l :=
    let? i := as_string (field "instance_id" l) in
    let? n := as_uint64 (field "node_id" l) in
    let? c := as_int64 (field "count" l) in
    let? t := as_time (field "timestamp" l) in Ok (mkMetricsSubscribersPayload i n c t);
}.

Record TaskStatusPayload : Type := mkTaskStatusPayload {
  tsp_TaskID : N; tsp_Status : string; tsp_ServerID : N; tsp_Message : string;
}.
#[export] Instance TaskStatusPayload_json : Payload TaskStatusPayload := {
  to_json p := JObj (("task_id", JNat (tsp_TaskID p)) :: ("status", JStr (tsp_Status p)) ::
    ("server_id", JNat (tsp_ServerID p)) :: omit_str "message" (tsp_Message p));
  of_fields l :=
    let? t := as_uint64 (field "task_id" l) in
    let? s := as_string (field "status" l) in
    let? i := as_uint64 (field "server_id" l) in
    let? m := as_string (field "message" l) in Ok (mkTaskStatusPayload t s i m);
}.

Record TaskOutputPayload : Type := mkTaskOutputPayload {
  top_TaskID : N; top_Chunk : string; top_IsFinal : bool;
}.
#[export] Instance TaskOutputPayload_json : Payload TaskOutputPayload := {
  to_json p := JObj [("task_id", JNat (top_TaskID p)); ("chunk", JStr (top_Chunk p));
    ("is_final", JBool (top_IsFinal p))];
  of_fields l :=
    let? t := as_uint64 (field "task_id" l) in
    let? c := as_string (field "chunk" l) in
    let? f := as_bool (field "is_final" l) in Ok (mkTaskOutputPayload t c f);
}.

Record TaskCompletePayload : Type := mkTaskCompletePayload {
  tcp_TaskID : N; tcp_Status : string; tcp_ServerID : N;
}.
#[export] Instance TaskCompletePayload_json : Payload TaskCompletePayload := {
  to_json p := JObj [("task_id", JNat (tcp_TaskID p)); ("status", JStr (tcp_Status p));
    ("server_id", JNat (tcp_ServerID p))];
  of_fields l :=
    let? t := as_uint64 (field "task_id" l) in
    let? s := as_string (field "status" l) in
    let? i := as_uint64 (field "server_id" l) in Ok (mkTaskCompletePayload t s i);
}.

Definition TypeDaemonConnected : string := "daemon.connected".
Definition TypeDaemonClosed : string := "daemon.closed".
Definition TypeDaemonTask : string := "daemon.task".
Definition TypeDaemonCommand : string := "daemon.command".
Definition TypeDaemonAttach : string := "daemon.attach".
Definition TypeDaemonMetricsRequest : string := "daemon.metrics.request".
Definition TypeDaemonMetricsResponse : string := "daemon.metrics.response".
Definition TypeMetricsLive : string := "metrics.live".
Definition TypeMetricsSubscribers : string := "metrics.subscribers".
Definition TypeTaskStatus : string := "task.status".
Definition TypeTaskOutput : string := "task.output".
Definition TypeTaskComplete : string := "task.complete".

(** ** Messages *)

Record Message : Type := mkMessage {
  msg_ID : string;
  msg_Channel : string;
  msg_Type : string;
  msg_Payload : json;
  msg_Timestamp : time;
  msg_Source : string;
}.

(** What [idgen.New()] and [time.Now()] return at a call. *)
Record Stamp : Type := mkStamp { st_id : string; st_now : time }.

(** The payload structs hold only strings, numbers, bytes and times, which
    [json.Marshal] always writes. *)
Definition NewMessage {T} `{Payload T} (st : Stamp) (channel msgType : string) (payload : T)
  : result Message :=
  Ok (mkMessage (st_id st) channel msgType (to_json payload) (st_now st) "").

Definition ParsePayload {T} `{Payload T} (msg : Message) : result T := of_json (msg_Payload msg).

(** ** Round trips of the payloads *)

Lemma as_uint64_JNat n : (n < two64)%N -> as_uint64 (JNat n) = Ok n.
Proof.
  intros Hn. unfold as_uint64, JNat. rewrite N2Z.id.
  destruct (Z.leb_spec 0 (Z.of_N n)), (Z.ltb_spec (Z.of_N n) (Z.of_N two64)); simpl;
    (done || lia).
Qed.

Lemma as_int64_JNum z : (-9223372036854775808 <= z <= 9223372036854775807)%Z -> as_int64 (JNum z) = Ok z.
Proof.
  intros Hz. unfold as_int64.
  destruct (Z.leb_spec (-9223372036854775808) z), (Z.leb_spec z 9223372036854775807); simpl; (done || lia).
Qed.

Lemma as_int32_JNum z : (-2147483648 <= z <= 2147483647)%Z -> as_int32 (JNum z) = Ok z.
Proof.
  intros Hz. unfold as_int32.
  destruct (Z.leb_spec (-2147483648) z), (Z.leb_spec z 2147483647); simpl; (done || lia).
Qed.

(** A payload value is in range when its numbers fit their Go types. *)
Class PayloadLaws (T : Type) `{Payload T} : Type := {
  in_range : T -> Prop;
  payload_roundtrip : forall x : T, in_range x -> of_json (to_json x) = Ok x;
}.

Ltac solve_payload :=
  let x := fresh "x" in let Hx := fresh "Hx" in
  intros x Hx; destruct x; cbn in Hx; destruct_and?;
  unfold of_json, to_json; cbn -[as_uint64 as_int32 as_int64 JNat two64 String.eqb]; unfold omit_str, omit_bytes;
  repeat match goal with
  | |- context [String.eqb ?s ""%string] => is_var s; destruct (String.eqb_spec s ""%string); subst
  end; cbn -[as_uint64 as_int32 as_int64 JNat two64];
  repeat (rewrite as_uint64_JNat by done; cbn -[as_uint64 as_int32 as_int64 JNat two64]);
  rewrite ?as_int32_JNum, ?as_int64_JNum by done; done.

#[export, program] Instance DaemonSessionPayload_laws : PayloadLaws DaemonSessionPayload := {
  in_range p := (dsp_NodeID p < two64)%N;
}.
Next Obligation. solve_payload. Qed.
#[export, program] Instance DaemonTaskDispatchPayload_laws : PayloadLaws DaemonTaskDispatchPayload := {
  in_range p := (tdp_NodeID p < two64)%N /\ (tdp_TaskID p < two64)%N;
}.
Next Obligation. solve_payload. Qed.
#[export, program] Instance DaemonCommandDispatchPayload_laws : PayloadLaws DaemonCommandDispatchPayload := {
  in_range p := (cdp_NodeID p < two64)%N /\ (cdp_ServerID p < two64)%N /\
    (-2147483648 <= cdp_Timeout p <= 2147483647)%Z;
}.
Next Obligation. solve_payload. Qed.
#[export, program] Instance DaemonAttachDispatchPayload_laws : PayloadLaws DaemonAttachDispatchPayload := {
  in_range p := (adp_NodeID p < two64)%N;
}.
Next Obligation. solve_payload. Qed.
#[export, program] Instance DaemonMetricsRequestPayload_laws : PayloadLaws DaemonMetricsRequestPayload := {
  in_range p := (mrp_NodeID p < two64)%N;
}.
Next Obligation. solve_payload. Qed.
#[export, program] Instance DaemonMetricsResponsePayload_laws : PayloadLaws DaemonMetricsResponsePayload := {
  in_range p := (msp_NodeID p < two64)%N;
}.
Next Obligation. solve_payload. Qed.
#[export, program] Instance MetricsSubscribersPayload_laws : PayloadLaws MetricsSubscribersPayload := {
  in_range p := (mbp_NodeID p < two64)%N /\ (-9223372036854775808 <= mbp_Count p <= 9223372036854775807)%Z;
}.
Next Obligation. solve_payload. Qed.
#[export, program] Instance MetricsLivePayload_laws : PayloadLaws MetricsLivePayload := {
  in_range p := (mlp_NodeID p < two64)%N;
}.
Next Obligation. solve_payload. Qed.
#[export, program] Instance TaskStatusPayload_laws : PayloadLaws TaskStatusPayload := {
  in_range p := (tsp_TaskID p < two64)%N /\ (tsp_ServerID p < two64)%N;
}.
Next Obligation. solve_payload. Qed.
#[export, program] Instance TaskOutputPayload_laws : PayloadLaws TaskOutputPayload := {
  in_range p := (top_TaskID p < two64)%N;
}.
Next Obligation. solve_payload. Qed.
#[export, program] Instance TaskCompletePayload_laws : PayloadLaws TaskCompletePayload := {
  in_range p := (tcp_TaskID p < two64)%N /\ (tcp_ServerID p < two64)%N;
}.
Next Obligation. solve_payload. Qed.

(** What a subscriber reads is what the publisher wrote. *)
Lemma ParsePayload_NewMessage {T} `{PayloadLaws T} st ch tp (x : T) :
  in_range x -> exists m, NewMessage st ch tp x = Ok m /\ msg_Channel m = ch /\
    msg_Type m = tp /\ ParsePayload m = Ok x.
Proof. intros Hx. eexists. split; [reflexivity|]. by rewrite <- (payload_roundtrip x Hx). Qed.

(** ** Pattern matching *)

Fixpoint has_star (s : string) : bool :=
  match s with
  | EmptyString => false
  | String c s' => Ascii.eqb c "*"%char || has_star s'
  end.

(** [strings.CutSuffix(s, "*")] *)
Fixpoint cut_star (s : string) : option string :=
  match s with
  | EmptyString => None
  | String c EmptyString => if Ascii.eqb c "*"%char then Some ""%string else None
  | String c s' => String c <$> cut_star s'
  end.

Definition MatchPattern (pattern channel : string) : bool :=
  if negb (has_star pattern) then String.eqb pattern channel
  else
    match cut_star pattern with
    | Some prefix => String.prefix prefix channel
    | None => false
    end.

Lemma cut_star_spec s p : cut_star s = Some p <-> s = p +:+ "*".
Proof.
  revert p. induction s as [|c s IH]; intros p; [by destruct p|].
  destruct s as [|d s].
  - simpl. destruct (Ascii.eqb_spec c "*"%char) as [->|Hne].
    + split; [by intros [= <-]|]. destruct p as [|e [|? ?]]; [done|..]; by intros [=].
    + split; [done|]. destruct p as [|e [|? ?]]; intros [=]; congruence.
  - change (cut_star (String c (String d s))) with (String c <$> cut_star (String d s)). split.
    + destruct (cut_star (String d s)) as [q|]; [|done]. intros [= <-].
      rewrite String_app. f_equal. by apply IH.
    + destruct p as [|e p]; [by intros [=]|]. rewrite String_app. intros [= -> Hs].
      by rewrite (proj2 (IH p)).
Qed.

Lemma has_star_app a b : has_star (a +:+ b) = has_star a || has_star b.
Proof.
  induction a as [|c a IH]; [done|]. rewrite String_app. simpl. by rewrite IH, orb_assoc.
Qed.

(** A literal pattern matches itself; a trailing star matches every extension. *)
Lemma MatchPattern_literal p ch : has_star p = false -> MatchPattern p ch = String.eqb p ch.
Proof. intros H. unfold MatchPattern. by rewrite H. Qed.

Lemma MatchPattern_star p ch : MatchPattern (p +:+ "*") ch = String.prefix p ch.
Proof.
  unfold MatchPattern. rewrite has_star_app. simpl. rewrite orb_true_r. simpl.
  by rewrite (proj2 (cut_star_spec (p +:+ "*") p)).
Qed.

(** ** The publisher interface *)

Class Publisher (W : Type) : Type := publish : string -> Message -> M W unit.

(** ** The in-memory driver *)

Definition ErrClosed : error := ENew "pubsub: closed".
Definition ErrEmptyPattern : error := ENew "pubsub: empty pattern".
Definition ErrPayloadTooLarge : error := ENew "pubsub: payload too large".

Record Memory (H : Type) : Type := mkMemory {
  handlers : gmap string (list H);
  closed : bool;
}.
Arguments mkMemory {H}.
Arguments handlers {H}.
Arguments closed {H}.

Definition Memory_New {H} : Memory H := mkMemory ∅ false.

(** The handlers in the order the Go map is ranged over here; that order is
    unspecified, the order within one pattern is the subscription order. *)
Definition getMatchingHandlers {H} (m : Memory H) (channel : string) : list H :=
  flat_map snd (filter (fun x => MatchPattern (fst x) channel = true) (map_to_list (handlers m))).

Definition Subscribe {H} (pattern : string) (h : H) : M (Memory H) unit := fun m =>
  if String.eqb pattern "" then (Err ErrEmptyPattern, m)
  else if closed m then (Err ErrClosed, m)
  else (Ok tt, mkMemory (<[pattern := default [] (handlers m !! pattern) ++ [h]]> (handlers m)) (closed m)).

Definition Unsubscribe {H} (pattern : string) : M (Memory H) unit := fun m =>
  (Ok tt, mkMemory (delete pattern (handlers m)) (closed m)).

(** [closeOnce] makes a second [Close] do nothing; so does the body. *)
Definition Close {H} : M (Memory H) unit := fun m =>
  if closed m then (Ok tt, m) else (Ok tt, mkMemory ∅ true).

Definition set_source (src : string) (m : Message) : Message :=
  mkMessage (msg_ID m) (msg_Channel m) (msg_Type m) (msg_Payload m) (msg_Timestamp m) src.

Section memory.
Context {W H : Type} (run : H -> Message -> M W unit) (mem : W -> Memory H).

(** [SafeCall]: a handler's error is logged, its panic recovered. *)
Definition SafeCall (h : H) (msg : Message) : M W unit := fun w => (Ok tt, snd (run h msg w)).

(** The matching handlers are collected first, then run one after the other. *)
Definition Memory_Publish (channel : string) (msg : Message) : M W unit := fun w =>
  if closed (mem w) then (Err ErrClosed, w)
  else
    let hs := getMatchingHandlers (mem w) channel in
    for_each hs (fun h => SafeCall h (set_source "memory" msg)) w.

Lemma for_each_SafeCall hs msg w :
  for_each hs (fun h => SafeCall h msg) w = (Ok tt, foldl (fun w h => snd (run h msg w)) w hs).
Proof. revert w. induction hs as [|h hs IH]; intros w; simpl; [done|]. unfold bind, SafeCall. apply IH. Qed.
End memory.

(** ** The driver implements a list of subscriptions *)

(** The abstract state: the subscriptions in order, or closed. *)
Inductive bus_op (H : Type) : Type :=
| OpSubscribe (pattern : string) (h : H)
| OpUnsubscribe (pattern : string)
| OpClose.
Arguments OpSubscribe {H}.
Arguments OpUnsubscribe {H}.
Arguments OpClose {H}.

Definition bus (H : Type) : Type := option (list (string * H)).

Definition bus_step {H} (op : bus_op H) (b : bus H) : bus H :=
  match op, b with
  | _, None => None
  | OpSubscribe p h, Some l => if String.eqb p "" then Some l else Some (l ++ [(p, h)])
  | OpUnsubscribe p, Some l => Some (filter (fun x => fst x <> p) l)
  | OpClose, Some _ => None
  end.

Definition mem_step {H} (op : bus_op H) : M (Memory H) unit :=
  match op with
  | OpSubscribe p h => Subscribe p h
  | OpUnsubscribe p => Unsubscribe p
  | OpClose => Close
  end.

(** Each pattern's bucket is the subscriptions to it, in order. *)
Definition mem_refines {H} (m : Memory H) (b : bus H) : Prop :=
  match b with
  | None => closed m = true /\ handlers m = ∅
  | Some l => closed m = false /\
      forall p, default [] (handlers m !! p) = map snd (filter (fun x => fst x = p) l)
  end.

Lemma filter_fst_ne {H} p q (l : list (string * H)) :
  filter (fun x => fst x = q) (filter (fun x => fst x <> p) l)
  = if decide (p = q) then [] else filter (fun x => fst x = q) l.
Proof.
  rewrite list_filter_filter. case_decide as Hpq.
  - induction l as [|x l IH]; [done|]. rewrite filter_cons_False; [done|]. subst. naive_solver.
  - apply list_filter_iff. intros x. naive_solver.
Qed.

Lemma mem_step_refines {H} (op : bus_op H) m b :
  mem_refines m b -> mem_refines (snd (mem_step op m)) (bus_step op b).
Proof.
  destruct b as [l|]; simpl.
  - intros [Hc Hl]. destruct op as [p h|p|]; simpl.
    + unfold Subscribe. destruct (String.eqb p ""); [done|]. rewrite Hc. split; [done|].
      intros q. simpl. rewrite lookup_insert, list.filter_app, map_app, <- Hl.
      case_decide as E; subst; simpl; rewrite list.filter_cons, list.filter_nil; simpl.
      * by rewrite decide_True.
      * by rewrite decide_False, app_nil_r.
    + split; [done|]. intros q. simpl. rewrite lookup_delete, filter_fst_ne.
      case_decide; subst; simpl; [done|]. apply Hl.
    + unfold Close. by rewrite Hc.
  - intros [Hc Hh]. destruct op as [p h|p|]; simpl.
    + unfold Subscribe. destruct (String.eqb p ""); [done|]. by rewrite Hc.
    + split; [done|]. simpl. by rewrite Hh, delete_empty.
    + unfold Close. by rewrite Hc.
Qed.

Definition run_ops {H} (ops : list (bus_op H)) (m : Memory H) : Memory H :=
  foldl (fun m op => snd (mem_step op m)) m ops.

Lemma run_ops_refines {H} (ops : list (bus_op H)) m b :
  mem_refines m b -> mem_refines (run_ops ops m) (foldl (fun b op => bus_step op b) b ops).
Proof.
  revert m b. induction ops as [|op ops IH]; intros m b Hr; simpl; [done|].
  apply IH. by apply mem_step_refines.
Qed.

Lemma mem_refines_new {H} : mem_refines (@Memory_New H) (Some []).
Proof. split; [done|]. intros p. simpl. by rewrite lookup_empty. Qed.

(** ** Delivery *)

Lemma flat_map_app_perm {A B} (f g : A -> list B) l :
  flat_map (fun x => f x ++ g x) l ≡ₚ flat_map f l ++ flat_map g l.
Proof.
  induction l as [|x l IH]; simpl; [done|]. rewrite IH. solve_Permutation.
Qed.

Lemma flat_map_of_map {A B C} (f : B -> list C) (g : A -> B) l :
  flat_map f (map g l) = flat_map (fun x => f (g x)) l.
Proof. induction l as [|x l IH]; simpl; [done|]. by rewrite IH. Qed.

Lemma flat_map_pick {B} (k : string) (b : B) ps :
  NoDup ps -> k ∈ ps -> flat_map (fun p => if decide (k = p) then [b] else []) ps = [b].
Proof.
  assert (Hnot : forall ps, k ∉ ps -> flat_map (fun p => if decide (k = p) then [b] else []) ps = []).
  { intros qs. induction qs as [|q qs IH]; simpl; [done|]. intros Hk. rewrite decide_False by set_solver.
    apply IH. set_solver. }
  induction 1 as [|p ps Hp Hnd IH]; simpl; [set_solver|]. intros Hk. case_decide; subst.
  - by rewrite Hnot.
  - apply IH. set_solver.
Qed.

(** Reading the buckets of a set of patterns covers every subscription once. *)
Lemma flat_map_buckets {H} ps (l : list (string * H)) :
  NoDup ps -> (forall x, x ∈ l -> fst x ∈ ps) ->
  flat_map (fun p => map snd (filter (fun x => fst x = p) l)) ps ≡ₚ map snd l.
Proof.
  intros Hnd. induction l as [|x l IH]; intros Hin.
  - clear. by induction ps as [|p ps IH].
  - assert (Hf : forall p, map snd (filter (fun y => fst y = p) (x :: l)) =
      (if decide (fst x = p) then [snd x] else []) ++ map snd (filter (fun y => fst y = p) l)).
    { intros p. rewrite list.filter_cons. by case_decide. }
    rewrite (flat_map_ext _ _ Hf), flat_map_app_perm, flat_map_pick by set_solver.
    simpl. f_equiv. apply IH. set_solver.
Qed.

Lemma filter_match_key {H} (l : list (string * H)) ch p :
  filter (fun x => fst x = p) (filter (fun x => MatchPattern (fst x) ch = true) l) =
  if MatchPattern p ch then filter (fun x => fst x = p) l else [].
Proof.
  rewrite list_filter_filter. destruct (MatchPattern p ch) eqn:Hm.
  - apply list_filter_iff. naive_solver.
  - induction l as [|x l IH]; [done|]. rewrite filter_cons_False; [done|]. intros [H1 H2]. congruence.
Qed.

Lemma getMatchingHandlers_perm {H} (m : Memory H) l ch :
  mem_refines m (Some l) ->
  getMatchingHandlers m ch ≡ₚ map snd (filter (fun x => MatchPattern (fst x) ch = true) l).
Proof.
  intros [_ Hl]. unfold getMatchingHandlers.
  set (lm := filter (fun x => MatchPattern (fst x) ch = true) l).
  rewrite <- (flat_map_buckets (map fst (map_to_list (handlers m))) lm).
  - rewrite flat_map_of_map.
    assert (Hsub : forall x, x ∈ map_to_list (handlers m) ->
      map snd (filter (fun y => fst y = fst x) lm)
      = if MatchPattern (fst x) ch then snd x else []).
    { intros [p hs] Hx. apply elem_of_map_to_list in Hx. unfold lm. simpl.
      rewrite filter_match_key. destruct (MatchPattern p ch); [|done]. by rewrite <- Hl, Hx. }
    clear -Hsub. induction (map_to_list (handlers m)) as [|x ms IH]; [done|].
    cbn [flat_map]. rewrite (Hsub x) by set_solver. rewrite list.filter_cons.
    assert (IH' := IH ltac:(set_solver)).
    destruct (MatchPattern (fst x) ch) eqn:E.
    + rewrite decide_True by done. cbn [flat_map]. by rewrite IH'.
    + rewrite decide_False by done. simpl. exact IH'.
  - apply NoDup_fst_map_to_list.
  - intros [p h] Hx. unfold lm in Hx. apply list_elem_of_filter in Hx as [_ Hx]. simpl.
    destruct (handlers m !! p) as [hs|] eqn:E.
    + apply list_elem_of_fmap. exists (p, hs). split; [done|]. by apply elem_of_map_to_list.
    + specialize (Hl p). rewrite E in Hl. simpl in Hl. symmetry in Hl.
      apply map_eq_nil in Hl. exfalso.
      assert (Hin : (p, h) ∈ filter (fun x => fst x = p) l) by by apply list_elem_of_filter.
      rewrite Hl in Hin. set_solver.
Qed.

(** C3: after any sequence of subscriptions, unsubscriptions and closes, a
    publish on an open bus runs every handler whose pattern matches the channel
    once per subscription still in force, and no other, whatever errors or
    panics the handlers raise, and itself succeeds; on a closed bus it returns
    [ErrClosed] and runs nothing. *)
Theorem publish_reaches_subscribers {W H} (run : H -> Message -> M W unit) (mem : W -> Memory H)
    ops w ch msg :
  mem w = run_ops ops Memory_New ->
  match foldl (fun b op => bus_step op b) (Some []) ops with
  | None => Memory_Publish run mem ch msg w = (Err ErrClosed, w)
  | Some subs =>
      exists hs,
        hs ≡ₚ map snd (filter (fun x => MatchPattern (fst x) ch = true) subs) /\
        Memory_Publish run mem ch msg w =
          (Ok tt, foldl (fun w h => snd (run h (set_source "memory" msg) w)) w hs)
  end.
Proof.
  intros Hw. pose proof (run_ops_refines ops Memory_New (Some []) (@mem_refines_new H)) as Hr.
  rewrite <- Hw in Hr. unfold Memory_Publish.
  destruct (foldl _ _ ops) as [subs|].
  - exists (getMatchingHandlers (mem w) ch). split; [by apply getMatchingHandlers_perm|].
    destruct Hr as [-> _]. apply for_each_SafeCall.
  - destruct Hr as [-> _]. done.
Qed.

(** Two handlers that log their channel's message into a counter map. *)
Lemma publish_reaches_subscribers_witness :
  let run := fun (h : N) (m : Message) (w : Memory N * list N) => (@Err unit ErrClosed, (fst w, snd w ++ [h])) in
  let ops := [OpSubscribe DaemonTaskDispatchAll 1%N; OpSubscribe DaemonSessionAll 2%N;
              OpSubscribe DaemonTaskDispatchAll 3%N] in
  let w := (run_ops ops Memory_New, []) in
  exists hs, hs ≡ₚ [1%N; 3%N] /\
    snd (snd (Memory_Publish run fst (BuildDaemonTaskDispatchChannel 5) (mkMessage "" "" "" JNull 0 "") w)) = hs.
Proof.
  intros run ops w.
  destruct (publish_reaches_subscribers run fst ops w (BuildDaemonTaskDispatchChannel 5)
    (mkMessage "" "" "" JNull 0 "") eq_refl) as (hs & Hp & E).
  vm_compute in Hp. exists hs. split; [exact Hp|]. rewrite E.
  assert (Hrun : forall msg l m acc, snd (foldl (fun w h => snd (run h msg w)) (m, acc) l) = acc ++ l).
  { clear. intros msg l. induction l as [|h l IH]; intros m acc; simpl; [by rewrite app_nil_r|].
    rewrite IH. by rewrite <- app_assoc. }
  apply Hrun.
Defined.

(** A pattern that ends in its only kind of wildcard selects the channels
    that extend its stem; without a star it selects itself only; a star
    anywhere else makes it select nothing.  So of the dispatch channels of a
    node only the ones built for that stem are selected, whatever the node. *)
Lemma MatchPattern_spec pattern channel :
  (MatchPattern pattern channel = true <->
     (has_star pattern = false /\ channel = pattern) \/
     exists stem rest, pattern = stem +:+ "*" /\ channel = stem +:+ rest) /\
  (has_star pattern = true -> cut_star pattern = None -> MatchPattern pattern channel = false).
Proof.
  split.
  - unfold MatchPattern. destruct (has_star pattern) eqn:Hs; simpl.
    + destruct (cut_star pattern) as [p|] eqn:Hc.
      * rewrite prefix_spec. apply cut_star_spec in Hc. subst. split.
        -- intros [t ->]. right. eauto.
        -- intros [[[=] _]|(stem & rest & Heq & ->)].
           assert (cut_star (p +:+ "*") = Some stem) as Hc by by apply cut_star_spec.
           rewrite (proj2 (cut_star_spec _ p) eq_refl) in Hc. injection Hc as <-. eauto.
      * split; [done|]. intros [[[=] _]|(stem & rest & Heq & ->)].
        apply cut_star_spec in Heq. congruence.
    + rewrite String.eqb_eq. split; [by left|].
      intros [[_ ->]|(stem & rest & -> & ->)]; [done|].
      rewrite has_star_app, orb_true_r in Hs. done.
  - intros Hs Hc. unfold MatchPattern. by rewrite Hs, Hc.
Qed.

