(* ===== verification/Dlq.v ===== *)
(** The dead-letter queue and the retrying publisher ([internal/pubsub/dlq],
    [internal/pubsub/retry]): the bounded in-memory store, reprocessing of
    failed messages through a publisher, and publishing with a bounded number
    of attempts that ends in the queue.  The publisher is a parameter. *)

From S2P Require Import Prelude.
From S2P Require Import GoNum.
From S2P Require Import Domain.
From S2P Require Import PubSub.
From stdpp Require Import base tactics strings list gmap numbers.
From Stdlib Require Import NArith ZArith.

Record FailedMessage : Type := mkFailed {
  fm_ID : string;
  fm_OriginalMsg : Message;
  fm_Channel : string;
  fm_Error : error;
  fm_AttemptCount : nat;
  fm_FailedAt : time;
  fm_Processed : bool;
  fm_ProcessedAt : option time;
}.

Definition fm_mark (now : time) (m : FailedMessage) : FailedMessage :=
  mkFailed (fm_ID m) (fm_OriginalMsg m) (fm_Channel m) (fm_Error m) (fm_AttemptCount m)
    (fm_FailedAt m) true (Some now).

Definition ErrEmpty : error := ENew "dlq: queue is empty".

(** ** The in-memory store *)

Record MemoryStore : Type := mkStore { messages : list FailedMessage; maxSize : nat }.

Definition NewMemoryStore (max : Z) : MemoryStore :=
  mkStore [] (if (max <=? 0)%Z then 1000 else Z.to_nat max).

Definition set_messages (l : list FailedMessage) (s : MemoryStore) : MemoryStore :=
  mkStore l (maxSize s).

(** A full store drops its oldest message. *)
Definition Push (msg : FailedMessage) : M MemoryStore unit := fun s =>
  let kept := if maxSize s <=? length (messages s) then tail (messages s) else messages s in
  (Ok tt, set_messages (kept ++ [msg]) s).

(** Remove the first message that satisfies [p], as the loops over
    [s.messages] with [append(s.messages[:i], s.messages[i+1:]...)] do. *)
Fixpoint remove_first (p : FailedMessage -> bool) (l : list FailedMessage)
  : option (FailedMessage * list FailedMessage) :=
  match l with
  | [] => None
  | m :: rest =>
      if p m then Some (m, rest)
      else match remove_first p rest with
           | Some (x, rest') => Some (x, m :: rest')
           | None => None
           end
  end.

Definition Pop : M MemoryStore FailedMessage := fun s =>
  match remove_first (fun m => negb (fm_Processed m)) (messages s) with
  | Some (m, rest) => (Ok m, set_messages rest s)
  | None => (Err ErrEmpty, s)
  end.

(** [List(limit, offset)]; a negative size makes the slice panic. *)
Definition List_ (limit offset : Z) (s : MemoryStore) : result (list FailedMessage) :=
  let len := Z.of_nat (length (messages s)) in
  if (len <=? offset)%Z then Ok []
  else
    let stop := Z.min (offset + limit) len in
    if (offset <? 0)%Z || (stop <? offset)%Z then Panic "makeslice: len out of range"
    else Ok (take (Z.to_nat (stop - offset)) (drop (Z.to_nat offset) (messages s))).

Definition Count (s : MemoryStore) : nat :=
  length (filter (fun m => fm_Processed m = false) (messages s)).

Fixpoint mark_first (now : time) (id : string) (l : list FailedMessage) : list FailedMessage :=
  match l with
  | [] => []
  | m :: rest => if String.eqb (fm_ID m) id then fm_mark now m :: rest
                 else m :: mark_first now id rest
  end.

Definition MarkProcessed (now : time) (id : string) : M MemoryStore unit := fun s =>
  (Ok tt, set_messages (mark_first now id (messages s)) s).

Definition Delete (id : string) : M MemoryStore unit := fun s =>
  match remove_first (fun m => String.eqb (fm_ID m) id) (messages s) with
  | Some (_, rest) => (Ok tt, set_messages rest s)
  | None => (Ok tt, s)
  end.

Definition Purge : M MemoryStore unit := fun s => (Ok tt, set_messages [] s).

(** ** The handler: record and reprocess *)

Section handler.
Context {W : Type} `{Publisher W}.

(** The store beside the world of the publisher. *)
Definition on_store {A} (m : M MemoryStore A) : M (MemoryStore * W) A :=
  zoom fst (fun s w => (s, snd w)) m.
Definition on_world {A} (m : M W A) : M (MemoryStore * W) A :=
  zoom snd (fun x w => (fst w, x)) m.

Definition RecordFailure (st : Stamp) (msg : Message) (channel : string) (err : error)
  (attempts : nat) : M (MemoryStore * W) unit :=
  on_store (Push (mkFailed (st_id st) msg channel err attempts (st_now st) false None)).

Definition Reprocess (now : time) (id : string) : M (MemoryStore * W) unit :=
  let! w := get in
  let! msgs := wrap "failed to list messages" (lift (List_ 1000 0 (fst w))) in
  match list_find (fun m => fm_ID m = id) msgs with
  | None => fail (ENew "message not found")
  | Some (_, m) =>
      if fm_Processed m then fail (ENew "message already processed")
      else
        do! wrap "failed to republish message" (on_world (publish (fm_Channel m) (fm_OriginalMsg m))) ;;
        on_store (MarkProcessed now id)
  end.

(** [ReprocessAll], with [fuel] bounding the turns of the [for] loop; the
    result carries the two counters beside the error. *)
Fixpoint reprocess_loop (fuel : nat) (attempted : gset string) (processed failed : nat)
  : M (MemoryStore * W) (nat * nat * option error) :=
  match fuel with
  | O => ret (processed, failed, Some (ENew "out of fuel"))
  | S fuel =>
      let! popped := attempt (on_store Pop) in
      match popped with
      | Err e =>
          if errors_is e ErrEmpty then ret (processed, failed, None)
          else ret (processed, failed, Some (EWrap "failed to pop message" e))
      | Panic w => lift (Panic w)
      | Ok msg =>
          if fm_Processed msg then reprocess_loop fuel attempted processed failed
          else if decide (fm_ID msg ∈ attempted) then
            let! _ := attempt (on_store (Push msg)) in ret (processed, failed, None)
          else
            let attempted := {[fm_ID msg]} ∪ attempted in
            let! res := attempt (on_world (publish (fm_Channel msg) (fm_OriginalMsg msg))) in
            match res with
            | Ok _ => reprocess_loop fuel attempted (S processed) failed
            | _ =>
                let! _ := attempt (on_store (Push msg)) in
                reprocess_loop fuel attempted processed (S failed)
            end
      end
  end.

Definition ReprocessAll (fuel : nat) : M (MemoryStore * W) (nat * nat * option error) :=
  reprocess_loop fuel ∅ 0 0.
End handler.

(** ** Retrying publisher *)

(** The delays decide how long the publisher waits, not what it does; the
    [float64] growth factor is left out. *)
Record Config : Type := mkConfig { MaxRetries : Z; InitialDelay : Z; MaxDelay : Z }.

Definition NewPublisher (cfg : Config) : Config :=
  mkConfig (if (MaxRetries cfg <=? 0)%Z then 3 else MaxRetries cfg)
    (if (InitialDelay cfg <=? 0)%Z then 100000000 else InitialDelay cfg)
    (if (MaxDelay cfg <=? 0)%Z then 5000000000 else MaxDelay cfg).

Section retry.
Context {W : Type} `{Publisher W}.

(** The wait before attempt [n] ends either in the timer ([None]) or in the
    context's error. *)
Context (ctx_done : nat -> option error).
(** [dlq.RecordFailure], when a dead-letter queue is attached. *)
Context (record_failure : option (Message -> string -> error -> Z -> M W unit)).

Fixpoint retry_loop (turns attempt_no : nat) (lastErr : option error) (channel : string) (msg : Message)
  : M W (option error) :=
  match turns with
  | O => ret lastErr
  | S turns =>
      match (if attempt_no =? 0 then None else ctx_done attempt_no) with
      | Some e => fail e
      | None =>
          let! r := attempt (publish channel msg) in
          match r with
          | Ok _ => ret None
          | Err e =>
              if errors_is e ErrClosed || errors_is e ErrPayloadTooLarge then fail e
              else retry_loop turns (S attempt_no) (Some e) channel msg
          | Panic w => lift (Panic w)
          end
      end
  end.

Definition Retry_Publish (cfg : Config) (channel : string) (msg : Message) : M W unit :=
  let! lastErr := retry_loop (Z.to_nat (MaxRetries cfg + 1)) 0 None channel msg in
  match lastErr with
  | None => ret tt
  | Some e =>
      let! _ :=
        match record_failure with
        | None => ret (Ok tt)
        | Some rec => attempt (rec msg channel e (MaxRetries cfg + 1)%Z)
        end in
      fail (EWrap "publish failed after retries" e)
  end.
End retry.

(** ** The store *)

Abbreviation unprocessed l := (filter (fun m => fm_Processed m = false) l).
Abbreviation done_ones l := (filter (fun m => fm_Processed m = true) l).

Lemma remove_first_unprocessed l :
  match remove_first (fun m => negb (fm_Processed m)) l with
  | None => unprocessed l = []
  | Some (m, l') => unprocessed l = m :: unprocessed l' /\ done_ones l' = done_ones l /\
      length l = S (length l')
  end.
Proof.
  induction l as [|m l IH]; simpl; [done|]. rewrite !list.filter_cons.
  destruct (fm_Processed m) eqn:Hm; simpl.
  - destruct (remove_first _ l) as [[x l']|].
    + destruct IH as (H1 & H2 & H3). rewrite !list.filter_cons, Hm. simpl. by rewrite H1, H2, H3.
    + done.
  - done.
Qed.

Lemma Pop_unprocessed m rest s :
  unprocessed (messages s) = m :: rest ->
  exists l', Pop s = (Ok m, set_messages l' s) /\ unprocessed l' = rest /\
    done_ones l' = done_ones (messages s) /\ length (messages s) = S (length l').
Proof.
  intros Hu. pose proof (remove_first_unprocessed (messages s)) as Hr. unfold Pop.
  destruct (remove_first _ (messages s)) as [[x l']|]; [|congruence].
  destruct Hr as (H1 & H2 & H3). rewrite Hu in H1. injection H1 as -> ->. eauto 6.
Qed.

Lemma Pop_empty s : unprocessed (messages s) = [] -> Pop s = (Err ErrEmpty, s).
Proof.
  intros Hu. pose proof (remove_first_unprocessed (messages s)) as Hr. unfold Pop.
  destruct (remove_first _ (messages s)) as [[x l']|]; [|done]. destruct Hr. congruence.
Qed.

(** A push after a pop finds room: nothing is dropped. *)
Lemma Push_room m s :
  length (messages s) < maxSize s ->
  Push m s = (Ok tt, set_messages (messages s ++ [m]) s).
Proof. intros H. unfold Push. by destruct (Nat.leb_spec (maxSize s) (length (messages s))); [lia|]. Qed.

Lemma Push_bounded m s :
  1 <= maxSize s -> length (messages s) <= maxSize s ->
  length (messages (snd (Push m s))) <= maxSize s.
Proof.
  intros H1 H2. unfold Push. simpl. rewrite length_app. simpl.
  destruct (Nat.leb_spec (maxSize s) (length (messages s))); simpl; [|lia].
  destruct (messages s); simpl in *; lia.
Qed.

(** ** Reprocessing everything *)

Section reprocess.
Context {W : Type} `{Publisher W}.

(** Publish each message once, in order: the final world and the messages the
    publisher refused. *)
Fixpoint publish_each (l : list FailedMessage) (w : W) : list FailedMessage * W :=
  match l with
  | [] => ([], w)
  | m :: rest =>
      let '(r, w1) := publish (fm_Channel m) (fm_OriginalMsg m) w in
      let '(bad, w2) := publish_each rest w1 in
      (if is_ok r then bad else m :: bad, w2)
  end.

Definition rotate1 (l : list FailedMessage) : list FailedMessage :=
  match l with [] => [] | x :: r => r ++ [x] end.

Hypothesis no_panic : forall ch m w why, fst (publish ch m w) <> Panic why.

Lemma reprocess_loop_end fuel att p f (s : MemoryStore) (w : W) :
  0 < fuel -> length (messages s) <= maxSize s ->
  (forall m, m ∈ unprocessed (messages s) -> fm_ID m ∈ att) ->
  exists l', reprocess_loop fuel att p f (s, w) = (Ok (p, f, None), (set_messages l' s, w)) /\
    unprocessed l' = rotate1 (unprocessed (messages s)) /\ done_ones l' = done_ones (messages s).
Proof.
  intros Hfuel Hsz Hatt. destruct fuel as [|fuel]; [lia|]. simpl.
  unfold bind, attempt, on_store, zoom. cbn [fst snd].
  destruct (unprocessed (messages s)) as [|m rest] eqn:Hu.
  - rewrite Pop_empty by done. cbn. exists (messages s). destruct s. split; [done|]. by rewrite Hu.
  - destruct (Pop_unprocessed m rest s Hu) as (l' & -> & Hu' & Hd & Hlen). cbn [fst snd].
    assert (Hm : fm_Processed m = false).
    { assert (m ∈ unprocessed (messages s)) as Hin by (rewrite Hu; set_solver).
      by apply list_elem_of_filter in Hin as [? _]. }
    rewrite Hm, decide_True by (apply Hatt; set_solver). cbn [fst snd].
    rewrite Push_room by (simpl; lia). cbn. exists (l' ++ [m]). split; [done|].
    rewrite !list.filter_app, Hu', Hd, !list.filter_cons, !list.filter_nil. rewrite Hm. simpl. by rewrite app_nil_r.
Qed.

Lemma reprocess_loop_spec pending : forall fuel att p f bad (s : MemoryStore) (w : W),
  length pending < fuel -> length (messages s) <= maxSize s ->
  unprocessed (messages s) = pending ++ bad ->
  NoDup (map fm_ID pending) ->
  (forall m, m ∈ bad -> fm_ID m ∈ att) -> (forall m, m ∈ pending -> fm_ID m ∉ att) ->
  let '(bad', w') := publish_each pending w in
  exists l', reprocess_loop fuel att p f (s, w) =
      (Ok (p + (length pending - length bad'), f + length bad', None), (set_messages l' s, w')) /\
    unprocessed l' = rotate1 (bad ++ bad') /\ done_ones l' = done_ones (messages s) /\
    length bad' <= length pending.
Proof.
  induction pending as [|m pending IH]; intros fuel att p f bad s w Hfuel Hsz Hu Hnd Hbad Hpend.
  - simpl. destruct (reprocess_loop_end fuel att p f s w) as (l' & E & Hl & Hd); [simpl in *; lia|done| |].
    { rewrite Hu. simpl. done. }
    exists l'. rewrite E, !Nat.add_0_r, app_nil_r. rewrite Hu in Hl. auto.
  - simpl. destruct (publish (fm_Channel m) (fm_OriginalMsg m) w) as [r w1] eqn:Ep.
    destruct (publish_each pending w1) as [bad' w2] eqn:Ee.
    destruct fuel as [|fuel]; [simpl in *; lia|].
    destruct (Pop_unprocessed m (pending ++ bad) s Hu) as (l1 & Epop & Hu1 & Hd1 & Hlen).
    assert (Hm : fm_Processed m = false).
    { assert (m ∈ unprocessed (messages s)) as Hin by (rewrite Hu; set_solver).
      by apply list_elem_of_filter in Hin as [? _]. }
    apply list.NoDup_cons in Hnd as [Hnm Hnd].
    assert (Hna : fm_ID m ∉ att) by (apply Hpend; set_solver).
    assert (Hpend' : forall x, x ∈ pending -> fm_ID x ∉ {[fm_ID m]} ∪ att).
    { intros x Hx Hin. apply elem_of_union in Hin as [Hin|Hin].
      - apply Hnm. apply elem_of_singleton in Hin. rewrite <- Hin. by apply list_elem_of_fmap_2.
      - by apply (Hpend x); [set_solver|]. }
    unfold bind, attempt, on_store, on_world, zoom. cbn [reprocess_loop fst snd].
    unfold bind, attempt, on_store, on_world, zoom. cbn [fst snd].
    rewrite Epop. cbn [fst snd]. rewrite Hm, decide_False by done. cbn [fst snd]. rewrite Ep. cbn [fst snd].
    destruct r as [[]|e|why]; cbn [is_ok].
    + specialize (IH fuel ({[fm_ID m]} ∪ att) (S p) f bad (set_messages l1 s) w1).
      rewrite Ee in IH. destruct IH as (l' & E & Hl & Hd & Hle); [simpl in *; lia|simpl; lia|done|done| |done|].
      { intros x Hx. apply elem_of_union_r. by apply Hbad. }
      exists l'. rewrite E. split_and!; [|done|simpl in Hd; congruence|simpl; lia].
      by replace (p + (S (length pending) - length bad'))
        with (S p + (length pending - length bad')) by lia.
    + rewrite Push_room by (simpl; lia). cbn [fst snd].
      specialize (IH fuel ({[fm_ID m]} ∪ att) p (S f) (bad ++ [m]) (set_messages (l1 ++ [m]) s) w1).
      rewrite Ee in IH. destruct IH as (l' & E & Hl & Hd & Hle); [simpl in *; lia| | |done| |done|].
      { simpl. rewrite length_app. simpl. lia. }
      { simpl. rewrite list.filter_app, Hu1, list.filter_cons, list.filter_nil, Hm. simpl. by rewrite app_assoc. }
      { intros x. rewrite elem_of_app, list_elem_of_singleton, elem_of_union.
        intros [Hx|Hx]; [right; by apply Hbad|left; subst; set_solver]. }
      exists l'. rewrite <- app_assoc in Hl. split_and!; [|done| |simpl; lia].
      * replace (set_messages (messages (set_messages l1 s) ++ [m]) (set_messages l1 s))
          with (set_messages (l1 ++ [m]) s) by done.
        rewrite E. cbn [length]. rewrite Nat.sub_succ.
        by replace (f + S (length bad')) with (S f + length bad') by lia.
      * rewrite Hd. simpl. rewrite list.filter_app, Hd1, list.filter_cons, list.filter_nil, Hm. simpl.
        by rewrite app_nil_r.
    + exfalso. apply (no_panic (fm_Channel m) (fm_OriginalMsg m) w why). by rewrite Ep.
Qed.
End reprocess.

(** C4: on a store within its capacity whose waiting messages have distinct
    ids, reprocessing publishes every waiting message exactly once, in queue
    order, and ends within one turn more than there are messages; it reports
    how many were published and how many were refused, keeps the processed
    entries, and leaves exactly the refused messages waiting, the first of
    them moved to the end. *)
Theorem reprocess_all_once {W} `{Publisher W} fuel (s : MemoryStore) (w : W) :
  (forall ch m w why, fst (publish ch m w) <> Panic why) ->
  Count s < fuel -> length (messages s) <= maxSize s ->
  NoDup (map fm_ID (unprocessed (messages s))) ->
  let '(refused, w') := publish_each (unprocessed (messages s)) w in
  exists l', ReprocessAll fuel (s, w) =
      (Ok (Count s - length refused, length refused, None), (set_messages l' s, w')) /\
    unprocessed l' = rotate1 refused /\ done_ones l' = done_ones (messages s).
Proof.
  intros Hnp Hfuel Hsz Hnd.
  pose proof (reprocess_loop_spec Hnp (unprocessed (messages s)) fuel ∅ 0 0 [] s w) as HS.
  destruct (publish_each _ w) as [bad w']. destruct HS as (l' & E & Hl & Hd & _).
  - exact Hfuel.
  - done.
  - by rewrite app_nil_r.
  - done.
  - set_solver.
  - set_solver.
  - exists l'. by split.
Qed.

(** A publisher over a log that refuses the channel "down". *)
Definition flaky_publisher : Publisher (list string) := fun ch m w =>
  (if String.eqb ch "down" then Err (ENew "down") else Ok tt, w ++ [msg_ID m]).
Definition sample_failed (id ch : string) : FailedMessage :=
  mkFailed id (mkMessage id ch "" JNull 0 "") ch (ENew "x") 4 0 false None.

Lemma reprocess_all_once_witness :
  let s := mkStore [sample_failed "a" "up"; sample_failed "b" "down"; sample_failed "c" "down"] 3 in
  exists l', @ReprocessAll _ flaky_publisher 4 (s, [])
    = (Ok (1, 2, None), (set_messages l' s, ["a"; "b"; "c"]%string)) /\ map fm_ID l' = ["c"; "b"]%string.
Proof.
  intros s. assert (Hnp : forall ch m (w : list string) why, fst (@publish _ flaky_publisher ch m w) <> Panic why).
  { intros ch m w why. unfold publish, flaky_publisher. simpl. by destruct (String.eqb ch "down"). }
  destruct (@reprocess_all_once _ flaky_publisher 4 s [] Hnp) as (l' & E & Hu & Hd).
  - vm_compute. lia.
  - simpl. lia.
  - vm_compute. repeat constructor; set_solver.
  - exists l'. split; [exact E|]. vm_compute in E. injection E as <-. reflexivity.
Defined.

(** ** Retrying *)

Definition retryable (e : error) : bool := negb (errors_is e ErrClosed || errors_is e ErrPayloadTooLarge).

Section retrying.
Context {W : Type} `{Publisher W} (ctx_done : nat -> option error) (channel : string) (msg : Message).

(** The world after [n] attempts. *)
Definition after (n : nat) (w : W) : W := Nat.iter n (fun w => snd (publish channel msg w)) w.

Lemma after_S n w : after (S n) w = after n (snd (publish channel msg w)).
Proof. unfold after. by rewrite Nat.iter_succ_r. Qed.

Lemma retry_loop_prefix k : forall turns n last w,
  k <= turns ->
  (forall i, i < k -> exists e, fst (publish channel msg (after i w)) = Err e /\ retryable e = true) ->
  (forall i, 0 < i < n + k -> ctx_done i = None) ->
  exists last', retry_loop ctx_done turns n last channel msg w =
    retry_loop ctx_done (turns - k) (n + k) last' channel msg (after k w) /\
    (k = 0 -> last' = last) /\
    (forall j, k = S j -> last' = match fst (publish channel msg (after j w)) with Err e => Some e | _ => None end).
Proof.
  induction k as [|k IH]; intros turns n last w Hle Hfail Hctx.
  - exists last. rewrite Nat.sub_0_r, Nat.add_0_r. split_and!; [done|done|lia].
  - destruct turns as [|turns]; [lia|].
    destruct (Hfail 0) as (e & He & Hre); [lia|]. simpl in He.
    destruct (IH turns (S n) (Some e) (snd (publish channel msg w))) as (last' & E & H0 & HS); [lia| | |].
    { intros i Hi. rewrite <- after_S. apply Hfail. lia. }
    { intros i Hi. apply Hctx. lia. }
    exists last'. split_and!; [|done|].
    + rewrite after_S. replace (n + S k) with (S n + k) by lia. rewrite Nat.sub_succ, <- E. cbn [retry_loop].
      replace (if n =? 0 then None else ctx_done n) with (@None error).
      2: { destruct (Nat.eqb_spec n 0); [done|]. symmetry. apply Hctx. lia. }
      unfold bind, attempt. destruct (publish channel msg w) as [r w1]. simpl in He |- *. subst r.
      unfold retryable in Hre. apply negb_true_iff in Hre. by rewrite Hre.
    + intros j [= <-]. destruct k as [|k].
      * rewrite H0 by done. simpl. by rewrite He.
      * rewrite (HS k) by done. by rewrite after_S.
Qed.
End retrying.

(** While the context lives, the retrying publisher makes at most
    [MaxRetries + 1] attempts and stops at the first one that settles the
    matter: a success returns nil, a closed bus or an oversized payload returns
    that error at once; when the last attempt fails as well, the failure is
    handed to the dead-letter queue once, with the number of attempts made and
    the last error, and the wrapped last error is returned. *)
Lemma retry_publish_outcome {W} `{Publisher W} ctx_done record cfg channel msg (w : W) k :
  (Z.of_nat k <= MaxRetries cfg)%Z ->
  (forall i, i < k -> exists e, fst (publish channel msg (after channel msg i w)) = Err e /\ retryable e = true) ->
  (forall i, 0 < i <= k -> ctx_done i = None) ->
  let out := Retry_Publish ctx_done record cfg channel msg w in
  match publish channel msg (after channel msg k w) with
  | (Ok _, w') => out = (Ok tt, w')
  | (Panic why, w') => out = (Panic why, w')
  | (Err e, w') =>
      if negb (retryable e) then out = (Err e, w')
      else Z.of_nat k = MaxRetries cfg ->
        out = let failed := Err (EWrap "publish failed after retries" e) in
              match record with
              | None => (failed, w')
              | Some rec =>
                  match rec msg channel e (MaxRetries cfg + 1)%Z w' with
                  | (Panic why, w'') => (Panic why, w'')
                  | (_, w'') => (failed, w'')
                  end
              end
  end.
Proof.
  intros Hk Hfail Hctx out. unfold out, Retry_Publish.
  destruct (retry_loop_prefix ctx_done channel msg k (Z.to_nat (MaxRetries cfg + 1)) 0 None w)
    as (last' & E & _); [lia|done|intros i Hi; apply Hctx; lia|].
  unfold bind. rewrite !E. simpl. clear E.
  set (wk := after channel msg k w).
  assert (Hctxk : (if k =? 0 then None else ctx_done k) = None).
  { destruct (Nat.eqb_spec k 0); [done|]. apply Hctx. lia. }
  destruct (Z.to_nat (MaxRetries cfg + 1) - k) as [|turns] eqn:Et; [lia|].
  simpl. rewrite Hctxk. unfold bind, attempt, retryable.
  destruct (publish channel msg wk) as [[[]|e|why] w'] eqn:Ep; [done| |done].
  destruct (errors_is e ErrClosed || errors_is e ErrPayloadTooLarge); simpl; [done|].
  intros HkM. assert (turns = 0) as -> by lia. simpl.
  destruct record as [rec|]; simpl; [|done].
  destruct (rec msg channel e (MaxRetries cfg + 1)%Z w') as [[]?]; done.
Qed.

