(* ===== verification/World.v ===== *)
(** The shared state of the task pipeline: the task and server storage, the
    message bus and the clock, threaded through the task handler, the
    dispatcher and the reaper.  The two storages and the bus are any
    implementation of their interfaces. *)

From S2P Require Import Prelude.
From S2P Require Import GoNum.
From S2P Require Import Domain.
From S2P Require Import Repositories.
From S2P Require Import PubSub.
From stdpp Require Import base tactics strings list gmap numbers sorting.
From Stdlib Require Import NArith ZArith.

Record World (R V P : Type) : Type := mkWorld {
  w_tasks : R;
  w_servers : V;
  w_bus : P;
  w_clock : N;
}.
Arguments mkWorld {R V P}.
Arguments w_tasks {R V P}.
Arguments w_servers {R V P}.
Arguments w_bus {R V P}.
Arguments w_clock {R V P}.

(** ** What a bus promises *)

(** A published message as a subscriber sees it: channel, type, payload. *)
Definition entry : Type := string * string * json.

Class PublisherLaws (P : Type) `{Publisher P} : Type := {
  bus_log : P -> list entry;
  bus_law : forall ch m p r p', publish ch m p = (r, p') ->
    match r with
    | Ok _ => bus_log p' = bus_log p ++ [(ch, msg_Type m, msg_Payload m)]
    | Err _ => bus_log p' = bus_log p
    | Panic _ => False
    end;
}.

Definition bus_reliable (P : Type) `{Publisher P} : Prop :=
  forall ch m p, is_ok (fst (publish ch m p)) = true.

(** ** Calls of the parts *)

Section world.
Context {R V P : Type} (stamp : N -> Stamp).

Definition on_tasks {A} (m : M R A) : M (World R V P) A :=
  zoom w_tasks (fun r w => mkWorld r (w_servers w) (w_bus w) (w_clock w)) m.
Definition on_servers {A} (m : M V A) : M (World R V P) A :=
  zoom w_servers (fun v w => mkWorld (w_tasks w) v (w_bus w) (w_clock w)) m.
Definition on_bus {A} (m : M P A) : M (World R V P) A :=
  zoom w_bus (fun p w => mkWorld (w_tasks w) (w_servers w) p (w_clock w)) m.

(** The next reading of [time.Now()] and [idgen.New()]. *)
Definition next_stamp : M (World R V P) Stamp := fun w =>
  (Ok (stamp (w_clock w)), mkWorld (w_tasks w) (w_servers w) (w_bus w) (w_clock w + 1)).

Definition find_tasks `{DaemonTaskRepository R} (f : FindDaemonTask) : M (World R V P) (list DaemonTask) :=
  let! w := get in lift (DT_Find (w_tasks w) (Some f) [] None).

Definition save_task `{DaemonTaskRepository R} (t : DaemonTask) : M (World R V P) DaemonTask :=
  let! st := next_stamp in on_tasks (DT_Save (st_now st) t).

(** Build a message and publish it; a failure is logged and dropped. *)
Definition announce `{Publisher P} {T} `{Payload T} (channel msgType : string) (payload : T)
  : M (World R V P) unit :=
  let! st := next_stamp in
  let! msg := lift (NewMessage st channel msgType payload) in
  let! _ := attempt (on_bus (publish channel msg)) in
  ret tt.
End world.

(** ** Effects on the parts *)

Section specs.
Context {R V P : Type}.
Context `{DaemonTaskRepositoryLaws R} `{ServerRepositoryLaws V} `{PublisherLaws P}.

Abbreviation W := (World R V P).

Definition rows (w : W) : gmap N DaemonTask := dt_rows (w_tasks w).
Definition srows (w : W) : gmap N Server := sv_rows (w_servers w).
Definition log (w : W) : list entry := bus_log (w_bus w).
Record inv (w : W) : Prop := mkInv {
  inv_tasks :> dt_inv (w_tasks w);
  inv_servers : sv_inv (w_servers w);
}.

(** A step that keeps the servers, or both storages, keeps the invariant. *)
Lemma inv_step w w' : inv w -> dt_inv (w_tasks w') -> w_servers w' = w_servers w -> inv w'.
Proof. intros [? Hs] ? E. split; [done|by rewrite E]. Qed.
Lemma inv_same w w' : inv w -> w_tasks w' = w_tasks w -> w_servers w' = w_servers w -> inv w'.
Proof. intros [Ht Hs] E1 E2. split; [by rewrite E1|by rewrite E2]. Qed.

Definition ids_filter (ids : list N) : FindDaemonTask := mkFindDaemonTask ids [] [] [] [].
Definition node_filter (node : N) (status : string) : FindDaemonTask :=
  mkFindDaemonTask [] [node] [] [] [status].

Lemma task_matches_id i t : task_matches (ids_filter [i]) t = bool_decide (dt_ID t = i).
Proof.
  unfold task_matches. simpl. rewrite !andb_true_r.
  repeat case_bool_decide; set_solver.
Qed.

Lemma task_matches_node node status t :
  task_matches (node_filter node status) t =
  bool_decide (dt_DedicatedServerID t = node) && bool_decide (dt_Status t = status).
Proof.
  unfold task_matches. simpl. rewrite !andb_true_r.
  repeat case_bool_decide; simpl; set_solver.
Qed.

(** A lookup by id returns the row without its output, or nothing. *)
Lemma find_by_id r i l :
  dt_inv r -> DT_Find r (Some (ids_filter [i])) [] None = Ok l ->
  l = match dt_rows r !! i with Some t => [dt_set_output None t] | None => [] end.
Proof.
  intros Hi E. destruct (dt_find_law r _ l Hi E) as [Hsort Hel].
  assert (Hall : forall t, t ∈ l <-> exists t0, dt_rows r !! i = Some t0 /\ t = dt_set_output None t0).
  { intros t. rewrite Hel. simpl. split.
    - intros (t0 & Ht0 & Hm & ->). rewrite task_matches_id, bool_decide_eq_true in Hm.
      change (dt_ID (dt_set_output None t0)) with (dt_ID t0) in Ht0. rewrite Hm in Ht0. eauto.
    - intros (t0 & Ht0 & ->). destruct (dt_rows_id r i t0 Hi Ht0) as [Hid _].
      exists t0. simpl. rewrite task_matches_id, bool_decide_eq_true, Hid. auto. }
  destruct (dt_rows r !! i) as [t0|].
  - destruct l as [|x l].
    { exfalso. assert (dt_set_output None t0 ∈ []) by (apply Hall; eauto). set_solver. }
    assert (Hx : x = dt_set_output None t0) by (destruct (proj1 (Hall x)) as (? & [= <-] & ->); set_solver).
    subst x. f_equal. destruct l as [|y l]; [done|]. exfalso.
    assert (Hy : y = dt_set_output None t0) by (destruct (proj1 (Hall y)) as (? & [= <-] & ->); set_solver).
    subst y. apply StronglySorted_inv in Hsort as [_ Hs]. inversion Hs; subst. lia.
  - destruct l as [|x l]; [done|]. exfalso. destruct (proj1 (Hall x)) as (? & [=] & _). set_solver.
Qed.

Context (stamp : N -> Stamp).

Lemma wp_announce {T} `{Payload T} ch tp (x : T) (w : W) :
  wp (announce stamp ch tp x) (fun r w' => r = Ok tt /\ w_tasks w' = w_tasks w /\
    w_servers w' = w_servers w /\ (bus_reliable P -> log w' = log w ++ [(ch, tp, to_json x)])) w.
Proof.
  unfold announce. wp_step. unfold wp at 1. simpl.
  repeat (wp_step; simpl). unfold on_bus. wp_step. apply wp_intro. simpl. intros r p' E.
  pose proof (bus_law _ _ _ _ _ E) as Hlaw.
  assert (Hrel : bus_reliable P -> is_ok r = true).
  { intros Hrel. specialize (Hrel ch (mkMessage (st_id (stamp (w_clock w))) ch tp (to_json x)
      (st_now (stamp (w_clock w))) "") (w_bus w)). by rewrite E in Hrel. }
  destruct r; simpl; [|split_and!; try done; intros ?%Hrel; done|done].
  split_and!; done.
Qed.

Lemma wp_save_task t (w : W) :
  inv w -> dt_ID t <> 0%N -> is_Some (rows w !! dt_ID t) ->
  wp (save_task stamp t) (fun r w' => inv w' /\ w_servers w' = w_servers w /\ w_bus w' = w_bus w /\
    (DaemonTaskRepositoryTotal R -> is_ok r = true) /\
    match r with
    | Ok t' => t' = touched (st_now (stamp (w_clock w))) (dt_ID t) t /\
        rows w' = <[dt_ID t := stored_row (rows w !! dt_ID t) t']> (rows w)
    | Err _ => rows w' = rows w
    | Panic _ => False
    end) w.
Proof.
  intros Hi Hid Hrow. unfold save_task. wp_step. unfold wp at 1. simpl.
  unfold on_tasks. wp_step. apply wp_intro. simpl. intros r r' E.
  destruct (dt_save_law _ _ _ _ _ Hi ltac:(by rewrite decide_False) E) as (Hi' & _ & Hlaw).
  assert (Htot : DaemonTaskRepositoryTotal R -> is_ok r = true).
  { intros Htot. pose proof (dt_save_total (st_now (stamp (w_clock w))) t (w_tasks w) Hi) as Hs.
    rewrite decide_False, E in Hs by done. by apply Hs. }
  split_and!; [by apply (inv_step w)|done..|]. destruct r as [t'|e|why]; [|done|done].
  destruct Hlaw as (Ht & Hr & Hid'). rewrite decide_False in Hid' by done. rewrite Hid' in *.
  by split.
Qed.
End specs.

(** ** Concrete parts, for examples *)

(** Servers as a table of rows stored under their own id. *)
Definition own_rows (v : gmap N Server) : gmap N Server := filter (fun x => sv_ID (snd x) = fst x) v.
#[export] Instance mapServers : ServerRepository (gmap N Server) := {
  SV_FindByIDs v ids := Ok (omap (fun i => own_rows v !! i) ids);
  SV_FindByDSID v n := Ok (filter (fun s => sv_DSID s = n) (map snd (map_to_list (own_rows v))));
  SV_Save s v := (Ok tt, <[sv_ID s := s]> v);
}.
#[export, program] Instance mapServers_laws : ServerRepositoryLaws (gmap N Server) := {
  sv_inv _ := True; sv_rows := own_rows;
}.
Next Obligation. intros v i s _. unfold own_rows. by intros [_ ?]%map_lookup_filter_Some. Qed.
Next Obligation. intros v i l _. simpl. intros <-%Ok_inj. by destruct (own_rows v !! i). Qed.
Next Obligation. done. Qed.
Next Obligation.
  intros v n l _ [= <-]. assert (Hid : forall i s, own_rows v !! i = Some s -> sv_ID s = i)
    by (intros i s; unfold own_rows; by intros [_ ?]%map_lookup_filter_Some).
  assert (Hmap : map sv_ID (map snd (map_to_list (own_rows v))) = map fst (map_to_list (own_rows v))).
  { rewrite map_map. apply map_ext_in. intros [i s] Hi%list_elem_of_In. simpl. apply Hid.
    by apply elem_of_map_to_list. }
  split.
  - apply NoDup_map_filter. rewrite Hmap. apply NoDup_fst_map_to_list.
  - intros s. rewrite list_elem_of_filter. split.
    + intros [Hn ([i x] & -> & Hx)%list_elem_of_fmap]. apply elem_of_map_to_list in Hx. simpl in *.
      by rewrite (Hid i x Hx).
    + intros [Hs Hn]. split; [done|]. apply list_elem_of_fmap. exists (sv_ID s, s). split; [done|].
      by apply elem_of_map_to_list.
Qed.
Next Obligation. done. Qed.
Next Obligation.
  intros i s v res v' _ Hs [= <- <-]. split; [done|]. exists (sv_set_installed i s).
  split; [|done]. unfold own_rows. simpl. by rewrite map_filter_insert_True.
Qed.
Lemma mapServers_total : servers_total (gmap N Server).
Proof. done. Qed.

(** A bus that keeps everything published on it. *)
#[export] Instance logBus : Publisher (list entry) :=
  fun ch m l => (Ok tt, l ++ [(ch, msg_Type m, msg_Payload m)]).
#[export, program] Instance logBus_laws : PublisherLaws (list entry) := { bus_log l := l }.
Next Obligation. intros ch m p r p' [= <- <-]. done. Qed.
Lemma logBus_reliable : bus_reliable (list entry).
Proof. done. Qed.
