(* ===== verification/TaskHandler.v ===== *)
(** The gRPC task handler ([internal/grpc/handlers/task_handler.go]): status
    updates and output chunks reported by daemons, the tasks a daemon still has
    to run, and the reconciliation of tasks a daemon dropped.  Proved against
    the repository and publisher interfaces. *)

From S2P Require Import Prelude.
From S2P Require Import GoNum.
From S2P Require Import Domain.
From S2P Require Import Repositories.
From S2P Require Import TaskRepo.
From S2P Require Import Converters.
From S2P Require Import PubSub.
From S2P Require Import World.
From stdpp Require Import base tactics strings list gmap numbers sorting.
From Stdlib Require Import NArith ZArith.

Record TaskStatusUpdate : Type := mkStatusUpdate {
  tu_TaskId : N; tu_Status : ProtoTaskStatus; tu_Message : string;
}.
Record TaskOutput : Type := mkTaskOutput {
  to_TaskId : N; to_OutputChunk : string; to_IsFinal : bool;
}.

Definition AbandonedTaskMessage : string := "Daemon was restarted before task could complete".

Definition isTerminalStatus (status : string) : bool :=
  String.eqb status DaemonTaskStatusSuccess || String.eqb status DaemonTaskStatusError ||
  String.eqb status DaemonTaskStatusCanceled.

Definition resolveInstalledStatus (taskType taskStatus : string) : option Z :=
  if String.eqb taskType DaemonTaskTypeServerInstall then
    if String.eqb taskStatus DaemonTaskStatusWorking then Some ServerInstalledStatusInstallationInProg
    else if String.eqb taskStatus DaemonTaskStatusSuccess then Some ServerInstalledStatusInstalled
    else if String.eqb taskStatus DaemonTaskStatusError || String.eqb taskStatus DaemonTaskStatusCanceled
    then Some ServerInstalledStatusNotInstalled
    else None
  else if String.eqb taskType DaemonTaskTypeServerDelete then
    if String.eqb taskStatus DaemonTaskStatusSuccess then Some ServerInstalledStatusNotInstalled else None
  else None.

Section handler.
Context {R V P : Type} (stamp : N -> Stamp).
Context `{DaemonTaskRepository R} `{ServerRepository V} `{Publisher P}.
(** Whether the optional dependencies are set (non-nil). *)
Context (hasServerRepo hasPublisher : bool).

Abbreviation W := (World R V P).

Definition publishTaskStatus (taskID : N) (status : string) (serverID : N) (message : string) : M W unit :=
  if hasPublisher then
    announce stamp (BuildRealtimeTaskStatusChannel taskID) TypeTaskStatus
      (mkTaskStatusPayload taskID status serverID message)
  else ret tt.

Definition publishTaskComplete (taskID : N) (status : string) (serverID : N) : M W unit :=
  if hasPublisher then
    announce stamp (BuildRealtimeTaskStatusChannel taskID) TypeTaskComplete
      (mkTaskCompletePayload taskID status serverID)
  else ret tt.

Definition publishTaskOutput (taskID : N) (chunk : string) (isFinal : bool) : M W unit :=
  if hasPublisher then
    announce stamp (BuildRealtimeTaskOutputChannel taskID) TypeTaskOutput
      (mkTaskOutputPayload taskID chunk isFinal)
  else ret tt.

Definition updateServerInstalledStatus (task : DaemonTask) : M W unit :=
  match (if hasServerRepo then dt_ServerID task else None) with
  | None => ret tt
  | Some serverID =>
      match resolveInstalledStatus (dt_Task task) (dt_Status task) with
      | None => ret tt
      | Some installed =>
          let! w := get in
          let! found := attempt (lift (SV_FindByIDs (w_servers w) [serverID])) in
          match found with
          | Ok (server :: _) =>
              let! _ := attempt (on_servers (SV_Save (sv_set_installed installed server))) in ret tt
          | _ => ret tt
          end
      end
  end.

Definition HandleTaskStatusUpdate (nodeID : N) (update : TaskStatusUpdate) : M W unit :=
  let status := ProtoTaskStatusToDomain (tu_Status update) in
  let! found := wrap "find task" (find_tasks (ids_filter [tu_TaskId update])) in
  match found with
  | [] => ret tt
  | task :: _ =>
      let! task := wrap "save task status" (save_task stamp (dt_set_status status task)) in
      do! updateServerInstalledStatus task ;;
      do! publishTaskStatus (tu_TaskId update) (dt_Status task) (dt_DedicatedServerID task) (tu_Message update) ;;
      if isTerminalStatus (dt_Status task)
      then publishTaskComplete (tu_TaskId update) (dt_Status task) (dt_DedicatedServerID task)
      else ret tt
  end.

Definition HandleTaskOutput (nodeID : N) (output : TaskOutput) : M W unit :=
  if String.eqb (to_OutputChunk output) "" then ret tt
  else
    do! wrap "append task output" (on_tasks (DT_AppendOutput (to_TaskId output) (to_OutputChunk output))) ;;
    publishTaskOutput (to_TaskId output) (to_OutputChunk output) (to_IsFinal output).

Definition GetPendingTasks (nodeID : N) : M W (list ProtoDaemonTask) :=
  let! found := wrap "find pending tasks" (find_tasks (node_filter nodeID DaemonTaskStatusWaiting)) in
  ret (map DomainDaemonTaskToProto found).

Definition markTaskAbandoned (task : DaemonTask) : M W unit :=
  do! wrap "append abandoned output" (on_tasks (DT_AppendOutput (dt_ID task) AbandonedTaskMessage)) ;;
  let! task := wrap "save task error status"
    (save_task stamp (dt_set_output None (dt_set_status DaemonTaskStatusError task))) in
  do! updateServerInstalledStatus task ;;
  do! publishTaskStatus (dt_ID task) (dt_Status task) (dt_DedicatedServerID task) AbandonedTaskMessage ;;
  publishTaskComplete (dt_ID task) (dt_Status task) (dt_DedicatedServerID task).

Fixpoint reconcile_loop (inFlight : gset N) (ts : list DaemonTask) (marked : nat) : M W nat :=
  match ts with
  | [] => ret marked
  | task :: rest =>
      if decide (dt_ID task ∈ inFlight) then reconcile_loop inFlight rest marked
      else
        let! r := attempt (markTaskAbandoned task) in
        reconcile_loop inFlight rest (if is_ok r then S marked else marked)
  end.

(** A nil and an empty [inFlightIDs] are the same set. *)
Definition ReconcileWorkingTasks (nodeID : N) (inFlightIDs : list N) : M W nat :=
  let! found := wrap "find working tasks" (find_tasks (node_filter nodeID DaemonTaskStatusWorking)) in
  match found with
  | [] => ret 0
  | _ => reconcile_loop (list_to_set inFlightIDs) found 0
  end.
End handler.

(** ** Effects *)

Section specs.
Context {R V P : Type} (stamp : N -> Stamp).
Context `{DaemonTaskRepositoryLaws R} `{ServerRepositoryLaws V} `{PublisherLaws P}.
Context (hasServerRepo hasPublisher : bool).

Abbreviation W := (World R V P).

(** What a published status update leaves on the bus. *)
Definition status_entries (hasPub : bool) (id : N) (status : string) (node : N) (message : string) : list entry :=
  if hasPub then
    (BuildRealtimeTaskStatusChannel id, TypeTaskStatus, to_json (mkTaskStatusPayload id status node message)) ::
    (if isTerminalStatus status then
       [(BuildRealtimeTaskStatusChannel id, TypeTaskComplete, to_json (mkTaskCompletePayload id status node))]
     else [])
  else [].

(** What a status change does to the servers table. *)
Definition install_effect (t : DaemonTask) (before after : gmap N Server) : Prop :=
  match (if hasServerRepo then dt_ServerID t else None), resolveInstalledStatus (dt_Task t) (dt_Status t) with
  | Some sid, Some installed =>
      match before !! sid with
      | Some s => exists s', after = <[sid := s']> before /\ sv_Installed s' = installed /\ sv_DSID s' = sv_DSID s
      | None => after = before
      end
  | _, _ => after = before
  end.

Lemma wp_updateServer t (w : W) :
  sv_inv (w_servers w) ->
  wp (updateServerInstalledStatus hasServerRepo t) (fun r w' =>
    sv_inv (w_servers w') /\ r = Ok tt /\ w_tasks w' = w_tasks w /\ w_bus w' = w_bus w /\
    (install_effect t (srows w) (srows w') \/ (srows w' = srows w /\ ~ servers_total V))) w.
Proof.
  intros Hv. unfold updateServerInstalledStatus, install_effect.
  destruct (if hasServerRepo then dt_ServerID t else None) as [sid|]; [|wp_step; auto 10].
  destruct (resolveInstalledStatus (dt_Task t) (dt_Status t)) as [inst|]; [|wp_step; auto 10].
  repeat wp_step. unfold srows.
  destruct (SV_FindByIDs (w_servers w) [sid]) as [l|e|why] eqn:Ef; simpl.
  - pose proof (sv_find_law _ _ _ Hv Ef) as ->.
    destruct (sv_rows (w_servers w) !! sid) as [s|] eqn:Es; [|wp_step; auto 10].
    repeat wp_step. unfold on_servers. wp_step. apply wp_intro. simpl. intros r v' Esv.
    pose proof (sv_rows_id _ _ _ Hv Es) as Hid. rewrite <- Hid in Es.
    destruct (sv_save_law _ _ _ _ _ Hv Es Esv) as [Hv' Hlaw]. destruct r as [[]|e|why]; [|wp_step|done].
    + split_and!; [done..|]. left. destruct Hlaw as (s' & Hr & Hi & Hd).
      rewrite Hid in Hr. exists s'. by split_and!.
    + split_and!; [done..|]. right. split; [done|]. intros (_ & _ & Ht).
      specialize (Ht (sv_set_installed inst s) (w_servers w)). by rewrite Esv in Ht.
  - wp_step. split_and!; [done..|]. right. split; [done|]. intros [Ht _].
    specialize (Ht (w_servers w) [sid]). by rewrite Ef in Ht.
  - by apply sv_find_nopanic in Ef.
Qed.

Lemma wp_publishes id status node message (w : W) :
  wp (do! publishTaskStatus stamp hasPublisher id status node message ;;
      (if isTerminalStatus status then publishTaskComplete stamp hasPublisher id status node else ret tt))
    (fun r w' => r = Ok tt /\ w_tasks w' = w_tasks w /\ w_servers w' = w_servers w /\
       (bus_reliable P -> log w' = log w ++ status_entries hasPublisher id status node message)) w.
Proof.
  unfold publishTaskStatus, publishTaskComplete, status_entries. wp_step.
  destruct hasPublisher.
  - eapply wp_mono; [apply wp_announce|]. simpl. intros r w' (-> & Ht & Hs & Hl).
    destruct (isTerminalStatus status).
    + eapply wp_mono; [apply wp_announce|]. simpl. intros r w'' (-> & Ht' & Hs' & Hl').
      split_and!; [done|congruence|congruence|]. intros Hrel.
      by rewrite (Hl' Hrel), (Hl Hrel), <- app_assoc.
    + wp_step. split_and!; auto.
  - wp_step. destruct (isTerminalStatus status); wp_step; split_and!; try done; intros _;
      by rewrite app_nil_r.
Qed.

(** The row a status update leaves. *)
Definition updated_row (now : time) (status : string) (row : DaemonTask) : DaemonTask :=
  dt_set_times (dt_CreatedAt row) (Some now) (dt_set_status status row).

(** Saving a found task with a new status keeps the stored output. *)
Lemma saved_row now status id row row1 :
  id <> 0%N -> dt_ID row = id -> dt_Output row1 = dt_Output row ->
  stored_row (Some row1) (touched now id (dt_set_status status (dt_set_output None row)))
  = updated_row now status row.
Proof.
  intros Hid Hr Ho. unfold stored_row, touched, updated_row. simpl.
  rewrite Hr. apply N.eqb_neq in Hid. rewrite Hid. simpl. rewrite Ho.
  destruct row; simpl in *; by subst.
Qed.

Definition update_spec (node : N) (u : TaskStatusUpdate) (w : W) (r : result unit) (w' : W) : Prop :=
  let status := ProtoTaskStatusToDomain (tu_Status u) in
  match rows w !! tu_TaskId u with
  | None => rows w' = rows w /\ srows w' = srows w /\ (is_ok r = true -> w_bus w' = w_bus w)
  | Some row =>
      match r with
      | Ok _ =>
          (exists now, rows w' = <[tu_TaskId u := updated_row now status row]> (rows w)) /\
          (servers_total V -> install_effect (dt_set_status status row) (srows w) (srows w')) /\
          (bus_reliable P -> log w' = log w ++
             status_entries hasPublisher (tu_TaskId u) status (dt_DedicatedServerID row) (tu_Message u))
      | _ => rows w' = rows w /\ srows w' = srows w /\ w_bus w' = w_bus w
      end
  end.

Lemma wp_HandleTaskStatusUpdate node u (w : W) :
  inv w ->
  wp (HandleTaskStatusUpdate stamp hasServerRepo hasPublisher node u) (fun r w' =>
    inv w' /\ (forall why, r <> Panic why) /\ update_spec node u w r w') w.
Proof.
  intros Hinv. unfold HandleTaskStatusUpdate, update_spec, find_tasks. repeat wp_step.
  destruct (DT_Find (w_tasks w) (Some (ids_filter [tu_TaskId u])) [] None) as [l|e|why] eqn:Ef; simpl.
  - pose proof (find_by_id _ _ _ Hinv Ef) as ->. fold (rows w).
    destruct (rows w !! tu_TaskId u) as [row|] eqn:Erow; [|wp_step; auto].
    destruct (dt_rows_id _ _ _ Hinv Erow) as [Hid Hnz].
    repeat wp_step. eapply wp_mono; [eapply wp_save_task|]; [done|by simpl; rewrite Hid|simpl; rewrite Hid; eauto|].
    intros r w1 (Hinv1 & Hs1 & Hb1 & _ & Hr1). simpl in Hr1. rewrite Hid, Erow in Hr1.
    destruct r as [t1|e|why]; cbn [wrap_err]; [|unfold srows; rewrite Hs1; auto|done].
    destruct Hr1 as [Ht1 Hrows1].
    set (now := st_now (stamp (w_clock w))) in *.
    set (status := ProtoTaskStatusToDomain (tu_Status u)) in *.
    rewrite Ht1, saved_row in Hrows1 by done.
    wp_step. eapply wp_mono; [apply wp_updateServer|].
    { apply Hinv1. }
    intros r w2 (Hv2 & -> & Ht2 & Hb2 & Hs2).
    assert (Hdt : dt_Status t1 = status /\ dt_DedicatedServerID t1 = dt_DedicatedServerID row
                  /\ dt_ServerID t1 = dt_ServerID row /\ dt_Task t1 = dt_Task row) by by rewrite Ht1.
    destruct Hdt as (Hst & Hds & Hsv & Hty). rewrite Hst, Hds.
    eapply wp_mono; [apply wp_publishes|]. intros r w3 (-> & Ht3 & Hs3 & Hl3).
    unfold rows, srows, log in *.
    split_and!; [split; [rewrite Ht3, Ht2; apply Hinv1|by rewrite Hs3]|done|exists now; by rewrite Ht3, Ht2| |].
    + intros Htot. destruct Hs2 as [Hs2|[_ Hs2]]; [|done].
      rewrite Hs3, <- Hs1. unfold install_effect in *. simpl.
      by rewrite Hsv, Hty, Hst in Hs2.
    + intros Hrel. by rewrite (Hl3 Hrel), Hb2, Hb1.
  - destruct (rows w !! tu_TaskId u); auto.
  - by apply (dt_find_nopanic _ _ _ Hinv) in Ef.
Qed.

(** ** Abandoned tasks *)

(** What an abandoned task's row becomes. *)
Definition abandoned (now : time) (row : DaemonTask) : DaemonTask :=
  updated_row now DaemonTaskStatusError (append_row AbandonedTaskMessage row).

Lemma append_fields c row :
  dt_ID (append_row c row) = dt_ID row /\ dt_Status (append_row c row) = dt_Status row /\
  dt_DedicatedServerID (append_row c row) = dt_DedicatedServerID row /\
  dt_set_output None (append_row c row) = dt_set_output None row.
Proof. unfold append_row. by destruct (dt_Output row). Qed.

Lemma alter_row (f : DaemonTask -> DaemonTask) (m : gmap N DaemonTask) i row :
  m !! i = Some row -> alter f i m = <[i := f row]> m.
Proof.
  intros Hi. apply map_eq. intros j. rewrite lookup_alter, lookup_insert.
  case_decide; subst; [by rewrite Hi|done].
Qed.

Lemma wp_append i c row (w : W) :
  inv w -> rows w !! i = Some row ->
  wp (on_tasks (DT_AppendOutput i c)) (fun r w' => inv w' /\ w_servers w' = w_servers w /\
    w_bus w' = w_bus w /\ (DaemonTaskRepositoryTotal R -> r = Ok tt) /\
    match r with
    | Ok _ => rows w' = <[i := append_row c row]> (rows w)
    | Err _ => rows w' = rows w
    | Panic _ => False
    end) w.
Proof.
  intros Hinv Hrow. unfold on_tasks. wp_step. apply wp_intro. simpl. intros r r' E.
  destruct (dt_append_law _ _ _ _ _ Hinv E) as (Hinv' & _ & Hlaw).
  split_and!; [by apply (inv_step w)|done..| |].
  - intros Htot. pose proof (dt_append_total i c (w_tasks w) Hinv) as Ha. rewrite E in Ha. by destruct r as [[]| |].
  - destruct r; [|done..]. unfold rows in *. simpl. by rewrite Hlaw, (alter_row _ _ _ row).
Qed.

Lemma wp_markTaskAbandoned row (w : W) :
  inv w -> rows w !! dt_ID row = Some row ->
  wp (markTaskAbandoned stamp hasServerRepo hasPublisher (dt_set_output None row)) (fun r w' =>
    inv w' /\ (forall why, r <> Panic why) /\ (DaemonTaskRepositoryTotal R -> r = Ok tt) /\
    (forall i, i <> dt_ID row -> rows w' !! i = rows w !! i) /\
    (r = Ok tt -> exists now, rows w' !! dt_ID row = Some (abandoned now row)) /\
    (servers_total V -> bus_reliable P -> r = Ok tt ->
      install_effect (dt_set_status DaemonTaskStatusError row) (srows w) (srows w') /\
      log w' = log w ++ status_entries hasPublisher (dt_ID row) DaemonTaskStatusError
                          (dt_DedicatedServerID row) AbandonedTaskMessage)) w.
Proof.
  intros Hinv Hrow. unfold markTaskAbandoned. repeat wp_step.
  destruct (dt_rows_id _ _ _ Hinv Hrow) as [_ Hnz].
  eapply wp_mono; [by apply (wp_append (dt_ID row) AbandonedTaskMessage row)|].
  intros r w1 (Hinv1 & Hs1 & Hb1 & Htot1 & Hr1).
  destruct r as [[]|e|why]; cbn [wrap_err].
  2: { split_and!; [done|done|intros ?%Htot1; done|by rewrite Hr1|done|done]. }
  2: done.
  assert (Hrow1 : rows w1 !! dt_ID row = Some (append_row AbandonedTaskMessage row))
    by by rewrite Hr1, lookup_insert_eq.
  set (row1 := append_row AbandonedTaskMessage row) in *.
  destruct (append_fields AbandonedTaskMessage row) as (Hid1 & _ & Hds1 & Hout1).
  fold row1 in Hid1, Hds1, Hout1.
  repeat wp_step.
  assert (Hsave : dt_set_output None (dt_set_status DaemonTaskStatusError (dt_set_output None row))
                  = dt_set_status DaemonTaskStatusError (dt_set_output None row1)) by by rewrite Hout1.
  rewrite Hsave. eapply wp_mono; [eapply wp_save_task|]; [done|by simpl; rewrite Hid1|simpl; rewrite Hid1; eauto|].
  intros r w2 (Hinv2 & Hs2 & Hb2 & Htot2 & Hr2). simpl in Hr2. rewrite Hid1, Hrow1 in Hr2.
  set (now := st_now (stamp (w_clock w1))) in *.
  destruct r as [t2|e|why]; cbn [wrap_err]; [| |done].
  2: { split_and!; [done|done| |intros i Hi; by rewrite Hr2, Hr1, lookup_insert_ne|done|done].
       intros ?%Htot2. done. }
  destruct Hr2 as [Ht2 Hrows2]. rewrite Ht2, saved_row in Hrows2 by done.
  wp_step. eapply wp_mono; [apply wp_updateServer, Hinv2|]. intros r w3 (Hv3 & -> & Ht3 & Hb3 & Hs3).
  assert (Hdt : dt_Status t2 = DaemonTaskStatusError /\ dt_DedicatedServerID t2 = dt_DedicatedServerID row
                /\ dt_ServerID t2 = dt_ServerID row /\ dt_Task t2 = dt_Task row /\ dt_ID t2 = dt_ID row).
  { rewrite Ht2. simpl. unfold row1, append_row. by destruct (dt_Output row). }
  destruct Hdt as (Hst & Hds & Hsv & Hty & Hid2). rewrite Hst, Hds, Hid2.
  change (publishTaskComplete stamp hasPublisher (dt_ID row) DaemonTaskStatusError (dt_DedicatedServerID row))
    with (if isTerminalStatus DaemonTaskStatusError
          then publishTaskComplete (R:=R) (V:=V) stamp hasPublisher (dt_ID row) DaemonTaskStatusError (dt_DedicatedServerID row)
          else ret tt).
  eapply wp_mono; [apply wp_publishes|]. intros r w4 (-> & Ht4 & Hs4 & Hl4).
  unfold rows, srows, log in *.
  assert (Hrows4 : dt_rows (w_tasks w4) = <[dt_ID row := abandoned now row]> (dt_rows (w_tasks w))).
  { by rewrite Ht4, Ht3, Hrows2, Hr1, insert_insert_eq. }
  split_and!; [split; [rewrite Ht4, Ht3; apply Hinv2|by rewrite Hs4]|done|done| | |].
  - intros i Hi. by rewrite Hrows4, lookup_insert_ne.
  - intros _. exists now. by rewrite Hrows4, lookup_insert_eq.
  - intros Hst' Hrel _. destruct Hs3 as [Hs3|[_ Hs3]]; [|done]. split.
    + rewrite Hs4, <- Hs1, <- Hs2. unfold install_effect in *. simpl. by rewrite Hsv, Hty, Hst in Hs3.
    + by rewrite (Hl4 Hrel), Hb3, Hb2, Hb1.
Qed.

(** ** Reconciliation *)

(** The tasks of a node that its daemon no longer holds. *)
Definition dropped (node : N) (inFlight : list N) (row : DaemonTask) : bool :=
  bool_decide (dt_DedicatedServerID row = node) &&
  bool_decide (dt_Status row = DaemonTaskStatusWorking) &&
  bool_decide (dt_ID row ∉ inFlight).

Abbreviation to_mark inFlight ts := (filter (fun t => dt_ID t ∉ inFlight) ts).

(** Each listed task has the row it was found with. *)
Definition found_rows (ts : list DaemonTask) (w : W) : Prop :=
  forall t, t ∈ ts -> exists row, rows w !! dt_ID t = Some row /\ t = dt_set_output None row.

Lemma wp_reconcile_loop (inFlight : gset N) ts : forall marked (w : W),
  inv w -> NoDup (map dt_ID ts) -> found_rows ts w ->
  wp (reconcile_loop stamp hasServerRepo hasPublisher inFlight ts marked) (fun r w' =>
    inv w' /\ (forall i, i ∉ map dt_ID (to_mark inFlight ts) -> rows w' !! i = rows w !! i) /\
    exists n, r = Ok n /\ n <= marked + length (to_mark inFlight ts) /\
      (DaemonTaskRepositoryTotal R -> n = marked + length (to_mark inFlight ts) /\
        forall t, t ∈ to_mark inFlight ts -> exists now row,
          rows w !! dt_ID t = Some row /\ rows w' !! dt_ID t = Some (abandoned now row))) w.
Proof.
  induction ts as [|t ts IH]; intros marked w Hinv Hnd Hf; simpl.
  - wp_step. split_and!; [done..|]. exists marked. split_and!; [done|simpl; lia|].
    intros _. split; [simpl; lia|set_solver].
  - apply list.NoDup_cons in Hnd as [Hnt Hnd].
    rewrite list.filter_cons. case_decide as Hin.
    { rewrite decide_False by (intros Hn; by apply Hn).
      apply IH; [done|done|]. intros x Hx. apply Hf. set_solver. }
    rewrite decide_True by done. destruct (Hf t) as (row & Hrow & ->); [set_solver|].
    simpl in Hrow, Hin, Hnt |- *. repeat wp_step.
    eapply wp_mono; [by apply wp_markTaskAbandoned|].
    intros r w1 (Hinv1 & Hnp & Htot & Hother & Hok & _).
    assert (Hf1 : found_rows ts w1).
    { intros x Hx. destruct (Hf x) as (rx & Hrx & Ex); [set_solver|].
      exists rx. split; [|done]. rewrite Hother; [done|].
      intros E. apply Hnt. rewrite <- E. by apply list_elem_of_fmap_2. }
    assert (Hgoal : wp (reconcile_loop stamp hasServerRepo hasPublisher inFlight ts
        (if is_ok r then S marked else marked)) (fun r' w' =>
        inv w' /\ (forall i, i ∉ dt_ID row :: map dt_ID (to_mark inFlight ts) -> rows w' !! i = rows w !! i) /\
        exists n, r' = Ok n /\ n <= marked + S (length (to_mark inFlight ts)) /\
          (DaemonTaskRepositoryTotal R -> n = marked + S (length (to_mark inFlight ts)) /\
            forall t, t ∈ dt_set_output None row :: to_mark inFlight ts -> exists now row,
              rows w !! dt_ID t = Some row /\ rows w' !! dt_ID t = Some (abandoned now row))) w1).
    { eapply wp_mono; [by apply IH|]. intros r' w2 (Hinv2 & Hrest & n & -> & Hle & Htot2).
      split_and!; [done| |].
      - intros i Hi. rewrite Hrest, Hother; set_solver.
      - exists n. split_and!; [done|destruct (is_ok r); lia|]. intros Ht. destruct (Htot2 Ht) as [Hn Hall].
        specialize (Htot Ht). rewrite Htot in Hn. simpl in Hn. split; [lia|].
        intros t. rewrite list.elem_of_cons. intros [->|Hx].
        + destruct (Hok Htot) as [now Hnow]. exists now, row. simpl. split; [done|].
          rewrite Hrest; [done|]. intros Hi. apply Hnt.
          apply list_elem_of_fmap in Hi as (y & Hy & Hy2). apply list_elem_of_filter in Hy2 as [_ Hy2].
          change (dt_ID row) with (dt_ID (dt_set_output None row)). simpl. rewrite Hy. by apply list_elem_of_fmap_2.
        + destruct (Hall t Hx) as (now & row' & Hr1 & Hr2). exists now, row'. split; [|done].
          rewrite Hother in Hr1; [done|]. intros E. apply Hnt. rewrite <- E.
          apply list_elem_of_filter in Hx as [_ Hx]. by apply list_elem_of_fmap_2. }
    destruct r as [[]|e|why]; [exact Hgoal|exact Hgoal|by destruct (Hnp why)].
Qed.

Lemma found_node node status r l :
  dt_inv r -> DT_Find r (Some (node_filter node status)) [] None = Ok l ->
  NoDup (map dt_ID l) /\
  (forall t, t ∈ l <-> exists row, dt_rows r !! dt_ID t = Some row /\ t = dt_set_output None row /\
     dt_DedicatedServerID row = node /\ dt_Status row = status).
Proof.
  intros Hinv E. destruct (dt_find_law r _ l Hinv E) as [Hs Hel].
  split; [by apply (sorted_ids_nodup dt_ID)|]. intros t. rewrite Hel. simpl. split.
  - intros (row & Hr & Hm & ->). rewrite task_matches_node in Hm.
    apply andb_true_iff in Hm as [H1'%bool_decide_eq_true H2'%bool_decide_eq_true]. eauto.
  - intros (row & Hr & -> & Hn & Hst). exists row. split_and!; [done| |done].
    rewrite task_matches_node, Hn, Hst. by rewrite !bool_decide_true.
Qed.

Lemma wp_ReconcileWorkingTasks node inFlight (w : W) :
  inv w ->
  wp (ReconcileWorkingTasks stamp hasServerRepo hasPublisher node inFlight) (fun r w' =>
    inv w' /\ (forall why, r <> Panic why) /\
    (forall i row, rows w !! i = Some row -> dropped node inFlight row = false -> rows w' !! i = Some row) /\
    (forall i, rows w !! i = None -> rows w' !! i = None) /\
    (DaemonTaskRepositoryTotal R ->
      r = Ok (size (filter (fun x => dropped node inFlight (snd x) = true) (rows w))) /\
      forall i row, rows w !! i = Some row -> dropped node inFlight row = true ->
        exists now, rows w' !! i = Some (abandoned now row))) w.
Proof.
  intros Hinv. unfold ReconcileWorkingTasks, find_tasks. repeat wp_step.
  destruct (DT_Find (w_tasks w) (Some (node_filter node DaemonTaskStatusWorking)) [] None) as [l|e|why] eqn:Ef; simpl.
  3: by apply (dt_find_nopanic _ _ _ Hinv) in Ef.
  2: { split_and!; [done|done|done|done|]. intros Ht.
       destruct (dt_find_total (w_tasks w) (Some (node_filter node DaemonTaskStatusWorking)) Hinv). congruence. }
  destruct (found_node _ _ _ _ Hinv Ef) as [Hnd Hel]. clear Ef. fold (rows w) in Hel.
  assert (Hdrop : forall i row, rows w !! i = Some row ->
     dropped node inFlight row = true <->
     i ∈ map dt_ID (to_mark (list_to_set (C:=gset N) inFlight) l)).
  { intros i row Hrow. destruct (dt_rows_id _ _ _ Hinv Hrow) as [Hid _].
    unfold dropped. rewrite !andb_true_iff, !bool_decide_eq_true, list_elem_of_fmap. split.
    - intros [[Hn Hst] Hnot]. exists (dt_set_output None row). split; [by simpl|].
      apply list_elem_of_filter. simpl. rewrite elem_of_list_to_set. split; [done|].
      apply Hel. exists row. simpl. by rewrite Hid.
    - intros (t & -> & [Hnot Ht]%list_elem_of_filter). apply Hel in Ht as (row' & Hr' & -> & Hn & Hst).
      simpl in *. rewrite Hr' in Hrow. injection Hrow as ->. rewrite elem_of_list_to_set in Hnot. auto. }
  assert (Hsize : size (filter (fun x => dropped node inFlight (snd x) = true) (rows w))
     = length (to_mark (list_to_set (C:=gset N) inFlight) l)).
  { rewrite <- (length_map dt_ID), <- size_dom.
    rewrite <- (size_list_to_set (C:=gset N) (map dt_ID (to_mark (list_to_set inFlight) l))).
    - f_equal. apply set_eq. intros i. rewrite elem_of_dom, elem_of_list_to_set. split.
      + intros [row [Hr Hd]%map_lookup_filter_Some]. by apply (Hdrop i row Hr).
      + intros Hi. pose proof Hi as Hi'. apply list_elem_of_fmap in Hi' as (t & Et & Ht%list_elem_of_filter).
        destruct Ht as [_ (row & Hr & _)%Hel]. rewrite <- Et in Hr.
        exists row. apply map_lookup_filter_Some. split; [done|]. simpl. by apply (Hdrop i row).
    - by apply NoDup_map_filter. }
  assert (Hf : found_rows l w).
  { intros t (row & Hr & -> & _)%Hel. exists row. auto. }
  pose proof (wp_reconcile_loop (list_to_set inFlight) l 0 w Hinv Hnd Hf) as Hloop.
  assert (Hres : wp (reconcile_loop stamp hasServerRepo hasPublisher (list_to_set inFlight) l 0) (fun r w' =>
    inv w' /\ (forall why, r <> Panic why) /\
    (forall i row, rows w !! i = Some row -> dropped node inFlight row = false -> rows w' !! i = Some row) /\
    (forall i, rows w !! i = None -> rows w' !! i = None) /\
    (DaemonTaskRepositoryTotal R ->
      r = Ok (size (filter (fun x => dropped node inFlight (snd x) = true) (rows w))) /\
      forall i row, rows w !! i = Some row -> dropped node inFlight row = true ->
        exists now, rows w' !! i = Some (abandoned now row))) w).
  { eapply wp_mono; [exact Hloop|]. intros r w' (Hinv' & Hother & n & -> & _ & Htot).
    split_and!; [done|done| | |].
    - intros i row Hr Hd. rewrite Hother; [done|]. rewrite <- (Hdrop i row Hr), Hd. done.
    - intros i Hi. rewrite Hother; [done|]. rewrite list_elem_of_fmap.
      intros (t & -> & [_ (row & Hr & _)%Hel]%list_elem_of_filter). congruence.
    - intros Ht. destruct (Htot Ht) as [-> Hall]. rewrite Hsize. split; [done|].
      intros i row Hr Hd. apply (Hdrop i row Hr) in Hd.
      apply list_elem_of_fmap in Hd as (t & -> & Ht').
      destruct (Hall t Ht') as (now & row' & Hr1 & Hr2). exists now. congruence. }
  by destruct l.
Qed.

(** ** Output *)

Definition output_entries (o : TaskOutput) : list entry :=
  if hasPublisher && negb (String.eqb (to_OutputChunk o) "") then
    [(BuildRealtimeTaskOutputChannel (to_TaskId o), TypeTaskOutput,
      to_json (mkTaskOutputPayload (to_TaskId o) (to_OutputChunk o) (to_IsFinal o)))]
  else [].

Lemma wp_HandleTaskOutput node o row (w : W) :
  inv w -> rows w !! to_TaskId o = Some row ->
  wp (HandleTaskOutput stamp hasPublisher node o) (fun r w' =>
    inv w' /\ w_servers w' = w_servers w /\ (DaemonTaskRepositoryTotal R -> r = Ok tt) /\
    match r with
    | Ok _ => rows w' = <[to_TaskId o :=
                 if String.eqb (to_OutputChunk o) "" then row
                 else append_row (to_OutputChunk o) row]> (rows w) /\
              (bus_reliable P -> log w' = log w ++ output_entries o)
    | Err _ => rows w' = rows w /\ w_bus w' = w_bus w
    | Panic _ => False
    end) w.
Proof.
  intros Hinv Hrow. unfold HandleTaskOutput, output_entries.
  destruct (String.eqb (to_OutputChunk o) "") eqn:Ec.
  - wp_step. rewrite insert_id by done. rewrite andb_false_r, app_nil_r. auto.
  - repeat wp_step. eapply wp_mono; [by apply (wp_append _ _ row)|].
    intros r w1 (Hinv1 & Hs1 & Hb1 & Htot1 & Hr1).
    destruct r as [[]|e|why]; cbn [wrap_err]; [| |done].
    + unfold publishTaskOutput. destruct hasPublisher; simpl.
      * eapply wp_mono; [apply wp_announce|]. intros r w2 (-> & Ht2 & Hs2 & Hl2).
        unfold rows, log in *. rewrite Ht2. split_and!; [by apply (inv_same w1)|congruence|done|done|].
        intros Hrel. by rewrite (Hl2 Hrel), Hb1.
      * wp_step. unfold log. split_and!; [done|done|done|done|]. intros _. by rewrite app_nil_r, Hb1.
    + split_and!; [done|done|intros ?%Htot1; done|done|done].
Qed.
End specs.

(** ** Properties *)

Section properties.
Context {R V P : Type} (stamp : N -> Stamp).
Context `{DaemonTaskRepositoryLaws R} `{ServerRepositoryLaws V} `{PublisherLaws P}.
Context (hasServerRepo hasPublisher : bool).

(** C5: a status report changes the reported task only: its row gets the
    decoded status and a fresh update time and keeps its output and every other
    column; an install or delete task moves the server's installed state by
    [resolveInstalledStatus]; the status, and for a terminal status the
    completion, are announced in that order.  A failing task store leaves
    everything as it was, a report about an unknown task changes nothing.  The
    reporting node is not compared with the task's node. *)
Theorem status_update_effect node u (w : World R V P) :
  inv w ->
  let '(r, w') := HandleTaskStatusUpdate stamp hasServerRepo hasPublisher node u w in
  inv w' /\ (forall why, r <> Panic why) /\ update_spec hasServerRepo hasPublisher node u w r w' /\
  forall node', HandleTaskStatusUpdate stamp hasServerRepo hasPublisher node' u w = (r, w').
Proof.
  intros Hinv. pose proof (wp_HandleTaskStatusUpdate stamp hasServerRepo hasPublisher node u w Hinv) as Hwp.
  destruct (HandleTaskStatusUpdate _ _ _ node u w) as [r w'] eqn:E.
  pose proof (wp_run _ _ _ _ _ Hwp E) as (H6 & H7 & H8). split_and!; [done|done|done|].
  intros node'. exact E.
Qed.

(** The pending tasks handed to a daemon are the waiting tasks of its node
    and no others, in ascending id order, without their output, and asking for
    them changes nothing. *)
Lemma pending_tasks_exact node (w : World R V P) l w' :
  inv w -> GetPendingTasks node w = (Ok l, w') ->
  w' = w /\ StronglySorted (fun a b => pt_Id a < pt_Id b)%N l /\
  forall p, p ∈ l <-> exists row, rows w !! pt_Id p = Some row /\
    dt_DedicatedServerID row = node /\ dt_Status row = DaemonTaskStatusWaiting /\
    p = DomainDaemonTaskToProto (dt_set_output None row).
Proof.
  intros Hinv. unfold GetPendingTasks, find_tasks, bind, wrap, get, lift, ret.
  destruct (DT_Find (w_tasks w) (Some (node_filter node DaemonTaskStatusWaiting)) [] None) as [ts| |] eqn:Ef;
    simpl; [|done|done].
  intros E. injection E as <- <-. split; [done|].
  destruct (found_node _ _ _ _ Hinv Ef) as [_ Hel]. destruct (dt_find_law _ _ _ Hinv Ef) as [Hs _]. split.
  - clear -Hs. induction Hs as [|t ts Hs IH Ht]; simpl; constructor; [done|].
    clear -Ht. induction Ht; simpl; constructor; auto.
  - intros p. rewrite list_elem_of_fmap. split.
    + intros (t & -> & (row & Hr & -> & Hn & Hst)%Hel). exists row. auto.
    + intros (row & Hr & Hn & Hst & ->). exists (dt_set_output None row). split; [done|].
      apply Hel. exists row. auto.
Qed.

(** Reconciling a node turns every task that its daemon no longer holds
    from working into error, with the abandonment note appended to its output,
    counts them, and touches no other task, whatever is stored and whichever
    calls of the stores fail; with a task store that does not fail it returns
    the number of dropped tasks. *)
Lemma reconcile_marks_dropped node inFlight (w : World R V P) :
  inv w ->
  let '(r, w') := ReconcileWorkingTasks stamp hasServerRepo hasPublisher node inFlight w in
  inv w' /\
  (forall i row, rows w !! i = Some row -> dropped node inFlight row = false -> rows w' !! i = Some row) /\
  (forall i, rows w !! i = None -> rows w' !! i = None) /\
  (DaemonTaskRepositoryTotal R ->
    r = Ok (size (filter (fun x => dropped node inFlight (snd x) = true) (rows w))) /\
    forall i row, rows w !! i = Some row -> dropped node inFlight row = true ->
      exists now, rows w' !! i = Some (abandoned now row)).
Proof.
  intros Hinv. pose proof (wp_ReconcileWorkingTasks stamp hasServerRepo hasPublisher node inFlight w Hinv) as Hwp.
  destruct (ReconcileWorkingTasks _ _ _ node inFlight w) as [r w'] eqn:E.
  pose proof (wp_run _ _ _ _ _ Hwp E) as (H6 & _ & H8 & H9 & H10). auto.
Qed.

Lemma append_concat row (c : string) :
  default ""%string (dt_Output (if String.eqb c "" then row else append_row c row))
  = default ""%string (dt_Output row) +:+ c /\
  dt_set_output None (if String.eqb c "" then row else append_row c row) = dt_set_output None row.
Proof.
  destruct (String.eqb_spec c "") as [->|Hc].
  - split; [|done]. induction (default ""%string (dt_Output row)) as [|a s IH]; [done|].
    by rewrite String_app, <- IH.
  - unfold append_row. by destruct (dt_Output row) as [o|].
Qed.

(** The output chunks a daemon streams for a task end up in its output in
    the order they were handled, nothing lost, repeated or reordered, empty
    chunks included, and each non-empty chunk is announced once, in order. *)
Lemma output_stream_concatenates node i outs row (w : World R V P) :
  DaemonTaskRepositoryTotal R -> bus_reliable P ->
  inv w -> rows w !! i = Some row -> (forall o, o ∈ outs -> to_TaskId o = i) ->
  let '(r, w') := for_each outs (HandleTaskOutput stamp hasPublisher node) w in
  r = Ok tt /\ log w' = log w ++ flat_map (output_entries hasPublisher) outs /\
  exists row', rows w' = <[i := row']> (rows w) /\
    dt_set_output None row' = dt_set_output None row /\
    default ""%string (dt_Output row') =
      foldl (fun acc o => acc +:+ to_OutputChunk o) (default ""%string (dt_Output row)) outs.
Proof.
  intros Htot Hrel Hinv Hrow Houts.
  assert (Hwp : wp (for_each outs (HandleTaskOutput stamp hasPublisher node)) (fun r w' =>
    r = Ok tt /\ log w' = log w ++ flat_map (output_entries hasPublisher) outs /\
    exists row', rows w' = <[i := row']> (rows w) /\ dt_set_output None row' = dt_set_output None row /\
      default ""%string (dt_Output row') =
        foldl (fun acc o => acc +:+ to_OutputChunk o) (default ""%string (dt_Output row)) outs) w).
  { apply (wp_for_each (fun done w' => inv w' /\
      log w' = log w ++ flat_map (output_entries hasPublisher) done /\
      exists row', rows w' = <[i := row']> (rows w) /\ dt_set_output None row' = dt_set_output None row /\
        default ""%string (dt_Output row') =
          foldl (fun acc o => acc +:+ to_OutputChunk o) (default ""%string (dt_Output row)) done)) with (done := []).
    - split; [done|]. simpl. rewrite app_nil_r. split; [done|]. exists row. by rewrite insert_id.
    - simpl. intros pre o w1 (Hi1 & Hl1 & row1 & Hr1 & Hm1 & Ho1) Ho.
      eapply wp_mono; [apply (wp_HandleTaskOutput stamp hasPublisher node o row1)|].
      + done.
      + by rewrite Hr1, (Houts o Ho), lookup_insert_eq.
      + intros r w2 (Hi2 & _ & Hok & Hspec). rewrite (Hok Htot) in *. destruct Hspec as [Hr2 Hl2].
        destruct (append_concat row1 (to_OutputChunk o)) as [Hcat Hkeep]. split_and!; [done| |].
        * rewrite (Hl2 Hrel), Hl1, flat_map_app. simpl. by rewrite app_nil_r, app_assoc.
        * eexists. split; [by rewrite Hr2, Hr1, (Houts o Ho), insert_insert_eq|].
          by rewrite Hcat, Hkeep, foldl_app, Ho1.
    - simpl. intros w1 (_ & Hl & Hex). auto. }
  destruct (for_each outs _ w) as [r w'] eqn:E. exact (wp_run _ _ _ _ _ Hwp E).
Qed.
End properties.

(** ** Examples *)

Definition sample_stamp (n : N) : Stamp := mkStamp (FormatUint n) (Z.of_N n).
Definition sample_world : World memTaskRepo (gmap N Server) (list entry) :=
  mkWorld sample_repo ∅ [] 100.

Lemma sample_world_inv : inv sample_world.
Proof. split; [exact (task_reachable_inv sample_repo sample_reachable)|exact I]. Defined.

Lemma status_update_effect_witness :
  let '(r, w') := HandleTaskStatusUpdate sample_stamp true true 7
    (mkStatusUpdate 2 TASK_STATUS_SUCCESS "done") sample_world in
  r = Ok tt /\ option_map dt_Status (rows w' !! 2%N) = Some DaemonTaskStatusSuccess /\
  option_map dt_Output (rows w' !! 2%N) = Some (Some "log"%string) /\ length (log w') = 2 /\ inv w'.
Proof.
  pose proof (status_update_effect sample_stamp true true 7
    (mkStatusUpdate 2 TASK_STATUS_SUCCESS "done") sample_world sample_world_inv) as H.
  destruct (HandleTaskStatusUpdate _ _ _ 7 _ sample_world) as [r w'] eqn:E.
  destruct H as [Hi _]. vm_compute in E. injection E as <- <-. split_and!; [reflexivity..|exact Hi].
Defined.

