(* ===== verification/Reaper.v ===== *)
(** The task reaper ([internal/services/taskreaper/reaper.go]): the periodic
    sweep that gives up on working tasks of nodes that are not connected to any
    panel instance.  The session registry answers through a parameter, the
    reconciler is the task handler, as the application wires it. *)

From S2P Require Import Prelude.
From S2P Require Import GoNum.
From S2P Require Import Domain.
From S2P Require Import Repositories.
From S2P Require Import TaskRepo.
From S2P Require Import PubSub.
From S2P Require Import World.
From S2P Require Import TaskHandler.
From stdpp Require Import base tactics strings list gmap numbers sorting.
From Stdlib Require Import NArith ZArith.

Record Options : Type := mkOptions { Interval : Z; StaleThreshold : Z }.

Definition defaultInterval : Z := minute.
Definition defaultStaleThreshold : Z := 10 * minute.

Definition applyDefaults (o : Options) : Options :=
  mkOptions (if (Interval o <=? 0)%Z then defaultInterval else Interval o)
    (if (StaleThreshold o <=? 0)%Z then defaultStaleThreshold else StaleThreshold o).

Definition status_filter (status : string) : FindDaemonTask := mkFindDaemonTask [] [] [] [] [status].

(** [task.UpdatedAt != nil && task.UpdatedAt.After(cutoff)] *)
Definition fresh (cutoff : time) (t : DaemonTask) : bool :=
  match dt_UpdatedAt t with Some u => (cutoff <? u)%Z | None => false end.

Definition abandonedNodes (connected : N -> bool) (cutoff : time) (ts : list DaemonTask) : gset N :=
  foldl (fun acc t =>
    if connected (dt_DedicatedServerID t) then acc
    else if fresh cutoff t then acc
    else {[dt_DedicatedServerID t]} ∪ acc) ∅ ts.

Section reaper.
Context {R V P : Type} (stamp : N -> Stamp).
Context `{DaemonTaskRepository R} `{ServerRepository V} `{Publisher P}.
Context (hasServerRepo hasPublisher : bool) (opts : Options) (IsConnectedAnywhere : N -> bool).

(** A node whose reconciliation fails is logged and skipped. *)
Definition Sweep : M (World R V P) unit :=
  let! found := wrap "find working tasks" (find_tasks (status_filter DaemonTaskStatusWorking)) in
  match found with
  | [] => ret tt
  | _ =>
      let! st := next_stamp stamp in
      let cutoff := (st_now st - StaleThreshold (applyDefaults opts))%Z in
      for_each (elements (abandonedNodes IsConnectedAnywhere cutoff found)) (fun node =>
        let! _ := attempt (ReconcileWorkingTasks stamp hasServerRepo hasPublisher node []) in ret tt)
  end.
End reaper.

(** ** Properties *)

Lemma elem_of_abandoned connected cutoff ts n :
  n ∈ abandonedNodes connected cutoff ts <->
  connected n = false /\ exists t, t ∈ ts /\ dt_DedicatedServerID t = n /\ fresh cutoff t = false.
Proof.
  unfold abandonedNodes.
  assert (Hacc : forall acc : gset N,
    n ∈ foldl (fun acc t => if connected (dt_DedicatedServerID t) then acc
      else if fresh cutoff t then acc else {[dt_DedicatedServerID t]} ∪ acc) acc ts
    <-> n ∈ acc \/ (connected n = false /\ exists t, t ∈ ts /\ dt_DedicatedServerID t = n /\ fresh cutoff t = false)).
  { induction ts as [|t ts IH]; intros acc; simpl.
    - split; [by left|]. intros [?|(_ & t & Ht & _)]; [done|]. by apply list.elem_of_nil in Ht.
    - rewrite IH. setoid_rewrite list.elem_of_cons.
      destruct (connected (dt_DedicatedServerID t)) eqn:Hc; [|destruct (fresh cutoff t) eqn:Hf].
      + split; [naive_solver|]. intros [?|(Hn & t' & [->|?] & <- & ?)]; [tauto|congruence|naive_solver].
      + split; [naive_solver|]. intros [?|(Hn & t' & [->|?] & <- & ?)]; [tauto|congruence|naive_solver].
      + rewrite elem_of_union, elem_of_singleton. split.
        * intros [[->|?]|?]; naive_solver.
        * intros [?|(Hn & t' & [->|?] & <- & ?)]; [tauto|tauto|naive_solver]. }
  rewrite Hacc. set_solver.
Qed.

Section specs.
Context {R V P : Type} (stamp : N -> Stamp).
Context `{DaemonTaskRepositoryLaws R} `{ServerRepositoryLaws V} `{PublisherLaws P}.
Context (hasServerRepo hasPublisher : bool) (opts : Options) (connected : N -> bool).

Abbreviation W := (World R V P).

Definition working (row : DaemonTask) : bool := bool_decide (dt_Status row = DaemonTaskStatusWorking).

(** Exactly the working tasks of the given nodes were given up. *)
Definition swept (nodes : N -> Prop) (w w' : W) : Prop :=
  forall i, match rows w !! i with
  | None => rows w' !! i = None
  | Some row =>
      (working row = true /\ nodes (dt_DedicatedServerID row) /\ exists now, rows w' !! i = Some (abandoned now row))
      \/ (~ (working row = true /\ nodes (dt_DedicatedServerID row)) /\ rows w' !! i = Some row)
  end.

Lemma dropped_all node row :
  dropped node [] row = bool_decide (dt_DedicatedServerID row = node) && working row.
Proof.
  unfold dropped, working. rewrite (bool_decide_true (dt_ID row ∉ [])); [|set_solver].
  by rewrite andb_true_r.
Qed.

Lemma abandoned_fields now row :
  dt_Status (abandoned now row) = DaemonTaskStatusError /\
  dt_DedicatedServerID (abandoned now row) = dt_DedicatedServerID row.
Proof. unfold abandoned, append_row. by destruct (dt_Output row). Qed.

Lemma swept_step (nodes : list N) node (w w1 w2 : W) :
  swept (fun n => n ∈ nodes) w w1 ->
  (forall i row, rows w1 !! i = Some row -> dropped node [] row = false -> rows w2 !! i = Some row) ->
  (forall i, rows w1 !! i = None -> rows w2 !! i = None) ->
  (forall i row, rows w1 !! i = Some row -> dropped node [] row = true ->
    exists now, rows w2 !! i = Some (abandoned now row)) ->
  swept (fun n => n ∈ nodes ++ [node]) w w2.
Proof.
  intros H1' Hkeep Hnone Hdrop i. specialize (H1' i). destruct (rows w !! i) as [row|]; [|by apply Hnone].
  destruct H1' as [(Hw & Hn & now & Hr)|(Hno & Hr)].
  - left. split_and!; [done|set_solver|]. exists now. apply Hkeep; [done|].
    rewrite dropped_all. unfold working. destruct (abandoned_fields now row) as [-> _].
    by rewrite andb_false_r.
  - destruct (dropped node [] row) eqn:Hd.
    + destruct (Hdrop i row Hr Hd) as [now Hr2]. rewrite dropped_all in Hd.
      apply andb_true_iff in Hd as [Hn%bool_decide_eq_true Hw].
      left. split_and!; [done|set_solver|eauto].
    + right. split; [|by apply Hkeep]. intros [Hw Hn].
      rewrite dropped_all, Hw, andb_true_r, bool_decide_eq_false in Hd.
      apply Hno. split; [done|]. set_solver.
Qed.

(** Nodes that are connected nowhere and have a stale working task. *)
Definition stale_node (cutoff : time) (w : W) (n : N) : Prop :=
  connected n = false /\ exists i row, rows w !! i = Some row /\ working row = true /\
    dt_DedicatedServerID row = n /\ fresh cutoff row = false.

Lemma task_matches_status status t :
  task_matches (status_filter status) t = bool_decide (dt_Status t = status).
Proof. unfold task_matches. simpl. case_bool_decide; case_bool_decide; set_solver. Qed.

(** With a task store that does not fail, one sweep turns into errors
    exactly the working tasks of the nodes that no panel instance holds and
    that have at least one working task not updated within the threshold (ten
    minutes by default), keeping every other row as it was.  So a connected
    node's tasks are never given up, no stale task of a disconnected node
    survives the sweep, and a fresh task of such a node is given up with it. *)
Lemma sweep_gives_up_stale_nodes (w : W) :
  DaemonTaskRepositoryTotal R -> inv w ->
  let '(r, w') := Sweep stamp hasServerRepo hasPublisher opts connected w in
  r = Ok tt /\ inv w' /\
  swept (stale_node (st_now (stamp (w_clock w)) - StaleThreshold (applyDefaults opts)) w) w w'.
Proof.
  intros Htot Hinv.
  set (cutoff := (st_now (stamp (w_clock w)) - StaleThreshold (applyDefaults opts))%Z).
  assert (Hwp : wp (Sweep stamp hasServerRepo hasPublisher opts connected)
    (fun r w' => r = Ok tt /\ inv w' /\ swept (stale_node cutoff w) w w') w).
  { unfold Sweep, find_tasks. repeat wp_step.
    destruct (dt_find_total (w_tasks w) (Some (status_filter DaemonTaskStatusWorking)) Hinv) as [l Ef].
    rewrite Ef. simpl. destruct (dt_find_law _ _ _ Hinv Ef) as [_ Hel].
    assert (Hstale : forall n, stale_node cutoff w n <-> n ∈ elements (abandonedNodes connected cutoff l)).
    { intros n. rewrite elem_of_elements, elem_of_abandoned. unfold stale_node. f_equiv. split.
      - intros (i & row & Hr & Hw & Hn & Hf). destruct (dt_rows_id _ _ _ Hinv Hr) as [Hid _].
        exists (dt_set_output None row). split; [|done]. apply Hel. exists row. simpl.
        rewrite task_matches_status, Hid. auto.
      - intros (t & Ht & Hn & Hf). apply Hel in Ht as (row & Hr & Hm & ->). simpl in *.
        rewrite task_matches_status in Hm. eauto 10. }
    assert (Hloop : wp (for_each (elements (abandonedNodes connected cutoff l)) (fun node =>
        let! _ := attempt (ReconcileWorkingTasks stamp hasServerRepo hasPublisher node []) in ret tt))
      (fun r w' => r = Ok tt /\ inv w' /\ swept (stale_node cutoff w) w w')
      (mkWorld (w_tasks w) (w_servers w) (w_bus w) (w_clock w + 1))).
    { apply (wp_for_each (fun done w' => inv w' /\ swept (fun n => n ∈ done) w w')) with (done := []).
      - split; [by apply (inv_same w)|]. intros i. destruct (rows w !! i) eqn:E; [|done]. right. split; [|done].
        intros [_ Hn]. by apply list.elem_of_nil in Hn.
      - simpl. intros pre node w1 (Hinv1 & Hsw) _. repeat wp_step.
        eapply wp_mono; [exact (wp_ReconcileWorkingTasks stamp hasServerRepo hasPublisher node [] w1 Hinv1)|].
        intros r w2 (Hinv2 & Hnp & Hkeep & Hnone & Ht).
        destruct (Ht Htot) as [-> Hdrop]. wp_step. split; [done|].
        eapply swept_step; eauto.
      - simpl. intros w1 (Hinv1 & Hsw). split_and!; [done|done|].
        intros i. specialize (Hsw i). destruct (rows w !! i) as [row|]; [|done].
        rewrite Hstale. exact Hsw. }
    destruct l as [|t l]; [|wp_step; exact Hloop]. wp_step. split_and!; [done|by apply (inv_same w)|].
    intros i. destruct (rows w !! i) as [row|] eqn:E; [|done]. right. split; [|done].
    rewrite Hstale. by intros [_ Hn%list.elem_of_nil]. }
  destruct (Sweep _ _ _ _ _ w) as [r w'] eqn:E. exact (wp_run _ _ _ _ _ Hwp E).
Qed.
End specs.

