(* ===== verification/Session.v ===== *)
(** A daemon session ([internal/grpc/session/session.go]): the outgoing stream
    of one connected daemon and the requests waiting for its answers.  The
    channels a session hands out are kept with it, numbered in creation order;
    each is a Go channel of capacity one.  The daemon's messages and the
    behaviour of the gRPC stream are parameters. *)

From S2P Require Import Prelude.
From S2P Require Import GoNum.
From S2P Require Import Domain.
From S2P Require Import Converters.
From stdpp Require Import base tactics strings list gmap numbers relations.
From Stdlib Require Import NArith ZArith.

(** ** Channels of capacity one *)

Record Chan (D : Type) : Type := mkChan { ch_buf : option D; ch_closed : bool }.
Arguments mkChan {D}.
Arguments ch_buf {D}.
Arguments ch_closed {D}.

(** [select { case ch <- v: default: }] and [close(ch)] panic on a closed
    channel. *)
Definition chan_try_send {D} (v : D) (c : Chan D) : result (Chan D) :=
  if ch_closed c then Panic "send on closed channel"
  else match ch_buf c with
       | None => Ok (mkChan (Some v) false)
       | Some _ => Ok c
       end.
Definition chan_close {D} (c : Chan D) : result (Chan D) :=
  if ch_closed c then Panic "close of closed channel" else Ok (mkChan (ch_buf c) true).

(** [v, ok := <-ch]: [None] while the receiver would block. *)
Definition chan_recv {D} (c : Chan D) : option (option D * Chan D) :=
  match ch_buf c with
  | Some v => Some (Some v, mkChan None (ch_closed c))
  | None => if ch_closed c then Some (None, c) else None
  end.

(** ** Sessions *)

Record Session (D : Type) : Type := mkSession {
  se_NodeID : N;
  se_Version : string;
  se_Capabilities : list string;
  se_ConnectedAt : time;
  se_lastPing : time;
  se_hasCancel : bool;
  se_cancelled : bool;
  se_sent : list GatewayMessage;
  se_pendingReqs : gmap string N;
  se_chans : gmap N (Chan D);
  se_nextChan : N;
}.
Arguments mkSession {D}.
Arguments se_NodeID {D}.
Arguments se_Version {D}.
Arguments se_Capabilities {D}.
Arguments se_ConnectedAt {D}.
Arguments se_lastPing {D}.
Arguments se_hasCancel {D}.
Arguments se_cancelled {D}.
Arguments se_sent {D}.
Arguments se_pendingReqs {D}.
Arguments se_chans {D}.
Arguments se_nextChan {D}.

Section session.
Context {D : Type}.
(** Whether the stream of a session takes a message, and with which error not. *)
Context (stream_err : Session D -> GatewayMessage -> option error).

Definition NewSession (now : time) (nodeID : N) (version : string) (capabilities : list string)
  (hasCancel : bool) : Session D :=
  mkSession nodeID version capabilities now now hasCancel false [] ∅ ∅ 0.

Definition se_set_sent (l : list GatewayMessage) (s : Session D) : Session D :=
  mkSession (se_NodeID s) (se_Version s) (se_Capabilities s) (se_ConnectedAt s) (se_lastPing s)
    (se_hasCancel s) (se_cancelled s) l (se_pendingReqs s) (se_chans s) (se_nextChan s).
Definition se_set_cancelled (b : bool) (s : Session D) : Session D :=
  mkSession (se_NodeID s) (se_Version s) (se_Capabilities s) (se_ConnectedAt s) (se_lastPing s)
    (se_hasCancel s) b (se_sent s) (se_pendingReqs s) (se_chans s) (se_nextChan s).
Definition se_set_lastPing (t : time) (s : Session D) : Session D :=
  mkSession (se_NodeID s) (se_Version s) (se_Capabilities s) (se_ConnectedAt s) t
    (se_hasCancel s) (se_cancelled s) (se_sent s) (se_pendingReqs s) (se_chans s) (se_nextChan s).
Definition se_set_pending (p : gmap string N) (c : gmap N (Chan D)) (n : N) (s : Session D) : Session D :=
  mkSession (se_NodeID s) (se_Version s) (se_Capabilities s) (se_ConnectedAt s) (se_lastPing s)
    (se_hasCancel s) (se_cancelled s) (se_sent s) p c n.

Definition Send (msg : GatewayMessage) : M (Session D) unit := fun s =>
  match stream_err s msg with
  | Some e => (Err e, s)
  | None => (Ok tt, se_set_sent (se_sent s ++ [msg]) s)
  end.

Definition UpdateLastPing (now : time) : M (Session D) unit := modify (se_set_lastPing now).
Definition LastPing (s : Session D) : time := se_lastPing s.

Definition Cancel (s : Session D) : Session D :=
  if se_hasCancel s then se_set_cancelled true s else s.

Definition HasCapability (capability : string) (s : Session D) : bool :=
  bool_decide (capability ∈ se_Capabilities s).

Definition RegisterPendingRequest (requestID : string) : M (Session D) N := fun s =>
  let ch := se_nextChan s in
  (Ok ch, se_set_pending (<[requestID := ch]> (se_pendingReqs s))
            (<[ch := mkChan None false]> (se_chans s)) (ch + 1) s).

(** Apply a channel operation to the channel with number [c]. *)
Definition on_chan (c : N) (op : Chan D -> result (Chan D)) : M (Session D) unit := fun s =>
  match se_chans s !! c with
  | None => (Panic "nil channel", s)
  | Some ch =>
      match op ch with
      | Ok ch' => (Ok tt, se_set_pending (se_pendingReqs s) (<[c := ch']> (se_chans s)) (se_nextChan s) s)
      | Err e => (Err e, s)
      | Panic w => (Panic w, s)
      end
  end.

Definition forget (requestID : string) : M (Session D) unit :=
  modify (fun s => se_set_pending (delete requestID (se_pendingReqs s)) (se_chans s) (se_nextChan s) s).

Definition ResolvePendingRequest (requestID : string) (msg : D) : M (Session D) bool :=
  let! s := get in
  match se_pendingReqs s !! requestID with
  | None => ret false
  | Some ch =>
      do! forget requestID ;;
      do! on_chan ch (chan_try_send msg) ;;
      do! on_chan ch chan_close ;;
      ret true
  end.

Definition CancelPendingRequest (requestID : string) : M (Session D) unit :=
  let! s := get in
  match se_pendingReqs s !! requestID with
  | None => ret tt
  | Some ch => do! forget requestID ;; on_chan ch chan_close
  end.

(** The waiter of a request reads its channel. *)
Definition Await (c : N) : M (Session D) (option (option D)) := fun s =>
  match se_chans s !! c ≫= chan_recv with
  | None => (Ok None, s)
  | Some (v, ch') => (Ok (Some v), se_set_pending (se_pendingReqs s) (<[c := ch']> (se_chans s)) (se_nextChan s) s)
  end.

(** ** Waiting requests *)

(** Every waiting request has its own channel, open and empty. *)
Record pending_ok (s : Session D) : Prop := {
  pend_open : forall r c, se_pendingReqs s !! r = Some c -> se_chans s !! c = Some (mkChan None false);
  pend_inj : forall r r' c, se_pendingReqs s !! r = Some c -> se_pendingReqs s !! r' = Some c -> r = r';
  pend_new : forall c, is_Some (se_chans s !! c) -> (c < se_nextChan s)%N;
}.

Inductive session_step : Session D -> Session D -> Prop :=
| sstep_send msg s : session_step s (snd (Send msg s))
| sstep_cancel s : session_step s (Cancel s)
| sstep_ping now s : session_step s (snd (UpdateLastPing now s))
| sstep_register r s : session_step s (snd (RegisterPendingRequest r s))
| sstep_resolve r m s : session_step s (snd (ResolvePendingRequest r m s))
| sstep_drop r s : session_step s (snd (CancelPendingRequest r s))
| sstep_await c s : session_step s (snd (Await c s)).

Lemma Resolve_eq r m s :
  pending_ok s ->
  ResolvePendingRequest r m s =
  match se_pendingReqs s !! r with
  | None => (Ok false, s)
  | Some c => (Ok true, se_set_pending (delete r (se_pendingReqs s))
                 (<[c := mkChan (Some m) true]> (se_chans s)) (se_nextChan s) s)
  end.
Proof.
  intros [Hopen _ _]. unfold ResolvePendingRequest, bind, get, ret, forget, modify, on_chan. simpl.
  destruct (se_pendingReqs s !! r) as [c|] eqn:Hr; [|done]. simpl.
  rewrite (Hopen r c Hr). simpl. rewrite lookup_insert_eq. simpl. by rewrite insert_insert_eq.
Qed.

Lemma CancelPending_eq r s :
  pending_ok s ->
  CancelPendingRequest r s =
  match se_pendingReqs s !! r with
  | None => (Ok tt, s)
  | Some c => (Ok tt, se_set_pending (delete r (se_pendingReqs s))
                 (<[c := mkChan None true]> (se_chans s)) (se_nextChan s) s)
  end.
Proof.
  intros [Hopen _ _]. unfold CancelPendingRequest, bind, get, ret, forget, modify, on_chan. simpl.
  destruct (se_pendingReqs s !! r) as [c|] eqn:Hr; [|done]. simpl. by rewrite (Hopen r c Hr).
Qed.

(** Settling a request: it is forgotten and its channel closed. *)
Lemma pending_ok_settle r c ch s :
  pending_ok s -> se_pendingReqs s !! r = Some c ->
  pending_ok (se_set_pending (delete r (se_pendingReqs s)) (<[c := ch]> (se_chans s)) (se_nextChan s) s).
Proof.
  intros [Hopen Hinj Hnew] Hr. split; simpl.
  - intros r' c'. rewrite lookup_delete. case_decide; [done|]. intros Hr'.
    rewrite lookup_insert_ne; [by apply (Hopen r')|]. intros ->. by apply H, (Hinj r r' c').
  - intros r1 r2 c'. rewrite !lookup_delete. repeat case_decide; try done. apply Hinj.
  - intros c'. rewrite lookup_insert. case_decide; subst; [|apply Hnew].
    intros _. apply Hnew. rewrite (Hopen r); eauto.
Qed.

Lemma session_step_ok s s' : session_step s s' -> pending_ok s -> pending_ok s'.
Proof.
  intros Hstep Hok. pose proof Hok as [Hopen Hinj Hnew]. destruct Hstep as [msg s|s|now s|r s|r m s|r s|c s].
  - unfold Send. destruct (stream_err s msg); [done|]. by split.
  - unfold Cancel. destruct (se_hasCancel s); [|done]. by split.
  - by split.
  - assert (Hfresh : se_chans s !! se_nextChan s = None).
    { destruct (se_chans s !! se_nextChan s) eqn:E; [|done]. specialize (Hnew (se_nextChan s) ltac:(eauto)). lia. }
    split; simpl.
    + intros r' c'. rewrite lookup_insert. case_decide; subst.
      * intros [= <-]. by rewrite lookup_insert_eq.
      * intros Hr. rewrite lookup_insert_ne; [by eapply Hopen|]. intros <-.
        rewrite (Hopen _ _ Hr) in Hfresh. done.
    + intros r1 r2 c'. rewrite !lookup_insert. repeat case_decide; subst; try done.
      * intros [= <-] Hr. rewrite (Hopen _ _ Hr) in Hfresh. done.
      * intros Hr [= <-]. rewrite (Hopen _ _ Hr) in Hfresh. done.
      * apply Hinj.
    + intros c'. rewrite lookup_insert. case_decide; subst; [lia|]. intros Hc%Hnew. lia.
  - rewrite Resolve_eq by done. destruct (se_pendingReqs s !! r) eqn:Hr; [|done]. by apply pending_ok_settle.
  - rewrite CancelPending_eq by done. destruct (se_pendingReqs s !! r) eqn:Hr; [|done]. by apply pending_ok_settle.
  - unfold Await. destruct (se_chans s !! c) as [ch|] eqn:Hc; simpl; [|done].
    destruct (chan_recv ch) as [[v ch']|] eqn:Hv; [|done]. simpl. split; simpl.
    + intros r' c' Hr. rewrite lookup_insert. case_decide; subst; [|by eapply Hopen].
      rewrite (Hopen _ _ Hr) in Hc. injection Hc as <-. done.
    + apply Hinj.
    + intros c'. rewrite lookup_insert. case_decide; subst; [intros _; eauto|apply Hnew].
Qed.

Definition session_reachable : Session D -> Session D -> Prop := rtc session_step.

Lemma session_reachable_ok now node v caps hc s :
  session_reachable (NewSession now node v caps hc) s -> pending_ok s.
Proof.
  intros Hr. assert (H0 : pending_ok (NewSession now node v caps hc)) 
    by (split; simpl; intros *; rewrite ?lookup_empty; try done; by intros [? ?]).
  revert H0. induction Hr; eauto using session_step_ok.
Qed.

(** ** One request among others *)

(** What can happen to a session. *)
Inductive session_event : Type :=
| EvSend (m : GatewayMessage)
| EvCancel
| EvPing (now : time)
| EvRegister (r : string)
| EvResolve (r : string) (m : D)
| EvDrop (r : string)
| EvAwait (c : N).

Definition apply_event (e : session_event) (s : Session D) : Session D :=
  match e with
  | EvSend m => snd (Send m s)
  | EvCancel => Cancel s
  | EvPing now => snd (UpdateLastPing now s)
  | EvRegister r => snd (RegisterPendingRequest r s)
  | EvResolve r m => snd (ResolvePendingRequest r m s)
  | EvDrop r => snd (CancelPendingRequest r s)
  | EvAwait c => snd (Await c s)
  end.

Lemma apply_event_step e s : session_step s (apply_event e s).
Proof. destruct e; constructor. Qed.

(** Events of other callers: they know neither the request id nor its channel. *)
Definition foreign (id : string) (ch : N) (e : session_event) : Prop :=
  e <> EvRegister id /\ e <> EvDrop id /\ e <> EvAwait ch.

(** The first answer to a request among some events. *)
Fixpoint first_answer (id : string) (evs : list session_event) : option D :=
  match evs with
  | [] => None
  | EvResolve r m :: evs => if String.eqb r id then Some m else first_answer id evs
  | _ :: evs => first_answer id evs
  end.

(** The request waits, with nothing on its channel. *)
Definition awaiting (id : string) (ch : N) (s : Session D) : Prop :=
  se_pendingReqs s !! id = Some ch.
(** The request was answered with [m], which is still on its channel. *)
Definition answered (id : string) (ch : N) (m : D) (s : Session D) : Prop :=
  se_pendingReqs s !! id = None /\ se_chans s !! ch = Some (mkChan (Some m) true).

Lemma foreign_awaiting id ch e s :
  pending_ok s -> foreign id ch e -> awaiting id ch s ->
  match e with
  | EvResolve r m => if String.eqb r id then answered id ch m (apply_event e s) else awaiting id ch (apply_event e s)
  | _ => awaiting id ch (apply_event e s)
  end.
Proof.
  unfold awaiting, answered. intros Hok (Hreg & Hdrop & Haw) Hid. destruct e as [m| |now|r|r m|r|c]; simpl.
  - unfold Send. by destruct (stream_err s m).
  - unfold Cancel. by destruct (se_hasCancel s).
  - done.
  - rewrite lookup_insert_ne; [done|]. intros ->. done.
  - rewrite Resolve_eq by done. destruct (String.eqb_spec r id) as [->|Hne].
    + rewrite Hid. simpl. by rewrite lookup_delete_eq, lookup_insert_eq.
    + destruct (se_pendingReqs s !! r) eqn:Er; [|done]. simpl. by rewrite lookup_delete_ne.
  - rewrite CancelPending_eq by done. destruct (se_pendingReqs s !! r) eqn:Er; [|done]. simpl.
    rewrite lookup_delete_ne; [done|]. by intros ->.
  - unfold Await. by destruct (se_chans s !! c ≫= chan_recv) as [[v ch']|].
Qed.

Lemma foreign_answered id ch m e s :
  pending_ok s -> foreign id ch e -> answered id ch m s -> answered id ch m (apply_event e s).
Proof.
  unfold answered. intros Hok (Hreg & Hdrop & Haw) [Hid Hch].
  assert (Hne : forall r c, se_pendingReqs s !! r = Some c -> c <> ch).
  { intros r c Hr ->. rewrite (pend_open s Hok _ _ Hr) in Hch. discriminate. }
  destruct e as [x| |now|r|r x|r|c]; simpl.
  - unfold Send. by destruct (stream_err s x).
  - unfold Cancel. by destruct (se_hasCancel s).
  - done.
  - split; [rewrite lookup_insert_ne; [done|by intros ->]|]. rewrite lookup_insert_ne; [done|].
    intros <-. pose proof (pend_new s Hok (se_nextChan s) ltac:(eauto)). lia.
  - rewrite Resolve_eq by done. destruct (se_pendingReqs s !! r) as [c|] eqn:Er; [|done]. simpl.
    split; [by rewrite lookup_delete_ne by congruence|]. rewrite lookup_insert_ne; [done|by eapply Hne].
  - rewrite CancelPending_eq by done. destruct (se_pendingReqs s !! r) as [c|] eqn:Er; [|done]. simpl.
    split; [by rewrite lookup_delete_ne by congruence|]. rewrite lookup_insert_ne; [done|by eapply Hne].
  - unfold Await. destruct (se_chans s !! c ≫= chan_recv) as [[v ch']|]; [|done]. simpl.
    split; [done|]. rewrite lookup_insert_ne; [done|]. by intros ->.
Qed.

(** A settled channel keeps what it holds until its waiter reads it. *)
Lemma settled_stays e s c ch :
  pending_ok s -> se_chans s !! c = Some ch -> ch_closed ch = true -> e <> EvAwait c ->
  se_chans (apply_event e s) !! c = Some ch.
Proof.
  intros Hok Hc Hcl Hne. pose proof Hok as [Hopen _ Hnew].
  assert (Hoth : forall r c0, se_pendingReqs s !! r = Some c0 -> c0 <> c).
  { intros r c0 Hr ->. rewrite (Hopen _ _ Hr) in Hc. injection Hc as <-. done. }
  destruct e as [x| |now|r|r x|r|c0]; simpl.
  - unfold Send. by destruct (stream_err s x).
  - unfold Cancel. by destruct (se_hasCancel s).
  - done.
  - rewrite lookup_insert_ne; [done|]. intros <-. specialize (Hnew (se_nextChan s) ltac:(eauto)). lia.
  - rewrite Resolve_eq by done. destruct (se_pendingReqs s !! r) eqn:Hr; [|done]. simpl.
    rewrite lookup_insert_ne; [done|]. by eapply Hoth.
  - rewrite CancelPending_eq by done. destruct (se_pendingReqs s !! r) eqn:Hr; [|done]. simpl.
    rewrite lookup_insert_ne; [done|]. by eapply Hoth.
  - unfold Await. destruct (se_chans s !! c0 ≫= chan_recv) as [[v ch']|]; [|done]. simpl.
    rewrite lookup_insert_ne; [done|]. by intros ->.
Qed.

Definition run_events (evs : list session_event) (s : Session D) : Session D :=
  foldl (fun s e => apply_event e s) s evs.

Lemma settled_stays_run evs c ch : forall s,
  pending_ok s -> se_chans s !! c = Some ch -> ch_closed ch = true -> EvAwait c ∉ evs ->
  se_chans (run_events evs s) !! c = Some ch.
Proof.
  unfold run_events. induction evs as [|e evs IH]; intros s Hok Hc Hcl Hn; [done|]. simpl.
  apply not_elem_of_cons in Hn as [Hne Hn].
  apply IH; [by apply (session_step_ok s); [apply apply_event_step|]|by apply settled_stays|done|done].
Qed.

(** Reading a settled channel empties it and leaves it closed. *)
Lemma Await_settled s c b :
  se_chans s !! c = Some (mkChan b true) ->
  fst (Await c s) = Ok (Some b) /\ se_chans (snd (Await c s)) !! c = Some (mkChan None true).
Proof. intros Hc. unfold Await. rewrite Hc. destruct b; simpl; by rewrite lookup_insert_eq. Qed.

(** Once read, it has nothing more to give, whatever happens. *)
Lemma read_stays_empty evs c : forall s,
  pending_ok s -> se_chans s !! c = Some (mkChan None true) ->
  se_chans (run_events evs s) !! c = Some (mkChan None true).
Proof.
  unfold run_events. induction evs as [|e evs IH]; intros s Hok Hc; [done|]. simpl.
  apply IH; [by apply (session_step_ok s); [apply apply_event_step|]|].
  assert (Hd : e = EvAwait c \/ e <> EvAwait c)
    by (destruct e as [| | | | | |c']; [by right..|]; destruct (decide (c' = c)) as [->|]; [by left|right; congruence]).
  destruct Hd as [->|Hne]; [by apply (Await_settled _ _ None)|by apply settled_stays].
Qed.

Lemma run_events_ok evs s : pending_ok s -> pending_ok (foldl (fun s e => apply_event e s) s evs).
Proof.
  revert s. induction evs as [|e evs IH]; intros s Hok; [done|]. simpl. apply IH.
  by apply (session_step_ok s); [apply apply_event_step|].
Qed.

(** Whatever the others do, the channel of a request holds the first answer
    addressed to it, and nothing as long as there is none. *)
Lemma run_awaiting id ch evs : forall s,
  pending_ok s -> awaiting id ch s -> Forall (foreign id ch) evs ->
  let s' := foldl (fun s e => apply_event e s) s evs in
  match first_answer id evs with
  | None => awaiting id ch s'
  | Some m => answered id ch m s'
  end.
Proof.
  assert (Hans : forall m evs s, pending_ok s -> answered id ch m s -> Forall (foreign id ch) evs ->
    answered id ch m (foldl (fun s e => apply_event e s) s evs)).
  { intros m l. induction l as [|e l IH]; intros s Hok Ha Hf; [done|].
    apply Forall_cons in Hf as [He Hf]. simpl. apply IH; [|by apply foreign_answered|done].
    by apply (session_step_ok s); [apply apply_event_step|]. }
  induction evs as [|e evs IH]; intros s Hok Hid Hf; [done|]. apply Forall_cons in Hf as [He Hf].
  assert (Hok' : pending_ok (apply_event e s)) by by apply (session_step_ok s); [apply apply_event_step|].
  pose proof (foreign_awaiting id ch e s Hok He Hid) as Hone. simpl.
  destruct e as [x| |now|r|r m|r|c]; try (by apply IH). simpl in Hone.
  destruct (String.eqb r id); [by apply Hans|by apply IH].
Qed.

(** C6: in every reachable state of a session an answer is handed to its
    request exactly once and nothing panics: resolving a waiting request puts
    the message in that request's own channel, closes it, forgets the request
    and leaves every other channel alone; a second answer for the same request
    id (or one nobody waits for) is refused and changes nothing; cancelling a
    request closes its channel empty.  Whatever happens afterwards, the channel
    keeps the message as long as nobody reads it, the first read returns the
    message, and every later read finds the channel closed and empty. *)
Theorem pending_request_settled_once now node v caps hc s r m m' :
  session_reachable (NewSession now node v caps hc) s ->
  match se_pendingReqs s !! r with
  | None => ResolvePendingRequest r m s = (Ok false, s) /\ CancelPendingRequest r s = (Ok tt, s)
  | Some c =>
      exists s', ResolvePendingRequest r m s = (Ok true, s') /\
        se_chans s' = <[c := mkChan (Some m) true]> (se_chans s) /\
        ResolvePendingRequest r m' s' = (Ok false, s') /\
        (exists s2, CancelPendingRequest r s = (Ok tt, s2) /\
           se_chans s2 = <[c := mkChan None true]> (se_chans s)) /\
        forall evs, EvAwait c ∉ evs ->
          let s'' := run_events evs s' in
          se_chans s'' !! c = Some (mkChan (Some m) true) /\
          fst (Await c s'') = Ok (Some (Some m)) /\
          forall evs', fst (Await c (run_events evs' (snd (Await c s'')))) = Ok (Some None)
  end.
Proof.
  intros Hok%session_reachable_ok. rewrite Resolve_eq, CancelPending_eq by done.
  destruct (se_pendingReqs s !! r) as [c|] eqn:Hr; [|done].
  eexists. split; [done|]. split; [done|].
  assert (Hok' : pending_ok (se_set_pending (delete r (se_pendingReqs s))
    (<[c := mkChan (Some m) true]> (se_chans s)) (se_nextChan s) s)) by by apply pending_ok_settle.
  split_and!.
  - rewrite Resolve_eq by done. simpl. by rewrite lookup_delete_eq.
  - eexists. split; done.
  - intros evs Hevs s''.
    assert (Hc : se_chans s'' !! c = Some (mkChan (Some m) true)).
    { apply settled_stays_run; [done| |done|done]. simpl. by rewrite lookup_insert_eq. }
    destruct (Await_settled _ _ _ Hc) as [Hread Hempty]. split; [done|]. split; [done|].
    intros evs'. eapply (Await_settled _ _ None), read_stays_empty; [|done].
    apply (session_step_ok s''); [apply (apply_event_step (EvAwait c))|by apply run_events_ok].
Qed.
End session.

Lemma pending_request_settled_once_witness :
  let s0 := NewSession (D := N) 1 7 "1.0" [] true in
  let s := snd (RegisterPendingRequest "q" s0) in
  let stream := fun (_ : Session N) (_ : GatewayMessage) => @None error in
  exists s', ResolvePendingRequest "q" 42%N s = (Ok true, s') /\
    ResolvePendingRequest "q" 43%N s' = (Ok false, s') /\
    fst (Await 0 (run_events stream [EvRegister "q"; EvResolve "q" 44%N; EvCancel] s')) = Ok (Some (Some 42%N)).
Proof.
  intros s0 s stream.
  assert (Hs : session_reachable stream s0 s)
    by (eapply rtc_l; [apply (sstep_register stream "q" s0)|apply rtc_refl]).
  pose proof (pending_request_settled_once stream 1 7 "1.0" [] true s "q" 42%N 43%N Hs) as H.
  cbn in H. destruct H as (s' & E & Hc & E2 & _ & Hlast). exists s'.
  split; [exact E|]. split; [exact E2|].
  apply (Hlast [EvRegister "q"; EvResolve "q" 44%N; EvCancel]).
  rewrite !not_elem_of_cons. split_and!; [discriminate..|apply not_elem_of_nil].
Defined.
