(* ===== verification/Registry.v ===== *)
(** The session registry ([internal/grpc/session/registry.go]): the daemons
    connected to this panel instance, what it knows of the other instances, and
    the routing of tasks, commands, attach and metrics messages to the instance
    that holds a daemon's stream.  Session pointers are heap addresses, so that
    an old and a new session of the same node are told apart.  The protobuf
    encoding, the daemon's messages and the streams are parameters. *)

From S2P Require Import Prelude.
From S2P Require Import GoNum.
From S2P Require Import Domain.
From S2P Require Import Converters.
From S2P Require Import PubSub.
From S2P Require Import Session.
From stdpp Require Import base tactics strings list gmap numbers.
From Stdlib Require Import NArith ZArith.

Record Registry (D : Type) : Type := mkRegistry {
  rg_instanceID : string;
  rg_heap : gmap N (Session D);
  rg_localSessions : gmap N N;
  rg_globalNodes : gmap N string;
  rg_metricsWaiters : option (gmap string (N * string));
}.
Arguments mkRegistry {D}.
Arguments rg_instanceID {D}.
Arguments rg_heap {D}.
Arguments rg_localSessions {D}.
Arguments rg_globalNodes {D}.
Arguments rg_metricsWaiters {D}.

Definition extractNodeIDFromChannel (channel : string) : result N :=
  if String.prefix DaemonTaskDispatch channel then
    wrap_err "parse node ID"
      (ParseUint (String.substring (String.length DaemonTaskDispatch)
        (String.length channel - String.length DaemonTaskDispatch) channel))
  else Err (ENew "invalid channel format").

Inductive regHandler : Type := HTaskDispatch | HSessionEvent | HAttachDispatch | HMetricsRequest.

Section registry.
Context {D : Type}.
Context (stream_err : Session D -> GatewayMessage -> option error).
Context (MarshalVT : GatewayMessage -> result string) (UnmarshalVT : string -> result GatewayMessage).

Abbreviation Reg := (Registry D).

Definition NewRegistry (instanceID : string) : Reg := mkRegistry instanceID ∅ ∅ ∅ None.

Definition rg_set_heap (h : gmap N (Session D)) (r : Reg) : Reg :=
  mkRegistry (rg_instanceID r) h (rg_localSessions r) (rg_globalNodes r) (rg_metricsWaiters r).
Definition rg_set_local (l : gmap N N) (r : Reg) : Reg :=
  mkRegistry (rg_instanceID r) (rg_heap r) l (rg_globalNodes r) (rg_metricsWaiters r).
Definition rg_set_global (g : gmap N string) (r : Reg) : Reg :=
  mkRegistry (rg_instanceID r) (rg_heap r) (rg_localSessions r) g (rg_metricsWaiters r).
Definition rg_set_waiters (w : option (gmap string (N * string))) (r : Reg) : Reg :=
  mkRegistry (rg_instanceID r) (rg_heap r) (rg_localSessions r) (rg_globalNodes r) w.

Definition SetMetricsWaiterRegistrar : M Reg unit := modify (rg_set_waiters (Some ∅)).

(** A new session object on the heap. *)
Definition alloc_session (s : Session D) : M Reg N := fun r =>
  let p := fresh (dom (rg_heap r)) in (Ok p, rg_set_heap (<[p := s]> (rg_heap r)) r).

Definition on_session {A} (p : N) (m : M (Session D) A) : M Reg A := fun r =>
  match rg_heap r !! p with
  | None => (Panic "nil pointer dereference", r)
  | Some s => let '(res, s') := m s in (res, rg_set_heap (<[p := s']> (rg_heap r)) r)
  end.

(** ** Queries *)

Definition GetSession (nodeID : N) (r : Reg) : option N := rg_localSessions r !! nodeID.
Definition IsConnected (nodeID : N) (r : Reg) : bool := bool_decide (is_Some (GetSession nodeID r)).
Definition IsConnectedAnywhere (nodeID : N) (r : Reg) : bool :=
  if IsConnected nodeID r then true else bool_decide (is_Some (rg_globalNodes r !! nodeID)).
Definition Registry_HasCapability (nodeID : N) (capability : string) (r : Reg) : bool :=
  match rg_localSessions r !! nodeID ≫= (fun p => rg_heap r !! p) with
  | None => false
  | Some s => HasCapability capability s
  end.
Definition ConnectedNodeIDs (r : Reg) : list N := map fst (map_to_list (rg_localSessions r)).
Definition SessionCount (r : Reg) : nat := size (rg_localSessions r).

(** ** Handlers of bus messages *)

(** A payload that does not decode is logged and dropped. *)
Definition parsed {T} `{Payload T} (msg : Message) (k : T -> M Reg unit) : M Reg unit :=
  match ParsePayload msg with
  | Ok payload => k payload
  | _ => ret tt
  end.

Definition handleSessionEvent (msg : Message) : M Reg unit :=
  if String.eqb (msg_Type msg) TypeDaemonConnected then
    parsed msg (fun payload : DaemonSessionPayload =>
      let! r := get in
      if String.eqb (dsp_InstanceID payload) (rg_instanceID r) then ret tt
      else modify (fun r => rg_set_global (<[dsp_NodeID payload := dsp_InstanceID payload]> (rg_globalNodes r)) r))
  else if String.eqb (msg_Type msg) TypeDaemonClosed then
    parsed msg (fun payload : DaemonSessionPayload =>
      modify (fun r => rg_set_global (delete (dsp_NodeID payload) (rg_globalNodes r)) r))
  else ret tt.

Definition handleTaskDispatch (msg : Message) : M Reg unit :=
  match extractNodeIDFromChannel (msg_Channel msg) with
  | Ok nodeID =>
      let! r := get in
      match rg_localSessions r !! nodeID with
      | None => ret tt
      | Some session =>
          parsed msg (fun payload : DaemonTaskDispatchPayload =>
            match UnmarshalVT (tdp_TaskData payload) with
            | Ok gatewayMsg => wrap "send task to session" (on_session session (Send stream_err gatewayMsg))
            | _ => ret tt
            end)
      end
  | _ => ret tt
  end.

Definition handleAttachDispatch (msg : Message) : M Reg unit :=
  parsed msg (fun payload : DaemonAttachDispatchPayload =>
    let! r := get in
    match rg_localSessions r !! adp_NodeID payload with
    | None => ret tt
    | Some session =>
        match UnmarshalVT (adp_Data payload) with
        | Ok gatewayMsg => wrap "send attach message to session" (on_session session (Send stream_err gatewayMsg))
        | _ => ret tt
        end
    end).

Definition RegisterRemoteWaiter (requestID : string) (nodeID : N) (requester : string) : M Reg unit :=
  modify (fun r => rg_set_waiters (insert requestID (nodeID, requester) <$> rg_metricsWaiters r) r).
Definition CancelWaiter (requestID : string) : M Reg unit :=
  modify (fun r => rg_set_waiters (delete requestID <$> rg_metricsWaiters r) r).

Definition handleMetricsRequest (msg : Message) : M Reg unit :=
  parsed msg (fun payload : DaemonMetricsRequestPayload =>
    let! r := get in
    match rg_localSessions r !! mrp_NodeID payload with
    | None => ret tt
    | Some session =>
        match UnmarshalVT (mrp_Data payload) with
        | Ok gatewayMsg =>
            let remote := negb (String.eqb (mrp_InstanceID payload) "") &&
                          negb (String.eqb (mrp_InstanceID payload) (rg_instanceID r)) in
            do! (if bool_decide (is_Some (rg_metricsWaiters r)) && remote
                 then RegisterRemoteWaiter (mrp_RequestID payload) (mrp_NodeID payload) (mrp_InstanceID payload)
                 else ret tt) ;;
            let! res := attempt (on_session session (Send stream_err gatewayMsg)) in
            match res with
            | Ok _ => ret tt
            | Err e =>
                do! CancelWaiter (mrp_RequestID payload) ;;
                fail (EWrap "send metrics request to session" e)
            | Panic w => lift (Panic w)
            end
        | _ => ret tt
        end
    end).

Definition run_handler (h : regHandler) (msg : Message) : M Reg unit :=
  match h with
  | HTaskDispatch => handleTaskDispatch msg
  | HSessionEvent => handleSessionEvent msg
  | HAttachDispatch => handleAttachDispatch msg
  | HMetricsRequest => handleMetricsRequest msg
  end.

(** ** Broadcasts *)

Definition session_ptrs (r : Reg) : list N := map snd (map_to_list (rg_localSessions r)).

Definition BroadcastToAll (msg : GatewayMessage) : M Reg unit :=
  let! r := get in
  for_each (session_ptrs r) (fun p =>
    let! _ := attempt (on_session p (Send stream_err msg)) in ret tt).

Definition BroadcastShutdown (reason : string) (reconnectDelay : Z) : M Reg unit :=
  BroadcastToAll (mkGatewayMessage "" (GM_Shutdown reason reconnectDelay)).

Definition CloseAllSessions : M Reg unit :=
  let! r := get in
  for_each (session_ptrs r) (fun p => on_session p (modify Session.Cancel)).

(** ** Operations that publish: over a state that holds the registry and a bus *)

Section publishing.
Context {S : Type} (prj : S -> Reg) (inj : Reg -> S -> S) `{Publisher S}.
Context (subscribe : string -> regHandler -> M S unit).

Definition on_reg {A} (m : M Reg A) : M S A := zoom prj inj m.

Definition Start : M S unit :=
  do! wrap "subscribe to task dispatch" (subscribe DaemonTaskDispatchAll HTaskDispatch) ;;
  do! wrap "subscribe to session events" (subscribe DaemonSessionAll HSessionEvent) ;;
  do! wrap "subscribe to attach dispatch" (subscribe DaemonAttachDispatchAll HAttachDispatch) ;;
  wrap "subscribe to metrics request" (subscribe DaemonMetricsRequestAll HMetricsRequest).

(** [p] points to the new session. *)
Definition register_local (p : N) : M Reg (Session D) :=
  let! r := get in
  match rg_heap r !! p with
  | None => lift (Panic "nil pointer dereference")
  | Some session =>
      do! match rg_localSessions r !! se_NodeID session with
          | Some old => on_session old (modify Session.Cancel)
          | None => ret tt
          end ;;
      do! modify (fun r => rg_set_local (<[se_NodeID session := p]> (rg_localSessions r)) r) ;;
      ret session
  end.

Definition Register (now : time) (st : Stamp) (p : N) : M S unit :=
  let! session := on_reg (register_local p) in
  let! s := get in
  let! msg := wrap "create session connected message" (lift
    (NewMessage st DaemonSessionConnected TypeDaemonConnected
      (mkSessionPayload (se_NodeID session) (rg_instanceID (prj s)) (se_Version session) now))) in
  let! _ := attempt (publish DaemonSessionConnected msg) in
  ret tt.

Definition unregister_local (nodeID : N) : M Reg (option (Session D)) :=
  let! r := get in
  match rg_localSessions r !! nodeID with
  | None => ret None
  | Some p =>
      do! modify (fun r => rg_set_local (delete nodeID (rg_localSessions r)) r) ;;
      match rg_heap r !! p with
      | Some session => ret (Some session)
      | None => lift (Panic "nil pointer dereference")
      end
  end.

Definition Unregister (st : Stamp) (nodeID : N) : M S unit :=
  let! found := on_reg (unregister_local nodeID) in
  match found with
  | None => ret tt
  | Some session =>
      let! s := get in
      let! msg := wrap "create session closed message" (lift
        (NewMessage st DaemonSessionClosed TypeDaemonClosed
          (mkSessionPayload nodeID (rg_instanceID (prj s)) (se_Version session) (se_ConnectedAt session)))) in
      let! _ := attempt (publish DaemonSessionClosed msg) in
      ret tt
  end.

Definition GetTaskId (m : GatewayMessage) : N :=
  match gw_Payload m with GM_Task t => pt_Id t | _ => 0 end.

Definition dispatchViaPubSub (st : Stamp) (nodeID : N) (gatewayMsg : GatewayMessage) : M S unit :=
  let! taskData := wrap "marshal gateway message" (lift (MarshalVT gatewayMsg)) in
  let channel := BuildDaemonTaskDispatchChannel nodeID in
  let! msg := wrap "create task dispatch message" (lift (NewMessage st channel TypeDaemonTask
    (mkTaskDispatchPayload nodeID (gw_RequestId gatewayMsg) (GetTaskId gatewayMsg) taskData))) in
  publish channel msg.

Definition SendTask (st : Stamp) (nodeID : N) (task : GatewayMessage) : M S unit :=
  let! s := get in
  match rg_localSessions (prj s) !! nodeID with
  | Some session => wrap "send task to local session" (on_reg (on_session session (Send stream_err task)))
  | None => dispatchViaPubSub st nodeID task
  end.

(** [int32(cmd.Timeout.AsDuration().Seconds())], the duration in nanoseconds. *)
Definition timeout_seconds (ns : Z) : Z := int32_of (Z.quot ns second).

Definition dispatchCommandViaPubSub (st : Stamp) (nodeID : N) (cmd : CommandRequest) : M S unit :=
  let channel := BuildDaemonCommandDispatchChannel nodeID in
  let! msg := wrap "create command dispatch message" (lift (NewMessage st channel TypeDaemonCommand
    (mkCommandDispatchPayload nodeID (cr_CommandId cmd) (cr_CommandId cmd) (cr_ServerId cmd)
      (cr_Command cmd) (timeout_seconds (cr_Timeout cmd))))) in
  publish channel msg.

Definition SendCommand (st : Stamp) (nodeID : N) (cmd : CommandRequest) : M S unit :=
  let! s := get in
  match rg_localSessions (prj s) !! nodeID with
  | Some session => on_reg (on_session session (Send stream_err (mkGatewayMessage (cr_CommandId cmd) (GM_Command cmd))))
  | None => dispatchCommandViaPubSub st nodeID cmd
  end.

Definition dispatchAttachViaPubSub (st : Stamp) (nodeID : N) (gatewayMsg : GatewayMessage) : M S unit :=
  let! data := wrap "marshal attach gateway message" (lift (MarshalVT gatewayMsg)) in
  let channel := BuildDaemonAttachDispatchChannel nodeID in
  let! msg := wrap "create attach dispatch message" (lift (NewMessage st channel TypeDaemonAttach
    (mkAttachDispatchPayload nodeID "" data))) in
  publish channel msg.

Definition sendOrDispatchAttach (st : Stamp) (nodeID : N) (msg : GatewayMessage) : M S unit :=
  let! s := get in
  match rg_localSessions (prj s) !! nodeID with
  | Some session => on_reg (on_session session (Send stream_err msg))
  | None => dispatchAttachViaPubSub st nodeID msg
  end.

Definition SendAttachRequest (st : Stamp) (nodeID : N) (sessionId : string) (serverId : N) : M S unit :=
  sendOrDispatchAttach st nodeID (mkGatewayMessage "" (GM_AttachRequest sessionId serverId)).
Definition SendAttachInput (st : Stamp) (nodeID : N) (sessionId data : string) : M S unit :=
  sendOrDispatchAttach st nodeID (mkGatewayMessage "" (GM_AttachInput sessionId data)).
Definition SendAttachDetach (st : Stamp) (nodeID : N) (sessionId reason : string) : M S unit :=
  sendOrDispatchAttach st nodeID (mkGatewayMessage "" (GM_AttachDetach sessionId reason)).

Definition dispatchMetricsRequestViaPubSub (st : Stamp) (nodeID : N) (requestID : string)
  (gatewayMsg : GatewayMessage) : M S unit :=
  let! data := wrap "marshal metrics gateway message" (lift (MarshalVT gatewayMsg)) in
  let channel := BuildDaemonMetricsRequestChannel nodeID in
  let! s := get in
  let! msg := wrap "create metrics request message" (lift (NewMessage st channel TypeDaemonMetricsRequest
    (mkMetricsRequestPayload nodeID requestID (rg_instanceID (prj s)) data))) in
  publish channel msg.

Definition SendMetricsRequest (st : Stamp) (nodeID : N) (requestID body : string) : M S unit :=
  let msg := mkGatewayMessage requestID (GM_MetricsRequest body) in
  let! s := get in
  match rg_localSessions (prj s) !! nodeID with
  | Some session => wrap "send metrics request to local session" (on_reg (on_session session (Send stream_err msg)))
  | None => dispatchMetricsRequestViaPubSub st nodeID requestID msg
  end.
End publishing.
End registry.
