(* ===== verification/Cluster.v ===== *)
(** Panel instances joined by the in-memory bus: the registry of each instance
    subscribes its handlers, publishing runs them on every instance before it
    returns ([ClusterBus] has the bus that delivers later).  The
    theorems follow a message from the instance a client talks to to the
    instance that holds the daemon, and the sessions events that tell the
    instances where a daemon is. *)

From S2P Require Import Prelude.
From S2P Require Import GoNum.
From S2P Require Import Domain.
From S2P Require Import Converters.
From S2P Require Import PubSub.
From S2P Require Import Session.
From S2P Require Import Registry.
From stdpp Require Import base tactics strings list gmap numbers.
From Stdlib Require Import NArith ZArith.

(** ** Channel names and node ids *)

Lemma extract_dispatch_channel n :
  (n < two64)%N -> extractNodeIDFromChannel (BuildDaemonTaskDispatchChannel n) = Ok n.
Proof.
  intros Hn. unfold extractNodeIDFromChannel, BuildDaemonTaskDispatchChannel.
  by rewrite string_prefix_app, substring_suffix, ParseUint_FormatUint.
Qed.

(** ** Instances on one bus *)

Section cluster.
Context {D : Type}.
Context (stream_err : Session D -> GatewayMessage -> option error).
Context (MarshalVT : GatewayMessage -> result string) (UnmarshalVT : string -> result GatewayMessage).

Record Cluster : Type := mkCluster {
  cl_bus : Memory (string * regHandler);
  cl_regs : gmap string (Registry D);
}.

Definition reg_at (i : string) (c : Cluster) : Registry D := default (NewRegistry i) (cl_regs c !! i).
Definition set_reg (i : string) (r : Registry D) (c : Cluster) : Cluster :=
  mkCluster (cl_bus c) (<[i := r]> (cl_regs c)).

(** A handler runs on the registry of the instance that subscribed it. *)
Definition run_on (h : string * regHandler) (msg : Message) : M Cluster unit :=
  zoom (reg_at (fst h)) (set_reg (fst h)) (run_handler stream_err UnmarshalVT (snd h) msg).

#[export] Instance cluster_bus : Publisher Cluster := Memory_Publish run_on cl_bus.

Definition subscribe_at (i : string) (pattern : string) (h : regHandler) : M Cluster unit :=
  zoom cl_bus (fun b c => mkCluster b (cl_regs c)) (Subscribe pattern (i, h)).

(** Start one instance after the other on a fresh bus. *)
Definition boot (instances : list string) : Cluster :=
  foldl (fun c i => snd (Start (subscribe_at i) (set_reg i (NewRegistry i) c)))
    (mkCluster Memory_New ∅) instances.

(** The operations of instance [i]. *)
Definition SendTask_at (i : string) := SendTask stream_err MarshalVT (reg_at i) (set_reg i).
Definition SendCommand_at (i : string) := SendCommand stream_err (reg_at i) (set_reg i).
Definition Register_at (i : string) := Register (reg_at i) (set_reg i).
Definition Unregister_at (i : string) := Unregister (reg_at i) (set_reg i).

(** ** What the instances are subscribed to *)

Definition instance_subs (i : string) : list (string * (string * regHandler)) :=
  [(DaemonTaskDispatchAll, (i, HTaskDispatch)); (DaemonSessionAll, (i, HSessionEvent));
   (DaemonAttachDispatchAll, (i, HAttachDispatch)); (DaemonMetricsRequestAll, (i, HMetricsRequest))].

Record cluster_ok (instances : list string) (c : Cluster) : Prop := {
  co_bus : mem_refines (cl_bus c) (Some (flat_map instance_subs instances));
  co_nodup : NoDup instances;
  co_ids : forall i, rg_instanceID (reg_at i c) = i;
}.

Lemma Start_bus i c l :
  mem_refines (cl_bus c) (Some l) ->
  let c' := snd (Start (subscribe_at i) c) in
  mem_refines (cl_bus c') (Some (l ++ instance_subs i)) /\ cl_regs c' = cl_regs c.
Proof.
  intros Hr.
  pose (ops := [OpSubscribe DaemonTaskDispatchAll (i, HTaskDispatch); OpSubscribe DaemonSessionAll (i, HSessionEvent);
    OpSubscribe DaemonAttachDispatchAll (i, HAttachDispatch); OpSubscribe DaemonMetricsRequestAll (i, HMetricsRequest)]).
  pose proof (run_ops_refines ops (cl_bus c) (Some l) Hr) as Hrun.
  destruct Hr as [Hc _].
  assert (E : snd (Start (subscribe_at i) c) = mkCluster (run_ops ops (cl_bus c)) (cl_regs c)).
  { unfold Start, bind, wrap, subscribe_at, zoom, run_ops, ops. simpl.
    unfold Subscribe. simpl. repeat (rewrite Hc; simpl). done. }
  simpl. rewrite E. split; [|done]. simpl. simpl in Hrun. by rewrite <- !app_assoc in Hrun.
Qed.

Lemma boot_ok instances : NoDup instances -> cluster_ok instances (boot instances).
Proof.
  intros Hnd. unfold boot.
  assert (Hgen : forall c done, cluster_ok done c -> NoDup (done ++ instances) ->
    cluster_ok (done ++ instances)
      (foldl (fun c i => snd (Start (subscribe_at i) (set_reg i (NewRegistry i) c))) c instances)).
  { clear Hnd. induction instances as [|i js IH]; intros c done [Hb Hn Hi] Hnd; simpl.
    - by rewrite app_nil_r.
    - replace (done ++ i :: js) with ((done ++ [i]) ++ js) by by rewrite <- app_assoc.
      apply IH; [|by rewrite <- app_assoc].
      destruct (Start_bus i (set_reg i (NewRegistry i) c) _ Hb) as [Hb' Hr']. split.
      + rewrite flat_map_app. cbn [flat_map]. rewrite app_nil_r. exact Hb'.
      + replace (done ++ i :: js) with ((done ++ [i]) ++ js) in Hnd by by rewrite <- app_assoc.
        by apply list.NoDup_app in Hnd as [? _].
      + intros j. unfold reg_at. rewrite Hr'. simpl. rewrite lookup_insert. case_decide; subst; [done|].
        apply Hi. }
  apply (Hgen _ []); [|done]. split; [apply mem_refines_new|constructor|].
  intros j. unfold reg_at. simpl. by rewrite lookup_empty.
Qed.

(** The channels of one kind are matched by one handler of each instance. *)
Definition handler_of (ch : string) : option regHandler :=
  if MatchPattern DaemonTaskDispatchAll ch then Some HTaskDispatch
  else if MatchPattern DaemonSessionAll ch then Some HSessionEvent
  else if MatchPattern DaemonAttachDispatchAll ch then Some HAttachDispatch
  else if MatchPattern DaemonMetricsRequestAll ch then Some HMetricsRequest
  else None.

Lemma stems_disjoint ch :
  MatchPattern DaemonTaskDispatchAll ch = String.prefix DaemonTaskDispatch ch /\
  MatchPattern DaemonSessionAll ch = String.prefix (DaemonPrefix +:+ "session:") ch /\
  MatchPattern DaemonAttachDispatchAll ch = String.prefix DaemonAttachDispatch ch /\
  MatchPattern DaemonMetricsRequestAll ch = String.prefix DaemonMetricsRequest ch.
Proof.
  split_and!; [exact (MatchPattern_star DaemonTaskDispatch ch)
    |exact (MatchPattern_star (DaemonPrefix +:+ "session:") ch)
    |exact (MatchPattern_star DaemonAttachDispatch ch)
    |exact (MatchPattern_star DaemonMetricsRequest ch)].
Qed.


(** A channel that extends a stem is matched by that stem's pattern only. *)
Lemma matching_subs i h stem rest :
  (stem, h) ∈ [(DaemonTaskDispatch, HTaskDispatch); (DaemonPrefix +:+ "session:", HSessionEvent);
                (DaemonAttachDispatch, HAttachDispatch); (DaemonMetricsRequest, HMetricsRequest)] ->
  map snd (filter (fun x => MatchPattern (fst x) (stem +:+ rest) = true) (instance_subs i)) = [(i, h)].
Proof.
  destruct (stems_disjoint (stem +:+ rest)) as (E1 & E2 & E3 & E4).
  intros Hin. unfold instance_subs.
  repeat (apply list.elem_of_cons in Hin as [[= -> ->]|Hin]; 
    [rewrite !list.filter_cons, list.filter_nil; cbn [fst]; rewrite E1, E2, E3, E4, string_prefix_app; reflexivity|]).
  by apply list.elem_of_nil in Hin.
Qed.

Lemma unmatched_subs i ch :
  handler_of ch = None ->
  map snd (filter (fun x => MatchPattern (fst x) ch = true) (instance_subs i)) = [].
Proof.
  unfold handler_of, instance_subs. intros H. rewrite !list.filter_cons, list.filter_nil. cbn [fst].
  repeat (case_match; [done|]). done.
Qed.

Lemma filter_flat_map {A B} (P : B -> Prop) `{forall x, Decision (P x)} (f : A -> list B) l :
  filter P (flat_map f l) = flat_map (fun x => filter P (f x)) l.
Proof. induction l as [|x l IH]; [done|]. simpl. by rewrite list.filter_app, IH. Qed.

Lemma map_flat_map {A B C} (g : B -> C) (f : A -> list B) l :
  map g (flat_map f l) = flat_map (fun x => map g (f x)) l.
Proof. induction l as [|x l IH]; [done|]. simpl. by rewrite map_app, IH. Qed.

(** Running one handler kind on a list of distinct instances. *)
Lemma run_all h msg hs : forall c,
  NoDup hs ->
  let c' := foldl (fun c x => snd (run_on x msg c)) c (map (fun i => (i, h)) hs) in
  cl_bus c' = cl_bus c /\
  forall i, reg_at i c' = if decide (i ∈ hs) then snd (run_handler stream_err UnmarshalVT h msg (reg_at i c))
                          else reg_at i c.
Proof.
  induction hs as [|j hs IH]; intros c Hnd; simpl.
  - done.
  - apply list.NoDup_cons in Hnd as [Hj Hnd].
    assert (Hone : cl_bus (snd (run_on (j, h) msg c)) = cl_bus c /\
      forall i, reg_at i (snd (run_on (j, h) msg c)) =
        if decide (i = j) then snd (run_handler stream_err UnmarshalVT h msg (reg_at i c)) else reg_at i c).
    { unfold run_on, zoom. simpl.
      destruct (run_handler stream_err UnmarshalVT h msg (reg_at j c)) as [r reg] eqn:E. simpl.
      split; [done|]. intros i. unfold reg_at at 1. simpl. rewrite lookup_insert.
      destruct (decide (j = i)) as [<-|]; simpl.
      - by rewrite decide_True, E.
      - by rewrite decide_False by congruence. }
    destruct Hone as [Hb Hr]. destruct (IH (snd (run_on (j, h) msg c)) Hnd) as [Hb' Hr'].
    split; [by rewrite Hb'|]. intros i. rewrite Hr', Hr.
    destruct (decide (i = j)) as [->|Hij].
    + rewrite decide_False by done. by rewrite decide_True by set_solver.
    + destruct (decide (i ∈ hs)); [by rewrite decide_True by set_solver|by rewrite decide_False by set_solver].
Qed.

Lemma set_source_payload src m :
  msg_Payload (set_source src m) = msg_Payload m /\ msg_Channel (set_source src m) = msg_Channel m /\
  msg_Type (set_source src m) = msg_Type m.
Proof. done. Qed.

Lemma matching_all instances h stem rest :
  (stem, h) ∈ [(DaemonTaskDispatch, HTaskDispatch); (DaemonPrefix +:+ "session:", HSessionEvent);
                (DaemonAttachDispatch, HAttachDispatch); (DaemonMetricsRequest, HMetricsRequest)] ->
  map snd (filter (fun x => MatchPattern (fst x) (stem +:+ rest) = true) (flat_map instance_subs instances))
  = map (fun i => (i, h)) instances.
Proof.
  intros Hin. rewrite filter_flat_map, map_flat_map.
  rewrite (flat_map_ext _ (fun i => [(i, h)])) by (intros i; by apply matching_subs).
  clear Hin. induction instances as [|i l IH]; [done|]. simpl. by rewrite IH.
Qed.

(** A message on a stem's channel runs that stem's handler on each instance. *)
Lemma publish_runs instances c h stem rest msg :
  cluster_ok instances c ->
  (stem, h) ∈ [(DaemonTaskDispatch, HTaskDispatch); (DaemonPrefix +:+ "session:", HSessionEvent);
                (DaemonAttachDispatch, HAttachDispatch); (DaemonMetricsRequest, HMetricsRequest)] ->
  exists c', publish (stem +:+ rest) msg c = (Ok tt, c') /\ cl_bus c' = cl_bus c /\
    forall i, reg_at i c' =
      if decide (i ∈ instances) then snd (run_handler stream_err UnmarshalVT h (set_source "memory" msg) (reg_at i c))
      else reg_at i c.
Proof.
  intros [Hb Hnd _] Hin. unfold publish, cluster_bus, Memory_Publish.
  pose proof (getMatchingHandlers_perm (cl_bus c) _ (stem +:+ rest) Hb) as Hperm.
  rewrite (matching_all _ _ _ _ Hin) in Hperm. destruct Hb as [-> _].
  rewrite for_each_SafeCall. apply Permutation_map_inv in Hperm as (hs & Heq & Hperm).
  rewrite Heq. eexists. split; [done|].
  destruct (run_all h (set_source "memory" msg) hs c) as [Hb' Hr]; [by rewrite <- Hperm|].
  split; [done|]. intros i. rewrite Hr.
  destruct (decide (i ∈ hs)) as [Hi|Hi]; rewrite <- Hperm in Hi; [by rewrite decide_True|by rewrite decide_False].
Qed.

(** A message on a channel nobody subscribed to runs nothing. *)
Lemma publish_unheard instances c ch msg :
  cluster_ok instances c -> handler_of ch = None -> publish ch msg c = (Ok tt, c).
Proof.
  intros [Hb _ _] Hnone. unfold publish, cluster_bus, Memory_Publish.
  pose proof (getMatchingHandlers_perm (cl_bus c) _ ch Hb) as Hperm.
  rewrite filter_flat_map, map_flat_map in Hperm.
  rewrite (flat_map_ext _ (fun _ => [])) in Hperm by (intros i; by apply unmatched_subs).
  assert (Hnil : flat_map (fun _ : string => @nil (string * regHandler)) instances = [])
    by (clear; by induction instances).
  rewrite Hnil in Hperm. apply Permutation_nil_r in Hperm. destruct Hb as [-> _].
  rewrite Hperm. done.
Qed.

(** ** What the handlers leave alone *)

(** The routing part of the state is kept. *)
Definition keeps (r r' : Registry D) : Prop :=
  rg_instanceID r' = rg_instanceID r /\ rg_localSessions r' = rg_localSessions r /\
  dom (rg_heap r') = dom (rg_heap r) /\ rg_globalNodes r' = rg_globalNodes r.

Definition frames {A} (m : M (Registry D) A) : Prop := forall r, keeps r (snd (m r)).

Lemma frames_ret {A} (x : result A) : frames (lift x).
Proof. done. Qed.
Lemma frames_get : frames get.
Proof. done. Qed.
Lemma frames_bind {A B} (m : M (Registry D) A) (k : A -> M (Registry D) B) :
  frames m -> (forall a, frames (k a)) -> frames (bind m k).
Proof.
  intros Hm Hk r. specialize (Hm r). unfold bind. destruct (m r) as [[a|e|w] r']; simpl in *; [|done..].
  specialize (Hk a r'). unfold keeps in *. destruct (k a r') as [? r'']. simpl in *. intuition congruence.
Qed.
Lemma frames_wrap {A} msg (m : M (Registry D) A) : frames m -> frames (wrap msg m).
Proof. intros Hm r. specialize (Hm r). unfold wrap. by destruct (m r). Qed.
Lemma frames_attempt {A} (m : M (Registry D) A) : frames m -> frames (attempt m).
Proof. intros Hm r. specialize (Hm r). unfold attempt. by destruct (m r) as [[]?]. Qed.
Lemma frames_waiters f : frames (modify (fun r => rg_set_waiters (f r) r)).
Proof. done. Qed.
Lemma frames_parsed {T} `{Payload T} msg (k : T -> M (Registry D) unit) :
  (forall x, frames (k x)) -> frames (parsed msg k).
Proof. intros Hk r. unfold parsed. destruct (ParsePayload msg) as [x| |]; [apply Hk|done|done]. Qed.

(** Sending on a session touches that session object only. *)
Lemma frames_on_session {A} p (m : M (Session D) A) : frames (on_session p m).
Proof.
  intros r. unfold on_session. destruct (rg_heap r !! p) as [s|] eqn:E; [|done].
  destruct (m s) as [res s']. split_and!; [done|done| |done]. simpl. apply dom_insert_lookup_L. eauto.
Qed.

Ltac solve_frames :=
  intros;
  lazymatch goal with
  | |- frames (bind _ _) => apply frames_bind; solve_frames
  | |- frames (parsed _ _) => apply frames_parsed; solve_frames
  | |- frames (wrap _ _) => apply frames_wrap; solve_frames
  | |- frames (attempt _) => apply frames_attempt; solve_frames
  | |- frames (match ?x with _ => _ end) => destruct x; solve_frames
  | |- frames _ => first [apply frames_on_session | apply frames_waiters | intros ?; done]
  end.

(** The three message handlers keep the routes; a session event keeps the
    local ones. *)
Lemma run_handler_frames h msg : h <> HSessionEvent -> frames (run_handler stream_err UnmarshalVT h msg).
Proof.
  destruct h; intros Hh; [|done| |]; unfold run_handler, handleTaskDispatch, handleAttachDispatch,
    handleMetricsRequest; solve_frames.
Qed.

Lemma session_event_local msg r :
  let r' := snd (handleSessionEvent (D:=D) msg r) in
  rg_instanceID r' = rg_instanceID r /\ rg_localSessions r' = rg_localSessions r /\ rg_heap r' = rg_heap r.
Proof.
  unfold handleSessionEvent, parsed, bind, get, ret, modify. simpl. repeat case_match; done.
Qed.

Lemma run_handler_local h msg r :
  let r' := snd (run_handler stream_err UnmarshalVT h msg r) in
  rg_instanceID r' = rg_instanceID r /\ rg_localSessions r' = rg_localSessions r /\
  dom (rg_heap r') = dom (rg_heap r).
Proof.
  destruct h; simpl.
  - destruct (run_handler_frames HTaskDispatch msg ltac:(done) r) as (? & ? & ? & _). auto.
  - destruct (session_event_local msg r) as (? & ? & ->). auto.
  - destruct (run_handler_frames HAttachDispatch msg ltac:(done) r) as (? & ? & ? & _). auto.
  - destruct (run_handler_frames HMetricsRequest msg ltac:(done) r) as (? & ? & ? & _). auto.
Qed.

Lemma cluster_ok_after instances c c' :
  cluster_ok instances c -> cl_bus c' = cl_bus c ->
  (forall i, rg_instanceID (reg_at i c') = rg_instanceID (reg_at i c)) -> cluster_ok instances c'.
Proof.
  intros [Hb Hnd Hi] Hb' Hr. split; [by rewrite Hb'|done|]. intros i. by rewrite Hr.
Qed.

(** ** Delivery of tasks *)

(** What a dispatched message does on one instance. *)
Definition deliver (n : N) (m : GatewayMessage) (r : Registry D) : Registry D :=
  match rg_localSessions r !! n with
  | Some p => snd (on_session p (Send stream_err m) r)
  | None => r
  end.

Lemma handle_dispatched st n m data r :
  (n < two64)%N -> (GetTaskId m < two64)%N -> UnmarshalVT data = Ok m ->
  snd (handleTaskDispatch stream_err UnmarshalVT (set_source "memory"
    (mkMessage (st_id st) (BuildDaemonTaskDispatchChannel n) TypeDaemonTask
      (to_json (mkTaskDispatchPayload n (gw_RequestId m) (GetTaskId m) data)) (st_now st) "")) r)
  = deliver n m r.
Proof.
  intros Hn Ht Hd. unfold handleTaskDispatch, deliver, parsed, ParsePayload. cbn [msg_Channel set_source msg_Payload].
  rewrite payload_roundtrip by by split. rewrite extract_dispatch_channel by done.
  unfold bind, get. simpl. destruct (rg_localSessions r !! n) as [p|]; [|done].
  rewrite Hd. unfold wrap. by destruct (on_session p (Send stream_err m) r).
Qed.

Lemma SendTask_remote instances a n m data st c :
  cluster_ok instances c -> rg_localSessions (reg_at a c) !! n = None ->
  (n < two64)%N -> (GetTaskId m < two64)%N -> MarshalVT m = Ok data -> UnmarshalVT data = Ok m ->
  exists c', SendTask_at a st n m c = (Ok tt, c') /\ cl_bus c' = cl_bus c /\
    forall i, reg_at i c' = if decide (i ∈ instances) then deliver n m (reg_at i c) else reg_at i c.
Proof.
  intros Hok Hloc Hn Ht Hm Hd. unfold SendTask_at, SendTask, bind, get. rewrite Hloc.
  unfold dispatchViaPubSub, bind, wrap, lift. rewrite Hm. simpl.
  destruct (publish_runs instances c HTaskDispatch DaemonTaskDispatch (FormatUint n)
    (mkMessage (st_id st) (BuildDaemonTaskDispatchChannel n) TypeDaemonTask
      (to_json (mkTaskDispatchPayload n (gw_RequestId m) (GetTaskId m) data)) (st_now st) ""))
    as (c' & E & Hb & Hr); [done|set_solver|].
  exists c'. split; [exact E|]. split; [done|]. intros i. rewrite Hr. case_decide; [|done].
  by apply handle_dispatched.
Qed.

(** ** Session events *)

Definition ptr_ok (r : Registry D) : Prop :=
  forall n p, rg_localSessions r !! n = Some p -> is_Some (rg_heap r !! p).

Lemma register_local_spec p s r :
  rg_heap r !! p = Some s -> ptr_ok r ->
  exists r', register_local p r = (Ok s, r') /\ rg_instanceID r' = rg_instanceID r /\
    rg_localSessions r' = <[se_NodeID s := p]> (rg_localSessions r) /\
    rg_globalNodes r' = rg_globalNodes r /\ dom (rg_heap r') = dom (rg_heap r).
Proof.
  intros Hp Hptr. unfold register_local, bind, get, ret, modify. simpl. rewrite Hp.
  destruct (rg_localSessions r !! se_NodeID s) as [old|] eqn:Eold; simpl; [|eexists; by split_and!].
  destruct (frames_on_session old (modify Session.Cancel) r) as (H1 & H2 & H3 & H4).
  destruct (Hptr _ _ Eold) as [so Hso]. unfold on_session, modify in *. rewrite Hso in *. simpl in *.
  eexists. by split_and!.
Qed.

Lemma event_payload st tp n i v t :
  (n < two64)%N ->
  ParsePayload (T:=DaemonSessionPayload) (set_source "memory"
    (mkMessage (st_id st) tp tp (to_json (mkSessionPayload n i v t)) (st_now st) ""))
  = Ok (mkSessionPayload n i v t).
Proof. intros Hn. unfold ParsePayload. cbn [msg_Payload set_source]. by rewrite payload_roundtrip. Qed.

(** What a session event does to one instance's view. *)
Definition see_connected (n : N) (i : string) (r : Registry D) : Registry D :=
  if String.eqb i (rg_instanceID r) then r else rg_set_global (<[n := i]> (rg_globalNodes r)) r.
Definition see_closed (n : N) (r : Registry D) : Registry D :=
  rg_set_global (delete n (rg_globalNodes r)) r.

Lemma publish_event instances c ch tp st n i v t (f : Registry D -> Registry D) :
  cluster_ok instances c -> (n < two64)%N ->
  (ch, tp, f) = (DaemonSessionConnected, TypeDaemonConnected, see_connected n i) \/
  (ch, tp, f) = (DaemonSessionClosed, TypeDaemonClosed, see_closed n) ->
  exists c', publish ch (mkMessage (st_id st) ch tp (to_json (mkSessionPayload n i v t)) (st_now st) "") c = (Ok tt, c') /\
    cl_bus c' = cl_bus c /\
    forall j, reg_at j c' = if decide (j ∈ instances) then f (reg_at j c) else reg_at j c.
Proof.
  intros Hok Hn Hcase.
  assert (Hin : (DaemonPrefix +:+ "session:", HSessionEvent) ∈
    [(DaemonTaskDispatch, HTaskDispatch); (DaemonPrefix +:+ "session:", HSessionEvent);
     (DaemonAttachDispatch, HAttachDispatch); (DaemonMetricsRequest, HMetricsRequest)]).
  { apply list.elem_of_cons. right. apply list.elem_of_cons. by left. }
  set (msg := mkMessage (st_id st) ch tp (to_json (mkSessionPayload n i v t)) (st_now st) "").
  assert (Hmsg : ParsePayload (T:=DaemonSessionPayload) (set_source "memory" msg) = Ok (mkSessionPayload n i v t)).
  { unfold ParsePayload. cbn [msg_Payload set_source msg]. by rewrite payload_roundtrip. }
  assert (Hrun : forall r, snd (run_handler stream_err UnmarshalVT HSessionEvent (set_source "memory" msg) r) = f r).
  { intros r. simpl. unfold handleSessionEvent, parsed. rewrite Hmsg.
    destruct Hcase as [[= -> -> ->]|[= -> -> ->]]; simpl.
    - unfold see_connected, bind, get, modify, ret. simpl. by destruct (String.eqb i (rg_instanceID r)).
    - done. }
  destruct Hcase as [[= Ec _ _]|[= Ec _ _]];
    [destruct (publish_runs instances c HSessionEvent _ "connected" msg Hok Hin) as (c' & E & Hb & Hr)
    |destruct (publish_runs instances c HSessionEvent _ "closed" msg Hok Hin) as (c' & E & Hb & Hr)];
    (exists c'; rewrite Ec; split; [exact E|]; split; [done|]; intros j; rewrite Hr; case_decide; [apply Hrun|done]).
Qed.

Lemma set_reg_at i r c j : reg_at j (set_reg i r c) = if decide (i = j) then r else reg_at j c.
Proof. unfold reg_at, set_reg. simpl. rewrite lookup_insert. by case_decide. Qed.

Lemma cluster_ok_set instances i r c :
  cluster_ok instances c -> rg_instanceID r = i -> cluster_ok instances (set_reg i r c).
Proof.
  intros [Hb Hn Hi] Hr. split; [done|done|]. intros j. rewrite set_reg_at. case_decide; congruence.
Qed.

Lemma Register_at_spec instances i now st p s c :
  cluster_ok instances c -> i ∈ instances -> rg_heap (reg_at i c) !! p = Some s -> ptr_ok (reg_at i c) ->
  (se_NodeID s < two64)%N ->
  exists c', Register_at i now st p c = (Ok tt, c') /\ cluster_ok instances c' /\
    forall j, j ∈ instances ->
      rg_localSessions (reg_at j c') =
        (if decide (i = j) then <[se_NodeID s := p]> (rg_localSessions (reg_at i c)) else rg_localSessions (reg_at j c)) /\
      rg_globalNodes (reg_at j c') =
        (if decide (i = j) then rg_globalNodes (reg_at i c) else <[se_NodeID s := i]> (rg_globalNodes (reg_at j c))) /\
      dom (rg_heap (reg_at j c')) = dom (rg_heap (reg_at j c)).
Proof.
  intros Hok Hi Hp Hptr Hn. destruct (register_local_spec p s (reg_at i c) Hp Hptr) as (r1 & E1 & Hid1 & Hl1 & Hg1 & Hd1).
  rewrite (co_ids _ _ Hok) in Hid1.
  assert (Hok1 : cluster_ok instances (set_reg i r1 c)) by by apply cluster_ok_set.
  destruct (publish_event instances (set_reg i r1 c) DaemonSessionConnected TypeDaemonConnected st
    (se_NodeID s) i (se_Version s) now (see_connected (se_NodeID s) i)) as (c' & E & Hb & Hr); [done|done|by left|].
  exists c'. split_and!.
  - unfold Register_at, Register, bind, on_reg, zoom, get, wrap, lift, attempt, ret. rewrite E1. simpl.
    assert (Hid : rg_instanceID (reg_at i (set_reg i r1 c)) = i) by (rewrite set_reg_at, decide_True by done; done).
    rewrite Hid. simpl in E. rewrite E. done.
  - apply (cluster_ok_after _ _ _ Hok1 Hb). intros j. rewrite Hr. case_decide; [|done].
    unfold see_connected. by case_match.
  - intros j Hj. rewrite Hr, decide_True by done. unfold see_connected. rewrite (co_ids _ _ Hok1), set_reg_at.
    destruct (decide (i = j)) as [<-|Hij].
    + rewrite String.eqb_refl. by split_and!.
    + apply String.eqb_neq in Hij. by rewrite Hij.
Qed.

Lemma Unregister_at_spec instances i st n c :
  cluster_ok instances c -> i ∈ instances -> ptr_ok (reg_at i c) -> (n < two64)%N ->
  exists c', Unregister_at i st n c = (Ok tt, c') /\ cluster_ok instances c' /\
    forall j, j ∈ instances ->
      rg_localSessions (reg_at j c') =
        (if decide (i = j) then delete n (rg_localSessions (reg_at i c)) else rg_localSessions (reg_at j c)) /\
      rg_globalNodes (reg_at j c') =
        (if rg_localSessions (reg_at i c) !! n is Some _ then delete n (rg_globalNodes (reg_at j c)) else rg_globalNodes (reg_at j c)) /\
      rg_heap (reg_at j c') = rg_heap (reg_at j c).
Proof.
  intros Hok Hi Hptr Hn. unfold Unregister_at, Unregister, unregister_local, on_reg, bind, zoom, get, wrap, lift, attempt, ret, modify.
  destruct (rg_localSessions (reg_at i c) !! n) as [p|] eqn:Ep; simpl.
  - destruct (Hptr _ _ Ep) as [s Hs]. rewrite Hs. simpl.
    set (r1 := rg_set_local (delete n (rg_localSessions (reg_at i c))) (reg_at i c)).
    assert (Hok1 : cluster_ok instances (set_reg i r1 c)).
    { apply cluster_ok_set; [done|]. apply (co_ids _ _ Hok). }
    destruct (publish_event instances (set_reg i r1 c) DaemonSessionClosed TypeDaemonClosed st
      n i (se_Version s) (se_ConnectedAt s) (see_closed n)) as (c' & E & Hb & Hr); [done|done|by right|].
    exists c'. split_and!.
    + assert (Hid : rg_instanceID (reg_at i (set_reg i r1 c)) = i).
      { rewrite set_reg_at, decide_True by done. apply (co_ids _ _ Hok). }
      rewrite Hid. simpl in E. rewrite E. done.
    + apply (cluster_ok_after _ _ _ Hok1 Hb). intros j. rewrite Hr. by case_decide.
    + intros j Hj. rewrite Hr, decide_True by done. unfold see_closed. simpl. rewrite set_reg_at.
      by destruct (decide (i = j)) as [<-|Hij].
  - exists (set_reg i (reg_at i c) c). split_and!; [done|apply cluster_ok_set; [done|apply (co_ids _ _ Hok)]|].
    intros j Hj. rewrite set_reg_at. destruct (decide (i = j)) as [<-|Hij]; [|done].
    by rewrite delete_id.
Qed.

Lemma SendTask_keeps instances i st n m c :
  cluster_ok instances c -> i ∈ instances ->
  let c' := snd (SendTask_at i st n m c) in
  cluster_ok instances c' /\ forall j, keeps (reg_at j c) (reg_at j c').
Proof.
  intros Hok Hi. unfold SendTask_at, SendTask, bind, get.
  assert (Hsame : cluster_ok instances c /\ forall j, keeps (reg_at j c) (reg_at j c)) by done.
  destruct (rg_localSessions (reg_at i c) !! n) as [p|].
  - unfold wrap, on_reg, zoom.
    pose proof (frames_on_session p (Send stream_err m) (reg_at i c)) as Hk.
    destruct (on_session p (Send stream_err m) (reg_at i c)) as [r reg]. simpl in *.
    destruct Hk as (H1 & H2 & H3 & H4). rewrite (co_ids _ _ Hok) in H1. split; [by apply cluster_ok_set|].
    intros j. rewrite set_reg_at. destruct (decide (i = j)) as [<-|Hij]; [|done]. unfold keeps. by rewrite H1, (co_ids _ _ Hok).
  - unfold dispatchViaPubSub, bind, wrap, lift. destruct (MarshalVT m) as [d| |]; simpl; [|done..].
    match goal with |- context [publish _ ?msg c] =>
      destruct (publish_runs instances c HTaskDispatch DaemonTaskDispatch (FormatUint n) msg Hok) as (c' & E & Hb & Hr) end.
    { by apply list.elem_of_cons; left. }
    fold (BuildDaemonTaskDispatchChannel n) in E. rewrite E. simpl. split.
    + apply (cluster_ok_after _ _ _ Hok Hb). intros j. rewrite Hr. case_decide; [|done].
      by apply run_handler_frames.
    + intros j. rewrite Hr. case_decide; [|done]. by apply run_handler_frames.
Qed.

(** ** Where a daemon is *)

(** The panel's life when a daemon leaves one instance before it connects to
    another: connections, disconnections, tasks sent from anywhere. *)
Inductive cluster_step (instances : list string) : Cluster -> Cluster -> Prop :=
| cs_connect i now st s c :
    i ∈ instances -> (se_NodeID s < two64)%N ->
    (forall j, j ∈ instances -> j <> i -> rg_localSessions (reg_at j c) !! se_NodeID s = None) ->
    let '(p, r) := (fresh (dom (rg_heap (reg_at i c))), snd (alloc_session s (reg_at i c))) in
    cluster_step instances c (snd (Register_at i now st p (set_reg i r c)))
| cs_disconnect i st n c :
    i ∈ instances -> (n < two64)%N -> cluster_step instances c (snd (Unregister_at i st n c))
| cs_task i st n m c :
    i ∈ instances -> cluster_step instances c (snd (SendTask_at i st n m c)).

Record view_ok (instances : list string) (c : Cluster) : Prop := {
  vo_ok : cluster_ok instances c;
  vo_ptr : forall i, i ∈ instances -> ptr_ok (reg_at i c);
  vo_holder : forall i j n, i ∈ instances -> j ∈ instances -> i <> j ->
    is_Some (rg_localSessions (reg_at j c) !! n) ->
    rg_localSessions (reg_at i c) !! n = None /\ rg_globalNodes (reg_at i c) !! n = Some j;
  vo_global : forall i j n, i ∈ instances -> rg_globalNodes (reg_at i c) !! n = Some j ->
    j ∈ instances /\ is_Some (rg_localSessions (reg_at j c) !! n);
}.

Lemma view_ok_keeps instances c c' :
  view_ok instances c -> cluster_ok instances c' -> (forall j, keeps (reg_at j c) (reg_at j c')) ->
  view_ok instances c'.
Proof.
  intros [Hok Hptr Hh Hg] Hok' Hk. split; [done| | |].
  - intros i Hi n p. destruct (Hk i) as (_ & -> & Hd & _). intros Hp%(Hptr i Hi).
    apply elem_of_dom. rewrite Hd. by apply elem_of_dom.
  - intros i j n Hi Hj Hij. destruct (Hk i) as (_ & -> & _ & ->), (Hk j) as (_ & -> & _ & _). by apply Hh.
  - intros i j n Hi. destruct (Hk i) as (_ & _ & _ & ->), (Hk j) as (_ & -> & _ & _). by apply Hg.
Qed.

Lemma view_ok_connect instances i now st s c :
  view_ok instances c -> i ∈ instances -> (se_NodeID s < two64)%N ->
  (forall j, j ∈ instances -> j <> i -> rg_localSessions (reg_at j c) !! se_NodeID s = None) ->
  view_ok instances (snd (Register_at i now st (fresh (dom (rg_heap (reg_at i c))))
    (set_reg i (snd (alloc_session s (reg_at i c))) c))).
Proof.
  intros [Hok Hptr Hh Hg] Hi Hn Hfree. unfold alloc_session. cbn [snd].
  set (p := fresh (dom (rg_heap (reg_at i c)))).
  set (r := rg_set_heap (<[p := s]> (rg_heap (reg_at i c))) (reg_at i c)).
  assert (Hok1 : cluster_ok instances (set_reg i r c)) by (apply cluster_ok_set; [done|apply (co_ids _ _ Hok)]).
  assert (Hat : reg_at i (set_reg i r c) = r) by by rewrite set_reg_at, decide_True.
  assert (Hptr1 : ptr_ok r).
  { intros n q Hq%(Hptr i Hi). unfold r. simpl. rewrite lookup_insert. case_decide; eauto. }
  destruct (Register_at_spec instances i now st p s (set_reg i r c)) as (c' & E & Hok' & Hspec); try done.
  { rewrite Hat. unfold r. simpl. by rewrite lookup_insert_eq. }
  { by rewrite Hat. }
  rewrite E. simpl. split; [done| | |].
  - intros j Hj n q. destruct (Hspec j Hj) as (Hl & _ & Hd). rewrite Hl, <- elem_of_dom, Hd, elem_of_dom.
    destruct (decide (i = j)) as [<-|Hij].
    + rewrite Hat. rewrite lookup_insert. case_decide; subst.
      * intros [= <-]. unfold r. simpl. rewrite lookup_insert_eq. eauto.
      * apply Hptr1.
    + rewrite set_reg_at, decide_False by done. by apply Hptr.
  - intros j k n Hj Hk Hjk. destruct (Hspec j Hj) as (-> & -> & _), (Hspec k Hk) as (-> & _ & _).
    rewrite Hat, !set_reg_at.
    destruct (decide (i = k)) as [<-|Hik]; destruct (decide (i = j)) as [<-|Hij]; try done.
    + rewrite !lookup_insert. case_decide as En; subst.
      * intros _. split; [by apply Hfree|done].
      * intros Hs. by apply (Hh j i n).
    + intros Hs. destruct (decide (se_NodeID s = n)) as [<-|Hn'].
      { rewrite (Hfree k Hk) in Hs by done. by destruct Hs. }
      rewrite lookup_insert_ne by done. by apply (Hh i k n).
    + intros Hs. destruct (decide (se_NodeID s = n)) as [<-|Hn'].
      { rewrite (Hfree k Hk) in Hs by done. by destruct Hs. }
      rewrite lookup_insert_ne by done. by apply (Hh j k n).
  - intros j k n Hj. destruct (Hspec j Hj) as (_ & -> & _). rewrite Hat, !set_reg_at.
    assert (Hkeep : rg_globalNodes (reg_at j c) !! n = Some k ->
      k ∈ instances /\ is_Some (rg_localSessions (reg_at k c') !! n)).
    { intros Hk. destruct (Hg j k n Hj Hk) as [Hki Hs]. split; [done|].
      destruct (Hspec k Hki) as (-> & _ & _). rewrite Hat, set_reg_at.
      destruct (decide (i = k)) as [<-|]; [|done]. rewrite lookup_insert. case_decide; eauto. }
    destruct (decide (i = j)) as [<-|Hij]; [exact Hkeep|].
    rewrite lookup_insert. case_decide; subst; [|exact Hkeep].
    intros [= <-]. split; [done|]. destruct (Hspec i Hi) as (-> & _ & _).
    rewrite decide_True, lookup_insert_eq by done. eauto.
Qed.

Lemma view_ok_disconnect instances i st n c :
  view_ok instances c -> i ∈ instances -> (n < two64)%N ->
  view_ok instances (snd (Unregister_at i st n c)).
Proof.
  intros Hv Hi Hn. pose proof Hv as [Hok Hptr Hh Hg].
  destruct (Unregister_at_spec instances i st n c Hok Hi (Hptr i Hi) Hn) as (c' & E & Hok' & Hspec).
  rewrite E. simpl. split; [done| | |].
  - intros j Hj m p. destruct (Hspec j Hj) as (-> & _ & ->).
    destruct (decide (i = j)) as [<-|]; [|by apply Hptr].
    rewrite lookup_delete. case_decide; [done|]. by apply Hptr.
  - intros j k m Hj Hk Hjk. destruct (Hspec j Hj) as (-> & -> & _), (Hspec k Hk) as (-> & _ & _).
    intros Hs. assert (Hs0 : is_Some (rg_localSessions (reg_at k c) !! m) /\ (i = k -> m <> n)).
    { destruct (decide (i = k)) as [<-|]; [|done]. rewrite lookup_delete in Hs.
      case_decide as Em; [by destruct Hs|]. split; [done|]. intros _ ->. by apply Em. }
    clear Hs. destruct Hs0 as [Hs0 Hne]. destruct (Hh j k m Hj Hk Hjk Hs0) as [Hn1 Hg1]. split.
    + destruct (decide (i = j)) as [<-|]; [|done]. apply lookup_delete_None; auto.
    + destruct (rg_localSessions (reg_at i c) !! n) eqn:Ein; [|done].
      rewrite lookup_delete. case_decide as Em; [|done]. subst m. exfalso.
      destruct (decide (i = k)) as [->|Hik]; [by apply Hne|].
      destruct (Hh k i n Hk Hi) as [Hkn _]; [done|eauto|]. rewrite Hkn in Hs0. by destruct Hs0.
  - intros j k m Hj. destruct (Hspec j Hj) as (_ & -> & _).
    intros Hjm. assert (Hjm0 : rg_globalNodes (reg_at j c) !! m = Some k).
    { destruct (rg_localSessions (reg_at i c) !! n); [|done]. rewrite lookup_delete in Hjm. by case_decide. }
    destruct (Hg j k m Hj Hjm0) as [Hk Hs]. split; [done|]. destruct (Hspec k Hk) as (-> & _ & _).
    destruct (decide (i = k)) as [<-|]; [|done]. rewrite lookup_delete. case_decide as Em; [|done].
    subst m. destruct Hs as [p Hp]. rewrite Hp, lookup_delete in Hjm. by rewrite decide_True in Hjm.
Qed.

Lemma view_ok_step instances c c' : cluster_step instances c c' -> view_ok instances c -> view_ok instances c'.
Proof.
  intros Hstep Hv. destruct Hstep as [i now st s c Hi Hn Hfree|i st n c Hi Hn|i st n m c Hi].
  - by apply view_ok_connect.
  - by apply view_ok_disconnect.
  - destruct (SendTask_keeps instances i st n m c (vo_ok _ _ Hv) Hi). by eapply view_ok_keeps.
Qed.

Lemma boot_empty instances i : reg_at i (boot instances) = NewRegistry i.
Proof.
  unfold boot.
  assert (Hgen : forall c l, (forall j, reg_at j c = NewRegistry j) -> mem_refines (cl_bus c) (Some l) ->
    reg_at i (foldl (fun c i => snd (Start (subscribe_at i) (set_reg i (NewRegistry i) c))) c instances) = NewRegistry i).
  { induction instances as [|k ks IH]; intros c l Hc Hb; simpl; [apply Hc|].
    destruct (Start_bus k (set_reg k (NewRegistry k) c) l Hb) as [Hb' Hr'].
    eapply IH; [|exact Hb']. intros j. unfold reg_at. rewrite Hr'. fold (reg_at j (set_reg k (NewRegistry k) c)).
    rewrite set_reg_at. by case_decide; subst. }
  eapply Hgen; [|apply mem_refines_new]. intros j. unfold reg_at. simpl. by rewrite lookup_empty.
Qed.

Lemma boot_view instances : NoDup instances -> view_ok instances (boot instances).
Proof.
  intros Hnd. split; [by apply boot_ok|..].
  - intros i _ n p. rewrite boot_empty. simpl. by rewrite lookup_empty.
  - intros i j n _ _ _. rewrite (boot_empty _ j). simpl. rewrite lookup_empty. by intros [? ?].
  - intros i j n _. rewrite boot_empty. simpl. by rewrite lookup_empty.
Qed.

Definition cluster_reachable (instances : list string) : Cluster -> Prop :=
  rtc (cluster_step instances) (boot instances).

Lemma cluster_reachable_view instances c : NoDup instances -> cluster_reachable instances c -> view_ok instances c.
Proof.
  intros Hnd Hr. pose proof (boot_view instances Hnd) as H0. unfold cluster_reachable in Hr.
  induction Hr; eauto using view_ok_step.
Qed.

(** C7: a task sent through any instance reaches the daemon wherever it is
    connected: when the sending instance does not hold the node the task goes
    over the bus and is put, unchanged, on the stream of every session held for
    that node on any instance (and of no other session), and the sender gets no
    error even if that stream refuses it; when the sending instance holds the
    node, its stream gets the task directly and the stream's error is returned. *)
Theorem task_reaches_holder instances a n m data st c :
  cluster_ok instances c -> a ∈ instances -> (n < two64)%N -> (GetTaskId m < two64)%N ->
  MarshalVT m = Ok data -> UnmarshalVT data = Ok m ->
  match rg_localSessions (reg_at a c) !! n with
  | None => exists c', SendTask_at a st n m c = (Ok tt, c') /\
      forall i, i ∈ instances -> reg_at i c' = deliver n m (reg_at i c)
  | Some p => exists res c', SendTask_at a st n m c = (res, c') /\
      reg_at a c' = deliver n m (reg_at a c) /\ (forall i, i <> a -> reg_at i c' = reg_at i c) /\
      res = wrap_err "send task to local session" (fst (on_session p (Send stream_err m) (reg_at a c)))
  end.
Proof.
  intros Hok Ha Hn Ht Hm Hd. destruct (rg_localSessions (reg_at a c) !! n) as [p|] eqn:Ep.
  - unfold SendTask_at, SendTask, bind, get, wrap, on_reg, zoom, deliver. rewrite Ep.
    destruct (on_session p (Send stream_err m) (reg_at a c)) as [res reg].
    eexists _, _. split; [done|]. split_and!; [by rewrite set_reg_at, decide_True| |done].
    intros i Hi. rewrite set_reg_at. by rewrite decide_False by congruence.
  - destruct (SendTask_remote instances a n m data st c) as (c' & E & _ & Hr); [done..|].
    exists c'. split; [done|]. intros i Hi. by rewrite Hr, decide_True.
Qed.

(** With all instances started first and a bus that delivers at once: as long as
    every daemon leaves one instance before it connects to
    another, every instance answers exactly which nodes are connected
    somewhere, after any sequence of connections, disconnections and tasks. *)
Lemma connected_anywhere_exact instances c i n :
  NoDup instances -> cluster_reachable instances c -> i ∈ instances ->
  IsConnectedAnywhere n (reg_at i c) = true <->
  exists j, j ∈ instances /\ IsConnected n (reg_at j c) = true.
Proof.
  intros Hnd Hr Hi. destruct (cluster_reachable_view instances c Hnd Hr) as [_ _ Hh Hg].
  unfold IsConnectedAnywhere, IsConnected, GetSession. split.
  - case_bool_decide as Hl.
    + intros _. exists i. split; [done|]. by rewrite bool_decide_eq_true.
    + rewrite bool_decide_eq_true. intros [j Hj]. destruct (Hg i j n Hi Hj) as [Hji Hs].
      exists j. split; [done|]. by rewrite bool_decide_eq_true.
  - intros (j & Hj & Hs). rewrite bool_decide_eq_true in Hs.
    destruct (decide (i = j)) as [<-|Hij]; [by rewrite bool_decide_true|].
    destruct (Hh i j n Hi Hj Hij Hs) as [_ Hgj]. case_bool_decide; [done|].
    rewrite bool_decide_eq_true. eauto.
Qed.

(** Without that discipline the answer is wrong: when a daemon has
    connected to [b] and its old stream on [a] ends afterwards, the closing
    event of [a] makes every third instance forget the node, although [b] still
    holds its session. *)
Lemma late_close_hides_node instances a b n st c :
  cluster_ok instances c -> a ∈ instances -> b ∈ instances -> a <> b -> (n < two64)%N ->
  ptr_ok (reg_at a c) -> IsConnected n (reg_at a c) = true -> IsConnected n (reg_at b c) = true ->
  exists c', Unregister_at a st n c = (Ok tt, c') /\ IsConnected n (reg_at b c') = true /\
    forall k, k ∈ instances -> IsConnected n (reg_at k c') = false -> IsConnectedAnywhere n (reg_at k c') = false.
Proof.
  intros Hok Ha Hb Hab Hn Hptr Hca Hcb.
  destruct (Unregister_at_spec instances a st n c Hok Ha Hptr Hn) as (c' & E & _ & Hspec).
  unfold IsConnectedAnywhere, IsConnected, GetSession in *. rewrite !bool_decide_eq_true in *.
  exists c'. split_and!; [done| |].
  - destruct (Hspec b Hb) as (-> & _ & _). rewrite decide_False by done. by apply bool_decide_eq_true.
  - intros k Hk ->. destruct (Hspec k Hk) as (_ & -> & _). destruct Hca as [p ->].
    rewrite lookup_delete_eq. apply bool_decide_eq_false. by intros [? ?].
Qed.

(** A command for a node that this instance does not hold is published
    where no instance listens: the caller gets nil and no session on any
    instance receives anything. *)
Lemma remote_command_is_lost instances a n cmd st c :
  cluster_ok instances c -> rg_localSessions (reg_at a c) !! n = None ->
  SendCommand_at a st n cmd c = (Ok tt, c).
Proof.
  intros Hok Hloc. unfold SendCommand_at, SendCommand, dispatchCommandViaPubSub, bind, get, wrap, lift.
  rewrite Hloc. simpl. eapply publish_unheard; [exact Hok|].
  unfold handler_of. destruct (stems_disjoint (BuildDaemonCommandDispatchChannel n)) as (-> & -> & -> & ->).
  reflexivity.
Qed.
End cluster.

(** ** Examples: three instances, streams that take everything *)

Definition sample_stream (_ : Session unit) (_ : GatewayMessage) : option error := None.
Definition sample_task_msg : GatewayMessage :=
  mkGatewayMessage "r1" (GM_TaskCancel 5 "stop").
(** An encoding good enough for the sample message. *)
Definition sample_marshal (m : GatewayMessage) : result string :=
  Ok (gw_RequestId m).
Definition sample_unmarshal (d : string) : result GatewayMessage :=
  if String.eqb d "r1" then Ok sample_task_msg else Err (ENew "unexpected EOF").

Definition sample_instances : list string := ["a"; "b"; "c"]%string.
Definition sample_session (now : time) : Session unit := NewSession now 7 "1.0" [] true.
Definition sample_st : Stamp := mkStamp "id" 9.

(** Node 7 connects to an instance. *)
Definition connect (i : string) (now : time) (c : Cluster) : Cluster :=
  let '(p, r) := (fresh (dom (rg_heap (reg_at i c))), snd (alloc_session (sample_session now) (reg_at i c))) in
  snd (Register_at sample_stream sample_unmarshal i now sample_st p (set_reg i r c)).

Definition at_b : Cluster := connect "b" 2 (boot sample_instances).
Definition at_a_then_b : Cluster := connect "b" 3 (connect "a" 2 (boot sample_instances)).

Lemma sample_nodup : NoDup sample_instances.
Proof. apply (bool_decide_unpack _). vm_compute. exact I. Defined.

Lemma at_b_reachable : cluster_reachable sample_stream sample_marshal sample_unmarshal sample_instances at_b.
Proof.
  eapply rtc_l; [|apply rtc_refl].
  apply (cs_connect sample_stream sample_marshal sample_unmarshal sample_instances "b" 2 sample_st (sample_session 2)).
  - apply (bool_decide_unpack _). vm_compute. exact I.
  - reflexivity.
  - intros j _ _. rewrite boot_empty. reflexivity.
Defined.

Lemma task_reaches_holder_witness :
  exists c', SendTask_at sample_stream sample_marshal sample_unmarshal "a" sample_st 7 sample_task_msg at_b = (Ok tt, c') /\
    option_map se_sent (rg_heap (reg_at "b" c') !! fresh (∅ : gset N)) = Some [sample_task_msg].
Proof.
  pose proof (task_reaches_holder sample_stream sample_marshal sample_unmarshal sample_instances "a" 7 sample_task_msg "r1"
    sample_st at_b) as H.
  assert (Hok : cluster_ok sample_instances at_b).
  { apply (vo_ok _ _ (cluster_reachable_view _ _ _ _ _ sample_nodup at_b_reachable)). }
  specialize (H Hok ltac:(apply (bool_decide_unpack _); vm_compute; exact I) eq_refl eq_refl eq_refl eq_refl).
  assert (Hloc : rg_localSessions (reg_at "a" at_b) !! 7%N = None) by (vm_compute; reflexivity).
  rewrite Hloc in H. destruct H as (c' & E & Hr). exists c'. split; [exact E|].
  rewrite (Hr "b"%string) by (apply (bool_decide_unpack _); vm_compute; exact I). vm_compute. reflexivity.
Defined.

