(* ===== verification/ClusterBus.v ===== *)
(** Panel instances joined by a bus that delivers later: publishing only puts a
    message into the queue of every instance that is subscribed at that moment,
    and each instance takes the messages of its queue one at a time, in the
    order they were published (the way the Redis bus of [internal/pubsub/redis]
    works: one connection per instance and one goroutine that runs the
    handlers).  Instances may be started at any time.  The operations of the
    registry are those of [Registry], over this bus. *)

From S2P Require Import Prelude.
From S2P Require Import GoNum.
From S2P Require Import Domain.
From S2P Require Import Converters.
From S2P Require Import PubSub.
From S2P Require Import Session.
From S2P Require Import Registry.
From S2P Require Import Cluster.
From stdpp Require Import base tactics strings list gmap numbers.
From Stdlib Require Import NArith ZArith.

Section net.
Context {D : Type}.
Context (stream_err : Session D -> GatewayMessage -> option error).
Context (MarshalVT : GatewayMessage -> result string) (UnmarshalVT : string -> result GatewayMessage).

(** The instances: their registries, what they are subscribed to, and the
    messages that wait for them. *)
Record Net : Type := mkNet {
  nt_regs : gmap string (Registry D);
  nt_subs : gmap string (list (string * regHandler));
  nt_inbox : gmap string (list Message);
}.

Definition net_new : Net := mkNet ∅ ∅ ∅.
Definition net_reg (i : string) (c : Net) : Registry D := default (NewRegistry i) (nt_regs c !! i).
Definition net_set_reg (i : string) (r : Registry D) (c : Net) : Net :=
  mkNet (<[i := r]> (nt_regs c)) (nt_subs c) (nt_inbox c).
Definition net_subs (i : string) (c : Net) : list (string * regHandler) := default [] (nt_subs c !! i).
Definition inbox (i : string) (c : Net) : list Message := default [] (nt_inbox c !! i).
Definition started (i : string) (c : Net) : Prop := is_Some (nt_inbox c !! i).

(** The handlers of one instance for a channel. *)
Definition matching (ch : string) (subs : list (string * regHandler)) : list regHandler :=
  map snd (filter (fun x => MatchPattern (fst x) ch = true) subs).

(** Publishing from instance [src]. *)
Definition net_publish (src : string) (ch : string) (msg : Message) : M Net unit := fun c =>
  (Ok tt, mkNet (nt_regs c) (nt_subs c)
    (map_imap (fun i l => Some (if matching ch (net_subs i c) is [] then l else l ++ [set_source src msg])) (nt_inbox c))).

Definition net_subscribe (i : string) (pattern : string) (h : regHandler) : M Net unit := fun c =>
  (Ok tt, mkNet (nt_regs c) (<[i := net_subs i c ++ [(pattern, h)]]> (nt_subs c)) (nt_inbox c)).

(** A new instance, with the subscriptions of its registry. *)
Definition net_start (i : string) (c : Net) : Net :=
  snd (Start (net_subscribe i) (mkNet (<[i := NewRegistry i]> (nt_regs c)) (nt_subs c) (<[i := []]> (nt_inbox c)))).

(** The instance takes one message and runs the handlers for its channel. *)
Definition take_message (hs : list regHandler) (m : Message) (r : Registry D) : Registry D :=
  foldl (fun r h => snd (run_handler stream_err UnmarshalVT h m r)) r hs.
Definition net_hear (i : string) (m : Message) (rest : list Message) (c : Net) : Net :=
  mkNet (<[i := take_message (matching (msg_Channel m) (net_subs i c)) m (net_reg i c)]> (nt_regs c))
    (nt_subs c) (<[i := rest]> (nt_inbox c)).

Definition net_Register (i : string) := @Register D Net (net_reg i) (net_set_reg i) (net_publish i).
Definition net_Unregister (i : string) := @Unregister D Net (net_reg i) (net_set_reg i) (net_publish i).
Definition net_SendTask (i : string) := @SendTask D stream_err MarshalVT Net (net_reg i) (net_set_reg i) (net_publish i).

(** ** What happens *)

Inductive net_event : Type :=
| NStart (i : string)
| NConnect (i : string) (n : N)
| NDisconnect (i : string) (n : N)
| NTask (i : string) (n : N)
| NHear (i : string).

(** A daemon has left every other instance before an instance accepts it; no
    more is asked of the order of things. *)
Inductive net_step : net_event -> Net -> Net -> Prop :=
| ns_start i c : ~ started i c -> net_step (NStart i) c (net_start i c)
| ns_connect i now st s c :
    started i c -> (se_NodeID s < two64)%N ->
    (forall j, j <> i -> rg_localSessions (net_reg j c) !! se_NodeID s = None) ->
    let '(p, r) := (fresh (dom (rg_heap (net_reg i c))), snd (alloc_session s (net_reg i c))) in
    net_step (NConnect i (se_NodeID s)) c (snd (net_Register i now st p (net_set_reg i r c)))
| ns_disconnect i st n c :
    started i c -> (n < two64)%N -> net_step (NDisconnect i n) c (snd (net_Unregister i st n c))
| ns_task i st n m c :
    started i c -> net_step (NTask i n) c (snd (net_SendTask i st n m c))
| ns_hear i m rest c :
    nt_inbox c !! i = Some (m :: rest) -> net_step (NHear i) c (net_hear i m rest c).

Inductive net_run : list net_event -> Net -> Prop :=
| net_run_new : net_run [] net_new
| net_run_step tr e c c' : net_run tr c -> net_step e c c' -> net_run (tr ++ [e]) c'.

(** Node [n] connected to instance [j] after instance [i] had started. *)
Definition connected_since (tr : list net_event) (i j : string) (n : N) : Prop :=
  exists tr1 tr2, tr = tr1 ++ tr2 /\ NStart i ∈ tr1 /\ NConnect j n ∈ tr2.

(** ** What a waiting message will do to the view of an instance *)

Definition session_view (i : string) (m : Message) (g : gmap N string) : gmap N string :=
  match ParsePayload (T:=DaemonSessionPayload) m with
  | Ok payload =>
      if String.eqb (msg_Type m) TypeDaemonConnected then
        if String.eqb (dsp_InstanceID payload) i then g else <[dsp_NodeID payload := dsp_InstanceID payload]> g
      else if String.eqb (msg_Type m) TypeDaemonClosed then delete (dsp_NodeID payload) g
      else g
  | _ => g
  end.
Definition event_view (i : string) (m : Message) (g : gmap N string) : gmap N string :=
  if MatchPattern DaemonSessionAll (msg_Channel m) then session_view i m g else g.

Definition own_subs : list (string * regHandler) :=
  [(DaemonTaskDispatchAll, HTaskDispatch); (DaemonSessionAll, HSessionEvent);
   (DaemonAttachDispatchAll, HAttachDispatch); (DaemonMetricsRequestAll, HMetricsRequest)].

Lemma handler_view h m r :
  rg_globalNodes (snd (run_handler stream_err UnmarshalVT h m r)) =
  match h with HSessionEvent => session_view (rg_instanceID r) m (rg_globalNodes r) | _ => rg_globalNodes r end.
Proof.
  assert (Hother : h <> HSessionEvent ->
    rg_globalNodes (snd (run_handler stream_err UnmarshalVT h m r)) = rg_globalNodes r)
    by (intros Hh; by destruct (run_handler_frames stream_err UnmarshalVT h m Hh r) as (_ & _ & _ & ?)).
  destruct h; [by apply Hother| |by apply Hother|by apply Hother].
  simpl. unfold handleSessionEvent, parsed, session_view, bind, get, ret, modify. simpl. repeat case_match; done.
Qed.

(** One handler keeps the identity, the local sessions and the objects. *)
Definition same_place (r r' : Registry D) : Prop :=
  rg_instanceID r' = rg_instanceID r /\ rg_localSessions r' = rg_localSessions r /\ dom (rg_heap r') = dom (rg_heap r).

Lemma take_same_place hs m r : same_place r (take_message hs m r).
Proof.
  revert r. induction hs as [|h hs IH]; intros r; [done|]. simpl.
  destruct (run_handler_local stream_err UnmarshalVT h m r) as (H1 & H2 & H3).
  destruct (IH (snd (run_handler stream_err UnmarshalVT h m r))) as (H4 & H5 & H6).
  unfold same_place. split_and!; congruence.
Qed.

Lemma take_view_of hs m : forall r,
  rg_globalNodes (take_message hs m r) =
  foldl (fun g h => match h with HSessionEvent => session_view (rg_instanceID r) m g | _ => g end) (rg_globalNodes r) hs.
Proof.
  induction hs as [|h hs IH]; intros r; [done|]. simpl. rewrite IH, handler_view.
  by destruct (run_handler_local stream_err UnmarshalVT h m r) as (-> & _).
Qed.

Lemma take_view m r :
  rg_globalNodes (take_message (matching (msg_Channel m) own_subs) m r) =
  event_view (rg_instanceID r) m (rg_globalNodes r).
Proof.
  rewrite take_view_of. unfold matching, own_subs, event_view. rewrite !list.filter_cons, list.filter_nil. cbn [fst].
  destruct (MatchPattern DaemonSessionAll (msg_Channel m)); repeat case_decide; done.
Qed.
(** What instance [i] will know once it has heard everything. *)
Definition knows (i : string) (c : Net) : gmap N string :=
  foldl (fun g m => event_view i m g) (rg_globalNodes (net_reg i c)) (inbox i c).

(** ** What the steps do *)

Record placed (c : Net) : Prop := {
  pl_id : forall i, rg_instanceID (net_reg i c) = i;
  pl_ptr : forall i, ptr_ok (net_reg i c);
  pl_subs : forall i, started i c -> net_subs i c = own_subs;
  pl_idle : forall i, ~ started i c -> net_subs i c = [];
}.

Definition local_at (i : string) (n : N) (c : Net) : Prop := is_Some (rg_localSessions (net_reg i c) !! n).

(** A step that keeps the instances, with the new local sessions and views. *)
Record moves (c c' : Net) (loc : string -> gmap N N -> gmap N N) (f : string -> gmap N string -> gmap N string) : Prop := {
  mv_placed : placed c';
  mv_started : forall i, started i c' <-> started i c;
  mv_local : forall i, rg_localSessions (net_reg i c') = loc i (rg_localSessions (net_reg i c));
  mv_knows : forall i, started i c -> knows i c' = f i (knows i c);
}.

Lemma net_set_reg_at i r c j : net_reg j (net_set_reg i r c) = if decide (i = j) then r else net_reg j c.
Proof. unfold net_reg, net_set_reg. simpl. rewrite lookup_insert. by case_decide. Qed.

Lemma moves_trans c c1 c2 l1 l2 f1 f2 :
  moves c c1 l1 f1 -> moves c1 c2 l2 f2 -> moves c c2 (fun i x => l2 i (l1 i x)) (fun i x => f2 i (f1 i x)).
Proof.
  intros [P1 S1 L1 K1] [P2 S2 L2 K2]. split; [done| | |].
  - intros i. by rewrite S2.
  - intros i. by rewrite L2, L1.
  - intros i Hi. rewrite K2, K1; [done|done|by apply S1].
Qed.

Lemma moves_publish src ch msg c :
  placed c -> msg_Channel msg = ch ->
  moves c (snd (net_publish src ch msg c)) (fun _ x => x) (fun i => event_view i (set_source src msg)).
Proof.
  intros [Hid Hptr Hsubs Hidle] Hch.
  assert (Hst : forall i, started i (snd (net_publish src ch msg c)) <-> started i c).
  { intros i. unfold started. simpl. rewrite map_lookup_imap.
    destruct (nt_inbox c !! i); simpl; [|done]. split; intros _; eauto. }
  split; [|done|done|].
  - split; [done|done| |].
    + intros i Hi. apply Hst in Hi. by apply Hsubs.
    + intros i Hi. apply Hidle. by rewrite <- Hst.
  - intros i [l Hl]. assert (Hs : net_subs i c = own_subs) by (apply Hsubs; by exists l).
    unfold knows, inbox. simpl. rewrite map_lookup_imap, Hl. simpl. rewrite Hs.
    change (net_reg i (snd (net_publish src ch msg c))) with (net_reg i c).
    destruct (matching ch own_subs) as [|h hs] eqn:Em.
    + unfold event_view. cbn [msg_Channel set_source]. rewrite Hch.
      destruct (MatchPattern DaemonSessionAll ch) eqn:E; [|done]. exfalso.
      assert (Hin : HSessionEvent ∈ matching ch own_subs).
      { unfold matching. apply list_elem_of_fmap. exists (DaemonSessionAll, HSessionEvent). split; [done|].
        apply list.list_elem_of_filter. split; [exact E|]. unfold own_subs. set_solver. }
      rewrite Em in Hin. by apply list.elem_of_nil in Hin.
    + by rewrite foldl_app.
Qed.

(** A change of one registry that keeps its identity and view. *)
Lemma moves_local i r c :
  placed c -> started i c -> rg_instanceID r = i -> ptr_ok r -> rg_globalNodes r = rg_globalNodes (net_reg i c) ->
  moves c (net_set_reg i r c) (fun j x => if decide (i = j) then rg_localSessions r else x) (fun _ x => x).
Proof.
  intros [Hid Hptr Hsubs Hidle] Hi Hr Hp Hg. split; [|done| |].
  - split; [| |exact Hsubs|exact Hidle]; intros j; rewrite net_set_reg_at; by case_decide; subst.
  - intros j. rewrite net_set_reg_at. by case_decide.
  - intros j _. unfold knows. change (inbox j (net_set_reg i r c)) with (inbox j c).
    rewrite net_set_reg_at. case_decide; subst; by rewrite ?Hg.
Qed.

Lemma moves_hear i m rest c :
  placed c -> nt_inbox c !! i = Some (m :: rest) ->
  moves c (net_hear i m rest c) (fun _ x => x) (fun _ x => x).
Proof.
  intros [Hid Hptr Hsubs Hidle] Hi. assert (Hs : net_subs i c = own_subs) by (apply Hsubs; by eexists).
  set (r := take_message (matching (msg_Channel m) (net_subs i c)) m (net_reg i c)).
  destruct (take_same_place (matching (msg_Channel m) (net_subs i c)) m (net_reg i c)) as (H1 & H2 & H3).
  assert (Hat : forall j, net_reg j (net_hear i m rest c) = if decide (i = j) then r else net_reg j c).
  { intros j. unfold net_reg, net_hear. simpl. rewrite lookup_insert. by case_decide. }
  assert (Hst : forall j, started j (net_hear i m rest c) <-> started j c).
  { intros j. unfold started, net_hear. simpl. rewrite lookup_insert. case_decide; subst; [|done].
    rewrite Hi. split; intros _; eauto. }
  split; [|done| |].
  - split; [| |intros j Hj; apply Hsubs; by apply Hst|intros j Hj; apply Hidle; by rewrite <- Hst];
      intros j; rewrite Hat; case_decide; subst; [by unfold r; rewrite H1|done| |done].
    intros n p Hp. apply elem_of_dom. unfold r. rewrite H3. apply elem_of_dom.
    unfold r in Hp. rewrite H2 in Hp. by apply (Hptr j n p).
  - intros j. rewrite Hat. case_decide; subst; [by unfold r; rewrite H2|done].
  - intros j _. unfold knows. rewrite Hat. unfold inbox. cbn [nt_inbox net_hear]. rewrite lookup_insert.
    case_decide; subst; [|done]. simpl. rewrite Hi. simpl. unfold r. by rewrite Hs, take_view, Hid.
Qed.
Lemma moves_ext c c' l l' f f' :
  moves c c' l f -> (forall i, l i (rg_localSessions (net_reg i c)) = l' i (rg_localSessions (net_reg i c))) ->
  (forall i, f i (knows i c) = f' i (knows i c)) -> moves c c' l' f'.
Proof.
  intros [P S L K] Hl Hf. split; [done|done| |].
  - intros i. by rewrite L.
  - intros i Hi. by rewrite K.
Qed.

Lemma start_ok i c :
  placed c -> ~ started i c ->
  let c' := net_start i c in
  placed c' /\ (forall j, started j c' <-> j = i \/ started j c) /\
  net_reg i c' = NewRegistry i /\ inbox i c' = [] /\
  forall j, j <> i -> net_reg j c' = net_reg j c /\ inbox j c' = inbox j c.
Proof.
  intros [Hid Hptr Hsubs Hidle] Hi.
  assert (E : net_start i c = mkNet (<[i := NewRegistry i]> (nt_regs c)) (<[i := own_subs]> (nt_subs c)) (<[i := []]> (nt_inbox c))).
  { unfold net_start, Start, bind, wrap, net_subscribe. simpl. f_equal.
    unfold net_subs at 4. simpl. pose proof (Hidle i Hi) as Hn. unfold net_subs in Hn. rewrite Hn.
    unfold net_subs. simpl. repeat (rewrite lookup_insert_eq; simpl). by rewrite !insert_insert_eq. }
  cbv zeta. rewrite E.
  assert (Hreg : forall j, net_reg j (mkNet (<[i := NewRegistry i]> (nt_regs c)) (<[i := own_subs]> (nt_subs c)) (<[i := []]> (nt_inbox c)))
    = if decide (i = j) then NewRegistry i else net_reg j c).
  { intros j. unfold net_reg. simpl. rewrite lookup_insert. by case_decide. }
  assert (Hst : forall j, started j (mkNet (<[i := NewRegistry i]> (nt_regs c)) (<[i := own_subs]> (nt_subs c)) (<[i := []]> (nt_inbox c)))
    <-> j = i \/ started j c).
  { intros j. unfold started. simpl. rewrite lookup_insert. case_decide as Hd; subst.
    - split; [by left|eauto].
    - split; [by right|]. by intros [->|?]. }
  split_and!.
  - split.
    + intros j. rewrite Hreg. by case_decide; subst.
    + intros j. rewrite Hreg. case_decide; [|apply Hptr]. intros n p. simpl. by rewrite lookup_empty.
    + intros j Hj%Hst. unfold net_subs. simpl. rewrite lookup_insert. case_decide; [done|].
      destruct Hj as [->|Hj]; [done|]. by apply Hsubs.
    + intros j Hj. unfold net_subs. simpl. rewrite lookup_insert. case_decide as Hd.
      * subst. exfalso. apply Hj, Hst. by left.
      * apply Hidle. intros Hs. apply Hj, Hst. by right.
  - exact Hst.
  - by rewrite Hreg, decide_True.
  - unfold inbox. simpl. by rewrite lookup_insert_eq.
  - intros j Hj. rewrite Hreg, decide_False by congruence. split; [done|].
    unfold inbox. simpl. by rewrite lookup_insert_ne by congruence.
Qed.

(** The two session events, as a waiting message. *)
Lemma event_connected src st n i v t j g :
  (n < two64)%N ->
  event_view j (set_source src (mkMessage (st_id st) DaemonSessionConnected TypeDaemonConnected
    (to_json (mkSessionPayload n i v t)) (st_now st) "")) g = if decide (i = j) then g else <[n := i]> g.
Proof.
  intros Hn. unfold event_view, session_view, ParsePayload. cbn [msg_Channel msg_Payload msg_Type set_source].
  rewrite payload_roundtrip by done. cbn [dsp_InstanceID dsp_NodeID].
  change (MatchPattern DaemonSessionAll DaemonSessionConnected) with true.
  change (String.eqb TypeDaemonConnected TypeDaemonConnected) with true. cbn [andb].
  destruct (String.eqb_spec i j); by case_decide.
Qed.

Lemma event_closed src st n i v t j g :
  (n < two64)%N ->
  event_view j (set_source src (mkMessage (st_id st) DaemonSessionClosed TypeDaemonClosed
    (to_json (mkSessionPayload n i v t)) (st_now st) "")) g = delete n g.
Proof.
  intros Hn. unfold event_view, session_view, ParsePayload. cbn [msg_Channel msg_Payload msg_Type set_source].
  by rewrite payload_roundtrip by done.
Qed.

Lemma moves_register i now st p s c :
  placed c -> started i c -> (se_NodeID s < two64)%N -> rg_heap (net_reg i c) !! p = Some s ->
  moves c (snd (net_Register i now st p c))
    (fun j x => if decide (i = j) then <[se_NodeID s := p]> x else x)
    (fun j g => if decide (i = j) then g else <[se_NodeID s := i]> g).
Proof.
  intros Hpl Hi Hn Hp.
  destruct (register_local_spec p s (net_reg i c) Hp (pl_ptr c Hpl i)) as (r1 & E1 & Hid1 & Hl1 & Hg1 & Hd1).
  rewrite (pl_id c Hpl) in Hid1.
  assert (Hptr1 : ptr_ok r1).
  { intros n q. rewrite Hl1, lookup_insert, <- elem_of_dom, Hd1, elem_of_dom.
    case_decide; [intros [= <-]; eauto|apply (pl_ptr c Hpl i)]. }
  pose proof (moves_local i r1 c Hpl Hi Hid1 Hptr1 Hg1) as Hm1.
  set (msg := mkMessage (st_id st) DaemonSessionConnected TypeDaemonConnected
    (to_json (mkSessionPayload (se_NodeID s) i (se_Version s) now)) (st_now st) ""%string).
  pose proof (moves_publish i DaemonSessionConnected msg _ (mv_placed _ _ _ _ Hm1) eq_refl) as Hm2.
  assert (E : snd (net_Register i now st p c) = snd (net_publish i DaemonSessionConnected msg (net_set_reg i r1 c))).
  { unfold net_Register, Register, bind, on_reg, zoom, get, wrap, lift, attempt, ret. rewrite E1. simpl.
    rewrite net_set_reg_at, decide_True, Hid1 by done. reflexivity. }
  rewrite E. eapply moves_ext; [by eapply moves_trans| |].
  - intros j. simpl. destruct (decide (i = j)) as [<-|]; [exact Hl1|done].
  - intros j. simpl. by apply event_connected.
Qed.

Lemma moves_unregister i st n c :
  placed c -> started i c -> (n < two64)%N ->
  moves c (snd (net_Unregister i st n c))
    (fun j x => if decide (i = j) then delete n x else x)
    (fun j g => if rg_localSessions (net_reg i c) !! n is Some _ then delete n g else g).
Proof.
  intros Hpl Hi Hn.
  destruct (rg_localSessions (net_reg i c) !! n) as [p|] eqn:Ep.
  - destruct (pl_ptr c Hpl i n p Ep) as [s Hs].
    set (r1 := rg_set_local (delete n (rg_localSessions (net_reg i c))) (net_reg i c)).
    assert (Hm1 : moves c (net_set_reg i r1 c) (fun j x => if decide (i = j) then rg_localSessions r1 else x) (fun _ x => x)).
    { apply moves_local; [done|done|apply (pl_id c Hpl)| |done]. intros m q. unfold r1. simpl.
      rewrite lookup_delete. case_decide; [done|]. apply (pl_ptr c Hpl i m). }
    set (msg := mkMessage (st_id st) DaemonSessionClosed TypeDaemonClosed
      (to_json (mkSessionPayload n i (se_Version s) (se_ConnectedAt s))) (st_now st) ""%string).
    pose proof (moves_publish i DaemonSessionClosed msg _ (mv_placed _ _ _ _ Hm1) eq_refl) as Hm2.
    assert (E : snd (net_Unregister i st n c) = snd (net_publish i DaemonSessionClosed msg (net_set_reg i r1 c))).
    { unfold net_Unregister, Unregister, unregister_local, on_reg, bind, zoom, get, wrap, lift, attempt, ret, modify.
      rewrite Ep. simpl. rewrite Hs. simpl.
      rewrite net_set_reg_at, decide_True by done. cbn [rg_instanceID rg_set_local]. by rewrite (pl_id c Hpl). }
    rewrite E. eapply moves_ext; [by eapply moves_trans| |].
    + intros j. simpl. destruct (decide (i = j)) as [<-|]; done.
    + intros j. simpl. by apply event_closed.
  - assert (E : snd (net_Unregister i st n c) = net_set_reg i (net_reg i c) c).
    { unfold net_Unregister, Unregister, unregister_local, on_reg, bind, zoom, get, ret. simpl. by rewrite Ep. }
    rewrite E. eapply moves_ext; [apply (moves_local i (net_reg i c)); [done|done|apply (pl_id c Hpl)|apply (pl_ptr c Hpl)|done]| |done].
    intros j. simpl. destruct (decide (i = j)) as [<-|]; [|done]. by rewrite delete_id.
Qed.

Lemma moves_task i st n m c :
  placed c -> started i c -> moves c (snd (net_SendTask i st n m c)) (fun _ x => x) (fun _ x => x).
Proof.
  intros Hpl Hi.
  assert (Hself : moves c c (fun _ x => x) (fun _ x => x)) by by split.
  unfold net_SendTask, SendTask, bind, get.
  destruct (rg_localSessions (net_reg i c) !! n) as [p|].
  - unfold wrap, on_reg, zoom.
    pose proof (frames_on_session p (Send stream_err m) (net_reg i c)) as (H1 & H2 & H3 & H4).
    destruct (on_session p (Send stream_err m) (net_reg i c)) as [res r] eqn:E. simpl in *.
    eapply moves_ext; [apply (moves_local i r c); [done|done|by rewrite H1, (pl_id c Hpl)| |done]| |done].
    + intros k q. rewrite H2, <- elem_of_dom, H3, elem_of_dom. apply (pl_ptr c Hpl i).
    + intros j. simpl. destruct (decide (i = j)) as [<-|]; [by rewrite H2|done].
  - unfold dispatchViaPubSub, bind, wrap, lift. destruct (MarshalVT m) as [d| |]; simpl; [|done..].
    set (msg := mkMessage _ _ _ _ _ _).
    eapply moves_ext; [apply (moves_publish i (BuildDaemonTaskDispatchChannel n) msg c Hpl eq_refl)|done|].
    intros j. unfold event_view, msg. cbn [msg_Channel set_source].
    destruct (stems_disjoint (BuildDaemonTaskDispatchChannel n)) as (_ & E & _). by rewrite E.
Qed.
(** ** Where a daemon is *)

Record known (tr : list net_event) (c : Net) : Prop := {
  kn_placed : placed c;
  kn_trace : forall i, started i c <-> NStart i ∈ tr;
  kn_live : forall i n, local_at i n c -> started i c;
  kn_single : forall i j n, local_at i n c -> local_at j n c -> i = j;
  kn_knows : forall i j n, started i c -> knows i c !! n = Some j ->
    j <> i /\ local_at j n c /\ connected_since tr i j n;
  kn_heard : forall i j n, started i c -> j <> i -> local_at j n c -> connected_since tr i j n ->
    knows i c !! n = Some j;
}.

Lemma connected_since_more tr e i j n : connected_since tr i j n -> connected_since (tr ++ [e]) i j n.
Proof. intros (t1 & t2 & -> & H1 & H2). exists t1, (t2 ++ [e]). rewrite <- app_assoc. set_solver. Qed.

(** An event that is no connection of [n] to [j] adds nothing. *)
Lemma connected_since_less tr e i j n :
  e <> NConnect j n -> connected_since (tr ++ [e]) i j n -> connected_since tr i j n.
Proof.
  intros He (t1 & t2 & E & H1 & H2). destruct t2 as [|x t2 _] using rev_ind; [by apply list.elem_of_nil in H2|].
  rewrite app_assoc in E. apply app_inj_tail in E as [-> <-]. exists t1, t2. split_and!; [done|done|].
  apply list.elem_of_app in H2 as [?|H2]; [done|]. apply list_elem_of_singleton in H2. congruence.
Qed.

Lemma connected_since_now tr i j n : NStart i ∈ tr -> connected_since (tr ++ [NConnect j n]) i j n.
Proof. intros Hi. exists tr, [NConnect j n]. set_solver. Qed.

Lemma connected_since_started tr i j n : connected_since tr i j n -> NStart i ∈ tr.
Proof. intros (t1 & t2 & -> & H1 & _). set_solver. Qed.

Lemma known_new : known [] net_new.
Proof.
  assert (Hreg : forall i, net_reg i net_new = NewRegistry i).
  { intros i. unfold net_reg, net_new. simpl. by rewrite lookup_empty. }
  assert (Hst : forall i, ~ started i net_new).
  { intros i. unfold started, net_new. simpl. rewrite lookup_empty. by intros [? ?]. }
  assert (Hloc : forall i n, ~ local_at i n net_new).
  { intros i n. unfold local_at. rewrite Hreg. simpl. rewrite lookup_empty. by intros [? ?]. }
  split.
  - split; intros i; rewrite ?Hreg; [done| |by intros []%Hst|].
    + intros n p. simpl. by rewrite lookup_empty.
    + intros _. unfold net_subs, net_new. simpl. by rewrite lookup_empty.
  - intros i. split; [by intros []%Hst|by intros []%list.elem_of_nil].
  - intros i n []%Hloc.
  - intros i j n []%Hloc.
  - intros i j n []%Hst.
  - intros i j n []%Hst.
Qed.

(** Steps that move neither sessions nor views. *)
Lemma known_still tr e c c' :
  known tr c -> moves c c' (fun _ x => x) (fun _ x => x) ->
  (forall i, e <> NStart i) -> (forall j n, e <> NConnect j n) -> known (tr ++ [e]) c'.
Proof.
  intros [Hp Ht Hl Hs Hk Hh] [P S L K] He1 He2.
  assert (Hloc : forall i n, local_at i n c' <-> local_at i n c) by (intros i n; unfold local_at; by rewrite L).
  split; [done| | | | |].
  - intros i. rewrite S, Ht, list.elem_of_app, list_elem_of_singleton. naive_solver.
  - intros i n. rewrite Hloc, S. apply Hl.
  - intros i j n. rewrite !Hloc. apply Hs.
  - intros i j n Hi. apply S in Hi. rewrite K by done. intros Hkn. rewrite Hloc.
    destruct (Hk i j n Hi Hkn) as (? & ? & ?). auto using connected_since_more.
  - intros i j n Hi Hj. apply S in Hi. rewrite Hloc, K by done. intros Hlo Hc.
    apply Hh; [done|done|done|]. eapply connected_since_less; [|exact Hc]. by apply He2.
Qed.

Lemma known_connect tr c c' i s (p : N) :
  known tr c -> started i c -> (forall j, j <> i -> ~ local_at j s c) ->
  moves c c' (fun j x => if decide (i = j) then <[s := p]> x else x)
    (fun j g => if decide (i = j) then g else <[s := i]> g) ->
  known (tr ++ [NConnect i s]) c'.
Proof.
  intros [Hp Ht Hl Hs Hk Hh] Hi Hfree [P S L K].
  assert (Hloc : forall j n, local_at j n c' <-> (i = j /\ s = n) \/ local_at j n c).
  { intros j n. unfold local_at. rewrite L. destruct (decide (i = j)) as [<-|].
    - rewrite lookup_insert. case_decide; subst; [|naive_solver]. split; [by left|eauto].
    - naive_solver. }
  split; [done| | | | |].
  - intros j. rewrite S, Ht, list.elem_of_app, list_elem_of_singleton. naive_solver.
  - intros j n. rewrite Hloc, S. intros [[<- _]|?]; eauto.
  - intros j k n. rewrite !Hloc. intros [[<- Hn1]|H1] [[<- Hn2]|H2]; subst.
    + done.
    + destruct (decide (k = i)) as [->|Hne]; [done|]. by destruct (Hfree k Hne).
    + destruct (decide (j = i)) as [->|Hne]; [done|]. by destruct (Hfree j Hne).
    + by apply (Hs j k n).
  - intros j k n Hj Hkn. apply S in Hj. rewrite K in Hkn by done. rewrite Hloc.
    assert (Hold : knows j c !! n = Some k -> k <> j /\ ((i = k /\ s = n) \/ local_at k n c) /\
      connected_since (tr ++ [NConnect i s]) j k n).
    { intros H. destruct (Hk j k n Hj H) as (? & ? & ?). auto using connected_since_more. }
    destruct (decide (i = j)) as [<-|Hij]; [by apply Hold|].
    rewrite lookup_insert in Hkn. case_decide as Hd; [|by apply Hold]. subst n. injection Hkn as <-.
    split_and!; [done|by left|]. by apply connected_since_now, Ht.
  - intros j k n Hj Hkj. apply S in Hj. rewrite Hloc, K by done. intros Hlo Hc.
    destruct (decide (s = n)) as [<-|Hne].
    + assert (k = i) as ->.
      { destruct Hlo as [[<- _]|Hlo]; [done|]. destruct (decide (k = i)) as [->|Hki]; [done|]. by destruct (Hfree k Hki). }
      rewrite decide_False by congruence. by rewrite lookup_insert_eq.
    + assert (Hlo' : local_at k n c) by by destruct Hlo as [[_ ?]|?].
      assert (Hc' : connected_since tr j k n) by (eapply connected_since_less; [|exact Hc]; congruence).
      pose proof (Hh j k n Hj Hkj Hlo' Hc') as Hkn.
      destruct (decide (i = j)); [done|]. by rewrite lookup_insert_ne.
Qed.

Lemma known_disconnect tr c c' i n :
  known tr c -> started i c ->
  moves c c' (fun j x => if decide (i = j) then delete n x else x)
    (fun j g => if rg_localSessions (net_reg i c) !! n is Some _ then delete n g else g) ->
  known (tr ++ [NDisconnect i n]) c'.
Proof.
  intros [Hp Ht Hl Hs Hk Hh] Hi [P S L K].
  assert (Hloc : forall j m, local_at j m c' <-> ~ (i = j /\ n = m) /\ local_at j m c).
  { intros j m. unfold local_at. rewrite L. destruct (decide (i = j)) as [<-|Hij].
    - rewrite lookup_delete. case_decide as Hd; subst; [|naive_solver]. split; [by intros [? ?]|]. by intros [[] _].
    - split; [|by intros []]. intros Hs0. split; [|done]. by intros [? _]. }
  split; [done| | | | |].
  - intros j. rewrite S, Ht, list.elem_of_app, list_elem_of_singleton. naive_solver.
  - intros j m. rewrite Hloc, S. intros [_ ?]; eauto.
  - intros j k m. rewrite !Hloc. intros [_ ?] [_ ?]. eauto.
  - intros j k m Hj Hkm. apply S in Hj. rewrite K in Hkm by done. rewrite Hloc.
    assert (Hkm0 : knows j c !! m = Some k /\ (is_Some (rg_localSessions (net_reg i c) !! n) -> n <> m)).
    { destruct (rg_localSessions (net_reg i c) !! n) as [q|]; [|split; [done|by intros [? ?]]].
      rewrite lookup_delete in Hkm. case_decide; [done|]. done. }
    destruct Hkm0 as [Hkm0 Hne]. destruct (Hk j k m Hj Hkm0) as (H1 & H2 & H3).
    split_and!; [done| |done|by apply connected_since_more]. intros [<- <-]. by apply Hne.
  - intros j k m Hj Hkj. apply S in Hj. rewrite Hloc, K by done. intros [Hno Hlo] Hc.
    assert (Hkn : knows j c !! m = Some k).
    { apply Hh; [done|done|done|]. by eapply connected_since_less; [|exact Hc]. }
    destruct (rg_localSessions (net_reg i c) !! n) as [q|] eqn:Eq; [|done].
    rewrite lookup_delete. case_decide as Hd; [|done]. subst m. exfalso. apply Hno. split; [|done].
    apply (Hs i k n); [by exists q|done].
Qed.

Lemma known_start tr c i :
  known tr c -> ~ started i c -> known (tr ++ [NStart i]) (net_start i c).
Proof.
  intros [Hp Ht Hl Hs Hk Hh] Hi. destruct (start_ok i c Hp Hi) as (P & S & R & I & O).
  assert (Hloc : forall j n, local_at j n (net_start i c) <-> local_at j n c).
  { intros j n. unfold local_at. destruct (decide (j = i)) as [->|Hj].
    - rewrite R. simpl. rewrite lookup_empty. split; [by intros [? ?]|]. intros Hlo. by destruct Hi; eapply Hl.
    - by destruct (O j Hj) as [-> _]. }
  assert (Hknow : forall j, j <> i -> knows j (net_start i c) = knows j c).
  { intros j Hj. unfold knows. by destruct (O j Hj) as [-> ->]. }
  assert (Hnew : knows i (net_start i c) = ∅) by (unfold knows; by rewrite R, I).
  assert (Hsince : forall k n, ~ connected_since (tr ++ [NStart i]) i k n).
  { intros k n Hc%connected_since_less; [|done]. by apply connected_since_started, Ht in Hc. }
  split; [done| | | | |].
  - intros j. rewrite S, Ht, list.elem_of_app, list_elem_of_singleton. naive_solver.
  - intros j n. rewrite Hloc, S. eauto.
  - intros j k n. rewrite !Hloc. apply Hs.
  - intros j k n Hj. destruct (decide (j = i)) as [->|Hji]; [by rewrite Hnew, lookup_empty|].
    rewrite Hknow, Hloc by done. intros Hkn. apply S in Hj as [?|Hj]; [done|].
    destruct (Hk j k n Hj Hkn) as (? & ? & ?). auto using connected_since_more.
  - intros j k n Hj Hkj. rewrite Hloc. intros Hlo Hc. destruct (decide (j = i)) as [->|Hji]; [by destruct (Hsince k n)|].
    rewrite Hknow by done. apply S in Hj as [?|Hj]; [done|].
    apply Hh; [done|done|done|]. by eapply connected_since_less; [|exact Hc].
Qed.

Lemma known_step tr e c c' : known tr c -> net_step e c c' -> known (tr ++ [e]) c'.
Proof.
  intros Hk Hstep. pose proof (kn_placed _ _ Hk) as Hpl.
  destruct Hstep as [i c Hi|i now st s c Hi Hn Hfree|i st n c Hi Hn|i st n m c Hi|i m rest c Hi].
  - by apply known_start.
  - set (p := fresh (dom (rg_heap (net_reg i c)))).
    set (r := snd (alloc_session s (net_reg i c))).
    assert (Hr : rg_heap r = <[p := s]> (rg_heap (net_reg i c)) /\ rg_localSessions r = rg_localSessions (net_reg i c))
      by done. destruct Hr as [Hr1 Hr2].
    assert (Hm1 : moves c (net_set_reg i r c) (fun j x => if decide (i = j) then rg_localSessions r else x) (fun _ x => x)).
    { apply moves_local; [done|done|apply (pl_id c Hpl)| |done]. intros n q.
      rewrite Hr1, Hr2. intros Hq%(pl_ptr c Hpl i). rewrite lookup_insert. case_decide; eauto. }
    assert (Hm2 := moves_register i now st p s (net_set_reg i r c) (mv_placed _ _ _ _ Hm1)).
    eapply (known_connect _ c _ _ _ p); [done|done| |].
    + intros j Hj. unfold local_at. rewrite Hfree by done. by intros [? ?].
    + eapply moves_ext; [eapply moves_trans; [exact Hm1|apply Hm2]| |done].
      * by apply (mv_started _ _ _ _ Hm1).
      * done.
      * rewrite net_set_reg_at, decide_True, Hr1 by done. by rewrite lookup_insert_eq.
      * intros j. simpl. destruct (decide (i = j)) as [<-|]; done.
  - eapply known_disconnect; [done|done|]. by apply moves_unregister.
  - eapply known_still; [done|by apply moves_task|done|done].
  - eapply known_still; [done|by apply moves_hear|done|done].
Qed.

Lemma net_run_known tr c : net_run tr c -> known tr c.
Proof. induction 1; [exact known_new|by eapply known_step]. Qed.

(** C8: instances may start at any time and hear of each other late; as long
    as every daemon has left one instance before another accepts it and the bus
    hands every instance every message in the order of publication, an instance
    that has heard all that was published answers exactly for the daemons it
    holds itself and for those that connected to another instance since it
    started and are still connected there. *)
Theorem connected_anywhere_once_heard tr c i n :
  net_run tr c -> started i c -> inbox i c = [] ->
  IsConnectedAnywhere n (net_reg i c) = true <->
  exists j, IsConnected n (net_reg j c) = true /\ (j = i \/ connected_since tr i j n).
Proof.
  intros [_ _ _ _ Hk Hh]%net_run_known Hi Hin.
  assert (Hg : rg_globalNodes (net_reg i c) = knows i c) by (unfold knows; by rewrite Hin).
  unfold IsConnectedAnywhere, IsConnected, GetSession. rewrite Hg. split.
  - case_bool_decide as Hl.
    + intros _. exists i. split; [by rewrite bool_decide_eq_true|by left].
    + rewrite bool_decide_eq_true. intros [j Hj]. destruct (Hk i j n Hi Hj) as (_ & Hlo & Hc).
      exists j. split; [by rewrite bool_decide_eq_true|by right].
  - intros (j & Hs & Hor). rewrite bool_decide_eq_true in Hs.
    destruct (decide (j = i)) as [->|Hji]; [by rewrite bool_decide_true|].
    destruct Hor as [?|Hc]; [done|]. pose proof (Hh i j n Hi Hji Hs Hc) as Hkn.
    case_bool_decide; [done|]. rewrite bool_decide_eq_true. eauto.
Qed.

(** Whatever waits for an instance, it can hear it out; nothing else changes. *)
Lemma hear_out tr c i :
  net_run tr c -> exists tr' c', net_run (tr ++ tr') c' /\ inbox i c' = [] /\
    (forall e, e ∈ tr' -> e = NHear i) /\
    (forall j, rg_localSessions (net_reg j c') = rg_localSessions (net_reg j c)).
Proof.
  remember (inbox i c) as l eqn:El. revert tr c El. induction l as [|m l IH]; intros tr c El Hrun.
  - exists [], c. rewrite app_nil_r. split_and!; [done|done| |done]. by intros e []%list.elem_of_nil.
  - assert (Hi : nt_inbox c !! i = Some (m :: l)).
    { unfold inbox in El. destruct (nt_inbox c !! i); [|done]. by rewrite El. }
    pose proof (moves_hear i m l c (kn_placed _ _ (net_run_known _ _ Hrun)) Hi) as [_ _ HL _].
    destruct (IH (tr ++ [NHear i]) (net_hear i m l c)) as (tr' & c' & H1 & H2 & H3 & H4).
    { unfold inbox, net_hear. simpl. by rewrite lookup_insert_eq. }
    { eapply net_run_step; [done|]. by apply ns_hear. }
    exists (NHear i :: tr'), c'. rewrite <- app_assoc in H1. split_and!; [done|done| |].
    + intros e [->|He]%list.elem_of_cons; [done|auto].
    + intros j. by rewrite H4, HL.
Qed.
End net.

(** ** Example: the second instance starts while a daemon is connected to the
    first *)

Module NetSample.
Definition session (n : N) : Session unit := NewSession 1 n "1.0" [] true.
Definition connected (i : string) (n : N) (c : Net (D := unit)) : Net :=
  let '(p, r) := (fresh (dom (rg_heap (net_reg i c))), snd (alloc_session (session n) (net_reg i c))) in
  snd (net_Register i 2 sample_st p (net_set_reg i r c)).
Definition heard (i : string) (c : Net (D := unit)) : Net :=
  match inbox i c with
  | m :: rest => net_hear sample_stream sample_unmarshal i m rest c
  | [] => c
  end.

Definition c1 : Net := connected "a" 7 (net_start "a" net_new).
Definition c2 : Net := connected "a" 8 (net_start "b" c1).
Definition c3 : Net := heard "b" c2.
Definition tr : list net_event :=
  [NStart "a"; NConnect "a" 7; NStart "b"; NConnect "a" 8; NHear "b"].

Lemma idle i (c : Net (D := unit)) : nt_inbox c !! i = None -> ~ started i c.
Proof. unfold started. intros ->. by intros [? ?]. Qed.

Lemma alone j n (c : Net (D := unit)) regs :
  nt_regs c = regs -> map_Forall (fun i r => rg_localSessions r !! n = None) regs ->
  rg_localSessions (net_reg j c) !! n = None.
Proof.
  intros <- Hall. unfold net_reg. destruct (nt_regs c !! j) as [r|] eqn:E; [by apply (Hall j r)|]. done.
Qed.

Lemma run : net_run sample_stream sample_marshal sample_unmarshal tr c3.
Proof.
  change tr with (((((([] ++ [NStart "a"]) ++ [NConnect "a" 7]) ++ [NStart "b"]) ++ [NConnect "a" 8]) ++ [NHear "b"]%string)).
  apply (net_run_step _ _ _ _ _ c2).
  - apply (net_run_step _ _ _ _ _ (net_start "b" c1)).
    + apply (net_run_step _ _ _ _ _ c1).
      * apply (net_run_step _ _ _ _ _ (net_start "a" net_new)).
        -- apply (net_run_step _ _ _ _ _ net_new); [constructor|].
           apply ns_start, idle. vm_compute. reflexivity.
        -- apply (ns_connect sample_stream sample_marshal sample_unmarshal "a" 2 sample_st (session 7)).
           ++ eexists. vm_compute. reflexivity.
           ++ reflexivity.
           ++ intros j _. eapply alone; [reflexivity|]. apply (bool_decide_unpack _). vm_compute. exact I.
      * apply ns_start, idle. vm_compute. reflexivity.
    + apply (ns_connect sample_stream sample_marshal sample_unmarshal "a" 2 sample_st (session 8)).
      * eexists. vm_compute. reflexivity.
      * reflexivity.
      * intros j _. eapply alone; [reflexivity|]. apply (bool_decide_unpack _). vm_compute. exact I.
  - change c3 with (heard "b" c2). unfold heard.
    destruct (inbox "b" c2) as [|m rest] eqn:E; [vm_compute in E; discriminate|].
    apply ns_hear. unfold inbox in E. destruct (nt_inbox c2 !! "b"%string); [|discriminate]. simpl in E. by rewrite E.
Qed.

Lemma connected_anywhere_once_heard_witness :
  IsConnectedAnywhere 8 (net_reg "b" c3) = true /\ IsConnectedAnywhere 7 (net_reg "b" c3) = false /\
  IsConnectedAnywhere 7 (net_reg "a" c3) = true.
Proof.
  split; [|vm_compute; split; reflexivity].
  apply (connected_anywhere_once_heard sample_stream sample_marshal sample_unmarshal tr c3 "b" 8 run).
  - eexists. vm_compute. reflexivity.
  - vm_compute. reflexivity.
  - exists "a"%string. split; [vm_compute; reflexivity|]. right.
    exists [NStart "a"; NConnect "a" 7; NStart "b"]%string, [NConnect "a" 8; NHear "b"]%string.
    split; [reflexivity|]. split; [by do 2 (apply list.elem_of_cons; right); apply list.elem_of_cons; left|].
    by apply list.elem_of_cons; left.
Defined.
End NetSample.
