(* ===== verification/SettingsRepo.v ===== *)
(** The in-memory server settings repository
    ([internal/repositories/inmemory/server_settings.go]): the settings table
    with its two hash indexes, and the value type of a setting
    ([internal/domain/server_setting.go]). *)

From S2P Require Import Prelude.
From S2P Require Import GoNum.
From S2P Require Import Domain.
From S2P Require Import Repositories.
From S2P Require Import TaskRepo.
From stdpp Require Import base tactics strings list gmap numbers sorting.
From Stdlib Require Import NArith ZArith.

Record memSettingRepo : Type := mkSettingRepo {
  settings : gmap N ServerSetting;
  ss_nextID : N;
  ss_serverIDIndex : gmap N (gset N);
  nameIndex : gmap string (gset N);
}.

Definition NewServerSettingRepository : memSettingRepo := mkSettingRepo ∅ 0 ∅ ∅.

Definition addToIndexes (s : ServerSetting) (r : memSettingRepo) : memSettingRepo :=
  mkSettingRepo (settings r) (ss_nextID r)
    (idx_add (ss_ServerID s) (ss_ID s) (ss_serverIDIndex r)) (idx_add (ss_Name s) (ss_ID s) (nameIndex r)).

Definition removeFromIndexes (s : ServerSetting) (r : memSettingRepo) : memSettingRepo :=
  mkSettingRepo (settings r) (ss_nextID r)
    (idx_remove (ss_ServerID s) (ss_ID s) (ss_serverIDIndex r)) (idx_remove (ss_Name s) (ss_ID s) (nameIndex r)).

Definition set_settings (m : gmap N ServerSetting) (r : memSettingRepo) : memSettingRepo :=
  mkSettingRepo m (ss_nextID r) (ss_serverIDIndex r) (nameIndex r).

Definition intersectWithServerIDs (r : memSettingRepo) (res : gset N) (ids : list N) : gset N :=
  idx_intersect res ids (ss_serverIDIndex r).
Definition intersectWithNames (r : memSettingRepo) (res : gset N) (names : list string) : gset N :=
  idx_intersect res names (nameIndex r).

Definition getFilteredSettingIDs (r : memSettingRepo) (filter : option FindServerSetting) : gset N :=
  match filter with
  | None => dom (settings r)
  | Some f =>
      let ids := nonempty (fs_IDs f) in
      let servers := nonempty (fs_ServerIDs f) in
      let names := nonempty (fs_Names f) in
      let res :=
        if ids then
          foldl (fun acc id => if decide (is_Some (settings r !! id)) then {[id]} ∪ acc else acc) ∅ (fs_IDs f)
        else if servers then idx_union (fs_ServerIDs f) (ss_serverIDIndex r)
        else if names then idx_union (fs_Names f) (nameIndex r)
        else dom (settings r) in
      let res := if servers && ids then intersectWithServerIDs r res (fs_ServerIDs f) else res in
      if names && (ids || servers) then intersectWithNames r res (fs_Names f) else res
  end.

Definition compareSettings (a b : ServerSetting) (field : string) : comparison :=
  if String.eqb field "id" then N.compare (ss_ID a) (ss_ID b)
  else if String.eqb field "name" then String.compare (ss_Name a) (ss_Name b)
  else if String.eqb field "server_id" then N.compare (ss_ServerID a) (ss_ServerID b)
  else Eq.

Definition sortSettings (l : list ServerSetting) (order : list Sorting) : list ServerSetting :=
  sort_rows compareSettings ss_ID l order.

Definition Find (r : memSettingRepo) (filter : option FindServerSetting) (order : list Sorting)
  (p : option Pagination) : result (list ServerSetting) :=
  let f := match filter with None => mkFindServerSetting [] [] [] | Some f => f end in
  applyPagination
    (sortSettings (omap (fun id => settings r !! id) (elements (getFilteredSettingIDs r (Some f)))) order) p.

Definition Save (s : ServerSetting) : M memSettingRepo ServerSetting := fun r =>
  let '(s, r) :=
    if negb (ss_ID s =? 0)%N then
      match settings r !! ss_ID s with
      | Some old => (s, removeFromIndexes old r)
      | None => (s, r)
      end
    else
      let id := wrap32 (ss_nextID r + 1) in
      (ss_set_id id s, mkSettingRepo (settings r) id (ss_serverIDIndex r) (nameIndex r)) in
  (Ok s, addToIndexes s (set_settings (<[ss_ID s := s]> (settings r)) r)).

Definition Delete (id : N) : M memSettingRepo unit := fun r =>
  let r := match settings r !! id with Some s => removeFromIndexes s r | None => r end in
  (Ok tt, set_settings (delete id (settings r)) r).

#[export] Instance memSettingRepo_ops : ServerSettingRepository memSettingRepo := {
  SS_Find := Find; SS_Save := Save;
}.

(** ** The repository invariant *)

Definition key_server (s : ServerSetting) : option N := Some (ss_ServerID s).
Definition key_name (s : ServerSetting) : option string := Some (ss_Name s).

Record settings_inv (r : memSettingRepo) : Prop := {
  sinv_id : forall i s, settings r !! i = Some s -> ss_ID s = i /\ (0 < i <= ss_nextID r)%N;
  sinv_server : idx_ok key_server (ss_serverIDIndex r) (settings r);
  sinv_name : idx_ok key_name (nameIndex r) (settings r);
}.

Lemma settings_inv_new : settings_inv NewServerSettingRepository.
Proof. split; try apply idx_ok_empty. intros i s. simpl. by rewrite lookup_empty. Qed.

Lemma settings_inv_remove r id old :
  settings r !! id = Some old -> settings_inv r ->
  settings_inv (set_settings (delete id (settings r)) (removeFromIndexes old r)).
Proof.
  intros Hold [Hids Hsrv Hnm]. destruct (Hids _ _ Hold) as [Hid _]. split; simpl; rewrite ?Hid.
  - intros i s. rewrite lookup_delete. case_decide; [done|apply Hids].
  - by apply (idx_ok_delete key_server).
  - by apply (idx_ok_delete key_name).
Qed.

Lemma settings_inv_insert r row n :
  settings r !! ss_ID row = None -> (0 < ss_ID row <= n)%N -> (ss_nextID r <= n)%N -> settings_inv r ->
  settings_inv (addToIndexes row (set_settings (<[ss_ID row := row]> (settings r))
    (mkSettingRepo (settings r) n (ss_serverIDIndex r) (nameIndex r)))).
Proof.
  intros Hnone Hid Hn [Hids Hsrv Hnm]. split; simpl.
  - intros i s. rewrite lookup_insert. case_decide; subst.
    + intros [= <-]. by split.
    + intros Hs. destruct (Hids _ _ Hs). split; [done|lia].
  - by apply (idx_ok_insert key_server).
  - by apply (idx_ok_insert key_name).
Qed.

(** Room for [n] more automatic ids. *)
Definition settings_room (n : nat) (r : memSettingRepo) : Prop := (ss_nextID r + N.of_nat n < two32)%N.

Definition settings_saveable (r : memSettingRepo) (s : ServerSetting) : Prop :=
  if decide (ss_ID s = 0%N) then settings_room 1 r else is_Some (settings r !! ss_ID s).

Lemma setting_Save_spec s r :
  settings_inv r -> settings_saveable r s ->
  exists s' r', Save s r = (Ok s', r') /\ settings_inv r' /\
    settings r' = <[ss_ID s' := s']> (settings r) /\
    s' = ss_set_id (if decide (ss_ID s = 0%N) then ss_nextID r + 1 else ss_ID s)%N s /\
    (ss_ID s = 0%N -> settings r !! ss_ID s' = None) /\
    (forall n, settings_room (if decide (ss_ID s = 0%N) then S n else n) r -> settings_room n r').
Proof.
  intros Hinv Hsv. unfold settings_saveable in Hsv. unfold Save. case_decide as Hid.
  - rewrite Hid. simpl. unfold wrap32. rewrite N.mod_small by exact Hsv.
    set (s' := ss_set_id (ss_nextID r + 1) s).
    assert (Hnone : settings r !! ss_ID s' = None).
    { destruct (settings r !! ss_ID s') as [o|] eqn:E; [|done].
      destruct (sinv_id r Hinv _ _ E) as [_ ?]. simpl in *. lia. }
    eexists s', _. split_and!; [done| |done|done|done|intros n; unfold settings_room; simpl; lia].
    apply (settings_inv_insert r s' (ss_nextID r + 1)); [done|simpl; lia|lia|done].
  - destruct Hsv as [old Hold]. apply N.eqb_neq in Hid as Hid'. rewrite Hid'. simpl. rewrite Hold.
    destruct (sinv_id r Hinv _ _ Hold) as [_ Hrange].
    eexists s, _. split_and!; [done| |done|by destruct s|done|done].
    pose proof (settings_inv_remove r (ss_ID s) old Hold Hinv) as Hrem.
    pose proof (settings_inv_insert (set_settings (delete (ss_ID s) (settings r)) (removeFromIndexes old r))
      s (ss_nextID r)) as HI.
    simpl in HI. rewrite insert_delete_eq, lookup_delete_eq in HI. by apply HI.
Qed.

Lemma setting_Delete_spec id r :
  settings_inv r ->
  exists r', Delete id r = (Ok tt, r') /\ settings_inv r' /\ settings r' = delete id (settings r).
Proof.
  intros Hinv. unfold Delete. destruct (settings r !! id) as [s|] eqn:Hs.
  - eexists. split; [done|]. split; [|done]. by apply (settings_inv_remove r id s).
  - eexists. split; [done|]. split; [|done]. simpl. rewrite delete_id by done. destruct Hinv. by split.
Qed.

(** ** Filtering through the indexes is a table scan *)

Lemma first_ids (m : gmap N ServerSetting) ids (acc : gset N) id :
  id ∈ foldl (fun acc id => if decide (is_Some (m !! id)) then {[id]} ∪ acc else acc) acc ids
  <-> id ∈ acc \/ (id ∈ ids /\ is_Some (m !! id)).
Proof.
  revert acc. induction ids as [|i ids IH]; intros acc; simpl; [set_solver|].
  rewrite IH. case_decide; set_solver.
Qed.

Lemma filtered_setting r f id s :
  settings_inv r -> settings r !! id = Some s ->
  id ∈ getFilteredSettingIDs r (Some f) <-> setting_matches f s = true.
Proof.
  intros [Hid Hsrv Hnm] Hs. unfold getFilteredSettingIDs, setting_matches,
    intersectWithServerIDs, intersectWithNames.
  rewrite !andb_true_iff, !in_or_any_true.
  destruct (Hid _ _ Hs) as [Hsid _].
  assert (H1 : forall ks : list N, (exists k, k ∈ ks /\ id ∈ idx_get k (ss_serverIDIndex r)) <-> ss_ServerID s ∈ ks).
  { intros ks. setoid_rewrite (idx_ok_elem key_server _ _ _ _ Hsrv). unfold key_server. rewrite Hs. naive_solver. }
  assert (H2 : forall ks : list string, (exists k, k ∈ ks /\ id ∈ idx_get k (nameIndex r)) <-> ss_Name s ∈ ks).
  { intros ks. setoid_rewrite (idx_ok_elem key_name _ _ _ _ Hnm). unfold key_name. rewrite Hs. naive_solver. }
  destruct (nonempty (fs_IDs f)), (nonempty (fs_ServerIDs f)), (nonempty (fs_Names f)); simpl;
    rewrite ?elem_of_idx_intersect, ?H2, ?elem_of_idx_intersect, ?H1, ?first_ids, ?elem_of_idx_union, ?H1, ?H2,
      ?elem_of_dom, ?Hs, ?Hsid; clear; set_unfold; naive_solver.
Qed.

Lemma filtered_setting_in r f id :
  settings_inv r -> id ∈ getFilteredSettingIDs r (Some f) -> is_Some (settings r !! id).
Proof.
  intros [_ Hsrv Hnm]. unfold getFilteredSettingIDs, intersectWithServerIDs, intersectWithNames.
  assert (H1 : forall k, id ∈ idx_get k (ss_serverIDIndex r) -> is_Some (settings r !! id)).
  { intros k (s & -> & _)%(idx_ok_elem key_server _ _ _ _ Hsrv). eauto. }
  assert (H2 : forall k, id ∈ idx_get k (nameIndex r) -> is_Some (settings r !! id)).
  { intros k (s & -> & _)%(idx_ok_elem key_name _ _ _ _ Hnm). eauto. }
  destruct (nonempty (fs_IDs f)), (nonempty (fs_ServerIDs f)), (nonempty (fs_Names f)); simpl;
    rewrite ?elem_of_idx_intersect, ?first_ids, ?elem_of_idx_union, ?elem_of_dom; clear -H1 H2;
    set_unfold; naive_solver.
Qed.

Lemma elem_of_setting_rows r (ids : gset N) s :
  settings_inv r ->
  s ∈ omap (fun id => settings r !! id) (elements ids) <-> ss_ID s ∈ ids /\ settings r !! ss_ID s = Some s.
Proof.
  intros Hinv. rewrite list_elem_of_omap. setoid_rewrite elem_of_elements. split; [|naive_solver].
  intros (i & Hi & Hs). destruct (sinv_id r Hinv _ _ Hs) as [<- _]. done.
Qed.

Lemma Find_settings r f x :
  settings_inv r ->
  x ∈ sortSettings (omap (fun id => settings r !! id) (elements (getFilteredSettingIDs r (Some f)))) []
  <-> settings r !! ss_ID x = Some x /\ setting_matches f x = true.
Proof.
  intros Hinv. unfold sortSettings.
  rewrite (sort_rows_perm compareSettings ss_ID), elem_of_setting_rows by done. split.
  - intros [Hin Hx]. split; [done|]. by apply (filtered_setting r _ (ss_ID x)).
  - intros [Hx Hm]. split; [|done]. by apply (filtered_setting r _ (ss_ID x) x).
Qed.

#[export, program] Instance memSettingRepo_laws : ServerSettingRepositoryLaws memSettingRepo := {
  st_inv := settings_inv; st_rows := settings; st_room := settings_room;
}.
Next Obligation. intros q i s Hinv Hs. destruct (sinv_id q Hinv _ _ Hs). split; [done|lia]. Qed.
Next Obligation. intros q f l Hinv. simpl. intros <-%Ok_inj x. by apply Find_settings. Qed.
Next Obligation. done. Qed.
Next Obligation.
  intros s q res q' Hinv Hsv E. destruct (setting_Save_spec s q Hinv Hsv) as (s' & r1 & E1 & Hi & Hr & Hs' & Hnew & Hroom).
  simpl in E. rewrite E1 in E. injection E as <- <-. split_and!; [done|done| |done|].
  - by rewrite Hs'.
  - case_decide as Hid; [by apply Hnew|]. by rewrite Hs'.
Qed.

(** ** Reachable repositories *)

Inductive settings_step : memSettingRepo -> memSettingRepo -> Prop :=
| sset_save s r : settings_saveable r s -> settings_step r (snd (Save s r))
| sset_delete id r : settings_step r (snd (Delete id r)).

Definition settings_reachable : memSettingRepo -> Prop := rtc settings_step NewServerSettingRepository.

Lemma settings_reachable_inv r : settings_reachable r -> settings_inv r.
Proof.
  unfold settings_reachable. revert r. apply rtc_ind_r; [apply settings_inv_new|].
  intros r r' _ Hstep Hinv. destruct Hstep as [s r Hsv|id r].
  - destruct (setting_Save_spec s r Hinv Hsv) as (? & ? & -> & ? & _). done.
  - destruct (setting_Delete_spec id r Hinv) as (? & -> & ? & _). done.
Qed.

(** In every reachable settings store, a query without order or paging
    returns exactly the stored settings its filter selects, in ascending id
    order; saving a setting makes it the row of its id, a new one under a fresh
    id, and changes no other row. *)
Lemma settings_store_correct r f s :
  settings_reachable r ->
  (exists l, Find r f [] None = Ok l /\ StronglySorted (fun a b => ss_ID a <= ss_ID b)%N l /\
     forall x, x ∈ l <-> settings r !! ss_ID x = Some x /\
       setting_matches (default (mkFindServerSetting [] [] []) f) x = true) /\
  (settings_saveable r s ->
     exists s' r', Save s r = (Ok s', r') /\ settings_reachable r' /\
       settings r' = <[ss_ID s' := s']> (settings r) /\
       ss_Name s' = ss_Name s /\ ss_ServerID s' = ss_ServerID s /\ ss_Value s' = ss_Value s /\
       (if decide (ss_ID s = 0%N) then settings r !! ss_ID s' = None else ss_ID s' = ss_ID s)).
Proof.
  intros Hr. pose proof (settings_reachable_inv r Hr) as Hinv. split.
  - eexists. split; [reflexivity|]. split; [apply sort_rows_default|]. intros x.
    replace (match f with Some f => f | None => mkFindServerSetting [] [] [] end)
      with (default (mkFindServerSetting [] [] []) f) by by destruct f.
    by apply Find_settings.
  - intros Hsv. destruct (setting_Save_spec s r Hinv Hsv) as (s' & r' & E & _ & Hrow & Hs' & Hnew & _).
    exists s', r'. split; [done|]. split.
    + eapply rtc_r; [exact Hr|]. pose proof (sset_save s r Hsv) as Hst. by rewrite E in Hst.
    + split; [done|]. rewrite Hs'. simpl. split_and!; [done..|]. case_decide as Hid; [|done].
      rewrite Hs' in Hnew. by apply Hnew.
Qed.

Definition sample_setting : ServerSetting :=
  mkServerSetting 0 "autostart" 3 (NewServerSettingValue (AnyBool true)).
Definition sample_settings : memSettingRepo := snd (Save sample_setting NewServerSettingRepository).

