(* ===== verification/ServerControl.v ===== *)
(** Server control ([internal/services/servercontrol/servercontrol.go]): the
    start, stop, restart, update, install and reinstall requests of users,
    which turn into daemon tasks unless such a task is already pending, and the
    autostart settings they maintain.  The task dispatcher (gRPC) and the
    plugins are parameters; without a dispatcher tasks are saved directly. *)

From S2P Require Import Prelude.
From S2P Require Import GoNum.
From S2P Require Import Domain.
From S2P Require Import Repositories.
From S2P Require Import TaskRepo.
From S2P Require Import SettingsRepo.
From stdpp Require Import base tactics strings list gmap numbers relations.
From Stdlib Require Import NArith ZArith.

Definition autostartSettingKey : string := "autostart".
Definition autostartCurrentSettingKey : string := "autostart_current".

Definition ErrAnotherTaskAlreadyExists : error :=
  ENew "another task already exists, please wait until it is completed".
Definition ErrEmptyServerStartCommand : error := ENew "empty server start command".
Definition ErrServerUpdateInstallInProgress : error :=
  ENew "server update/install task is already in progress".
Definition ErrCancelledByPlugin : error := ENew "operation cancelled by plugin".
Definition TaskAlreadyExistsError (taskName : string) : error :=
  ENew ("task '" +:+ taskName +:+ "' already exists").

Inductive PluginEventType : Type :=
| PluginEventServerPreStart | PluginEventServerPostStart
| PluginEventServerPreStop | PluginEventServerPostStop
| PluginEventServerPreRestart | PluginEventServerPostRestart
| PluginEventServerPreInstall | PluginEventServerPostInstall
| PluginEventServerPreUpdate | PluginEventServerPostUpdate
| PluginEventServerPreReinstall | PluginEventServerPostReinstall
| PluginEventServerPreDelete | PluginEventServerPostDelete.

Record PluginDispatchResult : Type := mkPluginResult {
  pr_Cancelled : bool; pr_CancelledBy : string; pr_CancelMessage : string;
}.

(** The state of a request: the stores, the plugin events raised, the clock,
    and whatever the task dispatcher works on. *)
Record Control (R Q X : Type) : Type := mkControl {
  c_tasks : R;
  c_settings : Q;
  c_events : list (PluginEventType * N);
  c_clock : N;
  c_ext : X;
}.
Arguments mkControl {R Q X}.
Arguments c_tasks {R Q X}.
Arguments c_settings {R Q X}.
Arguments c_events {R Q X}.
Arguments c_clock {R Q X}.
Arguments c_ext {R Q X}.

Definition startStatuses : list string := [DaemonTaskStatusWaiting; DaemonTaskStatusWorking].

Section service.
Context {R Q X : Type} `{DaemonTaskRepository R} `{ServerSettingRepository Q}.
Context (clock : N -> time).
Context (pluginDispatcher : option (PluginEventType -> Server -> option PluginDispatchResult)).
Context (taskDispatcher : option (DaemonTask -> M (Control R Q X) DaemonTask)).
(** [tm.Do]: runs the function, in a transaction if the manager has one. *)
Context (tm_Do : forall A, M (Control R Q X) A -> M (Control R Q X) A).

Abbreviation C := (Control R Q X).

Definition on_tasks {A} (m : M R A) : M C A :=
  zoom c_tasks (fun r c => mkControl r (c_settings c) (c_events c) (c_clock c) (c_ext c)) m.
Definition on_settings {A} (m : M Q A) : M C A :=
  zoom c_settings (fun q c => mkControl (c_tasks c) q (c_events c) (c_clock c) (c_ext c)) m.
Definition now : M C time := fun c =>
  (Ok (clock (c_clock c)), mkControl (c_tasks c) (c_settings c) (c_events c) (c_clock c + 1) (c_ext c)).
Definition raise (ev : PluginEventType) (server : Server) : M C unit :=
  modify (fun c => mkControl (c_tasks c) (c_settings c) (c_events c ++ [(ev, sv_ID server)]) (c_clock c) (c_ext c)).

Definition dispatchOrSaveTask (task : DaemonTask) : M C DaemonTask :=
  match taskDispatcher with
  | Some dispatch => dispatch task
  | None => let! t := now in on_tasks (DT_Save t task)
  end.

Definition dispatchPreEvent (ev : PluginEventType) (server : Server) : M C unit :=
  match pluginDispatcher with
  | None => ret tt
  | Some DispatchServerEvent =>
      do! raise ev server ;;
      match DispatchServerEvent ev server with
      | Some res =>
          if pr_Cancelled res then
            let msg := if String.eqb (pr_CancelMessage res) "" then pr_CancelledBy res else pr_CancelMessage res in
            fail (EWrap ("cancelled by " +:+ pr_CancelledBy res +:+ ": " +:+ msg) ErrCancelledByPlugin)
          else ret tt
      | None => ret tt
      end
  end.

Definition dispatchPostEvent (ev : PluginEventType) (server : Server) : M C unit :=
  match pluginDispatcher with
  | None => ret tt
  | Some _ => raise ev server
  end.

Definition workingTasksExist (server : Server) (taskTypes : list string) : M C bool :=
  let! c := get in
  wrap "failed to check daemon task existence"
    (lift (DT_Exists (c_tasks c) (Some (mkFindDaemonTask [] [] [Some (sv_ID server)] taskTypes startStatuses)))).

Definition serverCommandCorrectOrFail (server : Server) : result unit :=
  match sv_StartCommand server with
  | None => Err ErrEmptyServerStartCommand
  | Some c => if String.eqb c "" then Err ErrEmptyServerStartCommand else Ok tt
  end.

(** The common tail of the [addServer...] methods. *)
Definition create_task (server : Server) (kind : string) (runAft : option N) : M C N :=
  let! created := now in
  let! updated := now in
  let! task := wrap "failed to dispatch daemon task" (dispatchOrSaveTask
    (mkDaemonTask 0 runAft (Some created) (Some updated) (sv_DSID server) (Some (sv_ID server))
      kind None None None DaemonTaskStatusWaiting)) in
  ret (dt_ID task).

(** [if runAftID > 0 { task.RunAftID = &runAftID }] *)
Definition after (runAftID : N) : option N := if (0 <? runAftID)%N then Some runAftID else None.

(** Refuse when a task of one of the kinds is pending. *)
Definition unless_pending (server : Server) (kinds : list string) (e : error) (k : M C N) : M C N :=
  let! exists_ := workingTasksExist server kinds in
  if exists_ then fail e else k.

Definition addServerStart (server : Server) (runAftID : N) : M C N :=
  unless_pending server [DaemonTaskTypeServerStart] (TaskAlreadyExistsError "server start")
    (do! lift (serverCommandCorrectOrFail server) ;;
     create_task server DaemonTaskTypeServerStart (Some runAftID)).

Definition addServerStop (server : Server) (runAftID : N) : M C N :=
  unless_pending server [DaemonTaskTypeServerStop] (TaskAlreadyExistsError "server stop")
    (create_task server DaemonTaskTypeServerStop (after runAftID)).

Definition addServerRestart (server : Server) (runAftID : N) : M C N :=
  unless_pending server [DaemonTaskTypeServerRestart] (TaskAlreadyExistsError "server restart")
    (do! lift (serverCommandCorrectOrFail server) ;;
     create_task server DaemonTaskTypeServerRestart (after runAftID)).

Definition addServerUpdate (server : Server) (runAftID : N) : M C N :=
  unless_pending server [DaemonTaskTypeServerUpdate; DaemonTaskTypeServerInstall] ErrServerUpdateInstallInProgress
    (create_task server DaemonTaskTypeServerUpdate (after runAftID)).

Definition addServerInstall (server : Server) (runAftID : N) : M C N :=
  unless_pending server [DaemonTaskTypeServerUpdate; DaemonTaskTypeServerInstall] ErrServerUpdateInstallInProgress
    (create_task server DaemonTaskTypeServerInstall (after runAftID)).

Definition addServerDelete (server : Server) (runAftID : N) : M C N :=
  unless_pending server [DaemonTaskTypeServerDelete] (TaskAlreadyExistsError "server delete")
    (create_task server DaemonTaskTypeServerDelete (after runAftID)).

Definition getSetting (serverID : N) (settingName : string) : M C (option ServerSetting) :=
  let! c := get in
  let! found := lift (SS_Find (c_settings c) (Some (mkFindServerSetting [] [serverID] [settingName])) [] None) in
  ret (head found).

Definition updateAutostartCurrent (serverID : N) (value : bool) : M C unit :=
  let! cur := wrap "failed to get autostart_current setting" (getSetting serverID autostartCurrentSettingKey) in
  let setting :=
    match cur with
    | None => mkServerSetting 0 autostartCurrentSettingKey serverID (NewServerSettingValue (AnyBool value))
    | Some s => mkServerSetting (ss_ID s) (ss_Name s) (ss_ServerID s) (NewServerSettingValue (AnyBool value))
    end in
  let! _ := wrap "failed to save autostart_current setting" (on_settings (SS_Save setting)) in
  ret tt.

Definition updateAutostartCurrentIfEnabled (serverID : N) (value : bool) : M C unit :=
  let! autostart := wrap "failed to get autostart setting" (getSetting serverID autostartSettingKey) in
  match autostart with
  | None => ret tt
  | Some s =>
      let '(v, ok) := ServerSettingValue_Bool (ss_Value s) in
      if negb ok || negb v then ret tt else updateAutostartCurrent serverID value
  end.

Definition Start (server : Server) : M C N :=
  do! dispatchPreEvent PluginEventServerPreStart server ;;
  do! updateAutostartCurrentIfEnabled (sv_ID server) true ;;
  let! taskID := addServerStart server 0 in
  do! dispatchPostEvent PluginEventServerPostStart server ;;
  ret taskID.

Definition Stop (server : Server) : M C N :=
  do! dispatchPreEvent PluginEventServerPreStop server ;;
  do! updateAutostartCurrent (sv_ID server) false ;;
  let! taskID := addServerStop server 0 in
  do! dispatchPostEvent PluginEventServerPostStop server ;;
  ret taskID.

Definition Restart (server : Server) : M C N :=
  do! dispatchPreEvent PluginEventServerPreRestart server ;;
  do! updateAutostartCurrentIfEnabled (sv_ID server) true ;;
  let! taskID := addServerRestart server 0 in
  do! dispatchPostEvent PluginEventServerPostRestart server ;;
  ret taskID.

Definition Update (server : Server) : M C N :=
  do! dispatchPreEvent PluginEventServerPreUpdate server ;;
  let! taskID := addServerUpdate server 0 in
  do! dispatchPostEvent PluginEventServerPostUpdate server ;;
  ret taskID.

Definition Install (server : Server) : M C N :=
  do! dispatchPreEvent PluginEventServerPreInstall server ;;
  let! taskID := addServerInstall server 0 in
  do! dispatchPostEvent PluginEventServerPostInstall server ;;
  ret taskID.

Definition allKinds : list string :=
  [DaemonTaskTypeServerStart; DaemonTaskTypeServerStop; DaemonTaskTypeServerRestart;
   DaemonTaskTypeServerUpdate; DaemonTaskTypeServerInstall; DaemonTaskTypeServerDelete].

Definition reinstall_tasks (server : Server) : M C N :=
  let! stopTaskID := wrap "failed to create stop task" (addServerStop server 0) in
  let! deleteTaskID := wrap "failed to create delete task" (addServerDelete server stopTaskID) in
  wrap "failed to create install task" (addServerInstall server deleteTaskID).

Definition Reinstall (server : Server) : M C N :=
  do! dispatchPreEvent PluginEventServerPreReinstall server ;;
  let! exists_ := workingTasksExist server allKinds in
  if exists_ then fail ErrAnotherTaskAlreadyExists
  else
    let! installTaskID := tm_Do N (reinstall_tasks server) in
    do! dispatchPostEvent PluginEventServerPostReinstall server ;;
    ret installTaskID.
End service.

(** ** Pending tasks *)

Definition pending (t : DaemonTask) : bool :=
  bool_decide (dt_Status t = DaemonTaskStatusWaiting) || bool_decide (dt_Status t = DaemonTaskStatusWorking).

Definition pending_for (sid : N) (kinds : list string) (t : DaemonTask) : Prop :=
  pending t = true /\ dt_ServerID t = Some sid /\ dt_Task t ∈ kinds.

(** The groups of task kinds that exclude each other. *)
Definition groups : list (list string) :=
  [[DaemonTaskTypeServerStart]; [DaemonTaskTypeServerStop]; [DaemonTaskTypeServerRestart];
   [DaemonTaskTypeServerDelete]; [DaemonTaskTypeServerUpdate; DaemonTaskTypeServerInstall]].

(** Server [sid] has no two pending tasks of one group. *)
Definition exclusive (sid : N) (rows : gmap N DaemonTask) : Prop :=
  forall K, K ∈ groups -> forall i j t u,
    rows !! i = Some t -> rows !! j = Some u -> pending_for sid K t -> pending_for sid K u -> i = j.

Lemma groups_disjoint K K' k : K ∈ groups -> K' ∈ groups -> k ∈ K -> k ∈ K' -> K = K'.
Proof.
  assert (H : forallb (fun K => forallb (fun K' => forallb (fun k =>
    negb (bool_decide (k ∈ K')) || bool_decide (K = K')) K) groups) groups = true) by reflexivity.
  intros HK HK' Hk Hk'. rewrite forallb_forall in H.
  apply list_elem_of_In in HK, HK', Hk. specialize (H K HK). rewrite forallb_forall in H.
  specialize (H K' HK'). rewrite forallb_forall in H. specialize (H k Hk).
  apply orb_true_iff in H as [H|H]; [|by apply bool_decide_eq_true in H].
  apply negb_true_iff, bool_decide_eq_false in H. done.
Qed.

Lemma exclusive_insert sid' rows id row sid K :
  exclusive sid' rows -> rows !! id = None -> K ∈ groups -> dt_Task row ∈ K -> dt_ServerID row = Some sid ->
  (forall i t, rows !! i = Some t -> ~ pending_for sid K t) ->
  exclusive sid' (<[id := row]> rows).
Proof.
  intros Hex Hid HK Hk Hs Hnone K' HK' i j t u. rewrite !lookup_insert.
  assert (Hrow : forall i t, rows !! i = Some t -> pending_for sid' K' row -> pending_for sid' K' t -> False).
  { intros i0 t0 Hi (_ & Hs' & Hk') Hp. rewrite Hs in Hs'. injection Hs' as <-.
    rewrite (groups_disjoint K' K (dt_Task row)) in Hp by done. by eapply Hnone. }
  repeat case_decide; subst; try congruence.
  - intros [= <-] Hu Hp Hq. exfalso. eauto.
  - intros Ht [= <-] Hp Hq. exfalso. eauto.
  - by apply Hex.
Qed.

Lemma task_matches_pending sid kinds t :
  kinds <> [] ->
  task_matches (mkFindDaemonTask [] [] [Some sid] kinds startStatuses) t = true <-> pending_for sid kinds t.
Proof.
  intros Hk. unfold task_matches, pending_for, pending. rewrite !andb_true_iff, !in_or_any_true. simpl.
  destruct kinds as [|k ks]; [done|]. simpl. rewrite orb_true_iff, !bool_decide_eq_true.
  unfold startStatuses. destruct (dt_ServerID t) as [s|]; [|naive_solver].
  rewrite bool_decide_eq_true, !list.elem_of_cons. setoid_rewrite list.elem_of_nil. naive_solver.
Qed.

(** ** Effects *)

Section specs.
Context {R Q X : Type} `{DaemonTaskRepositoryLaws R} `{ServerSettingRepositoryLaws Q}.
Context (clock : N -> time).
Context (pluginDispatcher : option (PluginEventType -> Server -> option PluginDispatchResult)).
Context (taskDispatcher : option (DaemonTask -> M (Control R Q X) DaemonTask)).
Context (tm_Do : forall A, M (Control R Q X) A -> M (Control R Q X) A).

(** The invariant of what the task dispatcher works on. *)
Context (xinv : X -> Prop).

Abbreviation C := (Control R Q X).
Definition crows (c : C) : gmap N DaemonTask := dt_rows (c_tasks c).
Definition srows (c : C) : gmap N ServerSetting := st_rows (c_settings c).
Definition cinv (c : C) : Prop := dt_inv (c_tasks c) /\ st_inv (c_settings c) /\ xinv (c_ext c).
Definition croom (n : nat) (c : C) : Prop := dt_room n (c_tasks c).
Definition sroom (n : nat) (c : C) : Prop := st_room n (c_settings c).

(** The stored row of a requested task: all of it but the id and the times. *)
Definition same_request (t row : DaemonTask) : Prop :=
  dt_RunAftID row = dt_RunAftID t /\ dt_DedicatedServerID row = dt_DedicatedServerID t /\
  dt_ServerID row = dt_ServerID t /\ dt_Task row = dt_Task t /\ dt_Status row = dt_Status t /\
  dt_Cmd row = dt_Cmd t /\ dt_Data row = dt_Data t /\ dt_Output row = dt_Output t.

(** What a task dispatcher promises: the task becomes one new row, or nothing
    happened. *)
Definition dispatch_spec (t : DaemonTask) (c : C) (r : result DaemonTask) (c' : C) : Prop :=
  cinv c' /\ c_settings c' = c_settings c /\ c_events c' = c_events c /\
  (forall n, croom (S n) c -> croom n c') /\
  match r with
  | Ok t' => crows c !! dt_ID t' = None /\
      exists row, crows c' = <[dt_ID t' := row]> (crows c) /\ same_request t row
  | Err _ => crows c' = crows c
  | Panic _ => False
  end.

Definition dispatcher_ok : Prop :=
  forall dispatch, taskDispatcher = Some dispatch -> forall t c, cinv c -> dt_ID t = 0%N -> croom 1 c ->
    wp (dispatch t) (dispatch_spec t c) c.

Hypothesis Hdispatch : dispatcher_ok.

Lemma wp_now Q0 (c : C) :
  (forall t, Q0 (Ok t) (mkControl (c_tasks c) (c_settings c) (c_events c) (c_clock c + 1) (c_ext c))) ->
  wp (now clock) Q0 c.
Proof. intros HQ. apply HQ. Qed.

Lemma wp_dispatchOrSaveTask t (c : C) :
  cinv c -> dt_ID t = 0%N -> croom 1 c ->
  wp (dispatchOrSaveTask clock taskDispatcher t) (dispatch_spec t c) c.
Proof.
  intros Hinv Hid Hroom. unfold dispatchOrSaveTask.
  destruct taskDispatcher as [dispatch|] eqn:Ed; [by apply (Hdispatch dispatch)|].
  wp_step. apply wp_now. intros tm. unfold on_tasks. wp_step. apply wp_intro. simpl. intros r r' E.
  destruct Hinv as (Hi & Hs & Hx).
  destruct (dt_save_law _ _ _ _ _ Hi ltac:(rewrite decide_True; [exact Hroom|done]) E) as (Hi' & Hrm & Hlaw).
  assert (Hrm' : forall n, croom (S n) c -> dt_room n r').
  { intros n. specialize (Hrm n). by rewrite decide_True in Hrm. }
  split_and!; [done|done|done|exact Hrm'|]. destruct r as [t'| |]; [|done|done].
  destruct Hlaw as (Ht' & Hrows & Hnew). rewrite decide_True in Hnew by done. split; [done|].
  eexists. split; [exact Hrows|]. unfold crows in *. simpl.
  change (dt_rows (c_tasks c) !! dt_ID t' = None) in Hnew. rewrite Hnew, Ht'.
  unfold same_request, stored_row, touched. simpl. destruct (dt_Output t) eqn:Eo; simpl; by rewrite ?Eo.
Qed.

(** A request adds one pending task for the server, or changes no task. *)
Definition adds (server : Server) (kind : string) (ra : option N) (c : C) (r : result N) (c' : C) : Prop :=
  cinv c' /\ c_settings c' = c_settings c /\ c_events c' = c_events c /\
  (forall n, croom (S n) c -> croom n c') /\
  match r with
  | Ok id => crows c !! id = None /\ exists row, crows c' = <[id := row]> (crows c) /\
      dt_RunAftID row = ra /\ dt_DedicatedServerID row = sv_DSID server /\
      dt_ServerID row = Some (sv_ID server) /\ dt_Task row = kind /\ dt_Status row = DaemonTaskStatusWaiting
  | _ => crows c' = crows c
  end.

Lemma wp_create_task server kind ra (c : C) :
  cinv c -> croom 1 c -> wp (create_task clock taskDispatcher server kind ra) (adds server kind ra c) c.
Proof.
  intros Hinv Hroom. unfold create_task. wp_step. apply wp_now. intros t1. wp_step. apply wp_now. intros t2.
  repeat wp_step. eapply wp_mono; [apply wp_dispatchOrSaveTask|]; [done|done|done|].
  intros r c' (Hi & Hs & He & Hrm & Hr). unfold adds, crows, croom in *. simpl in *.
  destruct r as [t'|e|w]; simpl; [|done|done]. wp_step.
  destruct Hr as (Hnew & row & Hrow & Hreq). split_and!; [done..|]. exists row.
  destruct Hreq as (? & ? & ? & ? & ? & _). simpl in *. by split_and!.
Qed.

Lemma wp_unless_pending server K e (k : M C N) Q0 (c : C) :
  cinv c -> K <> [] ->
  (forall r, is_ok r = false -> Q0 r c) ->
  ((forall i t, crows c !! i = Some t -> ~ pending_for (sv_ID server) K t) -> wp k Q0 c) ->
  wp (unless_pending server K e k) Q0 c.
Proof.
  intros [Hi _] HK Hno Hk. unfold unless_pending, workingTasksExist. repeat wp_step.
  destruct (DT_Exists (c_tasks c) (Some (mkFindDaemonTask [] [] [Some (sv_ID server)] K startStatuses)))
    as [b|e'|w] eqn:Ex; simpl; [|by apply Hno|by apply Hno].
  pose proof (dt_exists_law _ (mkFindDaemonTask [] [] [Some (sv_ID server)] K startStatuses) _ Hi eq_refl Ex) as Hlaw. destruct b; [wp_step; by apply Hno|].
  apply Hk. intros i t Ht Hp. enough (false = true) by done. apply Hlaw. exists i, t.
  split; [done|]. by apply task_matches_pending.
Qed.

(** One request of the service, for a group of kinds. *)
Definition requests (server : Server) (kind : string) (ra : option N) (c : C) (r : result N) (c' : C) : Prop :=
  adds server kind ra c r c' /\ (forall sid, exclusive sid (crows c) -> exclusive sid (crows c')).

Lemma requests_no server kind ra (c : C) r : cinv c -> (forall n, croom (S n) c -> croom n c) ->
  is_ok r = false -> requests server kind ra c r c.
Proof. intros Hi Hrm Hr. split; [|done]. unfold adds. split_and!; try done. by destruct r. Qed.

Lemma wp_request server K e kind ra (guard : result unit) (c : C) :
  cinv c -> croom 1 c -> K ∈ groups -> kind ∈ K ->
  wp (unless_pending server K e (do! lift guard ;; create_task clock taskDispatcher server kind ra))
    (requests server kind ra c) c.
Proof.
  intros Hinv Hroom HK Hk. assert (HKn : K <> []) by (intros ->; by apply list.elem_of_nil in Hk).
  apply wp_unless_pending; [done|done| |].
  - intros r Hr. apply requests_no; [done|intros n; apply dt_room_weaken|done].
  - intros Hnone. repeat wp_step. destruct guard as [[]|e'|w].
    + eapply wp_mono; [by apply wp_create_task|]. intros r c' Ha. split; [done|].
      intros sid Hex. destruct Ha as (_ & _ & _ & _ & Ha). destruct r as [id| |]; [|by rewrite Ha|by rewrite Ha].
      destruct Ha as (Hnew & row & -> & _ & _ & Hsv & Hkind & _).
      eapply (exclusive_insert _ _ _ _ (sv_ID server) K); [done|done|done|by rewrite Hkind|done|done].
    + apply requests_no; [done|intros n; apply dt_room_weaken|done].
    + apply requests_no; [done|intros n; apply dt_room_weaken|done].
Qed.

Lemma wp_request' server K e kind ra (c : C) :
  cinv c -> croom 1 c -> K ∈ groups -> kind ∈ K ->
  wp (unless_pending server K e (create_task clock taskDispatcher server kind ra))
    (requests server kind ra c) c.
Proof. intros Hi Hr HK Hk. exact (wp_request server K e kind ra (Ok tt) c Hi Hr HK Hk). Qed.

(** ** Settings *)

(** The autostart_current setting of the server was set; nothing else was. *)
Definition sets_current (sid : N) (v : bool) (before after : gmap N ServerSetting) : Prop :=
  exists i row, after = <[i := row]> before /\ ss_ServerID row = sid /\
    ss_Name row = autostartCurrentSettingKey /\ ss_Value row = NewServerSettingValue (AnyBool v) /\
    match before !! i with
    | None => True
    | Some old => ss_ServerID old = sid /\ ss_Name old = autostartCurrentSettingKey
    end.

Definition settings_total : Prop :=
  (forall q f, is_ok (SS_Find q f [] None) = true) /\
  (forall s q, is_ok (fst (SS_Save s q)) = true).

(** What a settings call leaves alone. *)
Definition tasks_kept (c c' : C) : Prop :=
  cinv c' /\ c_tasks c' = c_tasks c /\ c_events c' = c_events c.

Lemma setting_matches_one sid name s :
  setting_matches (mkFindServerSetting [] [sid] [name]) s = true <-> ss_ServerID s = sid /\ ss_Name s = name.
Proof.
  unfold setting_matches. simpl. rewrite andb_true_iff, !bool_decide_eq_true.
  by rewrite !list_elem_of_singleton.
Qed.

Lemma wp_getSetting sid name Q0 (c : C) :
  cinv c ->
  (forall e, ~ settings_total -> Q0 (Err e) c) ->
  (forall s, srows c !! ss_ID s = Some s -> ss_ID s <> 0%N -> ss_ServerID s = sid -> ss_Name s = name -> Q0 (Ok (Some s)) c) ->
  ((forall i s, srows c !! i = Some s -> ~ (ss_ServerID s = sid /\ ss_Name s = name)) -> Q0 (Ok None) c) ->
  wp (getSetting sid name) Q0 c.
Proof.
  intros (_ & Hs & _) Herr Hsome Hnone. unfold getSetting. repeat wp_step.
  destruct (SS_Find (c_settings c) (Some (mkFindServerSetting [] [sid] [name])) [] None) as [l|e|w] eqn:Ef.
  - pose proof (st_find_law _ _ _ Hs Ef) as Hel. wp_step. destruct l as [|s l]; simpl.
    + apply Hnone. intros i s Hi Hm. destruct (st_rows_id _ _ _ Hs Hi) as [Hid _].
      apply (proj1 (list.elem_of_nil s)). apply Hel. rewrite Hid. split; [done|]. by apply setting_matches_one.
    + destruct (proj1 (Hel s)) as [Hrow Hm]; [by apply list.elem_of_cons; left|].
      apply setting_matches_one in Hm as [H3 H4]. destruct (st_rows_id _ _ _ Hs Hrow) as [_ Hnz]. by apply Hsome.
  - apply Herr. intros [Ht _]. specialize (Ht (c_settings c) (Some (mkFindServerSetting [] [sid] [name]))).
    by rewrite Ef in Ht.
  - by apply st_find_nopanic in Ef.
Qed.

Lemma wp_updateAutostartCurrent sid v (c : C) :
  cinv c -> sroom 1 c ->
  wp (updateAutostartCurrent sid v) (fun r c' => tasks_kept c c' /\
    (r = Ok tt /\ sets_current sid v (srows c) (srows c') \/
     is_ok r = false /\ srows c' = srows c /\ ~ settings_total)) c.
Proof.
  intros Hinv Hroom. unfold updateAutostartCurrent. repeat wp_step.
  assert (Hsave : forall s, ss_ServerID s = sid -> ss_Name s = autostartCurrentSettingKey ->
      ss_Value s = NewServerSettingValue (AnyBool v) ->
      (if decide (ss_ID s = 0%N) then True
       else exists old, srows c !! ss_ID s = Some old /\ ss_ServerID old = sid /\ ss_Name old = autostartCurrentSettingKey) ->
      wp (let! _ := wrap "failed to save autostart_current setting" (on_settings (SS_Save s)) in ret tt)
        (fun r c' => tasks_kept c c' /\
          (r = Ok tt /\ sets_current sid v (srows c) (srows c') \/
           is_ok r = false /\ srows c' = srows c /\ ~ settings_total)) c).
  { intros s Hsid Hnm Hval Hold. repeat wp_step. unfold on_settings. wp_step. apply wp_intro. simpl. intros r q' E.
    destruct Hinv as (Ht & Hs & Hx).
    destruct (st_save_law s (c_settings c) r q' Hs) as (Hs' & _ & Hlaw); [|exact E|].
    { case_decide; [exact Hroom|]. destruct Hold as (old & Ho & _). exists old. exact Ho. }
    destruct r as [s'|e|w]; simpl; [| |done].
    - wp_step. destruct Hlaw as (Hs1 & Hrows & Hid). split; [by split_and!|]. left. split; [done|].
      exists (ss_ID s'), s'. split_and!; [exact Hrows|by rewrite Hs1|by rewrite Hs1|by rewrite Hs1|].
      case_decide as H0'; unfold srows; [by rewrite Hid|].
      destruct Hold as (old & Ho & H1' & H2'). unfold srows in *. rewrite Hid, Ho. done.
    - split; [by split_and!|]. right. split_and!; [done|done|]. intros [_ Htot].
      specialize (Htot s (c_settings c)). by rewrite E in Htot. }
  apply wp_getSetting; [done| | |].
  - intros e Hnt. simpl. split; [by split_and!|]. auto.
  - intros s Hrow Hnz Hsid Hnm. simpl. apply Hsave; [done|done|done|]. simpl.
    rewrite decide_False by done. eauto.
  - intros _. simpl. by apply Hsave.
Qed.

Definition truthy (s : ServerSetting) : bool :=
  let '(v, ok) := ServerSettingValue_Bool (ss_Value s) in ok && v.
Definition autostart_row (sid : N) (s : ServerSetting) : Prop :=
  ss_ServerID s = sid /\ ss_Name s = autostartSettingKey.

Lemma wp_updateIfEnabled sid v (c : C) :
  cinv c -> sroom 1 c ->
  wp (updateAutostartCurrentIfEnabled sid v) (fun r c' => tasks_kept c c' /\
    (r = Ok tt /\ sets_current sid v (srows c) (srows c') /\
       (exists i s, srows c !! i = Some s /\ autostart_row sid s /\ truthy s = true) \/
     r = Ok tt /\ srows c' = srows c /\
       ((forall i s, srows c !! i = Some s -> ~ autostart_row sid s) \/
        exists i s, srows c !! i = Some s /\ autostart_row sid s /\ truthy s = false) \/
     is_ok r = false /\ srows c' = srows c /\ ~ settings_total)) c.
Proof.
  intros Hinv Hroom. unfold updateAutostartCurrentIfEnabled. repeat wp_step.
  apply wp_getSetting; [done| | |].
  - intros e Hnt. simpl. split; [by split_and!|]. auto.
  - intros s Hrow Hnz Hsid Hnm. simpl. destruct (ServerSettingValue_Bool (ss_Value s)) as [b ok] eqn:Eb.
    destruct (negb ok || negb b) eqn:En.
    + wp_step. split; [by split_and!|]. right; left. split_and!; [done|done|]. right.
      exists (ss_ID s), s. split; [done|]. split; [done|]. unfold truthy. rewrite Eb.
      by destruct ok, b.
    + eapply wp_mono; [by apply wp_updateAutostartCurrent|]. intros r c' [Hk [[-> Hset]|Hbad]]; split; try done.
      * left. split; [done|]. split; [done|]. exists (ss_ID s), s. split; [done|]. split; [done|].
        unfold truthy. rewrite Eb. by destruct ok, b.
      * auto.
  - intros Hnone. simpl. wp_step. split; [by split_and!|]. right; left. split_and!; [done|done|]. left.
    intros i s Hi. by apply (Hnone i).
Qed.

(** ** Plugin events *)

(** Only the event list changes. *)
Definition only_events (c c' : C) : Prop :=
  c_tasks c' = c_tasks c /\ c_settings c' = c_settings c /\ c_ext c' = c_ext c.

Lemma wp_pre ev server (c : C) :
  wp (dispatchPreEvent pluginDispatcher ev server) (fun r c' => only_events c c' /\
    (pluginDispatcher = None -> r = Ok tt /\ c' = c) /\ (forall w, r <> Panic w)) c.
Proof.
  unfold dispatchPreEvent, raise. destruct pluginDispatcher as [d|]; [|by wp_step].
  wp_step. unfold wp at 1. simpl. destruct (d ev server) as [res|]; [|by wp_step].
  destruct (pr_Cancelled res); by wp_step.
Qed.

Lemma wp_post ev server (c : C) :
  wp (dispatchPostEvent pluginDispatcher ev server) (fun r c' => only_events c c' /\ r = Ok tt) c.
Proof. unfold dispatchPostEvent, raise. destruct pluginDispatcher; [done|by wp_step]. Qed.

(** ** Whole operations *)

(** The invariant of the service, for one server. *)
Definition good (sid : N) (c : C) : Prop := cinv c /\ exclusive sid (crows c).

Lemma good_only_events sid c c' : only_events c c' -> good sid c -> good sid c'.
Proof. intros (H3 & H4 & H5). unfold good, cinv, crows. by rewrite H3, H4, H5. Qed.

Lemma room_only_events n c c' : only_events c c' -> croom n c -> croom n c'.
Proof. intros [H3 _]. unfold croom. by rewrite H3. Qed.

Lemma requests_good sid server kind ra c r c' : requests server kind ra c r c' -> good sid c -> good sid c'.
Proof. intros [(Hi & _) Hex] [_ Hg]. split; auto. Qed.

(** After the event, and after the task, the operation keeps the invariant. *)
Lemma wp_op_good sid (ev post : PluginEventType) server (pre : M C unit) (k : M C N) (c : C) :
  good sid c -> croom 1 c -> sroom 1 c ->
  (forall c, cinv c -> sroom 1 c -> wp pre (fun r c' => tasks_kept c c') c) ->
  (forall c, good sid c -> croom 1 c -> wp k (fun r c' => good sid c') c) ->
  wp (do! dispatchPreEvent pluginDispatcher ev server ;; do! pre ;;
      let! id := k in do! dispatchPostEvent pluginDispatcher post server ;; ret id)
    (fun r c' => good sid c') c.
Proof.
  intros Hg Hr Hsr Hpre Hk. wp_step. eapply wp_mono; [apply wp_pre|]. intros r1 c1 (He & _ & _).
  assert (Hg1 : good sid c1) by by eapply good_only_events.
  destruct r1 as [[]|e|w]; [|done|done]. wp_step. eapply wp_mono; [apply Hpre|].
  { apply Hg1. } { destruct He as (_ & He & _). unfold sroom. by rewrite He. }
  intros r2 c2 (Hi2 & Ht2 & _).
  assert (Hg2 : good sid c2) by (split; [done|]; unfold crows; rewrite Ht2; apply Hg1).
  destruct r2 as [[]|e|w]; [|done|done]. wp_step. eapply wp_mono; [apply Hk; [done|]|].
  { unfold croom. rewrite Ht2. destruct He as [He _]. by rewrite He. }
  intros r3 c3 Hg3. destruct r3 as [id|e|w]; [|done|done].
  wp_step. eapply wp_mono; [apply wp_post|]. intros r4 c4 (He4 & ->). wp_step. by eapply good_only_events.
Qed.

Lemma wp_request_good sid server kind ra (m : M C N) c :
  (cinv c -> croom 1 c -> wp m (requests server kind ra c) c) ->
  good sid c -> croom 1 c -> wp m (fun r c' => good sid c') c.
Proof.
  intros Hm [Hi Hex] Hr. eapply wp_mono; [by apply Hm|]. intros r c' Hq. by eapply requests_good.
Qed.

(** A rollback restores the stores; what went out to daemons and plugins stays
    out. *)
Definition rolled_back (c c' : C) : C :=
  mkControl (c_tasks c) (c_settings c) (c_events c') (c_clock c') (c_ext c').

(** [tm.Do] commits what the function did, or undoes it when it failed. *)
Definition transactional : Prop :=
  forall A (m : M C A) c, tm_Do A m c = m c \/
    (is_ok (fst (m c)) = false /\ tm_Do A m c = (fst (m c), rolled_back c (snd (m c)))).
Hypothesis Htm : transactional.

Ltac in_group := apply (bool_decide_unpack _); vm_compute; exact I.

Lemma wp_Stop_task server ra c :
  cinv c -> croom 1 c -> wp (addServerStop clock taskDispatcher server ra)
    (requests server DaemonTaskTypeServerStop (after ra) c) c.
Proof. intros Hi Hr. apply wp_request'; [done|done|in_group|in_group]. Qed.
Lemma wp_Delete_task server ra c :
  cinv c -> croom 1 c -> wp (addServerDelete clock taskDispatcher server ra)
    (requests server DaemonTaskTypeServerDelete (after ra) c) c.
Proof. intros Hi Hr. apply wp_request'; [done|done|in_group|in_group]. Qed.
Lemma wp_Install_task server ra c :
  cinv c -> croom 1 c -> wp (addServerInstall clock taskDispatcher server ra)
    (requests server DaemonTaskTypeServerInstall (after ra) c) c.
Proof. intros Hi Hr. apply wp_request'; [done|done|in_group|in_group]. Qed.
Lemma wp_Update_task server ra c :
  cinv c -> croom 1 c -> wp (addServerUpdate clock taskDispatcher server ra)
    (requests server DaemonTaskTypeServerUpdate (after ra) c) c.
Proof. intros Hi Hr. apply wp_request'; [done|done|in_group|in_group]. Qed.
Lemma wp_Start_task server ra c :
  cinv c -> croom 1 c -> wp (addServerStart clock taskDispatcher server ra)
    (requests server DaemonTaskTypeServerStart (Some ra) c) c.
Proof. intros Hi Hr. apply wp_request; [done|done|in_group|in_group]. Qed.
Lemma wp_Restart_task server ra c :
  cinv c -> croom 1 c -> wp (addServerRestart clock taskDispatcher server ra)
    (requests server DaemonTaskTypeServerRestart (after ra) c) c.
Proof. intros Hi Hr. apply wp_request; [done|done|in_group|in_group]. Qed.

Lemma wp_reinstall_good sid server (c : C) :
  good sid c -> croom 3 c -> wp (reinstall_tasks clock taskDispatcher server) (fun r c' => good sid c') c.
Proof.
  intros [Hi Hex] Hr. unfold reinstall_tasks. repeat wp_step.
  eapply wp_mono; [apply wp_Stop_task; [done|by do 2 apply dt_room_weaken]|]. intros r1 c1 Hq1.
  pose proof (requests_good sid _ _ _ _ _ _ Hq1 (conj Hi Hex)) as Hg1. destruct Hq1 as [(_ & _ & _ & Hrm1 & _) _].
  destruct r1 as [a|e|w]; simpl; [|done|done]. repeat wp_step.
  eapply wp_mono; [apply wp_Delete_task; [apply Hg1|apply dt_room_weaken, Hrm1, Hr]|]. intros r2 c2 Hq2.
  pose proof (requests_good sid _ _ _ _ _ _ Hq2 Hg1) as Hg2. destruct Hq2 as [(_ & _ & _ & Hrm2 & _) _].
  destruct r2 as [b|e|w]; simpl; [|done|done]. repeat wp_step.
  eapply wp_mono; [apply wp_Install_task; [apply Hg2|apply Hrm2, Hrm1, Hr]|]. intros r3 c3 Hq3.
  by eapply requests_good.
Qed.

Lemma wp_tm {A} (m : M C A) (Q0 : result A -> C -> Prop) c :
  wp m (fun r c' => Q0 r c' /\ (is_ok r = false -> Q0 r (rolled_back c c'))) c -> wp (tm_Do A m) Q0 c.
Proof.
  unfold wp. intros [Hm Hno]. destruct (Htm A m c) as [->|[Hf ->]]; [done|]. simpl. by apply Hno.
Qed.

Lemma good_rolled_back sid c c' : good sid c -> good sid c' -> good sid (rolled_back c c').
Proof. intros [(Hi & Hs & _) Hex] [(_ & _ & Hx) _]. by split_and!. Qed.

(** The requests a user can make. *)
Inductive service_op : Type :=
| OpStart (server : Server) | OpStop (server : Server) | OpRestart (server : Server)
| OpUpdate (server : Server) | OpInstall (server : Server) | OpReinstall (server : Server).

Definition run_op (op : service_op) : M C N :=
  match op with
  | OpStart s => Start clock pluginDispatcher taskDispatcher s
  | OpStop s => Stop clock pluginDispatcher taskDispatcher s
  | OpRestart s => Restart clock pluginDispatcher taskDispatcher s
  | OpUpdate s => Update clock pluginDispatcher taskDispatcher s
  | OpInstall s => Install clock pluginDispatcher taskDispatcher s
  | OpReinstall s => Reinstall clock pluginDispatcher taskDispatcher tm_Do s
  end.

Lemma wp_run_op sid op (c : C) : good sid c -> croom 3 c -> sroom 1 c -> wp (run_op op) (fun r c' => good sid c') c.
Proof.
  intros Hg Hr Hs. assert (Hr1 : croom 1 c) by by do 2 apply dt_room_weaken.
  assert (Hif : forall i c, cinv c -> sroom 1 c ->
    wp (updateAutostartCurrentIfEnabled i true) (fun r c' => tasks_kept c c') c).
  { intros i c0 Hi0 Hs0. eapply wp_mono; [by apply wp_updateIfEnabled|]. by intros r c' [Hk _]. }
  assert (Hnop : forall c : C, cinv c -> sroom 1 c -> wp (ret tt) (fun r c' => tasks_kept c c') c)
    by by (intros c0 Hi0 _; wp_step).
  destruct op as [s|s|s|s|s|s]; simpl.
  - apply wp_op_good; [done|done|done|auto|]. intros c0 Hg0 Hr0.
    eapply wp_request_good; [intros ? ?; by apply wp_Start_task|done|done].
  - apply wp_op_good; [done|done|done| |].
    + intros c0 Hi0 Hs0. eapply wp_mono; [by apply wp_updateAutostartCurrent|]. by intros r c' [Hk _].
    + intros c0 Hg0 Hr0. eapply wp_request_good; [intros ? ?; by apply wp_Stop_task|done|done].
  - apply wp_op_good; [done|done|done|auto|]. intros c0 Hg0 Hr0.
    eapply wp_request_good; [intros ? ?; by apply wp_Restart_task|done|done].
  - apply (wp_op_good _ _ _ s (ret tt)); [done|done|done|auto|]. intros c0 Hg0 Hr0.
    eapply wp_request_good; [intros ? ?; by apply wp_Update_task|done|done].
  - apply (wp_op_good _ _ _ s (ret tt)); [done|done|done|auto|]. intros c0 Hg0 Hr0.
    eapply wp_request_good; [intros ? ?; by apply wp_Install_task|done|done].
  - unfold Reinstall. wp_step. eapply wp_mono; [apply wp_pre|]. intros r1 c1 (He & _ & _).
    assert (Hg1 : good sid c1) by by eapply good_only_events.
    destruct r1 as [[]|e|w]; [|done|done]. unfold workingTasksExist. repeat wp_step.
    destruct (DT_Exists _ _) as [[]|e|w]; simpl; [wp_step; done| |done|done].
    wp_step. apply wp_tm. eapply wp_mono; [apply wp_reinstall_good; [done|]|].
    { by eapply room_only_events. }
    intros r2 c2 Hg2. split; [|intros Hf; pose proof (good_rolled_back _ _ _ Hg1 Hg2); by destruct r2].
    destruct r2 as [id|e|w]; [|done|done]. wp_step.
    eapply wp_mono; [apply wp_post|]. intros r3 c3 (He3 & ->). wp_step. by eapply good_only_events.
Qed.

(** What happens while server [sid] is controlled by the service: requests for
    any server, answered one after another, and whatever the others do to the
    tasks as long as they make no task of this server pending: tasks start,
    finish, fail, are cancelled, reconciled or deleted, and other servers are
    created and deleted with their tasks.  Deleting this server with its files,
    a plugin that creates a task for it and a daemon that reports a finished
    task as working again are no such steps: they look at no other task. *)
Inductive control_step (sid : N) : C -> C -> Prop :=
| step_request op c : croom 3 c -> sroom 1 c -> control_step sid c (snd (run_op op c))
| step_others c c' :
    cinv c' ->
    (forall i t', crows c' !! i = Some t' -> pending t' = true -> dt_ServerID t' = Some sid ->
       exists t, crows c !! i = Some t /\ pending t = true /\ dt_ServerID t = Some sid /\ dt_Task t = dt_Task t') ->
    control_step sid c c'.

Lemma control_step_good sid c c' : control_step sid c c' -> good sid c -> good sid c'.
Proof.
  intros [op c0 Hr Hs|c0 c1 Hi Hp] Hg.
  - exact (wp_run_op sid op c0 Hg Hr Hs).
  - split; [done|]. intros K HK i j t u Ht Hu (Hpt & Hst & Hkt) (Hpu & Hsu & Hku).
    destruct (Hp i t Ht Hpt Hst) as (t0 & Ht0 & Hpt0 & Hst0 & Hkt0).
    destruct (Hp j u Hu Hpu Hsu) as (u0 & Hu0 & Hpu0 & Hsu0 & Hku0).
    destruct Hg as [_ Hex]. apply (Hex K HK i j t0 u0 Ht0 Hu0); unfold pending_for; split_and!; congruence.
Qed.

(** C9: as long as only server control creates tasks for a server and its
    requests are answered one after another, the server never has two pending
    tasks of one kind, nor an update and an install at once, whatever is
    requested for it and for others, however tasks progress in between, and
    whatever else is done to the tasks of other servers; this holds with any
    stores that keep their promises, with or without a task dispatcher, plugins
    that veto requests, and a transaction manager that commits or rolls back.
    The check and the creation of a task are two calls with nothing that holds
    off a second request in between ([overlapping_requests_double]), and
    deleting a server with its files does not look at its tasks. *)
Theorem one_pending_task_per_kind sid c c' :
  good sid c -> rtc (control_step sid) c c' ->
  forall K, K ∈ groups -> forall i j t u,
    crows c' !! i = Some t -> crows c' !! j = Some u ->
    pending_for sid K t -> pending_for sid K u -> i = j.
Proof.
  intros Hg Hr. assert (Hg' : good sid c') by (induction Hr; eauto using control_step_good).
  apply Hg'.
Qed.

Definition autostart_effect (sid : N) (before after : gmap N ServerSetting) : Prop :=
  (sets_current sid true before after /\
     exists i s, before !! i = Some s /\ autostart_row sid s /\ truthy s = true) \/
  (after = before /\
     ((forall i s, before !! i = Some s -> ~ autostart_row sid s) \/
      exists i s, before !! i = Some s /\ autostart_row sid s /\ truthy s = false)).

(** Creating the task and raising the event leave the settings alone. *)
Lemma wp_tail_settings server kind ra ev m (c c1 : C) :
  (forall c, cinv c -> croom 1 c -> wp m (requests server kind ra c) c) ->
  croom 1 c -> tasks_kept c c1 ->
  wp (let! id := m in do! dispatchPostEvent pluginDispatcher ev server ;; ret id)
    (fun (r : result N) c' => srows c' = srows c1) c1.
Proof.
  intros Hm Hr (Hi1 & Ht1 & _). wp_step. eapply wp_mono; [apply Hm; [done|]|].
  { unfold croom. by rewrite Ht1. }
  intros r c2 [(_ & Hs2 & _) _]. unfold srows. rewrite <- Hs2. destruct r as [id|e|w]; [|done|done].
  wp_step. eapply wp_mono; [apply wp_post|]. intros r3 c3 ((_ & Hs3 & _) & ->). wp_step. by rewrite Hs3.
Qed.

Lemma wp_Stop_settings server (c : C) :
  cinv c -> croom 1 c -> sroom 1 c -> pluginDispatcher = None -> settings_total ->
  wp (run_op (OpStop server)) (fun r c' => sets_current (sv_ID server) false (srows c) (srows c')) c.
Proof.
  intros Hi Hr Hs Hplug Htot. simpl. unfold Stop. wp_step. eapply wp_mono; [apply wp_pre|].
  intros r1 c1 (_ & Hnone & _). destruct (Hnone Hplug) as [-> ->]. wp_step.
  eapply wp_mono; [by apply wp_updateAutostartCurrent|].
  intros r2 c2 (Hk & [[-> Hset]|(_ & _ & Hnt)]); [|done].
  eapply wp_mono.
  - apply (wp_tail_settings server DaemonTaskTypeServerStop (after 0) _ _ c); [|done|done].
    intros. by apply wp_Stop_task.
  - intros r3 c3 E. simpl in E. rewrite E. exact Hset.
Qed.

Lemma wp_Start_settings server (c : C) :
  cinv c -> croom 1 c -> sroom 1 c -> pluginDispatcher = None -> settings_total ->
  wp (run_op (OpStart server)) (fun r c' => autostart_effect (sv_ID server) (srows c) (srows c')) c.
Proof.
  intros Hi Hr Hs Hplug Htot. simpl. unfold Start. wp_step. eapply wp_mono; [apply wp_pre|].
  intros r1 c1 (_ & Hnone & _). destruct (Hnone Hplug) as [-> ->]. wp_step.
  eapply wp_mono; [by apply wp_updateIfEnabled|]. intros r2 c2 (Hk & Hcase).
  assert (Hc : r2 = Ok tt /\ autostart_effect (sv_ID server) (srows c) (srows c2)).
  { destruct Hcase as [(-> & Hset & Hex)|[(-> & Hsame & Hex)|(_ & _ & Hnt)]]; [| |done]; (split; [done|]).
    - by left.
    - by right. }
  destruct Hc as [-> Hc]. eapply wp_mono.
  - apply (wp_tail_settings server DaemonTaskTypeServerStart (Some 0%N) _ _ c); [|done|done].
    intros. by apply wp_Start_task.
  - intros r3 c3 E. simpl in E. rewrite E. exact Hc.
Qed.

(** With a settings store that does not fail and no plugins, a stop
    request records that the server is not to be restarted automatically, and
    a start request records the opposite exactly when autostart is on; the
    record is made before the task is created, so it is made as well when the
    request is then refused because such a task is pending.  No other setting
    changes. *)
Lemma autostart_recorded server (c : C) :
  cinv c -> croom 1 c -> sroom 1 c -> pluginDispatcher = None -> settings_total ->
  (let '(r, c') := run_op (OpStop server) c in
   sets_current (sv_ID server) false (srows c) (srows c')) /\
  (let '(r, c') := run_op (OpStart server) c in
   autostart_effect (sv_ID server) (srows c) (srows c')).
Proof.
  intros Hi Hr Hs Hplug Htot. split.
  - destruct (run_op (OpStop server) c) as [r c'] eqn:E.
    exact (wp_run _ _ _ _ _ (wp_Stop_settings server c Hi Hr Hs Hplug Htot) E).
  - destruct (run_op (OpStart server) c) as [r c'] eqn:E.
    exact (wp_run _ _ _ _ _ (wp_Start_settings server c Hi Hr Hs Hplug Htot) E).
Qed.

(** ** Reinstalling *)

(** Without a dispatcher, on a store that does not fail, an add succeeds
    unless a task of the group is pending. *)
Lemma wp_add_total server K e kind ra (c : C) :
  DaemonTaskRepositoryTotal R -> taskDispatcher = None -> K <> [] ->
  cinv c -> croom 1 c -> (forall i t, crows c !! i = Some t -> ~ pending_for (sv_ID server) K t) ->
  wp (unless_pending server K e (create_task clock taskDispatcher server kind ra))
    (fun r c' => is_ok r = true /\ adds server kind ra c r c') c.
Proof.
  intros Htot Hnone HK Hi Hr Hno. unfold unless_pending, workingTasksExist. repeat wp_step.
  destruct (dt_exists_total (c_tasks c) (Some (mkFindDaemonTask [] [] [Some (sv_ID server)] K startStatuses)) (proj1 Hi))
    as [b Ex]. rewrite Ex. simpl.
  pose proof (dt_exists_law _ (mkFindDaemonTask [] [] [Some (sv_ID server)] K startStatuses) _ (proj1 Hi) eq_refl Ex) as Hlaw.
  destruct b.
  { destruct Hlaw as [(i & t & Ht & Hm) _]; [done|]. apply task_matches_pending in Hm; [|done]. by destruct (Hno i t). }
  apply wp_intro. intros r c' E. pose proof (wp_run _ _ _ _ _ (wp_create_task server kind ra c Hi Hr) E) as Ha.
  split; [|exact Ha]. clear Ha. revert E.
  unfold create_task, bind, now, wrap, dispatchOrSaveTask, on_tasks, zoom. rewrite Hnone. unfold bind, now. simpl.
  match goal with |- context [DT_Save ?tm ?tk (c_tasks c)] =>
    pose proof (dt_save_total tm tk (c_tasks c) (proj1 Hi)) as Hs; simpl in Hs; specialize (Hs Hr);
    destruct (DT_Save tm tk (c_tasks c)) as [[t'| |] r'] end; try done.
  by intros [= <- _].
Qed.

(** What the three tasks of a reinstall look like. *)
Definition requested (server : Server) (kind : string) (ra : option N) (row : DaemonTask) : Prop :=
  dt_RunAftID row = ra /\ dt_DedicatedServerID row = sv_DSID server /\
  dt_ServerID row = Some (sv_ID server) /\ dt_Task row = kind /\ dt_Status row = DaemonTaskStatusWaiting.

Lemma requested_not_in server kind ra row sid K :
  requested server kind ra row -> kind ∉ K -> ~ pending_for sid K row.
Proof. intros (_ & _ & _ & Hk & _) Hn (_ & _ & Hin). by rewrite Hk in Hin. Qed.

(** The outcome of a reinstall: three chained waiting tasks. *)
Definition reinstalled (server : Server) (c : C) (r : result N) (c' : C) : Prop :=
  exists stop del inst r1 r2 r3, r = Ok inst /\
    crows c' = <[inst := r3]> (<[del := r2]> (<[stop := r1]> (crows c))) /\
    NoDup [stop; del; inst] /\
    crows c !! stop = None /\ crows c !! del = None /\ crows c !! inst = None /\
    requested server DaemonTaskTypeServerStop None r1 /\
    requested server DaemonTaskTypeServerDelete (Some stop) r2 /\
    requested server DaemonTaskTypeServerInstall (Some del) r3.

(** Tasks requested meanwhile for other kinds do not get in the way. *)
Lemma not_pending_later server K (before now' : gmap N DaemonTask) :
  (forall i t, before !! i = Some t -> ~ pending_for (sv_ID server) allKinds t) ->
  (forall k, k ∈ K -> k ∈ allKinds) ->
  (forall i t, now' !! i = Some t -> before !! i = Some t \/
     exists kind ra, (kind ∉ K) /\ requested server kind ra t) ->
  forall i t, now' !! i = Some t -> ~ pending_for (sv_ID server) K t.
Proof.
  intros Hno HK Hrows i t Ht Hp. destruct (Hrows i t Ht) as [Ht0|(kind & ra & Hk & Hreq)].
  - apply (Hno i t Ht0). destruct Hp as (? & ? & ?). split_and!; auto.
  - by eapply requested_not_in.
Qed.

Lemma after_new (c : C) id row : cinv c -> crows c !! id = Some row -> after id = Some id.
Proof.
  intros [Hi _] Hr. destruct (dt_rows_id (c_tasks c) id row Hi Hr) as [_ Hne].
  unfold after. by rewrite (proj2 (N.ltb_lt 0 id)) by lia.
Qed.

Lemma wp_reinstall_total server (c : C) :
  DaemonTaskRepositoryTotal R -> taskDispatcher = None -> cinv c -> croom 3 c ->
  (forall i t, crows c !! i = Some t -> ~ pending_for (sv_ID server) allKinds t) ->
  wp (reinstall_tasks clock taskDispatcher server) (reinstalled server c) c.
Proof.
  intros Htot Hnone Hi Hr Hno. unfold reinstall_tasks. repeat wp_step. eapply wp_mono.
  { apply wp_add_total; [done|done|done|done|by do 2 apply dt_room_weaken|].
    apply (not_pending_later server _ (crows c)); [done| |auto].
    intros k. rewrite list_elem_of_singleton. intros ->. in_group. }
  intros [stop|e|w] c1 [Hok (Hi1 & _ & _ & Hrm1 & Ha1)]; [|done|done]. simpl. repeat wp_step.
  destruct Ha1 as (Hn1 & r1 & Hc1 & Hq1). change (requested server DaemonTaskTypeServerStop None r1) in Hq1. clear Hok.
  assert (Hstop : after stop = Some stop) by (eapply after_new; [exact Hi1|]; by rewrite Hc1, lookup_insert_eq).
  eapply wp_mono.
  { apply wp_add_total; [done|done|done|done|apply dt_room_weaken, Hrm1, Hr|].
    apply (not_pending_later server _ (crows c)); [done| |].
    - intros k. rewrite list_elem_of_singleton. intros ->. in_group.
    - intros i t. rewrite Hc1, lookup_insert. case_decide; [|auto]. intros [= <-]. right.
      eexists _, _. split; [|exact Hq1]. in_group. }
  intros [del|e|w] c2 [Hok (Hi2 & _ & _ & Hrm2 & Ha2)]; [|done|done]. simpl. repeat wp_step.
  destruct Ha2 as (Hn2 & r2 & Hc2 & Hq2). rewrite Hstop in Hq2.
  change (requested server DaemonTaskTypeServerDelete (Some stop) r2) in Hq2. clear Hok.
  assert (Hdel : after del = Some del) by (eapply after_new; [exact Hi2|]; by rewrite Hc2, lookup_insert_eq).
  eapply wp_mono.
  { apply wp_add_total; [done|done|done|done|apply Hrm2, Hrm1, Hr|].
    apply (not_pending_later server _ (crows c)); [done| |].
    - intros k Hk. repeat (apply list.elem_of_cons in Hk as [->|Hk]; [in_group|]). by apply list.elem_of_nil in Hk.
    - intros i t. rewrite Hc2, Hc1, !lookup_insert. repeat case_decide; intros Ht; simplify_eq; [right|right|by left];
        (eexists _, _; split; [|eassumption]; in_group). }
  intros [inst|e|w] c3 [Hok (Hi3 & _ & _ & _ & Ha3)]; [|done|done]. simpl.
  destruct Ha3 as (Hn3 & r3 & Hc3 & Hq3). rewrite Hdel in Hq3.
  rewrite Hc1 in Hn2, Hc2. rewrite Hc2 in Hn3, Hc3.
  apply lookup_insert_None in Hn2 as [Hn2 Hne21]. apply lookup_insert_None in Hn3 as [Hn3 Hne32].
  apply lookup_insert_None in Hn3 as [Hn3 Hne31].
  exists stop, del, inst, r1, r2, r3. split_and!; try done.
  repeat constructor; rewrite ?list.elem_of_cons, ?list.elem_of_nil; naive_solver.
Qed.

(** On a store that does not fail, without dispatcher or plugins, a
    reinstall of a server with nothing pending creates exactly three waiting
    tasks, to stop, delete and install it, each set to run after the one
    before, and returns the id of the install task. *)
Lemma reinstall_chains_three_tasks server (c : C) :
  DaemonTaskRepositoryTotal R -> taskDispatcher = None -> pluginDispatcher = None ->
  cinv c -> croom 3 c ->
  (forall i t, crows c !! i = Some t -> ~ pending_for (sv_ID server) allKinds t) ->
  reinstalled server c (fst (run_op (OpReinstall server) c)) (snd (run_op (OpReinstall server) c)).
Proof.
  intros Htot Hnone Hplug Hi Hr Hno.
  pose proof (wp_reinstall_total server c Htot Hnone Hi Hr Hno) as Hwp.
  change (wp (run_op (OpReinstall server)) (reinstalled server c) c).
  simpl. unfold Reinstall. wp_step. eapply wp_mono; [apply wp_pre|]. intros r0 c0 (_ & Hp & _).
  destruct (Hp Hplug) as [-> ->]. unfold workingTasksExist. repeat wp_step.
  set (f := mkFindDaemonTask [] [] [Some (sv_ID server)] allKinds startStatuses).
  destruct (dt_exists_total (c_tasks c) (Some f) (proj1 Hi)) as [b Ex]. rewrite Ex. simpl.
  pose proof (dt_exists_law _ f _ (proj1 Hi) eq_refl Ex) as Hlaw. destruct b.
  { destruct Hlaw as [(i & t & Ht & Hm) _]; [done|]. apply task_matches_pending in Hm; [|done]. by destruct (Hno i t). }
  wp_step. unfold wp at 1. destruct (reinstall_tasks clock taskDispatcher server c) as [r' c'] eqn:E.
  pose proof (wp_run _ _ _ _ _ Hwp E) as (stop & del & inst & r1 & r2 & r3 & -> & Hrest).
  destruct (Htm N (reinstall_tasks clock taskDispatcher server) c) as [->|[Hf _]]; rewrite E in *; [|done].
  simpl. wp_step. eapply wp_mono; [apply wp_post|]. intros r4 c4 ((Ht4 & _) & ->). wp_step.
  exists stop, del, inst, r1, r2, r3. unfold crows in *. rewrite Ht4. auto.
Qed.
End specs.

(** ** Examples on the in-memory stores *)

Definition sample_clock (n : N) : time := Z.of_N n.
Definition sample_server : Server :=
  mkServer 3 "u" "u" "u" true 1 false "srv" "cs" 7 1 None "" 0 None None None "" None None None None
    (Some "./start"%string) None None None false None None None None None None.
Definition sample_control : Control memTaskRepo memSettingRepo unit :=
  mkControl NewDaemonTaskRepository sample_settings [] 0 tt.
Definition no_transaction (A : Type) (m : M (Control memTaskRepo memSettingRepo unit) A) := m.

Definition any_ext (_ : unit) : Prop := True.

Lemma sample_cinv : cinv any_ext sample_control.
Proof.
  split; [exact repo_inv_new|]. split; [|exact I]. apply settings_reachable_inv.
  eapply rtc_l; [apply (sset_save sample_setting)|apply rtc_refl]. reflexivity.
Defined.

Lemma sample_dispatcher :
  dispatcher_ok (None : option (DaemonTask -> M (Control memTaskRepo memSettingRepo unit) DaemonTask)) any_ext.
Proof. intros d [=]. Defined.

Lemma sample_transactional : transactional no_transaction.
Proof. intros A m c. left. reflexivity. Defined.

Lemma one_pending_task_per_kind_witness :
  let c := snd (run_op sample_clock None None no_transaction (OpStart sample_server) sample_control) in
  map dt_Task (map snd (map_to_list (crows c))) = [DaemonTaskTypeServerStart] /\
  (forall i j t u, crows c !! i = Some t -> crows c !! j = Some u ->
     pending_for 3 [DaemonTaskTypeServerStart] t -> pending_for 3 [DaemonTaskTypeServerStart] u -> i = j) /\
  is_ok (fst (run_op sample_clock None None no_transaction (OpStart sample_server) c)) = false.
Proof.
  intros c. split; [vm_compute; reflexivity|]. split; [|vm_compute; reflexivity].
  apply (one_pending_task_per_kind sample_clock None None no_transaction any_ext sample_dispatcher sample_transactional
    3 sample_control c).
  - split; [exact sample_cinv|]. intros K _ i j t u Ht. unfold crows in Ht. simpl in Ht.
    rewrite lookup_empty in Ht. discriminate.
  - eapply rtc_l; [|apply rtc_refl]. apply step_request; vm_compute; reflexivity.
  - apply (bool_decide_unpack _). vm_compute. exact I.
Defined.

(** Two requests that both look before either creates its task: the check of
    each answers that nothing is pending, and each creates a start task. *)
Lemma overlapping_requests_double :
  let check := workingTasksExist sample_server [DaemonTaskTypeServerStart] in
  let create := create_task sample_clock None sample_server DaemonTaskTypeServerStart None in
  let '(r1, c1) := check sample_control in
  let '(r2, c2) := check c1 in
  let '(i1, c3) := create c2 in
  let '(i2, c4) := create c3 in
  r1 = Ok false /\ r2 = Ok false /\ i1 = Ok 1%N /\ i2 = Ok 2%N /\
  map (fun t => (dt_Task t, dt_ServerID t, dt_Status t)) (map snd (map_to_list (crows c4))) =
    [(DaemonTaskTypeServerStart, Some 3%N, DaemonTaskStatusWaiting);
     (DaemonTaskTypeServerStart, Some 3%N, DaemonTaskStatusWaiting)].
Proof. vm_compute. repeat split. Qed.

Lemma memSettings_total : settings_total (Q := memSettingRepo).
Proof.
  split; [intros q f; reflexivity|]. intros s q. simpl. unfold SettingsRepo.Save. repeat case_match; reflexivity.
Defined.

