(* ===== verification/Dispatcher.v ===== *)
(** The task dispatcher
    ([internal/services/taskdispatcher/dispatcher.go]): it stores a task, sends
    the configuration of its server and the task to the daemon, flushes the
    waiting tasks when a daemon connects, and takes status updates, output and
    cancellations.  The game, game mod and node tables are read-only here and
    kept as lookup functions. *)

From S2P Require Import Prelude.
From S2P Require Import GoNum.
From S2P Require Import Domain.
From S2P Require Import Repositories.
From S2P Require Import TaskRepo.
From S2P Require Import Converters.
From S2P Require Import PubSub.
From S2P Require Import World.
From S2P Require Import TaskHandler.
From S2P Require Import Session.
From S2P Require Import Registry.
From S2P Require Import Cluster.
From S2P Require Import SettingsRepo.
From S2P Require Import ServerControl.
From stdpp Require Import base tactics strings list gmap numbers sorting.
From Stdlib Require Import NArith ZArith.

(** The lookups of the game mod, node and game tables; the game table is
    optional. *)
Record Catalogue : Type := mkCatalogue {
  cat_GameMods : N -> result (list GameMod);
  cat_Nodes : N -> result (list Node);
  cat_Games : option (string -> result (list Game));
}.

(** The state the dispatcher works on. *)
Record Panel (R V Q P D : Type) : Type := mkPanel {
  pn_world : World R V P;
  pn_settings : Q;
  pn_registry : Registry D;
}.
Arguments mkPanel {R V Q P D}.
Arguments pn_world {R V Q P D}.
Arguments pn_settings {R V Q P D}.
Arguments pn_registry {R V Q P D}.

(** A failed query is logged and counts as an empty answer. *)
Definition or_nothing {A} (r : result (list A)) : result (list A) :=
  match r with Err _ => Ok [] | r => r end.

Section dispatcher.
Context {R V Q P D : Type} (stamp : N -> Stamp).
Context `{DaemonTaskRepository R} `{ServerRepository V} `{ServerSettingRepository Q} `{Publisher P}.
Context (stream_err : Session D -> GatewayMessage -> option error).
Context (MarshalVT : GatewayMessage -> result string).
Context (json_vars : gmap string string -> option string).
Context (cat : Catalogue) (hasPublisher : bool).

Abbreviation Pn := (Panel R V Q P D).

Definition on_world {A} (m : M (World R V P) A) : M Pn A :=
  zoom pn_world (fun w p => mkPanel w (pn_settings p) (pn_registry p)) m.
Definition set_registry (r : Registry D) (p : Pn) : Pn := mkPanel (pn_world p) (pn_settings p) r.

#[export] Instance panel_bus : Publisher Pn := fun ch m => on_world (on_bus (publish ch m)).

(** [registry.SendTask] with a fresh stamp. *)
Definition send_task (nodeID : N) (msg : GatewayMessage) : M Pn unit :=
  let! st := on_world (next_stamp stamp) in
  SendTask stream_err MarshalVT pn_registry set_registry st nodeID msg.

(** A message with a fresh request id. *)
Definition new_message (payload : GatewayPayload) : M Pn GatewayMessage :=
  let! st := on_world (next_stamp stamp) in
  ret (mkGatewayMessage (st_id st) payload).

(** The configuration [sendServerConfigUpdate] loads. *)
Definition server_config_update (task : DaemonTask) (p : Pn) : result (option ServerConfigUpdate) :=
  match dt_ServerID task with
  | None => Ok None
  | Some sid =>
      let? servers := or_nothing (SV_FindByIDs (w_servers (pn_world p)) [sid]) in
      match servers with
      | [] => Ok None
      | server :: _ =>
          let? gameMods := or_nothing (cat_GameMods cat (sv_GameModID server)) in
          let? nodes := or_nothing (cat_Nodes cat (sv_DSID server)) in
          let? settings := or_nothing (SS_Find (pn_settings p) (Some (mkFindServerSetting [] [sid] [])) [] None) in
          let? games := match cat_Games cat with
                        | None => Ok []
                        | Some find => or_nothing (find (sv_GameID server))
                        end in
          let nodeOS := match nodes with n :: _ => nd_OS n | [] => ""%string end in
          Ok (Some (mkConfigUpdate
            (DomainServerToProtoWithGameMod json_vars server (head gameMods) nodeOS)
            (DomainServerSettingsToProto settings)
            (DomainGameToProto <$> head games) (DomainGameModToProto <$> head gameMods)))
      end
  end.

Definition sendServerConfigUpdate (task : DaemonTask) : M Pn unit :=
  let! p := get in
  let! update := lift (server_config_update task p) in
  match update with
  | None => ret tt
  | Some u =>
      let! configMsg := new_message (GM_ServerConfigUpdate u) in
      let! _ := attempt (send_task (dt_DedicatedServerID task) configMsg) in
      ret tt
  end.

(** [Dispatch] up to the sending of the task, and what follows: between the two
    the daemon may already answer. *)
Definition dispatch_send (task : DaemonTask) : M Pn (DaemonTask * bool) :=
  let! task := wrap "persist task" (on_world (save_task stamp task)) in
  do! sendServerConfigUpdate task ;;
  let! msg := new_message (GM_Task (DomainDaemonTaskToProto task)) in
  let! err := attempt (send_task (dt_DedicatedServerID task) msg) in
  ret (task, is_ok err).

Definition dispatch_record (sent : DaemonTask * bool) : M Pn DaemonTask :=
  if snd sent then
    let! saved := attempt (on_world (save_task stamp (fst sent))) in
    ret (match saved with Ok task => task | _ => fst sent end)
  else ret (fst sent).

Definition Dispatch (task : DaemonTask) : M Pn DaemonTask :=
  let! sent := dispatch_send task in dispatch_record sent.

Definition flush_one (sess : N) (task : DaemonTask) : M Pn unit :=
  do! sendServerConfigUpdate task ;;
  let! msg := new_message (GM_Task (DomainDaemonTaskToProto task)) in
  do! wrap "send pending task" (on_reg pn_registry set_registry (on_session sess (Send stream_err msg))) ;;
  let! _ := attempt (on_world (save_task stamp (dt_set_status DaemonTaskStatusWorking task))) in
  ret tt.

Definition FlushPending (nodeID : N) : M Pn unit :=
  let! p := get in
  match GetSession nodeID (pn_registry p) with
  | None => fail (ENew "session not found")
  | Some sess =>
      let! tasks := wrap "find pending tasks" (on_world (find_tasks (node_filter nodeID DaemonTaskStatusWaiting))) in
      for_each tasks (flush_one sess)
  end.

Definition GetPendingTasks (nodeID : N) : M Pn (list ProtoDaemonTask) :=
  let! tasks := wrap "find pending tasks" (on_world (find_tasks (node_filter nodeID DaemonTaskStatusWaiting))) in
  ret (map DomainDaemonTaskToProto tasks).

Definition HandleTaskStatusUpdate (nodeID : N) (update : TaskStatusUpdate) : M Pn unit :=
  let! tasks := wrap "find task" (on_world (find_tasks (ids_filter [tu_TaskId update]))) in
  match tasks with
  | [] => ret tt
  | task :: _ =>
      if negb (nodeID =? dt_DedicatedServerID task)%N then ret tt
      else
        let! task := wrap "update task status"
          (on_world (save_task stamp (dt_set_status (ProtoTaskStatusToDomain (tu_Status update)) task))) in
        on_world (publishTaskStatus stamp hasPublisher (tu_TaskId update) (dt_Status task)
          (dt_DedicatedServerID task) (tu_Message update))
  end.

Definition HandleTaskOutput (nodeID : N) (output : TaskOutput) : M Pn unit :=
  if String.eqb (to_OutputChunk output) "" then ret tt
  else
    do! wrap "append task output" (on_world (World.on_tasks (DT_AppendOutput (to_TaskId output) (to_OutputChunk output)))) ;;
    on_world (publishTaskOutput stamp hasPublisher (to_TaskId output) (to_OutputChunk output) (to_IsFinal output)).

Definition CancelTask (taskID : N) (reason : string) : M Pn unit :=
  let! tasks := wrap "find task" (on_world (find_tasks (ids_filter [taskID]))) in
  match tasks with
  | [] => fail (ENew "task not found")
  | task :: _ =>
      let! msg := new_message (GM_TaskCancel taskID reason) in
      let! _ := attempt (send_task (dt_DedicatedServerID task) msg) in
      let! _ := wrap "update task status"
        (on_world (save_task stamp (dt_set_status DaemonTaskStatusCanceled task))) in
      ret tt
  end.
End dispatcher.

(** ** Effects *)

Section specs.
Context {R V Q P D : Type} (stamp : N -> Stamp).
Context `{DaemonTaskRepositoryLaws R} `{ServerRepositoryLaws V} `{ServerSettingRepositoryLaws Q} `{PublisherLaws P}.
Context (stream_err : Session D -> GatewayMessage -> option error).
Context (MarshalVT : GatewayMessage -> result string).
Context (json_vars : gmap string string -> option string).
Context (cat : Catalogue) (hasPublisher : bool).

Abbreviation Pn := (Panel R V Q P D).

Definition prows (p : Pn) : gmap N DaemonTask := rows (pn_world p).
Definition pinv (p : Pn) : Prop :=
  inv (pn_world p) /\ st_inv (pn_settings p) /\ ptr_ok (pn_registry p).
Definition proom (n : nat) (p : Pn) : Prop := dt_room n (w_tasks (pn_world p)).

(** A step that leaves both storages and the registry alone. *)
Lemma pinv_same p p' :
  pinv p -> w_tasks (pn_world p') = w_tasks (pn_world p) -> w_servers (pn_world p') = w_servers (pn_world p) ->
  pn_settings p' = pn_settings p -> pn_registry p' = pn_registry p -> pinv p'.
Proof. intros (Hi & Hs & Hr) E1 E2 E3 E4. split_and!; [by apply (inv_same (pn_world p))|by rewrite E3|by rewrite E4]. Qed.

(** The servers and settings are left alone. *)
Definition same_sides (p p' : Pn) : Prop :=
  w_servers (pn_world p') = w_servers (pn_world p) /\ pn_settings p' = pn_settings p.

(** Looking things up and encoding messages may fail but not panic. *)
Definition lookups_ok : Prop :=
  (forall i w, cat_GameMods cat i <> Panic w) /\ (forall i w, cat_Nodes cat i <> Panic w) /\
  (forall find i w, cat_Games cat = Some find -> find i <> Panic w) /\
  (forall m w, MarshalVT m <> Panic w).

(** A published message that carries [m] to the holder of node [n]. *)
Definition carries (n : N) (m : GatewayPayload) (e : entry) : Prop :=
  exists rid data, let msg := mkGatewayMessage rid m in
    MarshalVT msg = Ok data /\
    e = (BuildDaemonTaskDispatchChannel n, TypeDaemonTask,
         to_json (mkTaskDispatchPayload n rid (GetTaskId msg) data)).

(** [ms] went out to node [n], in this order and nothing else: on its stream
    when this instance holds it, on the bus otherwise. *)
Definition delivered (n : N) (ms : list GatewayPayload) (p p' : Pn) : Prop :=
  match rg_localSessions (pn_registry p) !! n with
  | Some a => exists s l, rg_heap (pn_registry p) !! a = Some s /\ map gw_Payload l = ms /\
      pn_registry p' =
        rg_set_heap (<[a := se_set_sent (se_sent s ++ l) s]> (rg_heap (pn_registry p))) (pn_registry p) /\
      w_bus (pn_world p') = w_bus (pn_world p)
  | None => pn_registry p' = pn_registry p /\
      exists es, log (pn_world p') = log (pn_world p) ++ es /\ Forall2 (carries n) ms es
  end.

(** The way to node [n] works: its stream takes every message, or the bus
    does. *)
Definition stream_up (n : N) (p : Pn) : Prop :=
  match rg_localSessions (pn_registry p) !! n with
  | Some a => forall s l m, rg_heap (pn_registry p) !! a = Some s -> stream_err (se_set_sent l s) m = None
  | None => (forall m, is_ok (MarshalVT m) = true) /\ bus_reliable P
  end.

Lemma same_sides_refl p : same_sides p p.
Proof. by split. Qed.
Lemma same_sides_trans p q r : same_sides p q -> same_sides q r -> same_sides p r.
Proof. intros [? ?] [? ?]. split; congruence. Qed.

Lemma se_set_sent_self (s : Session D) : se_set_sent (se_sent s) s = s.
Proof. by destruct s. Qed.

Lemma delivered_nil n p : pinv p -> delivered n [] p p.
Proof.
  intros (_ & _ & Hptr). unfold delivered.
  destruct (rg_localSessions (pn_registry p) !! n) as [a|] eqn:E.
  - destruct (Hptr n a E) as [s Hs]. exists s, []. split_and!; [done..| |done].
    rewrite app_nil_r, se_set_sent_self, insert_id by done. by destruct (pn_registry p).
  - split; [done|]. exists []. by rewrite app_nil_r.
Qed.

(** Steps that touch neither the registry nor the bus. *)
Lemma delivered_quiet n ms p p1 p2 :
  delivered n ms p p1 -> pn_registry p2 = pn_registry p1 -> w_bus (pn_world p2) = w_bus (pn_world p1) ->
  delivered n ms p p2.
Proof.
  unfold delivered, log. intros Hd Hr Hb. rewrite Hr, Hb. done.
Qed.

Lemma delivered_local n ms p p' m :
  delivered n ms p p' -> rg_localSessions (pn_registry p') !! m = rg_localSessions (pn_registry p) !! m.
Proof.
  unfold delivered. destruct (rg_localSessions (pn_registry p) !! n) as [a|].
  - by intros (s & l & _ & _ & -> & _).
  - by intros [-> _].
Qed.

Lemma delivered_trans n ms ms' p q r :
  delivered n ms p q -> delivered n ms' q r -> delivered n (ms ++ ms') p r.
Proof.
  intros Hd Hd'. pose proof (delivered_local _ _ _ _ n Hd) as Hloc.
  unfold delivered in *. rewrite Hloc in Hd'.
  destruct (rg_localSessions (pn_registry p) !! n) as [a|].
  - destruct Hd as (s & l & Hs & Hl & Hq & Hb), Hd' as (s' & l' & Hs' & Hl' & Hr & Hb').
    rewrite Hq in Hs'. simpl in Hs'. rewrite lookup_insert_eq in Hs'. injection Hs' as <-.
    exists s, (l ++ l'). split_and!; [done|by rewrite map_app, Hl, Hl'| |congruence].
    rewrite Hr, Hq. unfold rg_set_heap, se_set_sent. simpl. by rewrite insert_insert_eq, app_assoc.
  - destruct Hd as (Hq & es & He & HF), Hd' as (Hr & es' & He' & HF').
    split; [congruence|]. exists (es ++ es'). rewrite He', He, app_assoc. split; [done|].
    by apply Forall2_app.
Qed.

Lemma ptr_ok_delivered n ms p p' :
  delivered n ms p p' -> ptr_ok (pn_registry p) -> ptr_ok (pn_registry p').
Proof.
  unfold delivered. destruct (rg_localSessions (pn_registry p) !! n) as [a|].
  - intros (s & l & _ & _ & -> & _) Hptr m b Hb. simpl in *. rewrite lookup_insert.
    case_decide; [eauto|by apply (Hptr m)].
  - by intros [-> _].
Qed.

Lemma stream_up_delivered n ms p p' :
  delivered n ms p p' -> stream_up n p -> stream_up n p'.
Proof.
  intros Hd. pose proof (delivered_local _ _ _ _ n Hd) as Hloc. unfold stream_up, delivered in *. rewrite Hloc.
  destruct (rg_localSessions (pn_registry p) !! n) as [a|]; [|done].
  destruct Hd as (s & l & Hs & _ & -> & _). intros Hup s' l' m. simpl. rewrite lookup_insert_eq.
  intros [= <-]. apply (Hup s l' m Hs).
Qed.

(** ** The calls *)

Hypothesis Hok : lookups_ok.

Lemma reliable_ok ch m (b : P) r b' : bus_reliable P -> publish ch m b = (r, b') -> is_ok r = true.
Proof. intros Hrel E. specialize (Hrel ch m b). by rewrite E in Hrel. Qed.

(** One message for node [n] was sent, or nothing was. *)
Definition sent (n : N) (msg : GatewayMessage) (p : Pn) (r : result unit) (p' : Pn) : Prop :=
  pinv p' /\ same_sides p p' /\ w_tasks (pn_world p') = w_tasks (pn_world p) /\
  (stream_up n p -> r = Ok tt) /\
  match r with
  | Ok _ => delivered n [gw_Payload msg] p p'
  | Err _ => delivered n [] p p'
  | Panic _ => False
  end.

Lemma wp_session_send n a msg (p : Pn) :
  pinv p -> rg_localSessions (pn_registry p) !! n = Some a ->
  wp (on_reg pn_registry set_registry (on_session a (Send stream_err msg))) (sent n msg p) p.
Proof.
  intros Hi Ea. destruct Hi as (Hi1 & Hi2 & Hptr). destruct (Hptr n a Ea) as [s Hs].
  unfold on_reg. wp_step. apply wp_intro. unfold on_session, Send. rewrite Hs.
  destruct (stream_err s msg) as [e|] eqn:Ee; simpl; intros r reg [= <- <-].
  - rewrite insert_id by done. split_and!; try done.
    + intros Hup. unfold stream_up in Hup. rewrite Ea in Hup. specialize (Hup s (se_sent s) msg Hs).
      rewrite se_set_sent_self in Hup. congruence.
    + unfold delivered. rewrite Ea. exists s, []. rewrite app_nil_r, se_set_sent_self, insert_id by done. done.
  - assert (Hd : delivered n [gw_Payload msg] p (set_registry (rg_set_heap
      (<[a:=se_set_sent (se_sent s ++ [msg]) s]> (rg_heap (pn_registry p))) (pn_registry p)) p))
      by (unfold delivered; rewrite Ea; by exists s, [msg]).
    split_and!; try done. split_and!; [exact Hi1|exact Hi2|by apply (ptr_ok_delivered _ _ _ _ Hd)].
Qed.

Lemma wp_bus_send n st msg (p : Pn) :
  pinv p -> rg_localSessions (pn_registry p) !! n = None ->
  wp (dispatchViaPubSub MarshalVT st n msg) (sent n msg p) p.
Proof.
  intros Hi Ea. pose proof Hi as ([? ?] & ? & ?). unfold dispatchViaPubSub. do 3 wp_step.
  assert (Hnil : delivered n [] p p) by by apply delivered_nil.
  destruct (MarshalVT msg) as [data|e|w] eqn:Em; simpl.
  - do 2 wp_step. unfold wp at 1. simpl. unfold publish at 1, panel_bus, on_world, on_bus. do 2 wp_step.
    apply wp_intro. simpl. intros r b Eb.
    pose proof (bus_law _ _ _ _ _ Eb) as Hlaw.
    destruct r as [[]|e|w]; simpl; [|split_and!; try done|done].
    + split_and!; try done. unfold delivered. rewrite Ea. split; [done|]. eexists. split; [exact Hlaw|].
      constructor; [|constructor]. exists (gw_RequestId msg), data. by destruct msg.
    + intros Hup. unfold stream_up in Hup. rewrite Ea in Hup. destruct Hup as [_ Hrel].
      by apply (reliable_ok _ _ _ _ _ Hrel) in Eb.
    + unfold delivered. rewrite Ea. split; [done|]. exists []. by rewrite app_nil_r.
  - split_and!; try done. intros Hup. unfold stream_up in Hup. rewrite Ea in Hup. destruct Hup as [Hm _].
    specialize (Hm msg). by rewrite Em in Hm.
  - destruct Hok as (_ & _ & _ & Hm). by destruct (Hm msg w).
Qed.

Lemma wp_send_task n msg (p : Pn) :
  pinv p -> wp (send_task stamp stream_err MarshalVT n msg) (sent n msg p) p.
Proof.
  intros Hi. unfold send_task, on_world. do 2 wp_step. unfold wp at 1. simpl.
  set (p0 := mkPanel (mkWorld _ _ _ _) (pn_settings p) (pn_registry p)).
  assert (Hi0 : pinv p0) by by apply (pinv_same p).
  assert (Hback : forall r p', sent n msg p0 r p' -> sent n msg p r p').
  { intros r p' (? & ? & ? & ? & ?). split_and!; done. }
  unfold SendTask. do 2 wp_step. unfold p0 at 1. simpl.
  destruct (rg_localSessions (pn_registry p) !! n) as [a|] eqn:Ea.
  - wp_step. eapply wp_mono; [by apply (wp_session_send n a)|].
    intros r p' Hs. apply Hback. destruct r; [exact Hs| |by destruct Hs as (_ & _ & _ & _ & [])].
    destruct Hs as (? & ? & ? & Hup & ?). split_and!; try done. by intros ?%Hup.
  - eapply wp_mono; [by apply wp_bus_send|]. exact Hback.
Qed.

Lemma wp_new_message payload (p : Pn) Q0 :
  (forall rid p', pn_registry p' = pn_registry p -> pn_settings p' = pn_settings p ->
     w_bus (pn_world p') = w_bus (pn_world p) -> w_tasks (pn_world p') = w_tasks (pn_world p) ->
     w_servers (pn_world p') = w_servers (pn_world p) ->
     Q0 (Ok (mkGatewayMessage rid payload)) p') ->
  wp (new_message stamp payload) Q0 p.
Proof. intros HQ. unfold new_message, on_world. do 2 wp_step. unfold wp at 1. simpl. wp_step. by apply HQ. Qed.

(** The configuration that goes out before a task. *)
Definition config_msgs (t : DaemonTask) (p : Pn) : list GatewayPayload :=
  match server_config_update json_vars cat t p with
  | Ok (Some u) => [GM_ServerConfigUpdate u]
  | _ => []
  end.

Lemma config_nopanic t p : pinv p -> exists u, server_config_update json_vars cat t p = Ok u.
Proof.
  intros ([_ Hsv] & Hst & _). destruct Hok as (Hgm & Hnd & Hg & _). unfold server_config_update.
  destruct (dt_ServerID t) as [sid|]; [|eauto].
  destruct (SV_FindByIDs (w_servers (pn_world p)) [sid]) as [[|sv l]|e|w] eqn:E1; simpl; [eauto| |eauto|];
    [|by apply sv_find_nopanic in E1].
  destruct (cat_GameMods cat (sv_GameModID sv)) as [gms|e|w] eqn:E2; simpl; [| |by apply Hgm in E2];
    (destruct (cat_Nodes cat (sv_DSID sv)) as [nds|e2|w] eqn:E3; simpl; [| |by apply Hnd in E3]);
    (destruct (SS_Find (pn_settings p) _ [] None) as [ss|e3|w] eqn:E4; simpl;
       [| |by apply st_find_nopanic in E4]);
    (destruct (cat_Games cat) as [find|] eqn:E5; simpl;
       [destruct (find (sv_GameID sv)) as [gs|e4|w] eqn:E6; simpl; [| |by apply (Hg _ _ _ eq_refl) in E6]|]); eauto.
Qed.

Lemma config_same t t' p p' :
  same_sides p p' -> dt_ServerID t' = dt_ServerID t ->
  config_msgs t' p' = config_msgs t p.
Proof. intros [Hs Hq] Ht. unfold config_msgs, server_config_update. by rewrite Ht, Hs, Hq. Qed.

Lemma wp_sendServerConfigUpdate t (p : Pn) :
  pinv p ->
  wp (sendServerConfigUpdate stamp stream_err MarshalVT json_vars cat t) (fun r p' =>
    r = Ok tt /\ pinv p' /\ same_sides p p' /\ w_tasks (pn_world p') = w_tasks (pn_world p) /\
    exists ms, delivered (dt_DedicatedServerID t) ms p p' /\
      (stream_up (dt_DedicatedServerID t) p -> ms = config_msgs t p)) p.
Proof.
  intros Hi. unfold sendServerConfigUpdate. do 4 wp_step.
  destruct (config_nopanic t p Hi) as [u Hu]. unfold config_msgs. rewrite Hu.
  pose proof (delivered_nil (dt_DedicatedServerID t) p Hi) as Hnil.
  destruct u as [u|]; [|wp_step; split_and!; try done; by exists []].
  wp_step. apply wp_new_message. intros rid p1 Hr1 Hq1 Hb1 Ht1 Hs1. do 2 wp_step.
  assert (Hi1 : pinv p1) by (by apply (pinv_same p)).
  eapply wp_mono; [by apply wp_send_task|]. simpl. intros r p2 (Hi2 & Hs2 & Ht2 & Hup & Hd).
  assert (Hd1 : delivered (dt_DedicatedServerID t) [] p p1) by by apply (delivered_quiet _ _ p p).
  assert (Hside : same_sides p p2) by (eapply same_sides_trans; [|done]; by split).
  assert (Hup' : stream_up (dt_DedicatedServerID t) p -> r = Ok tt)
    by (intros ?; apply Hup; by eapply stream_up_delivered).
  destruct r as [[]|e|w]; [wp_step|wp_step|done]; split_and!; try done; try congruence.
  - exists [GM_ServerConfigUpdate u]. split; [|done].
    by apply (delivered_trans _ [] [GM_ServerConfigUpdate u] p p1 p2).
  - exists []. split; [by apply (delivered_trans _ [] [] p p1 p2)|]. by intros ?%Hup'.
Qed.

(** ** Dispatching *)

(** Saving the row of a task: only the task table and the clock change. *)
Lemma wp_save t (p : Pn) (Q0 : result DaemonTask -> Pn -> Prop) :
  pinv p -> (if decide (dt_ID t = 0%N) then proom 1 p else is_Some (prows p !! dt_ID t)) ->
  (forall now r p', pinv p' -> same_sides p p' -> pn_registry p' = pn_registry p ->
     w_bus (pn_world p') = w_bus (pn_world p) ->
     (forall n, proom (if decide (dt_ID t = 0%N) then S n else n) p -> proom n p') ->
     (DaemonTaskRepositoryTotal R -> is_ok r = true) ->
     match r with
     | Ok t' => t' = touched now (dt_ID t') t /\
         prows p' = <[dt_ID t' := stored_row (prows p !! dt_ID t') t']> (prows p) /\
         (if decide (dt_ID t = 0%N) then prows p !! dt_ID t' = None else dt_ID t' = dt_ID t)
     | Err _ => prows p' = prows p
     | Panic _ => False
     end -> Q0 r p') ->
  wp (on_world (save_task stamp t)) Q0 p.
Proof.
  intros (Hi & Hq & Hptr) Hroom HQ. unfold on_world, save_task. do 2 wp_step. unfold wp at 1. simpl.
  unfold World.on_tasks. wp_step. apply wp_intro. simpl. intros r r' E.
  destruct (dt_save_law _ _ _ _ _ Hi Hroom E) as (Hi' & Hrm & Hlaw). destruct Hi as [Hi Hv].
  apply (HQ (st_now (stamp (w_clock (pn_world p))))); try done.
  intros Htot. pose proof (dt_save_total (st_now (stamp (w_clock (pn_world p)))) t _ Hi Hroom) as Hs.
  by rewrite E in Hs.
Qed.

(** Nothing changes but the task table. *)
Lemma quiet_delivered n p p' :
  pinv p -> pn_registry p' = pn_registry p -> w_bus (pn_world p') = w_bus (pn_world p) -> delivered n [] p p'.
Proof. intros. by apply (delivered_quiet n [] p p); [apply delivered_nil| |]. Qed.

Definition task_msg (t : DaemonTask) : GatewayPayload := GM_Task (DomainDaemonTaskToProto t).

(** What goes out for one task: its server's configuration, then the task. *)
Lemma wp_config_then {A} t (body : GatewayMessage -> M Pn A) (p : Pn) Q0 :
  pinv p ->
  (forall msg ms p1, gw_Payload msg = task_msg t -> pinv p1 -> same_sides p p1 ->
     w_tasks (pn_world p1) = w_tasks (pn_world p) -> delivered (dt_DedicatedServerID t) ms p p1 ->
     (stream_up (dt_DedicatedServerID t) p -> ms = config_msgs t p) -> wp (body msg) Q0 p1) ->
  wp (do! sendServerConfigUpdate stamp stream_err MarshalVT json_vars cat t ;;
      let! msg := new_message stamp (task_msg t) in body msg) Q0 p.
Proof.
  intros Hi HQ. wp_step. eapply wp_mono; [by apply wp_sendServerConfigUpdate|].
  intros r p1 (-> & Hi1 & Hs1 & Ht1 & ms & Hd1 & Hm1). wp_step.
  apply wp_new_message. intros rid p2 Hr2 Hq2 Hb2 Ht2 Hs2. cbv beta iota.
  apply (HQ _ ms); [done| | |congruence|by apply (delivered_quiet _ _ p p1)|done].
  - by apply (pinv_same p1).
  - apply (same_sides_trans p p1); [done|by split].
Qed.

(** A dispatch up to the sending: the task is stored, then its configuration
    and the task go out to its node. *)
Definition dispatched (t : DaemonTask) (p : Pn) (r : result (DaemonTask * bool)) (p' : Pn) : Prop :=
  pinv p' /\ same_sides p p' /\ (forall n, proom (S n) p -> proom n p') /\
  (DaemonTaskRepositoryTotal R -> is_ok r = true) /\
  match r with
  | Ok (t', ok) => exists now, t' = touched now (dt_ID t') t /\ prows p !! dt_ID t' = None /\
      prows p' = <[dt_ID t' := t']> (prows p) /\
      exists ms, delivered (dt_DedicatedServerID t) ms p p' /\
        (ok = true -> task_msg t' ∈ ms) /\
        (stream_up (dt_DedicatedServerID t) p -> ok = true /\ ms = config_msgs t p ++ [task_msg t'])
  | Err _ => prows p' = prows p /\ delivered (dt_DedicatedServerID t) [] p p'
  | Panic _ => False
  end.

Lemma wp_dispatch_send t (p : Pn) :
  pinv p -> dt_ID t = 0%N -> proom 1 p ->
  wp (dispatch_send stamp stream_err MarshalVT json_vars cat t) (dispatched t p) p.
Proof.
  intros Hi Hid Hroom. unfold dispatch_send. do 2 wp_step. apply wp_save; [done|by rewrite decide_True|].
  intros now r p1 Hi1 Hs1 Hr1 Hb1 Hrm Htot Hlaw.
  assert (Hrm' : forall n, proom (S n) p -> proom n p1)
    by (intros n; specialize (Hrm n); by rewrite decide_True in Hrm).
  clear Hrm. rename Hrm' into Hrm.
  destruct r as [t'|e|w]; simpl; [|by split_and!; try apply quiet_delivered|done].
  destruct Hlaw as (Ht' & Hrows & Hnew). rewrite decide_True in Hnew by done.
  rewrite Hnew in Hrows.
  assert (Hst : stored_row None t' = t') by (unfold stored_row; destruct t' as [? ? ? ? ? ? ? ? ? [o|] ?]; done).
  rewrite Hst in Hrows. clear Hst.
  assert (Hds : dt_DedicatedServerID t' = dt_DedicatedServerID t /\ dt_ServerID t' = dt_ServerID t)
    by (rewrite Ht'; by split).
  destruct Hds as [Hds Hsv].
  apply (wp_config_then t'); [done|]. intros msg ms p2 Hmsg Hi2 Hs2 Ht2 Hd2 Hm2.
  rewrite Hds in *. do 2 wp_step. eapply wp_mono; [by apply wp_send_task|].
  intros res p3 (Hi3 & Hs3 & Ht3 & Hup3 & Hd3).
  assert (Hd02 : delivered (dt_DedicatedServerID t) ms p p2)
    by (apply (delivered_trans _ [] ms p p1 p2); [by apply quiet_delivered|done]).
  assert (Hsame : same_sides p p3) by eauto using same_sides_trans.
  assert (Hrm3 : forall n, proom (S n) p -> proom n p3)
    by (intros n Hn; apply Hrm in Hn; unfold proom in *; by rewrite Ht3, Ht2).
  assert (Hrows3 : prows p3 = <[dt_ID t' := t']> (prows p))
    by (unfold prows, rows in *; by rewrite Ht3, Ht2).
  assert (Hup : stream_up (dt_DedicatedServerID t) p -> res = Ok tt /\ ms = config_msgs t p).
  { intros Hup. assert (Hup1 : stream_up (dt_DedicatedServerID t) p1)
      by (eapply stream_up_delivered; [|exact Hup]; by apply quiet_delivered).
    split; [apply Hup3; by eapply stream_up_delivered|]. rewrite (Hm2 Hup1). by apply config_same. }
  rewrite Hmsg in Hd3.
  destruct res as [[]|e|w]; [wp_step|wp_step|done]; split_and!; try done; exists now; split_and!; try done.
  - exists (ms ++ [task_msg t']). split_and!; [by eapply delivered_trans|set_solver|].
    intros [_ ->]%Hup. done.
  - exists (ms ++ []). split_and!; [by eapply delivered_trans|done|]. by intros [? _]%Hup.
Qed.

(** The second save of a dispatch writes the task as it was sent. *)
Definition recorded (t : DaemonTask) (p : Pn) (r : result DaemonTask) (p' : Pn) : Prop :=
  pinv p' /\ same_sides p p' /\ (forall n, proom n p -> proom n p') /\
  pn_registry p' = pn_registry p /\ w_bus (pn_world p') = w_bus (pn_world p) /\
  exists t2, r = Ok t2 /\ dt_ID t2 = dt_ID t /\ same_request t t2.

Lemma wp_dispatch_record t ok (p : Pn) :
  pinv p -> dt_ID t <> 0%N -> is_Some (prows p !! dt_ID t) ->
  wp (dispatch_record stamp (t, ok)) (fun r p' => recorded t p r p' /\
    (prows p' = prows p \/ ok = true /\ exists now,
       prows p' = <[dt_ID t := stored_row (prows p !! dt_ID t) (touched now (dt_ID t) t)]> (prows p)) /\
    (DaemonTaskRepositoryTotal R -> ok = true -> exists now,
       prows p' = <[dt_ID t := stored_row (prows p !! dt_ID t) (touched now (dt_ID t) t)]> (prows p))) p.
Proof.
  intros Hi Hid Hrow. unfold dispatch_record. cbn [fst snd].
  destruct ok; [|wp_step; split_and!; try done; [|by left]; split_and!; try done; by exists t].
  do 2 wp_step. apply wp_save; [done|by rewrite decide_False|].
  intros now r p' Hi' Hs' Hr' Hb' Hrm Htot Hlaw.
  assert (Hrm' : forall n, proom n p -> proom n p')
    by (intros n; specialize (Hrm n); by rewrite decide_False in Hrm).
  destruct r as [t2|e|w]; [| |done]; wp_step.
  - destruct Hlaw as (Ht2 & Hrows & Hid2). rewrite decide_False in Hid2 by done. rewrite Hid2 in *. split_and!.
    + split_and!; try done. exists t2. rewrite Ht2. done.
    + right. split; [done|]. exists now. by rewrite Hrows, Ht2.
    + intros _ _. exists now. by rewrite Hrows, Ht2.
  - split_and!; [|by left|by intros ?%Htot]. split_and!; try done. by exists t.
Qed.

(** Saving a task over its own row changes its times only. *)
Lemma resaved now t :
  dt_ID t <> 0%N -> exists now', stored_row (Some t) (touched now (dt_ID t) t) = dt_set_times (dt_CreatedAt t) now' t.
Proof.
  intros Hid. unfold stored_row, touched. apply N.eqb_neq in Hid. rewrite Hid.
  exists (Some now). destruct t as [? ? ? ? ? ? ? ? ? [o|] ?]; done.
Qed.

(** The outcome of a dispatch. *)
Definition dispatch_outcome (t : DaemonTask) (p : Pn) (r : result DaemonTask) (p' : Pn) : Prop :=
  pinv p' /\ same_sides p p' /\ (forall n, proom (S n) p -> proom n p') /\
  (DaemonTaskRepositoryTotal R -> is_ok r = true) /\
  match r with
  | Ok t' => prows p !! dt_ID t' = None /\
      (exists row, prows p' = <[dt_ID t' := row]> (prows p) /\ same_request t row) /\
      exists ms, delivered (dt_DedicatedServerID t) ms p p' /\
        (stream_up (dt_DedicatedServerID t) p -> exists sent,
           ms = config_msgs t p ++ [task_msg sent] /\ dt_ID sent = dt_ID t' /\ same_request t sent)
  | Err _ => prows p' = prows p /\ delivered (dt_DedicatedServerID t) [] p p'
  | Panic _ => False
  end.

Lemma wp_Dispatch t (p : Pn) :
  pinv p -> dt_ID t = 0%N -> proom 1 p ->
  wp (Dispatch stamp stream_err MarshalVT json_vars cat t) (dispatch_outcome t p) p.
Proof.
  intros Hi Hid Hroom. unfold Dispatch. wp_step.
  eapply wp_mono; [by apply wp_dispatch_send|]. intros r p1 (Hi1 & Hs1 & Hrm1 & Htot1 & Hr1).
  destruct r as [[t1 ok]|e|w]; [|exact (conj Hi1 (conj Hs1 (conj Hrm1 (conj Htot1 Hr1))))|done].
  destruct Hr1 as (now & Ht1 & Hnew & Hrows1 & ms & Hd1 & Hin & Hup).
  destruct (dt_rows_id _ (dt_ID t1) t1 (proj1 Hi1)) as [_ Hnz].
  { change (prows p1 !! dt_ID t1 = Some t1). by rewrite Hrows1, lookup_insert_eq. }
  assert (Hreq : same_request t t1) by (rewrite Ht1; done).
  assert (Hrow1 : prows p1 !! dt_ID t1 = Some t1) by by rewrite Hrows1, lookup_insert_eq.
  eapply wp_mono; [apply wp_dispatch_record; [done|done|eauto]|].
  intros r p2 ((Hi2 & Hs2 & Hrm2 & Hreg2 & Hb2 & t2 & -> & Hid2 & Hreq2) & Hrows2 & _).
  split_and!; [done|by eapply same_sides_trans|auto|done|by rewrite Hid2| |].
  - rewrite Hid2. destruct Hrows2 as [->|(_ & now2 & ->)]; [by exists t1|].
    rewrite Hrow1. destruct (resaved now2 t1 Hnz) as [tm ->]. eexists.
    split; [by rewrite Hrows1, insert_insert_eq|]. done.
  - exists ms. split; [by eapply delivered_quiet|]. intros [_ ->]%Hup.
    by exists t1.
Qed.

(** ** Flushing *)

Definition is_pending (node : N) (row : DaemonTask) : Prop :=
  dt_DedicatedServerID row = node /\ dt_Status row = DaemonTaskStatusWaiting.

(** What goes out for a list of tasks. *)
Definition flush_msgs (p : Pn) (ts : list DaemonTask) : list GatewayPayload :=
  flat_map (fun t => config_msgs t p ++ [task_msg t]) ts.

(** The rows after some of the tasks [ts] went out as part of [ms]. *)
Definition flushed_rows (ts : list DaemonTask) (ms : list GatewayPayload) (p p' : Pn) : Prop :=
  forall i, prows p' !! i = prows p !! i \/
    exists row now, prows p !! i = Some row /\ dt_set_output None row ∈ ts /\
      task_msg (dt_set_output None row) ∈ ms /\
      prows p' !! i = Some (updated_row now DaemonTaskStatusWorking row).

(** The state when the tasks [done] of the flush that started in [p] went out. *)
Definition flushing (node : N) (ts done : list DaemonTask) (p p' : Pn) : Prop :=
  pinv p' /\ same_sides p p' /\
  (DaemonTaskRepositoryTotal R -> forall i row, prows p !! i = Some row -> dt_set_output None row ∈ done ->
     exists now, prows p' !! i = Some (updated_row now DaemonTaskStatusWorking row)) /\
  exists ms, delivered node ms p p' /\ flushed_rows ts ms p p' /\
    (stream_up node p -> ms = flush_msgs p done).

Lemma flushed_rows_mono ts ms ms' p p' :
  (forall m, m ∈ ms -> m ∈ ms') -> flushed_rows ts ms p p' -> flushed_rows ts ms' p p'.
Proof. intros Hm Hf i. destruct (Hf i) as [?|(row & now & ? & ? & ? & ?)]; [by left|right; eauto 10]. Qed.

(** Saving one sent task as working. *)
Lemma wp_mark_working node ts done row (p p1 : Pn) ms :
  pinv p -> pinv p1 -> same_sides p p1 -> delivered node ms p p1 -> flushed_rows ts ms p p1 ->
  dt_ID row <> 0%N -> prows p !! dt_ID row = Some row -> dt_set_output None row ∈ ts ->
  task_msg (dt_set_output None row) ∈ ms ->
  (DaemonTaskRepositoryTotal R -> forall i row, prows p !! i = Some row -> dt_set_output None row ∈ done ->
     exists now, prows p1 !! i = Some (updated_row now DaemonTaskStatusWorking row)) ->
  (stream_up node p -> ms = flush_msgs p (done ++ [dt_set_output None row])) ->
  wp (let! _ := attempt (on_world (save_task stamp (dt_set_status DaemonTaskStatusWorking (dt_set_output None row)))) in ret tt)
    (fun r p2 => r = Ok tt /\ flushing node ts (done ++ [dt_set_output None row]) p p2) p1.
Proof.
  intros Hi0 Hi1 Hs1 Hd1 Hf1 Hid Hrow Hts Hms Htot1 Hup.
  assert (Hcur : exists cur, prows p1 !! dt_ID row = Some cur /\ dt_Output cur = dt_Output row).
  { destruct (Hf1 (dt_ID row)) as [Heq|(row' & now & Hrow' & _ & _ & Heq)].
    - exists row. by rewrite Heq.
    - rewrite Hrow in Hrow'. injection Hrow' as <-. eexists. split; [exact Heq|done]. }
  destruct Hcur as (cur & Hcur & Hout).
  do 2 wp_step. apply wp_save; [done|simpl; rewrite decide_False by done; eauto|].
  intros now r p2 Hi2 Hs2 Hr2 Hb2 _ Hok2 Hlaw. simpl in Hlaw.
  assert (Hside : same_sides p p2) by eauto using same_sides_trans.
  assert (Hd2 : delivered node ms p p2) by by eapply delivered_quiet.
  destruct r as [t2|e|w]; [| |done]; wp_step; (split; [done|]); split_and!; try done.
  - intros Htot i row' Hi Hin. destruct Hlaw as (Ht2 & Hrows & Hid2). rewrite decide_False in Hid2 by done.
    rewrite Hrows, Hid2, Hcur, Ht2, lookup_insert, Hid2.
    destruct (decide (dt_ID row = i)) as [<-|Hne].
    + rewrite Hrow in Hi. injection Hi as <-. exists now. f_equal. by apply saved_row.
    + apply elem_of_app in Hin as [Hin|Hin]; [by apply Htot1|].
      apply list_elem_of_singleton in Hin. exfalso. apply Hne.
      change (dt_ID (dt_set_output None row) = i). rewrite <- Hin. exact (proj1 (dt_rows_id _ i row' (proj1 Hi0) Hi)).
  - exists ms. split_and!; [done| |done]. destruct Hlaw as (Ht2 & Hrows & Hid2). rewrite decide_False in Hid2 by done.
    intros i. rewrite Hrows, Hid2, Hcur, Ht2, lookup_insert, Hid2.
    destruct (decide (dt_ID row = i)) as [<-|Hne]; [|apply Hf1].
    right. exists row, now. split_and!; try done. f_equal. by apply saved_row.
  - intros Htot. by apply Hok2 in Htot.
  - exists ms. split_and!; [done| |done]. intros i. rewrite Hlaw. apply Hf1.
Qed.

(** A flush that stopped at a message the daemon's stream refused. *)
Definition stopped (node : N) (ts : list DaemonTask) (p p' : Pn) : Prop :=
  ~ stream_up node p /\ pinv p' /\ same_sides p p' /\
  exists ms, delivered node ms p p' /\ flushed_rows ts ms p p'.

Lemma wp_flush_one node a ts done row (p p1 : Pn) :
  pinv p -> rg_localSessions (pn_registry p) !! node = Some a -> flushing node ts done p p1 ->
  prows p !! dt_ID row = Some row -> dt_DedicatedServerID row = node -> dt_set_output None row ∈ ts ->
  wp (flush_one stamp stream_err MarshalVT json_vars cat a (dt_set_output None row)) (fun r p2 =>
    match r with
    | Ok _ => flushing node ts (done ++ [dt_set_output None row]) p p2
    | Err _ => stopped node ts p p2
    | Panic _ => False
    end) p1.
Proof.
  intros Hi Ha (Hi1 & Hs1 & Htot1 & ms & Hd1 & Hf1 & Hup1) Hrow Hnode Hts.
  destruct (dt_rows_id _ _ _ (proj1 Hi) Hrow) as [_ Hnz].
  unfold flush_one. apply (wp_config_then (dt_set_output None row)); [done|].
  change (dt_DedicatedServerID (dt_set_output None row)) with (dt_DedicatedServerID row). rewrite Hnode.
  intros msg cs p2 Hmsg Hi2 Hs2 Ht2 Hd2 Hup2. do 2 wp_step.
  assert (Ha2 : rg_localSessions (pn_registry p2) !! node = Some a)
    by (by rewrite (delivered_local _ _ _ _ node Hd2), (delivered_local _ _ _ _ node Hd1)).
  assert (Hd02 : delivered node (ms ++ cs) p p2) by by eapply delivered_trans.
  assert (Hs02 : same_sides p p2) by eauto using same_sides_trans.
  assert (Hr02 : prows p2 = prows p1) by (unfold prows, rows; by rewrite Ht2).
  assert (Hf02 : flushed_rows ts (ms ++ cs) p p2).
  { intros i. rewrite Hr02. apply (flushed_rows_mono ts ms); [|done]. set_solver. }
  eapply wp_mono; [by apply (wp_session_send node a msg)|].
  intros r p3 (Hi3 & Hs3 & Ht3 & Hup3 & Hd3). rewrite Hmsg in Hd3.
  assert (Hr03 : prows p3 = prows p1) by (unfold prows, rows in *; by rewrite Ht3).
  assert (Hupd : stream_up node p -> stream_up node p2) by (intros ?; by eapply stream_up_delivered).
  destruct r as [[]|e|w]; cbn [wrap_err]; [| |done].
  - eapply wp_mono.
    + apply (wp_mark_working node ts done row p p3 ((ms ++ cs) ++ [task_msg (dt_set_output None row)]));
        try done.
      * eauto using same_sides_trans.
      * by eapply delivered_trans.
      * intros i. rewrite Hr03, <- Hr02. apply (flushed_rows_mono ts (ms ++ cs)); [|done]. set_solver.
      * set_solver.
      * by rewrite Hr03.
      * intros Hup. rewrite (Hup1 Hup). unfold flush_msgs. rewrite flat_map_app. simpl.
        rewrite app_nil_r, <- app_assoc. do 2 f_equal. rewrite Hup2 by by eapply stream_up_delivered.
        by apply config_same.
    + by intros r p4 [-> Hf].
  - split_and!.
    + intros Hup. by specialize (Hup3 (Hupd Hup)).
    + done.
    + eauto using same_sides_trans.
    + exists ((ms ++ cs) ++ []). split; [by eapply delivered_trans|]. rewrite app_nil_r.
      intros i. rewrite Hr03, <- Hr02. apply Hf02.
Qed.

(** The tasks a flush finds, by their rows. *)
Lemma pending_found node (w : World R V P) l :
  inv w -> DT_Find (w_tasks w) (Some (node_filter node DaemonTaskStatusWaiting)) [] None = Ok l ->
  StronglySorted (fun a b => dt_ID a < dt_ID b)%N l /\
  forall t, t ∈ l <-> exists row, rows w !! dt_ID row = Some row /\ is_pending node row /\ t = dt_set_output None row.
Proof.
  intros Hi E. destruct (dt_find_law _ _ _ Hi E) as [Hsort Hel]. split; [done|].
  intros t. rewrite Hel. unfold is_pending. split.
  - intros (row & Hrow & Hm & ->). simpl in Hm. rewrite task_matches_node, andb_true_iff, !bool_decide_eq_true in Hm.
    by exists row.
  - intros (row & Hrow & [Hn Hs] & ->). exists row. split_and!; try done. simpl.
    by rewrite task_matches_node, andb_true_iff, !bool_decide_eq_true.
Qed.

(** The outcome of a flush. *)
Definition flush_outcome (node : N) (p : Pn) (r : result unit) (p' : Pn) : Prop :=
  match r with
  | Ok _ => exists ts, flushing node ts ts p p' /\ StronglySorted (fun a b => dt_ID a < dt_ID b)%N ts /\
      forall t, t ∈ ts <-> exists row, prows p !! dt_ID row = Some row /\ is_pending node row /\ t = dt_set_output None row
  | Err _ => (~ stream_up node p \/ ~ DaemonTaskRepositoryTotal R \/ GetSession node (pn_registry p) = None) /\
      pinv p' /\ exists ts ms, delivered node ms p p' /\ flushed_rows ts ms p p' /\
        forall t, t ∈ ts -> exists row, prows p !! dt_ID row = Some row /\ is_pending node row /\ t = dt_set_output None row
  | Panic _ => False
  end.

Lemma wp_FlushPending node (p : Pn) :
  pinv p ->
  wp (FlushPending stamp stream_err MarshalVT json_vars cat node) (flush_outcome node p) p.
Proof.
  intros Hi. unfold FlushPending. do 2 wp_step.
  assert (Hnone : exists ts ms, delivered node ms p p /\ flushed_rows ts ms p p /\
    forall t, t ∈ ts -> exists row, prows p !! dt_ID row = Some row /\ is_pending node row /\ t = dt_set_output None row).
  { exists [], []. split_and!; [by apply delivered_nil|by left|]. set_solver. }
  destruct (GetSession node (pn_registry p)) as [a|] eqn:Ea; [|wp_step; split_and!; auto].
  do 2 wp_step. unfold on_world. wp_step. unfold find_tasks. do 3 wp_step.
  assert (Hp : mkPanel (pn_world p) (pn_settings p) (pn_registry p) = p) by by destruct p.
  destruct (DT_Find (w_tasks (pn_world p)) (Some (node_filter node DaemonTaskStatusWaiting)) [] None) as [ts|e|w] eqn:Ef;
    cbn [wrap_err]; rewrite Hp; [| |by apply dt_find_nopanic in Ef; [|exact (proj1 Hi)]].
  - destruct (pending_found _ _ _ (proj1 Hi) Ef) as [Hsort Hel].
    apply (wp_for_each (fun done p1 => flushing node ts done p p1)) with (done := []).
    + split_and!; [done|apply same_sides_refl|set_solver|].
      exists []. split_and!; [by apply delivered_nil|by left|done].
    + simpl. intros pre t p1 Hf Ht. destruct (proj1 (Hel t) Ht) as (row & Hrow & [Hn _] & ->).
      eapply wp_mono; [by apply (wp_flush_one node a ts pre row p)|].
      intros [[]|e|w] p2; [done| |done]. intros (Hup & Hi2 & Hs2 & ms & Hd & Hf2).
      split; [by left|]. split; [done|]. exists ts, ms. split_and!; [done|done|]. intros t. apply Hel.
    + simpl. intros p1 Hf. exists ts. done.
  - split; [|done]. right. left. intros Htot.
    destruct (dt_find_total _ (Some (node_filter node DaemonTaskStatusWaiting)) (proj1 Hi)) as [l Hl]. congruence.
Qed.

(** ** Updates, cancellation *)

(** A lookup by id through the repository. *)
Lemma wp_find_id {A} id (k : list DaemonTask -> M Pn A) (p : Pn) Q0 :
  pinv p ->
  (forall e, ~ DaemonTaskRepositoryTotal R -> Q0 (Err e) p) ->
  wp (k (match prows p !! id with Some row => [dt_set_output None row] | None => [] end)) Q0 p ->
  wp (let! ts := wrap "find task" (on_world (find_tasks (ids_filter [id]))) in k ts) Q0 p.
Proof.
  intros Hi He Hk. do 2 wp_step. unfold on_world, find_tasks. repeat wp_step.
  assert (Hp : mkPanel (pn_world p) (pn_settings p) (pn_registry p) = p) by by destruct p.
  destruct (DT_Find (w_tasks (pn_world p)) (Some (ids_filter [id])) [] None) as [l|e|w] eqn:Ef;
    cbn [wrap_err]; rewrite Hp.
  - rewrite (find_by_id _ _ _ (proj1 Hi) Ef). exact Hk.
  - apply He. intros Htot. destruct (dt_find_total _ (Some (ids_filter [id])) (proj1 Hi)) as [l Hl]. congruence.
  - by apply dt_find_nopanic in Ef; [|exact (proj1 Hi)].
Qed.

(** Saving a found row with a new status. *)
Lemma wp_save_status status id row (p : Pn) Q0 :
  pinv p -> prows p !! id = Some row ->
  (forall r now p', pinv p' -> same_sides p p' -> pn_registry p' = pn_registry p ->
     w_bus (pn_world p') = w_bus (pn_world p) -> (DaemonTaskRepositoryTotal R -> is_ok r = true) ->
     match r with
     | Ok t => dt_Status t = status /\ dt_DedicatedServerID t = dt_DedicatedServerID row /\
         prows p' = <[id := updated_row now status row]> (prows p)
     | Err _ => prows p' = prows p
     | Panic _ => False
     end -> Q0 r p') ->
  wp (on_world (save_task stamp (dt_set_status status (dt_set_output None row)))) Q0 p.
Proof.
  intros Hi Hrow HQ. destruct (dt_rows_id _ _ _ (proj1 Hi) Hrow) as [Hid Hnz].
  apply wp_save; [done|simpl; rewrite Hid, decide_False by done; eauto|].
  intros now r p' Hi' Hs' Hr' Hb' _ Htot Hlaw. apply (HQ _ now); try done.
  destruct r as [t|e|w]; [|done|done]. destruct Hlaw as (Ht & Hrows & Hid'). simpl in Hid'.
  rewrite Hid, decide_False in Hid' by done. rewrite Hid', Hrow in Hrows.
  split_and!; [by rewrite Ht|by rewrite Ht|]. rewrite Hrows, Ht, Hid'. f_equal.
  by apply saved_row.
Qed.

(** The outcome of a status update at the dispatcher. *)
Definition update_outcome (node : N) (u : TaskStatusUpdate) (p : Pn) (r : result unit) (p' : Pn) : Prop :=
  let status := ProtoTaskStatusToDomain (tu_Status u) in
  match prows p !! tu_TaskId u with
  | Some row =>
      if decide (dt_DedicatedServerID row = node) then
        (DaemonTaskRepositoryTotal R -> r = Ok tt) /\
        match r with
        | Ok _ => (exists now, prows p' = <[tu_TaskId u := updated_row now status row]> (prows p)) /\
            (bus_reliable P -> log (pn_world p') = log (pn_world p) ++
               if hasPublisher then
                 [(BuildRealtimeTaskStatusChannel (tu_TaskId u), TypeTaskStatus,
                   to_json (mkTaskStatusPayload (tu_TaskId u) status node (tu_Message u)))]
               else [])
        | _ => prows p' = prows p
        end
      else p' = p
  | None => p' = p
  end.

Lemma wp_HandleStatusUpdate node u (p : Pn) :
  pinv p ->
  wp (HandleTaskStatusUpdate stamp hasPublisher node u) (fun r p' =>
    pinv p' /\ (forall w, r <> Panic w) /\ same_sides p p' /\ update_outcome node u p r p') p.
Proof.
  intros Hi. unfold HandleTaskStatusUpdate. apply wp_find_id; [done| |].
  - intros e Hnt. split_and!; try done. unfold update_outcome. repeat case_match; done.
  - unfold update_outcome. destruct (prows p !! tu_TaskId u) as [row|] eqn:Erow; [|by wp_step].
    change (dt_DedicatedServerID (dt_set_output None row)) with (dt_DedicatedServerID row).
    destruct (decide (dt_DedicatedServerID row = node)) as [<-|Hne];
      [rewrite N.eqb_refl|rewrite (proj2 (N.eqb_neq _ _)) by congruence; by cbn [negb]; wp_step]; cbn [negb].
    do 2 wp_step. apply (wp_save_status _ (tu_TaskId u) row); [done|done|].
    intros r now p1 Hi1 Hs1 Hr1 Hb1 Htot1 Hlaw. destruct r as [t|e|w]; cbn [wrap_err]; [| |done].
    + destruct Hlaw as (Hst & Hds & Hrows). rewrite Hst, Hds. unfold publishTaskStatus.
      assert (Hdone : forall w', w_tasks w' = w_tasks (pn_world p1) -> w_servers w' = w_servers (pn_world p1) ->
        pinv (mkPanel w' (pn_settings p1) (pn_registry p1)) /\ same_sides p (mkPanel w' (pn_settings p1) (pn_registry p1)) /\
        exists now, rows w' = <[tu_TaskId u := updated_row now (ProtoTaskStatusToDomain (tu_Status u)) row]> (prows p)).
      { intros w' Ht' Hv'. split_and!.
        - by apply (pinv_same p1).
        - destruct Hs1. split; simpl; congruence.
        - exists now. unfold rows. rewrite Ht'. exact Hrows. }
      destruct hasPublisher.
      * unfold on_world. wp_step. eapply wp_mono; [apply wp_announce|].
        intros r w' (-> & Ht' & Hv' & Hl'). destruct (Hdone w' Ht' Hv') as (? & ? & ?).
        split_and!; try done. intros Hrel. specialize (Hl' Hrel). unfold log in *. cbn [pn_world]. by rewrite Hl', Hb1.
      * unfold on_world. do 2 wp_step. destruct (Hdone (pn_world p1)) as (? & ? & ?); [done..|].
        split_and!; try done. intros _. rewrite app_nil_r. unfold log. simpl. by rewrite Hb1.
    + split_and!; try done. by intros ?%Htot1.
Qed.

(** The outcome of a cancellation. *)
Definition cancel_outcome (id : N) (reason : string) (p : Pn) (r : result unit) (p' : Pn) : Prop :=
  match prows p !! id with
  | None => is_ok r = false /\ p' = p
  | Some row =>
      (DaemonTaskRepositoryTotal R -> r = Ok tt) /\
      (is_ok r = true -> exists now, prows p' = <[id := updated_row now DaemonTaskStatusCanceled row]> (prows p)) /\
      (is_ok r = false -> prows p' = prows p) /\
      exists ms, delivered (dt_DedicatedServerID row) ms p p' /\
        (ms = [] \/ ms = [GM_TaskCancel id reason]) /\
        (is_ok r = true -> stream_up (dt_DedicatedServerID row) p -> ms = [GM_TaskCancel id reason])
  end.

Lemma wp_CancelTask id reason (p : Pn) :
  pinv p ->
  wp (CancelTask stamp stream_err MarshalVT id reason) (fun r p' =>
    pinv p' /\ (forall w, r <> Panic w) /\ same_sides p p' /\ cancel_outcome id reason p r p') p.
Proof.
  intros Hi. unfold CancelTask. apply wp_find_id; [done| |]; unfold cancel_outcome.
  - intros e Hnt. split_and!; try done. destruct (prows p !! id) as [row|]; [|done].
    split_and!; try done. exists []. split_and!; [by apply delivered_nil|by left|done].
  - destruct (prows p !! id) as [row|] eqn:Erow; [|by wp_step].
    change (dt_DedicatedServerID (dt_set_output None row)) with (dt_DedicatedServerID row).
    wp_step. apply wp_new_message. intros rid p1 Hr1 Hq1 Hb1 Ht1 Hv1. do 2 wp_step.
    assert (Hi1 : pinv p1) by (by apply (pinv_same p)).
    assert (Hd1 : delivered (dt_DedicatedServerID row) [] p p1) by by apply quiet_delivered.
    eapply wp_mono; [by apply wp_send_task|]. intros res p2 (Hi2 & Hs2 & Ht2 & Hup2 & Hd2). simpl in Hd2.
    assert (Hrow2 : prows p2 = prows p) by (unfold prows, rows; by rewrite Ht2, Ht1).
    assert (Hs02 : same_sides p p2) by (eapply same_sides_trans; [|exact Hs2]; by split).
    assert (Hms : exists ms, delivered (dt_DedicatedServerID row) ms p p2 /\
      (ms = [] \/ ms = [GM_TaskCancel id reason]) /\
      (stream_up (dt_DedicatedServerID row) p -> ms = [GM_TaskCancel id reason])).
    { assert (Hup : stream_up (dt_DedicatedServerID row) p -> res = Ok tt)
        by (intros ?; apply Hup2; by eapply stream_up_delivered).
      destruct res as [[]|e|w]; [| |done].
      - exists [GM_TaskCancel id reason]. split_and!; [|by right|done]. by apply (delivered_trans _ [] _ p p1 p2).
      - exists []. split_and!; [|by left|by intros ?%Hup]. by apply (delivered_trans _ [] [] p p1 p2). }
    assert (Hnp : forall w, res <> Panic w) by (intros w ->; done). clear Hd2 Hup2.
    assert (Hsave : wp (let! _ := wrap "update task status" (on_world (save_task stamp
        (dt_set_status DaemonTaskStatusCanceled (dt_set_output None row)))) in ret tt) (fun r p' =>
      pinv p' /\ (forall w, r <> Panic w) /\ same_sides p p' /\
      ((DaemonTaskRepositoryTotal R -> r = Ok tt) /\
      (is_ok r = true -> exists now, prows p' = <[id := updated_row now DaemonTaskStatusCanceled row]> (prows p)) /\
      (is_ok r = false -> prows p' = prows p) /\
      exists ms, delivered (dt_DedicatedServerID row) ms p p' /\
        (ms = [] \/ ms = [GM_TaskCancel id reason]) /\
        (is_ok r = true -> stream_up (dt_DedicatedServerID row) p -> ms = [GM_TaskCancel id reason]))) p2).
    { do 2 wp_step. apply (wp_save_status _ id row); [done|by rewrite Hrow2|].
      intros r now p3 Hi3 Hs3 Hr3 Hb3 Htot3 Hlaw. rewrite Hrow2 in Hlaw.
      destruct Hms as (ms & Hd & Hor & Hup).
      assert (Hd3 : delivered (dt_DedicatedServerID row) ms p p3) by by eapply delivered_quiet.
      assert (Hs03 : same_sides p p3) by eauto using same_sides_trans.
      destruct r as [t|e|w]; cbn [wrap_err]; [wp_step| |done]; split_and!; try done.
      - intros _. exists now. apply Hlaw.
      - exists ms. split_and!; [done..|]. auto.
      - by intros ?%Htot3.
      - exists ms. by split_and!. }
    destruct res as [[]|e|w]; [exact Hsave|exact Hsave|]. by destruct (Hnp w).
Qed.

(** ** The contract of server control *)

(** What server control hands its task dispatcher to work on. *)
Record Ext : Type := mkExt {
  x_servers : V; x_bus : P; x_clock : N; x_registry : Registry D;
}.

Definition panel_of (c : Control R Q Ext) : Pn :=
  mkPanel (mkWorld (c_tasks c) (x_servers (c_ext c)) (x_bus (c_ext c)) (x_clock (c_ext c)))
    (c_settings c) (x_registry (c_ext c)).
Definition with_panel (p : Pn) (c : Control R Q Ext) : Control R Q Ext :=
  mkControl (w_tasks (pn_world p)) (pn_settings p) (c_events c) (c_clock c)
    (mkExt (w_servers (pn_world p)) (w_bus (pn_world p)) (w_clock (pn_world p)) (pn_registry p)).

(** The dispatcher as server control calls it. *)
Definition control_dispatch (t : DaemonTask) : M (Control R Q Ext) DaemonTask :=
  zoom panel_of with_panel (Dispatch stamp stream_err MarshalVT json_vars cat t).

Definition ext_ok (x : Ext) : Prop := sv_inv (x_servers x) /\ ptr_ok (x_registry x).

(** C14: a new task that is dispatched is stored as one new row with a fresh
    id, the fields it was given and no other row touched, and when the way to
    its node works (the node's stream on this instance, or else the bus) the
    node gets exactly its server's configuration, if the server is known,
    followed by that very task.  A node that cannot be reached does not fail
    the dispatch: on a storage that does not fail it always succeeds, and the
    task stays in storage for the next connection.  A failed dispatch stored
    and sent nothing. *)
Theorem dispatch_stores_then_sends t (p : Pn) :
  pinv p -> dt_ID t = 0%N -> proom 1 p ->
  let '(r, p') := Dispatch stamp stream_err MarshalVT json_vars cat t p in
  pinv p' /\ same_sides p p' /\ (DaemonTaskRepositoryTotal R -> is_ok r = true) /\
  match r with
  | Ok t' => prows p !! dt_ID t' = None /\
      (exists row, prows p' = <[dt_ID t' := row]> (prows p) /\ same_request t row) /\
      exists ms, delivered (dt_DedicatedServerID t) ms p p' /\
        (stream_up (dt_DedicatedServerID t) p -> exists sent,
           ms = config_msgs t p ++ [task_msg sent] /\ dt_ID sent = dt_ID t' /\ same_request t sent)
  | Err _ => prows p' = prows p /\ delivered (dt_DedicatedServerID t) [] p p'
  | Panic _ => False
  end.
Proof.
  intros Hi Hid Hroom. pose proof (wp_Dispatch t p Hi Hid Hroom) as Hwp.
  destruct (Dispatch _ _ _ _ _ t p) as [r p'] eqn:E.
  destruct (wp_run _ _ _ _ _ Hwp E) as (? & ? & _ & ? & ?). split_and!; done.
Qed.

(** C15: flushing the waiting tasks of a connected node either sends all of
    them, oldest id first, each after its server's configuration and nothing
    else, and marks them working, or stops at a message the stream refuses.
    In both cases a task is marked working only if its message went out, and
    every other row, of any node, keeps its content.  On a working stream and
    a storage that does not fail the flush succeeds. *)
Theorem flush_sends_pending_in_order node (p : Pn) :
  pinv p ->
  let '(r, p') := FlushPending stamp stream_err MarshalVT json_vars cat node p in
  pinv p' /\ (forall w, r <> Panic w) /\
  (stream_up node p -> DaemonTaskRepositoryTotal R -> is_Some (GetSession node (pn_registry p)) -> r = Ok tt) /\
  exists ts ms, delivered node ms p p' /\
    (forall t, t ∈ ts -> exists row, prows p !! dt_ID row = Some row /\ is_pending node row /\ t = dt_set_output None row) /\
    flushed_rows ts ms p p' /\
    (r = Ok tt ->
      StronglySorted (fun a b => dt_ID a < dt_ID b)%N ts /\
      (forall row, prows p !! dt_ID row = Some row -> is_pending node row -> dt_set_output None row ∈ ts) /\
      (stream_up node p -> ms = flush_msgs p ts) /\
      (DaemonTaskRepositoryTotal R -> forall i row, prows p !! i = Some row -> is_pending node row ->
         exists now, prows p' !! i = Some (updated_row now DaemonTaskStatusWorking row))).
Proof.
  intros Hi. pose proof (wp_FlushPending node p Hi) as Hwp.
  destruct (FlushPending _ _ _ _ _ node p) as [r p'] eqn:E. apply (wp_run _ _ _ _ _ Hwp) in E. clear Hwp.
  destruct r as [[]|e|w]; [| |done].
  - destruct E as (ts & (Hi' & Hs' & Hw & ms & Hd & Hf & Hup) & Hsort & Hel).
    split_and!; [done..|]. exists ts, ms. split_and!; [done|intros t; apply Hel|done|].
    intros _. split_and!; [done| |done|].
    + intros row Hrow Hp. apply Hel. by exists row.
    + intros Htot i row Hrow Hp. apply Hw; [done|done|]. apply Hel. exists row.
      by rewrite (proj1 (dt_rows_id _ i row (proj1 Hi) Hrow)).
  - destruct E as (Hno & Hi' & ts & ms & Hd & Hf & Hel). split_and!; [done..| |].
    + intros Hup Htot [a Ha]. destruct Hno as [Hno|[Hno|Hno]]; [done|done|congruence].
    + exists ts, ms. split_and!; try done.
Qed.

(** The daemon may answer a task before the panel has finished
    dispatching it.  The dispatch then saves its copy of the task a second
    time: whatever status the daemon reported in between (working, success,
    error) is overwritten with the status the task was created with, so a task
    created as waiting is pending again and the next flush sends it a second
    time. *)
Lemma early_answer_is_overwritten t t1 (p p1 : Pn) node u w2 :
  DaemonTaskRepositoryTotal R -> pinv p -> dt_ID t = 0%N -> proom 1 p ->
  dispatch_send stamp stream_err MarshalVT json_vars cat t p = (Ok (t1, true), p1) ->
  tu_TaskId u = dt_ID t1 ->
  TaskHandler.HandleTaskStatusUpdate stamp true hasPublisher node u (pn_world p1) = (Ok tt, w2) ->
  let p2 := mkPanel w2 (pn_settings p1) (pn_registry p1) in
  let '(r, p3) := dispatch_record stamp (t1, true) p2 in
  is_ok r = true /\
  option_map dt_Status (prows p2 !! dt_ID t1) = Some (ProtoTaskStatusToDomain (tu_Status u)) /\
  option_map dt_Status (prows p3 !! dt_ID t1) = Some (dt_Status t) /\
  (dt_Status t = DaemonTaskStatusWaiting ->
     exists row, prows p3 !! dt_ID t1 = Some row /\ is_pending (dt_DedicatedServerID t) row).
Proof.
  intros Htot Hi Hid Hroom Esend Hu Eupd p2.
  destruct (wp_run _ _ _ _ _ (wp_dispatch_send t p Hi Hid Hroom) Esend) as (Hi1 & _ & _ & _ & now & Ht1 & _ & Hrows1 & _).
  assert (Hrow1 : prows p1 !! dt_ID t1 = Some t1) by by rewrite Hrows1, lookup_insert_eq.
  destruct (dt_rows_id _ _ _ (proj1 Hi1) Hrow1) as [_ Hnz].
  destruct (wp_run _ _ _ _ _ (wp_HandleTaskStatusUpdate stamp true hasPublisher node u (pn_world p1) (proj1 Hi1)) Eupd)
    as (Hinv2 & _ & Hspec).
  unfold update_spec in Hspec. rewrite Hu in Hspec.
  change (rows (pn_world p1) !! dt_ID t1) with (prows p1 !! dt_ID t1) in Hspec. rewrite Hrow1 in Hspec.
  destruct Hspec as [[now2 Hrows2] _].
  assert (Hi2 : pinv p2) by (destruct Hi1 as (_ & ? & ?); by split_and!).
  assert (Hrow2 : prows p2 !! dt_ID t1 = Some (updated_row now2 (ProtoTaskStatusToDomain (tu_Status u)) t1))
    by (change (rows w2 !! dt_ID t1 = Some (updated_row now2 (ProtoTaskStatusToDomain (tu_Status u)) t1));
        by rewrite Hrows2, lookup_insert_eq).
  pose proof (wp_dispatch_record t1 true p2 Hi2 Hnz ltac:(eauto)) as Hwp.
  destruct (dispatch_record stamp (t1, true) p2) as [r p3] eqn:E.
  destruct (wp_run _ _ _ _ _ Hwp E) as ((_ & _ & _ & _ & _ & t2 & -> & _) & _ & Hrows3).
  destruct (Hrows3 Htot eq_refl) as [now3 Hrows]. rewrite Hrows, Hrow2, lookup_insert_eq.
  assert (Hst : dt_Status t1 = dt_Status t /\ dt_DedicatedServerID t1 = dt_DedicatedServerID t) by by rewrite Ht1.
  destruct Hst as [Hst Hds].
  assert (Hfin : forall old, dt_Status (stored_row old (touched now3 (dt_ID t1) t1)) = dt_Status t1 /\
    dt_DedicatedServerID (stored_row old (touched now3 (dt_ID t1) t1)) = dt_DedicatedServerID t1)
    by (intros old; unfold stored_row; simpl; by destruct (dt_Output t1)).
  split_and!; [done|done| |].
  - simpl. by rewrite (proj1 (Hfin _)), Hst.
  - intros Hw. eexists. split; [done|]. split; [by rewrite (proj2 (Hfin _))|by rewrite (proj1 (Hfin _)), Hst].
Qed.

(** The dispatcher takes a status update only from the node the task was
    given to: an update for an unknown task or from another node changes
    nothing at all, and one from the right node stores its status, keeps every
    other field and row, and announces it once. *)
Lemma dispatcher_update_from_owner node u (p : Pn) :
  pinv p ->
  let '(r, p') := HandleTaskStatusUpdate stamp hasPublisher node u p in
  pinv p' /\ (forall w, r <> Panic w) /\ same_sides p p' /\
  let status := ProtoTaskStatusToDomain (tu_Status u) in
  match prows p !! tu_TaskId u with
  | Some row =>
      if decide (dt_DedicatedServerID row = node) then
        (DaemonTaskRepositoryTotal R -> r = Ok tt) /\
        match r with
        | Ok _ => (exists now, prows p' = <[tu_TaskId u := updated_row now status row]> (prows p)) /\
            (bus_reliable P -> log (pn_world p') = log (pn_world p) ++
               if hasPublisher then
                 [(BuildRealtimeTaskStatusChannel (tu_TaskId u), TypeTaskStatus,
                   to_json (mkTaskStatusPayload (tu_TaskId u) status node (tu_Message u)))]
               else [])
        | _ => prows p' = prows p
        end
      else p' = p
  | None => p' = p
  end.
Proof.
  intros Hi. pose proof (wp_HandleStatusUpdate node u p Hi) as Hwp.
  destruct (HandleTaskStatusUpdate stamp hasPublisher node u p) as [r p'] eqn:E. exact (wp_run _ _ _ _ _ Hwp E).
Qed.

(** Cancelling a task that exists tells its node, when it can be reached,
    and nobody else, and marks the task canceled whatever its status was, also
    when the node could not be told; an unknown task is an error that changes
    nothing. *)
Lemma cancel_task_effect id reason (p : Pn) :
  pinv p ->
  let '(r, p') := CancelTask stamp stream_err MarshalVT id reason p in
  pinv p' /\ (forall w, r <> Panic w) /\ same_sides p p' /\
  match prows p !! id with
  | None => is_ok r = false /\ p' = p
  | Some row =>
      (DaemonTaskRepositoryTotal R -> r = Ok tt) /\
      (is_ok r = true -> exists now, prows p' = <[id := updated_row now DaemonTaskStatusCanceled row]> (prows p)) /\
      (is_ok r = false -> prows p' = prows p) /\
      exists ms, delivered (dt_DedicatedServerID row) ms p p' /\
        (ms = [] \/ ms = [GM_TaskCancel id reason]) /\
        (is_ok r = true -> stream_up (dt_DedicatedServerID row) p -> ms = [GM_TaskCancel id reason])
  end.
Proof.
  intros Hi. pose proof (wp_CancelTask id reason p Hi) as Hwp.
  destruct (CancelTask _ _ _ id reason p) as [r p'] eqn:E. exact (wp_run _ _ _ _ _ Hwp E).
Qed.

(** The dispatcher keeps the promise server control relies on: a new task
    becomes exactly one new row with the fields requested, or nothing happened;
    settings and events are left alone and the registry stays well formed. *)
Lemma dispatcher_meets_contract : dispatcher_ok (Some control_dispatch) ext_ok.
Proof.
  intros dispatch [= <-] t c (Hi & Hs & Hv & Hx) Hid Hroom. unfold control_dispatch. wp_step.
  eapply wp_mono; [apply (wp_Dispatch t (panel_of c)); by try split_and!|].
  intros r p' (([Hi' Hv'] & Hs' & Hx') & (_ & Hset) & Hrm & _ & Hr). unfold dispatch_spec.
  split_and!; try done. destruct r as [t'|e|w]; [|by destruct Hr|done].
  destruct Hr as (Hnew & Hrow & _). by split.
Qed.
End specs.

(** ** Examples: node 7 connected to this instance, in-memory stores *)

Definition sample_node : Node :=
  mkNode 7 true "node" NodeOSLinux "Unknown" None [] None None "/srv" None "" 31717 "key" None None None "" 1
    NodePreferInstallMethodAuto None None None None None None None None None None None None None None None None None.

Definition sample_catalogue : Catalogue :=
  mkCatalogue (fun _ => Ok []) (fun _ => Ok [sample_node]) (Some (fun _ => Err (ENew "timeout"))).
Definition sample_vars (_ : gmap string string) : option string := None.

Definition sample_registry : Registry unit :=
  let r := snd (alloc_session (sample_session 2) (NewRegistry "a")) in
  snd (register_local (fresh (∅ : gset N)) r).
Definition sample_panel : Panel memTaskRepo (gmap N Server) memSettingRepo (list entry) unit :=
  mkPanel (mkWorld sample_repo {[3%N := sample_server]} [] 100) sample_settings sample_registry.

Lemma sample_lookups : lookups_ok sample_marshal sample_catalogue.
Proof. repeat split; try done. intros find i w [= <-]. done. Defined.

Lemma sample_ptr_ok : ptr_ok sample_registry.
Proof.
  intros n p H. assert (Hr : rg_localSessions sample_registry = {[7%N := fresh (∅ : gset N)]}) by reflexivity.
  rewrite Hr in H. apply lookup_singleton_Some in H as [<- <-]. eexists. reflexivity.
Defined.

Lemma sample_pinv : pinv sample_panel.
Proof. split; [split; [exact (task_reachable_inv sample_repo sample_reachable)|exact I]|]. split; [apply sample_cinv|exact sample_ptr_ok]. Defined.

Definition sample_new_task : DaemonTask :=
  mkDaemonTask 0 None None None 7 (Some 3%N) DaemonTaskTypeServerStart None None None DaemonTaskStatusWaiting.

Definition sample_dispatch : DaemonTask -> M (Panel memTaskRepo (gmap N Server) memSettingRepo (list entry) unit) DaemonTask :=
  Dispatch sample_stamp sample_stream sample_marshal sample_vars sample_catalogue.

Lemma dispatch_stores_then_sends_witness :
  let '(r, p') := sample_dispatch sample_new_task sample_panel in
  option_map (fun s => length (se_sent s)) (rg_heap (pn_registry p') !! fresh (∅ : gset N)) = Some 2 /\
  same_sides sample_panel p' /\ match r with Ok t => prows sample_panel !! dt_ID t = None | _ => False end.
Proof.
  pose proof (dispatch_stores_then_sends sample_stamp sample_stream sample_marshal sample_vars sample_catalogue
    sample_lookups sample_new_task sample_panel sample_pinv eq_refl eq_refl) as H.
  unfold sample_dispatch. destruct (Dispatch _ _ _ _ _ sample_new_task sample_panel) as [r p'] eqn:E.
  destruct H as (_ & Hs & Htot & Hr). specialize (Htot memTaskRepo_total).
  split; [vm_compute in E; injection E as <- <-; reflexivity|]. split; [exact Hs|].
  destruct r; [apply Hr|discriminate|discriminate].
Defined.

Lemma flush_sends_pending_in_order_witness :
  let '(r, p') := FlushPending sample_stamp sample_stream sample_marshal sample_vars sample_catalogue 7 sample_panel in
  r = Ok tt /\ (exists row, prows p' !! 1%N = Some row /\ dt_Status row = DaemonTaskStatusWorking) /\
  option_map (fun s => length (se_sent s)) (rg_heap (pn_registry p') !! fresh (∅ : gset N)) = Some 2.
Proof.
  pose proof (flush_sends_pending_in_order sample_stamp sample_stream sample_marshal sample_vars sample_catalogue
    sample_lookups 7 sample_panel sample_pinv) as H.
  destruct (FlushPending _ _ _ _ _ 7 sample_panel) as [r p'] eqn:E.
  destruct H as (_ & _ & Hok & ts & ms & _ & _ & _ & Hdone).
  assert (Hr : r = Ok tt).
  { apply Hok; [|exact memTaskRepo_total|eexists; reflexivity].
    vm_compute. intros. reflexivity. }
  subst r. split; [reflexivity|]. split.
  - destruct (Hdone eq_refl) as (_ & _ & _ & Hw).
    destruct (Hw memTaskRepo_total 1%N (default (sample_task 0 "") (prows sample_panel !! 1%N))) as [now Hrow].
    + reflexivity.
    + split; reflexivity.
    + eexists. split; [exact Hrow|reflexivity].
  - vm_compute in E. injection E as <-. reflexivity.
Defined.

Definition sample_ext_control : Control memTaskRepo memSettingRepo (Ext (V := gmap N Server) (P := list entry) (D := unit)) :=
  mkControl sample_repo sample_settings [] 0 (mkExt {[3%N := sample_server]} [] 100 sample_registry).

