(* ===== verification/Gateway.v ===== *)
(** The gRPC gateway ([internal/grpc/gateway/service.go]): a daemon's
    connection from the registration message to the end of its stream, the
    dispatch of its messages, and the requests the panel makes over its stream.
    Commands, server statuses, attach and metrics messages go to handlers that
    are parameters; the contents of messages that no modelled code reads are
    carried as their encoded bytes. *)

From S2P Require Import Prelude.
From S2P Require Import GoNum.
From S2P Require Import Domain.
From S2P Require Import Repositories.
From S2P Require Import TaskRepo.
From S2P Require Import Converters.
From S2P Require Import PubSub.
From S2P Require Import World.
From S2P Require Import TaskHandler.
From S2P Require Import Session.
From S2P Require Import Registry.
From S2P Require Import Cluster.
From S2P Require Import SettingsRepo.
From S2P Require Import ServerControl.
From S2P Require Import Dispatcher.
From stdpp Require Import base tactics strings list gmap numbers sorting relations.
From Stdlib Require Import NArith ZArith.

(** ** Messages of a daemon *)

Record RegisterRequest : Type := mkRegisterRequest {
  rr_NodeId : N;
  rr_ApiKey : string;
  rr_Version : string;
  rr_Capabilities : list string;
  rr_InFlightTasks : list N;
}.

Record FileWriteResponse : Type := mkFileWriteResponse {
  fw_RequestId : string; fw_Success : bool; fw_Error : string;
}.

(** A response that is handed on whole. *)
Record Response : Type := mkResponse { rs_RequestId : string; rs_Body : string }.

Inductive DaemonPayload : Type :=
| DM_Register (r : RegisterRequest)
| DM_Heartbeat
| DM_MetricsResponse (body : string)
| DM_TaskStatus (u : TaskStatusUpdate)
| DM_TaskOutput (o : TaskOutput)
| DM_CommandOutput (body : string)
| DM_CommandResult (r : Response)
| DM_AttachStarted (body : string)
| DM_AttachOutput (body : string)
| DM_AttachClosed (body : string)
| DM_ConsoleLogResponse (r : Response)
| DM_ServerStatuses (body : string)
| DM_FileReadResponse (r : Response)
| DM_FileWriteResponse (r : FileWriteResponse)
| DM_FileListResponse (r : Response)
| DM_FileOperationResponse (r : Response)
| DM_StatusResponse (r : Response)
| DM_HttpProxyResponse (r : Response)
| DM_Unset.

Record DaemonMessage : Type := mkDaemonMessage { dm_RequestId : string; dm_Payload : DaemonPayload }.

Definition GetRegister (m : DaemonMessage) : option RegisterRequest :=
  match dm_Payload m with DM_Register r => Some r | _ => None end.
Definition GetFileWriteResponse (m : DaemonMessage) : option FileWriteResponse :=
  match dm_Payload m with DM_FileWriteResponse r => Some r | _ => None end.
Definition GetFileReadResponse (m : DaemonMessage) : option Response :=
  match dm_Payload m with DM_FileReadResponse r => Some r | _ => None end.
Definition GetFileListResponse (m : DaemonMessage) : option Response :=
  match dm_Payload m with DM_FileListResponse r => Some r | _ => None end.
Definition GetFileOperationResponse (m : DaemonMessage) : option Response :=
  match dm_Payload m with DM_FileOperationResponse r => Some r | _ => None end.
Definition GetCommandResult (m : DaemonMessage) : option Response :=
  match dm_Payload m with DM_CommandResult r => Some r | _ => None end.
Definition GetStatusResponse (m : DaemonMessage) : option Response :=
  match dm_Payload m with DM_StatusResponse r => Some r | _ => None end.
Definition GetConsoleLogResponse (m : DaemonMessage) : option Response :=
  match dm_Payload m with DM_ConsoleLogResponse r => Some r | _ => None end.
Definition GetHttpProxyResponse (m : DaemonMessage) : option Response :=
  match dm_Payload m with DM_HttpProxyResponse r => Some r | _ => None end.

Definition defaultHeartbeatInterval : Z := 30 * second.

(** What the gateway looks up besides servers, settings and tasks. *)
Record GatewayCatalogue : Type := mkGatewayCatalogue {
  gc_Nodes : N -> result (list Node);
  gc_GameMods : result (list GameMod);
  gc_Games : result (list Game);
}.

Section gateway.
Context {R V Q P : Type} (stamp : N -> Stamp).
Context `{DaemonTaskRepository R} `{ServerRepository V} `{ServerSettingRepository Q} `{Publisher P}.
Context (stream_err : Session DaemonMessage -> GatewayMessage -> option error).
Context (MarshalVT : GatewayMessage -> result string).
Context (json_vars : gmap string string -> option string).
Context (sha256 : string -> string).
Context (cat : Catalogue) (gc : GatewayCatalogue).
Context (hasServerRepo hasPublisher : bool).

Abbreviation Pn := (Panel R V Q P DaemonMessage).

(** The optional collaborators; [None] is nil. *)
Record Handlers : Type := mkHandlers {
  h_verify : option (string -> N -> result bool);
  h_tasks : bool;
  h_flusher : bool;
  h_command : option ((N -> string -> M Pn unit) * (N -> Response -> M Pn unit));
  h_statuses : option (N -> string -> M Pn unit);
  h_attach : option ((N -> string -> M Pn unit) * (N -> string -> M Pn unit) * (N -> string -> M Pn unit));
  h_metrics : option (N -> string -> string -> M Pn unit);
}.
Context (h : Handlers).

Definition on_registry {A} (m : M (Registry DaemonMessage) A) : M Pn A := on_reg pn_registry set_registry m.
Definition fresh_stamp : M Pn Stamp := on_world (next_stamp stamp).

(** An error that is replaced by a status. *)
Definition status_error {A} (code msg : string) (m : M Pn A) : M Pn A :=
  let! r := attempt m in
  match r with
  | Ok a => ret a
  | Err _ => fail (EStatus code msg)
  | Panic w => lift (Panic w)
  end.

(** ** Registration *)

Definition validateAuth (reg : RegisterRequest) : M Pn unit :=
  let! nodes := status_error "Internal" "failed to verify node" (lift (gc_Nodes gc (rr_NodeId reg))) in
  match nodes with
  | [] => fail (EStatus "NotFound" "node not found")
  | node :: _ =>
      if negb (nd_Enabled node) then fail (EStatus "PermissionDenied" "node is disabled")
      else if String.eqb (rr_ApiKey reg) "" then fail (EStatus "InvalidArgument" "API key is required")
      else
        match h_verify h with
        | Some Verify =>
            let! valid := status_error "Internal" "failed to verify API key"
              (lift (Verify (rr_ApiKey reg) (rr_NodeId reg))) in
            if valid then ret tt else fail (EStatus "Unauthenticated" "invalid API key")
        | None =>
            if String.eqb (sha256 (rr_ApiKey reg)) (nd_GdaemonAPIKey node) then ret tt
            else fail (EStatus "Unauthenticated" "invalid API key")
        end
  end.

Definition reconcileAbandonedTasks (reg : RegisterRequest) : M Pn unit :=
  if h_tasks h then
    let! _ := attempt (on_world (ReconcileWorkingTasks stamp hasServerRepo hasPublisher
      (rr_NodeId reg) (rr_InFlightTasks reg))) in ret tt
  else ret tt.

(** [gameModByID[id]]: a later game mod with the same id replaces an earlier
    one. *)
Definition game_mod_by_id (gameMods : list GameMod) (id : N) : option GameMod :=
  last (filter (fun gm => gmod_ID gm = id) gameMods).

Definition buildRegisterAck (reg : RegisterRequest) : M Pn RegisterAck :=
  let! nodes := wrap "find node" (lift (gc_Nodes gc (rr_NodeId reg))) in
  let nodeOS := match nodes with n :: _ => nd_OS n | [] => ""%string end in
  let! gameMods := wrap "find game mods" (lift (gc_GameMods gc)) in
  let! p := get in
  let! servers := wrap "find servers for node" (lift (SV_FindByDSID (w_servers (pn_world p)) (rr_NodeId reg))) in
  let! protoSettings :=
    match servers with
    | [] => ret []
    | _ =>
        let! settings := lift (or_nothing (SS_Find (pn_settings p)
          (Some (mkFindServerSetting [] (map sv_ID servers) [])) [] None)) in
        ret (DomainServerSettingsToProto settings)
    end in
  let! pendingTasks :=
    if h_tasks h then
      let! r := attempt (on_world (TaskHandler.GetPendingTasks (rr_NodeId reg))) in
      ret (match r with Ok l => l | _ => [] end)
    else ret [] in
  let! games := wrap "find games" (lift (gc_Games gc)) in
  ret (mkRegisterAck true
    (map (fun srv => DomainServerToProtoWithGameMod json_vars srv (game_mod_by_id gameMods (sv_GameModID srv)) nodeOS) servers)
    pendingTasks
    (map DomainGameToProto (filter (fun g => gm_Enabled g <> 0%Z) games))
    (map DomainGameModToProto gameMods)
    defaultHeartbeatInterval protoSettings).

(** [Connect] up to the entry of the session in the registry. *)
Definition connect_register (first : result DaemonMessage) : M Pn (N * RegisterRequest * string) :=
  match first with
  | Ok msg =>
      match GetRegister msg with
      | None => fail (EStatus "InvalidArgument" "first message must be RegisterRequest")
      | Some reg =>
          do! validateAuth reg ;;
          do! reconcileAbandonedTasks reg ;;
          let! st := fresh_stamp in
          let! sess := on_registry (alloc_session
            (NewSession (st_now st) (rr_NodeId reg) (rr_Version reg) (rr_Capabilities reg) true)) in
          do! status_error "Internal" "failed to register session"
            (Register pn_registry set_registry (st_now st) st sess) ;;
          ret (sess, reg, dm_RequestId msg)
      end
  | _ => fail (EStatus "InvalidArgument" "failed to receive registration message")
  end.

(** The answer, sent on the stream itself. *)
Definition connect_ack (sess : N) (reg : RegisterRequest) (requestID : string) : M Pn unit :=
  let! ack := status_error "Internal" "failed to build registration response" (buildRegisterAck reg) in
  status_error "Internal" "failed to send registration ack"
    (on_registry (on_session sess (Send stream_err (mkGatewayMessage requestID (GM_RegisterAck ack))))).

(** The flush of the waiting tasks, run on its own after the answer. *)
Definition flushPendingTasks (nodeID : N) : M Pn unit :=
  if h_flusher h then
    let! _ := attempt (FlushPending stamp stream_err MarshalVT json_vars cat nodeID) in ret tt
  else ret tt.

(** The deferred call at the end of [Connect]. *)
Definition connect_end (reg : RegisterRequest) : M Pn unit :=
  let! st := fresh_stamp in
  let! _ := attempt (Unregister pn_registry set_registry st (rr_NodeId reg)) in ret tt.

(** ** Messages *)

Definition resolveResponse (sess : N) (requestID : string) (msg : DaemonMessage) : M Pn unit :=
  let! _ := on_registry (on_session sess (ResolvePendingRequest requestID msg)) in ret tt.

Definition ifset {A} (o : option A) (k : A -> M Pn unit) : M Pn unit :=
  match o with Some a => k a | None => ret tt end.

Definition processMessage (sess nodeID : N) (msg : DaemonMessage) : M Pn unit :=
  match dm_Payload msg with
  | DM_Heartbeat =>
      let! st := fresh_stamp in
      on_registry (on_session sess (UpdateLastPing (st_now st)))
  | DM_TaskStatus u =>
      if h_tasks h then on_world (TaskHandler.HandleTaskStatusUpdate stamp hasServerRepo hasPublisher nodeID u) else ret tt
  | DM_TaskOutput o =>
      if h_tasks h then on_world (TaskHandler.HandleTaskOutput stamp hasPublisher nodeID o) else ret tt
  | DM_CommandOutput body => ifset (h_command h) (fun c => fst c nodeID body)
  | DM_CommandResult r =>
      do! (if String.eqb (rs_RequestId r) "" then ret tt else resolveResponse sess (rs_RequestId r) msg) ;;
      ifset (h_command h) (fun c => snd c nodeID r)
  | DM_ServerStatuses body => ifset (h_statuses h) (fun f => f nodeID body)
  | DM_FileWriteResponse r => resolveResponse sess (fw_RequestId r) msg
  | DM_FileReadResponse r | DM_FileListResponse r | DM_FileOperationResponse r
  | DM_StatusResponse r | DM_ConsoleLogResponse r | DM_HttpProxyResponse r =>
      resolveResponse sess (rs_RequestId r) msg
  | DM_AttachStarted body => ifset (h_attach h) (fun a => fst (fst a) nodeID body)
  | DM_AttachOutput body => ifset (h_attach h) (fun a => snd (fst a) nodeID body)
  | DM_AttachClosed body => ifset (h_attach h) (fun a => snd a nodeID body)
  | DM_MetricsResponse body => ifset (h_metrics h) (fun f => f nodeID (dm_RequestId msg) body)
  | DM_Register _ | DM_Unset => ret tt
  end.

(** What [handleMessages] takes from its two channels, one at a time. *)
Inductive received : Type :=
| RecvDone
| RecvClosed
| RecvError (e : error)
| RecvMsg (m : DaemonMessage).

(** [errors.Is(err, io.EOF) || errors.Is(err, context.Canceled)] *)
Definition io_EOF : error := ENew "EOF".
Definition context_Canceled : error := ENew "context canceled".
Definition stream_end (e : error) : bool := errors_is e io_EOF || errors_is e context_Canceled.

(** The loop over what was received; [None] is a loop that still waits. *)
Fixpoint handleMessages (sess nodeID : N) (l : list received) : M Pn (option unit) :=
  match l with
  | [] => ret None
  | RecvDone :: _ | RecvClosed :: _ => ret (Some tt)
  | RecvError e :: _ => if stream_end e then ret (Some tt) else fail e
  | RecvMsg m :: l =>
      let! _ := attempt (processMessage sess nodeID m) in handleMessages sess nodeID l
  end.

(** ** Requests to a daemon *)

(** A request up to its sending: the session, the request id and the channel
    the answer comes on. *)
Definition request_start (nodeID : N) (check : Session DaemonMessage -> result unit) (failed : string)
  (payload : string -> GatewayPayload) : M Pn (N * string * N) :=
  let! p := get in
  match GetSession nodeID (pn_registry p) with
  | None => fail (ENew "node not connected")
  | Some sess =>
      match rg_heap (pn_registry p) !! sess with
      | None => lift (Panic "nil pointer dereference")
      | Some s =>
          do! lift (check s) ;;
          let! st := fresh_stamp in
          let requestID := st_id st in
          let! respCh := on_registry (on_session sess (RegisterPendingRequest requestID)) in
          let! sent := attempt (on_registry (on_session sess
            (Send stream_err (mkGatewayMessage requestID (payload requestID))))) in
          match sent with
          | Err e =>
              do! on_registry (on_session sess (CancelPendingRequest requestID)) ;;
              fail (EWrap failed e)
          | _ => ret (sess, requestID, respCh)
          end
      end
  end.

(** The case of the [select] that fires. *)
Inductive wake : Type := WakeDone (e : error) | WakeResponse.

(** The end of a request: [None] when that case cannot fire yet. *)
Definition request_end {A} (pick : DaemonMessage -> result A) (w : wake) (pending : N * string * N)
  : M Pn (option A) :=
  let '(sess, requestID, respCh) := pending in
  let close := on_registry (on_session sess (CancelPendingRequest requestID)) in
  match w with
  | WakeDone e => do! close ;; fail e
  | WakeResponse =>
      let! r := on_registry (on_session sess (Await respCh)) in
      match r with
      | None => ret None
      | Some None => do! close ;; fail (ENew "request cancelled")
      | Some (Some resp) => do! close ;; let! a := lift (pick resp) in ret (Some a)
      end
  end.

Definition no_check (_ : Session DaemonMessage) : result unit := Ok tt.
Definition expect {A} (get : DaemonMessage -> option A) (m : DaemonMessage) : result A :=
  match get m with Some r => Ok r | None => Err (ENew "unexpected response type") end.

(** Responses that carry success or an error text. *)
Definition written (m : DaemonMessage) : result unit :=
  let? r := expect GetFileWriteResponse m in
  if fw_Success r then Ok tt else Err (ENew (fw_Error r)).

(** A request as its two halves. *)
Record Request (A : Type) : Type := mkRequest {
  rq_start : M Pn (N * string * N);
  rq_end : wake -> N * string * N -> M Pn (option A);
}.

Definition RequestFileRead (nodeID : N) (path : string) (offset length : Z) : Request Response :=
  mkRequest _ (request_start nodeID no_check "send file read request" (fun _ => GM_FileRead path offset length))
    (request_end (expect GetFileReadResponse)).
Definition RequestFileWrite (nodeID : N) (path content : string) (mode : Z) (createDirs : bool)
  (ownerUser : string) (ownerUid ownerGid : Z) : Request unit :=
  mkRequest _ (request_start nodeID no_check "send file write request"
      (fun _ => GM_FileWrite path content mode createDirs ownerUser ownerUid ownerGid))
    (request_end written).
Definition RequestFileList (nodeID : N) (path : string) (recursive : bool) (pattern : string) : Request Response :=
  mkRequest _ (request_start nodeID no_check "send file list request" (fun _ => GM_FileList path recursive pattern))
    (request_end (expect GetFileListResponse)).
Definition RequestFileOperation (nodeID : N) (body : string) : Request Response :=
  mkRequest _ (request_start nodeID no_check "send file operation request" (fun id => GM_FileOperation id body))
    (request_end (expect GetFileOperationResponse)).
Definition RequestCommand (nodeID : N) (req : CommandRequest) : Request Response :=
  mkRequest _ (request_start nodeID no_check "send command request" (fun _ => GM_Command req))
    (request_end (expect GetCommandResult)).
Definition RequestStatus (nodeID : N) : Request Response :=
  mkRequest _ (request_start nodeID no_check "send status request" (fun _ => GM_StatusRequest))
    (request_end (expect GetStatusResponse)).
Definition RequestConsoleLog (nodeID serverID : N) (maxBytes : Z) : Request Response :=
  mkRequest _ (request_start nodeID no_check "send console log request" (fun _ => GM_ConsoleLogRequest serverID maxBytes))
    (request_end (expect GetConsoleLogResponse)).
Definition RequestHTTPProxy (nodeID : N) (body : string) : Request Response :=
  mkRequest _ (request_start nodeID
      (fun s => if HasCapability "http_proxy" s then Ok tt else Err (ENew "node does not support http_proxy"))
      "send http proxy request" (fun _ => GM_HttpProxy body))
    (request_end (expect GetHttpProxyResponse)).
Definition RequestFileUploadTask (nodeID : N) (transferID destPath checksum : string) (totalSize mode : Z)
  (ownerUser : string) (ownerUid ownerGid : Z) : Request unit :=
  mkRequest _ (request_start nodeID no_check "send file upload task"
      (fun _ => GM_FileUploadTask transferID destPath checksum totalSize mode ownerUser ownerUid ownerGid))
    (request_end written).
Definition RequestFileDownloadTask (nodeID : N) (transferID srcPath : string) : Request unit :=
  mkRequest _ (request_start nodeID no_check "send file download task" (fun _ => GM_FileDownloadTask transferID srcPath))
    (request_end written).
End gateway.

(** ** Effects *)

Section specs.
Context {R V Q P : Type} (stamp : N -> Stamp).
Context `{DaemonTaskRepositoryLaws R} `{ServerRepositoryLaws V} `{ServerSettingRepositoryLaws Q} `{PublisherLaws P}.
Context (stream_err : Session DaemonMessage -> GatewayMessage -> option error).
Context (MarshalVT : GatewayMessage -> result string).
Context (json_vars : gmap string string -> option string).
Context (sha256 : string -> string).
Context (cat : Catalogue) (gc : GatewayCatalogue).
Context (hasServerRepo hasPublisher : bool).

Abbreviation Pn := (Panel R V Q P DaemonMessage).
Context (h : Handlers (R:=R) (V:=V) (Q:=Q) (P:=P)).

(** The credentials a registration must carry. *)
Definition authentic (reg : RegisterRequest) : Prop :=
  exists node rest, gc_Nodes gc (rr_NodeId reg) = Ok (node :: rest) /\ nd_Enabled node = true /\
    rr_ApiKey reg <> ""%string /\
    match h_verify h with
    | Some Verify => Verify (rr_ApiKey reg) (rr_NodeId reg) = Ok true
    | None => sha256 (rr_ApiKey reg) = nd_GdaemonAPIKey node
    end.

Lemma wp_status_error {A} code msg (m : M Pn A) Q0 (p : Pn) :
  wp m (fun r p' => match r with
                    | Ok a => Q0 (Ok a) p'
                    | Err _ => Q0 (Err (EStatus code msg)) p'
                    | Panic w => Q0 (Panic w) p'
                    end) p ->
  wp (status_error code msg m) Q0 p.
Proof.
  intros Hm. unfold status_error. do 2 wp_step. eapply wp_mono; [exact Hm|].
  intros [a|e|w] p' Hq; [wp_step|wp_step|]; exact Hq.
Qed.

(** Authentication changes nothing and accepts exactly authentic requests. *)
Lemma validateAuth_spec reg (p : Pn) :
  exists r, validateAuth sha256 gc h reg p = (r, p) /\ (r = Ok tt <-> authentic reg).
Proof.
  unfold validateAuth, authentic, status_error, bind, attempt, lift, ret, fail.
  destruct (gc_Nodes gc (rr_NodeId reg)) as [[|node rest]|e|w];
    [by eexists; split; [done|naive_solver]| |by eexists; split; [done|naive_solver]..].
  assert (Hinv : forall r : result unit, (r = Ok tt <-> exists node0 rest0, Ok (node :: rest) = Ok (node0 :: rest0) /\
      nd_Enabled node0 = true /\ rr_ApiKey reg <> ""%string /\ match h_verify h with
        | Some Verify => Verify (rr_ApiKey reg) (rr_NodeId reg) = Ok true
        | None => sha256 (rr_ApiKey reg) = nd_GdaemonAPIKey node0 end) <->
    (r = Ok tt <-> nd_Enabled node = true /\ rr_ApiKey reg <> ""%string /\ match h_verify h with
        | Some Verify => Verify (rr_ApiKey reg) (rr_NodeId reg) = Ok true
        | None => sha256 (rr_ApiKey reg) = nd_GdaemonAPIKey node end)).
  { intros r. split; intros Hr; (split; [intros Hok; apply Hr in Hok|intros Hok; apply Hr]).
    - by destruct Hok as (? & ? & [= -> ->] & ?).
    - by exists node, rest.
    - by exists node, rest.
    - by destruct Hok as (? & ? & [= -> ->] & ?). }
  destruct (nd_Enabled node) eqn:En; simpl; [|eexists; split; [done|]; apply Hinv; naive_solver].
  destruct (String.eqb_spec (rr_ApiKey reg) "") as [Hk|Hk]; [eexists; split; [done|]; apply Hinv; naive_solver|].
  destruct (h_verify h) as [Verify|].
  - destruct (Verify (rr_ApiKey reg) (rr_NodeId reg)) as [[]|e|w]; eexists; (split; [done|]); apply Hinv; naive_solver.
  - destruct (String.eqb_spec (sha256 (rr_ApiKey reg)) (nd_GdaemonAPIKey node)); eexists; (split; [done|]);
      apply Hinv; naive_solver.
Qed.

(** Lookups and checks fail but do not panic. *)
Definition gateway_ok : Prop :=
  (forall i w, gc_Nodes gc i <> Panic w) /\ (forall w, gc_GameMods gc <> Panic w) /\
  (forall w, gc_Games gc <> Panic w) /\
  (forall Verify k n w, h_verify h = Some Verify -> Verify k n <> Panic w).

Definition pn_locals (p : Pn) : gmap N N := rg_localSessions (pn_registry p).
Definition pn_heap (p : Pn) : gmap N (Session DaemonMessage) := rg_heap (pn_registry p).

(** [a] is the new session [s] of node [n]; the one it replaces is cancelled. *)
Definition registered (n a : N) (s : Session DaemonMessage) (p p' : Pn) : Prop :=
  pn_heap p !! a = None /\ pn_locals p' = <[n := a]> (pn_locals p) /\
  pn_heap p' = <[a := s]> (match pn_locals p !! n with
                           | Some old => alter Session.Cancel old (pn_heap p)
                           | None => pn_heap p
                           end).

(** A session as [Connect] makes it: nothing sent, nothing pending. *)
Definition new_session (reg : RegisterRequest) (s : Session DaemonMessage) : Prop :=
  exists now, s = NewSession now (rr_NodeId reg) (rr_Version reg) (rr_Capabilities reg) true.

Lemma wp_reconcile reg (p : Pn) :
  pinv p ->
  wp (reconcileAbandonedTasks stamp hasServerRepo hasPublisher h reg) (fun r p' =>
    r = Ok tt /\ pinv p' /\ pn_registry p' = pn_registry p /\ pn_settings p' = pn_settings p) p.
Proof.
  intros (Hi & Hs & Hx). unfold reconcileAbandonedTasks. destruct (h_tasks h); [|wp_step; by split_and!].
  do 2 wp_step. unfold on_world. wp_step.
  eapply wp_mono; [by apply wp_ReconcileWorkingTasks|]. simpl. intros r w' (Hi' & Hnp & _).
  destruct r as [n|e|w]; [wp_step|wp_step|by destruct (Hnp w)]; by split_and!.
Qed.

(** Announcing a session event changes the bus only. *)
Lemma wp_publish_quiet ch msg (p : Pn) (Q0 : result (result unit) -> Pn -> Prop) :
  (forall r b, Q0 (Ok r) (mkPanel (mkWorld (w_tasks (pn_world p)) (w_servers (pn_world p)) b (w_clock (pn_world p)))
     (pn_settings p) (pn_registry p))) ->
  wp (attempt (publish ch msg)) Q0 p.
Proof.
  intros HQ. wp_step. unfold publish, panel_bus, on_world, on_bus. do 2 wp_step. apply wp_intro. simpl. intros r b E.
  pose proof (bus_law _ _ _ _ _ E) as Hlaw. destruct r; [apply HQ|apply HQ|done].
Qed.

Lemma wp_register reg now st a s (p : Pn) :
  pinv p -> pn_heap p !! a = Some s -> se_NodeID s = rr_NodeId reg ->
  (forall n, pn_locals p !! n <> Some a) ->
  wp (Register pn_registry set_registry now st a) (fun r p' =>
    r = Ok tt /\ pinv p' /\ pn_settings p' = pn_settings p /\
    pn_locals p' = <[rr_NodeId reg := a]> (pn_locals p) /\
    pn_heap p' = match pn_locals p !! rr_NodeId reg with
                 | Some old => alter Session.Cancel old (pn_heap p)
                 | None => pn_heap p
                 end) p.
Proof.
  intros (Hi & Hs & Hptr) Ha Hn Hfresh. unfold Register, pn_locals, pn_heap in *. wp_step. unfold on_reg. wp_step.
  unfold register_local. do 2 wp_step. rewrite Ha. wp_step. rewrite Hn.
  set (heap' := match rg_localSessions (pn_registry p) !! rr_NodeId reg with
                | Some old => alter Session.Cancel old (rg_heap (pn_registry p))
                | None => rg_heap (pn_registry p) end).
  assert (Hold : wp (match rg_localSessions (pn_registry p) !! rr_NodeId reg with
      | Some old => on_session old (modify Session.Cancel) | None => ret tt end)
      (fun r reg' => r = Ok tt /\ reg' = rg_set_heap heap' (pn_registry p)) (pn_registry p)).
  { subst heap'. destruct (rg_localSessions (pn_registry p) !! rr_NodeId reg) as [old|] eqn:Eo.
    - destruct (Hptr _ _ Eo) as [so Hso]. unfold wp, on_session. rewrite Hso. simpl. split; [done|].
      f_equal. apply map_eq. intros j. rewrite lookup_insert, lookup_alter. case_decide; [by subst; rewrite Hso|done].
    - wp_step. split; [done|]. by destruct (pn_registry p). }
  eapply wp_mono; [exact Hold|]. intros r reg' (-> & ->). wp_step. unfold modify, wp at 1. simpl. wp_step.
  do 2 wp_step. unfold NewMessage. do 3 wp_step. simpl. wp_step. apply wp_publish_quiet. intros r b. wp_step. simpl.
  split_and!; try done. split_and!; [by apply (inv_same _ _ Hi)|exact Hs|]. intros m c. simpl. rewrite lookup_insert.
  assert (Hdom : forall x, is_Some (rg_heap (pn_registry p) !! x) -> is_Some (heap' !! x)).
  { intros x Hx. subst heap'. case_match; [|done]. rewrite lookup_alter.
    destruct Hx as [y Hy]. case_decide; subst; rewrite Hy; simpl; eauto. }
  case_decide.
  - intros [= <-]. apply Hdom. eauto.
  - intros Hc. apply Hdom. by apply (Hptr m).
Qed.

(** [Connect] up to the registration. *)
Lemma wp_connect_register first (p : Pn) :
  gateway_ok -> pinv p ->
  wp (connect_register stamp sha256 gc hasServerRepo hasPublisher h first) (fun r p' =>
    match r with
    | Ok (a, reg, rid) => exists msg s, first = Ok msg /\ GetRegister msg = Some reg /\ rid = dm_RequestId msg /\
        authentic reg /\ new_session reg s /\ registered (rr_NodeId reg) a s p p' /\
        pinv p' /\ pn_settings p' = pn_settings p
    | Err _ => p' = p /\ ~ exists msg reg, first = Ok msg /\ GetRegister msg = Some reg /\ authentic reg
    | Panic _ => False
    end) p.
Proof.
  intros Hgw Hi. unfold connect_register.
  destruct first as [msg|e|w]; [|wp_step; split; [done|naive_solver]..].
  destruct (GetRegister msg) as [reg|] eqn:Ereg; [|wp_step; split; [done|naive_solver]].
  wp_step. destruct (validateAuth_spec reg p) as (r & Ev & Hauth). unfold wp at 1. rewrite Ev. simpl.
  destruct r as [[]|e|w].
  2: { split; [done|]. intros (m & rg & [= <-] & Hr & Ha). rewrite Ereg in Hr. injection Hr as <-.
       apply Hauth in Ha. done. }
  2: { exfalso. destruct Hgw as (Hn & _ & _ & Hv). revert Ev.
       unfold validateAuth, status_error, bind, attempt, lift, ret, fail.
       destruct (gc_Nodes gc (rr_NodeId reg)) as [[|node rest]|e|w'] eqn:E; try done; [|by destruct (Hn (rr_NodeId reg) w')].
       repeat case_match; try done. intros _. eapply Hv; eauto. }
  assert (Hau : authentic reg) by by apply Hauth.
  wp_step. eapply wp_mono; [by apply wp_reconcile|]. intros r p1 (-> & Hi1 & Hr1 & Hs1).
  wp_step. unfold fresh_stamp, on_world. wp_step. unfold wp at 1. simpl.
  set (st := stamp (w_clock (pn_world p1))). wp_step. unfold on_registry, on_reg. wp_step.
  unfold wp at 1, alloc_session. simpl.
  set (s := NewSession (st_now st) (rr_NodeId reg) (rr_Version reg) (rr_Capabilities reg) true).
  rewrite Hr1. set (a := fresh (dom (rg_heap (pn_registry p)))).
  assert (Ha : rg_heap (pn_registry p) !! a = None) by apply not_elem_of_dom, is_fresh.
  destruct Hi1 as (Hi1 & Hst1 & Hx1). rewrite Hr1 in Hx1.
  assert (Hnew : forall n, rg_localSessions (pn_registry p) !! n <> Some a).
  { intros n Hn. destruct (Hx1 n a Hn) as [y Hy]. congruence. }
  wp_step. apply wp_status_error. eapply wp_mono.
  { apply (wp_register reg (st_now st) st a s).
    - split_and!; [by apply (inv_same _ _ Hi1)|exact Hst1|]. intros n c Hc. simpl. rewrite lookup_insert. case_decide; [eauto|].
      by apply (Hx1 n).
    - unfold pn_heap. simpl. apply lookup_insert_eq.
    - done.
    - exact Hnew. }
  intros r p2 (-> & Hi2 & Hs2 & Hl2 & Hh2). wp_step.
  exists msg, s. split_and!; try done; [by exists (st_now st)| |exact (eq_trans Hs2 Hs1)].
  unfold registered, pn_locals, pn_heap in *. simpl in *. split_and!; [done|done|]. rewrite Hh2.
  destruct (rg_localSessions (pn_registry p) !! rr_NodeId reg) as [old|] eqn:Eo; [|done].
  apply map_eq. intros j. rewrite lookup_alter, !lookup_insert, lookup_alter.
  assert (old <> a) by (intros ->; by apply (Hnew (rr_NodeId reg))).
  repeat case_decide; subst; done.
Qed.

(** The end of a connection forgets the node's session, whichever it is. *)
Lemma wp_connect_end reg (p : Pn) :
  pinv p ->
  wp (connect_end stamp reg) (fun r p' => r = Ok tt /\ pinv p' /\ pn_heap p' = pn_heap p /\
    pn_locals p' = delete (rr_NodeId reg) (pn_locals p) /\ pn_settings p' = pn_settings p) p.
Proof.
  intros ([Hi Hvi] & Hs & Hptr). unfold connect_end, fresh_stamp, on_world. do 2 wp_step. unfold wp at 1. simpl. do 2 wp_step.
  unfold Unregister, on_reg. do 2 wp_step. unfold unregister_local. do 2 wp_step. unfold pn_locals, pn_heap. simpl.
  assert (Hdel : ptr_ok (rg_set_local (delete (rr_NodeId reg) (rg_localSessions (pn_registry p))) (pn_registry p))).
  { intros m c. simpl. rewrite lookup_delete. case_decide; [done|]. apply Hptr. }
  destruct (rg_localSessions (pn_registry p) !! rr_NodeId reg) as [a|] eqn:Ea.
  - wp_step. unfold modify, wp at 1. simpl. destruct (Hptr _ _ Ea) as [s Hsa]. rewrite Hsa. wp_step. cbn.
    do 2 wp_step. unfold NewMessage. do 3 wp_step. simpl. wp_step. apply wp_publish_quiet. intros r b. repeat wp_step. simpl.
    by split_and!.
  - repeat wp_step. simpl. rewrite delete_id by done. by split_and!.
Qed.

(** ** The answer to a registration *)

(** What the answer to node [n] must hold. *)
Record ack_content (n : N) (nodes : list Node) (mods : list GameMod) (games : list Game) (p : Pn) (ack : RegisterAck) : Prop := {
  ac_servers : NoDup (map ps_Id (ra_Servers ack)) /\
    forall ps, ps ∈ ra_Servers ack <-> exists s, World.srows (pn_world p) !! sv_ID s = Some s /\ sv_DSID s = n /\
      ps = DomainServerToProtoWithGameMod json_vars s (game_mod_by_id mods (sv_GameModID s))
             (match nodes with node :: _ => nd_OS node | [] => ""%string end);
  ac_tasks : StronglySorted (fun a b => pt_Id a < pt_Id b)%N (ra_PendingTasks ack) /\
    forall pt, pt ∈ ra_PendingTasks ack <-> exists row, prows p !! dt_ID row = Some row /\ is_pending n row /\
      pt = DomainDaemonTaskToProto (dt_set_output None row);
  ac_settings : forall x, x ∈ ra_ServerSettings ack <-> exists s setting,
    World.srows (pn_world p) !! sv_ID s = Some s /\ sv_DSID s = n /\
    st_rows (pn_settings p) !! ss_ID setting = Some setting /\ ss_ServerID setting = sv_ID s /\
    [x] = DomainServerSettingsToProto [setting];
  ac_games : forall x, x ∈ ra_Games ack <-> exists g, g ∈ games /\ gm_Enabled g <> 0%Z /\ x = DomainGameToProto g;
  ac_mods : ra_GameMods ack = map DomainGameModToProto mods;
  ac_success : ra_Success ack = true;
}.

Lemma map_ids_servers f (l : list Server) :
  (forall s, ps_Id (f s) = sv_ID s) -> map ps_Id (map f l) = map sv_ID l.
Proof. intros Hf. rewrite map_map. by apply map_ext. Qed.

Lemma proto_server_id s gm os : ps_Id (DomainServerToProtoWithGameMod json_vars s gm os) = sv_ID s.
Proof. unfold DomainServerToProtoWithGameMod. by repeat case_match. Qed.

(** The waiting tasks of a node, converted. *)
Lemma pending_protos n (p : Pn) l :
  pinv p -> DT_Find (w_tasks (pn_world p)) (Some (node_filter n DaemonTaskStatusWaiting)) [] None = Ok l ->
  StronglySorted (fun a b => pt_Id a < pt_Id b)%N (map DomainDaemonTaskToProto l) /\
  forall pt, pt ∈ map DomainDaemonTaskToProto l <-> exists row, prows p !! dt_ID row = Some row /\ is_pending n row /\
    pt = DomainDaemonTaskToProto (dt_set_output None row).
Proof.
  intros Hi E. destruct (pending_found n _ _ (proj1 Hi) E) as [Hsort Hel]. split.
  - clear -Hsort. induction Hsort as [|t l _ IH Hall]; [constructor|]. simpl. constructor; [done|].
    rewrite list.Forall_forall in Hall. apply list.Forall_forall.
    intros pt (u & -> & Hu)%list_elem_of_fmap. simpl. by apply Hall.
  - intros pt. rewrite list_elem_of_fmap. split.
    + intros (t & -> & (row & Hrow & Hp & ->)%Hel). by exists row.
    + intros (row & Hrow & Hp & ->). eexists. split; [done|]. apply Hel. by exists row.
Qed.

(** The settings of the servers of a node, converted. *)
Lemma server_settings n (p : Pn) servers l :
  pinv p ->
  (forall s, s ∈ servers <-> World.srows (pn_world p) !! sv_ID s = Some s /\ sv_DSID s = n) -> servers <> [] ->
  SS_Find (pn_settings p) (Some (mkFindServerSetting [] (map sv_ID servers) [])) [] None = Ok l ->
  forall x, x ∈ DomainServerSettingsToProto l <-> exists s setting,
    World.srows (pn_world p) !! sv_ID s = Some s /\ sv_DSID s = n /\
    st_rows (pn_settings p) !! ss_ID setting = Some setting /\ ss_ServerID setting = sv_ID s /\
    [x] = DomainServerSettingsToProto [setting].
Proof.
  intros (_ & Hs & _) Hsv Hne E x. pose proof (st_find_law _ _ _ Hs E) as Hel.
  assert (Hm : forall setting, setting_matches (mkFindServerSetting [] (map sv_ID servers) []) setting = true <->
    ss_ServerID setting ∈ map sv_ID servers).
  { intros setting. unfold setting_matches. simpl. destruct servers as [|s0 rest]; [done|]. simpl.
    by rewrite andb_true_r, bool_decide_eq_true. }
  unfold DomainServerSettingsToProto at 1. rewrite list_elem_of_fmap. split.
  - intros (setting & -> & [Hrow Hmt]%Hel). apply Hm, list_elem_of_fmap in Hmt as (s & Hid & Hin).
    apply Hsv in Hin as [Hsr Hds]. exists s, setting. by split_and!.
  - intros (s & setting & Hsr & Hds & Hrow & Hid & [= ->]). exists setting. split; [done|]. apply Hel.
    split; [done|]. apply Hm, list_elem_of_fmap. exists s. split; [done|]. by apply Hsv.
Qed.

Lemma buildRegisterAck_total reg nodes mods games (p : Pn) :
  pinv p -> h_tasks h = true -> servers_total V -> DaemonTaskRepositoryTotal R -> settings_total (Q:=Q) ->
  gc_Nodes gc (rr_NodeId reg) = Ok nodes -> gc_GameMods gc = Ok mods -> gc_Games gc = Ok games ->
  exists ack, buildRegisterAck json_vars gc h reg p = (Ok ack, p) /\
    ack_content (rr_NodeId reg) nodes mods games p ack.
Proof.
  intros Hi Ht (_ & Hsv & _) Htot [Hst _] En Em Eg.
  assert (Hp : mkPanel (pn_world p) (pn_settings p) (pn_registry p) = p) by by destruct p.
  specialize (Hsv (w_servers (pn_world p)) (rr_NodeId reg)).
  destruct (SV_FindByDSID (w_servers (pn_world p)) (rr_NodeId reg)) as [servers|e|w] eqn:Es; [|done|done].
  destruct (sv_node_law _ _ _ (inv_servers _ (proj1 Hi)) Es) as [Hnd Hel]. fold (World.srows (pn_world p)) in Hel.
  destruct (dt_find_total _ (Some (node_filter (rr_NodeId reg) DaemonTaskStatusWaiting)) (proj1 Hi)) as [ts Ets].
  specialize (Hst (pn_settings p) (Some (mkFindServerSetting [] (map sv_ID servers) []))).
  destruct (SS_Find (pn_settings p) (Some (mkFindServerSetting [] (map sv_ID servers) [])) [] None) as [ss|e|w] eqn:Ess;
    [|done|done].
  set (settings := match servers with [] => [] | _ => DomainServerSettingsToProto ss end).
  exists (mkRegisterAck true
    (map (fun srv => DomainServerToProtoWithGameMod json_vars srv (game_mod_by_id mods (sv_GameModID srv))
       (match nodes with node :: _ => nd_OS node | [] => ""%string end)) servers)
    (map DomainDaemonTaskToProto ts) (map DomainGameToProto (filter (fun g => gm_Enabled g <> 0%Z) games))
    (map DomainGameModToProto mods) defaultHeartbeatInterval settings). split.
  - unfold buildRegisterAck, wrap, lift, bind, get, ret, attempt. rewrite En, Em. simpl. rewrite Es.
    unfold settings. destruct servers; simpl; [|simpl in Ess; rewrite Ess; simpl]; rewrite Ht;
      unfold on_world, zoom, TaskHandler.GetPendingTasks, find_tasks, wrap, lift, bind, get, ret; simpl;
      rewrite Ets; simpl; rewrite Eg, Hp; reflexivity.
  - destruct (pending_protos (rr_NodeId reg) p ts Hi Ets) as [Hsort Htasks].
    split; simpl; try done.
    + split; [rewrite map_ids_servers; [done|intros; apply proto_server_id]|].
      intros ps. rewrite list_elem_of_fmap. split.
      * intros (s & -> & [Hr Hn]%Hel). by exists s.
      * intros (s & Hr & Hn & ->). exists s. split; [done|]. by apply Hel.
    + intros x. destruct servers as [|s0 rest].
      * split; [by intros ?%list.elem_of_nil|]. intros (s & setting & Hr & Hn & _).
        by destruct (proj1 (list.elem_of_nil s) (proj2 (Hel s) (conj Hr Hn))).
      * exact (server_settings (rr_NodeId reg) p (s0 :: rest) ss Hi Hel ltac:(done) Ess x).
    + intros x. rewrite list_elem_of_fmap. split.
      * intros (g & -> & [Hg Hin]%list_elem_of_filter). by exists g.
      * intros (g & Hin & Hg & ->). exists g. split; [done|]. by apply list_elem_of_filter.
Qed.

(** ** Messages *)

(** A call of a collaborator that leaves sessions and registry alone. *)
Definition quiet_call (m : M Pn unit) : Prop :=
  forall p, pinv p -> wp m (fun r p' => pinv p' /\ pn_registry p' = pn_registry p /\ forall w, r <> Panic w) p.

Definition handlers_quiet : Prop :=
  (forall f g, h_command h = Some (f, g) -> (forall n b, quiet_call (f n b)) /\ forall n r, quiet_call (g n r)) /\
  (forall f, h_statuses h = Some f -> forall n b, quiet_call (f n b)) /\
  (forall f g k, h_attach h = Some (f, g, k) ->
     (forall n b, quiet_call (f n b)) /\ (forall n b, quiet_call (g n b)) /\ forall n b, quiet_call (k n b)) /\
  (forall f, h_metrics h = Some f -> forall n i b, quiet_call (f n i b)).

Definition sessions_ok (p : Pn) : Prop := forall a s, pn_heap p !! a = Some s -> pending_ok s.

(** Only the pending requests and the ping time of session [sess] moved. *)
Definition touches (sess : N) (p p' : Pn) : Prop :=
  pn_locals p' = pn_locals p /\ rg_globalNodes (pn_registry p') = rg_globalNodes (pn_registry p) /\
  exists s s', pn_heap p !! sess = Some s /\ pn_heap p' = <[sess := s']> (pn_heap p) /\
    rtc (session_step stream_err) s s' /\ se_sent s' = se_sent s /\ se_cancelled s' = se_cancelled s.

Definition message_post (sess : N) (p : Pn) (r : result unit) (p' : Pn) : Prop :=
  pinv p' /\ sessions_ok p' /\ touches sess p p' /\ forall w, r <> Panic w.

Lemma reachable_pending s s' : rtc (session_step stream_err) s s' -> pending_ok s -> pending_ok s'.
Proof. induction 1; eauto using session_step_ok. Qed.

Lemma touches_refl sess p : is_Some (pn_heap p !! sess) -> touches sess p p.
Proof. intros [s Hs]. split_and!; try done. exists s, s. split_and!; try done. by rewrite insert_id. Qed.

Lemma touches_trans sess p q r : touches sess p q -> touches sess q r -> touches sess p r.
Proof.
  intros (Hl & Hg & s & s1 & Hs & Hq & Hr & He & Hc) (Hl' & Hg' & s2 & s3 & Hs' & Hq' & Hr' & He' & Hc').
  rewrite Hq, lookup_insert_eq in Hs'. injection Hs' as <-.
  split_and!; [congruence|congruence|]. exists s, s3. split_and!; [done| |by etrans|congruence|congruence].
  by rewrite Hq', Hq, insert_insert_eq.
Qed.

Lemma quiet_post sess (m : M Pn unit) (p : Pn) :
  quiet_call m -> pinv p -> sessions_ok p -> is_Some (pn_heap p !! sess) -> wp m (message_post sess p) p.
Proof.
  intros Hm Hi Hok Hs. eapply wp_mono; [by apply Hm|]. intros r p' (Hi' & Hr & Hw). unfold message_post, sessions_ok.
  assert (Ht : touches sess p p').
  { pose proof (touches_refl sess p Hs) as Ht. unfold touches, pn_locals, pn_heap in *. by rewrite Hr. }
  split_and!; try done. unfold pn_heap. by rewrite Hr.
Qed.

(** One operation on the session itself. *)
Lemma wp_own_session {A} sess (m : M (Session DaemonMessage) A) (p : Pn) (Q0 : result A -> Pn -> Prop) s :
  pinv p -> sessions_ok p -> pn_heap p !! sess = Some s ->
  (forall r s', m s = (r, s') -> session_step stream_err s s' /\ se_sent s' = se_sent s /\
     se_cancelled s' = se_cancelled s) ->
  (forall r p', fst (m s) = r -> pinv p' -> sessions_ok p' -> touches sess p p' ->
     pn_heap p' !! sess = Some (snd (m s)) -> Q0 r p') ->
  wp (on_registry (on_session sess m)) Q0 p.
Proof.
  intros (Hi & Hst & Hptr) Hok Hs Hm HQ. unfold on_registry, on_reg. wp_step. unfold wp, on_session. unfold pn_heap in Hs.
  rewrite Hs. destruct (m s) as [r s'] eqn:E. destruct (Hm r s' eq_refl) as (Hstep & Hsent & Hcan). simpl.
  apply HQ; [done| | | |].
  - split_and!; [exact Hi|exact Hst|]. intros n a Ha. simpl. rewrite lookup_insert. case_decide; [eauto|by apply (Hptr n)].
  - intros a x. unfold pn_heap. simpl. rewrite lookup_insert. case_decide; [|apply Hok].
    intros [= <-]. by apply (session_step_ok stream_err s); [|apply (Hok sess)].
  - split_and!; try done. exists s, s'. split_and!; try done. by apply rtc_once.
  - unfold pn_heap. simpl. apply lookup_insert_eq.
Qed.

Lemma wp_resolveResponse sess rid msg (p : Pn) :
  pinv p -> sessions_ok p -> is_Some (pn_heap p !! sess) ->
  wp (resolveResponse sess rid msg) (message_post sess p) p.
Proof.
  intros Hi Hok [s Hs]. unfold resolveResponse. wp_step.
  pose proof (Resolve_eq rid msg s (Hok _ _ Hs)) as Eres.
  apply (wp_own_session sess (ResolvePendingRequest rid msg) p _ s); [done|done|done| |].
  - intros r s' E. pose proof (sstep_resolve stream_err rid msg s) as Hstep. rewrite E in Hstep. split; [done|].
    rewrite Eres in E. by destruct (se_pendingReqs s !! rid); injection E as <- <-.
  - intros r p' <- Hi' Hok' Ht Hs'. rewrite Eres. destruct (se_pendingReqs s !! rid); simpl; wp_step; by split_and!.
Qed.

Lemma quiet_output node o : quiet_call (on_world (TaskHandler.HandleTaskOutput stamp hasPublisher node o)).
Proof.
  intros p ([Hi Hvi] & Hs & Hx). unfold on_world. wp_step. unfold TaskHandler.HandleTaskOutput.
  destruct (String.eqb (to_OutputChunk o) ""); [wp_step; by split_and!|]. do 2 wp_step. unfold World.on_tasks. wp_step.
  apply wp_intro. simpl. intros r r' E. destruct (dt_append_law _ _ _ _ _ Hi E) as (Hi' & _ & Hlaw).
  destruct r as [[]|e|w]; simpl; [|by split_and!|done]. unfold publishTaskOutput.
  destruct hasPublisher; [|wp_step; by split_and!].
  eapply wp_mono; [apply wp_announce|]. simpl. intros r w' (-> & Ht & Hv & _). split_and!; try done.
  split_and!; try done. split; simpl in *; [by rewrite Ht|by rewrite Hv].
Qed.

Lemma quiet_status node u :
  quiet_call (on_world (TaskHandler.HandleTaskStatusUpdate stamp hasServerRepo hasPublisher node u)).
Proof.
  intros p (Hi & Hs & Hx). unfold on_world. wp_step.
  eapply wp_mono; [by apply wp_HandleTaskStatusUpdate|]. intros r w' (Hi' & Hw & _). by split_and!.
Qed.

Lemma wp_processMessage sess node msg (p : Pn) :
  handlers_quiet -> pinv p -> sessions_ok p -> is_Some (pn_heap p !! sess) ->
  wp (processMessage stamp hasServerRepo hasPublisher h sess node msg) (message_post sess p) p.
Proof.
  intros (Hcmd & Hsts & Hatt & Hmet) Hi Hok Hs.
  assert (Hret : wp (ret tt) (message_post sess p) p).
  { wp_step. split_and!; try done. by apply touches_refl. }
  unfold processMessage, ifset. destruct (dm_Payload msg) as [r| |body|u|o|body|r|body|body|body|r|body|r|r|r|r|r|r|]; try done;
    try (by apply wp_resolveResponse).
  - destruct Hs as [s Hs]. unfold fresh_stamp, on_world. wp_step. wp_step. unfold wp at 1. simpl.
    set (p0 := mkPanel _ _ _).
    apply (wp_own_session sess _ p0 _ s); [by apply (pinv_same p)|exact Hok|exact Hs| |].
    + intros r s' [= <- <-]. split_and!; try done. apply (sstep_ping stream_err _ s).
    + intros r p' <- Hi' Hok' Ht _. by split_and!.
  - destruct (h_metrics h) as [f|] eqn:E; [|done]. apply quiet_post; auto.
  - destruct (h_tasks h); [|done]. apply quiet_post; [apply quiet_status|done..].
  - destruct (h_tasks h); [|done]. apply quiet_post; [apply quiet_output|done..].
  - destruct (h_command h) as [[f g]|] eqn:E; [|done]. apply quiet_post; [|done..]. by apply (Hcmd f g).
  - wp_step. assert (Hfst : wp (if String.eqb (rs_RequestId r) "" then ret tt else resolveResponse sess (rs_RequestId r) msg)
      (message_post sess p) p) by (destruct (String.eqb (rs_RequestId r) ""); [done|by apply wp_resolveResponse]).
    eapply wp_mono; [exact Hfst|]. intros res p1 (Hi1 & Hok1 & Ht1 & Hw1).
    destruct res as [[]|e|w]; [|by split_and!|by destruct (Hw1 w)].
    assert (Hs1 : is_Some (pn_heap p1 !! sess))
      by (destruct Ht1 as (_ & _ & s & s' & _ & Hq & _); rewrite Hq, lookup_insert_eq; eauto).
    destruct (h_command h) as [[f g]|] eqn:E; [|wp_step; by split_and!].
    eapply wp_mono; [apply (quiet_post sess); [|done..]; by apply (Hcmd f g)|].
    intros res p2 (Hi2 & Hok2 & Ht2 & Hw2). split_and!; [done|done|by eapply touches_trans|done].
  - destruct (h_attach h) as [[[f g] k]|] eqn:E; [|done]. apply quiet_post; [|done..]. by apply (Hatt f g k).
  - destruct (h_attach h) as [[[f g] k]|] eqn:E; [|done]. apply quiet_post; [|done..]. by apply (Hatt f g k).
  - destruct (h_attach h) as [[[f g] k]|] eqn:E; [|done]. apply quiet_post; [|done..]. by apply (Hatt f g k).
  - destruct (h_statuses h) as [f|] eqn:E; [|done]. apply quiet_post; auto.
Qed.

(** What ends a connection, among what was received. *)
Fixpoint first_end (l : list received) : option received :=
  match l with
  | [] => None
  | RecvMsg _ :: l => first_end l
  | e :: _ => Some e
  end.

Lemma wp_handleMessages sess node l : forall p : Pn,
  handlers_quiet -> pinv p -> sessions_ok p -> is_Some (pn_heap p !! sess) ->
  wp (handleMessages stamp hasServerRepo hasPublisher h sess node l) (fun r p' =>
    pinv p' /\ sessions_ok p' /\ touches sess p p' /\
    r = match first_end l with
        | None => Ok None
        | Some (RecvError e) => if stream_end e then Ok (Some tt) else Err e
        | Some _ => Ok (Some tt)
        end) p.
Proof.
  induction l as [|x l IH]; intros p Hq Hi Hok Hs; simpl.
  - wp_step. split_and!; try done. by apply touches_refl.
  - destruct x as [| |e|m]; [wp_step; split_and!; try done; by apply touches_refl..| |].
    + destruct (stream_end e); wp_step; split_and!; try done; by apply touches_refl.
    + do 2 wp_step. eapply wp_mono; [by apply wp_processMessage|]. intros r p1 (Hi1 & Hok1 & Ht1 & Hw).
      assert (Hs1 : is_Some (pn_heap p1 !! sess))
        by (destruct Ht1 as (_ & _ & s & s' & _ & Heq & _); rewrite Heq, lookup_insert_eq; eauto).
      destruct r as [[]|e|w]; [| |by destruct (Hw w)];
        (eapply wp_mono; [by apply IH|]; intros r p2 (Hi2 & Hok2 & Ht2 & ->); split_and!; [done|done|by eapply touches_trans|done]).
Qed.

(** ** Requests *)

(** A request is on its way: its session waits for the answer on [ch]. *)
Definition requested (nodeID : N) (payload : string -> GatewayPayload) (p : Pn) (sess : N) (id : string) (ch : N)
  (p1 : Pn) : Prop :=
  GetSession nodeID (pn_registry p) = Some sess /\ pn_locals p1 = pn_locals p /\
  exists s s1, pn_heap p !! sess = Some s /\ pn_heap p1 = <[sess := s1]> (pn_heap p) /\ pending_ok s1 /\
    awaiting id ch s1 /\ se_sent s1 = se_sent s ++ [mkGatewayMessage id (payload id)].

Lemma wp_request_start nodeID check failed payload (p : Pn) :
  pinv p -> sessions_ok p -> (forall s w, check s <> Panic w) ->
  wp (request_start stamp stream_err nodeID check failed payload) (fun r p1 =>
    pinv p1 /\ sessions_ok p1 /\
    match r with
    | Ok (sess, id, ch) => requested nodeID payload p sess id ch p1
    | Err _ => pn_locals p1 = pn_locals p /\
        forall a s, pn_heap p !! a = Some s -> exists s', pn_heap p1 !! a = Some s' /\ se_sent s' = se_sent s
    | Panic _ => False
    end) p.
Proof.
  intros Hi Hok Hch. pose proof Hi as (Hi1 & Hi2 & Hptr). unfold request_start. do 2 wp_step.
  assert (Hno : pinv p /\ sessions_ok p /\ pn_locals p = pn_locals p /\
     forall a s, pn_heap p !! a = Some s -> exists s', pn_heap p !! a = Some s' /\ se_sent s' = se_sent s)
    by (split_and!; [exact Hi|done|done|eauto]).
  destruct (GetSession nodeID (pn_registry p)) as [sess|] eqn:Eg; [|wp_step; exact Hno].
  destruct (Hptr _ _ Eg) as [s Hs]. rewrite Hs. do 2 wp_step.
  destruct (check s) as [[]|e|w] eqn:Ec; [|exact Hno|by apply Hch in Ec].
  wp_step. unfold fresh_stamp, on_world. wp_step. unfold wp at 1. simpl.
  set (id := st_id (stamp (w_clock (pn_world p)))). set (p0 := mkPanel (mkWorld _ _ _ _) _ _).
  wp_step. apply (wp_own_session sess (RegisterPendingRequest id) p0 _ s); [by apply (pinv_same p)|exact Hok|exact Hs| |].
  { intros r s' [= <- <-]. split_and!; try done. apply (sstep_register stream_err id s). }
  intros r p1 <- Hpi1 Hok1 Ht1 Hs1. cbn [fst snd RegisterPendingRequest] in *.
  set (s1 := se_set_pending _ _ _ s) in *. set (ch := se_nextChan s).
  assert (Haw : awaiting id ch s1) by apply lookup_insert_eq.
  destruct Ht1 as (Hl1 & _ & s0 & s1' & Hs0 & Hh1 & _ & _ & _).
  assert (s1' = s1) by (rewrite Hh1, lookup_insert_eq in Hs1; congruence). subst s1'.
  do 2 wp_step. unfold on_registry, on_reg. wp_step. apply wp_intro. unfold on_session. intros r reg E.
  change (rg_heap (pn_registry p1) !! sess) with (pn_heap p1 !! sess) in E. rewrite Hs1 in E.
  unfold Send in E. destruct Hpi1 as (Hi1' & Hi2' & Hptr').
  assert (Hptrok : forall s2, ptr_ok (rg_set_heap (<[sess := s2]> (rg_heap (pn_registry p1))) (pn_registry p1))).
  { intros s2 n a Ha. simpl. rewrite lookup_insert. case_decide; [eauto|by apply (Hptr' n)]. }
  assert (Hsok : forall s2, pending_ok s2 -> forall q : Pn, pn_heap q = <[sess := s2]> (pn_heap p1) -> sessions_ok q).
  { intros s2 Hpend q Hq a x. rewrite Hq, lookup_insert. case_decide; [by intros [= <-]|apply Hok1]. }
  assert (Hpend1 : pending_ok s1) by by apply (Hok1 sess).
  destruct (stream_err s1 (mkGatewayMessage id (payload id))) as [e|] eqn:Ee; injection E as <- <-.
  - wp_step. set (p2 := set_registry _ p1).
    assert (Hp2 : pn_heap p2 = <[sess := s1]> (pn_heap p1)) by done.
    apply (wp_own_session sess (CancelPendingRequest id) p2 _ s1).
    + split_and!; [exact Hi1'|exact Hi2'|apply Hptrok].
    + by eapply Hsok.
    + rewrite Hp2. apply lookup_insert_eq.
    + intros r s' E'. pose proof (sstep_drop stream_err id s1) as Hstep. rewrite E' in Hstep. split; [done|].
      rewrite CancelPending_eq in E' by done. by destruct (se_pendingReqs s1 !! id); injection E' as <- <-.
    + intros r p3 Hr Hpi3 Hok3 (Hl3 & _ & sa & sb & Hsa & Hh3 & _ & Hsent & _) Hs3.
      rewrite CancelPending_eq, Haw in Hr by done. simpl in Hr. subst r. wp_step. split_and!; try done.
      * exact (eq_trans Hl3 Hl1).
      * rewrite Hp2, lookup_insert_eq in Hsa. injection Hsa as <-.
        intros a x Hx. destruct (decide (a = sess)) as [->|Hne].
        -- change (pn_heap p0) with (pn_heap p) in *. rewrite Hh3, lookup_insert_eq. exists sb. split; [done|].
           unfold pn_heap in Hx. rewrite Hs in Hx. injection Hx as <-. by rewrite Hsent.
        -- exists x. rewrite Hh3, lookup_insert_ne by done. rewrite Hp2, lookup_insert_ne by done.
           by rewrite Hh1, lookup_insert_ne.
  - wp_step. split_and!.
    + split_and!; [exact Hi1'|exact Hi2'|apply Hptrok].
    + eapply Hsok; [|reflexivity]. by apply (session_step_ok stream_err s1); [|done];
        pose proof (sstep_send stream_err (mkGatewayMessage id (payload id)) s1) as Hst; unfold Send in Hst; rewrite Ee in Hst.
    + split; [done|]. split; [exact Hl1|]. exists s. eexists. split_and!.
      * exact Hs.
      * unfold pn_heap in *. simpl. rewrite Hh1. by rewrite insert_insert_eq.
      * pose proof (sstep_send stream_err (mkGatewayMessage id (payload id)) s1) as Hst. unfold Send in Hst. rewrite Ee in Hst.
        by apply (session_step_ok stream_err s1).
      * exact Haw.
      * done.
Qed.

(** The end of a request on its session: closing it forgets it. *)
Lemma wp_close sess id (p : Pn) s (Q0 : result unit -> Pn -> Prop) :
  pinv p -> sessions_ok p -> pn_heap p !! sess = Some s ->
  (forall p' s', pinv p' -> sessions_ok p' -> pn_locals p' = pn_locals p -> pn_heap p' = <[sess := s']> (pn_heap p) ->
     se_pendingReqs s' = delete id (se_pendingReqs s) -> Q0 (Ok tt) p') ->
  wp (on_registry (on_session sess (CancelPendingRequest id))) Q0 p.
Proof.
  intros Hi Hok Hs HQ. pose proof (CancelPending_eq id s (Hok _ _ Hs)) as E.
  apply (wp_own_session sess _ p _ s); [done|done|done| |].
  - intros r s' E'. pose proof (sstep_drop stream_err id s) as Hstep. rewrite E' in Hstep. split; [done|].
    rewrite E in E'. by destruct (se_pendingReqs s !! id); injection E' as <- <-.
  - intros r p' Hr Hi' Hok' (Hl & _ & s0 & s1 & Hs0 & Hh & _) Hs'. rewrite E in Hr, Hs'.
    rewrite Hh, lookup_insert_eq in Hs'. injection Hs' as Hs1.
    assert (Heq : r = Ok tt /\ se_pendingReqs s1 = delete id (se_pendingReqs s)).
    { rewrite Hs1, <- Hr. destruct (se_pendingReqs s !! id) eqn:Ep; simpl; [done|]. by rewrite delete_id. }
    destruct Heq as [-> Hp']. by apply (HQ p' s1).
Qed.

Lemma wp_request_end {A} (pick : DaemonMessage -> result A) w sess id ch (p : Pn) s ans :
  pinv p -> sessions_ok p -> pn_heap p !! sess = Some s ->
  match ans with None => awaiting id ch s | Some m => answered id ch m s end ->
  wp (request_end pick w (sess, id, ch)) (fun r p' => pinv p' /\ sessions_ok p' /\ pn_locals p' = pn_locals p /\
    match w, ans with
    | WakeResponse, None => r = Ok None /\ pn_heap p' = pn_heap p
    | WakeResponse, Some m => r = (let? a := pick m in Ok (Some a)) /\
        exists s', pn_heap p' = <[sess := s']> (pn_heap p) /\ se_pendingReqs s' !! id = None
    | WakeDone e, _ => r = Err e /\ exists s', pn_heap p' = <[sess := s']> (pn_heap p) /\ se_pendingReqs s' !! id = None
    end) p.
Proof.
  intros Hi Hok Hs Hans. unfold request_end. destruct w as [e|].
  - wp_step. apply (wp_close sess id p s); [done..|]. intros p' s' Hi' Hok' Hl Hh Hp. wp_step.
    split_and!; try done. exists s'. by rewrite Hp, lookup_delete_eq.
  - wp_step. destruct ans as [m|].
    + destruct Hans as [Hnone Hch].
      assert (Eaw : Await ch s = (Ok (Some (Some m)), se_set_pending (se_pendingReqs s)
        (<[ch := mkChan None true]> (se_chans s)) (se_nextChan s) s)) by (unfold Await; by rewrite Hch).
      apply (wp_own_session sess (Await ch) p _ s); [done|done|done| |].
      { intros r s' E. pose proof (sstep_await stream_err ch s) as Hstep. rewrite E in Hstep. split; [done|].
        rewrite Eaw in E. by injection E as <- <-. }
      intros r p1 <- Hi1 Hok1 (Hl1 & _ & s0 & s1 & Hs0 & Hh1 & _) Hs1. rewrite Eaw in *. cbn [fst snd] in *.
      wp_step. eapply (wp_close sess id p1); [done|done|exact Hs1|].
      intros p' s' Hi' Hok' Hl Hh Hp. do 2 wp_step. simpl in Hp.
      assert (Hpost : pinv p' /\ sessions_ok p' /\ pn_locals p' = pn_locals p /\
        exists s', pn_heap p' = <[sess := s']> (pn_heap p) /\ se_pendingReqs s' !! id = None).
      { split_and!; [done|done|congruence|]. exists s'. rewrite Hh, Hh1, insert_insert_eq, Hp, lookup_delete_eq. done. }
      destruct Hpost as (? & ? & ? & ?).
      destruct (pick m) as [a|e|w]; simpl; [wp_step|..]; by split_and!.
    + pose proof (pend_open s (Hok _ _ Hs) _ _ Hans) as Hch.
      assert (Eaw : Await ch s = (Ok None, s)) by (unfold Await; by rewrite Hch).
      apply (wp_own_session sess (Await ch) p _ s); [done|done|done| |].
      { intros r s' E. pose proof (sstep_await stream_err ch s) as Hstep. rewrite E in Hstep. split; [done|].
        rewrite Eaw in E. by injection E as <- <-. }
      intros r p1 <- Hi1 Hok1 (Hl1 & _ & s0 & s1 & Hs0 & Hh1 & _) Hs1. rewrite Eaw in *. cbn [fst snd] in *.
      wp_step. split_and!; try done. rewrite Hh1 in Hs1 |- *. rewrite lookup_insert_eq in Hs1. injection Hs1 as ->.
      by rewrite insert_id.
Qed.

(** The requests the gateway makes are a message to the node's session and a
    reading of its answer. *)
Definition is_request {A} (nodeID : N) (payload : string -> GatewayPayload) (pick : DaemonMessage -> result A)
  (rq : Request (R:=R) (V:=V) (Q:=Q) (P:=P) A) : Prop :=
  exists check failed, (forall s w, check s <> Panic w) /\
    rq = mkRequest _ (request_start stamp stream_err nodeID check failed payload) (request_end pick).

Lemma gateway_requests n path content pattern body sum user srv off len size mode uid gid b req :
  is_request n (fun _ => GM_FileRead path off len) (expect GetFileReadResponse)
    (RequestFileRead stamp stream_err n path off len) /\
  is_request n (fun _ => GM_FileWrite path content mode b user uid gid) written
    (RequestFileWrite stamp stream_err n path content mode b user uid gid) /\
  is_request n (fun _ => GM_FileList path b pattern) (expect GetFileListResponse)
    (RequestFileList stamp stream_err n path b pattern) /\
  is_request n (fun id => GM_FileOperation id body) (expect GetFileOperationResponse)
    (RequestFileOperation stamp stream_err n body) /\
  is_request n (fun _ => GM_Command req) (expect GetCommandResult) (RequestCommand stamp stream_err n req) /\
  is_request n (fun _ => GM_StatusRequest) (expect GetStatusResponse) (RequestStatus stamp stream_err n) /\
  is_request n (fun _ => GM_ConsoleLogRequest srv off) (expect GetConsoleLogResponse)
    (RequestConsoleLog stamp stream_err n srv off) /\
  is_request n (fun _ => GM_HttpProxy body) (expect GetHttpProxyResponse) (RequestHTTPProxy stamp stream_err n body) /\
  is_request n (fun _ => GM_FileUploadTask path content sum size mode user uid gid) written
    (RequestFileUploadTask stamp stream_err n path content sum size mode user uid gid) /\
  is_request n (fun _ => GM_FileDownloadTask path content) written
    (RequestFileDownloadTask stamp stream_err n path content).
Proof.
  unfold is_request. repeat apply conj.
  all: eexists; eexists; apply conj; [|reflexivity].
  all: intros s w; try discriminate.
  cbv beta. case_match; discriminate.
Qed.

(** C16: a connection registers a session only for a registration message of a
    known, enabled node with a valid key; then the node's session is a new
    empty one, the session it replaces is cancelled, and no other session or
    entry changes.  Any other first message is refused and changes nothing at
    all, in particular no task is reconciled on behalf of an unauthenticated
    daemon. *)
Theorem connect_needs_valid_key first (p : Pn) :
  gateway_ok -> pinv p ->
  let '(r, p') := connect_register stamp sha256 gc hasServerRepo hasPublisher h first p in
  match r with
  | Ok (a, reg, rid) => exists msg s, first = Ok msg /\ GetRegister msg = Some reg /\ rid = dm_RequestId msg /\
      authentic reg /\ new_session reg s /\ registered (rr_NodeId reg) a s p p' /\
      pinv p' /\ pn_settings p' = pn_settings p
  | Err _ => p' = p /\ ~ exists msg reg, first = Ok msg /\ GetRegister msg = Some reg /\ authentic reg
  | Panic _ => False
  end.
Proof.
  intros Hgw Hi. pose proof (wp_connect_register first p Hgw Hi) as Hwp.
  destruct (connect_register _ _ _ _ _ _ first p) as [r p'] eqn:E. exact (wp_run _ _ _ _ _ Hwp E).
Qed.

(** On stores that do not fail, the answer to a registration holds exactly
    the servers of the node, each once and with its start command filled in for
    the node's system, its waiting tasks in id order, the settings of those
    servers and no others, the enabled games and all game mods; building it
    changes nothing. *)
Lemma register_ack_content reg nodes mods games (p : Pn) :
  pinv p -> h_tasks h = true -> servers_total V -> DaemonTaskRepositoryTotal R -> settings_total (Q:=Q) ->
  gc_Nodes gc (rr_NodeId reg) = Ok nodes -> gc_GameMods gc = Ok mods -> gc_Games gc = Ok games ->
  exists ack, buildRegisterAck json_vars gc h reg p = (Ok ack, p) /\
    ack_content (rr_NodeId reg) nodes mods games p ack.
Proof. apply buildRegisterAck_total. Qed.

(** C17: when a daemon connects again while its earlier connection to this
    instance still runs, the earlier session is cancelled, so that connection
    ends; its deferred call then removes the node's session, which by then is
    the new one.  The new stream stays open and uncancelled, but the instance
    takes the node for disconnected and requests to it fail. *)
Theorem reconnect_drops_new_session f1 f2 (p p1 p2 : Pn) a b reg1 reg2 id1 id2 :
  gateway_ok -> pinv p ->
  connect_register stamp sha256 gc hasServerRepo hasPublisher h f1 p = (Ok (a, reg1, id1), p1) ->
  connect_register stamp sha256 gc hasServerRepo hasPublisher h f2 p1 = (Ok (b, reg2, id2), p2) ->
  rr_NodeId reg2 = rr_NodeId reg1 ->
  let '(r, p3) := connect_end stamp reg1 p2 in
  option_map se_cancelled (pn_heap p2 !! a) = Some true /\
  GetSession (rr_NodeId reg1) (pn_registry p2) = Some b /\
  r = Ok tt /\ IsConnected (rr_NodeId reg1) (pn_registry p3) = false /\
  option_map se_cancelled (pn_heap p3 !! b) = Some false /\
  forall check failed payload,
    fst (request_start stamp stream_err (rr_NodeId reg1) check failed payload p3) = Err (ENew "node not connected").
Proof.
  intros Hgw Hi E1 E2 Hn.
  destruct (wp_run _ _ _ _ _ (wp_connect_register f1 p Hgw Hi) E1)
    as (m1 & s1 & _ & _ & _ & _ & [t1 Hs1] & (Ha & Hl1 & Hh1) & Hi1 & _).
  destruct (wp_run _ _ _ _ _ (wp_connect_register f2 p1 Hgw Hi1) E2)
    as (m2 & s2 & _ & _ & _ & _ & [t2 Hs2] & (Hb & Hl2 & Hh2) & Hi2 & _).
  rewrite Hn in *. assert (Hold : pn_locals p1 !! rr_NodeId reg1 = Some a) by by rewrite Hl1, lookup_insert_eq.
  rewrite Hold in Hh2.
  assert (Ha1 : pn_heap p1 !! a = Some s1) by by rewrite Hh1, lookup_insert_eq.
  assert (Hab : b <> a) by (intros ->; congruence).
  pose proof (wp_connect_end reg1 p2 Hi2) as Hwp.
  destruct (connect_end stamp reg1 p2) as [r p3] eqn:E3.
  destruct (wp_run _ _ _ _ _ Hwp E3) as (-> & _ & Hh3 & Hl3 & _).
  assert (Hgone : GetSession (rr_NodeId reg1) (pn_registry p3) = None).
  { change (pn_locals p3 !! rr_NodeId reg1 = None). by rewrite Hl3, lookup_delete_eq. }
  split_and!.
  - rewrite Hh2, lookup_insert_ne by congruence. rewrite lookup_alter_eq, Ha1, Hs1. done.
  - change (pn_locals p2 !! rr_NodeId reg1 = Some b). by rewrite Hl2, lookup_insert_eq.
  - done.
  - unfold IsConnected. rewrite Hgone. by apply bool_decide_eq_false, is_Some_None.
  - rewrite Hh3, Hh2, lookup_insert_eq, Hs2. done.
  - intros check failed payload. unfold request_start, bind, get. by rewrite Hgone.
Qed.

(** C18: a request (reading, writing or listing files, running a command,
    asking for status or a console log, proxying, transferring files) sends one
    message with its own id on the node's session; whatever else happens on
    that session while it waits, it returns exactly the first answer sent for
    that id, read the way the request expects, and nothing before one came; a
    request that is done, answered or given up, leaves no trace among the
    waiting requests. *)
Theorem request_gets_addressed_answer {A} (rq : Request A) nodeID payload pick (p p1 p2 : Pn) sess id ch s1 evs :
  is_request nodeID payload pick rq -> pinv p -> sessions_ok p ->
  rq_start _ rq p = (Ok (sess, id, ch), p1) ->
  pn_heap p1 !! sess = Some s1 ->
  pinv p2 -> sessions_ok p2 ->
  pn_heap p2 !! sess = Some (foldl (fun s e => apply_event stream_err e s) s1 evs) ->
  Forall (foreign id ch) evs ->
  GetSession nodeID (pn_registry p) = Some sess /\
  (exists s, pn_heap p !! sess = Some s /\ se_sent s1 = se_sent s ++ [mkGatewayMessage id (payload id)]) /\
  (let '(r, p3) := rq_end _ rq WakeResponse (sess, id, ch) p2 in
   match first_answer id evs with
   | None => r = Ok None /\ pn_heap p3 = pn_heap p2
   | Some m => r = (let? a := pick m in Ok (Some a)) /\
       exists s', pn_heap p3 = <[sess := s']> (pn_heap p2) /\ se_pendingReqs s' !! id = None
   end) /\
  forall e, let '(r, p3) := rq_end _ rq (WakeDone e) (sess, id, ch) p2 in
    r = Err e /\ exists s', pn_heap p3 = <[sess := s']> (pn_heap p2) /\ se_pendingReqs s' !! id = None.
Proof.
  intros (check & failed & Hch & ->) Hi Hok Estart Hs1 Hi2 Hok2 Hs2 Hf. cbn [rq_start rq_end] in *.
  destruct (wp_run _ _ _ _ _ (wp_request_start nodeID check failed payload p Hi Hok Hch) Estart)
    as (_ & Hok1 & Hget & _ & s & s1' & Hs & Hh1 & Hp1 & Haw & Hsent).
  assert (s1' = s1) by (rewrite Hh1, lookup_insert_eq in Hs1; congruence). subst s1'.
  pose proof (run_awaiting stream_err id ch evs s1 Hp1 Haw Hf) as Hans.
  assert (Hend : forall w, wp (request_end pick w (sess, id, ch)) _ p2)
    by (intros w; exact (wp_request_end pick w sess id ch p2 _ (first_answer id evs) Hi2 Hok2 Hs2 Hans)).
  split_and!; [done|by exists s| |].
  - pose proof (Hend WakeResponse) as Hw. destruct (request_end pick WakeResponse (sess, id, ch) p2) as [r p3] eqn:E.
    destruct (wp_run _ _ _ _ _ Hw E) as (_ & _ & _ & Hr). exact Hr.
  - intros e. pose proof (Hend (WakeDone e)) as Hw.
    destruct (request_end pick (WakeDone e) (sess, id, ch) p2) as [r p3] eqn:E.
    destruct (wp_run _ _ _ _ _ Hw E) as (_ & _ & _ & Hr). exact Hr.
Qed.

(** Whatever a daemon sends, its connection changes no session but its
    own, no entry of the registry, and sends or cancels nothing on it; no
    message makes the panel panic, a message that fails is skipped, and the
    connection ends exactly at the first end of the stream, cancellation or
    receive error, of which only a true error is reported. *)
Lemma messages_touch_own_session sess node l (p : Pn) :
  handlers_quiet -> pinv p -> sessions_ok p -> is_Some (pn_heap p !! sess) ->
  let '(r, p') := handleMessages stamp hasServerRepo hasPublisher h sess node l p in
  pinv p' /\ sessions_ok p' /\ touches sess p p' /\
  r = match first_end l with
      | None => Ok None
      | Some (RecvError e) => if stream_end e then Ok (Some tt) else Err e
      | Some _ => Ok (Some tt)
      end.
Proof.
  intros Hq Hi Hok Hs. pose proof (wp_handleMessages sess node l p Hq Hi Hok Hs) as Hwp.
  destruct (handleMessages _ _ _ _ sess node l p) as [r p'] eqn:E. exact (wp_run _ _ _ _ _ Hwp E).
Qed.
End specs.


(** ** Examples: node 7 connects with its key, in-memory stores *)

Abbreviation SampleGateway := (Panel memTaskRepo (gmap N Server) memSettingRepo (list entry) DaemonMessage).

Definition sample_gateway_catalogue : GatewayCatalogue :=
  mkGatewayCatalogue (fun i => Ok (if (i =? 7)%N then [sample_node] else [])) (Ok []) (Ok []).
Definition sample_handlers : Handlers (R := memTaskRepo) (V := gmap N Server) (Q := memSettingRepo) (P := list entry) :=
  mkHandlers None true true None None None None.
Definition sample_gateway_stream (_ : Session DaemonMessage) (_ : GatewayMessage) : option error := None.
Definition sample_gateway : SampleGateway :=
  mkPanel (mkWorld sample_repo {[3%N := sample_server]} [] 100) sample_settings (NewRegistry "a").
Definition sample_hello : RegisterRequest := mkRegisterRequest 7 "key" "1.0" ["http_proxy"] [2%N].
Definition sample_digest (s : string) : string := s.

Definition sample_first : result DaemonMessage := Ok (mkDaemonMessage "hello" (DM_Register sample_hello)).
Abbreviation sample_connect := (connect_register (R := memTaskRepo) (V := gmap N Server) (Q := memSettingRepo)
  (P := list entry) sample_stamp sample_digest sample_gateway_catalogue true true sample_handlers sample_first).
Definition connected_once : SampleGateway := snd (sample_connect sample_gateway).
Definition connected_twice : SampleGateway := snd (sample_connect connected_once).
Definition first_session : N := fresh (∅ : gset N).
Definition second_session : N := fresh (dom (pn_heap connected_once)).

Lemma sample_gateway_ok : gateway_ok sample_gateway_catalogue sample_handlers.
Proof. split_and!; done. Defined.

Lemma sample_gateway_pinv : pinv sample_gateway.
Proof. split; [split; [exact (task_reachable_inv sample_repo sample_reachable)|exact I]|]. split; [apply sample_cinv|]. intros n a. done. Defined.

Lemma connect_needs_valid_key_witness :
  let '(r, p') := sample_connect sample_gateway in
  r = Ok (first_session, sample_hello, "hello"%string) /\
  exists s, pn_locals p' = {[7%N := first_session]} /\ pn_heap p' = {[first_session := s]} /\ se_sent s = [].
Proof.
  pose proof (connect_needs_valid_key sample_stamp sample_digest sample_gateway_catalogue true true sample_handlers
    sample_first sample_gateway sample_gateway_ok sample_gateway_pinv) as H.
  destruct (connect_register _ _ _ _ _ _ _ sample_gateway) as [r p'] eqn:E.
  assert (Hr : r = Ok (first_session, sample_hello, "hello"%string)).
  { transitivity (fst (sample_connect sample_gateway)); [by rewrite E|vm_compute; reflexivity]. }
  split; [exact Hr|]. subst r. destruct H as (_ & s & _ & _ & _ & _ & [now ->] & (_ & Hl & Hh) & _).
  eexists. split; [exact Hl|]. split; [exact Hh|reflexivity].
Defined.

(** The two connections, one after the other. *)
Lemma sample_connect_ok p a :
  fst (sample_connect p) = Ok (a, sample_hello, "hello"%string) ->
  sample_connect p = (Ok (a, sample_hello, "hello"%string), snd (sample_connect p)).
Proof. intros <-. apply surjective_pairing. Qed.

Lemma connect_first : sample_connect sample_gateway = (Ok (first_session, sample_hello, "hello"%string), connected_once).
Proof. apply sample_connect_ok. vm_compute. reflexivity. Qed.

Lemma connect_second : sample_connect connected_once = (Ok (second_session, sample_hello, "hello"%string), connected_twice).
Proof. apply sample_connect_ok. vm_compute. reflexivity. Qed.

Lemma reconnect_drops_new_session_witness :
  let '(r, p3) := connect_end sample_stamp sample_hello connected_twice in
  r = Ok tt /\ GetSession 7 (pn_registry connected_twice) = Some second_session /\
  IsConnected 7 (pn_registry p3) = false /\
  option_map se_cancelled (pn_heap p3 !! second_session) = Some false.
Proof.
  pose proof (reconnect_drops_new_session sample_stamp sample_gateway_stream sample_digest sample_gateway_catalogue
    true true sample_handlers sample_first sample_first sample_gateway connected_once connected_twice _ _ _ _ _ _ sample_gateway_ok
    sample_gateway_pinv connect_first connect_second eq_refl) as Hc.
  destruct (connect_end sample_stamp sample_hello connected_twice) as [r p3].
  destruct Hc as (_ & Hg & Hr & Hi & Hs & _). exact (conj Hr (conj Hg (conj Hi Hs))).
Defined.

(** Node 7 is asked for its status and answers another request first. *)
Abbreviation sample_request := (RequestStatus (R := memTaskRepo) (V := gmap N Server) (Q := memSettingRepo)
  (P := list entry) sample_stamp sample_gateway_stream 7).
Abbreviation sample_ask := (rq_start _ sample_request connected_once).
Lemma sample_request_start p : rq_start _ sample_request p =
  request_start sample_stamp sample_gateway_stream 7 no_check "send status request" (fun _ => GM_StatusRequest) p.
Proof. reflexivity. Qed.

Definition sample_answer (id : string) : DaemonMessage :=
  mkDaemonMessage "" (DM_StatusResponse (mkResponse id "up")).
Definition asked : SampleGateway := snd sample_ask.
Definition sample_asked : Session DaemonMessage :=
  default (NewSession 0 0 "" [] false) (pn_heap asked !! first_session).
Definition sample_id : string := FormatUint (w_clock (pn_world connected_once)).
Definition sample_events : list session_event :=
  [EvPing 9; EvResolve "other" (sample_answer "other"); EvResolve sample_id (sample_answer sample_id)].
Definition answered_session : Session DaemonMessage :=
  foldl (fun s e => apply_event sample_gateway_stream e s) sample_asked sample_events.
Definition answered_state : SampleGateway :=
  set_registry (rg_set_heap {[first_session := answered_session]} (pn_registry asked)) asked.

Lemma heap_set hp (q : SampleGateway) :
  pn_heap (set_registry (rg_set_heap hp (pn_registry q)) q) = hp.
Proof. reflexivity. Qed.

Lemma pinv_set_heap hp (q : SampleGateway) :
  pinv q -> (forall n a, pn_locals q !! n = Some a -> is_Some (hp !! a)) ->
  pinv (set_registry (rg_set_heap hp (pn_registry q)) q).
Proof. intros (Hi & Hs & _) Hp. split_and!; [exact Hi|exact Hs|exact Hp]. Qed.

(** What [wp] proves of a run from [connected_once]. *)
Lemma connected_ok : pinv connected_once /\ sessions_ok connected_once.
Proof.
  destruct (wp_run _ _ _ _ _ (wp_connect_register sample_stamp sample_digest sample_gateway_catalogue true true
    sample_handlers sample_first sample_gateway sample_gateway_ok sample_gateway_pinv) connect_first)
    as (msg & s & _ & _ & _ & _ & [now ->] & (_ & _ & Hh) & Hi & _).
  split; [exact Hi|]. intros a s Hs. rewrite Hh in Hs. change (pn_heap sample_gateway) with (∅ : gmap N (Session DaemonMessage)) in Hs.
  simpl in Hs. apply lookup_singleton_Some in Hs as [_ <-].
  by eapply (session_reachable_ok sample_gateway_stream), rtc_refl.
Qed.

Lemma asked_ok :
  sample_ask = (Ok (first_session, sample_id, 0%N), asked) /\ pn_heap asked !! first_session = Some sample_asked /\
  pinv answered_state /\ sessions_ok answered_state.
Proof.
  destruct connected_ok as [Hi Hok].
  assert (Hr : fst sample_ask = Ok (first_session, sample_id, 0%N)) by (vm_compute; reflexivity).
  assert (E : sample_ask = (Ok (first_session, sample_id, 0%N), asked)) by (rewrite <- Hr; apply surjective_pairing).
  pose proof E as E'. rewrite sample_request_start in E'.
  destruct (wp_run _ _ _ _ _ (wp_request_start sample_stamp sample_gateway_stream 7 no_check "send status request"
    (fun _ => GM_StatusRequest) connected_once Hi Hok ltac:(done)) E') as ((Hi1 & Hs1 & Hp1) & Hok1 & _).
  assert (Hsome : is_Some (pn_heap asked !! first_session)) by (vm_compute; eauto).
  assert (Ha : pn_heap asked !! first_session = Some sample_asked)
    by (unfold sample_asked; by destruct Hsome as [s ->]).
  assert (Hl : pn_locals asked = {[7%N := first_session]}) by (vm_compute; reflexivity).
  split; [exact E|]. split; [exact Ha|]. split.
  - apply pinv_set_heap; [exact (conj Hi1 (conj Hs1 Hp1))|]. intros n a Hn. rewrite Hl in Hn.
    apply lookup_singleton_Some in Hn as [_ <-]. exists answered_session. apply lookup_singleton_eq.
  - intros a s Hs. unfold answered_state in Hs. rewrite heap_set in Hs.
    apply lookup_singleton_Some in Hs as [_ <-]. apply run_events_ok. exact (Hok1 first_session _ Ha).
Qed.

Lemma request_gets_addressed_answer_witness :
  first_answer sample_id sample_events = Some (sample_answer sample_id) /\
  (let '(r, p3) := rq_end _ sample_request WakeResponse (first_session, sample_id, 0%N) answered_state in
   r = Ok (Some (mkResponse sample_id "up")) /\
   exists s', pn_heap p3 = <[first_session := s']> (pn_heap answered_state) /\ se_pendingReqs s' !! sample_id = None).
Proof.
  destruct connected_ok as [Hi Hok]. destruct asked_ok as (E & Ha & Hi2 & Hok2).
  assert (Hf : Forall (foreign sample_id 0) sample_events) by (repeat constructor; discriminate).
  assert (Hfirst : first_answer sample_id sample_events = Some (sample_answer sample_id)) by (vm_compute; reflexivity).
  assert (Hs2 : pn_heap answered_state !! first_session =
    Some (foldl (fun s e => apply_event sample_gateway_stream e s) sample_asked sample_events))
    by (unfold answered_state; rewrite heap_set; apply lookup_singleton_eq).
  destruct (gateway_requests (R := memTaskRepo) (V := gmap N Server) (Q := memSettingRepo) (P := list entry)
    sample_stamp sample_gateway_stream 7 "" "" "" "" "" "" 0 0 0 0 0 0 0 false (mkCommandRequest "" 0 "" 0))
    as (_ & _ & _ & _ & _ & Hrq & _).
  destruct (request_gets_addressed_answer sample_stamp sample_gateway_stream sample_request 7 (fun _ => GM_StatusRequest)
    (expect GetStatusResponse) connected_once asked answered_state first_session sample_id 0 sample_asked sample_events
    Hrq Hi Hok E Ha Hi2 Hok2 Hs2 Hf) as (_ & _ & Hend & _).
  split; [exact Hfirst|]. rewrite Hfirst in Hend.
  destruct (rq_end _ sample_request WakeResponse (first_session, sample_id, 0%N) answered_state) as [r p3].
  destruct Hend as [-> Hs']. split; [reflexivity|exact Hs'].
Defined.

(** Node 7 pings, finishes task 2 and leaves. *)
Definition sample_stream_in : list received :=
  [RecvMsg (mkDaemonMessage "" DM_Heartbeat);
   RecvMsg (mkDaemonMessage "" (DM_TaskStatus (mkStatusUpdate 2 TASK_STATUS_SUCCESS "")));
   RecvMsg (mkDaemonMessage "" (DM_TaskStatus (mkStatusUpdate 9 TASK_STATUS_SUCCESS "")));
   RecvError (EWrap "recv" io_EOF)].
Abbreviation sample_handle := (handleMessages sample_stamp true true sample_handlers first_session 7 sample_stream_in).

