(* ===== verification/RBACRepo.v ===== *)
(** Roles, abilities and permissions ([internal/domain/rbac.go],
    [internal/domain/entity.go]), what the access control service asks of its
    repository ([internal/rbac/contracts.go]) as a class with laws, and the
    in-memory repository ([internal/repositories/inmemory/rbac.go]) that meets
    them.  Go iterates over a map in an order of its choice: every loop over a
    map takes its order from [MapOrder]. *)

From S2P Require Import Prelude.
From S2P Require Import GoNum.
From S2P Require Import Domain.
From S2P Require Import GoRuntime.
From stdpp Require Import base tactics strings list gmap numbers.
From Stdlib Require Import NArith ZArith.

(** ** Domain *)

Definition EntityType : Type := string.
Definition EntityTypeUser : EntityType := "Gameap\Models\User".
Definition EntityTypeServer : EntityType := "Gameap\Models\Server".
Definition EntityTypeNode : EntityType := "Gameap\Models\DedicatedServer".
Definition EntityTypeRole : EntityType := "roles".

Record Ability : Type := mkAbility {
  ab_ID : N;
  ab_Name : string;
  ab_Title : option string;
  ab_EntityID : option N;
  ab_EntityType : option EntityType;
  ab_OnlyOwned : bool;
  ab_Options : option string;
  ab_Scope : option Z;
  ab_CreatedAt : option time;
  ab_UpdatedAt : option time;
}.

Definition CreateAbilityForEntity (created updated : time) (name : string) (entityID : N) (entityType : EntityType) : Ability :=
  mkAbility 0 name None (Some entityID) (Some entityType) false None None (Some created) (Some updated).

Record Role : Type := mkRole {
  rl_ID : N;
  rl_Name : string;
  rl_Title : option string;
  rl_Level : option N;
  rl_Scope : option Z;
  rl_CreatedAt : option time;
  rl_UpdatedAt : option time;
}.

Record RestrictedRole : Type := mkRestrictedRole {
  rs_Role : Role;
  rs_RestrictedToID : option N;
  rs_RestrictedToType : option EntityType;
}.

Definition NewRestrictedRoleFromRole (role : Role) : RestrictedRole := mkRestrictedRole role None None.

Record Permission : Type := mkPermission {
  pm_ID : N;
  pm_AbilityID : N;
  pm_EntityID : option N;
  pm_EntityType : option EntityType;
  pm_Forbidden : bool;
  pm_Scope : option Z;
  pm_Ability : option Ability;
}.

Record AssignedRole : Type := mkAssignedRole {
  as_ID : N;
  as_RoleID : N;
  as_EntityID : N;
  as_EntityType : EntityType;
  as_RestrictedToID : option N;
  as_RestrictedToType : option EntityType;
  as_Scope : option Z;
}.

(** ** What a permission grants *)

(** The key under which abilities count as one: name, entity type, entity id
    and scope. *)
Record akey : Type := mkKey { k_Name : string; k_EntityType : option EntityType; k_EntityID : option N; k_Scope : option Z }.
#[export] Instance akey_eq_dec : EqDecision akey.
Proof. solve_decision. Defined.

Definition key_of (a : Ability) : akey := mkKey (ab_Name a) (ab_EntityType a) (ab_EntityID a) (ab_Scope a).

(** An ability and whether it is forbidden. *)
Record grant : Type := mkGrant { g_Key : akey; g_Forbidden : bool }.

Definition grant_of (p : Permission) : option grant :=
  a ← pm_Ability p; Some (mkGrant (key_of a) (pm_Forbidden p)).

(** ** The contract *)

Class RBACRepository (R : Type) : Type := {
  RB_GetRoles : M R (list Role);
  RB_GetPermissions : N -> EntityType -> M R (list Permission);
  RB_GetRolesForEntity : N -> EntityType -> M R (list RestrictedRole);
  RB_AssignRolesForEntity : N -> EntityType -> list RestrictedRole -> M R unit;
  RB_ClearRolesForEntity : N -> EntityType -> M R unit;
  RB_Allow : N -> EntityType -> list Ability -> M R unit;
  RB_Forbid : N -> EntityType -> list Ability -> M R unit;
  RB_Revoke : N -> EntityType -> list Ability -> M R unit;
}.

(** [rb_grants r e t] is what entity [e] of type [t] holds, [rb_roles r e t] the
    roles assigned to it, [rb_catalogue] the roles there are, up to order;
    [rb_room n] says that [n] more rows can be given a fresh id.  A read may
    move what decides the order of the next one, and nothing else. *)
Class RBACRepositoryLaws (R : Type) `{RBACRepository R} : Type := {
  rb_inv : R -> Prop;
  rb_grants : R -> N -> EntityType -> list grant;
  rb_roles : R -> N -> EntityType -> list RestrictedRole;
  rb_catalogue : R -> list Role;
  rb_room : nat -> R -> Prop;
  rb_room_weaken : forall n m r, n <= m -> rb_room m r -> rb_room n r;
  rb_get_roles_law : forall r res r', rb_inv r -> RB_GetRoles r = (res, r') ->
    rb_inv r' /\ rb_grants r' = rb_grants r /\ rb_roles r' = rb_roles r /\ rb_catalogue r' = rb_catalogue r /\ (forall n, rb_room n r -> rb_room n r') /\
    match res with Ok l => l ≡ₚ rb_catalogue r | Err _ => True | Panic _ => False end;
  rb_permissions_law : forall e t r res r', rb_inv r -> RB_GetPermissions e t r = (res, r') ->
    rb_inv r' /\ rb_grants r' = rb_grants r /\ rb_roles r' = rb_roles r /\ rb_catalogue r' = rb_catalogue r /\ (forall n, rb_room n r -> rb_room n r') /\
    match res with Ok l => omap grant_of l ≡ₚ rb_grants r e t | Err _ => True | Panic _ => False end;
  rb_roles_law : forall e t r res r', rb_inv r -> RB_GetRolesForEntity e t r = (res, r') ->
    rb_inv r' /\ rb_grants r' = rb_grants r /\ rb_roles r' = rb_roles r /\ rb_catalogue r' = rb_catalogue r /\ (forall n, rb_room n r -> rb_room n r') /\
    match res with Ok l => l ≡ₚ rb_roles r e t | Err _ => True | Panic _ => False end;
  rb_allow_law : forall (forbidden : bool) e t l r res r', rb_inv r -> rb_room (length l) r ->
    (if forbidden then RB_Forbid e t l r else RB_Allow e t l r) = (res, r') ->
    rb_inv r' /\ rb_roles r' = rb_roles r /\ rb_catalogue r' = rb_catalogue r /\
    (forall n, rb_room (length l + n) r -> rb_room n r') /\
    match res with
    | Ok _ => rb_grants r' e t ≡ₚ map (fun a => mkGrant (key_of a) forbidden) l ++ rb_grants r e t /\
        forall e' t', (e', t') <> (e, t) -> rb_grants r' e' t' ≡ₚ rb_grants r e' t'
    | Err _ => True
    | Panic _ => False
    end;
  rb_revoke_law : forall e t l r res r', rb_inv r -> RB_Revoke e t l r = (res, r') ->
    rb_inv r' /\ rb_roles r' = rb_roles r /\ rb_catalogue r' = rb_catalogue r /\
    (forall n, rb_room n r -> rb_room n r') /\
    match res with
    | Ok _ => rb_grants r' e t ≡ₚ filter (fun g => g_Key g ∉ map key_of l) (rb_grants r e t) /\
        forall e' t', (e', t') <> (e, t) -> rb_grants r' e' t' ≡ₚ rb_grants r e' t'
    | Err _ => True
    | Panic _ => False
    end;
  rb_clear_law : forall e t r res r', rb_inv r -> RB_ClearRolesForEntity e t r = (res, r') ->
    rb_inv r' /\ rb_grants r' = rb_grants r /\ rb_catalogue r' = rb_catalogue r /\
    (forall n, rb_room n r -> rb_room n r') /\
    match res with
    | Ok _ => rb_roles r' e t = [] /\ forall e' t', (e', t') <> (e, t) -> rb_roles r' e' t' ≡ₚ rb_roles r e' t'
    | Err _ => True
    | Panic _ => False
    end;
  rb_assign_law : forall e t l r res r', rb_inv r -> rb_room (length l) r ->
    RB_AssignRolesForEntity e t l r = (res, r') ->
    rb_inv r' /\ rb_grants r' = rb_grants r /\ rb_catalogue r' = rb_catalogue r /\
    (forall n, rb_room (length l + n) r -> rb_room n r') /\
    match res with
    | Ok _ =>
        (forall x, x ∈ rb_roles r' e t <-> x ∈ rb_roles r e t \/
           exists role y, role ∈ l /\ y ∈ rb_catalogue r /\ rl_ID y = rl_ID (rs_Role role) /\
             x = mkRestrictedRole y (rs_RestrictedToID role) (rs_RestrictedToType role)) /\
        forall e' t', (e', t') <> (e, t) -> rb_roles r' e' t' ≡ₚ rb_roles r e' t'
    | Err _ => True
    | Panic _ => False
    end;
}.

(** ** The in-memory repository *)

Record memRBAC : Type := mkMemRBAC {
  rm_roles : gmap N Role;
  rm_assignedRoles : gmap N AssignedRole;
  rm_abilities : gmap N Ability;
  rm_permissions : gmap N Permission;
  rm_nextRoleID : N;
  rm_nextAssignedID : N;
  rm_nextAbilityID : N;
  rm_nextPermissionID : N;
  rm_iterations : N;
}.

Definition NewRBACRepository : memRBAC := mkMemRBAC ∅ ∅ ∅ ∅ 0 0 0 0 0.

Definition rm_set_role i (m : gmap N Role) r := mkMemRBAC m (rm_assignedRoles r) (rm_abilities r) (rm_permissions r)
  i (rm_nextAssignedID r) (rm_nextAbilityID r) (rm_nextPermissionID r) (rm_iterations r).
Definition rm_set_assigned i (m : gmap N AssignedRole) r := mkMemRBAC (rm_roles r) m (rm_abilities r) (rm_permissions r)
  (rm_nextRoleID r) i (rm_nextAbilityID r) (rm_nextPermissionID r) (rm_iterations r).
Definition rm_set_ability i (m : gmap N Ability) r := mkMemRBAC (rm_roles r) (rm_assignedRoles r) m (rm_permissions r)
  (rm_nextRoleID r) (rm_nextAssignedID r) i (rm_nextPermissionID r) (rm_iterations r).
Definition rm_set_permission i (m : gmap N Permission) r := mkMemRBAC (rm_roles r) (rm_assignedRoles r) (rm_abilities r) m
  (rm_nextRoleID r) (rm_nextAssignedID r) (rm_nextAbilityID r) i (rm_iterations r).
Definition rm_iterated r := mkMemRBAC (rm_roles r) (rm_assignedRoles r) (rm_abilities r) (rm_permissions r)
  (rm_nextRoleID r) (rm_nextAssignedID r) (rm_nextAbilityID r) (rm_nextPermissionID r) (rm_iterations r + 1).

(** [uint(counter.Add(1))] on an [atomic.Uint32]. *)
Definition next_id (n : N) : N := wrap32 (n + 1).

Section rbac.
Context `{MapOrder}.

(** [for _, x := range m]: the values in the order of this iteration. *)
Definition ranging {V} (m : memRBAC -> gmap N V) : M memRBAC (list V) := fun r =>
  (Ok (map snd (range (rm_iterations r) (m r))), rm_iterated r).

Definition GetRoles : M memRBAC (list Role) := ranging rm_roles.

Definition opt_is {A} `{EqDecision A} (o : option A) (x : A) : bool := bool_decide (o = Some x).

Definition GetRolesForEntity (entityID : N) (entityType : EntityType) : M memRBAC (list RestrictedRole) :=
  let! assigned := ranging rm_assignedRoles in
  let! r := get in
  ret (omap (fun a =>
    if (as_EntityID a =? entityID)%N && String.eqb (as_EntityType a) entityType then
      role ← rm_roles r !! as_RoleID a;
      Some (mkRestrictedRole role (as_RestrictedToID a) (as_RestrictedToType a))
    else None) assigned).

Definition pm_set_ability (a : option Ability) (p : Permission) : Permission :=
  mkPermission (pm_ID p) (pm_AbilityID p) (pm_EntityID p) (pm_EntityType p) (pm_Forbidden p) (pm_Scope p) a.

(** The copy of a permission with its ability attached, if there is one. *)
Definition attach (r : memRBAC) (p : Permission) : Permission :=
  match rm_abilities r !! pm_AbilityID p with Some a => pm_set_ability (Some a) p | None => p end.

Definition belongs_to (entityID : N) (entityType : EntityType) (p : Permission) : bool :=
  opt_is (pm_EntityID p) entityID && opt_is (pm_EntityType p) entityType.

Definition GetPermissions (entityID : N) (entityType : EntityType) : M memRBAC (list Permission) :=
  let! permissions := ranging rm_permissions in
  let! r := get in
  ret (map (attach r) (filter (fun p => belongs_to entityID entityType p = true) permissions)).

(** The saves return what the pointer holds afterwards. *)
Definition SaveRole (role : Role) : M memRBAC Role := fun r =>
  let n := if (rl_ID role =? 0)%N then next_id (rm_nextRoleID r) else rm_nextRoleID r in
  let id := if (rl_ID role =? 0)%N then n else rl_ID role in
  let role := mkRole id (rl_Name role) (rl_Title role) (rl_Level role) (rl_Scope role) (rl_CreatedAt role) (rl_UpdatedAt role) in
  (Ok role, rm_set_role n (<[id := role]> (rm_roles r)) r).

Definition SaveAssignedRole (a : AssignedRole) : M memRBAC AssignedRole := fun r =>
  let n := if (as_ID a =? 0)%N then next_id (rm_nextAssignedID r) else rm_nextAssignedID r in
  let id := if (as_ID a =? 0)%N then n else as_ID a in
  let a := mkAssignedRole id (as_RoleID a) (as_EntityID a) (as_EntityType a) (as_RestrictedToID a) (as_RestrictedToType a) (as_Scope a) in
  (Ok a, rm_set_assigned n (<[id := a]> (rm_assignedRoles r)) r).

Definition DeleteRole (id : N) : M memRBAC unit :=
  modify (fun r => rm_set_role (rm_nextRoleID r) (delete id (rm_roles r)) r).
Definition DeleteAssignedRole (id : N) : M memRBAC unit :=
  modify (fun r => rm_set_assigned (rm_nextAssignedID r) (delete id (rm_assignedRoles r)) r).

Definition ab_set_id (id : N) (a : Ability) : Ability :=
  mkAbility id (ab_Name a) (ab_Title a) (ab_EntityID a) (ab_EntityType a) (ab_OnlyOwned a) (ab_Options a) (ab_Scope a)
    (ab_CreatedAt a) (ab_UpdatedAt a).

Definition SaveAbility (a : Ability) : M memRBAC Ability := fun r =>
  let n := if (ab_ID a =? 0)%N then next_id (rm_nextAbilityID r) else rm_nextAbilityID r in
  let a := if (ab_ID a =? 0)%N then ab_set_id n a else a in
  (Ok a, rm_set_ability n (<[ab_ID a := a]> (rm_abilities r)) r).

Definition SavePermission (p : Permission) : M memRBAC Permission := fun r =>
  let n := if (pm_ID p =? 0)%N then next_id (rm_nextPermissionID r) else rm_nextPermissionID r in
  let id := if (pm_ID p =? 0)%N then n else pm_ID p in
  let row := mkPermission id (pm_AbilityID p) (pm_EntityID p) (pm_EntityType p) (pm_Forbidden p) (pm_Scope p) in
  (Ok (row (pm_Ability p)), rm_set_permission n (<[id := row None]> (rm_permissions r)) r).

Definition AssignAbilityToUser (userID abilityID : N) : M memRBAC unit :=
  let! _ := SavePermission (mkPermission 0 abilityID (Some userID) (Some EntityTypeUser) false None None) in ret tt.

(** The loop that looks for this exact assignment. *)
Definition assigned_already (entityID : N) (entityType : EntityType) (role : RestrictedRole) (l : list AssignedRole) : bool :=
  existsb (fun a => (as_EntityID a =? entityID)%N && String.eqb (as_EntityType a) entityType &&
    (as_RoleID a =? rl_ID (rs_Role role))%N && bool_decide (as_RestrictedToID a = rs_RestrictedToID role) &&
    bool_decide (as_RestrictedToType a = rs_RestrictedToType role)) l.

Definition AssignRolesForEntity (entityID : N) (entityType : EntityType) (roles : list RestrictedRole) : M memRBAC unit :=
  for_each roles (fun role =>
    let! assigned := ranging rm_assignedRoles in
    if assigned_already entityID entityType role assigned then ret tt
    else modify (fun r =>
      let id := next_id (rm_nextAssignedID r) in
      rm_set_assigned id (<[id := mkAssignedRole id (rl_ID (rs_Role role)) entityID entityType
        (rs_RestrictedToID role) (rs_RestrictedToType role) (rl_Scope (rs_Role role))]> (rm_assignedRoles r)) r)).

Definition ClearRolesForEntity (entityID : N) (entityType : EntityType) : M memRBAC unit :=
  modify (fun r => rm_set_assigned (rm_nextAssignedID r)
    (filter (fun kv => (as_EntityID kv.2 =? entityID)%N && String.eqb (as_EntityType kv.2) entityType = false)
       (rm_assignedRoles r)) r).

Definition abilitiesMatch (a b : Ability) : bool :=
  String.eqb (ab_Name a) (ab_Name b) && bool_decide (ab_EntityID a = ab_EntityID b) &&
  bool_decide (ab_EntityType a = ab_EntityType b) && bool_decide (ab_Scope a = ab_Scope b).

Definition first_match (a : Ability) (l : list Ability) : option Ability :=
  List.find (fun b => abilitiesMatch b a) l.

Definition saveOrGetAbility (a : Ability) : M memRBAC N :=
  let! existing := ranging rm_abilities in
  match first_match a existing with
  | Some b => ret (ab_ID b)
  | None => fun r =>
      let id := next_id (rm_nextAbilityID r) in
      (Ok id, rm_set_ability id (<[id := ab_set_id id a]> (rm_abilities r)) r)
  end.

Fixpoint findAbilityIDs (abilities : list Ability) : M memRBAC (list N) :=
  match abilities with
  | [] => ret []
  | a :: abilities =>
      let! existing := ranging rm_abilities in
      let! ids := findAbilityIDs abilities in
      ret (match first_match a existing with Some b => ab_ID b :: ids | None => ids end)
  end.

Definition applyAbilities (entityID : N) (entityType : EntityType) (abilities : list Ability) (forbidden : bool)
  : M memRBAC unit :=
  match abilities with
  | [] => ret tt
  | _ =>
      do! for_each abilities (fun a => let! _ := saveOrGetAbility a in ret tt) ;;
      let! abilityIDs := findAbilityIDs abilities in
      for_each abilityIDs (fun abilityID => modify (fun r =>
        let id := next_id (rm_nextPermissionID r) in
        rm_set_permission id (<[id := mkPermission id abilityID (Some entityID) (Some entityType) forbidden None None]>
          (rm_permissions r)) r))
  end.

Definition Allow (entityID : N) (entityType : EntityType) (abilities : list Ability) : M memRBAC unit :=
  applyAbilities entityID entityType abilities false.
Definition Forbid (entityID : N) (entityType : EntityType) (abilities : list Ability) : M memRBAC unit :=
  applyAbilities entityID entityType abilities true.

Definition Revoke (entityID : N) (entityType : EntityType) (abilities : list Ability) : M memRBAC unit :=
  match abilities with
  | [] => ret tt
  | _ =>
      let! abilityIDs := findAbilityIDs abilities in
      match abilityIDs with
      | [] => ret tt
      | _ => modify (fun r => rm_set_permission (rm_nextPermissionID r)
          (filter (fun kv => belongs_to entityID entityType kv.2 && bool_decide (pm_AbilityID kv.2 ∈ abilityIDs) = false)
             (rm_permissions r)) r)
      end
  end.

#[export] Instance memRBAC_repository : RBACRepository memRBAC := {
  RB_GetRoles := GetRoles;
  RB_GetPermissions := GetPermissions;
  RB_GetRolesForEntity := GetRolesForEntity;
  RB_AssignRolesForEntity := AssignRolesForEntity;
  RB_ClearRolesForEntity := ClearRolesForEntity;
  RB_Allow := Allow;
  RB_Forbid := Forbid;
  RB_Revoke := Revoke;
}.
End rbac.

(** ** Correctness of the in-memory repository *)

Definition values {V} (m : gmap N V) : list V := map snd (map_to_list m).

Lemma values_insert {V} (m : gmap N V) i x : m !! i = None -> values (<[i := x]> m) ≡ₚ x :: values m.
Proof. intros Hi. unfold values. by rewrite map_to_list_insert. Qed.

Section value_lemmas.
Context {V : Type}.

Lemma values_omap {W} (f : V -> option W) (m : gmap N V) : values (omap f m) ≡ₚ omap f (values m).
Proof.
  induction m as [|i x m Hi IH] using map_ind.
  - rewrite omap_empty. unfold values. by rewrite !map_to_list_empty.
  - rewrite (values_insert m i x Hi). simpl. destruct (f x) as [y|] eqn:Ef.
    + rewrite (omap_insert_Some f m i x y Ef). rewrite values_insert, IH; [done|]. by rewrite lookup_omap, Hi.
    + rewrite (omap_insert_None f m i x Ef), delete_id; [done|]. by rewrite lookup_omap, Hi.
Qed.

Lemma elem_of_values (m : gmap N V) x : x ∈ values m <-> exists i, m !! i = Some x.
Proof.
  unfold values. rewrite list_elem_of_fmap. split.
  - intros ([i y] & -> & Hy). apply elem_of_map_to_list in Hy. by exists i.
  - intros [i Hi]. exists (i, x). split; [done|]. by apply elem_of_map_to_list.
Qed.

Lemma omap_cons {W} (f : V -> option W) x (l : list V) :
  omap f (x :: l) = match f x with Some y => y :: omap f l | None => omap f l end.
Proof. done. Qed.
End value_lemmas.

Lemma perm_of_eq {A} (l l' : list A) : l = l' -> l ≡ₚ l'.
Proof. by intros ->. Qed.

Lemma omap_filter_bool {V W} (P : V -> bool) (f : V -> option W) (l : list V) :
  omap f (filter (fun x => P x = true) l) = omap (fun x => if P x then f x else None) l.
Proof.
  induction l as [|x l IH]; [done|]. rewrite list.filter_cons, (omap_cons _ x l).
  case_decide as Hp; [rewrite Hp, omap_cons; by rewrite IH|]. by destruct (P x).
Qed.

Lemma omap_map_list {U V W} (f : U -> V) (g : V -> option W) (l : list U) :
  omap g (map f l) = omap (fun x => g (f x)) l.
Proof. induction l as [|x l IH]; [done|]. simpl map. by rewrite !omap_cons, IH. Qed.

#[export] Instance omap_perm {V W} (f : V -> option W) : Proper ((≡ₚ) ==> (≡ₚ)) (omap (M:=list) f).
Proof. intros l l' Hl. induction Hl; simpl; repeat case_match; simpl; eauto using perm_swap, Permutation_trans. Qed.

Section rbac_specs.
Context `{MapOrder}.

Lemma ranging_spec {V} (m : memRBAC -> gmap N V) r :
  exists l, ranging m r = (Ok l, rm_iterated r) /\ l ≡ₚ values (m r).
Proof. eexists. split; [reflexivity|]. unfold values. apply fmap_Permutation, range_perm. Qed.

(** What a stored permission, or a stored assignment, gives an entity. *)
Definition grant_row (r : memRBAC) (e : N) (t : EntityType) (p : Permission) : option grant :=
  if belongs_to e t p then grant_of (attach r p) else None.
Definition mem_grants (r : memRBAC) (e : N) (t : EntityType) : list grant :=
  values (omap (grant_row r e t) (rm_permissions r)).

Definition role_row (r : memRBAC) (e : N) (t : EntityType) (a : AssignedRole) : option RestrictedRole :=
  if (as_EntityID a =? e)%N && String.eqb (as_EntityType a) t then
    role ← rm_roles r !! as_RoleID a; Some (mkRestrictedRole role (as_RestrictedToID a) (as_RestrictedToType a))
  else None.
Definition mem_roles (r : memRBAC) (e : N) (t : EntityType) : list RestrictedRole :=
  values (omap (role_row r e t) (rm_assignedRoles r)).

Record rm_ok (r : memRBAC) : Prop := {
  ok_role_id : forall i x, rm_roles r !! i = Some x -> rl_ID x = i;
  ok_ability_id : forall i a, rm_abilities r !! i = Some a -> ab_ID a = i;
  ok_unique : forall i j a b, rm_abilities r !! i = Some a -> rm_abilities r !! j = Some b -> key_of a = key_of b -> i = j;
  ok_attached : forall i p, rm_permissions r !! i = Some p -> is_Some (rm_abilities r !! pm_AbilityID p) /\ pm_Ability p = None;
  ok_ability_fresh : forall i, is_Some (rm_abilities r !! i) -> (i <= rm_nextAbilityID r)%N;
  ok_permission_fresh : forall i, is_Some (rm_permissions r !! i) -> (i <= rm_nextPermissionID r)%N;
  ok_assigned_fresh : forall i, is_Some (rm_assignedRoles r !! i) -> (i <= rm_nextAssignedID r)%N;
}.
Definition rm_room (n : nat) (r : memRBAC) : Prop :=
  (rm_nextAbilityID r + N.of_nat n < two32)%N /\ (rm_nextPermissionID r + N.of_nat n < two32)%N /\
  (rm_nextAssignedID r + N.of_nat n < two32)%N.

Lemma next_id_small n : (n + 1 < two32)%N -> next_id n = (n + 1)%N.
Proof. intros Hn. unfold next_id, wrap32. by apply N.mod_small. Qed.

Lemma fresh_none {V} (m : gmap N V) n : (forall i, is_Some (m !! i) -> (i <= n)%N) -> m !! (n + 1)%N = None.
Proof.
  intros Hm. destruct (m !! (n + 1)%N) eqn:E; [|done]. assert (n + 1 <= n)%N by (apply Hm; eauto). lia.
Qed.

Lemma abilitiesMatch_spec a b : abilitiesMatch a b = true <-> key_of a = key_of b.
Proof.
  unfold abilitiesMatch, key_of. rewrite !andb_true_iff, !bool_decide_eq_true, String.eqb_eq.
  split; [intros [[[-> ->] ->] ->]; done|by intros [=]].
Qed.

Lemma first_match_spec a l :
  match first_match a l with
  | Some b => b ∈ l /\ key_of b = key_of a
  | None => forall b, b ∈ l -> key_of b <> key_of a
  end.
Proof.
  unfold first_match. destruct (List.find _ l) as [b|] eqn:E.
  - apply List.find_some in E as [Hb Hm]. split; [by apply list_elem_of_In|by apply abilitiesMatch_spec].
  - intros b Hb Hk. apply list_elem_of_In in Hb. pose proof (List.find_none _ _ E b Hb) as Hn. simpl in Hn.
    apply abilitiesMatch_spec in Hk. congruence.
Qed.

(** Looking an ability up in the table, in whatever order. *)
Lemma match_in_table a r l :
  rm_ok r -> l ≡ₚ values (rm_abilities r) ->
  match first_match a l with
  | Some b => rm_abilities r !! ab_ID b = Some b /\ key_of b = key_of a
  | None => forall i b, rm_abilities r !! i = Some b -> key_of b <> key_of a
  end.
Proof.
  intros Hok Hl. pose proof (first_match_spec a l) as Hm. destruct (first_match a l) as [b|].
  - destruct Hm as [Hb Hk]. split; [|done]. rewrite Hl in Hb. apply elem_of_values in Hb as [i Hi].
    by rewrite (ok_ability_id _ Hok _ _ Hi).
  - intros i b Hb. apply Hm. rewrite Hl. apply elem_of_values. eauto.
Qed.

(** *** Reads *)

Lemma iterated_ok r : rm_ok r -> rm_ok (rm_iterated r).
Proof. by intros []. Qed.

Lemma GetPermissions_spec e t r :
  exists l, GetPermissions e t r = (Ok l, rm_iterated r) /\ omap grant_of l ≡ₚ mem_grants r e t.
Proof.
  destruct (ranging_spec rm_permissions r) as (l & E & Hl). eexists. split.
  - unfold GetPermissions, bind, get, ret. rewrite E. reflexivity.
  - unfold mem_grants. rewrite values_omap, <- Hl. rewrite omap_map_list, omap_filter_bool. done.
Qed.

Lemma GetRolesForEntity_spec e t r :
  exists l, GetRolesForEntity e t r = (Ok l, rm_iterated r) /\ l ≡ₚ mem_roles r e t.
Proof.
  destruct (ranging_spec rm_assignedRoles r) as (l & E & Hl). eexists. split.
  - unfold GetRolesForEntity, bind, get, ret. rewrite E. reflexivity.
  - unfold mem_roles. rewrite values_omap. by rewrite Hl.
Qed.

(** *** Granting *)

(** The abilities [l] are in the table, nothing anyone held has changed. *)
Definition saved (l : list Ability) (r r' : memRBAC) : Prop :=
  rm_ok r' /\ rm_permissions r' = rm_permissions r /\ rm_assignedRoles r' = rm_assignedRoles r /\
  rm_roles r' = rm_roles r /\ rm_nextPermissionID r' = rm_nextPermissionID r /\
  rm_nextAssignedID r' = rm_nextAssignedID r /\
  (rm_nextAbilityID r' <= rm_nextAbilityID r + N.of_nat (length l))%N /\
  (forall i a, rm_abilities r !! i = Some a -> rm_abilities r' !! i = Some a) /\
  forall a, a ∈ l -> exists i b, rm_abilities r' !! i = Some b /\ key_of b = key_of a.

Lemma saved_app l1 l2 r1 r2 r3 : saved l1 r1 r2 -> saved l2 r2 r3 -> saved (l1 ++ l2) r1 r3.
Proof.
  intros (_ & Hp & Ha & Hr & Hn & Hm & Hle & Hk & Hs) (Hok & Hp' & Ha' & Hr' & Hn' & Hm' & Hle' & Hk' & Hs').
  split_and!; try congruence; try done.
  - rewrite length_app. lia.
  - intros i a Hi. by apply Hk', Hk.
  - intros a [Hin|Hin]%elem_of_app; [|by apply Hs'].
    destruct (Hs a Hin) as (i & b & Hb & Hkey). exists i, b. split; [by apply Hk'|done].
Qed.

Lemma ability_added_ok a r :
  rm_ok r -> (rm_nextAbilityID r + 1 < two32)%N -> (forall i b, rm_abilities r !! i = Some b -> key_of b <> key_of a) ->
  rm_ok (rm_set_ability (rm_nextAbilityID r + 1)
    (<[(rm_nextAbilityID r + 1)%N := ab_set_id (rm_nextAbilityID r + 1) a]> (rm_abilities r)) r).
Proof.
  intros [H1 H2 H3 H4 H5 H6 H7] Hroom Hnew. pose proof (fresh_none _ _ H5) as Hfresh. split; simpl; try done.
  - intros i b. rewrite lookup_insert. case_decide; [by intros [= <-]|apply H2].
  - intros i j x y. rewrite !lookup_insert. repeat case_decide; subst; intros Hx Hy Hk; try done.
    + injection Hx as <-. by destruct (Hnew _ _ Hy).
    + injection Hy as <-. by destruct (Hnew _ _ Hx).
    + by apply (H3 _ _ x y).
  - intros i p Hp. destruct (H4 i p Hp) as [[b Hb] Hn]. split; [|done]. rewrite lookup_insert.
    case_decide; eauto.
  - intros i. rewrite lookup_insert. case_decide; [lia|]. intros Hi. specialize (H5 i Hi). lia.
Qed.

Lemma saveOrGetAbility_spec a r :
  rm_ok r -> (rm_nextAbilityID r + 1 < two32)%N -> wp (saveOrGetAbility a) (fun res r' => is_ok res = true /\ saved [a] r r') r.
Proof.
  intros Hok Hroom. unfold saveOrGetAbility. wp_step.
  destruct (ranging_spec rm_abilities r) as (l & E & Hl). unfold wp at 1. rewrite E. simpl.
  pose proof (match_in_table a r l Hok Hl) as Hm. pose proof (iterated_ok r Hok) as Hok'.
  destruct (first_match a l) as [b|].
  - wp_step. split; [done|]. split_and!; try done; simpl; [lia|].
    intros x ->%list_elem_of_singleton. eauto.
  - unfold wp. simpl. rewrite next_id_small by done. split; [done|].
    split_and!; try done; simpl; try lia.
    + by apply (ability_added_ok a (rm_iterated r)).
    + intros i b Hi. rewrite lookup_insert_ne; [done|]. intros <-.
      pose proof (fresh_none _ _ (ok_ability_fresh _ Hok)). congruence.
    + intros x ->%list_elem_of_singleton. eexists _, _. split; [apply lookup_insert_eq|done].
Qed.

Lemma save_all_spec l : forall r,
  rm_ok r -> (rm_nextAbilityID r + N.of_nat (length l) < two32)%N ->
  wp (for_each l (fun a => let! _ := saveOrGetAbility a in ret tt)) (fun res r' => res = Ok tt /\ saved l r r') r.
Proof.
  induction l as [|a l IH]; intros r Hok Hroom; simpl in *.
  - wp_step. split; [done|]. split_and!; try done; simpl; [lia|]. by intros a ?%list.elem_of_nil.
  - do 2 wp_step. eapply wp_mono; [apply saveOrGetAbility_spec; [done|lia]|]. intros res r1 [Hr Hs].
    destruct res; [|done|done]. wp_step. pose proof Hs as (Hok1 & _ & _ & _ & _ & _ & Hle & _). simpl in Hle.
    eapply wp_mono; [apply IH; [done|lia]|]. intros res r2 [-> Hs2]. split; [done|]. exact (saved_app [a] l _ _ _ Hs Hs2).
Qed.

(** The ids of the abilities [l], in their order. *)
Lemma findAbilityIDs_spec l : forall r,
  rm_ok r ->
  exists ids k, findAbilityIDs l r = (Ok ids, Nat.iter k rm_iterated r) /\
    (forall id, id ∈ ids <-> exists a b, a ∈ l /\ rm_abilities r !! id = Some b /\ key_of b = key_of a) /\
    ((forall a, a ∈ l -> exists i b, rm_abilities r !! i = Some b /\ key_of b = key_of a) ->
     Forall2 (fun a id => exists b, rm_abilities r !! id = Some b /\ key_of b = key_of a) l ids).
Proof.
  induction l as [|a l IH]; intros r Hok; simpl.
  - exists [], 0. split; [done|]. split; [|by constructor]. intros id. split; [by intros ?%list.elem_of_nil|].
    by intros (a & b & ?%list.elem_of_nil & _).
  - destruct (ranging_spec rm_abilities r) as (ex & E & Hex).
    pose proof (match_in_table a r ex Hok Hex) as Hm.
    destruct (IH (rm_iterated r) (iterated_ok r Hok)) as (ids & k & Ei & Hids & Hall).
    unfold bind. rewrite E, Ei. eexists _, (S k). rewrite Nat.iter_succ_r. split; [reflexivity|].
    destruct (first_match a ex) as [b|].
    + destruct Hm as [Hb Hk]. split.
      * intros id. rewrite list.elem_of_cons, Hids. split.
        -- intros [->|(x & y & Hx & Hy)]; [exists a, b; split; [by left|done]|]. exists x, y. split; [by right|done].
        -- intros (x & y & [->|Hx]%list.elem_of_cons & Hy & Hxy); [left|right; by exists x, y].
           symmetry. apply (ok_unique _ Hok _ _ b y); [done|done|congruence].
      * intros Hin. constructor; [by exists b|]. apply Hall. intros x Hx. apply Hin. by right.
    + split.
      * intros id. rewrite Hids. split; [intros (x & y & Hx & Hy); exists x, y; split; [by right|done]|].
        intros (x & y & [->|Hx]%list.elem_of_cons & Hy & Hxy); [by destruct (Hm _ _ Hy)|by exists x, y].
      * intros Hin. destruct (Hin a) as (i & b & Hb & Hk); [by left|]. by destruct (Hm i b).
Qed.

Lemma iterations_same k r :
  rm_roles (Nat.iter k rm_iterated r) = rm_roles r /\ rm_assignedRoles (Nat.iter k rm_iterated r) = rm_assignedRoles r /\
  rm_abilities (Nat.iter k rm_iterated r) = rm_abilities r /\ rm_permissions (Nat.iter k rm_iterated r) = rm_permissions r /\
  rm_nextAbilityID (Nat.iter k rm_iterated r) = rm_nextAbilityID r /\
  rm_nextPermissionID (Nat.iter k rm_iterated r) = rm_nextPermissionID r /\
  rm_nextAssignedID (Nat.iter k rm_iterated r) = rm_nextAssignedID r /\
  (rm_ok r -> rm_ok (Nat.iter k rm_iterated r)).
Proof. induction k as [|k (IH1 & IH2 & IH3 & IH4 & IH5 & IH6 & IH7 & IH8)]; simpl; split_and!; auto using iterated_ok. Qed.

(** Storing a permission gives its holder one grant and nobody else any. *)
Definition new_permission (r : memRBAC) (e : N) (t : EntityType) (forbidden : bool) (id : N) : memRBAC :=
  rm_set_permission (rm_nextPermissionID r + 1)
    (<[(rm_nextPermissionID r + 1)%N := mkPermission (rm_nextPermissionID r + 1) id (Some e) (Some t) forbidden None None]>
       (rm_permissions r)) r.

Lemma new_permission_spec e t f id b r :
  rm_ok r -> rm_abilities r !! id = Some b ->
  let r' := new_permission r e t f id in
  rm_ok r' /\ mem_grants r' e t ≡ₚ mkGrant (key_of b) f :: mem_grants r e t /\
  forall e' t', (e', t') <> (e, t) -> mem_grants r' e' t' ≡ₚ mem_grants r e' t'.
Proof.
  intros Hok Hb r'. pose proof (fresh_none _ _ (ok_permission_fresh _ Hok)) as Hfresh.
  assert (Hrow : forall e' t', grant_row r' e' t' = grant_row r e' t') by done.
  split_and!.
  - destruct Hok as [H1 H2 H3 H4 H5 H6 H7]. split; simpl; try done.
    + intros i p. rewrite lookup_insert. case_decide; [intros [= <-]; simpl; eauto|apply H4].
    + intros i. rewrite lookup_insert. case_decide; [lia|]. intros Hi. specialize (H6 i Hi). lia.
  - unfold mem_grants. rewrite Hrow. simpl. rewrite (omap_insert_Some _ _ _ _ (mkGrant (key_of b) f)).
    + rewrite values_insert; [done|]. by rewrite lookup_omap, Hfresh.
    + unfold grant_row, belongs_to, opt_is, attach. simpl. rewrite !bool_decide_eq_true_2 by done. simpl. by rewrite Hb.
  - intros e' t' Hne. unfold mem_grants. rewrite Hrow. simpl. rewrite omap_insert_None.
    + rewrite delete_id; [done|]. by rewrite lookup_omap, Hfresh.
    + unfold grant_row, belongs_to, opt_is. simpl.
      destruct (bool_decide (Some e = Some e')) eqn:E1; [|done].
      destruct (bool_decide (Some t = Some t')) eqn:E2; [|done].
      apply bool_decide_eq_true in E1 as [= ->]. apply bool_decide_eq_true in E2 as [= ->]. done.
Qed.

(** What one entity and everybody else hold after [gs] were granted. *)
Definition granted (e : N) (t : EntityType) (gs : list grant) (r r' : memRBAC) : Prop :=
  rm_ok r' /\ rm_assignedRoles r' = rm_assignedRoles r /\ rm_roles r' = rm_roles r /\
  rm_nextAbilityID r' = rm_nextAbilityID r /\ rm_nextAssignedID r' = rm_nextAssignedID r /\
  (rm_nextPermissionID r' <= rm_nextPermissionID r + N.of_nat (length gs))%N /\
  mem_grants r' e t ≡ₚ gs ++ mem_grants r e t /\
  forall e' t', (e', t') <> (e, t) -> mem_grants r' e' t' ≡ₚ mem_grants r e' t'.

Lemma grant_all_spec e t f l ids : forall r,
  rm_ok r -> (rm_nextPermissionID r + N.of_nat (length l) < two32)%N ->
  Forall2 (fun a id => exists b, rm_abilities r !! id = Some b /\ key_of b = key_of a) l ids ->
  wp (for_each ids (fun abilityID => modify (fun r =>
        let id := next_id (rm_nextPermissionID r) in
        rm_set_permission id (<[id := mkPermission id abilityID (Some e) (Some t) f None None]> (rm_permissions r)) r)))
    (fun res r' => res = Ok tt /\ granted e t (map (fun a => mkGrant (key_of a) f) l) r r') r.
Proof.
  revert ids. induction l as [|a l IH]; intros ids r Hok Hroom Hall; apply Forall2_cons_inv_l in Hall || apply Forall2_nil_inv_l in Hall.
  - subst. simpl. wp_step. split; [done|]. split_and!; try done. simpl. lia.
  - destruct Hall as (id & ids' & (b & Hb & Hk) & Hall & ->). simpl in *. wp_step. unfold modify, wp at 1. simpl.
    rewrite next_id_small by lia. fold (new_permission r e t f id).
    destruct (new_permission_spec e t f id b r Hok Hb) as (Hok' & Hg & Ho).
    eapply wp_mono; [apply IH; [done|simpl; lia|done]|].
    intros res r' (-> & Hok2 & Ha & Hr & Hn & Hm & Hle & Hg2 & Ho2). split; [done|]. split_and!; try done.
    + simpl in *. rewrite length_map in *. lia.
    + rewrite Hg2, Hg, Hk. simpl. by rewrite Permutation_middle.
    + intros e' t' Hne. rewrite Ho2, Ho; done.
Qed.

(** Abilities added to the table change nobody's grants. *)
Lemma saved_grants l r r' e t : saved l r r' -> rm_ok r -> mem_grants r' e t = mem_grants r e t.
Proof.
  intros (_ & Hp & _ & _ & _ & _ & _ & Hk & _) Hok. unfold mem_grants. rewrite Hp. f_equal. apply map_eq. intros i.
  rewrite !lookup_omap. destruct (rm_permissions r !! i) as [p|] eqn:E; [|done]. simpl.
  destruct (ok_attached _ Hok _ _ E) as [[a Ha] _]. unfold grant_row, attach. by rewrite Ha, (Hk _ _ Ha).
Qed.

Lemma applyAbilities_spec e t l f r :
  rm_ok r -> rm_room (length l) r ->
  exists r', applyAbilities e t l f r = (Ok tt, r') /\ rm_ok r' /\
    rm_assignedRoles r' = rm_assignedRoles r /\ rm_roles r' = rm_roles r /\
    (forall n, rm_room (length l + n) r -> rm_room n r') /\
    mem_grants r' e t ≡ₚ map (fun a => mkGrant (key_of a) f) l ++ mem_grants r e t /\
    forall e' t', (e', t') <> (e, t) -> mem_grants r' e' t' ≡ₚ mem_grants r e' t'.
Proof.
  intros Hok (Hra & Hrp & Hrs).
  enough (Hwp : wp (applyAbilities e t l f) (fun res r' => res = Ok tt /\ rm_ok r' /\
    rm_assignedRoles r' = rm_assignedRoles r /\ rm_roles r' = rm_roles r /\
    (forall n, rm_room (length l + n) r -> rm_room n r') /\
    mem_grants r' e t ≡ₚ map (fun a => mkGrant (key_of a) f) l ++ mem_grants r e t /\
    forall e' t', (e', t') <> (e, t) -> mem_grants r' e' t' ≡ₚ mem_grants r e' t') r).
  { destruct (applyAbilities e t l f r) as [res r'] eqn:E. destruct (wp_run _ _ _ _ _ Hwp E) as (-> & Hrest). eauto. }
  unfold applyAbilities. destruct l as [|a0 l0].
  { wp_step. split_and!; try done. }
  set (l := a0 :: l0) in *. wp_step. eapply wp_mono; [apply save_all_spec; [done|exact Hra]|].
  intros res r1 [-> Hs]. pose proof Hs as (Hok1 & Hp1 & Has1 & Hr1 & Hnp & Hns & Hle & _ & Hin).
  wp_step. destruct (findAbilityIDs_spec l r1 Hok1) as (ids & k & E & _ & Hall). unfold wp at 1. rewrite E. simpl fst. simpl snd.
  destruct (iterations_same k r1) as (I1 & I2 & I3 & I4 & I5 & I6 & I7 & I8). set (r2 := Nat.iter k rm_iterated r1) in *.
  assert (Hg12 : forall e' t', mem_grants r2 e' t' = mem_grants r e' t').
  { intros e' t'. rewrite <- (saved_grants l r r1 e' t' Hs Hok). unfold mem_grants. rewrite I4. f_equal. apply map_eq. intros i.
    rewrite !lookup_omap. destruct (rm_permissions r1 !! i); [|done]. simpl. unfold grant_row, attach. by rewrite I3. }
  eapply wp_mono; [apply (grant_all_spec e t f l ids r2); [auto|rewrite I6, Hnp; exact Hrp|]|].
  - rewrite I3. by apply Hall.
  - intros res r3 (-> & Hok3 & Ha3 & Hr3 & Hn3 & Hm3 & Hle3 & Hg3 & Ho3). rewrite length_map in Hle3.
    split_and!; [done|done|congruence|congruence| | |].
    + intros n (Hx & Hy & Hz). unfold rm_room. rewrite Hn3, Hm3, I5, I7, Hns. rewrite I6, Hnp in Hle3.
      rewrite Nat2N.inj_add in *. split_and!; lia.
    + by rewrite Hg3, Hg12.
    + intros e' t' Hne. by rewrite Ho3, Hg12.
Qed.

(** *** Revoking *)

Lemma values_filter_grants (r : memRBAC) e t (P : Permission -> bool) (Q : grant -> Prop) `{forall g, Decision (Q g)} :
  (forall i p g, rm_permissions r !! i = Some p -> grant_row r e t p = Some g -> P p = true <-> Q g) ->
  values (omap (grant_row r e t) (filter (fun kv => P kv.2 = true) (rm_permissions r))) ≡ₚ
  filter Q (mem_grants r e t).
Proof.
  intros HP. unfold mem_grants.
  assert (Hm : omap (grant_row r e t) (filter (fun kv => P kv.2 = true) (rm_permissions r)) =
    omap (fun g => if decide (Q g) then Some g else None) (omap (grant_row r e t) (rm_permissions r))).
  { apply map_eq. intros i. rewrite !lookup_omap, map_lookup_filter.
    destruct (rm_permissions r !! i) as [p|] eqn:E; [|done]. simpl.
    destruct (grant_row r e t p) as [g|] eqn:Eg; simpl.
    - specialize (HP i p g E Eg). case_guard; simpl; case_decide; rewrite ?Eg; naive_solver.
    - by case_guard; simpl. }
  rewrite Hm, values_omap. generalize (values (omap (grant_row r e t) (rm_permissions r))). intros l.
  induction l as [|g l IH]; [done|]. rewrite list.filter_cons, omap_cons. case_decide; by rewrite IH.
Qed.

Lemma belongs_to_spec e t p : belongs_to e t p = true <-> pm_EntityID p = Some e /\ pm_EntityType p = Some t.
Proof. unfold belongs_to, opt_is. by rewrite andb_true_iff, !bool_decide_eq_true. Qed.

Lemma Revoke_spec e t l r :
  rm_ok r ->
  exists r', Revoke e t l r = (Ok tt, r') /\ rm_ok r' /\
    rm_assignedRoles r' = rm_assignedRoles r /\ rm_roles r' = rm_roles r /\ (forall n, rm_room n r -> rm_room n r') /\
    mem_grants r' e t ≡ₚ filter (fun g => g_Key g ∉ map key_of l) (mem_grants r e t) /\
    forall e' t', (e', t') <> (e, t) -> mem_grants r' e' t' ≡ₚ mem_grants r e' t'.
Proof.
  intros Hok. destruct (findAbilityIDs_spec l r Hok) as (ids & k & E & Hids & _).
  destruct (iterations_same k r) as (I1 & I2 & I3 & I4 & I5 & I6 & I7 & I8).
  set (keep := fun p => negb (belongs_to e t p && bool_decide (pm_AbilityID p ∈ ids))).
  set (r' := rm_set_permission (rm_nextPermissionID r) (filter (fun kv => keep kv.2 = true) (rm_permissions r)) (Nat.iter k rm_iterated r)).
  assert (Hr : exists r0, Revoke e t l r = (Ok tt, r0) /\ rm_permissions r0 = rm_permissions r' /\ rm_roles r0 = rm_roles r /\
     rm_assignedRoles r0 = rm_assignedRoles r /\ rm_abilities r0 = rm_abilities r /\ rm_nextAbilityID r0 = rm_nextAbilityID r /\
     rm_nextPermissionID r0 = rm_nextPermissionID r /\ rm_nextAssignedID r0 = rm_nextAssignedID r).
  { assert (Hnone : ids = [] -> rm_permissions r = rm_permissions r').
    { intros ->. simpl. symmetry. apply map_filter_id. intros i p _. unfold keep.
      rewrite bool_decide_eq_false_2 by apply list.not_elem_of_nil. by rewrite andb_false_r. }
    unfold Revoke. destruct l as [|a l]; [|].
    - eexists. split; [reflexivity|]. split_and!; try done. apply Hnone. simpl in E. by injection E as <- _.
    - set (l' := a :: l) in *. unfold bind. rewrite E. destruct ids as [|i ids].
      + eexists. split; [reflexivity|]. split_and!; try done. by rewrite I4, Hnone.
      + eexists. split; [reflexivity|]. simpl. rewrite I4. split_and!; try done. apply map_filter_ext. intros j p _. simpl.
        unfold keep. by destruct (_ && _). }
  destruct Hr as (r0 & Er & Hp & Hr & Ha & Hab & Hna & Hnp & Hns). exists r0. split; [done|].
  assert (Hsub : forall i p, rm_permissions r0 !! i = Some p -> rm_permissions r !! i = Some p)
    by (intros i p; rewrite Hp; simpl; by intros [? _]%map_lookup_filter_Some).
  assert (Hgr : forall e' t' (Q : grant -> Prop) `{forall g, Decision (Q g)},
    (forall i p g, rm_permissions r !! i = Some p -> grant_row r e' t' p = Some g -> keep p = true <-> Q g) ->
    mem_grants r0 e' t' ≡ₚ filter Q (mem_grants r e' t')).
  { intros e' t' Q HQ HP. rewrite <- (values_filter_grants r e' t' keep Q HP). unfold mem_grants. rewrite Hp. simpl.
    apply perm_of_eq. f_equal. apply map_eq. intros i. rewrite !lookup_omap. destruct (_ !! i) as [p|]; [|done]. simpl.
    unfold grant_row, attach. by rewrite Hab. }
  assert (Hrow : forall i p g e' t', rm_permissions r !! i = Some p -> grant_row r e' t' p = Some g ->
    belongs_to e' t' p = true /\ exists a, rm_abilities r !! pm_AbilityID p = Some a /\ g_Key g = key_of a).
  { intros i p g e' t' E1 E2. unfold grant_row in E2. destruct (belongs_to e' t' p) eqn:Eb; [|done]. split; [done|].
    destruct (ok_attached _ Hok _ _ E1) as [[a Ha'] _]. exists a. split; [done|]. unfold attach in E2. rewrite Ha' in E2.
    unfold grant_of in E2. simpl in E2. by injection E2 as <-. }
  split_and!; try done.
  - destruct Hok as [H1 H2 H3 H4 H5 H6 H7]. split; rewrite ?Hr, ?Ha, ?Hab, ?Hna, ?Hnp, ?Hns; try done.
    + intros i p Hi. apply Hsub in Hi. eauto.
    + intros i [p Hi]. apply H6. exists p. eauto.
  - intros n. unfold rm_room. by rewrite Hna, Hnp, Hns.
  - apply Hgr. intros i p g E1 E2. destruct (Hrow i p g e t E1 E2) as (Hb & a & Ha' & Hk). unfold keep. rewrite Hb. simpl.
    rewrite negb_true_iff, bool_decide_eq_false, Hids, Hk. split.
    + intros Hn [x [Hx Hin]]%list_elem_of_fmap. apply Hn. exists x, a. done.
    + intros Hn (x & b & Hx & Hb' & Hkb). apply Hn, list_elem_of_fmap. exists x. split; [congruence|done].
  - intros e' t' Hne. etrans; [apply (Hgr e' t' (fun _ => True))|].
    + intros i p g E1 E2. destruct (Hrow i p g e' t' E1 E2) as (Hb & _). split; [done|]. intros _. unfold keep.
      destruct (belongs_to e t p) eqn:Eb; [|done]. exfalso. apply Hne.
      apply belongs_to_spec in Hb as [? ?], Eb as [? ?]. congruence.
    + apply perm_of_eq. generalize (mem_grants r e' t'). intros l0. induction l0 as [|g l0 IH]; [done|].
      rewrite list.filter_cons. by rewrite decide_True, IH.
Qed.

(** *** Roles *)

Lemma values_filter_roles (r : memRBAC) e t e' t' :
  let keep := fun a => negb ((as_EntityID a =? e)%N && String.eqb (as_EntityType a) t) in
  values (omap (role_row r e' t') (filter (fun kv => keep kv.2 = true) (rm_assignedRoles r))) ≡ₚ
  if decide ((e', t') = (e, t)) then [] else mem_roles r e' t'.
Proof.
  intros keep. unfold mem_roles. case_decide as Heq.
  - injection Heq as -> ->. assert (Hm : omap (role_row r e t) (filter (fun kv => keep kv.2 = true) (rm_assignedRoles r)) = ∅).
    { apply map_eq. intros i. rewrite lookup_omap, map_lookup_filter, lookup_empty.
      destruct (rm_assignedRoles r !! i) as [a|]; [|done]. simpl. unfold keep, role_row.
      case_guard as Hg; simpl; [|done]. apply negb_true_iff in Hg. by rewrite Hg. }
    by rewrite Hm.
  - apply perm_of_eq. f_equal. apply map_eq. intros i. rewrite !lookup_omap, map_lookup_filter.
    destruct (rm_assignedRoles r !! i) as [a|]; [|done]. simpl. unfold keep, role_row.
    case_guard as Hg; simpl; [done|]. apply not_true_is_false, negb_false_iff, andb_true_iff in Hg as [H1 H2].
    apply N.eqb_eq in H1. apply String.eqb_eq in H2. subst.
    destruct (as_EntityID a =? e')%N eqn:E1; [|done]. destruct (String.eqb (as_EntityType a) t') eqn:E2; [|done].
    apply N.eqb_eq in E1. apply String.eqb_eq in E2. subst. by destruct Heq.
Qed.

Lemma ClearRoles_spec e t r :
  rm_ok r ->
  exists r', ClearRolesForEntity e t r = (Ok tt, r') /\ rm_ok r' /\ mem_grants r' = mem_grants r /\
    rm_roles r' = rm_roles r /\ (forall n, rm_room n r -> rm_room n r') /\
    forall e' t', mem_roles r' e' t' ≡ₚ if decide ((e', t') = (e, t)) then [] else mem_roles r e' t'.
Proof.
  intros Hok. eexists. split; [reflexivity|]. split_and!; try done.
  - destruct Hok as [H1 H2 H3 H4 H5 H6 H7]. split; try done. simpl. intros i [a [Ha _]%map_lookup_filter_Some]. eauto.
  - intros e' t'. rewrite <- (values_filter_roles r e t e' t'). apply perm_of_eq. unfold mem_roles. simpl. f_equal.
    apply map_eq. intros i. rewrite !lookup_omap. f_equal. rewrite !map_lookup_filter.
    destruct (rm_assignedRoles r !! i) as [a|]; [|done]. simpl. by destruct (_ && _).
Qed.

Lemma assigned_already_spec e t role r l :
  l ≡ₚ values (rm_assignedRoles r) ->
  assigned_already e t role l = true <->
  exists i a, rm_assignedRoles r !! i = Some a /\ as_EntityID a = e /\ as_EntityType a = t /\
    as_RoleID a = rl_ID (rs_Role role) /\ as_RestrictedToID a = rs_RestrictedToID role /\
    as_RestrictedToType a = rs_RestrictedToType role.
Proof.
  intros Hl. unfold assigned_already. rewrite existsb_exists. split.
  - intros (a & Ha%list_elem_of_In & Hb). rewrite Hl in Ha. apply elem_of_values in Ha as [i Hi].
    rewrite !andb_true_iff, N.eqb_eq, String.eqb_eq, N.eqb_eq, !bool_decide_eq_true in Hb. exists i, a. tauto.
  - intros (i & a & Hi & H1 & H2 & H3 & H4 & H5). exists a. split.
    + apply list_elem_of_In. rewrite Hl. apply elem_of_values. eauto.
    + rewrite !andb_true_iff, N.eqb_eq, String.eqb_eq, N.eqb_eq, !bool_decide_eq_true. tauto.
Qed.

(** The roles an entity has after the roles [l] were assigned to it. *)
Definition assigned (e : N) (t : EntityType) (l : list RestrictedRole) (r r' : memRBAC) : Prop :=
  rm_ok r' /\ mem_grants r' = mem_grants r /\ rm_roles r' = rm_roles r /\
  rm_nextAbilityID r' = rm_nextAbilityID r /\ rm_nextPermissionID r' = rm_nextPermissionID r /\
  (rm_nextAssignedID r' <= rm_nextAssignedID r + N.of_nat (length l))%N /\
  (forall x, x ∈ mem_roles r' e t <-> x ∈ mem_roles r e t \/
     exists role y, role ∈ l /\ rm_roles r !! rl_ID (rs_Role role) = Some y /\
       x = mkRestrictedRole y (rs_RestrictedToID role) (rs_RestrictedToType role)) /\
  forall e' t', (e', t') <> (e, t) -> mem_roles r' e' t' ≡ₚ mem_roles r e' t'.

Lemma elem_of_mem_roles r e t x :
  x ∈ mem_roles r e t <-> exists i a y, rm_assignedRoles r !! i = Some a /\ as_EntityID a = e /\ as_EntityType a = t /\
    rm_roles r !! as_RoleID a = Some y /\ x = mkRestrictedRole y (as_RestrictedToID a) (as_RestrictedToType a).
Proof.
  unfold mem_roles. rewrite elem_of_values. setoid_rewrite lookup_omap. unfold role_row. split.
  - intros [i Hi]. destruct (rm_assignedRoles r !! i) as [a|] eqn:E; [|done]. simpl in Hi.
    destruct (as_EntityID a =? e)%N eqn:E1; [|done]. destruct (String.eqb (as_EntityType a) t) eqn:E2; [|done].
    destruct (rm_roles r !! as_RoleID a) as [y|] eqn:E3; [|done]. injection Hi as <-.
    apply N.eqb_eq in E1. apply String.eqb_eq in E2. by exists i, a, y.
  - intros (i & a & y & Ha & <- & <- & Hy & ->). exists i. rewrite Ha. simpl.
    by rewrite N.eqb_refl, String.eqb_refl, Hy.
Qed.

Lemma assign_one_spec e t role r :
  rm_ok r -> (rm_nextAssignedID r + 1 < two32)%N ->
  wp (let! l := ranging rm_assignedRoles in
      if assigned_already e t role l then ret tt
      else modify (fun r =>
        let id := next_id (rm_nextAssignedID r) in
        rm_set_assigned id (<[id := mkAssignedRole id (rl_ID (rs_Role role)) e t
          (rs_RestrictedToID role) (rs_RestrictedToType role) (rl_Scope (rs_Role role))]> (rm_assignedRoles r)) r))
    (fun res r' => res = Ok tt /\ assigned e t [role] r r') r.
Proof.
  intros Hok Hroom. wp_step. destruct (ranging_spec rm_assignedRoles r) as (l & E & Hl). unfold wp at 1. rewrite E. simpl.
  pose proof (assigned_already_spec e t role r l Hl) as Hal. destruct (assigned_already e t role l).
  - wp_step. split; [done|]. destruct (proj1 Hal eq_refl) as (i & a & Ha & H1 & H2 & H3 & H4 & H5).
    split_and!; try done; simpl; [by apply iterated_ok|lia|]. intros x. split; [tauto|]. intros [?|(ro & y & Hro & Hy & ->)]; [done|].
    apply list_elem_of_singleton in Hro as ->. apply elem_of_mem_roles. exists i, a, y. split_and!; try done; [by rewrite H3|by rewrite H4, H5].
  - unfold modify, wp. simpl. rewrite next_id_small by done. split; [done|].
    pose proof (fresh_none _ _ (ok_assigned_fresh _ Hok)) as Hfresh. set (r' := rm_set_assigned _ _ _).
    assert (Hrow : forall e' t', mem_roles r' e' t' ≡ₚ (match role_row r e' t' (mkAssignedRole (rm_nextAssignedID r + 1)
        (rl_ID (rs_Role role)) e t (rs_RestrictedToID role) (rs_RestrictedToType role) (rl_Scope (rs_Role role))) with
        | Some x => [x] | None => [] end) ++ mem_roles r e' t').
    { intros e' t'. unfold mem_roles. change (role_row r' e' t') with (role_row r e' t'). simpl.
      destruct (role_row r e' t' _) as [x|] eqn:Er.
      - rewrite (omap_insert_Some _ _ _ _ x Er), values_insert; [done|]. by rewrite lookup_omap, Hfresh.
      - rewrite (omap_insert_None _ _ _ _ Er), delete_id; [done|]. by rewrite lookup_omap, Hfresh. }
    split_and!; try done; simpl; try lia.
    + destruct Hok as [H1 H2 H3 H4 H5 H6 H7]. split; simpl; try done. intros i. rewrite lookup_insert. case_decide; [lia|].
      intros Hi. specialize (H7 i Hi). lia.
    + intros x. rewrite Hrow, elem_of_app. unfold role_row. simpl. rewrite N.eqb_refl, String.eqb_refl. simpl.
      destruct (rm_roles r !! rl_ID (rs_Role role)) as [y|] eqn:Ey; simpl.
      * rewrite list_elem_of_singleton. split; [intros [->|?]; [right; exists role, y; split; [by left|done]|by left]|].
        intros [?|(ro & z & Hro & Hz & ->)]; [by right|]. apply list_elem_of_singleton in Hro as ->. left. congruence.
      * split; [intros [?%list.elem_of_nil|?]; [done|by left]|]. intros [?|(ro & z & Hro & Hz & ->)]; [by right|].
        apply list_elem_of_singleton in Hro as ->. congruence.
    + intros e' t' Hne. rewrite Hrow. unfold role_row. simpl.
      destruct (e =? e')%N eqn:E1; [|done]. destruct (String.eqb t t') eqn:E2; [|done].
      apply N.eqb_eq in E1. apply String.eqb_eq in E2. congruence.
Qed.

Lemma AssignRoles_spec e t l : forall r,
  rm_ok r -> (rm_nextAssignedID r + N.of_nat (length l) < two32)%N ->
  wp (AssignRolesForEntity e t l) (fun res r' => res = Ok tt /\ assigned e t l r r') r.
Proof.
  unfold AssignRolesForEntity. induction l as [|role l IH]; intros r Hok Hroom; simpl in *.
  - wp_step. split; [done|]. split_and!; try done; simpl; [lia|]. intros x. split; [by left|].
    by intros [?|(? & ? & ?%list.elem_of_nil & _)].
  - wp_step. eapply wp_mono; [apply assign_one_spec; [done|lia]|].
    intros res r1 (-> & Hok1 & Hg1 & Hr1 & Hn1 & Hp1 & Hle1 & Hin1 & Ho1). simpl in Hle1.
    eapply wp_mono; [apply IH; [done|lia]|].
    intros res r2 (-> & Hok2 & Hg2 & Hr2 & Hn2 & Hp2 & Hle2 & Hin2 & Ho2). split; [done|].
    split_and!; try done; try congruence; [simpl; lia| |].
    + intros x. rewrite Hin2, Hin1, Hr1. setoid_rewrite list.elem_of_cons. setoid_rewrite list.elem_of_nil. naive_solver.
    + intros e' t' Hne. by rewrite Ho2, Ho1.
Qed.

#[export, program] Instance memRBAC_laws : RBACRepositoryLaws memRBAC := {
  rb_inv := rm_ok;
  rb_grants := mem_grants;
  rb_roles := mem_roles;
  rb_catalogue r := values (rm_roles r);
  rb_room := rm_room;
}.
Next Obligation. unfold rm_room. intros n m r Hnm (? & ? & ?). split_and!; lia. Qed.
Next Obligation.
  intros r res r' Hok. simpl. destruct (ranging_spec rm_roles r) as (l & E & Hl). unfold GetRoles. rewrite E.
  intros [= <- <-]. split_and!; try done. by apply iterated_ok.
Qed.
Next Obligation.
  intros e t r res r' Hok. simpl. destruct (GetPermissions_spec e t r) as (l & E & Hl). rewrite E.
  intros [= <- <-]. split_and!; try done. by apply iterated_ok.
Qed.
Next Obligation.
  intros e t r res r' Hok. simpl. destruct (GetRolesForEntity_spec e t r) as (l & E & Hl). rewrite E.
  intros [= <- <-]. split_and!; try done. by apply iterated_ok.
Qed.
Next Obligation.
  intros f e t l r res r' Hok Hroom. simpl. destruct (applyAbilities_spec e t l f r Hok Hroom) as (r1 & E & Hok1 & Ha & Hr & Hn & Hg & Ho).
  assert (Hrun : (if f then Forbid e t l r else Allow e t l r) = (Ok tt, r1)) by by destruct f.
  rewrite Hrun. intros [= <- <-]. split_and!; try done; [|by rewrite Hr].
  unfold mem_roles, role_row. by rewrite Ha, Hr.
Qed.
Next Obligation.
  intros e t l r res r' Hok. simpl. destruct (Revoke_spec e t l r Hok) as (r1 & E & Hok1 & Ha & Hr & Hn & Hg & Ho). rewrite E.
  intros [= <- <-]. split_and!; try done; [|by rewrite Hr]. unfold mem_roles, role_row. by rewrite Ha, Hr.
Qed.
Next Obligation.
  intros e t r res r' Hok. simpl. destruct (ClearRoles_spec e t r Hok) as (r1 & E & Hok1 & Hg & Hr & Hn & Ho). rewrite E.
  intros [= <- <-]. split_and!; try done; [by rewrite Hr| |].
  - specialize (Ho e t). rewrite decide_True in Ho by done. by apply Permutation_sym, Permutation_nil in Ho.
  - intros e' t' Hne. specialize (Ho e' t'). by rewrite decide_False in Ho.
Qed.
Next Obligation.
  intros e t l r res r' Hok (Ha & Hp & Hs). simpl. intros E.
  destruct (wp_run _ _ _ _ _ (AssignRoles_spec e t l r Hok Hs) E) as (-> & Hok1 & Hg & Hr & Hna & Hnp & Hle & Hin & Ho).
  split_and!; try done; [by rewrite Hr| |].
  - unfold rm_room. intros n (Hx & Hy & Hz). rewrite Hna, Hnp, Nat2N.inj_add in *. split_and!; lia.
  - intros x. rewrite Hin. split.
    + intros [?|(role & y & Hro & Hy & ->)]; [by left|]. right. exists role, y.
      split_and!; try done; [apply elem_of_values; eauto|exact (ok_role_id _ Hok _ _ Hy)].
    + intros [?|(role & y & Hro & Hy & Hid & ->)]; [by left|]. right. exists role, y. split_and!; try done.
      apply elem_of_values in Hy as [i Hi]. rewrite <- Hid. by rewrite (ok_role_id _ Hok _ _ Hi).
Qed.
End rbac_specs.

(** *** A repository as the panel would fill it *)

Lemma SaveRole_ok `{MapOrder} role r :
  rm_ok r -> rm_ok (snd (SaveRole role r)).
Proof.
  intros [H1 H2 H3 H4 H5 H6 H7]. split; simpl; try done. intros i x. rewrite lookup_insert. case_decide; [|apply H1].
  subst. by intros [= <-].
Qed.

Lemma NewRBACRepository_ok : rm_ok NewRBACRepository.
Proof. split; simpl; intros *; rewrite ?lookup_empty; try done; by intros [? ?]. Qed.

Definition ability (name : string) : Ability := mkAbility 0 name None None None false None None None None.

(** Role 1 allows to start servers everywhere; user 7 has it. *)
Definition sample_rbac : memRBAC :=
  let r := snd (SaveRole (mkRole 0 "operator" None None None None None) NewRBACRepository) in
  let r := snd (@Allow listed_order 1 EntityTypeRole [ability "game-server-start"] r) in
  snd (@AssignRolesForEntity listed_order 7 EntityTypeUser
    [NewRestrictedRoleFromRole (mkRole 1 "operator" None None None None None)] r).

Lemma sample_rbac_ok : rm_ok sample_rbac.
Proof.
  unfold sample_rbac. set (r0 := snd (SaveRole _ _)).
  assert (H0 : rm_ok r0) by apply (@SaveRole_ok listed_order), NewRBACRepository_ok.
  destruct (@applyAbilities_spec listed_order 1 EntityTypeRole [ability "game-server-start"] false r0 H0) as (r1 & E1 & H1 & _).
  { by vm_compute. }
  unfold Allow. rewrite E1. simpl snd at 2.
  assert (Hn : (rm_nextAssignedID r1 + 1 < two32)%N).
  { assert (Hr1 : r1 = snd (@applyAbilities listed_order 1 EntityTypeRole [ability "game-server-start"] false r0)) by by rewrite E1.
    rewrite Hr1. by vm_compute. }
  pose proof (@AssignRoles_spec listed_order 7 EntityTypeUser [NewRestrictedRoleFromRole (mkRole 1 "operator" None None None None None)] r1 H1 Hn) as Hwp.
  apply Hwp.
Qed.

(** ** The repository against its specification *)

Inductive access_op : Type :=
| OpGrant (forbidden : bool) (e : N) (t : EntityType) (l : list Ability)
| OpRevoke (e : N) (t : EntityType) (l : list Ability).

Definition run_access `{MapOrder} (op : access_op) : M memRBAC unit :=
  match op with
  | OpGrant false e t l => Allow e t l
  | OpGrant true e t l => Forbid e t l
  | OpRevoke e t l => Revoke e t l
  end.

(** What an operation does to a table of grants by holder. *)
Definition access_spec (op : access_op) (G : N -> EntityType -> list grant) (e : N) (t : EntityType) : list grant :=
  match op with
  | OpGrant f e' t' l => if decide ((e, t) = (e', t')) then map (fun a => mkGrant (key_of a) f) l ++ G e t else G e t
  | OpRevoke e' t' l => if decide ((e, t) = (e', t')) then filter (fun g => g_Key g ∉ map key_of l) (G e t) else G e t
  end.
Definition op_size (op : access_op) : nat :=
  match op with OpGrant _ _ _ l => length l | OpRevoke _ _ _ => 0 end.

Section refinement.
Context `{MapOrder}.

Lemma run_access_spec op r (G : N -> EntityType -> list grant) n :
  rm_ok r -> rm_room (op_size op + n) r -> (forall e t, mem_grants r e t ≡ₚ G e t) ->
  exists r', run_access op r = (Ok tt, r') /\ rm_ok r' /\ rm_room n r' /\ forall e t, mem_grants r' e t ≡ₚ access_spec op G e t.
Proof.
  intros Hok Hroom HG. destruct op as [f e t l|e t l].
  - assert (Hl : rm_room (length l) r) by (destruct Hroom as (? & ? & ?); simpl in *; unfold rm_room; lia).
    destruct (applyAbilities_spec e t l f r Hok Hl) as (r' & E & Hok' & _ & _ & Hr & Hg & Ho).
    exists r'. split; [by destruct f|]. split; [done|]. split; [by apply Hr|]. intros e' t'. simpl.
    case_decide as Heq; [injection Heq as -> ->; by rewrite Hg, HG|by rewrite Ho, HG].
  - destruct (Revoke_spec e t l r Hok) as (r' & E & Hok' & _ & _ & Hr & Hg & Ho).
    exists r'. split; [done|]. split; [done|]. split; [by apply Hr|]. intros e' t'. simpl.
    case_decide as Heq; [injection Heq as -> ->; by rewrite Hg, HG|by rewrite Ho, HG].
Qed.

Lemma run_accesses_spec ops : forall r (G : N -> EntityType -> list grant),
  rm_ok r -> rm_room (list_sum (map op_size ops)) r -> (forall e t, mem_grants r e t ≡ₚ G e t) ->
  wp (for_each ops run_access) (fun res r' => res = Ok tt /\ rm_ok r' /\
    forall e t, mem_grants r' e t ≡ₚ foldl (fun G op => access_spec op G) G ops e t) r.
Proof.
  induction ops as [|op ops IH]; intros r G Hok Hroom HG; simpl; [by wp_step|].
  destruct (run_access_spec op r G _ Hok Hroom HG) as (r' & E & Hok' & Hroom' & HG').
  wp_step. unfold wp at 1. rewrite E. simpl. by apply IH.
Qed.

(** C21: in the in-memory repository every sequence of grants, prohibitions and
    revocations succeeds and leaves each entity with exactly the grants the
    sequence gives it, in whatever order Go runs over its maps; and that is
    what [GetPermissions] returns. *)
Theorem grants_follow_operations ops e t :
  (N.of_nat (list_sum (map op_size ops)) < two32)%N ->
  let '(res, r) := for_each ops run_access NewRBACRepository in
  res = Ok tt /\ exists l, fst (GetPermissions e t r) = Ok l /\
    omap grant_of l ≡ₚ foldl (fun G op => access_spec op G) (fun _ _ => []) ops e t.
Proof.
  intros Hsize. pose proof (run_accesses_spec ops NewRBACRepository (fun _ _ => []) NewRBACRepository_ok) as Hwp.
  destruct (for_each ops run_access NewRBACRepository) as [res r] eqn:E.
  destruct (wp_run _ _ _ _ _ (Hwp ltac:(by split_and!) ltac:(done)) E) as (-> & Hok & HG). split; [done|].
  destruct (GetPermissions_spec e t r) as (l & El & Hl). exists l. rewrite El. split; [done|]. by rewrite Hl, HG.
Qed.
End refinement.

Lemma grants_follow_operations_witness :
  exists l, fst (@GetPermissions listed_order 7 EntityTypeUser (snd (for_each
      [OpGrant false 7 EntityTypeUser [ability "a"; ability "b"]; OpRevoke 7 EntityTypeUser [ability "a"];
       OpGrant true 8 EntityTypeUser [ability "b"]] (@run_access listed_order) NewRBACRepository))) = Ok l /\
    omap grant_of l ≡ₚ [mkGrant (key_of (ability "b")) false].
Proof.
  set (ops := [_; _; _]).
  pose proof (@grants_follow_operations listed_order ops 7 EntityTypeUser eq_refl) as Hr.
  destruct (for_each ops (@run_access listed_order) NewRBACRepository) as [res r]. destruct Hr as (_ & l & El & Hl).
  exists l. split; [exact El|]. rewrite Hl. vm_compute. reflexivity.
Defined.
