(* ===== verification/ServersRepo.v ===== *)
(** The in-memory game server repository
    ([internal/repositories/inmemory/servers.go]): the server table with its
    seven hash indexes and the servers of each user, filters evaluated through
    the indexes, saving, bulk and status updates, soft and hard deletion.  The
    filter evaluation is proved equal to a scan of the table, and the
    repository meets the contract the task pipeline relies on.  The clock and
    the order of Go maps are parameters. *)

From S2P Require Import Prelude.
From S2P Require Import GoNum.
From S2P Require Import Domain.
From S2P Require Import Repositories.
From S2P Require Import TaskRepo.
From S2P Require Import GoRuntime.
From stdpp Require Import base tactics strings list gmap numbers sorting.
From Stdlib Require Import NArith ZArith.

(** ** Filters and status updates *)

(** [filters.FindServer] *)
Record FindServer : Type := mkFindServer {
  fv_IDs : list N;
  fv_UUIDs : list string;
  fv_UserIDs : list N;
  fv_Enabled : option bool;
  fv_Blocked : option bool;
  fv_GameIDs : list string;
  fv_DSIDs : list N;
  fv_GameModIDs : list N;
  fv_Names : list string;
  fv_WithDeleted : bool;
}.

Definition FindServerByIDs (ids : list N) : FindServer := mkFindServer ids [] [] None None [] [] [] [] false.
Definition FindServerByNodeIDs (nodes : list N) : FindServer := mkFindServer [] [] [] None None [] nodes [] [] false.
Definition FindServerByUUIDs (uuids : list string) : FindServer := mkFindServer [] uuids [] None None [] [] [] [] false.
Definition no_filter : FindServer := mkFindServer [] [] [] None None [] [] [] [] false.

(** [repositories.ServerStatusUpdate] *)
Record ServerStatusUpdate : Type := mkServerStatusUpdate {
  su_ID : N; su_ProcessActive : bool; su_LastProcessCheck : time;
}.

(** ** The table *)

Record memServerRepo : Type := mkServerRepo {
  servers : gmap N Server;
  userServers : gmap N (gset N);
  sr_nextID : N;
  uuidIndex : gmap string (gset N);
  gameIDIndex : gmap string (gset N);
  dsidIndex : gmap N (gset N);
  gameModIDIndex : gmap N (gset N);
  nameIndex : gmap string (gset N);
  enabledIndex : gmap bool (gset N);
  blockedIndex : gmap bool (gset N);
  sr_ticks : N;
}.

Definition NewServerRepository : memServerRepo := mkServerRepo ∅ ∅ 0 ∅ ∅ ∅ ∅ ∅ ∅ ∅ 0.

Definition sr_set_servers (m : gmap N Server) (r : memServerRepo) : memServerRepo :=
  mkServerRepo m (userServers r) (sr_nextID r) (uuidIndex r) (gameIDIndex r) (dsidIndex r) (gameModIDIndex r)
    (nameIndex r) (enabledIndex r) (blockedIndex r) (sr_ticks r).
Definition sr_set_users (m : gmap N (gset N)) (r : memServerRepo) : memServerRepo :=
  mkServerRepo (servers r) m (sr_nextID r) (uuidIndex r) (gameIDIndex r) (dsidIndex r) (gameModIDIndex r)
    (nameIndex r) (enabledIndex r) (blockedIndex r) (sr_ticks r).
Definition sr_set_nextID (n : N) (r : memServerRepo) : memServerRepo :=
  mkServerRepo (servers r) (userServers r) n (uuidIndex r) (gameIDIndex r) (dsidIndex r) (gameModIDIndex r)
    (nameIndex r) (enabledIndex r) (blockedIndex r) (sr_ticks r).
Definition sr_tick (r : memServerRepo) : memServerRepo :=
  mkServerRepo (servers r) (userServers r) (sr_nextID r) (uuidIndex r) (gameIDIndex r) (dsidIndex r) (gameModIDIndex r)
    (nameIndex r) (enabledIndex r) (blockedIndex r) (sr_ticks r + 1).

Definition addToIndexes (s : Server) (r : memServerRepo) : memServerRepo :=
  mkServerRepo (servers r) (userServers r) (sr_nextID r)
    (idx_add (sv_UID s) (sv_ID s) (uuidIndex r))
    (idx_add (sv_GameID s) (sv_ID s) (gameIDIndex r))
    (idx_add (sv_DSID s) (sv_ID s) (dsidIndex r))
    (idx_add (sv_GameModID s) (sv_ID s) (gameModIDIndex r))
    (idx_add (sv_Name s) (sv_ID s) (nameIndex r))
    (idx_add (sv_Enabled s) (sv_ID s) (enabledIndex r))
    (idx_add (sv_Blocked s) (sv_ID s) (blockedIndex r)) (sr_ticks r).

Definition removeFromIndexes (s : Server) (r : memServerRepo) : memServerRepo :=
  mkServerRepo (servers r) (userServers r) (sr_nextID r)
    (idx_remove (sv_UID s) (sv_ID s) (uuidIndex r))
    (idx_remove (sv_GameID s) (sv_ID s) (gameIDIndex r))
    (idx_remove (sv_DSID s) (sv_ID s) (dsidIndex r))
    (idx_remove (sv_GameModID s) (sv_ID s) (gameModIDIndex r))
    (idx_remove (sv_Name s) (sv_ID s) (nameIndex r))
    (idx_remove (sv_Enabled s) (sv_ID s) (enabledIndex r))
    (idx_remove (sv_Blocked s) (sv_ID s) (blockedIndex r)) (sr_ticks r).

(** ** Users *)

Definition AddUserServer (userID serverID : N) (r : memServerRepo) : memServerRepo :=
  sr_set_users (idx_add userID serverID (userServers r)) r.
Definition RemoveUserServer (userID serverID : N) (r : memServerRepo) : memServerRepo :=
  sr_set_users (idx_remove userID serverID (userServers r)) r.
Definition SetUserServers (userID : N) (serverIDs : list N) : M memServerRepo unit := modify (fun r =>
  let m := delete userID (userServers r) in
  sr_set_users (match serverIDs with [] => m | _ => <[userID := list_to_set serverIDs]> m end) r).

(** ** Filtering *)

(** The ids that are in the table and, unless asked for, not deleted. *)
Definition visible (withDeleted : bool) (r : memServerRepo) (ids : gset N) : gset N :=
  filter (fun id => match servers r !! id with
                    | Some s => withDeleted || match sv_DeletedAt s with None => true | Some _ => false end
                    | None => false
                    end = true) ids.

Definition is_set {A} (o : option A) : bool := match o with Some _ => true | None => false end.

(** The candidates of the first filter that is set. *)
Definition first_filter (r : memServerRepo) (f : FindServer) : gset N :=
  let found := visible (fv_WithDeleted f) r in
  if nonempty (fv_IDs f) then found (list_to_set (fv_IDs f))
  else if nonempty (fv_UUIDs f) then found (idx_union (fv_UUIDs f) (uuidIndex r))
  else if nonempty (fv_UserIDs f) then found (idx_union (fv_UserIDs f) (userServers r))
  else match fv_Enabled f, fv_Blocked f with
  | Some b, _ => found (idx_get b (enabledIndex r))
  | None, Some b => found (idx_get b (blockedIndex r))
  | None, None =>
      if nonempty (fv_GameIDs f) then found (idx_union (fv_GameIDs f) (gameIDIndex r))
      else if nonempty (fv_DSIDs f) then found (idx_union (fv_DSIDs f) (dsidIndex r))
      else if nonempty (fv_GameModIDs f) then found (idx_union (fv_GameModIDs f) (gameModIDIndex r))
      else if nonempty (fv_Names f) then found (idx_union (fv_Names f) (nameIndex r))
      else found (dom (servers r))
  end.

Definition intersectWithUUIDs (r : memServerRepo) (res : gset N) (l : list string) : gset N := idx_intersect res l (uuidIndex r).
Definition intersectWithUserIDs (r : memServerRepo) (res : gset N) (l : list N) : gset N := idx_intersect res l (userServers r).
Definition intersectWithEnabled (r : memServerRepo) (res : gset N) (b : bool) : gset N := idx_intersect res [b] (enabledIndex r).
Definition intersectWithBlocked (r : memServerRepo) (res : gset N) (b : bool) : gset N := idx_intersect res [b] (blockedIndex r).
Definition intersectWithGameIDs (r : memServerRepo) (res : gset N) (l : list string) : gset N := idx_intersect res l (gameIDIndex r).
Definition intersectWithDSIDs (r : memServerRepo) (res : gset N) (l : list N) : gset N := idx_intersect res l (dsidIndex r).
Definition intersectWithNames (r : memServerRepo) (res : gset N) (l : list string) : gset N := idx_intersect res l (nameIndex r).

Definition getFilteredServerIDs (r : memServerRepo) (filter : option FindServer) : gset N :=
  match filter with
  | None => visible false r (dom (servers r))
  | Some f =>
      let ids := nonempty (fv_IDs f) in
      let uuids := nonempty (fv_UUIDs f) in
      let users := nonempty (fv_UserIDs f) in
      let games := nonempty (fv_GameIDs f) in
      let nodes := nonempty (fv_DSIDs f) in
      let names := nonempty (fv_Names f) in
      let enabled := is_set (fv_Enabled f) in
      let blocked := is_set (fv_Blocked f) in
      let res := first_filter r f in
      let res := if uuids && ids then intersectWithUUIDs r res (fv_UUIDs f) else res in
      let res := if users && (ids || uuids) then intersectWithUserIDs r res (fv_UserIDs f) else res in
      let res := match fv_Enabled f with
                 | Some b => if ids || uuids || users then intersectWithEnabled r res b else res
                 | None => res
                 end in
      let res := match fv_Blocked f with
                 | Some b => if ids || uuids || users || enabled then intersectWithBlocked r res b else res
                 | None => res
                 end in
      let res := if games && (ids || uuids || users || enabled || blocked)
                 then intersectWithGameIDs r res (fv_GameIDs f) else res in
      let res := if nodes && (ids || uuids || users || enabled || blocked || games)
                 then intersectWithDSIDs r res (fv_DSIDs f) else res in
      if names && (ids || uuids || users || enabled || blocked || games || nodes)
      then intersectWithNames r res (fv_Names f) else res
  end.

Definition cmp_bool (a b : bool) : comparison :=
  match a, b with false, true => Lt | true, false => Gt | _, _ => Eq end.

Definition compareServers (a b : Server) (field : string) : comparison :=
  if String.eqb field "id" then N.compare (sv_ID a) (sv_ID b)
  else if String.eqb field "uuid" || String.eqb field "uid" then String.compare (sv_UID a) (sv_UID b)
  else if String.eqb field "uuid_short" then String.compare (sv_UUIDShort a) (sv_UUIDShort b)
  else if String.eqb field "enabled" then cmp_bool (sv_Enabled a) (sv_Enabled b)
  else if String.eqb field "installed" then Z.compare (sv_Installed a) (sv_Installed b)
  else if String.eqb field "blocked" then cmp_bool (sv_Blocked a) (sv_Blocked b)
  else if String.eqb field "name" then String.compare (sv_Name a) (sv_Name b)
  else if String.eqb field "game_id" then String.compare (sv_GameID a) (sv_GameID b)
  else if String.eqb field "ds_id" then N.compare (sv_DSID a) (sv_DSID b)
  else if String.eqb field "game_mod_id" then N.compare (sv_GameModID a) (sv_GameModID b)
  else if String.eqb field "server_ip" then String.compare (sv_ServerIP a) (sv_ServerIP b)
  else if String.eqb field "server_port" then Z.compare (sv_ServerPort a) (sv_ServerPort b)
  else if String.eqb field "dir" then String.compare (sv_Dir a) (sv_Dir b)
  else if String.eqb field "process_active" then cmp_bool (sv_ProcessActive a) (sv_ProcessActive b)
  else if String.eqb field "created_at" then opt_cmp Z.compare (sv_CreatedAt a) (sv_CreatedAt b)
  else if String.eqb field "updated_at" then opt_cmp Z.compare (sv_UpdatedAt a) (sv_UpdatedAt b)
  else Eq.

Definition sortServers (l : list Server) (order : list Sorting) : list Server := sort_rows compareServers sv_ID l order.

(** The rows of a set of ids; they are sorted afterwards. *)
Definition rows_of (r : memServerRepo) (ids : gset N) : list Server := omap (fun id => servers r !! id) (elements ids).

Definition Exists (r : memServerRepo) (filter : option FindServer) : result bool :=
  match filter with
  | None => Ok false
  | Some f =>
      let candidates := getFilteredServerIDs r filter in
      if nonempty (fv_IDs f) then Ok (bool_decide (size candidates = length (fv_IDs f)))
      else Ok (bool_decide (0 < size candidates))
  end.
Definition Count (r : memServerRepo) (filter : option FindServer) : result N :=
  Ok (N.of_nat (size (getFilteredServerIDs r filter))).
Definition FindAll (r : memServerRepo) (order : list Sorting) (p : option Pagination) : result (list Server) :=
  applyPagination (sortServers (rows_of r (visible false r (dom (servers r)))) order) p.
Definition Find (r : memServerRepo) (filter : option FindServer) (order : list Sorting) (p : option Pagination) : result (list Server) :=
  applyPagination (sortServers (rows_of r (getFilteredServerIDs r (Some (default no_filter filter)))) order) p.
Definition FindUserServers (r : memServerRepo) (userID : N) (filter : option FindServer) (order : list Sorting)
  (p : option Pagination) : result (list Server) :=
  let own := rows_of r (idx_get userID (userServers r)) in
  let candidates := getFilteredServerIDs r filter in
  applyPagination (sortServers (base.filter (fun s => sv_ID s ∈ candidates) own) order) p.

(** The server with the columns [Search] fills in. *)
Definition search_row (s : Server) : Server :=
  mkServer (sv_ID s) "" "" "" false 0 false (sv_Name s) (sv_GameID s) 0 (sv_GameModID s) None
    (sv_ServerIP s) (sv_ServerPort s) None None None "" None None None None None None None None
    false None None None None None None.

Definition is_deleted (s : Server) : bool := is_set (sv_DeletedAt s).

Definition search_matches `{Unicode} (query : string) (s : Server) : bool :=
  let queryLower := ToLower query in
  Contains (ToLower (sv_Name s)) queryLower || Contains (ToLower (sv_ServerIP s)) queryLower ||
  Contains (Itoa (sv_ServerPort s)) queryLower.

(** [n] numbers the iteration over the table. *)
Definition Search `{MapOrder} `{Unicode} (n : N) (r : memServerRepo) (query : string) : result (list Server) :=
  let live := filter (fun s => is_deleted s = false) (map snd (range n (servers r))) in
  Ok (map search_row
        (if String.length query <? 3 then take 10 live
         else filter (fun s => search_matches query s = true) live)).

(** ** Writing *)

Definition sv_set_id (i : N) (s : Server) : Server :=
  mkServer i (sv_UID s) (sv_UUID s) (sv_UUIDShort s) (sv_Enabled s) (sv_Installed s)
    (sv_Blocked s) (sv_Name s) (sv_GameID s) (sv_DSID s) (sv_GameModID s)
    (sv_Expires s) (sv_ServerIP s) (sv_ServerPort s) (sv_QueryPort s)
    (sv_RconPort s) (sv_Rcon s) (sv_Dir s) (sv_SuUser s) (sv_CPULimit s)
    (sv_RAMLimit s) (sv_NetLimit s) (sv_StartCommand s) (sv_StopCommand s)
    (sv_ForceStopCommand s) (sv_RestartCommand s) (sv_ProcessActive s)
    (sv_LastProcessCheck s) (sv_Vars s) (sv_Metadata s) (sv_CreatedAt s)
    (sv_UpdatedAt s) (sv_DeletedAt s).

Definition sv_set_times (created updated deleted : option time) (s : Server) : Server :=
  mkServer (sv_ID s) (sv_UID s) (sv_UUID s) (sv_UUIDShort s) (sv_Enabled s) (sv_Installed s)
    (sv_Blocked s) (sv_Name s) (sv_GameID s) (sv_DSID s) (sv_GameModID s)
    (sv_Expires s) (sv_ServerIP s) (sv_ServerPort s) (sv_QueryPort s)
    (sv_RconPort s) (sv_Rcon s) (sv_Dir s) (sv_SuUser s) (sv_CPULimit s)
    (sv_RAMLimit s) (sv_NetLimit s) (sv_StartCommand s) (sv_StopCommand s)
    (sv_ForceStopCommand s) (sv_RestartCommand s) (sv_ProcessActive s)
    (sv_LastProcessCheck s) (sv_Vars s) (sv_Metadata s) created updated deleted.

Definition sv_set_status (active : bool) (check : option time) (updated : option time) (s : Server) : Server :=
  mkServer (sv_ID s) (sv_UID s) (sv_UUID s) (sv_UUIDShort s) (sv_Enabled s) (sv_Installed s)
    (sv_Blocked s) (sv_Name s) (sv_GameID s) (sv_DSID s) (sv_GameModID s)
    (sv_Expires s) (sv_ServerIP s) (sv_ServerPort s) (sv_QueryPort s)
    (sv_RconPort s) (sv_Rcon s) (sv_Dir s) (sv_SuUser s) (sv_CPULimit s)
    (sv_RAMLimit s) (sv_NetLimit s) (sv_StartCommand s) (sv_StopCommand s)
    (sv_ForceStopCommand s) (sv_RestartCommand s) active
    check (sv_Vars s) (sv_Metadata s) (sv_CreatedAt s) updated (sv_DeletedAt s).

(** [Server.Hydrate]; a [uuid.UUID] is kept as its canonical text. *)
Definition Hydrate (s : Server) : Server :=
  mkServer (sv_ID s) (sv_UID s) (sv_UID s) (String.substring 0 8 (sv_UID s)) (sv_Enabled s) (sv_Installed s)
    (sv_Blocked s) (sv_Name s) (sv_GameID s) (sv_DSID s) (sv_GameModID s)
    (sv_Expires s) (sv_ServerIP s) (sv_ServerPort s) (sv_QueryPort s)
    (sv_RconPort s) (sv_Rcon s) (sv_Dir s) (sv_SuUser s) (sv_CPULimit s)
    (sv_RAMLimit s) (sv_NetLimit s) (sv_StartCommand s) (sv_StopCommand s)
    (sv_ForceStopCommand s) (sv_RestartCommand s) (sv_ProcessActive s)
    (sv_LastProcessCheck s) (sv_Vars s) (sv_Metadata s) (sv_CreatedAt s)
    (sv_UpdatedAt s) (sv_DeletedAt s).

(** What both saves do once the times are set: take the old row out of the
    indexes or draw an id, store the hydrated copy, index it.  The caller's
    pointer keeps everything but the id. *)
Definition store_server (s : Server) : M memServerRepo Server := fun r =>
  let '(s, r) :=
    if negb (sv_ID s =? 0)%N then
      (s, match servers r !! sv_ID s with Some old => removeFromIndexes old r | None => r end)
    else let id := wrap32 (sr_nextID r + 1) in (sv_set_id id s, sr_set_nextID id r) in
  let row := Hydrate s in
  (Ok s, addToIndexes row (sr_set_servers (<[sv_ID s := row]> (servers r)) r)).

Section clock.
Context `{WallClock}.

(** The next reading of [time.Now()]. *)
Definition read_clock : M memServerRepo time := fun r => (Ok (now_at (sr_ticks r)), sr_tick r).

Definition Save (server : Server) : M memServerRepo Server :=
  let! now := read_clock in
  let server := sv_set_times (sv_CreatedAt server) (Some now) (sv_DeletedAt server) server in
  if (sv_ID server =? 0)%N && match sv_CreatedAt server with None => true | Some c => IsZero c end then
    let! created := read_clock in
    store_server (sv_set_times (Some created) (sv_UpdatedAt server) (sv_DeletedAt server) server)
  else store_server server.

(** The servers as their pointers leave the call; nothing is read off the
    clock. *)
Fixpoint SaveBulk (l : list Server) : M memServerRepo (list Server) :=
  match l with
  | [] => ret []
  | s :: l =>
      let! s := store_server s in
      let! l := SaveBulk l in ret (s :: l)
  end.

Definition update_status (nodeID : N) (now : time) (u : ServerStatusUpdate) (m : gmap N Server) : gmap N Server :=
  match m !! su_ID u with
  | Some s =>
      if (sv_DSID s =? nodeID)%N
      then <[su_ID u := sv_set_status (su_ProcessActive u) (Some (su_LastProcessCheck u)) (Some now) s]> m
      else m
  | None => m
  end.

Definition UpdateServerStatuses (nodeID : N) (statuses : list ServerStatusUpdate) : M memServerRepo unit :=
  match statuses with
  | [] => ret tt
  | _ =>
      let! now := read_clock in
      modify (fun r => sr_set_servers (foldl (fun m u => update_status nodeID now u m) (servers r) statuses) r)
  end.

Definition SoftDelete (id : N) : M memServerRepo unit := fun r =>
  match servers r !! id with
  | Some s =>
      let r' := sr_tick r in
      (Ok tt, sr_set_servers
         (<[id := sv_set_times (sv_CreatedAt s) (sv_UpdatedAt s) (Some (now_at (sr_ticks r))) s]> (servers r)) r')
  | None => (Ok tt, r)
  end.
End clock.

(** Users left without a server lose their entry. *)
Definition Delete (id : N) : M memServerRepo unit := modify (fun r =>
  let r := match servers r !! id with Some s => removeFromIndexes s r | None => r end in
  sr_set_users (omap (fun ids : gset N => let ids := ids ∖ {[id]} in if decide (size ids = 0) then None else Some ids)
                 (userServers r))
    (sr_set_servers (delete id (servers r)) r)).

(** ** The invariant *)

Definition key_uuid (s : Server) : option string := Some (sv_UID s).
Definition key_game (s : Server) : option string := Some (sv_GameID s).
Definition key_node (s : Server) : option N := Some (sv_DSID s).
Definition key_mod (s : Server) : option N := Some (sv_GameModID s).
Definition key_name (s : Server) : option string := Some (sv_Name s).
Definition key_enabled (s : Server) : option bool := Some (sv_Enabled s).
Definition key_blocked (s : Server) : option bool := Some (sv_Blocked s).

(** Rows are stored under their own id, ids are between 1 and the counter, and
    the seven indexes agree with the table. *)
Record srv_inv (r : memServerRepo) : Prop := {
  si_id : forall i s, servers r !! i = Some s -> sv_ID s = i /\ (0 < i <= sr_nextID r)%N;
  si_uuid : idx_ok key_uuid (uuidIndex r) (servers r);
  si_game : idx_ok key_game (gameIDIndex r) (servers r);
  si_node : idx_ok key_node (dsidIndex r) (servers r);
  si_mod : idx_ok key_mod (gameModIDIndex r) (servers r);
  si_name : idx_ok key_name (nameIndex r) (servers r);
  si_enabled : idx_ok key_enabled (enabledIndex r) (servers r);
  si_blocked : idx_ok key_blocked (blockedIndex r) (servers r);
}.

Definition sr_room (n : nat) (r : memServerRepo) : Prop := (sr_nextID r + N.of_nat n < two32)%N.

Lemma srv_inv_new : srv_inv NewServerRepository.
Proof. split; try apply idx_ok_empty. intros i s. simpl. by rewrite lookup_empty. Qed.

Lemma srv_inv_insert r row :
  servers r !! sv_ID row = None -> (0 < sv_ID row <= sr_nextID r)%N -> srv_inv r ->
  srv_inv (addToIndexes row (sr_set_servers (<[sv_ID row := row]> (servers r)) r)).
Proof.
  intros Hnone Hid [Hids ? ? ? ? ? ? ?]. split; simpl.
  - intros i s. rewrite lookup_insert. case_decide; [|apply Hids]. by intros [= <-]; subst.
  - by apply (idx_ok_insert key_uuid).
  - by apply (idx_ok_insert key_game).
  - by apply (idx_ok_insert key_node).
  - by apply (idx_ok_insert key_mod).
  - by apply (idx_ok_insert key_name).
  - by apply (idx_ok_insert key_enabled).
  - by apply (idx_ok_insert key_blocked).
Qed.

Lemma srv_inv_remove r id old :
  servers r !! id = Some old -> srv_inv r ->
  srv_inv (sr_set_servers (delete id (servers r)) (removeFromIndexes old r)).
Proof.
  intros Hold [Hids ? ? ? ? ? ? ?]. destruct (Hids _ _ Hold) as [Hid _].
  split; simpl; rewrite ?Hid.
  - intros i s. rewrite lookup_delete. case_decide; [done|apply Hids].
  - by apply (idx_ok_delete key_uuid).
  - by apply (idx_ok_delete key_game).
  - by apply (idx_ok_delete key_node).
  - by apply (idx_ok_delete key_mod).
  - by apply (idx_ok_delete key_name).
  - by apply (idx_ok_delete key_enabled).
  - by apply (idx_ok_delete key_blocked).
Qed.

(** A row update that keeps the id and the indexed columns. *)
Definition same_keys (s s' : Server) : Prop :=
  sv_ID s' = sv_ID s /\ key_uuid s' = key_uuid s /\ key_game s' = key_game s /\ key_node s' = key_node s /\
  key_mod s' = key_mod s /\ key_name s' = key_name s /\ key_enabled s' = key_enabled s /\
  key_blocked s' = key_blocked s.

Lemma srv_inv_same r id s s' :
  servers r !! id = Some s -> same_keys s s' -> srv_inv r ->
  srv_inv (sr_set_servers (<[id := s']> (servers r)) r).
Proof.
  intros Hs (Hi & ? & ? & ? & ? & ? & ? & ?) [Hids ? ? ? ? ? ? ?]. split; simpl.
  - intros i x. rewrite lookup_insert. case_decide; [|apply Hids]. intros [= <-]. subst. rewrite Hi. by apply Hids.
  - by apply (idx_ok_same_key _ _ _ _ s).
  - by apply (idx_ok_same_key _ _ _ _ s).
  - by apply (idx_ok_same_key _ _ _ _ s).
  - by apply (idx_ok_same_key _ _ _ _ s).
  - by apply (idx_ok_same_key _ _ _ _ s).
  - by apply (idx_ok_same_key _ _ _ _ s).
  - by apply (idx_ok_same_key _ _ _ _ s).
Qed.

(** The counter only grows, users and the clock do not matter. *)
Lemma srv_inv_sides r r' :
  servers r' = servers r -> (sr_nextID r <= sr_nextID r')%N ->
  uuidIndex r' = uuidIndex r -> gameIDIndex r' = gameIDIndex r -> dsidIndex r' = dsidIndex r ->
  gameModIDIndex r' = gameModIDIndex r -> nameIndex r' = nameIndex r -> enabledIndex r' = enabledIndex r ->
  blockedIndex r' = blockedIndex r -> srv_inv r -> srv_inv r'.
Proof.
  intros Hs Hn E1 E2 E3 E4 E5 E6 E7 [Hids ? ? ? ? ? ? ?].
  split; rewrite ?Hs, ?E1, ?E2, ?E3, ?E4, ?E5, ?E6, ?E7; try done.
  intros i s Hi. destruct (Hids _ _ Hi). split; [done|lia].
Qed.

(** ** What a filter selects *)

Section filtering.
Context (r : memServerRepo) (Hinv : srv_inv r).

Definition opt_is_any (o : option bool) (b : bool) : bool := match o with None => true | Some x => Bool.eqb b x end.
Definition user_has (users : list N) (id : N) : bool :=
  match users with [] => true | _ => bool_decide (List.Exists (fun u => id ∈ idx_get u (userServers r)) users) end.

(** The filters that take part besides game mods and names. *)
Definition constrained (f : FindServer) : bool :=
  nonempty (fv_IDs f) || nonempty (fv_UUIDs f) || nonempty (fv_UserIDs f) || is_set (fv_Enabled f) ||
  is_set (fv_Blocked f) || nonempty (fv_GameIDs f) || nonempty (fv_DSIDs f).

(** The rows a filter selects.  The game mods only count when nothing but
    names is asked for besides them, and the names do not count next to them. *)
Definition server_matches (f : FindServer) (s : Server) : bool :=
  (fv_WithDeleted f || negb (is_deleted s)) &&
  in_or_any (sv_ID s) (fv_IDs f) &&
  in_or_any (sv_UID s) (fv_UUIDs f) &&
  user_has (fv_UserIDs f) (sv_ID s) &&
  opt_is_any (fv_Enabled f) (sv_Enabled s) &&
  opt_is_any (fv_Blocked f) (sv_Blocked s) &&
  in_or_any (sv_GameID s) (fv_GameIDs f) &&
  in_or_any (sv_DSID s) (fv_DSIDs f) &&
  (constrained f || in_or_any (sv_GameModID s) (fv_GameModIDs f)) &&
  (negb (constrained f) && nonempty (fv_GameModIDs f) || in_or_any (sv_Name s) (fv_Names f)).

Definition opt_server_matches (f : option FindServer) (s : Server) : bool :=
  match f with None => negb (is_deleted s) | Some f => server_matches f s end.

Lemma in_or_any_iff {A} `{EqDecision A} (x : A) l : in_or_any x l = true <-> (nonempty l = true -> x ∈ l).
Proof. destruct l; simpl; [naive_solver|]. rewrite bool_decide_eq_true. naive_solver. Qed.

Lemma user_has_iff users id :
  user_has users id = true <-> (nonempty users = true -> exists u, u ∈ users /\ id ∈ idx_get u (userServers r)).
Proof.
  unfold user_has. destruct users as [|u l]; simpl; [naive_solver|]. rewrite bool_decide_eq_true, list.Exists_exists.
  naive_solver.
Qed.

Lemma opt_is_any_iff o b : opt_is_any o b = true <-> (forall x, o = Some x -> b = x).
Proof. destruct o as [x|]; simpl; [|naive_solver]. rewrite Bool.eqb_true_iff. naive_solver. Qed.

Lemma elem_of_visible wd ids id s :
  servers r !! id = Some s -> id ∈ visible wd r ids <-> (wd || negb (is_deleted s) = true) /\ id ∈ ids.
Proof.
  intros Hs. unfold visible, is_deleted, is_set. rewrite elem_of_filter, Hs.
  destruct (sv_DeletedAt s); simpl; rewrite ?orb_true_r, ?orb_false_r; naive_solver.
Qed.

Lemma visible_in_dom wd ids id : id ∈ visible wd r ids -> is_Some (servers r !! id).
Proof. unfold visible. rewrite elem_of_filter. intros [Hm _]. destruct (servers r !! id); [eauto|done]. Qed.

Lemma first_server_in_dom f id : id ∈ first_filter r f -> is_Some (servers r !! id).
Proof. unfold first_filter. repeat case_match; apply visible_in_dom. Qed.

Lemma elem_of_keep {K} `{Countable K} (c : bool) res (ks : list K) m id :
  id ∈ (if c then idx_intersect res ks m else res) <->
  id ∈ res /\ (c = true -> exists k, k ∈ ks /\ id ∈ idx_get k m).
Proof. destruct c; [|naive_solver]. rewrite elem_of_idx_intersect. naive_solver. Qed.

Lemma row_has_key {K} `{Countable K} (key : Server -> K) m (ks : list K) id s :
  idx_ok (fun s => Some (key s)) m (servers r) -> servers r !! id = Some s ->
  (exists k, k ∈ ks /\ id ∈ idx_get k m) <-> key s ∈ ks.
Proof. intros Hok Hs. setoid_rewrite (idx_get_key _ m _ _ _ _ Hok Hs). naive_solver. Qed.

(** One branch of the filter at a time; what is left is propositional. *)
Ltac filter_branches :=
  repeat (lazymatch goal with |- context [if ?c then visible _ _ _ else _] => destruct c end;
          rewrite ?orb_true_r, ?orb_true_l, ?orb_false_r, ?orb_false_l, ?andb_true_r, ?andb_false_r).

(** A row is a candidate exactly when the filter selects it. *)
Lemma filtered_server f id s :
  servers r !! id = Some s ->
  id ∈ getFilteredServerIDs r f <-> opt_server_matches f s = true.
Proof.
  intros Hs. destruct f as [f|]; simpl.
  2: { rewrite (elem_of_visible false _ id s Hs), elem_of_dom, Hs. simpl. naive_solver. }
  unfold server_matches. rewrite !andb_true_iff, !(orb_true_iff _ (in_or_any _ _)), !in_or_any_iff, user_has_iff.
  destruct Hinv as [Hid H1 H2 H3 H4 H5 H6 H7]. destruct (Hid _ _ Hs) as [Ei _].
  unfold intersectWithNames, intersectWithDSIDs, intersectWithGameIDs, intersectWithBlocked, intersectWithEnabled,
    intersectWithUserIDs, intersectWithUUIDs.
  pose proof (fun ks => row_has_key sv_UID _ ks _ _ H1 Hs) as E1.
  pose proof (fun ks => row_has_key sv_GameID _ ks _ _ H2 Hs) as E2.
  pose proof (fun ks => row_has_key sv_DSID _ ks _ _ H3 Hs) as E3.
  pose proof (fun ks => row_has_key sv_GameModID _ ks _ _ H4 Hs) as E4.
  pose proof (fun ks => row_has_key sv_Name _ ks _ _ H5 Hs) as E5.
  pose proof (fun ks => row_has_key sv_Enabled _ ks _ _ H6 Hs) as E6.
  pose proof (fun ks => row_has_key sv_Blocked _ ks _ _ H7 Hs) as E7.
  rewrite !elem_of_keep, E5, E3, E2.
  set (wd := fv_WithDeleted f || negb (is_deleted s) = true).
  assert (Hfirst : forall ids, id ∈ visible (fv_WithDeleted f) r ids <-> wd /\ id ∈ ids)
    by (intros ids; by apply elem_of_visible).
  assert (Hdom : id ∈ dom (servers r) <-> True) by (rewrite elem_of_dom, Hs; naive_solver).
  set (u := exists u, u ∈ fv_UserIDs f /\ sv_ID s ∈ idx_get u (userServers r)).
  assert (E8 : (exists k, k ∈ fv_UserIDs f /\ id ∈ idx_get k (userServers r)) <-> u) by by rewrite <- Ei.
  assert (Hen : forall b, key_enabled s = Some b <-> sv_Enabled s = b) by (intros b; unfold key_enabled; naive_solver).
  assert (Hbl : forall b, key_blocked s = Some b <-> sv_Blocked s = b) by (intros b; unfold key_blocked; naive_solver).
  rewrite ?E8. unfold first_filter, constrained.
  destruct (fv_Enabled f) as [b|], (fv_Blocked f) as [b'|]; cbn [opt_is_any is_set];
    rewrite ?Bool.eqb_true_iff, ?elem_of_keep, ?E6, ?E7, ?list_elem_of_singleton;
    filter_branches;
    rewrite ?Hfirst, ?elem_of_list_to_set, ?elem_of_idx_union, ?Hdom, ?E1, ?E2, ?E3, ?E4, ?E5, ?E6, ?E7, ?E8, ?Ei,
      ?(idx_get_key _ _ _ _ _ _ H6 Hs), ?(idx_get_key _ _ _ _ _ _ H7 Hs), ?Hen, ?Hbl; cbn [negb andb]; clear; intuition congruence.
Qed.

Lemma filtered_server_in_dom f id : id ∈ getFilteredServerIDs r f -> is_Some (servers r !! id).
Proof.
  destruct f as [f|]; simpl; [|apply visible_in_dom]. intros Hin. apply (first_server_in_dom f). revert Hin.
  unfold intersectWithNames, intersectWithDSIDs, intersectWithGameIDs, intersectWithBlocked, intersectWithEnabled,
    intersectWithUserIDs, intersectWithUUIDs.
  repeat case_match; rewrite ?elem_of_idx_intersect; tauto.
Qed.

Lemma elem_of_server_rows ids s : s ∈ rows_of r ids <-> sv_ID s ∈ ids /\ servers r !! sv_ID s = Some s.
Proof.
  unfold rows_of. rewrite list_elem_of_omap. setoid_rewrite elem_of_elements.
  split; [|naive_solver]. intros (i & Hi & Hs). by destruct (si_id r Hinv _ _ Hs) as [<- _].
Qed.

Lemma server_rows_ids ids :
  (forall i, i ∈ ids -> is_Some (servers r !! i)) -> map sv_ID (rows_of r ids) = elements ids.
Proof.
  intros Hdom. unfold rows_of.
  assert (Hall : forall i, i ∈ elements ids -> is_Some (servers r !! i)) by set_solver.
  induction (elements ids) as [|i l IH]; simpl; [done|].
  destruct (Hall i) as [s Hs]; [set_solver|]. rewrite Hs. simpl.
  destruct (si_id r Hinv _ _ Hs) as [-> _]. f_equal. apply IH. set_solver.
Qed.

(** [Find] without order or page: the selected rows in ascending id order. *)
Lemma Find_servers f l :
  Find r f [] None = Ok l ->
  StronglySorted (fun a b => sv_ID a < sv_ID b)%N l /\
  forall s, s ∈ l <-> servers r !! sv_ID s = Some s /\ server_matches (default no_filter f) s = true.
Proof.
  unfold Find, applyPagination. intros <-%Ok_inj. split.
  - apply (ids_strictly_sorted sv_ID); [apply sort_rows_default|].
    unfold sortServers. rewrite (sort_rows_perm compareServers sv_ID), server_rows_ids; [apply NoDup_elements|].
    intros i. apply filtered_server_in_dom.
  - intros s. unfold sortServers. rewrite (sort_rows_perm compareServers sv_ID), elem_of_server_rows.
    split; intros [H1 H2]; (split; [|]); try done; by apply (filtered_server (Some (default no_filter f)) (sv_ID s) s).
Qed.

End filtering.

(** ** Writing keeps the invariant *)

Definition storable (r : memServerRepo) (s : Server) : Prop :=
  if decide (sv_ID s = 0%N) then sr_room 1 r else is_Some (servers r !! sv_ID s).

(** The stored server gets its id back; its row is the hydrated copy. *)
Lemma store_server_spec s r :
  srv_inv r -> storable r s ->
  exists s' r', store_server s r = (Ok s', r') /\ srv_inv r' /\
    s' = sv_set_id (sv_ID s') s /\ userServers r' = userServers r /\
    servers r' = <[sv_ID s' := Hydrate s']> (servers r) /\
    (if decide (sv_ID s = 0%N) then servers r !! sv_ID s' = None else sv_ID s' = sv_ID s) /\
    (forall n, sr_room (if decide (sv_ID s = 0%N) then S n else n) r -> sr_room n r').
Proof.
  intros Hinv Hst. unfold storable, store_server in *. case_decide as Hid.
  - rewrite Hid. simpl. assert (Hw : wrap32 (sr_nextID r + 1) = (sr_nextID r + 1)%N)
      by (apply N.mod_small; exact Hst). rewrite Hw.
    assert (Hnone : servers r !! (sr_nextID r + 1)%N = None).
    { destruct (servers r !! _) eqn:E; [|done]. destruct (si_id r Hinv _ _ E). lia. }
    eexists _, _. split; [done|]. split_and!; try done.
    + apply (srv_inv_insert (sr_set_nextID (sr_nextID r + 1) r) (Hydrate (sv_set_id (sr_nextID r + 1) s)));
        [done|simpl; lia|]. apply (srv_inv_sides r); simpl; try done. lia.
    + intros n. unfold sr_room. simpl. lia.
  - destruct Hst as [old Hold]. rewrite (proj2 (N.eqb_neq _ _) Hid), Hold. simpl.
    destruct (si_id r Hinv _ _ Hold) as [_ Hrange].
    eexists _, _. split; [done|]. split_and!; try done; [|by destruct s].
    pose proof (srv_inv_insert (sr_set_servers (delete (sv_ID s) (servers r)) (removeFromIndexes old r)) (Hydrate s)) as HI.
    simpl in HI. rewrite insert_delete_eq in HI. apply HI; [by rewrite lookup_delete_eq|done|].
    by apply srv_inv_remove.
Qed.

Lemma read_clock_inv `{WallClock} r : srv_inv r -> srv_inv (sr_tick r).
Proof. intros Hi. apply (srv_inv_sides r); simpl; try done. Qed.

(** What a save does to a server before it is stored: a fresh update time, and
    a creation time for a new server that has none. *)
Definition restamped (updated created : time) (s : Server) : Server :=
  sv_set_times
    (if (sv_ID s =? 0)%N && match sv_CreatedAt s with None => true | Some c => IsZero c end
     then Some created else sv_CreatedAt s) (Some updated) (sv_DeletedAt s) s.

Section writing.
Context `{WallClock}.

Lemma server_Save_spec s r :
  srv_inv r -> storable r s ->
  exists updated created s' r', Save s r = (Ok s', r') /\ srv_inv r' /\
    s' = sv_set_id (sv_ID s') (restamped updated created s) /\ userServers r' = userServers r /\
    servers r' = <[sv_ID s' := Hydrate s']> (servers r) /\
    (if decide (sv_ID s = 0%N) then servers r !! sv_ID s' = None else sv_ID s' = sv_ID s) /\
    (forall n, sr_room (if decide (sv_ID s = 0%N) then S n else n) r -> sr_room n r').
Proof.
  intros Hinv Hst. exists (now_at (sr_ticks r)), (now_at (sr_ticks r + 1)).
  set (s1 := restamped (now_at (sr_ticks r)) (now_at (sr_ticks r + 1)) s).
  assert (Hrun : exists r0, Save s r = store_server s1 r0 /\ srv_inv r0 /\ servers r0 = servers r /\
    userServers r0 = userServers r /\ sr_nextID r0 = sr_nextID r).
  { unfold Save, bind, read_clock, s1, restamped. simpl.
    destruct ((sv_ID s =? 0)%N && _).
    - exists (sr_tick (sr_tick r)). split_and!; try done. by do 2 apply read_clock_inv.
    - exists (sr_tick r). split_and!; try done. by apply read_clock_inv. }
  destruct Hrun as (r0 & -> & Hi0 & Hs0 & Hu0 & Hn0).
  destruct (store_server_spec s1 r0 Hi0) as (s' & r' & E & Hi' & Hs' & Hu' & Hr' & Hid' & Hroom').
  { unfold storable, sr_room in *. by rewrite Hs0, Hn0. }
  exists s', r'. rewrite Hs0 in *. split_and!; try done; [congruence|].
  intros n Hroom. apply Hroom'. unfold sr_room in *. by rewrite Hn0.
Qed.

Lemma update_status_same node now u m i s :
  update_status node now u m !! i = Some s -> exists s0, m !! i = Some s0 /\ same_keys s0 s.
Proof.
  unfold update_status. destruct (m !! su_ID u) as [x|] eqn:Ex; [|intros; by exists s].
  destruct (_ =? _)%N; [|intros; by exists s]. rewrite lookup_insert. case_decide; [|intros; by exists s].
  intros [= <-]. subst. by exists x.
Qed.

Lemma update_status_inv node now u r : srv_inv r -> srv_inv (sr_set_servers (update_status node now u (servers r)) r).
Proof.
  intros Hi. unfold update_status. destruct (servers r !! su_ID u) as [x|] eqn:Ex; [|by apply (srv_inv_sides r)].
  destruct (_ =? _)%N; [|by apply (srv_inv_sides r)]. by apply (srv_inv_same r _ x).
Qed.

Lemma update_statuses_inv node now l : forall r, srv_inv r ->
  srv_inv (sr_set_servers (foldl (fun m u => update_status node now u m) (servers r) l) r).
Proof.
  induction l as [|u l IH]; intros r Hi; simpl; [by apply (srv_inv_sides r)|].
  by apply (IH (sr_set_servers (update_status node now u (servers r)) r)), update_status_inv.
Qed.

Lemma Delete_inv id r : srv_inv r -> srv_inv (snd (Delete id r)).
Proof.
  intros Hi. unfold Delete, modify. simpl. destruct (servers r !! id) as [s|] eqn:Es.
  - by apply (srv_inv_sides (sr_set_servers (delete id (servers r)) (removeFromIndexes s r))); [..|apply (srv_inv_remove r id s)].
  - rewrite delete_id by done. by apply (srv_inv_sides r).
Qed.

Lemma SoftDelete_inv id r : srv_inv r -> srv_inv (snd (SoftDelete id r)).
Proof.
  intros Hi. unfold SoftDelete. destruct (servers r !! id) as [s|] eqn:Es; [|done]. simpl.
  apply (srv_inv_same (sr_tick r) id s); [done|done|by apply read_clock_inv].
Qed.

Lemma SaveBulk_spec l : forall r,
  srv_inv r -> sr_room (length l) r -> Forall (fun s => sv_ID s = 0%N \/ is_Some (servers r !! sv_ID s)) l ->
  exists l' r', SaveBulk l r = (Ok l', r') /\ srv_inv r'.
Proof.
  induction l as [|s l IH]; intros r Hi Hroom Hl; simpl; [by exists [], r|].
  inversion Hl as [|? ? Hs Hl']; subst. simpl in Hroom.
  destruct (store_server_spec s r Hi) as (s' & r1 & E & Hi1 & _ & _ & Hr1 & _ & Hroom1).
  { unfold storable. case_decide; [unfold sr_room in *; lia|]. by destruct Hs. }
  destruct (IH r1 Hi1) as (l' & r2 & E2 & Hi2).
  - apply Hroom1. case_decide; unfold sr_room in *; lia.
  - eapply Forall_impl; [exact Hl'|]. intros x [|Hx]; [by left|right]. rewrite Hr1, lookup_insert_is_Some'. by right.
  - exists (s' :: l'), r2. split; [|done]. unfold bind. by rewrite E, E2.
Qed.
End writing.

(** ** The interface is implemented *)

Definition live_rows (r : memServerRepo) : gmap N Server := filter (fun x => is_deleted x.2 = false) (servers r).

Section contract.
Context `{WallClock}.

#[export] Instance memServerRepo_ops : ServerRepository memServerRepo := {
  SV_FindByIDs r ids := Find r (Some (FindServerByIDs ids)) [] None;
  SV_FindByDSID r node := Find r (Some (FindServerByNodeIDs [node])) [] None;
  SV_Save s := let! _ := Save s in ret tt;
}.

Lemma live_row r i s : live_rows r !! i = Some s <-> servers r !! i = Some s /\ is_deleted s = false.
Proof. unfold live_rows. by rewrite map_lookup_filter_Some. Qed.

Lemma Find_by_id r i l :
  srv_inv r -> Find r (Some (FindServerByIDs [i])) [] None = Ok l ->
  l = match live_rows r !! i with Some s => [s] | None => [] end.
Proof.
  intros Hinv E. destruct (Find_servers r Hinv _ _ E) as [Hsort Hel].
  assert (Hall : forall s, s ∈ l <-> live_rows r !! i = Some s).
  { intros s. rewrite Hel, live_row. unfold server_matches. simpl.
    rewrite !andb_true_r, andb_true_iff, bool_decide_eq_true, list_elem_of_singleton, negb_true_iff.
    split; [intros (H1 & H2 & <-); done|]. intros [H1 H2]. destruct (si_id r Hinv _ _ H1) as [Hi _]. by rewrite Hi. }
  destruct l as [|x l].
  { destruct (live_rows r !! i) eqn:Er; [|done]. exfalso. apply (list.elem_of_nil s). by apply Hall. }
  assert (Hx : live_rows r !! i = Some x) by (apply Hall; set_solver). rewrite Hx. f_equal.
  destruct l as [|y l]; [done|]. exfalso.
  assert (Hy : live_rows r !! i = Some y) by (apply Hall; set_solver).
  apply StronglySorted_inv in Hsort as [_ Hs]. inversion Hs; subst. rewrite Hx in Hy. injection Hy as <-. lia.
Qed.

#[export, program] Instance memServerRepo_laws : ServerRepositoryLaws memServerRepo := {
  sv_inv := srv_inv; sv_rows := live_rows;
}.
Next Obligation. intros r i s Hinv [Hs _]%live_row. by destruct (si_id r Hinv _ _ Hs). Qed.
Next Obligation. intros r i l. apply Find_by_id. Qed.
Next Obligation. done. Qed.
Next Obligation.
  intros r n l Hinv E. destruct (Find_servers r Hinv _ _ E) as [Hsort Hel].
  split; [by apply (sorted_ids_nodup sv_ID)|]. intros s. rewrite Hel, live_row. unfold server_matches. simpl.
  rewrite !andb_true_r, andb_true_iff, bool_decide_eq_true, list_elem_of_singleton, negb_true_iff. tauto.
Qed.
Next Obligation. done. Qed.
Next Obligation.
  intros i s r res r' Hinv [Hs Hd]%live_row E. simpl in E.
  destruct (server_Save_spec (sv_set_installed i s) r Hinv) as (up & cr & s' & r1 & E1 & Hi & Hs' & _ & Hr & Hid & _).
  { unfold storable. destruct (si_id r Hinv _ _ Hs) as [Hn ?]. rewrite decide_False by (simpl; lia). eauto. }
  unfold bind in E. rewrite E1 in E. injection E as <- <-. split; [done|].
  destruct (si_id r Hinv _ _ Hs) as [_ ?]. rewrite decide_False in Hid by (simpl; lia). simpl in Hid.
  exists (Hydrate s'). split; [|by rewrite Hs'].
  unfold live_rows. rewrite Hr, Hid. apply map_filter_insert_True. rewrite Hs'. exact Hd.
Qed.

Lemma memServerRepo_total : servers_total memServerRepo.
Proof.
  split_and!; [done|done|]. intros s r. simpl. unfold bind, Save, read_clock, store_server. simpl.
  repeat case_match; simplify_eq; simpl in *; try done; unfold bind in *; simpl in *; repeat case_match; by simplify_eq.
Qed.
End contract.

(** ** Reachable repositories *)

(** Any call, saves while ids remain and of new or stored servers. *)
Inductive server_step `{WallClock} : memServerRepo -> memServerRepo -> Prop :=
| sstep_save s r : storable r s -> server_step r (snd (Save s r))
| sstep_bulk l r : sr_room (length l) r ->
    Forall (fun s => sv_ID s = 0%N \/ is_Some (servers r !! sv_ID s)) l -> server_step r (snd (SaveBulk l r))
| sstep_statuses node l r : server_step r (snd (UpdateServerStatuses node l r))
| sstep_delete id r : server_step r (snd (Delete id r))
| sstep_soft_delete id r : server_step r (snd (SoftDelete id r))
| sstep_add_user u s r : server_step r (AddUserServer u s r)
| sstep_remove_user u s r : server_step r (RemoveUserServer u s r)
| sstep_set_users u l r : server_step r (snd (SetUserServers u l r)).

Definition server_reachable `{WallClock} : memServerRepo -> Prop := rtc server_step NewServerRepository.

Lemma server_step_inv `{WallClock} r r' : server_step r r' -> srv_inv r -> srv_inv r'.
Proof.
  intros [s r0 Hs|l r0 Hroom Hl|node l r0|id r0|id r0|u s r0|u s r0|u l r0] Hi.
  - destruct (server_Save_spec s r0 Hi Hs) as (? & ? & ? & ? & -> & ? & _). done.
  - destruct (SaveBulk_spec l r0 Hi Hroom Hl) as (? & ? & -> & ?). done.
  - destruct l as [|x l]; [done|]. apply (update_statuses_inv _ _ (x :: l) (sr_tick r0)). by apply read_clock_inv.
  - by apply Delete_inv.
  - by apply SoftDelete_inv.
  - by apply (srv_inv_sides r0).
  - by apply (srv_inv_sides r0).
  - by apply (srv_inv_sides r0).
Qed.

Lemma server_reachable_inv `{WallClock} r : server_reachable r -> srv_inv r.
Proof. unfold server_reachable. revert r. apply rtc_ind_r; eauto using srv_inv_new, server_step_inv. Qed.

(** C2: in every repository reachable from the empty one by any sequence of
    saves, bulk saves, status updates, deletions and changes of user rights,
    [Find] without order or page succeeds and returns exactly the rows of the
    table that [server_matches] selects, in strictly ascending id order, and
    [Count] returns their number: the evaluation through the seven indexes and
    the user sets is a table scan.  The scan is the effective one: as soon as
    the filter constrains anything but names, its game mods select nothing and
    exclude nothing. *)
Theorem server_find_is_table_scan `{WallClock} r f :
  server_reachable r ->
  (exists l, Find r (Some f) [] None = Ok l /\
    StronglySorted (fun a b => sv_ID a < sv_ID b)%N l /\
    (forall s, s ∈ l <-> servers r !! sv_ID s = Some s /\ server_matches r f s = true) /\
    Count r (Some f) = Ok (N.of_nat (length l))) /\
  (constrained f = true -> forall mods s,
    server_matches r f s = server_matches r (mkFindServer (fv_IDs f) (fv_UUIDs f) (fv_UserIDs f) (fv_Enabled f)
      (fv_Blocked f) (fv_GameIDs f) (fv_DSIDs f) mods (fv_Names f) (fv_WithDeleted f)) s).
Proof.
  intros Hr%server_reachable_inv. split.
  - destruct (Find r (Some f) [] None) as [l|e|w] eqn:E; [|done|done].
    destruct (Find_servers r Hr _ _ E) as [Hs Hel]. exists l. split_and!; [done|done|done|].
    unfold Find, applyPagination, sortServers in E. apply Ok_inj in E. subst l.
    rewrite (sort_rows_perm compareServers sv_ID), <- (length_map sv_ID), server_rows_ids; [done..|].
    intros i. by apply filtered_server_in_dom.
  - intros Hc mods s. unfold server_matches, constrained in *. simpl. by rewrite Hc.
Qed.

Definition sample_game_server (node mod_ : N) (name : string) : Server :=
  mkServer 0 "11111111-2222-3333-4444-555555555555" "" "" true 1 false name "cstrike" node mod_ None "10.0.0.1" 27015
    None None None "" None None None None None None None None false None None None None None None.

Definition sample_servers : memServerRepo :=
  snd (@SoftDelete ticking 3 (snd (SaveBulk [sample_game_server 7 1 "a"; sample_game_server 7 2 "b";
    sample_game_server 7 1 "c"] (AddUserServer 5 2 NewServerRepository)))).

Lemma sample_servers_reachable : @server_reachable ticking sample_servers.
Proof.
  unfold server_reachable, sample_servers. eapply rtc_r; [|apply sstep_soft_delete].
  eapply rtc_r; [|apply sstep_bulk; [reflexivity|repeat constructor]].
  eapply rtc_r; [|apply sstep_add_user]. apply rtc_refl.
Defined.

(** Asking for game mod 1 on node 7 also gives the server with mod 2. *)
Lemma server_find_is_table_scan_witness :
  @server_reachable ticking sample_servers /\
  exists l, Find sample_servers (Some (mkFindServer [] [] [] None None [] [7%N] [1%N] [] false)) [] None = Ok l /\
    map sv_ID l = [1%N; 2%N].
Proof.
  split; [exact sample_servers_reachable|].
  destruct (@server_find_is_table_scan ticking sample_servers (mkFindServer [] [] [] None None [] [7%N] [1%N] [] false)
    sample_servers_reachable) as [(l & E & _) _].
  exists l. split; [exact E|]. vm_compute in E. injection E as <-. reflexivity.
Defined.
