(* ===== verification/RBAC.v ===== *)
(** Access control ([internal/rbac/rbac.go], [internal/rbac/cache.go]): the
    permissions in force for a user (his own, then those of his roles), the
    four questions asked of them, the changes to roles and abilities, and the
    cache in front of it all.  The service is proved against the repository's
    laws; the last part runs it on the in-memory repository. *)

From S2P Require Import Prelude.
From S2P Require Import GoNum.
From S2P Require Import Domain.
From S2P Require Import GoRuntime.
From S2P Require Import RBACRepo.
From stdpp Require Import base tactics strings list gmap numbers.
From Stdlib Require Import NArith ZArith.

(** Permissions by the name of their ability. *)
Abbreviation Permissions := (gmap string (list Permission)).

(** ** The cache *)

Definition cacheKey : Type := EntityType * N.
Record cacheEntry : Type := mkCacheEntry { ce_Permissions : Permissions; ce_ExpiresAt : time }.

(** [now.After(e.ExpiresAt)] *)
Definition IsExpired (now : time) (e : cacheEntry) : bool := (ce_ExpiresAt e <? now)%Z.

Record RBACState (R : Type) : Type := mkRBACState {
  ac_repo : R;
  ac_cache : gmap cacheKey cacheEntry;
  ac_clock : N;
}.
Arguments mkRBACState {R}.
Arguments ac_repo {R}.
Arguments ac_cache {R}.
Arguments ac_clock {R}.

Definition InvalidRoleName (name : string) : error := ENew ("invalid role name: " +:+ name).

Definition deref {A} (o : option A) : result A :=
  match o with Some x => Ok x | None => Panic "nil pointer dereference" end.

(** ** Decisions over the permissions of one ability name *)

(** The ability applies everywhere; to this entity; to what the caller asks. *)
Definition is_global (a : Ability) : bool :=
  match ab_EntityType a, ab_EntityID a with None, None => true | _, _ => false end.
Definition for_entity (entityType : EntityType) (entityID : N) (a : Ability) : bool :=
  is_global a ||
  match ab_EntityType a, ab_EntityID a with
  | Some t, None => String.eqb t entityType
  | Some t, Some i => String.eqb t entityType && (i =? entityID)%N
  | None, _ => false
  end.

(** How the inner loop of [Can] and [CanForEntity] ends: with a refusal of the
    whole question, with one more ability granted, or without either. *)
Inductive verdict : Type := Refused | Granted | Undecided.
#[export] Instance verdict_eq_dec : EqDecision verdict.
Proof. solve_decision. Defined.

Fixpoint inner (covers : Ability -> bool) (ps : list Permission) : verdict :=
  match ps with
  | [] => Undecided
  | p :: ps =>
      if pm_Forbidden p then Refused
      else match pm_Ability p with
           | None => inner covers ps
           | Some a => if covers a then Granted else inner covers ps
           end
  end.

Fixpoint count_granted (covers : Ability -> bool) (m : Permissions) (abilities : list string) (counter : nat) : option nat :=
  match abilities with
  | [] => Some counter
  | name :: abilities =>
      match inner covers (default [] (m !! name)) with
      | Refused => None
      | Granted => count_granted covers m abilities (S counter)
      | Undecided => count_granted covers m abilities counter
      end
  end.

Definition all_granted (covers : Ability -> bool) (m : Permissions) (abilities : list string) : bool :=
  match count_granted covers m abilities 0 with
  | None => false
  | Some counter => counter =? length abilities
  end.

Definition one_of_granted (m : Permissions) (abilities : list string) : bool :=
  existsb (fun name => existsb (fun p =>
    negb (pm_Forbidden p) && match pm_Ability p with None => false | Some a => is_global a end)
    (default [] (m !! name))) abilities.

(** [CanAnyForEntity]: the first permission that applies decides; an ability
    with an entity id and no entity type is dereferenced. *)
Fixpoint first_applying (entityType : EntityType) (entityID : N) (ps : list Permission) : result (option bool) :=
  match ps with
  | [] => Ok None
  | p :: ps =>
      match pm_Ability p with
      | None => first_applying entityType entityID ps
      | Some a =>
          match ab_EntityID a with
          | None =>
              match ab_EntityType a with
              | None => Ok (Some (negb (pm_Forbidden p)))
              | Some t =>
                  if String.eqb t entityType then Ok (Some (negb (pm_Forbidden p)))
                  else first_applying entityType entityID ps
              end
          | Some i =>
              let? t := deref (ab_EntityType a) in
              if String.eqb t entityType && (i =? entityID)%N then Ok (Some (negb (pm_Forbidden p)))
              else first_applying entityType entityID ps
          end
      end
  end.

Fixpoint any_granted (entityType : EntityType) (entityID : N) (m : Permissions) (abilities : list string) : result bool :=
  match abilities with
  | [] => Ok false
  | name :: abilities =>
      let? r := first_applying entityType entityID (default [] (m !! name)) in
      match r with
      | Some b => Ok b
      | None => any_granted entityType entityID m abilities
      end
  end.

(** ** The permissions in force *)

(** The permissions a restricted role passes on. *)
Definition role_permissions (role : RestrictedRole) (ps : list Permission) : list Permission :=
  match rs_RestrictedToType role, rs_RestrictedToID role with
  | None, None => ps
  | Some t, None =>
      filter (fun p => match pm_Ability p with
                       | Some a => match ab_EntityType a with Some t' => String.eqb t' t | None => false end
                       | None => false
                       end = true) ps
  | Some _, Some i =>
      filter (fun p => match pm_Ability p with
                       | Some a => match ab_EntityID a with Some i' => (i' =? i)%N | None => false end
                       | None => false
                       end = true) ps
  | None, Some _ => []
  end.

Definition add_permission (m : Permissions) (p : Permission) : Permissions :=
  match pm_Ability p with
  | None => m
  | Some a => <[ab_Name a := default [] (m !! ab_Name a) ++ [p]]> m
  end.
Definition by_name (ps : list Permission) : Permissions := foldl add_permission ∅ ps.

(** ** The service *)

Section service.
Context {R : Type} `{RBACRepository R} `{MapOrder}.
Context (clock : N -> time) (ttl : Z).
(** [tm.Do]: runs the function, in a transaction if the manager has one. *)
Context (tm_Do : M (RBACState R) unit -> M (RBACState R) unit).

Abbreviation St := (RBACState R).

Definition on_repo {A} (m : M R A) : M St A :=
  zoom ac_repo (fun r s => mkRBACState r (ac_cache s) (ac_clock s)) m.
Definition time_now : M St time := fun s =>
  (Ok (clock (ac_clock s)), mkRBACState (ac_repo s) (ac_cache s) (ac_clock s + 1)).
Definition set_cache (c : gmap cacheKey cacheEntry) (s : St) : St := mkRBACState (ac_repo s) c (ac_clock s).

Definition cache_Get (key : cacheKey) : M St (option Permissions) :=
  if (ttl =? 0)%Z then ret None
  else
    let! s := get in
    match ac_cache s !! key with
    | None => ret None
    | Some e =>
        let! now := time_now in
        ret (if IsExpired now e then None else Some (ce_Permissions e))
    end.

Definition cache_Set (key : cacheKey) (m : Permissions) : M St unit :=
  if (ttl =? 0)%Z then ret tt
  else
    let! now := time_now in
    modify (fun s => set_cache (<[key := mkCacheEntry m (now + ttl)]> (ac_cache s)) s).

Definition cache_Delete (key : cacheKey) : M St unit := modify (fun s => set_cache (delete key (ac_cache s)) s).
Definition cache_Clear : M St unit := modify (set_cache ∅).
Definition cache_Len (s : St) : nat := size (ac_cache s).

(** One tick of [cleanup]; the order of the map is irrelevant to what is left,
    but every entry is compared with a time of its own. *)
Definition cache_cleanup : M St unit :=
  let! s := get in
  for_each (range (ac_clock s) (ac_cache s)) (fun kv =>
    let! now := time_now in
    if IsExpired now kv.2 then cache_Delete kv.1 else ret tt).

Definition user_key (userID : N) : cacheKey := (EntityTypeUser, userID).

(** The permissions of the roles, appended role by role. *)
Fixpoint append_roles (roles : list RestrictedRole) (acc : list Permission) : M St (list Permission) :=
  match roles with
  | [] => ret acc
  | role :: roles =>
      let! ps := wrap "failed to get permissions for role"
        (on_repo (RB_GetPermissions (rl_ID (rs_Role role)) EntityTypeRole)) in
      append_roles roles (acc ++ role_permissions role ps)
  end.

Definition getAllPermissionsForUser (userID : N) : M St Permissions :=
  let! cached := cache_Get (user_key userID) in
  match cached with
  | Some m => ret m
  | None =>
      let! own := wrap "failed to get all permissions for user" (on_repo (RB_GetPermissions userID EntityTypeUser)) in
      let! roles := wrap "failed to get roles for user" (on_repo (RB_GetRolesForEntity userID EntityTypeUser)) in
      let! all := append_roles roles own in
      let m := by_name all in
      do! cache_Set (user_key userID) m ;;
      ret m
  end.

Definition permissions_of (userID : N) : M St Permissions :=
  wrap "get permissions for user" (getAllPermissionsForUser userID).

Definition Can (userID : N) (abilities : list string) : M St bool :=
  let! m := permissions_of userID in ret (all_granted is_global m abilities).
Definition CanOneOf (userID : N) (abilities : list string) : M St bool :=
  let! m := permissions_of userID in ret (one_of_granted m abilities).
Definition CanForEntity (userID : N) (entityType : EntityType) (entityID : N) (abilities : list string) : M St bool :=
  let! m := permissions_of userID in ret (all_granted (for_entity entityType entityID) m abilities).
Definition CanAnyForEntity (userID : N) (entityType : EntityType) (entityID : N) (abilities : list string) : M St bool :=
  let! m := permissions_of userID in lift (any_granted entityType entityID m abilities).

Definition RBAC_GetRoles (userID : N) : M St (list string) :=
  let! roles := wrap "failed to get roles for user" (on_repo (RB_GetRolesForEntity userID EntityTypeUser)) in
  ret (map (fun r => rl_Name (rs_Role r)) roles).

(** [rolesByName]: a later role of the same name replaces an earlier one. *)
Definition role_by_name (roles : list Role) (name : string) : option Role :=
  list.last (filter (fun r => rl_Name r = name) roles).

Fixpoint named_roles (roles : list Role) (names : list string) : result (list RestrictedRole) :=
  match names with
  | [] => Ok []
  | name :: names =>
      match role_by_name roles name with
      | None => Err (InvalidRoleName name)
      | Some role => let? rest := named_roles roles names in Ok (NewRestrictedRoleFromRole role :: rest)
      end
  end.

Definition setRolesToUser (userID : N) (roleNames : list string) : M St unit :=
  let! roles := wrap "failed to get roles" (on_repo RB_GetRoles) in
  let! restricted := lift (named_roles roles roleNames) in
  do! wrap "failed to clear roles for user" (on_repo (RB_ClearRolesForEntity userID EntityTypeUser)) ;;
  wrap "failed to assign roles to user" (on_repo (RB_AssignRolesForEntity userID EntityTypeUser restricted)).

Definition SetRolesToUser (userID : N) (roleNames : list string) : M St unit :=
  tm_Do (setRolesToUser userID roleNames).

(** The abilities named, for one entity; each reads the clock twice. *)
Fixpoint abilities_for (entityID : N) (entityType : EntityType) (names : list string) : M St (list Ability) :=
  match names with
  | [] => ret []
  | name :: names =>
      let! created := time_now in
      let! updated := time_now in
      let! rest := abilities_for entityID entityType names in
      ret (CreateAbilityForEntity created updated name entityID entityType :: rest)
  end.

Definition AllowUserAbilitiesForEntity (userID entityID : N) (entityType : EntityType) (names : list string) : M St unit :=
  let! abilities := abilities_for entityID entityType names in
  tm_Do (
    do! wrap "failed to revoke abilities for user" (on_repo (RB_Revoke userID EntityTypeUser abilities)) ;;
    do! wrap "failed to allow abilities for user" (on_repo (RB_Allow userID EntityTypeUser abilities)) ;;
    cache_Delete (user_key userID)).

(** The abilities the user still has otherwise. *)
Fixpoint still_granted (userID : N) (entityType : EntityType) (entityID : N) (abilities : list Ability) : M St (list Ability) :=
  match abilities with
  | [] => ret []
  | a :: abilities =>
      let! can := wrap "failed to check abilities for user" (CanForEntity userID entityType entityID [ab_Name a]) in
      let! rest := still_granted userID entityType entityID abilities in
      ret (if can then a :: rest else rest)
  end.

Definition RevokeOrForbidUserAbilitiesForEntity (userID entityID : N) (entityType : EntityType) (names : list string) : M St unit :=
  let! abilities := abilities_for entityID entityType names in
  tm_Do (
    do! wrap "failed to revoke abilities for user" (on_repo (RB_Revoke userID EntityTypeUser abilities)) ;;
    do! cache_Delete (user_key userID) ;;
    let! forbid := still_granted userID entityType entityID abilities in
    match forbid with
    | [] => ret tt
    | _ =>
        do! wrap "failed to forbid abilities for user" (on_repo (RB_Forbid userID EntityTypeUser forbid)) ;;
        cache_Delete (user_key userID)
    end).
End service.

(** ** Decisions over grants *)

Definition k_global (k : akey) : bool :=
  match k_EntityType k, k_EntityID k with None, None => true | _, _ => false end.
Definition k_covers (entityType : EntityType) (entityID : N) (k : akey) : bool :=
  k_global k ||
  match k_EntityType k, k_EntityID k with
  | Some t, None => String.eqb t entityType
  | Some t, Some i => String.eqb t entityType && (i =? entityID)%N
  | None, _ => false
  end.

Fixpoint grants_verdict (f : akey -> bool) (gs : list grant) : verdict :=
  match gs with
  | [] => Undecided
  | g :: gs => if g_Forbidden g then Refused else if f (g_Key g) then Granted else grants_verdict f gs
  end.

Lemma inner_grants covers f ps :
  (forall a, covers a = f (key_of a)) ->
  (forall p, p ∈ ps -> is_Some (pm_Ability p)) -> inner covers ps = grants_verdict f (omap grant_of ps).
Proof.
  intros Hf. induction ps as [|p ps IH]; intros Hall; [done|].
  destruct (Hall p ltac:(left)) as [a Ha]. rewrite omap_cons. unfold grant_of at 1. rewrite Ha. simpl. rewrite Ha, Hf.
  rewrite IH by (intros q Hq; apply Hall; by right). done.
Qed.

Lemma grants_verdict_app f l1 l2 :
  grants_verdict f (l1 ++ l2) = match grants_verdict f l1 with Undecided => grants_verdict f l2 | v => v end.
Proof. induction l1 as [|g l1 IH]; [done|]. simpl. destruct (g_Forbidden g); [done|]. by destruct (f (g_Key g)). Qed.

Lemma verdict_granted f gs :
  grants_verdict f gs = Granted -> exists g, g ∈ gs /\ g_Forbidden g = false /\ f (g_Key g) = true.
Proof.
  induction gs as [|g gs IH]; [done|]. simpl. destruct (g_Forbidden g) eqn:E; [done|]. destruct (f (g_Key g)) eqn:Ef.
  - intros _. exists g. split; [left|done].
  - intros Hv. destruct (IH Hv) as (x & Hx & ?). exists x. split; [by right|done].
Qed.

Lemma verdict_allowed f gs :
  (forall g, g ∈ gs -> g_Forbidden g = false) -> (exists g, g ∈ gs /\ f (g_Key g) = true) -> grants_verdict f gs = Granted.
Proof.
  induction gs as [|x gs IH]; intros Hno (g & Hg & Hf); [by apply list.elem_of_nil in Hg|]. simpl.
  rewrite (Hno x) by left. apply list.elem_of_cons in Hg as [->|Hg]; [by rewrite Hf|].
  destruct (f (g_Key x)); [done|]. apply IH; [|by exists g]. intros y Hy. apply Hno. by right.
Qed.

Lemma verdict_forbidden f gs :
  (exists g, g ∈ gs /\ g_Forbidden g = true) ->
  (forall g, g ∈ gs -> g_Forbidden g = false -> f (g_Key g) = false) -> grants_verdict f gs = Refused.
Proof.
  induction gs as [|x gs IH]; intros (g & Hg & Hf) Hno; [by apply list.elem_of_nil in Hg|]. simpl.
  destruct (g_Forbidden x) eqn:E; [done|]. rewrite (Hno x) by (done || left).
  apply list.elem_of_cons in Hg as [->|Hg]; [congruence|]. apply IH; [by exists g|]. intros y Hy. apply Hno. by right.
Qed.

Lemma count_granted_spec covers m l n :
  match count_granted covers m l n with
  | Some c => c <= n + length l /\
      (c = n + length l <-> forall name, name ∈ l -> inner covers (default [] (m !! name)) = Granted)
  | None => exists name, name ∈ l /\ inner covers (default [] (m !! name)) = Refused
  end.
Proof.
  revert n. induction l as [|name l IH]; intros n; simpl.
  - split; [lia|]. split; [intros _ ? ?%list.elem_of_nil; done|lia].
  - destruct (inner covers (default [] (m !! name))) eqn:E.
    + exists name. split; [left|done].
    + specialize (IH (S n)). destruct (count_granted covers m l (S n)) as [c|].
      * destruct IH as [Hle Hiff]. split; [lia|]. replace (n + S (length l)) with (S n + length l) by lia. rewrite Hiff.
        setoid_rewrite list.elem_of_cons. naive_solver.
      * destruct IH as (x & Hx & ?). exists x. split; [by right|done].
    + specialize (IH n). destruct (count_granted covers m l n) as [c|].
      * destruct IH as [Hle Hiff]. split; [lia|]. split; [lia|]. intros Hall.
        by rewrite (Hall name ltac:(left)) in E.
      * destruct IH as (x & Hx & ?). exists x. split; [by right|done].
Qed.

Lemma all_granted_spec covers m l :
  all_granted covers m l = true <-> forall name, name ∈ l -> inner covers (default [] (m !! name)) = Granted.
Proof.
  unfold all_granted. pose proof (count_granted_spec covers m l 0) as Hc. destruct (count_granted covers m l 0) as [c|].
  - destruct Hc as [_ Hiff]. by rewrite Nat.eqb_eq.
  - destruct Hc as (name & Hn & Hr). split; [done|]. intros Hall. specialize (Hall name Hn). congruence.
Qed.

(** ** Grouping by name *)

Lemma omap_app {A B} (f : A -> option B) (l1 l2 : list A) : omap f (l1 ++ l2) = omap f l1 ++ omap f l2.
Proof. induction l1 as [|x l1 IH]; [done|]. simpl app. rewrite !omap_cons, IH. by destruct (f x). Qed.

Definition named (name : string) (g : grant) : Prop := k_Name (g_Key g) = name.
#[export] Instance named_dec name g : Decision (named name g).
Proof. unfold named. apply _. Defined.

Lemma by_name_acc ps m name :
  (forall p, p ∈ default [] (m !! name) -> is_Some (pm_Ability p)) ->
  let m' := foldl add_permission m ps in
  omap grant_of (default [] (m' !! name)) = omap grant_of (default [] (m !! name)) ++ filter (named name) (omap grant_of ps) /\
  forall p, p ∈ default [] (m' !! name) -> is_Some (pm_Ability p).
Proof.
  revert m. induction ps as [|p ps IH]; intros m Hm; cbn [foldl].
  - simpl. split; [by rewrite app_nil_r|done].
  - rewrite (omap_cons grant_of p ps). destruct (pm_Ability p) as [a|] eqn:Ea.
    2:{ assert (add_permission m p = m /\ grant_of p = None) as [-> ->]; [|by apply IH].
        unfold add_permission, grant_of. by rewrite Ea. }
    set (m1 := <[ab_Name a := default [] (m !! ab_Name a) ++ [p]]> m).
    assert (add_permission m p = m1 /\ grant_of p = Some (mkGrant (key_of a) (pm_Forbidden p))) as [-> Hg]
      by (unfold add_permission, grant_of; by rewrite Ea).
    assert (Hm1 : default [] (m1 !! name) = if decide (ab_Name a = name) then default [] (m !! name) ++ [p] else default [] (m !! name)).
    { unfold m1. rewrite lookup_insert. by case_decide; subst. }
    destruct (IH m1) as [E Hall].
    { rewrite Hm1. case_decide; [|done]. intros q [?| ->%list_elem_of_singleton]%elem_of_app; [by apply Hm|by rewrite Ea]. }
    split; [|done]. rewrite E, Hm1, Hg, list.filter_cons.
    destruct (decide (named name (mkGrant (key_of a) (pm_Forbidden p)))) as [Hn|Hn].
    + rewrite decide_True by exact Hn. by rewrite omap_app, omap_cons, Hg, <- app_assoc.
    + by rewrite decide_False by exact Hn.
Qed.

(** ** What is in force *)

(** What a restricted role passes on, seen from its grants. *)
Definition passes (role : RestrictedRole) (g : grant) : bool :=
  match rs_RestrictedToType role, rs_RestrictedToID role with
  | None, None => true
  | Some t, None => match k_EntityType (g_Key g) with Some t' => String.eqb t' t | None => false end
  | Some _, Some i => match k_EntityID (g_Key g) with Some i' => (i' =? i)%N | None => false end
  | None, Some _ => false
  end.

Lemma role_permissions_grants role ps g :
  g ∈ omap grant_of (role_permissions role ps) <-> g ∈ omap grant_of ps /\ passes role g = true.
Proof.
  unfold role_permissions, passes.
  assert (Hfil : forall (P : Permission -> bool) (Q : grant -> bool), (forall p x, grant_of p = Some x -> P p = Q x) ->
    g ∈ omap grant_of (filter (fun p => P p = true) ps) <-> g ∈ omap grant_of ps /\ Q g = true).
  { intros P Q HPQ. rewrite !list_elem_of_omap. setoid_rewrite list_elem_of_filter. split.
    - intros (p & [Hp Hin] & Hg). rewrite <- (HPQ p g Hg). eauto.
    - intros [(p & Hin & Hg) HQ]. exists p. by rewrite (HPQ p g Hg). }
  assert (Hgr : forall p x, grant_of p = Some x -> exists a, pm_Ability p = Some a /\ g_Key x = key_of a).
  { intros p x. unfold grant_of. destruct (pm_Ability p) as [a|]; [|done]. simpl. intros [= <-]. eauto. }
  destruct (rs_RestrictedToType role) as [t|], (rs_RestrictedToID role) as [i|].
  - apply (Hfil _ (fun g => match k_EntityID (g_Key g) with Some i' => (i' =? i)%N | None => false end)).
    intros p x (a & -> & ->)%Hgr. done.
  - apply (Hfil _ (fun g => match k_EntityType (g_Key g) with Some t' => String.eqb t' t | None => false end)).
    intros p x (a & -> & ->)%Hgr. done.
  - simpl. split; [by intros ?%list.elem_of_nil|by intros [_ ?]].
  - tauto.
Qed.

Section specs.
Context {R : Type} `{RBACRepositoryLaws R} `{MapOrder}.
Context (clock : N -> time) (ttl : Z).
Context (tm_Do : M (RBACState R) unit -> M (RBACState R) unit).
Abbreviation St := (RBACState R).

Definition sinv (s : St) : Prop := rb_inv (ac_repo s).

(** A grant the user has through one of his roles; any grant he has. *)
Definition via_role (r : R) (userID : N) (g : grant) : Prop :=
  exists role, role ∈ rb_roles r userID EntityTypeUser /\
    g ∈ rb_grants r (rl_ID (rs_Role role)) EntityTypeRole /\ passes role g = true.
Definition holds (r : R) (userID : N) (g : grant) : Prop :=
  g ∈ rb_grants r userID EntityTypeUser \/ via_role r userID g.

(** The grouped permissions [m] are those in force: first the user's own, in
    some order, then those of his roles. *)
Definition reads (r : R) (userID : N) (m : Permissions) : Prop :=
  exists own inherited, own ≡ₚ rb_grants r userID EntityTypeUser /\
    (forall g, g ∈ inherited <-> via_role r userID g) /\
    forall name, omap grant_of (default [] (m !! name)) = filter (named name) (own ++ inherited) /\
      forall p, p ∈ default [] (m !! name) -> is_Some (pm_Ability p).

(** What the cache holds for the user, if anything, is what is in force. *)
Definition cache_current (userID : N) (s : St) : Prop :=
  forall e, ac_cache s !! user_key userID = Some e -> reads (ac_repo s) userID (ce_Permissions e).

(** Questions leave everything anyone holds as it is. *)
Definition same_access (s s' : St) : Prop :=
  rb_grants (ac_repo s') = rb_grants (ac_repo s) /\ rb_roles (ac_repo s') = rb_roles (ac_repo s) /\
  rb_catalogue (ac_repo s') = rb_catalogue (ac_repo s) /\ (forall n, rb_room n (ac_repo s) -> rb_room n (ac_repo s')).

Lemma same_access_refl s : same_access s s.
Proof. by split_and!. Qed.
Lemma same_access_trans s1 s2 s3 : same_access s1 s2 -> same_access s2 s3 -> same_access s1 s3.
Proof. intros (?&?&?&?) (?&?&?&?). split_and!; try congruence; auto. Qed.

Lemma via_role_same s s' userID g : same_access s s' -> via_role (ac_repo s') userID g <-> via_role (ac_repo s) userID g.
Proof. intros (Hg & Hr & _). unfold via_role. by rewrite Hg, Hr. Qed.
Lemma holds_same s s' userID g : same_access s s' -> holds (ac_repo s') userID g <-> holds (ac_repo s) userID g.
Proof. intros Hs. unfold holds. rewrite (via_role_same s s') by done. by rewrite (proj1 Hs). Qed.
Lemma reads_same s s' userID m : same_access s s' -> reads (ac_repo s) userID m -> reads (ac_repo s') userID m.
Proof.
  intros Hs (own & inh & Ho & Hi & Hn). exists own, inh. rewrite (proj1 Hs). split_and!; try done.
  intros g. rewrite (via_role_same s s') by done. apply Hi.
Qed.

Lemma reads_back s s' userID m : same_access s s' -> reads (ac_repo s') userID m -> reads (ac_repo s) userID m.
Proof.
  intros Hs (own & inh & Ho & Hi & Hn). exists own, inh. rewrite (proj1 Hs) in Ho. split_and!; try done.
  intros g. rewrite <- (via_role_same s s') by done. apply Hi.
Qed.

Lemma cache_current_same userID s s' :
  same_access s s' -> ac_cache s' = ac_cache s -> cache_current userID s -> cache_current userID s'.
Proof. intros Hs Hc Hcur e. rewrite Hc. intros He. apply (reads_same s s'); auto. Qed.

Lemma wp_read {A} (m : M R A) (s : St) (Q : result A -> St -> Prop) :
  sinv s ->
  (forall res r', m (ac_repo s) = (res, r') ->
     rb_inv r' /\ (rb_grants r' = rb_grants (ac_repo s) /\ rb_roles r' = rb_roles (ac_repo s) /\
       rb_catalogue r' = rb_catalogue (ac_repo s)) /\ (forall n, rb_room n (ac_repo s) -> rb_room n r')) ->
  (forall res s', fst (m (ac_repo s)) = res -> sinv s' -> same_access s s' -> ac_cache s' = ac_cache s ->
     ac_clock s' = ac_clock s -> Q res s') ->
  wp (on_repo m) Q s.
Proof.
  intros Hi Hm HQ. unfold on_repo. wp_step. apply wp_intro. intros res r' E.
  destruct (Hm res r' E) as (Hi' & (Hg & Hr & Hc) & Hn). apply HQ; [by rewrite E|done|by split_and!|done|done].
Qed.

Lemma wp_GetPermissions e t (s : St) :
  sinv s ->
  wp (on_repo (RB_GetPermissions e t)) (fun res s' => sinv s' /\ same_access s s' /\ ac_cache s' = ac_cache s /\
    match res with Ok l => omap grant_of l ≡ₚ rb_grants (ac_repo s) e t | Err _ => True | Panic _ => False end) s.
Proof.
  intros Hi. apply wp_read; [done| |].
  - intros res r' E. by destruct (rb_permissions_law e t _ res r' Hi E) as (? & ? & ? & ? & ? & _).
  - intros res s' Er Hi' Hs Hc _. split_and!; try done.
    destruct (RB_GetPermissions e t (ac_repo s)) as [res' r'] eqn:E. simpl in Er. subst res'.
    by destruct (rb_permissions_law e t _ res r' Hi E) as (_ & _ & _ & _ & _ & ?).
Qed.

Lemma wp_append_roles roles : forall acc (s : St),
  sinv s ->
  wp (append_roles roles acc) (fun res s' => sinv s' /\ same_access s s' /\ ac_cache s' = ac_cache s /\
    match res with
    | Ok l => exists rest, l = acc ++ rest /\ forall g, g ∈ omap grant_of rest <->
        exists role, role ∈ roles /\ g ∈ rb_grants (ac_repo s) (rl_ID (rs_Role role)) EntityTypeRole /\ passes role g = true
    | Err _ => True
    | Panic _ => False
    end) s.
Proof.
  induction roles as [|role roles IH]; intros acc s Hi; simpl.
  - wp_step. split_and!; try done. exists []. rewrite app_nil_r. split; [done|]. intros g. simpl.
    split; [by intros ?%list.elem_of_nil|]. by intros (? & ?%list.elem_of_nil & _).
  - do 2 wp_step. eapply wp_mono; [by apply wp_GetPermissions|]. intros res s1 (Hi1 & Hs1 & Hc1 & Hr1).
    destruct res as [ps|e|w]; simpl; [|by split_and!|done].
    eapply wp_mono; [by apply IH|]. intros res s2 (Hi2 & Hs2 & Hc2 & Hr2).
    split_and!; [done|by eapply same_access_trans|congruence|]. destruct res as [l|e|w]; [|done|done].
    destruct Hr2 as (rest & -> & Hrest). exists (role_permissions role ps ++ rest). split; [by rewrite app_assoc|].
    intros g. rewrite omap_app, elem_of_app, Hrest, role_permissions_grants. rewrite Hr1.
    rewrite (proj1 Hs1). setoid_rewrite list.elem_of_cons. naive_solver.
Qed.

(** The cache answers with an entry of its own, or not at all. *)
Lemma wp_cache_Get key (s : St) :
  wp (cache_Get clock ttl key) (fun res s' => ac_repo s' = ac_repo s /\ ac_cache s' = ac_cache s /\
    match res with
    | Ok None => True
    | Ok (Some m) => exists e, ac_cache s !! key = Some e /\ ce_Permissions e = m
    | _ => False
    end) s.
Proof.
  unfold cache_Get. destruct (ttl =? 0)%Z; [by wp_step|]. do 2 wp_step.
  destruct (ac_cache s !! key) as [e|] eqn:E; [|by wp_step]. wp_step. unfold time_now, wp at 1. simpl. wp_step.
  destruct (IsExpired (clock (ac_clock s)) e); split_and!; try done. by exists e.
Qed.

Lemma wp_cache_Set key m (s : St) :
  wp (cache_Set clock ttl key m) (fun res s' => res = Ok tt /\ ac_repo s' = ac_repo s /\
    forall k e, ac_cache s' !! k = Some e -> ac_cache s !! k = Some e \/ (k = key /\ ce_Permissions e = m)) s.
Proof.
  unfold cache_Set. destruct (ttl =? 0)%Z; [wp_step; split_and!; auto|]. wp_step. unfold time_now, wp at 1. simpl.
  unfold modify, wp. simpl. split_and!; try done. intros k e. rewrite lookup_insert.
  case_decide; [intros [= <-]; by right|by left].
Qed.

(** What a question answers: it fails, or [f] of the groups in force. *)
Definition question_post {A} (userID : N) (s : St) (f : Permissions -> result A) (res : result A) (s' : St) : Prop :=
  sinv s' /\ same_access s s' /\ cache_current userID s' /\
  ((exists e, res = Err e) \/ exists m, reads (ac_repo s) userID m /\ res = f m).

Lemma wp_getAll userID (s : St) :
  sinv s -> cache_current userID s ->
  wp (getAllPermissionsForUser clock ttl userID) (question_post userID s Ok) s.
Proof.
  intros Hi Hcur. unfold getAllPermissionsForUser. wp_step.
  eapply wp_mono; [apply wp_cache_Get|]. intros res s1 (Hr1 & Hc1 & Hres).
  assert (Hs1 : same_access s s1) by (unfold same_access; by rewrite Hr1).
  assert (Hi1 : sinv s1) by (unfold sinv; by rewrite Hr1).
  destruct res as [[m|]| |]; [|clear Hres|done|done].
  { destruct Hres as (e & He & <-). wp_step. split_and!; try done.
    - by apply (cache_current_same userID s).
    - right. exists (ce_Permissions e). split; [by apply Hcur|done]. }
  do 2 wp_step. eapply wp_mono; [by apply wp_GetPermissions|]. intros res s2 (Hi2 & Hs2 & Hc2 & Hr2).
  assert (Hs02 : same_access s s2) by by eapply same_access_trans.
  assert (Hcur2 : cache_current userID s2) by (apply (cache_current_same userID s); [done|congruence|done]).
  destruct res as [own|e|w]; simpl; [|split_and!; eauto|done].
  do 2 wp_step. apply wp_read; [done| |].
  { intros res r' E. by destruct (rb_roles_law userID EntityTypeUser _ res r' Hi2 E) as (? & ? & ? & ? & ? & _). }
  intros res s3 Er Hi3 Hs3 Hc3 _. assert (Hs03 : same_access s s3) by by eapply same_access_trans.
  destruct (RB_GetRolesForEntity userID EntityTypeUser (ac_repo s2)) as [res' r'] eqn:E. simpl in Er. subst res'.
  destruct (rb_roles_law userID EntityTypeUser _ res r' Hi2 E) as (_ & _ & _ & _ & _ & Hroles).
  assert (Hcur3 : cache_current userID s3) by (apply (cache_current_same userID s2); done).
  destruct res as [roles|e|w]; simpl; [|split_and!; eauto|done].
  wp_step. eapply wp_mono; [by apply wp_append_roles|]. intros res s4 (Hi4 & Hs4 & Hc4 & Hr4).
  assert (Hs04 : same_access s s4) by by eapply same_access_trans.
  assert (Hcur4 : cache_current userID s4) by (apply (cache_current_same userID s3); done).
  destruct res as [all|e|w]; [|split_and!; eauto|done].
  destruct Hr4 as (rest & -> & Hrest).
  assert (Hreads : reads (ac_repo s) userID (by_name (own ++ rest))).
  { exists (omap grant_of own), (omap grant_of rest). split_and!.
    - rewrite Hr2. by rewrite (proj1 Hs1).
    - intros g. rewrite Hrest. unfold via_role. rewrite (proj1 Hs03).
      setoid_rewrite Hroles. by rewrite (proj1 (proj2 Hs02)).
    - intros name. destruct (by_name_acc (own ++ rest) ∅ name) as [Hn Hall].
      { rewrite lookup_empty. by intros p ?%list.elem_of_nil. }
      rewrite lookup_empty in Hn. split; [|exact Hall]. unfold by_name. rewrite Hn. by rewrite omap_app. }
  wp_step. eapply wp_mono; [apply wp_cache_Set|]. intros res s5 (-> & Hr5 & Hc5). wp_step.
  assert (Hs5 : same_access s4 s5) by (unfold same_access; by rewrite Hr5).
  assert (Hs05 : same_access s s5) by by eapply same_access_trans.
  split_and!; [unfold sinv; by rewrite Hr5|done| |right; by exists (by_name (own ++ rest))].
  intros e He. destruct (Hc5 _ _ He) as [He'|[_ ->]].
  - rewrite Hr5. by apply Hcur4.
  - by apply (reads_same s).
Qed.

Lemma wp_question {A} userID (f : Permissions -> result A) (s : St) :
  sinv s -> cache_current userID s ->
  wp (let! m := permissions_of clock ttl userID in lift (f m)) (question_post userID s f) s.
Proof.
  intros Hi Hcur. unfold permissions_of. do 2 wp_step. eapply wp_mono; [by apply wp_getAll|].
  intros res s' (Hi' & Hs' & Hc' & Hr). destruct Hr as [[e ->]|(m & Hm & ->)]; simpl.
  - split_and!; eauto.
  - wp_step. split_and!; try done. right. eauto.
Qed.

(** The verdict on a name, from the groups in force. *)
Lemma reads_inner r userID m covers f name :
  (forall a, covers a = f (key_of a)) -> reads r userID m ->
  exists own inherited, own ≡ₚ rb_grants r userID EntityTypeUser /\ (forall g, g ∈ inherited <-> via_role r userID g) /\
    inner covers (default [] (m !! name)) =
      grants_verdict f (filter (named name) own ++ filter (named name) inherited).
Proof.
  intros Hf (own & inh & Ho & Hi & Hn). exists own, inh. split_and!; try done. destruct (Hn name) as [E Hall].
  rewrite (inner_grants covers f) by done. by rewrite E, list.filter_app.
Qed.

(** ** Questions *)

Lemma lift_ok_ret {A} (a : A) : lift (S:=St) (Ok a) = ret a.
Proof. done. Qed.

Lemma elem_of_split r userID own inherited name g :
  own ≡ₚ rb_grants r userID EntityTypeUser -> (forall g, g ∈ inherited <-> via_role r userID g) ->
  g ∈ filter (named name) own ++ filter (named name) inherited <-> holds r userID g /\ named name g.
Proof.
  intros Ho Hi. rewrite elem_of_app, !list_elem_of_filter, Hi, Ho. unfold holds. tauto.
Qed.

(** The answers to [Can] and [CanForEntity], the grants covered as a
    predicate. *)
Definition answered_by (f : akey -> bool) (r : R) (userID : N) (names : list string) (b : bool) : Prop :=
  if b then forall name, name ∈ names -> exists g, holds r userID g /\ named name g /\ g_Forbidden g = false /\ f (g_Key g) = true
  else ~ forall name, name ∈ names -> (exists g, holds r userID g /\ named name g /\ f (g_Key g) = true) /\
    forall g, holds r userID g -> named name g -> g_Forbidden g = false.

Lemma all_granted_answer covers f r userID m names :
  (forall a, covers a = f (key_of a)) -> reads r userID m ->
  answered_by f r userID names (all_granted covers m names).
Proof.
  intros Hf Hm. unfold answered_by. destruct (all_granted covers m names) eqn:E.
  - intros name Hname. rewrite all_granted_spec in E. specialize (E name Hname).
    destruct (reads_inner r userID m covers f name Hf Hm) as (own & inh & Ho & Hi & Hv). rewrite Hv in E.
    apply verdict_granted in E as (g & Hg & Hnf & Hfg). apply (elem_of_split r userID) in Hg as [Hh Hn]; [|done..]. by exists g.
  - intros Hall. apply not_true_iff_false in E. apply E, all_granted_spec. intros name Hname.
    destruct (Hall name Hname) as [(g & Hh & Hn & Hfg) Hno].
    destruct (reads_inner r userID m covers f name Hf Hm) as (own & inh & Ho & Hi & ->).
    apply verdict_allowed.
    + intros x [Hx Hxn]%(elem_of_split r userID); [|done..]. by apply Hno.
    + exists g. split; [|done]. by apply (elem_of_split r userID).
Qed.

(** A name with an own forbidden grant and no own allowed one is refused,
    whatever the roles give. *)
Lemma own_forbid_refuses covers f r userID m name :
  (forall a, covers a = f (key_of a)) -> reads r userID m ->
  (exists g, g ∈ rb_grants r userID EntityTypeUser /\ named name g /\ g_Forbidden g = true) ->
  (forall g, g ∈ rb_grants r userID EntityTypeUser -> named name g -> g_Forbidden g = false -> f (g_Key g) = false) ->
  inner covers (default [] (m !! name)) = Refused.
Proof.
  intros Hf Hm (g & Hg & Hn & Hfb) Hno.
  destruct (reads_inner r userID m covers f name Hf Hm) as (own & inh & Ho & Hi & ->).
  rewrite grants_verdict_app, verdict_forbidden; [done| |].
  - exists g. split; [|done]. apply list_elem_of_filter. split; [done|]. by rewrite Ho.
  - intros x [Hx Hin]%list_elem_of_filter. apply Hno; [by rewrite <- Ho|done].
Qed.

Lemma for_entity_key t i a : for_entity t i a = k_covers t i (key_of a).
Proof. done. Qed.

Lemma wp_Can userID names (s : St) :
  sinv s -> cache_current userID s ->
  wp (Can clock ttl userID names) (question_post userID s (fun m => Ok (all_granted is_global m names))) s.
Proof. intros Hi Hc. exact (wp_question userID (fun m => Ok (all_granted is_global m names)) s Hi Hc). Qed.

Lemma wp_CanForEntity userID t i names (s : St) :
  sinv s -> cache_current userID s ->
  wp (CanForEntity clock ttl userID t i names)
    (question_post userID s (fun m => Ok (all_granted (for_entity t i) m names))) s.
Proof. intros Hi Hc. exact (wp_question userID (fun m => Ok (all_granted (for_entity t i) m names)) s Hi Hc). Qed.

(** ** Changes *)

(** [tm.Do] commits what the function did, or undoes it in the repository when
    it failed; the cache is not part of the transaction. *)
Definition transactional : Prop :=
  forall m s, tm_Do m s = m s \/
    (is_ok (fst (m s)) = false /\ tm_Do m s = (fst (m s), mkRBACState (ac_repo s) (ac_cache (snd (m s))) (ac_clock (snd (m s))))).

(** What holds when the function succeeds holds after the transaction. *)
Lemma wp_tm_ok (m : M St unit) (Q : St -> Prop) s :
  transactional ->
  wp m (fun res s' => match res with Ok _ => Q s' | Err _ => True | Panic _ => False end) s ->
  wp (tm_Do m) (fun res s' => match res with Ok _ => Q s' | Err _ => True | Panic _ => False end) s.
Proof.
  intros Htm Hm. unfold wp in *. destruct (Htm m s) as [->|[Hf ->]]; [done|]. simpl. by destruct (fst (m s)).
Qed.

Lemma wp_abilities_for i t names : forall (s : St),
  wp (abilities_for clock i t names) (fun res s' => ac_repo s' = ac_repo s /\ ac_cache s' = ac_cache s /\
    match res with
    | Ok l => map key_of l = map (fun name => mkKey name (Some t) (Some i) None) names /\ map ab_Name l = names
    | _ => False
    end) s.
Proof.
  induction names as [|name names IH]; intros s; simpl; [by wp_step|].
  wp_step. unfold time_now, wp at 1. simpl. wp_step. unfold wp at 1. simpl. wp_step.
  eapply wp_mono; [apply IH|]. intros res s' (Hr & Hc & Hl). destruct res as [l|e|w]; [|done|done].
  wp_step. simpl in *. destruct Hl as [-> ->]. done.
Qed.

Lemma wp_Revoke user l (s : St) :
  sinv s ->
  wp (on_repo (RB_Revoke user EntityTypeUser l)) (fun res s' => sinv s' /\ ac_cache s' = ac_cache s /\
    (forall n, rb_room n (ac_repo s) -> rb_room n (ac_repo s')) /\ rb_roles (ac_repo s') = rb_roles (ac_repo s) /\
    match res with
    | Ok _ => rb_grants (ac_repo s') user EntityTypeUser ≡ₚ
        filter (fun g => g_Key g ∉ map key_of l) (rb_grants (ac_repo s) user EntityTypeUser) /\
        forall e t, (e, t) <> (user, EntityTypeUser) -> rb_grants (ac_repo s') e t ≡ₚ rb_grants (ac_repo s) e t
    | Err _ => True
    | Panic _ => False
    end) s.
Proof.
  intros Hi. unfold on_repo. wp_step. apply wp_intro. simpl. intros res r' E.
  destruct (rb_revoke_law _ _ _ _ _ _ Hi E) as (Hi' & Hr & _ & Hn & Hres). by split_and!; try done.
Qed.

Lemma wp_Grant (forbidden : bool) user l (s : St) :
  sinv s -> rb_room (length l) (ac_repo s) ->
  wp (on_repo (if forbidden then RB_Forbid user EntityTypeUser l else RB_Allow user EntityTypeUser l))
    (fun res s' => sinv s' /\ ac_cache s' = ac_cache s /\ rb_roles (ac_repo s') = rb_roles (ac_repo s) /\
    match res with
    | Ok _ => rb_grants (ac_repo s') user EntityTypeUser ≡ₚ
        map (fun a => mkGrant (key_of a) forbidden) l ++ rb_grants (ac_repo s) user EntityTypeUser /\
        forall e t, (e, t) <> (user, EntityTypeUser) -> rb_grants (ac_repo s') e t ≡ₚ rb_grants (ac_repo s) e t
    | Err _ => True
    | Panic _ => False
    end) s.
Proof.
  intros Hi Hroom. unfold on_repo. wp_step. apply wp_intro. simpl. intros res r' E.
  assert (E' : (if forbidden then RB_Forbid user EntityTypeUser l (ac_repo s) else RB_Allow user EntityTypeUser l (ac_repo s)) = (res, r'))
    by by destruct forbidden.
  destruct (rb_allow_law _ _ _ _ _ _ _ Hi Hroom E') as (Hi' & Hr & _ & Hn & Hres). by split_and!; try done.
Qed.

(** What a change of the user's own grants leaves of his and other users'
    other grants. *)
Lemma via_role_kept r r' user u g :
  rb_roles r' = rb_roles r ->
  (forall e t, (e, t) <> (user, EntityTypeUser) -> rb_grants r' e t ≡ₚ rb_grants r e t) ->
  via_role r' u g <-> via_role r u g.
Proof.
  intros Hr Ho. unfold via_role. rewrite Hr.
  assert (Hrow : forall i, rb_grants r' i EntityTypeRole ≡ₚ rb_grants r i EntityTypeRole) by (intros i; apply Ho; by intros [=]).
  by setoid_rewrite Hrow.
Qed.

(** The user's own grants became [own']; nobody else's changed, and the cache
    holds nothing stale for him. *)
Definition regranted (user : N) (own' : list grant) (s s' : St) : Prop :=
  sinv s' /\ rb_roles (ac_repo s') = rb_roles (ac_repo s) /\ cache_current user s' /\
  rb_grants (ac_repo s') user EntityTypeUser ≡ₚ own' /\
  forall e t, (e, t) <> (user, EntityTypeUser) -> rb_grants (ac_repo s') e t ≡ₚ rb_grants (ac_repo s) e t.

Lemma deleted_current user (s s' : St) : ac_cache s' = delete (user_key user) (ac_cache s) -> cache_current user s'.
Proof. intros Hc e. by rewrite Hc, lookup_delete_eq. Qed.

Definition entity_key (t : EntityType) (i : N) (name : string) : akey := mkKey name (Some t) (Some i) None.
Definition others (t : EntityType) (i : N) (names : list string) (own : list grant) : list grant :=
  filter (fun g => g_Key g ∉ map (entity_key t i) names) own.

Lemma grants_of_keys (l : list Ability) t i f names :
  map key_of l = map (entity_key t i) names ->
  map (fun a => mkGrant (key_of a) f) l = map (fun name => mkGrant (entity_key t i name) f) names.
Proof. intros Hk. rewrite <- (map_map key_of (fun k => mkGrant k f)), Hk. apply map_map. Qed.

Lemma wp_Allow user i t names (s : St) :
  transactional -> sinv s -> rb_room (length names) (ac_repo s) ->
  wp (AllowUserAbilitiesForEntity clock tm_Do user i t names) (fun res s' =>
    match res with
    | Ok _ => regranted user (map (fun name => mkGrant (entity_key t i name) false) names ++
        others t i names (rb_grants (ac_repo s) user EntityTypeUser)) s s'
    | Err _ => True
    | Panic _ => False
    end) s.
Proof.
  intros Htm Hi Hroom. unfold AllowUserAbilitiesForEntity. wp_step. eapply wp_mono; [apply wp_abilities_for|].
  intros res s0 (Hr0 & Hc0 & Hl). destruct res as [l|e|w]; [|done|done]. destruct Hl as [Hkeys Hnames].
  assert (Hlen : length l = length names) by (rewrite <- Hnames; by rewrite length_map).
  apply wp_tm_ok; [done|].
  wp_step. wp_step. eapply wp_mono; [apply (wp_Revoke user l s0); unfold sinv; by rewrite Hr0|].
  intros res s1 (Hi1 & Hc1 & Hn1 & Hro1 & Hres). destruct res as [[]|e|w]; simpl; [|done|done].
  do 2 wp_step. eapply wp_mono; [apply (wp_Grant false user l s1); [done|]|].
  { apply Hn1. rewrite Hr0, Hlen. done. }
  intros res s2 (Hi2 & Hc2 & Hro2 & Hres2). destruct res as [[]|e|w]; simpl; [|done|done].
  unfold cache_Delete, modify, wp. simpl. destruct Hres as [Hg1 Ho1], Hres2 as [Hg2 Ho2].
  split_and!; [done|simpl; congruence|by apply (deleted_current user s2)| |].
  - simpl. rewrite Hg2, Hg1, Hr0, (grants_of_keys _ t i false _ Hkeys). unfold others.
    by rewrite (Hkeys : map key_of l = map (entity_key t i) names).
  - intros e t' Hne. simpl. rewrite Ho2, Ho1, Hr0 by done. done.
Qed.

(** Which of the abilities the user still has after the revocation. *)
Lemma wp_still_granted user t i l : forall (s : St),
  sinv s -> cache_current user s ->
  wp (still_granted clock ttl user t i l) (fun res s' => sinv s' /\ same_access s s' /\ cache_current user s' /\
    match res with
    | Ok fl => fl `sublist_of` l /\ forall a, a ∈ l -> a ∈ fl \/ exists m, reads (ac_repo s) user m /\
        all_granted (for_entity t i) m [ab_Name a] = false
    | Err _ => True
    | Panic _ => False
    end) s.
Proof.
  induction l as [|a l IH]; intros s Hi Hc; simpl.
  - wp_step. split_and!; try done. by intros a ?%list.elem_of_nil.
  - do 2 wp_step. eapply wp_mono; [by apply wp_CanForEntity|]. intros res s1 (Hi1 & Hs1 & Hc1 & Hr).
    destruct Hr as [[e ->]|(m & Hm & ->)]; simpl; [by split_and!|].
    wp_step. eapply wp_mono; [by apply IH|]. intros res s2 (Hi2 & Hs2 & Hc2 & Hr2).
    assert (Hs02 : same_access s s2) by by eapply same_access_trans.
    destruct res as [fl|e|w]; [|by split_and!|done]. wp_step. destruct Hr2 as [Hsub Hin].
    assert (Hin' : forall b, b ∈ l -> b ∈ fl \/ exists m, reads (ac_repo s) user m /\ all_granted (for_entity t i) m [ab_Name b] = false).
    { intros b Hb. destruct (Hin b Hb) as [?|(m' & Hm' & ?)]; [by left|]. right. exists m'. split; [|done].
      by apply (reads_back s s1). }
    destruct (all_granted (for_entity t i) m [ab_Name a]) eqn:Ea; split_and!; try done.
    + by apply sublist_skip.
    + intros b [->|Hb]%list.elem_of_cons; [left; left|]. destruct (Hin' b Hb) as [?|?]; [left; by right|by right].
    + by apply sublist_cons.
    + intros b [->|Hb]%list.elem_of_cons; [right; by exists m|]. by apply Hin'.
Qed.

(** Where the user has no access to the name but what a role may give in one
    order of reading and refuse in another. *)
Definition roles_agree (r : R) (user : N) (f : akey -> bool) (name : string) : Prop :=
  (forall g, via_role r user g -> named name g -> f (g_Key g) = false) \/
  (forall g, via_role r user g -> named name g -> g_Forbidden g = false).

(** The user's own grants allow the name for the entity only as such. *)
Definition no_other_own (r : R) (user : N) (t : EntityType) (i : N) (names : list string) : Prop :=
  forall g name, name ∈ names -> g ∈ rb_grants r user EntityTypeUser -> named name g -> g_Forbidden g = false ->
    k_covers t i (g_Key g) = true -> g_Key g = entity_key t i name.

Definition refused (user : N) (t : EntityType) (i : N) (r : R) (name : string) : Prop :=
  forall m, reads r user m -> inner (for_entity t i) (default [] (m !! name)) <> Granted.

Lemma elem_of_others t i names own g :
  g ∈ others t i names own <-> g ∈ own /\ forall name, name ∈ names -> g_Key g <> entity_key t i name.
Proof.
  unfold others. rewrite list_elem_of_filter, list_elem_of_fmap. naive_solver.
Qed.

(** The names of some of the abilities. *)
Lemma sublist_names (fl l : list Ability) t i names :
  fl `sublist_of` l -> map key_of l = map (entity_key t i) names -> map ab_Name l = names ->
  exists fnames, map key_of fl = map (entity_key t i) fnames /\ forall a, a ∈ fl -> ab_Name a ∈ fnames.
Proof.
  intros Hsub Hk <-. exists (map ab_Name fl). split; [|intros a Ha; apply list_elem_of_fmap; eauto].
  rewrite map_map. rewrite map_map in Hk. apply map_ext_in. intros a Ha%list_elem_of_In.
  assert (Hl : a ∈ l) by (by eapply elem_of_sublist).
  assert (Hcons : forall (x y : akey) l1 l2, x :: l1 = y :: l2 -> x = y /\ l1 = l2) by (by intros x y l1 l2 [= -> ->]).
  clear -Hk Hl Hcons. induction l as [|b l IH]; [by apply list.elem_of_nil in Hl|]. simpl in Hk.
  apply Hcons in Hk as [Hb Hk]. apply list.elem_of_cons in Hl as [->|Hl]; [exact Hb|by apply IH].
Qed.

(** A name not granted in one reading is granted in none, after more own
    grants were forbidden. *)
Lemma refused_later user t i (r2 r3 : R) forbids m name :
  roles_agree r2 user (k_covers t i) name ->
  (forall g, g ∈ rb_grants r2 user EntityTypeUser -> named name g -> g_Forbidden g = false -> k_covers t i (g_Key g) = false) ->
  reads r2 user m -> all_granted (for_entity t i) m [name] = false ->
  (forall g, g ∈ forbids -> g_Forbidden g = true) ->
  rb_grants r3 user EntityTypeUser ≡ₚ forbids ++ rb_grants r2 user EntityTypeUser ->
  (forall g, via_role r3 user g <-> via_role r2 user g) ->
  refused user t i r3 name.
Proof.
  intros Hagree Hown Hm Hno Hfb Hg3 Hv3 m3 Hm3 Hgr.
  assert (Hown3 : forall y, y ∈ rb_grants r3 user EntityTypeUser -> named name y -> g_Forbidden y = false ->
    k_covers t i (g_Key y) = false).
  { intros y Hy Hyn Hyf. rewrite Hg3, elem_of_app in Hy. destruct Hy as [Hy|Hy]; [by rewrite (Hfb y Hy) in Hyf|]. by apply Hown. }
  destruct (reads_inner r2 user m (for_entity t i) (k_covers t i) name (for_entity_key t i) Hm) as (own & inh & Ho & Hi & E).
  destruct (decide (Exists (fun g => g_Forbidden g = true) (filter (named name) own))) as [Hex|Hnex].
  - apply list.Exists_exists in Hex as (x & [Hxn Hxin]%list_elem_of_filter & Hxf). rewrite Ho in Hxin.
    rewrite (own_forbid_refuses (for_entity t i) (k_covers t i) r3 user m3 name (for_entity_key t i) Hm3) in Hgr; [done| |done].
    exists x. split; [|done]. rewrite Hg3. apply elem_of_app. by right.
  - destruct (reads_inner r3 user m3 (for_entity t i) (k_covers t i) name (for_entity_key t i) Hm3) as (own3 & inh3 & Ho3 & Hi3 & E3).
    rewrite E3 in Hgr. apply verdict_granted in Hgr as (g & Hg & Hnf & Hc).
    apply (elem_of_split r3 user) in Hg as [[Hg|Hg] Hn]; [by rewrite (Hown3 g Hg Hn Hnf) in Hc| |done..].
    apply Hv3 in Hg. destruct Hagree as [Hnone|Hallow]; [by rewrite (Hnone g Hg Hn) in Hc|].
    apply not_true_iff_false in Hno. apply Hno, all_granted_spec. intros x ->%list_elem_of_singleton.
    rewrite E. apply verdict_allowed.
    + intros y Hy. apply elem_of_app in Hy as [Hy|[Hyn Hyi]%list_elem_of_filter].
      * destruct (g_Forbidden y) eqn:Ey; [|done]. destruct Hnex. apply list.Exists_exists. by exists y.
      * apply Hallow; [by apply Hi|done].
    + exists g. split; [|done]. apply elem_of_app. right. apply list_elem_of_filter. split; [done|]. by apply Hi.
Qed.

Lemma wp_RevokeOrForbid user i t names (s : St) :
  transactional -> sinv s -> rb_room (length names) (ac_repo s) ->
  no_other_own (ac_repo s) user t i names ->
  (forall name, name ∈ names -> roles_agree (ac_repo s) user (k_covers t i) name) ->
  wp (RevokeOrForbidUserAbilitiesForEntity clock ttl tm_Do user i t names) (fun res s' =>
    match res with
    | Ok _ => (exists forbids, regranted user (map (fun name => mkGrant (entity_key t i name) true) forbids ++
        others t i names (rb_grants (ac_repo s) user EntityTypeUser)) s s') /\
        forall name, name ∈ names -> refused user t i (ac_repo s') name
    | Err _ => True
    | Panic _ => False
    end) s.
Proof.
  intros Htm Hi Hroom Hother Hagree. unfold RevokeOrForbidUserAbilitiesForEntity. wp_step.
  eapply wp_mono; [apply wp_abilities_for|].
  intros res s0 (Hr0 & Hc0 & Hl). destruct res as [l|e|w]; [|done|done]. destruct Hl as [Hkeys Hnames].
  assert (Hlen : length l = length names) by (rewrite <- Hnames; by rewrite length_map).
  apply wp_tm_ok; [done|].
  wp_step. wp_step. eapply wp_mono; [apply (wp_Revoke user l s0); unfold sinv; by rewrite Hr0|].
  intros res s1 (Hi1 & Hc1 & Hn1 & Hro1 & Hres). destruct res as [[]|e|w]; simpl; [|done|done].
  wp_step. unfold cache_Delete at 1, modify at 1, wp at 1. simpl.
  set (s2 := set_cache _ s1). destruct Hres as [Hg1 Ho1]. rewrite Hr0 in Hg1, Ho1, Hro1, Hn1.
  assert (Hg2 : rb_grants (ac_repo s2) user EntityTypeUser ≡ₚ others t i names (rb_grants (ac_repo s) user EntityTypeUser)).
  { simpl. rewrite Hg1. unfold others. by rewrite (Hkeys : map key_of l = map (entity_key t i) names). }
  assert (Hown2 : forall name g, name ∈ names -> g ∈ rb_grants (ac_repo s2) user EntityTypeUser -> named name g ->
    g_Forbidden g = false -> k_covers t i (g_Key g) = false).
  { intros name g Hname Hg Hn Hf. rewrite Hg2 in Hg. apply elem_of_others in Hg as [Hg Hne].
    destruct (k_covers t i (g_Key g)) eqn:Ec; [|done]. destruct (Hne name Hname). by apply Hother. }
  assert (Hv2 : forall g, via_role (ac_repo s2) user g <-> via_role (ac_repo s) user g).
  { intros g. by apply (via_role_kept _ _ user). }
  wp_step. eapply wp_mono; [apply (wp_still_granted user t i l s2); [done|by apply (deleted_current user s1)]|].
  intros res s3 (Hi3 & Hs3 & Hc3 & Hres3). destruct res as [fl|e|w]; [|done|done]. destruct Hres3 as [Hsub Hin].
  destruct (sublist_names fl l t i names Hsub Hkeys Hnames) as (fnames & Hfk & Hfin).
  assert (Hlater : forall r4, rb_grants r4 user EntityTypeUser ≡ₚ map (fun name => mkGrant (entity_key t i name) true) fnames ++
      rb_grants (ac_repo s2) user EntityTypeUser -> (forall g, via_role r4 user g <-> via_role (ac_repo s2) user g) ->
    forall name, name ∈ names -> refused user t i r4 name).
  { intros r4 Hg4 Hv4 name Hname. rewrite <- Hnames in Hname. apply list_elem_of_fmap in Hname as (a & -> & Ha).
    assert (Hname : ab_Name a ∈ names) by (rewrite <- Hnames; apply list_elem_of_fmap; eauto).
    destruct (Hin a Ha) as [Hf|(m & Hm & Hno)].
    - intros m4 Hm4. rewrite (own_forbid_refuses (for_entity t i) (k_covers t i) r4 user m4 (ab_Name a) (for_entity_key t i) Hm4); [done| |].
      + exists (mkGrant (entity_key t i (ab_Name a)) true). split; [|done]. rewrite Hg4. apply elem_of_app. left.
        apply list_elem_of_fmap. exists (ab_Name a). split; [done|]. by apply Hfin.
      + intros y Hy Hyn Hyf. rewrite Hg4, elem_of_app in Hy. destruct Hy as [Hy|Hy]; [|by apply (Hown2 (ab_Name a))].
        apply list_elem_of_fmap in Hy as (? & -> & _). done.
    - apply (refused_later user t i (ac_repo s2) r4 (map (fun name => mkGrant (entity_key t i name) true) fnames) m); try done.
      + destruct (Hagree _ Hname) as [Hx|Hx]; [left|right]; intros g Hg; apply Hx; by apply Hv2.
      + intros g. by apply Hown2.
      + intros g (? & -> & _)%list_elem_of_fmap. done. }
  destruct Hs3 as (Hgs & Hrs & _ & Hns).
  assert (Hfin3 : forall r4 c4 k4, rb_inv r4 -> rb_roles r4 = rb_roles (ac_repo s3) -> cache_current user (mkRBACState r4 c4 k4) ->
    rb_grants r4 user EntityTypeUser ≡ₚ map (fun name => mkGrant (entity_key t i name) true) fnames ++
      rb_grants (ac_repo s3) user EntityTypeUser ->
    (forall e t, (e, t) <> (user, EntityTypeUser) -> rb_grants r4 e t ≡ₚ rb_grants (ac_repo s3) e t) ->
    (exists forbids, regranted user (map (fun name => mkGrant (entity_key t i name) true) forbids ++
        others t i names (rb_grants (ac_repo s) user EntityTypeUser)) s (mkRBACState r4 c4 k4)) /\
        forall name, name ∈ names -> refused user t i r4 name).
  { intros r4 c4 k4 Hi4 Hr4 Hcur4 Hg4 Ho4. rewrite Hgs in Hg4, Ho4. split.
    - exists fnames. split_and!; [done|simpl; exact (eq_trans Hr4 (eq_trans Hrs Hro1))|done|simpl; by rewrite Hg4, Hg2|].
      intros e t' Hne. simpl. rewrite Ho4 by done. simpl. by apply Ho1.
    - apply Hlater; [done|]. intros g. apply (via_role_kept _ _ user); [exact (eq_trans Hr4 Hrs)|done]. }
  destruct fl as [|a0 fl0].
  - wp_step. destruct s3 as [r3 c3 k3]. apply (Hfin3 r3 c3 k3); try done.
    destruct fnames; [done|]. simpl in Hfk. done.
  - set (fl := a0 :: fl0) in *. do 2 wp_step. eapply wp_mono; [apply (wp_Grant true user fl s3); [done|]|].
    { apply Hns. simpl. apply Hn1. apply (rb_room_weaken _ (length names)); [|done]. rewrite <- Hlen. exact (sublist_length _ _ Hsub). }
    intros res s4 (Hi4 & Hc4 & Hro4 & Hres4). destruct res as [[]|e|w]; simpl; [|done|done].
    unfold cache_Delete, modify, wp. simpl. destruct Hres4 as [Hg4 Ho4].
    apply Hfin3; try done; [by apply (deleted_current user s4)|].
    rewrite Hg4. rewrite (grants_of_keys fl t i true fnames Hfk). done.
Qed.

(** ** Roles *)

Definition unique_roles (r : R) : Prop :=
  NoDup (map rl_ID (rb_catalogue r)) /\ NoDup (map rl_Name (rb_catalogue r)).

Lemma NoDup_map_inj {A B} (f : A -> B) (l : list A) x y :
  NoDup (map f l) -> x ∈ l -> y ∈ l -> f x = f y -> x = y.
Proof.
  induction l as [|z l IH]; simpl; intros Hnd Hx Hy Hf; [by apply list.elem_of_nil in Hx|].
  apply list.NoDup_cons in Hnd as [Hz Hnd].
  apply list.elem_of_cons in Hx as [->|Hx]; apply list.elem_of_cons in Hy as [->|Hy]; [done| | |by apply IH].
  - destruct Hz. rewrite Hf. apply list_elem_of_fmap. eauto.
  - destruct Hz. rewrite <- Hf. apply list_elem_of_fmap. eauto.
Qed.

Lemma role_by_name_spec (r : R) l name :
  unique_roles r -> l ≡ₚ rb_catalogue r ->
  match role_by_name l name with
  | Some y => y ∈ rb_catalogue r /\ rl_Name y = name
  | None => forall y, y ∈ rb_catalogue r -> rl_Name y <> name
  end.
Proof.
  intros Hu Hl. unfold role_by_name. destruct (list.last (filter (fun r => rl_Name r = name) l)) as [y|] eqn:E.
  - apply last_Some_elem_of, list_elem_of_filter in E as [Hn Hy]. by rewrite Hl in Hy.
  - intros y Hy Hn. apply last_None in E.
    assert (Hin : y ∈ filter (fun r => rl_Name r = name) l) by (apply list_elem_of_filter; by rewrite Hl).
    rewrite E in Hin. by apply list.elem_of_nil in Hin.
Qed.

Lemma named_roles_spec (r : R) l names :
  unique_roles r -> l ≡ₚ rb_catalogue r ->
  match named_roles l names with
  | Ok rs => (forall x, x ∈ rs <-> exists y, y ∈ rb_catalogue r /\ rl_Name y ∈ names /\ x = NewRestrictedRoleFromRole y) /\
      (forall name, name ∈ names -> exists y, y ∈ rb_catalogue r /\ rl_Name y = name) /\ length rs = length names
  | Err e => exists name, name ∈ names /\ e = InvalidRoleName name /\ forall y, y ∈ rb_catalogue r -> rl_Name y <> name
  | Panic _ => False
  end.
Proof.
  intros Hu Hl. induction names as [|name names IH]; simpl.
  - split_and!; [|by intros ? ?%list.elem_of_nil|done]. intros x. split; [by intros ?%list.elem_of_nil|].
    by intros (? & _ & ?%list.elem_of_nil & _).
  - pose proof (role_by_name_spec r l name Hu Hl) as Hr. destruct (role_by_name l name) as [y|].
    2:{ exists name. split_and!; [left|done|done]. }
    destruct (named_roles l names) as [rs|e|w]; simpl; [|destruct IH as (x & ? & ? & ?); exists x; split_and!; [by right|done|done]|done].
    destruct IH as (Hrs & Hall & Hlen), Hr as [Hy Hn]. split_and!; [| |by rewrite Hlen].
    + intros x. rewrite list.elem_of_cons, Hrs. split.
      * intros [->|(z & Hz & Hin & ->)]; [exists y|exists z]; split_and!; try done; [rewrite Hn; left|by right].
      * intros (z & Hz & Hin & ->). apply list.elem_of_cons in Hin as [Hzn|Hin]; [|right; by exists z].
        left. f_equal. apply (NoDup_map_inj rl_Name (rb_catalogue r)); [apply Hu|done|done|congruence].
    + intros x [->|Hx]%list.elem_of_cons; [by exists y|by apply Hall].
Qed.

Lemma wp_setRoles user names (s : St) :
  sinv s -> unique_roles (ac_repo s) -> rb_room (length names) (ac_repo s) ->
  wp (setRolesToUser user names) (fun res s' => ac_cache s' = ac_cache s /\
    rb_grants (ac_repo s') = rb_grants (ac_repo s) /\
    match res with
    | Ok _ => (forall x, x ∈ rb_roles (ac_repo s') user EntityTypeUser <->
          exists y, y ∈ rb_catalogue (ac_repo s) /\ rl_Name y ∈ names /\ x = NewRestrictedRoleFromRole y) /\
        (forall name, name ∈ names -> exists y, y ∈ rb_catalogue (ac_repo s) /\ rl_Name y = name) /\
        forall e t, (e, t) <> (user, EntityTypeUser) -> rb_roles (ac_repo s') e t ≡ₚ rb_roles (ac_repo s) e t
    | Err _ => (exists name, name ∈ names /\ forall y, y ∈ rb_catalogue (ac_repo s) -> rl_Name y <> name) ->
        rb_roles (ac_repo s') = rb_roles (ac_repo s)
    | Panic _ => False
    end) s.
Proof.
  intros Hi Hu Hroom. unfold setRolesToUser. do 2 wp_step. unfold on_repo at 1. wp_step. apply wp_intro. simpl.
  intros res r1 E. destruct (rb_get_roles_law _ _ _ Hi E) as (Hi1 & Hg1 & Hr1 & Hc1 & Hn1 & Hres).
  destruct res as [l|e|w]; simpl; [|by split_and!|done].
  do 2 wp_step. pose proof (named_roles_spec (ac_repo s) l names Hu Hres) as Hnm.
  destruct (named_roles l names) as [rs|e|w]; [|by split_and!|done]. destruct Hnm as (Hrs & Hall & Hlen).
  assert (Hknown : forall name, name ∈ names -> ~ forall y, y ∈ rb_catalogue (ac_repo s) -> rl_Name y <> name).
  { intros name Hname Hno. destruct (Hall name Hname) as (y & Hy & Hyn). by destruct (Hno y Hy). }
  do 2 wp_step. unfold on_repo at 1. wp_step. apply wp_intro. simpl.
  intros res r2 E2. destruct (rb_clear_law _ _ _ _ _ Hi1 E2) as (Hi2 & Hg2 & Hc2 & Hn2 & Hres2).
  destruct res as [[]|e|w]; simpl; [|split_and!; [done|congruence|intros (name & Hname & Hno); by destruct (Hknown name Hname)]|done].
  destruct Hres2 as [Hr2 Ho2]. wp_step. unfold on_repo at 1. wp_step. apply wp_intro. simpl.
  intros res r3 E3. assert (Hroom2 : rb_room (length rs) r2) by (rewrite Hlen; by apply Hn2, Hn1).
  destruct (rb_assign_law _ _ _ _ _ _ Hi2 Hroom2 E3) as (Hi3 & Hg3 & Hc3 & Hn3 & Hres3).
  destruct res as [[]|e|w]; simpl; [|split_and!; [done|congruence|intros (name & Hname & Hno); by destruct (Hknown name Hname)]|done].
  destruct Hres3 as [Hin Ho3]. split_and!; [done|congruence| |done|].
  - intros x. rewrite Hin, Hr2, Hc2, Hc1. split.
    + intros [?%list.elem_of_nil|(role & y & Hro & Hy & Hid & ->)]; [done|]. apply Hrs in Hro as (z & Hz & Hzn & ->).
      simpl in Hid. rewrite (NoDup_map_inj rl_ID _ y z (proj1 Hu) Hy Hz Hid). by exists z.
    + intros (y & Hy & Hyn & ->). right. exists (NewRestrictedRoleFromRole y), y. split_and!; try done.
      apply Hrs. by exists y.
  - intros e t Hne. by rewrite Ho3, Ho2, Hr1.
Qed.

(** ** Properties *)

Inductive question : Type := AskCan | AskForEntity (entityType : EntityType) (entityID : N).
Definition ask (q : question) (userID : N) (names : list string) : M St bool :=
  match q with
  | AskCan => Can clock ttl userID names
  | AskForEntity t i => CanForEntity clock ttl userID t i names
  end.
Definition covered_by (q : question) : akey -> bool :=
  match q with AskCan => k_global | AskForEntity t i => k_covers t i end.

Lemma wp_ask q user names (s : St) :
  sinv s -> cache_current user s ->
  wp (ask q user names) (fun res s' => sinv s' /\ same_access s s' /\ cache_current user s' /\
    match res with
    | Ok b => exists covers m, (forall a, covers a = covered_by q (key_of a)) /\ reads (ac_repo s) user m /\
        b = all_granted covers m names
    | Err _ => True
    | Panic _ => False
    end) s.
Proof.
  intros Hi Hc. destruct q as [|t i]; simpl.
  - eapply wp_mono; [by apply wp_Can|]. intros res s' (Hi' & Hs & Hc' & [[e ->]|(m & Hm & ->)]); split_and!; try done.
    by exists is_global, m.
  - eapply wp_mono; [by apply wp_CanForEntity|]. intros res s' (Hi' & Hs & Hc' & [[e ->]|(m & Hm & ->)]); split_and!; try done.
    by exists (for_entity t i), m.
Qed.

(** With a cache that holds nothing outdated for the user, access is given only
    on a grant: [Can] and [CanForEntity] answer yes only if for every ability
    asked the user holds, himself or through a role that passes it on, a
    permission that is not forbidden and covers what is asked; and they answer
    yes whenever he holds such permissions and no forbidden one of these names. *)
Lemma current_access_needs_grant q user names (s : St) :
  sinv s -> cache_current user s ->
  let '(res, s') := ask q user names s in
  same_access s s' /\ cache_current user s' /\
  match res with
  | Ok b => answered_by (covered_by q) (ac_repo s) user names b
  | Err _ => True
  | Panic _ => False
  end.
Proof.
  intros Hi Hc. pose proof (wp_ask q user names s Hi Hc) as Hwp. destruct (ask q user names s) as [res s'] eqn:E.
  destruct (wp_run _ _ _ _ _ Hwp E) as (_ & Hs & Hc' & Hr). split_and!; [done..|].
  destruct res as [b|e|w]; [|done|done]. destruct Hr as (covers & m & Hf & Hm & ->). by apply all_granted_answer.
Qed.

(** *** How old an answer can be *)

Lemma on_repo_sides {A} (m : M R A) (s : St) :
  ac_cache (snd (on_repo m s)) = ac_cache s /\ ac_clock (snd (on_repo m s)) = ac_clock s.
Proof. unfold on_repo, zoom. by destruct (m (ac_repo s)). Qed.

Lemma append_roles_clock roles : forall acc (s : St), ac_clock (snd (append_roles roles acc s)) = ac_clock s.
Proof.
  induction roles as [|role roles IH]; intros acc s; [done|]. simpl. unfold bind, wrap.
  destruct (on_repo_sides (RB_GetPermissions (rl_ID (rs_Role role)) EntityTypeRole) s) as [_ Hk].
  destruct (on_repo (RB_GetPermissions (rl_ID (rs_Role role)) EntityTypeRole) s) as [[ps|e|w] s1]; simpl in *; [|done|done].
  by rewrite IH.
Qed.

(** An entry of the cache stems from the repository [r] and expires no later
    than its time after the clock stood at [k]. *)
Definition entry_from (user : N) (r : R) (k : N) (e : cacheEntry) : Prop :=
  reads r user (ce_Permissions e) /\ (ce_ExpiresAt e <= clock k + ttl)%Z.

Definition later_clock : Prop := forall a b, (a <= b)%N -> (clock a <= clock b)%Z.
Hypothesis Hclock : later_clock.

(** What reading the permissions of a user does, whatever the cache holds. *)
Definition read_post (user : N) (s : St) (f : Permissions -> bool) (res : result bool) (s' : St) : Prop :=
  sinv s' /\ same_access s s' /\ (ac_clock s <= ac_clock s')%N /\
  (forall k e, ac_cache s' !! k = Some e -> ac_cache s !! k = Some e \/
     k = user_key user /\ entry_from user (ac_repo s') (ac_clock s') e) /\
  match res with
  | Ok b => (exists m, reads (ac_repo s) user m /\ b = f m) \/
      exists e, ac_cache s !! user_key user = Some e /\ b = f (ce_Permissions e) /\ (clock (ac_clock s) <= ce_ExpiresAt e)%Z
  | Err _ => True
  | Panic _ => False
  end.

Lemma read_post_err user f e (s s' : St) :
  sinv s' -> same_access s s' -> (ac_clock s <= ac_clock s')%N ->
  (forall k e, ac_cache s' !! k = Some e -> ac_cache s !! k = Some e) -> read_post user s f (Err e) s'.
Proof. intros. split_and!; try done. intros k x Hx. left. auto. Qed.

Lemma wp_read_permissions user f (s : St) :
  sinv s ->
  wp (let! m := permissions_of clock ttl user in ret (f m)) (read_post user s f) s.
Proof.
  intros Hi. unfold permissions_of, getAllPermissionsForUser. do 3 wp_step.
  assert (Hget : wp (cache_Get clock ttl (user_key user)) (fun res s1 => ac_repo s1 = ac_repo s /\ ac_cache s1 = ac_cache s /\
    (ac_clock s <= ac_clock s1)%N /\
    match res with
    | Ok None => True
    | Ok (Some m) => exists e, ac_cache s !! user_key user = Some e /\ ce_Permissions e = m /\ (clock (ac_clock s) <= ce_ExpiresAt e)%Z
    | _ => False
    end) s).
  { unfold cache_Get. destruct (ttl =? 0)%Z; [by wp_step; split_and!; [..|lia|]|]. do 2 wp_step.
    destruct (ac_cache s !! user_key user) as [e|] eqn:E; [|wp_step; split_and!; try done; lia].
    wp_step. unfold time_now, wp at 1. simpl. wp_step. unfold IsExpired.
    destruct (Z.ltb_spec (ce_ExpiresAt e) (clock (ac_clock s))); split_and!; try done; simpl; [lia|lia|].
    exists e. split_and!; try done. }
  eapply wp_mono; [exact Hget|]. clear Hget. intros res s1 (Hr1 & Hc1 & Hk1 & Hres).
  assert (Hs1 : same_access s s1) by (unfold same_access; by rewrite Hr1).
  assert (Hi1 : sinv s1) by (unfold sinv; by rewrite Hr1).
  destruct res as [[m|]| |]; [|clear Hres|done|done].
  { destruct Hres as (e & He & Hem & Hexp). repeat wp_step. split_and!; try done.
    - intros k x. simpl. rewrite ?Hc1. by left.
    - right. exists e. by rewrite Hem. }
  do 2 wp_step. apply wp_intro. intros r2 s2 E2.
  destruct (on_repo_sides (RB_GetPermissions user EntityTypeUser) s1) as [Hc2 Hk2].
  destruct (wp_run _ _ _ _ _ (wp_GetPermissions user EntityTypeUser s1 Hi1) E2) as (Hi2 & Hs2 & _ & Hr2).
  rewrite E2 in Hc2, Hk2. cbn [snd] in Hc2, Hk2.
  assert (Hs02 : same_access s s2) by by eapply same_access_trans.
  destruct r2 as [own|e|w]; cbn [wrap_err]; [|apply read_post_err; [done|done|lia|congruence]|done].
  do 2 wp_step. apply wp_intro. intros r3 s3 E3.
  destruct (on_repo_sides (RB_GetRolesForEntity user EntityTypeUser) s2) as [Hc3 Hk3].
  rewrite E3 in Hc3, Hk3. cbn [snd] in Hc3, Hk3.
  assert (Hread : sinv s3 /\ same_access s2 s3 /\ match r3 with
    | Ok roles => roles ≡ₚ rb_roles (ac_repo s2) user EntityTypeUser | Err _ => True | Panic _ => False end).
  { unfold on_repo, zoom in E3. destruct (RB_GetRolesForEntity user EntityTypeUser (ac_repo s2)) as [r3' r'] eqn:E.
    injection E3 as <- <-. destruct (rb_roles_law user EntityTypeUser _ _ _ Hi2 E) as (? & ? & ? & ? & ? & ?).
    by split_and!. }
  destruct Hread as (Hi3 & Hs3 & Hroles).
  assert (Hs03 : same_access s s3) by by eapply same_access_trans.
  destruct r3 as [roles|e|w]; cbn [wrap_err]; [|apply read_post_err; [done|done|lia|congruence]|done].
  wp_step. apply wp_intro. intros r4 s4 E4. pose proof (append_roles_clock roles own s3) as Hk4.
  destruct (wp_run _ _ _ _ _ (wp_append_roles roles own s3 Hi3) E4) as (Hi4 & Hs4 & Hc4 & Hr4).
  rewrite E4 in Hk4. cbn [snd] in Hk4.
  assert (Hs04 : same_access s s4) by by eapply same_access_trans.
  destruct r4 as [all|e|w]; [|apply read_post_err; [done|done|lia|congruence]|done].
  destruct Hr4 as (rest & -> & Hrest).
  assert (Hreads : reads (ac_repo s) user (by_name (own ++ rest))).
  { exists (omap grant_of own), (omap grant_of rest). split_and!.
    - rewrite Hr2. by rewrite (proj1 Hs1).
    - intros g. rewrite Hrest. unfold via_role. rewrite (proj1 Hs03).
      setoid_rewrite Hroles. by rewrite (proj1 (proj2 Hs02)).
    - intros name. destruct (by_name_acc (own ++ rest) ∅ name) as [Hn Hall].
      { rewrite lookup_empty. by intros p ?%list.elem_of_nil. }
      rewrite lookup_empty in Hn. split; [|exact Hall]. unfold by_name. rewrite Hn. by rewrite omap_app. }
  wp_step.
  assert (Hset : wp (cache_Set clock ttl (user_key user) (by_name (own ++ rest))) (fun res s5 => res = Ok tt /\
    ac_repo s5 = ac_repo s4 /\ (ac_clock s4 <= ac_clock s5)%N /\
    forall k e, ac_cache s5 !! k = Some e -> ac_cache s4 !! k = Some e \/
      k = user_key user /\ e = mkCacheEntry (by_name (own ++ rest)) (clock (ac_clock s4) + ttl)) s4).
  { unfold cache_Set. destruct (ttl =? 0)%Z; [wp_step; split_and!; auto; lia|]. wp_step. unfold time_now, wp at 1. simpl.
    unfold modify, wp. simpl. split_and!; try done; [lia|]. intros k e. rewrite lookup_insert.
    case_decide; [intros [= <-]; by right|by left]. }
  eapply wp_mono; [exact Hset|]. clear Hset. intros res s5 (-> & Hr5 & Hk5 & Hc5). repeat wp_step. unfold wp. cbn [fst snd ret].
  assert (Hs5 : same_access s4 s5) by (unfold same_access; by rewrite Hr5).
  assert (Hs05 : same_access s s5) by by eapply same_access_trans.
  assert (Hi5 : sinv s5) by (unfold sinv; by rewrite Hr5).
  split_and!; [exact Hi5|exact Hs05|lia| |left; by exists (by_name (own ++ rest))].
  intros k e He. destruct (Hc5 k e He) as [He'|[-> ->]]; [left; congruence|]. right. split; [done|]. split.
  - by apply (reads_same s).
  - simpl. pose proof (Hclock _ _ Hk5). lia.
Qed.

Lemma wp_ask_any q user names (s : St) :
  sinv s ->
  wp (ask q user names) (fun res s' => exists f, read_post user s f res s' /\
    forall r m, reads r user m -> answered_by (covered_by q) r user names (f m)) s.
Proof.
  intros Hi. destruct q as [|t i]; simpl; unfold Can, CanForEntity.
  - eapply wp_mono; [by apply (wp_read_permissions user (fun m => all_granted is_global m names))|].
    intros res s' Hp. eexists. split; [exact Hp|]. intros r m Hm. by apply all_granted_answer.
  - eapply wp_mono; [by apply (wp_read_permissions user (fun m => all_granted (for_entity t i) m names))|].
    intros res s' Hp. eexists. split; [exact Hp|]. intros r m Hm. by apply all_granted_answer.
Qed.

(** Whatever changes grants and roles: the cache loses entries at most, or
    gains some that were read off the changed repository. *)
Definition changed (s s' : St) : Prop :=
  sinv s' /\ (ac_clock s <= ac_clock s')%N /\
  forall k e, ac_cache s' !! k = Some e -> ac_cache s !! k = Some e \/
    exists user, k = user_key user /\ entry_from user (ac_repo s') (ac_clock s') e.

(** Questions and changes from an empty cache on, with the states before. *)
Inductive access_run : list St -> St -> Prop :=
| run_start s : sinv s -> ac_cache s = ∅ -> access_run [] s
| run_ask past s q user names : access_run past s -> access_run (past ++ [s]) (snd (ask q user names s))
| run_change past s s' : access_run past s -> changed s s' -> access_run (past ++ [s]) s'.

Definition dated (past : list St) (s : St) : Prop :=
  sinv s /\ forall user e, ac_cache s !! user_key user = Some e ->
    exists s0, s0 ∈ past ++ [s] /\ entry_from user (ac_repo s0) (ac_clock s0) e.

Lemma dated_changed past s s' : dated past s -> changed s s' -> dated (past ++ [s]) s'.
Proof.
  intros [_ Hd] (Hi & _ & Hc). split; [done|]. intros user e He. destruct (Hc _ _ He) as [Hold|(u & Hu & Hfrom)].
  - destruct (Hd user e Hold) as (s0 & Hs0 & Hf). exists s0. split; [|done]. apply list.elem_of_app. by left.
  - injection Hu as <-. exists s'. split; [|done]. apply list.elem_of_app. right. by left.
Qed.

Lemma asked_changed q user names (s : St) : sinv s -> changed s (snd (ask q user names s)).
Proof.
  intros Hi. pose proof (wp_ask_any q user names s Hi) as Hwp. destruct (ask q user names s) as [res s'] eqn:E.
  destruct (wp_run _ _ _ _ _ Hwp E) as (f & (Hi' & _ & Hk & Hc & _) & _). split_and!; [done|done|].
  intros k e He. destruct (Hc k e He) as [?|[-> ?]]; [by left|right; by exists user].
Qed.

Lemma access_run_dated past s : access_run past s -> dated past s.
Proof.
  induction 1 as [s Hi Hc|past s q user names _ IH|past s s' _ IH Hch].
  - split; [done|]. intros user e. by rewrite Hc, lookup_empty.
  - apply dated_changed; [done|]. apply asked_changed, IH.
  - by apply dated_changed.
Qed.

(** Setting roles is such a change: the cache keeps the answers for the user. *)
Lemma set_roles_changed user names (s : St) :
  transactional -> sinv s -> unique_roles (ac_repo s) -> rb_room (length names) (ac_repo s) ->
  changed s (snd (SetRolesToUser tm_Do user names s)).
Proof.
  intros Htm Hi Hu Hroom.
  assert (Hsides : forall s' : St, sinv s' -> ac_cache s' = ac_cache s -> ac_clock s' = ac_clock s -> changed s s').
  { intros s' Hi' Hc Hk. split_and!; [done|lia|]. intros k e. rewrite Hc. by left. }
  assert (Hwp : wp (setRolesToUser user names) (fun _ s' => sinv s' /\ ac_cache s' = ac_cache s /\ ac_clock s' = ac_clock s) s).
  { unfold setRolesToUser. do 2 wp_step. unfold on_repo at 1. wp_step. apply wp_intro. simpl.
    intros res r1 E. destruct (rb_get_roles_law _ _ _ Hi E) as (Hi1 & Hg1 & Hr1 & Hc1 & Hn1 & Hres).
    destruct res as [l|e|w]; simpl; [|by split_and!|done].
    do 2 wp_step. pose proof (named_roles_spec (ac_repo s) l names Hu Hres) as Hnm.
    destruct (named_roles l names) as [rs|e|w]; [|by split_and!|done]. destruct Hnm as (Hrs & Hall & Hlen).
    do 2 wp_step. unfold on_repo at 1. wp_step. apply wp_intro. simpl.
    intros res r2 E2. destruct (rb_clear_law _ _ _ _ _ Hi1 E2) as (Hi2 & Hg2 & Hc2 & Hn2 & Hres2).
    destruct res as [[]|e|w]; simpl; [|by split_and!|done].
    wp_step. unfold on_repo at 1. wp_step. apply wp_intro. simpl.
    intros res r3 E3. assert (Hroom2 : rb_room (length rs) r2) by (rewrite Hlen; by apply Hn2, Hn1).
    by destruct (rb_assign_law _ _ _ _ _ _ Hi2 Hroom2 E3) as (Hi3 & _). }
  unfold SetRolesToUser. unfold wp in Hwp. destruct Hwp as (Hi' & Hc' & Hk').
  destruct (Htm (setRolesToUser user names) s) as [->|[_ ->]]; by apply Hsides.
Qed.

(** C19: access is given only on a grant, as of a moment no longer ago than
    entries of the cache live: over any series of questions and changes, an
    answer of [Can] or [CanForEntity] is right for the permissions in force
    now, or at an earlier moment of the series that is at most the lifetime of
    an entry past.  Right means: yes only if for every ability asked the user
    holds, himself or through a role that passes it on, a permission that is
    not forbidden and covers what is asked, and yes whenever he holds such
    permissions and no forbidden one of these names.  Asking changes nothing
    anyone holds.  Allowing and revoking abilities drop the entry of the user;
    setting his roles does not ([role_change_waits_for_cache]). *)
Theorem access_needs_grant past q user names (s : St) :
  access_run past s ->
  let '(res, s') := ask q user names s in
  same_access s s' /\
  match res with
  | Ok b => exists s0, answered_by (covered_by q) (ac_repo s0) user names b /\
      (s0 = s \/ s0 ∈ past /\ (clock (ac_clock s) <= clock (ac_clock s0) + ttl)%Z)
  | Err _ => True
  | Panic _ => False
  end.
Proof.
  intros Hrun. destruct (access_run_dated _ _ Hrun) as [Hi Hd].
  pose proof (wp_ask_any q user names s Hi) as Hwp. destruct (ask q user names s) as [res s'] eqn:E.
  destruct (wp_run _ _ _ _ _ Hwp E) as (f & (_ & Hs & _ & _ & Hr) & Hf). split; [done|].
  destruct res as [b|e|w]; [|done|done]. destruct Hr as [(m & Hm & ->)|(e & He & -> & Hexp)].
  - exists s. split; [by apply Hf|by left].
  - destruct (Hd user e He) as (s0 & Hs0 & Hm & Hle). exists s0. split; [by apply Hf|].
    apply list.elem_of_app in Hs0 as [Hs0| ->%list_elem_of_singleton]; [right; split; [done|lia]|by left].
Qed.

(** A permission forbidden to the user for one entity denies the ability
    for every entity: whatever his roles allow, for this or any other entity
    or globally, the answer is no unless he himself has been allowed what is
    asked. *)
Lemma own_forbid_denies_everywhere q user name g (s : St) :
  sinv s -> cache_current user s ->
  g ∈ rb_grants (ac_repo s) user EntityTypeUser -> named name g -> g_Forbidden g = true ->
  (forall x, x ∈ rb_grants (ac_repo s) user EntityTypeUser -> named name x -> g_Forbidden x = false ->
     covered_by q (g_Key x) = false) ->
  fst (ask q user [name] s) = Ok false \/ exists e, fst (ask q user [name] s) = Err e.
Proof.
  intros Hi Hc Hg Hn Hf Hno. pose proof (wp_ask q user [name] s Hi Hc) as Hwp.
  destruct (ask q user [name] s) as [res s'] eqn:E. destruct (wp_run _ _ _ _ _ Hwp E) as (_ & _ & _ & Hr). simpl.
  destruct res as [b|e|w]; [|right; by exists e|done]. left. destruct Hr as (covers & m & Hcov & Hm & ->). f_equal.
  apply not_true_iff_false. intros Hall. rewrite all_granted_spec in Hall. specialize (Hall name ltac:(left)).
  rewrite (own_forbid_refuses covers (covered_by q) (ac_repo s) user m name Hcov Hm) in Hall; [done|by exists g|done].
Qed.

(** Once abilities have been allowed to a user for an entity, he is granted
    them there, unless one of these names was forbidden to him for something
    else; nobody else's permissions change. *)
Lemma allowed_abilities_are_granted user i t names (s s1 : St) :
  transactional -> sinv s -> rb_room (length names) (ac_repo s) ->
  AllowUserAbilitiesForEntity clock tm_Do user i t names s = (Ok tt, s1) ->
  (forall g name, name ∈ names -> g ∈ rb_grants (ac_repo s) user EntityTypeUser -> named name g ->
     g_Forbidden g = true -> g_Key g = entity_key t i name) ->
  (fst (CanForEntity clock ttl user t i names s1) = Ok true \/
   exists e, fst (CanForEntity clock ttl user t i names s1) = Err e) /\
  forall e ty, (e, ty) <> (user, EntityTypeUser) -> rb_grants (ac_repo s1) e ty ≡ₚ rb_grants (ac_repo s) e ty.
Proof.
  intros Htm Hi Hroom E Hno. destruct (wp_run _ _ _ _ _ (wp_Allow user i t names s Htm Hi Hroom) E) as (Hi1 & Hr1 & Hc1 & Hg1 & Ho1).
  split; [|done]. pose proof (wp_CanForEntity user t i names s1 Hi1 Hc1) as Hwp.
  destruct (CanForEntity clock ttl user t i names s1) as [res s2] eqn:E2.
  destruct (wp_run _ _ _ _ _ Hwp E2) as (_ & _ & _ & [[e ->]|(m & Hm & ->)]); [right; by exists e|]. left. simpl. f_equal.
  apply all_granted_spec. intros name Hname.
  destruct (reads_inner _ user m (for_entity t i) (k_covers t i) name (for_entity_key t i) Hm) as (own & inh & Ho & _ & ->).
  rewrite grants_verdict_app, verdict_allowed; [done| |].
  - intros g [Hn Hg]%list_elem_of_filter. rewrite Ho, Hg1, elem_of_app in Hg. destruct Hg as [(x & -> & _)%list_elem_of_fmap|Hg]; [done|].
    apply elem_of_others in Hg as [Hg Hne]. destruct (g_Forbidden g) eqn:Ef; [|done]. destruct (Hne name Hname). by apply Hno.
  - exists (mkGrant (entity_key t i name) false). split.
    + apply list_elem_of_filter. split; [done|]. rewrite Ho, Hg1. apply elem_of_app. left. apply list_elem_of_fmap. by exists name.
    + unfold k_covers. simpl. by rewrite String.eqb_refl, N.eqb_refl.
Qed.

(** C20: once abilities have been revoked from a user for an entity, he is not
    granted them there, provided he himself is not allowed more than that and
    his roles do not both allow and forbid them; nobody else's permissions
    change. *)
Theorem revoked_abilities_are_refused user i t names name (s s1 : St) :
  transactional -> sinv s -> rb_room (length names) (ac_repo s) ->
  no_other_own (ac_repo s) user t i names ->
  (forall name, name ∈ names -> roles_agree (ac_repo s) user (k_covers t i) name) ->
  RevokeOrForbidUserAbilitiesForEntity clock ttl tm_Do user i t names s = (Ok tt, s1) ->
  name ∈ names ->
  (fst (CanForEntity clock ttl user t i [name] s1) = Ok false \/
   exists e, fst (CanForEntity clock ttl user t i [name] s1) = Err e) /\
  forall e ty, (e, ty) <> (user, EntityTypeUser) -> rb_grants (ac_repo s1) e ty ≡ₚ rb_grants (ac_repo s) e ty.
Proof.
  intros Htm Hi Hroom Hother Hagree E Hname.
  destruct (wp_run _ _ _ _ _ (wp_RevokeOrForbid user i t names s Htm Hi Hroom Hother Hagree) E) as [(fb & Hi1 & _ & Hc1 & _ & Ho1) Href].
  split; [|done]. pose proof (wp_CanForEntity user t i [name] s1 Hi1 Hc1) as Hwp.
  destruct (CanForEntity clock ttl user t i [name] s1) as [res s2] eqn:E2.
  destruct (wp_run _ _ _ _ _ Hwp E2) as (_ & _ & _ & [[e ->]|(m & Hm & ->)]); [right; by exists e|]. left. simpl. f_equal.
  apply not_true_iff_false. intros Hall. rewrite all_granted_spec in Hall. by apply (Href name Hname m Hm), Hall; left.
Qed.

(** Setting a user's roles gives him exactly the roles named, unrestricted,
    and changes no one else's; a name that is no role is an error and changes
    nothing.  The answers already cached for the user, however, stay in force
    until they expire. *)
Lemma role_change_waits_for_cache user names (s : St) :
  transactional -> sinv s -> unique_roles (ac_repo s) -> rb_room (length names) (ac_repo s) ->
  let '(res, s1) := SetRolesToUser tm_Do user names s in
  match res with
  | Ok _ => forall x, x ∈ rb_roles (ac_repo s1) user EntityTypeUser <->
      exists y, y ∈ rb_catalogue (ac_repo s) /\ rl_Name y ∈ names /\ x = NewRestrictedRoleFromRole y
  | Err _ => (exists name, name ∈ names /\ forall y, y ∈ rb_catalogue (ac_repo s) -> rl_Name y <> name) ->
      rb_roles (ac_repo s1) = rb_roles (ac_repo s)
  | Panic _ => False
  end /\
  (is_ok res = true -> forall e t, (e, t) <> (user, EntityTypeUser) -> rb_roles (ac_repo s1) e t ≡ₚ rb_roles (ac_repo s) e t) /\
  rb_grants (ac_repo s1) = rb_grants (ac_repo s) /\
  forall entry q asked, ac_cache s !! user_key user = Some entry -> ttl <> 0%Z ->
    IsExpired (clock (ac_clock s1)) entry = false ->
    fst (ask q user asked s1) = Ok (all_granted (match q with AskCan => is_global | AskForEntity t i => for_entity t i end)
      (ce_Permissions entry) asked).
Proof.
  intros Htm Hi Hu Hroom. unfold SetRolesToUser. pose proof (wp_setRoles user names s Hi Hu Hroom) as Hwp. unfold wp in Hwp.
  assert (Hcached : forall (s1 : St) entry q asked, ac_cache s1 = ac_cache s -> ac_cache s !! user_key user = Some entry -> ttl <> 0%Z ->
    IsExpired (clock (ac_clock s1)) entry = false ->
    fst (ask q user asked s1) = Ok (all_granted (match q with AskCan => is_global | AskForEntity t i => for_entity t i end)
      (ce_Permissions entry) asked)).
  { intros s1 entry q asked Hc He Httl Hexp. apply Z.eqb_neq in Httl.
    destruct q; simpl; unfold Can, CanForEntity, permissions_of, wrap, getAllPermissionsForUser, cache_Get, bind, get, time_now, ret;
      rewrite Httl, Hc, He; simpl; by rewrite Hexp. }
  destruct (Htm (setRolesToUser user names) s) as [->|[Hf ->]].
  - destruct (setRolesToUser user names s) as [res s1]. simpl in Hwp. destruct Hwp as (Hc & Hg & Hres).
    split; [by destruct res as [[]|e|w]; [apply Hres|..]|]. split; [|split; [done|intros; by apply Hcached]].
    destruct res as [[]|e|w]; [|done|done]. intros _. apply Hres.
  - destruct (setRolesToUser user names s) as [res s1]. simpl in Hwp, Hf |- *. destruct Hwp as (Hc & Hg & Hres).
    split; [by destruct res as [[]|e|w]|]. split; [by rewrite Hf|]. split; [done|]. intros. by apply Hcached.
Qed.
End specs.

(** A role restricted to one entity passes on whatever is for an entity with
    that id, be it of another type, and nothing that is for all. *)
Lemma restricted_role_ignores_type role g t i :
  rs_RestrictedToType role = Some t -> rs_RestrictedToID role = Some i ->
  passes role g = true <-> k_EntityID (g_Key g) = Some i.
Proof.
  intros Ht Hid. unfold passes. rewrite Ht, Hid. destruct (k_EntityID (g_Key g)) as [j|]; [|done].
  rewrite N.eqb_eq. split; [by intros ->|by intros [= ->]].
Qed.

(** An ability with an entity id and no entity type stops [CanAnyForEntity]
    with a panic as soon as its permission is looked at. *)
Lemma entity_without_type_panics t i m name names p a :
  default [] (m !! name) = [p] -> pm_Ability p = Some a -> is_Some (ab_EntityID a) -> ab_EntityType a = None ->
  exists w, any_granted t i m (name :: names) = Panic w.
Proof. intros Hm Ha [j Hj] Ht. simpl. rewrite Hm. simpl. rewrite Ha, Hj, Ht. by eexists. Qed.

(** ** Examples: user 7 has role 1, which may start every server *)

#[local] Existing Instance listed_order.
Definition sample_time (n : N) : time := Z.of_N n.
Definition no_transaction (m : M (RBACState memRBAC) unit) : M (RBACState memRBAC) unit := m.
Definition sample_access : RBACState memRBAC := mkRBACState sample_rbac ∅ 0.
Abbreviation start := "game-server-start"%string.

Lemma no_transaction_ok : transactional no_transaction.
Proof. by left. Defined.
Lemma sample_access_inv : sinv sample_access.
Proof. exact sample_rbac_ok. Defined.
Lemma sample_access_cache : cache_current 7 sample_access.
Proof. intros e He. done. Defined.

Definition asked_once : RBACState memRBAC :=
  snd (ask sample_time 10 (AskForEntity EntityTypeServer 1) 7 [start] sample_access).
Definition roles_taken : RBACState memRBAC := snd (SetRolesToUser no_transaction 7 [] asked_once).

Lemma sample_later : later_clock sample_time.
Proof. unfold later_clock, sample_time. lia. Defined.

Lemma sample_taken : access_run sample_time 10 [sample_access; asked_once] roles_taken.
Proof.
  apply (run_change sample_time 10 [sample_access] asked_once).
  - apply (run_ask sample_time 10 [] sample_access). apply run_start; [exact sample_access_inv|reflexivity].
  - apply (set_roles_changed sample_time 10 no_transaction 7 [] asked_once no_transaction_ok).
    + by destruct (asked_changed sample_time 10 sample_later (AskForEntity EntityTypeServer 1) 7 [start] sample_access sample_access_inv) as [? _].
    + assert (E : rb_catalogue (ac_repo asked_once) = rb_catalogue sample_rbac) by (vm_compute; reflexivity).
      unfold unique_roles. rewrite E. split; apply (bool_decide_unpack _); vm_compute; exact I.
    + by vm_compute.
Qed.

(** The role is taken from the user, and the answer of before still stands. *)
Lemma access_needs_grant_witness :
  fst (ask sample_time 10 (AskForEntity EntityTypeServer 1) 7 [start] roles_taken) = Ok true /\
  rb_roles (ac_repo roles_taken) 7 EntityTypeUser = [] /\
  exists s0, (s0 = roles_taken \/ s0 ∈ [sample_access; asked_once]) /\ exists g, holds (ac_repo s0) 7 g /\ named start g /\
    g_Forbidden g = false /\ k_covers EntityTypeServer 1 (g_Key g) = true.
Proof.
  pose proof (access_needs_grant sample_time 10 sample_later [sample_access; asked_once] (AskForEntity EntityTypeServer 1) 7 [start]
    roles_taken sample_taken) as H.
  destruct (ask sample_time 10 (AskForEntity EntityTypeServer 1) 7 [start] roles_taken) as [res s'] eqn:E.
  assert (Hr : res = Ok true).
  { transitivity (fst (ask sample_time 10 (AskForEntity EntityTypeServer 1) 7 [start] roles_taken)); [by rewrite E|].
    vm_compute. reflexivity. }
  subst res. split; [reflexivity|]. split; [vm_compute; reflexivity|]. destruct H as (_ & s0 & H & Hs0).
  exists s0. split; [tauto|]. apply H. left.
Defined.

(** Starting server 1 is taken from the user. *)
Definition sample_revoke := RevokeOrForbidUserAbilitiesForEntity sample_time 10 no_transaction 7 1 EntityTypeServer [start].
Definition after_revoke : RBACState memRBAC := snd (sample_revoke sample_access).

Lemma sample_no_own : no_other_own (ac_repo sample_access) 7 EntityTypeServer 1 [start].
Proof. intros g name _ Hg. by apply list.elem_of_nil in Hg. Qed.

Lemma sample_roles : rb_roles sample_rbac 7 EntityTypeUser =
  [NewRestrictedRoleFromRole (mkRole 1 "operator" None None None None None)].
Proof. vm_compute. reflexivity. Qed.
Lemma sample_role_grants : rb_grants sample_rbac 1 EntityTypeRole = [mkGrant (key_of (ability start)) false].
Proof. vm_compute. reflexivity. Qed.

Lemma sample_agree name : name ∈ [start] -> roles_agree (ac_repo sample_access) 7 (k_covers EntityTypeServer 1) name.
Proof.
  intros _. right. intros g (role & Hrole & Hg & _) _. change (ac_repo sample_access) with sample_rbac in *.
  rewrite sample_roles in Hrole. apply list_elem_of_singleton in Hrole as ->.
  simpl rl_ID in Hg. rewrite sample_role_grants in Hg. by apply list_elem_of_singleton in Hg as ->.
Qed.

Lemma sample_revoke_ok : sample_revoke sample_access = (Ok tt, after_revoke).
Proof.
  assert (Hr : fst (sample_revoke sample_access) = Ok tt) by (vm_compute; reflexivity).
  unfold after_revoke. rewrite <- Hr. apply surjective_pairing.
Qed.

Lemma sample_room : rb_room 1 (ac_repo sample_access).
Proof. by vm_compute. Qed.

Lemma revoked_abilities_are_refused_witness :
  fst (CanForEntity sample_time 10 7 EntityTypeServer 1 [start] sample_access) = Ok true /\
  fst (CanForEntity sample_time 10 7 EntityTypeServer 1 [start] after_revoke) <> Ok true.
Proof.
  destruct (revoked_abilities_are_refused sample_time 10 no_transaction 7 1 EntityTypeServer [start] start
    sample_access after_revoke no_transaction_ok sample_access_inv sample_room sample_no_own sample_agree sample_revoke_ok
    ltac:(left)) as [[Hr|[e Hr]] _]; (split; [vm_compute; reflexivity|]); rewrite Hr; discriminate.
Defined.

Lemma after_revoke_ok : sinv after_revoke /\ cache_current 7 after_revoke.
Proof.
  destruct (wp_run _ _ _ _ _ (wp_RevokeOrForbid sample_time 10 no_transaction 7 1 EntityTypeServer [start] sample_access
    no_transaction_ok sample_access_inv sample_room sample_no_own sample_agree) sample_revoke_ok) as [(fb & Hi & _ & Hc & _) _].
  by split.
Qed.

(** Stopping server 1 is allowed to the user. *)
Definition sample_allow := AllowUserAbilitiesForEntity sample_time no_transaction 7 1 EntityTypeServer ["game-server-stop"%string].

(** The user is asked about, then loses his role. *)
Definition asked_state : RBACState memRBAC := snd (ask sample_time 10 AskCan 7 [start] sample_access).

