(* ===== verification/NodesRepo.v ===== *)
(** The in-memory node repository
    ([internal/repositories/inmemory/nodes.go]) and the operating system names
    of a node ([internal/domain/node.go]).  The repository meets the contract
    enrollment and daemon authentication rely on. *)

From S2P Require Import Prelude.
From S2P Require Import GoNum.
From S2P Require Import Domain.
From S2P Require Import GoRuntime.
From S2P Require Import Repositories.
From S2P Require Import TaskRepo.
From S2P Require Import ServersRepo.
From stdpp Require Import base tactics strings list gmap numbers sorting.
From Stdlib Require Import NArith ZArith Ascii.

(** ** Operating systems *)

Definition ParseNodeOS `{Unicode} (os : string) : string :=
  let os := ToLower (TrimSpace os) in
  match os with
  | EmptyString => NodeOSOther
  | String c _ =>
      if Ascii.eqb c "l"%char then NodeOSLinux
      else if Ascii.eqb c "w"%char then NodeOSWindows
      else
        let os3 := if (3 <? String.length os)%nat then String.substring 0 3 os else os in
        if existsb (String.eqb os3) ["ubu"; "deb"; "cen"; "fed"; "alm"; "roc"; "arc"; "sus"] then NodeOSLinux
        else if existsb (String.eqb os3) ["macos"; "mac"; "osx"; "dar"] then NodeOSMacOS
        else NodeOSOther
  end%string.

(** The column value of an operating system. *)
Definition NodeOS_Value (os : string) : string :=
  if existsb (String.eqb os) [NodeOSLinux; NodeOSWindows; NodeOSMacOS; NodeOSOther] then os else NodeOSOther.

Lemma NodeOS_Value_idem os : NodeOS_Value (NodeOS_Value os) = NodeOS_Value os.
Proof. unfold NodeOS_Value at 2 3. destruct (existsb (String.eqb os) _) eqn:E; [|done]. unfold NodeOS_Value. by rewrite E. Qed.

(** What is written to the column is read back, and names that are parsed are
    written as they are. *)
Lemma ParseNodeOS_value `{Unicode} os :
  NodeOS_Value (ParseNodeOS os) = ParseNodeOS os /\ ParseNodeOS (NodeOS_Value os) = NodeOS_Value os.
Proof.
  split.
  - unfold ParseNodeOS. destruct (ToLower (TrimSpace os)) as [|c s]; [done|]. cbv zeta. by repeat case_match.
  - unfold NodeOS_Value. destruct (existsb (String.eqb os) _) eqn:E; [|reflexivity].
    simpl in E. rewrite !orb_true_iff, !String.eqb_eq in E. destruct E as [->|[->|[->|[->|]]]]; [reflexivity..|done].
Qed.

Record memNodeRepo : Type := mkNodeRepo {
  nodes : gmap N Node;
  nd_nextID : N;
  idIndex : gmap N (gset N);
  nd_ticks : N;
}.

Definition NewNodeRepository : memNodeRepo := mkNodeRepo ∅ 0 ∅ 0.

Definition set_nodes (m : gmap N Node) (r : memNodeRepo) : memNodeRepo := mkNodeRepo m (nd_nextID r) (idIndex r) (nd_ticks r).
Definition addToIndexes (n : Node) (r : memNodeRepo) : memNodeRepo :=
  mkNodeRepo (nodes r) (nd_nextID r) (idx_add (nd_ID n) (nd_ID n) (idIndex r)) (nd_ticks r).
Definition removeFromIndexes (n : Node) (r : memNodeRepo) : memNodeRepo :=
  mkNodeRepo (nodes r) (nd_nextID r) (idx_remove (nd_ID n) (nd_ID n) (idIndex r)) (nd_ticks r).

(** The loop over the ids of one [if filter.X != nil] step. *)
Definition keep_nodes (r : memNodeRepo) (P : Node -> bool) (ids : gset N) : gset N :=
  filter (fun id => match nodes r !! id with Some n => P n | None => false end = true) ids.

Definition undeleted (n : Node) : bool := negb (is_set (nd_DeletedAt n)).

Definition getFilteredNodeIDs (r : memNodeRepo) (filter : option FindNode) : gset N :=
  match filter with
  | None => keep_nodes r undeleted (dom (nodes r))
  | Some f =>
      let res := keep_nodes r (fun n => fn_WithDeleted f || undeleted n)
        (if nonempty (fn_IDs f) then list_to_set (fn_IDs f) else dom (nodes r)) in
      let res := match fn_GDaemonAPIKey f with
                 | Some k => keep_nodes r (fun n => String.eqb (nd_GdaemonAPIKey n) k) res
                 | None => res
                 end in
      match fn_GDaemonAPIToken f with
      | Some t => keep_nodes r (fun n => match nd_GdaemonAPIToken n with Some t' => String.eqb t' t | None => false end) res
      | None => res
      end
  end.

Definition compareNodes (a b : Node) (field : string) : comparison :=
  if String.eqb field "id" then N.compare (nd_ID a) (nd_ID b)
  else if String.eqb field "enabled" then cmp_bool (nd_Enabled a) (nd_Enabled b)
  else if String.eqb field "name" then String.compare (nd_Name a) (nd_Name b)
  else if String.eqb field "os" then String.compare (nd_OS a) (nd_OS b)
  else if String.eqb field "created_at" then opt_cmp Z.compare (nd_CreatedAt a) (nd_CreatedAt b)
  else if String.eqb field "updated_at" then opt_cmp Z.compare (nd_UpdatedAt a) (nd_UpdatedAt b)
  else Eq.

Definition sortNodes (l : list Node) (order : list Sorting) : list Node := sort_rows compareNodes nd_ID l order.

Definition FindAll (r : memNodeRepo) (order : list Sorting) (p : option Pagination) : result (list Node) :=
  applyPagination (sortNodes (filter (fun n => undeleted n = true) (map snd (map_to_list (nodes r)))) order) p.

Definition no_filter : FindNode := mkFindNode [] None None false.

Definition Find (r : memNodeRepo) (filter : option FindNode) (order : list Sorting) (p : option Pagination) : result (list Node) :=
  applyPagination
    (sortNodes (omap (fun id => nodes r !! id) (elements (getFilteredNodeIDs r (Some (default no_filter filter))))) order) p.

Section writing.
Context `{WallClock}.

Definition Now : M memNodeRepo time := fun r =>
  (Ok (now_at (nd_ticks r)), mkNodeRepo (nodes r) (nd_nextID r) (idIndex r) (nd_ticks r + 1)).

(** The part of [Save] that touches the table. *)
Definition store (node : Node) : M memNodeRepo Node := fun r =>
  let '(node, r) :=
    if negb (nd_ID node =? 0)%N then
      (node, match nodes r !! nd_ID node with Some old => removeFromIndexes old r | None => r end)
    else
      let id := wrap32 (nd_nextID r + 1) in
      (nd_set_id id node, mkNodeRepo (nodes r) id (idIndex r) (nd_ticks r)) in
  (Ok node, addToIndexes node (set_nodes (<[nd_ID node := node]> (nodes r)) r)).

Definition Save (node : Node) : M memNodeRepo Node :=
  let! updated := Now in
  let node := nd_set_times (nd_CreatedAt node) (Some updated) node in
  let! node :=
    (if (nd_ID node =? 0)%N && match nd_CreatedAt node with None => true | Some t => IsZero t end
     then let! created := Now in ret (nd_set_times (Some created) (nd_UpdatedAt node) node)
     else ret node) in
  store node.
End writing.

Definition Delete (id : N) : M memNodeRepo unit := modify (fun r =>
  let r := match nodes r !! id with Some n => removeFromIndexes n r | None => r end in
  set_nodes (delete id (nodes r)) r).

Definition UpdateGDaemonAPIToken (nodeID : N) (hashedToken : string) (updatedAt : time) : M memNodeRepo unit := modify (fun r =>
  match nodes r !! nodeID with
  | None => r
  | Some n => set_nodes (<[nodeID := nd_set_token (Some hashedToken) (Some updatedAt) n]> (nodes r)) r
  end).

#[export] Instance memNodeRepo_ops `{WallClock} : NodeRepository memNodeRepo := {
  ND_FindAll := FindAll; ND_Find r f := Find r (Some f); ND_Save := Save; ND_Delete := Delete; ND_UpdateGDaemonAPIToken := UpdateGDaemonAPIToken;
}.

(** ** The contract *)

Definition key_id (n : Node) : option N := Some (nd_ID n).

Record nodes_inv (r : memNodeRepo) : Prop := {
  ninv_id : forall i n, nodes r !! i = Some n -> nd_ID n = i /\ (0 < i <= nd_nextID r)%N;
  ninv_index : idx_ok key_id (idIndex r) (nodes r);
}.

Lemma nodes_inv_new : nodes_inv NewNodeRepository.
Proof. split; [intros i n; simpl; by rewrite lookup_empty|apply idx_ok_empty]. Qed.

Definition nodes_room (k : nat) (r : memNodeRepo) : Prop := (nd_nextID r + N.of_nat k < two32)%N.

Lemma elem_of_keep_nodes r P ids id n :
  nodes r !! id = Some n -> id ∈ keep_nodes r P ids <-> id ∈ ids /\ P n = true.
Proof. intros Hn. unfold keep_nodes. rewrite elem_of_filter, Hn. tauto. Qed.

Lemma filtered_node r f id n :
  nodes_inv r -> nodes r !! id = Some n -> id ∈ getFilteredNodeIDs r (Some f) <-> node_matches f n = true.
Proof.
  intros Hinv Hn. destruct (ninv_id r Hinv _ _ Hn) as [Hid _]. unfold getFilteredNodeIDs, node_matches. rewrite Hid.
  assert (Hids : id ∈ (if nonempty (fn_IDs f) then list_to_set (fn_IDs f) else dom (nodes r)) <-> in_or_any id (fn_IDs f) = true).
  { destruct (fn_IDs f) as [|i l]; cbn [nonempty in_or_any]; [rewrite elem_of_dom, Hn; naive_solver|].
    by rewrite elem_of_list_to_set, bool_decide_eq_true. }
  assert (Hdel : undeleted n = bool_decide (nd_DeletedAt n = None)) by (unfold undeleted; by destruct (nd_DeletedAt n)).
  rewrite !andb_true_iff, <- Hids, <- Hdel.
  destruct (fn_GDaemonAPIKey f) as [k|], (fn_GDaemonAPIToken f) as [t|]; rewrite !(elem_of_keep_nodes r _ _ id n Hn);
    rewrite ?bool_decide_eq_true; try tauto.
  all: destruct (nd_GdaemonAPIToken n) as [t'|]; rewrite ?String.eqb_eq; naive_solver.
Qed.

Lemma filtered_node_in r f id : id ∈ getFilteredNodeIDs r (Some f) -> is_Some (nodes r !! id).
Proof.
  unfold getFilteredNodeIDs. intros Hin. destruct (nodes r !! id) as [n|] eqn:E; [done|].
  assert (Hkeep : forall P ids, id ∉ keep_nodes r P ids) by (intros P ids; unfold keep_nodes; rewrite elem_of_filter, E; naive_solver).
  by destruct (fn_GDaemonAPIToken f), (fn_GDaemonAPIKey f); apply Hkeep in Hin.
Qed.

Lemma Find_selects r f p : nodes_inv r -> selects nd_ID (nodes r) (node_matches f) p (Find r (Some f) [] p).
Proof.
  intros Hinv. exists (sortNodes (omap (fun id => nodes r !! id) (elements (getFilteredNodeIDs r (Some f)))) []).
  split; [apply (sort_rows_default compareNodes nd_ID)|]. split.
  - intros n. unfold sortNodes. rewrite (sort_rows_perm compareNodes nd_ID), list_elem_of_omap. setoid_rewrite elem_of_elements. split.
    + intros (i & Hi & Hn). destruct (ninv_id r Hinv _ _ Hn) as [<- _]. split; [done|].
      by apply (filtered_node r f (nd_ID n) n).
    + intros [Hn Hm]. exists (nd_ID n). split; [|done]. by apply (filtered_node r f (nd_ID n) n).
  - unfold Find. change (default no_filter (Some f)) with f. by destruct (applyPagination _ p) as [l|e|w].
Qed.

Lemma nodes_inv_remove r id old :
  nodes r !! id = Some old -> nodes_inv r -> nodes_inv (set_nodes (delete id (nodes r)) (removeFromIndexes old r)).
Proof.
  intros Hold [Hids Hidx]. destruct (Hids _ _ Hold) as [Hid _]. split; simpl; rewrite ?Hid.
  - intros i n. rewrite lookup_delete. case_decide; [done|apply Hids].
  - rewrite <- Hid at 1. by apply (idx_ok_delete key_id).
Qed.

Lemma nodes_inv_insert r row k t :
  nodes r !! nd_ID row = None -> (0 < nd_ID row <= k)%N -> (nd_nextID r <= k)%N -> nodes_inv r ->
  nodes_inv (addToIndexes row (mkNodeRepo (<[nd_ID row := row]> (nodes r)) k (idIndex r) t)).
Proof.
  intros Hnone Hid Hk [Hids Hidx]. split; simpl.
  - intros i n. rewrite lookup_insert. case_decide; subst; [intros [= <-]; by split|].
    intros Hn. destruct (Hids _ _ Hn). split; [done|lia].
  - by apply (idx_ok_insert key_id).
Qed.

Lemma nodes_inv_same r i n n' :
  nodes r !! i = Some n -> nd_ID n' = nd_ID n -> nodes_inv r -> nodes_inv (set_nodes (<[i := n']> (nodes r)) r).
Proof.
  intros Hn Hid [Hids Hidx]. split; simpl.
  - intros j m. rewrite lookup_insert. case_decide; subst; [intros [= <-]; rewrite Hid; by apply Hids|apply Hids].
  - apply (idx_ok_same_key key_id _ _ _ n); [done| |done]. unfold key_id. by rewrite Hid.
Qed.

Section contract.
Context `{WallClock}.

Definition nodes_saveable (r : memNodeRepo) (n : Node) : Prop :=
  if decide (nd_ID n = 0%N) then nodes_room 1 r else is_Some (nodes r !! nd_ID n).

Lemma store_spec n r :
  nodes_inv r -> nodes_saveable r n ->
  exists n' r', store n r = (Ok n', r') /\ nodes_inv r' /\ nodes r' = <[nd_ID n' := n']> (nodes r) /\
    n' = nd_set_id (nd_ID n') n /\
    (if decide (nd_ID n = 0%N) then nodes r !! nd_ID n' = None else nd_ID n' = nd_ID n) /\
    (forall k, nodes_room (if decide (nd_ID n = 0%N) then S k else k) r -> nodes_room k r').
Proof.
  intros Hinv Hsv. unfold nodes_saveable, nodes_room in *. unfold store.
  destruct (decide (nd_ID n = 0%N)) as [Hid|Hid].
  - rewrite Hid. cbn [N.eqb negb].
    assert (Hfresh : nodes r !! (nd_nextID r + 1)%N = None).
    { destruct (nodes r !! (nd_nextID r + 1)%N) as [x|] eqn:E; [|done]. destruct (ninv_id r Hinv _ _ E). lia. }
    assert (Hw : wrap32 (nd_nextID r + 1) = (nd_nextID r + 1)%N) by (apply N.mod_small; lia). rewrite Hw.
    eexists _, _. split; [reflexivity|]. split.
    + refine (nodes_inv_insert r (nd_set_id (nd_nextID r + 1) n) (nd_nextID r + 1) _ _ _ _ Hinv); simpl; [done|lia|lia].
    + split_and!; [done|done|done|]. intros k. simpl. lia.
  - apply N.eqb_neq in Hid as ->. cbn [negb]. destruct Hsv as [old Hold]. rewrite Hold.
    destruct (ninv_id r Hinv _ _ Hold) as [Hio Hlt]. eexists _, _. split; [reflexivity|]. split.
    + assert (Hi2 : nodes_inv (set_nodes (delete (nd_ID n) (nodes r)) (removeFromIndexes old r))) by by apply nodes_inv_remove.
      pose proof (nodes_inv_insert _ n (nd_nextID r) (nd_ticks r)
        (lookup_delete_eq (nodes r) (nd_ID n) : nodes (set_nodes (delete (nd_ID n) (nodes r)) (removeFromIndexes old r)) !! _ = None)
        Hlt (N.le_refl _) Hi2) as Hins.
      simpl in Hins. by rewrite insert_delete_eq in Hins.
    + split_and!; [done|by destruct n|done|done].
Qed.

Lemma node_Save_spec n r :
  nodes_inv r -> nodes_saveable r n ->
  exists n' r', Save n r = (Ok n', r') /\ nodes_inv r' /\ nodes r' = <[nd_ID n' := n']> (nodes r) /\
    (exists created updated, n' = nd_set_times created updated (nd_set_id (nd_ID n') n)) /\
    (if decide (nd_ID n = 0%N) then nodes r !! nd_ID n' = None else nd_ID n' = nd_ID n) /\
    (forall k, nodes_room (if decide (nd_ID n = 0%N) then S k else k) r -> nodes_room k r').
Proof.
  intros Hinv Hsv.
  assert (Hst : exists c u r1, Save n r = store (nd_set_times c u n) r1 /\ nodes r1 = nodes r /\ nd_nextID r1 = nd_nextID r /\ idIndex r1 = idIndex r).
  { unfold Save, bind, Now, ret. simpl. destruct (_ && _); eexists _, _, _; (split; [reflexivity|done]). }
  destruct Hst as (c & u & r1 & -> & Hr1 & Hid1 & Hx1).
  destruct (store_spec (nd_set_times c u n) r1) as (n' & r' & -> & Hi & Hrow & Hn' & Hnew & Hroom).
  - destruct Hinv. split; by rewrite Hr1, ?Hid1, ?Hx1.
  - unfold nodes_saveable, nodes_room in *. simpl. by rewrite Hr1, Hid1.
  - unfold nodes_room in *. rewrite Hr1, Hid1 in *. exists n', r'. split_and!; [done..| |done|done].
    exists c, u. rewrite Hn'. by destruct n.
Qed.

Lemma node_Delete_spec i r : nodes_inv r ->
  Delete i r = (Ok tt, snd (Delete i r)) /\ nodes_inv (snd (Delete i r)) /\ nodes (snd (Delete i r)) = delete i (nodes r) /\
  forall k, nodes_room k r -> nodes_room k (snd (Delete i r)).
Proof.
  intros Hinv. unfold Delete, modify. cbn [snd]. destruct (nodes r !! i) as [n|] eqn:En.
  - split_and!; [done|exact (nodes_inv_remove r i n En Hinv)|done|done].
  - rewrite delete_id by done. by split_and!; [|destruct r|..].
Qed.

#[export, program] Instance memNodeRepo_laws : NodeRepositoryLaws memNodeRepo := {
  nr_inv := nodes_inv; nr_rows := nodes; nr_room := nodes_room;
}.
Next Obligation. intros k r. simpl. unfold nodes_room. lia. Qed.
Next Obligation. intros r i n Hinv Hn. destruct (ninv_id r Hinv _ _ Hn). split; [done|lia]. Qed.
Next Obligation. intros r f p Hinv. by apply Find_selects. Qed.
Next Obligation.
  intros n r res r' Hinv Hsv E. destruct (node_Save_spec n r Hinv Hsv) as (n' & r1 & E1 & Hi & Hr & Ht & Hnew & Hroom).
  simpl in E. rewrite E1 in E. injection E as <- <-. by split_and!.
Qed.
Next Obligation.
  intros i r res r' Hinv E. destruct (node_Delete_spec i r Hinv) as (E' & Hi & Hr & Hroom). simpl in E. rewrite E' in E. injection E as <- <-. by split_and!.
Qed.
Next Obligation.
  intros i h t r res r' Hinv [= <- <-]. destruct (nodes r !! i) as [n|] eqn:En.
  - split_and!; [by apply (nodes_inv_same r i n)|done|]. simpl. by rewrite alter_alt, En.
  - split_and!; [done|done|]. by rewrite alter_alt, En.
Qed.
End contract.
