(* ===== verification/CachedNodes.v ===== *)
(** Nodes behind the cache ([internal/repositories/cached/node.go]): the daemons
    are looked up by API key and API token on every request, and these look-ups
    come from Redis. *)

From S2P Require Import Prelude.
From S2P Require Import GoNum.
From S2P Require Import Domain.
From S2P Require Import GoRuntime.
From S2P Require Import Repositories.
From S2P Require Import Cache.
From S2P Require Import RedisCache.
From S2P Require Import ReadThrough.
From S2P Require Import NodesRepo.
From stdpp Require Import base tactics strings list gmap numbers relations.
From Stdlib Require Import NArith ZArith.

Section nodes.
Context {R C : Type} `{NodeRepository R} `{RedisClient C} `{JSONLibrary} `{!JSONType (list Node)} `{KeyLibrary} (ttl : Z).
Abbreviation S := (CachedRepo R C).

Definition load_nodes (find : R -> result (list Node)) : M R (list Node) := fun r => (find r, r).

Definition nodes_FindAll (order : list Sorting) (p : option Pagination) : M S (list Node) :=
  read_through ttl "FindAll nodes" (BuildKey "node" "findall" [POrder order; PPage p]) (load_nodes (fun r => ND_FindAll r order p)).

(** [Find] of a filter that is there. *)
Definition nodes_Find (f : FindNode) (order : list Sorting) (p : option Pagination) : M S (list Node) :=
  let find := load_nodes (fun r => ND_Find r f order p) in
  match fn_GDaemonAPIKey f, fn_GDaemonAPIToken f with
  | Some key, _ => read_through ttl "Find node by API key" (BuildKey "node" "apikey" [PString key]) find
  | None, Some token => read_through ttl "Find node by API token" (BuildKey "node" "apitoken" [PString token]) find
  | None, None => read_through ttl "Find nodes" (BuildKey "node" "find" [PNodeFilter (Some f); POrder order; PPage p]) find
  end.

(** The entries of the credentials a node has; [event] ends the messages. *)
Definition invalidate_credentials (event apiKey apiToken : string) : M S unit :=
  do! (if negb (String.eqb apiKey "")
       then wrap ("failed to invalidate node cache by API key after " +:+ event) (Invalidate [BuildKey "node" "apikey" [PString apiKey]]) else ret tt) ;;
  (if negb (String.eqb apiToken "")
   then wrap ("failed to invalidate node cache by API token after " +:+ event) (Invalidate [BuildKey "node" "apitoken" [PString apiToken]]) else ret tt).
Definition api_token_of (n : Node) : string := default ""%string (nd_GdaemonAPIToken n).

Definition nodes_Save (node : Node) : M S Node :=
  let! saved := wrap "failed to save node" (on_inner (ND_Save node)) in
  do! invalidate_credentials "save" (nd_GdaemonAPIKey node) (api_token_of node) ;;
  do! wrap "failed to invalidate node find pattern cache after save" (InvalidatePattern "node:find*") ;;
  ret saved.

Definition invalidateNodeCache (found : result (list Node)) : M S unit :=
  match found with
  | Ok (n :: _) => invalidate_credentials "delete" (nd_GdaemonAPIKey n) (api_token_of n)
  | Ok [] | Err _ => ret tt
  | Panic w => lift (Panic w)
  end.
Definition nodes_Delete (i : N) : M S unit := fun s =>
  let nodes := ND_Find (cr_inner s) (FindNodeByIDs [i]) [] None in
  match nodes with
  | Panic w => (Panic w, s)
  | _ =>
    (do! wrap "failed to delete node" (on_inner (ND_Delete i)) ;;
     do! invalidateNodeCache nodes ;;
     wrap "failed to invalidate node find pattern cache after delete" (InvalidatePattern "node:find*")) s
  end.

Definition nodes_UpdateGDaemonAPIToken (i : N) (hashedToken : string) (updatedAt : time) : M S unit := fun s =>
  match ND_Find (cr_inner s) (FindNodeByIDs [i]) [] None with
  | Panic w => (Panic w, s)
  | found =>
    let oldToken := match found with Ok (n :: _) => api_token_of n | _ => ""%string end in
    (do! wrap "failed to update node gdaemon api token" (on_inner (ND_UpdateGDaemonAPIToken i hashedToken updatedAt)) ;;
     do! (if negb (String.eqb oldToken "") && negb (String.eqb oldToken hashedToken)
          then wrap "failed to invalidate node cache by previous API token after update" (Invalidate [BuildKey "node" "apitoken" [PString oldToken]])
          else ret tt) ;;
     do! wrap "failed to invalidate node cache by API token after update" (Invalidate [BuildKey "node" "apitoken" [PString hashedToken]]) ;;
     wrap "failed to invalidate node find pattern cache after update" (InvalidatePattern "node:find*")) s
  end.
End nodes.

(** ** What the entries tell *)

(** [FindNode] of the daemon middleware. *)
Definition with_token (token : string) : FindNode := mkFindNode [] None (Some token) true.

(** The look-ups with an entry of their own. *)
Inductive NodeKey : Type :=
| ByApiKey (key : string) | ByToken (token : string)
| ByFind (f : FindNode) (order : list Sorting) (p : option Pagination) | All (order : list Sorting) (p : option Pagination).
Definition node_key `{KeyLibrary} (k : NodeKey) : string :=
  match k with
  | ByApiKey key => BuildKey "node" "apikey" [PString key]
  | ByToken token => BuildKey "node" "apitoken" [PString token]
  | ByFind f order p => BuildKey "node" "find" [PNodeFilter (Some f); POrder order; PPage p]
  | All order p => BuildKey "node" "findall" [POrder order; PPage p]
  end.
Definition legal (k : NodeKey) : Prop :=
  match k with
  | ByApiKey key => key <> "" | ByToken token => token <> ""
  | ByFind f _ _ => fn_GDaemonAPIKey f = None /\ fn_GDaemonAPIToken f = None
  | All _ _ => True
  end.

(** A row but for the token and the time it was given. *)
Definition but_token (n : Node) : Node := nd_set_token None None n.

Section current.
Context {R C : Type} `{NodeRepositoryLaws R} `{RedisLaws C} `{JSONLibrary} `{!JSONType (list Node)} `{!JSONLaws (list Node)} `{KeyLibrary} (ttl : Z).
Abbreviation S := (CachedRepo R C).
Implicit Types s : S.

(** Digests of different parameters differ. *)
Hypothesis hash_inj : forall a b, hashParams a = hashParams b -> a = b.
Lemma node_key_inj k k' : legal k -> legal k' -> node_key k = node_key k' -> k = k'.
Proof.
  destruct k, k'; unfold node_key, BuildKey; simpl; intros _ _ E; try discriminate E; injection E as E; apply hash_inj in E; by injection E; intros; subst.
Qed.

(** The look-ups as the handlers and middlewares make them. *)
Definition look (k : NodeKey) : M S (list Node) :=
  match k with
  | ByApiKey key => nodes_Find ttl (FindNodeByGDaemonAPIKey key) [] only_first
  | ByToken token => nodes_Find ttl (with_token token) [] only_first
  | ByFind f order p => nodes_Find ttl f order p
  | All order p => nodes_FindAll ttl order p
  end.
Definition asks (k : NodeKey) (r : R) : result (list Node) :=
  match k with
  | ByApiKey key => ND_Find r (FindNodeByGDaemonAPIKey key) [] only_first
  | ByToken token => ND_Find r (with_token token) [] only_first
  | ByFind f order p => ND_Find r f order p
  | All order p => ND_FindAll r order p
  end.

(** [l] is what looking for [k] gives; with a key, but for the tokens. *)
Definition node_view (k : NodeKey) (r : R) (l : list Node) : Prop :=
  match k with
  | ByApiKey key => exists l', selects nd_ID (nr_rows r) (node_matches (FindNodeByGDaemonAPIKey key)) only_first (Ok l') /\ map but_token l = map but_token l'
  | ByToken token => selects nd_ID (nr_rows r) (node_matches (with_token token)) only_first (Ok l)
  | _ => asks k r = Ok l
  end.
Lemma asks_view k r l : nr_inv r -> asks k r = Ok l -> node_view k r l.
Proof.
  intros Hi E. destruct k as [key|token|f o p|o p]; simpl in *; [|by rewrite <- E; apply nr_find_law|done..].
  exists l. split; [|done]. rewrite <- E. by apply nr_find_law.
Qed.

(** Everything a look-up may give survives JSON. *)
Definition storable (r : R) : Prop := forall k l, asks k r = Ok l -> portable l.
Definition carried (r : R) : Prop := nr_inv r /\ storable r.
Abbreviation current := (coherent legal node_key node_view).
Abbreviation gone := (gone node_key).

(** A look-up keeps everything current and tells what is held. *)
Lemma look_current k s res s' : carried (cr_inner s) -> current s -> legal k -> look k s = (res, s') ->
  cr_inner s' = cr_inner s /\ current s' /\ forall l, res = Ok l -> node_view k (cr_inner s) l.
Proof.
  intros Hw Hc Hk. assert (exists what, look k = read_through ttl what (node_key k) (load_nodes (asks k))) as [what ->].
  { destruct k as [key|token|f o p|o p]; simpl; [by eexists|by eexists| |by eexists]. destruct Hk as [Hk Ht]. unfold nodes_Find. rewrite Hk, Ht. by eexists. }
  intros Hrun. assert (Hsame : cr_inner s' = cr_inner s) by (by apply (read_through_rows ttl (fun r : R => r)) in Hrun).
  assert (Hloads : loads node_view carried k (load_nodes (asks k))).
  { intros r res0 r' [Hi Hp] [= <- <-]. split_and!; [done|auto|]. intros l Hl. split; [by apply asks_view|by eapply Hp]. }
  destruct (read_through_spec ttl legal node_key node_view node_key_inj carried what k _ s res s' Hk Hw Hc Hloads Hrun) as (_ & Hc' & _ & _ & Hv).
  split_and!; [done..|]. by rewrite Hsame in Hv.
Qed.

(** ** Writes *)

Lemma invalidate_credentials_spec event key token s s' : invalidate_credentials event key token s = (Ok tt, s') ->
  thinned s s' /\ (key <> "" -> gone (ByApiKey key) s') /\ (token <> "" -> gone (ByToken token) s').
Proof.
  unfold invalidate_credentials, bind. intros E.
  assert (Hstep : forall msg k (name : string) s1 s2, (if negb (String.eqb name "") then wrap msg (Invalidate [node_key k]) else ret tt) s1 = (Ok tt, s2) ->
    thinned s1 s2 /\ (name <> "" -> gone k s2)).
  { intros msg k name s1 s2. destruct (String.eqb_spec name "") as [->|Hn]; cbn [negb].
    - intros [= <-]. split; [apply thinned_refl|done].
    - intros E1%invalidate_one. split; [apply E1|intros _; apply E1]. }
  match type of E with (let (_, _) := ?x in _) = _ => destruct x as [[[]|e|w] s1] eqn:E1; [|done..] end.
  apply (Hstep _ (ByApiKey key)) in E1 as [Ht1 Hg1]. apply (Hstep _ (ByToken token)) in E as [Ht2 Hg2].
  split_and!; [by eapply thinned_trans| |done]. intros Hk. eapply gone_thinned; [exact Ht2|auto].
Qed.

(** After a change of rows, with the entries of some credentials and all other
    lists taken out, what remains is current if it was not changed. *)
Lemma current_after s r' s1 s' msg :
  current s -> thinned (mkCachedRepo r' (cr_cache s)) s1 -> wrap msg (InvalidatePattern "node:find*") s1 = (Ok tt, s') ->
  (forall key l, key <> "" -> ~ gone (ByApiKey key) s1 -> node_view (ByApiKey key) (cr_inner s) l -> node_view (ByApiKey key) r' l) ->
  (forall token l, token <> "" -> ~ gone (ByToken token) s1 -> node_view (ByToken token) (cr_inner s) l -> node_view (ByToken token) r' l) ->
  cr_inner s' = r' /\ current s'.
Proof.
  intros Hc Ht1 E Hkey Htok. pose proof (pattern_thins _ "node:find" _ _ eq_refl E) as Ht2. destruct (thinned_trans _ _ _ Ht1 Ht2) as (Hin & Hsub & Ht).
  split; [done|]. apply (coherent_write _ _ _ s); [done..|]. rewrite Hin. intros k l Hk Hseen.
  assert (Hng : ~ gone k s1) by (intros Hg; eapply gone_unseen; [eapply gone_thinned; [exact Ht2|exact Hg]|done]).
  assert (Hlist : String.prefix "node:find" (node_key k) = true -> False) by (intros Hp; by eapply (pattern_unseen node_key _ "node:find" k)).
  destruct k; [by apply Hkey|by apply Htok|by destruct Hlist..].
Qed.

(** Rows changed at one id, where neither row has the credentials. *)
Lemma selects_elsewhere i (rows rows' : gmap N Node) matches p l :
  (forall j, j <> i -> rows' !! j = rows !! j) ->
  (forall n, rows !! i = Some n \/ rows' !! i = Some n -> matches n = false) ->
  selects nd_ID rows matches p (Ok l) -> selects nd_ID rows' matches p (Ok l).
Proof.
  intros Hj Hn. apply (selects_ext nd_ID). intros x Hx. destruct (decide (nd_ID x = i)) as [->|]; [|by rewrite Hj].
  split; intros E; rewrite Hn in Hx by eauto; discriminate.
Qed.
Lemma key_matches_false key n : nd_GdaemonAPIKey n <> key -> node_matches (FindNodeByGDaemonAPIKey key) n = false.
Proof. intros Hk. unfold node_matches. simpl. by rewrite (proj2 (String.eqb_neq _ _) Hk), andb_false_r. Qed.
Lemma token_matches token n : node_matches (with_token token) n = bool_decide (nd_GdaemonAPIToken n = Some token).
Proof. done. Qed.
Lemma token_matches_false token n : api_token_of n <> token -> node_matches (with_token token) n = false.
Proof. intros Ht. rewrite token_matches. apply bool_decide_eq_false. unfold api_token_of in Ht. intros E. by rewrite E in Ht. Qed.

(** A change at one id where the old and the new row have the same credentials,
    and their entries are taken out. *)
Lemma views_elsewhere i key token s1 (r r' : R) :
  (forall j, j <> i -> nr_rows r' !! j = nr_rows r !! j) ->
  (forall n, nr_rows r !! i = Some n \/ nr_rows r' !! i = Some n -> nd_GdaemonAPIKey n = key /\ api_token_of n = token) ->
  (key <> "" -> gone (ByApiKey key) s1) -> (token <> "" -> gone (ByToken token) s1) ->
  (forall k l, k <> "" -> ~ gone (ByApiKey k) s1 -> node_view (ByApiKey k) r l -> node_view (ByApiKey k) r' l) /\
  (forall t l, t <> "" -> ~ gone (ByToken t) s1 -> node_view (ByToken t) r l -> node_view (ByToken t) r' l).
Proof.
  intros Hj Hn Hk Ht. split; intros x l Hx Hng.
  - intros (l' & Hs & Hl). exists l'. split; [|done]. eapply (selects_elsewhere i); [done| |exact Hs].
    intros n [Hkn _]%Hn. apply key_matches_false. rewrite Hkn. intros ->. auto.
  - apply (selects_elsewhere i); [done|]. intros n [_ Htn]%Hn. apply token_matches_false. rewrite Htn. intros ->. auto.
Qed.

Definition keeps_credentials (n : Node) (r : R) : Prop :=
  if decide (nd_ID n = 0%N) then nr_room 1 r
  else exists old, nr_rows r !! nd_ID n = Some old /\ nd_GdaemonAPIKey old = nd_GdaemonAPIKey n /\ api_token_of old = api_token_of n.

Lemma nodes_Save_spec n s n' s' : nr_inv (cr_inner s) -> current s -> keeps_credentials n (cr_inner s) ->
  nodes_Save n s = (Ok n', s') -> nr_inv (cr_inner s') /\ current s'.
Proof.
  intros Hi Hc Hid. unfold nodes_Save, bind at 1. unfold wrap at 1, on_inner, zoom. destruct (ND_Save n (cr_inner s)) as [r1 i1] eqn:Es.
  assert (Hpre : if decide (nd_ID n = 0%N) then nr_room 1 (cr_inner s) else is_Some (nr_rows (cr_inner s) !! nd_ID n)).
  { unfold keeps_credentials in Hid. destruct (decide _); [done|]. destruct Hid as (old & -> & _). by eexists. }
  destruct (nr_save_law n _ _ _ Hi Hpre Es) as (Hi1 & _ & Hrows). destruct r1 as [n1|e|w]; cbn [wrap_err]; [|done..].
  destruct Hrows as ((cr & up & Hn1) & Hrows & Hnew).
  unfold bind. destruct (invalidate_credentials _ _ _ _) as [[[]|e|w] s1] eqn:E1; [|done..]. destruct (invalidate_credentials_spec _ _ _ _ _ E1) as (Ht1 & Hk & Ht).
  destruct (wrap _ (InvalidatePattern _) s1) as [[[]|e|w] s2] eqn:E2; [|done..]. intros [= _ <-].
  destruct (views_elsewhere (nd_ID n1) (nd_GdaemonAPIKey n) (api_token_of n) s1 (cr_inner s) i1) as [Hvk Hvt]; [|..|done|done|].
  - intros j Hj. by rewrite Hrows, lookup_insert_ne.
  - intros x. rewrite Hrows, lookup_insert_eq. intros [Hx|[= <-]]; [|by rewrite Hn1]. unfold keeps_credentials in Hid.
    destruct (decide (nd_ID n = 0%N)); [by rewrite Hnew in Hx|]. destruct Hid as (old & Hold & Hc1 & Hc2). rewrite Hnew, Hold in Hx. by injection Hx as <-.
  - destruct (current_after s i1 s1 s2 _ Hc Ht1 E2 Hvk Hvt) as [-> Hc2]. done.
Qed.

(** The node an id belongs to. *)
Lemma find_live_by_id (r : R) i n l : nr_inv r -> nr_rows r !! i = Some n -> nd_DeletedAt n = None -> ND_Find r (FindNodeByIDs [i]) [] None = Ok l -> exists l', l = n :: l'.
Proof.
  intros Hi Hn Hd Hl. pose proof (nr_find_law r (FindNodeByIDs [i]) None Hi) as (all & Hsort & Hel & Hp). rewrite Hl in Hp. injection Hp as ->.
  assert (Hiff : forall y, y ∈ l <-> y = n).
  { intros y. rewrite Hel. destruct (nr_rows_id r i n Hi Hn) as [Hni _]. unfold node_matches. simpl. rewrite !andb_true_r, andb_true_iff, !bool_decide_eq_true, list_elem_of_singleton. split.
    - intros (Hy & Hyi & _). rewrite Hyi in Hy. congruence.
    - intros ->. rewrite Hni. done. }
  destruct l as [|y l']; [exfalso; by apply (list.not_elem_of_nil n), Hiff|]. exists l'. f_equal. apply Hiff, list_elem_of_here.
Qed.

(** The node is there and not deleted already, or it is not there at all. *)
Definition deleted_or_there (i : N) (r : R) : Prop := forall n, nr_rows r !! i = Some n -> nd_DeletedAt n = None.

Lemma nodes_Delete_spec i s l s' : nr_inv (cr_inner s) -> current s -> deleted_or_there i (cr_inner s) ->
  ND_Find (cr_inner s) (FindNodeByIDs [i]) [] None = Ok l ->
  nodes_Delete i s = (Ok tt, s') -> nr_inv (cr_inner s') /\ current s'.
Proof.
  intros Hi Hc Hd Hl. unfold nodes_Delete. rewrite Hl. cbv zeta iota. unfold bind at 1. unfold wrap at 1, on_inner, zoom.
  destruct (ND_Delete i (cr_inner s)) as [r1 i1] eqn:Es. destruct (nr_delete_law i _ _ _ Hi Es) as (Hi1 & _ & Hrows).
  destruct r1 as [[]|e|w]; cbn [wrap_err]; [|done..]. unfold bind.
  destruct (invalidateNodeCache (Ok l) _) as [[[]|e|w] s1] eqn:E1; [|done..]. intros E2.
  assert (Hthin : thinned (mkCachedRepo i1 (cr_cache s)) s1).
  { destruct l; [injection E1 as <-; apply thinned_refl|]. by eapply invalidate_credentials_spec. }
  assert (Hviews : exists key token, (forall n, nr_rows (cr_inner s) !! i = Some n -> nd_GdaemonAPIKey n = key /\ api_token_of n = token) /\
    (key <> "" -> gone (ByApiKey key) s1) /\ (token <> "" -> gone (ByToken token) s1)).
  { destruct (nr_rows (cr_inner s) !! i) as [n|] eqn:En; [|by exists ""%string, ""%string].
    destruct (find_live_by_id _ _ _ _ Hi En (Hd n En) Hl) as [l' ->]. exists (nd_GdaemonAPIKey n), (api_token_of n). split; [by intros n' [= <-]|].
    by eapply invalidate_credentials_spec. }
  destruct Hviews as (key & token & Hn & Hk & Ht).
  destruct (views_elsewhere i key token s1 (cr_inner s) i1) as [Hvk Hvt]; [|..|done|done|].
  - intros j Hj. by rewrite Hrows, lookup_delete_ne.
  - intros x [Hx|Hx]; [by apply Hn|]. rewrite Hrows in Hx. by apply lookup_delete_Some in Hx as [? _].
  - by destruct (current_after s i1 s1 s' _ Hc Hthin E2 Hvk Hvt) as [-> Hc2].
Qed.

(** A new token rewrites one row in place. *)
Definition retoken (i : N) (token : string) (t : time) (n : Node) : Node := if decide (nd_ID n = i) then nd_set_token (Some token) (Some t) n else n.
Lemma alter_retoken i token t (r : R) : nr_inv r -> alter (nd_set_token (Some token) (Some t)) i (nr_rows r) = retoken i token t <$> nr_rows r.
Proof.
  intros Hi. apply map_eq. intros j. rewrite lookup_fmap. unfold retoken. destruct (decide (i = j)) as [<-|Hj].
  - rewrite lookup_alter_eq. destruct (nr_rows r !! i) as [n|] eqn:En; [|done]. simpl. by rewrite decide_True by apply (nr_rows_id r i n Hi En).
  - rewrite lookup_alter_ne by done. destruct (nr_rows r !! j) as [n|] eqn:En; [|done]. simpl. rewrite decide_False; [done|].
    destruct (nr_rows_id r j n Hi En) as [-> _]. congruence.
Qed.
Lemma key_view_retoken i token t key (r r' : R) l : nr_inv r -> nr_rows r' = retoken i token t <$> nr_rows r ->
  node_view (ByApiKey key) r l -> node_view (ByApiKey key) r' l.
Proof.
  intros Hi Hr (l' & Hs & Hl). exists (map (retoken i token t) l'). split.
  - rewrite Hr. apply selects_map; [by intros j n Hn; apply (nr_rows_id r j n)|intros n; unfold retoken; by destruct (decide _)..|done].
  - rewrite map_map. rewrite Hl. apply map_ext. intros n. unfold retoken. by destruct (decide _).
Qed.

Lemma nodes_UpdateGDaemonAPIToken_spec i token t s l s' : nr_inv (cr_inner s) -> current s -> deleted_or_there i (cr_inner s) -> token <> "" ->
  ND_Find (cr_inner s) (FindNodeByIDs [i]) [] None = Ok l ->
  nodes_UpdateGDaemonAPIToken i token t s = (Ok tt, s') -> nr_inv (cr_inner s') /\ current s'.
Proof.
  intros Hi Hc Hd Htok Hl. unfold nodes_UpdateGDaemonAPIToken. rewrite Hl. cbv zeta. set (old := match l with n :: _ => api_token_of n | [] => "" end).
  replace (match Ok l with Ok (n :: _) => api_token_of n | _ => "" end) with old by done. unfold bind at 1. unfold wrap at 1, on_inner, zoom.
  destruct (ND_UpdateGDaemonAPIToken i token t (cr_inner s)) as [r1 i1] eqn:Es. destruct (nr_token_law i token t _ _ _ Hi Es) as (Hi1 & _ & Hrows).
  destruct r1 as [[]|e|w]; cbn [wrap_err]; [|done..]. unfold bind. set (s0 := mkCachedRepo i1 (cr_cache s)).
  match goal with |- (let (_, _) := ?x in _) = _ -> _ => destruct x as [[[]|e|w] s1] eqn:E1; [|done..] end.
  match goal with |- (let (_, _) := ?x in _) = _ -> _ => destruct x as [[[]|e|w] s2] eqn:E2; [|done..] end. intros E3.
  apply (invalidate_one node_key _ (ByToken token)) in E2 as [Ht2 Hg2].
  assert (Hone : thinned s0 s1 /\ (old <> "" -> old <> token -> gone (ByToken old) s1)).
  { destruct (String.eqb_spec old "") as [Ho|Ho]; [injection E1 as <-; split; [apply thinned_refl|done]|].
    destruct (String.eqb_spec old token) as [Ho2|Ho2]; cbn [negb andb] in E1; [injection E1 as <-; split; [apply thinned_refl|done]|].
    apply (invalidate_one node_key _ (ByToken old)) in E1 as [? ?]. done. }
  destruct Hone as [Ht1 Hg1]. pose proof (thinned_trans _ _ _ Ht1 Ht2) as Ht. rewrite (alter_retoken i token t _ Hi) in Hrows.
  assert (Hgone : old <> "" -> gone (ByToken old) s2).
  { intros Ho. destruct (decide (old = token)) as [->|Ho2]; [done|]. eapply gone_thinned; [exact Ht2|auto]. }
  destruct (current_after s i1 s2 s' _ Hc Ht E3) as [-> Hc2]; [..|done].
  - intros key l' _ _. by eapply key_view_retoken.
  - intros x l' Hx Hng Hv. simpl in *. eapply (selects_elsewhere i); [| |exact Hv].
    + intros j Hj. rewrite Hrows, lookup_fmap. destruct (nr_rows (cr_inner s) !! j) as [n|] eqn:En; [|done]. simpl. unfold retoken. rewrite decide_False; [done|].
      destruct (nr_rows_id _ j n Hi En) as [-> _]. done.
    + intros n [Hn|Hn]; apply token_matches_false; intros Htn; apply Hng.
      * destruct (find_live_by_id _ _ _ _ Hi Hn (Hd n Hn) Hl) as [l2 Hl2]. assert (Hold : old = x) by (unfold old; by rewrite Hl2). rewrite <- Hold. apply Hgone. congruence.
      * rewrite Hrows, lookup_fmap in Hn. destruct (nr_rows (cr_inner s) !! i) as [n0|] eqn:En; [|done]. injection Hn as <-.
        unfold retoken, api_token_of in Htn. rewrite decide_True in Htn by apply (nr_rows_id _ i n0 Hi En). simpl in Htn. by subst x.
Qed.

(** ** Sequences of operations *)

(** Look-ups, whatever comes of them; writes that succeed, where a saved node
    keeps its API key and token; and whatever the others who share the Redis
    server do with their own entries. *)
Inductive nstep : S -> S -> Prop :=
| ns_look k s res s' : legal k -> look k s = (res, s') -> nstep s s'
| ns_save n s n' s' : keeps_credentials n (cr_inner s) -> nodes_Save n s = (Ok n', s') -> storable (cr_inner s') -> nstep s s'
| ns_delete i l s s' : deleted_or_there i (cr_inner s) -> ND_Find (cr_inner s) (FindNodeByIDs [i]) [] None = Ok l ->
    nodes_Delete i s = (Ok tt, s') -> storable (cr_inner s') -> nstep s s'
| ns_token i token t l s s' : deleted_or_there i (cr_inner s) -> token <> "" -> ND_Find (cr_inner s) (FindNodeByIDs [i]) [] None = Ok l ->
    nodes_UpdateGDaemonAPIToken i token t s = (Ok tt, s') -> storable (cr_inner s') -> nstep s s'
| ns_others s c' :
    (rd_now (cr_cache s) <= rd_now c')%Z ->
    (forall k, legal k -> rd_entries c' !! (redisKeyPrefix +:+ node_key k) = rd_entries (cr_cache s) !! (redisKeyPrefix +:+ node_key k) \/
       rd_entries c' !! (redisKeyPrefix +:+ node_key k) = None) ->
    nstep s (mkCachedRepo (cr_inner s) c').

Lemma nstep_current s s' : nstep s s' -> carried (cr_inner s) /\ current s -> carried (cr_inner s') /\ current s'.
Proof.
  intros [k x res y Hk E|n x n' y Hn E Hst|i l x y Hd Hl E Hst|i token t l x y Hd Ht Hl E Hst|x c' Ht Hk] [[Hi Hw] Hc].
  - destruct (look_current k x res y (conj Hi Hw) Hc Hk E) as (-> & Hc' & _). done.
  - by destruct (nodes_Save_spec n x n' y Hi Hc Hn E).
  - by destruct (nodes_Delete_spec i x l y Hi Hc Hd Hl E).
  - by destruct (nodes_UpdateGDaemonAPIToken_spec i token t x l y Hi Hc Hd Ht Hl E).
  - split; [done|]. by apply coherent_others.
Qed.

(** C34: What the cache answers is what the table answers.  After any sequence of
    look-ups, successful writes that keep the credentials of existing nodes,
    token rotations and other use of the same Redis server, each of them carried
    out before the next begins, a look-up by token, API key or other filter
    returns what the rows of that moment answer, so that a token that was
    replaced opens nothing; only the token within a row found by API key may be
    an earlier one.  The keys of different look-ups are taken to be different
    (the filters are hashed), and a write that fails half-way may leave entries
    behind.  Deleting a node through the panel saves it with a time of deletion;
    the look-up by token finds such rows too, cached or not. *)
Theorem cached_nodes_are_current s0 s k l s' :
  carried (cr_inner s0) -> (forall k, legal k -> gone k s0) -> rtc nstep s0 s -> legal k -> look k s = (Ok l, s') -> node_view k (cr_inner s) l.
Proof.
  intros Hw0 Hg Hrun Hk E. assert (Hinv : carried (cr_inner s) /\ current s).
  { assert (Hinv0 : carried (cr_inner s0) /\ current s0) by (split; [done|by apply coherent_empty]).
    clear -Hinv0 Hrun hash_inj JSONLaws0. induction Hrun; eauto using nstep_current. }
  destruct (look_current k s _ s' (proj1 Hinv) (proj2 Hinv) Hk E) as (_ & _ & Hl). by apply Hl.
Qed.
End current.

(** ** A replaced API key *)

Section stale.
Context {R C : Type} `{NodeRepositoryLaws R} `{RedisReliable C} `{JSONLibrary} `{!JSONType (list Node)} `{KeyLibrary} (ttl : Z).
Abbreviation S := (CachedRepo R C).
Implicit Types s : S.
Hypothesis hash_inj : forall a b, hashParams a = hashParams b -> a = b.

(** Saving a node leaves the entry of a key it does not have. *)
Lemma node_kept_by_save key n n' s s' : nodes_Save n s = (Ok n', s') -> nd_GdaemonAPIKey n <> key -> key <> "" ->
  rd_entries (cr_cache s') !! (redisKeyPrefix +:+ node_key (ByApiKey key)) = rd_entries (cr_cache s) !! (redisKeyPrefix +:+ node_key (ByApiKey key)).
Proof.
  intros E Hne Hk. unfold nodes_Save, bind at 1, wrap at 1, on_inner, zoom in E.
  destruct (ND_Save n (cr_inner s)) as [[n1|e|w] i1]; cbn [wrap_err] in E; [|done..].
  unfold bind in E. destruct (invalidate_credentials _ _ _ _) as [[[]|e|w] s1] eqn:E1; [|done..].
  destruct (wrap _ (InvalidatePattern _) s1) as [[[]|e|w] s2] eqn:E2; [|done..]. injection E as <- <-.
  apply wrap_ok in E2. destruct (InvalidatePattern_spec "node:find" _ _ eq_refl E2) as (_ & _ & _ & Hkeep & _). rewrite Hkeep by done.
  assert (Hone : forall msg k (name : string) s1 s2, legal k -> ByApiKey key <> k ->
    (if negb (String.eqb name "") then wrap msg (Invalidate [node_key k]) else ret tt) s1 = (Ok tt, s2) ->
    rd_entries (cr_cache s2) !! (redisKeyPrefix +:+ node_key (ByApiKey key)) = rd_entries (cr_cache (s1 : S)) !! (redisKeyPrefix +:+ node_key (ByApiKey key))).
  { intros msg k name t1 t2 Hl Hd. destruct (negb _); [|by intros [= <-]]. intros (_ & Ee & _)%wrap_ok%Invalidate_one. rewrite Ee, lookup_delete_ne; [done|].
    intros Heq%redis_key_inj%(node_key_inj hash_inj); [by apply Hd|done..]. }
  unfold invalidate_credentials, bind in E1. match type of E1 with (let (_, _) := ?x in _) = _ => destruct x as [[[]|e|w] t1] eqn:F1; [|done..] end.
  destruct (decide (api_token_of n = "")) as [Ht|Ht]; [rewrite Ht in E1; injection E1 as <-|apply (Hone _ (ByToken (api_token_of n))) in E1 as ->; [|done..]].
  all: destruct (decide (nd_GdaemonAPIKey n = "")) as [Hn|Hn]; [rewrite Hn in F1; by injection F1 as <-|].
  all: by apply (Hone _ (ByApiKey (nd_GdaemonAPIKey n))) in F1 as ->; [|done|congruence].
Qed.

(** The entry of an API key a node no longer has is not taken out: once a
    daemon has used the key, giving the node another one leaves the cached row,
    and until it expires the old key still finds the node, which is all that
    the daemon API asks before it gives out a token. *)
Lemma replaced_api_key_still_answers key l txt T j d n n' s s' res s'' :
  key <> "" -> rd_entries (cr_cache s) !! (redisKeyPrefix +:+ node_key (ByApiKey key)) = Some (txt, Some T) ->
  unmarshal_any txt = Ok j -> j_nil j = false -> marshal_any j = Ok d -> unmarshal d = Ok l ->
  nodes_Save n s = (Ok n', s') -> nd_GdaemonAPIKey n <> key ->
  look ttl (ByApiKey key) s' = (res, s'') -> (rd_now (cr_cache s'') <= T)%Z -> res = Ok l.
Proof.
  intros Hk Hin Hj Hnil Hd Hl Hsave Hne Hlook HT. rewrite <- (node_kept_by_save key n n' s s' Hsave Hne Hk) in Hin.
  by eapply (read_through_hit ttl) in Hlook.
Qed.
End stale.

(** ** A node whose credentials change *)

Module CachedNodeSample.
#[local] Existing Instances ticking MemRedis.client MemRedis.laws MemRedis.reliable plain_digests.

(** The nodes of this example, and lists of them as digits. *)
Definition raw : Type := N * string * option string * (option Z * option Z).
Definition raw_node (n : Node) : raw := (nd_ID n, nd_GdaemonAPIKey n, nd_GdaemonAPIToken n, (nd_CreatedAt n, nd_UpdatedAt n)).
Definition cooked_node (x : raw) : Node :=
  let '(i, key, token, (cr, up)) := x in
  mkNode i true "node" NodeOSLinux "Unknown" None [] None None "/srv" None "" 31717 key token None None "" 1
    NodePreferInstallMethodAuto None None None None None None None None None None None None None None cr up None.
#[local] Instance texts : JSONLibrary := {| J := string; j_nil := String.eqb "null"; unmarshal_any := Ok; marshal_any := Ok |}.
#[local] Instance nodes_json : JSONType (list Node) := {|
  marshal l := if decide (map cooked_node (map raw_node l) = l) then Ok (digits (encode (map raw_node l))) else Err (ENew "not a node of this example");
  unmarshal s := match decode (number s) with Some l => Ok (map cooked_node l) | None => Err (ENew "invalid JSON") end;
  portable _ := True;
|}.
#[local] Instance nodes_json_laws : JSONLaws (list Node).
Proof.
  split. intros l s _. simpl. destruct (decide _) as [E|]; [|done]. intros [= <-]. eexists _, _. split_and!; [reflexivity|reflexivity|].
  simpl. by rewrite number_digits, decode_encode, E.
Qed.

Definition day : Z := 86400000000000.
Definition node : Node := cooked_node (1%N, "sha256:first"%string, Some "sha256:old"%string, (Some 1%Z, Some 1%Z)).
Definition rekeyed : Node := cooked_node (1%N, "sha256:second"%string, Some "sha256:old"%string, (Some 1%Z, Some 1%Z)).
Definition Cached : Type := CachedRepo memNodeRepo MemRedis.server.
Definition start : Cached := mkCachedRepo (mkNodeRepo {[1%N := node]} 1 {[1%N := {[1%N]}]} 0) (MemRedis.mkServer ∅ 0).
Definition by_token (token : string) : M Cached (list Node) := look day (ByToken token).
Definition by_key (key : string) : M Cached (list Node) := look day (ByApiKey key).
Definition found := snd (by_token "sha256:old" start).
Definition rotated := snd (nodes_UpdateGDaemonAPIToken 1 "sha256:new" 5 found).

Lemma start_inv : nr_inv (cr_inner start).
Proof.
  split.
  - intros i n Hn. change (({[1%N := node]} : gmap N Node) !! i = Some n) in Hn. apply lookup_singleton_Some in Hn as [<- <-]. simpl. split; [done|lia].
  - exact (idx_ok_insert key_id ∅ ∅ 1%N node eq_refl (idx_ok_empty key_id)).
Qed.
Lemma all_storable (r : memNodeRepo) : storable r.
Proof. exact (fun _ _ _ => I). Qed.
Lemma start_empty k : legal k -> gone node_key k start.
Proof. reflexivity. Qed.

(** The old token was cached; after the rotation it finds nothing. *)
Lemma cached_nodes_are_current_witness :
  exists s', by_token "sha256:old" found = (Ok [node], s') /\ exists s'', by_token "sha256:old" rotated = (Ok [], s'') /\ node_view (ByToken "sha256:old") (cr_inner rotated) [].
Proof.
  eexists. split; [vm_compute; reflexivity|]. exists (snd (by_token "sha256:old" rotated)).
  assert (E : by_token "sha256:old" rotated = (Ok [], snd (by_token "sha256:old" rotated))) by (vm_compute; reflexivity).
  split; [exact E|]. eapply (cached_nodes_are_current day plain_digests_inj start rotated (ByToken "sha256:old")); [exact (conj start_inv (all_storable _))|exact start_empty| |discriminate|exact E].
  eapply rtc_l; [eapply (ns_look _ (ByToken "sha256:old") start); [discriminate|apply surjective_pairing]|].
  eapply rtc_l; [eapply (ns_token _ 1 "sha256:new" 5 [node])|apply rtc_refl]; [|discriminate|vm_compute; reflexivity|vm_compute; reflexivity|apply all_storable].
  intros n Hn. assert (E2 : nr_rows (cr_inner found) !! 1%N = Some node) by (vm_compute; reflexivity).
  change (nr_rows (cr_inner found) !! 1%N = Some n) in Hn. rewrite E2 in Hn. by injection Hn as <-.
Defined.

(** The key was replaced, and still finds the node. *)
Definition used := snd (by_key "sha256:first" start).
Definition saved := snd (nodes_Save rekeyed used).
End CachedNodeSample.
