(* ===== verification/CertificatesRepo.v ===== *)
(** The in-memory client certificate repository
    ([internal/repositories/inmemory/client_certificates.go]), which meets the
    contract enrollment relies on. *)

From S2P Require Import Prelude.
From S2P Require Import GoNum.
From S2P Require Import Domain.
From S2P Require Import Repositories.
From S2P Require Import TaskRepo.
From stdpp Require Import base tactics strings list gmap numbers sorting.
From Stdlib Require Import NArith ZArith.

Record memCertRepo : Type := mkCertRepo {
  certificates : gmap N ClientCertificate;
  cc_nextID : N;
  cc_idIndex : gmap N (gset N);
}.

Definition NewClientCertificateRepository : memCertRepo := mkCertRepo ∅ 0 ∅.

Definition set_certificates (m : gmap N ClientCertificate) (r : memCertRepo) : memCertRepo :=
  mkCertRepo m (cc_nextID r) (cc_idIndex r).
Definition addToIndexes (c : ClientCertificate) (r : memCertRepo) : memCertRepo :=
  mkCertRepo (certificates r) (cc_nextID r) (idx_add (cc_ID c) (cc_ID c) (cc_idIndex r)).
Definition removeFromIndexes (c : ClientCertificate) (r : memCertRepo) : memCertRepo :=
  mkCertRepo (certificates r) (cc_nextID r) (idx_remove (cc_ID c) (cc_ID c) (cc_idIndex r)).

Definition getFilteredCertificateIDs (r : memCertRepo) (filter : option (list N)) : gset N :=
  match filter with
  | Some (i :: l) => base.filter (fun id => is_Some (certificates r !! id)) (list_to_set (i :: l))
  | _ => dom (certificates r)
  end.

Definition compareCertificates (a b : ClientCertificate) (field : string) : comparison :=
  if String.eqb field "id" then N.compare (cc_ID a) (cc_ID b)
  else if String.eqb field "expires" then Z.compare (cc_Expires a) (cc_Expires b)
  else Eq.

Definition sortCertificates (l : list ClientCertificate) (order : list Sorting) : list ClientCertificate :=
  sort_rows compareCertificates cc_ID l order.

Definition FindAll (r : memCertRepo) (order : list Sorting) (p : option Pagination) : result (list ClientCertificate) :=
  applyPagination (sortCertificates (map snd (map_to_list (certificates r))) order) p.

Definition Find (r : memCertRepo) (filter : option (list N)) (order : list Sorting) (p : option Pagination)
  : result (list ClientCertificate) :=
  applyPagination
    (sortCertificates (omap (fun id => certificates r !! id) (elements (getFilteredCertificateIDs r (Some (default [] filter))))) order) p.

Definition Save (c : ClientCertificate) : M memCertRepo ClientCertificate := fun r =>
  let '(c, r) :=
    if negb (cc_ID c =? 0)%N then
      (c, match certificates r !! cc_ID c with Some old => removeFromIndexes old r | None => r end)
    else
      let id := wrap32 (cc_nextID r + 1) in
      (cc_set_id id c, mkCertRepo (certificates r) id (cc_idIndex r)) in
  (Ok c, addToIndexes c (set_certificates (<[cc_ID c := c]> (certificates r)) r)).

Definition Delete (id : N) : M memCertRepo unit := modify (fun r =>
  let r := match certificates r !! id with Some c => removeFromIndexes c r | None => r end in
  set_certificates (delete id (certificates r)) r).

#[export] Instance memCertRepo_ops : ClientCertificateRepository memCertRepo := {
  CC_Find r ids := Find r (Some ids); CC_Save := Save;
}.

Definition cert_key (c : ClientCertificate) : option N := Some (cc_ID c).

Record certs_inv (r : memCertRepo) : Prop := {
  cinv_id : forall i c, certificates r !! i = Some c -> cc_ID c = i /\ (0 < i <= cc_nextID r)%N;
  cinv_index : idx_ok cert_key (cc_idIndex r) (certificates r);
}.

Lemma certs_inv_new : certs_inv NewClientCertificateRepository.
Proof. split; [intros i c; simpl; by rewrite lookup_empty|apply idx_ok_empty]. Qed.

Definition certs_room (k : nat) (r : memCertRepo) : Prop := (cc_nextID r + N.of_nat k < two32)%N.

Lemma filtered_cert r ids i c :
  certificates r !! i = Some c -> i ∈ getFilteredCertificateIDs r (Some ids) <-> in_or_any i ids = true.
Proof.
  intros Hc. destruct ids as [|j l]; cbn [getFilteredCertificateIDs in_or_any]; [rewrite elem_of_dom, Hc; naive_solver|].
  rewrite elem_of_filter, elem_of_list_to_set, bool_decide_eq_true, Hc. naive_solver.
Qed.

Lemma certs_Find_selects r ids p :
  certs_inv r -> selects cc_ID (certificates r) (fun c => in_or_any (cc_ID c) ids) p (Find r (Some ids) [] p).
Proof.
  intros Hinv. exists (sortCertificates (omap (fun id => certificates r !! id) (elements (getFilteredCertificateIDs r (Some ids)))) []).
  split; [apply (sort_rows_default compareCertificates cc_ID)|]. split.
  - intros c. unfold sortCertificates. rewrite (sort_rows_perm compareCertificates cc_ID), list_elem_of_omap.
    setoid_rewrite elem_of_elements. split.
    + intros (i & Hi & Hc). destruct (cinv_id r Hinv _ _ Hc) as [<- _]. split; [done|]. by apply (filtered_cert r ids _ c).
    + intros [Hc Hm]. exists (cc_ID c). split; [|done]. by apply (filtered_cert r ids _ c).
  - unfold Find. change (default [] (Some ids)) with ids. by destruct (applyPagination _ p) as [l|e|w].
Qed.

Lemma certs_inv_remove r id old :
  certificates r !! id = Some old -> certs_inv r ->
  certs_inv (set_certificates (delete id (certificates r)) (removeFromIndexes old r)).
Proof.
  intros Hold [Hids Hidx]. destruct (Hids _ _ Hold) as [Hid _]. split; simpl; rewrite ?Hid.
  - intros i n. rewrite lookup_delete. case_decide; [done|apply Hids].
  - rewrite <- Hid at 1. by apply (idx_ok_delete cert_key).
Qed.

Lemma certs_inv_insert r row k :
  certificates r !! cc_ID row = None -> (0 < cc_ID row <= k)%N -> (cc_nextID r <= k)%N -> certs_inv r ->
  certs_inv (addToIndexes row (mkCertRepo (<[cc_ID row := row]> (certificates r)) k (cc_idIndex r))).
Proof.
  intros Hnone Hid Hk [Hids Hidx]. split; simpl.
  - intros i n. rewrite lookup_insert. case_decide; subst; [intros [= <-]; by split|].
    intros Hn. destruct (Hids _ _ Hn). split; [done|lia].
  - by apply (idx_ok_insert cert_key).
Qed.

#[export, program] Instance memCertRepo_laws : ClientCertificateRepositoryLaws memCertRepo := {
  cr_inv := certs_inv; cr_rows := certificates; cr_room := certs_room;
}.
Next Obligation. intros k r. simpl. unfold certs_room. lia. Qed.
Next Obligation. intros r i n Hinv Hn. destruct (cinv_id r Hinv _ _ Hn). split; [done|lia]. Qed.
Next Obligation. intros r f p Hinv. by apply certs_Find_selects. Qed.
Next Obligation.
  intros c r res r' Hinv Hsv E. simpl in E. unfold Save, certs_room in *.
  destruct (decide (cc_ID c = 0%N)) as [Hid|Hid].
  - rewrite Hid in E. cbn [N.eqb negb] in E.
    assert (Hfresh : certificates r !! (cc_nextID r + 1)%N = None).
    { destruct (certificates r !! (cc_nextID r + 1)%N) as [x|] eqn:Ex; [|done]. destruct (cinv_id r Hinv _ _ Ex). lia. }
    assert (Hw : wrap32 (cc_nextID r + 1) = (cc_nextID r + 1)%N) by (apply N.mod_small; lia). rewrite Hw in E.
    injection E as <- <-. split_and!; [|simpl; intros; lia|done|done|done].
    refine (certs_inv_insert r (cc_set_id (cc_nextID r + 1) c) (cc_nextID r + 1) _ _ _ Hinv); simpl; [done|lia|lia].
  - apply N.eqb_neq in Hid as Hne. rewrite Hne in E. cbn [negb] in E. destruct Hsv as [old Hold]. rewrite Hold in E.
    destruct (cinv_id r Hinv _ _ Hold) as [Hio Hlt]. injection E as <- <-. split_and!; [|done|by destruct c|done|done].
    pose proof (certs_inv_insert _ c (cc_nextID r)
      (lookup_delete_eq (certificates r) (cc_ID c) : certificates (set_certificates (delete (cc_ID c) (certificates r)) (removeFromIndexes old r)) !! _ = None)
      Hlt (N.le_refl _) (certs_inv_remove _ _ _ Hold Hinv)) as Hins.
    simpl in Hins. by rewrite insert_delete_eq in Hins.
Qed.
