(* ===== verification/Enrollment.v ===== *)
(** Enrollment of daemons ([internal/enrollment/setup_key.go],
    [internal/enrollment/service.go], the [Enroll] call of
    [internal/grpc/gateway/service.go] and [pkg/strings/random.go]): the setup
    key in the cache or from the environment, and the creation of a node for
    the daemon that presents it.  The cache, the node table and the client
    certificate table are used through their contracts; certificates, SHA-256
    and the source of randomness are parameters. *)

From S2P Require Import Prelude.
From S2P Require Import GoNum.
From S2P Require Import Domain.
From S2P Require Import GoRuntime.
From S2P Require Import Cache.
From S2P Require Import Repositories.
From S2P Require Import TaskRepo.
From S2P Require Import ServersRepo.
From S2P Require Import NodesRepo.
From S2P Require Import CertificatesRepo.
From stdpp Require Import base tactics strings list gmap numbers.
From Stdlib Require Import NArith ZArith Ascii.

(** ** Random strings *)

Definition characterSet : string := "abcdedfghijklmnopqrstABCDEFGHIJKLMNOPQRSTUVWXYZ0123456789".

(** Five lower-case letters cannot occur, and one is in the set twice. *)
Lemma characterSet_misses_letters :
  forallb (fun c => negb (has_byte c characterSet)) ["u"; "v"; "w"; "x"; "y"; "z"]%char = true /\
  length (List.filter (Ascii.eqb "d"%char) (String.list_ascii_of_string characterSet)) = 2.
Proof. split; reflexivity. Qed.

(** [crypto/rand] by the number of the draw: [rand.Int] gives a number below
    its bound or fails; [xid] names. *)
Class Randomness : Type := {
  rand_Int : N -> N -> result N;
  rand_xid : N -> string;
}.
Class FairRandomness `{Randomness} : Prop := {
  rand_Int_below : forall n bound k, rand_Int n bound = Ok k -> (k < bound)%N;
  rand_Int_nopanic : forall n bound w, rand_Int n bound <> Panic w;
}.

Section random.
Context `{Randomness}.

Fixpoint random_loop (length : nat) (password : string) (n : N) : result string * N :=
  match length with
  | 0 => (Ok password, n)
  | S length =>
      match rand_Int n (N.of_nat (String.length characterSet)) with
      | Ok k =>
          match String.get (N.to_nat k) characterSet with
          | Some c => random_loop length (password +:+ String c EmptyString) (n + 1)
          | None => (Panic "index out of range", n + 1)%N
          end
      | Err e => (Err (EWrap "failed to generate random number" e), n + 1)%N
      | Panic w => (Panic w, n + 1)%N
      end
  end.
Definition CryptoRandomString (length : nat) : M N string := random_loop length "".
End random.

(** ** The setup key *)

Definition SetupKeyCacheKey : string := "daemon:setup_key".
Definition setupKeyLength : nat := 32.
Definition setupKeyTTL : Z := 60 * minute.
Definition ErrSetupKeyNotConfigured : error := ENew "daemon setup key is not configured".
Definition ErrInvalidSetupKey : error := ENew "invalid setup key".

Section setup_key.
Context {C : Type} `{Cache C} (envValue : string).

Definition Get : M C string :=
  let! val := attempt (cache_get SetupKeyCacheKey) in
  match val with
  | Ok (CString key) => if String.eqb key "" then fail ErrSetupKeyNotConfigured else ret key
  | Panic w => lift (Panic w)
  | Err e =>
      if negb (errors_is e ErrNotFound) then fail (EWrap "failed to get setup key from cache" e)
      else if negb (String.eqb envValue "") then ret envValue else fail ErrSetupKeyNotConfigured
  | Ok _ => if negb (String.eqb envValue "") then ret envValue else fail ErrSetupKeyNotConfigured
  end.

Definition Validate (key : string) : M C unit :=
  let! storedKey := Get in
  if String.eqb key storedKey then ret tt else fail ErrInvalidSetupKey.

(** [expiration] is that of the option, 0 without one. *)
Definition SetKey (key : string) (expiration : Z) : M C unit := cache_set SetupKeyCacheKey (CString key) expiration.

Definition Invalidate : M C unit :=
  if negb (String.eqb envValue "") then cache_set SetupKeyCacheKey (CString "") 0 else cache_delete SetupKeyCacheKey.
Definition DeleteKey : M C unit := cache_delete SetupKeyCacheKey.
End setup_key.

(** [Generate], with the number of random draws made so far. *)
Definition Generate {C} `{Cache C} `{Randomness} : M (C * N) string :=
  let! key := wrap "failed to generate setup key" (zoom snd (fun n s => (fst s, n)) (CryptoRandomString setupKeyLength)) in
  do! wrap "failed to store setup key" (zoom fst (fun c s => (c, snd s)) (SetKey key setupKeyTTL)) ;;
  ret key.

(** ** Enrollment *)

Definition apiKeyLength : nat := 64.
Definition defaultPort : Z := 31717.
Definition defaultWorkPath : string := "/srv/gameap".
Definition defaultSteamCMDPath : string := "/srv/gameap/steamcmd".
(** [certificates.RootCACert], [ClientCertificatesPath], [CertYears]. *)
Definition RootCACert : string := "certs/root.crt".
Definition ClientCertificatesPath : string := "certs/client".
Definition CertYears : Z := 10.

Record EnrollResult : Type := mkEnrollResult {
  er_NodeID : N; er_APIKey : string; er_RootCertificate : string; er_ServerCertificate : string; er_ServerPrivateKey : string;
}.
Record EnrollInput : Type := mkEnrollInput {
  ei_Host : string; ei_Port : Z; ei_OS : string; ei_Version : string; ei_Capabilities : list string;
}.

(** The certificate service, on the state [F] of its file store. *)
Class CertificateService (F : Type) : Type := {
  ct_GenerateInMemory : M F (string * string);
  ct_Root : M F string;
  ct_Generate : string -> string -> M F (string * string);
  ct_Fingerprint : string -> result string;
}.

(** The service with everything it reaches: the cache, the tables, the
    certificates, and how often randomness and the clock were used. *)
Record Enr (C R Q F : Type) : Type := mkEnr {
  en_cache : C; en_nodes : R; en_certs : Q; en_files : F; en_draws : N; en_ticks : N;
}.
Arguments mkEnr {C R Q F}.
Arguments en_cache {C R Q F}. Arguments en_nodes {C R Q F}. Arguments en_certs {C R Q F}.
Arguments en_files {C R Q F}. Arguments en_draws {C R Q F}. Arguments en_ticks {C R Q F}.

Section service.
Context {C R Q F : Type} `{Cache C} `{NodeRepository R} `{ClientCertificateRepository Q} `{CertificateService F}.
Context `{Randomness} `{WallClock} `{Unicode} (SHA256 : string -> string) (envValue : string).

Abbreviation S := (Enr C R Q F).

Definition on_cache {B} (x : M C B) : M S B :=
  zoom en_cache (fun c s => mkEnr c (en_nodes s) (en_certs s) (en_files s) (en_draws s) (en_ticks s)) x.
Definition on_nodes {B} (x : M R B) : M S B :=
  zoom en_nodes (fun r s => mkEnr (en_cache s) r (en_certs s) (en_files s) (en_draws s) (en_ticks s)) x.
Definition on_certs {B} (x : M Q B) : M S B :=
  zoom en_certs (fun q s => mkEnr (en_cache s) (en_nodes s) q (en_files s) (en_draws s) (en_ticks s)) x.
Definition on_files {B} (x : M F B) : M S B :=
  zoom en_files (fun f s => mkEnr (en_cache s) (en_nodes s) (en_certs s) f (en_draws s) (en_ticks s)) x.
Definition on_draws {B} (x : M N B) : M S B :=
  zoom en_draws (fun n s => mkEnr (en_cache s) (en_nodes s) (en_certs s) (en_files s) n (en_ticks s)) x.

Definition Now : M S time := fun s =>
  (Ok (now_at (en_ticks s)), mkEnr (en_cache s) (en_nodes s) (en_certs s) (en_files s) (en_draws s) (en_ticks s + 1)).
Definition NewXid : M S string := on_draws (fun n => (Ok (rand_xid n), n + 1)%N).

Definition getOrCreateClientCertificateID : M S N :=
  let! certs := wrap "failed to find client certificates" (on_certs (fun q => (CC_Find q [] [] only_first, q))) in
  match certs with
  | c :: _ => ret (cc_ID c)
  | [] =>
      let! certName := NewXid in
      let certPath := ClientCertificatesPath +:+ "/" +:+ certName +:+ ".crt" in
      let keyPath := ClientCertificatesPath +:+ "/" +:+ certName +:+ ".key" in
      let! generated := wrap "failed to generate client certificate" (on_files (ct_Generate certPath keyPath)) in
      let! fingerprint := wrap "failed to fingerprint client certificate" (lift (ct_Fingerprint (fst generated))) in
      let! now := Now in
      let! saved := wrap "failed to save client certificate"
        (on_certs (CC_Save (mkClientCertificate 0 fingerprint (now + CertYears * 365 * 24 * 60 * minute) certPath keyPath))) in
      ret (cc_ID saved)
  end.

(** The node of a daemon. *)
Definition new_node (input : EnrollInput) (apiKey : string) (clientCertID : N) (now : time) : Node :=
  mkNode 0 true (ei_Host input) (ParseNodeOS (ei_OS input)) "Unknown" (Some "Unknown"%string) [ei_Host input] None None
    defaultWorkPath (Some defaultSteamCMDPath) (ei_Host input) (if (ei_Port input =? 0)%Z then defaultPort else ei_Port input)
    (SHA256 apiKey) None None None RootCACert clientCertID NodePreferInstallMethodAuto
    None None None None None None None None None None None None None None (Some now) (Some now) None.

Definition Enroll (setupKey : string) (input : EnrollInput) : M S EnrollResult :=
  do! on_cache (Validate envValue setupKey) ;;
  let! apiKey := wrap "failed to generate API key" (on_draws (CryptoRandomString apiKeyLength)) in
  let! server := wrap "failed to generate server certificate" (on_files ct_GenerateInMemory) in
  let! rootCert := wrap "failed to get root certificate" (on_files ct_Root) in
  let! clientCertID := wrap "failed to get client certificate ID" getOrCreateClientCertificateID in
  let! now := Now in
  let! node := wrap "failed to save node" (on_nodes (ND_Save (new_node input apiKey clientCertID now))) in
  let! _ := attempt (on_cache (Invalidate envValue)) in
  ret (mkEnrollResult (nd_ID node) apiKey rootCert (fst server) (snd server)).

(** The gRPC call; [peer] is the caller's address, [enabled] whether there is an
    enrollment service. *)
Definition GatewayEnroll (enabled : bool) (peer : option string) (setupKey : string) (req : EnrollInput) : M S EnrollResult :=
  if negb enabled then fail (EStatus "Unavailable" "enrollment is not enabled")
  else
    let host := if String.eqb (ei_Host req) "" then default ""%string peer else ei_Host req in
    let! r := attempt (Enroll setupKey (mkEnrollInput host (ei_Port req) (ei_OS req) (ei_Version req) (ei_Capabilities req))) in
    match r with
    | Err e =>
        if errors_is e ErrInvalidSetupKey || errors_is e ErrSetupKeyNotConfigured
        then fail (EStatus "Unauthenticated" (Error e))
        else fail (EStatus "Internal" "enrollment failed")
    | Ok res => ret res
    | Panic w => lift (Panic w)
    end.
End service.

(** ** Random strings are drawn from the character set *)

Fixpoint chars_in (s set : string) : bool :=
  match s with EmptyString => true | String c s => has_byte c set && chars_in s set end.

Section random_specs.
Context `{FairRandomness}.

Lemma get_has_byte i s c : String.get i s = Some c -> has_byte c s = true.
Proof.
  revert i. induction s as [|d s IH]; intros i; [by destruct i|]. unfold has_byte. simpl.
  destruct (Ascii.eqb_spec d c) as [|Hne]; [done|]. destruct i as [|i]; [by intros [= ->]|].
  intros Hi%IH. unfold has_byte in Hi. by destruct (cut_byte c s) as [[]|].
Qed.

Lemma get_below i s : (i < String.length s)%nat -> exists c, String.get i s = Some c.
Proof. revert i. induction s as [|d s IH]; intros [|i] Hi; simpl in *; [lia..|eauto|]. apply IH. lia. Qed.

Lemma chars_in_app a b set : chars_in (a +:+ b) set = chars_in a set && chars_in b set.
Proof. induction a as [|c a IH]; simpl; [done|]. by rewrite IH, andb_assoc. Qed.

Lemma random_loop_spec len : forall password n r n', random_loop len password n = (r, n') ->
  chars_in password characterSet = true ->
  (n <= n')%N /\
  match r with
  | Ok s => String.length s = String.length password + len /\ chars_in s characterSet = true
  | Err _ => True
  | Panic _ => False
  end.
Proof.
  induction len as [|len IH]; intros password n r n' E Hp; cbn [random_loop] in E.
  - injection E as <- <-. split; [lia|]. split; [lia|done].
  - destruct (rand_Int n _) as [k|e|w] eqn:Ek; [|injection E as <- <-; split; [lia|done]|by apply rand_Int_nopanic in Ek].
    apply rand_Int_below in Ek. destruct (get_below (N.to_nat k) characterSet) as [c Hc]; [lia|]. rewrite Hc in E.
    apply IH in E as [Hn Hr]; [|rewrite chars_in_app, Hp; simpl; by rewrite (get_has_byte _ _ _ Hc)].
    split; [lia|]. destruct r as [s|e|w]; [|done|done]. destruct Hr as [Hl Hs]. split; [|done].
    rewrite Hl, length_string_app. simpl. lia.
Qed.

Lemma CryptoRandomString_spec len n r n' : CryptoRandomString len n = (r, n') ->
  (n <= n')%N /\
  match r with
  | Ok s => String.length s = len /\ chars_in s characterSet = true
  | Err _ => True
  | Panic _ => False
  end.
Proof. intros E. by apply (random_loop_spec len "" n r n' E). Qed.
End random_specs.

(** ** The key in force *)

Section key_specs.
Context {C : Type} `{CacheLaws C} (envValue : string).

(** What a cached value makes the setup key. *)
Definition setup_key_of (v : option cached) : option string :=
  match v with
  | Some (CString key) => if String.eqb key "" then None else Some key
  | _ => if String.eqb envValue "" then None else Some envValue
  end.

(** The setup key at [t]. *)
Definition key_at (t : time) (c : C) : option string := setup_key_of (lookup_at t (ca_entries c) SetupKeyCacheKey).

Definition got (c : C) (r : result string) (c' : C) : Prop :=
  ca_entries c' = ca_entries c /\
  exists t, (ca_now c <= t <= ca_now c')%Z /\
    match r with
    | Ok key => key_at t c = Some key
    | Err e => e = ErrSetupKeyNotConfigured -> key_at t c = None
    | Panic _ => False
    end.

Lemma Get_spec c : wp (Get envValue) (got c) c.
Proof.
  unfold Get. wp_step. wp_step. apply wp_intro. intros r c' E.
  pose proof (ca_get_law _ _ _ _ E) as (He & t & Ht & Hr).
  assert (Hno : wp (if negb (String.eqb envValue "") then ret envValue else fail ErrSetupKeyNotConfigured)
    (fun r s => key_at t c = (if String.eqb envValue "" then None else Some envValue) -> got c r s) c').
  { destruct (String.eqb envValue ""); cbn [negb]; wp_step; intros Hk; (split; [done|]); exists t; by rewrite Hk. }
  assert (Hsome : forall s, wp (if String.eqb s "" then fail ErrSetupKeyNotConfigured else ret s)
    (fun r s' => key_at t c = (if String.eqb s "" then None else Some s) -> got c r s') c').
  { intros s. destruct (String.eqb s ""); wp_step; intros Hk; (split; [done|]); exists t; by rewrite Hk. }
  unfold key_at, setup_key_of in *.
  destruct r as [v|e|w]; [|destruct (errors_is e ErrNotFound) eqn:Ee; cbn [negb]; [specialize (Hr eq_refl)|]|done].
  - rewrite Hr in *. destruct v as [z|z|z|z|s|];
      (eapply wp_mono; [first [apply Hsome|exact Hno]|]); intros r s' Hg; by apply Hg.
  - rewrite Hr in *. eapply wp_mono; [exact Hno|]. intros r s' Hg. by apply Hg.
  - wp_step. split; [done|]. exists t. split; [done|]. by intros [=].
Qed.

Lemma Validate_spec key c :
  wp (Validate envValue key) (fun r c' => ca_entries c' = ca_entries c /\
    exists t, (ca_now c <= t <= ca_now c')%Z /\
      match r with
      | Ok _ => key_at t c = Some key
      | Err _ => True
      | Panic _ => False
      end) c.
Proof.
  unfold Validate. wp_step. eapply wp_mono; [apply Get_spec|]. intros [k|e|w] c' (He & t & Ht & Hr); [|eauto|done].
  destruct (String.eqb_spec key k) as [->|]; wp_step; eauto.
Qed.

(** The key is used up: there is none in the cache, and none to fall back on. *)
Definition burned (c : C) : Prop := forall t, key_at t c = None.

Lemma Invalidate_spec c :
  wp (Invalidate envValue) (fun r c' => (ca_now c <= ca_now c')%Z /\
    match r with
    | Ok _ => burned c'
    | Err _ => ca_entries c' = ca_entries c
    | Panic _ => False
    end) c.
Proof.
  unfold Invalidate. destruct (String.eqb_spec envValue "") as [He|He]; cbn [negb]; apply wp_intro; intros r c' E.
  - pose proof (ca_delete_law _ _ _ _ E) as [Hn Hr]. split; [done|]. destruct r as [[]|e|w]; [|done|done].
    intros t. unfold key_at. rewrite Hr, lookup_at_delete. case_decide; [|done]. simpl. by rewrite He.
  - pose proof (ca_set_law _ _ _ _ _ _ E) as [Hn Hr]. split; [done|]. destruct r as [[]|e|w]; [|done|done].
    destruct Hr as (t0 & _ & Hr). intros t. unfold key_at, lookup_at. rewrite Hr, lookup_insert_eq. done.
Qed.
End key_specs.

(** ** Enrolling *)

Section service_specs.
Context {C R Q F : Type} `{CacheLaws C} `{NodeRepositoryLaws R} `{ClientCertificateRepositoryLaws Q} `{CertificateService F}.
Context `{FairRandomness} `{WallClock} `{Unicode} (SHA256 : string -> string) (envValue : string).

Abbreviation S := (Enr C R Q F).
Implicit Types s : S.

(** The tables are sound and have room for [n] more nodes and certificates. *)
Definition enr_inv (n : nat) s : Prop :=
  nr_inv (en_nodes s) /\ cr_inv (en_certs s) /\ nr_room n (en_nodes s) /\ cr_room n (en_certs s).

Abbreviation rows s := (nr_rows (en_nodes s)).

(** Only the certificates and the counters changed. *)
Definition quiet s s' : Prop := en_cache s' = en_cache s /\ en_nodes s' = en_nodes s.

Lemma cr_room_le k n q : k <= n -> cr_room n q -> cr_room k q.
Proof. induction 1 as [|n Hle IH]; [done|]. intros ?%cr_room_weaken. by apply IH. Qed.
Lemma nr_room_le k n q : k <= n -> nr_room n q -> nr_room k q.
Proof. induction 1 as [|n Hle IH]; [done|]. intros ?%nr_room_weaken. by apply IH. Qed.

Lemma getOrCreateClientCertificateID_spec n s :
  enr_inv (Datatypes.S n) s ->
  wp getOrCreateClientCertificateID (fun r s' => quiet s s' /\ cr_inv (en_certs s') /\ cr_room n (en_certs s') /\
    match r with Ok i => is_Some (cr_rows (en_certs s') !! i) | _ => True end) s.
Proof.
  intros (_ & Hc & _ & Hroom). assert (Hweak : cr_room n (en_certs s)) by by apply cr_room_weaken.
  unfold getOrCreateClientCertificateID, on_certs, on_files, NewXid, on_draws, Now. do 3 wp_step.
  apply wp_intro. intros r q' [= <- <-]. pose proof (selects_first _ _ _ _ (cr_find_law _ [] only_first Hc)) as Hf.
  destruct (CC_Find (en_certs s) [] [] only_first) as [[|c l]|e|w]; cbn [wrap_err]; [|wp_step; simpl|by split_and!..].
  2: { split_and!; [done..|]. destruct l; [|done]. by destruct Hf as [-> _]. }
  wp_step. wp_step. apply wp_intro. intros _ _ [= <- <-]. do 3 wp_step.
  apply wp_intro. intros r f' _. simpl. destruct r as [[crt key]|e|w]; cbn [wrap_err]; [|by split_and!..].
  wp_step. wp_step. wp_step. simpl. destruct (ct_Fingerprint crt) as [fp|e|w]; cbn [wrap_err]; [|by split_and!..].
  wp_step. apply wp_intro. intros _ _ [= <- <-]. do 3 wp_step. simpl. apply wp_intro. intros r q' E.
  apply cr_save_law in E as (Hc' & Hroom' & Hr); [|done|simpl; apply (cr_room_le 1 (Datatypes.S n)); [lia|done]].
  simpl in Hroom'. specialize (Hroom' n Hroom). destruct r as [c'|e|w]; cbn [wrap_err]; [|by split_and!..].
  wp_step. destruct Hr as (_ & Hr & _). split_and!; [done..|]. simpl. by rewrite Hr, lookup_insert_eq.
Qed.

Definition enrolled (key : string) (input : EnrollInput) s (r : result EnrollResult) s' : Prop :=
  (ca_now (en_cache s) <= ca_now (en_cache s'))%Z /\
  match r with
  | Ok res =>
      (exists t, (ca_now (en_cache s) <= t <= ca_now (en_cache s'))%Z /\ key_at envValue t (en_cache s) = Some key) /\
      (exists cert now created updated, is_Some (cr_rows (en_certs s') !! cert) /\
         rows s !! er_NodeID res = None /\
         rows s' = <[er_NodeID res := nd_set_times created updated
           (nd_set_id (er_NodeID res) (new_node SHA256 input (er_APIKey res) cert now))]> (rows s)) /\
      (String.length (er_APIKey res) = apiKeyLength /\ chars_in (er_APIKey res) characterSet = true) /\
      (burned envValue (en_cache s') \/
       ca_entries (en_cache s') = ca_entries (en_cache s) /\ exists c, is_ok (fst (Invalidate envValue c)) = false)
  | _ => rows s' = rows s /\ ca_entries (en_cache s') = ca_entries (en_cache s)
  end.

Lemma Enroll_spec n key input s :
  enr_inv (Datatypes.S n) s ->
  wp (Enroll SHA256 envValue key input) (fun r s' => enr_inv n s' /\ enrolled key input s r s') s.
Proof.
  intros Hi. unfold Enroll, on_cache at 1. do 2 wp_step. eapply wp_mono; [apply Validate_spec|].
  intros r c1 (He & t & Ht & Hv). destruct Hi as (Hn & Hc & Hrn & Hrc).
  pose proof (nr_room_weaken _ _ Hrn) as Hrn'. pose proof (cr_room_weaken _ _ Hrc) as Hrc'.
  destruct r as [[]|e|w]; [|split; [by split_and!|unfold enrolled; simpl; split; [lia|done]]|done].
  (* from here on the cache and the nodes stay as they are until the end *)
  set (s1 := mkEnr c1 (en_nodes s) (en_certs s) (en_files s) (en_draws s) (en_ticks s)).
  assert (Hstop : forall s2 r', quiet s1 s2 -> cr_inv (en_certs s2) -> cr_room n (en_certs s2) -> (forall a, r' <> Ok a) ->
    enr_inv n s2 /\ enrolled key input s r' s2).
  { intros s2 r' [Eq1 Eq2] ? ? Hno. unfold enr_inv, enrolled. rewrite Eq1, Eq2. simpl. split_and!; [done..|lia|].
    destruct r'; [by edestruct Hno|done..]. }
  unfold on_draws, on_files. do 3 wp_step. apply wp_intro. intros rk d Ek. apply CryptoRandomString_spec in Ek as [_ Hk].
  destruct rk as [apiKey|e|w]; cbn [wrap_err]; [|by apply Hstop|done].
  do 3 wp_step. apply wp_intro. intros rg f1 _. destruct rg as [server|e|w]; cbn [wrap_err]; [|by apply Hstop..].
  do 3 wp_step. apply wp_intro. intros rr f2 _. destruct rr as [rootCert|e|w]; cbn [wrap_err]; [|by apply Hstop..].
  do 2 wp_step. eapply wp_mono; [apply (getOrCreateClientCertificateID_spec n); by split_and!|].
  intros ri s2 ([Eq1 Eq2] & Hc2 & Hrc2 & Hcert). simpl in Eq1, Eq2.
  destruct ri as [cert|e|w]; cbn [wrap_err]; [|by apply Hstop..].
  wp_step. apply wp_intro. intros _ _ [= <- <-]. unfold on_nodes. do 3 wp_step. cbn [en_nodes].
  apply wp_intro. intros rs r' E. rewrite Eq2 in E. apply nr_save_law in E as (Hn' & Hrn2 & Hs); [|done|].
  2: { apply (nr_room_le 1 (Datatypes.S n)); [lia|done]. }
  simpl in Hrn2. specialize (Hrn2 n Hrn).
  destruct rs as [node|e|w]; cbn [wrap_err]; [| |done].
  2: { split; [by split_and!|]. unfold enrolled. simpl. rewrite Eq1, Hs. split; [lia|done]. }
  destruct Hs as ((created & updated & Hnode) & Hrows & Hfresh).
  wp_step. wp_step. unfold on_cache. wp_step. cbn [en_cache]. rewrite Eq1.
  apply wp_intro. intros rv c2 Ev. pose proof (wp_run _ _ _ _ _ (Invalidate_spec envValue c1) Ev) as [Hmono Hb].
  destruct rv as [[]|e|w]; [| |done]; wp_step; (split; [by split_and!|]); unfold enrolled; simpl; (split; [lia|]);
    (split; [exists t; split; [lia|done]|]); (split; [do 4 eexists; split; [exact Hcert|]; split; [exact Hfresh|]; by rewrite Hrows, <- Hnode|]);
    (split; [apply Hk|]).
  - by left.
  - right. split; [congruence|]. exists c1. by rewrite Ev.
Qed.

(** A series of enrollments. *)
Fixpoint attempts (l : list (string * EnrollInput)) : M S (list (result EnrollResult)) :=
  match l with
  | [] => ret []
  | (key, input) :: l =>
      let! r := attempt (Enroll SHA256 envValue key input) in
      let! rs := attempts l in ret (r :: rs)
  end.

Lemma attempts_cons key input l s res s' :
  attempts ((key, input) :: l) s = (Ok res, s') ->
  exists r rs s1, res = r :: rs /\ Enroll SHA256 envValue key input s = (r, s1) /\ attempts l s1 = (Ok rs, s').
Proof.
  simpl. unfold bind, attempt. destruct (Enroll _ _ key input s) as [[a|e|w] s1]; [| |done].
  all: destruct (attempts l s1) as [[rs|e'|w] s2] eqn:E; [|done..]; intros [= <- <-]; eauto 10.
Qed.

Lemma enr_inv_le k n s : k <= n -> enr_inv n s -> enr_inv k s.
Proof. intros Hle (? & ? & ? & ?). split_and!; [done|done|by eapply nr_room_le|by eapply cr_room_le]. Qed.

(** Once the key is used up nobody gets in any more. *)
Lemma attempts_burned l : forall s rs s',
  enr_inv (length l) s -> burned envValue (en_cache s) -> attempts l s = (Ok rs, s') ->
  Forall (fun r => is_ok r = false) rs /\ rows s' = rows s.
Proof.
  induction l as [|[key input] l IH]; intros s rs s' Hi Hb E; [by injection E as <- <-|].
  apply attempts_cons in E as (r & rs' & s1 & -> & Er & E).
  pose proof (wp_run _ _ _ _ _ (Enroll_spec (length l) key input s Hi) Er) as (Hi1 & _ & Hr).
  destruct r as [res|e|w]; [destruct Hr as [(t & _ & Ht) _]; by rewrite Hb in Ht| |].
  all: destruct Hr as [Hrows Hents]; destruct (IH s1 rs' s' Hi1) as [Hall Hs]; [|done|split; [by constructor|congruence]].
  all: intros t; unfold key_at; rewrite Hents; apply Hb.
Qed.

Lemma Invalidate_total `{!CacheTotal C} c : is_ok (fst (Invalidate envValue c)) = true.
Proof. unfold Invalidate. destruct (negb _); [by rewrite ca_set_total|by rewrite ca_delete_total]. Qed.

(** C23: When enrollments are handled one after another on a cache that does not
    fail and no new setup key is made in between, at most one of them succeeds:
    the one that does presents the key that was in force at the start, and adds
    exactly one row, a new enabled node for the caller that stores only the hash
    of the API key it was given; everybody else is refused and leaves the nodes
    as they are.  None of the conditions can go: a failure to invalidate the key
    is logged and swallowed, so the key lets the next one in as well
    ([swallowed_failure_keeps_key]); two enrollments that overlap both pass the
    check before either uses the key up ([overlapping_enrollments_pass]); and a
    key made later expires and uncovers that of the environment again
    ([burned_key_comes_back]). *)
Theorem setup_key_works_once `{!CacheTotal C} l s rs s' :
  enr_inv (length l) s -> attempts l s = (Ok rs, s') ->
  length rs = length l /\
  (Forall (fun r => is_ok r = false) rs /\ rows s' = rows s \/
   exists i key input res t cert now created updated,
     l !! i = Some (key, input) /\ rs !! i = Some (Ok res) /\
     (forall j r, rs !! j = Some r -> is_ok r = true -> j = i) /\
     (ca_now (en_cache s) <= t)%Z /\ key_at envValue t (en_cache s) = Some key /\
     rows s !! er_NodeID res = None /\
     rows s' = <[er_NodeID res := nd_set_times created updated
       (nd_set_id (er_NodeID res) (new_node SHA256 input (er_APIKey res) cert now))]> (rows s)).
Proof.
  revert s rs. induction l as [|[key input] l IH]; intros s rs Hi E.
  { injection E as <- <-. split; [done|]. by left. }
  apply attempts_cons in E as (r & rs' & s1 & -> & Er & E).
  pose proof (wp_run _ _ _ _ _ (Enroll_spec (length l) key input s Hi) Er) as (Hi1 & Hmono & Hr).
  pose proof (IH s1 rs' Hi1 E) as [Hlen Hrest]. split; [simpl; by rewrite Hlen|]. destruct r as [res|e|w].
  { right. destruct Hr as ((t & Ht & Hkey) & (cert & now & c & u & _ & Hfresh & Hrows) & _ & Hburn).
    assert (Hb : burned envValue (en_cache s1)).
    { destruct Hburn as [|(_ & c0 & Hc0)]; [done|]. by rewrite Invalidate_total in Hc0. }
    destruct (attempts_burned l s1 rs' s' Hi1 Hb E) as [Hall Hs].
    exists 0, key, input, res, t, cert, now, c, u. split_and!; [done..| |lia|done|done|congruence].
    intros [|j] r Hj Hok; [done|]. exfalso. pose proof (list.Forall_lookup_1 _ _ _ _ Hall Hj) as Hno. simpl in Hno. congruence. }
  all: destruct Hr as [Hrows Hents].
  all: destruct Hrest as [[Hall Hs]|(i & key' & input' & res & t & cert & now & c & u & Hl & Hrs & Hone & Ht & Hkey & Hfresh & Hs)];
    [left; split; [by constructor|congruence]|].
  all: right; exists (Datatypes.S i), key', input', res, t, cert, now, c, u.
  all: unfold key_at in *; rewrite Hents in Hkey; rewrite Hrows in *; split_and!; [done..| |lia|done|done|done].
  all: intros [|j] r Hj Hok; [by injection Hj as <-|]; f_equal; by apply (Hone j r).
Qed.
End service_specs.

(** ** A key that was used up *)

Section key_returns.
Context {C : Type} `{CacheLaws C} `{!CacheTotal C} (envValue : string).

Lemma Get_answer c : exists t, (ca_now c <= t)%Z /\
  fst (Get envValue c) = match key_at envValue t c with Some key => Ok key | None => Err ErrSetupKeyNotConfigured end.
Proof.
  unfold Get, bind, attempt. destruct (cache_get SetupKeyCacheKey c) as [r c'] eqn:E.
  pose proof (ca_get_law _ _ _ _ E) as (_ & t & Ht & Hr). pose proof (ca_get_total SetupKeyCacheKey c) as Htot.
  rewrite E in Htot. simpl in Htot. exists t. split; [lia|]. unfold key_at, setup_key_of.
  destruct r as [v|e|w]; [|destruct Htot as [|[= ->]]; [done|]; rewrite Hr by done|done].
  - rewrite Hr. destruct v as [z|z|z|z|s|]; simpl; [..|by destruct (String.eqb s "")|]; by destruct (String.eqb envValue "").
  - simpl. by destruct (String.eqb envValue "").
Qed.

(** The setup key of the environment is not used up for good: when a key is
    generated afterwards and expires unused after its hour, or when the key is
    deleted, the environment's key is in force again. *)
Lemma burned_key_comes_back `{Randomness} c n key c1 n1 :
  envValue <> ""%string -> burned envValue c -> Generate (c, n) = (Ok key, (c1, n1)) ->
  (forall c2, ca_entries c2 !! SetupKeyCacheKey = ca_entries c1 !! SetupKeyCacheKey ->
     (ca_now c1 + setupKeyTTL < ca_now c2)%Z -> fst (Get envValue c2) = Ok envValue) /\
  (forall c', DeleteKey c = (Ok tt, c') -> fst (Get envValue c') = Ok envValue).
Proof.
  intros Henv _ E. apply String.eqb_neq in Henv as Hne.
  assert (Hnone : forall c2, (forall t, (ca_now c2 <= t)%Z -> lookup_at t (ca_entries c2) SetupKeyCacheKey = None) ->
    fst (Get envValue c2) = Ok envValue).
  { intros c2 Hc2. destruct (Get_answer c2) as (t & Ht & ->). unfold key_at. rewrite Hc2 by done. simpl. by rewrite Hne. }
  split; intros c2.
  - intros Hent Hlate. apply Hnone. intros t Ht. unfold Generate, bind, wrap, zoom, SetKey in E. simpl in E.
    destruct (CryptoRandomString setupKeyLength n) as [[k|e|w] n2]; [|done..]. simpl in E.
    destruct (cache_set SetupKeyCacheKey (CString k) setupKeyTTL c) as [[[]|e|w] c3] eqn:Es; [|done..]. simpl in E.
    injection E as _ <- _. pose proof (ca_set_law _ _ _ _ _ _ Es) as [_ (t0 & Ht0 & He)].
    unfold lookup_at. rewrite Hent, He, lookup_insert_eq. unfold live. simpl.
    destruct (Z.ltb_spec (t0 + setupKeyTTL) t) as [|Hge]; [done|]. lia.
  - intros E2. apply Hnone. intros t _. apply ca_delete_law in E2 as [_ Hd]. unfold lookup_at. by rewrite Hd, lookup_delete_eq.
Qed.
End key_returns.

(** ** A panel without nodes, and two daemons with the same key *)

#[local] Existing Instance ticking.
Definition plain_text : Unicode := {| unicode_lower s := s; unicode_trim s := s; unicode_fold s t := String.eqb s t |}.
#[local] Existing Instance plain_text.
Definition counting_random : Randomness := {|
  rand_Int n bound := if (bound =? 0)%N then Err (ENew "bound") else Ok (n mod bound)%N;
  rand_xid n := "c0"%string;
|}.
#[local] Existing Instance counting_random.
#[export] Instance counting_random_fair : FairRandomness.
Proof.
  split; intros n bound; cbn [rand_Int counting_random]; destruct (N.eqb_spec bound 0); try done.
  intros k [= <-]. by apply N.mod_lt.
Qed.
Definition paper_certificates : CertificateService unit := {|
  ct_GenerateInMemory := ret ("crt", "key")%string; ct_Root := ret "root"%string;
  ct_Generate _ _ := ret ("crt", "key")%string; ct_Fingerprint c := Ok c;
|}.
#[local] Existing Instance paper_certificates.
#[local] Existing Instances NodesRepo.memNodeRepo_ops NodesRepo.memNodeRepo_laws CertificatesRepo.memCertRepo_ops CertificatesRepo.memCertRepo_laws.

Definition sample_panel : Enr InMemory NodesRepo.memNodeRepo CertificatesRepo.memCertRepo unit :=
  mkEnr NewInMemory NodesRepo.NewNodeRepository CertificatesRepo.NewClientCertificateRepository tt 0 0.
Definition sample_daemon : EnrollInput := mkEnrollInput "10.0.0.9" 0 "ubuntu" "3.0" [].
Definition sample_run := attempts (fun s => s) "env-key" [("env-key", sample_daemon); ("env-key", sample_daemon)]%string sample_panel.

Lemma setup_key_works_once_witness :
  (exists rs, fst sample_run = Ok rs /\ map is_ok rs = [true; false]) /\
  exists rs s', sample_run = (Ok rs, s') /\ length rs = 2.
Proof.
  assert (E : exists rs, fst sample_run = Ok rs /\ map is_ok rs = [true; false])
    by (eexists; split; [vm_compute; reflexivity|reflexivity]).
  split; [exact E|]. destruct E as (rs & E & _). exists rs, (snd sample_run).
  assert (E2 : sample_run = (Ok rs, snd sample_run)) by (rewrite <- E; apply surjective_pairing). split; [exact E2|].
  refine (proj1 (setup_key_works_once (fun s => s) "env-key" _ _ _ _ _ E2)).
  split_and!; [apply NodesRepo.nodes_inv_new|apply CertificatesRepo.certs_inv_new|reflexivity|reflexivity].
Defined.

Definition used_up : InMemory := snd (Invalidate "env-key" NewInMemory).
Definition hour_later : InMemory :=
  mkInMemory (im_items (fst (snd (Generate (used_up, 0%N))))) (Z.to_N (61 * minute)).

(** The in-memory cache on a day it accepts no writes. *)
Definition read_only_cache : Cache InMemory := {|
  cache_get := cache_get; cache_set _ _ _ := fail (ENew "read only"); cache_delete _ := fail (ENew "read only");
|}.

(** A failed invalidation is not reported: both daemons are enrolled with one key. *)
Lemma swallowed_failure_keeps_key :
  exists rs, fst (attempts (H := read_only_cache) (fun s => s) "env-key"
    [("env-key", sample_daemon); ("env-key", sample_daemon)]%string sample_panel) = Ok rs /\ map is_ok rs = [true; true].
Proof. eexists. split; [vm_compute; reflexivity|reflexivity]. Qed.

(** The check leaves the key as it is, so whoever checks before the first
    invalidation passes too. *)
Lemma overlapping_enrollments_pass :
  let check := Validate "env-key" "env-key" in
  fst (check NewInMemory) = Ok tt /\ fst (check (snd (check NewInMemory))) = Ok tt.
Proof. split; reflexivity. Qed.
