(* ===== verification/DaemonAuth.v ===== *)
(** How a daemon proves who it is on the HTTP API
    ([internal/api/daemonapi/gettoken/handler.go],
    [internal/api/middlewares/daemon.go]): it trades its API key for a token and
    shows the token with every request.  The node table is used through its
    contract; the last part puts enrollment, the gateway and this API
    together. *)

From S2P Require Import Prelude.
From S2P Require Import GoNum.
From S2P Require Import Domain.
From S2P Require Import GoRuntime.
From S2P Require Import Cache.
From S2P Require Import Repositories.
From S2P Require Import NodesRepo.
From S2P Require Import CertificatesRepo.
From S2P Require Import Gateway.
From S2P Require Import Enrollment.
From stdpp Require Import base tactics strings list gmap numbers.
From Stdlib Require Import NArith ZArith Ascii.

Definition tokenLength : nat := 64.

Definition StatusUnauthorized : Z := 401.
Definition StatusConflict : Z := 409.
Definition StatusInternalServerError : Z := 500.

(** [t.Unix()]: the seconds since 1970 of a time counted from the year 1. *)
Definition Unix (t : time) : Z := (t / second - 62135596800)%Z.

(** What a handler writes: the token and the time it was made, or an error with
    its HTTP status. *)
Inductive token_response : Type :=
| TokenResponse (token : string) (timestamp : Z)
| WriteError (status : Z) (e : error).

(** The node table, how often randomness and the clock were used. *)
Record Auth (R : Type) : Type := mkAuth { au_nodes : R; au_draws : N; au_ticks : N }.
Arguments mkAuth {R}.
Arguments au_nodes {R}. Arguments au_draws {R}. Arguments au_ticks {R}.

Section handlers.
Context {R : Type} `{NodeRepository R} `{Randomness} `{WallClock} `{Unicode} (SHA256 : string -> string).
(** [connChecker.IsConnectedAnywhere] *)
Context (IsConnectedAnywhere : N -> bool).

Abbreviation S := (Auth R).

Definition au_now : M S time := fun s => (Ok (now_at (au_ticks s)), mkAuth (au_nodes s) (au_draws s) (au_ticks s + 1)).
Definition au_on_nodes {B} (x : M R B) : M S B := zoom au_nodes (fun r s => mkAuth r (au_draws s) (au_ticks s)) x.
Definition au_on_draws {B} (x : M N B) : M S B := zoom au_draws (fun n s => mkAuth (au_nodes s) n (au_ticks s)) x.

(** The key in an [Authorization] header. *)
Definition bearer (authHeader : string) : string := TrimPrefix (TrimSpace authHeader) "Bearer ".

(** A request for a token. *)
Definition GetToken (authHeader : string) : M S token_response :=
  if String.eqb authHeader "" then ret (WriteError StatusUnauthorized (ENew "invalid api key"))
  else
    let apiKey := bearer authHeader in
    if String.eqb apiKey "" then ret (WriteError StatusUnauthorized (ENew "invalid api key"))
    else
      let! s := get in
      match ND_Find (au_nodes s) (FindNodeByGDaemonAPIKey (SHA256 apiKey)) [] only_first with
      | Panic w => lift (Panic w)
      | Err e => ret (WriteError StatusInternalServerError (EWrap "failed to find node by api key" e))
      | Ok [] => ret (WriteError StatusUnauthorized (ENew "invalid api key"))
      | Ok (node :: _) =>
          if IsConnectedAnywhere (nd_ID node)
          then ret (WriteError StatusConflict (ENew "daemon is connected via gRPC bidi stream, HTTP API is disabled for this node"))
          else
            let! token := attempt (au_on_draws (CryptoRandomString tokenLength)) in
            match token with
            | Panic w => lift (Panic w)
            | Err e => ret (WriteError StatusInternalServerError (EWrap "failed to generate token" e))
            | Ok token =>
                let! now := au_now in
                let! r := attempt (au_on_nodes (ND_UpdateGDaemonAPIToken (nd_ID node) (SHA256 token) now)) in
                match r with
                | Err e => ret (WriteError StatusInternalServerError (EWrap "failed to update node" e))
                | Ok _ => ret (TokenResponse token (Unix now))
                | Panic w => lift (Panic w)
                end
            end
      end.

(** Where a request goes: on to the handler in the name of a node, or back. *)
Inductive daemon_access : Type :=
| Admitted_as (node : Node)
| Rejected (status : Z) (e : error).

(** [DaemonAuthMiddleware.Middleware] on the [X-Auth-Token] header. *)
Definition DaemonAuth (r : R) (authToken : string) : result daemon_access :=
  if String.eqb authToken "" then Ok (Rejected StatusUnauthorized (ENew "token not set"))
  else
    match ND_Find r (mkFindNode [] None (Some (SHA256 authToken)) true) [] only_first with
    | Panic w => Panic w
    | Err e => Ok (Rejected StatusInternalServerError (EWrap "failed to find node" e))
    | Ok [] => Ok (Rejected StatusUnauthorized (ENew "invalid api token"))
    | Ok (node :: _) => Ok (Admitted_as node)
    end.
End handlers.

(** ** Tokens *)

Section token_specs.
Context {R : Type} `{NodeRepositoryLaws R} `{FairRandomness} `{WallClock} `{Unicode} (SHA256 : string -> string).
Context (IsConnectedAnywhere : N -> bool).

Abbreviation S := (Auth R).
Abbreviation rows s := (nr_rows (au_nodes s)).

(** [node] is the one an API key stands for: the first that is not deleted. *)
Definition key_owner (m : gmap N Node) (apiKey : string) (node : Node) : Prop :=
  m !! nd_ID node = Some node /\ nd_DeletedAt node = None /\ nd_GdaemonAPIKey node = SHA256 apiKey /\
  forall n, m !! nd_ID n = Some n -> nd_DeletedAt n = None -> nd_GdaemonAPIKey n = SHA256 apiKey -> (nd_ID node <= nd_ID n)%N.

Lemma key_filter_matches key n :
  node_matches (FindNodeByGDaemonAPIKey key) n = true <-> nd_DeletedAt n = None /\ nd_GdaemonAPIKey n = key.
Proof.
  unfold node_matches. simpl. rewrite andb_true_r, andb_true_iff, bool_decide_eq_true, String.eqb_eq. done.
Qed.

Lemma token_filter_matches token n :
  node_matches (mkFindNode [] None (Some token) true) n = true <-> nd_GdaemonAPIToken n = Some token.
Proof. unfold node_matches. simpl. by rewrite bool_decide_eq_true. Qed.

(** A token request answers; a token goes to the owner of the key, whose row
    is the only one that changes. *)
Lemma GetToken_spec hdr (s : S) : nr_inv (au_nodes s) ->
  wp (GetToken SHA256 IsConnectedAnywhere hdr) (fun r s' => nr_inv (au_nodes s') /\
    match r with
    | Ok (TokenResponse tok ts) => exists node now, key_owner (rows s) (bearer hdr) node /\
        IsConnectedAnywhere (nd_ID node) = false /\ String.length tok = tokenLength /\
        rows s' = <[nd_ID node := nd_set_token (Some (SHA256 tok)) (Some now) node]> (rows s)
    | Ok (WriteError _ _) => rows s' = rows s
    | _ => False
    end) s.
Proof.
  intros Hi. unfold GetToken. destruct (String.eqb hdr ""); [by wp_step|]. destruct (String.eqb (bearer hdr) ""); [by wp_step|].
  do 2 wp_step. pose proof (selects_first _ _ _ _ (nr_find_law (au_nodes s) (FindNodeByGDaemonAPIKey (SHA256 (bearer hdr))) only_first Hi)) as Hf.
  destruct (ND_Find _ _ [] only_first) as [[|node l]|e|w]; [by wp_step| |by wp_step|done].
  destruct l; [|done]. destruct Hf as (Hrow & Hm & Hleast). apply key_filter_matches in Hm as [Hdel Hkey].
  assert (Hown : key_owner (rows s) (bearer hdr) node).
  { split_and!; [done..|]. intros n Hn Hdn Hkn. apply Hleast; [done|]. by apply key_filter_matches. }
  destruct (IsConnectedAnywhere (nd_ID node)) eqn:Econn; [by wp_step|]. unfold au_on_draws. do 3 wp_step.
  apply wp_intro. intros rt d Et. apply CryptoRandomString_spec in Et as [_ Ht].
  destruct rt as [tok|e|w]; [|by wp_step|done]. wp_step. apply wp_intro. intros _ _ [= <- <-].
  unfold au_on_nodes. do 3 wp_step. simpl. apply wp_intro. intros ru r' Eu. apply nr_token_law in Eu as (Hi' & _ & Hu); [|done].
  destruct ru as [[]|e|w]; [| |done]; wp_step; (split; [done|]); [|done]. simpl.
  exists node, (now_at (au_ticks s)). split_and!; [done..|apply Ht|]. rewrite Hu. rewrite alter_alt, Hrow. done.
Qed.

(** Who shows a token is taken for a node that holds its hash. *)
Lemma DaemonAuth_admits r tok n : nr_inv r -> DaemonAuth SHA256 r tok = Ok (Admitted_as n) ->
  nr_rows r !! nd_ID n = Some n /\ nd_GdaemonAPIToken n = Some (SHA256 tok) /\ tok <> ""%string.
Proof.
  intros Hi. unfold DaemonAuth. destruct (String.eqb_spec tok "") as [|Hne]; [done|].
  pose proof (selects_first _ _ _ _ (nr_find_law r (mkFindNode [] None (Some (SHA256 tok)) true) only_first Hi)) as Hf.
  destruct (ND_Find _ _ [] only_first) as [[|node l]|e|w]; [done| |done..]. intros [= <-].
  destruct l; [|done]. destruct Hf as (Hrow & Hm & _). by apply token_filter_matches in Hm.
Qed.

(** A series of token requests. *)
Fixpoint token_requests (l : list string) : M S (list token_response) :=
  match l with
  | [] => ret []
  | hdr :: l =>
      let! r := GetToken SHA256 IsConnectedAnywhere hdr in
      let! rs := token_requests l in ret (r :: rs)
  end.

(** Every stored token is the last one that was given out for the key of its
    node. *)
Definition explained (hist : list (string * token_response)) (m : gmap N Node) : Prop :=
  forall n h, m !! nd_ID n = Some n -> nd_GdaemonAPIToken n = Some h ->
  exists pre hdr tok ts post, hist = pre ++ (hdr, TokenResponse tok ts) :: post /\ h = SHA256 tok /\
    key_owner m (bearer hdr) n /\
    forall hdr' tok' ts', (hdr', TokenResponse tok' ts') ∈ post -> SHA256 (bearer hdr') <> nd_GdaemonAPIKey n.

Lemma key_owner_same m m' apiKey n tok u node :
  m' = <[nd_ID node := nd_set_token tok u node]> m -> m !! nd_ID node = Some node ->
  key_owner m apiKey n -> nd_ID n <> nd_ID node -> key_owner m' apiKey n.
Proof.
  intros -> Hnode (Hrow & Hdel & Hkey & Hleast) Hne. split_and!; [by rewrite lookup_insert_ne|done|done|].
  intros n' Hn' Hd' Hk'. rewrite lookup_insert in Hn'. case_decide as Hid; [|by apply Hleast].
  injection Hn' as <-. simpl in *. by apply Hleast.
Qed.

Lemma explained_step hist hdr r (s s' : S) :
  nr_inv (au_nodes s) -> GetToken SHA256 IsConnectedAnywhere hdr s = (Ok r, s') ->
  explained hist (rows s) -> explained (hist ++ [(hdr, r)]) (rows s').
Proof.
  intros Hi E Hex. pose proof (wp_run _ _ _ _ _ (GetToken_spec hdr s Hi) E) as (Hi' & Hr).
  destruct r as [tok ts|st e]; intros n h Hn Hh.
  - destruct Hr as (node & now & Hown & _ & _ & Hrows). rewrite Hrows in *. pose proof Hown as (Hnode & Hdel & Hkey & Hleast).
    rewrite lookup_insert in Hn. destruct (decide (nd_ID node = nd_ID n)) as [Hid|Hid].
    + injection Hn as <-. simpl in *. exists hist, hdr, tok, ts, []. split_and!; [done|congruence| |by intros ? ? ? ?%list.elem_of_nil].
      split_and!; [by rewrite lookup_insert_eq|done|done|]. intros n' Hn' Hd' Hk'. rewrite lookup_insert in Hn'.
      case_decide as Hid'; [simpl; by rewrite Hid'|]. simpl. by apply Hleast.
    + destruct (Hex n h Hn Hh) as (pre & hdr0 & tok0 & ts0 & post & -> & -> & Hown0 & Hlast).
      exists pre, hdr0, tok0, ts0, (post ++ [(hdr, TokenResponse tok ts)]). split_and!; [by rewrite <- app_assoc|done| |].
      * eapply key_owner_same; [done|done|done|congruence].
      * intros hdr' tok' ts' [Hin|Hin%list_elem_of_singleton]%list.elem_of_app; [by eapply Hlast|].
        injection Hin as -> -> ->. intros Heq. apply Hid. destruct Hown0 as (Hn0 & Hd0 & Hk0 & Hl0).
        apply N.le_antisymm; [by apply Hleast|]. apply Hl0; congruence.
  - rewrite Hr in *. destruct (Hex n h Hn Hh) as (pre & hdr0 & tok0 & ts0 & post & -> & -> & Hown0 & Hlast).
    exists pre, hdr0, tok0, ts0, (post ++ [(hdr, WriteError st e)]). split_and!; [by rewrite <- app_assoc|done|done|].
    intros hdr' tok' ts' [Hin|Hin%list_elem_of_singleton]%list.elem_of_app; [by eapply Hlast|done].
Qed.

Lemma requests_explained l : forall hist (s : S) rs s',
  nr_inv (au_nodes s) -> explained hist (rows s) -> token_requests l s = (Ok rs, s') ->
  nr_inv (au_nodes s') /\ explained (hist ++ zip l rs) (rows s') /\ length rs = length l.
Proof.
  induction l as [|hdr l IH]; intros hist s rs s' Hi Hex E.
  - injection E as <- <-. by rewrite app_nil_r.
  - simpl in E. unfold bind in E. destruct (GetToken _ _ hdr s) as [[r|e|w] s1] eqn:Er; [|done..].
    destruct (token_requests l s1) as [[rs'|e|w] s2] eqn:Es; [|done..]. injection E as <- <-.
    pose proof (wp_run _ _ _ _ _ (GetToken_spec hdr s Hi) Er) as (Hi1 & _).
    destruct (IH (hist ++ [(hdr, r)]) s1 rs' s2 Hi1) as (Hi' & Hex' & Hlen); [by apply (explained_step hist hdr r s s1)|done|].
    split_and!; [done| |simpl; by rewrite Hlen]. simpl. by rewrite <- app_assoc in Hex'.
Qed.

(** C24: When no node has a token at first, then after any token requests whoever
    is admitted as a node shows a token with the hash of one that was given out
    for that node's API key, and given out last: a new token ends the old
    one. *)
Theorem admission_needs_last_token l (s : S) rs s' tok n :
  nr_inv (au_nodes s) -> (forall i n, rows s !! i = Some n -> nd_GdaemonAPIToken n = None) ->
  token_requests l s = (Ok rs, s') -> DaemonAuth SHA256 (au_nodes s') tok = Ok (Admitted_as n) ->
  exists i hdr tok' ts, l !! i = Some hdr /\ rs !! i = Some (TokenResponse tok' ts) /\
    SHA256 tok = SHA256 tok' /\ SHA256 (bearer hdr) = nd_GdaemonAPIKey n /\ nd_DeletedAt n = None /\
    forall j hdr' tok'' ts', i < j -> l !! j = Some hdr' -> rs !! j = Some (TokenResponse tok'' ts') ->
      SHA256 (bearer hdr') <> nd_GdaemonAPIKey n.
Proof.
  intros Hi Hnone E Hadm. destruct (requests_explained l [] s rs s' Hi) as (Hi' & Hex & Hlen); [|done|].
  { intros x h Hx Hh. by rewrite (Hnone _ _ Hx) in Hh. }
  destruct (DaemonAuth_admits _ _ _ Hi' Hadm) as (Hrow & Htok & _).
  destruct (Hex n _ Hrow Htok) as (pre & hdr & tok' & ts & post & Hz & Hh & (_ & Hdel & Hkey & _) & Hlast).
  assert (Hat : forall j hdr' r', l !! j = Some hdr' -> rs !! j = Some r' -> zip l rs !! j = Some (hdr', r'))
    by (intros j hdr' r' Hl Hr; apply lookup_zip_with_Some; by exists hdr', r').
  simpl in Hz. assert (Hpos : zip l rs !! length pre = Some (hdr, TokenResponse tok' ts)) by (rewrite Hz; by apply list_lookup_middle).
  apply lookup_zip_with_Some in Hpos as (? & ? & [= <- <-] & Hl & Hr).
  exists (length pre), hdr, tok', ts. split_and!; try done. intros j hdr' tok'' ts' Hj Hl' Hr'.
  apply (Hlast hdr' tok'' ts'). pose proof (Hat _ _ _ Hl' Hr') as Hzj. rewrite Hz, lookup_app_r in Hzj by lia.
  destruct (j - length pre) as [|k] eqn:Ej; [lia|]. simpl in Hzj. by eapply list_elem_of_lookup_2.
Qed.
End token_specs.

(** ** From enrollment to a request *)

Lemma trim_left_nonspace c s : is_space c = false -> trim_left (String c s) = String c s.
Proof. intros Hc. simpl. by rewrite Hc. Qed.

Lemma trim_right_keeps a b : b <> ""%string -> trim_right b = b -> trim_right (a +:+ b) = a +:+ b.
Proof.
  intros Hb E. induction a as [|c a IH]; [exact E|]. change (String c a +:+ b) with (String c (a +:+ b)).
  cbn [trim_right]. rewrite IH. destruct (a +:+ b) eqn:Ea; [|done]. destruct a; [by destruct b|done].
Qed.

Lemma trim_right_solid s : (forall c, has_byte c s = true -> is_space c = false) -> trim_right s = s.
Proof.
  induction s as [|c s IH]; intros Hs; [done|]. cbn [trim_right].
  rewrite IH; [|intros d Hd; apply Hs; unfold has_byte in *; simpl; destruct (Ascii.eqb c d); [done|]; by destruct (cut_byte d s) as [[]|]].
  destruct s; [|done]. rewrite (Hs c); [done|]. unfold has_byte. simpl. by rewrite Ascii.eqb_refl.
Qed.

Lemma has_byte_of s set c : chars_in s set = true -> has_byte c s = true -> has_byte c set = true.
Proof.
  induction s as [|d s IH]; [done|]. simpl. intros [Hd Hs]%andb_true_iff Hc. unfold has_byte in Hc. simpl in Hc.
  destruct (Ascii.eqb_spec d c) as [->|]; [done|]. apply IH; [done|]. unfold has_byte. by destruct (cut_byte c s) as [[]|].
Qed.

Definition solid (c : Ascii.ascii) : bool := implb (has_byte c characterSet) (is_ascii c && negb (is_space c)).
Lemma characterSet_solid c : has_byte c characterSet = true -> is_ascii c = true /\ is_space c = false.
Proof.
  assert (H : solid c = true) by (destruct c as [[] [] [] [] [] [] [] []]; reflexivity).
  unfold solid in H. intros Hc. rewrite Hc in H. simpl in H. apply andb_true_iff in H as [H1 H2]. by rewrite negb_true_iff in H2.
Qed.

Lemma all_ascii_of s : chars_in s characterSet = true -> all_ascii s = true.
Proof.
  induction s as [|c s IH]; [done|]. simpl. intros [Hc Hs]%andb_true_iff. by rewrite (proj1 (characterSet_solid c Hc)), IH.
Qed.

Lemma TrimPrefix_app p s : TrimPrefix (p +:+ s) p = s.
Proof. unfold TrimPrefix. by rewrite string_prefix_app, substring_suffix. Qed.

(** A key made by [CryptoRandomString] is read back from its header. *)
Lemma bearer_key `{Unicode} key : key <> ""%string -> chars_in key characterSet = true -> bearer ("Bearer " +:+ key) = key.
Proof.
  intros Hne Hk. unfold bearer, TrimSpace.
  assert (Ha : all_ascii ("Bearer " +:+ key) = true) by exact (all_ascii_of _ Hk). rewrite Ha.
  change (trim_left ("Bearer " +:+ key)) with ("Bearer " +:+ key). rewrite trim_right_keeps, TrimPrefix_app; [done|done|].
  apply trim_right_solid. intros c Hc. by apply characterSet_solid, (has_byte_of key).
Qed.

Section getting_in.
Context {C R Q F : Type} `{CacheLaws C} `{NodeRepositoryLaws R} `{ClientCertificateRepositoryLaws Q} `{CertificateService F}.
Context `{FairRandomness} `{WallClock} `{Unicode} (SHA256 : string -> string) (envValue : string).

(** Node storage none of whose calls fails. *)
Definition nodes_total : Prop :=
  (forall (r : R) f p e, ND_Find r f [] p <> Err e) /\
  (forall i h t (r : R), fst (ND_UpdateGDaemonAPIToken i h t r) = Ok tt).

Lemma find_first (r : R) f n :
  nodes_total -> nr_inv r -> nr_rows r !! nd_ID n = Some n -> node_matches f n = true ->
  (forall n', nr_rows r !! nd_ID n' = Some n' -> node_matches f n' = true -> nd_ID n' = nd_ID n) ->
  ND_Find r f [] only_first = Ok [n].
Proof.
  intros [Htot _] Hi Hn Hm Hone. pose proof (selects_first _ _ _ _ (nr_find_law r f only_first Hi)) as Hf.
  destruct (ND_Find r f [] only_first) as [[|x [|]]|e|w] eqn:E; [|..|done|by apply Htot in E|done].
  - by rewrite (Hf _ _ Hn eq_refl) in Hm.
  - destruct Hf as (Hx & Hmx & _). pose proof (Hone x Hx Hmx) as Hid. rewrite Hid in Hx. congruence.
Qed.

Lemma node_find_by_id (r : R) n :
  nodes_total -> nr_inv r -> nr_rows r !! nd_ID n = Some n -> nd_DeletedAt n = None ->
  exists rest, ND_Find r (FindNodeByIDs [nd_ID n]) [] None = Ok (n :: rest).
Proof.
  intros [Htot _] Hi Hn Hd. destruct (nr_find_law r (FindNodeByIDs [nd_ID n]) None Hi) as (all & _ & Hel & Hres).
  assert (Hin : n ∈ all).
  { apply Hel. split; [done|]. unfold node_matches. simpl. rewrite !andb_true_r, andb_true_iff, !bool_decide_eq_true. set_solver. }
  destruct (ND_Find r _ [] None) as [l|e|w] eqn:E; [|by apply Htot in E|done]. injection Hres as <-.
  destruct all as [|x rest]; [by apply list.elem_of_nil in Hin|]. exists rest. do 2 f_equal.
  destruct (proj1 (Hel x)) as [Hx Hm]; [set_solver|]. unfold node_matches in Hm. simpl in Hm.
  rewrite !andb_true_iff, bool_decide_eq_true in Hm. destruct Hm as [[[Hid _] _] _].
  apply list_elem_of_singleton in Hid. rewrite Hid in Hx. congruence.
Qed.

(** C25: A daemon that was enrolled gets in: what it was given passes the
    gateway's authentication, and while it is not connected there its API key
    buys a token with which its HTTP requests are admitted as the new node,
    unless an older node holds the same key or token. *)
Theorem enrolled_daemon_gets_in {R' V' Q' P'} n setupKey input s res s' reg (gc : GatewayCatalogue)
    (h : Handlers (R:=R') (V:=V') (Q:=Q') (P:=P')) connected d t tok d' :
  enr_inv (S n) s -> Enroll (F:=F) SHA256 envValue setupKey input s = (Ok res, s') ->
  nodes_total ->
  (forall i x, nr_rows (en_nodes s) !! i = Some x ->
     nd_GdaemonAPIKey x <> SHA256 (er_APIKey res) /\ nd_GdaemonAPIToken x <> Some (SHA256 tok)) ->
  rr_NodeId reg = er_NodeID res -> rr_ApiKey reg = er_APIKey res ->
  gc_Nodes gc (rr_NodeId reg) = ND_Find (en_nodes s') (FindNodeByIDs [rr_NodeId reg]) [] None ->
  h_verify h = None -> connected (er_NodeID res) = false ->
  CryptoRandomString tokenLength d = (Ok tok, d') ->
  authentic SHA256 gc h reg /\
  exists s2 node, GetToken SHA256 connected ("Bearer " +:+ er_APIKey res) (mkAuth (en_nodes s') d t) =
      (Ok (TokenResponse tok (Unix (now_at t))), s2) /\
    DaemonAuth SHA256 (au_nodes s2) tok = Ok (Admitted_as node) /\ nd_ID node = er_NodeID res.
Proof.
  intros Hi E Htot Hfresh Hid Hkey Hgc Hver Hconn Etok.
  pose proof (wp_run _ _ _ _ _ (Enroll_spec SHA256 envValue n setupKey input s Hi) E) as [(Hi' & _) (_ & Hr)].
  destruct Hr as (_ & (cert & now & c & u & _ & Hnew & Hrows) & [Hlen Hchars] & _).
  set (node := nd_set_times c u (nd_set_id (er_NodeID res) (new_node SHA256 input (er_APIKey res) cert now))) in *.
  assert (Hne : er_APIKey res <> ""%string) by (intros Hk; by rewrite Hk in Hlen).
  assert (Hnode : nr_rows (en_nodes s') !! nd_ID node = Some node) by (rewrite Hrows; apply lookup_insert_eq).
  split.
  - destruct (node_find_by_id (en_nodes s') node Htot Hi' Hnode eq_refl) as [rest Hf]. exists node, rest.
    rewrite Hgc, Hid, Hkey, Hver. split_and!; [exact Hf|done|done|done].
  - assert (Hneb : String.eqb (er_APIKey res) "" = false) by by apply String.eqb_neq.
    assert (Hfk : ND_Find (en_nodes s') (FindNodeByGDaemonAPIKey (SHA256 (er_APIKey res))) [] only_first = Ok [node]).
    { apply find_first; [done..|by apply key_filter_matches|]. intros x Hx [_ Hm]%key_filter_matches.
      rewrite Hrows, lookup_insert in Hx. case_decide as Hx'; [done|]. by apply Hfresh in Hx as [[] _]. }
    unfold GetToken. change (String.eqb ("Bearer " +:+ er_APIKey res) "") with false. cbv iota. rewrite (bearer_key _ Hne Hchars), Hneb.
    unfold bind at 1, get. cbn [au_nodes]. rewrite Hfk. change (nd_ID node) with (er_NodeID res). rewrite Hconn.
    unfold bind, attempt, au_on_draws, zoom. cbn [au_nodes au_draws au_ticks]. rewrite Etok.
    unfold au_now, au_on_nodes, zoom. cbn [au_nodes au_draws au_ticks].
    destruct (ND_UpdateGDaemonAPIToken (er_NodeID res) (SHA256 tok) (now_at t) (en_nodes s')) as [ru r2] eqn:Eu.
    pose proof (proj2 Htot (er_NodeID res) (SHA256 tok) (now_at t) (en_nodes s')) as Hu. rewrite Eu in Hu. simpl in Hu. subst ru.
    apply nr_token_law in Eu as (Hi2 & _ & Hrows2); [|done].
    change (er_NodeID res) with (nd_ID node) in Hrows2. rewrite alter_alt, Hnode in Hrows2.
    eexists _, (nd_set_token (Some (SHA256 tok)) (Some (now_at t)) node). split; [reflexivity|]. split; [|done].
    unfold DaemonAuth. cbn [au_nodes].
    assert (Hft : ND_Find r2 (mkFindNode [] None (Some (SHA256 tok)) true) [] only_first =
      Ok [nd_set_token (Some (SHA256 tok)) (Some (now_at t)) node]).
    { apply find_first; [done..| |by apply token_filter_matches|]; rewrite Hrows2; [by rewrite lookup_insert_eq|].
      intros x Hx Hm%token_filter_matches. rewrite lookup_insert in Hx. case_decide as Hx'; [done|].
      rewrite Hrows, lookup_insert_ne in Hx by done. by apply Hfresh in Hx as [_ []]. }
    rewrite Hft. apply CryptoRandomString_spec in Etok as [_ [Hl _]]. by destruct tok.
Qed.
End getting_in.

(** ** Samples: one node with the API key "key", and the daemon enrolled on the
    empty panel *)

#[local] Existing Instances ticking plain_text counting_random paper_certificates.
#[local] Existing Instances NodesRepo.memNodeRepo_ops NodesRepo.memNodeRepo_laws CertificatesRepo.memCertRepo_ops CertificatesRepo.memCertRepo_laws.

Lemma memNodeRepo_total : nodes_total (R := NodesRepo.memNodeRepo).
Proof.
  split; [|done]. intros r f p e. simpl. unfold NodesRepo.Find, applyPagination.
  destruct p; [|done]. cbv zeta. destruct (_ <=? _)%N; [done|]. by destruct (_ <? _)%N.
Qed.

Definition one_node : NodesRepo.memNodeRepo :=
  snd (NodesRepo.Save (new_node (fun s => s) sample_daemon "key" 1 0) NodesRepo.NewNodeRepository).

Lemma one_node_inv : NodesRepo.nodes_inv one_node.
Proof.
  destruct (NodesRepo.node_Save_spec (new_node (fun s => s) sample_daemon "key" 1 0) NodesRepo.NewNodeRepository) as (n & r & E & Hi & _).
  - apply NodesRepo.nodes_inv_new.
  - reflexivity.
  - unfold one_node. by rewrite E.
Qed.

Definition two_tokens := token_requests (fun s => s) (fun _ => false) ["Bearer key"; "Bearer key"]%string (mkAuth one_node 0 0).
Definition token_of (r : option token_response) : string := match r with Some (TokenResponse t _) => t | _ => "" end.
Definition nth_token (i : nat) : string :=
  match fst two_tokens with Ok rs => token_of (rs !! i) | _ => ""%string end.

Lemma admission_needs_last_token_witness :
  DaemonAuth (fun s => s) (au_nodes (snd two_tokens)) (nth_token 0) = Ok (Rejected StatusUnauthorized (ENew "invalid api token")) /\
  exists n i hdr, DaemonAuth (fun s => s) (au_nodes (snd two_tokens)) (nth_token 1) = Ok (Admitted_as n) /\
    ["Bearer key"; "Bearer key"]%string !! i = Some hdr /\ bearer hdr = nd_GdaemonAPIKey n.
Proof.
  split; [vm_compute; reflexivity|].
  assert (E : exists rs, fst two_tokens = Ok rs) by (eexists; vm_compute; reflexivity). destruct E as [rs E].
  assert (Ea : exists n, DaemonAuth (fun s => s) (au_nodes (snd two_tokens)) (nth_token 1) = Ok (Admitted_as n))
    by (eexists; vm_compute; reflexivity). destruct Ea as [n Ea].
  assert (E2 : two_tokens = (Ok rs, snd two_tokens)) by (rewrite <- E; apply surjective_pairing).
  destruct (admission_needs_last_token (fun s => s) (fun _ => false) ["Bearer key"; "Bearer key"]%string
    (mkAuth one_node 0 0) rs (snd two_tokens) (nth_token 1) n) as (i & hdr & tok & ts & Hi & _ & _ & Hk & _).
  - exact one_node_inv.
  - intros i x Hx. revert Hx. change (nr_rows (au_nodes (mkAuth one_node 0 0))) with (NodesRepo.nodes one_node).
    unfold one_node. cbn. rewrite lookup_insert, lookup_empty. case_decide; [|done]. by intros [= <-].
  - exact E2.
  - exact Ea.
  - exists n, i, hdr. auto.
Defined.

Definition enrolled_sample := Enroll (fun s => s) "env-key" "env-key" sample_daemon sample_panel.
Definition sample_gateway_cat (r : NodesRepo.memNodeRepo) : GatewayCatalogue :=
  mkGatewayCatalogue (fun i => ND_Find r (FindNodeByIDs [i]) [] None) (Ok []) (Ok []).
Definition no_handlers : Handlers (R:=unit) (V:=unit) (Q:=unit) (P:=unit) :=
  mkHandlers None false false None None None None.

Lemma enrolled_daemon_gets_in_witness :
  exists res reg tok, fst enrolled_sample = Ok res /\ fst (CryptoRandomString tokenLength 100%N) = Ok tok /\
    authentic (fun s => s) (sample_gateway_cat (en_nodes (snd enrolled_sample))) no_handlers reg.
Proof.
  assert (E : exists res, fst enrolled_sample = Ok res) by (eexists; vm_compute; reflexivity). destruct E as [res E].
  assert (Et : exists tok, fst (CryptoRandomString tokenLength 100%N) = Ok tok) by (eexists; vm_compute; reflexivity).
  destruct Et as [tok Et]. exists res, (mkRegisterRequest (er_NodeID res) (er_APIKey res) "" [] []), tok.
  split; [exact E|]. split; [exact Et|].
  refine (proj1 (enrolled_daemon_gets_in (fun s => s) "env-key" 0 "env-key" sample_daemon sample_panel res (snd enrolled_sample)
    (mkRegisterRequest (er_NodeID res) (er_APIKey res) "" [] []) (sample_gateway_cat (en_nodes (snd enrolled_sample))) no_handlers (fun _ => false) 100%N 0%N tok (snd (CryptoRandomString tokenLength 100%N)) _ _ memNodeRepo_total _
    eq_refl eq_refl eq_refl eq_refl eq_refl _)).
  - split_and!; [apply NodesRepo.nodes_inv_new|apply CertificatesRepo.certs_inv_new|reflexivity|reflexivity].
  - rewrite <- E. apply surjective_pairing.
  - intros i x Hx. simpl in Hx. by rewrite lookup_empty in Hx.
  - rewrite <- Et. apply surjective_pairing.
Defined.
