(* ===== verification/Metrics.v ===== *)
(** Metrics of daemons as the panel keeps and shows them
    ([internal/metrics/ring.go], [internal/metrics/merge.go],
    [internal/metrics/encoding.go], the series filters of
    [internal/api/ws/metricsbase/filter.go] and
    [internal/api/ws/servermetrics/handler.go]).  A [float64] is its 64 bits; its
    decimal form is a parameter. *)

From S2P Require Import Prelude.
From S2P Require Import GoNum.
From S2P Require Import Domain.
From S2P Require Import GoRuntime.
From stdpp Require Import base tactics strings list gmap numbers sorting.
From Stdlib Require Import NArith ZArith Ascii.

(** ** Messages *)

Definition float64 : Type := N.

Inductive PointValue : Type :=
| DoubleValue (v : float64)
| UintValue (v : N)
| IntValue (v : Z).

(** Timestamps are nanoseconds since 1970; none is 1970 itself. *)
Record MetricPoint : Type := mkPoint {
  mp_Timestamp : Z;
  mp_Value : option PointValue;
  mp_Min : option float64; mp_Max : option float64; mp_Avg : option float64;
  mp_SampleCount : option N;
}.

Record MetricSeries : Type := mkSeries {
  ms_Name : string; ms_Type : Z; ms_Unit : Z;
  ms_Labels : gmap string string;
  ms_Points : list MetricPoint;
}.

Record MetricsResponse : Type := mkMetrics {
  mr_Timestamp : Z;
  mr_CommonLabels : gmap string string;
  mr_Series : list MetricSeries;
  mr_ActualWindowSeconds : N;
}.

(** [t.UnixNano()] of an instant: an [int64]. *)
Definition UnixNano (t : Z) : Z := (t + 2 ^ 63) mod 2 ^ 64 - 2 ^ 63.

(** ** The ring *)

Record ring : Type := mkRing { rg_capacity : nat; rg_entries : list MetricsResponse }.

Definition newRing (capacity : Z) : ring := mkRing (if (capacity <? 1)%Z then 1 else Z.to_nat capacity) [].

Definition Append (entry : option MetricsResponse) (r : ring) : ring :=
  match entry with
  | None => r
  | Some e =>
      if length (rg_entries r) <? rg_capacity r then mkRing (rg_capacity r) (rg_entries r ++ [e])
      else mkRing (rg_capacity r) (drop 1 (rg_entries r) ++ [e])
  end.

(** [idx] of [Snapshot]: how many of the oldest entries are before the cutoff. *)
Fixpoint older (minTimestamp : Z) (entries : list MetricsResponse) : nat :=
  match entries with
  | [] => 0
  | e :: entries => if (mr_Timestamp e <? minTimestamp)%Z then S (older minTimestamp entries) else 0
  end.

Definition Snapshot (minTimestamp : Z) (r : ring) : list MetricsResponse :=
  drop (older minTimestamp (rg_entries r)) (rg_entries r).
Definition Newest (r : ring) : option MetricsResponse := last (rg_entries r).
Definition Len (r : ring) : nat := length (rg_entries r).

(** ** Merging *)

Definition seriesIdentityKey (s : MetricSeries) : string :=
  let labels := ms_Labels s in
  if decide (labels = ∅) then ms_Name s
  else
    let keys := sort_slice (fun a b => match String.compare a b with Lt => true | _ => false end) (elements (dom labels)) in
    foldl (fun b k => b +:+ "|" +:+ k +:+ "=" +:+ default ""%string (labels !! k)) (ms_Name s) keys.

(** A [bucket]: its series and the timestamps seen. *)
Record bucket : Type := mkBucket { bk_series : MetricSeries; bk_seen : gset Z }.

Definition ms_set_points (l : list MetricPoint) (s : MetricSeries) : MetricSeries :=
  mkSeries (ms_Name s) (ms_Type s) (ms_Unit s) (ms_Labels s) l.

Definition add_point (b : bucket) (p : MetricPoint) : bucket :=
  let ts := UnixNano (mp_Timestamp p) in
  if decide (ts ∈ bk_seen b) then b
  else mkBucket (ms_set_points (ms_Points (bk_series b) ++ [p]) (bk_series b)) ({[ts]} ∪ bk_seen b).

Definition add_series (st : gmap string bucket * list string) (s : MetricSeries) : gmap string bucket * list string :=
  let '(buckets, order) := st in
  let key := seriesIdentityKey s in
  let '(b, order) :=
    match buckets !! key with
    | Some b => (b, order)
    | None => (mkBucket (ms_set_points [] s) ∅, order ++ [key])
    end in
  (<[key := foldl add_point b (ms_Points s)]> buckets, order).

Definition by_time (a b : MetricPoint) : bool := (mp_Timestamp a <? mp_Timestamp b)%Z.

Definition mergeResponses (entries : list MetricsResponse) : option MetricsResponse :=
  match entries with
  | [] => None
  | [e] => Some e
  | _ =>
      let '(buckets, order) := foldl (fun st e => foldl add_series st (mr_Series e)) (∅, []) entries in
      let merged := omap (fun key => (fun b => ms_set_points (sort_slice by_time (ms_Points (bk_series b))) (bk_series b)) <$> buckets !! key) order in
      let window := foldl (fun w e => if (w <? mr_ActualWindowSeconds e)%N then mr_ActualWindowSeconds e else w) 0%N entries in
      newest ← last entries;
      Some (mkMetrics (mr_Timestamp newest) (mr_CommonLabels newest) merged window)
  end.

(** ** The wire form *)

Record WirePoint : Type := mkWirePoint {
  wp_Timestamp : Z; wp_Value : string;
  wp_Min : option float64; wp_Max : option float64; wp_Avg : option float64; wp_SampleCount : option N;
}.
Record WireSeries : Type := mkWireSeries {
  ws_Name : string; ws_Type : string; ws_Unit : string; ws_Labels : gmap string string; ws_Points : list WirePoint;
}.
Record WireResponse : Type := mkWireResponse {
  wr_Timestamp : Z; wr_CommonLabels : gmap string string; wr_Series : list WireSeries; wr_ActualWindowSeconds : N;
}.

Definition metricTypeName (t : Z) : string :=
  if (t =? 1)%Z then "gauge" else if (t =? 2)%Z then "counter" else "unspecified".

Definition metricUnitName (u : Z) : string :=
  match u with
  | 1 => "count" | 2 => "percent" | 3 => "ratio" | 10 => "bytes" | 11 => "bits" | 20 => "seconds"
  | 21 => "milliseconds" | 22 => "microseconds" | 23 => "nanoseconds" | 30 => "hertz" | 40 => "celsius"
  | 41 => "watts" | 42 => "volts" | 43 => "rpm" | _ => "unspecified"
  end%Z.

Section wire.
Context (FormatFloat : float64 -> string).

Definition pointValue (p : MetricPoint) : string :=
  match mp_Value p with
  | Some (DoubleValue v) => FormatFloat v
  | Some (UintValue v) => FormatUint v
  | Some (IntValue v) => Itoa v
  | None => ""
  end.

Definition encodePoint (p : MetricPoint) : WirePoint :=
  mkWirePoint (mp_Timestamp p) (pointValue p) (mp_Min p) (mp_Max p) (mp_Avg p) (mp_SampleCount p).

Definition encodeSeries (s : MetricSeries) : WireSeries :=
  mkWireSeries (ms_Name s) (metricTypeName (ms_Type s)) (metricUnitName (ms_Unit s)) (ms_Labels s) (map encodePoint (ms_Points s)).

Definition ToWire (resp : option MetricsResponse) (filter : option (MetricSeries -> bool)) : option WireResponse :=
  match resp with
  | None => None
  | Some r =>
      let series := map encodeSeries (base.filter (fun s => match filter with None => true | Some f => f s end = true) (mr_Series r)) in
      match series with
      | [] => None
      | _ => Some (mkWireResponse (mr_Timestamp r) (mr_CommonLabels r) series (mr_ActualWindowSeconds r))
      end
  end.
End wire.

Definition nodeMetricNamePrefix : string := "gameap_node_".
Definition NodePrefixFilter (s : MetricSeries) : bool := String.prefix nodeMetricNamePrefix (ms_Name s).

Definition serverIDFilter (serverID : N) (s : MetricSeries) : bool :=
  match ms_Labels s !! "server_id"%string with
  | None => false
  | Some raw => String.eqb raw (FormatUint serverID)
  end.

Definition commonLabelNodeID : string := "node_id".
Definition tagNodeID (resp : option MetricsResponse) (nodeID : N) : option MetricsResponse :=
  r ← resp;
  Some (mkMetrics (mr_Timestamp r) (<[commonLabelNodeID := FormatUint nodeID]> (mr_CommonLabels r)) (mr_Series r)
    (mr_ActualWindowSeconds r)).

(** ** The ring keeps the newest entries *)

Lemma newRing_capacity c : rg_capacity (newRing c) = Nat.max 1 (Z.to_nat c).
Proof. unfold newRing. simpl. destruct (Z.ltb_spec c 1); lia. Qed.

Lemma Append_capacity e r : rg_capacity (Append e r) = rg_capacity r.
Proof. unfold Append. destruct e; [|done]. by destruct (_ <? _). Qed.

(** What a ring holds after some appends: the last of them, up to its
    capacity. *)
Definition ring_holds (l : list MetricsResponse) (r : ring) : Prop :=
  rg_entries r = drop (length l - rg_capacity r) l.

Lemma Append_holds e l r :
  1 <= rg_capacity r -> ring_holds l r -> ring_holds (l ++ [e]) (Append (Some e) r).
Proof.
  unfold ring_holds, Append. intros Hc Hl. assert (Hlen : length (rg_entries r) = Nat.min (length l) (rg_capacity r)).
  { rewrite Hl, length_drop. lia. }
  rewrite length_app. simpl. destruct (Nat.ltb_spec (length (rg_entries r)) (rg_capacity r)); simpl.
  - rewrite Hl. replace (length l - rg_capacity r) with 0 by lia. by replace (length l + 1 - rg_capacity r) with 0 by lia.
  - rewrite Hl, drop_drop, drop_app_le by lia. f_equal. f_equal. lia.
Qed.

Lemma filter_all {A} (P : A -> Prop) `{forall x, Decision (P x)} l : Forall P l -> filter P l = l.
Proof. induction 1 as [|x l Hx _ IH]; [done|]. rewrite list.filter_cons, decide_True by done. by rewrite IH. Qed.

Lemma older_spec t l : StronglySorted (fun a b => (mr_Timestamp a <= mr_Timestamp b)%Z) l ->
  drop (older t l) l = filter (fun e => (t <= mr_Timestamp e)%Z) l.
Proof.
  induction 1 as [|e l Hl IH He]; [done|]. cbn [older]. rewrite list.filter_cons. destruct (Z.ltb_spec (mr_Timestamp e) t) as [Hlt|Hge].
  - rewrite decide_False by lia. exact IH.
  - rewrite decide_True by lia. simpl. f_equal. symmetry. apply filter_all. eapply list.Forall_impl; [exact He|]. simpl. lia.
Qed.

(** A ring holds the newest [capacity] responses it was given, in order, and
    when they came in the order of their times a snapshot is exactly those of
    them that are not before the cutoff. *)
Lemma ring_keeps_newest c l t :
  let r := foldl (fun r e => Append e r) (newRing c) l in
  let given := omap id l in
  rg_entries r = drop (length given - Nat.max 1 (Z.to_nat c)) given /\
  (StronglySorted (fun a b => (mr_Timestamp a <= mr_Timestamp b)%Z) given ->
   Snapshot t r = filter (fun e => (t <= mr_Timestamp e)%Z) (drop (length given - Nat.max 1 (Z.to_nat c)) given)).
Proof.
  intros r given.
  assert (Hr : ring_holds given r /\ rg_capacity r = Nat.max 1 (Z.to_nat c)).
  { subst r given. rewrite <- (newRing_capacity c). induction l as [|e l IH] using rev_ind; [by split|].
    rewrite foldl_app, omap_app. simpl. rewrite Append_capacity. destruct IH as [IH Hcap]. split; [|done].
    destruct e as [e|]; simpl; [|by rewrite app_nil_r]. apply Append_holds; [|done]. rewrite Hcap, newRing_capacity. lia. }
  destruct Hr as [Hr Hcap]. unfold ring_holds in Hr. rewrite Hcap in Hr. split; [done|]. intros Hs. unfold Snapshot. rewrite Hr.
  apply older_spec. rewrite <- (take_drop (length given - Nat.max 1 (Z.to_nat c)) given) in Hs.
  by eapply StronglySorted_app_1_r.
Qed.

(** ** Merged responses *)

Abbreviation nano p := (UnixNano (mp_Timestamp p)).

(** The points whose time was not seen before. *)
Fixpoint distinct (seen : gset Z) (l : list MetricPoint) : list MetricPoint :=
  match l with
  | [] => []
  | p :: l => if decide (nano p ∈ seen) then distinct seen l else p :: distinct ({[nano p]} ∪ seen) l
  end.

Abbreviation times l := (list_to_set (map (fun p => nano p) l) : gset Z).

Lemma distinct_app l1 : forall seen l2, distinct seen (l1 ++ l2) = distinct seen l1 ++ distinct (times l1 ∪ seen) l2.
Proof.
  induction l1 as [|p l1 IH]; intros seen l2; cbn [app distinct map list_to_set].
  - by replace (∅ ∪ seen) with seen by set_solver.
  - case_decide as Hp; rewrite IH; [|cbn [app]].
    + by replace (times l1 ∪ seen) with ({[nano p]} ∪ times l1 ∪ seen) by set_solver.
    + by replace (times l1 ∪ ({[nano p]} ∪ seen)) with ({[nano p]} ∪ times l1 ∪ seen) by set_solver.
Qed.

Lemma distinct_times seen l p : p ∈ distinct seen l -> p ∈ l /\ nano p ∉ seen.
Proof.
  revert seen. induction l as [|q l IH]; intros seen; simpl; [by intros ?%list.elem_of_nil|]. case_decide as Hq.
  - intros [Hp Hs]%IH. set_solver.
  - intros [->|[Hp Hs]%IH]%list.elem_of_cons; set_solver.
Qed.

Lemma distinct_covers seen l p : p ∈ l -> nano p ∉ seen -> exists q, q ∈ distinct seen l /\ nano q = nano p.
Proof.
  revert seen. induction l as [|q l IH]; intros seen; [by intros ?%list.elem_of_nil|]. intros Hin Hs. simpl.
  apply list.elem_of_cons in Hin as [->|Hin].
  - rewrite decide_False by done. exists q. set_solver.
  - case_decide as Hq; [by apply IH|]. destruct (decide (nano p = nano q)) as [Hpq|Hne].
    + exists q. split; [set_solver|done].
    + destruct (IH ({[nano q]} ∪ seen) Hin) as (q' & Hq' & Hn); [set_solver|]. exists q'. set_solver.
Qed.

Lemma distinct_nodup seen l : NoDup (map (fun p => nano p) (distinct seen l)).
Proof.
  revert seen. induction l as [|q l IH]; intros seen; simpl; [constructor|]. case_decide as Hq; [apply IH|].
  simpl. constructor; [|apply IH]. intros (p & Hp & Hin)%list_elem_of_fmap. apply distinct_times in Hin as [_ Hs]. set_solver.
Qed.

Lemma add_points_spec l : forall b,
  foldl add_point b l = mkBucket (ms_set_points (ms_Points (bk_series b) ++ distinct (bk_seen b) l) (bk_series b)) (times l ∪ bk_seen b).
Proof.
  induction l as [|p l IH]; intros b; cbn [foldl distinct map list_to_set].
  - rewrite app_nil_r. destruct b as [[n t u lb pts] seen]. unfold ms_set_points. simpl. f_equal. set_solver.
  - rewrite IH. unfold add_point. case_decide as Hp; simpl; [|rewrite <- app_assoc; simpl]; unfold ms_set_points; simpl; f_equal; set_solver.
Qed.

(** The points of all series with key [k]. *)
Definition points_of (k : string) (all : list MetricSeries) : list MetricPoint :=
  concat (map ms_Points (filter (fun s => seriesIdentityKey s = k) all)).

Lemma points_of_snoc k all s :
  points_of k (all ++ [s]) = points_of k all ++ (if decide (seriesIdentityKey s = k) then ms_Points s else []).
Proof.
  unfold points_of. rewrite list.filter_app, map_app, concat_app, list.filter_cons. f_equal.
  case_decide; simpl; by rewrite ?app_nil_r.
Qed.

Definition same_header (s s0 : MetricSeries) : Prop :=
  ms_Name s = ms_Name s0 /\ ms_Type s = ms_Type s0 /\ ms_Unit s = ms_Unit s0 /\ ms_Labels s = ms_Labels s0.

Lemma same_header_key s s0 : same_header s s0 -> seriesIdentityKey s = seriesIdentityKey s0.
Proof. intros (Hn & _ & _ & Hl). unfold seriesIdentityKey. by rewrite Hn, Hl. Qed.

Record merge_inv (all : list MetricSeries) (st : gmap string bucket * list string) : Prop := {
  mi_nodup : NoDup (snd st);
  mi_order : forall k, k ∈ snd st <-> k ∈ map seriesIdentityKey all;
  mi_some : forall k, k ∈ snd st <-> is_Some (fst st !! k);
  mi_bucket : forall k b, fst st !! k = Some b ->
    (exists s0, s0 ∈ all /\ same_header (bk_series b) s0 /\ seriesIdentityKey s0 = k) /\
    ms_Points (bk_series b) = distinct ∅ (points_of k all) /\ bk_seen b = times (points_of k all);
}.

Lemma points_of_none k all : k ∉ map seriesIdentityKey all -> points_of k all = [].
Proof.
  intros Hk. unfold points_of. assert (E : filter (fun s => seriesIdentityKey s = k) all = []); [|by rewrite E].
  induction all as [|s all IH]; [done|]. simpl in Hk. rewrite list.filter_cons, decide_False by set_solver. apply IH. set_solver.
Qed.

Lemma merge_inv_step all st s : merge_inv all st -> merge_inv (all ++ [s]) (add_series st s).
Proof.
  intros [Hnd Hord Hsome Hbk]. destruct st as [buckets order]. cbn [fst snd] in *. unfold add_series. set (key := seriesIdentityKey s).
  assert (Hkeys : forall k, k ∈ map seriesIdentityKey (all ++ [s]) <-> k ∈ order \/ k = key).
  { intros k. rewrite map_app, list.elem_of_app, Hord. simpl. by rewrite list_elem_of_singleton. }
  assert (Hother : forall k, k <> key -> points_of k (all ++ [s]) = points_of k all).
  { intros k Hk. rewrite points_of_snoc, decide_False by done. apply app_nil_r. }
  assert (Hown : points_of key (all ++ [s]) = points_of key all ++ ms_Points s) by by rewrite points_of_snoc, decide_True.
  destruct (buckets !! key) as [b|] eqn:Eb.
  - assert (Hin : key ∈ order) by (apply Hsome; eauto). destruct (Hbk _ _ Eb) as ((s0 & Hs0 & Hhdr & Hk0) & Hpts & Hseen).
    split; cbn [fst snd]; [done|intros k; rewrite Hkeys; naive_solver| |].
    + intros k. rewrite lookup_insert, Hsome. case_decide as Hk; [|done]. subst k. rewrite Eb. naive_solver.
    + intros k b'. rewrite lookup_insert. case_decide as Hk; [subst k; intros [= <-]|intros E].
      * rewrite add_points_spec. simpl. rewrite Hown, distinct_app, Hpts, Hseen. split; [exists s0; set_solver|].
        split; [by replace (times (points_of key all) ∪ ∅) with (times (points_of key all)) by set_solver|]. rewrite map_app, list_to_set_app_L. set_solver.
      * destruct (Hbk _ _ E) as ((s1 & Hs1 & Hh1 & Hk1) & Hp1 & Hseen1). rewrite Hother by done. split; [exists s1; set_solver|done].
  - assert (Hnin : key ∉ order) by (intros Hin%Hsome; rewrite Eb in Hin; by destruct Hin).
    split; cbn [fst snd].
    + apply list.NoDup_app. split_and!; [done|intros k Hk ->%list_elem_of_singleton; done|apply list.NoDup_singleton].
    + intros k. rewrite Hkeys, list.elem_of_app, list_elem_of_singleton. done.
    + intros k. rewrite list.elem_of_app, list_elem_of_singleton, lookup_insert, Hsome. case_decide; naive_solver.
    + intros k b'. rewrite lookup_insert. case_decide as Hk; [subst k; intros [= <-]|intros E].
      * rewrite add_points_spec. simpl. rewrite Hown, (points_of_none key all) by by rewrite <- Hord. simpl.
        split; [exists s; split; [set_solver|by split]|]. split; [done|]. set_solver.
      * destruct (Hbk _ _ E) as ((s1 & Hs1 & Hh1 & Hk1) & Hp1 & Hseen1). rewrite Hother by done. split; [exists s1; set_solver|done].
Qed.

Lemma merge_inv_fold l : forall all st, merge_inv all st -> merge_inv (all ++ l) (foldl add_series st l).
Proof.
  induction l as [|s l IH]; intros all st Hi; simpl; [by rewrite app_nil_r|].
  replace (all ++ s :: l) with ((all ++ [s]) ++ l) by by rewrite <- app_assoc. by apply IH, merge_inv_step.
Qed.

Lemma merge_inv_entries entries : forall all st, merge_inv all st ->
  merge_inv (all ++ concat (map mr_Series entries)) (foldl (fun st e => foldl add_series st (mr_Series e)) st entries).
Proof.
  induction entries as [|e entries IH]; intros all st Hi; simpl; [by rewrite app_nil_r|].
  rewrite app_assoc. by apply IH, merge_inv_fold.
Qed.

Definition finish (b : bucket) : MetricSeries := ms_set_points (sort_slice by_time (ms_Points (bk_series b))) (bk_series b).

Lemma merged_keys all st : merge_inv all st -> forall l, (forall k, k ∈ l -> k ∈ snd st) ->
  map seriesIdentityKey (omap (fun key => finish <$> fst st !! key) l) = l.
Proof.
  intros Hi l. induction l as [|k l IH]; intros Hl; [done|].
  destruct (proj1 (mi_some _ _ Hi k)) as [b Hb]; [apply Hl; set_solver|].
  change (omap (fun key => finish <$> fst st !! key) (k :: l)) with
    (match finish <$> fst st !! k with Some y => y :: omap (fun key => finish <$> fst st !! key) l | None => omap (fun key => finish <$> fst st !! key) l end).
  rewrite Hb. cbn [fmap option_fmap option_map map].
  rewrite IH by (intros k' Hk'; apply Hl; set_solver). f_equal.
  destruct (mi_bucket _ _ Hi _ _ Hb) as ((s0 & _ & Hh & Hk) & _). rewrite <- Hk. by apply same_header_key.
Qed.

Definition larger (w : N) (e : MetricsResponse) : N := if (w <? mr_ActualWindowSeconds e)%N then mr_ActualWindowSeconds e else w.

Lemma window_max entries : forall w, let m := foldl larger w entries in
  (w <= m)%N /\ (forall e, e ∈ entries -> (mr_ActualWindowSeconds e <= m)%N) /\
  (m = w \/ exists e, e ∈ entries /\ m = mr_ActualWindowSeconds e).
Proof.
  induction entries as [|e entries IH]; intros w; cbn [foldl].
  - split; [lia|]. split; [by intros e ?%list.elem_of_nil|by left].
  - destruct (IH (larger w e)) as (Hw & Hall & Hex). assert (Hl : (w <= larger w e /\ mr_ActualWindowSeconds e <= larger w e)%N)
      by (unfold larger; destruct (N.ltb_spec w (mr_ActualWindowSeconds e)); lia).
    cbv zeta in *. split; [lia|]. split.
    + intros e' [->|He]%list.elem_of_cons; [lia|by apply Hall].
    + destruct Hex as [Hm|(e' & He & Hm)]; [|right; exists e'; split; [set_solver|done]].
      rewrite Hm. unfold larger. destruct (w <? _)%N; [right; exists e; split; [set_solver|done]|by left].
Qed.

Lemma elem_of_concat {A} (x : A) ll : x ∈ concat ll <-> exists l, x ∈ l /\ l ∈ ll.
Proof.
  induction ll as [|l ll IH]; simpl; [split; [by intros ?%list.elem_of_nil|by intros (l & _ & ?%list.elem_of_nil)]|].
  rewrite list.elem_of_app, IH. setoid_rewrite list.elem_of_cons. naive_solver.
Qed.

Lemma by_time_sorted l : StronglySorted (fun a b => (mp_Timestamp a <= mp_Timestamp b)%Z) (sort_slice by_time l).
Proof.
  assert (Hs : StronglySorted (not_less by_time) (sort_slice by_time l)).
  { apply sort_slice_strongly_sorted; unfold by_time.
    - intros a b. rewrite Z.ltb_lt, Z.ltb_ge. lia.
    - intros a b c. unfold not_less. rewrite !Z.ltb_ge. lia. }
  induction Hs as [|a l' Hl IH Ha]; constructor; [done|]. eapply Forall_impl; [exact Ha|]. intros b. unfold not_less, by_time. by rewrite Z.ltb_ge.
Qed.

(** Merging several responses gives one series per identity key, each with
    the name, kind and labels of an input series of that key; its points are
    those of all input series of the key, the first of each instant, in order
    of time; the newest response gives time and common labels, the longest
    window counts. *)
Lemma merge_groups_series entries :
  2 <= length entries ->
  exists newest r, last entries = Some newest /\ mergeResponses entries = Some r /\
    (let all := concat (map mr_Series entries) in
     NoDup (map seriesIdentityKey (mr_Series r)) /\
     (forall k, k ∈ map seriesIdentityKey (mr_Series r) <-> k ∈ map seriesIdentityKey all) /\
     forall s, s ∈ mr_Series r ->
       (exists s0, s0 ∈ all /\ same_header s s0) /\
       StronglySorted (fun a b => (mp_Timestamp a <= mp_Timestamp b)%Z) (ms_Points s) /\
       NoDup (map (fun p => nano p) (ms_Points s)) /\
       (forall p, p ∈ ms_Points s -> exists s0, s0 ∈ all /\ seriesIdentityKey s0 = seriesIdentityKey s /\ p ∈ ms_Points s0) /\
       (forall s0 p, s0 ∈ all -> seriesIdentityKey s0 = seriesIdentityKey s -> p ∈ ms_Points s0 ->
          exists q, q ∈ ms_Points s /\ nano q = nano p)) /\
    mr_Timestamp r = mr_Timestamp newest /\ mr_CommonLabels r = mr_CommonLabels newest /\
    (forall e, e ∈ entries -> (mr_ActualWindowSeconds e <= mr_ActualWindowSeconds r)%N) /\
    (mr_ActualWindowSeconds r = 0%N \/ exists e, e ∈ entries /\ mr_ActualWindowSeconds r = mr_ActualWindowSeconds e).
Proof.
  intros Hlen. destruct entries as [|e1 [|e2 es]]; [simpl in Hlen; lia..|]. set (entries := e1 :: e2 :: es).
  assert (Hi : merge_inv (concat (map mr_Series entries)) (foldl (fun st e => foldl add_series st (mr_Series e)) (∅, []) entries)).
  { apply (merge_inv_entries entries []). split; simpl; [constructor|set_solver| |by intros k b ?]; intros k; rewrite lookup_empty, is_Some_alt; set_solver. }
  destruct (last entries) as [newest|] eqn:El; [|by apply last_None in El].
  unfold mergeResponses. fold entries. rewrite El.
  destruct (foldl _ (∅, []) entries) as [buckets order] eqn:Est. exists newest. eexists. split; [done|]. split; [reflexivity|].
  change (foldl _ 0%N entries) with (foldl larger 0%N entries). cbn [mr_Series mr_Timestamp mr_CommonLabels mr_ActualWindowSeconds].
  pose proof (merged_keys _ _ Hi order (fun _ H => H)) as Hkeys. cbn [fst snd] in Hkeys.
  change (omap _ order) with (omap (fun key => finish <$> buckets !! key) order). rewrite Hkeys.
  destruct (window_max entries 0) as (_ & Hwall & Hwex).
  refine (conj _ (conj eq_refl (conj eq_refl (conj Hwall Hwex)))). cbv zeta.
  split_and!; [apply (mi_nodup _ _ Hi)|apply (mi_order _ _ Hi)|].
  intros s (k & Hk & Hs)%list_elem_of_omap. destruct (buckets !! k) as [b|] eqn:Eb; [|done]. injection Hs as <-.
  destruct (mi_bucket _ _ Hi _ _ Eb) as ((s0 & Hs0 & Hh & Hk0) & Hpts & _).
  assert (Hkey : seriesIdentityKey (finish b) = k) by (rewrite <- Hk0; by apply same_header_key).
  assert (Hperm : ms_Points (finish b) ≡ₚ distinct ∅ (points_of k (concat (map mr_Series entries)))) by (simpl; by rewrite sort_slice_perm, Hpts).
  rewrite Hkey. split_and!.
  - by exists s0.
  - apply by_time_sorted.
  - rewrite Hperm. apply distinct_nodup.
  - intros p. rewrite Hperm. intros [Hp _]%distinct_times. unfold points_of in Hp.
    apply elem_of_concat in Hp as (l & Hl & (s1 & -> & [Hk1 Hs1]%list_elem_of_filter)%list_elem_of_fmap). eauto.
  - intros s1 p Hs1 Hk1 Hp. destruct (distinct_covers ∅ (points_of k (concat (map mr_Series entries))) p) as (q & Hq & Hn); [|set_solver|].
    + apply elem_of_concat. exists (ms_Points s1). split; [done|]. apply list_elem_of_fmap. exists s1. split; [done|].
      by apply list_elem_of_filter.
    + exists q. by rewrite Hperm.
Qed.

(** Series with different labels can have one key, since labels are joined
    without quoting: their points end up in one series. *)
Definition plain_series (labels : gmap string string) (t : Z) : MetricSeries :=
  mkSeries "load" 1 2 labels [mkPoint t (Some (UintValue 1)) None None None None].

Lemma identity_keys_collide :
  exists a b, ms_Labels a <> ms_Labels b /\ seriesIdentityKey a = seriesIdentityKey b /\
    (length ∘ mr_Series <$> mergeResponses [mkMetrics 0 ∅ [a] 0; mkMetrics 1 ∅ [b] 0]) = Some 1.
Proof.
  exists (plain_series {["disk" := "a|part=b"]} 0), (plain_series {["disk" := "a"; "part" := "b"]} 1)%string.
  split; [intros E; apply (f_equal (lookup "part"%string)) in E; by vm_compute in E|]. split; vm_compute; reflexivity.
Qed.

