(* ===== verification/MetricsHandler.v ===== *)
(** The handler of the metrics daemons send
    ([internal/grpc/handlers/metrics_handler.go]): answers are matched with the
    requests that wait for them, series about servers of other nodes are
    dropped, and the rest is published for the live viewers of the node or for
    the instance that asked. *)

From S2P Require Import Prelude.
From S2P Require Import GoNum.
From S2P Require Import Domain.
From S2P Require Import GoRuntime.
From S2P Require Import Repositories.
From S2P Require Import PubSub.
From S2P Require Import World.
From S2P Require Import ServersRepo.
From S2P Require Import Metrics.
From stdpp Require Import base tactics strings list gmap numbers.
From Stdlib Require Import NArith ZArith Ascii.

Record metricsWaiter : Type := mkWaiter { mw_nodeID : N; mw_remoteInstanceID : string }.

(** The waiters, the bus, and how often ids and times were made. *)
Record MetricsState (P : Type) : Type := mkMetricsState {
  mh_waiters : gmap string metricsWaiter; mh_bus : P; mh_clock : N;
}.
Arguments mkMetricsState {P}.
Arguments mh_waiters {P}. Arguments mh_bus {P}. Arguments mh_clock {P}.

Section handler.
Context {V P : Type} `{ServerRepository V} `{Publisher P} (stamp : N -> Stamp).
Context (MarshalVT : MetricsResponse -> result string) (hasPublisher hasServerRepo : bool) (serverRepo : V).

Abbreviation S := (MetricsState P).

Definition set_waiters (w : gmap string metricsWaiter) (s : S) : S := mkMetricsState w (mh_bus s) (mh_clock s).

Definition RegisterPollWaiter (requestID : string) (nodeID : N) : M S unit :=
  modify (fun s => set_waiters (<[requestID := mkWaiter nodeID ""]> (mh_waiters s)) s).
Definition RegisterRemoteWaiter (requestID : string) (nodeID : N) (requesterInstanceID : string) : M S unit :=
  modify (fun s => set_waiters (<[requestID := mkWaiter nodeID requesterInstanceID]> (mh_waiters s)) s).
Definition CancelWaiter (requestID : string) : M S unit :=
  modify (fun s => set_waiters (delete requestID (mh_waiters s)) s).

Definition server_label (s : MetricSeries) : option string := ms_Labels s !! "server_id"%string.

Definition set_series (l : list MetricSeries) (r : MetricsResponse) : MetricsResponse :=
  mkMetrics (mr_Timestamp r) (mr_CommonLabels r) l (mr_ActualWindowSeconds r).

(** The response with what may be published, or nothing when the servers
    cannot be looked up. *)
Definition filterUntrustedSeries (nodeID : N) (resp : MetricsResponse) : result (option MetricsResponse) :=
  if negb hasServerRepo || bool_decide (mr_Series resp = []) then Ok (Some resp)
  else if negb (existsb (fun s => match server_label s with Some _ => true | None => false end) (mr_Series resp)) then Ok (Some resp)
  else
    match SV_FindByDSID serverRepo nodeID with
    | Panic w => Panic w
    | Err _ => Ok None
    | Ok servers =>
        let allowed := map (fun s => FormatUint (sv_ID s)) servers in
        Ok (Some (set_series (filter (fun s => match server_label s with
                                               | Some raw => bool_decide (raw ∈ allowed)
                                               | None => true
                                               end = true) (mr_Series resp)) resp))
    end.

Definition publish_message {T} `{Payload T} (channel msgType : string) (payload : T) : M S unit := fun s =>
  let st := stamp (mh_clock s) in
  let s := mkMetricsState (mh_waiters s) (mh_bus s) (mh_clock s + 1) in
  match NewMessage st channel msgType payload with
  | Ok msg =>
      match publish channel msg (mh_bus s) with
      | (Panic w, p) => (Panic w, mkMetricsState (mh_waiters s) p (mh_clock s))
      | (_, p) => (Ok tt, mkMetricsState (mh_waiters s) p (mh_clock s))
      end
  | Err _ => (Ok tt, s)
  | Panic w => (Panic w, s)
  end.

Definition publishLiveFanout (nodeID : N) (data : string) : M S unit :=
  publish_message (BuildRealtimeMetricsChannel nodeID) TypeMetricsLive (mkMetricsLivePayload nodeID data).
Definition publishRemoteReply (requesterInstanceID requestID : string) (nodeID : N) (data : string) : M S unit :=
  publish_message (BuildDaemonMetricsResponseChannel requesterInstanceID) TypeDaemonMetricsResponse
    (mkMetricsResponsePayload requestID nodeID "" data).

Definition HandleMetricsResponse (nodeID : N) (requestID : string) (resp : option MetricsResponse) : M S unit :=
  let! s := get in
  match mh_waiters s !! requestID with
  | None => ret tt
  | Some waiter =>
      do! CancelWaiter requestID ;;
      if negb hasPublisher then ret tt
      else
        match resp with
        | None => lift (Panic "invalid memory address or nil pointer dereference")
        | Some resp =>
            let! filtered := lift (filterUntrustedSeries nodeID resp) in
            match filtered with
            | None => ret tt
            | Some resp =>
                if bool_decide (mr_Series resp = []) then ret tt
                else
                  match MarshalVT resp with
                  | Panic w => lift (Panic w)
                  | Err _ => ret tt
                  | Ok data =>
                      if String.eqb (mw_remoteInstanceID waiter) "" then publishLiveFanout nodeID data
                      else publishRemoteReply (mw_remoteInstanceID waiter) requestID nodeID data
                  end
            end
        end
  end.
End handler.

(** ** What is published *)

Section specs.
Context {V P : Type} `{ServerRepositoryLaws V} `{PublisherLaws P} (stamp : N -> Stamp).
Context (MarshalVT : MetricsResponse -> result string) (serverRepo : V).

Abbreviation S := (MetricsState P).
Abbreviation log s := (bus_log (mh_bus s)).

(** [s] is about the machine or about a server of node [n]. *)
Definition own_series (n : N) (s : MetricSeries) : Prop :=
  match server_label s with
  | None => True
  | Some raw => exists srv, sv_rows serverRepo !! sv_ID srv = Some srv /\ sv_DSID srv = n /\ raw = FormatUint (sv_ID srv)
  end.

Lemma set_series_same r : set_series (mr_Series r) r = r.
Proof. by destruct r. Qed.

Lemma filterUntrustedSeries_spec n resp : sv_inv serverRepo ->
  match filterUntrustedSeries true serverRepo n resp with
  | Ok (Some r) => exists kept, r = set_series kept resp /\ sublist kept (mr_Series resp) /\
      forall x, x ∈ kept <-> x ∈ mr_Series resp /\ own_series n x
  | Ok None => is_ok (SV_FindByDSID serverRepo n) = false
  | _ => False
  end.
Proof.
  intros Hi. unfold filterUntrustedSeries. cbn [negb orb].
  assert (Hall : (forall x, x ∈ mr_Series resp -> own_series n x) -> exists kept, resp = set_series kept resp /\
    sublist kept (mr_Series resp) /\ forall x, x ∈ kept <-> x ∈ mr_Series resp /\ own_series n x).
  { intros Ho. exists (mr_Series resp). rewrite set_series_same. split_and!; [done|done|]. intros x. naive_solver. }
  case_bool_decide as He; [apply Hall; rewrite He; by intros x ?%list.elem_of_nil|].
  destruct (existsb _ (mr_Series resp)) eqn:Ex; cbn [negb].
  2: { apply Hall. intros x Hx. unfold own_series. destruct (server_label x) eqn:El; [|done]. exfalso.
    assert (Ht : existsb (fun s => match server_label s with Some _ => true | None => false end) (mr_Series resp) = true)
      by (apply existsb_exists; exists x; split; [by apply list_elem_of_In|by rewrite El]). congruence. }
  destruct (SV_FindByDSID serverRepo n) as [servers|e|w] eqn:Ef; [|done|by apply sv_node_nopanic in Ef].
  destruct (sv_node_law _ _ _ Hi Ef) as [_ Hel]. eexists. split; [reflexivity|]. split; [apply sublist_filter|].
  intros x. rewrite list_elem_of_filter. unfold own_series. destruct (server_label x) as [raw|]; [|naive_solver].
  rewrite bool_decide_eq_true, list_elem_of_fmap. setoid_rewrite Hel. naive_solver.
Qed.

Lemma publish_message_spec {T} `{Payload T} ch tp (x : T) (s : S) :
  exists s', publish_message stamp ch tp x s = (Ok tt, s') /\ mh_waiters s' = mh_waiters s /\
    (log s' = log s \/ log s' = log s ++ [(ch, tp, to_json x)]) /\
    (bus_reliable P -> log s' = log s ++ [(ch, tp, to_json x)]).
Proof.
  unfold publish_message. cbn [NewMessage]. unfold NewMessage. cbn [mh_bus mh_waiters mh_clock].
  match goal with |- context [publish ch ?m (mh_bus s)] => destruct (publish ch m (mh_bus s)) as [r p] eqn:E; pose proof (bus_law _ _ _ _ _ E) as Hl;
    assert (Hrel : bus_reliable P -> is_ok r = true) by (intros Hrel; specialize (Hrel ch m (mh_bus s)); by rewrite E in Hrel) end.
  simpl in Hl. destruct r as [[]|e|w]; [| |done]; eexists; (split; [reflexivity|]); simpl; rewrite Hl.
  - auto.
  - split; [done|]. split; [by left|]. intros Hr. by apply Hrel in Hr.
Qed.

(** The message for the viewers of node [n], or for the instance that asked. *)
Definition answer (w : metricsWaiter) (n : N) (req data : string) : entry :=
  if String.eqb (mw_remoteInstanceID w) ""
  then (BuildRealtimeMetricsChannel n, TypeMetricsLive, to_json (mkMetricsLivePayload n data))
  else (BuildDaemonMetricsResponseChannel (mw_remoteInstanceID w), TypeDaemonMetricsResponse,
        to_json (mkMetricsResponsePayload req n "" data)).

(** An answer nobody waits for changes nothing.  Otherwise its waiter is
    used up, and at most one message is published, in the name of the node that
    answered: the response with exactly its series about the machine or about
    servers of that node, none about servers of other nodes; and it is
    published when the lookup, the encoding and the bus work and such series
    exist. *)
Lemma metrics_stay_with_their_node n req resp (s : S) r s' :
  sv_inv serverRepo -> (forall m w, MarshalVT m <> Panic w) ->
  HandleMetricsResponse stamp MarshalVT true true serverRepo n req (Some resp) s = (r, s') ->
  r = Ok tt /\
  match mh_waiters s !! req with
  | None => s' = s
  | Some w =>
      let published := exists kept data, kept <> [] /\ sublist kept (mr_Series resp) /\
        (forall x, x ∈ kept <-> x ∈ mr_Series resp /\ own_series n x) /\
        MarshalVT (set_series kept resp) = Ok data /\ log s' = log s ++ [answer w n req data] in
      mh_waiters s' = delete req (mh_waiters s) /\
      (log s' = log s \/ published) /\
      (bus_reliable P -> is_ok (SV_FindByDSID serverRepo n) = true -> (forall m, is_ok (MarshalVT m) = true) ->
       (exists x, x ∈ mr_Series resp /\ own_series n x) -> published)
  end.
Proof.
  intros Hi Hm E. unfold HandleMetricsResponse, bind at 1, get in E. destruct (mh_waiters s !! req) as [w|]; [|by injection E as <- <-].
  unfold bind, CancelWaiter, modify, lift in E. cbn [negb] in E. pose proof (filterUntrustedSeries_spec n resp Hi) as Hf.
  destruct (filterUntrustedSeries true serverRepo n resp) as [[r0|]|e|w0]; [| |done|done].
  2: { injection E as <- <-. split; [done|]. split; [done|]. split; [by left|]. intros _ Hok. by rewrite Hok in Hf. }
  destruct Hf as (kept & -> & Hsub & Hel). simpl in E. case_bool_decide as Hk.
  { injection E as <- <-. split; [done|]. split; [done|]. split; [by left|]. intros _ _ _ (x & Hx). apply Hel in Hx.
    rewrite Hk in Hx. by apply list.elem_of_nil in Hx. }
  destruct (MarshalVT (set_series kept resp)) as [data|e|w0] eqn:Ed; [| |by apply Hm in Ed].
  2: { injection E as <- <-. split; [done|]. split; [done|]. split; [by left|]. intros _ _ Hok _.
    specialize (Hok (set_series kept resp)). by rewrite Ed in Hok. }
  assert (Hpub : exists s2, (Ok tt, s2) = (r, s') /\ mh_waiters s2 = delete req (mh_waiters s) /\
    (log s2 = log s \/ log s2 = log s ++ [answer w n req data]) /\ (bus_reliable P -> log s2 = log s ++ [answer w n req data])).
  { unfold answer. destruct (String.eqb (mw_remoteInstanceID w) ""); unfold publishLiveFanout, publishRemoteReply in E;
      (match type of E with publish_message _ ?ch ?tp ?x ?s0 = _ => destruct (publish_message_spec ch tp x s0) as (s2 & E2 & Hw & Hl & Hrel) end);
      rewrite E2 in E; by exists s2. }
  destruct Hpub as (s2 & [= <- <-] & Hw & Hl & Hrel). split; [done|]. split; [done|].
  assert (Hp : log s2 = log s ++ [answer w n req data] -> exists kept0 data0, kept0 <> [] /\ sublist kept0 (mr_Series resp) /\
    (forall x, x ∈ kept0 <-> x ∈ mr_Series resp /\ own_series n x) /\
    MarshalVT (set_series kept0 resp) = Ok data0 /\ log s2 = log s ++ [answer w n req data0]) by (intros ?; exists kept, data; split_and!; done).
  split; [destruct Hl as [Hl|Hl]; [by left|right; by apply Hp]|]. intros Hr _ _ _. by apply Hp, Hrel.
Qed.
End specs.

(** ** Node 7 answers with series of its server 1 and of a server 9 elsewhere *)

#[local] Existing Instance ticking.

Definition sample_series (server : option N) : MetricSeries :=
  mkSeries "gameap_server_cpu" 1 2 (match server with Some i => {["server_id"%string := FormatUint i]} | None => ∅ end) [].
Definition sample_answer : MetricsResponse := mkMetrics 1 ∅ [sample_series (Some 1%N); sample_series (Some 9%N); sample_series None] 0.
Definition count_series (r : MetricsResponse) : result string := Ok (Itoa (Z.of_nat (length (mr_Series r)))).
Definition waiting_for_poll : MetricsState (list entry) := mkMetricsState {["r1"%string := mkWaiter 7 ""]} [] 0.

Definition sample_handled := HandleMetricsResponse (fun _ => mkStamp "m" 1) count_series true true sample_servers 7 "r1"
  (Some sample_answer) waiting_for_poll.

