(* ===== verification/MetricsHub.v ===== *)
(** The metrics hub ([internal/metrics/hub.go],
    [internal/metrics/subscription.go], [internal/metrics/contracts.go]): the
    viewers of each node, the ring of its samples, the polling of connected
    nodes while anybody on any instance is watching, and history requests.
    Each method is one step, except that other steps may happen while a history
    request waits for its answer.  The registry of connections is used through
    an interface; decoding is a parameter. *)

From S2P Require Import Prelude.
From S2P Require Import GoNum.
From S2P Require Import Domain.
From S2P Require Import GoRuntime.
From S2P Require Import PubSub.
From S2P Require Import World.
From S2P Require Import Metrics.
From S2P Require Import MetricsHandler.
From stdpp Require Import base tactics strings list gmap numbers.
From Stdlib Require Import NArith ZArith Ascii.

Definition maxHistoryWindow : Z := 24 * 60 * minute.

(** ** Options *)

Record Options : Type := mkOptions {
  PollInterval : Z; ReplayWindow : Z; RingMaxAge : Z; HeartbeatInterval : Z;
  HeartbeatTTL : Z; StopDebounce : Z; HistoryTimeout : Z; SamplesBuffer : Z;
}.

Definition or_default (v d : Z) : Z := if (v <=? 0)%Z then d else v.
Definition applyDefaults (o : Options) : Options :=
  mkOptions (or_default (PollInterval o) (5 * second)) (or_default (ReplayWindow o) (30 * minute))
    (or_default (RingMaxAge o) (30 * minute)) (or_default (HeartbeatInterval o) (5 * second))
    (or_default (HeartbeatTTL o) (15 * second)) (or_default (StopDebounce o) (5 * second))
    (or_default (HistoryTimeout o) (10 * second)) (or_default (SamplesBuffer o) 64).
Definition ringCapacity (o : Options) : Z :=
  if (PollInterval o <=? 0)%Z then 1 else Z.max (Z.quot (RingMaxAge o) (PollInterval o)) 1.

(** ** State *)

(** A [subscription]: its channel with what is in it. *)
Record subscription : Type := mkSub {
  sb_nodeID : N; sb_buffer : nat; sb_queue : list MetricsResponse; sb_closed : bool; sb_unsubscribed : bool;
}.

Definition deliver (entry : MetricsResponse) (s : subscription) : subscription :=
  if sb_closed s then s
  else if length (sb_queue s) <? sb_buffer s
  then mkSub (sb_nodeID s) (sb_buffer s) (sb_queue s ++ [entry]) (sb_closed s) (sb_unsubscribed s)
  else s.
(** A viewer reads its channel. *)
Definition receive (s : subscription) : subscription :=
  mkSub (sb_nodeID s) (sb_buffer s) (drop 1 (sb_queue s)) (sb_closed s) (sb_unsubscribed s).
Definition closeChannel (s : subscription) : subscription :=
  mkSub (sb_nodeID s) (sb_buffer s) (sb_queue s) true (sb_unsubscribed s).
Definition mark_unsubscribed (s : subscription) : subscription :=
  mkSub (sb_nodeID s) (sb_buffer s) (sb_queue s) (sb_closed s) true.

Record remoteCountEntry : Type := mkRemoteCount { rc_count : Z; rc_expires : time }.

(** [ns_subscribers] is [None] for the nil map [Stop] leaves; [ns_polling] is
    whether [pollCancel] is set, that is whether a poll loop runs. *)
Record nodeState : Type := mkNodeState {
  ns_localCount : Z;
  ns_subscribers : option (gset N);
  ns_ring : ring;
  ns_remoteCounts : gmap string remoteCountEntry;
  ns_aggregatedCount : Z;
  ns_polling : bool;
  ns_stopTimer : bool;
}.
Definition ns_set_local (c : Z) (subs : option (gset N)) (s : nodeState) : nodeState :=
  mkNodeState c subs (ns_ring s) (ns_remoteCounts s) (ns_aggregatedCount s) (ns_polling s) (ns_stopTimer s).
Definition ns_set_ring (r : ring) (s : nodeState) : nodeState :=
  mkNodeState (ns_localCount s) (ns_subscribers s) r (ns_remoteCounts s) (ns_aggregatedCount s) (ns_polling s) (ns_stopTimer s).
Definition ns_set_remote (m : gmap string remoteCountEntry) (s : nodeState) : nodeState :=
  mkNodeState (ns_localCount s) (ns_subscribers s) (ns_ring s) m (ns_aggregatedCount s) (ns_polling s) (ns_stopTimer s).
Definition ns_set_poll (aggregated : Z) (polling timer : bool) (s : nodeState) : nodeState :=
  mkNodeState (ns_localCount s) (ns_subscribers s) (ns_ring s) (ns_remoteCounts s) aggregated polling timer.

Inductive MetricsRequest : Type := CurrentMetrics | MetricsHistory (seconds : N).

(** The part of the session registry the hub needs. *)
Class MetricsRegistry (G : Type) : Type := {
  IsConnected : G -> N -> bool;
  IsConnectedAnywhere : G -> N -> bool;
  SendMetricsRequest : N -> string -> MetricsRequest -> M G unit;
}.

(** [hu_subs] are the subscriptions ever made; a history waiter is its channel,
    which holds at most one result; [hu_handler] is the metrics handler with
    the bus and the clock. *)
Record Hub (P G : Type) : Type := mkHub {
  hu_started : bool;
  hu_states : gmap N nodeState;
  hu_subs : gmap N subscription;
  hu_history : gmap string (option (result (option MetricsResponse)));
  hu_handler : MetricsState P;
  hu_registry : G;
}.
Arguments mkHub {P G}.
Arguments hu_started {P G}. Arguments hu_states {P G}. Arguments hu_subs {P G}. Arguments hu_history {P G}.
Arguments hu_handler {P G}. Arguments hu_registry {P G}.

Section hub.
Context {P G : Type} `{Publisher P} `{MetricsRegistry G} (stamp : N -> Stamp).
Context (UnmarshalVT : string -> result MetricsResponse) (instanceID : string) (opts : Options).

Abbreviation S := (Hub P G).

Definition set_states (m : gmap N nodeState) (s : S) : S :=
  mkHub (hu_started s) m (hu_subs s) (hu_history s) (hu_handler s) (hu_registry s).
Definition set_subs (m : gmap N subscription) (s : S) : S :=
  mkHub (hu_started s) (hu_states s) m (hu_history s) (hu_handler s) (hu_registry s).
Definition set_history (m : gmap string (option (result (option MetricsResponse)))) (s : S) : S :=
  mkHub (hu_started s) (hu_states s) (hu_subs s) m (hu_handler s) (hu_registry s).
Definition set_registry (g : G) (s : S) : S :=
  mkHub (hu_started s) (hu_states s) (hu_subs s) (hu_history s) (hu_handler s) g.
Definition on_handler {B} (x : M (MetricsState P) B) : M S B :=
  zoom hu_handler (fun m s => mkHub (hu_started s) (hu_states s) (hu_subs s) (hu_history s) m (hu_registry s)) x.
Definition on_registry {B} (x : M G B) : M S B := zoom hu_registry set_registry x.

(** [NewHub], and [Start], whose three subscriptions may fail. *)
Definition NewHub (h : MetricsState P) (g : G) : S := mkHub false ∅ ∅ ∅ h g.
Definition Start (subscribe : string -> result unit) : M S unit :=
  let! s := get in
  if hu_started s then ret tt
  else
    do! modify (fun s => mkHub true (hu_states s) (hu_subs s) (hu_history s) (hu_handler s) (hu_registry s)) ;;
    do! wrap "subscribe to realtime metrics" (lift (subscribe RealtimeMetricsAll)) ;;
    do! wrap "subscribe to metrics subscribers" (lift (subscribe MetricsSubscribersAll)) ;;
    wrap "subscribe to metrics response" (lift (subscribe (BuildDaemonMetricsResponseChannel instanceID))).

(** What [idgen.New()] and [time.Now()] return next. *)
Definition next_stamp : M S Stamp := on_handler (fun m =>
  (Ok (stamp (mh_clock m)), mkMetricsState (mh_waiters m) (mh_bus m) (mh_clock m + 1))).

Definition new_state : nodeState := mkNodeState 0 (Some ∅) (newRing (ringCapacity opts)) ∅ 0 false false.
Definition state_of (n : N) (s : S) : nodeState := default new_state (hu_states s !! n).
(** [getOrCreateState], and a change of the state of a node. *)
Definition getOrCreateState (n : N) : M S unit := modify (fun s => set_states (<[n := state_of n s]> (hu_states s)) s).
Definition change (n : N) (f : nodeState -> nodeState) : M S unit := modify (fun s => set_states (alter f n (hu_states s)) s).

Definition publishHeartbeat (n : N) : M S unit :=
  let! s := get in
  let count := ns_localCount (state_of n s) in
  let! st := next_stamp in
  on_handler (publish_message stamp (BuildMetricsSubscribersChannel n) TypeMetricsSubscribers
    (mkMetricsSubscribersPayload instanceID n count (st_now st))).

(** An [int] sum. *)
Definition add_int (a b : Z) : Z := ((a + b + 2 ^ 63) mod 2 ^ 64 - 2 ^ 63)%Z.

(** The remote counts that have not expired, and the number of viewers. *)
Definition unexpired (now : time) (st : nodeState) : gmap string remoteCountEntry :=
  filter (fun e => negb (rc_expires e.2 <? now)%Z = true) (ns_remoteCounts st).
Definition aggregate (local : Z) (counts : gmap string remoteCountEntry) : Z :=
  map_fold (fun _ e a => add_int a (rc_count e)) local counts.

Definition maybeStartOrStopPoll (n : N) : M S unit :=
  let! s := get in
  if negb (IsConnected (hu_registry s) n) then ret tt
  else
    let! st := next_stamp in
    change n (fun x =>
      let counts := unexpired (st_now st) x in
      let aggregated := aggregate (ns_localCount x) counts in
      let x := ns_set_remote counts x in
      if (0 <? aggregated)%Z && negb (ns_polling x) then ns_set_poll aggregated true false x
      else if negb (0 <? aggregated)%Z && ns_polling x then ns_set_poll aggregated true true x
      else ns_set_poll aggregated (ns_polling x) (ns_stopTimer x) x).

(** The stop timer goes off. *)
Definition stopPollIfStillIdle (n : N) : M S unit :=
  let! s := get in
  match hu_states s !! n with
  | None => ret tt
  | Some _ =>
      let! st := next_stamp in
      change n (fun x =>
        let counts := unexpired (st_now st) x in
        let aggregated := aggregate (ns_localCount x) counts in
        let x := ns_set_remote counts x in
        ns_set_poll (ns_aggregatedCount x) (if (0 <? aggregated)%Z then ns_polling x else false) false x)
  end.

Definition runPollOnce (n : N) : M S unit :=
  let! s := get in
  if negb (IsConnected (hu_registry s) n) then ret tt
  else
    let! st := next_stamp in
    do! on_handler (RegisterPollWaiter (st_id st) n) ;;
    let! r := attempt (on_registry (SendMetricsRequest n (st_id st) CurrentMetrics)) in
    match r with
    | Err _ => on_handler (CancelWaiter (st_id st))
    | _ => ret tt
    end.

(** *** Messages from the bus *)

Definition CutPrefix (s prefix : string) : option string :=
  if String.prefix prefix s
  then Some (String.substring (String.length prefix) (String.length s - String.length prefix) s) else None.

Definition parseRealtimeMetricsNodeID (channel : string) : result N :=
  match CutPrefix channel RealtimeMetrics with
  | None => Err (ENew "channel is not a realtime metrics channel")
  | Some suffix => wrap_err "parse channel node id" (ParseUint suffix)
  end.

Definition deliver_all (subs : gset N) (entry : MetricsResponse) (m : gmap N subscription) : gmap N subscription :=
  map_imap (fun i sb => Some (if decide (i ∈ subs) then deliver entry sb else sb)) m.

Definition handleLiveSample (msg : Message) : M S unit :=
  match ParsePayload (T := MetricsLivePayload) msg, parseRealtimeMetricsNodeID (msg_Channel msg) with
  | Ok payload, Ok channelNodeID =>
      if negb (channelNodeID =? mlp_NodeID payload)%N then ret tt
      else
        match UnmarshalVT (mlp_Data payload) with
        | Ok resp =>
            let n := mlp_NodeID payload in
            do! getOrCreateState n ;;
            do! change n (fun x => ns_set_ring (Append (Some resp) (ns_ring x)) x) ;;
            modify (fun s => set_subs (deliver_all (default ∅ (ns_subscribers (state_of n s))) resp (hu_subs s)) s)
        | Err _ => ret tt
        | Panic w => lift (Panic w)
        end
  | _, _ => ret tt
  end.

Definition handleSubscribersHeartbeat (msg : Message) : M S unit :=
  match ParsePayload (T := MetricsSubscribersPayload) msg with
  | Ok payload =>
      if String.eqb (mbp_InstanceID payload) instanceID then ret tt
      else
        let n := mbp_NodeID payload in
        do! getOrCreateState n ;;
        do! (if (mbp_Count payload <=? 0)%Z then change n (fun x => ns_set_remote (delete (mbp_InstanceID payload) (ns_remoteCounts x)) x)
             else
               let! st := next_stamp in
               change n (fun x => ns_set_remote
                 (<[mbp_InstanceID payload := mkRemoteCount (mbp_Count payload) (st_now st + HeartbeatTTL opts)]> (ns_remoteCounts x)) x)) ;;
        maybeStartOrStopPoll n
  | _ => ret tt
  end.

(** The [historyResult] in a reply. *)
Definition history_result (payload : DaemonMetricsResponsePayload) : result (option MetricsResponse) :=
  if negb (String.eqb (msp_Error payload) "") then Err (ENew (msp_Error payload))
  else if 0 <? String.length (msp_Data payload)
  then match UnmarshalVT (msp_Data payload) with
       | Ok resp => Ok (Some resp)
       | Err e => Err (EWrap "unmarshal metrics history response" e)
       | Panic w => Panic w
       end
  else Ok None.

Definition handleHistoryReply (msg : Message) : M S unit :=
  match ParsePayload (T := DaemonMetricsResponsePayload) msg with
  | Ok payload =>
      let! s := get in
      match hu_history s !! msp_RequestID payload with
      | None => ret tt
      | Some waiting =>
          let res := history_result payload in
          match res, waiting with
          | Panic w, _ => lift (Panic w)
          | _, None => modify (fun s => set_history (<[msp_RequestID payload := Some res]> (hu_history s)) s)
          | _, Some _ => ret tt
          end
      end
  | _ => ret tt
  end.

(** One tick of [heartbeatLoop]. *)
Definition broadcastHeartbeats `{MapOrder} : M S unit :=
  let! s := get in
  for_each (range (mh_clock (hu_handler s)) (hu_states s))
    (fun x => if (ns_localCount x.2 =? 0)%Z then ret tt else publishHeartbeat x.1).

(** *** Viewers *)

(** The part of [Subscribe] before the replay is gathered. *)
Definition register_viewer (n : N) : M S N :=
  do! getOrCreateState n ;;
  let! s := get in
  match ns_subscribers (state_of n s) with
  | None => lift (Panic "assignment to entry in nil map")
  | Some subs =>
      let id := fresh (dom (hu_subs s)) in
      do! modify (fun s => set_subs (<[id := mkSub n (Z.to_nat (SamplesBuffer opts)) [] false false]> (hu_subs s)) s) ;;
      do! change n (fun x => ns_set_local (ns_localCount x + 1) (Some ({[id]} ∪ subs)) x) ;;
      do! (if (ns_localCount (state_of n s) + 1 =? 1)%Z then publishHeartbeat n else ret tt) ;;
      do! maybeStartOrStopPoll n ;;
      ret id
  end.

Definition unsubscribe (id n : N) : M S unit :=
  let! s := get in
  match hu_states s !! n with
  | None => modify (fun s => set_subs (alter closeChannel id (hu_subs s)) s)
  | Some st =>
      let st' :=
        match ns_subscribers st with
        | Some subs =>
            if decide (id ∈ subs)
            then ns_set_local (if (0 <? ns_localCount st)%Z then ns_localCount st - 1 else ns_localCount st) (Some (subs ∖ {[id]})) st
            else st
        | None => st
        end in
      do! change n (fun _ => st') ;;
      do! modify (fun s => set_subs (alter closeChannel id (hu_subs s)) s) ;;
      do! publishHeartbeat n ;;
      if (ns_localCount st' =? 0)%Z then maybeStartOrStopPoll n else ret tt
  end.

(** [subscription.Close] *)
Definition Close (id : N) : M S unit :=
  let! s := get in
  match hu_subs s !! id with
  | None => ret tt
  | Some sb =>
      if sb_unsubscribed sb then ret tt
      else
        do! modify (fun s => set_subs (alter mark_unsubscribed id (hu_subs s)) s) ;;
        unsubscribe id (sb_nodeID sb)
  end.

Definition all_viewers (m : gmap N nodeState) : gset N :=
  map_fold (fun _ st acc => default ∅ (ns_subscribers st) ∪ acc) ∅ m.
Definition close_all (ids : gset N) (m : gmap N subscription) : gmap N subscription :=
  map_imap (fun i sb => Some (if decide (i ∈ ids) then closeChannel sb else sb)) m.

(** [Stop]: no loop runs on, every channel is closed. *)
Definition Stop : M S unit := modify (fun s =>
  set_subs (close_all (all_viewers (hu_states s)) (hu_subs s))
    (set_states ((fun x => ns_set_poll (ns_aggregatedCount x) false false (ns_set_local (ns_localCount x) None x)) <$> hu_states s) s)).

(** *** History *)

Definition clamp_window (window : Z) : Z :=
  let w := if (window <=? 0)%Z then ReplayWindow opts else window in
  if (maxHistoryWindow <? w)%Z then maxHistoryWindow else w.

(** How the wait for an answer ends. *)
Inductive waited : Type := Answered | TimedOut | ContextDone (e : error).
(** [select] on the answer and the deadline; other steps happen meanwhile. *)
Context (await : string -> M S waited).

(** [GetHistory] up to the wait: the request is registered and sent. *)
Definition request_history (n : N) (window : Z) : M S (string * result unit) :=
  let! st := next_stamp in
  let id := st_id st in
  do! modify (fun s => set_history (<[id := None]> (hu_history s)) s) ;;
  do! on_handler (RegisterRemoteWaiter id n instanceID) ;;
  let! r := attempt (on_registry (SendMetricsRequest n id (MetricsHistory (Z.to_N (Z.quot window second) mod two32)))) in
  ret (id, r).

(** The deferred clean-up. *)
Definition forget_history (id : string) : M S unit :=
  do! modify (fun s => set_history (delete id (hu_history s)) s) ;; on_handler (CancelWaiter id).

Definition GetHistory (n : N) (window : Z) : M S (option MetricsResponse) :=
  let! s := get in
  if negb (hu_started s) then fail (ENew "metrics hub is not started")
  else
    let window := clamp_window window in
    if negb (IsConnectedAnywhere (hu_registry s) n) then fail (ENew "daemon is not connected")
    else
      let! (id, sent) := request_history n window in
      match sent with
      | Err e => do! forget_history id ;; fail (EWrap "send metrics history request" e)
      | Panic w => do! forget_history id ;; lift (Panic w)
      | Ok _ =>
          let! w := await id in
          let! s := get in
          do! forget_history id ;;
          match w with
          | TimedOut => fail (ENew "metrics history request timed out")
          | ContextDone e => fail e
          | Answered =>
              match hu_history s !! id with
              | Some (Some res) => lift res
              | _ => fail (ENew "metrics history request cancelled")
              end
          end
      end.

Definition replayCoversWindow (entries : list MetricsResponse) (window : Z) (now : Z) : bool :=
  match entries with
  | [] => false
  | e :: _ => negb (now - window + Z.quot window 2 <? mr_Timestamp e)%Z
  end.

Definition mergedReplay (entries : list MetricsResponse) : list MetricsResponse :=
  match mergeResponses entries with None => [] | Some m => [m] end.

(** Instants of the clock, counted from the year 1, as nanoseconds since 1970. *)
Definition unix_nanos (t : time) : Z := (t - 62135596800 * second)%Z.

Definition gatherReplay (n : N) (window : Z) : M S (list MetricsResponse) :=
  let! st := next_stamp in
  let! s := get in
  let entries := Snapshot (unix_nanos (st_now st) - window) (ns_ring (state_of n s)) in
  let! st2 := (match entries with [] => ret st | _ => next_stamp end) in
  if replayCoversWindow entries window (unix_nanos (st_now st2)) then ret (mergedReplay entries)
  else if negb (IsConnectedAnywhere (hu_registry s) n) then ret (mergedReplay entries)
  else
    let! r := attempt (GetHistory n window) in
    match r with
    | Ok (Some resp) =>
        do! change n (fun x => ns_set_ring (Append (Some resp) (ns_ring x)) x) ;;
        ret [resp]
    | Panic w => lift (Panic w)
    | _ => ret (mergedReplay entries)
    end.

Definition Subscribe (n : N) (replayWindow : Z) : M S (N * list MetricsResponse) :=
  let! s := get in
  if negb (hu_started s) then fail (ENew "metrics hub is not started")
  else
    let! id := register_viewer n in
    let! replay := gatherReplay n (clamp_window replayWindow) in
    ret (id, replay).
End hub.

(** ** Steps and what they leave alone *)

Section specs.
Context {P G : Type} `{PublisherLaws P} `{MetricsRegistry G} (stamp : N -> Stamp).
Context (UnmarshalVT : string -> result MetricsResponse) (instanceID : string) (opts : Options).

Abbreviation S := (Hub P G).
Implicit Types s : S.

Abbreviation state n s := (state_of opts n s).
Abbreviation polling n s := (ns_polling (state n s)).

(** Who watches node [n]; the owner and the flags of a subscription. *)
Definition view (n : N) s : Z * option (gset N) := (ns_localCount (state n s), ns_subscribers (state n s)).
Definition flags (i : N) s : option (N * bool * bool) :=
  (fun sb => (sb_nodeID sb, sb_closed sb, sb_unsubscribed sb)) <$> hu_subs s !! i.

(** Nobody came or went, and no node in [X] is polled that was not. *)
Record quiet (X : N -> Prop) s s' : Prop := {
  q_view : forall n, view n s' = view n s;
  q_flags : forall i, flags i s' = flags i s;
  q_poll : forall n, X n -> polling n s = false -> polling n s' = false;
}.

Lemma quiet_refl X s : quiet X s s.
Proof. by split. Qed.
Lemma quiet_trans X s1 s2 s3 : quiet X s1 s2 -> quiet X s2 s3 -> quiet X s1 s3.
Proof. intros [V1 F1 P1] [V2 F2 P2]. split; intros; [by rewrite V2|by rewrite F2|auto]. Qed.
Lemma quiet_weaken (X Y : N -> Prop) s s' : (forall n, Y n -> X n) -> quiet X s s' -> quiet Y s s'.
Proof. intros HXY [V F Pl]. split; [done|done|]. intros n ?. apply Pl. auto. Qed.

(** A step that only touches the parts no viewer depends on. *)
Lemma quiet_parts X s s' : hu_states s' = hu_states s -> hu_subs s' = hu_subs s -> quiet X s s'.
Proof. intros E1 E2. split; unfold view, flags, state_of; intros; rewrite ?E1, ?E2 in *; done. Qed.

Lemma state_change n m f s : is_Some (hu_states s !! n) ->
  state m (set_states (alter f n (hu_states s)) s) = if decide (n = m) then f (state m s) else state m s.
Proof.
  intros [x Hx]. unfold state_of. simpl. rewrite lookup_alter. case_decide; [|done]. subst. by rewrite Hx.
Qed.

Lemma state_change_none n m f s : hu_states s !! n = None -> state m (set_states (alter f n (hu_states s)) s) = state m s.
Proof. intros Hn. unfold state_of. simpl. rewrite lookup_alter. case_decide; [|done]. subst. by rewrite Hn. Qed.

Lemma wp_change X n f s :
  (forall x, ns_localCount (f x) = ns_localCount x /\ ns_subscribers (f x) = ns_subscribers x /\
     (X n -> ns_polling x = false -> ns_polling (f x) = false)) ->
  wp (change n f) (fun r s' => r = Ok tt /\ quiet X s s' /\ hu_subs s' = hu_subs s /\ hu_registry s' = hu_registry s) s.
Proof.
  intros Hf. unfold wp, change, modify. simpl. split; [done|]. split; [|done].
  assert (Hst : forall m, state m (set_states (alter f n (hu_states s)) s) = state m s \/
    m = n /\ state m (set_states (alter f n (hu_states s)) s) = f (state m s)).
  { intros m. destruct (hu_states s !! n) as [x|] eqn:Hx; [|left; by apply state_change_none].
    rewrite state_change by eauto. case_decide; subst; auto. }
  split; [| |].
  - intros m. unfold view. destruct (Hst m) as [->|[-> ->]]; [done|]. destruct (Hf (state n s)) as (-> & -> & _). done.
  - done.
  - intros m Hm. destruct (Hst m) as [->|[-> ->]]; [done|]. by apply Hf.
Qed.

Lemma wp_getOrCreateState X n s :
  wp (getOrCreateState opts n) (fun r s' => r = Ok tt /\ quiet X s s' /\ hu_subs s' = hu_subs s /\
    (forall m, state m s' = state m s) /\ hu_states s' !! n = Some (state n s) /\ hu_registry s' = hu_registry s) s.
Proof.
  unfold wp, getOrCreateState, modify. simpl. assert (Hst : forall m, state m (set_states (<[n:=state n s]> (hu_states s)) s) = state m s).
  { intros m. unfold state_of at 1. simpl. rewrite lookup_insert. case_decide; subst; done. }
  split_and!; [done| |done|done|by rewrite lookup_insert_eq|done]. split; [intros m; unfold view; by rewrite Hst|done|intros m _; by rewrite Hst].
Qed.

(** Calls of the handler and the registry touch neither states nor viewers. *)
Lemma wp_on_handler {B} (x : M (MetricsState P) B) s Q :
  (forall r m, x (hu_handler s) = (r, m) -> Q r (mkHub (hu_started s) (hu_states s) (hu_subs s) (hu_history s) m (hu_registry s))) ->
  wp (on_handler x) Q s.
Proof. intros HQ. unfold on_handler. apply wp_zoom, wp_intro. auto. Qed.

Lemma wp_next_stamp s (Q : result Stamp -> S -> Prop) :
  (forall m, Q (Ok (stamp (mh_clock (hu_handler s)))) (mkHub (hu_started s) (hu_states s) (hu_subs s) (hu_history s) m (hu_registry s))) ->
  wp (next_stamp stamp) Q s.
Proof. intros HQ. unfold next_stamp. apply wp_on_handler. intros r m [= <- <-]. apply HQ. Qed.

Lemma wp_publishHeartbeat X n s :
  wp (publishHeartbeat stamp instanceID opts n) (fun r s' => r = Ok tt /\ quiet X s s' /\ hu_states s' = hu_states s /\
    hu_subs s' = hu_subs s /\ hu_registry s' = hu_registry s) s.
Proof.
  unfold publishHeartbeat. wp_step. wp_step. wp_step. apply wp_next_stamp. intros m. apply wp_on_handler. simpl. intros r m' E.
  match type of E with publish_message _ ?ch ?tp ?x ?s0 = _ => destruct (publish_message_spec stamp ch tp x s0) as (s2 & E2 & _) end.
  rewrite E2 in E. injection E as <- <-. split_and!; [done|by apply quiet_parts|done..].
Qed.

Lemma wp_maybeStartOrStopPoll n s :
  wp (maybeStartOrStopPoll stamp n) (fun r s' => r = Ok tt /\ quiet (fun m => m <> n \/ IsConnected (hu_registry s) n = false) s s' /\
    hu_subs s' = hu_subs s /\ hu_registry s' = hu_registry s) s.
Proof.
  unfold maybeStartOrStopPoll. wp_step. wp_step. destruct (IsConnected (hu_registry s) n) eqn:Ec; cbn [negb].
  2: { wp_step. split_and!; [done|apply quiet_refl|done..]. }
  wp_step. apply wp_next_stamp. intros m.
  eapply wp_mono; [apply (wp_change (fun m => m <> n \/ true = false))|].
  - intros x. cbv zeta. repeat case_match; simpl; split_and!; (done || intros [?|?]; done).
  - intros r s' (-> & Hq & Hs & Hr). split_and!; [done| |done|done]. eapply quiet_trans; [|exact Hq]. by apply quiet_parts.
Qed.

Lemma quiet_subs X s s' f : hu_states s' = hu_states s ->
  hu_subs s' = f (hu_subs s) ->
  (forall i, (fun sb => (sb_nodeID sb, sb_closed sb, sb_unsubscribed sb)) <$> f (hu_subs s) !! i =
             (fun sb => (sb_nodeID sb, sb_closed sb, sb_unsubscribed sb)) <$> hu_subs s !! i) -> quiet X s s'.
Proof. intros E1 E2 Hf. split; unfold view, flags, state_of; intros; rewrite ?E1, ?E2 in *; done. Qed.

Lemma lookup_deliver_all subs e m i :
  deliver_all subs e m !! i = (fun sb => if decide (i ∈ subs) then deliver e sb else sb) <$> m !! i.
Proof. unfold deliver_all. rewrite map_lookup_imap. by destruct (m !! i). Qed.

Lemma deliver_flags e sb :
  sb_nodeID (deliver e sb) = sb_nodeID sb /\ sb_closed (deliver e sb) = sb_closed sb /\ sb_unsubscribed (deliver e sb) = sb_unsubscribed sb.
Proof. unfold deliver. destruct (sb_closed sb) eqn:E; [done|]. destruct (_ <? _); simpl; rewrite ?E; done. Qed.

(** A sample that is accepted goes to the ring and to the viewers of its node;
    anything else on the channel is dropped. *)
Definition accepted (msg : Message) (n : N) (resp : MetricsResponse) : Prop :=
  exists data, ParsePayload msg = Ok (mkMetricsLivePayload n data) /\
    parseRealtimeMetricsNodeID (msg_Channel msg) = Ok n /\ UnmarshalVT data = Ok resp.

Lemma handleLiveSample_spec X msg s :
  wp (handleLiveSample UnmarshalVT opts msg) (fun r s' => quiet X s s' /\ hu_registry s' = hu_registry s /\
    ((exists n resp, accepted msg n resp /\ r = Ok tt /\
        hu_subs s' = deliver_all (default ∅ (snd (view n s))) resp (hu_subs s) /\
        forall m, ns_ring (state m s') = if decide (m = n) then Append (Some resp) (ns_ring (state m s)) else ns_ring (state m s)) \/
     (forall n resp, ~ accepted msg n resp) /\ s' = s)) s.
Proof.
  unfold handleLiveSample.
  assert (Hno : (forall n resp, ~ accepted msg n resp) -> forall r, (fun r s' => quiet X s s' /\ hu_registry s' = hu_registry s /\
    ((exists n resp, accepted msg n resp /\ r = Ok tt /\ hu_subs s' = deliver_all (default ∅ (snd (view n s))) resp (hu_subs s) /\
        forall m, ns_ring (state m s') = if decide (m = n) then Append (Some resp) (ns_ring (state m s)) else ns_ring (state m s)) \/
     (forall n resp, ~ accepted msg n resp) /\ s' = s)) (r : result unit) s).
  { intros Hn r. split; [apply quiet_refl|]. split; [done|]. by right. }
  destruct (ParsePayload msg) as [payload|e|w] eqn:Ep; [|wp_step; apply Hno; intros n resp (d & Hd & _); congruence..].
  destruct (parseRealtimeMetricsNodeID (msg_Channel msg)) as [c|e|w] eqn:Ec; [|wp_step; apply Hno; intros n resp (d & _ & Hd & _); congruence..].
  destruct (N.eqb_spec c (mlp_NodeID payload)) as [->|Hne]; cbn [negb].
  2: { wp_step. apply Hno. intros n resp (d & Hd & Hc & _). rewrite Ep in Hd. injection Hd as ->. rewrite Ec in Hc. by injection Hc as ->. }
  destruct (UnmarshalVT (mlp_Data payload)) as [resp|e|w] eqn:Eu.
  2,3: wp_step; apply Hno; intros n resp (d & Hd & _ & Hu); rewrite Ep in Hd; injection Hd as ->; simpl in Eu; congruence.
  set (n := mlp_NodeID payload) in *. wp_step. eapply wp_mono; [apply (wp_getOrCreateState X)|].
  intros r s1 (-> & Hq1 & Hs1 & Hst1 & Hin1 & Hr1). wp_step. unfold wp, change, modify. cbn [fst snd].
  set (f := fun x => ns_set_ring (Append (Some resp) (ns_ring x)) x).
  set (s2 := set_states (alter f n (hu_states s1)) s1).
  assert (Hst2 : forall m, state m s2 = if decide (n = m) then f (state m s1) else state m s1) by (intros m; apply state_change; eauto).
  assert (Hview2 : forall m, view m s2 = view m s) by (intros m; unfold view; rewrite Hst2, <- Hst1; by case_decide).
  split; [|split; [exact Hr1|]].
  - split.
    + intros m. exact (Hview2 m).
    + intros i. unfold flags. cbn [hu_subs set_subs]. rewrite lookup_deliver_all. change (hu_subs s2) with (hu_subs s1). rewrite Hs1.
      destruct (hu_subs s !! i) as [sb|]; [|done]. simpl. case_decide; [|done]. f_equal. by destruct (deliver_flags resp sb) as (-> & -> & ->).
    + intros m _ Hm. change (ns_polling (state m s2) = false). rewrite Hst2, Hst1. by case_decide.
  - left. exists n, resp. split; [exists (mlp_Data payload); rewrite Ep; by destruct payload|]. split; [done|]. split.
    + cbn [hu_subs set_subs]. change (hu_subs s2) with (hu_subs s1). rewrite Hs1. by rewrite <- Hview2.
    + intros m. change (ns_ring (state m s2) = (if decide (m = n) then Append (Some resp) (ns_ring (state m s)) else ns_ring (state m s))).
      rewrite Hst2, Hst1. destruct (decide (n = m)) as [->|Hne]; [by rewrite decide_True|by rewrite decide_False by auto].
Qed.

(** Heartbeats: one's own are ignored. *)
Lemma handleSubscribersHeartbeat_spec msg s :
  wp (handleSubscribersHeartbeat stamp instanceID opts msg) (fun r s' => r = Ok tt /\ hu_subs s' = hu_subs s /\ hu_registry s' = hu_registry s /\
    quiet (fun m => forall p, ParsePayload msg = Ok p -> mbp_InstanceID p = instanceID \/ mbp_NodeID p <> m) s s') s.
Proof.
  unfold handleSubscribersHeartbeat. destruct (ParsePayload msg) as [p|e|w] eqn:Ep; [|wp_step; split_and!; try done; apply quiet_refl..].
  destruct (String.eqb_spec (mbp_InstanceID p) instanceID) as [Hi|Hi]; [wp_step; split_and!; try done; apply quiet_refl|].
  set (n := mbp_NodeID p). wp_step. eapply wp_mono; [apply (wp_getOrCreateState (fun m => m <> n))|].
  intros r s1 (-> & Hq1 & Hs1 & _ & _ & Hr1). wp_step.
  assert (Hch : wp (if (mbp_Count p <=? 0)%Z then change n (fun x => ns_set_remote (delete (mbp_InstanceID p) (ns_remoteCounts x)) x)
             else
               let! st := next_stamp stamp in
               change n (fun x => ns_set_remote
                 (<[mbp_InstanceID p := mkRemoteCount (mbp_Count p) (st_now st + HeartbeatTTL opts)]> (ns_remoteCounts x)) x))
    (fun r s2 => r = Ok tt /\ quiet (fun m => m <> n) s1 s2 /\ hu_subs s2 = hu_subs s1 /\ hu_registry s2 = hu_registry s1) s1).
  { destruct (mbp_Count p <=? 0)%Z; [by apply wp_change|]. wp_step. apply wp_next_stamp. intros m.
    eapply wp_mono; [by apply (wp_change (fun m => m <> n))|]. intros r s2 (-> & Hq & ? & ?). split_and!; [done| |done|done].
    eapply quiet_trans; [|exact Hq]. by apply quiet_parts. }
  eapply wp_mono; [exact Hch|]. intros r s2 (-> & Hq2 & Hs2 & Hr2).
  eapply wp_mono; [apply wp_maybeStartOrStopPoll|]. intros r s3 (-> & Hq3 & Hs3 & Hr3).
  split_and!; [done|congruence|congruence|]. eapply (quiet_weaken (fun m => m <> n)).
  - intros m Hm. destruct (Hm p eq_refl) as [?|Hne]; [done|by intros ->].
  - eapply quiet_trans; [exact Hq1|]. eapply quiet_trans; [exact Hq2|]. eapply quiet_weaken; [|exact Hq3]. intros k Hk. by left.
Qed.

Lemma handleHistoryReply_spec X msg s :
  wp (handleHistoryReply UnmarshalVT msg) (fun r s' => quiet X s s' /\ hu_subs s' = hu_subs s /\ hu_registry s' = hu_registry s) s.
Proof.
  assert (Hsame : quiet X s s /\ hu_subs s = hu_subs s /\ hu_registry s = hu_registry s)
    by (split_and!; [apply quiet_refl|done..]).
  unfold handleHistoryReply. destruct (ParsePayload msg) as [p|e|w]; [|wp_step; exact Hsame..].
  do 2 wp_step. destruct (hu_history s !! msp_RequestID p) as [waiting|]; [|wp_step; exact Hsame].
  cbv zeta. destruct (history_result UnmarshalVT p), waiting;
    first [wp_step; exact Hsame | unfold wp, modify; simpl; split_and!; [by apply quiet_parts|done..]].
Qed.

Lemma wp_range {A} (l : list A) (body : A -> M S unit) X s :
  (forall x s0, x ∈ l -> wp (body x) (fun r s' => r = Ok tt /\ quiet X s0 s' /\ hu_subs s' = hu_subs s0 /\ hu_registry s' = hu_registry s0) s0) ->
  wp (for_each l body) (fun r s' => r = Ok tt /\ quiet X s s' /\ hu_subs s' = hu_subs s /\ hu_registry s' = hu_registry s) s.
Proof.
  intros Hb. apply (wp_for_each (fun _ s' => quiet X s s' /\ hu_subs s' = hu_subs s /\ hu_registry s' = hu_registry s)) with (done := []).
  - split_and!; [apply quiet_refl|done..].
  - intros pre x s0 (Hq & Hs & Hr) Hx. eapply wp_mono; [by apply Hb|]. intros r s' (-> & Hq' & Hs' & Hr').
    split_and!; [by eapply quiet_trans|congruence|congruence].
  - by intros s0 Hi.
Qed.

Lemma broadcastHeartbeats_spec `{MapOrder} X s :
  wp (broadcastHeartbeats stamp instanceID opts) (fun r s' => r = Ok tt /\ quiet X s s' /\ hu_subs s' = hu_subs s /\ hu_registry s' = hu_registry s) s.
Proof.
  unfold broadcastHeartbeats. do 2 wp_step. apply wp_range. intros x s0 _. destruct (_ =? 0)%Z.
  - wp_step. split_and!; [done|apply quiet_refl|done..].
  - eapply wp_mono; [apply wp_publishHeartbeat|]. by intros r s' (-> & ? & _ & ? & ?).
Qed.

Lemma stopPollIfStillIdle_spec X n s :
  wp (stopPollIfStillIdle stamp n) (fun r s' => r = Ok tt /\ quiet X s s' /\ hu_subs s' = hu_subs s /\ hu_registry s' = hu_registry s) s.
Proof.
  unfold stopPollIfStillIdle. do 2 wp_step. destruct (hu_states s !! n) as [x|]; [|wp_step; split_and!; [done|apply quiet_refl|done..]].
  wp_step. apply wp_next_stamp. intros m. eapply wp_mono; [apply (wp_change X)|].
  - intros y. simpl. destruct (0 <? _)%Z; split_and!; done.
  - intros r s' (-> & Hq & Hs & Hr). split_and!; [done| |done|done]. eapply quiet_trans; [|exact Hq]. by apply quiet_parts.
Qed.

(** Sending to the daemon changes only the registry. *)
Lemma runPollOnce_spec X n s :
  wp (runPollOnce stamp n) (fun r s' => quiet X s s' /\ hu_subs s' = hu_subs s) s.
Proof.
  unfold runPollOnce. do 2 wp_step. destruct (negb _); [wp_step; split; [apply quiet_refl|done]|].
  wp_step. apply wp_next_stamp. intros m. wp_step. apply wp_on_handler. intros r h [= <- <-].
  do 2 wp_step. unfold on_registry. wp_step. apply wp_intro. intros r g _.
  destruct r; [wp_step|apply wp_on_handler; intros ? ? [= <- <-]|]; (split; [by apply quiet_parts|done]).
Qed.

Lemma request_history_spec X n w s :
  wp (request_history stamp instanceID n w) (fun r s' => quiet X s s' /\ hu_subs s' = hu_subs s) s.
Proof.
  unfold request_history. wp_step. apply wp_next_stamp. intros m. wp_step. unfold wp at 1, modify. simpl.
  wp_step. apply wp_on_handler. intros r h [= <- <-]. do 2 wp_step. unfold on_registry. wp_step. apply wp_intro. intros r g _.
  destruct r; [wp_step|wp_step|]; (split; [by apply quiet_parts|done]).
Qed.

Lemma forget_history_spec X id s :
  wp (forget_history id) (fun r s' => r = Ok tt /\ quiet X s s' /\ hu_subs s' = hu_subs s) s.
Proof.
  unfold forget_history. wp_step. unfold wp at 1, modify. simpl. apply wp_on_handler. intros r h [= <- <-].
  split_and!; [done|by apply quiet_parts|done].
Qed.

(** A new viewer of node [n]. *)
Definition registered (n id : N) s s' : Prop :=
  hu_subs s !! id = None /\
  exists subs, ns_subscribers (state n s) = Some subs /\
    (forall m, view m s' = if decide (m = n) then (ns_localCount (state n s) + 1, Some ({[id]} ∪ subs))%Z else view m s) /\
    (forall i, flags i s' = if decide (i = id) then Some (n, false, false) else flags i s) /\
    (forall m, m <> n \/ IsConnected (hu_registry s) n = false -> polling m s = false -> polling m s' = false).

Lemma Start_spec X subscribe s :
  wp (Start instanceID subscribe) (fun r s' => quiet X s s') s.
Proof.
  unfold Start. do 2 wp_step. destruct (hu_started s); [wp_step; apply quiet_refl|]. wp_step. unfold wp at 1, modify. cbn [fst snd].
  assert (Hq : quiet X s (mkHub true (hu_states s) (hu_subs s) (hu_history s) (hu_handler s) (hu_registry s))) by (by apply quiet_parts).
  destruct (subscribe RealtimeMetricsAll), (subscribe MetricsSubscribersAll); repeat first [exact Hq | wp_step].
Qed.

(** A failed start is not repeated: the next one succeeds without subscribing. *)
Lemma failed_start_is_final subscribe subscribe' s :
  hu_started s = false -> is_ok (fst (Start instanceID subscribe s)) = false ->
  Start instanceID subscribe' (snd (Start instanceID subscribe s)) = (Ok tt, snd (Start instanceID subscribe s)).
Proof.
  intros Hs _. assert (Hst : hu_started (snd (Start instanceID subscribe s)) = true).
  { unfold Start, bind at 1, get. rewrite Hs. unfold bind, modify, wrap, lift.
    destruct (subscribe RealtimeMetricsAll); [|done..]. destruct (subscribe MetricsSubscribersAll); [|done..].
    by destruct (subscribe (BuildDaemonMetricsResponseChannel instanceID)). }
  set (s1 := snd (Start instanceID subscribe s)) in *. unfold Start, bind at 1, get. by rewrite Hst.
Qed.

Lemma receive_spec X id s : quiet X s (set_subs (alter receive id (hu_subs s)) s).
Proof.
  apply quiet_subs with (f := alter receive id); [done..|]. intros i. rewrite lookup_alter. case_decide; [subst|done].
  by destruct (hu_subs s !! i).
Qed.

Lemma register_viewer_spec n s :
  wp (register_viewer stamp instanceID opts n) (fun r s' => hu_registry s' = hu_registry s /\
    match r with
    | Ok id => registered n id s s'
    | Panic _ => ns_subscribers (state n s) = None /\ quiet (fun _ => True) s s'
    | Err _ => False
    end) s.
Proof.
  unfold register_viewer. wp_step. eapply wp_mono; [apply (wp_getOrCreateState (fun _ => True))|].
  intros r s1 (-> & Hq1 & Hs1 & Hst1 & Hin1 & Hr1). do 2 wp_step. rewrite Hst1.
  destruct (ns_subscribers (state n s)) as [subs|] eqn:Esubs; [|wp_step; by split_and!].
  set (id := fresh (dom (hu_subs s1))).
  assert (Hid : hu_subs s !! id = None) by (rewrite <- Hs1; apply not_elem_of_dom, is_fresh).
  wp_step. unfold wp at 1, modify. cbn [fst snd].
  set (s2 := set_subs (<[id := mkSub n (Z.to_nat (SamplesBuffer opts)) [] false false]> (hu_subs s1)) s1).
  wp_step. unfold wp at 1, change, modify. cbn [fst snd].
  set (f := fun x => ns_set_local (ns_localCount x + 1) (Some ({[id]} ∪ subs)) x). set (s3 := set_states (alter f n (hu_states s2)) s2).
  assert (Hst3 : forall m, state m s3 = if decide (n = m) then f (state m s) else state m s).
  { intros m. rewrite <- Hst1. apply (state_change n m f s2). eauto. }
  assert (Hreg : registered n id s s3).
  { split; [done|]. exists subs. split_and!; [done| | |].
    - intros m. unfold view. rewrite Hst3. destruct (decide (n = m)) as [->|Hne]; [by rewrite decide_True|by rewrite decide_False by auto].
    - intros i. unfold flags. simpl. rewrite Hs1, lookup_insert. destruct (decide (id = i)) as [->|Hne]; [by rewrite decide_True|by rewrite decide_False by auto].
    - intros m _ Hm. rewrite Hst3. by case_decide. }
  assert (Hafter : forall s4, quiet (fun m => m <> n \/ IsConnected (hu_registry s) n = false) s3 s4 -> registered n id s s4).
  { intros s4 [V F Pl]. destruct Hreg as (_ & subs' & Esubs' & Hv & Hf & Hp). split; [done|]. exists subs'.
    split_and!; [done|intros m; by rewrite V|intros i; by rewrite F|]. intros m Hm Hpm. apply Pl; [done|]. by apply Hp. }
  wp_step. eapply (wp_mono _ (fun r s4 => r = Ok tt /\ quiet (fun _ => True) s3 s4 /\ hu_registry s4 = hu_registry s3)).
  { destruct (_ =? 1)%Z; [|wp_step; split_and!; [done|apply quiet_refl|done]].
    eapply wp_mono; [apply wp_publishHeartbeat|]. by intros r s4 (-> & ? & _ & _ & ?). }
  intros r s4 (-> & Hq4 & Hr4). wp_step. eapply wp_mono; [apply wp_maybeStartOrStopPoll|]. intros r s5 (-> & Hq5 & _ & Hr5).
  assert (Er : hu_registry s4 = hu_registry s) by (rewrite Hr4; exact Hr1).
  wp_step. split; [congruence|]. apply Hafter. rewrite Er in Hq5.
  eapply quiet_trans; [|exact Hq5]. by eapply quiet_weaken; [|exact Hq4].
Qed.

(** Viewer [id] left. *)
Definition left_ (id : N) s s' : Prop :=
  match flags id s with
  | Some (n, closed, false) =>
      (forall i, flags i s' = if decide (i = id) then Some (n, true, true) else flags i s) /\
      (forall m, view m s' =
         if decide (m = n) then
           match ns_subscribers (state n s) with
           | Some subs => if decide (id ∈ subs)
                          then (if (0 <? ns_localCount (state n s))%Z then ns_localCount (state n s) - 1 else ns_localCount (state n s), Some (subs ∖ {[id]}))%Z
                          else view n s
           | None => view n s
           end
         else view m s) /\
      (forall m, m <> n -> polling m s = false -> polling m s' = false)
  | _ => s' = s
  end.

Lemma Close_spec id s :
  wp (Close stamp instanceID opts id) (fun r s' => r = Ok tt /\ hu_registry s' = hu_registry s /\ left_ id s s') s.
Proof.
  unfold Close, left_. do 2 wp_step. unfold flags at 1. destruct (hu_subs s !! id) as [sb|] eqn:Esb; [|by wp_step]. simpl.
  destruct (sb_unsubscribed sb) eqn:Eu; [by wp_step|]. set (n := sb_nodeID sb).
  wp_step. unfold wp at 1, modify. cbn [fst snd]. set (s1 := set_subs (alter mark_unsubscribed id (hu_subs s)) s).
  assert (Hf1 : forall s2, hu_subs s2 = alter closeChannel id (hu_subs s1) ->
    forall i, flags i s2 = if decide (i = id) then Some (n, true, true) else flags i s).
  { intros s2 Hs2 i. unfold flags. rewrite Hs2. simpl. rewrite !lookup_alter.
    destruct (decide (id = i)) as [->|Hne]; [|by rewrite decide_False by auto]. rewrite Esb. repeat case_decide; done. }
  unfold unsubscribe. do 2 wp_step. change (hu_states s1) with (hu_states s). destruct (hu_states s !! n) as [st|] eqn:Est.
  2: { unfold wp, modify. simpl. split; [done|]. split; [done|]. split; [by apply Hf1|]. split; [|done].
    intros m. unfold view, state_of. simpl. case_decide; [subst m|done]. rewrite Est. simpl. rewrite decide_False by set_solver. done. }
  assert (Hstn : state n s = st) by (unfold state_of; by rewrite Est). rewrite Hstn.
  match goal with |- context [change n (fun _ => ?x)] => set (st' := x) end.
  assert (Hv' : (ns_localCount st', ns_subscribers st') = match ns_subscribers st with
       | Some subs => if decide (id ∈ subs) then (if (0 <? ns_localCount st)%Z then ns_localCount st - 1 else ns_localCount st, Some (subs ∖ {[id]}))%Z
                      else view n s
       | None => view n s end /\ ns_polling st' = ns_polling st).
  { subst st'. unfold view. rewrite Hstn. destruct (ns_subscribers st) as [subs|] eqn:E; [|by rewrite E]. case_decide; [done|by rewrite E]. }
  destruct Hv' as [Hv' Hp'].
  wp_step. unfold wp at 1, change, modify. cbn [fst snd]. set (s2 := set_states (alter (fun _ => st') n (hu_states s1)) s1).
  assert (Hst2 : forall m, state m s2 = if decide (n = m) then st' else state m s).
  { intros m. apply (state_change n m (fun _ => st') s1). exists st. exact Est. }
  wp_step. unfold wp at 1, modify. cbn [fst snd]. set (s3 := set_subs (alter closeChannel id (hu_subs s2)) s2).
  wp_step. eapply wp_mono; [apply (wp_publishHeartbeat (fun _ => True))|]. intros r s4 (-> & Hq4 & _ & _ & Hr4).
  assert (Hend : forall s5, quiet (fun m => m <> n) s3 s5 ->
    (forall i, flags i s5 = if decide (i = id) then Some (n, true, true) else flags i s) /\
    (forall m, view m s5 = if decide (m = n) then (ns_localCount st', ns_subscribers st') else view m s) /\
    (forall m, m <> n -> polling m s = false -> polling m s5 = false)).
  { intros s5 [V F Pl]. split_and!.
    - intros i. rewrite F. by apply Hf1.
    - intros m. rewrite V. unfold view. change (state m s3) with (state m s2). rewrite Hst2.
      destruct (decide (n = m)) as [->|Hne]; [by rewrite decide_True|by rewrite decide_False by auto].
    - intros m Hm Hpm. apply Pl; [done|]. change (state m s3) with (state m s2). rewrite Hst2. by rewrite decide_False by auto. }
  rewrite Hv' in Hend. destruct (ns_localCount st' =? 0)%Z.
  - eapply wp_mono; [apply wp_maybeStartOrStopPoll|]. intros r s5 (-> & Hq5 & _ & Hr5). split; [done|]. split; [by rewrite Hr5, Hr4|].
    apply Hend. eapply quiet_trans; [by eapply quiet_weaken; [|exact Hq4]|]. eapply quiet_weaken; [|exact Hq5]. intros k Hk. by left.
  - wp_step. split; [done|]. split; [done|]. apply Hend. by eapply quiet_weaken; [|exact Hq4].
Qed.

(** ** Runs of the hub *)

(** What can happen, one method or environment change at a time: a viewer
    comes or goes, messages from the bus, ticks, the stop timer, a poll, the
    parts of a history request, a change of the connections, the end. *)
Inductive event : Type :=
| EvStart (subscribe : string -> result unit) | EvReceive (id : N)
| EvRegister (n : N) | EvClose (id : N)
| EvLive (msg : Message) | EvHeartbeat (msg : Message) | EvReply (msg : Message)
| EvTick | EvTimer (n : N) | EvPoll (n : N)
| EvRequest (n : N) (window : Z) | EvForget (id : string) | EvReplay (n : N) (resp : MetricsResponse) | EvClock
| EvConnections (g : G) | EvStop.

Definition run `{MapOrder} (e : event) : M S unit :=
  match e with
  | EvStart subscribe => Start instanceID subscribe
  | EvReceive id => modify (fun s => set_subs (alter receive id (hu_subs s)) s)
  | EvRegister n => let! _ := register_viewer stamp instanceID opts n in ret tt
  | EvClose id => Close stamp instanceID opts id
  | EvLive msg => handleLiveSample UnmarshalVT opts msg
  | EvHeartbeat msg => handleSubscribersHeartbeat stamp instanceID opts msg
  | EvReply msg => handleHistoryReply UnmarshalVT msg
  | EvTick => broadcastHeartbeats stamp instanceID opts
  | EvTimer n => stopPollIfStillIdle stamp n
  | EvPoll n => runPollOnce stamp n
  | EvRequest n w => let! _ := request_history stamp instanceID n w in ret tt
  | EvForget id => forget_history id
  | EvReplay n resp => change n (fun x => ns_set_ring (Append (Some resp) (ns_ring x)) x)
  | EvClock => let! _ := next_stamp stamp in ret tt
  | EvConnections g => modify (set_registry g)
  | EvStop => Stop
  end.

Definition hub_step `{MapOrder} (s s' : S) : Prop := exists e, snd (run e s) = s'.
Definition hub_reachable `{MapOrder} (s : S) : Prop := exists h g, rtc hub_step (NewHub h g) s.

(** The viewers of a node are its open subscriptions, and they are counted. *)
Record hub_inv s : Prop := {
  hi_members : forall n subs, ns_subscribers (state n s) = Some subs ->
    ns_localCount (state n s) = Z.of_nat (size subs) /\ forall i, i ∈ subs -> flags i s = Some (n, false, false);
  hi_open : forall i n u, flags i s = Some (n, false, u) ->
    u = false /\ exists subs, ns_subscribers (state n s) = Some subs /\ i ∈ subs;
}.

Lemma hub_inv_new h g : hub_inv (NewHub h g).
Proof.
  split.
  - intros n subs. unfold state_of. simpl. rewrite lookup_empty. simpl. intros [= <-]. rewrite size_empty. split; [done|set_solver].
  - intros i n u. unfold flags. simpl. by rewrite lookup_empty.
Qed.

Lemma hub_inv_quiet X s s' : quiet X s s' -> hub_inv s -> hub_inv s'.
Proof.
  intros [V F _] [Hm Ho]. assert (Hl : forall n, ns_localCount (state n s') = ns_localCount (state n s)) by (intros n; by pose proof (V n) as [= ? ?]).
  assert (Hs : forall n, ns_subscribers (state n s') = ns_subscribers (state n s)) by (intros n; by pose proof (V n) as [= ? ?]).
  split.
  - intros n subs. rewrite Hl, Hs. intros E. destruct (Hm n subs E) as [Hc Hi]. split; [done|]. intros i Hii. rewrite F. by apply Hi.
  - intros i n u E. rewrite F in E. rewrite Hs. by apply (Ho i).
Qed.

Lemma hub_inv_registered n id s s' : registered n id s s' -> hub_inv s -> hub_inv s'.
Proof.
  intros (Hid & subs & Esubs & V & F & _) [Hm Ho]. destruct (Hm _ _ Esubs) as [Hcount Hin].
  assert (Hnew : id ∉ subs) by (intros Hi; apply Hin in Hi; unfold flags in Hi; by rewrite Hid in Hi).
  split.
  - intros m subs' E. pose proof (V m) as Vm. unfold view in Vm. rewrite E in Vm. case_decide as Hmn.
    + subst m. injection Vm as -> ->. split; [rewrite size_union, size_singleton, Hcount by set_solver; lia|].
      intros i Hi. rewrite F. case_decide; [done|]. apply Hin. set_solver.
    + injection Vm as -> Es. destruct (Hm m subs' (eq_sym Es)) as [Hc Hi]. split; [done|]. intros i Hii. rewrite F.
      case_decide as Hi'; [|by apply Hi]. subst i. apply Hi in Hii. unfold flags in Hii. by rewrite Hid in Hii.
  - intros i m u. rewrite F. case_decide as Hi.
    + intros [= <- <-]. split; [done|]. exists ({[id]} ∪ subs). pose proof (V n) as Vn. rewrite decide_True in Vn by done. injection Vn as _ ->.
      split; [done|set_solver].
    + intros E. destruct (Ho _ _ _ E) as [-> (subs' & Es & Hii)]. split; [done|]. pose proof (V m) as Vm. case_decide as Hmn.
      * subst m. rewrite Esubs in Es. injection Es as <-. injection Vm as _ ->. exists ({[id]} ∪ subs). set_solver.
      * injection Vm as _ ->. eauto.
Qed.

Lemma hub_inv_left id s s' : left_ id s s' -> hub_inv s -> hub_inv s'.
Proof.
  unfold left_. intros Hl [Hm Ho]. destruct (flags id s) as [[[n c] [|]]|] eqn:Ef; [by subst|destruct Hl as (F & V & _)|by subst].
  assert (Vo : forall m, m <> n -> view m s' = view m s) by (intros m Hmn; rewrite V; by rewrite decide_False).
  pose proof (V n) as Vn. rewrite decide_True in Vn by done. split.
  - intros m subs E. destruct (decide (m = n)) as [->|Hmn].
    + unfold view in Vn. rewrite E in Vn. destruct (ns_subscribers (state n s)) as [subs0|] eqn:E0; [|by injection Vn].
      destruct (Hm _ _ E0) as [Hcount Hin]. case_decide as Hi.
      * injection Vn as -> ->. rewrite Hcount. assert (Hpos : size subs0 <> 0) by (intros Hz%size_empty_inv; set_solver).
        rewrite size_difference, size_singleton by set_solver. destruct (Z.ltb_spec 0 (Z.of_nat (size subs0))); [|lia].
        split; [lia|]. intros i Hii. rewrite F, decide_False by set_solver. apply Hin. set_solver.
      * injection Vn as -> ->. split; [done|]. intros i Hii. rewrite F, decide_False by (intros ->; done). by apply Hin.
    + pose proof (Vo m Hmn) as Vm. unfold view in Vm. rewrite E in Vm. injection Vm as -> Es. destruct (Hm m subs (eq_sym Es)) as [Hc Hin].
      split; [done|]. intros i Hii. rewrite F. case_decide as Hi; [|by apply Hin]. subst i. apply Hin in Hii. congruence.
  - intros i m u. rewrite F. case_decide as Hi; [by intros [=]|]. intros E. destruct (Ho _ _ _ E) as [-> (subs & Es & Hii)].
    split; [done|]. destruct (decide (m = n)) as [->|Hmn].
    + rewrite Es in Vn. case_decide; injection Vn as _ ->; [exists (subs ∖ {[id]})|exists subs; rewrite Es]; set_solver.
    + pose proof (Vo m Hmn) as Vm. injection Vm as _ ->. eauto.
Qed.

Lemma elem_of_all_viewers i m :
  i ∈ all_viewers m <-> exists n st subs, m !! n = Some st /\ ns_subscribers st = Some subs /\ i ∈ subs.
Proof.
  unfold all_viewers. apply (map_fold_weak_ind (fun acc m => i ∈ acc <-> exists n st subs, m !! n = Some st /\ ns_subscribers st = Some subs /\ i ∈ subs)).
  - split; [set_solver|]. intros (n & st & subs & E & _). by rewrite lookup_empty in E.
  - intros n st m' acc Hn IH. rewrite elem_of_union, IH. split.
    + intros [Hi|(n' & st' & subs & E & Hs)].
      * destruct (ns_subscribers st) as [subs|] eqn:Es; [|set_solver]. exists n, st, subs. by rewrite lookup_insert_eq.
      * exists n', st', subs. rewrite lookup_insert_ne by congruence. done.
    + intros (n' & st' & subs & E & Es & Hi). rewrite lookup_insert in E. case_decide; [injection E as <-; left; by rewrite Es|right; eauto 10].
Qed.

Lemma hub_inv_stop s : hub_inv s -> hub_inv (snd (Stop s)).
Proof.
  intros [Hm Ho]. assert (Hst : forall n, ns_subscribers (state n (snd (Stop s))) = None \/
    hu_states s !! n = None /\ state n (snd (Stop s)) = new_state opts).
  { intros n. unfold Stop, modify, state_of. simpl. rewrite lookup_fmap. destruct (hu_states s !! n); [by left|by right]. }
  split.
  - intros n subs E. destruct (Hst n) as [E'|[_ E']]; [congruence|]. rewrite E' in *. simpl in *. injection E as <-.
    rewrite size_empty. split; [done|set_solver].
  - intros i n u. unfold flags, Stop, modify, close_all. simpl. rewrite map_lookup_imap.
    destruct (hu_subs s !! i) as [sb|] eqn:Esb; [|done]. simpl. case_decide as Hi; [by intros [=]|]. intros [= <- Hc <-]. exfalso.
    destruct (Ho i (sb_nodeID sb) (sb_unsubscribed sb)) as [_ (subs & Es & Hin)]; [unfold flags; rewrite Esb; simpl; by rewrite Hc|].
    apply Hi, elem_of_all_viewers. unfold state_of in Es. destruct (hu_states s !! sb_nodeID sb) as [st|] eqn:Est; [eauto 10|].
    simpl in Es. injection Es as <-. set_solver.
Qed.

Lemma run_inv `{MapOrder} e s : hub_inv s -> hub_inv (snd (run e s)).
Proof.
  intros Hi. assert (Hrun : forall (x : M S unit) Q, wp x Q s -> (forall r s', Q r s' -> hub_inv s') -> hub_inv (snd (x s)))
    by (intros x Q Hwp HQ; eapply HQ; exact Hwp).
  destruct e; cbn [run].
  - eapply Hrun; [apply (Start_spec (fun _ => True))|]. intros r s' Hq. by eapply hub_inv_quiet; [exact Hq|].
  - eapply hub_inv_quiet; [apply (receive_spec (fun _ => True))|done].
  - eapply Hrun; [wp_step; eapply wp_mono; [apply register_viewer_spec|]; intros r s' [_ Hr]; instantiate (1 := fun _ s' => hub_inv s')|done].
    destruct r; [wp_step; by eapply hub_inv_registered|done|]. destruct Hr as [_ Hq]. by eapply hub_inv_quiet.
  - eapply Hrun; [apply Close_spec|]. intros r s' (_ & _ & Hl). by eapply hub_inv_left.
  - eapply Hrun; [apply (handleLiveSample_spec (fun _ => True))|]. intros r s' (Hq & _). by eapply hub_inv_quiet.
  - eapply Hrun; [apply handleSubscribersHeartbeat_spec|]. intros r s' (_ & _ & _ & Hq). by eapply hub_inv_quiet.
  - eapply Hrun; [apply (handleHistoryReply_spec (fun _ => True))|]. intros r s' (Hq & _). by eapply hub_inv_quiet.
  - eapply Hrun; [apply (broadcastHeartbeats_spec (fun _ => True))|]. intros r s' (_ & Hq & _). by eapply hub_inv_quiet.
  - eapply Hrun; [apply (stopPollIfStillIdle_spec (fun _ => True))|]. intros r s' (_ & Hq & _). by eapply hub_inv_quiet.
  - eapply Hrun; [apply (runPollOnce_spec (fun _ => True))|]. intros r s' (Hq & _). by eapply hub_inv_quiet.
  - eapply Hrun; [wp_step; eapply wp_mono; [apply (request_history_spec (fun _ => True))|]; intros r s' [Hq _]; instantiate (1 := fun _ s' => hub_inv s')|done].
    destruct r; by eapply hub_inv_quiet.
  - eapply Hrun; [apply (forget_history_spec (fun _ => True))|]. intros r s' (_ & Hq & _). by eapply hub_inv_quiet.
  - eapply Hrun; [by apply (wp_change (fun _ => True))|]. intros r s' (_ & Hq & _). by eapply hub_inv_quiet.
  - apply (hub_inv_quiet (fun _ => True) s); [by apply quiet_parts|done].
  - apply (hub_inv_quiet (fun _ => True) s); [by apply quiet_parts|done].
  - by apply hub_inv_stop.
Qed.

Lemma hub_reachable_inv `{MapOrder} s : hub_reachable s -> hub_inv s.
Proof.
  intros (h & g & Hr). revert s Hr. apply rtc_ind_r; [apply hub_inv_new|]. intros s s' _ [e <-]. by apply run_inv.
Qed.

(** ** Live samples *)

Lemma parse_metrics_channel n : (n < two64)%N -> parseRealtimeMetricsNodeID (BuildRealtimeMetricsChannel n) = Ok n.
Proof.
  intros Hn. unfold parseRealtimeMetricsNodeID, BuildRealtimeMetricsChannel, CutPrefix.
  by rewrite string_prefix_app, substring_suffix, ParseUint_FormatUint.
Qed.

(** What the metrics handler publishes for viewers is accepted. *)
Lemma published_accepted msg n data resp : (n < two64)%N ->
  msg_Channel msg = BuildRealtimeMetricsChannel n -> msg_Payload msg = to_json (mkMetricsLivePayload n data) ->
  UnmarshalVT data = Ok resp -> accepted msg n resp.
Proof.
  intros Hn Hc Hp Hu. exists data. split_and!; [|by rewrite Hc; apply parse_metrics_channel|done].
  unfold ParsePayload. rewrite Hp. by apply payload_roundtrip.
Qed.

Lemma accepted_unique msg n resp n' resp' : accepted msg n resp -> accepted msg n' resp' -> n = n' /\ resp = resp'.
Proof. intros (d & Hp & _ & Hu) (d' & Hp' & _ & Hu'). rewrite Hp in Hp'. injection Hp' as -> ->. rewrite Hu in Hu'. by injection Hu' as ->. Qed.

(** The subscription wants samples of node [n] and has room for one. *)
Definition listens (n : N) (sb : subscription) : Prop :=
  sb_nodeID sb = n /\ sb_closed sb = false /\ length (sb_queue sb) < sb_buffer sb.
#[export] Instance listens_dec n sb : Decision (listens n sb).
Proof. unfold listens. apply _. Defined.
Definition enqueue (entry : MetricsResponse) (sb : subscription) : subscription :=
  mkSub (sb_nodeID sb) (sb_buffer sb) (sb_queue sb ++ [entry]) (sb_closed sb) (sb_unsubscribed sb).

Lemma deliver_viewers n resp s i sb : hub_inv s -> hu_subs s !! i = Some sb ->
  (if decide (i ∈ default ∅ (ns_subscribers (state n s))) then deliver resp sb else sb) =
  if decide (listens n sb) then enqueue resp sb else sb.
Proof.
  intros [Hm Ho] Hsb. assert (Hf : flags i s = Some (sb_nodeID sb, sb_closed sb, sb_unsubscribed sb)) by (unfold flags; by rewrite Hsb).
  destruct (decide (i ∈ _)) as [Hin|Hin].
  - destruct (ns_subscribers (state n s)) as [subs|] eqn:Es; simpl in Hin; [|set_solver].
    apply (Hm _ _ Es) in Hin. rewrite Hf in Hin. injection Hin as Hn Hc _. unfold deliver. rewrite Hc.
    destruct (decide (listens n sb)) as [(_ & _ & Hl)|Hno].
    + destruct (Nat.ltb_spec (length (sb_queue sb)) (sb_buffer sb)); [unfold enqueue; by rewrite Hc|lia].
    + destruct (Nat.ltb_spec (length (sb_queue sb)) (sb_buffer sb)); [|done]. exfalso. by apply Hno.
  - rewrite decide_False; [done|]. intros (<- & Hc & _). rewrite Hc in Hf. destruct (Ho _ _ _ Hf) as [_ (subs & Es & Hi)].
    rewrite Es in Hin. done.
Qed.

(** C26: In every hub that can be reached, a message with a sample of node [n] puts
    it on the channel of exactly the open subscriptions to [n] that have room,
    and in the ring of [n]; a message whose payload does not parse, is about
    another node than its channel, or does not decode, changes nothing; and
    what the metrics handler publishes about [n] is such a sample. *)
Theorem live_sample_reaches_viewers `{MapOrder} msg s : hub_reachable s ->
  let s' := snd (handleLiveSample UnmarshalVT opts msg s) in
  (forall n resp, accepted msg n resp ->
     (forall i, hu_subs s' !! i = (fun sb => if decide (listens n sb) then enqueue resp sb else sb) <$> hu_subs s !! i) /\
     (forall m, ns_ring (state m s') = if decide (m = n) then Append (Some resp) (ns_ring (state m s)) else ns_ring (state m s))) /\
  ((forall n resp, ~ accepted msg n resp) -> s' = s) /\
  (forall n data resp, (n < two64)%N -> msg_Channel msg = BuildRealtimeMetricsChannel n ->
     msg_Payload msg = to_json (mkMetricsLivePayload n data) -> UnmarshalVT data = Ok resp -> accepted msg n resp).
Proof.
  intros Hr%hub_reachable_inv s'. pose proof (handleLiveSample_spec (fun _ => True) msg s) as (_ & _ & Hl). fold s' in Hl.
  split_and!; [| |intros; by eapply published_accepted].
  - intros n resp Ha. destruct Hl as [(n' & resp' & Ha' & _ & Hs & Hring)|[Hno _]]; [|by apply Hno in Ha].
    destruct (accepted_unique _ _ _ _ _ Ha Ha') as [<- <-]. split; [|done]. intros i. rewrite Hs, lookup_deliver_all.
    destruct (hu_subs s !! i) as [sb|] eqn:Esb; [|done]. simpl. f_equal. by apply (deliver_viewers _ _ s i).
  - intros Hno. destruct Hl as [(n' & resp' & Ha' & _)|[_ ->]]; [by apply Hno in Ha'|done].
Qed.

(** ** Polling *)

(** Nothing that concerns the viewers of node [n]. *)
Definition calm (n : N) s (e : event) : Prop :=
  match e with
  | EvRegister m => m <> n
  | EvClose id => forall x, flags id s = Some x -> x.1.1 <> n
  | EvHeartbeat msg => forall p : MetricsSubscribersPayload, ParsePayload msg = Ok p -> mbp_InstanceID p = instanceID \/ mbp_NodeID p <> n
  | EvStop => False
  | _ => True
  end.
Definition calm_step `{MapOrder} (n : N) s s' : Prop := exists e, calm n s e /\ snd (run e s) = s'.

(** The viewers of [n] stay, and it is not polled unless it was. *)
Definition undisturbed (n : N) s s' : Prop :=
  (forall id, flags id s = Some (n, false, false) -> flags id s' = Some (n, false, false)) /\
  (polling n s = false -> polling n s' = false).

Lemma quiet_undisturbed (X : N -> Prop) n s s' : X n -> quiet X s s' -> undisturbed n s s'.
Proof. intros Hn [_ F Pl]. split; [intros id; by rewrite F|by apply Pl]. Qed.

Lemma calm_undisturbed `{MapOrder} n s s' : calm_step n s s' -> undisturbed n s s'.
Proof.
  intros (e & Hc & <-). assert (Hrun : forall (x : M S unit) Q, wp x Q s -> (forall r s', Q r s' -> undisturbed n s s') -> undisturbed n s (snd (x s)))
    by (intros x Q Hwp HQ; eapply HQ; exact Hwp).
  pose proof (quiet_undisturbed (fun _ => True) n) as Hq.
  destruct e; cbn [run]; simpl in Hc.
  - eapply Hrun; [apply (Start_spec (fun _ => True))|]. intros r s' ?. by apply Hq.
  - apply Hq; [done|]. apply receive_spec.
  - eapply Hrun; [wp_step; eapply wp_mono; [apply register_viewer_spec|]; intros r s' [_ Hr]; instantiate (1 := fun _ s' => undisturbed n s s')|done].
    destruct r as [id| |]; [wp_step|done|by apply Hq, Hr]. destruct Hr as (Hid & subs & _ & _ & F & Pl). split; [|apply Pl; auto].
    intros i Hi. rewrite F, decide_False; [done|]. intros ->. unfold flags in Hi. by rewrite Hid in Hi.
  - eapply Hrun; [apply Close_spec|]. intros r s' (_ & _ & Hl). unfold left_ in Hl.
    destruct (flags id s) as [[[m c] [|]]|] eqn:Ef; [by subst|destruct Hl as (F & _ & Pl)|by subst]. pose proof (Hc _ eq_refl) as Hmn. simpl in Hmn.
    split; [|by apply Pl]. intros i Hi. rewrite F, decide_False; [done|]. intros ->. rewrite Ef in Hi. by injection Hi.
  - eapply Hrun; [apply (handleLiveSample_spec (fun _ => True))|]. intros r s' (? & _). by apply Hq.
  - eapply Hrun; [apply handleSubscribersHeartbeat_spec|]. intros r s' (_ & _ & _ & ?). eapply quiet_undisturbed; [|eassumption]; exact Hc.
  - eapply Hrun; [apply (handleHistoryReply_spec (fun _ => True))|]. intros r s' (? & _). by apply Hq.
  - eapply Hrun; [apply (broadcastHeartbeats_spec (fun _ => True))|]. intros r s' (_ & ? & _). by apply Hq.
  - eapply Hrun; [apply (stopPollIfStillIdle_spec (fun _ => True))|]. intros r s' (_ & ? & _). by apply Hq.
  - eapply Hrun; [apply (runPollOnce_spec (fun _ => True))|]. intros r s' (? & _). by apply Hq.
  - eapply Hrun; [wp_step; eapply wp_mono; [apply (request_history_spec (fun _ => True))|]; intros r s' [? _]; instantiate (1 := fun _ s' => undisturbed n s s')|done].
    destruct r; by apply Hq.
  - eapply Hrun; [apply (forget_history_spec (fun _ => True))|]. intros r s' (_ & ? & _). by apply Hq.
  - eapply Hrun; [by apply (wp_change (fun _ => True))|]. intros r s' (_ & ? & _). by apply Hq.
  - by apply Hq, quiet_parts.
  - by apply Hq, quiet_parts.
  - done.
Qed.

Lemma maybeStartOrStopPoll_starts n s : IsConnected (hu_registry s) n = true -> is_Some (hu_states s !! n) ->
  ns_remoteCounts (state n s) = ∅ -> (0 < ns_localCount (state n s))%Z ->
  wp (maybeStartOrStopPoll stamp n) (fun r s' => r = Ok tt /\ polling n s' = true) s.
Proof.
  intros Hc Hin Hr Hl. unfold maybeStartOrStopPoll. do 2 wp_step. rewrite Hc. cbn [negb]. wp_step. apply wp_next_stamp. intros m.
  unfold wp, change, modify. cbn [fst snd]. split; [done|]. rewrite state_change, decide_True by done.
  match goal with |- context [state n ?s0] => change (state n s0) with (state n s) end.
  cbv zeta beta. unfold unexpired, aggregate. rewrite Hr, map_filter_empty, map_fold_empty. destruct (Z.ltb_spec 0 (ns_localCount (state n s))); [|lia].
  cbn [andb negb ns_set_remote ns_polling]. destruct (polling n s) eqn:Ep; done.
Qed.

(** A viewer of a connected node that nobody else watches starts the polling. *)
Lemma first_viewer_starts_polling n s id s' : register_viewer stamp instanceID opts n s = (Ok id, s') ->
  IsConnected (hu_registry s) n = true -> ns_remoteCounts (state n s) = ∅ -> (0 <= ns_localCount (state n s))%Z -> polling n s' = true.
Proof.
  intros E Hc Hr Hl. assert (Hwp : wp (register_viewer stamp instanceID opts n) (fun r s' => is_ok r = true -> polling n s' = true) s);
    [|unfold wp in Hwp; rewrite E in Hwp; by apply Hwp].
  unfold register_viewer. wp_step. eapply wp_mono; [apply (wp_getOrCreateState (fun _ => True))|].
  intros r s1 (-> & Hq1 & Hs1 & Hst1 & Hin1 & Hr1). do 2 wp_step. destruct (ns_subscribers (state n s1)) as [subs|]; [|by wp_step].
  wp_step. unfold wp at 1, modify. cbn [fst snd]. wp_step. unfold wp at 1, change, modify. cbn [fst snd].
  match goal with |- context [set_states (alter ?f n (hu_states ?s2)) ?s2] => set (s3 := set_states (alter f n (hu_states s2)) s2);
    assert (Hst3 : state n s3 = f (state n s1)) by (etrans; [apply (state_change n n f s2); eauto|by rewrite decide_True]) end.
  assert (Hin3 : is_Some (hu_states s3 !! n)) by (subst s3; simpl; rewrite lookup_alter_eq, Hin1; eauto).
  wp_step. eapply (wp_mono _ (fun r s4 => r = Ok tt /\ hu_states s4 = hu_states s3 /\ hu_registry s4 = hu_registry s3)).
  { destruct (_ =? 1)%Z; [|by wp_step]. eapply wp_mono; [apply (wp_publishHeartbeat (fun _ => True))|]. by intros r s4 (-> & _ & ? & _ & ?). }
  intros r s4 (-> & Es4 & Er4). wp_step. assert (Hst4 : state n s4 = state n s3) by (unfold state_of; by rewrite Es4).
  eapply wp_mono; [apply maybeStartOrStopPoll_starts|].
  - rewrite Er4. subst s3. simpl. by rewrite Hr1.
  - by rewrite Es4.
  - by rewrite Hst4, Hst3, Hst1.
  - rewrite Hst4, Hst3, Hst1. simpl. lia.
  - intros r s5 [-> Hp]. by wp_step.
Qed.

(** A viewer that subscribes while its node is connected to this instance starts
    the polling of the node.  One that subscribes while the node is not
    connected here does not, and neither does anything that happens later, the
    node connecting included, as long as no other viewer of it comes or goes
    here or on another instance: the viewer stays subscribed and the node is
    not polled. *)
Lemma late_connection_is_not_polled `{MapOrder} n s id s1 : hub_reachable s ->
  polling n s = false -> ns_remoteCounts (state n s) = ∅ -> register_viewer stamp instanceID opts n s = (Ok id, s1) ->
  if IsConnected (hu_registry s) n then polling n s1 = true
  else forall s2, rtc (calm_step n) s1 s2 -> flags id s2 = Some (n, false, false) /\ polling n s2 = false.
Proof.
  intros Hreach Hp Hrem E. pose proof (register_viewer_spec n s) as Hr. unfold wp in Hr. rewrite E in Hr. simpl in Hr.
  destruct Hr as (_ & _ & subs & Es & _ & F & Pl). destruct (IsConnected (hu_registry s) n) eqn:Hc.
  - apply (first_viewer_starts_polling n s id); [done|done|done|]. apply hub_reachable_inv in Hreach as [Hm _].
    destruct (Hm _ _ Es) as [-> _]. lia.
  - intros s2 Hcalm. assert (H1' : flags id s1 = Some (n, false, false) /\ polling n s1 = false).
    { split; [by rewrite F, decide_True|]. apply Pl; [by right|done]. }
    clear E F Pl. induction Hcalm as [|s1 s2 s3 Hs _ IH]; [done|]. apply IH. destruct (calm_undisturbed _ _ _ Hs) as [Hf Hq].
    destruct H1'. auto.
Qed.
End specs.

(** ** Two viewers of node 7, which is connected; and one of node 8, which connects later *)

#[local] Existing Instance ticking.

#[local] Instance set_registry_of_nodes : MetricsRegistry (gset N) := {
  IsConnected g n := bool_decide (n ∈ g);
  IsConnectedAnywhere g n := bool_decide (n ∈ g);
  SendMetricsRequest n id req := ret tt;
}.
#[local] Existing Instance listed_order.

Definition hub_stamp (k : N) : Stamp := mkStamp (FormatUint k) (Z.of_N k).
Definition sample_options : Options := applyDefaults (mkOptions 0 0 0 0 0 0 0 2).
Definition hub_handler0 : MetricsState (list entry) := mkMetricsState ∅ [] 0.
Definition decode_time (s : string) : result MetricsResponse := let? t := ParseUint s in Ok (mkMetrics (Z.of_N t) ∅ [] 0).
Definition live_message (n : N) (data : string) : Message :=
  mkMessage "m" (BuildRealtimeMetricsChannel n) TypeMetricsLive (to_json (mkMetricsLivePayload n data)) 0 "here".

Abbreviation sample_run := (run hub_stamp decode_time "here" sample_options).
Definition hub0 : Hub (list entry) (gset N) := NewHub hub_handler0 {[7%N]}.
Definition hub1 := snd (sample_run (EvRegister 7) hub0).
Definition hub2 := snd (sample_run (EvRegister 7) hub1).
Definition hub3 := snd (sample_run (EvLive (live_message 7 "5")) hub2).

Lemma hub2_reachable : hub_reachable hub_stamp decode_time "here" sample_options hub2.
Proof.
  exists hub_handler0, {[7%N]}. apply (rtc_l _ _ hub1); [by exists (EvRegister 7)|]. apply rtc_once. by exists (EvRegister 7).
Qed.

Lemma live_sample_reaches_viewers_witness :
  map (fun x => map mr_Timestamp (sb_queue x.2)) (map_to_list (hu_subs hub3)) = [[5%Z]; [5%Z]].
Proof.
  destruct (live_sample_reaches_viewers hub_stamp decode_time "here" sample_options (live_message 7 "5") hub2 hub2_reachable)
    as (Hacc & _ & Hpub).
  destruct (Hacc 7%N (mkMetrics 5 ∅ [] 0)) as [Hsubs _]; [by apply (Hpub 7%N "5"%string)|].
  assert (Heq : hu_subs hub3 = (fun sb => if decide (listens 7 sb) then enqueue (mkMetrics 5 ∅ [] 0) sb else sb) <$> hu_subs hub2).
  { apply map_eq. intros i. rewrite lookup_fmap. exact (Hsubs i). }
  rewrite Heq. vm_compute. reflexivity.
Defined.

Definition late1 := snd (register_viewer hub_stamp "here" sample_options 8 hub2).
Definition late2 := snd (sample_run EvTick (snd (sample_run (EvConnections {[7%N; 8%N]}) late1))).

