(* ===== verification/LoginLimit.v ===== *)
(** The login rate limiter ([internal/api/middlewares/login_ratelimit.go]): the
    failed attempts of each client address and of each account are counted in
    the cache, and a client or an account over its limit is refused before the
    credentials are looked at.  The JSON decoder, the hash and the handler
    behind the middleware are parameters; the cache is any that meets the laws
    of [Cache]. *)

From S2P Require Import Prelude.
From S2P Require Import GoNum.
From S2P Require Import Domain.
From S2P Require Import GoRuntime.
From S2P Require Import Cache.
From stdpp Require Import base tactics strings list gmap numbers.
From Stdlib Require Import NArith ZArith Ascii.

Definition defaultLoginRateLimitWindow : Z := 15 * minute.
Definition defaultLoginRateLimitMaxPerIP : Z := 20.
Definition defaultLoginRateLimitMaxPerUsername : Z := 5.
Definition loginRateLimitKeyPrefix : string := "auth:login-fail:".
Definition loginRateLimitMaxBody : nat := Z.to_nat 1048576.

Definition errLoginRateLimitedByIP : error := ENew "too many failed login attempts from this client".
Definition errLoginRateLimitedByUsername : error := ENew "too many failed login attempts for this account".

Record LoginRateLimitMiddleware : Type := mkLoginLimit {
  ll_window : Z;
  ll_maxPerIP : Z;
  ll_maxPerUser : Z;
  ll_clientIPHeader : string;
}.

(** The options, applied in order to the defaults. *)
Definition WithLoginRateLimitWindow (d : Z) (m : LoginRateLimitMiddleware) : LoginRateLimitMiddleware :=
  mkLoginLimit d (ll_maxPerIP m) (ll_maxPerUser m) (ll_clientIPHeader m).
Definition WithLoginRateLimitPerIP (n : Z) (m : LoginRateLimitMiddleware) : LoginRateLimitMiddleware :=
  mkLoginLimit (ll_window m) n (ll_maxPerUser m) (ll_clientIPHeader m).
Definition WithLoginRateLimitPerUsername (n : Z) (m : LoginRateLimitMiddleware) : LoginRateLimitMiddleware :=
  mkLoginLimit (ll_window m) (ll_maxPerIP m) n (ll_clientIPHeader m).
Definition WithLoginRateLimitClientIPHeader (h : string) (m : LoginRateLimitMiddleware) : LoginRateLimitMiddleware :=
  mkLoginLimit (ll_window m) (ll_maxPerIP m) (ll_maxPerUser m) h.
Definition NewLoginRateLimitMiddleware (opts : list (LoginRateLimitMiddleware -> LoginRateLimitMiddleware))
  : LoginRateLimitMiddleware :=
  foldl (fun m opt => opt m)
    (mkLoginLimit defaultLoginRateLimitWindow defaultLoginRateLimitMaxPerIP defaultLoginRateLimitMaxPerUsername "") opts.

(** A request: the header values by name, and the body, with whether reading it
    to its end fails. *)
Record Request : Type := mkRequest {
  rq_RemoteAddr : string;
  rq_Header : string -> string;
  rq_Body : option (string * bool);
}.

(** How a request leaves the middleware: with the handler's status, or refused
    with the reason and the seconds of the [Retry-After] header, which is
    written when they are positive. *)
Inductive outcome : Type :=
| Passed (status : Z)
| TooManyRequests (retryAfter : Z) (reason : error).

Definition StatusOK : Z := 200.
Definition StatusUnauthorized : Z := 401.

Section limiter.
Context {C A : Type} `{Cache C} `{Unicode}.
(** [json.Unmarshal] of the body into the login and email fields; SHA-256 in
    hex; the handler, on its own state [A]. *)
Context (peek_json : string -> option (string * string)) (SHA256 : string -> string).
Context (next : Request -> M A Z).
Context (m : LoginRateLimitMiddleware).

Abbreviation S := (C * A)%type.

Definition on_cache {B} (x : M C B) : M S B := zoom fst (fun c s => (c, snd s)) x.
Definition on_next {B} (x : M A B) : M S B := zoom snd (fun a s => (fst s, a)) x.

Definition extractClientIP (r : Request) : string :=
  let v := if String.eqb (ll_clientIPHeader m) "" then ""%string else TrimSpace (rq_Header r (ll_clientIPHeader m)) in
  if String.eqb v "" then
    match SplitHostPort (rq_RemoteAddr r) with
    | Some (host, _) => host
    | None => rq_RemoteAddr r
    end
  else match cut_byte ","%char v with
       | Some (first, _) => TrimSpace first
       | None => v
       end.

(** The lowercased email, or else login, and the request with its body put
    back. *)
Definition peekUsernameAndRestoreBody (r : Request) : string * Request :=
  match rq_Body r with
  | None => (""%string, r)
  | Some (data, broken) =>
      let body := String.substring 0 loginRateLimitMaxBody data in
      let failed := broken && (String.length data <? loginRateLimitMaxBody) in
      let r := mkRequest (rq_RemoteAddr r) (rq_Header r) (Some (body, false)) in
      if failed || String.eqb body "" then (""%string, r)
      else
        match peek_json body with
        | None => (""%string, r)
        | Some (login, email) =>
            (ToLower (TrimSpace (if String.eqb email "" then login else email)), r)
        end
  end.

Definition readCount (suffix : string) : M C Z :=
  let! raw := attempt (cache_get (loginRateLimitKeyPrefix +:+ suffix)) in
  match raw with
  | Err e => if errors_is e ErrNotFound then ret 0%Z else fail e
  | Panic w => lift (Panic w)
  | Ok v =>
      ret match v with
          | CInt z | CInt64 z | CFloat64 z | CNumber z => z
          | _ => 0%Z
          end
  end.

(** [count, _ := m.readCount(ctx, suffix)] *)
Definition count_of (suffix : string) : M C Z :=
  let! r := attempt (readCount suffix) in
  ret match r with Ok z => z | _ => 0%Z end.

Definition increment (suffix : string) : M C unit :=
  let! count := count_of suffix in
  let! _ := attempt (cache_set (loginRateLimitKeyPrefix +:+ suffix) (CInt (count + 1)) (ll_window m)) in
  ret tt.

Definition ip_suffix (ip : string) : string := "ip:" +:+ ip.
Definition user_suffix (username : string) : string := "user:" +:+ SHA256 username.

Definition shouldBlock (ip username : string) : M C (option (Z * error)) :=
  let! byIP := (if String.eqb ip "" then ret false
                else let! count := count_of (ip_suffix ip) in ret (ll_maxPerIP m <=? count)%Z) in
  if byIP then ret (Some (Z.quot (ll_window m) second, errLoginRateLimitedByIP))
  else
    let! byUser := (if String.eqb username "" then ret false
                    else let! count := count_of (user_suffix username) in ret (ll_maxPerUser m <=? count)%Z) in
    if byUser then ret (Some (Z.quot (ll_window m) second, errLoginRateLimitedByUsername)) else ret None.

Definition recordFailure (ip username : string) : M C unit :=
  do! (if String.eqb ip "" then ret tt else increment (ip_suffix ip)) ;;
  if String.eqb username "" then ret tt else increment (user_suffix username).

Definition Middleware (r : Request) : M S outcome :=
  let ip := extractClientIP r in
  let '(username, r) := peekUsernameAndRestoreBody r in
  let! block := on_cache (shouldBlock ip username) in
  match block with
  | Some (retryAfter, reason) => ret (TooManyRequests retryAfter reason)
  | None =>
      let! status := on_next (next r) in
      do! (if (status =? StatusUnauthorized)%Z then on_cache (recordFailure ip username)
           else if (status =? StatusOK)%Z then
             if String.eqb username "" then ret tt
             else let! _ := attempt (on_cache (cache_delete (loginRateLimitKeyPrefix +:+ user_suffix username))) in ret tt
           else ret tt) ;;
      ret (Passed status)
  end.

Fixpoint serve (l : list Request) : M S (list outcome) :=
  match l with
  | [] => ret []
  | r :: l =>
      let! o := Middleware r in
      let! os := serve l in ret (o :: os)
  end.
End limiter.

(** ** The counters *)

Section specs.
Context {C A : Type} `{CacheLaws C} `{!CacheTotal C} `{Unicode}.
Context (peek_json : string -> option (string * string)) (SHA256 : string -> string).
Context (next : Request -> M A Z).
Context (m : LoginRateLimitMiddleware).

Abbreviation S := (C * A)%type.
Abbreviation key x := (loginRateLimitKeyPrefix +:+ x).

Definition stored_count (v : option cached) : Z :=
  match v with Some (CInt z | CInt64 z | CFloat64 z | CNumber z) => z | _ => 0%Z end.

(** The count of [x] at some instant between [c] and [c']. *)
Definition counted (x : string) (c c' : C) (z : Z) : Prop :=
  exists t, (ca_now c <= t <= ca_now c')%Z /\ z = stored_count (lookup_at t (ca_entries c) (key x)).

Lemma count_of_spec x c :
  exists z c', count_of x c = (Ok z, c') /\ ca_entries c' = ca_entries c /\ counted x c c' z.
Proof.
  unfold count_of, readCount, bind, attempt. destruct (cache_get (key x) c) as [r c'] eqn:E.
  pose proof (ca_get_law _ _ _ _ E) as (He & t & Ht & Hr).
  pose proof (ca_get_total (key x) c) as Htot. rewrite E in Htot. simpl in Htot.
  destruct r as [v|e|w]; [|destruct Htot as [|[= ->]]; [done|]|done].
  - eexists _, c'. split; [done|]. split; [done|]. exists t. split; [done|]. rewrite Hr. by destruct v.
  - eexists _, c'. split; [reflexivity|]. split; [done|]. exists t. split; [done|]. by rewrite Hr.
Qed.

Definition expiry (t : time) : option time := if (0 <? ll_window m)%Z then Some (t + ll_window m)%Z else None.

(** [x] was counted up between [c] and [c'], and nothing else changed. *)
Definition counted_up (x : string) (c c' : C) : Prop :=
  exists t1 t2, (ca_now c <= t1 <= t2)%Z /\ (t2 <= ca_now c')%Z /\
    ca_entries c' = <[key x := (CInt (stored_count (lookup_at t1 (ca_entries c) (key x)) + 1), expiry t2)]> (ca_entries c).

Lemma increment_spec x c : exists c', increment m x c = (Ok tt, c') /\ counted_up x c c'.
Proof.
  unfold increment, bind, attempt. destruct (count_of_spec x c) as (z & c1 & -> & He & t1 & Ht1 & ->).
  match goal with |- context [cache_set ?k ?v ?d c1] => destruct (cache_set k v d c1) as [r c2] eqn:E end.
  pose proof (ca_set_law _ _ _ _ _ _ E) as (Hn & Hr).
  match type of E with cache_set ?k ?v ?d _ = _ => pose proof (ca_set_total k v d c1) as Htot end. rewrite E in Htot. simpl in Htot. subst r.
  destruct Hr as (t2 & Ht2 & Hr). exists c2. split; [done|]. exists t1, t2. split_and!; try lia. by rewrite Hr, He.
Qed.

(** What a request is counted under, with the limits. *)
Definition charged (r : Request) : list (string * Z) :=
  let ip := extractClientIP m r in
  let username := fst (peekUsernameAndRestoreBody peek_json r) in
  (if String.eqb ip "" then [] else [(ip_suffix ip, ll_maxPerIP m)]) ++
  (if String.eqb username "" then [] else [(user_suffix SHA256 username, ll_maxPerUser m)]).

Lemma suffixes_differ ip u : ip_suffix ip <> user_suffix SHA256 u.
Proof. unfold ip_suffix, user_suffix. by intros [=]. Qed.

Lemma key_inj x y : key x = key y -> x = y.
Proof. unfold loginRateLimitKeyPrefix. simpl. by intros [=]. Qed.

(** The counts of all that [l] is charged to were below the limits, or the
    first that was not gives the answer. *)
Lemma shouldBlock_spec r c :
  exists b c', shouldBlock SHA256 m (extractClientIP m r) (fst (peekUsernameAndRestoreBody peek_json r)) c = (Ok b, c') /\
    ca_entries c' = ca_entries c /\ (ca_now c <= ca_now c')%Z /\
    match b with
    | None => forall x n, (x, n) ∈ charged r -> exists z, counted x c c' z /\ (z < n)%Z
    | Some _ => exists x n z, (x, n) ∈ charged r /\ counted x c c' z /\ (n <= z)%Z
    end.
Proof.
  unfold shouldBlock, charged, bind. set (ip := extractClientIP m r). set (u := fst (peekUsernameAndRestoreBody peek_json r)).
  assert (Hmono : forall x c1 c2 z, counted x c1 c2 z -> (ca_now c1 <= ca_now c2)%Z) by (intros x c1 c2 z (t & Ht & _); lia).
  assert (Hwide : forall x c0 c1 c2 c3 z, (ca_now c0 <= ca_now c1)%Z -> (ca_now c2 <= ca_now c3)%Z ->
    ca_entries c1 = ca_entries c0 -> counted x c1 c2 z -> counted x c0 c3 z).
  { intros x c0 c1 c2 c3 z H1' H2' He (t & Ht & Hz). exists t. rewrite <- He. split; [lia|done]. }
  assert (Hip : exists z c1, (if String.eqb ip "" then ret false else
      let! count := count_of (ip_suffix ip) in ret (ll_maxPerIP m <=? count)%Z) c = (Ok (negb (String.eqb ip "") && (ll_maxPerIP m <=? z)%Z), c1) /\
    ca_entries c1 = ca_entries c /\ (ca_now c <= ca_now c1)%Z /\ (ip <> ""%string -> counted (ip_suffix ip) c c1 z)).
  { destruct (String.eqb_spec ip "") as [->|Hne]; [exists 0%Z, c; by split_and!|]. unfold bind.
    destruct (count_of_spec (ip_suffix ip) c) as (z & c1 & -> & He & Hc). exists z, c1. split_and!; eauto. }
  destruct Hip as (z & c1 & E1 & He1 & Hn1 & Hz). unfold bind in E1. rewrite E1. clear E1.
  destruct (String.eqb_spec ip "") as [Hip|Hip]; cbn [negb andb]; [|destruct (Z.leb_spec (ll_maxPerIP m) z) as [Hle|Hlt]].
  2: { eexists _, c1. split; [done|]. split_and!; try done. exists (ip_suffix ip), (ll_maxPerIP m), z. split_and!; auto. set_solver. }
  all: (destruct (String.eqb_spec u "") as [Hu|Hu];
    [eexists _, c1; split; [done|]; split_and!; try done|
     destruct (count_of_spec (user_suffix SHA256 u) c1) as (z2 & c2 & -> & He2 & Hc2);
     pose proof (Hmono _ _ _ _ Hc2);
     cbn [ret]; unfold ret; destruct (Z.leb_spec (ll_maxPerUser m) z2);
     (eexists _, c2; split; [done|]; split_and!; [congruence|lia|])]).
  all: try (exists (user_suffix SHA256 u), (ll_maxPerUser m), z2; split_and!; [set_solver|by eapply (Hwide _ c c1 c2 c2); [..|exact Hc2]|done]).
  all: intros x n Hin; simpl in Hin; repeat (apply list.elem_of_cons in Hin as [[= -> ->]|Hin]); try (by apply list.elem_of_nil in Hin).
  all: try (exists z2; split; [by eapply (Hwide _ c c1 c2 c2); [..|exact Hc2]|done]).
  all: exists z; split; [|done]; eapply (Hwide _ c c c1 _); [lia| |done|by apply Hz]; lia.
Qed.

(** The failure of [r] was recorded: everything it is charged to went up, and
    nothing else changed. *)
Definition recorded (r : Request) (c c' : C) : Prop :=
  (forall x n, (x, n) ∈ charged r -> exists t1 t2, (ca_now c <= t1 <= t2)%Z /\ (t2 <= ca_now c')%Z /\
    ca_entries c' !! key x = Some (CInt (stored_count (lookup_at t1 (ca_entries c) (key x)) + 1), expiry t2)) /\
  (forall k, (forall x n, (x, n) ∈ charged r -> k <> key x) -> ca_entries c' !! k = ca_entries c !! k).

Lemma recordFailure_spec r c :
  exists c', recordFailure SHA256 m (extractClientIP m r) (fst (peekUsernameAndRestoreBody peek_json r)) c = (Ok tt, c') /\
    (ca_now c <= ca_now c')%Z /\ recorded r c c'.
Proof.
  unfold recordFailure, recorded, charged, bind.
  set (ip := extractClientIP m r). set (u := fst (peekUsernameAndRestoreBody peek_json r)).
  destruct (String.eqb_spec ip "") as [Hip|Hip], (String.eqb_spec u "") as [Hu|Hu]; simpl.
  - exists c. split_and!; [done|lia|intros x n Hin; by apply list.elem_of_nil in Hin|done].
  - destruct (increment_spec (user_suffix SHA256 u) c) as (c' & -> & t1 & t2 & Ht1 & Ht2 & He).
    exists c'. split_and!; [done|lia| |].
    + intros x n [= -> ->]%list_elem_of_singleton. exists t1, t2. by rewrite He, lookup_insert_eq.
    + intros k Hk. rewrite He, lookup_insert_ne; [done|]. intros <-. by apply (Hk (user_suffix SHA256 u) (ll_maxPerUser m)); [set_solver|].
  - destruct (increment_spec (ip_suffix ip) c) as (c' & -> & t1 & t2 & Ht1 & Ht2 & He).
    exists c'. split_and!; [done|lia| |].
    + intros x n [= -> ->]%list_elem_of_singleton. exists t1, t2. by rewrite He, lookup_insert_eq.
    + intros k Hk. rewrite He, lookup_insert_ne; [done|]. intros <-. by apply (Hk (ip_suffix ip) (ll_maxPerIP m)); [set_solver|].
  - destruct (increment_spec (ip_suffix ip) c) as (c1 & -> & t1 & t2 & Ht1 & Ht2 & He1).
    destruct (increment_spec (user_suffix SHA256 u) c1) as (c2 & -> & t3 & t4 & Ht3 & Ht4 & He2).
    assert (Hne : key (ip_suffix ip) <> key (user_suffix SHA256 u)) by (intros ?%key_inj; by eapply suffixes_differ).
    exists c2. split_and!; [done|lia| |].
    + intros x n [[= -> ->]|[= -> ->]%list_elem_of_singleton]%list.elem_of_cons.
      * exists t1, t2. rewrite He2, lookup_insert_ne, He1, lookup_insert_eq by done. split_and!; try lia. done.
      * exists t3, t4. rewrite He2, lookup_insert_eq. split_and!; try lia. do 3 f_equal.
        unfold lookup_at. by rewrite He1, lookup_insert_ne.
    + intros k Hk. rewrite He2, lookup_insert_ne, He1, lookup_insert_ne; [done| |].
      * intros <-. by apply (Hk (ip_suffix ip) (ll_maxPerIP m)); [set_solver|].
      * intros <-. by apply (Hk (user_suffix SHA256 u) (ll_maxPerUser m)); [set_solver|].
Qed.

(** One request through the middleware. *)
Definition step_spec (r : Request) (o : outcome) (c c' : C) : Prop :=
  (ca_now c <= ca_now c')%Z /\
  match o with
  | TooManyRequests _ _ => ca_entries c' = ca_entries c /\
      exists x n z, (x, n) ∈ charged r /\ counted x c c' z /\ (n <= z)%Z
  | Passed status => exists c1, ca_entries c1 = ca_entries c /\ (ca_now c <= ca_now c1 <= ca_now c')%Z /\
      (forall x n, (x, n) ∈ charged r -> exists z, counted x c c1 z /\ (z < n)%Z) /\
      if (status =? StatusUnauthorized)%Z then recorded r c1 c'
      else if (status =? StatusOK)%Z then
        let u := fst (peekUsernameAndRestoreBody peek_json r) in
        ca_entries c' = if String.eqb u "" then ca_entries c else delete (key (user_suffix SHA256 u)) (ca_entries c)
      else ca_entries c' = ca_entries c
  end.

Lemma Middleware_step r s o s' :
  Middleware peek_json SHA256 next m r s = (Ok o, s') -> step_spec r o (fst s) (fst s').
Proof.
  unfold Middleware. pose proof (shouldBlock_spec r (fst s)) as (b & c1 & Eb & He1 & Hn1 & Hb).
  destruct (peekUsernameAndRestoreBody peek_json r) as [u r'] eqn:Er. simpl in Eb.
  unfold bind at 1, on_cache at 1, zoom. rewrite Eb.
  destruct b as [[retry reason]|].
  { intros [= <- <-]. simpl. split; [done|]. by split. }
  unfold bind at 1, on_next, zoom. simpl. destruct (next r' (snd s)) as [[status|e|w] a]; [|done|done].
  unfold step_spec. cbn [fst]. unfold bind.
  destruct (status =? StatusUnauthorized)%Z eqn:E401; [|destruct (status =? StatusOK)%Z eqn:E200].
  - unfold on_cache, zoom. simpl. pose proof (recordFailure_spec r c1) as (c2 & E2 & Hn2 & Hr). rewrite Er in E2. simpl in E2.
    rewrite E2. intros [= <- <-]. rewrite E401. simpl. split; [lia|]. exists c1. split_and!; try done; lia.
  - destruct (String.eqb_spec u "") as [->|Hu].
    + intros [= <- <-]. rewrite E401, E200. simpl. split; [lia|]. exists c1. rewrite Er. split_and!; try done; lia.
    + unfold bind, attempt, on_cache, zoom. cbn [fst snd].
      destruct (cache_delete (key (user_suffix SHA256 u)) c1) as [rd c2] eqn:Ed.
      pose proof (ca_delete_law _ _ _ _ Ed) as (Hn2 & Hd). pose proof (ca_delete_total (key (user_suffix SHA256 u)) c1) as Htot.
      rewrite Ed in Htot. simpl in Htot. subst rd.
      intros [= <- <-]. rewrite E401, E200. simpl. split; [lia|]. exists c1.
      rewrite Er. simpl. rewrite (proj2 (String.eqb_neq u "") Hu), Hd, He1. split_and!; try done; lia.
  - intros [= <- <-]. rewrite E401, E200. simpl. split; [lia|]. exists c1. split_and!; try done; lia.
Qed.

(** ** Runs of requests *)

(** [r] failed and was counted under [x]. *)
Definition failed_under (x : string) (ro : Request * outcome) : bool :=
  match snd ro with
  | Passed status => (status =? StatusUnauthorized)%Z && bool_decide (x ∈ map fst (charged (fst ro)))
  | TooManyRequests _ _ => false
  end.
(** [r] succeeded and cleared the count [x]. *)
Definition cleared (x : string) (ro : Request * outcome) : Prop :=
  let u := fst (peekUsernameAndRestoreBody peek_json (fst ro)) in
  snd ro = Passed StatusOK /\ u <> ""%string /\ x = user_suffix SHA256 u.

Definition failures (x : string) (l : list (Request * outcome)) : nat :=
  length (filter (fun ro => failed_under x ro = true) l).

Lemma serve_cons r l s res s' :
  serve peek_json SHA256 next m (r :: l) s = (Ok res, s') ->
  exists o os s1, res = o :: os /\ Middleware peek_json SHA256 next m r s = (Ok o, s1) /\
    serve peek_json SHA256 next m l s1 = (Ok os, s').
Proof.
  simpl. unfold bind. destruct (Middleware _ _ _ _ r s) as [[o|e|w] s1]; [|done|done].
  destruct (serve _ _ _ _ l s1) as [[os|e|w] s2] eqn:E; [|done|done]. intros [= <- <-]. eauto 10.
Qed.

Lemma serve_mono l : forall s os s', serve peek_json SHA256 next m l s = (Ok os, s') ->
  (ca_now (fst s) <= ca_now (fst s'))%Z /\ length os = length l.
Proof.
  induction l as [|r l IH]; intros s os s' E.
  - simpl in E. unfold ret in E. injection E as <- <-. split; [lia|done].
  - apply serve_cons in E as (o & os' & s1 & -> & Em & E). apply IH in E as [Hn Hl].
    apply Middleware_step in Em as [Hn' _]. split; [lia|simpl; lia].
Qed.

Lemma failures_cons x r o l : failures x ((r, o) :: l) = (if failed_under x (r, o) then 1 else 0) + failures x l.
Proof. unfold failures. rewrite list.filter_cons. case_decide as Hd; [by rewrite Hd|]. by destruct (failed_under x (r, o)). Qed.

(** No count on record is negative, as when the limiter is the only writer. *)
Definition counts_ok (c : C) : Prop :=
  forall x v e, ca_entries c !! key x = Some (v, e) -> (0 <= stored_count (Some v))%Z.

Lemma counts_ok_read x t c : counts_ok c -> (0 <= stored_count (lookup_at t (ca_entries c) (key x)))%Z.
Proof.
  intros Hok. unfold lookup_at. destruct (ca_entries c !! key x) as [[v e]|] eqn:E; [|done].
  destruct (live t (v, e)); [|done]. by apply (Hok _ _ _ E).
Qed.

(** [n] failures are on record under [x] and stay there until [T]. *)
Definition at_least (x : string) (n : nat) (T : time) (c : C) : Prop :=
  n = 0 \/ exists z e, ca_entries c !! key x = Some (CInt z, e) /\ (Z.of_nat n <= z)%Z /\
    match e with None => True | Some t => (T <= t)%Z end.

Lemma at_least_read x n T c t : counts_ok c ->
  at_least x n T c -> (t <= T)%Z -> (Z.of_nat n <= stored_count (lookup_at t (ca_entries c) (key x)))%Z.
Proof.
  intros Hok [->|(z & e & He & Hz & Ht)] HtT; [by apply counts_ok_read|]. unfold lookup_at. rewrite He. unfold live. simpl.
  destruct e as [t'|]; [|done]. destruct (Z.ltb_spec t' t); [lia|done].
Qed.

Lemma at_least_same x n T c c' : ca_entries c' !! key x = ca_entries c !! key x -> at_least x n T c -> at_least x n T c'.
Proof. intros E. unfold at_least. by rewrite E. Qed.

(** At most [n] failures are on record under [x]. *)
Definition at_most (x : string) (n : nat) (c : C) : Prop :=
  forall t, (stored_count (lookup_at t (ca_entries c) (key x)) <= Z.of_nat n)%Z.

(** What one request does to the entry of [x]: nothing, one more, or it is
    cleared. *)
Lemma step_entry x r o c c' : step_spec r o c c' ->
  (ca_now c <= ca_now c')%Z /\
  if failed_under x (r, o)
  then exists t0 t1 t2 L, (x, L) ∈ charged r /\ (ca_now c <= t0 <= t1)%Z /\ (t1 <= t2 <= ca_now c')%Z /\
    (stored_count (lookup_at t0 (ca_entries c) (key x)) < L)%Z /\
    ca_entries c' !! key x = Some (CInt (stored_count (lookup_at t1 (ca_entries c) (key x)) + 1), expiry t2)
  else ca_entries c' !! key x = ca_entries c !! key x \/ cleared x (r, o) /\ ca_entries c' !! key x = None.
Proof.
  intros [Hn Hstep]. split; [done|]. unfold failed_under, cleared in *. cbn [fst snd] in *.
  destruct o as [status|retry reason]; [|left; by rewrite (proj1 Hstep)].
  destruct Hstep as (c1 & He1 & Hn1 & Hbelow & Hrest).
  destruct (status =? StatusUnauthorized)%Z eqn:E401; cbn [andb].
  - destruct Hrest as [Hup Hkeep]. case_bool_decide as Hx.
    + apply list_elem_of_fmap in Hx as ([x' k] & -> & Hin). cbn [fst] in *.
      destruct (Hbelow _ _ Hin) as (z & (t & Ht & ->) & Hlt).
      destruct (Hup _ _ Hin) as (t1 & t2 & Ht1 & Ht2 & Hent).
      exists t, t1, t2, k. rewrite <- He1. split_and!; [done|lia|lia|lia|lia|by rewrite He1|done].
    + left. rewrite Hkeep, He1; [done|].
      intros y k Hin E. apply key_inj in E as <-. apply Hx, list_elem_of_fmap. by exists (x, k).
  - destruct (status =? StatusOK)%Z eqn:E200; [|left; by rewrite Hrest].
    cbv zeta in Hrest. destruct (String.eqb_spec (fst (peekUsernameAndRestoreBody peek_json r)) "") as [Hu|Hu]; [left; by rewrite Hrest|].
    rewrite Hrest, lookup_delete. case_decide as Hk; [|by left]. apply key_inj in Hk as <-.
    right. apply Z.eqb_eq in E200. subst. auto.
Qed.

Lemma counts_ok_step r o c c' : step_spec r o c c' -> counts_ok c -> counts_ok c'.
Proof.
  intros Hs Hok x v e E. destruct (step_entry x _ _ _ _ Hs) as [_ He]. destruct (failed_under x (r, o)).
  - destruct He as (t0 & t1 & t2 & L & _ & _ & _ & _ & He). rewrite He in E. injection E as <- <-.
    pose proof (counts_ok_read x t1 c Hok). simpl. lia.
  - destruct He as [He|[_ He]]; rewrite He in E; [by apply (Hok _ _ _ E)|done].
Qed.

Lemma at_most_step x n r o c c' :
  step_spec r o c c' -> at_most x n c -> at_most x ((if failed_under x (r, o) then 1 else 0) + n) c'.
Proof.
  intros Hs Hat t. destruct (step_entry x _ _ _ _ Hs) as [_ He]. destruct (failed_under x (r, o)).
  - destruct He as (t0 & t1 & t2 & L & _ & _ & _ & _ & He). unfold lookup_at. rewrite He.
    pose proof (Hat t1). case_match; simpl; lia.
  - destruct He as [He|[_ He]]; unfold lookup_at; rewrite He; [by apply Hat|simpl; lia].
Qed.

Lemma at_least_step x n L T r o c c' :
  step_spec r o c c' -> counts_ok c -> at_least x n T c -> (ca_now c' <= T <= ca_now c + ll_window m)%Z ->
  (forall k, (x, k) ∈ charged r -> k = L) -> ~ cleared x (r, o) ->
  at_least x ((if failed_under x (r, o) then 1 else 0) + n) T c' /\
  (failed_under x (r, o) = true -> (Z.of_nat n < L)%Z).
Proof.
  intros Hs Hok Hat HT HL Hcl. destruct (step_entry x _ _ _ _ Hs) as [Hn He]. destruct (failed_under x (r, o)).
  - destruct He as (t0 & t1 & t2 & k & Hin & Ht0 & Ht1 & Hlt & Hent). pose proof (HL k Hin) as ->.
    assert (Hr : forall t, (t <= T)%Z -> (Z.of_nat n <= stored_count (lookup_at t (ca_entries c) (key x)))%Z)
      by (intros t Ht; by apply (at_least_read x n T)).
    split; [|intros _; pose proof (Hr t0); lia]. right. eexists _, _. split; [exact Hent|]. split; [pose proof (Hr t1); lia|].
    unfold expiry. destruct (0 <? ll_window m)%Z; [lia|done].
  - split; [|done]. destruct He as [He|[He _]]; [by apply (at_least_same _ _ _ c)|done].
Qed.

(** The failures let through while the window is open stay within the limit of
    what they are counted under. *)
Lemma serve_bounded x L T l : forall s os s' n,
  serve peek_json SHA256 next m l s = (Ok os, s') -> counts_ok (fst s) -> at_least x n T (fst s) ->
  (ca_now (fst s') <= T <= ca_now (fst s) + ll_window m)%Z ->
  (forall r k, (x, k) ∈ charged r -> k = L) -> (forall ro, ro ∈ zip l os -> ~ cleared x ro) ->
  (Z.of_nat (failures x (zip l os) + n) <= Z.max (Z.of_nat n) L)%Z.
Proof.
  induction l as [|r l IH]; intros s os s' n E Hok Hat HT HL Hcl; [simpl; lia|].
  apply serve_cons in E as (o & os' & s1 & -> & Em & E). apply Middleware_step in Em as Hs.
  destruct (serve_mono _ _ _ _ E) as [Hn _]. pose proof (proj1 Hs). simpl in Hcl |- *. rewrite failures_cons.
  destruct (at_least_step x n L T _ _ _ _ Hs Hok Hat) as [Hat' Hlt]; [lia|by apply HL|apply Hcl; set_solver|].
  assert (Hi : (Z.of_nat (failures x (zip l os') + ((if failed_under x (r, o) then 1 else 0) + n)) <=
    Z.max (Z.of_nat ((if failed_under x (r, o) then 1 else 0) + n)) L)%Z).
  { apply (IH s1 os' s'); [done|by eapply counts_ok_step|done|lia|done|]. intros ro Hro. apply Hcl. set_solver. }
  destruct (failed_under x (r, o)); [specialize (Hlt eq_refl)|]; lia.
Qed.

Lemma serve_explained l : forall s os s' n,
  serve peek_json SHA256 next m l s = (Ok os, s') -> (forall x, at_most x (n x) (fst s)) ->
  forall pre r retry reason post, zip l os = pre ++ (r, TooManyRequests retry reason) :: post ->
  exists x L, (x, L) ∈ charged r /\ (L <= Z.of_nat (failures x pre + n x))%Z.
Proof.
  induction l as [|r l IH]; intros s os s' n E Hat pre r' retry reason post Hz; [by destruct pre|].
  apply serve_cons in E as (o & os' & s1 & -> & Em & E). apply Middleware_step in Em as Hs.
  destruct pre as [|[r0 o0] pre]; simpl in Hz.
  - injection Hz as -> -> Hz. destruct Hs as (_ & _ & x & L & z & Hin & (t & _ & ->) & Hle).
    exists x, L. split; [done|]. pose proof (Hat x t). simpl. lia.
  - injection Hz as -> -> Hz.
    assert (Hat1 : forall x, at_most x ((if failed_under x (r0, o0) then 1 else 0) + n x) (fst s1))
      by (intros x; apply at_most_step with (1 := Hs), Hat).
    destruct (IH s1 os' s' _ E Hat1 _ _ _ _ _ Hz) as (x & L & Hin & Hle).
    exists x, L. split; [done|]. rewrite failures_cons. lia.
Qed.

End specs.

(** When the cache cannot be read every count is zero. *)
Lemma cache_failure_lets_through {C} `{Cache C} SHA256 m ip username (c : C) :
  (forall k c, exists e, fst (cache_get k c) = Err e /\ errors_is e ErrNotFound = false) ->
  (0 < ll_maxPerIP m)%Z -> (0 < ll_maxPerUser m)%Z ->
  fst (shouldBlock SHA256 m ip username c) = Ok None.
Proof.
  intros Hfail Hip Huser.
  assert (Hcount : forall x c, exists c', count_of x c = (Ok 0%Z, c')).
  { intros x c0. unfold count_of, readCount, bind, attempt. destruct (Hfail (loginRateLimitKeyPrefix +:+ x) c0) as (e & Ee & Hnf).
    destruct (cache_get _ c0) as [r c1]. simpl in Ee. subst r. rewrite Hnf. by eexists. }
  unfold shouldBlock, bind. destruct (String.eqb ip "").
  - destruct (String.eqb username ""); [done|]. cbn [ret]. unfold ret at 1. destruct (Hcount (user_suffix SHA256 username) c) as [c' ->].
    unfold ret. by rewrite (proj2 (Z.leb_gt _ _) Huser).
  - destruct (Hcount (ip_suffix ip) c) as [c1 ->]. unfold ret at 1. rewrite (proj2 (Z.leb_gt _ _) Hip).
    destruct (String.eqb username ""); [done|]. destruct (Hcount (user_suffix SHA256 username) c1) as [c2 ->].
    unfold ret. by rewrite (proj2 (Z.leb_gt _ _) Huser).
Qed.

(** ** A run on the in-memory cache *)

#[local] Existing Instance ticking.
Definition plain : Unicode := {| unicode_lower s := s; unicode_trim s := s; unicode_fold s t := String.eqb s t |}.
#[local] Existing Instance plain.

Definition sample_limiter : LoginRateLimitMiddleware := NewLoginRateLimitMiddleware [WithLoginRateLimitPerUsername 1].
Definition sample_login : Request := mkRequest "10.0.0.7:4711" (fun _ => ""%string) (Some ("alice"%string, false)).

(** A handler that knows no password, behind a body that is the login. *)
Definition sample_serve : list Request -> M (InMemory * unit) (list outcome) :=
  serve (fun body => Some (body, ""%string)) (fun s => s) (fun _ => ret StatusUnauthorized) sample_limiter.


(** Two guesses for one account with a limit of one, both checked before the
    failure of either is recorded: both pass. *)
Lemma overlapping_guesses_pass :
  let check := shouldBlock (fun s => s) sample_limiter "10.0.0.7" "alice" in
  let record := recordFailure (fun s => s) sample_limiter "10.0.0.7" "alice" in
  let '(b1, c1) := check NewInMemory in
  let '(b2, c2) := check c1 in
  let c4 := snd (record (snd (record c2))) in
  b1 = Ok None /\ b2 = Ok None /\ ll_maxPerUser sample_limiter = 1%Z /\
  fst (count_of (user_suffix (fun s => s) "alice") c4) = Ok 2%Z.
Proof. vm_compute. repeat split. Qed.
