(* ===== verification/Http.v ===== *)
(** Requests, answers and errors of the HTTP API ([pkg/api/error.go],
    [pkg/api/reader.go], [pkg/api/responder.go]). *)

From S2P Require Import Prelude.
From S2P Require Import GoNum.
From S2P Require Import Domain.
From S2P Require Import GoRuntime.
From stdpp Require Import base tactics strings list numbers.
From Stdlib Require Import NArith ZArith Ascii.

Definition StatusOK : Z := 200.
Definition StatusCreated : Z := 201.
Definition StatusNoContent : Z := 204.
Definition StatusBadRequest : Z := 400.
Definition StatusUnauthorized : Z := 401.
Definition StatusForbidden : Z := 403.
Definition StatusNotFound : Z := 404.
Definition StatusConflict : Z := 409.
Definition StatusUnprocessableEntity : Z := 422.
Definition StatusInternalServerError : Z := 500.

(** An error handed to [WriteError]: one that carries its status ([api.Error]
    by [NewError], or [WrapHTTPError]), or any other. *)
Inductive api_error : Type :=
| APIError (code : Z) (message : string)
| WrapHTTPError (cause : error) (code : Z)
| OtherError (e : error).

Definition NewNotFoundError (message : string) : api_error :=
  APIError StatusNotFound (if String.eqb message "" then "Not found" else message).
Definition NewValidationError (message : string) : api_error :=
  APIError StatusUnprocessableEntity (if String.eqb message "" then "Validation error" else message).

(** The status [WriteError] sends; [bad_request] are the errors of the JSON and
    multipart readers it knows. *)
Definition HTTPStatus (bad_request : error -> bool) (e : api_error) : Z :=
  match e with
  | APIError code _ => code
  | WrapHTTPError _ code => code
  | OtherError e => if bad_request e then StatusBadRequest else StatusInternalServerError
  end.

(** What a handler answers. *)
Inductive Response (B : Type) : Type :=
| Write (status : Z) (body : B)
| WriteHeader (status : Z)
| WriteError (e : api_error).
Arguments Write {B}. Arguments WriteHeader {B}. Arguments WriteError {B}.

(** A request, with what the code reads of it: the [Authorization] header, the
    [token] of the query and of the cookie, the variables of the path. *)
Record Request : Type := mkRequest {
  rq_Method : string; rq_Authorization : string; rq_QueryToken : string; rq_Cookie : option string;
  rq_Vars : string -> string; rq_Body : string;
}.

(** [strconv.Atoi] *)
Definition Atoi (s : string) : result Z :=
  let '(neg, digits) :=
    match s with
    | String "-"%char rest => (true, rest)
    | String "+"%char rest => (false, rest)
    | _ => (false, s)
    end in
  match ParseUint digits with
  | Ok n => if (if neg then (2 ^ 63 <? n)%N else (2 ^ 63 <=? n)%N) then Err (ENew "value out of range")
            else Ok (if neg then - Z.of_N n else Z.of_N n)%Z
  | Err e => Err e
  | Panic w => Panic w
  end.

Definition ErrInvalidValue : error := ENew "value is invalid".

(** [InputReader.ReadUint] *)
Definition ReadUint (r : Request) (key : string) : result N :=
  match Atoi (rq_Vars r key) with
  | Ok value => if (value <? 0)%Z then Err ErrInvalidValue else Ok (Z.to_N value)
  | Err e => Err (EWrap "failed to convert to int" e)
  | Panic w => Panic w
  end.

Lemma ParseUint_nopanic s w : ParseUint s <> Panic w.
Proof.
  unfold ParseUint. destruct s as [|c s]; [done|]. generalize 0%N (String c s). intros acc t. revert acc.
  induction t as [|d t IH]; intros acc; simpl; repeat case_match; try done; try apply IH.
Qed.

Lemma Atoi_nopanic s w : Atoi s <> Panic w.
Proof.
  unfold Atoi. destruct (match s with String "-"%char rest => _ | String "+"%char rest => _ | _ => _ end) as [neg digits].
  destruct (ParseUint digits) eqn:E; [by case_match|done|]. by apply ParseUint_nopanic in E.
Qed.

Lemma FormatUint_plain n : (n < two64)%N ->
  match FormatUint n with String "-"%char _ | String "+"%char _ => False | _ => True end.
Proof.
  intros Hn. pose proof (ParseUint_FormatUint n Hn) as Hp. destruct (FormatUint n) as [|c s]; [done|].
  destruct c as [[] [] [] [] [] [] [] []]; try done; vm_compute in Hp; done.
Qed.

(** What [%d] prints of an id is read back. *)
Lemma Atoi_FormatUint n : (n < 2 ^ 63)%N -> Atoi (FormatUint n) = Ok (Z.of_N n).
Proof.
  intros Hn. assert (Hn2 : (n < two64)%N) by (unfold two64; lia). pose proof (FormatUint_plain n Hn2) as Hpl.
  assert (E : Atoi (FormatUint n) = match ParseUint (FormatUint n) with
    | Ok n => if (2 ^ 63 <=? n)%N then Err (ENew "value out of range") else Ok (Z.of_N n)
    | Err e => Err e | Panic w => Panic w end).
  { unfold Atoi. destruct (FormatUint n) as [|c s]; [done|]. by destruct c as [[] [] [] [] [] [] [] []]. }
  rewrite E, ParseUint_FormatUint by done. destruct (N.leb_spec (2 ^ 63) n); [lia|done].
Qed.
