(* ===== verification/Accounts.v ===== *)
(** Accounts of the panel: users and personal access tokens
    ([internal/domain/user.go], [internal/domain/auth.go]), their filters
    ([internal/filters/users.go], [internal/filters/personal_access_tokens.go]),
    their repository interfaces as classes with laws, and the user service
    ([internal/services/user.go]). *)

From S2P Require Import Prelude.
From S2P Require Import GoNum.
From S2P Require Import Domain.
From S2P Require Import GoRuntime.
From S2P Require Import Repositories.
From S2P Require Import TaskRepo.
From S2P Require Import RBACRepo.
From stdpp Require Import base tactics strings list gmap numbers.
From Stdlib Require Import NArith ZArith.

(** ** Users *)

Record User : Type := mkUser {
  us_ID : N; us_Login : string; us_Email : string; us_Password : string;
  us_RememberToken : option string; us_Name : option string;
  us_CreatedAt : option time; us_UpdatedAt : option time;
}.
Definition us_set_id (i : N) (u : User) : User :=
  mkUser i (us_Login u) (us_Email u) (us_Password u) (us_RememberToken u) (us_Name u) (us_CreatedAt u) (us_UpdatedAt u).
Definition us_set_times (c d : option time) (u : User) : User :=
  mkUser (us_ID u) (us_Login u) (us_Email u) (us_Password u) (us_RememberToken u) (us_Name u) c d.
Definition us_set_login (l : string) (u : User) : User :=
  mkUser (us_ID u) l (us_Email u) (us_Password u) (us_RememberToken u) (us_Name u) (us_CreatedAt u) (us_UpdatedAt u).
Definition us_set_profile (email password : string) (name : option string) (u : User) : User :=
  mkUser (us_ID u) (us_Login u) email password (us_RememberToken u) name (us_CreatedAt u) (us_UpdatedAt u).

Record FindUser : Type := mkFindUser { fu_IDs : list N; fu_Logins : list string; fu_Emails : list string }.
Definition FindUserByIDs (ids : list N) : FindUser := mkFindUser ids [] [].
Definition FindUserByLogins (logins : list string) : FindUser := mkFindUser [] logins [].
Definition FindUserByEmails (emails : list string) : FindUser := mkFindUser [] [] emails.

(** [FilterCount]: how many kinds of condition a filter has. *)
Definition kinds (l : list bool) : Z := Z.of_nat (length (filter (fun b => b = true) l)).
Definition FindUser_FilterCount (f : FindUser) : Z := kinds [nonempty (fu_IDs f); nonempty (fu_Logins f); nonempty (fu_Emails f)].

Definition user_matches (f : FindUser) (u : User) : bool :=
  in_or_any (us_ID u) (fu_IDs f) && in_or_any (us_Login u) (fu_Logins f) && in_or_any (us_Email u) (fu_Emails f).

(** ** Personal access tokens *)

Definition PATAbilityServerCreate : string := "admin:server:create".
Definition PATAbilityGDaemonTaskRead : string := "admin:gdaemon-task:read".
Definition PATAbilityServerList : string := "server:list".
Definition PATAbilityServerStart : string := "server:start".
Definition PATAbilityServerStop : string := "server:stop".
Definition PATAbilityServerRestart : string := "server:restart".
Definition PATAbilityServerUpdate : string := "server:update".
Definition PATAbilityServerConsole : string := "server:console".
Definition PATAbilityServerRconConsole : string := "server:rcon-console".
Definition PATAbilityServerRconPlayers : string := "server:rcon-players".
Definition PATAbilityServerTasksManage : string := "server:tasks-manage".
Definition PATAbilityServerSettingsManage : string := "server:settings-manage".
Definition PATAbilityGroupServer : string := "server".
Definition PATAbilityGroupGDaemonTask : string := "gdaemon-task".

Record PersonalAccessToken : Type := mkPAT {
  pa_ID : N; pa_TokenableType : string; pa_TokenableID : N; pa_Name : string; pa_Token : string;
  pa_Abilities : option (list string);
  pa_LastUsedAt : option time; pa_CreatedAt : option time; pa_UpdatedAt : option time;
}.
Definition pa_set_id (i : N) (t : PersonalAccessToken) : PersonalAccessToken :=
  mkPAT i (pa_TokenableType t) (pa_TokenableID t) (pa_Name t) (pa_Token t) (pa_Abilities t) (pa_LastUsedAt t) (pa_CreatedAt t) (pa_UpdatedAt t).
Definition pa_set_times (c d : option time) (t : PersonalAccessToken) : PersonalAccessToken :=
  mkPAT (pa_ID t) (pa_TokenableType t) (pa_TokenableID t) (pa_Name t) (pa_Token t) (pa_Abilities t) (pa_LastUsedAt t) c d.
Definition pa_set_used (l : option time) (t : PersonalAccessToken) : PersonalAccessToken :=
  mkPAT (pa_ID t) (pa_TokenableType t) (pa_TokenableID t) (pa_Name t) (pa_Token t) (pa_Abilities t) l (pa_CreatedAt t) (pa_UpdatedAt t).

(** The methods read through the pointer to the list. *)
Definition HasAbility (t : PersonalAccessToken) (ability : string) : result bool :=
  match pa_Abilities t with
  | None => Panic "nil pointer dereference"
  | Some l => Ok (existsb (String.eqb ability) l)
  end.
Fixpoint HasAnyAbility (t : PersonalAccessToken) (abilities : list string) : result bool :=
  match abilities with
  | [] => Ok false
  | a :: l => let? b := HasAbility t a in if b then Ok true else HasAnyAbility t l
  end.
Fixpoint HasAllAbilities (t : PersonalAccessToken) (abilities : list string) : result bool :=
  match abilities with
  | [] => Ok true
  | a :: l => let? b := HasAbility t a in if b then HasAllAbilities t l else Ok false
  end.

Definition GetUserAbilities : list string :=
  [PATAbilityServerList; PATAbilityServerStart; PATAbilityServerStop; PATAbilityServerRestart; PATAbilityServerUpdate;
   PATAbilityServerConsole; PATAbilityServerRconConsole; PATAbilityServerRconPlayers; PATAbilityServerTasksManage;
   PATAbilityServerSettingsManage].
Definition GetAdminAbilities : list string := [PATAbilityServerCreate; PATAbilityGDaemonTaskRead].
Definition GetAllAbilities : list string := GetUserAbilities ++ GetAdminAbilities.

Definition GetAbilityDescriptions : gmap string string := list_to_map [
  (PATAbilityServerCreate, "Create game server");
  (PATAbilityGDaemonTaskRead, "Read GameAP Daemon task");
  (PATAbilityServerList, "List game servers");
  (PATAbilityServerStart, "Start game server");
  (PATAbilityServerStop, "Stop game server");
  (PATAbilityServerRestart, "Restart game server");
  (PATAbilityServerUpdate, "Update game server");
  (PATAbilityServerConsole, "Access to read and write into game server console");
  (PATAbilityServerRconConsole, "Access to game server RCON console");
  (PATAbilityServerRconPlayers, "Access to players management on game server");
  (PATAbilityServerTasksManage, "Manage game server tasks");
  (PATAbilityServerSettingsManage, "Manage game server settings")]%string.

Definition describe (ability : string) : string * string := (ability, default ""%string (GetAbilityDescriptions !! ability)).
Definition GetGroupedAbilities (includeAdmin : bool) : gmap string (list (string * string)) :=
  let serverAbilities := map describe GetUserAbilities in
  if includeAdmin then
    <[PATAbilityGroupServer := serverAbilities ++ [describe PATAbilityServerCreate]]>
      {[PATAbilityGroupGDaemonTask := [describe PATAbilityGDaemonTaskRead]]}
  else {[PATAbilityGroupServer := serverAbilities]}.

Definition ValidateAbility (ability : string) : bool := existsb (fun a => String.eqb a ability) GetAllAbilities.
Definition ParseAbilities (abilities : list string) : list string := List.filter ValidateAbility abilities.

Record FindPersonalAccessToken : Type := mkFindPAT {
  fp_IDs : list N; fp_Tokens : list string; fp_TokenableTypes : list string; fp_TokenableIDs : list N;
}.
Definition FindPersonalAccessTokenByIDs (ids : list N) : FindPersonalAccessToken := mkFindPAT ids [] [] [].
Definition FindPAT_FilterCount (f : FindPersonalAccessToken) : Z :=
  kinds [nonempty (fp_IDs f); nonempty (fp_Tokens f); nonempty (fp_TokenableTypes f); nonempty (fp_TokenableIDs f)].

Definition pat_matches (f : FindPersonalAccessToken) (t : PersonalAccessToken) : bool :=
  in_or_any (pa_ID t) (fp_IDs f) && in_or_any (pa_Token t) (fp_Tokens f) &&
  in_or_any (pa_TokenableType t) (fp_TokenableTypes f) && in_or_any (pa_TokenableID t) (fp_TokenableIDs f).

Lemma ParseAbilities_valid l : forallb ValidateAbility l = true -> ParseAbilities l = l.
Proof. induction l as [|a l IH]; [done|]. simpl. by destruct (ValidateAbility a); [intros ->%IH|]. Qed.

(** ** Repositories *)

Class UserRepository (R : Type) : Type := {
  US_Find : R -> FindUser -> list Sorting -> option Pagination -> result (list User);
  US_Save : User -> M R User;
  US_Delete : N -> M R unit;
}.

(** [us_norm] is what an implementation does to the logins it is given, both to
    look them up and to store them. *)
Class UserRepositoryLaws (R : Type) `{UserRepository R} : Type := {
  us_inv : R -> Prop;
  us_rows : R -> gmap N User;
  us_room : nat -> R -> Prop;
  us_norm : string -> string;
  us_rows_id : forall r i u, us_inv r -> us_rows r !! i = Some u -> us_ID u = i /\ i <> 0%N;
  us_find_law : forall r f p, us_inv r ->
    selects us_ID (us_rows r) (user_matches (mkFindUser (fu_IDs f) (map us_norm (fu_Logins f)) (fu_Emails f))) p (US_Find r f [] p);
  us_save_law : forall u r res r', us_inv r ->
    (if decide (us_ID u = 0%N) then us_room 1 r else is_Some (us_rows r !! us_ID u)) ->
    US_Save u r = (res, r') ->
    us_inv r' /\
    (forall k, us_room (if decide (us_ID u = 0%N) then S k else k) r -> us_room k r') /\
    match res with
    | Ok u' => (exists created updated, u' = us_set_times created updated (us_set_login (us_norm (us_Login u)) (us_set_id (us_ID u') u))) /\
        us_rows r' = <[us_ID u' := u']> (us_rows r) /\
        (if decide (us_ID u = 0%N) then us_rows r !! us_ID u' = None else us_ID u' = us_ID u)
    | Err _ => us_rows r' = us_rows r
    | Panic _ => False
    end;
  us_delete_law : forall i r res r', us_inv r -> US_Delete i r = (res, r') ->
    us_inv r' /\ (forall k, us_room k r -> us_room k r') /\
    match res with
    | Ok _ => us_rows r' = delete i (us_rows r)
    | Err _ => us_rows r' = us_rows r
    | Panic _ => False
    end;
}.

Class PersonalAccessTokenRepository (R : Type) : Type := {
  PT_Find : FindPersonalAccessToken -> list Sorting -> option Pagination -> M R (list PersonalAccessToken);
  PT_Save : PersonalAccessToken -> M R PersonalAccessToken;
  PT_Delete : N -> M R unit;
  PT_UpdateLastUsedAt : N -> time -> M R unit;
}.

(** Without an order the tokens come in any. *)
Class PersonalAccessTokenRepositoryLaws (R : Type) `{PersonalAccessTokenRepository R} : Type := {
  pt_inv : R -> Prop;
  pt_rows : R -> gmap N PersonalAccessToken;
  pt_room : nat -> R -> Prop;
  pt_rows_id : forall r i t, pt_inv r -> pt_rows r !! i = Some t -> pa_ID t = i /\ i <> 0%N;
  pt_find_law : forall r f o p res r', pt_inv r -> PT_Find f o p r = (res, r') ->
    pt_inv r' /\ pt_rows r' = pt_rows r /\ (forall k, pt_room k r -> pt_room k r') /\
    exists all, NoDup all /\ (forall t, t ∈ all <-> pt_rows r !! pa_ID t = Some t /\ pat_matches f t = true) /\
      match res with
      | Ok l => applyPagination all p = Ok l
      | Err _ => True
      | Panic _ => match p with Some pg => (two64 <= pg_Offset pg + N.max DefaultLimit (pg_Limit pg))%N | None => False end
      end;
  pt_save_law : forall t r res r', pt_inv r ->
    (if decide (pa_ID t = 0%N) then pt_room 1 r else True) ->
    PT_Save t r = (res, r') ->
    pt_inv r' /\
    (forall k, pt_room (if decide (pa_ID t = 0%N) then S k else k) r -> pt_room k r') /\
    match res with
    | Ok t' => (exists created updated, t' = pa_set_times created updated (pa_set_id (pa_ID t') t)) /\
        pt_rows r' = <[pa_ID t' := t']> (pt_rows r) /\
        (if decide (pa_ID t = 0%N) then pt_rows r !! pa_ID t' = None else pa_ID t' = pa_ID t /\ is_Some (pt_rows r !! pa_ID t))
    | Err _ => pt_rows r' = pt_rows r
    | Panic _ => False
    end;
  pt_delete_law : forall i r res r', pt_inv r -> PT_Delete i r = (res, r') ->
    pt_inv r' /\ (forall k, pt_room k r -> pt_room k r') /\
    match res with
    | Ok _ => pt_rows r' = delete i (pt_rows r)
    | Err _ => pt_rows r' = pt_rows r
    | Panic _ => False
    end;
  pt_used_law : forall i t r res r', pt_inv r -> PT_UpdateLastUsedAt i t r = (res, r') ->
    pt_inv r' /\ (forall k, pt_room k r -> pt_room k r') /\
    match res with
    | Ok _ => pt_rows r' = alter (pa_set_used (Some t)) i (pt_rows r)
    | Err _ => pt_rows r' = pt_rows r
    | Panic _ => False
    end;
}.

(** Looking for one id finds that row. *)
Lemma pat_by_id {R} `{PersonalAccessTokenRepositoryLaws R} i p (r : R) : (p = None \/ p = only_first) -> pt_inv r ->
  exists res r', PT_Find (FindPersonalAccessTokenByIDs [i]) [] p r = (res, r') /\
    pt_inv r' /\ pt_rows r' = pt_rows r /\ (forall k, pt_room k r -> pt_room k r') /\
    match res with
    | Ok l => l = match pt_rows r !! i with Some t => [t] | None => [] end
    | Err _ => True
    | Panic _ => False
    end.
Proof.
  intros Hp Hi. destruct (PT_Find _ [] p r) as [res r'] eqn:E. exists res, r'. split; [done|].
  destruct (pt_find_law _ _ _ _ _ _ Hi E) as (Hi' & Hr & Hroom & all & Hnd & Hel & Hres). split_and!; [done..|].
  assert (Hall : all = match pt_rows r !! i with Some t => [t] | None => [] end).
  { assert (Hiff : forall t, t ∈ all <-> pt_rows r !! i = Some t).
    { intros t. rewrite Hel. unfold pat_matches. simpl. rewrite !andb_true_r, bool_decide_eq_true, list_elem_of_singleton. split.
      - by intros [Ht <-].
      - intros Ht. destruct (pt_rows_id _ _ _ Hi Ht) as [-> _]. done. }
    destruct (pt_rows r !! i) as [t|] eqn:Et.
    - apply Permutation_singleton_r. apply NoDup_Permutation; [done|apply NoDup_singleton|]. intros x. rewrite Hiff, list_elem_of_singleton. naive_solver.
    - destruct all as [|x all]; [done|]. exfalso. assert (Hx : x ∈ x :: all) by set_solver. apply Hiff in Hx. done. }
  rewrite Hall in Hres. destruct Hp as [-> | ->].
  - destruct res as [l|e|w]; [by injection Hres|done|done].
  - rewrite applyPagination_first in Hres. destruct res as [l|e|w]; [injection Hres as <-|done|done]. by destruct (pt_rows r !! i).
Qed.

(** ** The user service *)

Record UserService (R : Type) : Type := mkUserService { sv_repo : R; sv_ticks : N }.
Arguments mkUserService {R}. Arguments sv_repo {R}. Arguments sv_ticks {R}.

Section service.
Context {R : Type} `{UserRepository R} `{WallClock} `{Unicode}.

Definition svc_Find (s : UserService R) (f : FindUser) (order : list Sorting) (p : option Pagination) : result (list User) :=
  let f := if nonempty (fu_Logins f) then mkFindUser (fu_IDs f) (map ToLower (fu_Logins f)) (fu_Emails f) else f in
  US_Find (sv_repo s) f order p.

Definition svc_now : M (UserService R) time := fun s => (Ok (now_at (sv_ticks s)), mkUserService (sv_repo s) (sv_ticks s + 1)).
Definition svc_on_repo {B} (x : M R B) : M (UserService R) B := zoom sv_repo (fun r s => mkUserService r (sv_ticks s)) x.

Definition svc_Save (u : User) : M (UserService R) User :=
  let u := us_set_login (ToLower (us_Login u)) u in
  let! u := (if match us_CreatedAt u with None => true | Some t => IsZero t end
             then let! created := svc_now in ret (us_set_times (Some created) (us_UpdatedAt u) u) else ret u) in
  let! updated := svc_now in
  svc_on_repo (US_Save (us_set_times (us_CreatedAt u) (Some updated) u)).

Definition svc_Delete (i : N) : M (UserService R) unit := svc_on_repo (US_Delete i).

#[export] Instance userService : UserRepository (UserService R) := {
  US_Find := svc_Find; US_Save := svc_Save; US_Delete := svc_Delete;
}.
End service.

(** The service promises what the repository below it does, for logins in lower
    case. *)
#[export, program] Instance userService_laws {R} `{UserRepositoryLaws R} `{WallClock} `{Unicode} : UserRepositoryLaws (UserService R) := {
  us_inv s := us_inv (sv_repo s); us_rows s := us_rows (sv_repo s); us_room k s := us_room k (sv_repo s);
  us_norm l := us_norm (ToLower l);
}.
Next Obligation. intros R H Hl C U r i u Hi Hr. simpl in *. by apply (us_rows_id (sv_repo r)). Qed.
Next Obligation.
  intros R H Hl C U r f p Hi. simpl. unfold svc_Find. destruct f as [ids [|l ls] emails]; [by apply us_find_law|].
  cbn [nonempty fu_Logins fu_IDs fu_Emails]. pose proof (us_find_law (sv_repo r) (mkFindUser ids (map ToLower (l :: ls)) emails) p Hi) as Hf.
  cbn [fu_Logins fu_IDs fu_Emails] in Hf. by rewrite map_map in Hf.
Qed.
Next Obligation.
  intros R H Hl C U u r res r' Hi Hsv E. simpl in *. unfold svc_Save in E.
  set (u1 := us_set_login (ToLower (us_Login u)) u) in *.
  assert (Hs : exists c d n, svc_on_repo (US_Save (us_set_times c d u1)) (mkUserService (sv_repo r) n) = (res, r')).
  { unfold bind, svc_now, ret in E. destruct (match us_CreatedAt u1 with None => true | Some t => IsZero t end); by eexists _, _, _. }
  destruct Hs as (c & d & n & Es). unfold svc_on_repo, zoom in Es. simpl in Es.
  destruct (US_Save (us_set_times c d u1) (sv_repo r)) as [res0 r0] eqn:E0. injection Es as <- <-. simpl.
  destruct (us_save_law (us_set_times c d u1) (sv_repo r) res0 r0 Hi Hsv E0) as (Hi' & Hroom & Hres).
  split_and!; [done|exact Hroom|]. destruct res0 as [u'|e|w]; [|done|done]. destruct Hres as ((c' & d' & Hu') & Hrows & Hnew).
  split_and!; [|done|done]. exists c', d'. rewrite Hu' at 1. reflexivity.
Qed.
Next Obligation.
  intros R H Hl C U i r res r' Hi E. simpl in *. unfold svc_Delete, svc_on_repo, zoom in E.
  destruct (US_Delete i (sv_repo r)) as [res0 r0] eqn:E0. injection E as <- <-. by apply (us_delete_law i (sv_repo r)).
Qed.
