(* ===== verification/UsersRepo.v ===== *)
(** The in-memory user repository ([internal/repositories/inmemory/users.go]),
    which meets the contract of [Accounts]. *)

From S2P Require Import Prelude.
From S2P Require Import GoNum.
From S2P Require Import Domain.
From S2P Require Import GoRuntime.
From S2P Require Import Repositories.
From S2P Require Import TaskRepo.
From S2P Require Import ServersRepo.
From S2P Require Import Accounts.
From stdpp Require Import base tactics strings list gmap numbers sorting.
From Stdlib Require Import NArith ZArith.

Record memUserRepo : Type := mkUserRepo { users : gmap N User; us_nextID : N; us_ticks : N }.

Definition NewUserRepository : memUserRepo := mkUserRepo ∅ 0 0.
Definition set_users (m : gmap N User) (r : memUserRepo) : memUserRepo := mkUserRepo m (us_nextID r) (us_ticks r).

Definition compareUsers (a b : User) (field : string) : comparison :=
  if String.eqb field "id" then N.compare (us_ID a) (us_ID b)
  else if String.eqb field "login" then String.compare (us_Login a) (us_Login b)
  else if String.eqb field "email" then String.compare (us_Email a) (us_Email b)
  else if String.eqb field "name" then opt_cmp String.compare (us_Name a) (us_Name b)
  else if String.eqb field "created_at" then opt_cmp Z.compare (us_CreatedAt a) (us_CreatedAt b)
  else if String.eqb field "updated_at" then opt_cmp Z.compare (us_UpdatedAt a) (us_UpdatedAt b)
  else Eq.
Definition sortUsers (l : list User) (order : list Sorting) : list User := sort_rows compareUsers us_ID l order.

Definition FindAll (r : memUserRepo) (order : list Sorting) (p : option Pagination) : result (list User) :=
  applyPagination (sortUsers (map snd (map_to_list (users r))) order) p.

(** The loop over the table: a row is skipped for each condition it misses. *)
Definition keep_user (idSet : gset N) (loginSet emailSet : gset string) (f : FindUser) (u : User) : bool :=
  if nonempty (fu_IDs f) && negb (bool_decide (us_ID u ∈ idSet)) then false
  else if nonempty (fu_Logins f) && negb (bool_decide (us_Login u ∈ loginSet)) then false
  else if nonempty (fu_Emails f) && negb (bool_decide (us_Email u ∈ emailSet)) then false
  else true.
Definition no_filter : FindUser := mkFindUser [] [] [].
Definition Find (r : memUserRepo) (f : option FindUser) (order : list Sorting) (p : option Pagination) : result (list User) :=
  let f := default no_filter f in
  let keep := keep_user (list_to_set (fu_IDs f)) (list_to_set (fu_Logins f)) (list_to_set (fu_Emails f)) f in
  applyPagination (sortUsers (filter (fun u => keep u = true) (map snd (map_to_list (users r)))) order) p.

Section writing.
Context `{WallClock}.

Definition Now : M memUserRepo time := fun r => (Ok (now_at (us_ticks r)), mkUserRepo (users r) (us_nextID r) (us_ticks r + 1)).

(** The part of [Save] that touches the table. *)
Definition store (u : User) : M memUserRepo User := fun r =>
  let '(u, next) := if (us_ID u =? 0)%N then (us_set_id (wrap32 (us_nextID r + 1)) u, wrap32 (us_nextID r + 1)) else (u, us_nextID r) in
  (Ok u, mkUserRepo (<[us_ID u := u]> (users r)) next (us_ticks r)).

Definition Save (u : User) : M memUserRepo User :=
  let! updated := Now in
  let u := us_set_times (us_CreatedAt u) (Some updated) u in
  let! u :=
    (if (us_ID u =? 0)%N && match us_CreatedAt u with None => true | Some t => IsZero t end
     then let! created := Now in ret (us_set_times (Some created) (us_UpdatedAt u) u)
     else ret u) in
  store u.
End writing.

Definition Delete (id : N) : M memUserRepo unit := modify (fun r => set_users (delete id (users r)) r).

#[export] Instance memUserRepo_ops `{WallClock} : UserRepository memUserRepo := {
  US_Find r f := Find r (Some f); US_Save := Save; US_Delete := Delete;
}.

(** ** The contract *)

Definition users_inv (r : memUserRepo) : Prop := forall i u, users r !! i = Some u -> us_ID u = i /\ (0 < i <= us_nextID r)%N.
Definition users_room (k : nat) (r : memUserRepo) : Prop := (us_nextID r + N.of_nat k < two32)%N.

Lemma users_inv_new : users_inv NewUserRepository.
Proof. intros i u. simpl. by rewrite lookup_empty. Qed.

Lemma in_set_or_any {A} `{Countable A} (x : A) l :
  (nonempty l && negb (bool_decide (x ∈ (list_to_set l : gset A)))) = negb (in_or_any x l).
Proof.
  destruct l as [|a l]; [done|]. cbn [nonempty andb in_or_any]. f_equal. apply bool_decide_ext. by rewrite elem_of_list_to_set.
Qed.

Lemma keep_user_matches f u :
  keep_user (list_to_set (fu_IDs f)) (list_to_set (fu_Logins f)) (list_to_set (fu_Emails f)) f u = user_matches f u.
Proof.
  unfold keep_user, user_matches. rewrite !in_set_or_any.
  by destruct (in_or_any (us_ID u) _), (in_or_any (us_Login u) _), (in_or_any (us_Email u) _).
Qed.

Lemma user_Find_selects r f p : users_inv r -> selects us_ID (users r) (user_matches f) p (Find r (Some f) [] p).
Proof.
  intros Hinv. unfold Find. change (default no_filter (Some f)) with f. cbv zeta.
  match goal with |- selects _ _ _ _ (applyPagination ?l _) => exists l end. split; [apply (sort_rows_default compareUsers us_ID)|]. split.
  - intros u. unfold sortUsers. rewrite (sort_rows_perm compareUsers us_ID), list_elem_of_filter. cbv beta.
    rewrite keep_user_matches, list_elem_of_In, in_map_iff. setoid_rewrite <- list_elem_of_In. split.
    + intros [Hm ([i u'] & <- & Hin%elem_of_map_to_list)]. simpl in *. destruct (Hinv _ _ Hin) as [-> _]. done.
    + intros [Hu Hm]. split; [done|]. exists (us_ID u, u). split; [done|]. by apply elem_of_map_to_list.
  - by destruct (applyPagination _ p).
Qed.

Section contract.
Context `{WallClock}.

Lemma user_store_spec u r : users_inv r -> (if decide (us_ID u = 0%N) then users_room 1 r else is_Some (users r !! us_ID u)) ->
  exists u' r', store u r = (Ok u', r') /\ users_inv r' /\ users r' = <[us_ID u' := u']> (users r) /\
    u' = us_set_id (us_ID u') u /\
    (if decide (us_ID u = 0%N) then users r !! us_ID u' = None else us_ID u' = us_ID u) /\
    (forall k, users_room (if decide (us_ID u = 0%N) then S k else k) r -> users_room k r').
Proof.
  intros Hinv Hsv. unfold users_room in *. unfold store. destruct (decide (us_ID u = 0%N)) as [Hz|Hz].
  - rewrite Hz. cbn [N.eqb].
    assert (Hw : wrap32 (us_nextID r + 1) = (us_nextID r + 1)%N) by (apply N.mod_small; lia). rewrite Hw.
    eexists _, _. split; [reflexivity|]. split_and!.
    + intros i x. simpl. rewrite lookup_insert. case_decide; [intros [= <-]; subst; simpl; lia|]. intros Hx.
      destruct (Hinv _ _ Hx). split; [done|lia].
    + done.
    + done.
    + simpl. destruct (users r !! (us_nextID r + 1)%N) as [x|] eqn:E; [|done]. destruct (Hinv _ _ E). lia.
    + intros k. simpl. lia.
  - apply N.eqb_neq in Hz as ->. destruct Hsv as [old Hold]. destruct (Hinv _ _ Hold) as [_ Hlt].
    eexists _, _. split; [reflexivity|]. split_and!; [|done|by destruct u|done|].
    + intros i x. simpl. rewrite lookup_insert. case_decide; [intros [= <-]; by subst|]. intros Hx. by apply Hinv.
    + intros k. simpl. lia.
Qed.

#[export, program] Instance memUserRepo_laws : UserRepositoryLaws memUserRepo := {
  us_inv := users_inv; us_rows := users; us_room := users_room; us_norm l := l;
}.
Next Obligation. intros r i u Hinv Hu. destruct (Hinv _ _ Hu). split; [done|lia]. Qed.
Next Obligation.
  intros r f p Hinv. simpl. rewrite map_id. destruct f as [ids ls es]. by apply user_Find_selects.
Qed.
Next Obligation.
  intros u r res r' Hinv Hsv E. simpl in *.
  assert (Hst : exists c d r1, store (us_set_times c d u) r1 = (res, r') /\ users r1 = users r /\ us_nextID r1 = us_nextID r).
  { unfold Save, bind, Now, ret in E. simpl in E. destruct (_ && _); eexists _, _, _; (split; [exact E|done]). }
  destruct Hst as (c & d & r1 & Es & Hr1 & Hn1).
  destruct (user_store_spec (us_set_times c d u) r1) as (u' & r2 & E2 & Hi & Hrow & Hu' & Hnew & Hroom).
  - intros i x. rewrite Hr1, Hn1. apply Hinv.
  - unfold users_room in *. simpl. by rewrite Hr1, Hn1.
  - rewrite Es in E2. injection E2 as -> ->. unfold users_room in *. rewrite Hr1, Hn1 in *. split_and!; [done|done| |done|done].
    exists c, d. rewrite Hu' at 1. by destruct u.
Qed.
Next Obligation.
  intros i r res r' Hinv [= <- <-]. simpl. split_and!; [|done|done].
  intros j u. simpl. rewrite lookup_delete. case_decide; [done|]. apply Hinv.
Qed.
End contract.
