(* ===== verification/CachedUsers.v ===== *)
(** Users behind the cache ([internal/repositories/cached/user.go]): single
    users looked up by id, login or email come from Redis, and saving or
    deleting a user takes his entries out.  They stay current as long as users
    keep their logins and email addresses; the entry of a changed address is
    not taken out. *)

From S2P Require Import Prelude.
From S2P Require Import GoNum.
From S2P Require Import Domain.
From S2P Require Import GoRuntime.
From S2P Require Import Repositories.
From S2P Require Import Cache.
From S2P Require Import RedisCache.
From S2P Require Import ReadThrough.
From S2P Require Import TaskRepo.
From S2P Require Import Accounts.
From S2P Require Import UsersRepo.
From stdpp Require Import base tactics strings list gmap numbers relations.
From Stdlib Require Import NArith ZArith.

Section users.
Context {R C : Type} `{UserRepository R} `{RedisClient C} `{JSONLibrary} `{!JSONType (list User)} `{KeyLibrary} (ttl : Z).
Abbreviation S := (CachedRepo R C).

Definition inner_Find (f : FindUser) (order : list Sorting) (p : option Pagination) : M R (list User) :=
  fun r => (US_Find r f order p, r).

(** [pagination != nil && (pagination.Limit > 1 || pagination.Offset > 0)] *)
Definition paged (p : option Pagination) : bool :=
  match p with Some pg => (1 <? pg_Limit pg)%N || (0 <? pg_Offset pg)%N | None => false end.

(** [Find]; no order is a nil one. *)
Definition cached_Find (f : FindUser) (order : list Sorting) (p : option Pagination) : M S (list User) :=
  let inner := on_inner (inner_Find f order p) in
  if nonempty order || paged p then inner
  else if (FindUser_FilterCount f <=? 0)%Z || (1 <? FindUser_FilterCount f)%Z then inner
  else
    match fu_IDs f, fu_Logins f, fu_Emails f with
    | [i], _, _ => read_through ttl "Find user by ID" (BuildKey "user" "id" [PUint i]) (inner_Find f order p)
    | _, [login], _ => read_through ttl "Find user by Login" (BuildKey "user" "login" [PString login]) (inner_Find f order p)
    | _, _, [email] => read_through ttl "Find user by Email" (BuildKey "user" "email" [PString email]) (inner_Find f order p)
    | _, _, _ => inner
    end.

(** The entries of one user, where they have a name; [event] ends the messages. *)
Definition invalidate_user (event : string) (u : User) : M S unit :=
  do! (if negb (us_ID u =? 0)%N
       then wrap ("failed to invalidate user cache by ID after " +:+ event) (Invalidate [BuildKey "user" "id" [PUint (us_ID u)]]) else ret tt) ;;
  do! (if negb (String.eqb (us_Login u) "")
       then wrap ("failed to invalidate user cache by login after " +:+ event) (Invalidate [BuildKey "user" "login" [PString (us_Login u)]]) else ret tt) ;;
  (if negb (String.eqb (us_Email u) "")
   then wrap ("failed to invalidate user cache by email after " +:+ event) (Invalidate [BuildKey "user" "email" [PString (us_Email u)]]) else ret tt).

Definition cached_Save (u : User) : M S User :=
  let! u := wrap "failed to save user" (on_inner (US_Save u)) in
  do! invalidate_user "save" u ;;
  do! wrap "failed to invalidate user find pattern cache after save" (InvalidatePattern "user:find*") ;;
  ret u.

(** [invalidateUserCache] *)
Definition invalidateUserCache (found : result (list User)) : M S unit :=
  match found with
  | Ok (u :: _) => invalidate_user "delete" u
  | Ok [] | Err _ => ret tt
  | Panic w => lift (Panic w)
  end.

Definition cached_Delete (i : N) : M S unit := fun s =>
  let users := US_Find (cr_inner s) (FindUserByIDs [i]) [] None in
  match users with
  | Panic w => (Panic w, s)
  | _ =>
    (do! wrap "failed to delete user" (on_inner (US_Delete i)) ;;
     do! wrap "failed to invalidate user cache by ID after delete" (Invalidate [BuildKey "user" "id" [PUint i]]) ;;
     do! invalidateUserCache users ;;
     wrap "failed to invalidate user find pattern cache after delete" (InvalidatePattern "user:find*")) s
  end.
End users.

(** ** What the entries tell *)

Inductive UserKey : Type := ById (i : N) | ByLogin (login : string) | ByEmail (email : string).
Definition filter_of (k : UserKey) : FindUser :=
  match k with ById i => FindUserByIDs [i] | ByLogin l => FindUserByLogins [l] | ByEmail e => FindUserByEmails [e] end.

Section current.
Context {R C : Type} `{UserRepositoryLaws R} `{RedisLaws C} `{JSONLibrary} `{!JSONType (list User)} `{!JSONLaws (list User)} `{KeyLibrary} (ttl : Z).
Abbreviation S := (CachedRepo R C).
Implicit Types s : S.

Definition user_key (k : UserKey) : string :=
  match k with
  | ById i => BuildKey "user" "id" [PUint i]
  | ByLogin l => BuildKey "user" "login" [PString l]
  | ByEmail e => BuildKey "user" "email" [PString e]
  end.

(** Digests of different texts differ. *)
Hypothesis hash_inj : forall a b, hashParams [PString a] = hashParams [PString b] -> a = b.

(** An id is a machine integer, and nobody is looked up without a name. *)
Definition legal (k : UserKey) : Prop :=
  match k with ById i => (i < two64)%N | ByLogin l => l <> "" | ByEmail e => e <> "" end.

Lemma user_key_inj k k' : legal k -> legal k' -> user_key k = user_key k' -> k = k'.
Proof.
  destruct k as [i|l|e], k' as [i'|l'|e']; unfold user_key, BuildKey; simpl; intros Hk Hk' E; try discriminate E; injection E as E.
  - f_equal. by apply FormatUint_inj.
  - f_equal. by apply hash_inj.
  - f_equal. by apply hash_inj.
Qed.

(** The repository keeps logins as they are. *)
Hypothesis norm_id : forall l, us_norm (R := R) l = l.

Definition cacheable (p : option Pagination) : Prop := paged p = false.
Definition row_matches (k : UserKey) : User -> bool := user_matches (filter_of k).

(** [l] is what looking for [k] gives, at most the first user where the caller
    wants no more. *)
Definition user_view (k : UserKey) (r : R) (l : list User) : Prop :=
  exists p, cacheable p /\ selects us_ID (us_rows r) (row_matches k) p (Ok l).

(** The rows have the names they are looked up by and survive JSON. *)
Definition well_kept (r : R) : Prop :=
  us_inv r /\ (forall i u, us_rows r !! i = Some u -> us_Login u <> "" /\ us_Email u <> "" /\ (us_ID u < two64)%N) /\
  (forall l : list User, (forall u, u ∈ l -> us_rows r !! us_ID u = Some u) -> portable l).

Lemma filter_norm f : mkFindUser (fu_IDs f) (map us_norm (fu_Logins f)) (fu_Emails f) = f.
Proof. destruct f as [ids logins emails]. simpl. f_equal. induction logins as [|l logins IH]; [done|]. simpl. by rewrite norm_id, IH. Qed.

Lemma find_selects (r : R) f p : us_inv r -> selects us_ID (us_rows r) (user_matches f) p (US_Find r f [] p).
Proof. intros Hi. pose proof (us_find_law r f p Hi) as Hl. by rewrite filter_norm in Hl. Qed.

Lemma applyPagination_incl {A} (l k : list A) p : applyPagination l p = Ok k -> forall x, x ∈ k -> x ∈ l.
Proof.
  unfold applyPagination. destruct p as [pg|]; [|by intros [= ->]]. cbv zeta. destruct (_ <=? _)%N; [intros [= <-] x Hx; by apply list.elem_of_nil in Hx|].
  destruct (_ <? _)%N; [done|]. intros [= <-] x Hx. apply list_elem_of_In in Hx. apply list_elem_of_In.
  rewrite <- (firstn_skipn (N.to_nat (pg_Offset pg)) l). apply in_or_app. right.
  match type of Hx with In _ (firstn ?n ?k) => rewrite <- (firstn_skipn n k) end. apply in_or_app. by left.
Qed.

(** A look-up fills the cache with what it finds. *)
Lemma lookup_loads k p : cacheable p -> loads user_view well_kept k (inner_Find (filter_of k) [] p).
Proof.
  intros Hp r res r' Hw [= <- <-]. split_and!; [done|auto|]. intros l Hl. pose proof (find_selects r (filter_of k) p (proj1 Hw)) as Hs. rewrite Hl in Hs.
  split; [by exists p|]. apply (proj2 (proj2 Hw)). intros u Hu. destruct Hs as (all & _ & Hel & Hpage).
  by apply Hel, (applyPagination_incl _ _ _ Hpage).
Qed.

Abbreviation current := (coherent legal user_key user_view).

(** A read that keeps everything current and tells what the repository holds. *)
Definition reads_current (f : FindUser) (p : option Pagination) s (res : result (list User)) s' : Prop :=
  well_kept (cr_inner s') /\ current s' /\ (rd_now (cr_cache s) <= rd_now (cr_cache s'))%Z /\ us_rows (cr_inner s') = us_rows (cr_inner s) /\
  forall l, res = Ok l -> exists p', (p' = p \/ cacheable p' /\ cacheable p) /\ selects us_ID (us_rows (cr_inner s)) (user_matches f) p' (Ok l).

(** Each value looked up by can be one. *)
Definition legal_filter (f : FindUser) : Prop :=
  Forall (fun i => i < two64)%N (fu_IDs f) /\ Forall (fun l => l <> "") (fu_Logins f) /\ Forall (fun e => e <> "") (fu_Emails f).

Lemma key_reads_current k what p s res s' : well_kept (cr_inner s) -> current s -> legal k -> cacheable p ->
  read_through ttl what (user_key k) (inner_Find (filter_of k) [] p) s = (res, s') -> reads_current (filter_of k) p s res s'.
Proof.
  intros Hw Hc Hk Hp Hrun. pose proof (lookup_loads k p Hp) as Hloads.
  assert (Hsame : us_rows (cr_inner s') = us_rows (cr_inner s)) by (by apply (read_through_rows ttl us_rows) in Hrun).
  destruct (read_through_spec ttl legal user_key user_view user_key_inj well_kept what k _ s res s' Hk Hw Hc Hloads Hrun) as (Hw' & Hc' & Ht & _ & Hv).
  split_and!; [done..|]. intros l Hr. destruct (Hv l Hr) as (p' & Hp' & Hs). rewrite Hsame in Hs. exists p'. split; [by right|done].
Qed.

Lemma cached_Find_spec f p s res s' : well_kept (cr_inner s) -> current s -> legal_filter f ->
  cached_Find ttl f [] p s = (res, s') -> reads_current f p s res s'.
Proof.
  intros Hw Hc (Hi & Hl & He). unfold cached_Find.
  assert (Hinner : on_inner (inner_Find f [] p) s = (res, s') -> reads_current f p s res s').
  { unfold on_inner, zoom, inner_Find. intros [= <- <-]. destruct s as [r c]. split_and!; [done|done|done|done|]. intros l Hr. exists p. split; [by left|].
    rewrite <- Hr. by apply find_selects, Hw. }
  cbn [nonempty orb]. destruct (paged p) eqn:Hp; [exact Hinner|]. destruct (_ || _) eqn:Hcount; [exact Hinner|].
  destruct f as [ids logins emails]. unfold FindUser_FilterCount in Hcount. cbn [fu_IDs fu_Logins fu_Emails] in *.
  destruct ids as [|i [|]], logins as [|login [|]], emails as [|email [|]]; try discriminate Hcount; try exact Hinner.
  - apply (key_reads_current (ByEmail email)); [done..| |done]. by inversion He.
  - apply (key_reads_current (ByLogin login)); [done..| |done]. by inversion Hl.
  - apply (key_reads_current (ById i)); [done..| |done]. by inversion Hi.
Qed.

(** ** Saving and deleting *)

Definition keys_of (u : User) : list UserKey := [ById (us_ID u); ByLogin (us_Login u); ByEmail (us_Email u)].
Definition named (u : User) : Prop := us_ID u <> 0%N /\ us_Login u <> "" /\ us_Email u <> "".
Abbreviation gone := (gone user_key).

Lemma row_matches_keys k u : row_matches k u = true <-> k ∈ keys_of u.
Proof.
  unfold row_matches, keys_of. rewrite !list.elem_of_cons. destruct k as [i|l|e]; unfold user_matches; simpl;
    rewrite ?andb_true_r, bool_decide_eq_true, list_elem_of_singleton; (split; [intros Hx; subst; auto|]).
  all: intros [Hx|[Hx|[Hx|Hx%list.elem_of_nil]]]; by inversion Hx.
Qed.

Lemma invalidate_user_spec event u s s' : named u -> invalidate_user event u s = (Ok tt, s') -> thinned s s' /\ forall k, k ∈ keys_of u -> gone k s'.
Proof.
  intros (Hi & Hl & He). unfold invalidate_user. rewrite (proj2 (N.eqb_neq _ _) Hi), (proj2 (String.eqb_neq _ _) Hl), (proj2 (String.eqb_neq _ _) He).
  cbn [negb]. unfold bind.
  destruct (wrap _ (Invalidate [BuildKey "user" "id" _]) s) as [[[]|e|w] s1] eqn:E1; [|done..].
  destruct (wrap _ (Invalidate [BuildKey "user" "login" _]) s1) as [[[]|e|w] s2] eqn:E2; [|done..]. intros E3.
  apply (invalidate_one user_key _ (ById (us_ID u))) in E1 as [Ht1 Hg1]. apply (invalidate_one user_key _ (ByLogin (us_Login u))) in E2 as [Ht2 Hg2].
  apply (invalidate_one user_key _ (ByEmail (us_Email u))) in E3 as [Ht3 Hg3].
  split; [eapply thinned_trans; [exact Ht1|by eapply thinned_trans]|].
  intros k Hk. unfold keys_of in Hk. rewrite !list.elem_of_cons in Hk. destruct Hk as [->|[->|[->|Hk%list.elem_of_nil]]]; [|by eapply gone_thinned|done..].
  eapply gone_thinned; [|exact Hg1]. by eapply thinned_trans.
Qed.

(** Entries taken out, and rows changed only where entries were taken out. *)
Lemma current_write s s' :
  current s -> rd_entries (cr_cache s') ⊆ rd_entries (cr_cache s) -> (rd_now (cr_cache s) <= rd_now (cr_cache s'))%Z ->
  (forall k x, legal k -> k ∈ keys_of x -> ~ gone k s' -> us_rows (cr_inner s) !! us_ID x = Some x <-> us_rows (cr_inner s') !! us_ID x = Some x) ->
  current s'.
Proof.
  intros Hc Hs Ht Hrows. apply (coherent_write _ _ _ s); [done..|]. intros k l Hk Hseen (p & Hp & Hsel). exists p. split; [done|].
  eapply (selects_ext us_ID); [|exact Hsel]. intros x Hx%row_matches_keys. apply (Hrows k); [done..|]. by intros Hg%gone_unseen.
Qed.

Lemma cached_Save_spec u s u' s' : well_kept (cr_inner s) -> current s ->
  (if decide (us_ID u = 0%N) then us_room 1 (cr_inner s) else exists old, us_rows (cr_inner s) !! us_ID u = Some old /\ us_Login old = us_Login u /\ us_Email old = us_Email u) ->
  us_Login u <> "" -> us_Email u <> "" ->
  cached_Save u s = (Ok u', s') -> us_inv (cr_inner s') /\ current s' /\ us_rows (cr_inner s') = <[us_ID u' := u']> (us_rows (cr_inner s)) /\
    us_Login u' = us_Login u /\ us_Email u' = us_Email u /\ us_ID u' <> 0%N.
Proof.
  intros Hw Hc Hid Hlogin Hemail. unfold cached_Save, bind at 1. unfold wrap at 1, on_inner, zoom. destruct (US_Save u (cr_inner s)) as [r1 i1] eqn:Es.
  destruct r1 as [u1|e|w]; cbn [wrap_err]; [|done..]. set (s1 := mkCachedRepo i1 (cr_cache s)).
  assert (Hpre : if decide (us_ID u = 0%N) then us_room 1 (cr_inner s) else is_Some (us_rows (cr_inner s) !! us_ID u)).
  { destruct (decide _); [done|]. destruct Hid as (old & -> & _). by eexists. }
  destruct (us_save_law u _ _ _ (proj1 Hw) Hpre Es) as (Hi1 & _ & (cr & up & Hu1) & Hrows & Hnew).
  assert (Hn : us_Login u1 = us_Login u /\ us_Email u1 = us_Email u) by (rewrite Hu1; simpl; by rewrite norm_id).
  assert (Hid1 : us_ID u1 <> 0%N).
  { destruct (us_rows_id i1 (us_ID u1) u1 Hi1) as [_ ?]; [rewrite Hrows; apply lookup_insert_eq|done]. }
  assert (Hnamed : named u1) by (unfold named; destruct Hn as [-> ->]; done).
  unfold bind. destruct (invalidate_user "save" u1 s1) as [[[]|e|w] s2] eqn:E2; [|done..]. destruct (invalidate_user_spec _ _ _ _ Hnamed E2) as [Ht2 Hg2].
  destruct (wrap _ (InvalidatePattern _) s2) as [[[]|e|w] s3] eqn:E3; [|done..]. apply (pattern_thins _ "user:find") in E3 as Ht3; [|done].
  intros [= <- <-]. destruct (thinned_trans _ _ _ Ht2 Ht3) as (Hin & Hsub & Ht). cbn [cr_inner cr_cache s1] in *. rewrite Hin.
  split_and!; [done| |done|by apply Hn|by apply Hn|done].
  apply (current_write s); [done..|]. intros k x Hk Hx Hng. rewrite Hin, Hrows.
  destruct (decide (us_ID x = us_ID u1)) as [Hxi|Hxi]; [|by rewrite lookup_insert_ne by congruence].
  rewrite Hxi, lookup_insert_eq. split.
  - intros Hrow. exfalso. apply Hng. eapply gone_thinned; [exact Ht3|]. apply Hg2.
    destruct (decide (us_ID u = 0%N)); [by rewrite Hnew in Hrow|]. destruct Hid as (old & Hold & Hl & He). rewrite Hnew, Hold in Hrow. injection Hrow as <-.
    unfold keys_of in *. destruct Hn as [-> ->]. by rewrite Hxi, Hl, He in Hx.
  - intros [= ->]. exfalso. apply Hng. eapply gone_thinned; [exact Ht3|]. by apply Hg2.
Qed.

Lemma cached_Delete_spec i s s' l : well_kept (cr_inner s) -> current s -> US_Find (cr_inner s) (FindUserByIDs [i]) [] None = Ok l ->
  cached_Delete i s = (Ok tt, s') -> us_inv (cr_inner s') /\ current s' /\ us_rows (cr_inner s') = delete i (us_rows (cr_inner s)).
Proof.
  intros Hw Hc Hl. unfold cached_Delete. rewrite Hl. cbv zeta iota. unfold bind at 1. unfold wrap at 1, on_inner, zoom.
  destruct (US_Delete i (cr_inner s)) as [r1 i1] eqn:Ed. destruct (us_delete_law _ _ _ _ (proj1 Hw) Ed) as (Hi1 & _ & Hrows).
  destruct r1 as [[]|e|w]; cbn [wrap_err]; [|done..]. set (s1 := mkCachedRepo i1 (cr_cache s)).
  unfold bind. destruct (wrap _ (Invalidate _) s1) as [[[]|e|w] s2] eqn:E2; [|done..]. apply (invalidate_one user_key _ (ById i)) in E2 as [Ht2 Hg2].
  destruct (invalidateUserCache (Ok l) s2) as [[[]|e|w] s3] eqn:E3; [|done..]. intros Ht4%(pattern_thins _ "user:find" _ _ eq_refl).
  assert (Hall : forall x, us_rows (cr_inner s) !! i = Some x -> thinned s2 s3 /\ forall k, k ∈ keys_of x -> gone k s3).
  { intros x Hx. assert (exists l', l = x :: l') as [l' ->].
    { pose proof (find_selects (cr_inner s) (FindUserByIDs [i]) None (proj1 Hw)) as Hs. rewrite Hl in Hs. apply (selects_one_id us_ID i _ _ _ _ Hx) in Hs; [done|..].
      - intros j u Hu. by apply (us_rows_id (cr_inner s)); [apply Hw|].
      - intros u. unfold user_matches. simpl. by rewrite !andb_true_r, bool_decide_eq_true, list_elem_of_singleton. }
    destruct (us_rows_id (cr_inner s) i x (proj1 Hw) Hx) as [Hxi Hne]. destruct (proj1 (proj2 Hw) i x Hx) as (Hlg & Hem & _).
    apply (invalidate_user_spec "delete" x); [split_and!; congruence|exact E3]. }
  assert (Ht3 : thinned s2 s3).
  { destruct l as [|u l]; [injection E3 as <-; apply thinned_refl|].
    pose proof (find_selects (cr_inner s) (FindUserByIDs [i]) None (proj1 Hw)) as (all & _ & Hel & Hp). rewrite Hl in Hp. injection Hp as ->.
    destruct (proj1 (Hel u) (list_elem_of_here _ _)) as [Hu Hm]. unfold user_matches in Hm. simpl in Hm. rewrite !andb_true_r in Hm.
    apply bool_decide_eq_true, list_elem_of_singleton in Hm. rewrite Hm in Hu. by apply Hall in Hu as [? _]. }
  pose proof (thinned_trans _ _ _ Ht3 Ht4) as Ht34. destruct (thinned_trans _ _ _ Ht2 Ht34) as (Hin & Hsub & Ht). cbn [cr_inner cr_cache s1] in *. rewrite Hin.
  split_and!; [done| |done]. apply (current_write s); [done..|]. intros k x Hk Hx Hng. rewrite Hin, Hrows.
  destruct (decide (us_ID x = i)) as [Hxi|Hxi]; [|by rewrite lookup_delete_ne by congruence]. rewrite Hxi, lookup_delete_eq. split; [|done].
  intros Hrow. exfalso. apply Hng. eapply gone_thinned; [exact Ht4|]. by apply (Hall x).
Qed.

(** ** Sequences of operations *)

(** The rows can be cached. *)
Definition storable_rows (r : R) : Prop :=
  (forall i u, us_rows r !! i = Some u -> us_Login u <> "" /\ us_Email u <> "" /\ (us_ID u < two64)%N) /\
  (forall l : list User, (forall u, u ∈ l -> us_rows r !! us_ID u = Some u) -> portable l).

(** What happens to a cached repository while users keep their names: reads,
    whatever comes of them; writes that succeed; and whatever the others who
    share the Redis server do with their own entries, or it does by itself. *)
Inductive cstep : S -> S -> Prop :=
| cs_find f p s res s' : legal_filter f -> cached_Find ttl f [] p s = (res, s') -> cstep s s'
| cs_save u s u' s' :
    (if decide (us_ID u = 0%N) then us_room 1 (cr_inner s)
     else exists old, us_rows (cr_inner s) !! us_ID u = Some old /\ us_Login old = us_Login u /\ us_Email old = us_Email u) ->
    us_Login u <> "" -> us_Email u <> "" ->
    cached_Save u s = (Ok u', s') -> storable_rows (cr_inner s') -> cstep s s'
| cs_delete i l s s' :
    US_Find (cr_inner s) (FindUserByIDs [i]) [] None = Ok l -> cached_Delete i s = (Ok tt, s') -> cstep s s'
| cs_others s c' :
    (rd_now (cr_cache s) <= rd_now c')%Z ->
    (forall k, legal k -> rd_entries c' !! (redisKeyPrefix +:+ user_key k) = rd_entries (cr_cache s) !! (redisKeyPrefix +:+ user_key k) \/
       rd_entries c' !! (redisKeyPrefix +:+ user_key k) = None) ->
    cstep s (mkCachedRepo (cr_inner s) c').

Lemma cstep_current s s' : cstep s s' -> well_kept (cr_inner s) /\ current s -> well_kept (cr_inner s') /\ current s'.
Proof.
  intros [f p x res y Hf E|u x u' y Hid Hl He E Hst|i l x y Hf E|x c' Ht Hk] [Hw Hc].
  - by destruct (cached_Find_spec _ _ _ _ _ Hw Hc Hf E) as (? & ? & _).
  - destruct (cached_Save_spec _ _ _ _ Hw Hc Hid Hl He E) as (Hi & Hc' & _). split; [|done]. by split.
  - destruct (cached_Delete_spec _ _ _ _ Hw Hc Hf E) as (Hi & Hc' & Hrows). split; [|done]. split; [done|].
    destruct Hw as (_ & Hn & Hp). rewrite Hrows. split.
    + intros j u Hu. apply lookup_delete_Some in Hu as [_ Hu]. by apply (Hn j).
    + intros k Hk. apply Hp. intros u Hu%Hk. by apply lookup_delete_Some in Hu as [_ ?].
  - split; [done|]. by apply coherent_others.
Qed.

(** As long as users keep their logins and email addresses, the cached
    repository tells what the repository behind it holds: after any sequence of
    successful writes, reads and other use of the same Redis server, whatever a
    look-up returns is what the rows of that moment answer, whether it came from
    the cache or not. *)
Lemma cached_users_are_current s0 s f p l s' :
  well_kept (cr_inner s0) -> (forall k, legal k -> gone k s0) -> rtc cstep s0 s ->
  legal_filter f -> cached_Find ttl f [] p s = (Ok l, s') ->
  exists p', (p' = p \/ cacheable p' /\ cacheable p) /\ selects us_ID (us_rows (cr_inner s)) (user_matches f) p' (Ok l).
Proof.
  intros Hw0 Hg Hrun Hf E. assert (Hinv : well_kept (cr_inner s) /\ current s).
  { assert (Hinv0 : well_kept (cr_inner s0) /\ current s0).
    { split; [done|]. by apply coherent_empty. }
    clear -Hinv0 Hrun hash_inj norm_id JSONLaws0. induction Hrun; eauto using cstep_current. }
  destruct (cached_Find_spec _ _ _ _ _ (proj1 Hinv) (proj2 Hinv) Hf E) as (_ & _ & _ & _ & Hl). by apply Hl.
Qed.
End current.

(** ** A changed address *)

Section stale.
Context {R C : Type} `{UserRepositoryLaws R} `{RedisReliable C} `{JSONLibrary} `{!JSONType (list User)} `{KeyLibrary} (ttl : Z).
Abbreviation S := (CachedRepo R C).
Implicit Types s : S.
Hypothesis hash_inj : forall a b, hashParams [PString a] = hashParams [PString b] -> a = b.

Lemma kept_by_invalidate msg k k' s s' : legal k -> legal k' -> k <> k' -> wrap msg (Invalidate [user_key k']) s = (Ok tt, s') ->
  rd_entries (cr_cache s') !! (redisKeyPrefix +:+ user_key k) = rd_entries (cr_cache s) !! (redisKeyPrefix +:+ user_key k).
Proof.
  intros Hk Hk' Hne (_ & Ee & _)%wrap_ok%Invalidate_one. rewrite Ee, lookup_delete_ne; [done|].
  intros E%redis_key_inj%(user_key_inj hash_inj); [congruence|done..].
Qed.

(** Saving a user leaves the entries of the names he does not have. *)
Lemma kept_by_save k u u' s s' : legal k -> cached_Save u s = (Ok u', s') -> named u' -> (us_ID u' < two64)%N -> k ∉ keys_of u' ->
  rd_entries (cr_cache s') !! (redisKeyPrefix +:+ user_key k) = rd_entries (cr_cache s) !! (redisKeyPrefix +:+ user_key k).
Proof.
  intros Hk E (Hi & Hl & He) Hlt Hnk. unfold cached_Save, bind at 1, wrap at 1, on_inner, zoom in E.
  destruct (US_Save u (cr_inner s)) as [[u1|e|w] i1]; cbn [wrap_err] in E; [|done..].
  unfold bind in E. destruct (invalidate_user "save" u1 _) as [[[]|e|w] s2] eqn:E2; [|done..].
  destruct (wrap _ (InvalidatePattern _) s2) as [[[]|e|w] s3] eqn:E3; [|done..]. injection E as <- <-.
  apply wrap_ok in E3. destruct (InvalidatePattern_spec "user:find" _ _ eq_refl E3) as (_ & _ & _ & Hkeep & _). rewrite Hkeep by (by destruct k).
  unfold keys_of in Hnk. rewrite !list.not_elem_of_cons in Hnk. destruct Hnk as (Hni & Hnl & Hne & _).
  unfold invalidate_user in E2. rewrite (proj2 (N.eqb_neq _ _) Hi), (proj2 (String.eqb_neq _ _) Hl), (proj2 (String.eqb_neq _ _) He) in E2.
  cbn [negb] in E2. unfold bind in E2.
  destruct (wrap _ (Invalidate [BuildKey "user" "id" _]) _) as [[[]|e|w] t1] eqn:F1; [|done..].
  destruct (wrap _ (Invalidate [BuildKey "user" "login" _]) t1) as [[[]|e|w] t2] eqn:F2; [|done..].
  apply (kept_by_invalidate _ k (ById _)) in F1; [|done..]. apply (kept_by_invalidate _ k (ByLogin _)) in F2; [|done..].
  apply (kept_by_invalidate _ k (ByEmail _)) in E2; [|done..]. by rewrite E2, F2, F1.
Qed.

(** The entry of an address a user no longer has is not taken out: once he
    has been looked up by it, a later change of his address and password leaves
    the cached row, with the old password, and until it expires a look-up by the
    old address, which is what a login with an address starts with, returns
    it. *)
Lemma changed_address_still_answers address l txt T j d u u' s s' res s'' :
  (* an entry for the address is there ... *)
  address <> "" -> rd_entries (cr_cache s) !! (redisKeyPrefix +:+ user_key (ByEmail address)) = Some (txt, Some T) ->
  unmarshal_any txt = Ok j -> j_nil j = false -> marshal_any j = Ok d -> unmarshal d = Ok l ->
  (* ... the user is saved with another one ... *)
  cached_Save u s = (Ok u', s') -> named u' -> (us_ID u' < two64)%N -> us_Email u' <> address ->
  (* ... and the address is looked up before the entry expires *)
  cached_Find ttl (FindUserByEmails [address]) [] only_first s' = (res, s'') -> (rd_now (cr_cache s'') <= T)%Z ->
  res = Ok l.
Proof.
  intros Ha Hin Hj Hnil Hd Hl Hsave Hn Hlt Hne Hfind HT.
  assert (Hnk : ByEmail address ∉ keys_of u').
  { unfold keys_of. rewrite !list.elem_of_cons. intros [[=]|[[=]|[[= ->]|Hx%list.elem_of_nil]]]; done. }
  rewrite <- (kept_by_save (ByEmail address) u u' s s' Ha Hsave Hn Hlt Hnk) in Hin.
  unfold cached_Find in Hfind. cbn [nonempty paged only_first orb FindUser_FilterCount FindUserByEmails fu_IDs fu_Logins fu_Emails] in Hfind.
  by eapply (read_through_hit ttl) in Hfind.
Qed.
End stale.

(** ** A user who changes his address *)

Module CachedUserSample.
#[local] Existing Instances ticking MemRedis.client MemRedis.laws MemRedis.reliable.

(** Lists of users as digits. *)
Definition raw_user (u : User) : N * string * string * string * (option string * option string * option Z * option Z) :=
  (us_ID u, us_Login u, us_Email u, us_Password u, (us_RememberToken u, us_Name u, us_CreatedAt u, us_UpdatedAt u)).
Definition cooked_user (x : N * string * string * string * (option string * option string * option Z * option Z)) : User :=
  let '(i, l, e, p, (rt, nm, cr, up)) := x in mkUser i l e p rt nm cr up.
#[local] Instance texts : JSONLibrary := {| J := string; j_nil := String.eqb "null"; unmarshal_any := Ok; marshal_any := Ok |}.
#[local] Instance users_json : JSONType (list User) := {|
  marshal l := Ok (digits (encode (map raw_user l)));
  unmarshal s := match decode (number s) with Some l => Ok (map cooked_user l) | None => Err (ENew "invalid JSON") end;
  portable _ := True;
|}.
#[local] Instance users_json_laws : JSONLaws (list User).
Proof.
  split. intros l s _ [= <-]. eexists _, _. split_and!; [reflexivity|reflexivity|]. simpl. rewrite number_digits, decode_encode. f_equal.
  rewrite map_map. rewrite <- (map_id l) at 2. apply map_ext. by intros [].
Qed.
#[local] Existing Instance plain_digests.
Lemma digests_inj a b : hashParams [PString a] = hashParams [PString b] -> a = b.
Proof. by intros [= ->]%plain_digests_inj. Qed.

Lemma keeps_logins l : us_norm (R := memUserRepo) l = l.
Proof. reflexivity. Qed.
Definition six_hours : Z := 21600000000000.
Definition alice : User := mkUser 1 "alice" "old@example.org" "bcrypt:rabbit" None None (Some 1%Z) (Some 1%Z).
Definition moved : User := us_set_profile "new@example.org" "bcrypt:hare" None alice.
Definition start : CachedRepo memUserRepo MemRedis.server := mkCachedRepo (mkUserRepo {[1%N := alice]} 1 0) (MemRedis.mkServer ∅ 0).
Definition by_address (a : string) : M (CachedRepo memUserRepo MemRedis.server) (list User) := cached_Find six_hours (FindUserByEmails [a]) [] only_first.
Definition looked_up := snd (by_address "old@example.org" start).
Definition saved := snd (cached_Save moved looked_up).

Lemma start_kept : well_kept (cr_inner start).
Proof.
  assert (Hrows : forall i u, users (cr_inner start) !! i = Some u -> i = 1%N /\ u = alice).
  { intros i u Hu. change (({[1%N := alice]} : gmap N User) !! i = Some u) in Hu. by apply lookup_singleton_Some in Hu as [<- <-]. }
  split; [intros i u [-> ->]%Hrows; split; [done|simpl; lia]|]. split; [|done]. intros i u [-> ->]%Hrows. done.
Qed.

(** After a look-up and a change of the password the new row is found. *)
Definition same_names : User := us_set_profile "old@example.org" "bcrypt:hare" None alice.
Definition changed := snd (cached_Save same_names looked_up).
End CachedUserSample.
