(* ===== verification/TokensRepo.v ===== *)
(** The in-memory personal access token repository
    ([internal/repositories/inmemory/personal_access_tokens.go]), which meets
    the contract of [Accounts].  Without a requested order the tokens come in the
    order in which Go happens to iterate over the table. *)

From S2P Require Import Prelude.
From S2P Require Import GoNum.
From S2P Require Import Domain.
From S2P Require Import GoRuntime.
From S2P Require Import Repositories.
From S2P Require Import TaskRepo.
From S2P Require Import ServersRepo.
From S2P Require Import Accounts.
From S2P Require Import UsersRepo.
From stdpp Require Import base tactics strings list gmap numbers sorting.
From Stdlib Require Import NArith ZArith.

Record memTokenRepo : Type := mkTokenRepo { tokens : gmap N PersonalAccessToken; pt_nextID : N; pt_ticks : N }.

Definition NewPersonalAccessTokenRepository : memTokenRepo := mkTokenRepo ∅ 0 0.
Definition set_tokens (m : gmap N PersonalAccessToken) (r : memTokenRepo) : memTokenRepo := mkTokenRepo m (pt_nextID r) (pt_ticks r).

Definition compareTokens (a b : PersonalAccessToken) (field : string) : comparison :=
  if String.eqb field "id" then N.compare (pa_ID a) (pa_ID b)
  else if String.eqb field "name" then String.compare (pa_Name a) (pa_Name b)
  else if String.eqb field "tokenable_type" then String.compare (pa_TokenableType a) (pa_TokenableType b)
  else if String.eqb field "tokenable_id" then N.compare (pa_TokenableID a) (pa_TokenableID b)
  else if String.eqb field "last_used_at" then opt_cmp Z.compare (pa_LastUsedAt a) (pa_LastUsedAt b)
  else if String.eqb field "created_at" then opt_cmp Z.compare (pa_CreatedAt a) (pa_CreatedAt b)
  else if String.eqb field "updated_at" then opt_cmp Z.compare (pa_UpdatedAt a) (pa_UpdatedAt b)
  else Eq.
Definition sortTokens (l : list PersonalAccessToken) (order : list Sorting) : list PersonalAccessToken :=
  match order with [] => l | _ => sort_rows compareTokens pa_ID l order end.

(** Unlike the other tables, this one lets a page start at the end. *)
Definition applyPagination_from (rows : list PersonalAccessToken) (pagination : option Pagination) : result (list PersonalAccessToken) :=
  match pagination with
  | None => Ok rows
  | Some p =>
      let start := pg_Offset p in
      let len := N.of_nat (length rows) in
      if (len <? start)%N then Ok []
      else
        let limit := if (pg_Limit p =? 0)%N then DefaultLimit else pg_Limit p in
        let stop := N.min (add64 start limit) len in
        if (stop <? start)%N then Panic "slice bounds out of range"
        else Ok (take (N.to_nat (stop - start)) (drop (N.to_nat start) rows))
  end.

Definition keep_token (idSet : gset N) (tokenSet typeSet : gset string) (ownerSet : gset N) (f : FindPersonalAccessToken)
  (t : PersonalAccessToken) : bool :=
  if nonempty (fp_IDs f) && negb (bool_decide (pa_ID t ∈ idSet)) then false
  else if nonempty (fp_Tokens f) && negb (bool_decide (pa_Token t ∈ tokenSet)) then false
  else if nonempty (fp_TokenableTypes f) && negb (bool_decide (pa_TokenableType t ∈ typeSet)) then false
  else if nonempty (fp_TokenableIDs f) && negb (bool_decide (pa_TokenableID t ∈ ownerSet)) then false
  else true.

Section repository.
Context `{WallClock} `{MapOrder}.

Definition tick (r : memTokenRepo) : memTokenRepo := mkTokenRepo (tokens r) (pt_nextID r) (pt_ticks r + 1).
Definition Now : M memTokenRepo time := fun r => (Ok (now_at (pt_ticks r)), tick r).

Definition Find (f : option FindPersonalAccessToken) (order : list Sorting) (p : option Pagination)
  : M memTokenRepo (list PersonalAccessToken) := fun r =>
  let f := default (mkFindPAT [] [] [] []) f in
  let keep := keep_token (list_to_set (fp_IDs f)) (list_to_set (fp_Tokens f)) (list_to_set (fp_TokenableTypes f))
                (list_to_set (fp_TokenableIDs f)) f in
  (applyPagination_from (sortTokens (filter (fun t => keep t = true) (map snd (range (pt_ticks r) (tokens r)))) order) p, tick r).

Definition create (t : PersonalAccessToken) : M memTokenRepo PersonalAccessToken := fun r =>
  let '(t, next) := if (pa_ID t =? 0)%N then (pa_set_id (wrap32 (pt_nextID r + 1)) t, wrap32 (pt_nextID r + 1)) else (t, pt_nextID r) in
  (Ok t, mkTokenRepo (<[pa_ID t := t]> (tokens r)) next (pt_ticks r)).
Definition update (t : PersonalAccessToken) : M memTokenRepo PersonalAccessToken := fun r =>
  match tokens r !! pa_ID t with
  | None => (Err (ENew "personal access token not found"), r)
  | Some _ => (Ok t, set_tokens (<[pa_ID t := t]> (tokens r)) r)
  end.

Definition Save (t : PersonalAccessToken) : M memTokenRepo PersonalAccessToken :=
  let! updated := Now in
  let t := pa_set_times (pa_CreatedAt t) (Some updated) t in
  let! t :=
    (if (pa_ID t =? 0)%N && match pa_CreatedAt t with None => true | Some c => IsZero c end
     then let! created := Now in ret (pa_set_times (Some created) (pa_UpdatedAt t) t)
     else ret t) in
  if (pa_ID t =? 0)%N then create t else update t.

Definition Delete (id : N) : M memTokenRepo unit := modify (fun r => set_tokens (delete id (tokens r)) r).
Definition UpdateLastUsedAt (id : N) (lastUsedAt : time) : M memTokenRepo unit := modify (fun r =>
  match tokens r !! id with
  | None => r
  | Some t => set_tokens (<[id := pa_set_used (Some lastUsedAt) t]> (tokens r)) r
  end).
End repository.

#[export] Instance memTokenRepo_ops `{WallClock} `{MapOrder} : PersonalAccessTokenRepository memTokenRepo := {
  PT_Find f := Find (Some f); PT_Save := Save; PT_Delete := Delete; PT_UpdateLastUsedAt := UpdateLastUsedAt;
}.

(** ** The contract *)

Definition tokens_inv (r : memTokenRepo) : Prop := forall i t, tokens r !! i = Some t -> pa_ID t = i /\ (0 < i <= pt_nextID r)%N.
Definition tokens_room (k : nat) (r : memTokenRepo) : Prop := (pt_nextID r + N.of_nat k < two32)%N.

Lemma tokens_inv_new : tokens_inv NewPersonalAccessTokenRepository.
Proof. intros i t. simpl. by rewrite lookup_empty. Qed.

Lemma keep_token_matches f t :
  keep_token (list_to_set (fp_IDs f)) (list_to_set (fp_Tokens f)) (list_to_set (fp_TokenableTypes f))
    (list_to_set (fp_TokenableIDs f)) f t = pat_matches f t.
Proof.
  unfold keep_token, pat_matches. rewrite !in_set_or_any.
  by destruct (in_or_any (pa_ID t) _), (in_or_any (pa_Token t) _), (in_or_any (pa_TokenableType t) _), (in_or_any (pa_TokenableID t) _).
Qed.

(** The two paginations differ only where the bounds overflow. *)
Lemma applyPagination_from_spec l p :
  match applyPagination_from l p with
  | Ok l' => applyPagination l p = Ok l'
  | Err _ => False
  | Panic _ => match p with Some pg => (two64 <= pg_Offset pg + N.max DefaultLimit (pg_Limit pg))%N | None => False end
  end.
Proof.
  destruct p as [p|]; [|done]. unfold applyPagination_from, applyPagination.
  set (limit := if (pg_Limit p =? 0)%N then DefaultLimit else pg_Limit p).
  assert (Hlim : (limit <= N.max DefaultLimit (pg_Limit p))%N) by (subst limit; destruct (pg_Limit p =? 0)%N; lia).
  assert (Hadd : (add64 (pg_Offset p) limit < pg_Offset p)%N -> (two64 <= pg_Offset p + N.max DefaultLimit (pg_Limit p))%N).
  { unfold add64, wrap64. intros Hlt. destruct (N.lt_ge_cases (pg_Offset p + limit) two64); [rewrite N.mod_small in Hlt by done|]; lia. }
  destruct (N.ltb_spec (N.of_nat (length l)) (pg_Offset p)) as [Hlt|Hge].
  - destruct (N.leb_spec (N.of_nat (length l)) (pg_Offset p)); [done|lia].
  - cbv zeta. destruct (N.ltb_spec (N.min (add64 (pg_Offset p) limit) (N.of_nat (length l))) (pg_Offset p)) as [Hs|Hs]; [apply Hadd; lia|].
    destruct (N.leb_spec (N.of_nat (length l)) (pg_Offset p)) as [He|He].
    + f_equal. rewrite drop_ge by lia. by rewrite take_nil.
    + done.
Qed.

Lemma sortTokens_perm l order : sortTokens l order ≡ₚ l.
Proof. destruct order; [done|]. apply (sort_rows_perm compareTokens pa_ID). Qed.

Section contract.
Context `{WallClock} `{MapOrder}.

Lemma token_Find_spec f o p (r : memTokenRepo) : tokens_inv r ->
  exists all, NoDup all /\ (forall t, t ∈ all <-> tokens r !! pa_ID t = Some t /\ pat_matches f t = true) /\
    Find (Some f) o p r = (applyPagination_from all p, tick r).
Proof.
  intros Hinv. unfold Find. change (default (mkFindPAT [] [] [] []) (Some f)) with f. cbv zeta.
  match goal with |- context [applyPagination_from ?l p] => exists l end. split_and!; [| |done].
  - rewrite sortTokens_perm. apply NoDup_filter. apply (NoDup_fmap_1 pa_ID).
    assert (Hids : map pa_ID (map snd (range (pt_ticks r) (tokens r))) ≡ₚ map fst (map_to_list (tokens r))).
    { rewrite map_map. rewrite (Permutation_map _ (range_perm (pt_ticks r) (tokens r))).
      erewrite map_ext_in; [done|]. intros [i t] Hin. apply list_elem_of_In, elem_of_map_to_list in Hin. simpl. by destruct (Hinv _ _ Hin) as [-> _]. }
    unfold fmap, list_fmap. rewrite Hids. apply NoDup_fst_map_to_list.
  - intros t. rewrite sortTokens_perm, list_elem_of_filter. cbv beta.
    rewrite keep_token_matches, list_elem_of_In, in_map_iff. setoid_rewrite <- list_elem_of_In. setoid_rewrite range_perm. split.
    + intros [Hm ([i t'] & <- & Hin%elem_of_map_to_list)]. simpl in *. destruct (Hinv _ _ Hin) as [-> _]. done.
    + intros [Ht Hm]. split; [done|]. exists (pa_ID t, t). split; [done|]. by apply elem_of_map_to_list.
Qed.

Lemma token_store_spec t r : tokens_inv r -> (if decide (pa_ID t = 0%N) then tokens_room 1 r else True) ->
  exists res r', (if (pa_ID t =? 0)%N then create t else update t) r = (res, r') /\ tokens_inv r' /\
    (forall k, tokens_room (if decide (pa_ID t = 0%N) then S k else k) r -> tokens_room k r') /\
    match res with
    | Ok t' => t' = pa_set_id (pa_ID t') t /\ tokens r' = <[pa_ID t' := t']> (tokens r) /\
        (if decide (pa_ID t = 0%N) then tokens r !! pa_ID t' = None else pa_ID t' = pa_ID t /\ is_Some (tokens r !! pa_ID t))
    | Err _ => tokens r' = tokens r
    | Panic _ => False
    end.
Proof.
  intros Hinv Hsv. unfold tokens_room in *. destruct (decide (pa_ID t = 0%N)) as [Hz|Hz].
  - unfold create. rewrite Hz. cbn [N.eqb].
    assert (Hw : wrap32 (pt_nextID r + 1) = (pt_nextID r + 1)%N) by (apply N.mod_small; lia). rewrite Hw.
    eexists _, _. split; [reflexivity|]. split_and!; [|simpl; lia|done|done|].
    + intros i x. simpl. rewrite lookup_insert. case_decide; [intros [= <-]; subst; simpl; lia|]. intros Hx.
      destruct (Hinv _ _ Hx). split; [done|lia].
    + simpl. destruct (tokens r !! (pt_nextID r + 1)%N) as [x|] eqn:E; [|done]. destruct (Hinv _ _ E). lia.
  - apply N.eqb_neq in Hz as ->. unfold update. destruct (tokens r !! pa_ID t) as [old|] eqn:Hold.
    + destruct (Hinv _ _ Hold) as [_ Hlt]. eexists _, _. split; [reflexivity|]. split_and!; [|done|by destruct t|done|done|by eauto].
      intros i x. simpl. rewrite lookup_insert. case_decide; [intros [= <-]; by subst|]. intros Hx. by apply Hinv.
    + eexists _, _. split; [reflexivity|]. by split_and!.
Qed.

#[export, program] Instance memTokenRepo_laws : PersonalAccessTokenRepositoryLaws memTokenRepo := {
  pt_inv := tokens_inv; pt_rows := tokens; pt_room := tokens_room;
}.
Next Obligation. intros r i t Hinv Ht. destruct (Hinv _ _ Ht). split; [done|lia]. Qed.
Next Obligation.
  intros r f o p res r' Hinv E. simpl in E. destruct (token_Find_spec f o p r Hinv) as (all & Hnd & Hel & E2).
  rewrite E2 in E. injection E as <- <-. split_and!; [done..|]. exists all. split_and!; [done..|].
  pose proof (applyPagination_from_spec all p) as Hp. by destruct (applyPagination_from all p).
Qed.
Next Obligation.
  intros t r res r' Hinv Hsv E. simpl in E.
  assert (Hst : exists c d r1, (if (pa_ID t =? 0)%N then create (pa_set_times c d t) else update (pa_set_times c d t)) r1 = (res, r') /\
    tokens r1 = tokens r /\ pt_nextID r1 = pt_nextID r).
  { unfold Save, bind, Now, ret in E. simpl in E. destruct (_ && _); eexists _, _, _; (split; [exact E|done]). }
  destruct Hst as (c & d & r1 & Es & Hr1 & Hn1).
  destruct (token_store_spec (pa_set_times c d t) r1) as (res2 & r2 & E2 & Hi & Hroom & Hres).
  - intros i x. rewrite Hr1, Hn1. apply Hinv.
  - unfold tokens_room in *. simpl. by rewrite Hn1.
  - simpl in E2. rewrite Es in E2. injection E2 as -> ->. unfold tokens_room in *. rewrite Hn1 in *. simpl in *.
    split_and!; [done|done|]. rewrite Hr1 in Hres. destruct res2 as [t'|e|w]; [|done|done]. destruct Hres as (Ht' & Hrows & Hnew).
    split_and!; [|done|done]. exists c, d. rewrite Ht' at 1. by destruct t.
Qed.
Next Obligation.
  intros i r res r' Hinv [= <- <-]. split_and!; [|done|done].
  intros j t. simpl. rewrite lookup_delete. case_decide; [done|]. apply Hinv.
Qed.
Next Obligation.
  intros i t r res r' Hinv [= <- <-]. destruct (tokens r !! i) as [x|] eqn:E.
  - split_and!; [|done|by simpl; rewrite alter_alt, E]. intros j y. simpl. rewrite lookup_insert. case_decide; [|apply Hinv].
    intros [= <-]. subst. by destruct (Hinv _ _ E).
  - split_and!; [done|done|]. by rewrite alter_alt, E.
Qed.
End contract.
