(* ===== verification/AuthTokens.v ===== *)
(** Bearer tokens ([pkg/auth]): what the services that issue and read them
    promise ([claims.go], [contracts.go]) and the JWT and PASETO services
    ([jwt.go], [paseto.go]) on top of their libraries. *)

From S2P Require Import Prelude.
From S2P Require Import GoNum.
From S2P Require Import Domain.
From S2P Require Import GoRuntime.
From S2P Require Import Cache.
From S2P Require Import Accounts.
From stdpp Require Import base tactics strings list gmap numbers.
From Stdlib Require Import NArith ZArith Ascii.

(** ** Time, ids and random bytes of the process, next to its cache *)

Class Process (C : Type) : Type := {
  time_now : M C time;
  xid_New : M C string;
  rand_Read : nat -> M C (list N);
}.

(** [c'] is a later state with the same cache contents. *)
Definition only_later {C} `{CacheLaws C} (c c' : C) : Prop := ca_entries c' = ca_entries c /\ (ca_now c <= ca_now c')%Z.

Class ProcessLaws (C : Type) `{CacheLaws C} `{Process C} : Prop := {
  time_now_law : forall c r c', time_now c = (r, c') ->
    only_later c c' /\ exists t, r = Ok t /\ (ca_now c <= t <= ca_now c')%Z;
  xid_New_law : forall c r c', xid_New c = (r, c') -> only_later c c' /\ is_ok r = true;
  rand_Read_law : forall n c r c', rand_Read n c = (r, c') ->
    only_later c c' /\ match r with Ok l => length l = n /\ Forall (fun b => b < 256)%N l | Err _ => True | Panic _ => False end;
}.

Section later.
Context {C : Type} `{CacheLaws C}.
Lemma only_later_refl (c : C) : only_later c c.
Proof. by split. Qed.
Lemma only_later_trans (c1 c2 c3 : C) : only_later c1 c2 -> only_later c2 c3 -> only_later c1 c3.
Proof. intros [E1 L1] [E2 L2]. split; [congruence|lia]. Qed.
End later.

(** ** Token services *)

Record Claims : Type := mkClaims { GetSubject : result string; GetExpirationTime : result (option time) }.

Definition subjectPrefix : string := "user:login:".
Definition createSubjectFromLogin (login : string) : string := subjectPrefix +:+ login.

Class AuthService (C : Type) : Type := {
  ValidateToken : string -> M C Claims;
  GenerateTokenForUser : User -> Z -> M C string;
}.

(** What a token says never changes ([token_claims]); it is accepted until it
    expires.  A new token names its user and lives as long as asked for, give
    or take the second to which its times are rounded down. *)
Class AuthServiceLaws (C : Type) `{CacheLaws C} `{AuthService C} : Type := {
  token_claims : string -> option Claims;
  issued : string -> bool;
  validate_law : forall tok c r c', ValidateToken tok c = (r, c') ->
    only_later c c' /\
    match r with
    | Ok cl => token_claims tok = Some cl /\ (forall e, GetExpirationTime cl = Ok (Some e) -> (ca_now c <= e)%Z)
    | Err _ => forall cl, token_claims tok = Some cl -> issued tok = true ->
        exists e, GetExpirationTime cl = Ok (Some e) /\ (e <= ca_now c')%Z
    | Panic _ => False
    end;
  generate_law : forall u d c r c', GenerateTokenForUser u d c = (r, c') ->
    only_later c c' /\
    match r with
    | Ok tok => issued tok = true /\ exists e, (ca_now c + d - second < e)%Z /\
        token_claims tok = Some (mkClaims (Ok (createSubjectFromLogin (us_Login u))) (Ok (Some e)))
    | Err _ => True
    | Panic _ => False
    end;
  claims_read : forall tok cl, token_claims tok = Some cl -> is_ok (GetSubject cl) = true /\ is_ok (GetExpirationTime cl) = true;
  issued_shape : forall tok, issued tok = true ->
    String.prefix "v4.local." tok || String.prefix "v4.public." tok || String.prefix "eyJ" tok = true;
}.

(** ** JWT *)

(** The claims that are written, and the library: signing, parsing with
    validation at a time, and the rounding of [NewNumericDate]. *)
Record JWTClaims : Type := mkJWTClaims {
  jc_ID : string; jc_Subject : string; jc_ExpiresAt : option time; jc_IssuedAt : option time; jc_Issuer : string;
}.
Class JWTLibrary : Type := {
  jwt_SignedString : string -> JWTClaims -> result string;
  jwt_ParseWithClaims : string -> time -> string -> result JWTClaims;
  NewNumericDate : time -> time;
}.

(** Its documented behaviour: what was signed with a key is read back with it
    until it expires; expired tokens are refused; times are rounded down to the
    second; the encoded header of a token starts with [eyJ]. *)
Class JWTLibraryLaws `{JWTLibrary} : Type := {
  jwt_content : string -> string -> option JWTClaims;
  jwt_sign_law : forall k cl tok, jwt_SignedString k cl = Ok tok -> jwt_content k tok = Some cl /\ String.prefix "eyJ" tok = true;
  jwt_sign_nopanic : forall k cl w, jwt_SignedString k cl <> Panic w;
  jwt_parse_law : forall k t tok,
    match jwt_ParseWithClaims k t tok with
    | Ok cl => jwt_content k tok = Some cl /\ (forall e, jc_ExpiresAt cl = Some e -> t <= e)%Z
    | Err _ => forall cl e, jwt_content k tok = Some cl -> jc_ExpiresAt cl = Some e -> (e <= t)%Z
    | Panic _ => False
    end;
  NewNumericDate_law : forall t, (t - second < NewNumericDate t <= t)%Z;
}.

Section jwt.
Context {C : Type} `{Process C} `{JWTLibrary} (secretKey : string).

Definition jwt_GenerateTokenForUser (u : User) (tokenDuration : Z) : M C string :=
  let! id := xid_New in
  let! now := time_now in
  let! now2 := time_now in
  wrap "failed to sign token" (lift (jwt_SignedString secretKey
    (mkJWTClaims id (createSubjectFromLogin (us_Login u)) (Some (NewNumericDate (now + tokenDuration)))
      (Some (NewNumericDate now2)) "gameap-api"))).

(** [jwtClaimsAdapter] *)
Definition jwtClaims (cl : JWTClaims) : Claims := mkClaims (Ok (jc_Subject cl)) (Ok (jc_ExpiresAt cl)).
Definition jwt_ValidateToken (tokenString : string) : M C Claims :=
  let! now := time_now in
  let! cl := wrap "failed to parse token" (lift (jwt_ParseWithClaims secretKey now tokenString)) in
  ret (jwtClaims cl).

#[local] Instance jwtService : AuthService C := { ValidateToken := jwt_ValidateToken; GenerateTokenForUser := jwt_GenerateTokenForUser }.
End jwt.

(** ** PASETO *)

Record PASETOToken : Type := mkPASETO {
  ps_Jti : string; ps_IssuedAt : time; ps_NotBefore : time; ps_Expiration : time; ps_Issuer : string; ps_Subject : string;
}.
Class PASETOLibrary : Type := {
  V4Encrypt : string -> PASETOToken -> string;
  ParseV4Local : string -> time -> string -> result PASETOToken;
  rfc3339 : time -> time;
}.
Class PASETOLibraryLaws `{PASETOLibrary} : Type := {
  paseto_content : string -> string -> option PASETOToken;
  V4Encrypt_law : forall k p, String.prefix "v4.local." (V4Encrypt k p) = true /\
    paseto_content k (V4Encrypt k p) =
      Some (mkPASETO (ps_Jti p) (rfc3339 (ps_IssuedAt p)) (rfc3339 (ps_NotBefore p)) (rfc3339 (ps_Expiration p)) (ps_Issuer p) (ps_Subject p));
  ParseV4Local_law : forall k t tok,
    match ParseV4Local k t tok with
    | Ok p => paseto_content k tok = Some p /\ (t <= ps_Expiration p)%Z
    | Err _ => forall p, paseto_content k tok = Some p -> (ps_Expiration p <= t)%Z
    | Panic _ => False
    end;
  rfc3339_law : forall t, (t - second < rfc3339 t <= t)%Z;
}.

(** The key: short secrets are filled up with zeros, long ones cut. *)
Fixpoint zeros (n : nat) : string := match n with 0 => EmptyString | S n => String "0"%char (zeros n) end.
Definition paseto_key (secretKey : string) : string :=
  let k := if String.length secretKey <? 32 then secretKey +:+ zeros (32 - String.length secretKey) else secretKey in
  if 32 <? String.length k then String.substring 0 32 k else k.

Section paseto.
Context {C : Type} `{Process C} `{PASETOLibrary} (secretKey : string).

Definition paseto_GenerateTokenForUser (u : User) (tokenDuration : Z) : M C string :=
  let! id := xid_New in
  let! issuedAt := time_now in
  let! notBefore := time_now in
  let! now := time_now in
  ret (V4Encrypt (paseto_key secretKey)
    (mkPASETO id issuedAt notBefore (now + tokenDuration) "gameap-api" (createSubjectFromLogin (us_Login u)))).

(** [pasetoClaims] *)
Definition pasetoClaims (p : PASETOToken) : Claims := mkClaims (Ok (ps_Subject p)) (Ok (Some (ps_Expiration p))).
Definition paseto_ValidateToken (tokenString : string) : M C Claims :=
  let! now := time_now in
  let! p := wrap "failed to parse token" (lift (ParseV4Local (paseto_key secretKey) now tokenString)) in
  ret (pasetoClaims p).

#[local] Instance pasetoService : AuthService C := { ValidateToken := paseto_ValidateToken; GenerateTokenForUser := paseto_GenerateTokenForUser }.
End paseto.

Lemma length_zeros n : String.length (zeros n) = n.
Proof. induction n; simpl; congruence. Qed.

Lemma paseto_key_length k : String.length (paseto_key k) = 32.
Proof.
  unfold paseto_key. destruct (Nat.ltb_spec (String.length k) 32) as [Hlt|Hge].
  - assert (E : String.length (k +:+ zeros (32 - String.length k)) = 32) by (rewrite length_string_app, length_zeros; lia).
    rewrite E. exact E.
  - destruct (Nat.ltb_spec 32 (String.length k)); [|lia].
    assert (Hs : forall n s, n <= String.length s -> String.length (String.substring 0 n s) = n).
    { induction n as [|n IH]; intros [|c s] Hn; simpl in *; try done; [lia|]. f_equal. apply IH. lia. }
    apply Hs. lia.
Qed.

(** A secret and the same secret filled up by hand are one key. *)
Lemma paseto_key_padded k n : String.length k + n <= 32 -> paseto_key (k +:+ zeros n) = paseto_key k.
Proof.
  intros Hn. unfold paseto_key. rewrite length_string_app, length_zeros.
  assert (Hz : forall a b, zeros a +:+ zeros b = zeros (a + b)) by (induction a as [|a IH]; intros b; [done|]; cbn [zeros Nat.add]; rewrite String_app; f_equal; apply IH).
  assert (Happ : forall s t u, (s +:+ t) +:+ u = s +:+ (t +:+ u)) by (induction s as [|c s IH]; intros t u; [done|]; rewrite !String_app; f_equal; apply IH).
  assert (E : k +:+ zeros (32 - String.length k) =
    if String.length k + n <? 32 then (k +:+ zeros n) +:+ zeros (32 - (String.length k + n)) else k +:+ zeros n).
  { destruct (Nat.ltb_spec (String.length k + n) 32); [rewrite Happ, Hz|]; do 2 f_equal; lia. }
  destruct (Nat.ltb_spec (String.length k) 32) as [Hlt|Hge]; [by rewrite <- E|].
  assert (n = 0) as -> by lia. destruct (Nat.ltb_spec (String.length k + 0) 32); [lia|]. simpl zeros.
  assert (Hnil : k +:+ "" = k) by (clear; induction k as [|c k IH]; [done|rewrite String_app; f_equal; exact IH]). by rewrite Hnil.
Qed.

(** ** The services keep the promise *)

Section instances.
Context {C : Type} `{ProcessLaws C}.

Lemma time_now_wp (c : C) (Q : result time -> C -> Prop) :
  (forall t c', only_later c c' -> (ca_now c <= t <= ca_now c')%Z -> Q (Ok t) c') -> wp time_now Q c.
Proof. intros HQ. apply wp_intro. intros r c' E. destruct (time_now_law _ _ _ E) as (Hl & t & -> & Ht). by apply HQ. Qed.
Lemma xid_New_wp (c : C) (Q : result string -> C -> Prop) :
  (forall x c', only_later c c' -> Q (Ok x) c') -> wp xid_New Q c.
Proof. intros HQ. apply wp_intro. intros r c' E. destruct (xid_New_law _ _ _ E) as (Hl & Hr). destruct r; [by apply HQ|done..]. Qed.

Section jwt.
Context `{JWTLibraryLaws} (secretKey : string).
#[local] Existing Instance jwtService.

Definition jwt_issued (tok : string) : bool :=
  String.prefix "eyJ" tok && match jwt_content secretKey tok with Some cl => match jc_ExpiresAt cl with Some _ => true | None => false end | None => false end.

Lemma jwt_validate_spec tok (c : C) : wp (jwt_ValidateToken secretKey tok) (fun r c' => only_later c c' /\
    match r with
    | Ok cl => jwtClaims <$> jwt_content secretKey tok = Some cl /\ (forall e, GetExpirationTime cl = Ok (Some e) -> (ca_now c <= e)%Z)
    | Err _ => forall cl, jwtClaims <$> jwt_content secretKey tok = Some cl -> jwt_issued tok = true ->
        exists e, GetExpirationTime cl = Ok (Some e) /\ (e <= ca_now c')%Z
    | Panic _ => False
    end) c.
Proof.
  unfold jwt_ValidateToken. wp_step. apply time_now_wp. intros t c' Hl Ht. do 3 wp_step.
  pose proof (jwt_parse_law secretKey t tok) as Hp. destruct (jwt_ParseWithClaims secretKey t tok) as [cl|e|w]; [| |done]; cbn [wrap_err]; cbv iota beta.
  - wp_step. destruct Hp as [-> He]. split_and!; [done|done|]. intros e [= Ee]. specialize (He e Ee). lia.
  - split; [done|]. intros cl Hcl Hi. destruct (jwt_content secretKey tok) as [jc|] eqn:Ec; [|done]. injection Hcl as <-.
    unfold jwt_issued in Hi. rewrite Ec in Hi. destruct (jc_ExpiresAt jc) as [ex|] eqn:Ex; [|by rewrite andb_false_r in Hi].
    exists ex. split; [simpl; by rewrite Ex|]. specialize (Hp jc ex eq_refl Ex). lia.
Qed.

Lemma jwt_generate_spec u d (c : C) : wp (jwt_GenerateTokenForUser secretKey u d) (fun r c' => only_later c c' /\
    match r with
    | Ok tok => jwt_issued tok = true /\ exists e, (ca_now c + d - second < e)%Z /\
        jwtClaims <$> jwt_content secretKey tok = Some (mkClaims (Ok (createSubjectFromLogin (us_Login u))) (Ok (Some e)))
    | Err _ => True
    | Panic _ => False
    end) c.
Proof.
  unfold jwt_GenerateTokenForUser. wp_step. apply xid_New_wp. intros id c1 Hl1. wp_step. apply time_now_wp. intros t c2 Hl2 Ht.
  wp_step. apply time_now_wp. intros t2 c3 Hl3 _. do 2 wp_step.
  assert (Hl : only_later c c3) by (eapply only_later_trans; [|exact Hl3]; eapply only_later_trans; eassumption).
  match goal with |- context [jwt_SignedString secretKey ?cl] => destruct (jwt_SignedString secretKey cl) as [tok|e|w] eqn:E end; cbn [wrap_err].
  - apply jwt_sign_law in E as [Ec Ep]. split; [done|]. split; [unfold jwt_issued; by rewrite Ec, Ep|].
    exists (NewNumericDate (t + d)). split; [|by rewrite Ec]. pose proof (NewNumericDate_law (t + d)). destruct Hl1. lia.
  - done.
  - by apply jwt_sign_nopanic in E.
Qed.

#[export, program] Instance jwtService_laws : AuthServiceLaws C (H1 := jwtService secretKey) := {
  token_claims tok := jwtClaims <$> jwt_content secretKey tok; issued := jwt_issued;
}.
Next Obligation. intros tok c r c' E. pose proof (jwt_validate_spec tok c) as Hwp. unfold wp in Hwp. change (jwt_ValidateToken secretKey tok c = (r, c')) in E. by rewrite E in Hwp. Qed.
Next Obligation. intros u d c r c' E. pose proof (jwt_generate_spec u d c) as Hwp. unfold wp in Hwp. change (jwt_GenerateTokenForUser secretKey u d c = (r, c')) in E. by rewrite E in Hwp. Qed.
Next Obligation. intros tok cl Hc. apply fmap_Some in Hc as (jc & _ & ->). done. Qed.
Next Obligation. intros tok Hi. unfold jwt_issued in Hi. apply andb_prop in Hi as [-> _]. by rewrite !orb_true_r. Qed.
End jwt.

Section paseto.
Context `{PASETOLibraryLaws} (secretKey : string).
#[local] Existing Instance pasetoService.

Abbreviation content tok := (paseto_content (paseto_key secretKey) tok).
Definition paseto_issued (tok : string) : bool :=
  String.prefix "v4.local." tok && match content tok with Some _ => true | None => false end.

Lemma paseto_validate_spec tok (c : C) : wp (paseto_ValidateToken secretKey tok) (fun r c' => only_later c c' /\
    match r with
    | Ok cl => pasetoClaims <$> content tok = Some cl /\ (forall e, GetExpirationTime cl = Ok (Some e) -> (ca_now c <= e)%Z)
    | Err _ => forall cl, pasetoClaims <$> content tok = Some cl -> paseto_issued tok = true ->
        exists e, GetExpirationTime cl = Ok (Some e) /\ (e <= ca_now c')%Z
    | Panic _ => False
    end) c.
Proof.
  unfold paseto_ValidateToken. wp_step. apply time_now_wp. intros t c' Hl Ht. do 3 wp_step.
  pose proof (ParseV4Local_law (paseto_key secretKey) t tok) as Hp.
  destruct (ParseV4Local _ t tok) as [p|e|w]; [| |done]; cbn [wrap_err]; cbv iota beta.
  - wp_step. destruct Hp as [-> He]. split_and!; [done|done|]. intros e [= <-]. lia.
  - split; [done|]. intros cl Hcl _. destruct (content tok) as [p|] eqn:Ec; [|done]. injection Hcl as <-.
    exists (ps_Expiration p). split; [done|]. specialize (Hp p eq_refl). lia.
Qed.

Lemma paseto_generate_spec u d (c : C) : wp (paseto_GenerateTokenForUser secretKey u d) (fun r c' => only_later c c' /\
    match r with
    | Ok tok => paseto_issued tok = true /\ exists e, (ca_now c + d - second < e)%Z /\
        pasetoClaims <$> content tok = Some (mkClaims (Ok (createSubjectFromLogin (us_Login u))) (Ok (Some e)))
    | Err _ => True
    | Panic _ => False
    end) c.
Proof.
  unfold paseto_GenerateTokenForUser. wp_step. apply xid_New_wp. intros id c1 Hl1. wp_step. apply time_now_wp. intros t1 c2 Hl2 _.
  wp_step. apply time_now_wp. intros t2 c3 Hl3 _. wp_step. apply time_now_wp. intros t c4 Hl4 Ht. wp_step.
  assert (Hl : only_later c c3) by (eapply only_later_trans; [|exact Hl3]; eapply only_later_trans; eassumption).
  split; [by eapply only_later_trans|].
  match goal with |- context [V4Encrypt ?k ?p] => destruct (V4Encrypt_law k p) as [Hpre Hc] end.
  split; [unfold paseto_issued; by rewrite Hpre, Hc|]. rewrite Hc. exists (rfc3339 (t + d)). split; [|done].
  pose proof (rfc3339_law (t + d)). destruct Hl. lia.
Qed.

#[export, program] Instance pasetoService_laws : AuthServiceLaws C (H1 := pasetoService secretKey) := {
  token_claims tok := pasetoClaims <$> content tok; issued := paseto_issued;
}.
Next Obligation. intros tok c r c' E. pose proof (paseto_validate_spec tok c) as Hwp. unfold wp in Hwp. change (paseto_ValidateToken secretKey tok c = (r, c')) in E. by rewrite E in Hwp. Qed.
Next Obligation. intros u d c r c' E. pose proof (paseto_generate_spec u d c) as Hwp. unfold wp in Hwp. change (paseto_GenerateTokenForUser secretKey u d c = (r, c')) in E. by rewrite E in Hwp. Qed.
Next Obligation. intros tok cl Hc. apply fmap_Some in Hc as (p & _ & ->). done. Qed.
Next Obligation. intros tok Hi. unfold paseto_issued in Hi. by apply andb_prop in Hi as [-> _]. Qed.
End paseto.
End instances.
