(* ===== verification/UserAuth.v ===== *)
(** Who a request of a user speaks for: sessions ([pkg/auth/context.go]), the
    revocation of tokens ([pkg/auth/revocation.go], [revocation_cache.go]), the
    authentication, token ability and administrator middlewares
    ([internal/api/middlewares/auth.go], [personal_access.go]), login
    ([internal/api/auth/login]) and logout ([internal/api/auth/logout]).
    Storage, cache and the token service are used through their contracts;
    SHA-256, bcrypt and the JSON decoder are parameters. *)

From S2P Require Import Prelude.
From S2P Require Import GoNum.
From S2P Require Import Domain.
From S2P Require Import GoRuntime.
From S2P Require Import Cache.
From S2P Require Import Repositories.
From S2P Require Import Http.
From S2P Require Import Accounts.
From S2P Require Import AuthTokens.
From S2P Require Import RBACRepo.
From S2P Require Import RBAC.
From stdpp Require Import base tactics strings list gmap numbers.
From Stdlib Require Import NArith ZArith Ascii.

(** ** Sessions *)

Record Session : Type := mkSession {
  se_ID : string; se_Login : string; se_Email : string;
  se_User : option User; se_Token : option PersonalAccessToken;
}.
Definition IsAuthenticated (s : option Session) : bool :=
  match s with
  | Some x => match se_User x with Some u => negb (us_ID u =? 0)%N | None => false end
  | None => false
  end.
Definition IsTokenSession (s : option Session) : bool :=
  match s with
  | Some x => match se_Token x with Some t => negb (pa_ID t =? 0)%N | None => false end
  | None => false
  end.

(** ** What the handlers ask of access control ([internal/api/base/contracts.go]) *)

Class AccessControl (A : Type) : Type := {
  AC_Can : N -> list string -> M A bool;
  AC_CanOneOf : N -> list string -> M A bool;
  AC_CanForEntity : N -> string -> N -> list string -> M A bool;
  AC_GetRoles : N -> M A (list string);
  AC_SetRolesToUser : N -> list string -> M A unit;
  AC_AllowUserAbilitiesForEntity : N -> N -> string -> list string -> M A unit;
  AC_RevokeOrForbidUserAbilitiesForEntity : N -> N -> string -> list string -> M A unit;
}.

#[export] Instance rbacService {R} `{RBACRepository R} `{MapOrder} (clock : N -> time) (ttl : Z)
  (tm_Do : M (RBACState R) unit -> M (RBACState R) unit) : AccessControl (RBACState R) := {
  AC_Can := Can clock ttl; AC_CanOneOf := CanOneOf clock ttl; AC_CanForEntity := CanForEntity clock ttl;
  AC_GetRoles := RBAC_GetRoles; AC_SetRolesToUser := SetRolesToUser tm_Do;
  AC_AllowUserAbilitiesForEntity := AllowUserAbilitiesForEntity clock tm_Do;
  AC_RevokeOrForbidUserAbilitiesForEntity := RevokeOrForbidUserAbilitiesForEntity clock ttl tm_Do;
}.

Definition AbilityNameAdminRolesPermissions : string := "admin roles & permissions".

(** ** The revocation list *)

Inductive TokenRevocation : Type := NoopRevocation | CacheRevocation.
Definition revocationKeyPrefix : string := "auth:revoked:".

Section revocation.
Context {C : Type} `{Cache C} (SHA256 : string -> string).

Definition TokenIdentifier (rawBearer : string) : string := SHA256 rawBearer.
Definition Revoke (v : TokenRevocation) (identifier : string) (ttl : Z) : M C unit :=
  match v with
  | NoopRevocation => ret tt
  | CacheRevocation => if (ttl <=? 0)%Z then ret tt else cache_set (revocationKeyPrefix +:+ identifier) COther ttl
  end.
Definition IsRevoked (v : TokenRevocation) (identifier : string) : M C bool :=
  match v with
  | NoopRevocation => ret false
  | CacheRevocation =>
      let! r := attempt (cache_get (revocationKeyPrefix +:+ identifier)) in
      match r with
      | Ok _ => ret true
      | Err e => if errors_is e ErrNotFound then ret false else fail e
      | Panic w => lift (Panic w)
      end
  end.
End revocation.

(** ** The state the handlers share *)

Record Portal (U T C A : Type) : Type := mkPortal { po_users : U; po_tokens : T; po_process : C; po_access : A }.
Arguments mkPortal {U T C A}.
Arguments po_users {U T C A}. Arguments po_tokens {U T C A}. Arguments po_process {U T C A}. Arguments po_access {U T C A}.

(** bcrypt, which draws its salt itself. *)
Class Bcrypt : Type := {
  CompareHashAndPassword : string -> string -> option error;
  GenerateFromPassword : string -> N -> list N -> result string;
}.

Definition errMissingAuthToken : error := ENew "missing authentication token".
Definition errInvalidPATFormat : error := ENew "invalid personal access token format".
Definition errInvalidPATID : error := ENew "invalid personal access token ID".
Definition errPATNotFound : error := ENew "personal access token not found".
Definition errInvalidPAT : error := ENew "invalid personal access token".
Definition errUnsupportedPATType : error := ENew "unsupported personal access token type".
Definition errUserNotFoundForPAT : error := ENew "user not found for personal access token".
Definition errInvalidOrExpiredToken : error := ENew "invalid or expired token".
Definition errInvalidTokenSubject : error := ENew "invalid token subject".
Definition errUserNotFound : error := ENew "user not found".
Definition errUserNotAuthenticated : error := ENew "user not authenticated".
Definition errAdminPermissionsRequired : error := ENew "admin permissions required".
Definition errTokenRevoked : error := ENew "token has been revoked".

Inductive tokenType : Type := tokenTypeUnknown | tokenTypePersonalAccess | tokenTypeUserAuth.

Fixpoint all_digits (s : string) : bool :=
  match s with EmptyString => true | String c s => match char_digit c with Some _ => all_digits s | None => false end end.
Definition IsNumeric (s : string) : bool := negb (String.eqb s "") && all_digits s.

(** The token of a request, and what kind it looks like. *)
Definition token_elsewhere (r : Request) : string :=
  if negb (String.eqb (rq_QueryToken r) "") then rq_QueryToken r
  else match rq_Cookie r with Some v => v | None => ""%string end.
Definition extractToken `{Unicode} (r : Request) : string :=
  if negb (String.eqb (rq_Authorization r) "") then
    match split_byte " "%char (rq_Authorization r) with
    | [scheme; token] => if String.eqb (ToLower scheme) "bearer" then token else token_elsewhere r
    | _ => token_elsewhere r
    end
  else token_elsewhere r.
(** The same in [logout]. *)
Definition extractBearerToken `{Unicode} (r : Request) : string :=
  if negb (String.eqb (rq_Authorization r) "") then
    match split_byte " "%char (rq_Authorization r) with
    | [scheme; token] => if EqualFold scheme "bearer" then token else token_elsewhere r
    | _ => token_elsewhere r
    end
  else token_elsewhere r.

Definition detectTokenType (token : string) : tokenType :=
  if String.prefix "v4.local." token || String.prefix "v4.public." token || String.prefix "eyJ" token then tokenTypeUserAuth
  else
    match cut_byte "|"%char token with
    | Some (prefix, _) => if negb (String.eqb prefix "") && IsNumeric prefix then tokenTypePersonalAccess else tokenTypeUnknown
    | None => tokenTypeUnknown
    end.

Section middlewares.
Context {U T C A : Type} `{UserRepository U} `{PersonalAccessTokenRepository T} `{Cache C} `{Process C} `{AuthService C}.
Context `{AccessControl A} `{Unicode} (SHA256 : string -> string) (revocation : TokenRevocation).

Abbreviation S := (Portal U T C A).

(** A handler is given the session in the context of its request. *)
Definition Handler (B : Type) : Type := option Session -> Request -> M S (Response B).

Definition po_on_users {B} (x : M U B) : M S B := zoom po_users (fun u s => mkPortal u (po_tokens s) (po_process s) (po_access s)) x.
Definition po_on_tokens {B} (x : M T B) : M S B := zoom po_tokens (fun t s => mkPortal (po_users s) t (po_process s) (po_access s)) x.
Definition po_on_process {B} (x : M C B) : M S B := zoom po_process (fun c s => mkPortal (po_users s) (po_tokens s) c (po_access s)) x.
Definition po_on_access {B} (x : M A B) : M S B := zoom po_access (fun a s => mkPortal (po_users s) (po_tokens s) (po_process s) a) x.

Definition unauthorized (e : error) : api_error := WrapHTTPError e StatusUnauthorized.

(** A session or an error. *)
Definition processPersonalAccessToken (token : string) : M S (Session + api_error) :=
  match cut_byte "|"%char token with
  | None => ret (inr (unauthorized errInvalidPATFormat))
  | Some (idPart, tokenPart) =>
      match Atoi idPart with
      | Panic w => lift (Panic w)
      | Err _ => ret (inr (unauthorized errInvalidPATID))
      | Ok id =>
          if (id <=? 0)%Z then ret (inr (unauthorized errInvalidPATID))
          else
            let! dbTokens := attempt (po_on_tokens (PT_Find (FindPersonalAccessTokenByIDs [Z.to_N id]) [] only_first)) in
            match dbTokens with
            | Panic w => lift (Panic w)
            | Err e => ret (inr (OtherError (EWrap "failed to load personal access token from repository" e)))
            | Ok [] => ret (inr (unauthorized errPATNotFound))
            | Ok (dbToken :: _) =>
                if negb (String.eqb (pa_Token dbToken) (SHA256 tokenPart)) then ret (inr (unauthorized errInvalidPAT))
                else if negb (String.eqb (pa_TokenableType dbToken) EntityTypeUser) then ret (inr (unauthorized errUnsupportedPATType))
                else
                  let! s := get in
                  match US_Find (po_users s) (FindUserByIDs [pa_TokenableID dbToken]) [] only_first with
                  | Panic w => lift (Panic w)
                  | Err e => ret (inr (OtherError (EWrap "failed to load user by personal access token" e)))
                  | Ok [] => ret (inr (unauthorized errUserNotFoundForPAT))
                  | Ok (user :: _) =>
                      let! id := po_on_process xid_New in
                      ret (inl (mkSession id (us_Login user) (us_Email user) (Some user) (Some dbToken)))
                  end
            end
      end
  end.

Definition processUserAuthToken (token : string) : M S (Session + api_error) :=
  let! claims := attempt (po_on_process (ValidateToken token)) in
  match claims with
  | Panic w => lift (Panic w)
  | Err _ => ret (inr (unauthorized errInvalidOrExpiredToken))
  | Ok claims =>
      match GetSubject claims with
      | Panic w => lift (Panic w)
      | Err _ => ret (inr (unauthorized errInvalidTokenSubject))
      | Ok subject =>
          if negb (String.prefix subjectPrefix subject) then ret (inr (unauthorized errInvalidTokenSubject))
          else
            let login := TrimPrefix subject subjectPrefix in
            if String.eqb login "" then ret (inr (unauthorized errInvalidTokenSubject))
            else
              let! s := get in
              match US_Find (po_users s) (mkFindUser [] [login] []) [] only_first with
              | Panic w => lift (Panic w)
              | Err e => ret (inr (OtherError (EWrap "failed to load user by login from token" e)))
              | Ok [] => ret (inr (unauthorized errUserNotFound))
              | Ok (user :: _) =>
                  let! id := po_on_process xid_New in
                  ret (inl (mkSession id (us_Login user) (us_Email user) (Some user) None))
              end
      end
  end.

(** [errors.As(err, &wrappedHTTPErr)] with status 401 *)
Definition is_unauthorized (e : api_error) : bool :=
  match e with WrapHTTPError _ code => (code =? StatusUnauthorized)%Z | _ => false end.

Definition middleware {B} (next : Handler B) (optional : bool) : Handler B := fun ctx r =>
  let tokenString := extractToken r in
  if String.eqb tokenString "" then
    if optional then next ctx r else ret (WriteError (unauthorized errMissingAuthToken))
  else
    match detectTokenType tokenString with
    | tokenTypeUnknown => ret (WriteError (unauthorized errInvalidOrExpiredToken))
    | kind =>
        let! session := (match kind with
                         | tokenTypeUserAuth => processUserAuthToken tokenString
                         | _ => processPersonalAccessToken tokenString
                         end) in
        match session with
        | inr e => if optional && is_unauthorized e then next ctx r else ret (WriteError e)
        | inl session =>
            let! revoked := attempt (po_on_process (IsRevoked revocation (TokenIdentifier SHA256 tokenString))) in
            match revoked with
            | Panic w => lift (Panic w)
            | Err e => ret (WriteError (OtherError (EWrap "failed to check token revocation" e)))
            | Ok true => if optional then next ctx r else ret (WriteError (unauthorized errTokenRevoked))
            | Ok false => next (Some session) r
            end
        end
    end.
Definition AuthMiddleware {B} (next : Handler B) : Handler B := middleware next false.
Definition OptionalMiddleware {B} (next : Handler B) : Handler B := middleware next true.

Definition IsAdminMiddleware {B} (next : Handler B) : Handler B := fun ctx r =>
  match ctx with
  | Some (mkSession _ _ _ (Some user) _) =>
      if (us_ID user =? 0)%N then ret (WriteError (unauthorized errUserNotAuthenticated))
      else
        let! isAdmin := attempt (po_on_access (AC_Can (us_ID user) [AbilityNameAdminRolesPermissions])) in
        match isAdmin with
        | Panic w => lift (Panic w)
        | Err e => ret (WriteError (WrapHTTPError (EWrap "failed to check admin status" e) StatusInternalServerError))
        | Ok false => ret (WriteError (WrapHTTPError errAdminPermissionsRequired StatusForbidden))
        | Ok true => next ctx r
        end
  | _ => ret (WriteError (unauthorized errUserNotAuthenticated))
  end.

(** The first required ability the token lacks. *)
Fixpoint missing_ability (required have : list string) : option string :=
  match required with
  | [] => None
  | a :: l => if existsb (String.eqb a) have then missing_ability l have else Some a
  end.

(** [abilities] is [None] for nil. *)
Definition PersonalAccessMiddleware {B} (next : Handler B) (abilities : option (list string)) : Handler B := fun ctx r =>
  match ctx with
  | Some (mkSession _ _ _ _ (Some token)) =>
      if (pa_ID token =? 0)%N then next ctx r
      else
        match abilities with
        | None => ret (WriteError (WrapHTTPError (ENew "no abilities specified for this endpoint") StatusInternalServerError))
        | Some abilities =>
            match pa_Abilities token with
            | None => ret (WriteError (WrapHTTPError (ENew "token abilities are not configured") StatusForbidden))
            | Some have =>
                if length have <? length abilities
                then ret (WriteError (WrapHTTPError (ENew "insufficient token abilities") StatusForbidden))
                else
                  match missing_ability abilities have with
                  | Some ability => ret (WriteError (WrapHTTPError (ENew ("missing required ability: " +:+ ability)) StatusForbidden))
                  | None => next ctx r
                  end
            end
        end
  | _ => next ctx r
  end.

(** ** Login *)

Definition DefaultTokenDuration : Z := 24 * 60 * minute.
Definition RememberMeDuration : Z := 7 * 24 * 60 * minute.

Record loginInput : Type := mkLoginInput { li_Login : string; li_Email : string; li_Password : string; li_Remember : string }.
Definition ErrLoginIsRequired : api_error := NewValidationError "login or email fields are required".
Definition ErrPasswordIsRequired : api_error := NewValidationError "password field is required".
Definition login_Validate (l : loginInput) : option api_error :=
  if String.eqb (li_Login l) "" && String.eqb (li_Email l) "" then Some ErrLoginIsRequired
  else if String.eqb (li_Password l) "" then Some ErrPasswordIsRequired
  else None.
Definition RememberMe (l : loginInput) : bool := String.eqb (li_Remember l) "on" || String.eqb (li_Remember l) "true".
Definition IsEmailLogin (l : loginInput) : bool := negb (String.eqb (li_Email l) "").

Record userInfo : Type := mkUserInfo { ui_Login : string; ui_Email : string; ui_Name : option string }.
Record loginResponse : Type := mkLoginResponse { lr_Token : string; lr_ExpiresIn : Z; lr_User : userInfo }.
Definition newLoginResponseFromUser (u : User) (token : string) (expiresIn : Z) : loginResponse :=
  mkLoginResponse token (Z.quot expiresIn second) (mkUserInfo (us_Login u) (us_Email u) (us_Name u)).

Context `{Bcrypt} (decode_login : string -> result loginInput).

(** [auth.VerifyPassword] *)
Definition VerifyPassword (hashedPassword password : string) : option error :=
  match CompareHashAndPassword hashedPassword password with
  | Some e => Some (EWrap "password verification failed" e)
  | None => None
  end.

Definition Login : Handler loginResponse := fun _ r =>
  match decode_login (rq_Body r) with
  | Panic w => lift (Panic w)
  | Err e => ret (WriteError (WrapHTTPError (EWrap "invalid request body" e) StatusBadRequest))
  | Ok input =>
      match login_Validate input with
      | Some e => ret (WriteError e)
      | None =>
          let filter := if IsEmailLogin input then mkFindUser [] [] [li_Email input] else mkFindUser [] [li_Login input] [] in
          let! s := get in
          match US_Find (po_users s) filter [] only_first with
          | Panic w => lift (Panic w)
          | Err e => ret (WriteError (OtherError (EWrap "failed to find user" e)))
          | Ok [] => ret (WriteError (unauthorized (ENew "invalid credentials")))
          | Ok (user :: _) =>
              match VerifyPassword (us_Password user) (li_Password input) with
              | Some _ => ret (WriteError (unauthorized (ENew "invalid credentials")))
              | None =>
                  let duration := if RememberMe input then RememberMeDuration else DefaultTokenDuration in
                  let! token := attempt (po_on_process (GenerateTokenForUser user duration)) in
                  match token with
                  | Panic w => lift (Panic w)
                  | Err e => ret (WriteError (OtherError (EWrap "failed to generate token" e)))
                  | Ok token => ret (Write StatusOK (newLoginResponseFromUser user token DefaultTokenDuration))
                  end
              end
          end
      end
  end.

(** ** Logout *)

Definition defaultRevocationTTL : Z := 30 * 24 * 60 * minute.

Definition revocationTTL (bearer : string) : M S Z :=
  let! claims := attempt (po_on_process (ValidateToken bearer)) in
  match claims with
  | Panic w => lift (Panic w)
  | Err _ => ret defaultRevocationTTL
  | Ok claims =>
      match GetExpirationTime claims with
      | Panic w => lift (Panic w)
      | Err _ | Ok None => ret defaultRevocationTTL
      | Ok (Some exp) =>
          let! now := po_on_process AuthTokens.time_now in
          let remaining := (exp - now)%Z in
          ret (if (remaining <=? 0)%Z then 0%Z else remaining)
      end
  end.

Definition Logout : Handler unit := fun ctx r =>
  if negb (IsAuthenticated ctx) then ret (WriteError (unauthorized (ENew "user not authenticated")))
  else
    let bearer := extractBearerToken r in
    if String.eqb bearer "" then ret (WriteHeader StatusNoContent)
    else
      let! ttl := revocationTTL bearer in
      let! r := attempt (po_on_process (Revoke revocation (TokenIdentifier SHA256 bearer) ttl)) in
      match r with
      | Panic w => lift (Panic w)
      | Err e => ret (WriteError (OtherError (EWrap "failed to revoke token" e)))
      | Ok _ => ret (WriteHeader StatusNoContent)
      end.
End middlewares.

(** ** Who is admitted *)

Section specs.
Context {U T C A : Type} `{UserRepositoryLaws U} `{PersonalAccessTokenRepositoryLaws T} `{CacheLaws C}.
Context `{!Process C} `{!ProcessLaws C} `{!AuthService C} `{!AuthServiceLaws C} `{AccessControl A} `{Unicode}.
Context (SHA256 : string -> string) (revocation : TokenRevocation).

Abbreviation S := (Portal U T C A).
Implicit Types s : S.
Abbreviation user_rows s := (us_rows (po_users s)).
Abbreviation token_rows s := (pt_rows (po_tokens s)).

Definition portal_inv s : Prop := us_inv (po_users s) /\ pt_inv (po_tokens s).

(** Nothing changed but the clock and the sequence of ids. *)
Record idle s s' : Prop := {
  idle_users : po_users s' = po_users s;
  idle_tokens : token_rows s' = token_rows s;
  idle_inv : portal_inv s -> portal_inv s';
  idle_process : only_later (po_process s) (po_process s');
  idle_access : po_access s' = po_access s;
}.

Lemma idle_refl s : idle s s.
Proof. split; try done. Qed.
Lemma idle_trans s1 s2 s3 : idle s1 s2 -> idle s2 s3 -> idle s1 s3.
Proof. intros [] []. split; try congruence; [auto|by eapply only_later_trans]. Qed.

Lemma wp_on_process {B} (x : M C B) s (Q : result B -> S -> Prop) :
  wp x (fun r c => only_later (po_process s) c /\
    (forall s', idle s s' -> po_process s' = c -> po_tokens s' = po_tokens s -> Q r s')) (po_process s) -> wp (po_on_process x) Q s.
Proof.
  intros Hx. unfold po_on_process. apply wp_zoom. eapply wp_mono; [exact Hx|]. intros r c [Hl HQ]. apply HQ; [|done|done].
  by split.
Qed.

(** The user a lookup finds: the first of those that match. *)
Definition first_user s (P : User -> Prop) (u : User) : Prop :=
  user_rows s !! us_ID u = Some u /\ P u /\ forall v, user_rows s !! us_ID v = Some v -> P v -> (us_ID u <= us_ID v)%N.

Lemma find_user f s : portal_inv s ->
  match US_Find (po_users s) f [] only_first with
  | Ok [] => forall u, user_rows s !! us_ID u = Some u -> user_matches (mkFindUser (fu_IDs f) (map us_norm (fu_Logins f)) (fu_Emails f)) u = false
  | Ok [u] => first_user s (fun u => user_matches (mkFindUser (fu_IDs f) (map us_norm (fu_Logins f)) (fu_Emails f)) u = true) u
  | Ok _ => False
  | Err _ => True
  | Panic _ => False
  end.
Proof.
  intros [Hu _]. pose proof (selects_first _ _ _ _ (us_find_law (po_users s) f only_first Hu)) as Hf.
  destruct (US_Find _ f [] only_first) as [[|u [|]]|e|w]; try done. intros u Hr. by apply (Hf (us_ID u)).
Qed.

Definition session_of (sid : string) (u : User) (t : option PersonalAccessToken) : Session := mkSession sid (us_Login u) (us_Email u) (Some u) t.

(** A bearer token speaks for a user at time [now]: it is a token of the
    service whose subject is his login and that has not expired, or it is the
    number and the secret of a personal access token of his. *)
Inductive speaks_for s (now : time) (tok : string) : User -> option PersonalAccessToken -> Prop :=
| by_auth_token cl login u :
    detectTokenType tok = tokenTypeUserAuth -> token_claims tok = Some cl ->
    GetSubject cl = Ok (subjectPrefix +:+ login) -> login <> ""%string ->
    (forall e, GetExpirationTime cl = Ok (Some e) -> (now <= e)%Z) ->
    first_user s (fun u => us_Login u = us_norm login) u ->
    speaks_for s now tok u None
| by_access_token number secret t u :
    detectTokenType tok = tokenTypePersonalAccess ->
    cut_byte "|"%char tok = Some (number, secret) -> Atoi number = Ok (Z.of_N (pa_ID t)) ->
    token_rows s !! pa_ID t = Some t -> pa_Token t = SHA256 secret -> pa_TokenableType t = EntityTypeUser ->
    user_rows s !! pa_TokenableID t = Some u ->
    speaks_for s now tok u (Some t).

Lemma first_by_id s i u : portal_inv s ->
  first_user s (fun u => user_matches (FindUserByIDs [i]) u = true) u -> user_rows s !! i = Some u.
Proof.
  intros _ (Hr & Hm & _). unfold user_matches in Hm. simpl in Hm. rewrite !andb_true_r, bool_decide_eq_true, list_elem_of_singleton in Hm.
  by subst.
Qed.

Lemma first_by_login s login u :
  first_user s (fun u => user_matches (mkFindUser [] [us_norm login] []) u = true) u -> first_user s (fun u => us_Login u = us_norm login) u.
Proof.
  assert (Hm : forall v, user_matches (mkFindUser [] [us_norm login] []) v = true <-> us_Login v = us_norm login).
  { intros v. unfold user_matches. simpl. by rewrite andb_true_r, bool_decide_eq_true, list_elem_of_singleton. }
  intros (Hr & Hu & Hl). split_and!; [done|by apply Hm|]. intros v Hv Hlv. apply Hl; [done|]. by apply Hm.
Qed.

Lemma processPersonalAccessToken_spec tok s : portal_inv s -> detectTokenType tok = tokenTypePersonalAccess ->
  wp (processPersonalAccessToken SHA256 tok) (fun r s' => idle s s' /\
    match r with
    | Ok (inl sess) => exists sid u t, sess = session_of sid u t /\ speaks_for s (ca_now (po_process s)) tok u t
    | Ok (inr _) => True
    | _ => False
    end) s.
Proof.
  intros Hi Hk. unfold processPersonalAccessToken. destruct (cut_byte "|"%char tok) as [[number secret]|] eqn:Ec; [|by wp_step; split; [apply idle_refl|]].
  destruct (Atoi number) as [id|e|w] eqn:Ea; [|by wp_step; split; [apply idle_refl|]|by apply Atoi_nopanic in Ea].
  destruct (Z.leb_spec id 0); [by wp_step; split; [apply idle_refl|]|].
  wp_step. wp_step. unfold po_on_tokens. wp_step.
  destruct (pat_by_id (Z.to_N id) only_first (po_tokens s) (or_intror eq_refl) (proj2 Hi)) as (res & r' & E & Hi' & Hrows & _ & Hres).
  unfold wp at 1. rewrite E. cbn [fst snd]. set (s1 := mkPortal (po_users s) r' (po_process s) (po_access s)).
  assert (Hidle : idle s s1) by (by split; try done; intros [? _]; split).
  destruct res as [l|e|w]; [|by wp_step|done]. subst l. destruct (pt_rows (po_tokens s) !! Z.to_N id) as [t|] eqn:Et; [|by wp_step].
  destruct (String.eqb_spec (pa_Token t) (SHA256 secret)) as [Hsec|]; cbn [negb]; [|by wp_step].
  destruct (String.eqb_spec (pa_TokenableType t) EntityTypeUser) as [Hty|]; cbn [negb]; [|by wp_step].
  do 2 wp_step. change (po_users s1) with (po_users s). pose proof (find_user (FindUserByIDs [pa_TokenableID t]) s Hi) as Hf.
  destruct (US_Find _ _ [] only_first) as [[|u [|]]|e|w]; [by wp_step| |done|by wp_step|done].
  wp_step. apply wp_on_process. apply xid_New_wp. intros sid c Hl. split; [exact Hl|]. intros s2 Hs2 _ _. wp_step.
  split; [by eapply idle_trans|]. exists sid, u, (Some t). split; [done|].
  destruct (pt_rows_id _ _ _ (proj2 Hi) Et) as [Hid _]. eapply by_access_token; try done.
  - rewrite Ea. f_equal. rewrite Hid. lia.
  - by rewrite Hid.
  - by apply first_by_id.
Qed.

Lemma trim_subject login : TrimPrefix (subjectPrefix +:+ login) subjectPrefix = login.
Proof. unfold TrimPrefix. by rewrite string_prefix_app, substring_suffix. Qed.

Lemma processUserAuthToken_spec tok s : portal_inv s -> detectTokenType tok = tokenTypeUserAuth ->
  wp (processUserAuthToken tok) (fun r s' => idle s s' /\
    match r with
    | Ok (inl sess) => exists sid u t, sess = session_of sid u t /\ speaks_for s (ca_now (po_process s)) tok u t
    | Ok (inr _) => True
    | _ => False
    end) s.
Proof.
  intros Hi Hk. unfold processUserAuthToken. wp_step. wp_step. apply wp_on_process. apply wp_intro. intros r c E.
  destruct (validate_law _ _ _ _ E) as [Hl Hr]. split; [done|]. intros s1 Hs1 _ _.
  destruct r as [cl|e|w]; [|by wp_step|done]. destruct Hr as [Hcl Hexp].
  destruct (claims_read _ _ Hcl) as [Hsub _].
  destruct (GetSubject cl) as [subj|e|w] eqn:Esub; [|done..].
  destruct (String.prefix subjectPrefix subj) eqn:Epre; cbn [negb]; [|by wp_step].
  apply prefix_spec in Epre as [login ->]. rewrite trim_subject. cbv zeta. destruct (String.eqb_spec login ""); [by wp_step|].
  do 2 wp_step. rewrite (idle_users _ _ Hs1). pose proof (find_user (mkFindUser [] [login] []) s Hi) as Hf.
  destruct (US_Find _ _ [] only_first) as [[|u [|]]|e|w]; [by wp_step| |done|by wp_step|done].
  wp_step. apply wp_on_process. apply xid_New_wp. intros sid c2 Hl2. split; [exact Hl2|]. intros s2 Hs2 _ _. wp_step.
  split; [by eapply idle_trans|]. exists sid, u, None. split; [done|].
  eapply by_auth_token; try done. by apply first_by_login.
Qed.

(** ** The verdict of the middleware *)

Inductive verdict : Type := Refused (e : api_error) | Anonymous | Entered (sess : Session).

Definition obey {B} (v : verdict) (next : Handler B) (ctx : option Session) (r : Request) : M S (Response B) :=
  match v with
  | Refused e => ret (WriteError e)
  | Anonymous => next ctx r
  | Entered sess => next (Some sess) r
  end.

Definition refusal (optional : bool) (e : api_error) : verdict := if optional && is_unauthorized e then Anonymous else Refused e.

Definition unless_revoked (optional : bool) (tok : string) (sess : Session) : M S verdict :=
  let! revoked := attempt (po_on_process (IsRevoked revocation (TokenIdentifier SHA256 tok))) in
  match revoked with
  | Panic w => lift (Panic w)
  | Err e => ret (Refused (OtherError (EWrap "failed to check token revocation" e)))
  | Ok true => ret (refusal optional (unauthorized errTokenRevoked))
  | Ok false => ret (Entered sess)
  end.

(** What the middleware decides before it calls the handler behind it. *)
Definition authenticate (optional : bool) (r : Request) : M S verdict :=
  let tok := extractToken r in
  if String.eqb tok "" then ret (refusal optional (unauthorized errMissingAuthToken))
  else
    match detectTokenType tok with
    | tokenTypeUnknown => ret (Refused (unauthorized errInvalidOrExpiredToken))
    | kind =>
        let! session := (match kind with tokenTypeUserAuth => processUserAuthToken tok | _ => processPersonalAccessToken SHA256 tok end) in
        match session with
        | inr e => ret (refusal optional e)
        | inl sess => unless_revoked optional tok sess
        end
    end.

Lemma middleware_obeys {B} (next : Handler B) optional ctx r s :
  middleware SHA256 revocation next optional ctx r s = bind (authenticate optional r) (fun v => obey v next ctx r) s.
Proof.
  unfold middleware, authenticate, unless_revoked, refusal, bind, attempt, ret, lift. cbv zeta.
  destruct (String.eqb (extractToken r) ""); [by destruct optional|].
  destruct (detectTokenType (extractToken r)); [done| |];
    match goal with |- context [?p (extractToken r) s] => destruct (p (extractToken r) s) as [[[sess|e]|e|w] s1] end;
    [|by destruct optional, (is_unauthorized e)|done|done| |by destruct optional, (is_unauthorized e)|done|done];
    (destruct (po_on_process _ s1) as [[[]|e|w] s2]; [|done..]; by destruct optional).
Qed.

(** A revocation is kept at [t]. *)
Definition revoked_at (c : C) (t : time) (tok : string) : Prop :=
  revocation = CacheRevocation /\ is_Some (lookup_at t (ca_entries c) (revocationKeyPrefix +:+ TokenIdentifier SHA256 tok)).

Lemma IsRevoked_spec tok (c : C) : wp (IsRevoked revocation (TokenIdentifier SHA256 tok)) (fun r c' => only_later c c' /\
    match r with
    | Ok true => True
    | Ok false => exists t, (ca_now c <= t <= ca_now c')%Z /\ ~ revoked_at c t tok
    | Err _ => True
    | Panic _ => False
    end) c.
Proof.
  unfold IsRevoked, revoked_at. destruct revocation.
  - wp_step. split; [apply only_later_refl|]. exists (ca_now c). split; [lia|]. by intros [? _].
  - do 2 wp_step. apply wp_intro. intros r c' E. destruct (ca_get_law _ _ _ _ E) as (He & t & Ht & Hr).
    assert (Hl : only_later c c') by (split; [done|lia]). destruct r as [v|e|w]; [by wp_step| |done].
    destruct (errors_is e ErrNotFound) eqn:En; [|by wp_step]. wp_step. split; [done|]. exists t. split; [done|].
    intros [_ [v Hv]]. by rewrite Hr in Hv.
Qed.

Lemma refusal_optional optional e : match refusal optional e with Refused _ => True | Anonymous => optional = true | Entered _ => False end.
Proof. unfold refusal. by destruct optional, (is_unauthorized e). Qed.

Lemma unless_revoked_spec optional tok sess s :
  wp (unless_revoked optional tok sess) (fun v s' => idle s s' /\
    match v with
    | Ok (Refused e) => True
    | Ok Anonymous => optional = true
    | Ok (Entered sess') => sess' = sess /\
        exists now, (ca_now (po_process s) <= now <= ca_now (po_process s'))%Z /\ ~ revoked_at (po_process s) now tok
    | _ => False
    end) s.
Proof.
  unfold unless_revoked. do 2 wp_step. apply wp_on_process. eapply wp_mono; [apply IsRevoked_spec|].
  intros res c [Hl Hres]. split; [exact Hl|]. intros s2 Hs2 Ec _. destruct res as [[]|e|w]; [| |by wp_step|done]; wp_step; (split; [done|]).
  - pose proof (refusal_optional optional (unauthorized errTokenRevoked)). by destruct (refusal optional _).
  - split; [done|]. destruct Hres as (now & Hnow & Hnr). exists now. by rewrite Ec.
Qed.

Lemma authenticate_spec optional r s : portal_inv s ->
  wp (authenticate optional r) (fun v s' => idle s s' /\
    match v with
    | Ok (Refused e) => True
    | Ok Anonymous => optional = true
    | Ok (Entered sess) => exists sid u t, sess = session_of sid u t /\ speaks_for s (ca_now (po_process s)) (extractToken r) u t /\
        exists now, (ca_now (po_process s) <= now <= ca_now (po_process s'))%Z /\ ~ revoked_at (po_process s) now (extractToken r)
    | _ => False
    end) s.
Proof.
  intros Hi. unfold authenticate. cbv zeta. set (tok := extractToken r).
  assert (Hrefuse : forall e s', idle s s' -> wp (ret (refusal optional e)) (fun v s' => idle s s' /\
    match v with Ok (Refused e) => True | Ok Anonymous => optional = true | _ => False end) s').
  { intros e s' Hs'. wp_step. split; [done|]. pose proof (refusal_optional optional e). by destruct (refusal optional e). }
  assert (Hweak : forall e s', idle s s' -> wp (ret (refusal optional e)) (fun v s' => idle s s' /\
    match v with Ok (Refused e) => True | Ok Anonymous => optional = true
      | Ok (Entered sess) => exists sid u t, sess = session_of sid u t /\ speaks_for s (ca_now (po_process s)) tok u t /\
        exists now, (ca_now (po_process s) <= now <= ca_now (po_process s'))%Z /\ ~ revoked_at (po_process s) now tok
      | _ => False end) s').
  { intros e s' Hs'. eapply wp_mono; [by apply Hrefuse|]. intros v s2 [Hs2 Hv]. split; [done|]. by destruct v as [[]|e2|w]. }
  destruct (String.eqb tok ""); [apply Hweak, idle_refl|].
  destruct (detectTokenType tok) eqn:Ek; [by wp_step; split; [apply idle_refl|]| |]; wp_step;
    (eapply wp_mono; [first [by apply processPersonalAccessToken_spec|by apply processUserAuthToken_spec]|]);
    intros res s1 [Hs1 Hres]; (destruct res as [[sess|e]|e|w]; [|by apply Hweak|done..]);
    destruct Hres as (sid & u & t & -> & Hsp); (eapply wp_mono; [apply unless_revoked_spec|]);
    intros v s2 [Hs2 Hv]; (split; [by eapply idle_trans|]); destruct v as [[e| |sess]|e|w]; try done;
    destruct Hv as (-> & now & Hnow & Hnr); exists sid, u, t; (split_and!; [done|done|]);
    destruct (idle_process _ _ Hs1) as [Ee Hle]; exists now; (split; [lia|]); unfold revoked_at in *; by rewrite <- Ee.
Qed.

Lemma middleware_verdict optional r s : portal_inv s ->
  exists v s', idle s s' /\
    match v with
    | Refused e => True
    | Anonymous => optional = true
    | Entered sess => exists sid u t, sess = session_of sid u t /\ speaks_for s (ca_now (po_process s)) (extractToken r) u t /\
        exists now, (ca_now (po_process s) <= now <= ca_now (po_process s'))%Z /\ ~ revoked_at (po_process s) now (extractToken r)
    end /\
    forall B (next : Handler B) ctx, middleware SHA256 revocation next optional ctx r s = obey v next ctx r s'.
Proof.
  intros Hi. pose proof (authenticate_spec optional r s Hi) as Hwp. unfold wp in Hwp.
  destruct (authenticate optional r s) as [res s'] eqn:E. destruct Hwp as [Hs' Hres].
  destruct res as [v|e|w]; [|done..]. exists v, s'. split_and!; [done|by destruct v|]. intros B next ctx.
  rewrite middleware_obeys. unfold bind. by rewrite E.
Qed.
End specs.
