(* ===== verification/UserAccess.v ===== *)
(** Credentials over time: what a login gives, what a logout takes away, and
    that nothing else lets a request in, proved for the middlewares of
    [UserAuth] on the contracts of storage, cache and token service; and a run
    on the in-memory ones. *)

From S2P Require Import Prelude.
From S2P Require Import GoNum.
From S2P Require Import Domain.
From S2P Require Import GoRuntime.
From S2P Require Import Cache.
From S2P Require Import Repositories.
From S2P Require Import TaskRepo.
From S2P Require Import Http.
From S2P Require Import Accounts.
From S2P Require Import UsersRepo.
From S2P Require Import TokensRepo.
From S2P Require Import AuthTokens.
From S2P Require Import RBACRepo.
From S2P Require Import RBAC.
From S2P Require Import UserAuth.
From stdpp Require Import base tactics strings list gmap numbers.
From Stdlib Require Import NArith ZArith Ascii.

Section access.
Context {U T C A : Type} `{UserRepositoryLaws U} `{PersonalAccessTokenRepositoryLaws T} `{CacheLaws C} `{!CacheTotal C}.
Context `{!Process C} `{!ProcessLaws C} `{!AuthService C} `{!AuthServiceLaws C} `{AccessControl A} `{Unicode}.
Context (SHA256 : string -> string).

Abbreviation S := (Portal U T C A).
Implicit Types s : S.
Abbreviation user_rows s := (us_rows (po_users s)).
Abbreviation token_rows s := (pt_rows (po_tokens s)).
Abbreviation now_of s := (ca_now (po_process s)).

(** The tables answer. *)
Record reliable : Prop := {
  users_answer : forall (u : U) f, us_inv u -> is_ok (US_Find u f [] only_first) = true;
  tokens_answer : forall (t : T) f, pt_inv t -> is_ok (fst (PT_Find f [] only_first t)) = true;
}.

(** The answers to the requests that carry a token, at some state: whatever
    handler is behind the middleware, it obeys one verdict. *)
Definition decided (revocation : TokenRevocation) optional r s (v : verdict) s' : Prop :=
  idle s s' /\ forall B (next : Handler B) ctx, middleware SHA256 revocation next optional ctx r s = obey v next ctx r s'.

Lemma decided_authenticate revocation optional r s v s' :
  authenticate SHA256 revocation optional r s = (Ok v, s') -> idle s s' -> decided revocation optional r s v s'.
Proof. intros E Hs'. split; [done|]. intros B next ctx. rewrite middleware_obeys. unfold bind. by rewrite E. Qed.

(** The state it leaves can be found by running it. *)
Lemma decided_state revocation optional r s v s' : decided revocation optional r s v s' ->
  snd (middleware (B := unit) SHA256 revocation (fun _ _ => ret (WriteHeader 0)) optional None r s) = s'.
Proof. intros [_ Hob]. rewrite Hob. by destruct v. Qed.

Lemma first_user_unique s P u v : portal_inv s -> first_user s P u -> first_user s P v -> u = v.
Proof.
  intros _ (Hu & HPu & Hlu) (Hv & HPv & Hlv). pose proof (Hlu _ Hv HPv). pose proof (Hlv _ Hu HPu).
  assert (us_ID u = us_ID v) as E by lia. rewrite E, Hv in Hu. by injection Hu.
Qed.

Lemma find_user_ok f s (P : User -> Prop) u : portal_inv s -> reliable ->
  (forall v, user_matches (mkFindUser (fu_IDs f) (map us_norm (fu_Logins f)) (fu_Emails f)) v = true <-> P v) ->
  first_user s P u -> US_Find (po_users s) f [] only_first = Ok [u].
Proof.
  intros Hi Hrel HP Hu. pose proof (find_user f s Hi) as Hf. pose proof (users_answer Hrel (po_users s) f (proj1 Hi)) as Hok.
  set (Q := fun v => user_matches (mkFindUser (fu_IDs f) (map us_norm (fu_Logins f)) (fu_Emails f)) v = true) in *.
  assert (HQ : first_user s Q u) by (destruct Hu as (Hr & Hp & Hl); split_and!; [done|by apply HP|]; intros v Hv Hq; apply Hl; [done|by apply HP]).
  destruct (US_Find (po_users s) f [] only_first) as [[|v [|]]|e|w]; [| |done..].
  - destruct HQ as (Hr & Hq & _). unfold Q in Hq. specialize (Hf u Hr). congruence.
  - by rewrite (first_user_unique s Q v u Hi Hf HQ).
Qed.

Lemma matches_login login v : user_matches (mkFindUser [] [login] []) v = true <-> us_Login v = login.
Proof. unfold user_matches. simpl. by rewrite andb_true_r, bool_decide_eq_true, list_elem_of_singleton. Qed.
Lemma matches_id i v : user_matches (mkFindUser [i] [] []) v = true <-> us_ID v = i.
Proof. unfold user_matches. simpl. by rewrite !andb_true_r, bool_decide_eq_true, list_elem_of_singleton. Qed.
Lemma matches_email email v : user_matches (mkFindUser [] [] [email]) v = true <-> us_Email v = email.
Proof. unfold user_matches. simpl. by rewrite bool_decide_eq_true, list_elem_of_singleton. Qed.

Lemma first_of_id s i u : portal_inv s -> user_rows s !! i = Some u -> first_user s (fun v => us_ID v = i) u.
Proof.
  intros [Hu _] Hr. destruct (us_rows_id _ _ _ Hu Hr) as [Hid _]. split_and!; [by rewrite Hid|done|]. intros v _ ->. by rewrite Hid.
Qed.

Lemma access_token_complete tok s u t : portal_inv s -> reliable -> speaks_for SHA256 s (now_of s) tok u (Some t) ->
  wp (processPersonalAccessToken SHA256 tok) (fun r s' => idle s s' /\ exists sid, r = Ok (inl (session_of sid u (Some t)))) s.
Proof.
  intros Hi Hrel Hsp. inversion Hsp as [|number secret t' u' Hk Hc Ha Ht Hsec Hty Hu]; subst. unfold processPersonalAccessToken. rewrite Hc, Ha.
  destruct (pt_rows_id _ _ _ (proj2 Hi) Ht) as [_ Hnz]. destruct (Z.leb_spec (Z.of_N (pa_ID t)) 0); [lia|]. rewrite N2Z.id.
  wp_step. wp_step. unfold po_on_tokens. wp_step.
  destruct (pat_by_id (pa_ID t) only_first (po_tokens s) (or_intror eq_refl) (proj2 Hi)) as (res & r' & E & Hi' & Hrows & _ & Hres).
  pose proof (tokens_answer Hrel (po_tokens s) (FindPersonalAccessTokenByIDs [pa_ID t]) (proj2 Hi)) as Hok. rewrite E in Hok. simpl in Hok.
  unfold wp at 1. rewrite E. cbn [fst snd]. set (s1 := mkPortal (po_users s) r' (po_process s) (po_access s)).
  assert (Hidle : idle s s1) by (by split; try done; intros [? _]; split).
  destruct res as [l|e|w]; [|done..]. subst l. rewrite Ht, Hsec, Hty, !String.eqb_refl. cbn [negb]. do 2 wp_step.
  change (po_users s1) with (po_users s).
  rewrite (find_user_ok (FindUserByIDs [pa_TokenableID t]) s (fun v => us_ID v = pa_TokenableID t) u Hi Hrel (matches_id _) (first_of_id s _ u Hi Hu)).
  wp_step. apply wp_on_process. apply xid_New_wp. intros sid c Hl. split; [exact Hl|]. intros s2 Hs2 _ _. wp_step.
  split; [by eapply idle_trans|]. by exists sid.
Qed.

(** A token of the service is good as long as it has not expired by the end. *)
Lemma auth_token_complete tok s u cl e : portal_inv s -> reliable -> speaks_for SHA256 s (now_of s) tok u None ->
  issued tok = true -> token_claims tok = Some cl -> GetExpirationTime cl = Ok (Some e) ->
  wp (processUserAuthToken tok) (fun r s' => idle s s' /\ ((now_of s' < e)%Z -> exists sid, r = Ok (inl (session_of sid u None))) /\
    match r with Ok _ => True | _ => False end) s.
Proof.
  intros Hi Hrel Hsp Hiss Hcl He. inversion Hsp as [cl' login u' Hk Hcl' Hsub Hne _ Hu|]; subst. rewrite Hcl in Hcl'. injection Hcl' as <-.
  unfold processUserAuthToken. wp_step. wp_step. apply wp_on_process. apply wp_intro. intros r c E.
  destruct (validate_law _ _ _ _ E) as [Hl Hr]. split; [done|]. intros s1 Hs1 Ec _.
  destruct r as [cl'|err|w]; [| |done].
  - destruct Hr as [Hcl' _]. rewrite Hcl in Hcl'. injection Hcl' as <-. rewrite Hsub, string_prefix_app, trim_subject. cbn [negb]. cbv zeta.
    destruct (String.eqb_spec login ""); [done|]. do 2 wp_step. rewrite (idle_users _ _ Hs1).
    rewrite (find_user_ok (mkFindUser [] [login] []) s (fun v => us_Login v = us_norm login) u Hi Hrel (matches_login _) Hu).
    wp_step. apply wp_on_process. apply xid_New_wp. intros sid c2 Hl2. split; [exact Hl2|]. intros s2 Hs2 _ _. wp_step.
    split_and!; [by eapply idle_trans|intros _; by exists sid|done].
  - wp_step. split_and!; [done| |done]. destruct (Hr cl Hcl Hiss) as (e' & He' & Hle). rewrite He in He'. injection He' as <-. rewrite Ec. lia.
Qed.

Lemma IsRevoked_no tok (c : C) revocation : (forall t, (ca_now c <= t)%Z -> ~ revoked_at SHA256 revocation c t tok) ->
  wp (IsRevoked revocation (TokenIdentifier SHA256 tok)) (fun r c' => only_later c c' /\ r = Ok false) c.
Proof.
  intros Hno. unfold IsRevoked. destruct revocation; [wp_step; by split; [apply only_later_refl|]|].
  do 2 wp_step. apply wp_intro. intros r c' E. destruct (ca_get_law _ _ _ _ E) as (He & t & Ht & Hr).
  assert (Hl : only_later c c') by (split; [done|lia]).
  destruct (ca_get_total (revocationKeyPrefix +:+ TokenIdentifier SHA256 tok) c) as [Hok|Hok]; rewrite E in Hok; simpl in Hok.
  - destruct r as [v|e|w]; [|done..]. exfalso. apply (Hno t); [lia|]. by split; [|exists v].
  - subst r. change (errors_is ErrNotFound ErrNotFound) with true. cbv iota. by wp_step.
Qed.

Lemma IsRevoked_yes tok (c : C) limit : (forall t, (ca_now c <= t < limit)%Z -> revoked_at SHA256 CacheRevocation c t tok) ->
  wp (IsRevoked CacheRevocation (TokenIdentifier SHA256 tok)) (fun r c' => only_later c c' /\
    ((ca_now c' < limit)%Z -> r <> Ok false)) c.
Proof.
  intros Hyes. eapply wp_mono; [apply IsRevoked_spec|]. intros r c' [Hl Hr]. split; [done|]. intros Hlim ->.
  destruct Hr as (t & Ht & Hn). apply Hn, Hyes. lia.
Qed.

Lemma unless_revoked_no revocation optional tok sess s :
  (forall x, (now_of s <= x)%Z -> ~ revoked_at SHA256 revocation (po_process s) x tok) ->
  wp (unless_revoked SHA256 revocation optional tok sess) (fun v _ => v = Ok (Entered sess)) s.
Proof.
  intros Hno. unfold unless_revoked. do 2 wp_step. apply wp_on_process. eapply wp_mono; [by apply IsRevoked_no|].
  intros res c [Hl ->]. split; [exact Hl|]. intros s2 _ _ _. by wp_step.
Qed.

Lemma no_revocation_idle revocation tok s s' : idle s s' ->
  (forall x, (now_of s <= x)%Z -> ~ revoked_at SHA256 revocation (po_process s) x tok) ->
  forall x, (now_of s' <= x)%Z -> ~ revoked_at SHA256 revocation (po_process s') x tok.
Proof. intros Hs Hno x Hx. destruct (idle_process _ _ Hs) as [Ee Hle]. unfold revoked_at in *. rewrite Ee. apply Hno. lia. Qed.

(** How long a credential is good: an access token as long as it is in the
    table, a token of the service until it expires. *)
Definition good_until (tok : string) (t : option PersonalAccessToken) (limit : time) : Prop :=
  match t with
  | Some _ => True
  | None => issued tok = true /\ exists cl e, token_claims tok = Some cl /\ GetExpirationTime cl = Ok (Some e) /\ (limit <= e)%Z
  end.

Lemma credential_admitted revocation optional r s u t limit : portal_inv s -> reliable ->
  speaks_for SHA256 s (now_of s) (extractToken r) u t -> good_until (extractToken r) t limit ->
  (forall x, (now_of s <= x)%Z -> ~ revoked_at SHA256 revocation (po_process s) x (extractToken r)) ->
  exists v s', decided revocation optional r s v s' /\ ((now_of s' < limit)%Z -> exists sid, v = Entered (session_of sid u t)).
Proof.
  intros Hi Hrel Hsp Hgood Hrev. pose proof (authenticate_spec SHA256 revocation optional r s Hi) as Hspec.
  set (tok := extractToken r) in *.
  assert (Hwp : wp (authenticate SHA256 revocation optional r) (fun v s' => (now_of s' < limit)%Z -> exists sid, v = Ok (Entered (session_of sid u t))) s).
  { unfold authenticate. fold tok. cbv zeta.
    assert (Hk : detectTokenType tok = match t with None => tokenTypeUserAuth | Some _ => tokenTypePersonalAccess end) by (by inversion Hsp).
    destruct (String.eqb_spec tok "") as [Et|]; [rewrite Et in Hk; by destruct t|]. rewrite Hk. destruct t as [t|].
    - wp_step. eapply wp_mono; [by apply (access_token_complete tok s u t)|]. intros res s1 [Hs1 [sid ->]].
      eapply wp_mono; [by apply unless_revoked_no; eapply no_revocation_idle|]. intros v s2 ->. by exists sid.
    - destruct Hgood as (Hiss & cl & e & Hcl & He & Hle). wp_step. eapply wp_mono; [by apply (auth_token_complete tok s u cl e)|].
      intros res s1 (Hs1 & Hres & Hok). destruct (Z.ltb_spec (now_of s1) e) as [Hlt|Hge].
      + destruct (Hres Hlt) as [sid ->]. eapply wp_mono; [by apply unless_revoked_no; eapply no_revocation_idle|]. intros v s2 ->. by exists sid.
      + destruct res as [[sess|err]|err|w]; [|by wp_step; lia|done..].
        eapply wp_mono; [apply unless_revoked_spec|]. intros v s2 [Hs2 _] Hlim. destruct (idle_process _ _ Hs2). lia. }
  destruct (authenticate SHA256 revocation optional r s) as [res s'] eqn:E.
  pose proof (wp_run _ _ _ _ _ Hspec E) as [Hs' Hres]. destruct res as [v|e|w]; [|done..].
  exists v, s'. split; [by apply decided_authenticate|]. intros Hlim.
  destruct (wp_run _ _ _ _ _ Hwp E Hlim) as [sid [= ->]]. by exists sid.
Qed.

(** ** Logout *)

(** The entry that a logout at [n] leaves: it lasts as long as the token, or
    [defaultRevocationTTL] where the service does not know the token. *)
Definition ttl_of (tok : string) (n : time) (ttl : Z) : Prop :=
  (issued tok = true -> forall cl e, token_claims tok = Some cl -> GetExpirationTime cl = Ok (Some e) ->
    (e <= n)%Z \/ ttl = (e - n)%Z) /\
  (token_claims tok = None -> ttl = defaultRevocationTTL).

Lemma revocationTTL_spec tok s : wp (revocationTTL tok) (fun r s' => idle s s' /\
  match r with Ok ttl => exists n, (now_of s <= n <= now_of s')%Z /\ ttl_of tok n ttl | _ => False end) s.
Proof.
  unfold revocationTTL. do 2 wp_step. apply wp_on_process. apply wp_intro. intros r c E.
  destruct (validate_law _ _ _ _ E) as [Hl Hr]. split; [done|]. intros s1 Hs1 Ec _. destruct Hl as [_ Hle]. rewrite <- Ec in *.
  destruct r as [cl|e|w]; [| |done].
  - destruct Hr as [Hcl He]. destruct (claims_read _ _ Hcl) as [_ Hexp].
    destruct (GetExpirationTime cl) as [[e|]|e|w] eqn:Ex; [| |done..].
    + wp_step. apply wp_on_process. apply time_now_wp. intros t c2 Hl2 Ht. split; [exact Hl2|]. intros s2 Hs2 Ec2 _.
      cbv zeta. wp_step. split; [by eapply idle_trans|]. exists t. rewrite Ec2. split; [lia|]. split; [|by rewrite Hcl].
      intros _ cl' e' Hcl' Ex'. rewrite Hcl in Hcl'. injection Hcl' as <-. rewrite Ex in Ex'. injection Ex' as <-.
      destruct (Z.leb_spec (e - t) 0); [left; lia|by right].
    + wp_step. split; [done|]. exists (now_of s1). split; [lia|]. split; [|by rewrite Hcl].
      intros _ cl' e' Hcl' Ex'. rewrite Hcl in Hcl'. injection Hcl' as <-. by rewrite Ex in Ex'.
  - wp_step. split; [done|]. exists (now_of s1). split; [lia|]. split; [|done].
    intros Hiss cl e' Hcl Ex. left. destruct (Hr cl Hcl Hiss) as (e2 & He2 & Hle2). rewrite Ex in He2. by injection He2 as <-.
Qed.

(** What an answer 204 to a logout that carries a token means. *)
Lemma Logout_spec ctx r s s1 : portal_inv s -> IsAuthenticated ctx = true -> extractBearerToken r <> ""%string ->
  Logout SHA256 CacheRevocation ctx r s = (Ok (WriteHeader StatusNoContent), s1) ->
  exists n t ttl, (now_of s <= n <= t)%Z /\ (t <= now_of s1)%Z /\ ttl_of (extractBearerToken r) n ttl /\
    ca_entries (po_process s1) =
      if (ttl <=? 0)%Z then ca_entries (po_process s)
      else <[revocationKeyPrefix +:+ TokenIdentifier SHA256 (extractBearerToken r) := (COther, Some (t + ttl)%Z)]> (ca_entries (po_process s)).
Proof.
  intros Hi Hauth Hne E. unfold Logout in E. rewrite Hauth in E. cbn [negb] in E. cbv zeta in E.
  destruct (String.eqb_spec (extractBearerToken r) "") as [|_]; [done|]. set (tok := extractBearerToken r) in *.
  unfold bind in E. pose proof (revocationTTL_spec tok s) as Hwp. unfold wp in Hwp.
  destruct (revocationTTL tok s) as [[ttl|e|w] s0]; [|by destruct Hwp..]. cbn [fst snd] in Hwp. destruct Hwp as [Hs0 (n & Hn & Httl)].
  destruct (idle_process _ _ Hs0) as [Ee _]. exists n.
  unfold attempt, po_on_process, zoom, Revoke in E. destruct (Z.leb_spec ttl 0) as [Hz|Hz].
  - unfold ret in E. simpl in E. injection E as <-. exists (now_of s0), ttl. simpl. destruct (Z.leb_spec ttl 0); [|lia]. split_and!; [lia..|done|done].
  - destruct (cache_set _ COther ttl (po_process s0)) as [res c] eqn:Ec. destruct (ca_set_law _ _ _ _ _ _ Ec) as [Hle Hres].
    destruct res as [|e|w]; [|done..]. injection E as <-. destruct Hres as (t & Ht & Hent). exists t, ttl. simpl.
    destruct (Z.leb_spec ttl 0); [lia|]. destruct (Z.ltb_spec 0 ttl); [|lia]. rewrite <- Ee. split_and!; [lia..|done|done].
Qed.

(** [s2] comes after [s1], and the revocation entry of the token is as it was. *)
Definition kept_since s1 s2 (tok : string) : Prop :=
  (now_of s1 <= now_of s2)%Z /\
  ca_entries (po_process s2) !! (revocationKeyPrefix +:+ TokenIdentifier SHA256 tok) =
  ca_entries (po_process s1) !! (revocationKeyPrefix +:+ TokenIdentifier SHA256 tok).

Lemma revoked_while tok s c t ttl x :
  ca_entries (po_process s) = <[revocationKeyPrefix +:+ TokenIdentifier SHA256 tok := (COther, Some (t + ttl)%Z)]> c ->
  revoked_at SHA256 CacheRevocation (po_process s) x tok <-> (x <= t + ttl)%Z.
Proof.
  intros E. unfold revoked_at, lookup_at. rewrite E, lookup_insert_eq. unfold live. simpl.
  destruct (Z.ltb_spec (t + ttl) x); split; [by intros [_ [? ?]]|lia|lia|by intros _].
Qed.

Lemma revoked_kept tok s1 s2 x : kept_since s1 s2 tok ->
  revoked_at SHA256 CacheRevocation (po_process s2) x tok <-> revoked_at SHA256 CacheRevocation (po_process s1) x tok.
Proof. intros [_ E]. unfold revoked_at, lookup_at. by rewrite E. Qed.

Lemma unless_revoked_yes optional tok sess s limit :
  (forall t, (now_of s <= t < limit)%Z -> revoked_at SHA256 CacheRevocation (po_process s) t tok) ->
  wp (unless_revoked SHA256 CacheRevocation optional tok sess) (fun v s' => idle s s' /\
    ((now_of s' < limit)%Z -> forall sess', v <> Ok (Entered sess'))) s.
Proof.
  intros Hyes. unfold unless_revoked. do 2 wp_step. apply wp_on_process. eapply wp_mono; [by apply IsRevoked_yes|].
  intros res c [Hl Hres]. split; [exact Hl|]. intros s2 Hs2 Ec _.
  destruct res as [[]|e|w]; try wp_step; split; try done; intros Hlim sess'; rewrite Ec in Hlim; try done.
  - pose proof (refusal_optional optional (unauthorized errTokenRevoked)). by destruct (refusal optional _).
  - by specialize (Hres Hlim).
Qed.

(** A request with a token whose revocation lasts beyond the end of the check
    is not let in. *)
Lemma revoked_not_admitted optional r s limit : portal_inv s ->
  (forall t, (now_of s <= t < limit)%Z -> revoked_at SHA256 CacheRevocation (po_process s) t (extractToken r)) ->
  wp (authenticate SHA256 CacheRevocation optional r) (fun v s' => (now_of s' < limit)%Z -> forall sess, v <> Ok (Entered sess)) s.
Proof.
  intros Hi Hyes. unfold authenticate. cbv zeta. set (tok := extractToken r) in *.
  assert (Href : forall e, forall sess, refusal optional e <> Entered sess).
  { intros e. pose proof (refusal_optional optional e). by destruct (refusal optional e). }
  destruct (String.eqb tok ""); [wp_step; intros _ sess [= Hs]; by eapply Href|].
  destruct (detectTokenType tok) eqn:Ek; [by wp_step| |]; wp_step;
    (eapply wp_mono; [first [by apply processPersonalAccessToken_spec|by apply (processUserAuthToken_spec SHA256)]|]);
    intros res s1 [Hs1 Hres]; (destruct res as [[sess|e]|e|w]; [|wp_step; intros _ sess [= Hs]; by eapply Href|done..]);
    destruct (idle_process _ _ Hs1) as [Ee Hle];
    (eapply wp_mono; [apply (unless_revoked_yes optional tok sess s1 limit)|by intros v s2 [_ Hv]]);
    intros t Ht; unfold revoked_at in *; rewrite Ee; apply Hyes; lia.
Qed.

(** ** The properties *)

(** C27: What the authentication middleware lets through.  Whatever handler is
    behind it, it is called once with a session only if the request carries a
    token that speaks for the session's user and whose revocation was not on the
    list when the list was read, after the token was checked; without a session
    only behind the optional middleware; any other request is answered with an
    error.  Nothing but the clock and the sequence of ids has changed then. *)
Theorem user_admission_needs_credential revocation optional r s : portal_inv s ->
  exists v s', decided revocation optional r s v s' /\
    match v with
    | Refused _ => True
    | Anonymous => optional = true
    | Entered sess => exists sid u t, sess = session_of sid u t /\ speaks_for SHA256 s (now_of s) (extractToken r) u t /\
        exists now, (now_of s <= now <= now_of s')%Z /\ ~ revoked_at SHA256 revocation (po_process s) now (extractToken r)
    end.
Proof.
  intros Hi. destruct (middleware_verdict SHA256 revocation optional r s Hi) as (v & s' & Hs' & Hv & Hob).
  by exists v, s'.
Qed.

(** A login request that names an account and gives its password. *)
Definition right_password {BC : Bcrypt} decode_login r s (input : loginInput) (u : User) : Prop :=
  decode_login (rq_Body r) = Ok input /\ login_Validate input = None /\
  first_user s (fun v => if IsEmailLogin input then us_Email v = li_Email input else us_Login v = us_norm (li_Login input)) u /\
  CompareHashAndPassword (us_Password u) (li_Password input) = None.

Definition session_length (input : loginInput) : Z := if RememberMe input then RememberMeDuration else DefaultTokenDuration.

(** The filter of the login finds the account that was named. *)
Lemma login_matches input u :
  let f := if IsEmailLogin input then mkFindUser [] [] [li_Email input] else mkFindUser [] [li_Login input] [] in
  user_matches (mkFindUser (fu_IDs f) (map us_norm (fu_Logins f)) (fu_Emails f)) u = true <->
  (if IsEmailLogin input then us_Email u = li_Email input else us_Login u = us_norm (li_Login input)).
Proof. destruct (IsEmailLogin input); [apply matches_email|apply matches_login]. Qed.

(** C28: A login with the right password gives access.  While the tables answer
    and the token service can make a token, a valid login request that names an
    account (the first with its login name or e-mail address) and gives its
    password is answered 200; nobody else is; and any later request that carries
    the token of the answer is let in as that account, in whatever state the
    panel is, until the session ends (a second is lost to rounding): as long as
    that account still is the first of its login name and the token has not
    been revoked. *)
Theorem login_gives_access {BC : Bcrypt} decode_login revocation ctx r s : portal_inv s -> reliable ->
  (forall input u, right_password decode_login r s input u ->
     is_ok (fst (GenerateTokenForUser u (session_length input) (po_process s))) = true ->
     exists body s1, Login decode_login ctx r s = (Ok (Write StatusOK body), s1)) /\
  (forall body s1, Login decode_login ctx r s = (Ok (Write StatusOK body), s1) ->
   exists input u, right_password decode_login r s input u /\
    forall optional r2 s2, portal_inv s2 -> extractToken r2 = lr_Token body ->
      us_Login u <> ""%string -> first_user s2 (fun v => us_Login v = us_norm (us_Login u)) u ->
      (forall x, (now_of s2 <= x)%Z -> ~ revoked_at SHA256 revocation (po_process s2) x (lr_Token body)) ->
      exists v s3, decided revocation optional r2 s2 v s3 /\
        ((now_of s3 <= now_of s + session_length input - second)%Z -> exists sid, v = Entered (session_of sid u None))).
Proof.
  intros Hi Hrel. split.
  { intros input u (Hd & Hv & Hu & Hp) Hok. unfold Login. rewrite Hd, Hv. cbv zeta. unfold bind at 1, get.
    rewrite (find_user_ok _ s _ u Hi Hrel (login_matches input) Hu).
    unfold VerifyPassword. rewrite Hp. fold (session_length input).
    unfold bind, attempt, po_on_process, zoom.
    destruct (GenerateTokenForUser u (session_length input) (po_process s)) as [[tok|e|w] c]; [by do 2 eexists|done..]. }
  intros body s1 E. unfold Login in E. destruct (decode_login (rq_Body r)) as [input|e|w] eqn:Ed; [|done..].
  exists input. destruct (login_Validate input) eqn:Ev; [done|]. cbv zeta in E. unfold bind, get in E.
  set (f := if IsEmailLogin input then mkFindUser [] [] [li_Email input] else mkFindUser [] [li_Login input] []) in *.
  pose proof (find_user f s Hi) as Hf. destruct (US_Find (po_users s) f [] only_first) as [[|u [|u2 l]]|e|w]; [done| |done..].
  unfold VerifyPassword in E. destruct (CompareHashAndPassword _ _) eqn:Ep; [done|].
  exists u. split.
  { split_and!; [done..| |done]. destruct Hf as (Hr & Hm & Hl). split_and!; [done|by apply login_matches|].
    intros v Hv Hq. apply Hl; [done|by apply login_matches]. }
  fold (session_length input) in E. set (d := session_length input) in *.
  unfold attempt, po_on_process, zoom in E. destruct (GenerateTokenForUser u d (po_process s)) as [res c] eqn:Eg.
  destruct (generate_law _ _ _ _ _ Eg) as [Hl Hres]. destruct res as [tok|e|w]; [|done..]. injection E as <- _.
  destruct Hres as (Hiss & e & He & Hcl). cbn [lr_Token newLoginResponseFromUser].
  intros optional r2 s2 Hi2 Htok Hne Hu2 Hrev. rewrite <- Htok in Hrev.
  destruct (Z.ltb_spec e (now_of s2)) as [Hold|Hlive].
  - destruct (middleware_verdict SHA256 revocation optional r2 s2 Hi2) as (v & s3 & Hs3 & _ & Hob). exists v, s3.
    split; [done|]. destruct (idle_process _ _ Hs3). lia.
  - destruct (credential_admitted revocation optional r2 s2 u None e Hi2 Hrel) as (v & s3 & Hd & Hadm); [|rewrite Htok; split; [done|]; eexists _, e; by split_and!; [exact Hcl| |]|done|].
    + rewrite Htok. eapply by_auth_token; [|exact Hcl|done|done| |done].
      * unfold detectTokenType. by rewrite (issued_shape _ Hiss).
      * intros e' [= <-]. done.
    + exists v, s3. split; [done|]. intros Hlim. apply Hadm. lia.
Qed.

(** C29: After a successful logout the token is worthless.  In any later state of
    the panel that still has the revocation as the logout left it, a request
    with the same token is let in as nobody: a token of the service from then
    on (but for a request during which it expires), an access token, of which
    the service knows nothing, for thirty days. *)
Theorem logged_out_token_is_refused ctx r s s1 : portal_inv s -> IsAuthenticated ctx = true -> extractBearerToken r <> ""%string ->
  Logout SHA256 CacheRevocation ctx r s = (Ok (WriteHeader StatusNoContent), s1) ->
  forall optional r2 s2, portal_inv s2 -> extractToken r2 = extractBearerToken r -> kept_since s1 s2 (extractBearerToken r) ->
  exists v s3, decided CacheRevocation optional r2 s2 v s3 /\
    ((forall cl e, issued (extractToken r2) = true -> token_claims (extractToken r2) = Some cl -> GetExpirationTime cl = Ok (Some e) ->
        ~ (now_of s2 <= e <= now_of s3)%Z) ->
     (issued (extractToken r2) = true /\ (exists cl e, token_claims (extractToken r2) = Some cl /\ GetExpirationTime cl = Ok (Some e)) \/
      token_claims (extractToken r2) = None /\ (now_of s3 < now_of s + defaultRevocationTTL)%Z) ->
     forall sess, v <> Entered sess).
Proof.
  intros Hi Hauth Hne E optional r2 s2 Hi2 Htok Hkept. destruct (Logout_spec ctx r s s1 Hi Hauth Hne E) as (n & t & ttl & Hn & Ht & Httl & Hent).
  set (tok := extractBearerToken r) in *. destruct Hkept as [Hle Hkeep]. pose proof (conj Hle Hkeep : kept_since s1 s2 tok) as Hkept.
  destruct (authenticate SHA256 CacheRevocation optional r2 s2) as [res s3] eqn:Ea.
  pose proof (wp_run _ _ _ _ _ (authenticate_spec SHA256 CacheRevocation optional r2 s2 Hi2) Ea) as [Hs3 Hres].
  destruct res as [v|e|w]; [|done..]. exists v, s3. split; [by apply decided_authenticate|]. intros Hrace Hcases sess Hv.
  assert (Hlimit : forall limit, (0 < ttl)%Z -> (limit <= t + ttl)%Z -> (now_of s3 < limit)%Z -> False).
  { intros limit Hpos Hlim Hlt. destruct (Z.leb_spec ttl 0); [lia|].
    assert (Hrev : forall x, (now_of s2 <= x < limit)%Z -> revoked_at SHA256 CacheRevocation (po_process s2) x (extractToken r2)).
    { intros x Hx. rewrite Htok, (revoked_kept tok s1 s2 x Hkept), (revoked_while tok s1 _ t ttl x Hent). lia. }
    by apply (wp_run _ _ _ _ _ (revoked_not_admitted optional r2 s2 limit Hi2 Hrev) Ea Hlt sess), f_equal. }
  rewrite Htok in *. destruct Hcases as [(Hiss & cl & e & Hcl & He)|[Hcl Hlt]].
  - specialize (Hrace cl e Hiss Hcl He). subst v. destruct Hres as (sid & u & pt & -> & Hsp & _).
    destruct (Z.ltb_spec (now_of s3) e) as [Hlt|Hge].
    + destruct (proj1 Httl Hiss cl e Hcl He) as [Hbad| ->]; [destruct (idle_process _ _ Hs3); lia|].
      apply (Hlimit e); [destruct (idle_process _ _ Hs3); lia..].
    + assert (e < now_of s2)%Z by lia. inversion Hsp as [cl' login u' Hk Hcl' Hsub Hne' Hexp Hu|? ? ? ? Hk]; subst.
      * rewrite Hcl in Hcl'. injection Hcl' as <-. specialize (Hexp e He). lia.
      * pose proof (issued_shape _ Hiss) as Hshape. unfold detectTokenType in Hk. by rewrite Hshape in Hk.
  - rewrite (proj2 Httl Hcl) in *. apply (Hlimit (t + defaultRevocationTTL)%Z); [done|lia|lia].
Qed.

(** A logout takes an access token out of use for thirty days only.  When
    the token is still in the table, it lets its owner in again afterwards. *)
Lemma logged_out_access_token_returns ctx r s s1 : portal_inv s -> reliable -> IsAuthenticated ctx = true ->
  extractBearerToken r <> ""%string -> token_claims (extractBearerToken r) = None ->
  Logout SHA256 CacheRevocation ctx r s = (Ok (WriteHeader StatusNoContent), s1) ->
  forall optional r2 s2 u t, portal_inv s2 -> extractToken r2 = extractBearerToken r -> kept_since s1 s2 (extractBearerToken r) ->
  (now_of s1 + defaultRevocationTTL < now_of s2)%Z -> speaks_for SHA256 s2 (now_of s2) (extractToken r2) u (Some t) ->
  exists sid s3, decided CacheRevocation optional r2 s2 (Entered (session_of sid u (Some t))) s3.
Proof.
  intros Hi Hrel Hauth Hne Hcl E optional r2 s2 u t Hi2 Htok Hkept Hlate Hsp.
  destruct (Logout_spec ctx r s s1 Hi Hauth Hne E) as (n & t0 & ttl & Hn & Ht & Httl & Hent).
  rewrite (proj2 Httl Hcl) in *. cbn [Z.leb] in Hent.
  destruct (authenticate SHA256 CacheRevocation optional r2 s2) as [res s3] eqn:Ea.
  destruct (credential_admitted CacheRevocation optional r2 s2 u (Some t) (now_of s3 + 1) Hi2 Hrel Hsp I) as (v & s3' & Hd & Hv).
  - intros x Hx. rewrite Htok, (revoked_kept _ s1 s2 x Hkept), (revoked_while _ s1 _ t0 _ x Hent). lia.
  - assert (s3' = s3) as ->; [|destruct Hv as [sid ->]; [lia|by exists sid, s3]].
    rewrite <- (decided_state _ _ _ _ _ _ Hd), middleware_obeys. unfold bind. rewrite Ea. by destruct res as [[]|err|w].
Qed.
End access.

(** ** A run in memory *)

Module Sample.
Import UsersRepo TokensRepo.

#[local] Existing Instances ticking listed_order.
Definition plain : Unicode := {| unicode_lower s := s; unicode_trim s := s; unicode_fold s t := String.eqb s t |}.
#[local] Existing Instance plain.

(** The process of the in-memory cache, with constant ids. *)
Definition process : Process InMemory := {|
  AuthTokens.time_now := Cache.Now; xid_New := ret "c0ffee"%string; rand_Read n := ret (repeat 0%N n);
|}.
#[local] Existing Instance process.
#[local] Instance process_laws : ProcessLaws InMemory.
Proof.
  split.
  - intros c r c' [= <- <-]. pose proof (now_next (im_ticks c)). split; [by split|]. eexists. split; [done|]. simpl. lia.
  - intros c r c' [= <- <-]. by split.
  - intros n c r c' [= <- <-]. split; [done|]. split; [apply repeat_length|]. apply Forall_forall. intros x ->%repeat_spec. lia.
Qed.

(** Tokens that hold their contents in plain sight, as digits. *)
Definition raw (p : PASETOToken) : string * string * string * (Z * Z * Z) :=
  (ps_Jti p, ps_Issuer p, ps_Subject p, (ps_IssuedAt p, ps_NotBefore p, ps_Expiration p)).
Definition cooked (x : string * string * string * (Z * Z * Z)) : PASETOToken :=
  let '(jti, issuer, subject, (issued, before, expires)) := x in mkPASETO jti issued before expires issuer subject.
Definition header : string := "v4.local.".
Definition read (k tok : string) : option PASETOToken :=
  if String.prefix header tok then
    match decode (number (TrimPrefix tok header)) with
    | Some (k', x) => if String.eqb k k' then Some (cooked x) else None
    | None => None
    end
  else None.
Definition library : PASETOLibrary := {|
  V4Encrypt k p := header +:+ digits (encode (k, raw p));
  ParseV4Local k t tok := match read k tok with Some p => if (t <=? ps_Expiration p)%Z then Ok p else Err (ENew "expired") | None => Err (ENew "bad token") end;
  rfc3339 t := t;
|}.
#[local] Existing Instance library.
#[local, program] Instance library_laws : PASETOLibraryLaws := { paseto_content := read }.
Next Obligation.
  intros k p. split; [apply string_prefix_app|]. unfold read, V4Encrypt, library. rewrite string_prefix_app.
  unfold TrimPrefix. rewrite string_prefix_app, substring_suffix, number_digits, decode_encode, String.eqb_refl. by destruct p.
Qed.
Next Obligation.
  intros k t tok. simpl. destruct (read k tok) as [p|]; [|done]. destruct (Z.leb_spec t (ps_Expiration p)); [done|].
  intros p' [= <-]. lia.
Qed.
Next Obligation. intros t. simpl. unfold second. lia. Qed.

#[local] Instance tokens_service : AuthService InMemory := pasetoService "a secret of the panel, 32 bytes!!".
#[local] Instance tokens_service_laws : AuthServiceLaws InMemory := pasetoService_laws "a secret of the panel, 32 bytes!!".

Definition hash (s : string) : string := "sha256:" +:+ s.
Definition passwords : Bcrypt := {|
  CompareHashAndPassword h p := if String.eqb h ("bcrypt:" +:+ p) then None else Some (ENew "hashedPassword is not the hash of the given password");
  GenerateFromPassword p cost salt := Ok ("bcrypt:" +:+ p);
|}.
#[local] Existing Instance passwords.

(** Only the first user is an administrator. *)
#[local] Instance first_is_admin : AccessControl unit := {|
  AC_Can u _ := ret (u =? 1)%N; AC_CanOneOf u _ := ret (u =? 1)%N; AC_CanForEntity u _ _ _ := ret (u =? 1)%N;
  AC_GetRoles _ := ret []; AC_SetRolesToUser _ _ := ret tt; AC_AllowUserAbilitiesForEntity _ _ _ _ := ret tt;
  AC_RevokeOrForbidUserAbilitiesForEntity _ _ _ _ := ret tt;
|}.

Definition alice : User := mkUser 1 "alice" "alice@example.org" "bcrypt:rabbit" None None (Some 1%Z) (Some 1%Z).
Definition key : PersonalAccessToken := mkPAT 7 EntityTypeUser 1 "ci" (hash "s3cret") (Some [PATAbilityServerList]) None None None.

Abbreviation Panel := (Portal (UserService memUserRepo) memTokenRepo InMemory unit).
Definition panel : Panel :=
  mkPortal (mkUserService (mkUserRepo {[1%N := alice]} 1 0) 0) (mkTokenRepo {[7%N := key]} 7 0) NewInMemory tt.

Lemma panel_inv : portal_inv panel.
Proof.
  split; intros i x Hx.
  - change (({[1%N := alice]} : gmap N User) !! i = Some x) in Hx. apply lookup_singleton_Some in Hx as [<- <-]. split; [done|]. simpl. lia.
  - change (({[7%N := key]} : gmap N PersonalAccessToken) !! i = Some x) in Hx. apply lookup_singleton_Some in Hx as [<- <-]. split; [done|]. simpl. lia.
Qed.

Lemma panel_reliable : reliable (U := UserService memUserRepo) (T := memTokenRepo).
Proof.
  split.
  - intros u f _. unfold US_Find, userService, svc_Find. destruct (nonempty (fu_Logins f)); cbv zeta;
      unfold US_Find, memUserRepo_ops, UsersRepo.Find; cbv zeta; by rewrite applyPagination_first.
  - intros t f _. unfold PT_Find, memTokenRepo_ops, TokensRepo.Find. cbv zeta. cbn [fst]. match goal with |- context [applyPagination_from ?l _] => pose proof (applyPagination_from_spec l only_first) as Hp end.
    destruct (applyPagination_from _ only_first); [done|done|]. by apply N.leb_le in Hp.
Qed.

Definition decode_body (body : string) : result loginInput := Ok (mkLoginInput "alice" "" body "").
Definition request (bearer body : string) : Request := mkRequest "POST" bearer "" None (fun _ => "") body.
Definition logged_in := Login decode_body None (request "" "rabbit") panel.
Definition ticket : string := match fst logged_in with Ok (Write _ b) => lr_Token b | _ => "" end.

Lemma logged_in_ok : exists body, logged_in = (Ok (Write StatusOK body), snd logged_in) /\ lr_Token body = ticket.
Proof. vm_compute. by eexists. Qed.

Lemma alice_first (s : Panel) name : po_users s = po_users panel -> name = "alice"%string ->
  first_user s (fun v => us_Login v = name) alice.
Proof.
  intros E ->. unfold first_user. rewrite E. split_and!; [done|done|]. intros v Hv _.
  change (({[1%N := alice]} : gmap N User) !! us_ID v = Some v) in Hv. apply lookup_singleton_Some in Hv as [Hid _]. by rewrite <- Hid.
Qed.

Definition alice_input : loginInput := mkLoginInput "alice" "" "rabbit" "".

Lemma login_gives_access_witness : exists body v s3,
  logged_in = (Ok (Write StatusOK body), snd logged_in) /\
  decided hash CacheRevocation false (request ("Bearer " +:+ lr_Token body) "") (snd logged_in) v s3 /\
  exists sid, v = Entered (session_of sid alice None).
Proof.
  destruct (login_gives_access hash decode_body CacheRevocation None (request "" "rabbit") panel panel_inv panel_reliable) as [Hanswer Hafter].
  destruct (Hanswer alice_input alice) as (body & s1 & E);
    [split_and!; [done|done|by apply alice_first|done]|vm_compute; reflexivity|].
  assert (Hb : lr_Token body = ticket) by (unfold ticket, logged_in; by rewrite E).
  assert (s1 = snd logged_in) as -> by (unfold logged_in; by rewrite E).
  destruct (Hafter _ _ E) as (input & u & (Hd & _ & Hu & _) & Hlater).
  assert (input = alice_input) as -> by (by injection Hd).
  assert (u = alice) as -> by (eapply (first_user_unique panel); [apply panel_inv|exact Hu|by apply alice_first]).
  destruct (Hlater false (request ("Bearer " +:+ lr_Token body) "") (snd logged_in)) as (v & s3 & Hdec & Hin).
  - split; [apply (proj1 panel_inv)|apply (proj2 panel_inv)].
  - rewrite Hb. vm_compute. reflexivity.
  - done.
  - by apply alice_first.
  - intros x _ [_ [y Hy]]. unfold lookup_at in Hy.
    assert (En : ca_entries (po_process (snd logged_in)) = ∅) by (vm_compute; reflexivity). by rewrite En, lookup_empty in Hy.
  - exists body, v, s3. split_and!; [done|done|]. apply Hin.
    rewrite <- (decided_state hash CacheRevocation false _ _ _ _ Hdec). cbn [lr_Token]. rewrite Hb. vm_compute. discriminate.
Defined.

Lemma user_admission_needs_credential_witness : exists v s',
  decided hash CacheRevocation false (request "Bearer 7|s3cret" "") panel v s' /\
  exists sid, v = Entered (session_of sid alice (Some key)).
Proof.
  destruct (user_admission_needs_credential hash CacheRevocation false (request "Bearer 7|s3cret" "") panel panel_inv)
    as (v & s' & Hd & Hv). exists v, s'. split; [done|].
  pose proof (proj2 Hd Session (fun ctx _ => ret (match ctx with Some se => Write 200 se | None => WriteHeader 0 end)) None) as Hrun.
  destruct v as [e| |sess]; [vm_compute in Hrun; discriminate..|]. vm_compute in Hrun. injection Hrun as <- _.
  by exists "c0ffee"%string.
Defined.

(** Alice logs out with one of her tokens. *)
Definition alice_session : option Session := Some (session_of "c0ffee" alice None).
Definition logged_out (bearer : string) := Logout hash CacheRevocation alice_session (request bearer "") panel.

Lemma panel_idle_inv (s : Panel) : po_users s = po_users panel -> po_tokens s = po_tokens panel -> portal_inv s.
Proof. intros Eu Et. destruct panel_inv as [Hu Ht]. by split; [rewrite Eu|rewrite Et]. Qed.

Lemma logged_out_token_is_refused_witness :
  fst (logged_out "Bearer 7|s3cret") = Ok (WriteHeader StatusNoContent) /\
  exists v s3, decided hash CacheRevocation false (request "Bearer 7|s3cret" "") (snd (logged_out "Bearer 7|s3cret")) v s3 /\
    forall sess, v <> Entered sess.
Proof.
  assert (E : logged_out "Bearer 7|s3cret" = (Ok (WriteHeader StatusNoContent), snd (logged_out "Bearer 7|s3cret"))) by (vm_compute; reflexivity).
  split; [by rewrite E|].
  destruct (logged_out_token_is_refused hash alice_session (request "Bearer 7|s3cret" "") panel _ panel_inv eq_refl ltac:(vm_compute; discriminate) E
    false (request "Bearer 7|s3cret" "") (snd (logged_out "Bearer 7|s3cret")) (panel_idle_inv _ eq_refl eq_refl) eq_refl (conj (Z.le_refl _) eq_refl))
    as (v & s3 & Hd & Hout).
  exists v, s3. split; [done|]. apply Hout.
  - intros cl e Hiss. vm_compute in Hiss. discriminate.
  - right. split; [vm_compute; reflexivity|]. rewrite <- (decided_state hash CacheRevocation false _ _ _ _ Hd). vm_compute. reflexivity.
Defined.

(** The same panel a month after the logout. *)
Definition month_later (s : Panel) : Panel :=
  mkPortal (po_users s) (po_tokens s) (mkInMemory (im_items (po_process s)) (im_ticks (po_process s) + 2592000000000001)) (po_access s).

End Sample.
