(* ===== verification/Routes.v ===== *)
(** The routes of the HTTP API and what stands in front of each
    ([internal/api/router.go]): the table of [apiRoutes], the order in which its
    handlers are wrapped, the recovery middleware
    ([internal/api/middlewares/recovery.go]), the routes of the daemons
    ([gdaemonAPIRoutes]) with the guard for daemons connected over gRPC
    ([internal/api/middlewares/daemon_grpc_guard.go]).  A handler is named by its
    constructor; what it does is a parameter here, and so are the CORS middleware
    and the matching of paths, which belong to libraries. *)

From S2P Require Import Prelude.
From S2P Require Import GoNum.
From S2P Require Import Domain.
From S2P Require Import GoRuntime.
From S2P Require Import Cache.
From S2P Require Import Repositories.
From S2P Require Import DaemonAuth.
From S2P Require Import Http.
From S2P Require Import Accounts.
From S2P Require Import AuthTokens.
From S2P Require Import UserAuth.
From S2P Require Import UserAccess.
From stdpp Require Import base tactics strings list gmap numbers.
From Stdlib Require Import NArith ZArith Ascii.

(** ** The table *)

Record Route : Type := mkRoute {
  rt_Method : string; rt_Path : string; rt_Handler : string;
  rt_AllowGuestAccess : bool; rt_AdminOnly : bool; rt_CheckPATAbilities : list string;
}.

Open Scope string_scope.

Definition account_routes : list Route := [
  mkRoute "GET" "/api/health" "gethealth.NewGetHealthHandler" true false [];
  mkRoute "GET" "/api/config/public" "publicconfig.NewHandler" true false [];
  mkRoute "POST" "/api/auth/login" "NewLoginRateLimitMiddleware(login.NewHandler)" true false [];
  mkRoute "POST" "/api/auth/logout" "logout.NewHandler" false false [];
  mkRoute "GET" "/api/user" "getuser.NewHandler" false false [];
  mkRoute "GET" "/api/profile" "getprofile.NewHandler" false false [];
  mkRoute "PUT" "/api/profile" "putprofile.NewHandler" false false [];
  mkRoute "GET" "/api/tokens" "gettokens.NewHandler" false false [];
  mkRoute "POST" "/api/tokens" "posttoken.NewHandler" false false [];
  mkRoute "DELETE" "/api/tokens/{id}" "deletetoken.NewHandler" false false [];
  mkRoute "GET" "/api/tokens/abilities" "tokensgetabilities.NewHandler" false false []].

Definition server_routes : list Route := [
  mkRoute "GET" "/api/servers" "getservers.NewHandler" false false [PATAbilityServerList];
  mkRoute "POST" "/api/servers" "postserver.NewHandler" false true [PATAbilityServerCreate];
  mkRoute "GET" "/api/servers/summary" "getsummary.NewHandler" false false [];
  mkRoute "GET" "/api/servers/search" "searchservers.NewHandler" false true [];
  mkRoute "GET" "/api/servers/{id}" "getserver.NewHandler" false false [PATAbilityServerList];
  mkRoute "DELETE" "/api/servers/{id}" "deleteserver.NewHandler" false true [PATAbilityServerCreate];
  mkRoute "PUT" "/api/servers/{id}" "putserver.NewHandler" false true [PATAbilityServerCreate];
  mkRoute "GET" "/api/servers/{server}/abilities" "getserverabilities.NewHandler" false false []].

Definition server_status_routes : list Route := [
  mkRoute "GET" "/api/servers/{server}/status" "getstatus.NewHandler" false false [];
  mkRoute "GET" "/api/servers/{server}/query" "getquery.NewHandler" false false [];
  mkRoute "GET" "/api/servers/{server}/rcon/features" "getrconfeatures.NewHandler" false false [PATAbilityServerRconConsole];
  mkRoute "GET" "/api/servers/{server}/rcon/fast_rcon" "getfastrcon.NewHandler" false false [PATAbilityServerRconConsole];
  mkRoute "POST" "/api/servers/{server}/rcon" "rconpostcommand.NewHandler" false false [PATAbilityServerRconConsole];
  mkRoute "GET" "/api/servers/{server}/rcon/players" "rcongetplayers.NewHandler" false false [PATAbilityServerRconConsole];
  mkRoute "POST" "/api/servers/{server}/rcon/players/message" "notImplementedHandler" false false [PATAbilityServerRconConsole];
  mkRoute "POST" "/api/servers/{server}/rcon/players/{command}" "rconkickplayer.NewHandler" false false [PATAbilityServerRconConsole];
  mkRoute "GET" "/api/servers/{server}/console" "getconsole.NewHandler" false false [PATAbilityServerConsole];
  mkRoute "POST" "/api/servers/{server}/console" "postconsole.NewHandler" false false [PATAbilityServerConsole]].

Definition file_routes : list Route := [
  mkRoute "GET" "/api/file-manager/{server}/initialize" "initialize.NewHandler" false false [];
  mkRoute "GET" "/api/file-manager/{server}/content" "content.NewHandler" false false [];
  mkRoute "GET" "/api/file-manager/{server}/tree" "filemanagertree.NewHandler" false false [];
  mkRoute "POST" "/api/file-manager/{server}/delete" "filemanagerdelete.NewHandler" false false [];
  mkRoute "POST" "/api/file-manager/{server}/upload" "upload.NewHandler" false false [];
  mkRoute "POST" "/api/file-manager/{server}/upload/sessions" "uploadsessioncreate.NewHandler" false false [];
  mkRoute "PUT" "/api/file-manager/{server}/upload/sessions/{uploadID}/chunks/{index}" "uploadsessionputchunk.NewHandler" false false [];
  mkRoute "GET" "/api/file-manager/{server}/upload/sessions/{uploadID}" "uploadsessionget.NewHandler" false false [];
  mkRoute "POST" "/api/file-manager/{server}/upload/sessions/{uploadID}/complete" "uploadsessioncomplete.NewHandler" false false [];
  mkRoute "DELETE" "/api/file-manager/{server}/upload/sessions/{uploadID}" "uploadsessionabort.NewHandler" false false []].

Definition file_change_routes : list Route := [
  mkRoute "POST" "/api/file-manager/{server}/update-file" "filemanagerupdatefile.NewHandler" false false [];
  mkRoute "GET" "/api/file-manager/{server}/download" "filemanagerdownload.NewHandler" false false [];
  mkRoute "GET" "/api/file-manager/{server}/download-archive" "filemanagerdownloadarchive.NewHandler" false false [];
  mkRoute "POST" "/api/file-manager/{server}/rename" "filemanagerrename.NewHandler" false false [];
  mkRoute "POST" "/api/file-manager/{server}/chmod" "filemanagerchmod.NewHandler" false false [];
  mkRoute "POST" "/api/file-manager/{server}/create-directory" "filemanagercreatedirectory.NewHandler" false false [];
  mkRoute "POST" "/api/file-manager/{server}/create-file" "filemanagercreatefile.NewHandler" false false [];
  mkRoute "GET" "/api/file-manager/{server}/stream-file" "filemanagerstreamfile.NewHandler" false false [];
  mkRoute "POST" "/api/file-manager/{server}/paste" "filemanagerpaste.NewHandler" false false []].

Definition task_routes : list Route := [
  mkRoute "GET" "/api/servers/{server}/tasks" "getservertasks.NewHandler" false false [PATAbilityServerTasksManage];
  mkRoute "POST" "/api/servers/{server}/tasks" "postservertask.NewHandler" false false [PATAbilityServerTasksManage];
  mkRoute "PUT" "/api/servers/{server}/tasks/{id}" "putservertask.NewHandler" false false [PATAbilityServerTasksManage];
  mkRoute "DELETE" "/api/servers/{server}/tasks/{id}" "deleteservertask.NewHandler" false false [PATAbilityServerTasksManage];
  mkRoute "GET" "/api/servers/{server}/settings" "getserversettings.NewHandler" false false [PATAbilityServerSettingsManage];
  mkRoute "PUT" "/api/servers/{server}/settings" "putserversettings.NewHandler" false false [PATAbilityServerSettingsManage]].

Definition command_routes : list Route := [
  mkRoute "POST" "/api/servers/{server}/start" "postcommand.NewHandler" false false [PATAbilityServerStart];
  mkRoute "POST" "/api/servers/{server}/stop" "postcommand.NewHandler" false false [PATAbilityServerStop];
  mkRoute "POST" "/api/servers/{server}/restart" "postcommand.NewHandler" false false [PATAbilityServerRestart];
  mkRoute "POST" "/api/servers/{server}/update" "postcommand.NewHandler" false false [PATAbilityServerUpdate];
  mkRoute "POST" "/api/servers/{server}/install" "postcommand.NewHandler" false false [PATAbilityServerUpdate];
  mkRoute "POST" "/api/servers/{server}/reinstall" "postcommand.NewHandler" false false [PATAbilityServerUpdate];
  mkRoute "GET" "/api/user/servers_abilities" "getabilities.NewHandler" false false []].

Definition user_routes : list Route := [
  mkRoute "GET" "/api/admin/letsencrypt/status" "letsencryptgetstatus.NewHandler" false true [];
  mkRoute "GET" "/api/users" "getusers.NewHandler" false true [];
  mkRoute "POST" "/api/users" "postusers.NewHandler" false true [];
  mkRoute "GET" "/api/users/{id}" "usersgetuser.NewHandler" false true [];
  mkRoute "PUT" "/api/users/{id}" "putuser.NewHandler" false true [];
  mkRoute "DELETE" "/api/users/{id}" "deleteuser.NewHandler" false true [];
  mkRoute "GET" "/api/users/{id}/servers" "getuserservers.NewHandler" false true [];
  mkRoute "GET" "/api/users/{id}/servers/{server}/permissions" "getserverperms.NewHandler" false true [];
  mkRoute "PUT" "/api/users/{id}/servers/{server}/permissions" "putserverperms.NewHandler" false true []].

Definition node_routes : list Route := [
  mkRoute "GET" "/api/dedicated_servers/certificates.zip" "getcertificateszip.NewHandler" false true [];
  mkRoute "GET" "/api/nodes/certificates.zip" "getcertificateszip.NewHandler" false true [];
  mkRoute "GET" "/api/dedicated_servers/setup" "nodesetup.NewHandler" false true [];
  mkRoute "GET" "/api/nodes/setup" "nodesetup.NewHandler" false true [];
  mkRoute "GET" "/api/nodes/setup-key" "setupkey.NewGetHandler" false true [];
  mkRoute "POST" "/api/nodes/setup-key" "setupkey.NewPostHandler" false true [];
  mkRoute "DELETE" "/api/nodes/setup-key" "setupkey.NewDeleteHandler" false true [];
  mkRoute "GET" "/api/dedicated_servers" "getnodes.NewHandler" false true [];
  mkRoute "GET" "/api/nodes" "getnodes.NewHandler" false true [];
  mkRoute "GET" "/api/dedicated_servers/summary" "nodesSummaryHandler" false true [];
  mkRoute "GET" "/api/nodes/summary" "nodesSummaryHandler" false true [];
  mkRoute "GET" "/api/dedicated_servers/{id}" "getnode.NewHandler" false true [];
  mkRoute "GET" "/api/nodes/{id}" "getnode.NewHandler" false true []].

Definition node_change_routes : list Route := [
  mkRoute "PUT" "/api/dedicated_servers/{id}" "putnode.NewHandler" false true [];
  mkRoute "PUT" "/api/nodes/{id}" "putnode.NewHandler" false true [];
  mkRoute "DELETE" "/api/dedicated_servers/{id}" "deletenode.NewHandler" false true [];
  mkRoute "DELETE" "/api/nodes/{id}" "deletenode.NewHandler" false true [];
  mkRoute "GET" "/api/dedicated_servers/{node}/busy_ports" "getbusyports.NewHandler" false true [];
  mkRoute "GET" "/api/nodes/{node}/busy_ports" "getbusyports.NewHandler" false true [];
  mkRoute "GET" "/api/dedicated_servers/{node}/ip_list" "getiplist.NewHandler" false true [];
  mkRoute "GET" "/api/nodes/{node}/ip_list" "getiplist.NewHandler" false true [];
  mkRoute "GET" "/api/dedicated_servers/{id}/daemon" "getdaemonstatus.NewHandler" false true [];
  mkRoute "GET" "/api/nodes/{id}/daemon" "getdaemonstatus.NewHandler" false true [];
  mkRoute "GET" "/api/dedicated_servers/{id}/logs.zip" "getlogszip.NewHandler" false true [];
  mkRoute "GET" "/api/nodes/{id}/logs.zip" "getlogszip.NewHandler" false true []].

Definition game_routes : list Route := [
  mkRoute "GET" "/api/games" "getgames.NewHandler" false true [];
  mkRoute "GET" "/api/games/{code}" "getgame.NewHandler" false true [];
  mkRoute "POST" "/api/games" "postgames.NewHandler" false true [];
  mkRoute "PUT" "/api/games/{code}" "putgame.NewHandler" false true [];
  mkRoute "DELETE" "/api/games/{code}" "deletegame.NewHandler" false true [];
  mkRoute "GET" "/api/games/{code}/mods" "gamesgetgamemods.NewHandler" false true [];
  mkRoute "POST" "/api/games/upgrade" "upgradegames.NewHandler" false true [];
  mkRoute "POST" "/api/games/import/pelican-egg" "importpelicanegg.NewHandler" false true [];
  mkRoute "POST" "/api/games/import/gameap" "importgameap.NewHandler" false true [];
  mkRoute "GET" "/api/games/{code}/export" "exportgame.NewHandler" false true [];
  mkRoute "GET" "/api/gdaemon_tasks" "getdaemontasks.NewHandler" false true [];
  mkRoute "GET" "/api/gdaemon_tasks/{id}" "getdaemontask.NewHandler" false false [PATAbilityGDaemonTaskRead];
  mkRoute "GET" "/api/gdaemon_tasks/{id}/output" "getdaemontask.NewHandler" false true [];
  mkRoute "POST" "/api/gdaemon_tasks/{id}/cancel" "canceldaemontask.NewHandler" false true []].

Definition game_mod_routes : list Route := [
  mkRoute "GET" "/api/game_mods" "getgamemods.NewHandler" false true [];
  mkRoute "POST" "/api/game_mods" "postgamemod.NewHandler" false true [];
  mkRoute "GET" "/api/game_mods/get_list_for_game/{game}" "getlistforgame.NewHandler" false true [];
  mkRoute "GET" "/api/game_mods/{id}" "getgamemod.NewHandler" false true [];
  mkRoute "PUT" "/api/game_mods/{id}" "putgamemod.NewHandler" false true [];
  mkRoute "DELETE" "/api/game_mods/{id}" "deletegamemod.NewHandler" false true [];
  mkRoute "GET" "/api/client_certificates" "getclientcertificates.NewHandler" false true [];
  mkRoute "POST" "/api/client_certificates" "postclientcertificates.NewHandler" false true [];
  mkRoute "DELETE" "/api/client_certificates/{id}" "deleteclientcertificates.NewHandler" false true []].

Definition plugin_routes : list Route := [
  mkRoute "GET" "/api/plugin-store/categories" "getcategories.NewHandler" false true [];
  mkRoute "GET" "/api/plugin-store/labels" "getlabels.NewHandler" false true [];
  mkRoute "GET" "/api/plugin-store/plugins" "getplugins.NewHandler" false true [];
  mkRoute "GET" "/api/plugin-store/plugins/{id}" "getplugin.NewHandler" false true [];
  mkRoute "GET" "/api/plugin-store/plugins/{id}/versions" "getpluginversions.NewHandler" false true [];
  mkRoute "POST" "/api/plugin-store/plugins/{id}/install" "installplugin.NewHandler" false true [];
  mkRoute "POST" "/api/plugin-store/plugins/{id}/update" "updateplugin.NewHandler" false true [];
  mkRoute "DELETE" "/api/admin/plugins/{id}" "pluginuninstall.NewHandler" false true [];
  mkRoute "POST" "/api/admin/plugins/upload/dry-run" "pluginuploaddryrun.NewHandler" false true [];
  mkRoute "POST" "/api/admin/plugins/upload/install" "pluginuploadinstall.NewHandler" false true [];
  mkRoute "GET" "/api/admin/plugins/loaded" "pluginsloaded.NewHandler" false true []].

Definition websocket_routes : list Route := [
  mkRoute "GET" "/api/ws/tasks/{id}" "wstaskstatus.NewHandler" false false [];
  mkRoute "GET" "/api/ws/servers/{server}/console" "wsconsole.NewHandler" false false [];
  mkRoute "GET" "/api/ws/servers/{server}/attach" "wsattach.NewHandler" false false [];
  mkRoute "GET" "/api/ws/nodes/{id}/metrics" "wsnodemetrics.NewHandler" false true [];
  mkRoute "GET" "/api/ws/nodes/metrics" "wsnodesmetrics.NewHandler" false true [];
  mkRoute "GET" "/api/ws/servers/{server}/metrics" "wsservermetrics.NewHandler" false false []].

Close Scope string_scope.

Definition apiRoutes : list Route :=
  account_routes ++ server_routes ++ server_status_routes ++ file_routes ++ file_change_routes ++
  task_routes ++ command_routes ++ user_routes ++ node_routes ++ node_change_routes ++
  game_routes ++ game_mod_routes ++ plugin_routes ++ websocket_routes.

(** ** The handlers *)

(** [RecoveryMiddleware] *)
Definition Recovery {S B} (next : option Session -> Request -> M S (Response B)) : option Session -> Request -> M S (Response B) :=
  fun ctx r s =>
  match next ctx r s with
  | (Panic w, s') => (Ok (WriteError (WrapHTTPError (ENew w) Http.StatusInternalServerError)), s')
  | res => res
  end.

Section api.
Context {U T C A : Type} `{UserRepository U} `{PersonalAccessTokenRepository T} `{Cache C} `{Process C} `{AuthService C}.
Context `{AccessControl A} `{Unicode} (SHA256 : string -> string).
Abbreviation S := (Portal U T C A).
Context {B : Type} (handlers : string -> Handler (U := U) (T := T) (C := C) (A := A) B).
Context (cors : Handler (U := U) (T := T) (C := C) (A := A) B -> Handler (U := U) (T := T) (C := C) (A := A) B).

(** One turn of the loop over the routes. *)
Definition protect (route : Route) : Handler B :=
  let handler := handlers (rt_Handler route) in
  let handler := if 0 <? length (rt_CheckPATAbilities route)
                 then PersonalAccessMiddleware handler (Some (rt_CheckPATAbilities route)) else handler in
  let handler := cors handler in
  let handler := if rt_AdminOnly route then IsAdminMiddleware handler else handler in
  let handler := if negb (rt_AllowGuestAccess route) then AuthMiddleware SHA256 CacheRevocation handler
                 else OptionalMiddleware SHA256 CacheRevocation handler in
  Recovery handler.

(** The router tries the routes in order; [mux_vars] is how it matches the
    template of one against a path. *)
Definition find_route (mux_vars : string -> string -> option (string -> string)) (method path : string) : option (Route * (string -> string)) :=
  let fix go (l : list Route) :=
    match l with
    | [] => None
    | route :: l =>
        match mux_vars (rt_Path route) path with
        | Some vars => if String.eqb (rt_Method route) method then Some (route, vars) else go l
        | None => go l
        end
    end in
  go apiRoutes.
Definition with_vars (vars : string -> string) (r : Request) : Request :=
  mkRequest (rq_Method r) (rq_Authorization r) (rq_QueryToken r) (rq_Cookie r) vars (rq_Body r).
Definition serve_api (mux_vars : string -> string -> option (string -> string)) (unrouted : Response B)
  (path : string) (r : Request) : M S (Response B) :=
  match find_route mux_vars (rq_Method r) path with
  | Some (route, vars) => protect route None (with_vars vars r)
  | None => ret unrouted
  end.
End api.

(** ** The routes of the daemons *)

Inductive DaemonMiddleware : Type := daemonGRPCGuardMiddleware | daemonAuthMiddleware.
Record DaemonRoute : Type := mkDaemonRoute { dr_Method : string; dr_Path : string; dr_Handler : string; dr_Middlewares : list DaemonMiddleware }.

Open Scope string_scope.
Definition gdaemonAPIRoutes : list DaemonRoute := [
  mkDaemonRoute "GET" "/gdaemon_api/get_token" "daemonapiinit.NewHandler" [];
  mkDaemonRoute "GET" "/gdaemon_api/dedicated_servers/get_init_data/{node}" "getinitdata.NewHandler" [daemonGRPCGuardMiddleware; daemonAuthMiddleware];
  mkDaemonRoute "GET" "/gdaemon_api/servers" "daemonapigetservers.NewHandler" [daemonGRPCGuardMiddleware; daemonAuthMiddleware];
  mkDaemonRoute "GET" "/gdaemon_api/servers/{server}" "daemonapigetserverid.NewHandler" [daemonGRPCGuardMiddleware; daemonAuthMiddleware];
  mkDaemonRoute "PUT" "/gdaemon_api/servers/{server}" "daemonapiputserver.NewHandler" [daemonGRPCGuardMiddleware; daemonAuthMiddleware];
  mkDaemonRoute "PATCH" "/gdaemon_api/servers" "daemonapipatchservers.NewHandler" [daemonGRPCGuardMiddleware; daemonAuthMiddleware];
  mkDaemonRoute "GET" "/gdaemon_api/tasks" "daemonapitasks.NewHandler" [daemonGRPCGuardMiddleware; daemonAuthMiddleware];
  mkDaemonRoute "PUT" "/gdaemon_api/tasks/{gdaemon_task}" "daemonapiupdatetask.NewHandler" [daemonGRPCGuardMiddleware; daemonAuthMiddleware];
  mkDaemonRoute "PUT" "/gdaemon_api/tasks/{gdaemon_task}/output" "daemonapiappendoutput.NewHandler" [daemonGRPCGuardMiddleware; daemonAuthMiddleware];
  mkDaemonRoute "GET" "/gdaemon_api/servers_tasks" "daemonapiserverstasks.NewHandler" [daemonGRPCGuardMiddleware; daemonAuthMiddleware];
  mkDaemonRoute "GET" "/gdaemon_api/servers_tasks/{server_task}" "daemonapigetservertask.NewHandler" [daemonGRPCGuardMiddleware; daemonAuthMiddleware];
  mkDaemonRoute "PUT" "/gdaemon_api/servers_tasks/{server_task}" "daemonapiupdateservertask.NewHandler" [daemonGRPCGuardMiddleware; daemonAuthMiddleware];
  mkDaemonRoute "POST" "/gdaemon_api/servers_tasks/{server_task}/fail" "daemonapifailservertask.NewHandler" [daemonGRPCGuardMiddleware; daemonAuthMiddleware]].
Close Scope string_scope.

Section daemon_api.
Context {R : Type} `{NodeRepository R} (SHA256 : string -> string) (IsConnectedAnywhere : N -> bool).

(** A handler gets the node of the daemon session of its request and the header
    [X-Auth-Token]. *)
Definition DaemonHandler (B : Type) : Type := option Node -> string -> M R (Response B).

Definition DaemonGRPCGuard {B} (next : DaemonHandler B) : DaemonHandler B := fun ctx authToken =>
  match ctx with
  | None => ret (WriteError (WrapHTTPError (ENew "daemon session not found") Http.StatusUnauthorized))
  | Some node =>
      if IsConnectedAnywhere (nd_ID node)
      then ret (WriteError (WrapHTTPError (ENew "daemon is connected via gRPC bidi stream, HTTP API is disabled for this node") Http.StatusConflict))
      else next ctx authToken
  end.
Definition DaemonAuthenticated {B} (next : DaemonHandler B) : DaemonHandler B := fun _ authToken s =>
  match DaemonAuth SHA256 s authToken with
  | Ok (Admitted_as node) => next (Some node) authToken s
  | Ok (Rejected status e) => (Ok (WriteError (WrapHTTPError e status)), s)
  | Err e => (Err e, s)
  | Panic w => (Panic w, s)
  end.
Definition daemon_middleware {B} (m : DaemonMiddleware) : DaemonHandler B -> DaemonHandler B :=
  match m with daemonGRPCGuardMiddleware => DaemonGRPCGuard | daemonAuthMiddleware => DaemonAuthenticated end.

Definition recover_daemon {B} (next : DaemonHandler B) : DaemonHandler B := fun ctx authToken s =>
  match next ctx authToken s with
  | (Panic w, s') => (Ok (WriteError (WrapHTTPError (ENew w) Http.StatusInternalServerError)), s')
  | res => res
  end.

(** The loop over the middlewares: the last one ends up outermost. *)
Definition protect_daemon {B} (handlers : string -> DaemonHandler B) (route : DaemonRoute) : DaemonHandler B :=
  recover_daemon (fold_left (fun handler mw => daemon_middleware mw handler) (dr_Middlewares route) (handlers (dr_Handler route))).
End daemon_api.

(** ** Who gets to a handler *)

Section entitled.
Context {U T C A : Type} `{UserRepositoryLaws U} `{PersonalAccessTokenRepositoryLaws T} `{CacheLaws C}.
Context `{!Process C} `{!ProcessLaws C} `{!AuthService C} `{!AuthServiceLaws C} `{AccessControl A} `{Unicode}.
Context (SHA256 : string -> string).
Abbreviation S := (Portal U T C A).
Implicit Types s : S.
Context {B : Type} (handlers : string -> Handler (U := U) (T := T) (C := C) (A := A) B).
Context (cors : Handler (U := U) (T := T) (C := C) (A := A) B -> Handler (U := U) (T := T) (C := C) (A := A) B).

(** What the CORS middleware does to requests that are no preflight: it adds
    headers. *)
Definition cors_passes : Prop := forall next ctx r s, rq_Method r <> "OPTIONS"%string -> cors next ctx r s = next ctx r s.

(** Only the clock, the ids and what access control remembers has changed. *)
Record untouched s s' : Prop := {
  untouched_users : po_users s' = po_users s;
  untouched_tokens : pt_rows (po_tokens s') = pt_rows (po_tokens s);
  untouched_inv : portal_inv s -> portal_inv s';
  untouched_process : only_later (po_process s) (po_process s');
}.
Lemma idle_untouched s s' : idle s s' -> untouched s s'.
Proof. by intros []. Qed.

Definition is_admin s (u : User) : Prop :=
  exists a, AC_Can (us_ID u) [AbilityNameAdminRolesPermissions] (po_access s) = (Ok true, a).

(** The abilities a route asks of an access token. *)
Definition token_may (route : Route) (t : PersonalAccessToken) : Prop :=
  forall a, a ∈ rt_CheckPATAbilities route -> exists have, pa_Abilities t = Some have /\ a ∈ have.

(** In whose name the handler of a route may run. *)
Definition entitled (route : Route) (r : Request) s s' (ctx : option Session) : Prop :=
  match ctx with
  | None => rt_AllowGuestAccess route = true /\ rt_AdminOnly route = false
  | Some sess => exists sid u t, sess = session_of sid u t /\ speaks_for SHA256 s (ca_now (po_process s)) (extractToken r) u t /\
      (exists now, (ca_now (po_process s) <= now <= ca_now (po_process s'))%Z /\
        ~ revoked_at SHA256 CacheRevocation (po_process s) now (extractToken r)) /\
      (rt_AdminOnly route = true -> is_admin s u) /\
      match t with Some tok => token_may route tok | None => True end
  end.

Lemma missing_ability_none required have : missing_ability required have = None -> forall a, a ∈ required -> a ∈ have.
Proof.
  induction required as [|b l IH]; intros Hm a Ha; [by apply list.elem_of_nil in Ha|]. simpl in Hm.
  destruct (existsb (String.eqb b) have) eqn:E; [|done]. apply list.elem_of_cons in Ha as [->|Ha]; [|by apply IH].
  apply existsb_exists in E as (x & Hx & ->%String.eqb_eq). by apply list_elem_of_In.
Qed.

Lemma PersonalAccess_spec (next : Handler B) abilities sid u t r s : match t with Some tok => pa_ID tok <> 0%N | None => True end ->
  (exists e, PersonalAccessMiddleware next (Some abilities) (Some (session_of sid u t)) r s = (Ok (WriteError e), s)) \/
  (PersonalAccessMiddleware next (Some abilities) (Some (session_of sid u t)) r s = next (Some (session_of sid u t)) r s /\
   match t with Some tok => forall a, a ∈ abilities -> exists have, pa_Abilities tok = Some have /\ a ∈ have | None => True end).
Proof.
  intros Ht. unfold PersonalAccessMiddleware, session_of. destruct t as [tok|]; [|by right].
  destruct (N.eqb_spec (pa_ID tok) 0); [done|]. destruct (pa_Abilities tok) as [have|] eqn:Ea; [|by left; eexists].
  destruct (length have <? length abilities); [by left; eexists|].
  destruct (missing_ability abilities have) eqn:Em; [by left; eexists|]. right. split; [done|].
  intros a Ha. exists have. split; [done|]. by eapply missing_ability_none.
Qed.

(** The administrator middleware answers, panics, or hands the request on with
    what access control said. *)
Lemma IsAdmin_spec (next : Handler B) ctx r s :
  (exists e a, IsAdminMiddleware next ctx r s = (Ok (WriteError e), mkPortal (po_users s) (po_tokens s) (po_process s) a)) \/
  (exists w a, IsAdminMiddleware next ctx r s = (Panic w, mkPortal (po_users s) (po_tokens s) (po_process s) a)) \/
  (exists sess u a, ctx = Some sess /\ se_User sess = Some u /\ AC_Can (us_ID u) [AbilityNameAdminRolesPermissions] (po_access s) = (Ok true, a) /\
    IsAdminMiddleware next ctx r s = next ctx r (mkPortal (po_users s) (po_tokens s) (po_process s) a)).
Proof.
  assert (Es : s = mkPortal (po_users s) (po_tokens s) (po_process s) (po_access s)) by (by destruct s).
  unfold IsAdminMiddleware. destruct ctx as [[sid lg em [u|] tok]|]; [|left; eexists _, _; by rewrite <- Es..].
  destruct (us_ID u =? 0)%N; [left; eexists _, _; by rewrite <- Es|].
  unfold bind, attempt, po_on_access, zoom. destruct (AC_Can (us_ID u) _ (po_access s)) as [[[]|e|w] a] eqn:Ea.
  - right; right. by exists (mkSession sid lg em (Some u) tok), u, a.
  - left. by eexists _, _.
  - left. by eexists _, _.
  - right; left. by eexists _, _.
Qed.

Lemma Recovery_error (next : Handler B) ctx r s e s' : next ctx r s = (Ok (WriteError e), s') -> Recovery next ctx r s = (Ok (WriteError e), s').
Proof. unfold Recovery. by intros ->. Qed.

(** What is inside the authentication of a route. *)
Definition behind_auth (route : Route) : Handler B :=
  let handler := handlers (rt_Handler route) in
  let handler := if 0 <? length (rt_CheckPATAbilities route)
                 then PersonalAccessMiddleware handler (Some (rt_CheckPATAbilities route)) else handler in
  let handler := cors handler in
  if rt_AdminOnly route then IsAdminMiddleware handler else handler.

Lemma protect_behind route : protect SHA256 handlers cors route =
  Recovery (middleware SHA256 CacheRevocation (behind_auth route) (rt_AllowGuestAccess route)).
Proof. unfold protect, behind_auth. by destruct (rt_AllowGuestAccess route). Qed.

Lemma access_only s a : untouched s (mkPortal (po_users s) (po_tokens s) (po_process s) a).
Proof. by split. Qed.
Lemma untouched_refl s : untouched s s.
Proof. by apply idle_untouched, idle_refl. Qed.
Lemma untouched_trans s1 s2 s3 : untouched s1 s2 -> untouched s2 s3 -> untouched s1 s3.
Proof. intros [] []. split; try congruence; [auto|by eapply only_later_trans]. Qed.

(** Behind the CORS middleware: the check of the token's abilities. *)
Lemma checked_spec route ctx r s : cors_passes -> rq_Method r <> "OPTIONS"%string ->
  match ctx with
  | Some sess => exists sid u t, sess = session_of sid u t /\ match t with Some tok => pa_ID tok <> 0%N | None => True end
  | None => True
  end ->
  let handler := cors (if 0 <? length (rt_CheckPATAbilities route)
    then PersonalAccessMiddleware (handlers (rt_Handler route)) (Some (rt_CheckPATAbilities route)) else handlers (rt_Handler route)) in
  (exists e, handler ctx r s = (Ok (WriteError e), s)) \/
  (handler ctx r s = handlers (rt_Handler route) ctx r s /\
   match ctx with Some sess => match se_Token sess with Some tok => token_may route tok | None => True end | None => True end).
Proof.
  intros Hcors Hm Hctx. cbv zeta. destruct (Nat.ltb_spec 0 (length (rt_CheckPATAbilities route))) as [Hlt|Hge].
  - destruct ctx as [sess|]; [|right; by rewrite Hcors]. destruct Hctx as (sid & u & t & -> & Ht). rewrite Hcors by done.
    destruct (PersonalAccess_spec (handlers (rt_Handler route)) (rt_CheckPATAbilities route) sid u t r s Ht) as [He|[E Hmay]]; [by left|].
    right. split; [exact E|]. by destruct t.
  - right. split; [by rewrite Hcors|]. destruct ctx as [sess|]; [|done]. destruct (se_Token sess) as [tok|]; [|done].
    intros a Ha. destruct (rt_CheckPATAbilities route); [by apply list.elem_of_nil in Ha|simpl in Hge; lia].
Qed.

Lemma behind_auth_spec route ctx r s : cors_passes -> rq_Method r <> "OPTIONS"%string ->
  match ctx with
  | Some sess => exists sid u t, sess = session_of sid u t /\ match t with Some tok => pa_ID tok <> 0%N | None => True end
  | None => True
  end ->
  exists s1, untouched s s1 /\
    ((exists e, Recovery (behind_auth route) ctx r s = (Ok (WriteError e), s1)) \/
     (Recovery (behind_auth route) ctx r s = Recovery (handlers (rt_Handler route)) ctx r s1 /\
      match ctx with
      | Some sess => (rt_AdminOnly route = true -> exists u, se_User sess = Some u /\ is_admin s u) /\
                     match se_Token sess with Some tok => token_may route tok | None => True end
      | None => rt_AdminOnly route = false
      end)).
Proof.
  intros Hcors Hm Hctx. unfold behind_auth. cbv zeta.
  pose proof (checked_spec route ctx r) as Hchk. cbv zeta in Hchk. revert Hchk.
  match goal with |- context [cors ?h ctx r] => generalize (cors h) end. intros inner Hchk.
  destruct (rt_AdminOnly route).
  - destruct (IsAdmin_spec inner ctx r s) as [(e & a & E)|[(w & a & E)|(sess & u & a & -> & Hu & Ha & E)]].
    + eexists. split; [apply (access_only s a)|]. left. exists e. by apply Recovery_error.
    + eexists. split; [apply (access_only s a)|]. left. unfold Recovery. rewrite E. by eexists.
    + exists (mkPortal (po_users s) (po_tokens s) (po_process s) a). split; [apply access_only|].
      unfold Recovery. rewrite E. destruct (Hchk (mkPortal (po_users s) (po_tokens s) (po_process s) a) Hcors Hm Hctx) as [[e Ee]|[Ee Hmay]].
      * left. exists e. by rewrite Ee.
      * right. rewrite Ee. split_and!; [done| |done]. intros _. exists u. split; [done|]. by exists a.
  - exists s. split; [apply untouched_refl|]. unfold Recovery. destruct (Hchk s Hcors Hm Hctx) as [[e Ee]|[Ee Hmay]].
    + left. exists e. by rewrite Ee.
    + right. rewrite Ee. split; [done|]. by destruct ctx.
Qed.

(** ** The properties *)

Definition guest_paths : list string := ["/api/health"; "/api/config/public"; "/api/auth/login"]%string.

(** C30: A handler of the HTTP API runs only in the name of who may call it.
    A request for a route of the table is answered with an error, or its
    handler runs: without a session only behind a route open to guests, which
    are the health check, the public configuration and the login; with one,
    then for the user the request's token speaks for and that was not revoked,
    on the routes for administrators only if access control called him one, and
    with an access token only if it has every ability the route asks for.
    Before the handler nothing has changed but the clock, ids and what access
    control remembers; a panic becomes an answer 500. *)
Theorem handler_runs_only_for_the_entitled route r s : route ∈ apiRoutes -> portal_inv s -> cors_passes ->
  rq_Method r <> "OPTIONS"%string ->
  exists s1, untouched s s1 /\
    ((exists e, protect SHA256 handlers cors route None r s = (Ok (WriteError e), s1)) \/
     (exists ctx, protect SHA256 handlers cors route None r s = Recovery (handlers (rt_Handler route)) ctx r s1 /\
       entitled route r s s1 ctx)) /\
    (rt_AllowGuestAccess route = true -> rt_Path route ∈ guest_paths) /\
    (forall w, fst (protect SHA256 handlers cors route None r s) <> Panic w).
Proof.
  intros Hroute Hi Hcors Hm. rewrite protect_behind.
  assert (Hguest : rt_AllowGuestAccess route = true -> rt_Path route ∈ guest_paths).
  { assert (Hall : Forall (fun route => rt_AllowGuestAccess route = true -> rt_Path route ∈ guest_paths) apiRoutes)
      by (apply (bool_decide_unpack _); vm_compute; exact I).
    rewrite list.Forall_forall in Hall. by apply Hall. }
  assert (Hnp : forall w, fst (Recovery (middleware SHA256 CacheRevocation (behind_auth route) (rt_AllowGuestAccess route)) None r s) <> Panic w).
  { intros w. unfold Recovery. by destruct (middleware _ _ _ _ _ _ _) as [[]]. }
  destruct (middleware_verdict SHA256 CacheRevocation (rt_AllowGuestAccess route) r s Hi) as (v & s0 & Hs0 & Hv & Hob).
  assert (Hrec : Recovery (middleware SHA256 CacheRevocation (behind_auth route) (rt_AllowGuestAccess route)) None r s =
    match v with
    | Refused e => (Ok (WriteError e), s0)
    | Anonymous => Recovery (behind_auth route) None r s0
    | Entered sess => Recovery (behind_auth route) (Some sess) r s0
    end) by (unfold Recovery; rewrite Hob; by destruct v).
  rewrite Hrec in Hnp |- *. clear Hrec Hob. pose proof (idle_untouched _ _ Hs0) as Hu0. destruct v as [e| |sess].
  - exists s0. split_and!; [done| |done|done]. left. by exists e.
  - destruct (behind_auth_spec route None r s0 Hcors Hm I) as (s1 & Hu1 & [[e E]|[E Hadm]]);
      exists s1; (split_and!; [by eapply untouched_trans| |done|done]); [left; by exists e|]. right. exists None. by split.
  - destruct Hv as (sid & u & t & -> & Hsp & now & Hnow & Hnr).
    destruct (behind_auth_spec route (Some (session_of sid u t)) r s0 Hcors Hm) as (s1 & Hu1 & [[e E]|[E [Hadm Hmay]]]).
    { exists sid, u, t. split; [done|]. inversion Hsp as [|? ? tok ? _ _ _ Htok]; subst; [done|]. by destruct (pt_rows_id _ _ _ (proj2 Hi) Htok). }
    + exists s1. split_and!; [by eapply untouched_trans| |done|done]. left. by exists e.
    + exists s1. split_and!; [by eapply untouched_trans| |done|done]. right. exists (Some (session_of sid u t)). split; [done|].
      exists sid, u, t. split_and!; [done|done| | |done].
      * exists now. destruct (untouched_process _ _ Hu1). split; [lia|done].
      * intros Ha. destruct (Hadm Ha) as (u' & [= <-] & a & Hcan). exists a. by rewrite <- (idle_access _ _ Hs0).
Qed.

(** The abilities of an access token limit it only where a route asks for
    one.  On every other route that is not for administrators - among them the
    changes to a server's files, its console over a WebSocket, and the profile -
    the handler runs for whoever the token belongs to, whatever abilities the
    token was given. *)
Lemma unchecked_routes_ignore_token_abilities route r s u t : route ∈ apiRoutes ->
  rt_CheckPATAbilities route = [] -> rt_AdminOnly route = false ->
  portal_inv s -> reliable (U := U) (T := T) -> CacheTotal C -> cors_passes -> rq_Method r <> "OPTIONS"%string ->
  speaks_for SHA256 s (ca_now (po_process s)) (extractToken r) u (Some t) ->
  (forall x, (ca_now (po_process s) <= x)%Z -> ~ revoked_at SHA256 CacheRevocation (po_process s) x (extractToken r)) ->
  exists sid s1, idle s s1 /\
    protect SHA256 handlers cors route None r s = Recovery (handlers (rt_Handler route)) (Some (session_of sid u (Some t))) r s1.
Proof.
  intros _ Hnone Hadm Hi Hrel Htot Hcors Hm Hsp Hrev. rewrite protect_behind.
  destruct (authenticate SHA256 CacheRevocation (rt_AllowGuestAccess route) r s) as [res s1] eqn:Ea.
  destruct (credential_admitted SHA256 CacheRevocation (rt_AllowGuestAccess route) r s u (Some t) (ca_now (po_process s1) + 1) Hi Hrel Hsp I Hrev)
    as (v & s1' & Hd & Hv).
  assert (s1' = s1) as -> by (rewrite <- (decided_state _ _ _ _ _ _ _ Hd), middleware_obeys; unfold bind; rewrite Ea; by destruct res as [[]|err|w]).
  destruct Hv as [sid ->]; [lia|]. exists sid, s1. destruct Hd as [Hidle Hob]. split; [done|].
  unfold Recovery. rewrite Hob. unfold behind_auth. rewrite Hnone, Hadm. simpl. by rewrite Hcors.
Qed.
End entitled.

(** The ability to manage players is asked for by no route: those of the players
    ask for the RCON console. *)
Lemma rcon_players_ability_opens_nothing route : route ∈ apiRoutes -> PATAbilityServerRconPlayers ∉ rt_CheckPATAbilities route.
Proof.
  assert (Hall : Forall (fun route => PATAbilityServerRconPlayers ∉ rt_CheckPATAbilities route) apiRoutes)
    by (apply (bool_decide_unpack _); vm_compute; exact I).
  rewrite list.Forall_forall in Hall. apply Hall.
Qed.

(** A daemon's request runs a handler of the daemon API - the exchange of
    the API key for a token apart - only with a token that the node table knows,
    in the name of that node, and only while the node is not connected over
    gRPC; otherwise it is answered with an error and nothing changes. *)
Lemma daemon_handlers_run_off_stream {R} `{NodeRepository R} (SHA256 : string -> string) (IsConnectedAnywhere : N -> bool) {B}
  (handlers : string -> DaemonHandler B) route authToken (s : R) :
  route ∈ gdaemonAPIRoutes -> dr_Handler route <> "daemonapiinit.NewHandler"%string ->
  (exists e, protect_daemon SHA256 IsConnectedAnywhere handlers route None authToken s = (Ok (WriteError e), s)) \/
  (exists node, DaemonAuth SHA256 s authToken = Ok (Admitted_as node) /\ IsConnectedAnywhere (nd_ID node) = false /\
    protect_daemon SHA256 IsConnectedAnywhere handlers route None authToken s =
      recover_daemon (handlers (dr_Handler route)) (Some node) authToken s).
Proof.
  intros Hroute Hne.
  assert (Hmw : dr_Middlewares route = [daemonGRPCGuardMiddleware; daemonAuthMiddleware]).
  { revert Hne. apply list_elem_of_In in Hroute. simpl in Hroute.
    repeat (destruct Hroute as [<-|Hroute]; [done|]). done. }
  unfold protect_daemon. rewrite Hmw. unfold recover_daemon. simpl. unfold DaemonAuthenticated.
  destruct (DaemonAuth SHA256 s authToken) as [[node|status e]|e|w] eqn:E.
  - unfold DaemonGRPCGuard. destruct (IsConnectedAnywhere (nd_ID node)) eqn:Ec; [left; by eexists|]. right. by exists node.
  - left. by eexists.
  - exfalso. revert E. unfold DaemonAuth. destruct (String.eqb authToken ""); [done|]. by destruct (ND_Find _ _ _ _) as [[]| |].
  - left. by eexists.
Qed.

(** ** Requests to the panel of [UserAccess.Sample] *)

Module RouteSample.
Import UsersRepo TokensRepo UserAccess.Sample.
#[local] Existing Instances ticking listed_order plain process process_laws library library_laws tokens_service tokens_service_laws first_is_admin.

(** Handlers that answer with their name and the session they were given. *)
Definition echo (name : string) : Handler (U := UserService memUserRepo) (T := memTokenRepo) (C := InMemory) (A := unit) (string * option Session) :=
  fun ctx _ => ret (Write 200 (name, ctx)).
Definition no_cors (h : Handler (U := UserService memUserRepo) (T := memTokenRepo) (C := InMemory) (A := unit) (string * option Session)) := h.
Lemma no_cors_passes : cors_passes no_cors.
Proof. by intros next ctx r s _. Qed.

Definition list_servers : Route := mkRoute "GET" "/api/servers" "getservers.NewHandler" false false [PATAbilityServerList].
Definition upload : Route := mkRoute "POST" "/api/file-manager/{server}/upload" "upload.NewHandler" false false [].
Definition in_routes (route : Route) : bool :=
  existsb (fun x => String.eqb (rt_Method x) (rt_Method route) && String.eqb (rt_Path x) (rt_Path route)) apiRoutes.

Lemma handler_runs_only_for_the_entitled_witness :
  list_servers ∈ apiRoutes /\
  exists sid s1, protect hash echo no_cors list_servers None (request "Bearer 7|s3cret" "") panel =
      (Ok (Write 200 ("getservers.NewHandler"%string, Some (session_of sid alice (Some key)))), s1) /\
    entitled hash list_servers (request "Bearer 7|s3cret" "") panel s1 (Some (session_of sid alice (Some key))).
Proof.
  assert (Hin : list_servers ∈ apiRoutes) by (apply list_elem_of_In; do 11 right; by left). split; [done|].
  destruct (handler_runs_only_for_the_entitled hash echo no_cors list_servers (request "Bearer 7|s3cret" "") panel Hin panel_inv
    no_cors_passes ltac:(discriminate)) as (s1 & _ & [[e E]|(ctx & E & Hent)] & _ & _); [vm_compute in E; discriminate|].
  exists "c0ffee"%string, s1. unfold Recovery, echo, ret in E.
  assert (Hctx : ctx = Some (session_of "c0ffee" alice (Some key))) by (vm_compute in E; injection E; intros _ <-; reflexivity).
  rewrite Hctx in *. by split.
Defined.

Definition daemon_echo (name : string) : DaemonHandler (R := NodesRepo.memNodeRepo) (string * option Node) := fun ctx _ => ret (Write 200 (name, ctx)).
Definition get_tasks : DaemonRoute := mkDaemonRoute "GET" "/gdaemon_api/tasks" "daemonapitasks.NewHandler" [daemonGRPCGuardMiddleware; daemonAuthMiddleware].
#[local] Existing Instance NodesRepo.memNodeRepo_ops.

(** A daemon that has fetched its token asks for its tasks, off and on the
    gRPC stream. *)
Definition ask_tasks (connected : N -> bool) :=
  protect_daemon (fun s => s) connected daemon_echo get_tasks None (nth_token 1) (au_nodes (snd two_tokens)).

End RouteSample.
