(* ===== verification/TokenApi.v ===== *)
(** Access tokens over HTTP ([internal/api/tokens]): creating, listing and
    deleting the tokens of the user of the session, and the abilities that can
    be given to them. *)

From S2P Require Import Prelude.
From S2P Require Import GoNum.
From S2P Require Import Domain.
From S2P Require Import GoRuntime.
From S2P Require Import Cache.
From S2P Require Import Repositories.
From S2P Require Import TaskRepo.
From S2P Require Import Http.
From S2P Require Import Accounts.
From S2P Require Import UsersRepo.
From S2P Require Import TokensRepo.
From S2P Require Import AuthTokens.
From S2P Require Import RBACRepo.
From S2P Require Import UserAuth.
From S2P Require Import UserAccess.
From stdpp Require Import base tactics strings list gmap numbers.
From Stdlib Require Import NArith ZArith Ascii.

(** ** Creating ([posttoken]) *)

Definition maxNameLength : nat := 255.
Definition maxAbilitiesCount : nat := 100.
Definition ErrNameIsRequired : api_error := NewValidationError "name field is required".
Definition ErrNameTooLong : api_error := NewValidationError "name must not exceed 255 characters".
Definition ErrAbilitiesIsRequired : api_error := NewValidationError "abilities field is required".
Definition ErrAbilitiesEmpty : api_error := NewValidationError "at least one ability must be provided".
Definition ErrInvalidAbility : api_error := NewValidationError "invalid ability provided".
Definition ErrAbilitiesTooMany : api_error := NewValidationError "too many abilities provided (maximum 100)".
Definition ErrDuplicateAbilities : api_error := NewValidationError "duplicate abilities are not allowed".

(** [ti_Abilities] is [None] for nil. *)
Record tokenInput : Type := mkTokenInput { ti_TokenName : string; ti_Abilities : option (list string) }.

Definition abilities_of (i : tokenInput) : list string := default [] (ti_Abilities i).
Definition validateAbilities (i : tokenInput) : bool := forallb ValidateAbility (abilities_of i).
Fixpoint has_duplicate (seen : gset string) (l : list string) : bool :=
  match l with
  | [] => false
  | a :: l => if bool_decide (a ∈ seen) then true else has_duplicate ({[a]} ∪ seen) l
  end.
Definition hasDuplicateAbilities (i : tokenInput) : bool := has_duplicate ∅ (abilities_of i).

Definition tokenInput_Validate (i : tokenInput) : option api_error :=
  if String.eqb (ti_TokenName i) "" then Some ErrNameIsRequired
  else if maxNameLength <? String.length (ti_TokenName i) then Some ErrNameTooLong
  else
    match ti_Abilities i with
    | None => Some ErrAbilitiesIsRequired
    | Some l =>
        if length l =? 0 then Some ErrAbilitiesEmpty
        else if maxAbilitiesCount <? length l then Some ErrAbilitiesTooMany
        else if negb (validateAbilities i) then Some ErrInvalidAbility
        else if hasDuplicateAbilities i then Some ErrDuplicateAbilities
        else None
    end.

Definition PlainTokenLength : nat := 48.
Definition letters : list ascii := String.list_ascii_of_string "abcdefghijklmnopqrstuvwxyzABCDEFGHIJKLMNOPQRSTUVWXYZ0123456789".
Definition letter (b : N) : ascii := nth (N.to_nat (b mod N.of_nat (length letters))%N) letters "000"%char.

Definition newTokenResponse (token : PersonalAccessToken) (plainToken : string) : string :=
  FormatUint (pa_ID token) +:+ "|" +:+ plainToken.

Section handlers.
Context {U T C A : Type} `{UserRepository U} `{PersonalAccessTokenRepository T} `{Cache C} `{Process C} `{AccessControl A}.
Context (SHA256 : string -> string) (decode_token : string -> result tokenInput).
Abbreviation S := (Portal U T C A).

Definition generateRandomToken : M C string :=
  let! bytes := wrap "failed to generate random token" (rand_Read PlainTokenLength) in
  ret (String.string_of_list_ascii (map letter bytes)).

Definition validateAdminAbilities (user : User) (abilities : list string) : M S (option api_error) :=
  let! isAdmin := attempt (po_on_access (AC_Can (us_ID user) [AbilityNameAdminRolesPermissions])) in
  match isAdmin with
  | Panic w => lift (Panic w)
  | Err e => ret (Some (OtherError (EWrap "failed to check user permissions" e)))
  | Ok true => ret None
  | Ok false =>
      if existsb (fun a => bool_decide (a ∈ (list_to_set GetAdminAbilities : gset string))) abilities
      then ret (Some (NewValidationError "admin abilities require admin role")) else ret None
  end.

Definition PostToken : Handler (U := U) (T := T) (C := C) (A := A) string := fun ctx r =>
  match ctx with
  | Some (mkSession _ _ _ (Some user) _ as session) =>
      if negb (IsAuthenticated ctx) then ret (WriteError (unauthorized (ENew "user not authenticated")))
      else if IsTokenSession ctx then ret (WriteError (WrapHTTPError (ENew "token sessions cannot create new tokens") StatusForbidden))
      else
        match decode_token (rq_Body r) with
        | Panic w => lift (Panic w)
        | Err e => ret (WriteError (WrapHTTPError (EWrap "invalid request body" e) StatusBadRequest))
        | Ok input =>
            match tokenInput_Validate input with
            | Some e => ret (WriteError e)
            | None =>
                let! bad := validateAdminAbilities user (abilities_of input) in
                match bad with
                | Some e => ret (WriteError e)
                | None =>
                    let! plainToken := attempt (po_on_process generateRandomToken) in
                    match plainToken with
                    | Panic w => lift (Panic w)
                    | Err e => ret (WriteError (WrapHTTPError (EWrap "failed to generate token" e) StatusInternalServerError))
                    | Ok plainToken =>
                        let! now := po_on_process time_now in
                        let token := mkPAT 0 EntityTypeUser (us_ID user) (ti_TokenName input) (SHA256 plainToken)
                          (Some (ParseAbilities (abilities_of input))) None (Some now) (Some now) in
                        let! saved := attempt (po_on_tokens (PT_Save token)) in
                        match saved with
                        | Panic w => lift (Panic w)
                        | Err e => ret (WriteError (WrapHTTPError (EWrap "failed to save token" e) StatusInternalServerError))
                        | Ok token => ret (Write StatusOK (newTokenResponse token plainToken))
                        end
                    end
                end
            end
        end
  | _ => ret (WriteError (unauthorized (ENew "user not authenticated")))
  end.

(** ** Listing ([gettokens]) and deleting ([deletetoken]) *)

Record tokenResponse : Type := mkTokenResponse {
  tr_ID : N; tr_Name : string; tr_Abilities : option (list string); tr_LastUsedAt : option time; tr_CreatedAt : option time;
}.
Definition newTokenResponseFromToken (t : PersonalAccessToken) : tokenResponse :=
  mkTokenResponse (pa_ID t) (pa_Name t) (pa_Abilities t) (pa_LastUsedAt t) (pa_CreatedAt t).

Definition GetTokens : Handler (U := U) (T := T) (C := C) (A := A) (list tokenResponse) := fun ctx _ =>
  match ctx with
  | Some (mkSession _ _ _ (Some user) _) =>
      if negb (IsAuthenticated ctx) then ret (WriteError (unauthorized (ENew "user not authenticated")))
      else
        let! tokens := attempt (po_on_tokens (PT_Find (mkFindPAT [] [] [EntityTypeUser] [us_ID user]) [mkSorting "created_at" SortDirectionDesc] None)) in
        match tokens with
        | Panic w => lift (Panic w)
        | Err e => ret (WriteError (OtherError (EWrap "failed to find user tokens" e)))
        | Ok tokens => ret (Write StatusOK (map newTokenResponseFromToken tokens))
        end
  | _ => ret (WriteError (unauthorized (ENew "user not authenticated")))
  end.

Definition DeleteToken : Handler (U := U) (T := T) (C := C) (A := A) unit := fun ctx r =>
  match ctx with
  | Some (mkSession _ _ _ (Some user) _) =>
      if negb (IsAuthenticated ctx) then ret (WriteError (unauthorized (ENew "user not authenticated")))
      else
        match ReadUint r "id" with
        | Panic w => lift (Panic w)
        | Err _ => ret (WriteError (NewValidationError "invalid token id"))
        | Ok id =>
            let! tokens := attempt (po_on_tokens (PT_Find (FindPersonalAccessTokenByIDs [id]) [] None)) in
            match tokens with
            | Panic w => lift (Panic w)
            | Err e => ret (WriteError (OtherError (EWrap "failed to find token" e)))
            | Ok [] => ret (WriteError (WrapHTTPError (ENew "token not found") StatusNotFound))
            | Ok (token :: _) =>
                if negb (pa_TokenableID token =? us_ID user)%N then ret (WriteError (WrapHTTPError (ENew "access denied") StatusForbidden))
                else
                  let! deleted := attempt (po_on_tokens (PT_Delete id)) in
                  match deleted with
                  | Panic w => lift (Panic w)
                  | Err e => ret (WriteError (OtherError (EWrap "failed to delete token" e)))
                  | Ok _ => ret (WriteHeader StatusNoContent)
                  end
            end
        end
  | _ => ret (WriteError (unauthorized (ENew "user not authenticated")))
  end.

(** ** The abilities on offer ([getabilities]) *)

Definition groupOrder : list string := [PATAbilityGroupServer; PATAbilityGroupGDaemonTask].
Definition newAbilitiesResponse (grouped : gmap string (list (string * string))) : list (string * list (string * string)) :=
  omap (fun g => match grouped !! g with Some l => Some (g, l) | None => None end) groupOrder.

Definition GetAbilities : Handler (U := U) (T := T) (C := C) (A := A) (list (string * list (string * string))) := fun ctx _ =>
  match ctx with
  | Some (mkSession _ _ _ (Some user) _) =>
      if negb (IsAuthenticated ctx) then ret (WriteError (unauthorized (ENew "user not authenticated")))
      else
        let! isAdmin := attempt (po_on_access (AC_Can (us_ID user) [AbilityNameAdminRolesPermissions])) in
        match isAdmin with
        | Panic w => lift (Panic w)
        | Err e => ret (WriteError (OtherError (EWrap "failed to check user permissions" e)))
        | Ok isAdmin => ret (Write StatusOK (newAbilitiesResponse (GetGroupedAbilities isAdmin)))
        end
  | _ => ret (WriteError (unauthorized (ENew "user not authenticated")))
  end.
End handlers.

(** [AbilitiesResponse.MarshalJSON]: objects in the order given; [json_Marshal]
    is the encoding of a string. *)
Section marshal.
Context (json_Marshal : string -> result string).

Fixpoint marshal_abilities (first : bool) (l : list (string * string)) : result string :=
  match l with
  | [] => Ok ""%string
  | (k, v) :: l =>
      let? k := json_Marshal k in
      let? v := json_Marshal v in
      let? rest := marshal_abilities false l in
      Ok ((if first then "" else ",") +:+ k +:+ ":" +:+ v +:+ rest)
  end.
Fixpoint marshal_groups (first : bool) (l : list (string * list (string * string))) : result string :=
  match l with
  | [] => Ok ""%string
  | (g, abilities) :: l =>
      let? g := json_Marshal g in
      let? a := marshal_abilities true abilities in
      let? rest := marshal_groups false l in
      Ok ((if first then "" else ",") +:+ g +:+ ":{" +:+ a +:+ "}" +:+ rest)
  end.
Definition MarshalJSON (groups : list (string * list (string * string))) : result string :=
  let? body := marshal_groups true groups in Ok ("{" +:+ body +:+ "}").
End marshal.

(** ** The text of a token *)

Lemma digits_value_digits s : forall acc n, digits_value acc s = Some n -> all_digits s = true.
Proof. induction s as [|c s IH]; intros acc n; [done|]. simpl. destruct (char_digit c); [apply IH|done]. Qed.

Lemma FormatUint_digits n : (n < two64)%N -> all_digits (FormatUint n) = true.
Proof. intros Hn. by eapply digits_value_digits, FormatUint_value. Qed.

Lemma cut_after_digits s t : all_digits s = true -> cut_byte "|"%char (s +:+ "|" +:+ t) = Some (s, t).
Proof.
  induction s as [|c s IH]; intros Hd; [done|]. rewrite String_app. simpl in Hd |- *. destruct (char_digit c) eqn:Ec; [|done].
  destruct (Ascii.eqb_spec c "|"%char) as [->|]; [done|]. by rewrite IH.
Qed.

Lemma detect_access_token n t : (n < two64)%N -> detectTokenType (FormatUint n +:+ "|" +:+ t) = tokenTypePersonalAccess.
Proof.
  intros Hn. pose proof (FormatUint_digits n Hn) as Hd. destruct (FormatUint_cons n) as (c & s & E).
  unfold detectTokenType. rewrite cut_after_digits by done. rewrite E in *. simpl in Hd. destruct (char_digit c) eqn:Ec; [|done].
  assert (Hp : forall d p, char_digit d = None -> String.prefix (String d p) (String c s +:+ "|" +:+ t) = false).
  { intros d p Hd'. rewrite String_app. simpl. destruct (Ascii.ascii_dec d c) as [->|]; [congruence|done]. }
  rewrite !Hp by reflexivity. unfold IsNumeric. simpl. by rewrite Ec, Hd.
Qed.

Lemma has_duplicate_nodup l : forall seen, has_duplicate seen l = false -> NoDup l /\ forall a, a ∈ l -> a ∉ seen.
Proof.
  induction l as [|a l IH]; intros seen Hd; [split; [constructor|]; intros a Ha; by apply list.elem_of_nil in Ha|]. simpl in Hd.
  case_bool_decide as Ha; [done|]. destruct (IH _ Hd) as [Hnd Hnin]. split.
  - apply list.NoDup_cons. split; [|done]. intros Hin. apply (Hnin a Hin). set_solver.
  - intros b Hb. apply list.elem_of_cons in Hb as [->|Hb]; [done|]. intros Hs. apply (Hnin b Hb). set_solver.
Qed.

Lemma tokenInput_valid i : tokenInput_Validate i = None ->
  ti_TokenName i <> ""%string /\ abilities_of i <> [] /\ NoDup (abilities_of i) /\ forallb ValidateAbility (abilities_of i) = true.
Proof.
  unfold tokenInput_Validate, abilities_of, hasDuplicateAbilities, validateAbilities, abilities_of.
  destruct (String.eqb_spec (ti_TokenName i) ""); [done|]. destruct (_ <? _); [done|].
  destruct (ti_Abilities i) as [l|]; [|done]. simpl. destruct (Nat.eqb_spec (length l) 0); [done|]. destruct (_ <? _); [done|].
  destruct (forallb ValidateAbility l) eqn:Ev; [|done]. simpl. destruct (has_duplicate ∅ l) eqn:Ed; [done|]. intros _.
  apply has_duplicate_nodup in Ed as [Hnd _]. split_and!; [done| |done|done]. intros ->. done.
Qed.

(** ** What the handlers do *)

Section specs.
Context {U T C A : Type} `{UserRepositoryLaws U} `{PersonalAccessTokenRepositoryLaws T} `{CacheLaws C} `{!CacheTotal C}.
Context `{!Process C} `{!ProcessLaws C} `{!AuthService C} `{!AuthServiceLaws C} `{AccessControl A} `{Unicode}.
Context (SHA256 : string -> string) (decode_token : string -> result tokenInput).
Abbreviation S := (Portal U T C A).
Implicit Types s : S.
Abbreviation user_rows s := (us_rows (po_users s)).
Abbreviation token_rows s := (pt_rows (po_tokens s)).

Lemma generateRandomToken_spec (c : C) : wp generateRandomToken (fun r c' => only_later c c' /\ match r with Panic _ => False | _ => True end) c.
Proof.
  unfold generateRandomToken. do 2 wp_step. apply wp_intro. intros r c' E. destruct (rand_Read_law _ _ _ _ E) as [Hl Hr].
  destruct r; cbn [wrap_err]; cbv iota; [by wp_step|done|done].
Qed.

(** Whether the user may have the abilities: nothing but what access control
    remembers changes. *)
Lemma validateAdminAbilities_spec user abilities s r s' : validateAdminAbilities user abilities s = (r, s') ->
  po_users s' = po_users s /\ po_tokens s' = po_tokens s /\ po_process s' = po_process s /\
  (r = Ok None -> (exists a, a ∈ abilities /\ a ∈ GetAdminAbilities) ->
    exists a, AC_Can (us_ID user) [AbilityNameAdminRolesPermissions] (po_access s) = (Ok true, a)).
Proof.
  unfold validateAdminAbilities, bind, attempt, po_on_access, zoom.
  destruct (AC_Can _ _ (po_access s)) as [[[]|e|w] a] eqn:Ea; [intros [= <- <-]; split_and!; [done..|intros _ _; by exists a]| |by intros [= <- <-]..].
  destruct (existsb _ abilities) eqn:Ex; intros [= <- <-]; split_and!; try done. intros _ (b & Hb & Hadm). exfalso.
  apply not_true_iff_false in Ex. apply Ex, existsb_exists. exists b. split; [by apply list_elem_of_In|].
  apply bool_decide_eq_true. by apply elem_of_list_to_set.
Qed.

(** A run of [PostToken] that answers with a token. *)
Lemma PostToken_run ctx r s tok s1 : portal_inv s -> pt_room 1 (po_tokens s) ->
  PostToken SHA256 decode_token ctx r s = (Ok (Write StatusOK tok), s1) ->
  exists user input plain t, se_User <$> ctx = Some (Some user) /\ IsAuthenticated ctx = true /\ IsTokenSession ctx = false /\
    decode_token (rq_Body r) = Ok input /\ tokenInput_Validate input = None /\
    ((exists a, a ∈ abilities_of input /\ a ∈ GetAdminAbilities) ->
      exists a, AC_Can (us_ID user) [AbilityNameAdminRolesPermissions] (po_access s) = (Ok true, a)) /\
    tok = FormatUint (pa_ID t) +:+ "|" +:+ plain /\ pa_Token t = SHA256 plain /\ pa_TokenableType t = EntityTypeUser /\
    pa_TokenableID t = us_ID user /\ pa_Name t = ti_TokenName input /\ pa_Abilities t = Some (abilities_of input) /\
    token_rows s !! pa_ID t = None /\ token_rows s1 = <[pa_ID t := t]> (token_rows s) /\ portal_inv s1 /\ user_rows s1 = user_rows s.
Proof.
  intros Hi Hroom E. unfold PostToken in E. destruct ctx as [[sid lg em [user|] tk]|]; [|done..].
  destruct (IsAuthenticated _) eqn:Hauth; [|done]. cbn [negb] in E. destruct (IsTokenSession _) eqn:Htok; [done|].
  destruct (decode_token (rq_Body r)) as [input|e|w] eqn:Hdec; [|done..].
  destruct (tokenInput_Validate input) eqn:Hval; [done|]. unfold bind at 1 in E.
  destruct (validateAdminAbilities user (abilities_of input) s) as [bad s0] eqn:Eb.
  destruct (validateAdminAbilities_spec _ _ _ _ _ Eb) as (Hu0 & Ht0 & Hp0 & Hadm). destruct bad as [[e|]|e|w]; [done| |done..].
  unfold bind at 1, attempt at 1, po_on_process at 1, zoom at 1 in E. rewrite Hp0 in E.
  pose proof (generateRandomToken_spec (po_process s)) as Hg. unfold wp in Hg.
  destruct (generateRandomToken (po_process s)) as [[plain|e|w] c1]; [|done|by destruct Hg]. clear Hg.
  unfold bind at 1, po_on_process at 1, zoom at 1 in E. cbn [po_process po_users po_tokens po_access] in E.
  destruct (time_now c1) as [res c2] eqn:En. destruct (time_now_law _ _ _ En) as (_ & now & -> & _). cbv zeta in E.
  unfold bind at 1, attempt at 1, po_on_tokens at 1, zoom at 1 in E. cbn [po_process po_users po_tokens po_access] in E.
  match type of E with context [PT_Save ?t _] => set (t0 := t) in * end. rewrite Ht0 in E.
  destruct (PT_Save t0 (po_tokens s)) as [res r1] eqn:Es.
  destruct (pt_save_law t0 (po_tokens s) res r1 (proj2 Hi) Hroom Es) as (Hi1 & _ & Hres).
  destruct res as [t|e|w]; [|done..]. injection E as <- <-. destruct Hres as ((cr & up & Ht) & Hrows & Hfresh).
  pose proof (tokenInput_valid _ Hval) as (_ & _ & _ & Hall).
  exists user, input, plain, t. rewrite Ht. cbn. rewrite (ParseAbilities_valid _ Hall). rewrite <- Ht.
  split_and!; try done; [by apply Hadm|split; [by rewrite Hu0; apply Hi|done]|by rewrite Hu0].
Qed.

(** C31: A new access token does what was asked for and no more.  When the
    handler answers with a token, the request came in a session that was opened
    without an access token; the new row belongs to the user of that session,
    has exactly the abilities asked for, which are known ones, each once, and
    one for administrators only if access control called the user one; the row
    holds the hash of the secret, not the secret.  And in any later state that
    still has the row, its owner and no revocation of the token, a request with
    the token is let in as the owner with that row. *)
Theorem created_token_works_as_asked ctx r s tok s1 : portal_inv s -> pt_room 1 (po_tokens s) ->
  PostToken SHA256 decode_token ctx r s = (Ok (Write StatusOK tok), s1) ->
  exists user input plain t, se_User <$> ctx = Some (Some user) /\ IsTokenSession ctx = false /\
    decode_token (rq_Body r) = Ok input /\
    portal_inv s1 /\ token_rows s !! pa_ID t = None /\ token_rows s1 = <[pa_ID t := t]> (token_rows s) /\ user_rows s1 = user_rows s /\
    pa_TokenableID t = us_ID user /\ pa_Name t = ti_TokenName input /\ pa_Token t = SHA256 plain /\
    pa_Abilities t = Some (abilities_of input) /\
    abilities_of input <> [] /\ NoDup (abilities_of input) /\ (forall a, a ∈ abilities_of input -> a ∈ GetAllAbilities) /\
    ((exists a, a ∈ abilities_of input /\ a ∈ GetAdminAbilities) ->
      exists a, AC_Can (us_ID user) [AbilityNameAdminRolesPermissions] (po_access s) = (Ok true, a)) /\
    forall revocation optional r2 s2 owner, reliable (U := U) (T := T) -> portal_inv s2 -> (pa_ID t < 2 ^ 63)%N ->
      extractToken r2 = tok -> token_rows s2 !! pa_ID t = Some t -> user_rows s2 !! us_ID user = Some owner ->
      (forall x, (ca_now (po_process s2) <= x)%Z -> ~ revoked_at SHA256 revocation (po_process s2) x tok) ->
      exists sid s3, decided SHA256 revocation optional r2 s2 (Entered (session_of sid owner (Some t))) s3.
Proof.
  intros Hi Hroom E.
  destruct (PostToken_run ctx r s tok s1 Hi Hroom E) as (user & input & plain & t & Hctx & _ & Hts & Hdec & Hval & Hadm & Etok & Hsec & Hty & Hown &
    Hname & Habs & Hfresh & Hrows & Hi1 & Husers).
  destruct (tokenInput_valid _ Hval) as (_ & Hne & Hnd & Hall).
  exists user, input, plain, t. split_and!; try done.
  - intros a Ha. rewrite forallb_forall in Hall. specialize (Hall a (proj1 (list_elem_of_In _ _) Ha)).
    unfold ValidateAbility in Hall. apply existsb_exists in Hall as (b & Hb & ->%String.eqb_eq). by apply list_elem_of_In.
  - intros revocation optional r2 s2 owner Hrel Hi2 Hlt Htok Hrow Howner Hrev.
    destruct (authenticate SHA256 revocation optional r2 s2) as [res s3] eqn:Ea.
    assert (Hlt64 : (pa_ID t < two64)%N) by (unfold two64; lia).
    destruct (credential_admitted SHA256 revocation optional r2 s2 owner (Some t) (ca_now (po_process s3) + 1) Hi2 Hrel) as (v & s3' & Hd & Hv);
      [|exact I|by rewrite Htok|].
    + rewrite Htok, Etok. eapply (by_access_token SHA256 _ _ _ (FormatUint (pa_ID t)) plain t owner);
        [by apply detect_access_token|by apply cut_after_digits, FormatUint_digits|by apply Atoi_FormatUint|done..|by rewrite Hown].
    + assert (s3' = s3) as ->; [|destruct Hv as [sid ->]; [lia|by exists sid, s3]].
      rewrite <- (decided_state _ _ _ _ _ _ _ Hd), middleware_obeys. unfold bind. rewrite Ea. by destruct res as [[]|err|w].
Qed.

(** A user deletes his own tokens only.  The handler that deletes a token
    changes no user and at most one row of the token table: the one named in the
    path, and only when it carries the id of the user of the session; and when
    it answers 204 that row is gone. *)
Lemma only_own_tokens_are_deleted ctx r s : portal_inv s ->
  exists res s1, DeleteToken ctx r s = (res, s1) /\ portal_inv s1 /\ po_users s1 = po_users s /\ po_process s1 = po_process s /\
    match res with
    | Ok (WriteHeader code) => code = StatusNoContent /\ exists user id t, se_User <$> ctx = Some (Some user) /\ ReadUint r "id" = Ok id /\
        token_rows s !! id = Some t /\ pa_TokenableID t = us_ID user /\ token_rows s1 = delete id (token_rows s)
    | Ok (WriteError _) => token_rows s1 = token_rows s
    | _ => False
    end.
Proof.
  intros Hi. assert (Hstay : forall e : api_error, exists res s1, (ret (WriteError (B := unit) e) : M S (Response unit)) s = (res, s1) /\ portal_inv s1 /\ po_users s1 = po_users s /\ po_process s1 = po_process s /\
    match res with
    | Ok (WriteHeader code) => code = StatusNoContent /\ exists user id t, se_User <$> ctx = Some (Some user) /\ ReadUint r "id" = Ok id /\
        token_rows s !! id = Some t /\ pa_TokenableID t = us_ID user /\ token_rows s1 = delete id (token_rows s)
    | Ok (WriteError _) => token_rows s1 = token_rows s
    | _ => False
    end) by (intros e; by exists (Ok (WriteError e)), s).
  unfold DeleteToken. destruct ctx as [[sid lg em [user|] tk]|]; [|apply Hstay..].
  destruct (IsAuthenticated _); cbn [negb]; [|apply Hstay].
  destruct (ReadUint r "id") as [id|e|w] eqn:Er; [|apply Hstay|].
  2:{ exfalso. revert Er. unfold ReadUint. destruct (Atoi (rq_Vars r "id")) eqn:Ea; [by destruct (_ <? _)%Z|done|by apply Atoi_nopanic in Ea]. }
  unfold bind at 1, attempt at 1, po_on_tokens at 1, zoom at 1.
  destruct (pat_by_id id None (po_tokens s) (or_introl eq_refl) (proj2 Hi)) as (res & r1 & E & Hi1 & Hrows & _ & Hres). rewrite E.
  set (s1 := mkPortal (po_users s) r1 (po_process s) (po_access s)).
  assert (Hi1' : portal_inv s1) by (by split; [apply Hi|]).
  destruct res as [l|e|w]; [|by eexists _, s1|done]. subst l. destruct (token_rows s !! id) as [t|] eqn:Et; [|by eexists _, s1].
  destruct (N.eqb_spec (pa_TokenableID t) (us_ID user)) as [Hown|]; cbn [negb]; [|by eexists _, s1].
  unfold bind at 1, attempt at 1, po_on_tokens at 1, zoom at 1. cbn [po_tokens po_users po_process po_access s1].
  destruct (PT_Delete id r1) as [res r2] eqn:Ed. destruct (pt_delete_law id r1 res r2 Hi1 Ed) as (Hi2 & _ & Hres).
  exists (match res with Ok _ => Ok (WriteHeader StatusNoContent) | Err e => Ok (WriteError (OtherError (EWrap "failed to delete token" e))) | Panic w => Panic w end),
    (mkPortal (po_users s) r2 (po_process s) (po_access s)).
  destruct res as [|e|w]; [| |done].
  - split_and!; [done|by split; [apply Hi|]|done|done|done|]. exists user, id, t. split_and!; try done. simpl. by rewrite Hres, Hrows.
  - split_and!; [done|by split; [apply Hi|]|done|done|]. simpl. by rewrite Hres.
Qed.
End specs.

(** ** Alice makes and deletes a token *)

Module TokenSample.
Import UsersRepo TokensRepo UserAccess.Sample.
#[local] Existing Instances ticking listed_order plain process process_laws library library_laws tokens_service tokens_service_laws first_is_admin.

Definition wanted (body : string) : result tokenInput := Ok (mkTokenInput body (Some [PATAbilityServerList; PATAbilityServerCreate])).
Definition created := PostToken hash wanted alice_session (request "" "deploy") panel.
Definition new_token : string := match fst created with Ok (Write _ tok) => tok | _ => "" end.

Lemma created_token_works_as_asked_witness :
  fst created = Ok (Write StatusOK new_token) /\
  exists t sid s3, pa_Name t = "deploy"%string /\ pa_Abilities t = Some [PATAbilityServerList; PATAbilityServerCreate] /\
    decided hash CacheRevocation false (request ("Bearer " +:+ new_token) "") (snd created) (Entered (session_of sid alice (Some t))) s3.
Proof.
  assert (E : created = (Ok (Write StatusOK new_token), snd created)) by (vm_compute; reflexivity).
  split; [by rewrite E|].
  destruct (created_token_works_as_asked hash wanted alice_session (request "" "deploy") panel new_token (snd created) panel_inv eq_refl E)
    as (user & input & plain & t & Hctx & _ & Hdec & Hinv & _ & Hrows & Husers & _ & Hname & _ & Habs & _ & _ & _ & _ & Hlater).
  assert (input = mkTokenInput "deploy" (Some [PATAbilityServerList; PATAbilityServerCreate])) as -> by (by injection Hdec).
  assert (user = alice) as -> by (by injection Hctx).
  assert (Hid : (pa_ID t <= 8)%N).
  { destruct (proj2 Hinv (pa_ID t) t) as [_ [_ Hle]]; [change (pt_rows (po_tokens (snd created)) !! pa_ID t = Some t); by rewrite Hrows, lookup_insert_eq|].
    assert (En : pt_nextID (po_tokens (snd created)) = 8%N) by (vm_compute; reflexivity). by rewrite En in Hle. }
  destruct (Hlater CacheRevocation false (request ("Bearer " +:+ new_token) "") (snd created) alice panel_reliable) as (sid & s3 & Hd).
  - done.
  - lia.
  - vm_compute. reflexivity.
  - by rewrite Hrows, lookup_insert_eq.
  - reflexivity.
  - intros x _ [_ [y Hy]]. unfold lookup_at in Hy.
    assert (En : ca_entries (po_process (snd created)) = ∅) by (vm_compute; reflexivity). by rewrite En, lookup_empty in Hy.
  - by exists t, sid, s3.
Defined.

Definition doomed : Request := mkRequest "DELETE" "" "" None (fun _ => "7"%string) "".
End TokenSample.
