(* ===== verification/Headers.v ===== *)
(** The headers of served files ([internal/api/filemanager/filemanagerhttp]):
    which types a browser may show, and the name the file is stored under, with
    the functions of [mime], [net/url] and [unicode/utf8] they use.  Whatever
    bytes a file name has, none of them ends the header. *)

From S2P Require Import Prelude.
From S2P Require Import GoNum.
From S2P Require Import Domain.
From S2P Require Import GoRuntime.
From stdpp Require Import base tactics strings list numbers.
From Stdlib Require Import NArith ZArith Ascii.

(** ** Bytes *)

Definition byte_in (lo hi : N) (c : ascii) : bool := (lo <=? N_of_ascii c)%N && (N_of_ascii c <=? hi)%N.
Definition one_of (s : string) (c : ascii) : bool := has_byte c s.
Fixpoint every (p : ascii -> bool) (s : string) : bool :=
  match s with EmptyString => true | String c s => p c && every p s end.
Definition is_letter_or_digit (c : ascii) : bool := byte_in 48 57 c || byte_in 65 90 c || byte_in 97 122 c.
(** A visible character or a space. *)
Definition printable : ascii -> bool := byte_in 32 126.

(** ** [unicode/utf8]: how many bytes the first character of a text takes; a byte
    that begins none stands for one. *)

Definition continues : ascii -> bool := byte_in 128 191.
Definition rune_length (s : string) : nat :=
  match s with
  | EmptyString => 0
  | String a s =>
      let first := N_of_ascii a in
      (* the second byte's range, and how many continuation bytes follow it *)
      let shape :=
        if byte_in 194 223 a then Some (128, 191, 0)%N
        else if (first =? 224)%N then Some (160, 191, 1)%N
        else if byte_in 225 236 a || byte_in 238 239 a then Some (128, 191, 1)%N
        else if (first =? 237)%N then Some (128, 159, 1)%N
        else if (first =? 240)%N then Some (144, 191, 2)%N
        else if byte_in 241 243 a then Some (128, 191, 2)%N
        else if (first =? 244)%N then Some (128, 143, 2)%N
        else None in
      match shape, s with
      | Some (lo, hi, more), String b s =>
          if byte_in lo hi b then
            match more, s with
            | 0%N, _ => 2
            | 1%N, String c _ => if continues c then 3 else 1
            | 2%N, String c (String d _) => if continues c && continues d then 4 else 1
            | _, _ => 1
            end
          else 1
      | _, _ => 1
      end
  end.

(** ** [net/url] *)

Definition upperhex (n : N) : ascii := if (n <? 10)%N then ascii_of_N (48 + n) else ascii_of_N (55 + n).
(** [shouldEscape] of a path segment *)
Definition shouldEscape (c : ascii) : bool := negb (is_letter_or_digit c || one_of "-_.~$&+=:@" c).
Fixpoint PathEscape (s : string) : string :=
  match s with
  | EmptyString => EmptyString
  | String c s =>
      if shouldEscape c
      then String "%" (String (upperhex (N_of_ascii c / 16)) (String (upperhex (N_of_ascii c mod 16)) (PathEscape s)))
      else String c (PathEscape s)
  end.

Definition unhex (c : ascii) : option N :=
  if byte_in 48 57 c then Some (N_of_ascii c - 48)%N
  else if byte_in 65 70 c then Some (N_of_ascii c - 55)%N
  else if byte_in 97 102 c then Some (N_of_ascii c - 87)%N
  else None.
Fixpoint PathUnescape (s : string) : option string :=
  match s with
  | EmptyString => Some EmptyString
  | String "%" (String a (String b s)) =>
      match unhex a, unhex b, PathUnescape s with
      | Some hi, Some lo, Some t => Some (String (ascii_of_N (hi * 16 + lo)) t)
      | _, _, _ => None
      end
  | String "%" _ => None
  | String c s => String c <$> PathUnescape s
  end.

(** ** [mime] *)

Definition isTSpecial : ascii -> bool := one_of (String (ascii_of_N 34) "()<>@,;:\/[]?=").
Definition isTokenChar (c : ascii) : bool := byte_in 33 126 c && negb (isTSpecial c).
Definition isToken (s : string) : bool := negb (String.eqb s "") && every isTokenChar s.
Definition needsEncoding (s : string) : bool := negb (every (fun c => printable c || Ascii.eqb c (ascii_of_N 9)) s).
Definition quote : ascii := ascii_of_N 34.
(** The characters the percent-encoding of RFC 2231 leaves. *)
Definition attribute_char (c : ascii) : bool := byte_in 33 126 c && negb (one_of "*'%" c) && negb (isTSpecial c).
Fixpoint encode_value (s : string) : string :=
  match s with
  | EmptyString => EmptyString
  | String c s =>
      if attribute_char c then String c (encode_value s)
      else String "%" (String (upperhex (N_of_ascii c / 16)) (String (upperhex (N_of_ascii c mod 16)) (encode_value s)))
  end.
Fixpoint quote_value (s : string) : string :=
  match s with
  | EmptyString => EmptyString
  | String c s => if Ascii.eqb c quote || Ascii.eqb c "\" then String "\" (String c (quote_value s)) else String c (quote_value s)
  end.
Definition format_value (value : string) : string :=
  if needsEncoding value then "*=utf-8''" +:+ encode_value value
  else if isToken value then "=" +:+ value
  else "=" +:+ String quote (quote_value value +:+ String quote EmptyString).
Fixpoint format_params (params : list (string * string)) : option string :=
  match params with
  | [] => Some EmptyString
  | (attribute, value) :: params =>
      if negb (isToken attribute) then None
      else rest ← format_params params; Some ("; " +:+ map_ascii lower_ascii attribute +:+ format_value value +:+ rest)
  end.
(** [mime.FormatMediaType] of a type without a slash; the parameters are given in
    the order of their names, the order they are written in. *)
Definition FormatMediaType (t : string) (params : list (string * string)) : string :=
  if negb (isToken t) then EmptyString
  else match format_params params with Some s => map_ascii lower_ascii t +:+ s | None => EmptyString end.

(** ** The headers *)

Definition inlineSafeMimes : list string :=
  ["image/png"; "image/jpeg"; "image/gif"; "image/webp"; "image/bmp"; "image/x-icon"; "image/vnd.microsoft.icon"; "text/plain"; "application/pdf"]%string.

(** One character at a time; the fuel is the number of bytes. *)
Fixpoint strip_runes (fuel : nat) (s : string) : string :=
  match fuel, s with
  | S fuel, String c _ =>
      let rest := strip_runes fuel (String.substring (rune_length s) (String.length s - rune_length s) s) in
      if printable c && negb (Ascii.eqb c quote) && negb (Ascii.eqb c "\") then String c rest else String "_" rest
  | _, _ => EmptyString
  end.
Definition stripNonASCII (s : string) : string :=
  let out := strip_runes (String.length s) s in
  if String.eqb out "" then "download" else out.

Definition contentDisposition (disposition filename : string) : string :=
  FormatMediaType disposition [("filename", stripNonASCII filename); ("filename*", "UTF-8''" +:+ PathEscape filename)]%string.

Definition inlineMime `{Unicode} (m : string) : string * bool :=
  let m := ToLower (TrimSpace m) in
  let m := match cut_byte ";"%char m with Some (before, _) => TrimSpace before | None => m end in
  (m, existsb (String.eqb m) inlineSafeMimes).
Definition SafeContentHeaders `{Unicode} (filename daemonMime : string) : list (string * string) :=
  let '(bare, ok) := inlineMime daemonMime in
  let '(disposition, contentType) := if ok then ("inline", bare) else ("attachment", "application/octet-stream") in
  [("Content-Type", contentType); ("Content-Disposition", contentDisposition disposition filename);
   ("X-Content-Type-Options", "nosniff"); ("Content-Security-Policy", "sandbox")]%string.

(** What is sent under a name after a series of [Header.Set]: each call replaces
    what was set before, and names do not differ in the case of their letters. *)
Definition same_name (a b : string) : bool := String.eqb (map_ascii lower_ascii a) (map_ascii lower_ascii b).
Fixpoint sent (name : string) (headers : list (string * string)) : option string :=
  match headers with
  | [] => None
  | (k, v) :: headers =>
      match sent name headers with
      | Some w => Some w
      | None => if same_name k name then Some v else None
      end
  end.

(** ** What the headers are *)

Lemma sent_app name l l' : sent name (l ++ l') = match sent name l' with Some w => Some w | None => sent name l end.
Proof. induction l as [|[k v] l IH]; simpl; [by destruct (sent name l')|]. rewrite IH. by destruct (sent name l'). Qed.

Lemma every_app p s t : every p (s +:+ t) = every p s && every p t.
Proof. induction s as [|c s IH]; [done|]. rewrite String_app. simpl. by rewrite IH, andb_assoc. Qed.

Lemma every_imp (p q : ascii -> bool) s : (forall c, p c = true -> q c = true) -> every p s = true -> every q s = true.
Proof. intros Hpq. induction s as [|c s IH]; [done|]. simpl. intros [Hc Hs]%andb_prop. by rewrite Hpq, IH. Qed.

(** A character that means nothing inside a quoted text. *)
Definition inert (c : ascii) : bool := printable c && negb (Ascii.eqb c quote) && negb (Ascii.eqb c "\").

Lemma strip_runes_inert fuel : forall s, every inert (strip_runes fuel s) = true.
Proof.
  induction fuel as [|fuel IH]; intros s; [done|]. destruct s as [|c s]; [done|]. cbn [strip_runes].
  destruct (printable c && negb (Ascii.eqb c quote) && negb (Ascii.eqb c "\")) eqn:Ec; cbn [every]; rewrite IH; [|done].
  unfold inert. by rewrite Ec.
Qed.

Lemma stripNonASCII_inert s : every inert (stripNonASCII s) = true.
Proof. unfold stripNonASCII. destruct (String.eqb _ ""); [done|]. apply strip_runes_inert. Qed.

Lemma PathEscape_inert s : every inert (PathEscape s) = true.
Proof.
  induction s as [|c s IH]; [done|]. cbn [PathEscape]. destruct (shouldEscape c) eqn:E; cbn [every]; rewrite IH;
    clear IH; destruct c as [[] [] [] [] [] [] [] []]; first [reflexivity|discriminate E].
Qed.

Lemma PathUnescape_plain c s : shouldEscape c = false -> PathUnescape (String c s) = String c <$> PathUnescape s.
Proof. destruct c as [[] [] [] [] [] [] [] []]; first [reflexivity|discriminate]. Qed.

Lemma unhex_upperhex c :
  unhex (upperhex (N_of_ascii c / 16)) = Some (N_of_ascii c / 16)%N /\ unhex (upperhex (N_of_ascii c mod 16)) = Some (N_of_ascii c mod 16)%N /\
  ascii_of_N (N_of_ascii c / 16 * 16 + N_of_ascii c mod 16) = c.
Proof. by destruct c as [[] [] [] [] [] [] [] []]. Qed.

(** The escaped name is the name. *)
Lemma PathUnescape_PathEscape s : PathUnescape (PathEscape s) = Some s.
Proof.
  induction s as [|c s IH]; [done|]. cbn [PathEscape]. destruct (shouldEscape c) eqn:E; [|by rewrite PathUnescape_plain, IH].
  destruct (unhex_upperhex c) as (Hhi & Hlo & Hc). cbn [PathUnescape]. by rewrite Hhi, Hlo, IH, Hc.
Qed.

(** A value that a reader of the header takes for [v]: a token, or [v] between
    quotes with nothing in it that ends the quotes. *)
Definition carried (v a : string) : Prop :=
  every inert v = true /\ (isToken v = true /\ a = v \/ a = String quote (v +:+ String quote EmptyString)).

Lemma quote_value_inert v : every inert v = true -> quote_value v = v.
Proof.
  induction v as [|c v IH]; [done|]. simpl. unfold inert at 1. intros [[[_ Hq]%andb_prop Hb]%andb_prop Hv]%andb_prop.
  apply negb_true_iff in Hq, Hb. by rewrite Hq, Hb, (IH Hv).
Qed.

Lemma format_value_inert v : every inert v = true -> exists a, format_value v = "=" +:+ a /\ carried v a.
Proof.
  intros Hv. unfold format_value. assert (needsEncoding v = false) as ->.
  { unfold needsEncoding. apply negb_false_iff. eapply every_imp; [|exact Hv]. intros c. unfold inert. by destruct (printable c). }
  destruct (isToken v) eqn:Et; [exists v; split; [done|]; split; [done|]; by left|].
  rewrite quote_value_inert by done. eexists. split; [done|]. split; [done|]. by right.
Qed.

Lemma carried_printable v a : carried v a -> every printable a = true.
Proof.
  intros [Hv Ha]. assert (Hp : every printable v = true) by (eapply every_imp; [|exact Hv]; intros c; unfold inert; by destruct (printable c)).
  destruct Ha as [[_ ->]| ->]; [done|]. cbn [every]. by rewrite every_app, Hp.
Qed.

Lemma FormatMediaType_two t k1 v1 k2 v2 :
  isToken t = true -> isToken k1 = true -> isToken k2 = true -> every inert v1 = true -> every inert v2 = true ->
  exists a b, FormatMediaType t [(k1, v1); (k2, v2)] =
    map_ascii lower_ascii t +:+ "; " +:+ map_ascii lower_ascii k1 +:+ "=" +:+ a +:+ "; " +:+ map_ascii lower_ascii k2 +:+ "=" +:+ b /\
    carried v1 a /\ carried v2 b.
Proof.
  intros Ht H1 H2 Hv1 Hv2. destruct (format_value_inert v1 Hv1) as (a & Ea & Ha). destruct (format_value_inert v2 Hv2) as (b & Eb & Hb).
  exists a, b. split; [|done]. unfold FormatMediaType. cbn [format_params]. rewrite Ht, H1, H2, Ea, Eb. cbn [negb mbind option_bind].
  assert (Hn : forall s : string, s +:+ "" = s) by (induction s as [|c s IH]; [done|]; rewrite String_app; by rewrite IH). by rewrite Hn.
Qed.

(** C32: Content-Disposition for a stored file: whatever bytes the file is called,
    the header is the disposition with two parameters, each a token or text
    between quotes that holds no quote, backslash or control byte; so a name
    never ends its parameter or the header.  The second one is the name,
    percent-encoded byte for byte, and a reader that decodes it has the name
    back. *)
Theorem file_name_stays_in_its_header disposition filename : disposition ∈ ["inline"; "attachment"]%string ->
  exists a b,
    contentDisposition disposition filename = disposition +:+ "; filename=" +:+ a +:+ "; filename*=" +:+ b /\
    carried (stripNonASCII filename) a /\ carried ("UTF-8''" +:+ PathEscape filename) b /\
    every printable (contentDisposition disposition filename) = true /\
    PathUnescape (PathEscape filename) = Some filename.
Proof.
  intros Hd. assert (Htok : isToken disposition = true /\ map_ascii lower_ascii disposition = disposition /\ every printable disposition = true).
  { repeat (apply list.elem_of_cons in Hd as [->|Hd]; [done|]). by apply list.elem_of_nil in Hd. }
  destruct Htok as (Ht & Hlow & Hdp).
  destruct (FormatMediaType_two disposition "filename" (stripNonASCII filename) "filename*" ("UTF-8''" +:+ PathEscape filename)) as (a & b & E & Ha & Hb);
    [done..|apply stripNonASCII_inert|rewrite every_app; by rewrite PathEscape_inert|].
  exists a, b. assert (Heq : contentDisposition disposition filename = disposition +:+ "; filename=" +:+ a +:+ "; filename*=" +:+ b).
  { unfold contentDisposition. rewrite E, Hlow. done. }
  split_and!; [done|done|done| |apply PathUnescape_PathEscape].
  rewrite Heq, !every_app, Hdp, (carried_printable _ _ Ha), (carried_printable _ _ Hb). done.
Qed.

(** A name with a quote, a line break and a letter beyond ASCII. *)
Definition nasty : string := String quote ("; a" +:+ String (ascii_of_N 13) (String (ascii_of_N 10) (String (ascii_of_N 208) (String (ascii_of_N 182) ".exe")))).
Lemma file_name_stays_in_its_header_witness :
  every printable (contentDisposition "attachment" nasty) = true /\ PathUnescape (PathEscape nasty) = Some nasty /\ stripNonASCII nasty = "_; a___.exe".
Proof.
  destruct (file_name_stays_in_its_header "attachment" nasty) as (a & b & _ & _ & _ & Hp & Hu); [by right; left|].
  split_and!; [exact Hp|exact Hu|reflexivity].
Defined.

(** Only inert types are shown in place, everything else is handed over as a
    file of no particular type; and never guessed at nor run. *)
Lemma SafeContentHeaders_spec `{Unicode} filename mime :
  exists contentType disposition,
    SafeContentHeaders filename mime =
      [("Content-Type", contentType); ("Content-Disposition", contentDisposition disposition filename);
       ("X-Content-Type-Options", "nosniff"); ("Content-Security-Policy", "sandbox")]%string /\
    (disposition = "inline"%string /\ contentType ∈ inlineSafeMimes \/
     disposition = "attachment"%string /\ contentType = "application/octet-stream"%string).
Proof.
  unfold SafeContentHeaders. destruct (inlineMime mime) as [bare ok] eqn:E. destruct ok; eexists _, _; (split; [done|]); [left|by right].
  split; [done|]. unfold inlineMime in E. pose proof (f_equal snd E) as Hex. pose proof (f_equal fst E) as Hb. cbn [fst snd] in Hex, Hb. subst bare. apply existsb_exists in Hex as (x & Hx & ->%String.eqb_eq). by apply list_elem_of_In.
Qed.
