(* ===== verification/FilePath.v ===== *)
(** Paths of the file manager: [path/filepath] of a Unix panel ([Clean],
    [Join], [Base], [Dir], [Ext]) and the checks of
    [internal/api/filemanager/filemanagerpath].  A path is read as the list of
    its parts between slashes; what the checks let through stays below the
    directory it is joined to. *)

From S2P Require Import Prelude.
From S2P Require Import GoRuntime.
From stdpp Require Import base tactics strings list numbers.
From Stdlib Require Import NArith ZArith Ascii.

(** ** Parts *)

Definition slash : ascii := "/"%char.
Definition parts (p : string) : list string := split_byte slash p.
Fixpoint unparts (l : list string) : string :=
  match l with
  | [] => EmptyString
  | [x] => x
  | x :: l => x +:+ "/" +:+ unparts l
  end.

(** The loop of [Clean]: [out] is what is kept so far, last first. *)
Fixpoint resolve (rooted : bool) (out l : list string) : list string :=
  match l with
  | [] => out
  | c :: l =>
      if String.eqb c "" || String.eqb c "." then resolve rooted out l
      else if String.eqb c ".." then
        match out with
        | [] => resolve rooted (if rooted then [] else [c]) l
        | top :: rest => resolve rooted (if String.eqb top ".." then c :: out else rest) l
        end
      else resolve rooted (c :: out) l
  end.

Definition rooted (p : string) : bool := String.prefix "/" p.
(** Where a path leads, from the root or from the working directory. *)
Definition place (p : string) : list string := rev (resolve (rooted p) [] (parts p)).

Definition Clean (p : string) : string :=
  if String.eqb p "" then "."
  else if rooted p then String slash (unparts (place p))
  else match place p with [] => "." | l => unparts l end.

Fixpoint Join (elem : list string) : string :=
  match elem with
  | [] => EmptyString
  | e :: l => if String.eqb e "" then Join l else Clean (unparts (e :: l))
  end.

Definition Base (p : string) : string :=
  if String.eqb p "" then "."
  else match List.filter (fun c => negb (String.eqb c "")) (rev (parts p)) with c :: _ => c | [] => "/" end.

(** Up to and with the last slash. *)
Definition dir_part (p : string) : string :=
  match cut_last slash p with Some (before, _) => before +:+ "/" | None => EmptyString end.
Definition Dir (p : string) : string := Clean (dir_part p).
Definition file_part (p : string) : string := match cut_last slash p with Some (_, after) => after | None => p end.
Definition Ext (p : string) : string :=
  match cut_last "."%char (file_part p) with Some (_, after) => String "."%char after | None => EmptyString end.

(** ** The checks *)

Definition ErrPathContainsTraversal : error := ENew "path contains invalid directory traversal".
Definition ErrPathContainsNullByte : error := ENew "path contains a null byte".
Definition ErrPathContainsBackslash : error := ENew "path contains a backslash".
Definition ErrFilenameEmpty : error := ENew "filename is empty".
Definition ErrFilenameContainsTraversal : error := ENew "filename contains invalid directory traversal".
Definition ErrFilenameContainsPathSeparator : error := ENew "filename contains path separators".

Definition backslash : ascii := "\"%char.
Definition ValidatePath (p : string) : option error :=
  if String.eqb p "" then None
  else if has_byte zero p then Some ErrPathContainsNullByte
  else if has_byte backslash p then Some ErrPathContainsBackslash
  else
    let rel := TrimPrefix p "/" in
    if String.eqb rel "" then None
    else if existsb (String.eqb "..") (parts rel) then Some ErrPathContainsTraversal
    else None.

Definition ValidateFilename (filename : string) : option error :=
  if String.eqb filename "" then Some ErrFilenameEmpty
  else if Contains filename ".." then Some ErrFilenameContainsTraversal
  else if has_byte slash filename || has_byte backslash filename then Some ErrFilenameContainsPathSeparator
  else None.

(** ** Splitting and joining *)

Lemma parts_cons p : exists x l, parts p = x :: l.
Proof.
  unfold parts. destruct p as [|c p]; [by eexists _, _|]. simpl. destruct (Ascii.eqb c slash); [by eexists _, _|].
  destruct (split_byte slash p); by eexists _, _.
Qed.

Lemma parts_slash p q : parts (p +:+ "/" +:+ q) = parts p ++ parts q.
Proof.
  unfold parts. induction p as [|c p IH]; [done|]. rewrite String_app. cbn [split_byte]. rewrite IH.
  destruct (Ascii.eqb c slash); [done|]. destruct (parts_cons p) as (x & l & E). unfold parts in E. by rewrite E.
Qed.

Lemma parts_plain p : has_byte slash p = false -> parts p = [p].
Proof.
  unfold parts, has_byte. induction p as [|c p IH]; intros Hp; [done|]. simpl in *.
  destruct (Ascii.eqb c slash); [done|]. rewrite IH; [done|]. by destruct (cut_byte slash p) as [[]|].
Qed.

Lemma part_plain p x : x ∈ parts p -> has_byte slash x = false.
Proof.
  unfold parts, has_byte. revert x. induction p as [|c p IH]; intros x Hx; simpl in Hx; [by apply list_elem_of_singleton in Hx as ->|].
  destruct (Ascii.eqb_spec c slash) as [->|Hc].
  - apply list.elem_of_cons in Hx as [->|Hx]; [done|by apply IH].
  - destruct (split_byte slash p) as [|y l] eqn:E; [apply list_elem_of_singleton in Hx as ->; simpl; by destruct (Ascii.eqb_spec c slash)|].
    apply list.elem_of_cons in Hx as [->|Hx]; [|apply IH, list.elem_of_cons; by right].
    simpl. destruct (Ascii.eqb_spec c slash); [done|]. specialize (IH y). destruct (cut_byte slash y) as [[]|]; [|done].
    specialize (IH (list_elem_of_here _ _)). done.
Qed.

Lemma parts_unparts l : l <> [] -> (forall x, x ∈ l -> has_byte slash x = false) -> parts (unparts l) = l.
Proof.
  induction l as [|x l IH]; intros Hne Hp; [done|]. destruct l as [|y l].
  - apply parts_plain, Hp. apply list_elem_of_singleton. done.
  - change (unparts (x :: y :: l)) with (x +:+ "/" +:+ unparts (y :: l)). rewrite parts_slash, parts_plain, IH; [done|done| |].
    + intros z Hz. apply Hp, list.elem_of_cons. by right.
    + apply Hp, list.elem_of_cons. by left.
Qed.

Lemma parts_unparts_app l : parts (unparts l) = match l with [] => [""%string] | _ => l ≫= parts end.
Proof.
  induction l as [|x [|y l] IH]; [done|simpl; by rewrite app_nil_r|].
  change (unparts (x :: y :: l)) with (x +:+ "/" +:+ unparts (y :: l)). by rewrite parts_slash, IH.
Qed.

Lemma rooted_cons p q : p <> ""%string -> rooted (p +:+ q) = rooted p.
Proof. destruct p as [|c p]; [done|]. intros _. unfold rooted. rewrite String_app. simpl. by destruct (ascii_dec "/" c), p, q. Qed.

(** ** What [Clean] does *)

(** A part that names something below. *)
Definition names (c : string) : Prop := c <> "" /\ c <> "." /\ c <> "..".

(** No part leads up. *)
Definition no_dotdot (l : list string) : Prop := forall x, x ∈ l -> x <> "..".

Lemma resolve_app b out l1 l2 : resolve b out (l1 ++ l2) = resolve b (resolve b out l1) l2.
Proof. revert out. induction l1 as [|c l1 IH]; intros out; [done|]. simpl. repeat case_match; apply IH. Qed.

Definition down (l : list string) : list string := List.filter (fun c => negb (String.eqb c "" || String.eqb c ".")) l.

(** Parts that do not lead up are stacked. *)
Lemma resolve_down b out l : no_dotdot l -> resolve b out l = rev (down l) ++ out.
Proof.
  revert out. induction l as [|c l IH]; intros out Hl; [done|].
  assert (Hl' : no_dotdot l) by (intros x Hx; apply Hl, list.elem_of_cons; by right). simpl.
  destruct (String.eqb c "" || String.eqb c "."); simpl; [by apply IH|].
  destruct (String.eqb_spec c "..") as [->|]; [by destruct (Hl ".." (list_elem_of_here _ _))|].
  rewrite IH by done. simpl. by rewrite <- app_assoc.
Qed.

Lemma down_names l x : no_dotdot l -> x ∈ down l -> names x.
Proof.
  intros Hl Hx. apply list_elem_of_In, filter_In in Hx as [Hin Hx]. apply negb_true_iff, orb_false_iff in Hx as [H1 H2].
  split_and!; [by apply String.eqb_neq..|]. apply Hl. by apply list_elem_of_In.
Qed.

(** What the loop keeps: names, on top of steps up when there is no root. *)
Inductive settled (b : bool) : list string -> Prop :=
| settled_nil : settled b []
| settled_name c out : names c -> settled b out -> settled b (c :: out)
| settled_up out : b = false -> Forall (eq "..") out -> settled b (".." :: out).

Lemma settled_ups out : Forall (eq "..") out -> settled false out.
Proof. destruct out as [|c out]; [constructor|]. intros Hf. inversion Hf; subst. by constructor. Qed.

Lemma settled_tail b c out : settled b (c :: out) -> settled b out.
Proof. intros Hs. inversion Hs; subst; [done|]. by apply settled_ups. Qed.

Lemma settled_dotdot b out : settled b (".." :: out) -> b = false /\ Forall (eq "..") out.
Proof. intros Hs. inversion Hs as [|c o (_ & _ & Hc) _|]; by subst. Qed.

Lemma resolve_settled b l : forall out, settled b out -> settled b (resolve b out l).
Proof.
  induction l as [|c l IH]; intros out Hout; [done|]. simpl.
  destruct (String.eqb_spec c ""); [by apply IH|]. destruct (String.eqb_spec c "."); [by apply IH|]. simpl.
  destruct (String.eqb_spec c "..") as [->|]; [|by apply IH; constructor].
  destruct out as [|top rest]; apply IH; [destruct b; [constructor|by apply settled_up]|].
  destruct (String.eqb_spec top "..") as [->|]; [|by eapply settled_tail].
  apply settled_dotdot in Hout as [-> Hf]. apply settled_up; [done|]. by apply Forall_cons.
Qed.

(** Resolving what has been resolved changes nothing. *)
Lemma resolve_stable b out : settled b out -> resolve b [] (rev out) = out.
Proof.
  induction out as [|c out IH]; intros Hs; [done|]. simpl. rewrite resolve_app, IH by (by eapply settled_tail). simpl.
  inversion Hs as [|c' o (H1 & H2 & H3) _|o Hb Hf]; subst.
  - by rewrite (proj2 (String.eqb_neq _ _) H1), (proj2 (String.eqb_neq _ _) H2), (proj2 (String.eqb_neq _ _) H3).
  - simpl. destruct out as [|top rest]; [done|]. by inversion Hf; subst.
Qed.

Lemma resolve_plain b l : forall out, (forall x, x ∈ out -> has_byte slash x = false) ->
  (forall x, x ∈ l -> has_byte slash x = false) -> forall x, x ∈ resolve b out l -> has_byte slash x = false.
Proof.
  induction l as [|c l IH]; intros out Hout Hl; [done|]. simpl.
  assert (Hl' : forall x, x ∈ l -> has_byte slash x = false) by (intros x Hx; apply Hl, list.elem_of_cons; by right).
  assert (Hc : has_byte slash c = false) by (apply Hl, list.elem_of_cons; by left).
  assert (Hcons : forall x, x ∈ c :: out -> has_byte slash x = false) by (intros x [->|Hx]%list.elem_of_cons; [done|by apply Hout]).
  destruct (_ || _); [by apply IH|]. destruct (String.eqb c ".."); [|by apply IH].
  destruct out as [|top rest]; apply IH; try done.
  - destruct b; [by intros x Hx%list.elem_of_nil|]. by intros x ->%list_elem_of_singleton.
  - destruct (String.eqb top ".."); [done|]. intros x Hx. apply Hout, list.elem_of_cons. by right.
Qed.

Lemma place_plain p x : x ∈ place p -> has_byte slash x = false.
Proof.
  unfold place. rewrite list_elem_of_In, <- in_rev, <- list_elem_of_In. apply resolve_plain; [by intros y Hy%list.elem_of_nil|apply part_plain].
Qed.

Lemma place_nonempty p x : x ∈ place p -> x <> "".
Proof.
  unfold place. rewrite list_elem_of_In, <- in_rev, <- list_elem_of_In. pose proof (resolve_settled (rooted p) (parts p) [] (settled_nil _)) as Hs.
  induction Hs as [|c out (Hc & _) _ IH|out _ Hf]; intros Hx.
  - by apply list.elem_of_nil in Hx.
  - apply list.elem_of_cons in Hx as [->|Hx]; [done|by apply IH].
  - apply list.elem_of_cons in Hx as [->|Hx]; [done|]. rewrite list.Forall_forall in Hf. by rewrite <- (Hf x Hx).
Qed.

Lemma rooted_head c p : rooted (String c p) = Ascii.eqb c slash.
Proof. by destruct c as [[] [] [] [] [] [] [] []], p. Qed.

Lemma rooted_unparts l : l <> [] -> (forall x, x ∈ l -> x <> "" /\ has_byte slash x = false) -> rooted (unparts l) = false.
Proof.
  destruct l as [|x l]; [done|]. intros _ Hl. destruct (Hl x (list_elem_of_here _ _)) as [Hne Hp].
  assert (Hx : rooted x = false).
  { destruct x as [|c x]; [done|]. rewrite rooted_head. unfold has_byte in Hp. simpl in Hp. by destruct (Ascii.eqb c slash). }
  destruct l; [done|]. change (unparts (x :: s :: l)) with (x +:+ "/" +:+ unparts (s :: l)). by rewrite rooted_cons.
Qed.

(** [Clean] leads to the same place. *)
Lemma place_Clean p : p <> "" -> rooted (Clean p) = rooted p /\ place (Clean p) = place p.
Proof.
  intros Hne. unfold Clean. rewrite (proj2 (String.eqb_neq _ _) Hne).
  pose proof (resolve_settled (rooted p) (parts p) [] (settled_nil _)) as Hs. pose proof (resolve_stable _ _ Hs) as Hst.
  fold (place p) in Hst. pose proof (place_plain p) as Hpl. pose proof (place_nonempty p) as Hn.
  destruct (rooted p) eqn:Er.
  - assert (Hr : rooted (String slash (unparts (place p))) = true) by (by rewrite rooted_head). split; [done|]. unfold place at 1. rewrite Hr.
    change (parts (String slash (unparts (place p)))) with (parts ("" +:+ "/" +:+ unparts (place p))). rewrite parts_slash. simpl.
    destruct (place p) as [|x l] eqn:Ep; [done|]. rewrite parts_unparts; [|done|done]. unfold place in Hst, Ep. rewrite Er in Ep. rewrite Hst.
    exact Ep.
  - destruct (place p) as [|x l] eqn:Ep; [done|].
    assert (Hr : rooted (unparts (x :: l)) = false) by (apply rooted_unparts; [done|]; intros y Hy; split; [by apply Hn|by apply Hpl]).
    split; [done|]. unfold place at 1. rewrite Hr, parts_unparts; [|done|done]. unfold place in Ep. rewrite Er in Ep. rewrite Hst. exact Ep.
Qed.

Lemma Clean_nonempty p : Clean p <> "".
Proof.
  unfold Clean. destruct (String.eqb p ""); [done|]. destruct (rooted p); [done|]. destruct (place p) as [|x l] eqn:E; [done|].
  assert (Hx : x <> "") by (apply (place_nonempty p); rewrite E; apply list_elem_of_here).
  destruct l; [done|]. simpl. by destruct x.
Qed.

(** ** Staying below a directory *)

(** [p] leads to [base] or to something named below it. *)
Definition below (base p : string) : Prop :=
  rooted p = rooted base /\ exists rest, place p = place base ++ rest /\ Forall names rest.

Lemma unparts_nonempty e l : e <> "" -> unparts (e :: l) <> "".
Proof. intros He. destruct l as [|x l]; [done|]. change (unparts (e :: x :: l)) with (e +:+ "/" +:+ unparts (x :: l)). by destruct e. Qed.

Lemma rooted_unparts_head e l : e <> "" -> rooted (unparts (e :: l)) = rooted e.
Proof. intros He. destruct l as [|x l]; [done|]. change (unparts (e :: x :: l)) with (e +:+ "/" +:+ unparts (x :: l)). by rewrite rooted_cons. Qed.

Lemma place_Join e l : e <> "" ->
  rooted (Join (e :: l)) = rooted e /\ place (Join (e :: l)) = rev (resolve (rooted e) [] ((e :: l) ≫= parts)).
Proof.
  intros He. simpl Join. rewrite (proj2 (String.eqb_neq _ _) He).
  destruct (place_Clean (unparts (e :: l)) (unparts_nonempty e l He)) as [Hr Hp]. change (match l with [] => e | _ => e +:+ "/" +:+ unparts l end) with (unparts (e :: l)).
  rewrite Hr, Hp, rooted_unparts_head by done. split; [done|]. unfold place. by rewrite rooted_unparts_head, parts_unparts_app by done.
Qed.

(** Parts joined behind a base lead below it unless one of them leads up. *)
Lemma Join_below w d extra : w <> "" \/ d <> "" -> (forall e, e ∈ extra -> no_dotdot (parts e)) ->
  below (Join [w; d]) (Join (w :: d :: extra)).
Proof.
  intros Hwd Hex.
  assert (Hup : no_dotdot (extra ≫= parts)).
  { intros x Hx. apply list_elem_of_bind in Hx as (e & Hx & He). by apply (Hex e He). }
  assert (Hgo : forall e l, e <> "" -> below (Join (e :: l)) (Join (e :: l ++ extra))).
  { intros e l He. destruct (place_Join e l He) as [Hr Hp]. destruct (place_Join e (l ++ extra) He) as [Hr' Hp'].
    split; [by rewrite Hr, Hr'|]. exists (down (extra ≫= parts)). split.
    - rewrite Hp, Hp', app_comm_cons, bind_app, resolve_app, (resolve_down _ _ (extra ≫= parts)) by done. by rewrite rev_app_distr, rev_involutive.
    - apply list.Forall_forall. intros x Hx. by eapply down_names. }
  destruct (String.eqb_spec w "") as [->|Hw]; [|by apply (Hgo w [d])].
  destruct Hwd as [Hd|Hd]; [done|]. by apply (Hgo d []).
Qed.

Lemma Join_cons_nonempty e l : e <> "" -> Join (e :: l) <> "".
Proof. intros He. simpl Join. rewrite (proj2 (String.eqb_neq _ _) He). apply Clean_nonempty. Qed.
Lemma Join_nonempty w d extra : w <> "" \/ d <> "" -> Join (w :: d :: extra) <> "".
Proof.
  intros Hwd. destruct (String.eqb_spec w "") as [->|Hw]; [|by apply Join_cons_nonempty].
  destruct Hwd as [|Hd]; [done|]. by apply (Join_cons_nonempty d extra).
Qed.

(** One more step down. *)
Lemma below_Join base p e : p <> "" -> below base p -> no_dotdot (parts e) -> Join [p; e] <> "" /\ below base (Join [p; e]).
Proof.
  intros Hp (Hr & rest & Hpl & Hrest) He. split; [by apply Join_cons_nonempty|]. destruct (place_Join p [e] Hp) as [Hr' Hp'].
  split; [by rewrite Hr'|]. exists (rest ++ down (parts e)). split.
  - rewrite Hp'. change ([p; e] ≫= parts) with (parts p ++ (parts e ++ [])). rewrite app_nil_r, resolve_app, (resolve_down _ _ (parts e)) by done.
    rewrite rev_app_distr, rev_involutive, app_assoc, <- Hpl. done.
  - apply Forall_app. split; [done|]. apply list.Forall_forall. intros x Hx. by eapply down_names.
Qed.

Lemma parts_Clean p x : x ∈ parts (Clean p) -> x = "" \/ x = "." \/ x ∈ place p.
Proof.
  unfold Clean. destruct (String.eqb p ""); [intros ->%list_elem_of_singleton; auto|]. destruct (rooted p).
  - change (String slash (unparts (place p))) with ("" +:+ "/" +:+ unparts (place p)). rewrite parts_slash.
    intros [->%list_elem_of_singleton|Hx]%list.elem_of_app; [auto|]. destruct (place p) as [|y l] eqn:E; [apply list_elem_of_singleton in Hx as ->; auto|].
    rewrite parts_unparts in Hx; [auto|done|]. intros z Hz. apply (place_plain p). by rewrite E.
  - destruct (place p) as [|y l] eqn:E; [intros ->%list_elem_of_singleton; auto|]. rewrite parts_unparts; [auto|done|].
    intros z Hz. apply (place_plain p). by rewrite E.
Qed.

Lemma Join_no_dotdot l : (forall e, e ∈ l -> no_dotdot (parts e)) -> no_dotdot (parts (Join l)).
Proof.
  induction l as [|e l IH]; intros Hl; [intros x ->%list_elem_of_singleton; done|].
  destruct (String.eqb_spec e "") as [->|He]; [apply IH; intros y Hy; apply Hl, list.elem_of_cons; by right|].
  assert (Hup : no_dotdot ((e :: l) ≫= parts)).
  { intros x Hx. apply list_elem_of_bind in Hx as (y & Hx & Hy). by apply (Hl y Hy). }
  intros x Hx. destruct (place_Join e l He) as [_ Hp]. simpl in Hx. rewrite (proj2 (String.eqb_neq _ _) He) in Hx.
  change (match l with [] => e | _ => e +:+ "/" +:+ unparts l end) with (unparts (e :: l)) in Hx.
  apply parts_Clean in Hx as [->|[->|Hx]]; [done|done|].
  unfold place in Hx. rewrite rooted_unparts_head, parts_unparts_app, resolve_down, app_nil_r, rev_involutive in Hx by done.
  by apply (down_names _ _ Hup) in Hx as (_ & _ & ?).
Qed.

Lemma ValidatePath_safe p : ValidatePath p = None -> no_dotdot (parts p).
Proof.
  unfold ValidatePath. destruct (String.eqb_spec p "") as [->|Hp]; [intros _ x ->%list_elem_of_singleton; done|].
  destruct (has_byte zero p); [done|]. destruct (has_byte backslash p); [done|]. intros Hv.
  assert (Hrel : no_dotdot (parts (TrimPrefix p "/"))).
  { destruct (String.eqb_spec (TrimPrefix p "/") "") as [->|]; [intros x ->%list_elem_of_singleton; done|].
    destruct (existsb (String.eqb "..") (parts (TrimPrefix p "/"))) eqn:E; [done|]. intros x Hx ->.
    apply not_true_iff_false in E. apply E, existsb_exists. exists "..". split; [by apply list_elem_of_In|done]. }
  destruct (String.prefix "/" p) eqn:Epre; [|by unfold TrimPrefix in Hrel; rewrite Epre in Hrel].
  apply prefix_spec in Epre as [q ->]. unfold TrimPrefix in Hrel. rewrite string_prefix_app, substring_suffix in Hrel.
  change ("/" +:+ q) with ("" +:+ "/" +:+ q). rewrite parts_slash. intros x [->%list_elem_of_singleton|Hx]%list.elem_of_app; [done|by apply Hrel].
Qed.

Lemma ValidateFilename_safe f : ValidateFilename f = None -> parts f = [f] /\ f <> "" /\ f <> "..".
Proof.
  unfold ValidateFilename. destruct (String.eqb_spec f ""); [done|]. destruct (Contains f "..") eqn:Ec; [done|].
  destruct (has_byte slash f) eqn:Es; [done|]. intros _. split_and!; [by apply parts_plain|done|]. by intros ->.
Qed.
Lemma filename_no_dotdot f : ValidateFilename f = None -> no_dotdot (parts f).
Proof. intros (-> & _ & Hf)%ValidateFilename_safe x ->%list_elem_of_singleton. done. Qed.

Lemma Base_no_dotdot p : no_dotdot (parts p) -> no_dotdot (parts (Base p)).
Proof.
  intros Hp. unfold Base. destruct (String.eqb p ""); [intros x ->%list_elem_of_singleton; done|].
  destruct (List.filter _ (rev (parts p))) as [|c l] eqn:E; [intros x Hx; change (parts "/") with ["";""]%string in Hx; apply list.elem_of_cons in Hx as [->|Hx]; [done|]; by apply list_elem_of_singleton in Hx as ->|].
  assert (Hc : c ∈ parts p).
  { apply list_elem_of_In, in_rev. assert (Hin : In c (List.filter (fun c => negb (String.eqb c "")) (rev (parts p)))) by (rewrite E; by left).
    by apply filter_In in Hin as [? _]. }
  rewrite (parts_plain c) by (by eapply part_plain). intros x ->%list_elem_of_singleton. by apply Hp.
Qed.

(** The directory itself passes as a file name. *)
Lemma dot_is_a_filename : ValidateFilename "." = None.
Proof. reflexivity. Qed.
