(* ===== verification/ServerAccess.v ===== *)
(** A user and one game server: which servers a request may name
    ([internal/api/servers/base/serverfinder.go]) and which abilities it needs
    for them ([abilitychecker.go]), the steps every handler for a server starts
    with.  The lookup is used through a contract, which the in-memory server
    table meets. *)

From S2P Require Import Prelude.
From S2P Require Import GoNum.
From S2P Require Import Domain.
From S2P Require Import GoRuntime.
From S2P Require Import Repositories.
From S2P Require Import TaskRepo.
From S2P Require Import ServersRepo.
From S2P Require Import Http.
From S2P Require Import Accounts.
From S2P Require Import UserAuth.
From S2P Require Import RBACRepo.
From S2P Require Import RBAC.
From stdpp Require Import base tactics strings list gmap numbers.
From Stdlib Require Import NArith ZArith Ascii.

(** ** Looking for a server *)

Class FinderRepository (V : Type) : Type := {
  SV_Find : V -> FindServer -> list Sorting -> option Pagination -> result (list Server);
}.

(** One server, of anybody or among those assigned to a user. *)
Definition server_of (i : N) (users : list N) : FindServer := mkFindServer [i] [] users None None [] [] [] [] false.

Class FinderRepositoryLaws (V : Type) `{FinderRepository V} : Type := {
  sf_inv : V -> Prop;
  sf_rows : V -> gmap N Server;
  sf_assigned : V -> N -> gset N;
  sf_find_law : forall v i users, sf_inv v ->
    selects sv_ID (sf_rows v)
      (fun s => bool_decide (sv_ID s = i) && (negb (nonempty users) || existsb (fun u => bool_decide (i ∈ sf_assigned v u)) users))
      only_first (SV_Find v (server_of i users) [] only_first);
}.

(** The in-memory table looks servers up this way. *)
#[export] Instance memServerRepo_finder : FinderRepository memServerRepo := {
  SV_Find r f := Find r (Some f);
}.

#[export, program] Instance memServerRepo_finder_laws : FinderRepositoryLaws memServerRepo := {
  sf_inv := srv_inv; sf_rows := live_rows; sf_assigned r u := idx_get u (userServers r);
}.
Next Obligation.
  intros r i users Hinv. simpl. destruct (Find r (Some (server_of i users)) [] None) as [l|e|w] eqn:E; [|done..].
  destruct (Find_servers r Hinv _ _ E) as [Hsort Hel]. exists l. split_and!.
  - clear -Hsort. induction Hsort as [|a l _ IH Hall]; constructor; [done|]. eapply Forall_impl; [|exact Hall]. simpl. intros b. lia.
  - intros s. rewrite Hel, live_row. unfold server_matches, user_has, server_of. simpl. rewrite !andb_true_r, !andb_true_iff, negb_true_iff.
    assert (Hu : forall b, bool_decide (sv_ID s ∈ [i]) = true -> (match users with [] => true | _ => bool_decide (List.Exists (fun u => sv_ID s ∈ idx_get u (userServers r)) users) end = b <->
      negb (nonempty users) || existsb (fun u => bool_decide (i ∈ idx_get u (userServers r))) users = b)).
    { intros b Hi%bool_decide_eq_true%list_elem_of_singleton. subst i. destruct users as [|u us]; [done|]. cbn [nonempty negb orb].
      match goal with |- ?x = b <-> ?y = b => assert (x = y) as ->; [|done] end. apply eq_bool_prop_intro.
      rewrite !Is_true_true, bool_decide_eq_true, existsb_exists, list.Exists_exists. setoid_rewrite list_elem_of_In.
      split; intros (x & Hx & Hin); exists x; (split; [exact Hx|]); by rewrite bool_decide_eq_true in *. }
    rewrite !bool_decide_eq_true, list_elem_of_singleton. specialize (Hu true). rewrite bool_decide_eq_true, list_elem_of_singleton in Hu. tauto.
  - unfold Find, applyPagination in E. apply Ok_inj in E. subst l. unfold Find. case_match eqn:Ep; [exact Ep|done|exact Ep].
Qed.

(** ** The checks ([internal/domain/rbac.go] for the names) *)

Definition AbilityNameGameServerCommon : string := "game-server-common".
Definition AbilityNameGameServerStart : string := "game-server-start".
Definition AbilityNameGameServerStop : string := "game-server-stop".
Definition AbilityNameGameServerRestart : string := "game-server-restart".
Definition AbilityNameGameServerPause : string := "game-server-pause".
Definition AbilityNameGameServerUpdate : string := "game-server-update".
Definition AbilityNameGameServerFiles : string := "game-server-files".
Definition AbilityNameGameServerTasks : string := "game-server-tasks".
Definition AbilityNameGameServerSettings : string := "game-server-settings".
Definition AbilityNameGameServerConsoleView : string := "game-server-console-view".
Definition AbilityNameGameServerConsoleSend : string := "game-server-console-send".
Definition AbilityNameGameServerRconConsole : string := "game-server-rcon-console".
Definition AbilityNameGameServerRconPlayers : string := "game-server-rcon-players".
Definition AbilityNameGameServerMetrics : string := "game-server-metrics".
Definition ServersAbilities : list string :=
  [AbilityNameGameServerCommon; AbilityNameGameServerStart; AbilityNameGameServerStop; AbilityNameGameServerRestart;
   AbilityNameGameServerPause; AbilityNameGameServerUpdate; AbilityNameGameServerFiles; AbilityNameGameServerTasks;
   AbilityNameGameServerSettings; AbilityNameGameServerConsoleView; AbilityNameGameServerConsoleSend;
   AbilityNameGameServerRconConsole; AbilityNameGameServerRconPlayers; AbilityNameGameServerMetrics].

(** What the handlers for servers share: servers, access control, nodes, and
    the rest of the world. *)
Record Desk (V A R F : Type) : Type := mkDesk { de_servers : V; de_access : A; de_nodes : R; de_world : F }.
Arguments mkDesk {V A R F}.
Arguments de_servers {V A R F}. Arguments de_access {V A R F}. Arguments de_nodes {V A R F}. Arguments de_world {V A R F}.

(** A handler behind the authentication: the session and the request. *)
Definition DeskHandler (V A R F B : Type) : Type := option Session -> Request -> M (Desk V A R F) (Response B).

Section checks.
Context {V A R F : Type} `{FinderRepository V} `{AccessControl A} `{NodeRepository R}.
Abbreviation S := (Desk V A R F).

Definition on_access {B} (x : M A B) : M S B := zoom de_access (fun a s => mkDesk (de_servers s) a (de_nodes s) (de_world s)) x.
Definition on_world {B} (x : M F B) : M S B := zoom de_world (fun f s => mkDesk (de_servers s) (de_access s) (de_nodes s) f) x.

Definition FindUserServer (user : User) (serverID : N) : M S (Server + api_error) :=
  let! isAdmin := attempt (on_access (AC_Can (us_ID user) [AbilityNameAdminRolesPermissions])) in
  match isAdmin with
  | Panic w => lift (Panic w)
  | Err e => ret (inr (OtherError (EWrap "failed to check admin permissions" e)))
  | Ok isAdmin =>
      let filter := server_of serverID (if isAdmin then [] else [us_ID user]) in
      let! s := get in
      match SV_Find (de_servers s) filter [] only_first with
      | Panic w => lift (Panic w)
      | Err e => ret (inr (OtherError (EWrap "failed to find server" e)))
      | Ok [] => ret (inr (NewNotFoundError "server not found"))
      | Ok (server :: _) => ret (inl server)
      end
  end.

(** [AbilityChecker.Check] *)
Definition CheckAbility (userID serverID : N) (abilities : list string) : M S bool :=
  let! isAdmin := wrap "failed to check admin permissions" (on_access (AC_Can userID [AbilityNameAdminRolesPermissions])) in
  if isAdmin then ret true
  else wrap "failed to check ability" (on_access (AC_CanForEntity userID EntityTypeServer serverID abilities)).

Definition CheckOrError (userID serverID : N) (abilities : list string) : M S (option api_error) :=
  let! hasAbility := attempt (CheckAbility userID serverID abilities) in
  match hasAbility with
  | Panic w => lift (Panic w)
  | Err e => ret (Some (OtherError e))
  | Ok true => ret None
  | Ok false => ret (Some (WrapHTTPError (ENew "user does not have required permissions") StatusForbidden))
  end.

(** The handlers' [getNode]. *)
Definition getNode (nodeID : N) : M S (Node + api_error) :=
  let! s := get in
  match ND_Find (de_nodes s) (mkFindNode [nodeID] None None false) [] only_first with
  | Panic w => lift (Panic w)
  | Err e => ret (inr (OtherError (EWrap "failed to find node" e)))
  | Ok [] => ret (inr (NewNotFoundError "node not found"))
  | Ok (node :: _) => ret (inl node)
  end.

(** How a handler for a server starts: the session, the id in the path, the
    server and, for some, the abilities. *)
Definition with_server {B} (var : string) (abilities : option (list string)) (k : User -> Server -> Request -> M S (Response B))
  : DeskHandler V A R F B := fun ctx r =>
  match ctx with
  | Some (mkSession _ _ _ (Some user) _) =>
      if negb (IsAuthenticated ctx) then ret (WriteError (unauthorized (ENew "user not authenticated")))
      else
        match ReadUint r var with
        | Panic w => lift (Panic w)
        | Err e => ret (WriteError (WrapHTTPError (EWrap "invalid server id" e) StatusBadRequest))
        | Ok serverID =>
            let! server := FindUserServer user serverID in
            match server with
            | inr e => ret (WriteError e)
            | inl server =>
                match abilities with
                | None => k user server r
                | Some abilities =>
                    let! denied := CheckOrError (us_ID user) (sv_ID server) abilities in
                    match denied with
                    | Some e => ret (WriteError e)
                    | None => k user server r
                    end
                end
            end
        end
  | _ => ret (WriteError (unauthorized (ENew "user not authenticated")))
  end.
End checks.

(** ** Who may act on a server *)

Section granted.
Context {V A R F : Type} `{FinderRepositoryLaws V} `{AccessControl A} `{NodeRepositoryLaws R}.
Abbreviation S := (Desk V A R F).
Implicit Types s : S.

(** Only what access control remembers has changed. *)
Definition asked s s' : Prop := de_servers s' = de_servers s /\ de_nodes s' = de_nodes s /\ de_world s' = de_world s.
Lemma asked_refl s : asked s s.
Proof. by split_and!. Qed.
Lemma asked_trans s1 s2 s3 : asked s1 s2 -> asked s2 s3 -> asked s1 s3.
Proof. intros (? & ? & ?) (? & ? & ?). split_and!; congruence. Qed.

(** Access control was asked, starting from [a], whether the user is an
    administrator. *)
Definition says_admin (a : A) (u : N) (answer : bool) (a' : A) : Prop := AC_Can u [AbilityNameAdminRolesPermissions] a = (Ok answer, a').

(** A user may act on a server: it is not deleted and access control called him
    an administrator, or it is one of his; and, where abilities are asked for,
    access control called him an administrator or granted him all of them for
    this server. *)
Definition may_act s (user : User) (server : Server) (abilities : option (list string)) : Prop :=
  exists adm a1, says_admin (de_access s) (us_ID user) adm a1 /\
    sf_rows (de_servers s) !! sv_ID server = Some server /\
    (adm = false -> sv_ID server ∈ sf_assigned (de_servers s) (us_ID user)) /\
    match abilities with
    | None => True
    | Some l => exists adm2 a2, says_admin a1 (us_ID user) adm2 a2 /\
        (adm2 = false -> exists a3, AC_CanForEntity (us_ID user) EntityTypeServer (sv_ID server) l a2 = (Ok true, a3))
    end.

Lemma FindUserServer_spec user i s r s' : sf_inv (de_servers s) -> FindUserServer user i s = (r, s') ->
  asked s s' /\
  match r with
  | Ok (inl server) => sv_ID server = i /\ exists adm, says_admin (de_access s) (us_ID user) adm (de_access s') /\
      sf_rows (de_servers s) !! i = Some server /\ (adm = false -> i ∈ sf_assigned (de_servers s) (us_ID user))
  | Ok (inr _) => True
  | Err _ => False
  | Panic w => exists w a, AC_Can (us_ID user) [AbilityNameAdminRolesPermissions] (de_access s) = (Panic w, a)
  end.
Proof.
  intros Hi. unfold FindUserServer, bind, attempt, on_access, zoom, get.
  destruct (AC_Can _ _ (de_access s)) as [[adm|e|w] a] eqn:Ea; [|by intros [= <- <-]|intros [= <- <-]; split; [done|by eexists _, _]].
  cbv zeta. cbn [de_servers]. pose proof (sf_find_law (de_servers s) i (if adm then [] else [us_ID user]) Hi) as Hf. apply selects_first in Hf.
  destruct (SV_Find _ _ [] only_first) as [[|server [|]]|e|w]; [by intros [= <- <-]| |done|by intros [= <- <-]|done].
  destruct Hf as (Hr & Hm & _). apply andb_prop in Hm as [Hid%bool_decide_eq_true Hu]. intros [= <- <-]. split; [done|]. split; [done|].
  exists adm. split_and!; [done|by rewrite <- Hid|]. intros ->. simpl in Hu. rewrite orb_false_r in Hu. by apply bool_decide_eq_true in Hu.
Qed.

Lemma CheckOrError_spec u i abilities s r s' : CheckOrError u i abilities s = (r, s') ->
  asked s s' /\
  match r with
  | Ok None => exists adm a, says_admin (de_access s) u adm a /\
      (adm = false -> exists a', AC_CanForEntity u EntityTypeServer i abilities a = (Ok true, a'))
  | Ok (Some _) => True
  | Err _ => False
  | Panic _ => True
  end.
Proof.
  unfold CheckOrError, CheckAbility, bind, attempt, wrap, on_access, zoom.
  destruct (AC_Can _ _ (de_access s)) as [[[]|e|w] a] eqn:Ea; cbn [wrap_err de_access de_servers de_nodes de_world];
    [intros [= <- <-]; split; [done|]; by exists true, a| |by intros [= <- <-]..].
  destruct (AC_CanForEntity _ _ _ _ a) as [[[]|e|w] a'] eqn:Ec; cbn [wrap_err]; intros [= <- <-]; split; try done.
  exists false, a. split; [done|]. intros _. by exists a'.
Qed.

(** The part of a handler behind the checks runs only for a user who may act. *)
Lemma with_server_spec {B} var abilities (k : User -> Server -> Request -> M S (Response B)) ctx r s :
  sf_inv (de_servers s) ->
  exists s1, asked s s1 /\
    ((exists e, with_server var abilities k ctx r s = (Ok (WriteError e), s1)) \/
     (exists w, with_server var abilities k ctx r s = (Panic w, s1)) \/
     exists user server, with_server var abilities k ctx r s = k user server r s1 /\
       se_User <$> ctx = Some (Some user) /\ ReadUint r var = Ok (sv_ID server) /\ may_act s user server abilities).
Proof.
  intros Hi. unfold with_server. destruct ctx as [[sid lg em [user|] tk]|]; [|exists s; split; [apply asked_refl|]; left; by eexists..].
  destruct (IsAuthenticated _); cbn [negb]; [|exists s; split; [apply asked_refl|]; left; by eexists].
  destruct (ReadUint r var) as [id|e|w] eqn:Er; [|exists s; split; [apply asked_refl|]; left; by eexists|exists s; split; [apply asked_refl|]; right; left; by eexists].
  unfold bind. destruct (FindUserServer user id s) as [res s1] eqn:Ef. destruct (FindUserServer_spec _ _ _ _ _ Hi Ef) as [Hs1 Hres].
  destruct res as [[server|e]|e|w]; [|exists s1; split; [done|]; left; by eexists|done|exists s1; split; [done|]; right; left; by eexists].
  destruct Hres as (<- & adm & Hadm & Hrow & Hass). destruct abilities as [l|].
  - destruct (CheckOrError (us_ID user) (sv_ID server) l s1) as [res s2] eqn:Ec. destruct (CheckOrError_spec _ _ _ _ _ _ Ec) as [Hs2 Hres].
    exists s2. split; [by eapply asked_trans|].
    destruct res as [[e|]|e|w]; [left; by eexists| |done|right; left; by eexists]. right; right. exists user, server. split_and!; [done|done|done|].
    exists adm, (de_access s1). by split_and!.
  - exists s1. split; [done|]. right; right. exists user, server. split_and!; [done|done|done|]. exists adm, (de_access s1). by split_and!.
Qed.

Lemma getNode_spec i s r s' : nr_inv (de_nodes s) -> getNode i s = (r, s') ->
  s' = s /\ match r with
  | Ok (inl node) => nr_rows (de_nodes s) !! i = Some node
  | Ok (inr _) => True
  | _ => False
  end.
Proof.
  intros Hi. unfold getNode, bind, get. pose proof (selects_first _ _ _ _ (nr_find_law (de_nodes s) (mkFindNode [i] None None false) only_first Hi)) as Hf.
  destruct (ND_Find _ _ [] only_first) as [[|node [|]]|e|w]; [by intros [= <- <-]| |done|by intros [= <- <-]|done].
  destruct Hf as (Hr & Hm & _). intros [= <- <-]. split; [done|]. unfold node_matches in Hm.
  apply andb_prop in Hm as [Hm _]. apply andb_prop in Hm as [Hm _]. apply andb_prop in Hm as [Hid _].
  apply bool_decide_eq_true, list_elem_of_singleton in Hid. by rewrite <- Hid.
Qed.
End granted.
