(* ===== verification/UserApi.v ===== *)
(** The accounts of the panel on its HTTP API: creating, changing and deleting
    users, their permissions for a server ([internal/api/users]) and one's own
    profile ([internal/api/profile]). *)

From S2P Require Import Prelude.
From S2P Require Import GoNum.
From S2P Require Import Domain.
From S2P Require Import GoRuntime.
From S2P Require Import Repositories.
From S2P Require Import Cache.
From S2P Require Import TaskRepo.
From S2P Require Import ServersRepo.
From S2P Require Import Http.
From S2P Require Import Accounts.
From S2P Require Import UsersRepo.
From S2P Require Import TokensRepo.
From S2P Require Import AuthTokens.
From S2P Require Import UserAuth.
From S2P Require Import UserAccess.
From S2P Require Import RBACRepo.
From S2P Require Import RBAC.
From S2P Require Import ServerAccess.
From stdpp Require Import base tactics strings list gmap numbers relations.
From Stdlib Require Import NArith ZArith Ascii.

(** ** What the handlers are given *)

Record Office (U T C A V : Type) : Type := mkOffice { of_portal : Portal U T C A; of_servers : V }.
Arguments mkOffice {U T C A V}. Arguments of_portal {U T C A V}. Arguments of_servers {U T C A V}.

(** Which servers are whose. *)
Class AssignmentRepository (V : Type) : Type := {
  SV_SetUserServers : N -> list N -> M V unit;
  SV_Exists : V -> FindServer -> result bool;
}.
Class AssignmentRepositoryLaws (V : Type) `{FinderRepositoryLaws V} `{AssignmentRepository V} : Prop := {
  sv_set_law : forall u ids v res v', sf_inv v -> SV_SetUserServers u ids v = (res, v') ->
    sf_inv v' /\ sf_rows v' = sf_rows v /\
    match res with
    | Ok _ => forall w, sf_assigned v' w = if decide (w = u) then list_to_set ids else sf_assigned v w
    | Err _ => sf_assigned v' = sf_assigned v
    | Panic _ => False
    end;
}.

#[export] Instance memServerRepo_assignments : AssignmentRepository memServerRepo := {
  SV_SetUserServers := SetUserServers; SV_Exists r f := ServersRepo.Exists r (Some f);
}.
#[export] Instance memServerRepo_assignments_laws : AssignmentRepositoryLaws memServerRepo.
Proof.
  split. intros u ids v res v' Hi [= <- <-]. split_and!.
  - by apply (srv_inv_sides v); [..|exact Hi].
  - done.
  - intros w. simpl. unfold idx_get. destruct ids as [|i ids]; destruct (decide (w = u)) as [->|Hw];
      rewrite ?lookup_delete_eq, ?lookup_insert_eq, ?lookup_insert_ne, ?lookup_delete_ne by done; done.
Qed.

(** The roles of a user as the repository has them. *)
Class RolesRepository (A : Type) : Type := { RR_GetRolesForEntity : N -> EntityType -> M A (list RestrictedRole) }.
#[export] Instance rbac_roles {R} `{RBACRepository R} : RolesRepository (RBACState R) := {
  RR_GetRolesForEntity i t := on_repo (RB_GetRolesForEntity i t);
}.

(** [base.TransactionManager]: a database takes back what a failed transaction
    wrote, [services.NilTransactionManager] does not.  What access control
    caches is no part of it. *)
Class TransactionManager (S : Type) : Type := { tm_Do : forall B, M S B -> M S B }.
Arguments tm_Do {S _ B}.
Definition NilTransactionManager {S} : TransactionManager S := {| tm_Do B x := x |}.

Record undone {U T C A V} (s s1 s' : Office U T C A V) : Prop := {
  undone_users : po_users (of_portal s') = po_users (of_portal s);
  undone_tokens : po_tokens (of_portal s') = po_tokens (of_portal s);
  undone_process : po_process (of_portal s') = po_process (of_portal s1);
  undone_servers : of_servers s' = of_servers s;
}.
Definition transactional {U T C A V} (tm : TransactionManager (Office U T C A V)) : Prop :=
  forall B (x : M (Office U T C A V) B) s, tm_Do x s = x s \/
    (is_ok (fst (x s)) = false /\ fst (tm_Do x s) = fst (x s) /\ undone s (snd (x s)) (snd (tm_Do x s))).

(** ** Checking input *)

(** [^[a-zA-Z0-9._%+\-]+@[a-zA-Z0-9.\-]+\.[a-zA-Z]{2,}$] *)
Definition in_range (lo hi c : ascii) : bool := (N_of_ascii lo <=? N_of_ascii c)%N && (N_of_ascii c <=? N_of_ascii hi)%N.
Definition is_letter (c : ascii) : bool := in_range "a" "z" c || in_range "A" "Z" c.
Definition is_host_byte (c : ascii) : bool := is_letter c || in_range "0" "9" c || Ascii.eqb c "." || Ascii.eqb c "-".
Definition is_local_byte (c : ascii) : bool := is_host_byte c || existsb (Ascii.eqb c) ["_"; "%"; "+"]%char.
Fixpoint all_bytes (P : ascii -> bool) (s : string) : bool :=
  match s with EmptyString => true | String c s => P c && all_bytes P s end.
Definition IsEmail (s : string) : bool :=
  match cut_byte "@"%char s with
  | Some (local, domain) =>
      negb (String.eqb local "") && all_bytes is_local_byte local &&
      match cut_last "."%char domain with
      | Some (host, top) => negb (String.eqb host "") && all_bytes is_host_byte host && (2 <=? String.length top) && all_bytes is_letter top
      | None => false
      end
  | None => false
  end.

Definition maxLength : nat := 255.
Definition minPasswordLength : nat := 8.
Definition maxPasswordLength : nat := 64.
Definition ErrLoginRequired : api_error := NewValidationError "login is required".
Definition ErrEmailRequired : api_error := NewValidationError "email is required".
Definition ErrPasswordRequired : api_error := NewValidationError "password is required".
Definition ErrLoginTooLong : api_error := NewValidationError "login must not exceed 255 characters".
Definition ErrEmailTooLong : api_error := NewValidationError "email must not exceed 255 characters".
Definition ErrNameTooLong : api_error := NewValidationError "name must not exceed 255 characters".
Definition ErrPasswordTooShort : api_error := NewValidationError "password must be at least 8 characters long".
Definition ErrPasswordTooLong : api_error := NewValidationError "password must not exceed 64 characters".
Definition ErrInvalidEmail : api_error := NewValidationError "email is not valid".
Definition ErrLoginEmpty : api_error := NewValidationError "login cannot be empty".
Definition ErrEmailEmpty : api_error := NewValidationError "email cannot be empty".
Definition ErrNameEmpty : api_error := NewValidationError "name cannot be empty".
Definition ErrPasswordEmpty : api_error := NewValidationError "password cannot be empty".
Definition ErrCurrentPasswordEmpty : api_error := NewValidationError "current password cannot be empty".

(** [InvalidRoleNameError] is the error with this text. *)
Fixpoint as_InvalidRoleName (e : error) : bool :=
  match e with
  | ENew m => String.prefix "invalid role name: " m
  | EWrap _ c => as_InvalidRoleName c
  | _ => false
  end.

Record createUserInput : Type := mkCreateUser {
  ci_Login : string; ci_Email : string; ci_Password : string; ci_Name : option string; ci_Roles : list string; ci_Servers : list N;
}.
Record updateUserInput : Type := mkUpdateUser {
  ui_Email' : string; ui_Name' : option string; ui_Password : option string; ui_Roles : list string; ui_Servers : list N;
}.
Record updateProfileInput : Type := mkUpdateProfile {
  pi_Name : option string; pi_Password : option string; pi_CurrentPassword : option string;
}.

Section validation.
Context `{Unicode}.

(** The parts the three [Validate] methods share; a value is the trimmed one. *)
Definition validLogin (login : string) : string + api_error :=
  if String.eqb login "" then inr ErrLoginRequired
  else
    let loginValue := TrimSpace login in
    if String.eqb loginValue "" then inr ErrLoginEmpty
    else if maxLength <? String.length loginValue then inr ErrLoginTooLong
    else inl loginValue.
Definition validEmail (email : string) : string + api_error :=
  if String.eqb email "" then inr ErrEmailRequired
  else
    let emailValue := TrimSpace email in
    if String.eqb emailValue "" then inr ErrEmailEmpty
    else if maxLength <? String.length emailValue then inr ErrEmailTooLong
    else if negb (IsEmail emailValue) then inr ErrInvalidEmail
    else inl emailValue.
Definition validName (name : option string) : option string + api_error :=
  match name with
  | None => inl None
  | Some name =>
      let nameValue := TrimSpace name in
      if String.eqb nameValue "" then inr ErrNameEmpty
      else if maxLength <? String.length nameValue then inr ErrNameTooLong
      else inl (Some nameValue)
  end.
Definition validPassword (password : string) : option api_error :=
  if String.length password <? minPasswordLength then Some ErrPasswordTooShort
  else if maxPasswordLength <? String.length password then Some ErrPasswordTooLong
  else None.

Definition create_Validate (input : createUserInput) : createUserInput + api_error :=
  match validLogin (ci_Login input) with
  | inr e => inr e
  | inl login =>
      match validEmail (ci_Email input) with
      | inr e => inr e
      | inl email =>
          if String.eqb (ci_Password input) "" then inr ErrPasswordRequired
          else
            match validPassword (ci_Password input) with
            | Some e => inr e
            | None =>
                match validName (ci_Name input) with
                | inr e => inr e
                | inl name => inl (mkCreateUser login email (ci_Password input) name (ci_Roles input) (ci_Servers input))
                end
            end
      end
  end.

Definition update_Validate (input : updateUserInput) : updateUserInput + api_error :=
  match validEmail (ui_Email' input) with
  | inr e => inr e
  | inl email =>
      match validName (ui_Name' input) with
      | inr e => inr e
      | inl name =>
          let res := inl (mkUpdateUser email name (ui_Password input) (ui_Roles input) (ui_Servers input)) in
          match ui_Password input with
          | Some password => if String.eqb password "" then res else match validPassword password with Some e => inr e | None => res end
          | None => res
          end
      end
  end.

Definition profile_Validate (u : updateProfileInput) : updateProfileInput + api_error :=
  match validName (pi_Name u) with
  | inr e => inr e
  | inl name =>
      let current :=
        match pi_CurrentPassword u with
        | Some "" => inr ErrCurrentPasswordEmpty
        | _ => inl (mkUpdateProfile name (pi_Password u) (pi_CurrentPassword u))
        end%string in
      match pi_Password u with
      | Some password =>
          if String.eqb password "" then inr ErrPasswordEmpty
          else match validPassword password with Some e => inr e | None => current end
      | None => current
      end
  end.
End validation.

(** ** The handlers *)

Record userResponse : Type := mkUserResponse {
  ur_ID : N; ur_Login : string; ur_Email : string; ur_Name : option string; ur_CreatedAt : option time; ur_UpdatedAt : option time;
  ur_Roles : list string;
}.
Definition newUserResponseFromUser (u : User) (roleNames : list string) : userResponse :=
  mkUserResponse (us_ID u) (us_Login u) (us_Email u) (us_Name u) (us_CreatedAt u) (us_UpdatedAt u) roleNames.
Record profileResponse : Type := mkProfileResponse {
  pf_ID : N; pf_Login : string; pf_Email : string; pf_Name : option string; pf_Roles : list string;
}.
Definition newProfileResponseFromUser (u : User) (roles : list RestrictedRole) : profileResponse :=
  mkProfileResponse (us_ID u) (us_Login u) (us_Email u) (us_Name u) (map (fun r => rl_Name (rs_Role r)) roles).

Definition bcryptDefaultCost : N := 10.

Section handlers.
Context {U T C A V : Type} `{UserRepository U} `{Process C} `{AccessControl A} `{RolesRepository A} `{AssignmentRepository V}.
Context `{Unicode} `{Bcrypt} (tm : TransactionManager (Office U T C A V)).
Abbreviation S := (Office U T C A V).
Definition OfficeHandler (B : Type) : Type := option Session -> Request -> M S (Response B).

Definition on_portal {B} (x : M (Portal U T C A) B) : M S B := zoom of_portal (fun p s => mkOffice p (of_servers s)) x.
Definition on_users {B} (x : M U B) : M S B := on_portal (po_on_users x).
Definition on_rbac {B} (x : M A B) : M S B := on_portal (po_on_access x).
Definition on_assignments {B} (x : M V B) : M S B := zoom of_servers (fun v s => mkOffice (of_portal s) v) x.
Definition find_users (f : FindUser) : M S (list User) := on_users (fun u => (US_Find u f [] only_first, u)).

(** What is to be answered, or why not. *)
Definition work (B : Type) : Type := M S (B + api_error).
Definition refuse {B} (e : api_error) : work B := ret (inr e).
Definition call {B D} (msg : string) (x : M S B) (k : B -> work D) : work D :=
  let! r := attempt x in
  match r with
  | Panic w => lift (Panic w)
  | Err e => refuse (OtherError (EWrap msg e))
  | Ok v => k v
  end.
Definition respond {B} (status : Z) (x : work B) : M S (Response B) :=
  let! r := x in match r with inl b => ret (Write status b) | inr e => ret (WriteError e) end.
Definition cause_of (e : api_error) : error := match e with APIError _ m => ENew m | WrapHTTPError c _ => c | OtherError c => c end.
Definition bad_request (msg : string) (e : error) : api_error := WrapHTTPError (EWrap msg e) StatusBadRequest.

(** [auth.HashPassword]; bcrypt draws the salt. *)
Definition HashPassword (password : string) : M S string :=
  let! salt := on_portal (po_on_process (rand_Read 16)) in
  wrap "failed to hash password" (lift (GenerateFromPassword password bcryptDefaultCost salt)).

(** A handler for a signed-in user. *)
Definition signed_in {B} (ctx : option Session) (k : User -> work B) : work B :=
  match ctx with
  | Some (mkSession _ _ _ (Some user) _) => if IsAuthenticated ctx then k user else refuse (WrapHTTPError errUserNotAuthenticated StatusUnauthorized)
  | _ => refuse (WrapHTTPError errUserNotAuthenticated StatusUnauthorized)
  end.
Definition path_uint {B} (r : Request) (key msg : string) (k : N -> work B) : work B :=
  match ReadUint r key with
  | Panic w => lift (Panic w)
  | Err e => refuse (bad_request msg e)
  | Ok i => k i
  end.
(** [json.NewDecoder(r.Body).Decode(&input)], where [input] is a pointer that
    the JSON text [null] makes nil, and [Validate]. *)
Definition decoded_valid {I B} (decode : string -> result (option I)) (Validate : I -> I + api_error) (r : Request) (k : I -> work B) : work B :=
  match decode (rq_Body r) with
  | Panic w => lift (Panic w)
  | Err e => refuse (bad_request "invalid request" e)
  | Ok None => lift (Panic "nil pointer dereference")
  | Ok (Some input) =>
      match Validate input with
      | inr e => refuse (bad_request "invalid input" (cause_of e))
      | inl input => k input
      end
  end.

Definition checkUserExistence {B} (input : createUserInput) (k : work B) : work B :=
  call "failed to check existing user" (find_users (FindUserByLogins [ci_Login input])) (fun existingUsers =>
  match existingUsers with
  | _ :: _ => refuse (WrapHTTPError (ENew "user with this login already exists") StatusConflict)
  | [] =>
      call "failed to check existing user" (find_users (FindUserByEmails [ci_Email input])) (fun existingUsers =>
      match existingUsers with
      | _ :: _ => refuse (WrapHTTPError (ENew "user with this email already exists") StatusConflict)
      | [] => k
      end)
  end).

Definition create_ToDomain (input : createUserInput) : M S User :=
  let! hashedPassword := wrap "failed to hash password" (HashPassword (TrimSpace (ci_Password input))) in
  ret (mkUser 0 (TrimSpace (ci_Login input)) (TrimSpace (ci_Email input)) hashedPassword None (option_map TrimSpace (ci_Name input)) None None).

(** [api.WrapHTTPError] as the error of a transaction. *)
Definition unprocessable (e : error) : error := EWrap "422" e.
Definition http_error (e : error) : api_error :=
  match e with
  | EWrap msg c => if String.eqb msg "422" then WrapHTTPError c StatusUnprocessableEntity else OtherError e
  | _ => OtherError e
  end.

(** The transaction [postusers] and [putuser] run. *)
Definition store_user {B} (user : User) (servers : list N) (roles : list string) (k : User -> work B) : work B :=
  let! stored := attempt (tm_Do (
    let! user := wrap "failed to save user" (on_users (US_Save user)) in
    do! wrap "failed to assign servers to user" (on_assignments (SV_SetUserServers (us_ID user) servers)) ;;
    let! assigned := attempt (on_rbac (AC_SetRolesToUser (us_ID user) roles)) in
    match assigned with
    | Panic w => lift (Panic w)
    | Err e => fail (if as_InvalidRoleName e then unprocessable e else EWrap "failed to assign roles to user" e)
    | Ok _ => ret user
    end)) in
  match stored with
  | Panic w => lift (Panic w)
  | Err e => refuse (http_error e)
  | Ok user => k user
  end.
Definition with_roles (user : User) : work userResponse :=
  call "failed to get user roles" (on_rbac (AC_GetRoles (us_ID user))) (fun roles => ret (inl (newUserResponseFromUser user roles))).

Definition PostUsers (decode : string -> result (option createUserInput)) : OfficeHandler userResponse := fun ctx r =>
  respond StatusCreated (signed_in ctx (fun _ =>
  decoded_valid decode create_Validate r (fun input =>
  checkUserExistence input (
  call "failed to create user domain model" (create_ToDomain input) (fun user =>
  store_user user (ci_Servers input) (ci_Roles input) with_roles))))).

(** [Apply] *)
Definition update_Apply (input : updateUserInput) (user : User) : M S User :=
  let user := us_set_profile (ui_Email' input) (us_Password user) (match ui_Name' input with Some n => Some n | None => us_Name user end) user in
  match ui_Password input with
  | Some password =>
      if String.eqb password "" then ret user
      else
        let! hashedPassword := wrap "failed to hash password" (HashPassword password) in
        ret (us_set_profile (us_Email user) hashedPassword (us_Name user) user)
  | None => ret user
  end.

Definition PutUser (decode : string -> result (option updateUserInput)) : OfficeHandler userResponse := fun ctx r =>
  respond StatusOK (signed_in ctx (fun _ =>
  path_uint r "id" "invalid user id" (fun userID =>
  decoded_valid decode update_Validate r (fun input =>
  call "failed to find user" (find_users (FindUserByIDs [userID])) (fun users =>
  match users with
  | [] => refuse (NewNotFoundError "user not found")
  | user :: _ =>
      call "failed to apply input" (update_Apply input user) (fun user =>
      store_user user (ui_Servers input) (ui_Roles input) with_roles)
  end))))).

Definition DeleteUser : OfficeHandler unit := fun ctx r =>
  let! res := signed_in ctx (fun self =>
    path_uint r "id" "invalid user id" (fun userID =>
    if (userID =? us_ID self)%N then refuse (WrapHTTPError (ENew "cannot delete yourself") StatusBadRequest)
    else
      call "failed to find user" (find_users (FindUserByIDs [userID])) (fun users =>
      match users with
      | [] => refuse (NewNotFoundError "user not found")
      | _ :: _ => call "failed to delete user" (on_users (US_Delete userID)) (fun _ => ret (inl tt))
      end))) in
  match res with inl _ => ret (WriteHeader StatusNoContent) | inr e => ret (WriteError e) end.

Definition GetUser : OfficeHandler userResponse := fun ctx r =>
  respond StatusOK (signed_in ctx (fun _ =>
  path_uint r "id" "invalid user id" (fun userID =>
  call "failed to find user" (find_users (FindUserByIDs [userID])) (fun users =>
  match users with
  | [] => refuse (NewNotFoundError "user not found")
  | user :: _ =>
      call "failed to get user roles" (on_rbac (RR_GetRolesForEntity (us_ID user) EntityTypeUser)) (fun roles =>
      ret (inl (newUserResponseFromUser user (map (fun r => rl_Name (rs_Role r)) roles))))
  end)))).

Definition GetProfile : OfficeHandler profileResponse := fun ctx _ =>
  respond StatusOK (signed_in ctx (fun user =>
  call "failed to get user roles" (on_rbac (RR_GetRolesForEntity (us_ID user) EntityTypeUser)) (fun roles =>
  ret (inl (newProfileResponseFromUser user roles))))).

(** The part of [putprofile] for the password. *)
Definition change_password {B} (input : updateProfileInput) (user : User) (k : User -> work B) : work B :=
  match pi_Password input with
  | None => k user
  | Some password =>
      match pi_CurrentPassword input with
      | None => refuse (WrapHTTPError (ENew "current password is required for password change") StatusBadRequest)
      | Some current =>
          match VerifyPassword (us_Password user) current with
          | Some _ => refuse (WrapHTTPError (ENew "current password is incorrect") StatusBadRequest)
          | None => call "failed to hash password" (HashPassword password) (fun hashedPassword =>
              k (us_set_profile (us_Email user) hashedPassword (us_Name user) user))
          end
      end
  end.

Definition PutProfile (decode : string -> result (option updateProfileInput)) : OfficeHandler string := fun ctx r =>
  match ctx with
  | None => ret (WriteError (WrapHTTPError errUserNotAuthenticated StatusUnauthorized))
  | Some session =>
      respond StatusOK (decoded_valid decode profile_Validate r (fun input =>
      call "failed to find user" (find_users (FindUserByLogins [se_Login session])) (fun users =>
      match users with
      | [] => refuse (NewNotFoundError "user not found")
      | user :: _ =>
          change_password input user (fun user =>
          let user := us_set_profile (us_Email user) (us_Password user) (match pi_Name input with Some n => Some n | None => us_Name user end) user in
          call "failed to update profile" (on_users (US_Save user)) (fun _ =>
          ret (inl "Profile updated successfully"%string)))
      end)))
  end.

(** *** Permissions for a server *)

Record PermissionResponse : Type := mkPermission { pm_Permission : string; pm_Value : bool; pm_DisplayName : string }.
Record ServerAbility : Type := mkServerAbility { sa_PluginID : string; sa_Name : string; sa_Title : string }.
Definition NewPermissionResponse (abilityName : string) (value : bool) : PermissionResponse :=
  mkPermission abilityName value ("users." +:+ abilityName).
Definition NewPluginPermissionResponse (ability : ServerAbility) (value : bool) : PermissionResponse :=
  mkPermission (sa_Name ability) value (if String.eqb (sa_Title ability) "" then sa_Name ability else sa_Title ability).
Record PermissionInput : Type := mkPermissionInput { pe_Permission : string; pe_Value : bool }.


(** The abilities of the server, then those of the plugins. *)
Definition all_abilities (plugins : list ServerAbility) : list (string * (bool -> PermissionResponse)) :=
  map (fun name => (name, NewPermissionResponse name)) ServersAbilities ++
  map (fun ability => (sa_Name ability, NewPluginPermissionResponse ability)) plugins.

Fixpoint permission_values (isAdmin : bool) (userID serverID : N) (l : list (string * (bool -> PermissionResponse))) : M S (list PermissionResponse) :=
  match l with
  | [] => ret []
  | (name, response) :: l =>
      let! can := (if isAdmin then ret true
                   else wrap ("failed to check permission " +:+ name) (on_rbac (AC_CanForEntity userID EntityTypeServer serverID [name]))) in
      let! rest := permission_values isAdmin userID serverID l in
      ret (response can :: rest)
  end.
Definition buildPermissions (plugins : list ServerAbility) (user : User) (serverID : N) : M S (list PermissionResponse) :=
  let! isAdmin := wrap "failed to check admin permission" (on_rbac (AC_Can (us_ID user) [AbilityNameAdminRolesPermissions])) in
  permission_values isAdmin (us_ID user) serverID (all_abilities plugins).

Fixpoint validate_permissions (known : gset string) (idx : N) (l : list PermissionInput) : option error :=
  match l with
  | [] => None
  | perm :: l =>
      if String.eqb (pe_Permission perm) "" then Some (ENew ("permission at index " +:+ FormatUint idx +:+ " cannot be empty"))
      else if negb (bool_decide (pe_Permission perm ∈ known)) then Some (ENew ("invalid permission name: " +:+ pe_Permission perm))
      else validate_permissions known (idx + 1) l
  end.
Definition ValidateWithPluginAbilities (plugins : list ServerAbility) (input : list PermissionInput) : option error :=
  match input with
  | [] => Some (ENew "permissions array cannot be empty")
  | _ => validate_permissions (list_to_set (ServersAbilities ++ map sa_Name plugins)) 0 input
  end.
Definition ToAbilities (input : list PermissionInput) : list string * list string :=
  (map pe_Permission (filter (fun p => pe_Value p = true) input), map pe_Permission (filter (fun p => pe_Value p = false) input)).

Definition updatePermissions (userID serverID : N) (input : list PermissionInput) : M S unit :=
  let '(allow, revoke) := ToAbilities input in
  do! (if nonempty allow then wrap "failed to allow permissions" (on_rbac (AC_AllowUserAbilitiesForEntity userID serverID EntityTypeServer allow)) else ret tt) ;;
  (if nonempty revoke then wrap "failed to revoke permissions" (on_rbac (AC_RevokeOrForbidUserAbilitiesForEntity userID serverID EntityTypeServer revoke)) else ret tt).

(** The user and the server of a path. *)
Definition user_and_server {B} (userID serverID : N) (k : User -> work B) : work B :=
  call "failed to find user" (find_users (FindUserByIDs [userID])) (fun users =>
  match users with
  | [] => refuse (NewNotFoundError "user not found")
  | user :: _ =>
      call "failed to check server existence" (on_assignments (fun v => (SV_Exists v (server_of serverID []), v))) (fun serverExists =>
      if serverExists then k user else refuse (NewNotFoundError "server not found"))
  end).

Definition GetServerPerms (plugins : list ServerAbility) : OfficeHandler (list PermissionResponse) := fun ctx r =>
  respond StatusOK (signed_in ctx (fun _ =>
  path_uint r "id" "invalid user id" (fun userID =>
  path_uint r "server" "invalid server id" (fun serverID =>
  user_and_server userID serverID (fun user =>
  call "failed to build permissions" (buildPermissions plugins user serverID) (fun l => ret (inl l))))))).

Definition PutServerPerms (plugins : list ServerAbility) (decode : string -> result (list PermissionInput)) : OfficeHandler (list PermissionResponse) := fun ctx r =>
  respond StatusOK (signed_in ctx (fun _ =>
  path_uint r "id" "invalid user id" (fun userID =>
  path_uint r "server" "invalid server id" (fun serverID =>
  match decode (rq_Body r) with
  | Panic w => lift (Panic w)
  | Err e => refuse (bad_request "invalid request body" e)
  | Ok input =>
      match ValidateWithPluginAbilities plugins input with
      | Some e => refuse (bad_request "invalid input" e)
      | None =>
          user_and_server userID serverID (fun user =>
          call "failed to update permissions" (updatePermissions userID serverID input) (fun _ =>
          call "failed to build permissions" (buildPermissions plugins user serverID) (fun l => ret (inl l))))
      end
  end)))).
End handlers.

(** ** Logins stay unique *)

Section logins.
Context {U T C A V : Type} `{UserRepositoryLaws U} `{Process C} `{AccessControl A} `{RolesRepository A} `{AssignmentRepository V}.
Context `{Unicode} `{Bcrypt} (tm : TransactionManager (Office U T C A V)).
Abbreviation S := (Office U T C A V).
Implicit Types s : S.
Abbreviation users s := (po_users (of_portal s)).

(** What holds of the users at the end of a run, whatever its result. *)
Section ends.
Context (P : U -> Prop).
Definition ends {B} (x : M S B) s : Prop := wp x (fun _ s' => P (users s')) s.

Lemma ends_ret {B} (b : B) s : P (users s) -> ends (ret b) s.
Proof. intros HP. by apply wp_ret. Qed.
Lemma ends_lift {B} (r : result B) s : P (users s) -> ends (lift r) s.
Proof. intros HP. by apply wp_lift. Qed.
Lemma ends_respond {B} status (x : work B) s : ends x s -> ends (respond status x) s.
Proof.
  unfold respond, ends. intros Hx. wp_step. eapply wp_mono; [exact Hx|]. intros [[b|e]|e|w] s' HP; by try wp_step.
Qed.
Lemma ends_signed_in {B} ctx (k : User -> work B) s : P (users s) -> (forall u, se_User <$> ctx = Some (Some u) -> ends (k u) s) -> ends (signed_in ctx k) s.
Proof.
  intros HP Hk. unfold signed_in. destruct ctx as [[sid lg em [u|] t]|]; [|by apply ends_ret..].
  destruct (IsAuthenticated _); [by apply Hk|by apply ends_ret].
Qed.
Lemma ends_path {B} r key msg (k : N -> work B) s : P (users s) -> (forall i, ends (k i) s) -> ends (path_uint r key msg k) s.
Proof. intros HP Hk. unfold path_uint. destruct (ReadUint r key); [by apply Hk|by apply ends_ret|by apply ends_lift]. Qed.
Lemma ends_decoded {I B} decode Validate r (k : I -> work B) s : P (users s) ->
  (forall input input', decode (rq_Body r) = Ok (Some input) -> Validate input = inl input' -> ends (k input') s) -> ends (decoded_valid decode Validate r k) s.
Proof.
  intros HP Hk. unfold decoded_valid. destruct (decode _) as [[input|]|e|w] eqn:E; [|by apply ends_lift|by apply ends_ret|by apply ends_lift].
  destruct (Validate input) as [input'|e] eqn:Ev; [by apply (Hk input)|by apply ends_ret].
Qed.
Lemma ends_call {B D} msg (x : M S B) (k : B -> work D) s : P (users (snd (x s))) ->
  (forall v, fst (x s) = Ok v -> ends (k v) (snd (x s))) -> ends (call msg x k) s.
Proof.
  intros HP Hk. unfold ends, call. do 2 wp_step. unfold wp at 1. destruct (x s) as [[v|e|w] s']; simpl in *; [by apply Hk|by apply wp_ret|done].
Qed.
Lemma ends_find {B} msg f (k : list User -> work B) s : P (users s) ->
  (forall l, US_Find (users s) f [] only_first = Ok l -> ends (k l) s) -> ends (call msg (find_users f) k) s.
Proof. intros HP Hk. destruct s as [[u t c a] v]. apply ends_call; [done|]. intros l. by apply Hk. Qed.
Lemma ends_quiet {B D} msg (x : M S B) (k : B -> work D) s : users (snd (x s)) = users s -> P (users s) ->
  (forall v s', users s' = users s -> fst (x s) = Ok v -> ends (k v) s') -> ends (call msg x k) s.
Proof. intros Hu HP Hk. apply ends_call; [by rewrite Hu|]. intros v Hv. by apply Hk. Qed.

Lemma ends_store {B} user servers roles (k : User -> work B) s :
  transactional tm -> P (users s) ->
  (forall r u, US_Save user (users s) = (r, u) -> P u) -> (forall v s', P (users s') -> ends (k v) s') -> ends (store_user tm user servers roles k) s.
Proof.
  intros Htm HP Hsave Hk. unfold store_user. match goal with |- context [tm_Do ?y] => set (x := y) end. unfold ends. do 2 wp_step.
  assert (Hx : P (users (snd (x s)))).
  { assert (Hw : wp x (fun _ s' => P (users s')) s); [|exact Hw]. unfold x. wp_step. wp_step. unfold on_users, on_portal, po_on_users. do 2 wp_step.
    unfold wp at 1. destruct (US_Save user (users s)) as [r u] eqn:E. specialize (Hsave r u eq_refl). simpl.
    destruct r as [v|e|w]; cbn [wrap_err]; [|done..]. wp_step. wp_step. unfold on_assignments. wp_step. unfold wp at 1. simpl.
    destruct (SV_SetUserServers _ _ _) as [[[]|e|w] v']; cbn [wrap_err fst snd]; [|done..]. wp_step. wp_step. unfold on_rbac, on_portal, po_on_access. do 2 wp_step.
    unfold wp at 1. destruct (AC_SetRolesToUser _ _ _) as [[[]|e|w] a']; cbn [fst snd]; [by wp_step|by wp_step|done]. }
  assert (Hdo : P (users (snd (tm_Do x s)))).
  { destruct (Htm _ x s) as [->|(_ & _ & Hun)]; [done|]. by rewrite (undone_users _ _ _ Hun). }
  unfold wp at 1. destruct (tm_Do x s) as [[v|e|w] s']; simpl in *; [by apply Hk|by apply wp_ret|done].
Qed.
Lemma ends_roles u s : P (users s) -> ends (with_roles u) s.
Proof.
  intros HP. apply ends_quiet; [|done|intros v s' Hs' _; apply ends_ret; by rewrite Hs'].
  unfold on_rbac, on_portal, po_on_access, zoom. by destruct (AC_GetRoles _ _).
Qed.
End ends.

Lemma hash_quiet p s : users (snd (HashPassword p s)) = users s.
Proof.
  unfold HashPassword, bind, on_portal, po_on_process, zoom. destruct (rand_Read _ _) as [[salt|e|w] c]; simpl; [|done..].
  unfold wrap, lift. by destruct (GenerateFromPassword p bcryptDefaultCost salt).
Qed.

Lemma domain_quiet input s : users (snd (create_ToDomain input s)) = users s.
Proof.
  unfold create_ToDomain, bind, wrap. pose proof (hash_quiet (TrimSpace (ci_Password input)) s) as Hq. by destruct (HashPassword _ s) as [[h|e|w] s'].
Qed.
Lemma ToDomain_row input s u : fst (create_ToDomain input s) = Ok u -> us_ID u = 0%N /\ us_Login u = TrimSpace (ci_Login input).
Proof. unfold create_ToDomain, bind, wrap. destruct (HashPassword _ s) as [[h|e|w] s']; simpl; [by intros [= <-]|done..]. Qed.
Lemma apply_quiet input user s : users (snd (update_Apply input user s)) = users s.
Proof.
  unfold update_Apply. destruct (ui_Password input) as [p|]; [|done]. destruct (String.eqb p ""); [done|]. unfold bind, wrap.
  pose proof (hash_quiet p s) as Hq. by destruct (HashPassword _ s) as [[h|e|w] s'].
Qed.
Lemma Apply_row input user s u : fst (update_Apply input user s) = Ok u -> us_ID u = us_ID user /\ us_Login u = us_Login user.
Proof.
  unfold update_Apply. destruct (ui_Password input) as [p|]; [|by intros [= <-]]. destruct (String.eqb p ""); [by intros [= <-]|]. unfold bind, wrap.
  destruct (HashPassword _ s) as [[h|e|w] s']; simpl; [by intros [= <-]|done..].
Qed.

Lemma trim_right_idem t : trim_right (trim_right t) = trim_right t.
Proof.
  induction t as [|c t IH]; [done|]. simpl. destruct (trim_right t) as [|d t'] eqn:E.
  - destruct (is_space c) eqn:Ec; [done|]. simpl. by rewrite Ec.
  - change (trim_right (String c (String d t'))) with (match trim_right (String d t') with EmptyString => if is_space c then EmptyString else String c EmptyString | s' => String c s' end).
    by rewrite IH.
Qed.
Lemma trim_left_cons t : match trim_left t with String c _ => is_space c = false | EmptyString => True end.
Proof. induction t as [|c t IH]; [done|]. simpl. by destruct (is_space c) eqn:Ec. Qed.
Lemma trim_left_right t : trim_left (trim_right (trim_left t)) = trim_right (trim_left t).
Proof.
  pose proof (trim_left_cons t) as Ht. destruct (trim_left t) as [|c t']; [done|]. simpl. destruct (trim_right t'); rewrite ?Ht; simpl; by rewrite Ht.
Qed.
Lemma trim_ascii t : all_ascii t = true -> all_ascii (trim_right (trim_left t)) = true.
Proof.
  intros Ht. assert (Hl : all_ascii (trim_left t) = true).
  { induction t as [|c t IH]; [done|]. simpl in *. apply andb_true_iff in Ht as [Hc Ht]. destruct (is_space c); [auto|]. simpl. by rewrite Hc, Ht. }
  revert Hl. generalize (trim_left t). clear. induction s as [|c s IH]; [done|]. simpl. intros [Hc Hs]%andb_true_iff. specialize (IH Hs).
  destruct (trim_right s); [destruct (is_space c); simpl; [done|by rewrite Hc]|]. simpl in *. by rewrite Hc.
Qed.
(** Trimming twice is trimming once; beyond ASCII this is what [strings]
    promises. *)
Hypothesis unicode_trimmed : forall t, all_ascii t = false -> TrimSpace (unicode_trim t) = unicode_trim t.
Lemma TrimSpace_idem t : TrimSpace (TrimSpace t) = TrimSpace t.
Proof.
  destruct (all_ascii t) eqn:Ea; [|unfold TrimSpace at 2 3; rewrite Ea; by apply unicode_trimmed].
  unfold TrimSpace. rewrite Ea, trim_ascii by done. by rewrite trim_left_right, trim_right_idem.
Qed.
Lemma create_valid_login input input' : create_Validate input = inl input' -> TrimSpace (ci_Login input') = ci_Login input'.
Proof.
  unfold create_Validate, validLogin. intros E. destruct (String.eqb (ci_Login input) ""); [done|]. destruct (String.eqb (TrimSpace _) ""); [done|].
  destruct (_ <? _); [done|]. destruct (validEmail _); [|done]. destruct (String.eqb (ci_Password input) ""); [done|].
  destruct (validPassword _); [done|]. destruct (validName _); [|done]. injection E as <-. simpl. apply TrimSpace_idem.
Qed.

(** Logins are in normal form, and no two users have the same. *)
Definition logins_ok (u : U) : Prop :=
  us_inv u /\ (forall i v, us_rows u !! i = Some v -> us_norm (us_Login v) = us_Login v) /\
  (forall i j v w, us_rows u !! i = Some v -> us_rows u !! j = Some w -> us_Login v = us_Login w -> i = j).

Hypothesis norm_idem : forall l, us_norm (R := U) (us_norm (R := U) l) = us_norm (R := U) l.

Lemma save_new x u r u' : logins_ok u -> us_room 1 u -> us_ID x = 0%N -> (forall i v, us_rows u !! i = Some v -> us_Login v <> us_norm (us_Login x)) ->
  US_Save x u = (r, u') -> logins_ok u'.
Proof.
  intros (Hi & Hn & Hu) Hroom Hid Hfree E. destruct (us_save_law x u r u' Hi) as (Hi' & _ & Hr); [by rewrite decide_True|done|].
  destruct r as [y|e|w]; [|by split_and!; rewrite ?Hr|done]. destruct Hr as ((c & d & Hy) & Hrows & Hnew). rewrite decide_True in Hnew by done.
  assert (Hl : us_Login y = us_norm (us_Login x)) by (by rewrite Hy). split_and!; [done|..]; rewrite Hrows.
  - intros i v [[_ <-]|[_ Hv]]%lookup_insert_Some; [by rewrite Hl|by eapply Hn].
  - intros i j v w [[<- <-]|[Hne Hv]]%lookup_insert_Some [[<- <-]|[Hne' Hw]]%lookup_insert_Some E2; [done|..|by eapply Hu].
    + rewrite Hl in E2. by destruct (Hfree j w Hw).
    + rewrite Hl in E2. by destruct (Hfree i v Hv).
Qed.
Lemma save_same x old u r u' : logins_ok u -> us_rows u !! us_ID x = Some old -> us_Login x = us_Login old -> US_Save x u = (r, u') -> logins_ok u'.
Proof.
  intros (Hi & Hn & Hu) Hold Hlog E. destruct (us_rows_id u _ _ Hi Hold) as [_ Hnz].
  destruct (us_save_law x u r u' Hi) as (Hi' & _ & Hr); [rewrite decide_False by done; by eexists|done|].
  destruct r as [y|e|w]; [|by split_and!; rewrite ?Hr|done]. destruct Hr as ((c & d & Hy) & Hrows & Hsame). rewrite decide_False in Hsame by done.
  assert (Hl : us_Login y = us_Login old) by (rewrite Hy; simpl; rewrite Hlog; by eapply Hn). split_and!; [done|..]; rewrite Hrows, Hsame.
  - intros i v [[_ <-]|[_ Hv]]%lookup_insert_Some; [rewrite Hl|]; by eapply Hn.
  - intros i j v w [[<- <-]|[Hne Hv]]%lookup_insert_Some [[<- <-]|[Hne' Hw]]%lookup_insert_Some E2; [done|..|by eapply Hu].
    + rewrite Hl in E2. by apply (Hu _ _ old w).
    + rewrite Hl in E2. by apply (Hu _ _ v old).
Qed.
Lemma delete_ok i u r u' : logins_ok u -> US_Delete i u = (r, u') -> logins_ok u'.
Proof.
  intros (Hi & Hn & Hu) E. destruct (us_delete_law i u r u' Hi E) as (Hi' & _ & Hr). destruct r as [[]|e|w]; [|by split_and!; rewrite ?Hr|done].
  split_and!; [done|..]; rewrite Hr.
  - intros j v [_ Hv]%lookup_delete_Some. by eapply Hn.
  - intros j k v w [_ Hv]%lookup_delete_Some [_ Hw]%lookup_delete_Some. by apply Hu.
Qed.

(** Nobody has a login that was not found. *)
Lemma not_found u l : us_inv u -> US_Find u (FindUserByLogins [l]) [] only_first = Ok [] -> forall i v, us_rows u !! i = Some v -> us_Login v <> us_norm l.
Proof.
  intros Hi E i v Hv Hl. pose proof (selects_first _ _ _ _ (us_find_law u (FindUserByLogins [l]) only_first Hi)) as Hf. rewrite E in Hf.
  specialize (Hf i v). destruct (us_rows_id u i v Hi Hv) as [<- _]. specialize (Hf Hv eq_refl). cbn [FindUserByLogins fu_IDs fu_Logins fu_Emails map] in Hf. by rewrite (proj2 (matches_login (us_norm l) v) Hl) in Hf.
Qed.
(** Whoever is found has a row. *)
Lemma found_row (u : U) f x l : us_inv u -> US_Find u f [] only_first = Ok (x :: l) -> us_rows u !! us_ID x = Some x /\ user_matches (mkFindUser (fu_IDs f) (map us_norm (fu_Logins f)) (fu_Emails f)) x = true.
Proof.
  intros Hi E. pose proof (selects_first _ _ _ _ (us_find_law u f only_first Hi)) as Hf. rewrite E in Hf. destruct l; [|done]. by destruct Hf as (? & ? & _).
Qed.

Lemma PostUsers_keeps decode ctx r s : transactional tm -> us_room 1 (users s) -> logins_ok (users s) ->
  ends logins_ok (PostUsers tm decode ctx r) s.
Proof.
  intros Htm Hroom HP. apply ends_respond, ends_signed_in; [done|]. intros _ _. apply ends_decoded; [done|]. intros input0 input _ Hval.
  apply ends_find; [done|]. intros [|] Hl; [|by apply ends_ret]. apply ends_find; [done|]. intros [|] _; [|by apply ends_ret].
  apply ends_quiet; [apply domain_quiet|done|]. intros user s1 Hs1 Hd. apply ends_store; [done|by rewrite Hs1| |intros v s2; apply ends_roles].
  intros res u. rewrite Hs1. destruct (ToDomain_row _ _ _ Hd) as [Hid Hlog]. apply save_new; [done..|].
  rewrite Hlog, (create_valid_login _ _ Hval). by apply not_found; [apply HP|].
Qed.
Lemma PutUser_keeps decode ctx r s : transactional tm -> logins_ok (users s) -> ends logins_ok (PutUser tm decode ctx r) s.
Proof.
  intros Htm HP. apply ends_respond, ends_signed_in; [done|]. intros _ _. apply ends_path; [done|]. intros i. apply ends_decoded; [done|]. intros _ input _ _.
  apply ends_find; [done|]. intros [|old l] Hl; [by apply ends_ret|]. apply found_row in Hl as [Hrow _]; [|apply HP].
  apply ends_quiet; [apply apply_quiet|done|]. intros user s1 Hs1 Hd. apply ends_store; [done|by rewrite Hs1| |intros v s2; apply ends_roles].
  intros res u. rewrite Hs1. destruct (Apply_row _ _ _ _ Hd) as [Hid Hlog]. apply (save_same user old); [done| |done]. by rewrite Hid.
Qed.
Lemma DeleteUser_keeps ctx r s : logins_ok (users s) -> ends logins_ok (DeleteUser ctx r) s.
Proof.
  intros HP. unfold DeleteUser, ends. wp_step. match goal with |- wp ?x _ _ => assert (Hx : ends logins_ok x s) end.
  { apply ends_signed_in; [done|]. intros self _. apply ends_path; [done|]. intros i. destruct (_ =? _)%N; [by apply ends_ret|].
    apply ends_find; [done|]. intros [|old l] _; [by apply ends_ret|]. destruct s as [[u t c a] v].
    assert (Hd : logins_ok (snd (US_Delete i u))) by (destruct (US_Delete i u) eqn:E; by eapply delete_ok).
    apply ends_call; [|intros [] _; apply ends_ret]; unfold on_users, on_portal, po_on_users, zoom; simpl in *; by destruct (US_Delete i u). }
  unfold ends in Hx. eapply wp_mono; [exact Hx|]. intros [[[]|e]|e|w] s' Hs'; by try wp_step.
Qed.
Lemma PutProfile_keeps decode ctx r s : logins_ok (users s) -> ends logins_ok (PutProfile decode ctx r) s.
Proof.
  intros HP. unfold PutProfile. destruct ctx as [session|]; [|by apply ends_ret]. apply ends_respond, ends_decoded; [done|]. intros _ input _ _.
  apply ends_find; [done|]. intros [|old l] Hl; [by apply ends_ret|]. apply found_row in Hl as [Hrow _]; [|apply HP].
  assert (Hsave : forall user s1, users s1 = users s -> us_ID user = us_ID old -> us_Login user = us_Login old ->
    ends logins_ok (call "failed to update profile" (on_users (US_Save user)) (fun _ => ret (inl "Profile updated successfully"%string))) s1).
  { intros user [[u t c a] v] Hs1 Hid Hlog. simpl in Hs1. subst u.
    assert (Hd : logins_ok (snd (US_Save user (users s)))) by (destruct (US_Save user (users s)) eqn:E; eapply (save_same user old); [exact HP|by rewrite Hid|done|done]).
    apply ends_call; [|intros y _; apply ends_ret]; unfold on_users, on_portal, po_on_users, zoom; simpl in *; by destruct (US_Save user _). }
  unfold change_password. destruct (pi_Password input) as [password|]; [|by apply Hsave].
  destruct (pi_CurrentPassword input) as [current|]; [|by apply ends_ret]. destruct (VerifyPassword _ _); [by apply ends_ret|].
  apply ends_quiet; [apply hash_quiet|done|]. intros h s1 Hs1 _. by apply Hsave.
Qed.

(** Requests to the handlers that change users, one at a time, each with
    whatever session and whatever comes of it; other users of the panel change
    anything but the users. *)
Inductive account_step : S -> S -> Prop :=
| as_post decode ctx r s : us_room 1 (users s) -> account_step s (snd (PostUsers tm decode ctx r s))
| as_put decode ctx r s : account_step s (snd (PutUser tm decode ctx r s))
| as_delete ctx r s : account_step s (snd (DeleteUser ctx r s))
| as_profile decode ctx r s : account_step s (snd (PutProfile decode ctx r s))
| as_others s s' : users s' = users s -> account_step s s'.

(** C35: Whatever requests to create, change and delete users and profiles are
    answered, one after the other, with whatever sessions, inputs and failures
    of the stores, the users stay well formed and no two of them have logins
    that are looked up as one. *)
Theorem logins_stay_unique s s' : transactional tm -> logins_ok (users s) -> rtc account_step s s' -> logins_ok (users s').
Proof.
  intros Htm HP Hrun. induction Hrun as [|s1 s2 s3 Hst _ IH]; [done|]. apply IH. clear IH. destruct Hst as [d ctx r s Hr|d ctx r s|ctx r s|d ctx r s|s s' ->]; [..|done].
  - by apply PostUsers_keeps.
  - by apply PutUser_keeps.
  - by apply DeleteUser_keeps.
  - by apply PutProfile_keeps.
Qed.
End logins.

(** ** A new account and a changed password *)

Section accounts.
Context {U T C A V : Type} `{UserRepositoryLaws U} `{PersonalAccessTokenRepositoryLaws T} `{CacheLaws C} `{!CacheTotal C}.
Context `{!Process C} `{!ProcessLaws C} `{!AuthService C} `{!AuthServiceLaws C} `{AccessControl A} `{RolesRepository A} `{AssignmentRepositoryLaws V}.
Context `{Unicode} `{Bcrypt} (tm : TransactionManager (Office U T C A V)).
Abbreviation S := (Office U T C A V).
Implicit Types s : S.
Abbreviation users s := (po_users (of_portal s)).
Abbreviation rows s := (us_rows (po_users (of_portal s))).

(** What a run that does what was asked has done. *)
Definition yields {B} (Q : B -> S -> Prop) (x : work B) s : Prop :=
  wp x (fun r s' => match r with Ok (inl b) => Q b s' | _ => True end) s.

Lemma yields_signed_in {B} Q ctx (k : User -> work B) s :
  (forall u, se_User <$> ctx = Some (Some u) -> IsAuthenticated ctx = true -> yields Q (k u) s) -> yields Q (signed_in ctx k) s.
Proof.
  intros Hk. unfold signed_in. destruct ctx as [[sid lg em [u|] t]|]; [|by apply wp_ret..]. destruct (IsAuthenticated _) eqn:E; [by apply Hk|by apply wp_ret].
Qed.
Lemma yields_decoded {I B} Q decode Validate r (k : I -> work B) s :
  (forall input input', decode (rq_Body r) = Ok (Some input) -> Validate input = inl input' -> yields Q (k input') s) -> yields Q (decoded_valid decode Validate r k) s.
Proof.
  intros Hk. unfold decoded_valid. destruct (decode _) as [[input|]|e|w] eqn:E; [|by apply wp_lift|by apply wp_ret|by apply wp_lift].
  destruct (Validate input) as [input'|e] eqn:Ev; [by apply (Hk input)|by apply wp_ret].
Qed.
Lemma yields_call {B D} Q msg (x : M S B) (k : B -> work D) s :
  (forall v s', x s = (Ok v, s') -> yields Q (k v) s') -> yields Q (call msg x k) s.
Proof.
  intros Hk. unfold yields, call. do 2 wp_step. unfold wp at 1. destruct (x s) as [[v|e|w] s'] eqn:E; simpl; [by apply Hk|by apply wp_ret|done].
Qed.
Lemma yields_find {B} Q msg f (k : list User -> work B) s :
  (forall l, US_Find (users s) f [] only_first = Ok l -> yields Q (k l) s) -> yields Q (call msg (find_users f) k) s.
Proof. intros Hk. destruct s as [[u t c a] v]. apply yields_call. intros l s' [= Hl <-]. by apply Hk. Qed.

(** The transaction, when it is carried out. *)
Lemma yields_store {B} Q user servers roles (k : User -> work B) s : transactional tm ->
  (forall u s', fst (US_Save user (users s)) = Ok u -> users s' = snd (US_Save user (users s)) -> po_tokens (of_portal s') = po_tokens (of_portal s) ->
    fst (SV_SetUserServers (us_ID u) servers (of_servers s)) = Ok tt -> of_servers s' = snd (SV_SetUserServers (us_ID u) servers (of_servers s)) ->
    yields Q (k u) s') -> yields Q (store_user tm user servers roles k) s.
Proof.
  intros Htm Hk. unfold store_user. match goal with |- context [tm_Do ?y] => set (x := y) end. unfold yields. do 2 wp_step.
  unfold wp at 1. destruct (tm_Do x s) as [[u|e|w] s'] eqn:E; [|by apply wp_ret|done]. cbn [fst snd].
  assert (Ex : x s = (Ok u, s')).
  { destruct (Htm _ x s) as [<-|(Hno & Hsame & _)]; [done|]. rewrite E in Hsame. cbn [fst] in Hsame. by rewrite <- Hsame in Hno. }
  clear E. unfold x, bind at 1, wrap at 1, on_users, on_portal, po_on_users, zoom in Ex. cbn [of_portal po_users] in Ex.
  destruct (US_Save user (users s)) as [[v|e|w] us] eqn:Es; cbn [wrap_err] in Ex; [|done..].
  unfold bind at 1, wrap at 1, on_assignments, zoom in Ex. cbn [of_portal of_servers] in Ex.
  destruct (SV_SetUserServers (us_ID v) servers (of_servers s)) as [[[]|e|w] vs] eqn:Ev; cbn [wrap_err] in Ex; [|done..].
  unfold bind, attempt, on_rbac, on_portal, po_on_access, zoom in Ex. cbn [of_portal of_servers po_access] in Ex.
  destruct (AC_SetRolesToUser _ _ _) as [[[]|e|w] a]; [|done..]. injection Ex as <- <-. apply Hk; simpl; by rewrite ?Ev.
Qed.

Lemma yields_roles Q u s : (forall b a, ur_ID b = us_ID u -> Q b (mkOffice (mkPortal (users s) (po_tokens (of_portal s)) (po_process (of_portal s)) a) (of_servers s))) ->
  yields Q (with_roles u) s.
Proof.
  intros HQ. apply yields_call. intros l s' E. apply wp_ret. revert E. unfold on_rbac, on_portal, po_on_access, zoom.
  destruct (AC_GetRoles _ _) as [r a]. intros [= _ <-]. by apply HQ.
Qed.

(** The row of a new user. *)
Definition new_row (input : createUserInput) (h : string) (u : User) : Prop :=
  us_Login u = us_norm (R := U) (TrimSpace (ci_Login input)) /\ us_Email u = TrimSpace (ci_Email input) /\
  us_Name u = option_map TrimSpace (ci_Name input) /\ us_Password u = h.

Definition user_created (decode : string -> result (option createUserInput)) ctx r s (body : userResponse) s1 : Prop :=
  exists input0 input salt h u, decode (rq_Body r) = Ok (Some input0) /\ create_Validate input0 = inl input /\ IsAuthenticated ctx = true /\
    GenerateFromPassword (TrimSpace (ci_Password input)) bcryptDefaultCost salt = Ok h /\ new_row input h u /\
    (forall i v, rows s !! i = Some v -> us_Login v <> us_norm (ci_Login input) /\ us_Email v <> ci_Email input) /\
    rows s !! us_ID u = None /\ rows s1 = <[us_ID u := u]> (rows s) /\ portal_inv (of_portal s1) /\ ur_ID body = us_ID u /\
    forall w, sf_assigned (of_servers s1) w = if decide (w = us_ID u) then list_to_set (ci_Servers input) else sf_assigned (of_servers s) w.

Lemma PostUsers_run decode ctx r s body s1 : transactional tm -> portal_inv (of_portal s) -> us_room 1 (users s) -> sf_inv (of_servers s) ->
  PostUsers tm decode ctx r s = (Ok (Write StatusCreated body), s1) -> user_created decode ctx r s body s1.
Proof.
  intros Htm [Hi Ht] Hroom Hsv.
  enough (Hy : yields (user_created decode ctx r s) (signed_in ctx (fun _ => decoded_valid decode create_Validate r (fun input =>
    checkUserExistence input (call "failed to create user domain model" (create_ToDomain input) (fun user =>
    store_user tm user (ci_Servers input) (ci_Roles input) with_roles))))) s).
  { intros E. unfold PostUsers, respond, bind in E. unfold yields, wp in Hy.
    destruct (signed_in _ _ s) as [[[b|e]|e|w] s']; [|done..]. injection E as <- <-. exact Hy. }
  apply yields_signed_in. intros self _ Hauth. apply yields_decoded. intros input0 input Hdec Hval.
  apply yields_find. intros [|] Hl; [|by apply wp_ret]. apply yields_find. intros [|] He; [|by apply wp_ret].
  apply yields_call. intros user s2 Ed. pose proof (domain_quiet input s) as Hq. rewrite Ed in Hq. simpl in Hq.
  assert (Hdom : exists salt h, GenerateFromPassword (TrimSpace (ci_Password input)) bcryptDefaultCost salt = Ok h /\
    user = mkUser 0 (TrimSpace (ci_Login input)) (TrimSpace (ci_Email input)) h None (option_map TrimSpace (ci_Name input)) None None /\
    po_tokens (of_portal s2) = po_tokens (of_portal s) /\ of_servers s2 = of_servers s).
  { clear -Ed. unfold create_ToDomain, HashPassword, bind, wrap, on_portal, po_on_process, zoom, lift in Ed. destruct (rand_Read _ _) as [[salt|e|w] c]; [|done..].
    destruct (GenerateFromPassword _ _ salt) as [h|e|w] eqn:Eh; [|done..]. injection Ed as <- <-. by exists salt, h. }
  destruct Hdom as (salt & h & Hh & -> & Htk & Hs2). apply yields_store; [done|]. intros u s3 Hu Hus Htk3 Hset Hsv3. rewrite Hq in *.
  destruct (US_Save _ (users s)) as [res us] eqn:Es. simpl in Hu, Hus. subst res.
  apply us_save_law in Es as (Hi' & _ & (cr & up & Hrow) & Hrows & Hnew); [|done|by rewrite decide_True]. rewrite decide_True in Hnew by done.
  rewrite Hs2 in *. destruct (SV_SetUserServers _ _ _) as [res vs] eqn:Ev. simpl in Hset, Hsv3. subst res.
  destruct (sv_set_law _ _ _ _ _ Hsv Ev) as (_ & _ & Hass).
  apply yields_roles. intros b a Hb. exists input0, input, salt, h, u. simpl. rewrite Hus, Hsv3. split_and!; try done.
  - rewrite Hrow. by split_and!.
  - intros i v Hv. split; [by apply (not_found (users s) (ci_Login input) Hi Hl i)|]. intros Hem.
    pose proof (selects_first _ _ _ _ (us_find_law (users s) (FindUserByEmails [ci_Email input]) only_first Hi)) as Hf. rewrite He in Hf.
    specialize (Hf i v Hv (proj1 (us_rows_id _ _ _ Hi Hv))). cbn [FindUserByEmails fu_IDs fu_Logins fu_Emails map] in Hf.
    by rewrite (proj2 (matches_email (ci_Email input) v) Hem) in Hf.
  - split; [done|]. rewrite Htk3, Htk. exact Ht.
Qed.

(** bcrypt knows what it hashed. *)
Definition bcrypt_law : Prop := forall p cost salt h, GenerateFromPassword p cost salt = Ok h -> CompareHashAndPassword h p = None.
Hypothesis unicode_trimmed : forall t, all_ascii t = false -> TrimSpace (unicode_trim t) = unicode_trim t.

(** C36: A new account is what was asked for, and its owner can log in.  When
    the handler answers 201 there is one new row, with the login and the address
    given, which nobody had, and the servers asked for are his; and as long as
    the users stay as they are, a login with that name, however it is written,
    and the password without the spaces around it is answered with a token for
    the new account, unless the service fails to make one. *)
Theorem created_user_can_log_in decode decode_login ctx r s body s1 : transactional tm -> bcrypt_law ->
  portal_inv (of_portal s) -> us_room 1 (users s) -> sf_inv (of_servers s) -> reliable (U := U) (T := T) ->
  PostUsers tm decode ctx r s = (Ok (Write StatusCreated body), s1) ->
  exists input0 input u, decode (rq_Body r) = Ok (Some input0) /\ create_Validate input0 = inl input /\
    us_Login u = us_norm (ci_Login input) /\ us_Email u = TrimSpace (ci_Email input) /\ ur_ID body = us_ID u /\
    rows s1 = <[us_ID u := u]> (rows s) /\ (forall i v, rows s !! i = Some v -> i <> us_ID u /\ us_Login v <> us_Login u /\ us_Email v <> ci_Email input) /\
    (forall w, sf_assigned (of_servers s1) w = if decide (w = us_ID u) then list_to_set (ci_Servers input) else sf_assigned (of_servers s) w) /\
    forall ctx2 r2 (s2 : Portal U T C A) name remember, portal_inv s2 -> us_rows (po_users s2) = rows s1 ->
      decode_login (rq_Body r2) = Ok (mkLoginInput name "" (TrimSpace (ci_Password input)) remember) ->
      name <> "" -> us_norm (R := U) name = us_norm (ci_Login input) -> TrimSpace (ci_Password input) <> "" ->
      match fst (Login decode_login ctx2 r2 s2) with
      | Ok (Write st answer) => st = StatusOK /\ lr_User answer = mkUserInfo (us_Login u) (us_Email u) (us_Name u)
      | Ok (WriteError (OtherError (EWrap msg _))) => msg = "failed to generate token"
      | _ => False
      end.
Proof.
  intros Htm Hbc Hi Hroom Hsv Hrel E.
  destruct (PostUsers_run _ _ _ _ _ _ Htm Hi Hroom Hsv E) as (input0 & input & salt & h & u & Hdec & Hval & _ & Hh & (Hlog & Hem & _ & Hpw) & Hfree & Hnew & Hrows & _ & Hb & Hass).
  rewrite (create_valid_login unicode_trimmed _ _ Hval) in Hlog. exists input0, input, u. split_and!; try done.
  - intros i v Hv. destruct (Hfree i v Hv) as [Hl He]. split_and!; [|by rewrite Hlog|done]. intros ->. by rewrite Hnew in Hv.
  - intros ctx2 r2 s2 name remember Hi2 Hrows2 Hd2 Hne Hname Hpne. unfold Login. rewrite Hd2. unfold login_Validate. simpl.
    rewrite (proj2 (String.eqb_neq _ _) Hne), (proj2 (String.eqb_neq _ _) Hpne). cbn [andb]. unfold bind at 1, get.
    assert (Hfirst : first_user s2 (fun v => us_Login v = us_norm name) u).
    { rewrite Hname. split_and!; [by rewrite Hrows2, Hrows, lookup_insert_eq|done|]. intros v Hv Hlv. rewrite Hrows2, Hrows in Hv.
      apply lookup_insert_Some in Hv as [[-> _]|[_ Hv]]; [lia|]. by destruct (Hfree _ _ Hv) as [? _]. }
    change (IsEmailLogin _) with false. cbv iota.
    rewrite (find_user_ok (mkFindUser [] [name] []) s2 (fun v => us_Login v = us_norm name) u Hi2 Hrel (matches_login _) Hfirst).
    unfold VerifyPassword. rewrite Hpw, (Hbc _ _ _ _ Hh). unfold bind at 1, attempt, po_on_process, zoom.
    destruct (GenerateTokenForUser _ _ _) as [res c] eqn:Eg. destruct (generate_law _ _ _ _ _ Eg) as [_ Hres]. by destruct res as [tok|e|w].
Qed.

(** One's own profile is all a user can change there.  Whatever is sent to
    the profile handler, at most the row of the account whose login the session
    has is changed; its number, address and login stay, and its password
    changes only if the current one was given. *)
Lemma profile_changes_own_row decode ctx r s : us_inv (users s) ->
  let s' := snd (PutProfile decode ctx r s) in
  rows s' = rows s \/
  exists session old new, ctx = Some session /\ rows s !! us_ID old = Some old /\ us_Login old = us_norm (se_Login session) /\
    rows s' = <[us_ID old := new]> (rows s) /\ us_ID new = us_ID old /\ us_Email new = us_Email old /\ us_Login new = us_norm (us_Login old) /\
    (us_Password new <> us_Password old -> exists input current, decode (rq_Body r) = Ok (Some input) /\
       pi_CurrentPassword input = Some current /\ CompareHashAndPassword (us_Password old) current = None).
Proof.
  intros Hi. set (P := fun u : U => us_rows u = rows s \/ exists session old new, ctx = Some session /\ rows s !! us_ID old = Some old /\
    us_Login old = us_norm (se_Login session) /\ us_rows u = <[us_ID old := new]> (rows s) /\ us_ID new = us_ID old /\ us_Email new = us_Email old /\
    us_Login new = us_norm (us_Login old) /\
    (us_Password new <> us_Password old -> exists input current, decode (rq_Body r) = Ok (Some input) /\
       pi_CurrentPassword input = Some current /\ CompareHashAndPassword (us_Password old) current = None)).
  enough (ends P (PutProfile decode ctx r) s) as He by (unfold ends, wp in He; by destruct (PutProfile _ _ _ _)).
  assert (HP : P (users s)) by by left. unfold PutProfile. destruct ctx as [session|]; [|by apply ends_ret].
  apply ends_respond, ends_decoded; [done|]. intros input0 input Hdec Hval. apply ends_find; [done|]. intros [|old l] Hl; [by apply ends_ret|].
  apply found_row in Hl as [Hrow Hm]; [|done]. cbn [FindUserByLogins fu_IDs fu_Logins fu_Emails map] in Hm. apply matches_login in Hm.
  assert (Hsave : forall user s1, users s1 = users s -> us_ID user = us_ID old -> us_Login user = us_Login old -> us_Email user = us_Email old ->
    (us_Password user <> us_Password old -> exists current, pi_CurrentPassword input0 = Some current /\ CompareHashAndPassword (us_Password old) current = None) ->
    ends P (call "failed to update profile" (on_users (US_Save user)) (fun _ => ret (inl "Profile updated successfully"%string))) s1).
  { intros user [[u t c a] v] Hs1 Hid Hlog Hem Hpw. simpl in Hs1. subst u.
    assert (Hd : P (snd (US_Save user (users s)))).
    { destruct (US_Save user (users s)) as [res u] eqn:E. destruct (us_rows_id _ _ _ Hi Hrow) as [_ Hnz].
      apply us_save_law in E as (_ & _ & Hres); [|done|rewrite Hid, decide_False by done; by eexists].
      destruct res as [x|e|w]; [|by left|done]. destruct Hres as ((cr & up & Hx) & Hrows & Hsame). rewrite Hid, decide_False in Hsame by done.
      right. exists session, old, x. rewrite <- Hsame at 2. rewrite Hx; simpl. split_and!; try done; [congruence|congruence|].
      intros Hne. destruct (Hpw Hne) as (current & Hc & Hcmp). by exists input0, current. }
    apply ends_call; [|intros y _; apply ends_ret]; unfold on_users, on_portal, po_on_users, zoom; simpl in *; by destruct (US_Save user _). }
  unfold change_password. destruct (pi_Password input) as [password|]; [|by apply Hsave].
  destruct (pi_CurrentPassword input) as [current|] eqn:Ec; [|by apply ends_ret]. unfold VerifyPassword. destruct (CompareHashAndPassword _ current) eqn:Ecmp; [by apply ends_ret|].
  apply ends_quiet; [apply hash_quiet|done|]. intros h s1 Hs1 _. apply Hsave; [done..|]. intros _. exists current. split; [|done].
  clear -Hval Ec. unfold profile_Validate in Hval. destruct (validName _); [|done]. destruct (pi_Password input0) as [p|].
  - destruct (String.eqb p ""); [done|]. destruct (validPassword p); [done|]. destruct (pi_CurrentPassword input0) as [[]|] eqn:E0; [done|..]; injection Hval as <-; simpl in Ec; congruence.
  - destruct (pi_CurrentPassword input0) as [[]|] eqn:E0; [done|..]; injection Hval as <-; simpl in Ec; congruence.
Qed.
End accounts.

(** ** A new colleague *)

Module OfficeSample.
Import Sample.
#[local] Existing Instances ticking listed_order plain process process_laws library tokens_service tokens_service_laws passwords first_is_admin.

#[local] Instance no_roles : RolesRepository unit := {| RR_GetRolesForEntity _ _ := ret [] |}.
Abbreviation Office_ := (Office (UserService memUserRepo) memTokenRepo InMemory unit memServerRepo).
Definition office : Office_ := mkOffice panel NewServerRepository.
#[local] Instance direct : TransactionManager Office_ := NilTransactionManager.

Lemma direct_transactional : transactional direct.
Proof. by left. Qed.
Lemma plain_trimmed t : all_ascii t = false -> TrimSpace (unicode_trim t) = unicode_trim t.
Proof. intros Ht. unfold TrimSpace. simpl. by rewrite Ht. Qed.
Lemma lower_ascii_idem c : lower_ascii (lower_ascii c) = lower_ascii c.
Proof. by destruct c as [[] [] [] [] [] [] [] []]. Qed.
Lemma ToLower_idem t : ToLower (ToLower t) = ToLower t.
Proof.
  unfold ToLower. destruct (all_ascii t) eqn:Ea; simpl; [|by rewrite Ea]. assert (all_ascii (map_ascii lower_ascii t) = true) as ->.
  { induction t as [|c t IH]; [done|]. simpl in *. apply andb_true_iff in Ea as [Hc Ht]. rewrite IH by done. by destruct c as [[] [] [] [] [] [] [] []]. }
  clear. induction t as [|c t IH]; [done|]. simpl. by rewrite lower_ascii_idem, IH.
Qed.

Lemma passwords_law : bcrypt_law.
Proof. intros p cost salt h [= <-]. simpl. by rewrite String.eqb_refl. Qed.

Definition bob : createUserInput := mkCreateUser " Bob " "bob@example.org" "hunter22 " (Some "Bob B."%string) [] [4%N].
Definition asked (_ : string) : result (option createUserInput) := Ok (Some bob).
Definition hired := PostUsers direct asked (Some (session_of "c0ffee" alice None)) (request "" "") office.
Definition bob_logs_in (body : string) : result loginInput := Ok (mkLoginInput "BOB" "" body "").

Lemma office_inv : portal_inv (of_portal office) /\ sf_inv (of_servers office) /\ us_room 1 (po_users (of_portal office)).
Proof. split_and!; [exact panel_inv|exact srv_inv_new|vm_compute; reflexivity]. Qed.

Lemma office_logins : logins_ok (po_users (of_portal office)).
Proof.
  assert (Hrows : forall i v, us_rows (po_users (of_portal office)) !! i = Some v -> i = 1%N /\ v = alice).
  { intros i v Hv. change (({[1%N := alice]} : gmap N User) !! i = Some v) in Hv. by apply lookup_singleton_Some in Hv as [<- <-]. }
  split_and!; [exact (proj1 panel_inv)|by intros i v [-> ->]%Hrows|]. by intros i j v w [-> ->]%Hrows [-> ->]%Hrows.
Qed.
Lemma ToLower_norm l : us_norm (R := UserService memUserRepo) (us_norm (R := UserService memUserRepo) l) = us_norm (R := UserService memUserRepo) l.
Proof. exact (ToLower_idem l). Qed.
Lemma hired_inv : portal_inv (of_portal (snd hired)).
Proof.
  destruct (PostUsers_run direct asked (Some (session_of "c0ffee" alice None)) (request "" "") office) with (body := match fst hired with Ok (Write _ b) => b | _ => newUserResponseFromUser alice [] end) (s1 := snd hired)
    as (? & ? & ? & ? & ? & ? & ? & ? & ? & ? & ? & ? & ? & ? & ?); [exact direct_transactional|apply office_inv..|vm_compute; reflexivity|done].
Qed.
Lemma hired_ok : exists body, hired = (Ok (Write StatusCreated body), snd hired).
Proof. vm_compute. by eexists. Qed.

Lemma created_user_can_log_in_witness : exists u, us_rows (po_users (of_portal (snd hired))) !! us_ID u = Some u /\ us_Login u = "bob" /\
  sf_assigned (of_servers (snd hired)) (us_ID u) = {[4%N]} /\
  match fst (Login bob_logs_in None (request "" "hunter22") (of_portal (snd hired))) with
  | Ok (Write st answer) => st = StatusOK /\ ui_Login (lr_User answer) = "bob"
  | _ => False
  end.
Proof.
  destruct hired_ok as [body E]. destruct office_inv as (Hi & Hsv & Hroom).
  destruct (created_user_can_log_in direct plain_trimmed asked bob_logs_in (Some (session_of "c0ffee" alice None)) (request "" "") office body (snd hired)
    direct_transactional passwords_law Hi Hroom Hsv panel_reliable E) as (input0 & input & u & Hdec & Hval & Hlog & _ & _ & Hrows & _ & Hass & Hlogin).
  injection Hdec as <-. injection Hval as <-. exists u.
  assert (Hl : us_Login u = "bob"%string) by (rewrite Hlog; reflexivity).
  split_and!; [by rewrite Hrows, lookup_insert_eq|done|rewrite Hass, decide_True by done; vm_compute; reflexivity|].
  specialize (Hlogin None (request "" "hunter22") (of_portal (snd hired)) "BOB"%string ""%string hired_inv eq_refl eq_refl ltac:(discriminate) eq_refl ltac:(discriminate)).
  assert (Hok : match fst (Login bob_logs_in None (request "" "hunter22") (of_portal (snd hired))) with Ok (Write _ _) => True | _ => False end) by (vm_compute; exact I).
  destruct (fst (Login _ _ _ _)) as [[st answer|st|e]|e|w]; [|done..]. destruct Hlogin as [-> ->]. by split.
Defined.

(** She changes her password, with the old one. *)
Definition new_password (_ : string) : result (option updateProfileInput) := Ok (Some (mkUpdateProfile None (Some "white rabbit"%string) (Some "rabbit"%string))).
Definition changed := snd (PutProfile new_password (Some (session_of "c0ffee" alice None)) (request "" "") office).
(** Then the account made for him is changed. *)
Lemma logins_stay_unique_witness :
  us_rows (po_users (of_portal (snd hired))) <> us_rows (po_users (of_portal office)) /\ logins_ok (po_users (of_portal (snd hired))).
Proof.
  split.
  { assert (E : us_Login <$> (us_rows (po_users (of_portal (snd hired))) !! 2%N) = Some "bob"%string) by (vm_compute; reflexivity).
    intros Hsame. rewrite Hsame in E. vm_compute in E. discriminate E. }
  apply (logins_stay_unique direct plain_trimmed ToLower_norm office (snd hired) direct_transactional office_logins).
  eapply rtc_l; [|apply rtc_refl]. apply as_post. exact (proj2 (proj2 office_inv)).
Defined.
End OfficeSample.
