(* ===== verification/FileManager.v ===== *)
(** The file manager ([internal/api/filemanager]): its handlers over the checks
    of [ServerAccess] and [FilePath] and the file service of the daemons, which
    is used through an interface ([internal/daemon/types.go] for its data).
    The archive of a directory and the chunked uploads are not here. *)

From S2P Require Import Prelude.
From S2P Require Import GoNum.
From S2P Require Import Domain.
From S2P Require Import GoRuntime.
From S2P Require Import Repositories.
From S2P Require Import TaskRepo.
From S2P Require Import ServersRepo.
From S2P Require Import Http.
From S2P Require Import Accounts.
From S2P Require Import UserAuth.
From S2P Require Import RBACRepo.
From S2P Require Import RBAC.
From S2P Require Import ServerAccess.
From stdpp Require Import base tactics strings list gmap numbers.
From S2P Require Import NodesRepo.
From S2P Require Dispatcher.
From S2P Require UserAccess.
From S2P Require Import Headers.
From Stdlib Require Import NArith ZArith Ascii.
From S2P Require Import FilePath.

(** ** The file service of a daemon *)

Inductive FileType : Type :=
| FileTypeUnknown | FileTypeDir | FileTypeFile | FileTypeDevice | FileTypeBlockDevice | FileTypeNamedPipe | FileTypeSymlink | FileTypeSocket.
Definition is_dir (t : FileType) : bool := match t with FileTypeDir => true | _ => false end.

Record FileInfo : Type := mkFileInfo {
  fi_Name : string; fi_Path : string; fi_Size : N; fi_TimeModified : N; fi_Type : FileType; fi_Perm : N; fi_SymlinkTarget : string;
}.
Record FileDetails : Type := mkFileDetails {
  fd_Name : string; fd_Mime : string; fd_Size : N; fd_ModificationTime : N; fd_AccessTime : N; fd_CreateTime : N; fd_Perm : N;
  fd_Type : FileType; fd_SymlinkTarget : string;
}.
Record OwnerOptions : Type := mkOwner { ow_User : string; ow_UID : Z; ow_GID : Z }.
Definition OwnerFromServer (server : Server) : OwnerOptions :=
  match sv_SuUser server with None => mkOwner "" 0 0 | Some u => mkOwner u 0 0 end.

(** The methods of the [fileService] interfaces of the handlers. *)
Class DaemonFiles (F : Type) : Type := {
  DF_ReadDir : Node -> string -> M F (list FileInfo);
  DF_GetFileInfo : Node -> string -> M F FileDetails;
  DF_DownloadStream : Node -> string -> M F string;
  DF_Upload : Node -> string -> string -> N -> OwnerOptions -> M F unit;
  DF_UploadStream : Node -> string -> string -> N -> N -> OwnerOptions -> M F unit;
  DF_MkDir : Node -> string -> OwnerOptions -> M F unit;
  DF_Move : Node -> string -> string -> M F unit;
  DF_Copy : Node -> string -> string -> M F unit;
  DF_Remove : Node -> string -> bool -> M F unit;
  DF_Chmod : Node -> string -> N -> M F unit;
}.

(** ** Requests and answers *)

Record deleteItem : Type := mkDeleteItem { dl_Path : string; dl_Type : string }.
Record deleteRequest : Type := mkDeleteRequest { dr_Disk : string; dr_Items : list deleteItem }.
Record chmodRequest : Type := mkChmodRequest { ch_Disk : string; ch_Mode : Z; ch_Items : list string }.
Record renameRequest : Type := mkRenameRequest { rn_Disk : string; rn_OldName : string; rn_NewName : string; rn_Type : string }.
Record clipboard : Type := mkClipboard { cb_Type : string; cb_Disk : string; cb_Directories : list string; cb_Files : list string }.
Record pasteRequest : Type := mkPasteRequest { ps_Disk : string; ps_Path : string; ps_Clipboard : clipboard }.
(** [createDirectoryRequest], [createFileRequest] *)
Record createRequest : Type := mkCreateRequest { cr_Disk : string; cr_Path : string; cr_Name : string }.

(** A file of a multipart form: its name, its size, its content or why it cannot
    be opened; and what [FormValue] and [MultipartForm.File] find in a form. *)
Record FileHeader : Type := mkFileHeader { fh_Filename : string; fh_Size : Z; fh_Open : result string }.
Record Form : Type := mkForm { fo_disk : string; fo_path : string; fo_files : string -> list FileHeader }.

Record resultResponse : Type := mkResult { rs_Status : string; rs_Message : option string }.
Definition success (message : string) : resultResponse := mkResult "success" (Some message).
Record itemResponse : Type := mkItem {
  im_Path : string; im_Size : N; im_Type : string; im_Timestamp : N; im_Visibility : string; im_Mimetype : string;
  im_Basename : string; im_Dirname : string; im_Extension : string; im_Filename : string;
}.
Record entryResponse : Type := mkEntry {
  en_Path : string; en_Timestamp : N; en_Type : string; en_Visibility : string; en_Size : N; en_Dirname : string; en_Basename : string;
  en_Extension : option string; en_Filename : string; en_Mode : N;
}.
Record directoryTreeItem : Type := mkTreeItem {
  tr_Path : string; tr_Timestamp : N; tr_Dirname : string; tr_Basename : string; tr_HasSubdirectories : bool;
}.
Inductive FileAnswer : Type :=
| Initialized
| Done (r : resultResponse)
| Listing (directories files : list entryResponse)
| Tree (directories : list directoryTreeItem)
| Created (r : resultResponse) (item : itemResponse)
| Stream (headers : list (string * string)) (content : string).

Definition calculateVisibility (perm : N) : string := if (N.land perm 4 =? 0)%N then "private" else "public".
Definition dirname_of (p : string) : string := if String.eqb (Dir p) "." then "" else Dir p.

(** [filename[:len(filename)-len(extension)]] *)
Definition cut_ext (name : string) : string := String.substring 0 (String.length name - String.length (Ext name)) name.
Definition tail (s : string) : string := match s with String _ t => t | EmptyString => EmptyString end.

(** [newCreateDirectoryResponse], and [newCreateFileResponse] and
    [newUpdateFileResponse], which are alike. *)
Definition newDirectoryItem (d : FileDetails) (relativePath : string) : itemResponse :=
  mkItem relativePath (fd_Size d) "dir" (fd_ModificationTime d) (calculateVisibility (fd_Perm d)) "" (fd_Name d) (dirname_of relativePath) "" "".
Definition newFileItem (d : FileDetails) (relativePath : string) : itemResponse :=
  mkItem relativePath (fd_Size d) "file" (fd_ModificationTime d) (calculateVisibility (fd_Perm d)) (fd_Mime d) (fd_Name d)
    (dirname_of relativePath) (tail (Ext (fd_Name d))) (cut_ext (fd_Name d)).

Definition parseFilename (name : string) : string * string :=
  if String.eqb (Ext name) "" then (name, "") else (cut_ext name, tail (Ext name)).
Definition content_entry (directory : string) (f : FileInfo) : option (bool * entryResponse) :=
  let fullPath := Join [directory; fi_Name f] in
  let dirname := if String.eqb directory "." then "" else directory in
  match fi_Type f with
  | FileTypeDir => Some (true, mkEntry fullPath (fi_TimeModified f) "dir" "" 0 dirname (fi_Name f) None "" (N.land (fi_Perm f) 511))
  | FileTypeFile =>
      let '(filename, extension) := parseFilename (fi_Name f) in
      Some (false, mkEntry fullPath (fi_TimeModified f) "file" (calculateVisibility (fi_Perm f)) (fi_Size f) dirname (fi_Name f)
        (if String.eqb extension "" then None else Some extension) filename (N.land (fi_Perm f) 511))
  | _ => None
  end.
Definition newContentResponse (l : list FileInfo) (directory : string) : FileAnswer :=
  let entries := omap (content_entry directory) l in
  Listing (map snd (List.filter fst entries)) (map snd (List.filter (fun e => negb (fst e)) entries)).

(** ** The handlers *)

Definition defaultPerms : N := 420.
Definition maxUploadSize : Z := 104857600.
Definition maxMode : Z := 511.
Definition files_ability : option (list string) := Some [AbilityNameGameServerFiles].
Definition bad_request (e : error) : api_error := WrapHTTPError e StatusBadRequest.
Definition unsupported_disk (disk : string) : error := ENew ("unsupported disk: " +:+ disk +:+ ", only 'server' disk is supported").

Section handlers.
Context {V A R F : Type} `{FinderRepository V} `{AccessControl A} `{NodeRepository R} `{DaemonFiles F} `{Unicode}.
Context (query : Request -> string -> string).
Context (decode_delete : string -> result deleteRequest) (decode_chmod : string -> result chmodRequest)
  (decode_rename : string -> result renameRequest) (decode_paste : string -> result pasteRequest)
  (decode_create : string -> result createRequest) (ParseMultipartForm : Request -> result Form).

Abbreviation S := (Desk V A R F).
Abbreviation Handler := (DeskHandler V A R F FileAnswer).
Abbreviation answer := (M S (Response FileAnswer)).

(** The work of a handler answers with an error or a response. *)
Abbreviation work := (M S (FileAnswer + api_error)).
Definition refuse (e : api_error) : work := ret (inr e).
Definition call {B} (msg : string) (x : M F B) (k : B -> work) : work :=
  let! r := attempt (on_world x) in
  match r with
  | Panic w => lift (Panic w)
  | Err e => refuse (OtherError (EWrap msg e))
  | Ok v => k v
  end.
Definition checked (e : option error) (k : work) : work :=
  match e with Some e => refuse (bad_request e) | None => k end.
Definition respond (x : work) : answer :=
  let! r := x in match r with inl a => ret (Write StatusOK a) | inr e => ret (WriteError e) end.
Definition at_node (server : Server) (k : Node -> work) : work :=
  let! node := getNode (sv_DSID server) in match node with inr e => refuse e | inl node => k node end.
Definition decoded {B} (msg : string) (r : result B) (k : B -> work) : work :=
  match r with
  | Panic w => lift (Panic w)
  | Err e => refuse (bad_request (EWrap msg e))
  | Ok v => k v
  end.
Definition handle (k : Server -> Request -> work) : Handler :=
  with_server "server" files_ability (fun _ server r => respond (k server r)).

Definition Initialize : Handler := handle (fun _ _ => ret (inl Initialized)).

(** [content]: [disk] and [path] have defaults. *)
Definition default_path (path : string) : string := if String.eqb path "" then "." else path.
Definition Content : Handler := handle (fun server r =>
  let disk := query r "disk" in
  let disk := if String.eqb disk "" then "server"%string else disk in
  if negb (String.eqb disk "server") then refuse (bad_request (unsupported_disk disk))
  else
    let path := default_path (query r "path") in
    checked (ValidatePath path) (at_node server (fun node =>
      let fullPath := Join [nd_WorkPath node; sv_Dir server; path] in
      call ("failed to read directory: " +:+ fullPath) (DF_ReadDir node fullPath) (fun l => ret (inl (newContentResponse l path)))))).

(** [tree] *)
Definition extractDirname (path : string) : string := dirname_of path.
Fixpoint tree_items (node : Node) (fullPath : string) (l : list FileInfo) (acc : list directoryTreeItem) : work :=
  match l with
  | [] => ret (inl (Tree (rev acc)))
  | f :: l =>
      if is_dir (fi_Type f)
      then call "failed to check subdirectories" (wrap ("failed to read directory " +:+ Join [fullPath; fi_Name f]) (DF_ReadDir node (Join [fullPath; fi_Name f])))
        (fun sub => tree_items node fullPath l
          (mkTreeItem (fi_Name f) (fi_TimeModified f) (extractDirname (fi_Name f)) (Base (fi_Name f)) (existsb (fun f => is_dir (fi_Type f)) sub) :: acc))
      else tree_items node fullPath l acc
  end.
Definition ReadTree : Handler := handle (fun server r =>
  let disk := query r "disk" in
  let disk := if String.eqb disk "" then "server"%string else disk in
  if negb (String.eqb disk "server") then refuse (bad_request (unsupported_disk disk))
  else
    let path := default_path (query r "path") in
    checked (ValidatePath path) (at_node server (fun node =>
      let fullPath := Join [nd_WorkPath node; sv_Dir server; path] in
      call "failed to read directory" (DF_ReadDir node fullPath) (fun l => tree_items node fullPath l [])))).

(** [download] and [streamfile] *)
Definition serve_file (headers : FileDetails -> string -> list (string * string)) : Handler := handle (fun server r =>
  let disk := query r "disk" in
  let path := query r "path" in
  if String.eqb disk "" then refuse (bad_request (ENew "disk parameter is required"))
  else if negb (String.eqb disk "server") then refuse (bad_request (unsupported_disk disk))
  else if String.eqb path "" then refuse (bad_request (ENew "path parameter is required"))
  else
    checked (ValidatePath path) (at_node server (fun node =>
      let fullPath := Join [nd_WorkPath node; sv_Dir server; path] in
      call "failed to get file info" (DF_GetFileInfo node fullPath) (fun fileInfo =>
      call "failed to download file" (DF_DownloadStream node fullPath) (fun content =>
        ret (inl (Stream (headers fileInfo (Base path) ++
          (if (0 <? fd_Size fileInfo)%N then [("Content-Length"%string, FormatUint (fd_Size fileInfo))] else [])) content))))))).
Definition Download : Handler := serve_file (fun _ filename => SafeContentHeaders filename "").
Definition StreamFile : Handler := serve_file (fun fileInfo filename =>
  SafeContentHeaders filename (fd_Mime fileInfo) ++ [("Accept-Ranges", "bytes")]%string).

(** [delete] *)
Fixpoint delete_items (node : Node) (serverDir : string) (items : list deleteItem) : work :=
  match items with
  | [] => ret (inl (Done (success "Deleted!")))
  | item :: items =>
      checked (ValidatePath (dl_Path item))
        (call "failed to delete file or directory"
          (DF_Remove node (Join [nd_WorkPath node; serverDir; dl_Path item]) (String.eqb (dl_Type item) "dir"))
          (fun _ => delete_items node serverDir items))
  end.
Definition DeleteFiles : Handler := handle (fun server r =>
  decoded "invalid request body" (decode_delete (rq_Body r)) (fun req =>
    if negb (String.eqb (dr_Disk req) "server") then refuse (bad_request (unsupported_disk (dr_Disk req)))
    else match dr_Items req with
         | [] => refuse (bad_request (ENew "items array is empty"))
         | _ => at_node server (fun node => delete_items node (sv_Dir server) (dr_Items req))
         end)).

(** [chmod] *)
Fixpoint chmod_items (node : Node) (serverDir : string) (perm : N) (items : list string) : work :=
  match items with
  | [] => ret (inl (Done (success "Permissions changed!")))
  | item :: items =>
      checked (ValidatePath item)
        (call "failed to change file permissions" (DF_Chmod node (Join [nd_WorkPath node; serverDir; item]) perm)
          (fun _ => chmod_items node serverDir perm items))
  end.
Definition Chmod : Handler := handle (fun server r =>
  decoded "invalid request body" (decode_chmod (rq_Body r)) (fun req =>
    if negb (String.eqb (ch_Disk req) "server") then refuse (bad_request (unsupported_disk (ch_Disk req)))
    else match ch_Items req with
         | [] => refuse (bad_request (ENew "items array is empty"))
         | _ =>
             if (ch_Mode req <? 0)%Z || (maxMode <? ch_Mode req)%Z
             then refuse (bad_request (ENew ("invalid mode: " +:+ Itoa (ch_Mode req) +:+ ", must be between 0 and 0o777")))
             else at_node server (fun node => chmod_items node (sv_Dir server) (Z.to_N (ch_Mode req)) (ch_Items req))
         end)).

(** [rename] *)
Definition rename_validate (req : renameRequest) : option error :=
  if negb (String.eqb (rn_Disk req) "server") then Some (unsupported_disk (rn_Disk req))
  else if String.eqb (rn_OldName req) "" then Some (ENew "oldName is required")
  else if String.eqb (rn_NewName req) "" then Some (ENew "newName is required")
  else if String.eqb (rn_Type req) "" then Some (ENew "type is required")
  else if negb (String.eqb (rn_Type req) "file") && negb (String.eqb (rn_Type req) "dir")
  then Some (ENew ("invalid type: " +:+ rn_Type req +:+ ", must be 'file' or 'dir'"))
  else None.
Definition Rename : Handler := handle (fun server r =>
  decoded "invalid request body" (decode_rename (rq_Body r)) (fun req =>
    checked (rename_validate req) (at_node server (fun node =>
      checked (ValidateFilename (rn_OldName req)) (checked (ValidateFilename (rn_NewName req))
        (call "failed to rename file or directory"
          (DF_Move node (Join [nd_WorkPath node; sv_Dir server; rn_OldName req]) (Join [nd_WorkPath node; sv_Dir server; rn_NewName req]))
          (fun _ => ret (inl (Done (success "Renamed!")))))))))).

(** [paste] *)
Definition paste_validate (req : pasteRequest) : option error :=
  let cb := ps_Clipboard req in
  if negb (String.eqb (ps_Disk req) "server") then Some (unsupported_disk (ps_Disk req))
  else if negb (String.eqb (cb_Disk cb) "server")
  then Some (ENew ("unsupported clipboard disk: " +:+ cb_Disk cb +:+ ", only same-disk operations are supported"))
  else if negb (String.eqb (cb_Type cb) "copy") && negb (String.eqb (cb_Type cb) "cut")
  then Some (ENew ("unsupported clipboard type: " +:+ cb_Type cb +:+ ", must be 'copy' or 'cut'"))
  else match cb_Files cb, cb_Directories cb with
       | [], [] => Some (ENew "clipboard is empty: no files or directories to paste")
       | _, _ => None
       end.
Definition pasteItem (node : Node) (source destination operationType : string) : M F unit :=
  if String.eqb operationType "copy" then DF_Copy node source destination
  else if String.eqb operationType "cut" then DF_Move node source destination
  else lift (Err (ENew ("unknown operation type: " +:+ operationType))).
(** One of the two loops, over the files or the directories; then [k]. *)
Fixpoint paste_all (node : Node) (serverDir destinationBase operationType kind : string) (l : list string) (k : work) : work :=
  match l with
  | [] => k
  | p :: l =>
      checked (ValidatePath p)
        (call ("failed to paste " +:+ kind +:+ ": " +:+ p)
          (pasteItem node (Join [nd_WorkPath node; serverDir; p]) (Join [destinationBase; Base p]) operationType)
          (fun _ => paste_all node serverDir destinationBase operationType kind l k))
  end.
Definition newPasteResponse (operationType : string) : FileAnswer :=
  Done (success (if String.eqb operationType "cut" then "Moved successfully!" else "Copied successfully!")).
Definition Paste : Handler := handle (fun server r =>
  decoded "invalid request body" (decode_paste (rq_Body r)) (fun req =>
    checked (paste_validate req) (at_node server (fun node =>
      checked (ValidatePath (ps_Path req))
        (let destinationBase := Join [nd_WorkPath node; sv_Dir server; ps_Path req] in
         let cb := ps_Clipboard req in
         paste_all node (sv_Dir server) destinationBase (cb_Type cb) "file" (cb_Files cb)
           (paste_all node (sv_Dir server) destinationBase (cb_Type cb) "directory" (cb_Directories cb)
             (ret (inl (newPasteResponse (cb_Type cb)))))))))).

(** [createdirectory] and [createfile]: [Validate] is the same. *)
Definition create_validate (req : createRequest) : createRequest + error :=
  if negb (String.eqb (cr_Disk req) "server") then inr (unsupported_disk (cr_Disk req))
  else if String.eqb (cr_Name req) "" then inr (ENew "name is required")
  else inl (mkCreateRequest (cr_Disk req) (default_path (cr_Path req)) (cr_Name req)).
Definition create (make : Node -> Server -> string -> string -> work) : Handler := handle (fun server r =>
  decoded "invalid request body" (decode_create (rq_Body r)) (fun req =>
    match create_validate req with
    | inr e => refuse (bad_request e)
    | inl req =>
        at_node server (fun node =>
          checked (ValidatePath (cr_Path req)) (checked (ValidateFilename (cr_Name req))
            (let relativePath := Join [cr_Path req; cr_Name req] in
             make node server relativePath (Join [nd_WorkPath node; sv_Dir server; relativePath]))))
    end)).
Definition CreateDirectory : Handler := create (fun node server relativePath fullPath =>
  call "failed to create directory" (DF_MkDir node fullPath (OwnerFromServer server)) (fun _ =>
  call "failed to get directory info" (DF_GetFileInfo node fullPath) (fun fileInfo =>
    ret (inl (Created (success "Directory created!") (newDirectoryItem fileInfo relativePath)))))).
Definition CreateFile : Handler := create (fun node server relativePath fullPath =>
  call "failed to create file" (DF_Upload node fullPath "" defaultPerms (OwnerFromServer server)) (fun _ =>
  call "failed to get file info" (DF_GetFileInfo node fullPath) (fun fileInfo =>
    ret (inl (Created (success "File created!") (newFileItem fileInfo relativePath)))))).

(** [upload] *)
Definition opened (msg : string) (h : FileHeader) (k : string -> N -> work) : work :=
  match fh_Open h with
  | Panic w => lift (Panic w)
  | Err e => refuse (OtherError (EWrap msg e))
  | Ok content => if (fh_Size h <? 0)%Z then refuse (OtherError (ENew "invalid file size")) else k content (Z.to_N (fh_Size h))
  end.
Fixpoint upload_all (node : Node) (server : Server) (targetPath : string) (files : list FileHeader) : work :=
  match files with
  | [] => ret (inl (Done (success "All files uploaded!")))
  | h :: files =>
      if (maxUploadSize <? fh_Size h)%Z
      then refuse (bad_request (ENew ("file " +:+ fh_Filename h +:+ " exceeds maximum size of " +:+ Itoa maxUploadSize +:+ " bytes")))
      else checked (ValidateFilename (fh_Filename h))
        (opened "failed to open uploaded file" h (fun content size =>
          call ("failed to upload file " +:+ fh_Filename h)
            (DF_UploadStream node (Join [nd_WorkPath node; sv_Dir server; targetPath; fh_Filename h]) content size defaultPerms (OwnerFromServer server))
            (fun _ => upload_all node server targetPath files)))
  end.
Definition Upload : Handler := handle (fun server r =>
  decoded "failed to parse multipart form" (ParseMultipartForm r) (fun form =>
    if negb (String.eqb (fo_disk form) "server") then refuse (bad_request (unsupported_disk (fo_disk form)))
    else
      let path := default_path (fo_path form) in
      checked (ValidatePath path) (at_node server (fun node =>
        match fo_files form "files[]" with
        | [] => refuse (bad_request (ENew "no files uploaded"))
        | files => upload_all node server path files
        end)))).

(** [updatefile] *)
Definition parseFormData (form : Form) : (FileHeader * string) + error :=
  let path := default_path (fo_path form) in
  if negb (String.eqb (fo_disk form) "server") then inr (unsupported_disk (fo_disk form))
  else match ValidatePath path with
  | Some e => inr e
  | None =>
      match fo_files form "file" with
      | [] => inr (ENew "no file uploaded")
      | h :: _ =>
          if (maxUploadSize <? fh_Size h)%Z then inr (ENew ("file exceeds maximum size of " +:+ Itoa maxUploadSize +:+ " bytes"))
          else match ValidateFilename (fh_Filename h) with Some e => inr e | None => inl (h, path) end
      end
  end.
Definition UpdateFile : Handler := handle (fun server r =>
  decoded "failed to parse multipart form" (ParseMultipartForm r) (fun form =>
    match parseFormData form with
    | inr e => refuse (bad_request e)
    | inl (h, targetPath) =>
        at_node server (fun node =>
          let relativePath := Join [targetPath; fh_Filename h] in
          let fullPath := Join [nd_WorkPath node; sv_Dir server; relativePath] in
          opened "failed to open uploaded file" h (fun content size =>
          call "failed to upload file" (DF_UploadStream node fullPath content size defaultPerms (OwnerFromServer server)) (fun _ =>
          call "failed to get file info" (DF_GetFileInfo node fullPath) (fun fileInfo =>
            ret (inl (Created (success "File updated!") (newFileItem fileInfo relativePath)))))))
    end)).

(** The handlers of the file manager. *)
Definition file_handlers : list Handler :=
  [Initialize; Content; ReadTree; Download; StreamFile; DeleteFiles; Chmod; Rename; Paste; CreateDirectory; CreateFile; Upload; UpdateFile].
End handlers.

(** ** What the handlers ask of the daemon *)

Create HintDb place.

(** A daemon that notes what it is asked for: the node and the paths. *)
Record FileCall : Type := mkCall { fc_Node : Node; fc_Paths : list string }.
Record Recorded (F : Type) : Type := mkRecorded { rc_calls : list FileCall; rc_state : F }.
Arguments mkRecorded {F}. Arguments rc_calls {F}. Arguments rc_state {F}.
Definition noting {F B} (c : FileCall) (x : M F B) : M (Recorded F) B := fun s =>
  let '(r, f) := x (rc_state s) in (r, mkRecorded (rc_calls s ++ [c]) f).
#[export] Instance recorded {F} `{DaemonFiles F} : DaemonFiles (Recorded F) := {
  DF_ReadDir n p := noting (mkCall n [p]) (DF_ReadDir n p);
  DF_GetFileInfo n p := noting (mkCall n [p]) (DF_GetFileInfo n p);
  DF_DownloadStream n p := noting (mkCall n [p]) (DF_DownloadStream n p);
  DF_Upload n p b m o := noting (mkCall n [p]) (DF_Upload n p b m o);
  DF_UploadStream n p b z m o := noting (mkCall n [p]) (DF_UploadStream n p b z m o);
  DF_MkDir n p o := noting (mkCall n [p]) (DF_MkDir n p o);
  DF_Move n p q := noting (mkCall n [p; q]) (DF_Move n p q);
  DF_Copy n p q := noting (mkCall n [p; q]) (DF_Copy n p q);
  DF_Remove n p b := noting (mkCall n [p]) (DF_Remove n p b);
  DF_Chmod n p m := noting (mkCall n [p]) (DF_Chmod n p m);
}.

(** A daemon lists a directory by the names in it. *)
Class DaemonNames (F : Type) `{DaemonFiles F} : Prop := {
  df_names : forall n p f l f', DF_ReadDir n p f = (Ok l, f') -> Forall (fun i => no_dotdot (parts (fi_Name i))) l;
}.

Section inside.
Context {V A R F : Type} `{FinderRepositoryLaws V} `{AccessControl A} `{NodeRepositoryLaws R} `{DaemonNames F} `{Unicode}.
Context (query : Request -> string -> string)
  (decode_delete : string -> result deleteRequest) (decode_chmod : string -> result chmodRequest)
  (decode_rename : string -> result renameRequest) (decode_paste : string -> result pasteRequest)
  (decode_create : string -> result createRequest) (ParseMultipartForm : Request -> result Form).
Abbreviation S := (Desk V A R (Recorded F)).
Abbreviation work := (M S (FileAnswer + api_error)).
Implicit Types s : S.

(** The calls made from one state to another, where nothing but the daemon
    changed. *)
Definition calls_made (P : FileCall -> Prop) s s' : Prop :=
  de_servers s' = de_servers s /\ de_nodes s' = de_nodes s /\
  exists l, rc_calls (de_world s') = rc_calls (de_world s) ++ l /\ Forall P l.
Lemma calls_made_refl P s : calls_made P s s.
Proof. split_and!; [done..|]. exists []. by rewrite app_nil_r. Qed.
Lemma calls_made_trans P s1 s2 s3 : calls_made P s1 s2 -> calls_made P s2 s3 -> calls_made P s1 s3.
Proof.
  intros (? & ? & l & El & Hl) (? & ? & k & Ek & Hk). split_and!; [congruence..|]. exists (l ++ k).
  rewrite Ek, El, app_assoc. split; [done|]. by apply Forall_app.
Qed.

(** Work that makes only such calls. *)
Definition keeps (nodes : R) (P : FileCall -> Prop) (x : work) : Prop :=
  forall s r s', de_nodes s = nodes -> x s = (r, s') -> calls_made P s s'.
Definition notes {B} (P : FileCall -> Prop) (Q : B -> Prop) (x : M (Recorded F) B) : Prop :=
  forall f r f', x f = (r, f') -> (exists l, rc_calls f' = rc_calls f ++ l /\ Forall P l) /\ forall v, r = Ok v -> Q v.

Section combinators.
Variables (nodes : R) (P : FileCall -> Prop).
Lemma keeps_ret a : keeps nodes P (ret a).
Proof. intros s r s' _ [= <- <-]. apply calls_made_refl. Qed.
Lemma keeps_refuse e : keeps nodes P (refuse e).
Proof. apply keeps_ret. Qed.
Lemma keeps_panic w : keeps nodes P (lift (Panic w)).
Proof. intros s r s' _ [= <- <-]. apply calls_made_refl. Qed.
Lemma keeps_checked e k : (e = None -> keeps nodes P k) -> keeps nodes P (checked e k).
Proof. destruct e as [e|]; intros Hk; [apply keeps_refuse|by apply Hk]. Qed.
Lemma keeps_decoded {B} msg (r : result B) k : (forall v, keeps nodes P (k v)) -> keeps nodes P (decoded msg r k).
Proof. intros Hk. destruct r as [v|e|w]; [apply Hk|apply keeps_refuse|apply keeps_panic]. Qed.
Lemma keeps_opened msg h k : (forall c n, keeps nodes P (k c n)) -> keeps nodes P (opened msg h k).
Proof. intros Hk. unfold opened. destruct (fh_Open h); [destruct (_ <? _)%Z; [apply keeps_refuse|apply Hk]|apply keeps_refuse|apply keeps_panic]. Qed.
Lemma keeps_call {B} msg (x : M (Recorded F) B) k Q :
  notes P Q x -> (forall v, Q v -> keeps nodes P (k v)) -> keeps nodes P (call msg x k).
Proof.
  intros Hx Hk s r s' Hn. unfold call, bind, attempt, on_world, zoom. destruct (x (de_world s)) as [res f] eqn:Ex.
  destruct (Hx _ _ _ Ex) as [(l & El & Hl) HQ].
  assert (Hs1 : calls_made P s (mkDesk (de_servers s) (de_access s) (de_nodes s) f)) by (split_and!; [done..|by exists l]).
  destruct res as [v|e|w]; [|by intros [= <- <-]..].
  intros Hr. eapply calls_made_trans; [exact Hs1|]. by eapply (Hk v (HQ v eq_refl)); [|exact Hr].
Qed.
Lemma keeps_at_node server k : nr_inv nodes ->
  (forall node, nr_rows nodes !! sv_DSID server = Some node -> keeps nodes P (k node)) -> keeps nodes P (at_node server k).
Proof.
  intros Hi Hk s r s' Hn. unfold at_node, bind. destruct (getNode (sv_DSID server) s) as [res s1] eqn:En.
  rewrite <- Hn in Hi. destruct (getNode_spec _ _ _ _ Hi En) as [-> Hrow]. rewrite Hn in Hrow.
  destruct res as [[node|e]|e|w]; [by apply Hk| |done..]. intros [= <- <-]. apply calls_made_refl.
Qed.
End combinators.

Lemma notes_noting {B} (P : FileCall -> Prop) c (x : M F B) : P c -> notes P (fun _ => True) (noting c x).
Proof.
  intros Hc s r s'. unfold noting. destruct (x (rc_state s)) as [res f]. intros [= <- <-]. split; [|done].
  exists [c]. split; [done|]. constructor; [exact Hc|constructor].
Qed.
Lemma notes_ReadDir (P : FileCall -> Prop) n p : P (mkCall n [p]) ->
  notes P (Forall (fun i => no_dotdot (parts (fi_Name i)))) (DF_ReadDir (F:=Recorded F) n p).
Proof.
  intros Hc s r s' Er. split; [by apply (notes_noting P _ _ Hc) in Er as [? _]|]. intros v ->. cbn [DF_ReadDir recorded] in Er. unfold noting in Er.
  destruct (DF_ReadDir n p (rc_state s)) as [res f] eqn:E. injection Er as -> <-. by eapply df_names.
Qed.
Lemma notes_wrap {B} P (Q : B -> Prop) msg (x : M (Recorded F) B) : notes P Q x -> notes P Q (wrap msg x).
Proof.
  intros Hx s r s'. unfold wrap. destruct (x s) as [res f] eqn:E. destruct (Hx _ _ _ E) as [Hl HQ].
  destruct res as [v|e|w]; cbn [wrap_err]; intros [= <- <-]; (split; [done|]); [by intros ? [= <-]; apply HQ|done..].
Qed.

(** A call to the server's node about paths in the server's directory; a node
    without a work path and a server without a directory name no place. *)
Definition inside (node : Node) (server : Server) (c : FileCall) : Prop :=
  fc_Node c = node /\
  (nd_WorkPath node <> "" \/ sv_Dir server <> "" -> Forall (below (Join [nd_WorkPath node; sv_Dir server])) (fc_Paths c)).

Section placing.
Variables (node : Node) (server : Server).
Abbreviation base := (Join [nd_WorkPath node; sv_Dir server]).
Definition placed (p : string) : Prop := nd_WorkPath node <> "" \/ sv_Dir server <> "" -> p <> "" /\ below base p.
Lemma placed_Join extra : Forall (fun e => no_dotdot (parts e)) extra -> placed (Join (nd_WorkPath node :: sv_Dir server :: extra)).
Proof.
  rewrite list.Forall_forall. intros He Hwd. split; [by apply Join_nonempty|by apply Join_below].
Qed.
Lemma placed_below p e : placed p -> no_dotdot (parts e) -> placed (Join [p; e]).
Proof. intros Hp He Hwd. destruct (Hp Hwd) as [Hne Hb]. by apply below_Join. Qed.
Lemma inside_one p : placed p -> inside node server (mkCall node [p]).
Proof. intros Hp. split; [done|]. intros Hwd. constructor; [by apply Hp|done]. Qed.
Lemma inside_two p q : placed p -> placed q -> inside node server (mkCall node [p; q]).
Proof. intros Hp Hq. split; [done|]. intros Hwd. constructor; [by apply Hp|]. constructor; [by apply Hq|done]. Qed.
End placing.

(** A call to the node the server is on. *)
Definition at_home (nodes : R) (server : Server) (c : FileCall) : Prop :=
  exists node, nr_rows nodes !! sv_DSID server = Some node /\ inside node server c.

Section handlers.
Variables (nodes : R) (server : Server) (node : Node).
Hypothesis Hinv : nr_inv nodes.
Hypothesis Hnode : nr_rows nodes !! sv_DSID server = Some node.
Abbreviation P := (at_home nodes server).
Abbreviation ok := (keeps nodes P).

Lemma home_one p : placed node server p -> P (mkCall node [p]).
Proof. intros Hp. exists node. split; [done|]. by apply inside_one. Qed.
Lemma home_two p q : placed node server p -> placed node server q -> P (mkCall node [p; q]).
Proof. intros Hp Hq. exists node. split; [done|]. by apply inside_two. Qed.
Lemma placed_path p : ValidatePath p = None -> placed node server (Join [nd_WorkPath node; sv_Dir server; p]).
Proof. intros Hp. apply placed_Join. repeat constructor. by apply ValidatePath_safe. Qed.
Lemma placed_file f : ValidateFilename f = None -> placed node server (Join [nd_WorkPath node; sv_Dir server; f]).
Proof. intros Hf. apply placed_Join. repeat constructor. by apply filename_no_dotdot. Qed.
Lemma placed_in p f : ValidatePath p = None -> ValidateFilename f = None -> placed node server (Join [nd_WorkPath node; sv_Dir server; Join [p; f]]).
Proof.
  intros Hp Hf. apply placed_Join. repeat constructor. apply Join_no_dotdot.
  intros e [->|[->|[]%list.elem_of_nil]%list.elem_of_cons]%list.elem_of_cons; [by apply ValidatePath_safe|by apply filename_no_dotdot].
Qed.
Lemma placed_file_in p f : ValidatePath p = None -> ValidateFilename f = None -> placed node server (Join [nd_WorkPath node; sv_Dir server; p; f]).
Proof. intros Hp Hf. apply placed_Join. repeat constructor; [by apply ValidatePath_safe|by apply filename_no_dotdot]. Qed.
Lemma placed_destination p q : ValidatePath p = None -> ValidatePath q = None ->
  placed node server (Join [Join [nd_WorkPath node; sv_Dir server; p]; Base q]).
Proof. intros Hp Hq. apply placed_below; [by apply placed_path|]. by apply Base_no_dotdot, ValidatePath_safe. Qed.
Hint Resolve home_one home_two placed_path placed_file placed_in placed_file_in placed_destination : place.

(** One step through the work of a handler. *)
Ltac step :=
  lazymatch goal with
  | |- keeps _ _ (checked _ _) => apply keeps_checked; intros ?
  | |- keeps _ _ (refuse _) => apply keeps_refuse
  | |- keeps _ _ (ret _) => apply keeps_ret
  | |- keeps _ _ (opened _ _ _) => apply keeps_opened; intros ? ?
  | |- keeps _ _ (call _ _ _) => eapply keeps_call; [apply notes_noting; eauto with place|intros ? _]
  | |- keeps _ _ (match ?x with _ => _ end) => destruct x eqn:?
  end.

Lemma tree_items_keeps fullPath l : placed node server fullPath -> Forall (fun i => no_dotdot (parts (fi_Name i))) l ->
  forall acc, ok (tree_items node fullPath l acc).
Proof.
  intros Hp Hl. induction Hl as [|i l Hi Hl IH]; intros acc; [apply keeps_ret|]. cbn [tree_items]. destruct (is_dir (fi_Type i)); [|apply IH].
  eapply keeps_call; [apply notes_wrap, notes_ReadDir, home_one; by apply placed_below|]. intros sub _. apply IH.
Qed.
Lemma delete_items_keeps items : ok (delete_items node (sv_Dir server) items).
Proof. induction items; cbn [delete_items]; repeat step; done. Qed.
Lemma chmod_items_keeps perm items : ok (chmod_items node (sv_Dir server) perm items).
Proof. induction items; cbn [chmod_items]; repeat step; done. Qed.
Lemma upload_all_keeps p files : ValidatePath p = None -> ok (upload_all node server p files).
Proof. intros Hp. induction files; cbn [upload_all]; repeat step; done. Qed.
Lemma pasteItem_notes p q ty : P (mkCall node [p; q]) -> notes P (fun _ => True) (pasteItem (F:=Recorded F) node p q ty).
Proof.
  intros Hc. unfold pasteItem. destruct (String.eqb ty "copy"); [by apply notes_noting|]. destruct (String.eqb ty "cut"); [by apply notes_noting|].
  intros f r f' [= <- <-]. split; [|done]. exists []. by rewrite app_nil_r.
Qed.
Lemma paste_all_keeps p ty kind l k : ValidatePath p = None -> ok k ->
  ok (paste_all node (sv_Dir server) (Join [nd_WorkPath node; sv_Dir server; p]) ty kind l k).
Proof.
  intros Hp Hk. induction l as [|q l IH]; [done|]. cbn [paste_all]. apply keeps_checked. intros Hq.
  eapply keeps_call; [apply pasteItem_notes; eauto with place|]. intros _ _. apply IH.
Qed.
End handlers.

(** Whatever a request makes a handler ask of a daemon is about the server it
    names, and is asked only for a user who may work with its files. *)
Definition stays_inside (h : DeskHandler V A R (Recorded F) FileAnswer) : Prop :=
  forall ctx r s res s', sf_inv (de_servers s) -> nr_inv (de_nodes s) -> h ctx r s = (res, s') ->
  exists calls, rc_calls (de_world s') = rc_calls (de_world s) ++ calls /\
    (calls = [] \/
     exists user server node,
       se_User <$> ctx = Some (Some user) /\ ReadUint r "server" = Ok (sv_ID server) /\ may_act s user server files_ability /\
       nr_rows (de_nodes s) !! sv_DSID server = Some node /\ Forall (inside node server) calls).

Lemma Forall_home nodes server l : Forall (at_home nodes server) l ->
  l = [] \/ exists node, nr_rows nodes !! sv_DSID server = Some node /\ Forall (inside node server) l.
Proof.
  intros Hl. destruct Hl as [|c l (node & Hn & Hc) Hl]; [by left|right]. exists node. split; [done|]. constructor; [done|].
  eapply Forall_impl; [|exact Hl]. intros c' (node' & Hn' & Hc'). rewrite Hn in Hn'. by injection Hn' as <-.
Qed.

Lemma handle_stays_inside k :
  (forall nodes server r, nr_inv nodes -> keeps nodes (at_home nodes server) (k server r)) -> stays_inside (handle k).
Proof.
  intros Hk ctx r s res s' Hi Hn. unfold handle.
  destruct (with_server_spec "server" files_ability (fun _ server r => respond (k server r)) ctx r s Hi) as (s1 & (Hv1 & Hn1 & Hw1) & [[e ->]|[[w ->]|Hrun]]);
    [intros [= <- <-]; exists []; rewrite Hw1, app_nil_r; by auto..|].
  destruct Hrun as (user & server & -> & Huser & Hid & Hmay). unfold respond, bind.
  destruct (k server r s1) as [out s2] eqn:Ek.
  destruct (Hk (de_nodes s) server r Hn s1 out s2 Hn1 Ek) as (_ & _ & calls & Ecalls & Hcalls).
  intros Hr. assert (s' = s2) as -> by (by destruct out as [[a|e]|e|w]; injection Hr).
  exists calls. rewrite Ecalls, Hw1. split; [done|]. destruct (Forall_home _ _ _ Hcalls) as [->|(node & Hrow & Hin)]; [by left|right].
  by exists user, server, node.
Qed.

#[local] Hint Resolve home_one home_two placed_path placed_file placed_in placed_file_in placed_destination : place.
Ltac step :=
  lazymatch goal with
  | |- keeps _ _ (checked _ _) => apply keeps_checked; intros ?
  | |- keeps _ _ (decoded _ _ _) => apply keeps_decoded; intros ?
  | |- keeps _ _ (at_node _ _) => apply keeps_at_node; [done|intros ? ?]
  | |- keeps _ _ (refuse _) => apply keeps_refuse
  | |- keeps _ _ (ret _) => apply keeps_ret
  | |- keeps _ _ (opened _ _ _) => apply keeps_opened; intros ? ?
  | |- keeps _ _ (delete_items _ _ _) => by apply delete_items_keeps
  | |- keeps _ _ (chmod_items _ _ _ _) => by apply chmod_items_keeps
  | |- keeps _ _ (upload_all _ _ _ _) => by apply upload_all_keeps
  | |- keeps _ _ (paste_all _ _ _ _ _ _ _) => apply paste_all_keeps; [done..|]
  | |- keeps _ _ (match ?x with _ => _ end) => destruct x eqn:?
  end.
Ltac called :=
  eapply keeps_call; [first [apply notes_ReadDir|apply notes_noting]; eauto with place|intros ? ?].
Lemma parseFormData_safe form h p : parseFormData form = inl (h, p) -> ValidatePath p = None /\ ValidateFilename (fh_Filename h) = None.
Proof.
  unfold parseFormData. destruct (negb _); [done|]. destruct (ValidatePath _) eqn:Ep; [done|]. destruct (fo_files form "file") as [|h' ?]; [done|].
  destruct (_ <? _)%Z; [done|]. destruct (ValidateFilename (fh_Filename h')) eqn:Ef; [done|]. by intros [= <- <-].
Qed.
Ltac handler := intros nodes server r Hinv; cbv beta zeta; repeat (step || called).

Lemma file_handlers_inside :
  Forall stays_inside (file_handlers (F:=Recorded F) query decode_delete decode_chmod decode_rename decode_paste decode_create ParseMultipartForm).
Proof.
  repeat constructor; apply handle_stays_inside.
  all: handler.
  - apply tree_items_keeps; eauto with place.
  - apply parseFormData_safe in Heqs. destruct Heqs. eauto with place.
  - apply parseFormData_safe in Heqs. destruct Heqs. eauto with place.
Qed.

(** Whatever a request to the file manager asks, the daemon is only asked
    for files for a signed-in user whom access control lets work with the files
    of the server the path of the request names; it is the daemon of that
    server's node, and every path it is given is the server's directory or lies
    below it, however the request, the form or the clipboard spells the names. *)
Lemma file_requests_stay_inside h ctx r s res s' :
  h ∈ file_handlers (F:=Recorded F) query decode_delete decode_chmod decode_rename decode_paste decode_create ParseMultipartForm ->
  sf_inv (de_servers s) -> nr_inv (de_nodes s) -> h ctx r s = (res, s') ->
  exists calls, rc_calls (de_world s') = rc_calls (de_world s) ++ calls /\
    (calls = [] \/
     exists user server node,
       se_User <$> ctx = Some (Some user) /\ ReadUint r "server" = Ok (sv_ID server) /\ may_act s user server files_ability /\
       nr_rows (de_nodes s) !! sv_DSID server = Some node /\ Forall (inside node server) calls).
Proof.
  intros Hh. pose proof file_handlers_inside as Hall. rewrite list.Forall_forall in Hall. exact (Hall h Hh ctx r s res s').
Qed.
End inside.

(** *** Served files *)

Section served.
Context {V A R F : Type} `{FinderRepository V} `{AccessControl A} `{NodeRepository R} `{DaemonFiles F} `{Unicode}.
Context (query : Request -> string -> string).
Implicit Types s : Desk V A R F.

(** An answer a browser does not run: what is sent in the end under the names
    that decide it, whatever was set on the way. *)
Definition harmless (a : FileAnswer) : Prop :=
  exists headers content contentType disposition filename,
    a = Stream headers content /\
    sent "Content-Type" headers = Some contentType /\
    sent "Content-Disposition" headers = Some (contentDisposition disposition filename) /\
    sent "X-Content-Type-Options" headers = Some "nosniff"%string /\ sent "Content-Security-Policy" headers = Some "sandbox"%string /\
    (disposition = "inline"%string /\ contentType ∈ inlineSafeMimes \/
     disposition = "attachment"%string /\ contentType = "application/octet-stream"%string).

Definition answers (Q : FileAnswer -> Prop) (x : M (Desk V A R F) (FileAnswer + api_error)) : Prop :=
  forall s s' a, x s = (Ok (inl a), s') -> Q a.
Lemma answers_call Q {B} msg (x : M F B) k : (forall v, answers Q (k v)) -> answers Q (call msg x k).
Proof.
  intros Hk s s' a. unfold call, bind, attempt, on_world, zoom. destruct (x (de_world s)) as [[v|e|w] f]; [|done..]. apply Hk.
Qed.
Lemma answers_checked Q e k : answers Q k -> answers Q (checked e k).
Proof. destruct e; [done|auto]. Qed.
Lemma answers_at_node Q server k : (forall node, answers Q (k node)) -> answers Q (at_node server k).
Proof.
  intros Hk s s' a. unfold at_node, bind. destruct (getNode _ s) as [[[node|e]|e|w] s1]; [|done..]. apply Hk.
Qed.
Lemma handle_answers Q k ctx r s s' code a :
  (forall server, answers Q (k server r)) -> handle k ctx r s = (Ok (Write code a), s') -> code = StatusOK /\ Q a.
Proof.
  intros Hk. unfold handle, with_server. destruct ctx as [[sid lg em [user|] tk]|]; [|done..]. destruct (negb _); [done|].
  destruct (ReadUint r "server") as [id|e|w]; [|done..]. unfold bind. destruct (FindUserServer user id s) as [[[server|e]|e|w] s1]; [|done..].
  cbn [files_ability]. destruct (CheckOrError (us_ID user) (sv_ID server) [AbilityNameGameServerFiles] s1) as [[[e|]|e|w] s2]; [done| |done..]. unfold respond, bind.
  destruct (k server r s2) as [[[a'|e]|e|w] s3] eqn:Ek; [|done..]. intros [= <- <- <-]. split; [done|]. by eapply Hk.
Qed.

(** The other headers of an answer leave these four alone. *)
Definition leaves_type_alone (rest : list (string * string)) : Prop :=
  forall name, name ∈ ["Content-Type"; "Content-Disposition"; "X-Content-Type-Options"; "Content-Security-Policy"]%string ->
  sent name rest = None.

Lemma served_headers filename mime rest content : leaves_type_alone rest ->
  harmless (Stream (SafeContentHeaders filename mime ++ rest) content).
Proof.
  intros Hrest. destruct (SafeContentHeaders_spec filename mime) as (ct & d & -> & Hd). eexists _, content, ct, d, filename.
  split; [reflexivity|]. rewrite !sent_app, !Hrest by (rewrite !list.elem_of_cons; auto). by split_and!.
Qed.

Lemma type_left_alone (ranges : bool) (length : option N) :
  leaves_type_alone ((if ranges then [("Accept-Ranges", "bytes")]%string else []) ++ (if length is Some n then [("Content-Length"%string, FormatUint n)] else [])).
Proof.
  intros name Hn. rewrite !list.elem_of_cons in Hn. destruct ranges, length, Hn as [->|[->|[->|[->|Hn]]]]; try reflexivity; by apply list.elem_of_nil in Hn.
Qed.

(** C33: A file the panel serves from a game server, for downloading or for the
    player in the browser, is sent with headers that keep it from being run in
    the panel's pages, none of them overridden by a later one: its type is one of
    the few inert ones, bare, or it is an attachment of no particular type, and
    the browser is told to guess no other type and to give it no rights. *)
Theorem served_files_are_inert h ctx r s s' code a :
  h ∈ [Download query; StreamFile query] -> h ctx r s = (Ok (Write code a), s') -> code = StatusOK /\ harmless a.
Proof.
  intros Hh. assert (exists hd ranges, h = serve_file query hd /\
    forall i n, exists mime, hd i n = SafeContentHeaders n mime ++ (if ranges : bool then [("Accept-Ranges", "bytes")]%string else [])) as (hd & ranges & -> & Hhd).
  { apply list.elem_of_cons in Hh as [->|Hh]; [|apply list_elem_of_singleton in Hh as ->]; eexists.
    - exists false. split; [reflexivity|]. intros i n. eexists. by rewrite app_nil_r.
    - exists true. split; [reflexivity|]. intros i n. by eexists. }
  apply handle_answers. intros server. cbv zeta.
  destruct (String.eqb (query r "disk") ""); [done|]. destruct (String.eqb (query r "disk") "server"); [|done].
  destruct (String.eqb (query r "path") ""); [done|].
  apply answers_checked, answers_at_node. intros node. apply answers_call. intros info. apply answers_call. intros content t t' b [= <- _].
  destruct (Hhd info (Base (query r "path"))) as (mime & ->). rewrite <- app_assoc. apply served_headers.
  destruct (0 <? fd_Size info)%N; [apply (type_left_alone ranges (Some _))|apply (type_left_alone ranges None)].
Qed.
End served.

(** ** A player pastes a file *)

Module FileSample.
Import UserAccess.Sample.
#[local] Existing Instances ticking plain.

(** A daemon on which every operation succeeds. *)
#[local] Instance willing : DaemonFiles unit := {|
  DF_ReadDir _ _ := ret [mkFileInfo "maps" "maps" 0 0 FileTypeDir 493 ""; mkFileInfo "server.cfg" "server.cfg" 5 0 FileTypeFile 420 ""];
  DF_GetFileInfo _ _ := ret (mkFileDetails "motd.html" "text/html" 5 0 0 0 420 FileTypeFile "");
  DF_DownloadStream _ _ := ret "hello"%string;
  DF_Upload _ _ _ _ _ := ret tt; DF_UploadStream _ _ _ _ _ _ := ret tt; DF_MkDir _ _ _ := ret tt; DF_Move _ _ _ := ret tt;
  DF_Copy _ _ _ := ret tt; DF_Remove _ _ _ := ret tt; DF_Chmod _ _ _ := ret tt;
|}.
#[local] Instance willing_names : DaemonNames unit.
Proof.
  split. intros n p f l f' [= <- <-]. repeat constructor; intros x Hx; apply list_elem_of_singleton in Hx as ->; done.
Qed.

(** User 5 may work with the files of server 2 and nothing else. *)
#[local] Instance player_access : AccessControl unit := {|
  AC_Can _ _ := ret false; AC_CanOneOf _ _ := ret false;
  AC_CanForEntity u t i names := ret ((u =? 5)%N && String.eqb t EntityTypeServer && (i =? 2)%N && forallb (String.eqb AbilityNameGameServerFiles) names);
  AC_GetRoles _ := ret []; AC_SetRolesToUser _ _ := ret tt; AC_AllowUserAbilitiesForEntity _ _ _ _ := ret tt;
  AC_RevokeOrForbidUserAbilitiesForEntity _ _ _ _ := ret tt;
|}.

Definition node_seven : memNodeRepo := addToIndexes Dispatcher.sample_node (mkNodeRepo {[7%N := Dispatcher.sample_node]} 7 ∅ 0).
Lemma node_seven_inv : nodes_inv node_seven.
Proof.
  change node_seven with (addToIndexes Dispatcher.sample_node
    (mkNodeRepo (<[nd_ID Dispatcher.sample_node := Dispatcher.sample_node]> (nodes NewNodeRepository)) 7 (idIndex NewNodeRepository) 0)).
  by apply nodes_inv_insert; [| | |apply nodes_inv_new].
Qed.

Definition player : User := mkUser 5 "player" "player@example.org" "" None None None None.
Definition signed_in : option Session := Some (mkSession "" "player" "player@example.org" (Some player) None).
Definition desk {F} (f : F) : Desk memServerRepo unit memNodeRepo F := mkDesk sample_servers tt node_seven f.
Definition to_server_two (body : string) : Request := mkRequest "POST" "" "" None (fun v => if String.eqb v "server" then "2"%string else ""%string) body.
Definition no_query (r : Request) (k : string) : string := ""%string.
Definition ask_for (path : string) (r : Request) (k : string) : string := if String.eqb k "disk" then "server" else if String.eqb k "path" then path else "".
Definition unread {B} (body : string) : result B := Err (ENew "unexpected end of JSON input").
Definition clipboard_of (body : string) : result pasteRequest := Ok (mkPasteRequest "server" "/backup" (mkClipboard "copy" "server" [] ["cfg//./server.cfg"%string])).
Definition pasting := Paste (F:=Recorded unit) clipboard_of.


(** A page the server's owner stored, opened in the browser. *)
Definition page := StreamFile (F:=unit) (ask_for "www/motd.html").
Lemma served_files_are_inert_witness :
  exists a s', page signed_in (to_server_two "") (desk tt) = (Ok (Write StatusOK a), s') /\ harmless a /\
    exists headers, a = Stream headers "hello" /\ sent "Content-Type" headers = Some "application/octet-stream"%string.
Proof.
  eexists _, _. split; [vm_compute; reflexivity|]. split.
  - eapply (served_files_are_inert (F:=unit) (ask_for "www/motd.html") page signed_in (to_server_two "") (desk tt)); [by right; left|vm_compute; reflexivity].
  - eexists. split; reflexivity.
Defined.
End FileSample.
