(* ===== verification/Validation.v ===== *)
(** Checks of text ([pkg/validation]): what may name a game, an address or a
    server's directory.  [net.ParseIP] is modelled as far as the code uses it,
    which is whether it recognises an address. *)

From S2P Require Import Prelude.
From S2P Require Import GoRuntime.
From S2P Require Import FilePath.
From stdpp Require Import base tactics strings list numbers.
From Stdlib Require Import NArith ZArith Ascii.

(** ** Characters *)

Definition between (lo hi c : ascii) : bool := (N_of_ascii lo <=? N_of_ascii c)%N && (N_of_ascii c <=? N_of_ascii hi)%N.
Definition is_lower : ascii -> bool := between "a" "z".
Definition is_upper : ascii -> bool := between "A" "Z".
Definition is_digit : ascii -> bool := between "0" "9".
Definition is_hex (c : ascii) : bool := is_digit c || between "a" "f" c || between "A" "F" c.

Fixpoint all_chars (P : ascii -> bool) (s : string) : bool :=
  match s with EmptyString => true | String c s => P c && all_chars P s end.

Definition IsAlphanumeric (s : string) : bool :=
  negb (String.eqb s "") && all_chars (fun ch => is_lower ch || is_digit ch) s.
Definition IsAlphanumericMixed (s : string) : bool :=
  negb (String.eqb s "") && all_chars (fun ch => is_lower ch || is_upper ch || is_digit ch) s.
Definition IsSlug (s : string) : bool :=
  negb (String.eqb s "") &&
  all_chars (fun ch => is_lower ch || is_digit ch || Ascii.eqb ch "_"%char || Ascii.eqb ch "-"%char) s.
Definition IsASCIILetter (c : ascii) : bool := is_upper c || is_lower c.

(** ** Directories of servers *)

(** [strings.ReplaceAll] of one byte by another. *)
Fixpoint replace_byte (a b : ascii) (s : string) : string :=
  match s with EmptyString => EmptyString | String c s => String (if Ascii.eqb c a then b else c) (replace_byte a b s) end.

Definition IsRelativeServerPath (s : string) : bool :=
  match s with
  | EmptyString => false
  | String c rest =>
      if Ascii.eqb c slash || Ascii.eqb c backslash then false
      else if match rest with String d _ => Ascii.eqb d ":"%char && IsASCIILetter c | EmptyString => false end then false
      else
        let normalized := replace_byte backslash slash s in
        negb (existsb (String.eqb "..") (split_byte slash normalized))
  end.

(** ** Addresses *)

(** One number of a dotted address: digits, no leading zero, at most 255. *)
Fixpoint octet (val : N) (s : string) : bool :=
  match s with
  | EmptyString => true
  | String c s => is_digit c && (let val := val * 10 + (N_of_ascii c - 48) in (val <=? 255) && octet val s)%N
  end.
Definition is_octet (s : string) : bool :=
  match s with
  | EmptyString => false
  | String "0" rest => String.eqb rest ""
  | _ => octet 0 s
  end.
(** [parseIPv4Fields] of [net/netip]. *)
Definition parseIPv4 (s : string) : bool :=
  match split_byte "."%char s with [a; b; c; d] => is_octet a && is_octet b && is_octet c && is_octet d | _ => false end.

(** The leading hexadecimal digits: how many, and what follows. *)
Fixpoint hex_run (s : string) : nat * string :=
  match s with
  | String c rest => if is_hex c then let '(n, rest) := hex_run rest in (S n, rest) else (0, s)
  | EmptyString => (0, s)
  end.
(** Whether the fields read fill the address: the double colon, if there was
    one, stands for at least one field. *)
Definition v6_filled (left : nat) (ellipsis : bool) : bool := match left with O => negb ellipsis | _ => ellipsis end.
(** The loop of [parseIPv6]; [left] of the eight fields are not read yet. *)
Fixpoint v6_fields (left : nat) (ellipsis : bool) (s : string) : bool :=
  match left with
  | O => false
  | S rest_left =>
      let '(off, rest) := hex_run s in
      if (off =? 0) || (4 <? off) then false
      else
        match rest with
        | EmptyString => v6_filled rest_left ellipsis
        | String "." _ =>
            if negb ellipsis && negb (left =? 2) then false
            else if left <? 2 then false
            else parseIPv4 s && v6_filled (left - 2) ellipsis
        | String ":" EmptyString => false
        | String ":" (String ":" rest) =>
            if ellipsis then false
            else if String.eqb rest "" then v6_filled rest_left true
            else v6_fields rest_left true rest
        | String ":" rest => v6_fields rest_left ellipsis rest
        | _ => false
        end
  end.
Definition parseIPv6 (s : string) : bool :=
  match s with
  | String ":" (String ":" rest) => if String.eqb rest "" then true else v6_fields 8 true rest
  | _ => v6_fields 8 false s
  end.

(** Which of the separators comes first decides; an address with a zone is
    none for [net.ParseIP]. *)
Fixpoint first_separator (s : string) : option ascii :=
  match s with
  | EmptyString => None
  | String c s => if existsb (Ascii.eqb c) ["."; ":"; "%"]%char then Some c else first_separator s
  end.
Definition ParseIP_valid (s : string) : bool :=
  match first_separator s with
  | Some "."%char => parseIPv4 s
  | Some ":"%char => negb (has_byte "%"%char s) && parseIPv6 s
  | _ => false
  end.

(** [ipLikeRegex] and [hostnameRegex]. *)
Definition ip_like (s : string) : bool :=
  negb (String.eqb s "") &&
  (all_chars (fun c => is_digit c || Ascii.eqb c "."%char) s || all_chars (fun c => is_hex c || Ascii.eqb c ":"%char) s).
Definition is_alnum (c : ascii) : bool := is_lower c || is_upper c || is_digit c.
Fixpoint last_char (c : ascii) (s : string) : ascii := match s with EmptyString => c | String d s => last_char d s end.
Definition is_label (s : string) : bool :=
  match s with
  | EmptyString => false
  | String c rest =>
      is_alnum c && is_alnum (last_char c rest) && all_chars (fun c => is_alnum c || Ascii.eqb c "-"%char) rest &&
      (String.length s <=? 63)
  end.
Definition hostname (s : string) : bool := forallb is_label (split_byte "."%char s).

Definition IsValidIPOrHostname (value : string) : bool :=
  if ParseIP_valid value then true
  else if ip_like value then false
  else if 253 <? String.length value then false
  else hostname value.

(** ** The repository's own table of tests *)

Example valid_hosts : forallb IsValidIPOrHostname
  ["192.168.1.1"; "8.8.8.8"; "127.0.0.1"; "0.0.0.0"; "2001:0db8:85a3:0000:0000:8a2e:0370:7334";
   "2001:db8:85a3::8a2e:370:7334"; "::1"; "::"; "example.com"; "www.example.com"; "mail.server.example.com";
   "game-server.example.com"; "hldm.org"; "gameap-daemon"; "123server.com"; "::ffff:10.0.0.1"] = true.
Proof. reflexivity. Qed.
Example invalid_hosts : existsb IsValidIPOrHostname
  ["192.168.1.999"; "192.168.1.1.1"; "192.168.1"; "invalid!!!"; "invalid_host"; "invalid host"; "-invalid.com";
   "invalid-.com"; ""; "..."; ".example.com"; "example.com."; "1::2::3"; "01.2.3.4"; "1:2:3:4:5:6:7:8::"; "fe80::1%eth0"] = false.
Proof. reflexivity. Qed.

(** ** What the checks promise *)

(** Parts without backslashes are parts of the normalised text as well. *)
Lemma normalised_parts s :
  match parts s, parts (replace_byte backslash slash s) with
  | h :: t, h' :: t' => (has_byte backslash h = false -> h' = h) /\ forall x, x ∈ t -> has_byte backslash x = false -> x ∈ t'
  | _, _ => False
  end.
Proof.
  unfold parts. induction s as [|c s IH]; [split; [done|by intros x Hx%list.elem_of_nil]|]. cbn [replace_byte split_byte].
  destruct (split_byte slash s) as [|h t]; [done|]. destruct (split_byte slash (replace_byte backslash slash s)) as [|h' t']; [done|].
  destruct IH as [Hh Ht].
  assert (Hcons : forall x, x ∈ t -> has_byte backslash x = false -> x ∈ h' :: t') by (intros x Hx Hb; apply list.elem_of_cons; right; by apply Ht).
  destruct (Ascii.eqb_spec c slash) as [->|Hc].
  - change (Ascii.eqb slash backslash) with false. cbv iota. rewrite Ascii.eqb_refl. split; [done|].
    intros x [->|Hx]%list.elem_of_cons Hb; [rewrite Hh by done; apply list_elem_of_here|by apply Hcons].
  - destruct (Ascii.eqb_spec c backslash) as [->|Hb].
    + change (Ascii.eqb slash slash) with true. cbv iota. split; [done|exact Hcons].
    + rewrite (proj2 (Ascii.eqb_neq _ _) Hc). split; [|exact Ht]. unfold has_byte. simpl.
      rewrite (proj2 (Ascii.eqb_neq _ _) Hb). intros Hn. f_equal. apply Hh. unfold has_byte. by destruct (cut_byte backslash h) as [[]|].
Qed.

(** A relative directory is a path that does not start at the root and whose
    parts do not lead up. *)
Lemma IsRelativeServerPath_safe s : IsRelativeServerPath s = true -> s <> "" /\ rooted s = false /\ no_dotdot (parts s).
Proof.
  destruct s as [|c rest]; [done|]. cbn [IsRelativeServerPath].
  destruct (Ascii.eqb_spec c slash) as [->|Hc]; [done|]. cbn [orb]. destruct (Ascii.eqb c backslash); [done|].
  destruct (match rest with String d _ => _ | EmptyString => false end); [done|]. cbv zeta. intros Hn%negb_true_iff.
  split_and!; [done|rewrite rooted_head; by apply Ascii.eqb_neq|].
  pose proof (normalised_parts (String c rest)) as Hp. unfold parts in Hp at 2. intros x Hx ->.
  apply not_true_iff_false in Hn. apply Hn, existsb_exists. exists "..". split; [|done]. apply list_elem_of_In.
  destruct (parts (String c rest)) as [|h t]; [by apply list.elem_of_nil in Hx|].
  destruct (split_byte slash (replace_byte backslash slash (String c rest))) as [|h' t']; [done|]. destruct Hp as [Hh Ht].
  apply list.elem_of_cons. apply list.elem_of_cons in Hx as [<-|Hx]; [left; symmetry; by apply Hh|right; by apply Ht].
Qed.
