(* ===== verification/Ids.v ===== *)
(** Identifiers ([pkg/idgen]): a server is known by a UUID that carries a
    12-byte XID.  How [rs/xid] draws and prints an XID and how [google/uuid]
    prints a UUID are parameters. *)

From S2P Require Import Prelude.
From S2P Require Import GoRuntime.
From stdpp Require Import base tactics strings list numbers.
From Stdlib Require Import NArith ZArith Ascii.

(** A byte array. *)
Definition bytes (n : nat) (l : list N) : Prop := length l = n /\ Forall (fun b => b < 256)%N l.
Definition byte_at (l : list N) (i : nat) : N := nth i l 0%N.
(** [l\[a:b\]] *)
Definition slice (a b : nat) (l : list N) : list N := take (b - a) (drop a l).

Definition XIDToUUID (id : list N) : list N :=
  slice 0 6 id ++
  [N.lor 0x80 (N.land (byte_at id 6) 0x0F); byte_at id 7; N.lor 0x80 (N.land (byte_at id 8) 0x3F)] ++
  slice 9 12 id ++
  [N.lor (N.land (byte_at id 6) 0xF0) (N.shiftr (N.land (byte_at id 8) 0xC0) 4); 0; 0; 0]%N.

(** The shift is one of a byte. *)
Definition UUIDToXID (u : list N) : list N :=
  slice 0 6 u ++
  [N.lor (N.land (byte_at u 12) 0xF0) (N.land (byte_at u 6) 0x0F); byte_at u 7;
   N.lor (N.land (N.shiftl (byte_at u 12) 4 mod 256) 0xC0) (N.land (byte_at u 8) 0x3F)]%N ++
  slice 9 12 u.

(** [rs/xid] and [google/uuid]: an XID prints as lower-case letters and digits;
    the text of a UUID determines it. *)
Class XIDs : Type := { xid_New : N -> list N; xid_String : list N -> string; uuid_String : list N -> string; uuid_Bytes : string -> list N }.
Definition xid_char (c : ascii) : bool :=
  (48 <=? N_of_ascii c)%N && (N_of_ascii c <=? 57)%N || (97 <=? N_of_ascii c)%N && (N_of_ascii c <=? 118)%N.
Fixpoint xid_text (s : string) : bool := match s with EmptyString => true | String c s => xid_char c && xid_text s end.
Class XIDLaws (X : XIDs) : Prop := {
  xid_bytes : forall n, bytes 12 (xid_New n);
  xid_prints : forall id, bytes 12 id -> xid_text (xid_String id) = true /\ xid_String id <> "";
  uuid_text : forall u, bytes 16 u -> uuid_Bytes (uuid_String u) = u;
}.

(** ** Round trip *)

Definition all_below (n : nat) (P : N -> bool) : bool := forallb (fun i => P (N.of_nat i)) (seq 0 n).
Lemma all_below_spec n P : all_below n P = true -> forall b, (b < N.of_nat n)%N -> P b = true.
Proof.
  unfold all_below. rewrite forallb_forall. intros Hall b Hb. rewrite <- (N2Nat.id b). apply Hall, in_seq. lia.
Qed.

(** Byte 12 gives the displaced bits of bytes 6 and 8 back. *)
Lemma displaced_bits a b : (a < 256)%N -> (b < 256)%N ->
  let c := N.lor (N.land a 0xF0) (N.shiftr (N.land b 0xC0) 4) in
  N.lor (N.land c 0xF0) (N.land (N.lor 0x80 (N.land a 0x0F)) 0x0F) = a /\
  N.lor (N.land (N.shiftl c 4 mod 256) 0xC0) (N.land (N.lor 0x80 (N.land b 0x3F)) 0x3F) = b.
Proof.
  intros Ha Hb. set (P := fun a b => let c := N.lor (N.land a 0xF0) (N.shiftr (N.land b 0xC0) 4) in
    (N.lor (N.land c 0xF0) (N.land (N.lor 0x80 (N.land a 0x0F)) 0x0F) =? a)%N &&
    (N.lor (N.land (N.shiftl c 4 mod 256) 0xC0) (N.land (N.lor 0x80 (N.land b 0x3F)) 0x3F) =? b)%N).
  assert (H : all_below 256 (fun a => all_below 256 (P a)) = true) by (vm_compute; reflexivity).
  pose proof (all_below_spec _ _ (all_below_spec _ _ H a Ha) b Hb) as Hp. unfold P in Hp. apply andb_prop in Hp as [H1 H2].
  split; by apply N.eqb_eq.
Qed.

Lemma marker_bits a b : (a < 256)%N -> (b < 256)%N ->
  let c := N.lor (N.land a 0xF0) (N.shiftr (N.land b 0xC0) 4) in
  let u6 := N.lor 0x80 (N.land a 0x0F) in let u8 := N.lor 0x80 (N.land b 0x3F) in
  (u6 < 256 /\ u8 < 256 /\ c < 256 /\ N.shiftr u6 4 = 8 /\ N.shiftr u8 6 = 2)%N.
Proof.
  intros Ha Hb. set (P := fun a b => let c := N.lor (N.land a 0xF0) (N.shiftr (N.land b 0xC0) 4) in
    let u6 := N.lor 0x80 (N.land a 0x0F) in let u8 := N.lor 0x80 (N.land b 0x3F) in
    ((u6 <? 256) && (u8 <? 256) && (c <? 256) && (N.shiftr u6 4 =? 8) && (N.shiftr u8 6 =? 2))%N).
  assert (H : all_below 256 (fun a => all_below 256 (P a)) = true) by (vm_compute; reflexivity).
  pose proof (all_below_spec _ _ (all_below_spec _ _ H a Ha) b Hb) as Hp. unfold P in Hp. cbv zeta in Hp.
  rewrite !andb_true_iff, !N.ltb_lt, !N.eqb_eq in Hp. cbv zeta. tauto.
Qed.

(** The twelve bytes of an XID. *)
Lemma bytes_12 id : bytes 12 id -> exists a b c d e f g h i j k l, id = [a; b; c; d; e; f; g; h; i; j; k; l].
Proof. intros [Hl _]. do 12 (destruct id as [|? id]; [discriminate Hl|]). destruct id; [|discriminate Hl]. by do 12 eexists. Qed.

Lemma xid_uuid_inverse id : bytes 12 id -> UUIDToXID (XIDToUUID id) = id.
Proof.
  intros Hid. destruct (bytes_12 id Hid) as (a & b & c & d & e & f & g & h & i & j & k & l & ->).
  destruct Hid as [_ Hall]. repeat (apply list.Forall_cons in Hall as [? Hall]). destruct (displaced_bits g i) as [E6 E8]; [done..|].
  unfold UUIDToXID, XIDToUUID, slice, byte_at. cbn [take drop app nth Nat.sub]. by rewrite E6, E8.
Qed.
Lemma xid_uuid_bytes id : bytes 12 id -> bytes 16 (XIDToUUID id).
Proof.
  intros Hid. destruct (bytes_12 id Hid) as (a & b & c & d & e & f & g & h & i & j & k & l & ->).
  destruct Hid as [_ Hall]. repeat (apply list.Forall_cons in Hall as [? Hall]). destruct (marker_bits g i) as (M6 & M8 & M12 & _); [done..|].
  split; [done|]. by repeat (apply list.Forall_cons; split).
Qed.

(** [UUIDToXID] gives back the XID a UUID was made of, whatever its
    twelve bytes, and [XIDToUUID] makes a UUID that standard tools accept:
    sixteen bytes of version 8 and of the RFC 9562 variant. *)
Lemma xid_survives_uuid id : bytes 12 id ->
  UUIDToXID (XIDToUUID id) = id /\ bytes 16 (XIDToUUID id) /\
  N.shiftr (byte_at (XIDToUUID id) 6) 4 = 8%N /\ N.shiftr (byte_at (XIDToUUID id) 8) 6 = 2%N.
Proof.
  intros Hid. split; [by apply xid_uuid_inverse|]. split; [by apply xid_uuid_bytes|].
  destruct (bytes_12 id Hid) as (a & b & c & d & e & f & g & h & i & j & k & l & ->).
  destruct Hid as [_ Hall]. repeat (apply list.Forall_cons in Hall as [? Hall]). by destruct (marker_bits g i) as (_ & _ & _ & V & W).
Qed.

(** ** Printed identifiers *)

(** What the code takes an XID's text for: one part of a path. *)
Lemma xid_text_part s : xid_text s = true -> has_byte "/"%char s = false /\ s <> "..".
Proof.
  intros Hs. split; [|by intros ->]. unfold has_byte. induction s as [|c s IH]; [done|]. simpl in *.
  apply andb_prop in Hs as [Hc Hs]. destruct (Ascii.eqb_spec c "/"%char) as [->|]; [done|].
  specialize (IH Hs). by destruct (cut_byte "/"%char s) as [[]|].
Qed.
