(* ===== verification/Games.v ===== *)
(** Games and game mods: their filters ([internal/filters/games.go],
    [game_mods.go]), the repositories as classes with laws, and the in-memory
    tables ([internal/repositories/inmemory/games.go], [game_mods.go]).  A
    query without order gives its rows in whatever order Go runs over the map. *)

From S2P Require Import Prelude.
From S2P Require Import GoNum.
From S2P Require Import Domain.
From S2P Require Import GoRuntime.
From S2P Require Import Repositories.
From S2P Require Import TaskRepo.
From S2P Require Import RBACRepo.
From S2P Require Import Accounts.
From stdpp Require Import base tactics strings list gmap numbers.
From Stdlib Require Import NArith ZArith.

(** ** Changes of a row *)

Definition gm_set_enabled (e : Z) (g : Game) : Game :=
  mkGame (gm_Code g) (gm_Name g) (gm_Engine g) (gm_EngineVersion g) (gm_SteamAppIDLinux g) (gm_SteamAppIDWindows g)
    (gm_SteamAppSetConfig g) (gm_RemoteRepositoryLinux g) (gm_RemoteRepositoryWindows g) (gm_LocalRepositoryLinux g)
    (gm_LocalRepositoryWindows g) e (gm_Metadata g).
Definition gm_set_metadata (m : metadata) (g : Game) : Game :=
  mkGame (gm_Code g) (gm_Name g) (gm_Engine g) (gm_EngineVersion g) (gm_SteamAppIDLinux g) (gm_SteamAppIDWindows g)
    (gm_SteamAppSetConfig g) (gm_RemoteRepositoryLinux g) (gm_RemoteRepositoryWindows g) (gm_LocalRepositoryLinux g)
    (gm_LocalRepositoryWindows g) (gm_Enabled g) m.
Definition gm_set_names (code name : string) (g : Game) : Game :=
  mkGame code name (gm_Engine g) (gm_EngineVersion g) (gm_SteamAppIDLinux g) (gm_SteamAppIDWindows g)
    (gm_SteamAppSetConfig g) (gm_RemoteRepositoryLinux g) (gm_RemoteRepositoryWindows g) (gm_LocalRepositoryLinux g)
    (gm_LocalRepositoryWindows g) (gm_Enabled g) (gm_Metadata g).

Definition gmod_set_id (i : N) (m : GameMod) : GameMod :=
  mkGameMod i (gmod_GameCode m) (gmod_Name m) (gmod_FastRcon m) (gmod_Vars m) (gmod_RemoteRepositoryLinux m)
    (gmod_RemoteRepositoryWindows m) (gmod_LocalRepositoryLinux m) (gmod_LocalRepositoryWindows m) (gmod_StartCmdLinux m)
    (gmod_StartCmdWindows m) (gmod_KickCmd m) (gmod_BanCmd m) (gmod_ChnameCmd m) (gmod_SrestartCmd m) (gmod_ChmapCmd m)
    (gmod_SendmsgCmd m) (gmod_PasswdCmd m) (gmod_Metadata m).
Definition gmod_set_metadata (md : metadata) (m : GameMod) : GameMod :=
  mkGameMod (gmod_ID m) (gmod_GameCode m) (gmod_Name m) (gmod_FastRcon m) (gmod_Vars m) (gmod_RemoteRepositoryLinux m)
    (gmod_RemoteRepositoryWindows m) (gmod_LocalRepositoryLinux m) (gmod_LocalRepositoryWindows m) (gmod_StartCmdLinux m)
    (gmod_StartCmdWindows m) (gmod_KickCmd m) (gmod_BanCmd m) (gmod_ChnameCmd m) (gmod_SrestartCmd m) (gmod_ChmapCmd m)
    (gmod_SendmsgCmd m) (gmod_PasswdCmd m) md.

(** [if other.X != nil { gm.X = other.X }] *)
Definition or_keep {A} (other mine : option A) : option A := match other with Some _ => other | None => mine end.

Definition Merge (gm other : GameMod) : GameMod :=
  mkGameMod (gmod_ID gm) (gmod_GameCode gm) (gmod_Name gm) (gmod_FastRcon other) (gmod_Vars other)
    (or_keep (gmod_RemoteRepositoryLinux other) (gmod_RemoteRepositoryLinux gm))
    (or_keep (gmod_RemoteRepositoryWindows other) (gmod_RemoteRepositoryWindows gm))
    (gmod_LocalRepositoryLinux gm) (gmod_LocalRepositoryWindows gm)
    (or_keep (gmod_StartCmdLinux other) (gmod_StartCmdLinux gm))
    (or_keep (gmod_StartCmdWindows other) (gmod_StartCmdWindows gm))
    (or_keep (gmod_KickCmd other) (gmod_KickCmd gm)) (or_keep (gmod_BanCmd other) (gmod_BanCmd gm))
    (or_keep (gmod_ChnameCmd other) (gmod_ChnameCmd gm)) (or_keep (gmod_SrestartCmd other) (gmod_SrestartCmd gm))
    (or_keep (gmod_ChmapCmd other) (gmod_ChmapCmd gm)) (or_keep (gmod_SendmsgCmd other) (gmod_SendmsgCmd gm))
    (or_keep (gmod_PasswdCmd other) (gmod_PasswdCmd gm)) (gmod_Metadata gm).

(** ** Filters *)

Record FindGame : Type := mkFindGame { fg_Codes : list string }.
Record FindGameMod : Type := mkFindGameMod { fgm_IDs : list N; fgm_Names : list string; fgm_GameCodes : list string }.
Definition FindGameByCodes (codes : list string) : FindGame := mkFindGame codes.
Definition FindGameModByIDs (ids : list N) : FindGameMod := mkFindGameMod ids [] [].
Definition FindGameModByGameCodes (codes : list string) : FindGameMod := mkFindGameMod [] [] codes.
Definition FindGame_FilterCount (f : FindGame) : Z := kinds [nonempty (fg_Codes f)].
Definition FindGameMod_FilterCount (f : FindGameMod) : Z :=
  kinds [nonempty (fgm_IDs f); nonempty (fgm_Names f); nonempty (fgm_GameCodes f)].

Definition game_matches (f : FindGame) (g : Game) : bool := in_or_any (gm_Code g) (fg_Codes f).
Definition mod_matches (f : FindGameMod) (m : GameMod) : bool :=
  in_or_any (gmod_ID m) (fgm_IDs f) && in_or_any (gmod_GameCode m) (fgm_GameCodes f) && in_or_any (gmod_Name m) (fgm_Names f).

(** ** The interfaces *)

(** The rows a filter selects, in some order, and a page of them. *)
Definition selects_some {K A} `{Countable K} (key : A -> K) (rows : gmap K A) (matches : A -> bool) (p : option Pagination)
  (res : result (list A)) : Prop :=
  exists all, NoDup (map key all) /\ (forall x, x ∈ all <-> rows !! key x = Some x /\ matches x = true) /\
    match res with
    | Ok l => applyPagination all p = Ok l
    | Err _ => True
    | Panic w => applyPagination all p = Panic w
    end.

(** When one key is asked for there is at most one row. *)
Lemma selects_some_one {K A} `{Countable K} (key : A -> K) (rows : gmap K A) matches p res k :
  selects_some key rows matches p res -> p = None \/ p = only_first ->
  (forall x, rows !! key x = Some x -> matches x = true -> key x = k) ->
  (forall x, rows !! k = Some x -> key x = k /\ matches x = true) ->
  match res with
  | Ok l => l = match rows !! k with Some x => [x] | None => [] end
  | Err _ => True
  | Panic _ => False
  end.
Proof.
  intros (all & Hnd & Hel & Hres) Hp Hk Hrow.
  assert (Hall : all = match rows !! k with Some x => [x] | None => [] end).
  { destruct all as [|x all].
    - destruct (rows !! k) as [y|] eqn:E; [|done]. destruct (Hrow y eq_refl) as [Hy Hm]. exfalso.
      apply (list.not_elem_of_nil y), Hel. by rewrite Hy.
    - destruct (proj1 (Hel x) (list_elem_of_here _ _)) as [Hx Hm]. pose proof (Hk x Hx Hm) as Hkx. rewrite Hkx in Hx. rewrite Hx. f_equal.
      destruct all as [|y all]; [done|]. exfalso.
      destruct (proj1 (Hel y)) as [Hy Hmy]; [apply list.elem_of_cons; right; apply list_elem_of_here|].
      simpl in Hnd. apply list.NoDup_cons in Hnd as [Hnd _]. apply Hnd. rewrite Hkx, (Hk y Hy Hmy). apply list_elem_of_here. }
  destruct Hp as [->| ->]; rewrite ?applyPagination_first in Hres; simpl in Hres; destruct res as [l|e|w]; try done.
  - by injection Hres as <-.
  - injection Hres as <-. rewrite Hall. by destruct (rows !! k).
Qed.

Class GameRepository (G : Type) : Type := {
  GR_FindAll : list Sorting -> option Pagination -> M G (list Game);
  GR_Find : FindGame -> list Sorting -> option Pagination -> M G (list Game);
  GR_Save : Game -> M G unit;
  GR_Delete : string -> M G unit;
}.

Class GameRepositoryLaws (G : Type) `{GameRepository G} : Type := {
  gr_inv : G -> Prop;
  gr_rows : G -> gmap string Game;
  gr_rows_code : forall r c g, gr_inv r -> gr_rows r !! c = Some g -> gm_Code g = c;
  gr_find_law : forall f ord p r res r', gr_inv r -> GR_Find f ord p r = (res, r') ->
    gr_inv r' /\ gr_rows r' = gr_rows r /\ selects_some gm_Code (gr_rows r) (game_matches f) p res;
  gr_all_law : forall ord p r res r', gr_inv r -> GR_FindAll ord p r = (res, r') ->
    gr_inv r' /\ gr_rows r' = gr_rows r /\ selects_some gm_Code (gr_rows r) (fun _ => true) p res;
  gr_save_law : forall g r res r', gr_inv r -> GR_Save g r = (res, r') ->
    gr_inv r' /\
    match res with
    | Ok _ => gr_rows r' = <[gm_Code g := g]> (gr_rows r)
    | Err _ => gr_rows r' = gr_rows r
    | Panic _ => False
    end;
  gr_delete_law : forall c r res r', gr_inv r -> GR_Delete c r = (res, r') ->
    gr_inv r' /\
    match res with
    | Ok _ => gr_rows r' = delete c (gr_rows r)
    | Err _ => gr_rows r' = gr_rows r
    | Panic _ => False
    end;
}.

Class GameModRepository (Q : Type) : Type := {
  MR_FindAll : list Sorting -> option Pagination -> M Q (list GameMod);
  MR_Find : FindGameMod -> list Sorting -> option Pagination -> M Q (list GameMod);
  MR_Save : GameMod -> M Q GameMod;
  MR_Delete : N -> M Q unit;
}.

(** A mod is saved under the id it has, or under a new one; [mr_room k] leaves
    ids for [k] new mods. *)
Class GameModRepositoryLaws (Q : Type) `{GameModRepository Q} : Type := {
  mr_inv : Q -> Prop;
  mr_rows : Q -> gmap N GameMod;
  mr_room : nat -> Q -> Prop;
  mr_room_weaken : forall k r, mr_room (S k) r -> mr_room k r;
  mr_rows_id : forall r i m, mr_inv r -> mr_rows r !! i = Some m -> gmod_ID m = i /\ i <> 0%N;
  mr_find_law : forall f ord p r res r', mr_inv r -> MR_Find f ord p r = (res, r') ->
    mr_inv r' /\ mr_rows r' = mr_rows r /\ (forall k, mr_room k r -> mr_room k r') /\
    selects_some gmod_ID (mr_rows r) (mod_matches f) p res;
  mr_all_law : forall ord p r res r', mr_inv r -> MR_FindAll ord p r = (res, r') ->
    mr_inv r' /\ mr_rows r' = mr_rows r /\ (forall k, mr_room k r -> mr_room k r') /\
    selects_some gmod_ID (mr_rows r) (fun _ => true) p res;
  mr_save_law : forall m r res r', mr_inv r ->
    (if decide (gmod_ID m = 0%N) then mr_room 1 r else is_Some (mr_rows r !! gmod_ID m)) ->
    MR_Save m r = (res, r') ->
    mr_inv r' /\
    (forall k, mr_room (if decide (gmod_ID m = 0%N) then S k else k) r -> mr_room k r') /\
    match res with
    | Ok m' => m' = gmod_set_id (gmod_ID m') m /\ mr_rows r' = <[gmod_ID m' := m']> (mr_rows r) /\
        (if decide (gmod_ID m = 0%N) then mr_rows r !! gmod_ID m' = None else gmod_ID m' = gmod_ID m)
    | Err _ => mr_rows r' = mr_rows r
    | Panic _ => False
    end;
  mr_delete_law : forall i r res r', mr_inv r -> MR_Delete i r = (res, r') ->
    mr_inv r' /\ (forall k, mr_room k r -> mr_room k r') /\
    match res with
    | Ok _ => mr_rows r' = delete i (mr_rows r)
    | Err _ => mr_rows r' = mr_rows r
    | Panic _ => False
    end;
}.

(** Asking for one code, or one id, gives the row that has it. *)
Lemma game_by_code `{GameRepositoryLaws G} c p r l r' : gr_inv r -> p = None \/ p = only_first ->
  GR_Find (FindGameByCodes [c]) [] p r = (Ok l, r') -> l = match gr_rows r !! c with Some g => [g] | None => [] end.
Proof.
  intros Hi Hp E. destruct (gr_find_law _ _ _ _ _ _ Hi E) as (_ & _ & Hsel).
  assert (Hkey : forall k g, gr_rows r !! k = Some g -> gm_Code g = k) by (intros k g; by apply gr_rows_code).
  pose proof (selects_some_one _ _ _ _ _ c Hsel Hp) as Hl. cbv beta iota in Hl. unfold game_matches in Hl. cbn [fg_Codes FindGameByCodes in_or_any nonempty] in Hl.
  apply Hl.
  - intros g _ Hm. by apply bool_decide_eq_true, list_elem_of_singleton in Hm.
  - intros g Hg'. split; [by apply Hkey|]. apply bool_decide_eq_true, list_elem_of_singleton. by apply Hkey.
Qed.
Lemma mod_by_id `{GameModRepositoryLaws Q} i p r l r' : mr_inv r -> p = None \/ p = only_first ->
  MR_Find (FindGameModByIDs [i]) [] p r = (Ok l, r') -> l = match mr_rows r !! i with Some m => [m] | None => [] end.
Proof.
  intros Hi Hp E. destruct (mr_find_law _ _ _ _ _ _ Hi E) as (_ & _ & _ & Hsel).
  assert (Hkey : forall k m, mr_rows r !! k = Some m -> gmod_ID m = k) by (intros k m Hk; by destruct (mr_rows_id _ _ _ Hi Hk)).
  pose proof (selects_some_one _ _ _ _ _ i Hsel Hp) as Hl. cbv beta iota in Hl. unfold mod_matches in Hl. cbn [fgm_IDs fgm_Names fgm_GameCodes FindGameModByIDs in_or_any nonempty] in Hl.
  apply Hl.
  - intros m _ Hmm. rewrite !andb_true_r in Hmm. by apply bool_decide_eq_true, list_elem_of_singleton in Hmm.
  - intros m Hm'. split; [by apply Hkey|]. rewrite !andb_true_r. apply bool_decide_eq_true, list_elem_of_singleton. by apply Hkey.
Qed.

(** ** In memory *)

(** The order in which a query without order runs over the table may be another
    one every time: each run has its number. *)
Definition compareGames (a b : Game) (field : string) : comparison :=
  if String.eqb field "code" then String.compare (gm_Code a) (gm_Code b)
  else if String.eqb field "name" then String.compare (gm_Name a) (gm_Name b)
  else Eq.
Definition compareGameMods (a b : GameMod) (field : string) : comparison :=
  if String.eqb field "id" then N.compare (gmod_ID a) (gmod_ID b)
  else if String.eqb field "game_code" then String.compare (gmod_GameCode a) (gmod_GameCode b)
  else if String.eqb field "name" then String.compare (gmod_Name a) (gmod_Name b)
  else Eq.

(** [sortGames], [sortGameMods] *)
Definition sort_by {A} (compare : A -> A -> string -> comparison) (l : list A) (order : list Sorting) : list A :=
  match order with [] => l | _ => sort_slice (less_by compare order) l end.

Lemma sort_by_perm {A} (compare : A -> A -> string -> comparison) l order : sort_by compare l order ≡ₚ l.
Proof. destruct order; [done|apply sort_slice_perm]. Qed.

Record memGameRepo : Type := mkGameRepo { games : gmap string Game; gr_runs : N }.
Definition NewGameRepository : memGameRepo := mkGameRepo ∅ 0.
Record memGameModRepo : Type := mkGameModRepo { gameMods : gmap N GameMod; gmr_nextID : N; gmr_runs : N }.
Definition NewGameModRepository : memGameModRepo := mkGameModRepo ∅ 1 0.

Section memory.
Context `{MapOrder}.

Definition game_list : M memGameRepo (list Game) := fun r =>
  (Ok (map snd (range (gr_runs r) (games r))), mkGameRepo (games r) (gr_runs r + 1)).
Definition games_FindAll (order : list Sorting) (p : option Pagination) : M memGameRepo (list Game) :=
  let! l := game_list in lift (applyPagination (sort_by compareGames l order) p).
Definition games_Find (filter_ : option FindGame) (order : list Sorting) (p : option Pagination) : M memGameRepo (list Game) :=
  let! l := game_list in
  let found :=
    match filter_ with
    | None => l
    | Some f =>
        if nonempty (fg_Codes f)
        then let codeSet : gset string := list_to_set (fg_Codes f) in filter (fun g => gm_Code g ∈ codeSet) l
        else l
    end in
  lift (applyPagination (sort_by compareGames found order) p).
Definition games_Save (game : Game) : M memGameRepo unit :=
  modify (fun r => mkGameRepo (<[gm_Code game := game]> (games r)) (gr_runs r)).
Definition games_Delete (code : string) : M memGameRepo unit :=
  modify (fun r => mkGameRepo (delete code (games r)) (gr_runs r)).

Definition mod_list : M memGameModRepo (list GameMod) := fun r =>
  (Ok (map snd (range (gmr_runs r) (gameMods r))), mkGameModRepo (gameMods r) (gmr_nextID r) (gmr_runs r + 1)).
Definition mods_FindAll (order : list Sorting) (p : option Pagination) : M memGameModRepo (list GameMod) :=
  let! l := mod_list in lift (applyPagination (sort_by compareGameMods l order) p).
Definition keep_mod (f : FindGameMod) (idSet : gset N) (gameCodeSet nameSet : gset string) (m : GameMod) : bool :=
  if nonempty (fgm_IDs f) && negb (bool_decide (gmod_ID m ∈ idSet)) then false
  else if nonempty (fgm_GameCodes f) && negb (bool_decide (gmod_GameCode m ∈ gameCodeSet)) then false
  else if nonempty (fgm_Names f) && negb (bool_decide (gmod_Name m ∈ nameSet)) then false
  else true.
Definition mods_Find (filter_ : option FindGameMod) (order : list Sorting) (p : option Pagination) : M memGameModRepo (list GameMod) :=
  let! l := mod_list in
  let found :=
    match filter_ with
    | None => l
    | Some f => filter (fun m => keep_mod f (list_to_set (fgm_IDs f)) (list_to_set (fgm_GameCodes f)) (list_to_set (fgm_Names f)) m = true) l
    end in
  lift (applyPagination (sort_by compareGameMods found order) p).
(** The id drawn is the counter's value; an id the caller chose is taken as it
    is. *)
Definition mods_Save (m : GameMod) : M memGameModRepo GameMod := fun r =>
  let '(m, next) := if (gmod_ID m =? 0)%N then (gmod_set_id (gmr_nextID r) m, wrap64 (gmr_nextID r + 1)) else (m, gmr_nextID r) in
  (Ok m, mkGameModRepo (<[gmod_ID m := m]> (gameMods r)) next (gmr_runs r)).
Definition mods_Delete (id : N) : M memGameModRepo unit :=
  modify (fun r => mkGameModRepo (delete id (gameMods r)) (gmr_nextID r) (gmr_runs r)).

#[export] Instance memGameRepo_ops : GameRepository memGameRepo := {
  GR_FindAll := games_FindAll; GR_Find f := games_Find (Some f); GR_Save := games_Save; GR_Delete := games_Delete;
}.
#[export] Instance memGameModRepo_ops : GameModRepository memGameModRepo := {
  MR_FindAll := mods_FindAll; MR_Find f := mods_Find (Some f); MR_Save := mods_Save; MR_Delete := mods_Delete;
}.
End memory.

(** *** The contracts *)

Definition games_inv (r : memGameRepo) : Prop := forall c g, games r !! c = Some g -> gm_Code g = c.
Definition mods_inv (r : memGameModRepo) : Prop :=
  (1 <= gmr_nextID r)%N /\ forall i m, gameMods r !! i = Some m -> gmod_ID m = i /\ (0 < i < gmr_nextID r)%N.
Definition mods_room (k : nat) (r : memGameModRepo) : Prop := (gmr_nextID r + N.of_nat k < two64)%N.

Lemma games_inv_new : games_inv NewGameRepository.
Proof. intros c g. simpl. by rewrite lookup_empty. Qed.
Lemma mods_inv_new : mods_inv NewGameModRepository.
Proof. split; [done|]. intros i m. simpl. by rewrite lookup_empty. Qed.

Lemma sublist_map {A B} (f : A -> B) l1 l2 : sublist l1 l2 -> sublist (map f l1) (map f l2).
Proof. induction 1; simpl; by constructor. Qed.

(** A filtered, sorted and paged run over a table answers the query. *)
Lemma query_table {K A} `{Countable K} `{MapOrder} (key : A -> K) (rows : gmap K A) (matches : A -> bool) compare n order p
  (kept : list A -> list A) :
  (forall k x, rows !! k = Some x -> key x = k) ->
  (forall l x, x ∈ kept l <-> x ∈ l /\ matches x = true) -> (forall l, sublist (kept l) l) ->
  selects_some key rows matches p (applyPagination (sort_by compare (kept (map snd (range n rows))) order) p).
Proof.
  intros Hkey Hkept Hsub. exists (sort_by compare (kept (map snd (range n rows))) order). split_and!.
  - rewrite sort_by_perm. refine (sublist_NoDup _ (map key (map snd (range n rows))) _ (sublist_map key _ _ (Hsub _))).
    assert (E : map key (map snd (range n rows)) = map fst (range n rows)).
    { rewrite map_map. apply map_ext_in. intros [k x] Hin%list_elem_of_In. rewrite range_perm in Hin.
      apply elem_of_map_to_list in Hin. by apply Hkey. }
    rewrite E. change (map fst (range n rows)) with ((range n rows).*1). rewrite range_perm. apply NoDup_fst_map_to_list.
  - intros x. rewrite sort_by_perm, Hkept, list_elem_of_In, in_map_iff. setoid_rewrite <- list_elem_of_In. setoid_rewrite range_perm. split.
    + intros [([k y] & <- & Hin%elem_of_map_to_list) Hm]. simpl in *. split; [|done]. by rewrite (Hkey _ _ Hin).
    + intros [Hx Hm]. split; [|done]. exists (key x, x). split; [done|]. by apply elem_of_map_to_list.
  - by destruct (applyPagination _ p).
Qed.

Lemma set_or_any_spec {A} `{Countable A} (x : A) l :
  (nonempty l && negb (bool_decide (x ∈ (list_to_set l : gset A)))) = negb (in_or_any x l).
Proof.
  destruct l as [|a l]; [done|]. cbn [nonempty andb in_or_any]. f_equal. apply bool_decide_ext. by rewrite elem_of_list_to_set.
Qed.

Lemma keep_mod_matches f m :
  keep_mod f (list_to_set (fgm_IDs f)) (list_to_set (fgm_GameCodes f)) (list_to_set (fgm_Names f)) m = mod_matches f m.
Proof.
  unfold keep_mod, mod_matches. rewrite !set_or_any_spec.
  by destruct (in_or_any (gmod_ID m) _), (in_or_any (gmod_GameCode m) _), (in_or_any (gmod_Name m) _).
Qed.

#[export, program] Instance memGameRepo_laws `{MapOrder} : GameRepositoryLaws memGameRepo := {
  gr_inv := games_inv; gr_rows := games;
}.
Next Obligation. intros ? r c g Hi Hg. by apply Hi. Qed.
Next Obligation.
  intros ? f ord p r res r' Hi. simpl. unfold games_Find, bind, game_list, lift. intros [= <- <-]. split; [exact Hi|]. split; [done|].
  apply (query_table gm_Code (games r) (game_matches f) compareGames (gr_runs r) ord p
    (fun l => if nonempty (fg_Codes f) then let codeSet : gset string := list_to_set (fg_Codes f) in filter (fun g => gm_Code g ∈ codeSet) l else l));
    [exact Hi| |].
  - intros l x. unfold game_matches. destruct (fg_Codes f) as [|c cs] eqn:E; cbn [nonempty in_or_any]; [tauto|].
    cbv zeta. rewrite list_elem_of_filter, elem_of_list_to_set, bool_decide_eq_true. tauto.
  - intros l. destruct (nonempty _); [|done]. cbv zeta. apply sublist_filter.
Qed.
Next Obligation.
  intros ? ord p r res r' Hi. simpl. unfold games_FindAll, bind, game_list, lift. intros [= <- <-]. split; [exact Hi|]. split; [done|].
  apply (query_table gm_Code (games r) (fun _ => true) compareGames (gr_runs r) ord p (fun l => l)); [exact Hi| |done]. tauto.
Qed.
Next Obligation.
  intros ? g r res r' Hi [= <- <-]. split; [|done]. intros c x. simpl. rewrite lookup_insert. case_decide; [by intros [= <-]|apply Hi].
Qed.
Next Obligation.
  intros ? c r res r' Hi [= <- <-]. split; [|done]. intros d x. simpl. rewrite lookup_delete. case_decide; [done|apply Hi].
Qed.

#[export, program] Instance memGameModRepo_laws `{MapOrder} : GameModRepositoryLaws memGameModRepo := {
  mr_inv := mods_inv; mr_rows := gameMods; mr_room := mods_room;
}.
Next Obligation. intros ? k r. unfold mods_room. lia. Qed.
Next Obligation. intros ? r i m [_ Hi] Hm. destruct (Hi i m Hm). split; [done|lia]. Qed.
Next Obligation.
  intros ? f ord p r res r' Hi. simpl. unfold mods_Find, bind, mod_list, lift. intros [= <- <-]. split; [exact Hi|]. split; [done|]. split; [done|].
  apply (query_table gmod_ID (gameMods r) (mod_matches f) compareGameMods (gmr_runs r) ord p
    (fun l => filter (fun m => keep_mod f (list_to_set (fgm_IDs f)) (list_to_set (fgm_GameCodes f)) (list_to_set (fgm_Names f)) m = true) l)).
  - intros k x Hx. by apply Hi.
  - intros l x. rewrite list_elem_of_filter, keep_mod_matches. tauto.
  - intros l. apply sublist_filter.
Qed.
Next Obligation.
  intros ? ord p r res r' Hi. simpl. unfold mods_FindAll, bind, mod_list, lift. intros [= <- <-]. split; [exact Hi|]. split; [done|]. split; [done|].
  apply (query_table gmod_ID (gameMods r) (fun _ => true) compareGameMods (gmr_runs r) ord p (fun l => l)); [|tauto|done].
  intros k x Hx. by apply Hi.
Qed.
Next Obligation.
  intros ? m r res r' [Hn Hi] Hsv. simpl in *. unfold mods_Save, mods_room in *. destruct (decide (gmod_ID m = 0%N)) as [Hz|Hz].
  - rewrite Hz. cbn [N.eqb]. intros [= <- <-]. simpl. unfold wrap64. rewrite N.mod_small by lia. split_and!; try done.
    + split; [simpl; lia|]. intros i x. simpl. rewrite lookup_insert. case_decide; [intros [= <-]; subst; simpl; split; [done|lia]|].
      intros Hx. destruct (Hi i x Hx). split; [done|lia].
    + simpl. intros k. lia.
    + destruct (gameMods r !! gmr_nextID r) as [x|] eqn:E; [|done]. destruct (Hi _ _ E). lia.
  - rewrite (proj2 (N.eqb_neq _ _) Hz). intros [= <- <-]. simpl. destruct Hsv as [old Hold]. destruct (Hi _ _ Hold) as [_ Hr].
    split_and!; try done; [|by destruct m]. split; [done|]. intros i x. simpl. rewrite lookup_insert. case_decide; [intros [= <-]; by subst|apply Hi].
Qed.
Next Obligation.
  intros ? i r res r' [Hn Hi] [= <- <-]. split_and!; try done. split; [done|]. intros j x. simpl. rewrite lookup_delete. case_decide; [done|apply Hi].
Qed.
