(* ===== verification/GameImport.v ===== *)
(** Games from elsewhere: the upgrade from the global API
    ([internal/services/games.go], [internal/domain/globalapi.go]), export and
    import of a game with its mods ([internal/domain/gameap_export.go],
    [internal/services/gameexporter], [internal/services/gameapimporter]) and
    the import of Pelican eggs ([internal/services/pelicaneggimporter]).  YAML
    and the global API are parameters, and so is how a text loses its accents. *)

From S2P Require Import Prelude.
From S2P Require Import GoNum.
From S2P Require Import Domain.
From S2P Require Import GoRuntime.
From S2P Require Import Repositories.
From S2P Require Import TaskRepo.
From S2P Require Import FilePath.
From S2P Require Import Validation.
From S2P Require Import Games.
From stdpp Require Import base tactics strings list gmap numbers.
From Stdlib Require Import NArith ZArith Ascii.

(** ** The shelf: games and their mods *)

Record Library (G Q : Type) : Type := mkLibrary { li_games : G; li_mods : Q }.
Arguments mkLibrary {G Q}. Arguments li_games {G Q}. Arguments li_mods {G Q}.

Definition on_games {G Q A} (x : M G A) : M (Library G Q) A := zoom li_games (fun g s => mkLibrary g (li_mods s)) x.
Definition on_mods {G Q A} (x : M Q A) : M (Library G Q) A := zoom li_mods (fun q s => mkLibrary (li_games s) q) x.

(** [mergeMetadata] of both importers. *)
Definition mergeMetadata (existing updated : metadata) : metadata :=
  match existing, updated with
  | None, _ => updated
  | _, None => existing
  | Some e, Some u => Some (u ∪ e)
  end.

Lemma mergeMetadata_same m : mergeMetadata m m = m.
Proof. destruct m as [m|]; [|done]. simpl. f_equal. apply map_eq. intros k. rewrite lookup_union. by destruct (m !! k). Qed.

(** ** The global API *)

Record GlobalAPIGameMod : Type := mkGlobalMod {
  gam_GameCode : string; gam_Name : string;
  gam_FastRcon : list (string * string); gam_Vars : list (string * string * string * bool);
  gam_RemoteRepositoryLinux : string; gam_RemoteRepositoryWindows : string;
  gam_StartCmdLinux : string; gam_StartCmdWindows : string; gam_KickCmd : string; gam_BanCmd : string;
  gam_ChnameCmd : string; gam_SrestartCmd : string; gam_ChmapCmd : string; gam_SendmsgCmd : string;
  gam_PasswdCmd : string; gam_Metadata : metadata;
}.
Record GlobalAPIGame : Type := mkGlobalGame {
  gag_Code : string; gag_Name : string; gag_Engine : string; gag_EngineVersion : string;
  gag_SteamAppIDLinux : N; gag_SteamAppIDWindows : N; gag_SteamAppSetConfig : string;
  gag_RemoteRepositoryLinux : string; gag_RemoteRepositoryWindows : string; gag_Metadata : metadata;
  gag_Mods : list GlobalAPIGameMod;
}.

Definition unless_zero (n : N) : option N := if (n =? 0)%N then None else Some n.
Definition unless_empty (s : string) : option string := if String.eqb s "" then None else Some s.

Definition api_ToDomainGame (g : GlobalAPIGame) : Game :=
  mkGame (gag_Code g) (gag_Name g) (gag_Engine g) (gag_EngineVersion g) (unless_zero (gag_SteamAppIDLinux g))
    (unless_zero (gag_SteamAppIDWindows g)) (unless_empty (gag_SteamAppSetConfig g))
    (unless_empty (gag_RemoteRepositoryLinux g)) (unless_empty (gag_RemoteRepositoryWindows g)) None None 1 (gag_Metadata g).
Definition api_ToDomainGameMod (m : GlobalAPIGameMod) : GameMod :=
  mkGameMod 0 (gam_GameCode m) (gam_Name m) (gam_FastRcon m) (gam_Vars m) (unless_empty (gam_RemoteRepositoryLinux m))
    (unless_empty (gam_RemoteRepositoryWindows m)) None None (unless_empty (gam_StartCmdLinux m))
    (unless_empty (gam_StartCmdWindows m)) (unless_empty (gam_KickCmd m)) (unless_empty (gam_BanCmd m))
    (unless_empty (gam_ChnameCmd m)) (unless_empty (gam_SrestartCmd m)) (unless_empty (gam_ChmapCmd m))
    (unless_empty (gam_SendmsgCmd m)) (unless_empty (gam_PasswdCmd m)) (gam_Metadata m).

(** ** Export files *)

Definition CurrentSchemaVersion : string := "1.0".

Record GameExportMod : Type := mkExportMod {
  xm_Name : string; xm_FastRcon : list (string * string); xm_Vars : list (string * string * string * bool);
  xm_RemoteRepositoryLinux : option string; xm_RemoteRepositoryWindows : option string;
  xm_LocalRepositoryLinux : option string; xm_LocalRepositoryWindows : option string;
  xm_StartCmdLinux : option string; xm_StartCmdWindows : option string; xm_KickCmd : option string; xm_BanCmd : option string;
  xm_ChnameCmd : option string; xm_SrestartCmd : option string; xm_ChmapCmd : option string; xm_SendmsgCmd : option string;
  xm_PasswdCmd : option string; xm_Metadata : metadata;
}.
Record GameExportGame : Type := mkExportGame {
  xg_Code : string; xg_Name : string; xg_Engine : string; xg_EngineVersion : string;
  xg_SteamAppIDLinux : option N; xg_SteamAppIDWindows : option N; xg_SteamAppSetConfig : option string;
  xg_RemoteRepositoryLinux : option string; xg_RemoteRepositoryWindows : option string;
  xg_LocalRepositoryLinux : option string; xg_LocalRepositoryWindows : option string; xg_Metadata : metadata;
}.
Record GameExport : Type := mkExport {
  ex_SchemaVersion : string; ex_ExportedAt : string; ex_ExportedBy : string; ex_Game : GameExportGame; ex_Mods : list GameExportMod;
}.

Definition maxGameCodeLength : nat := 16.
Definition maxGameNameLength : nat := 128.
Definition maxEngineLength : nat := 128.
Definition maxEngineVersionLength : nat := 128.
Definition maxRepositoryLength : nat := 128.
Definition maxStartCmdLength : nat := 1000.
Definition maxCommandLength : nat := 200.
Definition maxModNameLength : nat := 255.
Definition maxSteamAppSetConfigLength : nat := 128.

(** [pkg/strings.IsSlug] takes the empty text for one. *)
Definition IsSlug_or_empty (s : string) : bool :=
  all_chars (fun ch => is_lower ch || is_digit ch || Ascii.eqb ch "_"%char || Ascii.eqb ch "-"%char) s.

Definition too_long (limit : nat) (s : string) : bool := limit <? String.length s.
Definition too_long_opt (limit : nat) (s : option string) : bool := match s with Some s => too_long limit s | None => false end.

(** The first failing check of a list gives its error. *)
Fixpoint first_error (checks : list (bool * string)) : option error :=
  match checks with
  | [] => None
  | (failed, msg) :: checks => if failed then Some (ENew msg) else first_error checks
  end.

Definition validateGame (g : GameExportGame) : option error :=
  first_error
    [(String.eqb (xg_Code g) "", "game.code is required");
     ((String.length (xg_Code g) <? 2) || too_long maxGameCodeLength (xg_Code g), "game.code must be between 2 and 16 characters");
     (negb (IsSlug_or_empty (xg_Code g)), "game.code must match pattern: ^[a-z0-9_-]+$");
     (String.eqb (xg_Name g) "", "game.name is required");
     ((String.length (xg_Name g) <? 2) || too_long maxGameNameLength (xg_Name g), "game.name must be between 2 and 128 characters");
     (String.eqb (xg_Engine g) "", "game.engine is required");
     (too_long maxEngineLength (xg_Engine g), "game.engine must be at most 128 characters");
     (too_long maxEngineVersionLength (xg_EngineVersion g), "game.engine_version must be at most 128 characters");
     (too_long_opt maxRepositoryLength (xg_RemoteRepositoryLinux g), "game.remote_repository_linux must be at most 128 characters");
     (too_long_opt maxRepositoryLength (xg_RemoteRepositoryWindows g), "game.remote_repository_windows must be at most 128 characters");
     (too_long_opt maxRepositoryLength (xg_LocalRepositoryLinux g), "game.local_repository_linux must be at most 128 characters");
     (too_long_opt maxRepositoryLength (xg_LocalRepositoryWindows g), "game.local_repository_windows must be at most 128 characters");
     (too_long_opt maxSteamAppSetConfigLength (xg_SteamAppSetConfig g), "game.steam_app_set_config must be at most 128 characters")].

(** Which of several long commands is reported depends on the order of a map;
    here it is the first. *)
Definition validateModCommands (m : GameExportMod) (index : N) : option error :=
  let at_ field limit := "mods[" +:+ FormatUint index +:+ "]." +:+ field +:+ " must be at most " +:+ limit +:+ " characters" in
  first_error
    [(too_long_opt maxStartCmdLength (xm_StartCmdLinux m), at_ "start_cmd_linux" "1000");
     (too_long_opt maxStartCmdLength (xm_StartCmdWindows m), at_ "start_cmd_windows" "1000");
     (too_long_opt maxCommandLength (xm_KickCmd m), at_ "kick_cmd" "200");
     (too_long_opt maxCommandLength (xm_BanCmd m), at_ "ban_cmd" "200");
     (too_long_opt maxCommandLength (xm_ChnameCmd m), at_ "chname_cmd" "200");
     (too_long_opt maxCommandLength (xm_SrestartCmd m), at_ "srestart_cmd" "200");
     (too_long_opt maxCommandLength (xm_ChmapCmd m), at_ "chmap_cmd" "200");
     (too_long_opt maxCommandLength (xm_SendmsgCmd m), at_ "sendmsg_cmd" "200");
     (too_long_opt maxCommandLength (xm_PasswdCmd m), at_ "passwd_cmd" "200");
     (too_long_opt maxRepositoryLength (xm_RemoteRepositoryLinux m), at_ "remote_repository_linux" "128");
     (too_long_opt maxRepositoryLength (xm_RemoteRepositoryWindows m), at_ "remote_repository_windows" "128");
     (too_long_opt maxRepositoryLength (xm_LocalRepositoryLinux m), at_ "local_repository_linux" "128");
     (too_long_opt maxRepositoryLength (xm_LocalRepositoryWindows m), at_ "local_repository_windows" "128")].

Fixpoint validate_mods (modNames : gset string) (i : N) (l : list GameExportMod) : option error :=
  match l with
  | [] => None
  | m :: l =>
      let at_ := "mods[" +:+ FormatUint i +:+ "]" in
      if String.eqb (xm_Name m) "" then Some (ENew (at_ +:+ ".name is required"))
      else if too_long maxModNameLength (xm_Name m) then Some (ENew (at_ +:+ ".name must be at most 255 characters"))
      else if decide (xm_Name m ∈ modNames) then Some (ENew ("duplicate mod name: " +:+ xm_Name m))
      else match validateModCommands m i with
           | Some e => Some e
           | None => validate_mods ({[xm_Name m]} ∪ modNames) (i + 1) l
           end
  end.
Definition validateMods (e : GameExport) : option error := validate_mods ∅ 0 (ex_Mods e).

Definition export_Validate (e : GameExport) : option error :=
  if String.eqb (ex_SchemaVersion e) "" then Some (ENew "schema_version is required")
  else if negb (String.eqb (ex_SchemaVersion e) CurrentSchemaVersion)
  then Some (ENew ("unsupported schema version: " +:+ ex_SchemaVersion e +:+ ", expected: " +:+ CurrentSchemaVersion))
  else match validateGame (ex_Game e) with
       | Some err => Some (EWrap "game validation failed" err)
       | None => match validateMods e with Some err => Some (EWrap "mods validation failed" err) | None => None end
       end.

Definition export_ToDomainGame (g : GameExportGame) : Game :=
  mkGame (xg_Code g) (xg_Name g) (xg_Engine g) (xg_EngineVersion g) (xg_SteamAppIDLinux g) (xg_SteamAppIDWindows g)
    (xg_SteamAppSetConfig g) (xg_RemoteRepositoryLinux g) (xg_RemoteRepositoryWindows g) (xg_LocalRepositoryLinux g)
    (xg_LocalRepositoryWindows g) 1 (xg_Metadata g).
Definition export_ToDomainGameMod (m : GameExportMod) (gameCode : string) : GameMod :=
  mkGameMod 0 gameCode (xm_Name m) (xm_FastRcon m) (xm_Vars m) (xm_RemoteRepositoryLinux m) (xm_RemoteRepositoryWindows m)
    (xm_LocalRepositoryLinux m) (xm_LocalRepositoryWindows m) (xm_StartCmdLinux m) (xm_StartCmdWindows m) (xm_KickCmd m)
    (xm_BanCmd m) (xm_ChnameCmd m) (xm_SrestartCmd m) (xm_ChmapCmd m) (xm_SendmsgCmd m) (xm_PasswdCmd m) (xm_Metadata m).

Definition newGameExportModFromDomain (m : GameMod) : GameExportMod :=
  mkExportMod (gmod_Name m) (gmod_FastRcon m) (gmod_Vars m) (gmod_RemoteRepositoryLinux m) (gmod_RemoteRepositoryWindows m)
    (gmod_LocalRepositoryLinux m) (gmod_LocalRepositoryWindows m) (gmod_StartCmdLinux m) (gmod_StartCmdWindows m)
    (gmod_KickCmd m) (gmod_BanCmd m) (gmod_ChnameCmd m) (gmod_SrestartCmd m) (gmod_ChmapCmd m) (gmod_SendmsgCmd m)
    (gmod_PasswdCmd m) (gmod_Metadata m).
(** [exportedAt] is the time, formatted. *)
Definition NewGameExportFromDomain (exportedAt : string) (game : Game) (mods : list GameMod) (version : string) : GameExport :=
  mkExport CurrentSchemaVersion exportedAt (if String.eqb version "" then "GameAP" else "GameAP " +:+ version)
    (mkExportGame (gm_Code game) (gm_Name game) (gm_Engine game) (gm_EngineVersion game) (gm_SteamAppIDLinux game)
       (gm_SteamAppIDWindows game) (gm_SteamAppSetConfig game) (gm_RemoteRepositoryLinux game)
       (gm_RemoteRepositoryWindows game) (gm_LocalRepositoryLinux game) (gm_LocalRepositoryWindows game) (gm_Metadata game))
    (map newGameExportModFromDomain mods).

(** [gamesimport.Options]: another name and code for what is imported. *)
Record Options : Type := mkOptions { op_Name : option string; op_Code : option string }.
Definition bad_length (s : string) (lo hi : nat) : bool := (String.length s <? lo) || (hi <? String.length s).
Definition Options_Validate (o : option Options) : option error :=
  match o with
  | None => None
  | Some o =>
      match op_Code o with
      | Some c =>
          if bad_length c 2 16 then Some (ENew "code must be between 2 and 16 characters")
          else if negb (IsSlug_or_empty c) then Some (ENew "code must match pattern: ^[a-z0-9_-]+$")
          else match op_Name o with
               | Some n => if bad_length n 2 128 then Some (ENew "name must be between 2 and 128 characters") else None
               | None => None
               end
      | None =>
          match op_Name o with
          | Some n => if bad_length n 2 128 then Some (ENew "name must be between 2 and 128 characters") else None
          | None => None
          end
      end
  end.

(** ** Pelican eggs *)

Record PelicanEggVariable : Type := mkEggVariable {
  ev_Name : string; ev_Description : string; ev_EnvVariable : string; ev_DefaultValue : string; ev_UserEditable : bool;
}.
(** The fields the importer reads; [pe_Raw] is the whole egg as text, and
    [pe_DockerImage] the image [FirstDockerImage] happens to meet first. *)
Record PelicanEgg : Type := mkEgg {
  pe_Name : string; pe_Startup : string; pe_StartupCommands : gmap string string; pe_DockerImage : string;
  pe_InstallScript : string; pe_InstallContainer : string; pe_InstallEntrypoint : string; pe_StartupDone : string;
  pe_Variables : list PelicanEggVariable; pe_Raw : string;
}.

Definition GetStartupCommand (e : PelicanEgg) : string :=
  match pe_StartupCommands e !! "Default"%string with
  | Some cmd => if String.eqb cmd "" then pe_Startup e else cmd
  | None => pe_Startup e
  end.

(** [strings.ReplaceAll] and [ReplaceAllString]: at each place the text is
    rewritten by the rule or its first byte is kept.  Every step consumes at
    least one byte. *)
Fixpoint replace_all (fuel : nat) (rule : string -> option (string * string)) (s : string) : string :=
  match fuel with
  | O => s
  | S fuel =>
      match rule s with
      | Some (new, rest) => new +:+ replace_all fuel rule rest
      | None => match s with EmptyString => EmptyString | String c s => String c (replace_all fuel rule s) end
      end
  end.
Definition rewrite_all (rule : string -> option (string * string)) (s : string) : string := replace_all (S (String.length s)) rule s.

(** What follows a prefix. *)
Fixpoint after_prefix (p s : string) : option string :=
  match p, s with
  | EmptyString, _ => Some s
  | String a p, String b s => if Ascii.eqb a b then after_prefix p s else None
  | _, EmptyString => None
  end.
Definition literal (old new s : string) : option (string * string) :=
  match after_prefix old s with Some rest => Some (new, rest) | None => None end.

(** [\[A-Z_\]\[A-Z0-9_\]*] *)
Fixpoint env_tail (s : string) : string * string :=
  match s with
  | String c rest =>
      if is_upper c || is_digit c || Ascii.eqb c "_"%char then let '(a, b) := env_tail rest in (String c a, b) else (EmptyString, s)
  | EmptyString => (EmptyString, s)
  end.
Definition env_name (s : string) : option (string * string) :=
  match s with
  | String c rest => if is_upper c || Ascii.eqb c "_"%char then let '(a, b) := env_tail rest in Some (String c a, b) else None
  | EmptyString => None
  end.
Definition env_pattern (before s : string) : option (string * string) :=
  match after_prefix before s with
  | Some rest =>
      match env_name rest with
      | Some (name, rest) => match after_prefix "}}" rest with Some rest => Some ("{" +:+ name +:+ "}", rest) | None => None end
      | None => None
      end
  | None => None
  end.

Definition needsShellWrapper (cmd : string) : bool :=
  existsb (Contains cmd) ["&&"; "||"; ";"; "|"; ">"; "<"; ">>"; "<<"; "&"; "`"; "$("].
Definition quote : string := String (Ascii.ascii_of_N 34) "".
Definition wrapInShell (cmd : string) : string :=
  "/bin/sh -c " +:+ quote +:+ rewrite_all (literal quote ("\" +:+ quote)) cmd +:+ quote.

Definition transformStartupCommand (startup : string) : string :=
  let result := rewrite_all (literal "{{server.build.default.port}}" "{port}") startup in
  let result := rewrite_all (literal "{{server.build.env.PORT}}" "{port}") result in
  let result := rewrite_all (literal "{{server.build.default.ip}}" "{ip}") result in
  let result := rewrite_all (literal "{{server.build.env.SERVER_IP}}" "{ip}") result in
  let result := rewrite_all (env_pattern "{{") result in
  let result := rewrite_all (env_pattern "{{server.build.env.") result in
  if needsShellWrapper result then wrapInShell result else result.

Definition buildVarInfo (v : PelicanEggVariable) : string :=
  if String.eqb (ev_Description v) "" then ev_Name v else ev_Description v.
Definition transformVariables (l : list PelicanEggVariable) : list (string * string * string * bool) :=
  map (fun v => (ev_EnvVariable v, ev_DefaultValue v, buildVarInfo v, negb (ev_UserEditable v))) l.

Definition buildGameModMetadata (e : PelicanEgg) : metadata :=
  Some (list_to_map
    [("docker_image", pe_DockerImage e); ("docker_installation_script", pe_InstallScript e);
     ("docker_installation_image", pe_InstallContainer e); ("docker_installation_entrypoint", pe_InstallEntrypoint e);
     ("docker_installation_user", "root"); ("docker_startup_done", pe_StartupDone e);
     ("docker_workdir", "/home/container"); ("pelican_egg", pe_Raw e)]%string).

(** Runs of other characters become one dash. *)
Fixpoint dashes (prevDash : bool) (s : string) : string :=
  match s with
  | EmptyString => EmptyString
  | String c s =>
      if is_lower c || is_digit c then String c (dashes false s)
      else if prevDash then dashes true s else String "-"%char (dashes true s)
  end.
Fixpoint trim_left_byte (b : ascii) (s : string) : string :=
  match s with String c s' => if Ascii.eqb c b then trim_left_byte b s' else s | EmptyString => s end.
Fixpoint trim_right_byte (b : ascii) (s : string) : string :=
  match s with
  | EmptyString => EmptyString
  | String c s =>
      match trim_right_byte b s with
      | EmptyString => if Ascii.eqb c b then EmptyString else String c EmptyString
      | s' => String c s'
      end
  end.

Section eggs.
(** The transformation of [golang.org/x/text] that takes accents off. *)
Context (normalize : string -> string) `{Unicode}.

Definition slugify (s : string) : string :=
  let normalized := ToLower (normalize s) in
  trim_right_byte "-"%char (trim_left_byte "-"%char (dashes false normalized)).
Definition generateGameCode (name : string) : string :=
  let code := replace_byte "-"%char "_"%char (slugify name) in
  let code := if 16 <? String.length code then String.substring 0 16 code else code in
  let code := trim_right_byte "_"%char code in
  if String.length code <? 2 then "gm" else code.

Definition buildEntities (egg : PelicanEgg) (opts : option Options) : Game * GameMod :=
  let gameCode := default (generateGameCode (pe_Name egg)) (opts ≫= op_Code) in
  let gameName := default (pe_Name egg) (opts ≫= op_Name) in
  (mkGame gameCode gameName "pelican" "" None None None None None None None 1 (Some {["pelican_egg" := pe_Raw egg]}),
   mkGameMod 0 gameCode "Default" [] (transformVariables (pe_Variables egg)) None None None None
     (Some (transformStartupCommand (GetStartupCommand egg))) None None None None None None None None (buildGameModMetadata egg)).
End eggs.

(** ** The services *)

Section services.
Context {G Q : Type} `{GameRepository G} `{GameModRepository Q}.
Abbreviation L := (Library G Q).
(** [tm.Do] *)
Context (tm_Do : forall A, M L A -> M L A).

Definition find_named (name code : string) : M L (list GameMod) := on_mods (MR_Find (mkFindGameMod [] [name] [code]) [] None).

(** *** [UpgradeGames] *)

Definition upgrade_mod (apiMod : GlobalAPIGameMod) : M L unit :=
  let! gameMods := wrap "failed to find game mod" (find_named (gam_Name apiMod) (gam_GameCode apiMod)) in
  match gameMods with
  | _ :: _ :: _ => ret tt
  | [gameMod] => let! _ := wrap "failed to save game mod" (on_mods (MR_Save (Games.Merge gameMod (api_ToDomainGameMod apiMod)))) in ret tt
  | [] => let! _ := wrap "failed to save game mod" (on_mods (MR_Save (api_ToDomainGameMod apiMod))) in ret tt
  end.
Definition upgrade_game (apiGame : GlobalAPIGame) : M L unit :=
  do! wrap "failed to save game" (on_games (GR_Save (api_ToDomainGame apiGame))) ;;
  for_each (gag_Mods apiGame) upgrade_mod.
Definition UpgradeGames (api : result (list GlobalAPIGame)) : M L unit :=
  let! apiGames := wrap "failed to fetch games from global api" (lift api) in
  tm_Do _ (for_each apiGames upgrade_game).

(** *** Export *)

Definition ExportToStruct (exportedAt version gameCode : string) : M L GameExport :=
  if String.eqb gameCode "" then fail (ENew "game code is required")
  else
    let! found := wrap "failed to find game" (on_games (GR_Find (FindGameByCodes [gameCode]) [] None)) in
    match found with
    | [] => fail (ENew ("game with code " +:+ gameCode +:+ " not found"))
    | game :: _ =>
        let! mods := wrap "failed to find game mods" (on_mods (MR_Find (FindGameModByGameCodes [gameCode]) [] None)) in
        ret (NewGameExportFromDomain exportedAt game mods version)
    end.
Definition Export (to_yaml : GameExport -> result string) (exportedAt version gameCode : string) : M L string :=
  let! export := ExportToStruct exportedAt version gameCode in
  wrap "failed to marshal export to YAML" (lift (to_yaml export)).

(** *** Import *)

Record ImportResult : Type := mkImportResult { ir_Game : Game; ir_ModsCreated : list string; ir_ModsUpdated : list string }.

(** A game is put under its code, with the metadata of the one it replaces. *)
Definition put_game (game : Game) : M L Game :=
  let! existing := wrap "failed to find existing game" (on_games (GR_Find (FindGameByCodes [gm_Code game]) [] None)) in
  let game := match existing with old :: _ => gm_set_metadata (mergeMetadata (gm_Metadata old) (gm_Metadata game)) game | [] => game end in
  do! wrap "failed to save game" (on_games (GR_Save game)) ;;
  ret game.

(** One mod; whether it was new. *)
Definition put_mod (code : string) (m : GameMod) : M L (GameMod * bool) :=
  let! existing := wrap "failed to find existing game mod" (find_named (gmod_Name m) code) in
  let '(m, created) :=
    match existing with
    | old :: _ => (gmod_set_metadata (mergeMetadata (gmod_Metadata old) (gmod_Metadata m)) (gmod_set_id (gmod_ID old) m), false)
    | [] => (m, true)
    end in
  let! m := wrap "failed to save game mod" (on_mods (MR_Save m)) in
  ret (m, created).
Fixpoint put_mods (code : string) (l : list GameMod) (r : ImportResult) : M L ImportResult :=
  match l with
  | [] => ret r
  | m :: l =>
      let! done_ := put_mod code m in
      put_mods code l
        (if snd done_ then mkImportResult (ir_Game r) (ir_ModsCreated r ++ [gmod_Name m]) (ir_ModsUpdated r)
         else mkImportResult (ir_Game r) (ir_ModsCreated r) (ir_ModsUpdated r ++ [gmod_Name m]))
  end.

Definition Import (export : option GameExport) (opts : option Options) : M L ImportResult :=
  match export with
  | None => fail (ENew "export cannot be nil")
  | Some export =>
      match export_Validate export with
      | Some e => fail (EWrap "validation failed" e)
      | None =>
          match Options_Validate opts with
          | Some e => fail (EWrap "options validation failed" e)
          | None =>
              let game := export_ToDomainGame (ex_Game export) in
              let game := gm_set_names (default (gm_Code game) (opts ≫= op_Code)) (default (gm_Name game) (opts ≫= op_Name)) game in
              let mods := map (fun m => export_ToDomainGameMod m (gm_Code game)) (ex_Mods export) in
              tm_Do _ (let! game := put_game game in put_mods (gm_Code game) mods (mkImportResult game [] []))
          end
      end
  end.

(** *** Eggs *)

Definition saveEntities (game : Game) (gameMod : GameMod) : M L (Game * GameMod) :=
  tm_Do _ (
    let! game := put_game game in
    let! existing := wrap "failed to find existing game mod" (find_named "Default" (gm_Code game)) in
    let gameMod := match existing with
      | old :: _ => gmod_set_metadata (mergeMetadata (gmod_Metadata old) (gmod_Metadata gameMod)) (gmod_set_id (gmod_ID old) gameMod)
      | [] => gameMod
      end in
    let! gameMod := wrap "failed to save game mod" (on_mods (MR_Save gameMod)) in
    ret (game, gameMod)).
Definition ImportEgg `{Unicode} (normalize : string -> string) (egg : option PelicanEgg) (opts : option Options) : M L (Game * GameMod) :=
  match egg with
  | None => fail (ENew "egg cannot be nil")
  | Some egg =>
      if String.eqb (pe_Name egg) "" then fail (ENew "egg name is required")
      else match Options_Validate opts with
           | Some e => fail (EWrap "options validation failed" e)
           | None => let '(game, gameMod) := buildEntities normalize egg opts in saveEntities game gameMod
           end
  end.
End services.

Example egg_commands :
  transformStartupCommand "./server -port {{server.build.default.port}} -name {{SERVER_NAME}} {{lower}}" = "./server -port {port} -name {SERVER_NAME} {{lower}}" /\
  transformStartupCommand "cd x && ./run {{server.build.env.MAP_1}}" = "/bin/sh -c " +:+ quote +:+ "cd x && ./run {MAP_1}" +:+ quote.
Proof. split; reflexivity. Qed.

(** ** What the services do to the shelf *)

Section specs.
Context {G Q : Type} `{GameRepositoryLaws G} `{GameModRepositoryLaws Q}.
Abbreviation L := (Library G Q).
Implicit Types s : L.

Definition lgames s : gmap string Game := gr_rows (li_games s).
Definition lmods s : gmap N GameMod := mr_rows (li_mods s).
Definition linv s : Prop := gr_inv (li_games s) /\ mr_inv (li_mods s).
Definition lroom (k : nat) s : Prop := mr_room k (li_mods s).

Lemma lroom_le k j s : j <= k -> lroom k s -> lroom j s.
Proof. induction 1; [done|]. intros Hr. apply IHle. by apply mr_room_weaken. Qed.

(** A transaction that fails may be taken back; ids drawn in it may be lost. *)
Definition taken_back s s1 s' : Prop :=
  linv s' /\ lgames s' = lgames s /\ lmods s' = lmods s /\ forall k, lroom k s1 -> lroom k s'.
Definition atomic (tm_Do : forall A, M L A -> M L A) : Prop :=
  forall A (x : M L A) s, tm_Do A x s = x s \/
    (is_ok (fst (x s)) = false /\ fst (tm_Do A x s) = fst (x s) /\ taken_back s (snd (x s)) (snd (tm_Do A x s))).

(** Nothing is taken off the shelf; at most [k] new mods. *)
Definition grown (k : nat) s s' : Prop :=
  linv s' /\ dom (lgames s) ⊆ dom (lgames s') /\ dom (lmods s) ⊆ dom (lmods s') /\ forall j, lroom (k + j) s -> lroom j s'.
Definition grows {A} (k : nat) (x : M L A) : Prop :=
  forall s, linv s -> lroom k s -> wp x (fun r s' => grown k s s' /\ forall w, r <> Panic w) s.

Lemma grown_refl k s : linv s -> grown k s s.
Proof. intros Hi. split_and!; [exact Hi|done|done|]. intros j. apply lroom_le. lia. Qed.
Lemma grown_trans k1 k2 s1 s2 s3 : grown k1 s1 s2 -> grown k2 s2 s3 -> grown (k1 + k2) s1 s3.
Proof.
  intros (_ & Hg & Hm & Hr) (Hi' & Hg' & Hm' & Hr'). split_and!; [exact Hi'|set_solver|set_solver|].
  intros j Hj. apply Hr', Hr. by replace (k1 + (k2 + j)) with (k1 + k2 + j) by lia.
Qed.
Lemma grown_le k1 k2 s s' : k1 <= k2 -> grown k1 s s' -> grown k2 s s'.
Proof.
  intros Hk (Hi & Hg & Hm & Hr). split_and!; [exact Hi|done|done|]. intros j Hj. apply Hr. revert Hj. apply lroom_le. lia.
Qed.

Lemma grows_ret {A} (a : A) : grows 0 (ret a).
Proof. intros s Hi Hr. wp_step. split; [by apply grown_refl|done]. Qed.
Lemma grows_fail {A} e : grows (A:=A) 0 (fail e).
Proof. intros s Hi Hr. wp_step. split; [by apply grown_refl|done]. Qed.
Lemma grows_bind {A B} k1 k2 (x : M L A) (f : A -> M L B) : grows k1 x -> (forall a, grows k2 (f a)) -> grows (k1 + k2) (bind x f).
Proof.
  intros Hx Hf s Hi Hr. wp_step. eapply wp_mono; [apply (Hx s Hi); revert Hr; apply lroom_le; lia|]. intros [a|e|w] s1 [Hg Hp].
  - eapply wp_mono; [apply (Hf a s1)|].
    + apply Hg.
    + destruct Hg as (_ & _ & _ & Hrm). apply Hrm. exact Hr.
    + intros r s2 [Hg2 Hp2]. split; [by eapply grown_trans|done].
  - split; [|done]. eapply grown_le; [|exact Hg]. lia.
  - by destruct (Hp w).
Qed.
Lemma grows_wrap {A} k msg (x : M L A) : grows k x -> grows k (wrap msg x).
Proof. intros Hx s Hi Hr. wp_step. eapply wp_mono; [by apply Hx|]. intros [a|e|w] s1 [Hg Hp]; (split; [done|]); [done|done|by destruct (Hp w)]. Qed.
Lemma grows_le {A} k1 k2 (x : M L A) : k1 <= k2 -> grows k1 x -> grows k2 x.
Proof.
  intros Hk Hx s Hi Hr. eapply wp_mono; [apply (Hx s Hi); revert Hr; by apply lroom_le|]. intros r s1 [Hg Hp]. split; [by eapply grown_le|done].
Qed.

(** *** Calls of the repositories *)

Definition same_shelf s s' : Prop :=
  linv s' /\ lgames s' = lgames s /\ lmods s' = lmods s /\ forall k, lroom k s -> lroom k s'.
Lemma same_shelf_grown s s' : same_shelf s s' -> grown 0 s s'.
Proof. intros (Hi & Hg & Hm & Hr). split_and!; [exact Hi|by rewrite Hg|by rewrite Hm|exact Hr]. Qed.

Lemma wp_find_games f ord s : linv s ->
  wp (on_games (GR_Find f ord None)) (fun r s' => same_shelf s s' /\
    match r with
    | Ok l => NoDup (map gm_Code l) /\ forall g, g ∈ l <-> lgames s !! gm_Code g = Some g /\ game_matches f g = true
    | Err _ => True
    | Panic _ => False
    end) s.
Proof.
  intros [Hg Hm]. unfold on_games. wp_step. apply wp_intro. intros r g E.
  destruct (gr_find_law _ _ _ _ _ _ Hg E) as (Hg' & Hrow & all & Hnd & Hel & Hres). split.
  - split_and!; done.
  - destruct r as [l|e|w]; [|done|done]. injection Hres as <-. done.
Qed.
Lemma wp_find_mods f ord s : linv s ->
  wp (on_mods (MR_Find f ord None)) (fun r s' => same_shelf s s' /\
    match r with
    | Ok l => NoDup (map gmod_ID l) /\ forall m, m ∈ l <-> lmods s !! gmod_ID m = Some m /\ mod_matches f m = true
    | Err _ => True
    | Panic _ => False
    end) s.
Proof.
  intros [Hg Hm]. unfold on_mods. wp_step. apply wp_intro. intros r q E.
  destruct (mr_find_law _ _ _ _ _ _ Hm E) as (Hm' & Hrow & Hroom & all & Hnd & Hel & Hres). split.
  - split_and!; done.
  - destruct r as [l|e|w]; [|done|done]. injection Hres as <-. done.
Qed.
Lemma wp_save_game g s : linv s ->
  wp (on_games (GR_Save g)) (fun r s' => linv s' /\ lmods s' = lmods s /\ (forall k, lroom k s -> lroom k s') /\
    match r with Ok _ => lgames s' = <[gm_Code g := g]> (lgames s) | Err _ => lgames s' = lgames s | Panic _ => False end) s.
Proof.
  intros [Hg Hm]. unfold on_games. wp_step. apply wp_intro. intros r g' E. destruct (gr_save_law _ _ _ _ Hg E) as (Hg' & Hres). by split_and!.
Qed.
Lemma wp_save_mod m s : linv s -> (if decide (gmod_ID m = 0%N) then lroom 1 s else is_Some (lmods s !! gmod_ID m)) ->
  wp (on_mods (MR_Save m)) (fun r s' => linv s' /\ lgames s' = lgames s /\
    (forall k, lroom (if decide (gmod_ID m = 0%N) then S k else k) s -> lroom k s') /\
    match r with
    | Ok m' => m' = gmod_set_id (gmod_ID m') m /\ lmods s' = <[gmod_ID m' := m']> (lmods s) /\
        (if decide (gmod_ID m = 0%N) then lmods s !! gmod_ID m' = None else gmod_ID m' = gmod_ID m)
    | Err _ => lmods s' = lmods s
    | Panic _ => False
    end) s.
Proof.
  intros [Hg Hm] Hsv. unfold on_mods. wp_step. apply wp_intro. intros r q E. destruct (mr_save_law _ _ _ _ Hm Hsv E) as (Hm' & Hroom & Hres).
  by split_and!.
Qed.

Lemma grows_save_game g : grows 0 (on_games (GR_Save g)).
Proof.
  intros s Hi Hr. eapply wp_mono; [by apply wp_save_game|]. intros r s' (Hi' & Hm & Hrm & Hres). split; [|by intros w ->].
  split_and!; [exact Hi'| |by rewrite Hm|exact Hrm]. destruct r; [rewrite Hres; set_solver|by rewrite Hres|done].
Qed.
(** Saving a new mod, or one that is there. *)
Lemma grows_save_mod m s : linv s -> lroom 1 s -> (gmod_ID m = 0%N \/ is_Some (lmods s !! gmod_ID m)) ->
  wp (on_mods (MR_Save m)) (fun r s' => grown 1 s s' /\ forall w, r <> Panic w) s.
Proof.
  intros Hi Hr Hid. eapply wp_mono.
  - apply wp_save_mod; [done|]. case_decide; [done|]. by destruct Hid.
  - intros r s' (Hi' & Hg & Hrm & Hres). split; [|by intros w ->]. split_and!; [exact Hi'|by rewrite Hg| |].
    + destruct r as [m'|e|w]; [|by rewrite Hres|done]. destruct Hres as (_ & -> & _). set_solver.
    + intros j Hj. apply Hrm. case_decide; [exact Hj|]. by apply mr_room_weaken.
Qed.

(** Looking for mods and saving one of them, or a new one. *)
Lemma grows_find_save {A} name code (k : list GameMod -> M L A) :
  (forall s l, linv s -> lroom 1 s -> (forall m, m ∈ l -> is_Some (lmods s !! gmod_ID m)) ->
     wp (k l) (fun r s' => grown 1 s s' /\ forall w, r <> Panic w) s) ->
  forall msg, grows 1 (let! l := wrap msg (find_named name code) in k l).
Proof.
  intros Hk msg s Hi Hr. do 2 wp_step. eapply wp_mono; [by apply wp_find_mods|]. intros [l|e|w] s1 [Hs1 Hl]; cbn [wrap_err]; [| |done].
  - destruct Hl as [_ Hl]. eapply wp_mono.
    + apply Hk; [apply Hs1|by apply Hs1|]. intros m Hm. apply Hl in Hm as [Hm _]. destruct Hs1 as (_ & _ & -> & _). by exists m.
    + intros r s2 [Hg Hp]. split; [|done]. exact (grown_trans 0 1 _ _ _ (same_shelf_grown _ _ Hs1) Hg).
  - split; [|done]. apply (grown_le 0); [lia|]. by apply same_shelf_grown.
Qed.
Lemma wp_saved {A} msg m (f : GameMod -> A) s : linv s -> lroom 1 s -> (gmod_ID m = 0%N \/ is_Some (lmods s !! gmod_ID m)) ->
  wp (let! m := wrap msg (on_mods (MR_Save m)) in ret (f m)) (fun r s' => grown 1 s s' /\ forall w, r <> Panic w) s.
Proof.
  intros Hi Hr Hid. do 2 wp_step. eapply wp_mono; [by apply grows_save_mod|]. intros [v|e|w] s' [Hg Hp]; cbn [wrap_err]; [wp_step; done|done|by destruct (Hp w)].
Qed.

Lemma grows_upgrade_mod m : grows 1 (upgrade_mod m).
Proof.
  apply grows_find_save. intros s [|x [|y l]] Hi Hr Hl.
  - apply (wp_saved _ _ (fun _ => tt)); [done|done|by left].
  - apply (wp_saved _ _ (fun _ => tt)); [done|done|]. right. exact (Hl x (list_elem_of_here _ _)).
  - wp_step. split; [|done]. by apply grown_refl.
Qed.
Lemma grows_for_each {A} (f : A -> M L unit) (size : A -> nat) l : (forall x, grows (size x) (f x)) ->
  grows (sum_list_with size l) (for_each l f).
Proof.
  intros Hf. induction l as [|x l IH]; [apply grows_ret|]. simpl. apply (grows_bind (size x)); [apply Hf|done].
Qed.
Lemma grows_upgrade_game g : grows (sum_list_with (fun _ => 1) (gag_Mods g)) (upgrade_game g).
Proof. apply (grows_bind 0); [apply grows_wrap, grows_save_game|]. intros _. apply grows_for_each, grows_upgrade_mod. Qed.

Lemma grows_put_game g : grows 0 (put_game g).
Proof.
  apply (grows_bind 0).
  - apply grows_wrap. intros s Hi Hr. eapply wp_mono; [by apply wp_find_games|]. intros r s' [Hs Hl]. split; [by apply same_shelf_grown|by intros w ->].
  - intros l. apply (grows_bind 0); [apply grows_wrap, grows_save_game|]. intros _. apply grows_ret.
Qed.
Lemma grows_put_mod code m : gmod_ID m = 0%N -> grows 1 (put_mod code m).
Proof.
  intros Hm. apply grows_find_save. intros s [|old l] Hi Hr Hl.
  - apply (wp_saved _ m (fun m => (m, true))); [done|done|by left].
  - apply (wp_saved _ _ (fun m => (m, false))); [done|done|]. right. exact (Hl old (list_elem_of_here _ _)).
Qed.
Lemma grows_put_mods code l : Forall (fun m => gmod_ID m = 0%N) l -> forall r, grows (length l) (put_mods code l r).
Proof.
  induction 1 as [|m l Hm _ IH]; intros r; [apply grows_ret|]. apply (grows_bind 1); [by apply grows_put_mod|]. intros x. apply IH.
Qed.
Lemma grows_tm {A} (tm_Do : forall A, M L A -> M L A) k (x : M L A) : atomic tm_Do -> grows k x -> grows k (tm_Do A x).
Proof.
  intros Htm Hx s Hi Hr. specialize (Hx s Hi Hr). unfold wp in *. destruct (x s) as [r s1] eqn:E. destruct Hx as [Hg Hp].
  destruct (Htm A x s) as [->|(_ & Hf & Hs)]; [by rewrite E|]. rewrite E in Hf, Hs. destruct (tm_Do A x s) as [r' s']. simpl in *. subst r'.
  split; [|done]. destruct Hs as (Hi' & Hgs & Hms & Hrm). split_and!; [done|by rewrite Hgs|by rewrite Hms|].
  intros j Hj. apply Hrm. by apply Hg.
Qed.

(** None of the services takes anything off the shelf. *)
Lemma UpgradeGames_grows tm_Do (Htm : atomic tm_Do) (l : list GlobalAPIGame) :
  grows (sum_list_with (fun g => sum_list_with (fun _ => 1) (gag_Mods g)) l) (UpgradeGames tm_Do (Ok l)).
Proof.
  change (UpgradeGames tm_Do (Ok l)) with (tm_Do unit (for_each l upgrade_game)). apply grows_tm; [done|].
  apply grows_for_each, grows_upgrade_game.
Qed.
Lemma Import_grows tm_Do (Htm : atomic tm_Do) e opts : grows (length (ex_Mods e)) (Import tm_Do (Some e) opts).
Proof.
  unfold Import. destruct (export_Validate e); [apply (grows_le 0); [lia|apply grows_fail]|].
  destruct (Options_Validate opts); [apply (grows_le 0); [lia|apply grows_fail]|]. apply grows_tm; [done|].
  apply (grows_bind 0); [apply grows_put_game|]. intros g. rewrite <- (length_map (fun m => export_ToDomainGameMod m
    (gm_Code (gm_set_names (default (gm_Code (export_ToDomainGame (ex_Game e))) (opts ≫= op_Code))
      (default (gm_Name (export_ToDomainGame (ex_Game e))) (opts ≫= op_Name)) (export_ToDomainGame (ex_Game e)))))).
  apply grows_put_mods. apply List.Forall_map, list.Forall_true. done.
Qed.
Lemma ImportEgg_grows tm_Do (Htm : atomic tm_Do) `{Unicode} normalize egg opts : grows 1 (ImportEgg tm_Do normalize egg opts).
Proof.
  unfold ImportEgg. destruct egg as [egg|]; [|apply (grows_le 0); [lia|apply grows_fail]].
  destruct (String.eqb _ _); [apply (grows_le 0); [lia|apply grows_fail]|].
  destruct (Options_Validate opts); [apply (grows_le 0); [lia|apply grows_fail]|]. cbn [buildEntities].
  apply grows_tm; [done|]. apply (grows_bind 0); [apply grows_put_game|]. intros g. apply grows_find_save.
  intros s [|old l] Hi Hr Hl.
  - apply (wp_saved _ _ (fun m => (g, m))); [done|done|by left].
  - apply (wp_saved _ _ (fun m => (g, m))); [done|done|]. right. exact (Hl old (list_elem_of_here _ _)).
Qed.

(** *** Export and import *)

(** The exported mod of a game is the mod, but for its id. *)
Lemma exported_mod m code : gmod_GameCode m = code ->
  gmod_set_metadata (mergeMetadata (gmod_Metadata m) (gmod_Metadata (export_ToDomainGameMod (newGameExportModFromDomain m) code)))
    (gmod_set_id (gmod_ID m) (export_ToDomainGameMod (newGameExportModFromDomain m) code)) = m.
Proof. intros <-. cbn. rewrite mergeMetadata_same. by destruct m. Qed.

Lemma validate_mods_names used i l : validate_mods used i l = None ->
  NoDup (map xm_Name l) /\ forall m, m ∈ l -> xm_Name m ∉ used.
Proof.
  revert used i. induction l as [|m l IH]; intros used i; [split; [constructor|by intros m Hm%list.elem_of_nil]|]. cbn [validate_mods]. cbv zeta.
  destruct (String.eqb _ _); [done|]. destruct (too_long _ _); [done|]. case_decide as Hu; [done|].
  destruct (validateModCommands m i); [done|]. intros [Hnd Hn]%IH. split.
  - simpl. apply list.NoDup_cons. split; [|done]. intros (x & Hx & Hin)%list_elem_of_In%in_map_iff. apply list_elem_of_In in Hin.
    specialize (Hn x Hin). rewrite Hx in Hn. set_solver.
  - intros x [->|Hx]%list.elem_of_cons; [done|]. specialize (Hn x Hx). set_solver.
Qed.

Section back.
Variables (code : string) (M0 : gmap N GameMod).

(** Putting back a mod that is there. *)
Lemma wp_put_mod_back m s : linv s -> lmods s = M0 -> M0 !! gmod_ID m = Some m -> gmod_ID m <> 0%N -> gmod_GameCode m = code ->
  (forall j x, M0 !! j = Some x -> gmod_GameCode x = code -> gmod_Name x = gmod_Name m -> x = m) ->
  wp (put_mod code (export_ToDomainGameMod (newGameExportModFromDomain m) code))
    (fun r s' => linv s' /\ lmods s' = M0 /\ lgames s' = lgames s /\
       match r with Ok x => snd x = false | Err _ => True | Panic _ => False end) s.
Proof.
  intros Hi Hs Hm Hz Hc Huniq. unfold put_mod. do 2 wp_step. eapply wp_mono; [by apply wp_find_mods|].
  intros [l|e|w] s1 [(Hi1 & Hg1 & Hm1 & _) Hl]; cbn [wrap_err]; [|by split_and!; congruence || done|done]. destruct Hl as [Hnd Hl]. rewrite Hs in Hm1, Hl.
  assert (Hin : forall x, x ∈ l -> x = m).
  { intros x [Hx Hmx]%Hl. unfold mod_matches in Hmx. simpl in Hmx. apply andb_prop in Hmx as [Hcode%bool_decide_eq_true Hname%bool_decide_eq_true].
    apply list_elem_of_singleton in Hcode, Hname. by eapply Huniq. }
  destruct l as [|old l].
  { exfalso. apply (list.not_elem_of_nil m), Hl. split; [done|]. unfold mod_matches. simpl. rewrite Hc.
    by rewrite !bool_decide_eq_true_2 by (apply list_elem_of_singleton; done). }
  rewrite (Hin old (list_elem_of_here _ _)), (exported_mod m code Hc).
  do 2 wp_step. eapply wp_mono.
  - apply wp_save_mod; [done|]. rewrite decide_False by done. rewrite Hm1. by exists m.
  - intros [m'|e|w] s2 (Hi2 & Hg2 & _ & Hres); cbn [wrap_err]; [|by split_and!; congruence || done|done]. rewrite decide_False in Hres by done.
    destruct Hres as (Hm' & Hrows & Hid). wp_step. split_and!; [done| |congruence|done].
    rewrite Hrows, Hm1, Hid. apply insert_id. rewrite Hm', Hid. rewrite Hm. f_equal. by destruct m.
Qed.

Lemma wp_put_mods_back l : forall r s, linv s -> lmods s = M0 ->
  (forall m, m ∈ l -> M0 !! gmod_ID m = Some m /\ gmod_ID m <> 0%N /\ gmod_GameCode m = code /\
     forall j x, M0 !! j = Some x -> gmod_GameCode x = code -> gmod_Name x = gmod_Name m -> x = m) ->
  wp (put_mods code (map (fun m => export_ToDomainGameMod m code) (map newGameExportModFromDomain l)) r)
    (fun res s' => linv s' /\ lmods s' = M0 /\ lgames s' = lgames s /\
       match res with Ok x => ir_ModsCreated x = ir_ModsCreated r | Err _ => True | Panic _ => False end) s.
Proof.
  induction l as [|m l IH]; intros r s Hi Hs Hl; cbn [map put_mods]; [by wp_step|].
  destruct (Hl m (list_elem_of_here _ _)) as (H1' & H2' & H3' & H4'). wp_step. eapply wp_mono; [by apply wp_put_mod_back|].
  intros [[x b]|e|w] s1 (Hi1 & Hm1 & Hg1 & Hb); [|done|done]. simpl in Hb. subst b. cbn [snd]. eapply wp_mono.
  - apply IH; [done|done|]. intros y Hy. apply Hl, list.elem_of_cons. by right.
  - intros res s2 (Hi2 & Hm2 & Hg2 & Hres). split_and!; [done|done|congruence|exact Hres].
Qed.
End back.

Lemma ExportToStruct_spec at_ version code s e s1 : linv s -> ExportToStruct at_ version code s = (Ok e, s1) ->
  same_shelf s s1 /\ exists g mods, lgames s !! code = Some g /\ e = NewGameExportFromDomain at_ g mods version /\
    forall m, m ∈ mods <-> lmods s !! gmod_ID m = Some m /\ gmod_GameCode m = code.
Proof.
  intros Hi. unfold ExportToStruct. destruct (String.eqb code ""); [done|].
  unfold bind at 1, wrap. pose proof (wp_find_games (FindGameByCodes [code]) [] s Hi) as Hf. unfold wp in Hf.
  destruct (on_games _ s) as [[l|e'|w] s2]; [|done|done]. destruct Hf as [Hs2 [_ Hl]]. cbn [wrap_err]. destruct l as [|g l]; [done|].
  unfold bind. pose proof (wp_find_mods (FindGameModByGameCodes [code]) [] s2 (proj1 Hs2)) as Hf2. unfold wp in Hf2.
  destruct (on_mods _ s2) as [[l2|e'|w] s3]; [|done|done]. destruct Hf2 as [Hs3 [_ Hl2]]. cbn [wrap_err]. intros [= <- <-].
  cbn [fst snd] in *.   destruct Hs2 as (Hi2 & Hg2 & Hm2 & Hr2), Hs3 as (Hi3 & Hg3 & Hm3 & Hr3). split.
  - split_and!; [done|congruence|congruence|auto].
  - destruct (proj1 (Hl g) (list_elem_of_here _ _)) as [Hg Hm]. unfold game_matches in Hm. simpl in Hm.
    apply bool_decide_eq_true, list_elem_of_singleton in Hm. exists g, l2. split; [by rewrite <- Hm|]. split; [done|].
    intros m. rewrite Hl2, Hm2. unfold mod_matches. simpl. rewrite andb_true_r, bool_decide_eq_true, list_elem_of_singleton. done.
Qed.

Lemma nodup_map_inj {A B} (f : A -> B) l x y : NoDup (map f l) -> x ∈ l -> y ∈ l -> f x = f y -> x = y.
Proof.
  intros Hnd (i & Hx)%list_elem_of_lookup (j & Hy)%list_elem_of_lookup E.
  assert (i = j) as ->; [|congruence]. eapply list.NoDup_lookup; [exact Hnd| |]; rewrite list_lookup_fmap; [by rewrite Hx|by rewrite Hy, E].
Qed.

(** The game of an export under its own code, over the one that is there. *)
Lemma wp_put_game_back at_ version g mods s : linv s -> lgames s !! gm_Code g = Some g ->
  let game := gm_set_names (gm_Code g) (gm_Name g) (export_ToDomainGame (ex_Game (NewGameExportFromDomain at_ g mods version))) in
  wp (put_game game) (fun r s' => linv s' /\ lmods s' = lmods s /\
    match r with
    | Ok x => x = gm_set_enabled 1 g /\ lgames s' = <[gm_Code g := gm_set_enabled 1 g]> (lgames s)
    | Err _ => lgames s' = lgames s
    | Panic _ => False
    end) s.
Proof.
  intros Hi Hg game. unfold put_game. do 2 wp_step. eapply wp_mono; [by apply wp_find_games|].
  intros [l|e|w] s1 [(Hi1 & Hg1 & Hm1 & _) Hl]; cbn [wrap_err]; [|by split_and!|done]. destruct Hl as [_ Hl].
  assert (Hin : forall x, x ∈ l <-> x = g).
  { intros x. rewrite Hl. unfold game_matches. simpl. rewrite bool_decide_eq_true, list_elem_of_singleton.
    split; [intros [Hx Hc]; rewrite Hc in Hx; congruence|by intros ->]. }
  destruct l as [|old l]; [exfalso; apply (list.not_elem_of_nil g); by apply Hin|]. rewrite (proj1 (Hin old) (list_elem_of_here _ _)).
  assert (E : gm_set_metadata (mergeMetadata (gm_Metadata g) (gm_Metadata game)) game = gm_set_enabled 1 g).
  { unfold game. cbn. rewrite mergeMetadata_same. done. }
  rewrite E. do 2 wp_step. eapply wp_mono; [by apply wp_save_game|]. intros [u|e|w] s2 (Hi2 & Hm2 & _ & Hres); cbn [wrap_err]; [|split_and!; [done|congruence|congruence]|done].
  wp_step. split_and!; [done|congruence|done|]. rewrite Hres, Hg1. done.
Qed.

(** C13: What was exported of a game can be imported again: the import writes
    every mod back under the id it has, so that no mod changes, appears or
    disappears, and the game is the one exported, but enabled; if a call of
    the repositories fails on the way, the game is as it was or already
    written, taken back or not, and the mods are as they were.  The file has
    to pass its own validation, which an export of a game with two mods of one
    name does not. *)
Theorem exported_game_imports_back tm_Do s at_ version code e s1 r s2 :
  atomic tm_Do -> linv s -> ExportToStruct at_ version code s = (Ok e, s1) -> export_Validate e = None ->
  Import tm_Do (Some e) None s1 = (r, s2) ->
  exists g, lgames s !! code = Some g /\ lmods s2 = lmods s /\
    match r with
    | Ok res => lgames s2 = <[code := gm_set_enabled 1 g]> (lgames s) /\ ir_ModsCreated res = []
    | Err _ => lgames s2 = lgames s \/ lgames s2 = <[code := gm_set_enabled 1 g]> (lgames s)
    | Panic _ => False
    end.
Proof.
  intros Htm Hi Hx Hv HI. destruct (ExportToStruct_spec _ _ _ _ _ _ Hi Hx) as ((Hi1 & Hg1 & Hm1 & _) & g & mods & Hg & -> & Hmods).
  exists g. split; [done|]. assert (Hcode : gm_Code g = code) by (eapply gr_rows_code; [apply Hi|exact Hg]).
  assert (Hnd : NoDup (map gmod_Name mods)).
  { unfold export_Validate in Hv. change (String.eqb _ "") with false in Hv. change (String.eqb _ _) with true in Hv. cbn [negb] in Hv. cbv iota in Hv.
    destruct (validateGame _); [done|]. destruct (validateMods _) eqn:Em; [done|]. unfold validateMods in Em. apply validate_mods_names in Em as [Em _].
    simpl in Em. rewrite map_map in Em. exact Em. }
  unfold Import in HI. rewrite Hv in HI. cbn [Options_Validate mbind option_bind default] in HI. cbv zeta in HI.
  match type of HI with tm_Do _ ?b _ = _ => set (body := b) in HI end.
  assert (Hb : wp body (fun r s' => linv s' /\ lmods s' = lmods s1 /\
    match r with
    | Ok res => lgames s' = <[code := gm_set_enabled 1 g]> (lgames s1) /\ ir_ModsCreated res = []
    | Err _ => lgames s' = lgames s1 \/ lgames s' = <[code := gm_set_enabled 1 g]> (lgames s1)
    | Panic _ => False
    end) s1).
  { unfold body. wp_step. eapply wp_mono; [apply (wp_put_game_back at_ version g mods); [done|]; rewrite Hg1, Hcode; exact Hg|].
    intros [x|er|w] s3 (Hi3 & Hm3 & Hres); [|by split_and!; [..|left]|done]. destruct Hres as [-> Hg3].
    change (gm_Code (gm_set_enabled 1 g)) with (gm_Code g). eapply wp_mono.
    - apply (wp_put_mods_back (gm_Code g) (lmods s1)); [done|done|]. intros m Hm. apply Hmods in Hm as Hm'. destruct Hm' as [Hrow Hmc].
      rewrite <- Hm1 in Hrow. split; [done|]. split; [by eapply (mr_rows_id (li_mods s1)); [apply Hi1|exact Hrow]|]. split; [congruence|].
      intros j y Hy Hyc Hn. apply (nodup_map_inj gmod_Name mods); [done| |done|done]. apply Hmods. rewrite Hm1 in Hy.
      destruct (mr_rows_id (li_mods s) j y (proj2 Hi) Hy) as [<- _]. split; [done|congruence].
    - intros res s4 (Hi4 & Hm4 & Hg4 & Hres). rewrite Hcode in Hg3. split_and!; [done|done|]. destruct res as [x|er|w]; [|right; congruence|done].
      split; [congruence|exact Hres]. }
  unfold wp in Hb. destruct (Htm _ body s1) as [E|(Hno & Hf & Ht)].
  - rewrite E in HI. rewrite HI in Hb. cbn [fst snd] in Hb |- *. destruct Hb as (_ & Hm2 & Hres). split; [by rewrite Hm2|]. rewrite Hg1 in Hres. exact Hres.
  - rewrite HI in Hf, Ht. cbn [fst snd] in Hf, Ht. destruct Ht as (_ & Hg2 & Hm2 & _). split; [by rewrite Hm2|].
    destruct (body s1) as [r0 s0]. cbn [fst] in *. subst r0. destruct r as [res|er|w]; [done|left; by rewrite Hg2|by destruct Hb as (_ & _ & ?)].
Qed.
End specs.

(** ** An example *)

Module ShelfSample.
Definition order : MapOrder := listed_order.
#[local] Existing Instance order.
Definition game : Game :=
  mkGame "cs16" "Counter-Strike" "GoldSource" "" (Some 90%N) None None None None None None 0 (Some {["k"%string := "v"%string]}).
Definition mod_ (name : string) : GameMod :=
  mkGameMod 0 "cs16" name [("Status", "status")]%string [("MAP", "de_dust2", "Map", false)]%string None None None None
    (Some "./hlds_run"%string) None None None None None None None None None.
Definition shelf : Library memGameRepo memGameModRepo :=
  mkLibrary (snd (games_Save game NewGameRepository)) (snd (mods_Save (mod_ "amx") (snd (mods_Save (mod_ "Classic") NewGameModRepository)))).
Definition no_transaction (A : Type) (x : M (Library memGameRepo memGameModRepo) A) := x.

Lemma shelf_inv : linv shelf.
Proof.
  split.
  - exact (proj1 (gr_save_law game NewGameRepository _ _ games_inv_new eq_refl)).
  - refine (proj1 (mr_save_law (mod_ "amx") (snd (mods_Save (mod_ "Classic") NewGameModRepository)) _ _ _ eq_refl eq_refl)).
    exact (proj1 (mr_save_law (mod_ "Classic") NewGameModRepository _ _ mods_inv_new eq_refl eq_refl)).
Defined.

Definition exported : GameExport * Library memGameRepo memGameModRepo :=
  match ExportToStruct "2026" "4.0" "cs16" shelf with
  | (Ok e, s) => (e, s)
  | _ => (mkExport "" "" "" (mkExportGame "" "" "" "" None None None None None None None None) [], shelf)
  end.
Definition imported := Import no_transaction (Some (fst exported)) None (snd exported).

Lemma exported_game_imports_back_witness :
  map xm_Name (ex_Mods (fst exported)) = ["amx"; "Classic"]%string /\ is_ok (fst imported) = true /\
  exists g, lgames shelf !! "cs16"%string = Some g /\ lmods (snd imported) = lmods shelf.
Proof.
  split; [vm_compute; reflexivity|]. split; [vm_compute; reflexivity|].
  assert (Hx : ExportToStruct "2026" "4.0" "cs16" shelf = (Ok (fst exported), snd exported)) by (vm_compute; reflexivity).
  assert (Hv : export_Validate (fst exported) = None) by (vm_compute; reflexivity).
  assert (HI : imported = (fst imported, snd imported)) by (vm_compute; reflexivity).
  destruct (exported_game_imports_back no_transaction shelf "2026" "4.0" "cs16" (fst exported) (snd exported) (fst imported) (snd imported)
    (fun A x s => or_introl eq_refl) shelf_inv Hx Hv HI) as (g & Hg & Hm & _). exact (ex_intro _ g (conj Hg Hm)).
Defined.
End ShelfSample.
