(* ===== verification/Park.v ===== *)
(** The park of game servers: what the handlers that create, change and delete
    servers, games and nodes are given, the server table they work on as an
    interface with laws, which the in-memory table meets, and the push of a
    server's configuration to its daemon
    ([internal/services/serverconfigpush/pusher.go]). *)

From S2P Require Import Prelude.
From S2P Require Import GoNum.
From S2P Require Import Domain.
From S2P Require Import GoRuntime.
From S2P Require Import Repositories.
From S2P Require Import TaskRepo.
From S2P Require Import Converters.
From S2P Require Import ServersRepo.
From S2P Require Import ServerControl.
From S2P Require Import Http.
From S2P Require Import Accounts.
From S2P Require Import UserAuth.
From S2P Require Import ServerAccess.
From S2P Require Import Ids.
From S2P Require Import Games.
From S2P Require Import GameImport.
From stdpp Require Import base tactics strings list gmap numbers.
From Stdlib Require Import NArith ZArith Ascii.

(** ** The server table *)

Class ServerTable (V : Type) : Type := {
  VT_Find : V -> FindServer -> option Pagination -> result (list Server);
  VT_Exists : V -> FindServer -> result bool;
  VT_Save : Server -> M V Server;
  VT_Delete : N -> M V unit;
  VT_SoftDelete : N -> M V unit;
}.

Definition FindServerByGameIDs (games : list string) : FindServer := mkFindServer [] [] [] None None games [] [] [] false.
Definition FindServerByGameModIDs (mods : list N) : FindServer := mkFindServer [] [] [] None None [] [] mods [] false.

(** The three conditions by which the handlers ask who uses something. *)
Inductive used_by : FindServer -> (Server -> Prop) -> Prop :=
| used_game c : used_by (FindServerByGameIDs [c]) (fun s => sv_GameID s = c)
| used_mod i : used_by (FindServerByGameModIDs [i]) (fun s => sv_GameModID s = i)
| used_node i : used_by (FindServerByNodeIDs [i]) (fun s => sv_DSID s = i).

(** [sf_rows] are the servers that are not deleted. *)
Class ServerTableLaws (V : Type) `{FinderRepositoryLaws V} `{ServerTable V} : Type := {
  vt_room : nat -> V -> Prop;
  vt_room_weaken : forall k v, vt_room (S k) v -> vt_room k v;
  vt_rows_id : forall v i s, sf_inv v -> sf_rows v !! i = Some s -> sv_ID s = i /\ i <> 0%N /\ sv_DeletedAt s = None;
  vt_find_law : forall v i p, sf_inv v -> p = None \/ p = only_first ->
    match VT_Find v (FindServerByIDs [i]) p with
    | Ok l => l = match sf_rows v !! i with Some s => [s] | None => [] end
    | Err _ => True
    | Panic _ => False
    end;
  vt_find_used_law : forall v f P, sf_inv v -> used_by f P ->
    match VT_Find v f None with
    | Ok l => forall s, s ∈ l <-> sf_rows v !! sv_ID s = Some s /\ P s
    | Err _ => True
    | Panic _ => False
    end;
  vt_exists_law : forall v f P, sf_inv v -> used_by f P ->
    match VT_Exists v f with
    | Ok b => b = true <-> exists i s, sf_rows v !! i = Some s /\ P s
    | Err _ => True
    | Panic _ => False
    end;
  vt_save_law : forall s v res v', sf_inv v -> sv_DeletedAt s = None ->
    (if decide (sv_ID s = 0%N) then vt_room 1 v else is_Some (sf_rows v !! sv_ID s)) ->
    VT_Save s v = (res, v') ->
    sf_inv v' /\ (forall k, vt_room (if decide (sv_ID s = 0%N) then S k else k) v -> vt_room k v') /\ sf_assigned v' = sf_assigned v /\
    match res with
    | Ok s' => (exists created updated, s' = sv_set_id (sv_ID s') (sv_set_times created updated None s)) /\
        sf_rows v' = <[sv_ID s' := Hydrate s']> (sf_rows v) /\
        (if decide (sv_ID s = 0%N) then sf_rows v !! sv_ID s' = None else sv_ID s' = sv_ID s)
    | Err _ => sf_rows v' = sf_rows v
    | Panic _ => False
    end;
  vt_delete_law : forall soft i v res v', sf_inv v -> (if soft : bool then VT_SoftDelete i v else VT_Delete i v) = (res, v') ->
    sf_inv v' /\ (forall k, vt_room k v -> vt_room k v') /\
    match res with
    | Ok _ => sf_rows v' = delete i (sf_rows v)
    | Err _ => sf_rows v' = sf_rows v
    | Panic _ => False
    end;
}.

(** *** In memory *)

Section memory.
Context `{WallClock}.

#[export] Instance memServerRepo_table : ServerTable memServerRepo := {
  VT_Find r f p := ServersRepo.Find r (Some f) [] p;
  VT_Exists r f := ServersRepo.Exists r (Some f);
  VT_Save := ServersRepo.Save; VT_Delete := ServersRepo.Delete; VT_SoftDelete := ServersRepo.SoftDelete;
}.

Lemma used_matches r f P : used_by f P -> forall s, server_matches r f s = true <-> is_deleted s = false /\ P s.
Proof.
  intros [c|i|i] s; unfold server_matches; simpl; rewrite ?andb_true_r, ?andb_true_iff, negb_true_iff;
    rewrite ?bool_decide_eq_true, ?list_elem_of_singleton; tauto.
Qed.

#[export, program] Instance memServerRepo_table_laws : ServerTableLaws memServerRepo := { vt_room := sr_room }.
Next Obligation. intros k v. unfold sr_room. lia. Qed.
Next Obligation.
  intros v i s Hi [Hs Hd]%live_row. destruct (si_id v Hi _ _ Hs) as [Hid Hr]. split; [done|]. split; [lia|].
  unfold is_deleted, is_set in Hd. by destruct (sv_DeletedAt s).
Qed.
Next Obligation.
  intros v i p Hi Hp. simpl. destruct (ServersRepo.Find v (Some (FindServerByIDs [i])) [] None) as [l|e|w] eqn:E; [|done|done].
  pose proof (Find_by_id v i l Hi E) as Hl. destruct Hp as [->| ->]; [by rewrite E|].
  change (ServersRepo.Find v (Some (FindServerByIDs [i])) [] only_first) with
    (match ServersRepo.Find v (Some (FindServerByIDs [i])) [] None with Ok l => applyPagination l only_first | r => r end).
  rewrite E, applyPagination_first, Hl. by destruct (live_rows v !! i).
Qed.
Next Obligation.
  intros v f P Hi Hf. change (VT_Find v f None) with (ServersRepo.Find v (Some f) [] None). change (sf_rows v) with (live_rows v).
  destruct (ServersRepo.Find v (Some f) [] None) as [l|e|w] eqn:E; [|done|done].
  destruct (Find_servers v Hi _ _ E) as [_ Hel]. intros s. rewrite Hel, live_row. cbn [default]. rewrite (used_matches v f P Hf). tauto.
Qed.
Next Obligation.
  intros v f P Hi Hf. change (VT_Exists v f) with (ServersRepo.Exists v (Some f)). change (sf_rows v) with (live_rows v). unfold ServersRepo.Exists. assert (Hids : nonempty (fv_IDs f) = false) by by destruct Hf.
  rewrite Hids, bool_decide_eq_true. assert (Hin : forall i, i ∈ getFilteredServerIDs v (Some f) <-> exists s, live_rows v !! i = Some s /\ P s).
  { intros i. split.
    - intros Hi'. destruct (filtered_server_in_dom v _ _ Hi') as [s Hs]. exists s. apply (filtered_server v Hi _ _ _ Hs) in Hi'.
      apply (used_matches v f P Hf) in Hi' as [Hd HP]. by rewrite live_row.
    - intros (s & [Hs Hd]%live_row & HP). apply (filtered_server v Hi _ _ _ Hs). by apply (used_matches v f P Hf). }
  split.
  - intros Hsz. assert (Hne : getFilteredServerIDs v (Some f) ≢ ∅) by (intros He%size_empty_iff; lia).
    apply set_choose in Hne as [i Hin']. exists i. by apply Hin.
  - intros (i & s & Hs & HP). assert (Hx : i ∈ getFilteredServerIDs v (Some f)) by (apply Hin; by exists s).
    assert (size (getFilteredServerIDs v (Some f)) <> 0); [|lia]. intros He%size_empty_inv. set_solver.
Qed.
Next Obligation.
  intros s v res v' Hi Hd Hsv E. simpl in E.
  destruct (server_Save_spec s v Hi) as (up & cr & s' & v1 & E1 & Hi' & Hs' & Hu & Hr & Hid & Hroom).
  { unfold storable. case_decide; [exact Hsv|]. destruct Hsv as [old [Hold _]%live_row]. eauto. }
  rewrite E1 in E. injection E as <- <-. split_and!; [done|done|simpl; by rewrite Hu|..].
  - exists (if (sv_ID s =? 0)%N && match sv_CreatedAt s with None => true | Some c => IsZero c end then Some cr else sv_CreatedAt s), (Some up).
    rewrite <- Hd. exact Hs'.
  - simpl. unfold live_rows. rewrite Hr. apply map_filter_insert_True. simpl. rewrite Hs'. unfold is_deleted. simpl. by rewrite Hd.
  - case_decide; [|done]. simpl. unfold live_rows. apply map_lookup_filter_None. by left.
Qed.
Next Obligation.
  intros [] i v res v' Hi E; simpl in E.
  - pose proof (SoftDelete_inv i v Hi) as Hi'. rewrite E in Hi'. split; [exact Hi'|]. unfold ServersRepo.SoftDelete in E.
    destruct (servers v !! i) as [s|] eqn:Es; injection E as <- <-; (split; [done|]); simpl; unfold live_rows; simpl.
    + rewrite map_filter_insert_False by done. by rewrite map_filter_delete.
    + rewrite delete_id; [done|]. apply map_lookup_filter_None. by left.
  - pose proof (Delete_inv i v Hi) as Hi'. rewrite E in Hi'. split; [exact Hi'|]. injection E as <- <-. simpl. split.
    + intros k. unfold sr_room. by destruct (servers v !! i).
    + unfold live_rows. simpl. assert (servers (match servers v !! i with Some s => removeFromIndexes s v | None => v end) = servers v) as ->
        by by destruct (servers v !! i). by rewrite map_filter_delete.
Qed.
End memory.

(** ** What the handlers are given *)

(** Next to the servers, access control and the nodes: games and mods, tasks
    and settings, the streams to the daemons, and counters of the random
    choices and identifiers drawn. *)
Record Park (G Q T Y X P : Type) : Type := mkPark {
  pk_library : Library G Q; pk_control : Control T Y X; pk_sender : P; pk_draws : N; pk_runs : N;
}.
Arguments mkPark {G Q T Y X P}. Arguments pk_library {G Q T Y X P}. Arguments pk_control {G Q T Y X P}.
Arguments pk_sender {G Q T Y X P}. Arguments pk_draws {G Q T Y X P}. Arguments pk_runs {G Q T Y X P}.

(** [taskSender]: [Registry.SendTask] *)
Class TaskSender (P : Type) : Type := { TS_SendTask : N -> GatewayMessage -> M P unit }.

(** One entry of [getserversettings]' answer: a default or the stored value. *)
Record SettingResponse : Type := mkSettingResponse {
  sr_Name : string; sr_Value : any + ServerSettingValue; sr_Type : string; sr_Label : string; sr_AdminVar : bool;
}.

(** The answers of the handlers. *)
Inductive ParkAnswer : Type :=
| Success
| ServerCreated (taskID serverID : N)
| CommandTask (taskID : N)
| ServerStatus (processActive : bool)
| Abilities (l : gmap string bool)
| SettingBodies (l : list SettingResponse)
| GameBody (g : Game)
| GameBodies (l : list Game)
| GameModBody (m : GameMod)
| GameModBodies (l : list GameMod)
| Imported (r : ImportResult)
| ImportedEgg (r : Game * GameMod)
| ExportFile (filename content : string)
| NodeBody (n : Node).

(** [errors.WithMessage] around an error that may carry its status. *)
Definition with_message (msg : string) (e : api_error) : api_error :=
  match e with
  | APIError code m => WrapHTTPError (EWrap msg (ENew m)) code
  | WrapHTTPError c code => WrapHTTPError (EWrap msg c) code
  | OtherError e => OtherError (EWrap msg e)
  end.

Section steps.
Context {V A R G Q T Y X P : Type}.
Context `{ServerTable V} `{NodeRepository R} `{GameRepository G} `{GameModRepository Q} `{ServerSettingRepository Y} `{TaskSender P}.
Context `{XIDs} (clock : N -> time) (json_vars : gmap string string -> option string).
Abbreviation F := (Park G Q T Y X P).
Abbreviation S := (Desk V A R F).

Definition on_library {B} (x : M (Library G Q) B) : M S B :=
  on_world (zoom pk_library (fun l p => mkPark l (pk_control p) (pk_sender p) (pk_draws p) (pk_runs p)) x).
Definition on_control {B} (x : M (Control T Y X) B) : M S B :=
  on_world (zoom pk_control (fun c p => mkPark (pk_library p) c (pk_sender p) (pk_draws p) (pk_runs p)) x).
Definition on_sender {B} (x : M P B) : M S B :=
  on_world (zoom pk_sender (fun q p => mkPark (pk_library p) (pk_control p) q (pk_draws p) (pk_runs p)) x).
Definition on_servers {B} (x : M V B) : M S B := zoom de_servers (fun v s => mkDesk v (de_access s) (de_nodes s) (de_world s)) x.
Definition on_node_table {B} (x : M R B) : M S B := zoom de_nodes (fun n s => mkDesk (de_servers s) (de_access s) n (de_world s)) x.
Definition on_game_table {B} (x : M G B) : M S B := on_library (on_games x).
Definition on_mod_table {B} (x : M Q B) : M S B := on_library (on_mods x).

(** The number of the next draw, [k] of them taken. *)
Definition draw (k : N) : M S N := on_world (fun p =>
  (Ok (pk_draws p), mkPark (pk_library p) (pk_control p) (pk_sender p) (pk_draws p + k) (pk_runs p))).
(** Drawing at random. *)
Definition at_random {B} (x : M N B) : M S B :=
  on_world (zoom pk_draws (fun d p => mkPark (pk_library p) (pk_control p) (pk_sender p) d (pk_runs p)) x).
(** The number of the next run over a map of the request. *)
Definition next_run : M S N := on_world (fun p =>
  (Ok (pk_runs p), mkPark (pk_library p) (pk_control p) (pk_sender p) (pk_draws p) (pk_runs p + 1))).
Definition park_now : M S time := on_control (now clock).

Definition find_servers (f : FindServer) (p : option Pagination) : M S (list Server) :=
  let! s := get in lift (VT_Find (de_servers s) f p).
Definition exist_servers (f : FindServer) : M S bool := let! s := get in lift (VT_Exists (de_servers s) f).
Definition find_nodes (f : FindNode) (p : option Pagination) : M S (list Node) :=
  let! s := get in lift (ND_Find (de_nodes s) f [] p).

(** *** The work of a handler: an answer or an error *)

Abbreviation work := (M S (ParkAnswer + api_error)).
Definition refuse (e : api_error) : work := ret (inr e).
Definition call {B} (msg : string) (x : M S B) (k : B -> work) : work :=
  let! r := attempt x in
  match r with
  | Panic w => lift (Panic w)
  | Err e => refuse (OtherError (EWrap msg e))
  | Ok v => k v
  end.
Definition decoded {B} (refused : error -> api_error) (r : result B) (k : B -> work) : work :=
  match r with
  | Panic w => lift (Panic w)
  | Err e => refuse (refused e)
  | Ok v => k v
  end.
Definition valid (msg : string) (e : option api_error) (k : work) : work :=
  match e with Some e => refuse (with_message msg e) | None => k end.
Definition respond (status : Z) (x : work) : M S (Response ParkAnswer) :=
  let! r := x in match r with inl a => ret (Write status a) | inr e => ret (WriteError e) end.

(** ** [Pusher.PushServerConfig] *)

(** A search whose failure is logged. *)
Definition found_or_none {B} (x : M S (list B)) : M S (option B) :=
  let! r := attempt x in
  match r with
  | Panic w => lift (Panic w)
  | Err _ => ret None
  | Ok l => ret (head l)
  end.

Definition PushServerConfig (serverID : N) : M S unit :=
  let! server := found_or_none (find_servers (FindServerByIDs [serverID]) None) in
  match server with
  | None => ret tt
  | Some server =>
      let! gameMod := found_or_none (on_mod_table (MR_Find (FindGameModByIDs [sv_GameModID server]) [] None)) in
      let! game := found_or_none (on_game_table (GR_Find (FindGameByCodes [sv_GameID server]) [] None)) in
      let! node := found_or_none (find_nodes (FindNodeByIDs [sv_DSID server]) None) in
      let nodeOS := match node with Some node => nd_OS node | None => ""%string end in
      let! settings := attempt (let! s := get in
        lift (SS_Find (c_settings (pk_control (de_world s))) (Some (mkFindServerSetting [] [serverID] [])) [] None)) in
      match settings with
      | Panic w => lift (Panic w)
      | _ =>
          let settings := match settings with Ok l => l | _ => [] end in
          let update := mkConfigUpdate (DomainServerToProtoWithGameMod json_vars server gameMod nodeOS)
            (DomainServerSettingsToProto settings) (DomainGameToProto <$> game) (DomainGameModToProto <$> gameMod) in
          let! k := draw 1 in
          let! sent := attempt (on_sender (TS_SendTask (sv_DSID server)
            (mkGatewayMessage (xid_String (xid_New k)) (GM_ServerConfigUpdate update)))) in
          match sent with Panic w => lift (Panic w) | _ => ret tt end
      end
  end.

(** Pushing for every server of a search; without a pusher nothing happens. *)
Definition push_all (pusher : bool) (f : FindServer) : M S unit :=
  if pusher then
    let! found := attempt (find_servers f None) in
    match found with
    | Panic w => lift (Panic w)
    | Err _ => ret tt
    | Ok l => for_each l (fun s => PushServerConfig (sv_ID s))
    end
  else ret tt.
End steps.

(** ** Handlers step by step *)

Create HintDb park_moves.

(** One step of showing that a handler's work moves the state along a
    relation; what the pieces do is in the hints. *)
Ltac moves_step :=
  cbv zeta;
  lazymatch goal with
  | |- moves ?P (bind _ _) => apply (moves_bind P); [|intros ?]
  | |- moves ?P (wrap _ _) => apply (moves_wrap P)
  | |- moves ?P (attempt _) => apply (moves_attempt P)
  | |- moves ?P (ret _) => apply (moves_ret P)
  | |- moves ?P (lift _) => apply (moves_lift P)
  | |- moves ?P (fail _) => apply (moves_lift P (Err _))
  | |- moves ?P get => apply (moves_get P)
  | |- moves ?P (for_each _ _) => apply (moves_for_each P); intros ?
  | |- moves _ (find_servers _ _) => unfold find_servers
  | |- moves _ (exist_servers _) => unfold exist_servers
  | |- moves _ (find_nodes _ _) => unfold find_nodes
  | |- moves _ (park_now _) => unfold park_now
  | |- moves _ (refuse _) => unfold refuse
  | |- moves _ (respond _ _) => unfold respond
  | |- moves _ (call _ _ _) => unfold call
  | |- moves _ (decoded _ _ _) => unfold decoded
  | |- moves _ (valid _ _ _) => unfold valid
  | |- moves _ (found_or_none _) => unfold found_or_none
  | |- moves _ (on_game_table _) => unfold on_game_table
  | |- moves _ (on_mod_table _) => unfold on_mod_table
  | |- moves _ (match ?x with _ => _ end) => destruct x
  | |- _ => solve [auto with park_moves]
  end.
Ltac moves := repeat moves_step.
