(* ===== verification/GamesApi.v ===== *)
(** Games and game mods on the HTTP API ([internal/api/games],
    [internal/api/gamemods]): creating, changing, deleting, listing, the
    upgrade, and export and import.  Bodies arrive decoded: [None] is the JSON
    [null], which leaves the handler a nil pointer. *)

From S2P Require Import Prelude.
From S2P Require Import GoNum.
From S2P Require Import Domain.
From S2P Require Import GoRuntime.
From S2P Require Import Repositories.
From S2P Require Import TaskRepo.
From S2P Require Import ServersRepo.
From S2P Require Import ServerControl.
From S2P Require Import Http.
From S2P Require Import Accounts.
From S2P Require Import UserAuth.
From S2P Require Import ServerAccess.
From S2P Require Import Validation.
From S2P Require Import Ids.
From S2P Require Import Games.
From S2P Require Import GameImport.
From S2P Require Import Park.
From stdpp Require Import base tactics strings list gmap numbers.
From Stdlib Require Import NArith ZArith Ascii.

(** ** Inputs *)

(** What [createGameInput] and [updateGameInput] share; the code and the
    metadata are in one of them only. *)
Record gameInput : Type := mkGameInput {
  gi_Code : string; gi_Name : string; gi_Engine : string; gi_EngineVersion : string;
  gi_SteamAppIDLinux : option N; gi_SteamAppIDWindows : option N; gi_SteamAppSetConfig : option string;
  gi_RemoteRepositoryLinux : option string; gi_RemoteRepositoryWindows : option string;
  gi_LocalRepositoryLinux : option string; gi_LocalRepositoryWindows : option string; gi_Enabled : Z; gi_Metadata : metadata;
}.

Fixpoint first_refusal (checks : list (bool * string)) : option api_error :=
  match checks with
  | [] => None
  | (failed, msg) :: checks => if failed then Some (NewValidationError msg) else first_refusal checks
  end.

Definition game_code_checks (g : gameInput) : list (bool * string) :=
  [(String.eqb (gi_Code g) "", "game code is required");
   (String.length (gi_Code g) <? 2, "game code must be at least 2 characters");
   (too_long 16 (gi_Code g), "game code must not exceed 16 characters");
   (negb (IsSlug (gi_Code g)), "game code must be a valid slug (lowercase letters, digits, underscores, and hyphens only)")].
Definition game_checks (g : gameInput) : list (bool * string) :=
  [(String.eqb (gi_Name g) "", "game name is required");
   (String.length (gi_Name g) <? 2, "game name must be at least 2 characters");
   (too_long 128 (gi_Name g), "game name must not exceed 128 characters");
   (String.eqb (gi_Engine g) "", "engine is required");
   (too_long 128 (gi_Engine g), "engine must not exceed 128 characters");
   (too_long 128 (gi_EngineVersion g), "engine version must not exceed 128 characters");
   (too_long_opt 128 (gi_SteamAppSetConfig g), "steam app set config must not exceed 128 characters");
   (too_long_opt 128 (gi_RemoteRepositoryLinux g), "remote repository must not exceed 128 characters");
   (too_long_opt 128 (gi_RemoteRepositoryWindows g), "remote repository must not exceed 128 characters");
   (too_long_opt 128 (gi_LocalRepositoryLinux g), "local repository must not exceed 128 characters");
   (too_long_opt 128 (gi_LocalRepositoryWindows g), "local repository must not exceed 128 characters")].
Definition createGame_Validate (g : gameInput) : option api_error := first_refusal (game_code_checks g ++ game_checks g).
Definition updateGame_Validate (g : gameInput) : option api_error := first_refusal (game_checks g).

(** A missing app id is stored as zero. *)
Definition createGame_ToDomain (g : gameInput) : Game :=
  mkGame (gi_Code g) (gi_Name g) (gi_Engine g) (gi_EngineVersion g) (Some (default 0%N (gi_SteamAppIDLinux g)))
    (Some (default 0%N (gi_SteamAppIDWindows g))) (gi_SteamAppSetConfig g) (gi_RemoteRepositoryLinux g)
    (gi_RemoteRepositoryWindows g) (gi_LocalRepositoryLinux g) (gi_LocalRepositoryWindows g) (gi_Enabled g) None.
Definition updateGame_Apply (g : gameInput) (game : Game) : Game :=
  mkGame (gm_Code game) (gi_Name g) (gi_Engine g) (gi_EngineVersion g) (Some (default 0%N (gi_SteamAppIDLinux g)))
    (Some (default 0%N (gi_SteamAppIDWindows g))) (gi_SteamAppSetConfig g) (gi_RemoteRepositoryLinux g)
    (gi_RemoteRepositoryWindows g) (gi_LocalRepositoryLinux g) (gi_LocalRepositoryWindows g) (gi_Enabled g) (gi_Metadata g).

(** [gameModInput] and [updateGameModInput]; only the second has metadata. *)
Record gameModInput : Type := mkModInput {
  mi_GameCode : string; mi_Name : string; mi_FastRcon : list (string * string); mi_Vars : list (string * string * string * bool);
  mi_RemoteRepositoryLinux : option string; mi_RemoteRepositoryWindows : option string;
  mi_LocalRepositoryLinux : option string; mi_LocalRepositoryWindows : option string;
  mi_StartCmdLinux : option string; mi_StartCmdWindows : option string; mi_KickCmd : option string; mi_BanCmd : option string;
  mi_ChnameCmd : option string; mi_SrestartCmd : option string; mi_ChmapCmd : option string; mi_SendmsgCmd : option string;
  mi_PasswdCmd : option string; mi_Metadata : metadata;
}.
Definition fastRcon_Validate (f : string * string) : option api_error :=
  first_refusal [(String.eqb f.1 "", "fast rcon info is required"); (String.eqb f.2 "", "fast rcon command is required")].
Definition var_Validate (v : string * string * string * bool) : option api_error :=
  let '(var, _, info, _) := v in
  first_refusal [(String.eqb var "", "var is required"); (String.eqb info "", "info is required")].
Fixpoint each_valid {A} (what : string) (validate : A -> option api_error) (i : N) (l : list A) : option api_error :=
  match l with
  | [] => None
  | x :: l =>
      match validate x with
      | Some e => Some (with_message ("game mod input " +:+ what +:+ "[" +:+ FormatUint i +:+ "]") e)
      | None => each_valid what validate (i + 1) l
      end
  end.
Definition or_else {A} (a b : option A) : option A := match a with Some _ => a | None => b end.
Definition gameMod_Validate (m : gameModInput) : option api_error :=
  or_else (first_refusal
    [(String.eqb (mi_Name m) "", "game mod name is required"); (String.eqb (mi_GameCode m) "", "game code is required");
     (too_long 255 (mi_Name m), "game mod name must not exceed 255 characters");
     (too_long 255 (mi_GameCode m), "game code must not exceed 255 characters");
     (too_long_opt 1000 (mi_StartCmdLinux m), "start command linux must not exceed 1000 characters");
     (too_long_opt 1000 (mi_StartCmdWindows m), "start command windows must not exceed 1000 characters");
     (too_long_opt 200 (mi_KickCmd m), "kick command must not exceed 200 characters");
     (too_long_opt 200 (mi_BanCmd m), "ban command must not exceed 200 characters");
     (too_long_opt 200 (mi_ChnameCmd m), "chname command must not exceed 200 characters");
     (too_long_opt 200 (mi_SrestartCmd m), "srestart command must not exceed 200 characters");
     (too_long_opt 200 (mi_ChmapCmd m), "chmap command must not exceed 200 characters");
     (too_long_opt 200 (mi_SendmsgCmd m), "sendmsg command must not exceed 200 characters");
     (too_long_opt 200 (mi_PasswdCmd m), "passwd command must not exceed 200 characters")])
  (or_else (each_valid "FastRcon" fastRcon_Validate 0 (mi_FastRcon m)) (each_valid "Vars" var_Validate 0 (mi_Vars m))).

Definition gameMod_fields (m : gameModInput) (id : N) (md : metadata) : GameMod :=
  mkGameMod id (mi_GameCode m) (mi_Name m) (mi_FastRcon m) (mi_Vars m) (mi_RemoteRepositoryLinux m)
    (mi_RemoteRepositoryWindows m) (mi_LocalRepositoryLinux m) (mi_LocalRepositoryWindows m) (mi_StartCmdLinux m)
    (mi_StartCmdWindows m) (mi_KickCmd m) (mi_BanCmd m) (mi_ChnameCmd m) (mi_SrestartCmd m) (mi_ChmapCmd m)
    (mi_SendmsgCmd m) (mi_PasswdCmd m) md.
Definition gameMod_ToDomain (m : gameModInput) : GameMod := gameMod_fields m 0 None.
Definition gameMod_Apply (m : gameModInput) (gameMod : GameMod) : GameMod := gameMod_fields m (gmod_ID gameMod) (mi_Metadata m).

Definition order_by_name : list Sorting := [mkSorting "name" SortDirectionAsc].
Definition ErrGameAlreadyExists : api_error := APIError StatusConflict "game with this code already exists".
Definition ErrGameNotFound : api_error := NewNotFoundError "game not found".
Definition ErrGameModNotFound : api_error := NewNotFoundError "game mod not found".

(** [name] and [code] of the query. *)
Definition toImportOptions (name code : string) : option Options :=
  match unless_empty name, unless_empty code with
  | None, None => None
  | n, c => Some (mkOptions n c)
  end.
Definition maxBodySize : N := 1048576.
Definition bad_request (e : error) : api_error := WrapHTTPError e StatusBadRequest.

(** ** The handlers *)

Section handlers.
Context {V A R G Q T Y X P : Type}.
Context `{ServerTable V} `{NodeRepository R} `{GameRepository G} `{GameModRepository Q} `{ServerSettingRepository Y} `{TaskSender P}.
Context `{XIDs} (json_vars : gmap string string -> option string).
(** Whether there is a config pusher; without one nothing is pushed. *)
Context (pusher : bool).
Context (tm_Do : forall B, M (Library G Q) B -> M (Library G Q) B).
Abbreviation F := (Park G Q T Y X P).
Abbreviation S := (Desk V A R F).
Abbreviation Handler := (DeskHandler V A R F ParkAnswer).
Abbreviation work := (M S (ParkAnswer + api_error)).

Definition nil_input : work := lift (Panic "invalid memory address or nil pointer dereference").
Definition decoded_valid {B} (decode : string -> result (option B)) (validate : B -> option api_error) (r : Request) (k : B -> work) : work :=
  decoded (fun e => OtherError (EWrap "invalid request" e)) (decode (rq_Body r)) (fun input =>
  match input with
  | None => nil_input
  | Some input => valid "invalid input" (validate input) (k input)
  end).
Definition need_code (code : string) (k : work) : work :=
  if String.eqb code "" then refuse (NewValidationError "game code is required") else k.

Definition PostGame (decode : string -> result (option gameInput)) : Handler := fun _ r => respond StatusOK (
  decoded_valid decode createGame_Validate r (fun input =>
  call "failed to check game existence" (on_game_table (GR_Find (FindGameByCodes [gi_Code input]) [] None)) (fun existingGames =>
  match existingGames with
  | _ :: _ => refuse ErrGameAlreadyExists
  | [] => call "failed to save game" (on_game_table (GR_Save (createGame_ToDomain input))) (fun _ => ret (inl Success))
  end))).

Definition PutGame (decode : string -> result (option gameInput)) : Handler := fun _ r => respond StatusOK (
  let gameCode := rq_Vars r "code" in
  need_code gameCode (decoded_valid decode updateGame_Validate r (fun input =>
  call "failed to find game" (on_game_table (GR_Find (FindGameByCodes [gameCode]) [] only_first)) (fun found =>
  match found with
  | [] => refuse ErrGameNotFound
  | game :: _ =>
      let game := updateGame_Apply input game in
      call "failed to update game" (on_game_table (GR_Save game)) (fun _ =>
      do! push_all json_vars pusher (FindServerByGameIDs [gm_Code game]) ;;
      ret (inl Success))
  end)))).

Definition DeleteGame : Handler := fun _ r => respond StatusOK (
  let gameCode := rq_Vars r "code" in
  need_code gameCode (
  call "failed to check server existence" (exist_servers (FindServerByGameIDs [gameCode])) (fun exists_ =>
  if exists_ then refuse (NewValidationError "cannot delete game: servers are using this game")
  else call "failed to delete game" (on_game_table (GR_Delete gameCode)) (fun _ => ret (inl Success))))).

Definition GetGame : Handler := fun _ r => respond StatusOK (
  let gameCode := rq_Vars r "code" in
  need_code gameCode (
  call "failed to find game" (on_game_table (GR_Find (FindGameByCodes [gameCode]) [] only_first)) (fun found =>
  match found with [] => refuse ErrGameNotFound | game :: _ => ret (inl (GameBody game)) end))).
Definition GetGames : Handler := fun _ _ => respond StatusOK (
  call "failed to find all games" (on_game_table (GR_FindAll order_by_name None)) (fun l => ret (inl (GameBodies l)))).
(** [getgamemods] and [getlistforgame], which name the path variable
    differently. *)
Definition GetModsOfGame (var : string) : Handler := fun _ r => respond StatusOK (
  let gameCode := rq_Vars r var in
  need_code gameCode (
  call "failed to find game mods" (on_mod_table (MR_Find (FindGameModByGameCodes [gameCode]) order_by_name None)) (fun l =>
  ret (inl (GameModBodies l))))).

(** The id of the path, for the handlers that read it by [strconv.Atoi]. *)
Definition mod_id (r : Request) (invalid too_small : api_error) (k : N -> work) : work :=
  let idStr := rq_Vars r "id" in
  if String.eqb idStr "" then refuse (NewValidationError "game mod id is required")
  else decoded (fun _ => invalid) (Atoi idStr) (fun id => if (id <=? 0)%Z then refuse too_small else k (Z.to_N id)).
Definition PostGameMod (decode : string -> result (option gameModInput)) : Handler := fun _ r => respond StatusOK (
  decoded_valid decode gameMod_Validate r (fun input =>
  call "failed to save game mod" (on_mod_table (MR_Save (gameMod_ToDomain input))) (fun _ => ret (inl Success)))).
Definition PutGameMod (decode : string -> result (option gameModInput)) : Handler := fun _ r => respond StatusOK (
  decoded (fun e => bad_request (EWrap "invalid game mod id" e)) (ReadUint r "id") (fun id =>
  decoded_valid decode gameMod_Validate r (fun input =>
  call "failed to find game mod" (on_mod_table (MR_Find (FindGameModByIDs [id]) [] only_first)) (fun found =>
  match found with
  | [] => refuse ErrGameModNotFound
  | gameMod :: _ =>
      call "failed to update game mod" (on_mod_table (MR_Save (gameMod_Apply input gameMod))) (fun gameMod =>
      do! push_all json_vars pusher (FindServerByGameModIDs [gmod_ID gameMod]) ;;
      ret (inl (GameModBody gameMod)))
  end)))).
Definition DeleteGameMod : Handler := fun _ r => respond StatusOK (
  mod_id r (NewValidationError "invalid game mod id") (NewValidationError "invalid game mod id") (fun id =>
  call "failed to check server existence" (exist_servers (FindServerByGameModIDs [id])) (fun exists_ =>
  if exists_ then refuse (NewValidationError "cannot delete game mod: servers are using this game mod")
  else call "failed to delete game mod" (on_mod_table (MR_Delete id)) (fun _ => ret (inl Success))))).
Definition GetGameMod : Handler := fun _ r => respond StatusOK (
  mod_id r (APIError StatusBadRequest "invalid game mod id") (NewValidationError "game mod id must be greater than zero") (fun id =>
  call "failed to find game mod" (on_mod_table (MR_Find (FindGameModByIDs [id]) [] only_first)) (fun found =>
  match found with [] => refuse ErrGameModNotFound | gameMod :: _ => ret (inl (GameModBody gameMod)) end))).
Definition GetGameMods : Handler := fun _ _ => respond StatusOK (
  call "failed to find all game mods" (on_mod_table (MR_FindAll order_by_name None)) (fun l => ret (inl (GameModBodies l)))).

(** The errors of the services are written as they are, or wrapped. *)
Definition PostUpgrade (api : result (list GlobalAPIGame)) : Handler := fun _ _ => respond StatusOK (
  let! upgraded := attempt (on_library (UpgradeGames tm_Do api)) in
  match upgraded with
  | Panic w => lift (Panic w)
  | Err e => refuse (OtherError e)
  | Ok _ => ret (inl Success)
  end).
Definition ImportGameAP (query : Request -> string -> string) (from_yaml : string -> result GameExport) : Handler := fun _ r => respond StatusOK (
  let opts := toImportOptions (query r "name") (query r "code") in
  match Options_Validate opts with
  | Some e => refuse (bad_request e)
  | None =>
      if (maxBodySize <? N.of_nat (String.length (rq_Body r)))%N then refuse (APIError StatusBadRequest "request body too large, maximum 1 MB allowed")
      else if String.eqb (rq_Body r) "" then refuse (APIError StatusBadRequest "request body is empty")
      else decoded (fun e => bad_request (EWrap "failed to parse GameAP YAML" e)) (from_yaml (rq_Body r)) (fun export =>
        call "failed to import GameAP config" (on_library (Import tm_Do (Some export) opts)) (fun res => ret (inl (Imported res))))
  end).
Definition ImportPelicanEgg `{Unicode} (normalize : string -> string) (query : Request -> string -> string)
  (parse_egg : string -> result PelicanEgg) : Handler := fun _ r => respond StatusOK (
  let opts := toImportOptions (query r "name") (query r "code") in
  match Options_Validate opts with
  | Some e => refuse (bad_request e)
  | None =>
      decoded (fun e => OtherError (EWrap "failed to parse pelican egg" e)) (parse_egg (rq_Body r)) (fun egg =>
      call "failed to import pelican egg" (on_library (ImportEgg tm_Do normalize (Some egg) opts)) (fun res => ret (inl (ImportedEgg res))))
  end).
Definition ExportGame (to_yaml : GameExport -> result string) (exportedAt version : string) : Handler := fun _ r => respond StatusOK (
  let gameCode := rq_Vars r "code" in
  if String.eqb gameCode "" then refuse (APIError StatusBadRequest "game code is required")
  else call "failed to export game" (on_library (Export to_yaml exportedAt version gameCode)) (fun yaml =>
    ret (inl (ExportFile (gameCode +:+ ".gameap.yaml") yaml)))).
End handlers.
