(* ===== verification/ServersApi.v ===== *)
(** Game servers on the HTTP API ([internal/api/servers],
    [internal/api/serversettings]) and the deletion of nodes
    ([internal/api/nodes/deletenode]): creating, changing and deleting servers,
    the commands of users, their abilities, and a server's settings. *)

From S2P Require Import Prelude.
From S2P Require Import GoNum.
From S2P Require Import Domain.
From S2P Require Import GoRuntime.
From S2P Require Import Repositories.
From S2P Require Import TaskRepo.
From S2P Require Import SettingsRepo.
From S2P Require Import ServersRepo.
From S2P Require Import ServerControl.
From S2P Require Import Enrollment.
From S2P Require Import Http.
From S2P Require Import Accounts.
From S2P Require Import UserAuth.
From S2P Require Import RBACRepo.
From S2P Require Import RBAC.
From S2P Require Import ServerAccess.
From S2P Require Import FilePath.
From S2P Require Import Validation.
From S2P Require Import Ids.
From S2P Require Import Games.
From S2P Require Import GameImport.
From S2P Require Import Park.
From S2P Require Import GamesApi.
From stdpp Require Import base tactics strings list gmap numbers.
From Stdlib Require Import NArith ZArith Ascii.

(** ** Inputs *)

(** [postserver]'s [serverInput]; a [flexible.Int] is an [int64]. *)
Record serverInput : Type := mkServerInput {
  nsi_Install : option bool; nsi_Name : string; nsi_DSID : Z; nsi_GameID : string; nsi_GameModID : Z; nsi_ServerIP : string;
  nsi_ServerPort : Z; nsi_QueryPort : option Z; nsi_RconPort : option Z; nsi_Rcon : option string; nsi_Dir : option string;
  nsi_StartCommand : option string; nsi_SuUser : option string; nsi_Settings : list (string * any);
}.
(** [putserver]'s [updateServerInput] *)
Record updateServerInput : Type := mkUpdateInput {
  usi_Enabled : option bool; usi_Installed : option Z; usi_Blocked : option bool; usi_Name : string; usi_GameID : string;
  usi_DSID : Z; usi_GameModID : Z; usi_ServerIP : string; usi_ServerPort : Z; usi_QueryPort : option Z; usi_RconPort : option Z;
  usi_Rcon : option string; usi_StartCommand : option string; usi_Dir : option string; usi_SuUser : option string;
  usi_Vars : option (gmap string string); usi_CPULimit : option Z; usi_RAMLimit : option Z;
}.

Definition maxNameLength : nat := 128.
Definition minPort : Z := 1.
Definition maxPort : Z := 65535.
Definition bad_port (p : Z) : bool := (p <? minPort)%Z || (maxPort <? p)%Z.
Definition bad_port_opt (p : option Z) : bool := match p with Some p => bad_port p | None => false end.
Definition negative_opt (n : option Z) : bool := match n with Some n => (n <? 0)%Z | None => false end.
Definition bad_dir (d : option string) : bool :=
  match d with Some d => negb (String.eqb d "") && negb (IsRelativeServerPath d) | None => false end.

(** The checks both inputs share, in three runs. *)
Definition who_checks (name gameID : string) (dsID gameModID : Z) (ip : string) : list (bool * string) :=
  [(String.eqb name "", "name is required"); (too_long maxNameLength name, "name must not exceed 128 characters");
   (String.eqb gameID "", "game_id is required"); ((dsID <=? 0)%Z, "ds_id is required"); ((gameModID <=? 0)%Z, "game_mod_id is required");
   (String.eqb ip "", "server_ip is required"); (negb (IsValidIPOrHostname ip), "server_ip is not a valid IP address or hostname")].
Definition port_checks (server : Z) (query rcon : option Z) : list (bool * string) :=
  [(bad_port server, "server_port must be between 1 and 65535"); (bad_port_opt query, "query_port must be between 1 and 65535");
   (bad_port_opt rcon, "rcon_port must be between 1 and 65535")].
Definition dir_check (d : option string) : bool * string :=
  (bad_dir d, "dir must be a relative path without drive letter or '..' segments").

Definition serverInput_Validate (s : serverInput) : option api_error :=
  first_refusal (who_checks (nsi_Name s) (nsi_GameID s) (nsi_DSID s) (nsi_GameModID s) (nsi_ServerIP s) ++
    port_checks (nsi_ServerPort s) (nsi_QueryPort s) (nsi_RconPort s) ++ [dir_check (nsi_Dir s)] ++
    map (fun setting => (String.eqb setting.1 "", "setting name is required")) (nsi_Settings s)).
Definition updateServer_Validate (s : updateServerInput) : option api_error :=
  first_refusal (who_checks (usi_Name s) (usi_GameID s) (usi_DSID s) (usi_GameModID s) (usi_ServerIP s) ++
    [(negb (ServerInstalledStatus_Valid (default 0%Z (usi_Installed s))), "installed has an invalid value, must be 0, 1 or 2")] ++
    port_checks (usi_ServerPort s) (usi_QueryPort s) (usi_RconPort s) ++
    [(negative_opt (usi_CPULimit s), "cpu_limit must be >= 0"); (negative_opt (usi_RAMLimit s), "ram_limit must be >= 0");
     dir_check (usi_Dir s)]).

(** [SettingsToMap]: of entries with one name the last counts. *)
Definition ToSettingsMap (l : list (string * any)) : gmap string any := foldl (fun m s => <[s.1 := s.2]> m) ∅ l.

(** [uint] of an [int]. *)
Definition to_uint (i : Z) : N := Z.to_N (i mod 2 ^ 64).

(** The server of an input; [id] is the XID drawn for it. *)
Definition serverInput_ToDomain `{XIDs} (id : list N) (s : serverInput) : Server :=
  mkServer 0 (uuid_String (XIDToUUID id)) (uuid_String (replicate 16 0%N)) "" true ServerInstalledStatusNotInstalled false
    (nsi_Name s) (nsi_GameID s) (to_uint (nsi_DSID s)) (to_uint (nsi_GameModID s)) None (nsi_ServerIP s) (nsi_ServerPort s)
    (nsi_QueryPort s) (nsi_RconPort s) (nsi_Rcon s) (default ""%string (nsi_Dir s)) (nsi_SuUser s) None None None
    (nsi_StartCommand s) None None None false None None None None None None.

(** The fields the handlers set on their own. *)
Definition sv_set_rcon (rcon : option string) (s : Server) : Server :=
  mkServer (sv_ID s) (sv_UID s) (sv_UUID s) (sv_UUIDShort s) (sv_Enabled s) (sv_Installed s) (sv_Blocked s) (sv_Name s)
    (sv_GameID s) (sv_DSID s) (sv_GameModID s) (sv_Expires s) (sv_ServerIP s) (sv_ServerPort s) (sv_QueryPort s) (sv_RconPort s)
    rcon (sv_Dir s) (sv_SuUser s) (sv_CPULimit s) (sv_RAMLimit s) (sv_NetLimit s) (sv_StartCommand s) (sv_StopCommand s)
    (sv_ForceStopCommand s) (sv_RestartCommand s) (sv_ProcessActive s) (sv_LastProcessCheck s) (sv_Vars s) (sv_Metadata s)
    (sv_CreatedAt s) (sv_UpdatedAt s) (sv_DeletedAt s).
Definition sv_set_place (start : option string) (dir : string) (s : Server) : Server :=
  mkServer (sv_ID s) (sv_UID s) (sv_UUID s) (sv_UUIDShort s) (sv_Enabled s) (sv_Installed s) (sv_Blocked s) (sv_Name s)
    (sv_GameID s) (sv_DSID s) (sv_GameModID s) (sv_Expires s) (sv_ServerIP s) (sv_ServerPort s) (sv_QueryPort s) (sv_RconPort s)
    (sv_Rcon s) dir (sv_SuUser s) (sv_CPULimit s) (sv_RAMLimit s) (sv_NetLimit s) start (sv_StopCommand s)
    (sv_ForceStopCommand s) (sv_RestartCommand s) (sv_ProcessActive s) (sv_LastProcessCheck s) (sv_Vars s) (sv_Metadata s)
    (sv_CreatedAt s) (sv_UpdatedAt s) (sv_DeletedAt s).

(** [updateServerInput.Apply] *)
Definition updateServer_Apply (i : updateServerInput) (s : Server) : Server :=
  mkServer (sv_ID s) (sv_UID s) (sv_UUID s) (sv_UUIDShort s) (default (sv_Enabled s) (usi_Enabled i))
    (default (sv_Installed s) (usi_Installed i)) (default (sv_Blocked s) (usi_Blocked i)) (usi_Name i)
    (usi_GameID i) (to_uint (usi_DSID i)) (to_uint (usi_GameModID i)) (sv_Expires s) (usi_ServerIP i) (usi_ServerPort i)
    (or_keep (usi_QueryPort i) (sv_QueryPort s)) (or_keep (usi_RconPort i) (sv_RconPort s)) (or_keep (usi_Rcon i) (sv_Rcon s))
    (default (sv_Dir s) (usi_Dir i)) (or_keep (usi_SuUser i) (sv_SuUser s)) (or_keep (usi_CPULimit i) (sv_CPULimit s))
    (or_keep (usi_RAMLimit i) (sv_RAMLimit s)) (sv_NetLimit s) (or_keep (usi_StartCommand i) (sv_StartCommand s)) (sv_StopCommand s)
    (sv_ForceStopCommand s) (sv_RestartCommand s) (sv_ProcessActive s) (sv_LastProcessCheck s)
    (or_keep (usi_Vars i) (sv_Vars s)) (sv_Metadata s) (sv_CreatedAt s) (sv_UpdatedAt s) (sv_DeletedAt s).

Definition nd_set_deleted (t : option time) (n : Node) : Node :=
  mkNode (nd_ID n) (nd_Enabled n) (nd_Name n) (nd_OS n) (nd_Location n) (nd_Provider n) (nd_IPs n)
    (nd_RAM n) (nd_CPU n) (nd_WorkPath n) (nd_SteamcmdPath n) (nd_GdaemonHost n) (nd_GdaemonPort n)
    (nd_GdaemonAPIKey n) (nd_GdaemonAPIToken n) (nd_GdaemonLogin n) (nd_GdaemonPassword n)
    (nd_GdaemonServerCert n) (nd_ClientCertificateID n) (nd_PreferInstallMethod n)
    (nd_ScriptInstall n) (nd_ScriptReinstall n) (nd_ScriptUpdate n) (nd_ScriptStart n)
    (nd_ScriptPause n) (nd_ScriptUnpause n) (nd_ScriptStop n) (nd_ScriptKill n) (nd_ScriptRestart n)
    (nd_ScriptStatus n) (nd_ScriptStats n) (nd_ScriptGetConsole n) (nd_ScriptSendCommand n)
    (nd_ScriptDelete n) (nd_CreatedAt n) (nd_UpdatedAt n) t.

(** ** Commands *)

(** [commandMap] and [abilitiesMap] of [postcommand]. *)
Definition command_table : list (string * (Server -> service_op) * list string) :=
  [("start", OpStart, [AbilityNameGameServerCommon; AbilityNameGameServerStart]);
   ("stop", OpStop, [AbilityNameGameServerCommon; AbilityNameGameServerStop]);
   ("restart", OpRestart, [AbilityNameGameServerCommon; AbilityNameGameServerRestart]);
   ("update", OpUpdate, [AbilityNameGameServerCommon; AbilityNameGameServerUpdate]);
   ("install", OpInstall, [AbilityNameGameServerCommon; AbilityNameGameServerUpdate]);
   ("reinstall", OpReinstall, [AbilityNameGameServerCommon; AbilityNameGameServerUpdate])]%string.
Definition find_command (command : string) : option ((Server -> service_op) * list string) :=
  (fun row => (row.1.2, row.2)) <$> List.find (fun row => String.eqb row.1.1 command) command_table.

(** ** Settings *)

Definition updateBeforeStartSettingKey : string := "update_before_start".
Definition var_name (v : string * string * string * bool) : string := v.1.1.1.
Definition var_default (v : string * string * string * bool) : string := v.1.1.2.
Definition var_info (v : string * string * string * bool) : string := v.1.2.
Definition var_admin (v : string * string * string * bool) : bool := v.2.

(** [buildAllowedSettings] of [postserver] and of [putserversettings]; the
    second tells whether a setting is for administrators. *)
Definition new_server_settings (gameMod : GameMod) : gset string :=
  {[autostartSettingKey; updateBeforeStartSettingKey]} ∪ list_to_set (map var_name (gmod_Vars gameMod)).
Definition allowed_settings (gameMod : GameMod) (isAdmin : bool) : gmap string bool :=
  foldl (fun m v => if var_admin v && negb isAdmin then m else <[var_name v := var_admin v]> m)
    {[autostartSettingKey := false; updateBeforeStartSettingKey := false]} (gmod_Vars gameMod).
Definition existing_settings (l : list ServerSetting) : gmap string ServerSetting := foldl (fun m s => <[ss_Name s := s]> m) ∅ l.

Definition settings_Validate (l : list (string * any)) : option api_error :=
  first_refusal (map (fun setting => (String.eqb setting.1 "", "setting name is required"%string)) l).

(** [buildSettingsResponse] *)
Definition visible_vars (gameMod : GameMod) (isAdmin : bool) : list (string * string * string * bool) :=
  List.filter (fun v => negb (var_admin v && negb isAdmin)) (gmod_Vars gameMod).
Definition default_settings (vars : list (string * string * string * bool)) : gmap string SettingResponse :=
  foldl (fun m v => <[var_name v := mkSettingResponse (var_name v) (inl (AnyString (var_default v))) "string" (var_info v) false]> m)
    {[autostartSettingKey := mkSettingResponse autostartSettingKey (inl (AnyBool false)) "bool" "Autostart" false;
      updateBeforeStartSettingKey := mkSettingResponse updateBeforeStartSettingKey (inl (AnyBool false)) "bool" "Update before start" false]} vars.
Definition stored_setting (isAdmin : bool) (m : gmap string SettingResponse) (setting : ServerSetting) : gmap string SettingResponse :=
  match m !! ss_Name setting with
  | None => m
  | Some existing =>
      if sr_AdminVar existing && negb isAdmin then m
      else <[ss_Name setting := mkSettingResponse (ss_Name setting) (inr (ss_Value setting)) (sr_Type existing) (sr_Label existing) false]> m
  end.
Definition buildSettingsResponse (gameMod : GameMod) (settings : list ServerSetting) (isAdmin : bool) : list SettingResponse :=
  let vars := visible_vars gameMod isAdmin in
  let order := autostartSettingKey :: updateBeforeStartSettingKey :: map var_name vars in
  let settingsMap := delete autostartCurrentSettingKey (foldl (stored_setting isAdmin) (default_settings vars) settings) in
  omap (fun key => settingsMap !! key) order.

(** ** The handlers *)

Section handlers.
Context {V A R G Q T Y X P : Type}.
Context `{FinderRepository V} `{ServerTable V} `{AccessControl A} `{NodeRepository R} `{GameRepository G} `{GameModRepository Q}.
Context `{DaemonTaskRepository T} `{ServerSettingRepository Y} `{TaskSender P}.
Context `{XIDs} `{Randomness} `{MapOrder} (clock : N -> time) (json_vars : gmap string string -> option string).
Context (pusher : bool).
Context (pluginDispatcher : option (PluginEventType -> Server -> option PluginDispatchResult)).
Context (taskDispatcher : option (DaemonTask -> M (Control T Y X) DaemonTask)).
Context (tm_Do : forall B, M (Control T Y X) B -> M (Control T Y X) B).
Abbreviation F := (Park G Q T Y X P).
Abbreviation S := (Desk V A R F).
Abbreviation Handler := (DeskHandler V A R F ParkAnswer).
Abbreviation work := (M S (ParkAnswer + api_error)).

Definition push_one (serverID : N) : M S unit := if pusher then PushServerConfig json_vars serverID else ret tt.
Definition conflict (msg : string) : api_error := WrapHTTPError (ENew msg) StatusConflict.
Definition not_found (msg : string) : api_error := WrapHTTPError (ENew msg) StatusNotFound.
Definition plain (msg : string) : api_error := OtherError (ENew msg).
Definition invalid_id (k : string) (e : error) : api_error := bad_request (EWrap ("invalid " +:+ k +:+ " id") e).

(** The server the path names, for the handlers only administrators reach. *)
Definition at_server (page : option Pagination) (r : Request) (k : Server -> work) : work :=
  decoded (invalid_id "server") (ReadUint r "id") (fun serverID =>
  call "failed to find server" (find_servers (FindServerByIDs [serverID]) page) (fun servers =>
  match servers with [] => refuse (not_found "server not found") | server :: _ => k server end)).

(** A task made by a handler, through the dispatcher or saved. *)
Definition handler_task (msg : string) (server : Server) (kind : string) (runAft : option N) : M S DaemonTask :=
  let! t := park_now clock in
  wrap msg (on_control (dispatchOrSaveTask clock taskDispatcher
    (mkDaemonTask 0 runAft (Some t) (Some t) (sv_DSID server) (Some (sv_ID server)) kind None None None DaemonTaskStatusWaiting))).

(** *** Creating *)

(** A search for the one row with a key, of which a handler needs one. *)
Definition need_one {B} (what : string) (x : M S (list B)) (k : B -> work) : work :=
  call ("failed to find " +:+ what) x (fun l => match l with [] => refuse (plain (what +:+ " not found")) | v :: _ => k v end).
Definition ErrWrongMod : api_error := NewValidationError "game mod does not belong to the specified game".

Definition empty_opt (s : option string) : bool := match s with None => true | Some s => String.eqb s "" end.
Definition defaultRconPasswordLength : nat := 10.
Definition ensure_rcon (server : Server) (k : Server -> work) : work :=
  if empty_opt (sv_Rcon server) then
    call "failed to generate rcon password" (at_random (CryptoRandomString defaultRconPasswordLength)) (fun p => k (sv_set_rcon (Some p) server))
  else k server.

Definition default_start (node : Node) (gameMod : GameMod) (start : option string) : option string :=
  if empty_opt start then
    if String.eqb (nd_OS node) NodeOSLinux then gmod_StartCmdLinux gameMod
    else if String.eqb (nd_OS node) NodeOSWindows then gmod_StartCmdWindows gameMod
    else start
  else start.
Definition server_xid (s : Server) : string := xid_String (UUIDToXID (uuid_Bytes (sv_UID s))).
Definition default_dir (s : Server) : string := if String.eqb (sv_Dir s) "" then "servers/" +:+ server_xid s else sv_Dir s.

Definition prepareServer (input : serverInput) (server : Server) (k : Server -> GameMod -> work) : work :=
  ensure_rcon server (fun server =>
  need_one "node" (find_nodes (FindNodeByIDs [sv_DSID server]) None) (fun node =>
  need_one "game" (on_game_table (GR_Find (FindGameByCodes [nsi_GameID input]) [] None)) (fun _ =>
  need_one "game mod" (on_mod_table (MR_Find (FindGameModByIDs [sv_GameModID server]) [] None)) (fun gameMod =>
  if negb (String.eqb (gmod_GameCode gameMod) (nsi_GameID input)) then refuse ErrWrongMod
  else
    let server := sv_set_place (default_start node gameMod (sv_StartCommand server)) (default_dir server) server in
    k (if default false (nsi_Install input) then sv_set_installed ServerInstalledStatusNotInstalled server else server) gameMod)))).

Definition save_new_settings (serverID : N) (settingsMap : gmap string any) (gameMod : GameMod) : M S unit :=
  let! n := next_run in
  for_each (range n settingsMap) (fun setting =>
    if bool_decide (setting.1 ∈ new_server_settings gameMod) then
      let! _ := wrap "failed to save setting" (on_control (on_settings
        (SS_Save (mkServerSetting 0 setting.1 serverID (NewServerSettingValue setting.2))))) in ret tt
    else ret tt).

Definition PostServer (decode : string -> result (option serverInput)) : Handler := fun _ r => respond StatusCreated (
  decoded_valid decode serverInput_Validate r (fun input =>
  let! id := draw 1 in
  prepareServer input (serverInput_ToDomain (xid_New id) input) (fun server gameMod =>
  call "failed to save server" (on_servers (VT_Save server)) (fun server =>
  call "failed to save settings"
    (match nsi_Settings input with
     | [] => ret tt
     | settings => save_new_settings (sv_ID server) (ToSettingsMap settings) gameMod
     end) (fun _ =>
  call "failed to create install task"
    (if default false (nsi_Install input) then
       let! task := handler_task "failed to dispatch daemon task" server DaemonTaskTypeServerInstall None in ret (dt_ID task)
     else ret 0%N) (fun taskID =>
  ret (inl (ServerCreated taskID (sv_ID server))))))))).

(** *** Changing *)

(** [prepareUpdate]: only what changes is looked up. *)
Definition gameChanged (server : Server) (input : updateServerInput) : bool := negb (String.eqb (usi_GameID input) (sv_GameID server)).
Definition gameModChanged (server : Server) (input : updateServerInput) : bool :=
  negb (to_uint (usi_GameModID input) =? sv_GameModID server)%N.
Definition check_mod (server : Server) (input : updateServerInput) (k : work) : work :=
  if gameChanged server input || gameModChanged server input then
    need_one "game mod" (on_mod_table (MR_Find (FindGameModByIDs [to_uint (usi_GameModID input)]) [] None)) (fun gameMod =>
    if negb (String.eqb (gmod_GameCode gameMod) (usi_GameID input)) then refuse ErrWrongMod else k)
  else k.
Definition check_game (server : Server) (input : updateServerInput) (k : work) : work :=
  if gameChanged server input then
    need_one "game" (on_game_table (GR_Find (FindGameByCodes [usi_GameID input]) [] None)) (fun _ => check_mod server input k)
  else check_mod server input k.
Definition prepareUpdate (server : Server) (input : updateServerInput) (k : work) : work :=
  let newDSID := to_uint (usi_DSID input) in
  if negb (newDSID =? sv_DSID server)%N then
    need_one "node" (find_nodes (FindNodeByIDs [newDSID]) None) (fun _ => check_game server input k)
  else check_game server input k.

Definition PutServer (decode : string -> result (option updateServerInput)) : Handler := fun _ r => respond StatusOK (
  at_server None r (fun server =>
  decoded (fun e => bad_request (EWrap "invalid request body" e)) (decode (rq_Body r)) (fun input =>
  match input with
  | None => nil_input
  | Some input =>
      valid "validation failed" (updateServer_Validate input) (
      prepareUpdate server input (
      call "failed to save server" (on_servers (VT_Save (updateServer_Apply input server))) (fun server =>
      do! push_one (sv_ID server) ;;
      ret (inl Success))))
  end))).

(** *** Deleting *)

Definition createDeleteFileTasks (server : Server) : M S unit :=
  let! t := park_now clock in
  let! runAftID :=
    if IsOnline t server then
      let! stopTask := handler_task "failed to dispatch stop task" server DaemonTaskTypeServerStop None in ret (Some (dt_ID stopTask))
    else ret None in
  let! _ := handler_task "failed to dispatch delete task" server DaemonTaskTypeServerDelete runAftID in
  ret tt.
Definition deleteWithFiles (server : Server) : M S unit :=
  do! wrap "failed to create delete tasks" (createDeleteFileTasks server) ;;
  wrap "failed to soft delete server" (on_servers (VT_SoftDelete (sv_ID server))).
Definition pending_of (serverID : N) : FindDaemonTask := mkFindDaemonTask [] [] [Some serverID] [] startStatuses.
Definition deleteWithoutFiles (server : Server) (k : work) : work :=
  let! t := park_now clock in
  if IsOnline t server then refuse (conflict "cannot delete server: server is online")
  else
    call "failed to check pending tasks" (let! s := get in lift (DT_Exists (c_tasks (pk_control (de_world s))) (Some (pending_of (sv_ID server))))) (fun hasPendingTasks =>
    if hasPendingTasks then refuse (conflict "cannot delete server: server has pending tasks")
    else call "failed to delete server" (on_servers (VT_Delete (sv_ID server))) (fun _ => k)).

(** The answer has no body. *)
Definition respond_empty (x : work) : M S (Response ParkAnswer) :=
  let! r := x in match r with inl _ => ret (WriteHeader StatusNoContent) | inr e => ret (WriteError e) end.
Definition DeleteServer (decode : string -> result bool) : Handler := fun _ r => respond_empty (
  decoded (invalid_id "server") (ReadUint r "id") (fun serverID =>
  decoded (fun e => bad_request (EWrap "invalid request body" e)) (if String.eqb (rq_Body r) "" then Ok false else decode (rq_Body r)) (fun deleteFiles =>
  call "failed to find server" (find_servers (FindServerByIDs [serverID]) only_first) (fun servers =>
  match servers with
  | [] => refuse (not_found "server not found")
  | server :: _ =>
      if deleteFiles then call "failed to delete server with files" (deleteWithFiles server) (fun _ => ret (inl Success))
      else deleteWithoutFiles server (ret (inl Success))
  end)))).

Definition DeleteNode : Handler := fun ctx r =>
  if negb (IsAuthenticated ctx) then ret (WriteError (unauthorized (ENew "user not authenticated")))
  else respond_empty (
    decoded (invalid_id "node") (ReadUint r "id") (fun nodeID =>
    call "failed to find node" (find_nodes (FindNodeByIDs [nodeID]) only_first) (fun nodes =>
    match nodes with
    | [] => refuse (NewNotFoundError "node not found")
    | node :: _ =>
        call "failed to check for associated servers" (exist_servers (FindServerByNodeIDs [nodeID])) (fun hasServers =>
        if hasServers then refuse (conflict "cannot delete node with existing game servers")
        else
          let! t := park_now clock in
          call "failed to delete node" (on_node_table (ND_Save (nd_set_deleted (Some t) node))) (fun _ => ret (inl Success)))
    end))).

(** *** Commands of users *)

Definition PostCommand (request_path : Request -> result string) : Handler := fun ctx r =>
  match ctx with
  | Some (mkSession _ _ _ (Some user) _) =>
      if negb (IsAuthenticated ctx) then ret (WriteError (unauthorized (ENew "user not authenticated")))
      else respond StatusOK (
        decoded (invalid_id "server") (ReadUint r "server") (fun serverID =>
        decoded (fun e => bad_request (EWrap "invalid command" e)) (request_path r) (fun path =>
        match find_command (List.last (split_byte slash path) ""%string) with
        | None => refuse (not_found "invalid command")
        | Some (op, abilities) =>
            let! server := FindUserServer user serverID in
            match server with
            | inr e => refuse e
            | inl server =>
                let! denied := CheckOrError (us_ID user) (sv_ID server) abilities in
                match denied with
                | Some e => refuse e
                | None =>
                    call "failed to execute command" (on_control (run_op clock pluginDispatcher taskDispatcher tm_Do (op server)))
                      (fun taskID => ret (inl (CommandTask taskID)))
                end
            end
        end)))
  | _ => ret (WriteError (unauthorized (ENew "user not authenticated")))
  end.

(** *** Reading *)

Definition GetStatus : Handler := with_server "server" None (fun _ server _ =>
  let! t := park_now clock in ret (Write StatusOK (ServerStatus (IsOnline t server)))).

Fixpoint ask_abilities (userID serverID : N) (isAdmin : bool) (l : list string) (abilities : gmap string bool) : M S (gmap string bool) :=
  match l with
  | [] => ret abilities
  | name :: l =>
      let! has :=
        if isAdmin then ret true
        else wrap ("failed to check ability " +:+ name +:+ " for server " +:+ FormatUint serverID)
          (on_access (AC_CanForEntity userID EntityTypeServer serverID [name])) in
      ask_abilities userID serverID isAdmin l (<[name := has]> abilities)
  end.
Definition buildServerAbilities (plugin_abilities : list string) (server : Server) (user : User) : M S (gmap string bool) :=
  let! isAdmin := wrap "failed to check admin permissions" (on_access (AC_Can (us_ID user) [AbilityNameAdminRolesPermissions])) in
  ask_abilities (us_ID user) (sv_ID server) isAdmin (ServersAbilities ++ plugin_abilities) ∅.
Definition GetServerAbilities (plugin_abilities : list string) : Handler := with_server "server" None (fun user server _ =>
  respond StatusOK (call "failed to build server abilities" (buildServerAbilities plugin_abilities server user)
    (fun abilities => ret (inl (Abilities abilities))))).

(** *** Settings *)

Definition settings_abilities : list string := [AbilityNameGameServerCommon; AbilityNameGameServerSettings].
Definition settings_of (serverID : N) : M S (list ServerSetting) := let! s := get in
  lift (SS_Find (c_settings (pk_control (de_world s))) (Some (mkFindServerSetting [] [serverID] [])) [] None).

Definition GetServerSettings : Handler := with_server "server" None (fun user server r => respond StatusOK (
  call "failed to check admin permissions" (on_access (AC_Can (us_ID user) [AbilityNameAdminRolesPermissions])) (fun isAdmin =>
  call "failed to check permissions"
    (if isAdmin then ret true else on_access (AC_CanForEntity (us_ID user) EntityTypeServer (sv_ID server) settings_abilities)) (fun canSettings =>
  if negb canSettings then refuse (WrapHTTPError (ENew "insufficient permissions") StatusForbidden)
  else
    call "failed to find game mod" (on_mod_table (MR_Find (FindGameModByIDs [sv_GameModID server]) [] only_first)) (fun gameMods =>
    match gameMods with
    | [] => refuse (NewNotFoundError "game mod not found")
    | gameMod :: _ =>
        call "failed to find server settings" (settings_of (sv_ID server)) (fun serverSettings =>
        ret (inl (SettingBodies (buildSettingsResponse gameMod serverSettings isAdmin))))
    end))))).

(** [saveSettings] of [putserversettings]; its errors may carry a status. *)
Definition save_setting (server : Server) (existing : gmap string ServerSetting) (setting : string * any) : M S unit :=
  let stored := mkServerSetting (match existing !! setting.1 with Some old => ss_ID old | None => 0%N end) setting.1 (sv_ID server)
    (NewServerSettingValue setting.2) in
  let! _ := wrap (match existing !! setting.1 with Some _ => "failed to update setting" | None => "failed to create setting" end)
    (on_control (on_settings (SS_Save stored))) in
  ret tt.
Definition saveSettings (server : Server) (settingsInput : gmap string any) (isAdmin : bool) (k : work) : work :=
  call "failed to save settings" (wrap "failed to find game mod" (on_mod_table (MR_Find (FindGameModByIDs [sv_GameModID server]) [] only_first))) (fun gameMods =>
  match gameMods with
  | [] => refuse (with_message "failed to save settings" (NewNotFoundError "game mod not found"))
  | gameMod :: _ =>
      let allowed := allowed_settings gameMod isAdmin in
      call "failed to save settings" (wrap "failed to find server settings" (settings_of (sv_ID server))) (fun existingSettings =>
      let existing := existing_settings existingSettings in
      let! n := next_run in
      call "failed to save settings" (for_each (range n settingsInput) (fun setting =>
        match allowed !! setting.1 with
        | None => ret tt
        | Some adminVar => if adminVar && negb isAdmin then ret tt else save_setting server existing setting
        end)) (fun _ => k))
  end).
Definition PutServerSettings (decode : string -> result (list (string * any))) : Handler := with_server "server" None (fun user server r => respond StatusOK (
  call "failed to check admin permissions" (on_access (AC_Can (us_ID user) [AbilityNameAdminRolesPermissions])) (fun isAdmin =>
  let! denied := CheckOrError (us_ID user) (sv_ID server) settings_abilities in
  match denied with
  | Some e => refuse e
  | None =>
      decoded (fun e => bad_request (EWrap "failed to read request body" e)) (decode (rq_Body r)) (fun input =>
      match settings_Validate input with
      | Some _ => refuse (bad_request (ENew "setting name is required"))
      | None =>
          saveSettings server (ToSettingsMap input) isAdmin (
          do! push_one (sv_ID server) ;;
          ret (inl Success))
      end)
  end))).
End handlers.
