(* ===== verification/NodesApi.v ===== *)
(** Changing a node on the HTTP API ([internal/api/nodes/putnode]): the checks
    of the request, what it sets on the node, and the handler, which keeps the
    certificate of the daemon in a file.  The file manager and the cipher of the
    SSH password are parameters. *)

From S2P Require Import Prelude.
From S2P Require Import GoNum.
From S2P Require Import Domain.
From S2P Require Import GoRuntime.
From S2P Require Import Repositories.
From S2P Require Import TaskRepo.
From S2P Require Import NodesRepo.
From S2P Require Import ServersRepo.
From S2P Require Import ServerControl.
From S2P Require Import Http.
From S2P Require Import Accounts.
From S2P Require Import UserAuth.
From S2P Require Import ServerAccess.
From S2P Require Import FilePath.
From S2P Require Import Validation.
From S2P Require Import Ids.
From S2P Require Import Games.
From S2P Require Import GameImport.
From S2P Require Import Park.
From S2P Require Import GamesApi.
From S2P Require Import ServersApi.
From stdpp Require Import base tactics strings list gmap numbers.
From Stdlib Require Import NArith ZArith Ascii.

(** [updateNodeInput]: what the request leaves out is [None]. *)
Record updateNodeInput : Type := mkUpdateNode {
  uni_Enabled : option bool; uni_Name : option string; uni_OS : option string; uni_Location : option string;
  uni_Provider : option string; uni_IP : option (list string); uni_RAM : option string; uni_CPU : option string;
  uni_WorkPath : option string; uni_SteamcmdPath : option string; uni_GdaemonHost : option string; uni_GdaemonPort : option Z;
  uni_GdaemonAPIKey : option string; uni_GdaemonLogin : option string; uni_GdaemonPassword : option string;
  uni_GdaemonServerCert : option string; uni_ClientCertificateID : option N; uni_PreferInstallMethod : option string;
  uni_ScriptInstall : option string; uni_ScriptReinstall : option string; uni_ScriptUpdate : option string;
  uni_ScriptStart : option string; uni_ScriptPause : option string; uni_ScriptUnpause : option string;
  uni_ScriptStop : option string; uni_ScriptKill : option string; uni_ScriptRestart : option string;
  uni_ScriptStatus : option string; uni_ScriptStats : option string; uni_ScriptGetConsole : option string;
  uni_ScriptSendCommand : option string; uni_ScriptDelete : option string;
}.

Definition maxLocationLength : nat := 128.
Definition maxProviderLength : nat := 128.
Definition maxPathLength : nat := 512.
Definition maxGdaemonServerCertSize : N := 10485760.
Definition certificatesPath : string := "certs".

(** A check of a field that was given. *)
Definition given {B} (f : B -> bool) (o : option B) : bool := match o with Some v => f v | None => false end.

Definition is_empty (s : string) : bool := String.eqb s "".
Definition bad_os `{Unicode} (os : string) : bool :=
  negb (String.eqb (ToLower os) "linux") && negb (String.eqb (ToLower os) "windows").

(** [Validate]: the checks in their order, the first that fails answers. *)
Definition updateNode_Validate `{Unicode} (i : updateNodeInput) : option api_error :=
  first_refusal
    [(given is_empty (uni_Name i), "name is required"); (given (too_long maxNameLength) (uni_Name i), "name must not exceed 128 characters");
     (given is_empty (uni_Location i), "location is required");
     (given (too_long maxLocationLength) (uni_Location i), "location must not exceed 128 characters");
     (given (too_long maxProviderLength) (uni_Provider i), "provider must not exceed 128 characters");
     (given (fun l => match l with [] => true | _ => false end) (uni_IP i), "at least one IP address is required");
     (given (existsb (fun ip => negb (IsValidIPOrHostname ip))) (uni_IP i), "invalid IP address or hostname format");
     (given is_empty (uni_OS i), "os is required"); (given bad_os (uni_OS i), "os must be either 'linux' or 'windows'");
     (given is_empty (uni_WorkPath i), "work_path is required");
     (given (too_long maxPathLength) (uni_WorkPath i), "work_path must not exceed 512 characters");
     (given (too_long maxPathLength) (uni_SteamcmdPath i), "steamcmd_path must not exceed 512 characters");
     (given is_empty (uni_GdaemonHost i), "gdaemon_host is required");
     (given (too_long maxNameLength) (uni_GdaemonHost i), "gdaemon_host must not exceed 128 characters");
     (given bad_port (uni_GdaemonPort i), "gdaemon_port must be between 1 and 65535");
     (given (fun c => (maxGdaemonServerCertSize <? N.of_nat (String.length c))%N) (uni_GdaemonServerCert i),
      "gdaemon_server_cert is too large")]%string.

(** [ApplyToNode]; the API key is stored as its hash. *)
Definition ApplyToNode `{Unicode} (SHA256 : string -> string) (i : updateNodeInput) (n : Node) : Node :=
  mkNode (nd_ID n) (default (nd_Enabled n) (uni_Enabled i)) (default (nd_Name n) (uni_Name i))
    (match uni_OS i with Some os => ParseNodeOS os | None => nd_OS n end) (default (nd_Location n) (uni_Location i))
    (or_keep (uni_Provider i) (nd_Provider n)) (default (nd_IPs n) (uni_IP i)) (or_keep (uni_RAM i) (nd_RAM n))
    (or_keep (uni_CPU i) (nd_CPU n)) (default (nd_WorkPath n) (uni_WorkPath i)) (or_keep (uni_SteamcmdPath i) (nd_SteamcmdPath n))
    (default (nd_GdaemonHost n) (uni_GdaemonHost i)) (default (nd_GdaemonPort n) (uni_GdaemonPort i))
    (match uni_GdaemonAPIKey i with Some key => SHA256 key | None => nd_GdaemonAPIKey n end) (nd_GdaemonAPIToken n)
    (or_keep (uni_GdaemonLogin i) (nd_GdaemonLogin n)) (or_keep (uni_GdaemonPassword i) (nd_GdaemonPassword n))
    (nd_GdaemonServerCert n) (default (nd_ClientCertificateID n) (uni_ClientCertificateID i))
    (default (nd_PreferInstallMethod n) (uni_PreferInstallMethod i))
    (or_keep (uni_ScriptInstall i) (nd_ScriptInstall n)) (or_keep (uni_ScriptReinstall i) (nd_ScriptReinstall n))
    (or_keep (uni_ScriptUpdate i) (nd_ScriptUpdate n)) (or_keep (uni_ScriptStart i) (nd_ScriptStart n))
    (or_keep (uni_ScriptPause i) (nd_ScriptPause n)) (or_keep (uni_ScriptUnpause i) (nd_ScriptUnpause n))
    (or_keep (uni_ScriptStop i) (nd_ScriptStop n)) (or_keep (uni_ScriptKill i) (nd_ScriptKill n))
    (or_keep (uni_ScriptRestart i) (nd_ScriptRestart n)) (or_keep (uni_ScriptStatus i) (nd_ScriptStatus n))
    (or_keep (uni_ScriptStats i) (nd_ScriptStats n)) (or_keep (uni_ScriptGetConsole i) (nd_ScriptGetConsole n))
    (or_keep (uni_ScriptSendCommand i) (nd_ScriptSendCommand n)) (or_keep (uni_ScriptDelete i) (nd_ScriptDelete n))
    (nd_CreatedAt n) (nd_UpdatedAt n) (nd_DeletedAt n).

(** The secrets and the certificate's path of a node. *)
Definition nd_set_secrets (key : string) (token login password : option string) (cert : string) (n : Node) : Node :=
  mkNode (nd_ID n) (nd_Enabled n) (nd_Name n) (nd_OS n) (nd_Location n) (nd_Provider n) (nd_IPs n)
    (nd_RAM n) (nd_CPU n) (nd_WorkPath n) (nd_SteamcmdPath n) (nd_GdaemonHost n) (nd_GdaemonPort n)
    key token login password cert (nd_ClientCertificateID n) (nd_PreferInstallMethod n)
    (nd_ScriptInstall n) (nd_ScriptReinstall n) (nd_ScriptUpdate n) (nd_ScriptStart n)
    (nd_ScriptPause n) (nd_ScriptUnpause n) (nd_ScriptStop n) (nd_ScriptKill n) (nd_ScriptRestart n)
    (nd_ScriptStatus n) (nd_ScriptStats n) (nd_ScriptGetConsole n) (nd_ScriptSendCommand n)
    (nd_ScriptDelete n) (nd_CreatedAt n) (nd_UpdatedAt n) (nd_DeletedAt n).
Definition nd_set_cert (cert : string) (n : Node) : Node :=
  nd_set_secrets (nd_GdaemonAPIKey n) (nd_GdaemonAPIToken n) (nd_GdaemonLogin n) (nd_GdaemonPassword n) cert n.
Definition nd_set_password (password : option string) (n : Node) : Node :=
  nd_set_secrets (nd_GdaemonAPIKey n) (nd_GdaemonAPIToken n) (nd_GdaemonLogin n) password (nd_GdaemonServerCert n) n.

(** The answer shows a node without its key, token, login and password. *)
Definition newNodeResponse (n : Node) : Node := nd_set_secrets "" None None None (nd_GdaemonServerCert n) n.

Section handlers.
Context {V A R G Q T Y X P : Type}.
Context `{ServerTable V} `{NodeRepository R} `{XIDs} `{Unicode} (clock : N -> time) (SHA256 : string -> string).
Abbreviation F := (Park G Q T Y X P).
Abbreviation S := (Desk V A R F).
Abbreviation Handler := (DeskHandler V A R F ParkAnswer).
Abbreviation work := (M S (ParkAnswer + api_error)).
(** The file manager and the cipher. *)
Context (write_file : string -> string -> M S unit) (delete_file : string -> M S unit) (Encrypt : string -> M S string).

(** A call whose error is ignored. *)
Definition ignoring (x : M S unit) : M S unit :=
  let! r := attempt x in match r with Panic w => lift (Panic w) | _ => ret tt end.
(** [errors.WithMessage(sentinel, err.Error())] *)
Definition failing_as {B} (sentinel : string) (x : M S B) : M S B :=
  let! r := attempt x in
  match r with Panic w => lift (Panic w) | Err e => fail (EWrap (Error e) (ENew sentinel)) | Ok v => ret v end.

Definition new_cert (i : updateNodeInput) : option string :=
  match uni_GdaemonServerCert i with Some c => if is_empty c then None else Some c | None => None end.

Definition store_cert (i : updateNodeInput) (n : Node) : M S Node :=
  match new_cert i with
  | None => ret n
  | Some cert =>
      let! k := draw 1 in
      let certPath := FilePath.Join [certificatesPath; xid_String (xid_New k) +:+ ".crt"] in
      do! failing_as "failed to save certificate" (write_file certPath cert) ;;
      ret (nd_set_cert certPath n)
  end.

Definition updateNode (node : Node) (i : updateNodeInput) : M S Node :=
  let oldCertPath := nd_GdaemonServerCert node in
  let! node := store_cert i node in
  let node := ApplyToNode SHA256 i node in
  let! node :=
    match uni_GdaemonPassword i, nd_GdaemonPassword node with
    | Some _, Some password =>
        let! encrypted := wrap "failed to encrypt gdaemon password" (Encrypt password) in
        ret (nd_set_password (Some encrypted) node)
    | _, _ => ret node
    end in
  let! t := park_now clock in
  let node := nd_set_times (nd_CreatedAt node) (Some t) node in
  let! saved := attempt (on_node_table (ND_Save node)) in
  match saved with
  | Panic w => lift (Panic w)
  | Err e =>
      do! (if new_cert i is Some _ then ignoring (delete_file (nd_GdaemonServerCert node)) else ret tt) ;;
      fail (EWrap (Error e) (ENew "failed to update node"))
  | Ok node =>
      do! (if new_cert i is Some _ then if is_empty oldCertPath then ret tt else ignoring (delete_file oldCertPath) else ret tt) ;;
      ret node
  end.

(** A refused input is answered with 422 and its message. *)
Definition checked (e : option api_error) (k : work) : work :=
  match e with
  | Some (APIError _ m) => refuse (WrapHTTPError (EWrap "validation failed" (ENew m)) StatusUnprocessableEntity)
  | Some e => refuse e
  | None => k
  end.

Definition PutNode (decode : string -> result updateNodeInput) : Handler := fun _ r => respond StatusOK (
  decoded (invalid_id "node") (ReadUint r "id") (fun nodeID =>
  call "failed to find node" (find_nodes (FindNodeByIDs [nodeID]) only_first) (fun nodes =>
  match nodes with
  | [] => refuse (not_found "node not found")
  | node :: _ =>
      decoded (fun e => bad_request (EWrap "invalid request" e)) (decode (rq_Body r)) (fun input =>
      checked (updateNode_Validate input) (
      call "failed to update node" (updateNode node input) (fun node =>
      ret (inl (NodeBody (newNodeResponse node))))))
  end))).
End handlers.
