(* ===== verification/ParkConsistent.v ===== *)
(** The park of servers stays consistent: whatever administrators and users
    ask of the handlers of [GamesApi], [ServersApi] and [NodesApi], and whatever
    daemons do by enrolling and reporting, every server is well formed and
    refers to a game, a mod and a node that exist. *)

From S2P Require Import Prelude.
From S2P Require Import GoNum.
From S2P Require Import Domain.
From S2P Require Import GoRuntime.
From S2P Require Import Repositories.
From S2P Require Import TaskRepo.
From S2P Require Import SettingsRepo.
From S2P Require Import NodesRepo.
From S2P Require Import ServersRepo.
From S2P Require Import ServerControl.
From S2P Require Import Converters.
From S2P Require Import Dispatcher.
From S2P Require Import Enrollment.
From S2P Require Import Http.
From S2P Require Import Accounts.
From S2P Require Import UserAuth.
From S2P Require Import RBACRepo.
From S2P Require Import RBAC.
From S2P Require Import ServerAccess.
From S2P Require Import FilePath.
From S2P Require Import Validation.
From S2P Require Import Ids.
From S2P Require Import Games.
From S2P Require Import GameImport.
From S2P Require Import Park.
From S2P Require Import GamesApi.
From S2P Require Import ServersApi.
From S2P Require Import NodesApi.
From stdpp Require Import base tactics strings list gmap numbers relations.
From Stdlib Require Import NArith ZArith Ascii.

(** ** Well-formed servers *)

Definition port_ok (p : Z) : Prop := (minPort <= p <= maxPort)%Z.
Record well_formed (s : Server) : Prop := {
  wf_name : sv_Name s <> ""%string /\ String.length (sv_Name s) <= maxNameLength;
  wf_address : IsValidIPOrHostname (sv_ServerIP s) = true;
  wf_port : port_ok (sv_ServerPort s);
  wf_ports : forall p, sv_QueryPort s = Some p \/ sv_RconPort s = Some p -> port_ok p;
  wf_dir : sv_Dir s = ""%string \/ IsRelativeServerPath (sv_Dir s) = true;
  wf_installed : ServerInstalledStatus_Valid (sv_Installed s) = true;
  wf_limits : forall n, sv_CPULimit s = Some n \/ sv_RAMLimit s = Some n -> (0 <= n)%Z;
}.

(** A server as saved is as well formed as before. *)
Lemma well_formed_saved i created updated deleted s :
  well_formed s -> well_formed (Hydrate (sv_set_id i (sv_set_times created updated deleted s))).
Proof. by intros []. Qed.

Lemma first_refusal_none l : first_refusal l = None <-> forall c, c ∈ l -> c.1 = false.
Proof.
  induction l as [|[b msg] l IH]; simpl; [split; [by intros _ c ?%list.elem_of_nil|done]|]. setoid_rewrite list.elem_of_cons. destruct b; split.
  - done.
  - intros Hall. specialize (Hall _ (or_introl eq_refl)). done.
  - intros E c [->|Hc]; [done|]. by apply IH.
  - intros Hall. apply IH. auto.
Qed.
Lemma first_refusal_app l1 l2 : first_refusal (l1 ++ l2) = None <-> first_refusal l1 = None /\ first_refusal l2 = None.
Proof. rewrite !first_refusal_none. setoid_rewrite list.elem_of_app. naive_solver. Qed.

Lemma who_checks_pass name g d m ip : first_refusal (who_checks name g d m ip) = None ->
  (name <> ""%string /\ String.length name <= maxNameLength) /\ IsValidIPOrHostname ip = true.
Proof.
  unfold who_checks, first_refusal, too_long. destruct (String.eqb_spec name ""); [done|].
  destruct (maxNameLength <? String.length name) eqn:El; [done|]. apply Nat.ltb_ge in El.
  repeat (case_match; try done). intros _. split; [done|]. by apply negb_false_iff.
Qed.
Lemma good_port p : bad_port p = false -> port_ok p.
Proof. unfold bad_port, port_ok. rewrite orb_false_iff, !Z.ltb_ge. lia. Qed.
Lemma port_checks_pass p q rc : first_refusal (port_checks p q rc) = None ->
  port_ok p /\ (forall n, q = Some n -> port_ok n) /\ (forall n, rc = Some n -> port_ok n).
Proof.
  unfold port_checks, first_refusal. destruct (bad_port p) eqn:Ep; [done|]. destruct (bad_port_opt q) eqn:Eq; [done|].
  destruct (bad_port_opt rc) eqn:Er; [done|]. intros _. split_and!; [by apply good_port|intros n ->; by apply good_port..].
Qed.
Lemma good_dir d : bad_dir d = false -> default ""%string d = ""%string \/ IsRelativeServerPath (default ""%string d) = true.
Proof.
  destruct d as [d|]; simpl; [|by left]. destruct (String.eqb_spec d "") as [->|]; [by left|]. simpl. intros Hd%negb_false_iff. by right.
Qed.

(** *** New servers *)

Lemma xid_char_plain c : xid_char c = true -> Ascii.eqb c slash = false /\ Ascii.eqb c backslash = false.
Proof. intros Hc. split; apply Ascii.eqb_neq; by intros ->. Qed.
Lemma xid_text_plain x : xid_text x = true -> replace_byte backslash slash x = x /\ split_byte slash x = [x].
Proof.
  induction x as [|d x IH]; [done|]. intros [Hc Hx]%andb_prop. destruct (xid_char_plain d Hc) as [Hs Hb], (IH Hx) as [Er Es].
  cbn [replace_byte split_byte]. by rewrite Hb, Er, Hs, Es.
Qed.
(** The directory a server gets by default passes the check of directories. *)
Lemma default_dir_relative x : xid_text x = true -> IsRelativeServerPath ("servers/" +:+ x) = true.
Proof.
  intros Hx. destruct (xid_text_plain x Hx) as [Er Es], (xid_text_part x Hx) as [_ Hup].
  assert (E : replace_byte backslash slash ("servers/" +:+ x) = "servers/" +:+ x).
  { transitivity ("servers/" +:+ replace_byte backslash slash x); [reflexivity|by rewrite Er]. }
  assert (Ep : split_byte slash ("servers/" +:+ x) = ["servers"; x]%string).
  { change (split_byte slash ("servers/" +:+ x)) with
      (match "" :: split_byte slash x with p :: ps => String "s" (String "e" (String "r" (String "v" (String "e" (String "r" (String "s" p)))))) :: ps | [] => [] end).
    by rewrite Es. }
  unfold IsRelativeServerPath. rewrite String_app. cbv beta iota.
  change (String "s" ("ervers/" +:+ x)) with ("servers/" +:+ x). rewrite E, Ep. cbn [existsb].
  rewrite orb_false_r. apply not_eq_sym, String.eqb_neq in Hup. by rewrite Hup.
Qed.

Lemma new_server_formed `{XIDLaws} input n rcon start : serverInput_Validate input = None ->
  let server := sv_set_rcon rcon (serverInput_ToDomain (xid_New n) input) in
  well_formed (sv_set_place start (default_dir server) server).
Proof.
  unfold serverInput_Validate. rewrite !first_refusal_app. intros (Hw & Hp & Hd & _).
  apply who_checks_pass in Hw as [Hname Haddr]. apply port_checks_pass in Hp as (Hport & Hq & Hr).
  rewrite first_refusal_none in Hd. specialize (Hd _ (list_elem_of_here _ _)). apply good_dir in Hd.
  constructor; simpl; [done|done|done|intros p []; auto| |done|by intros ? []].
  unfold default_dir, server_xid. simpl. destruct (String.eqb_spec (default ""%string (nsi_Dir input)) "") as [_|Hne]; right; [|by destruct Hd].
  assert (Hb : bytes 12 (xid_New n)) by apply xid_bytes.
  apply default_dir_relative. rewrite uuid_text; [|apply (xid_uuid_bytes _ Hb)]. rewrite (xid_uuid_inverse _ Hb). by apply xid_prints.
Qed.
Lemma installed_formed i s : ServerInstalledStatus_Valid i = true -> well_formed s -> well_formed (sv_set_installed i s).
Proof. by intros Hi []. Qed.

Lemma or_keep_some {A} (a b : option A) n : or_keep a b = Some n -> a = Some n \/ b = Some n.
Proof. destruct a; simpl; auto. Qed.
Lemma updated_server_formed input s : updateServer_Validate input = None -> well_formed s -> well_formed (updateServer_Apply input s).
Proof.
  unfold updateServer_Validate. rewrite !first_refusal_app. intros (Hw & Hin & Hp & Hrest) Hs.
  apply who_checks_pass in Hw as [Hname Haddr]. apply port_checks_pass in Hp as (Hport & Hq & Hr).
  rewrite first_refusal_none in Hin, Hrest. specialize (Hin _ (list_elem_of_here _ _)). apply negb_false_iff in Hin.
  pose proof (Hrest (_, _) (list_elem_of_here _ _)) as Hcpu. pose proof (Hrest _ (list_elem_of_further _ _ _ (list_elem_of_here _ _))) as Hram.
  pose proof (Hrest _ (list_elem_of_further _ _ _ (list_elem_of_further _ _ _ (list_elem_of_here _ _)))) as Hd. simpl in Hcpu, Hram, Hd.
  assert (Hneg : forall o n, negative_opt o = false -> o = Some n -> (0 <= n)%Z) by (intros o n Hn ->; by apply Z.ltb_ge in Hn).
  destruct Hs as [_ _ _ Hports Hdir Hinst Hlim]. constructor; simpl; [done|done|done|..].
  - intros p [Hp|Hp]; apply or_keep_some in Hp as [Hp|Hp]; auto.
  - destruct (usi_Dir input) as [d|]; [exact (good_dir _ Hd)|exact Hdir].
  - by destruct (usi_Installed input).
  - intros n [Hn|Hn]; apply or_keep_some in Hn as [Hn|Hn]; eauto.
Qed.

(** ** Steps that change neither servers, nodes nor the shelf of games *)

(** What a daemon reports of a server: whether it is installed, whether it runs
    and when that was looked at.  A save may hydrate the row. *)
Definition reported (server server' : Server) : Prop :=
  exists installed active check created updated, ServerInstalledStatus_Valid installed = true /\
    let row := sv_set_times created updated (sv_DeletedAt server) (sv_set_status active check updated (sv_set_installed installed server)) in
    server' = row \/ server' = Hydrate row.

Lemma reported_formed server server' : reported server server' -> well_formed server -> well_formed server'.
Proof. by intros (i & a & c & t & u & Hi & [->| ->]) [Hn Ha Hp Hps Hd _ Hl]. Qed.
Lemma reported_same server : ServerInstalledStatus_Valid (sv_Installed server) = true -> reported server server.
Proof.
  intros Hi. exists (sv_Installed server), (sv_ProcessActive server), (sv_LastProcessCheck server), (sv_CreatedAt server), (sv_UpdatedAt server).
  split; [done|]. left. by destruct server.
Qed.

(** The status messages of a daemon are such reports. *)
Lemma statuses_reported `{WallClock} node l (r : memServerRepo) :
  (forall i row, live_rows r !! i = Some row -> ServerInstalledStatus_Valid (sv_Installed row) = true) ->
  forall i row', live_rows (snd (UpdateServerStatuses node l r)) !! i = Some row' ->
    exists row, live_rows r !! i = Some row /\ reported row row'.
Proof.
  intros Hvalid i row' Hrow'. assert (Hsame : forall s, live_rows r !! i = Some s -> reported s s)
    by (intros s Hs; by eapply reported_same, Hvalid).
  destruct l as [|u0 l]; [exists row'; auto|]. unfold UpdateServerStatuses, bind, read_clock, modify in Hrow'.
  cbn [fst snd] in Hrow'. revert Hrow'. rewrite live_row. cbn [servers sr_set_servers sr_tick].
  set (now0 := now_at (sr_ticks r)). generalize (u0 :: l). intros us.
  assert (Hgen : forall m, (forall s, m !! i = Some s -> is_deleted s = false -> exists row, live_rows r !! i = Some row /\ reported row s) ->
    foldl (fun m u => update_status node now0 u m) m us !! i = Some row' -> is_deleted row' = false ->
    exists row, live_rows r !! i = Some row /\ reported row row').
  { induction us as [|u us IH]; intros m Hm; simpl; [apply Hm|]. apply IH. intros s.
    unfold update_status. destruct (m !! su_ID u) as [s0|] eqn:E0; [|apply Hm].
    destruct (sv_DSID s0 =? node)%N; [|apply Hm]. rewrite lookup_insert. case_decide; [|apply Hm]. subst i.
    intros [= <-] Hd. destruct (Hm s0 E0 Hd) as (row & Hr & inst & a & c & t & v & Hi & Hs0). exists row. split; [done|].
    exists inst, (su_ProcessActive u), (Some (su_LastProcessCheck u)), t, (Some now0). split; [done|].
    destruct Hs0 as [->| ->]; [by left|by right]. }
  intros [Hs Hd]. apply (Hgen (servers r)); [|done|done]. intros s Hs0 Hd0. exists s.
  assert (Hlive : live_rows r !! i = Some s) by by apply live_row. auto.
Qed.

Section park.
Context {V A R G Q T Y X P : Type}.
Context `{FinderRepositoryLaws V} `{!ServerTable V} `{!ServerTableLaws V} `{AccessControl A} `{NodeRepositoryLaws R}.
Context `{GameRepositoryLaws G} `{GameModRepositoryLaws Q} `{DaemonTaskRepository T} `{ServerSettingRepository Y} `{TaskSender P}.
Context `{XIDLaws} `{Randomness} `{MapOrder} (clock : N -> time) (json_vars : gmap string string -> option string) (pusher : bool).
Context (pluginDispatcher : option (PluginEventType -> Server -> option PluginDispatchResult)).
Context (taskDispatcher : option (DaemonTask -> M (Control T Y X) DaemonTask)).
Context (control_tm : forall B, M (Control T Y X) B -> M (Control T Y X) B).
Context (tm_Do : forall B, M (Library G Q) B -> M (Library G Q) B) (Htm : atomic tm_Do).
Abbreviation F := (Park G Q T Y X P).
Abbreviation S := (Desk V A R F).
Abbreviation work := (M S (ParkAnswer + api_error)).
Implicit Types s : S.

Definition shelf s : Library G Q := pk_library (de_world s).
Definition shelf_kept (l l' : Library G Q) : Prop := linv l -> same_shelf l l'.
Definition calm s s' : Prop := de_servers s' = de_servers s /\ de_nodes s' = de_nodes s /\ shelf_kept (shelf s) (shelf s').

#[local] Instance shelf_kept_preorder : PreOrder shelf_kept.
Proof.
  split; [by intros l Hi; split_and!|]. intros l1 l2 l3 Hl Hl' Hi.
  destruct (Hl Hi) as (Hi2 & Hg & Hm & Hr). destruct (Hl' Hi2) as (Hi3 & Hg' & Hm' & Hr'). split_and!; [done|congruence..|auto].
Qed.
#[local] Instance calm_preorder : PreOrder calm.
Proof.
  split; [by intros s; split_and!|]. intros s1 s2 s3 (Hv & Hn & Hl) (Hv' & Hn' & Hl'). split_and!; [congruence..|]. by etransitivity.
Qed.

Lemma calm_same s s' : de_servers s' = de_servers s -> de_nodes s' = de_nodes s -> shelf s' = shelf s -> calm s s'.
Proof. intros ? ? E. split_and!; [done..|]. rewrite E. reflexivity. Qed.

Lemma calm_control {B} (x : M (Control T Y X) B) : moves calm (on_control (V:=V) (A:=A) (R:=R) (G:=G) (Q:=Q) (P:=P) x).
Proof. intros s. unfold on_control, on_world, zoom. destruct (x _). by apply calm_same. Qed.
Lemma calm_sender {B} (x : M P B) : moves calm (on_sender (V:=V) (A:=A) (R:=R) (G:=G) (Q:=Q) (T:=T) (Y:=Y) (X:=X) x).
Proof. intros s. unfold on_sender, on_world, zoom. destruct (x _). by apply calm_same. Qed.
Lemma calm_access {B} (x : M A B) : moves calm (on_access (V:=V) (R:=R) (F:=F) x).
Proof. intros s. unfold on_access, zoom. destruct (x _). by apply calm_same. Qed.
Lemma calm_draw k : moves calm (draw (V:=V) (A:=A) (R:=R) k).
Proof. intros s. by apply calm_same. Qed.
Lemma calm_random {B} (x : M N B) : moves calm (at_random (V:=V) (A:=A) (R:=R) (G:=G) (Q:=Q) (T:=T) (Y:=Y) (X:=X) (P:=P) x).
Proof. intros s. unfold at_random, on_world, zoom. destruct (x _). by apply calm_same. Qed.
Lemma calm_run : moves calm (next_run (V:=V) (A:=A) (R:=R)).
Proof. intros s. by apply calm_same. Qed.
Lemma calm_library {B} (x : M (Library G Q) B) : moves shelf_kept x -> moves calm (on_library (V:=V) (A:=A) (R:=R) (T:=T) (Y:=Y) (X:=X) (P:=P) x).
Proof. intros Hx s. specialize (Hx (shelf s)). unfold on_library, on_world, zoom. unfold shelf in *. destruct (x _). by split_and!. Qed.

Lemma kept_games f ord p : moves shelf_kept (on_games (GR_Find f ord p)).
Proof.
  intros s [Hg Hm]. unfold on_games, zoom. destruct (GR_Find _ _ _ _) as [r g] eqn:E.
  destruct (gr_find_law _ _ _ _ _ _ Hg E) as (Hg' & Hrow & _). by split_and!.
Qed.
Lemma kept_all_games ord p : moves shelf_kept (on_games (GR_FindAll ord p)).
Proof.
  intros s [Hg Hm]. unfold on_games, zoom. destruct (GR_FindAll _ _ _) as [r g] eqn:E.
  destruct (gr_all_law _ _ _ _ _ Hg E) as (Hg' & Hrow & _). by split_and!.
Qed.
Lemma kept_mods f ord p : moves shelf_kept (on_mods (MR_Find f ord p)).
Proof.
  intros s [Hg Hm]. unfold on_mods, zoom. destruct (MR_Find _ _ _ _) as [r q] eqn:E.
  destruct (mr_find_law _ _ _ _ _ _ Hm E) as (Hm' & Hrow & Hrm & _). by split_and!.
Qed.
Lemma kept_all_mods ord p : moves shelf_kept (on_mods (MR_FindAll ord p)).
Proof.
  intros s [Hg Hm]. unfold on_mods, zoom. destruct (MR_FindAll _ _ _) as [r q] eqn:E.
  destruct (mr_all_law _ _ _ _ _ Hm E) as (Hm' & Hrow & Hrm & _). by split_and!.
Qed.
Lemma kept_export to_yaml at_ version code : moves shelf_kept (Export to_yaml at_ version code).
Proof.
  unfold Export, ExportToStruct. apply (moves_bind shelf_kept); [|intros e; apply (moves_wrap shelf_kept), (moves_lift shelf_kept)].
  destruct (String.eqb code ""); [apply (moves_lift shelf_kept (Err _))|]. apply (moves_bind shelf_kept); [apply (moves_wrap shelf_kept), kept_games|].
  intros [|g l]; [apply (moves_lift shelf_kept (Err _))|]. apply (moves_bind shelf_kept); [apply (moves_wrap shelf_kept), kept_mods|].
  intros l'. apply (moves_ret shelf_kept).
Qed.
#[local] Hint Resolve calm_control calm_sender calm_access calm_draw calm_random calm_run calm_library : park_moves.
#[local] Hint Resolve kept_games kept_all_games kept_mods kept_all_mods kept_export : park_moves.

Lemma calm_push i : moves calm (PushServerConfig json_vars i).
Proof. unfold PushServerConfig. moves. Qed.
#[local] Hint Resolve calm_push : park_moves.
Lemma calm_push_all f : moves calm (push_all json_vars pusher f).
Proof. unfold push_all. moves. Qed.
Lemma calm_push_one i : moves calm (push_one json_vars pusher i).
Proof. unfold push_one. moves. Qed.
#[local] Hint Resolve calm_push_all calm_push_one : park_moves.
Lemma calm_find_user_server u i : moves calm (FindUserServer u i).
Proof. unfold FindUserServer. moves. Qed.
Lemma calm_check u i l : moves calm (CheckOrError u i l).
Proof. unfold CheckOrError, CheckAbility. moves. Qed.
#[local] Hint Resolve calm_find_user_server calm_check : park_moves.
Lemma calm_with_server {B} var abilities (k : User -> Server -> Request -> M S (Response B)) ctx r :
  (forall u sv, moves calm (k u sv r)) -> moves calm (with_server var abilities k ctx r).
Proof. intros Hk. unfold with_server. moves. Qed.

(** Handlers that read, and those that only write tasks and settings. *)
Inductive calm_request : M S (Response ParkAnswer) -> Prop :=
| cr_game ctx r : calm_request (GetGame ctx r)
| cr_games ctx r : calm_request (GetGames ctx r)
| cr_mods_of_game var ctx r : calm_request (GetModsOfGame var ctx r)
| cr_mod ctx r : calm_request (GetGameMod ctx r)
| cr_mods ctx r : calm_request (GetGameMods ctx r)
| cr_export to_yaml at_ version ctx r : calm_request (ExportGame to_yaml at_ version ctx r)
| cr_command path ctx r : calm_request (PostCommand clock pluginDispatcher taskDispatcher control_tm path ctx r)
| cr_status ctx r : calm_request (GetStatus clock ctx r)
| cr_abilities l ctx r : calm_request (GetServerAbilities l ctx r)
| cr_settings ctx r : calm_request (GetServerSettings ctx r)
| cr_put_settings decode ctx r : calm_request (PutServerSettings json_vars pusher decode ctx r).

Lemma calm_ask u i adm l : forall m, moves calm (ask_abilities u i adm l m).
Proof. induction l as [|name l IH]; intros m; simpl; moves. Qed.
#[local] Hint Resolve calm_ask : park_moves.
Lemma calm_save_settings server m adm k : moves calm k -> moves calm (saveSettings server m adm k).
Proof. intros Hk. unfold saveSettings, save_setting, settings_of. moves. Qed.

Lemma calm_requests x : calm_request x -> moves calm x.
Proof.
  destruct 1; unfold GetGame, GetGames, GetModsOfGame, GetGameMod, GetGameMods, ExportGame, PostCommand, GetStatus, GetServerAbilities,
    GetServerSettings, PutServerSettings, need_code, mod_id; try (apply calm_with_server; intros ? ?).
  all: unfold buildServerAbilities, settings_of; moves. apply calm_save_settings. moves.
Qed.

(** ** Consistency *)

Definition refers s (server : Server) : Prop :=
  is_Some (lgames (shelf s) !! sv_GameID server) /\ is_Some (lmods (shelf s) !! sv_GameModID server) /\
  exists node, nr_rows (de_nodes s) !! sv_DSID server = Some node /\ nd_DeletedAt node = None.
Record consistent s : Prop := {
  co_servers : sf_inv (de_servers s);
  co_nodes : nr_inv (de_nodes s);
  co_shelf : linv (shelf s);
  co_rows : forall i server, sf_rows (de_servers s) !! i = Some server -> well_formed server /\ refers s server;
}.

Lemma grown_consistent k s s' : consistent s -> de_servers s' = de_servers s -> de_nodes s' = de_nodes s ->
  grown k (shelf s) (shelf s') -> consistent s'.
Proof.
  intros [Hv Hn Hl Hr] Ev En (Hl' & Hg & Hm & _). constructor; [by rewrite Ev|by rewrite En|done|].
  intros i server Hs. rewrite Ev in Hs. destruct (Hr i server Hs) as (Hw & Hgame & Hmod & Hnode). split; [done|]. unfold refers. rewrite En.
  split_and!; [apply elem_of_dom, Hg; by apply elem_of_dom|apply elem_of_dom, Hm; by apply elem_of_dom|done].
Qed.
Lemma calm_grown s s' : consistent s -> calm s s' -> grown 0 (shelf s) (shelf s').
Proof. intros Hc (_ & _ & Hl). apply same_shelf_grown, Hl, Hc. Qed.
Lemma calm_consistent s s' : calm s s' -> consistent s -> consistent s'.
Proof. intros Hs Hc. destruct (Hs) as (Hv & Hn & _). eapply grown_consistent; [exact Hc|done|done|]. by apply calm_grown. Qed.
Lemma calm_refers s s' server : calm s s' -> consistent s -> refers s server -> refers s' server.
Proof. intros (_ & Hn & Hl) Hc. destruct (Hl (co_shelf _ Hc)) as (_ & Hg & Hm & _). unfold refers. by rewrite Hn, Hg, Hm. Qed.

(** A computation started in [s] ends in a consistent park. *)
Definition keeps {B} (x : M S B) s : Prop := wp x (fun _ s' => consistent s') s.

Lemma keeps_calm {B} (x : M S B) s : moves calm x -> consistent s -> keeps x s.
Proof. intros Hx Hc. eapply calm_consistent; [apply Hx|done]. Qed.
Lemma keeps_bind {B C} (x : M S B) (k : B -> M S C) s :
  wp x (fun r s' => consistent s' /\ forall v, r = Ok v -> keeps (k v) s') s -> keeps (bind x k) s.
Proof. intros Hx. unfold keeps. wp_step. eapply wp_mono; [exact Hx|]. intros [v|e|w] s' [Hc Hk]; [by apply Hk|done..]. Qed.
Lemma keeps_calling {B} msg (x : M S B) (k : B -> work) s :
  wp x (fun r s' => consistent s' /\ forall v, r = Ok v -> keeps (k v) s') s -> keeps (call msg x k) s.
Proof.
  intros Hx. unfold call. apply keeps_bind. wp_step. eapply wp_mono; [exact Hx|].
  intros [v|e|w] s' [Hc Hk]; (split; [done|]); [intros ? [= <-]; by apply Hk|by intros ? [= <-]|done].
Qed.
(** After a calm step the rest runs in a state calmly reached. *)
Lemma after_calm {B} (x : M S B) (K : B -> S -> Prop) s : moves calm x -> consistent s ->
  (forall v s', x s = (Ok v, s') -> calm s s' -> consistent s' -> K v s') ->
  wp x (fun r s' => consistent s' /\ forall v, r = Ok v -> K v s') s.
Proof.
  intros Hx Hc Hk. apply wp_intro. intros r s' E. specialize (Hx s). rewrite E in Hx. pose proof (calm_consistent _ _ Hx Hc) as Hc'.
  split; [done|]. intros v ->. by apply Hk.
Qed.
Lemma keeps_respond status (x : work) s : keeps x s -> keeps (respond status x) s.
Proof. intros Hx. apply keeps_bind. eapply (wp_mono _ (fun _ => consistent)); [exact Hx|]. intros r s1 Hc. split; [done|]. by intros [a|e] _. Qed.
Lemma keeps_respond_empty (x : work) s : keeps x s -> keeps (respond_empty x) s.
Proof. intros Hx. apply keeps_bind. eapply (wp_mono _ (fun _ => consistent)); [exact Hx|]. intros r s1 Hc. split; [done|]. by intros [a|e] _. Qed.
Lemma keeps_decoding {B} f (r : result B) (k : B -> work) s : consistent s -> (forall v, r = Ok v -> keeps (k v) s) -> keeps (decoded f r k) s.
Proof. intros Hc Hk. destruct r; [by apply Hk|done..]. Qed.
Lemma keeps_valid msg e (k : work) s : consistent s -> (e = None -> keeps k s) -> keeps (valid msg e k) s.
Proof. intros Hc Hk. destruct e; [done|by apply Hk]. Qed.
Lemma keeps_decoded_valid {B} (decode : string -> result (option B)) check r (k : B -> work) s : consistent s ->
  (forall input, check input = None -> keeps (k input) s) -> keeps (decoded_valid decode check r k) s.
Proof. intros Hc Hk. apply keeps_decoding; [done|]. intros [input|] _; [|done]. apply keeps_valid; auto. Qed.

(** *** What searches find *)

Lemma find_server_by_id i p s l s' : consistent s -> p = None \/ p = only_first ->
  find_servers (FindServerByIDs [i]) p s = (Ok l, s') ->
  s' = s /\ forall server, server ∈ l -> sf_rows (de_servers s) !! i = Some server.
Proof.
  intros Hc Hp. unfold find_servers, bind, get, lift. intros [= E <-]. split; [done|].
  pose proof (vt_find_law (de_servers s) i p (co_servers _ Hc) Hp) as Hl. rewrite E in Hl. subst l. intros server Hs.
  destruct (sf_rows (de_servers s) !! i); [|by apply list.elem_of_nil in Hs]. apply list_elem_of_singleton in Hs. by subst.
Qed.
Lemma used_exists f Pu s b s' : consistent s -> used_by f Pu -> exist_servers f s = (Ok b, s') ->
  s' = s /\ (b = true <-> exists i server, sf_rows (de_servers s) !! i = Some server /\ Pu server).
Proof.
  intros Hc Hu. unfold exist_servers, bind, get, lift. intros [= E <-]. split; [done|].
  pose proof (vt_exists_law (de_servers s) f Pu (co_servers _ Hc) Hu) as Hl. by rewrite E in Hl.
Qed.
Lemma find_node_by_id i p s l s' : consistent s -> p = None \/ p = only_first -> find_nodes (FindNodeByIDs [i]) p s = (Ok l, s') ->
  s' = s /\ forall node, node ∈ l -> nr_rows (de_nodes s) !! i = Some node /\ nd_DeletedAt node = None.
Proof.
  intros Hc Hp. unfold find_nodes, bind, get, lift. intros [= E <-]. split; [done|].
  destruct (nr_find_law (de_nodes s) (FindNodeByIDs [i]) p (co_nodes _ Hc)) as (all & _ & Hel & Hres). rewrite E in Hres.
  intros node Hn. assert (Hin : node ∈ all).
  { destruct Hp as [->| ->]; [by injection Hres as <-|]. rewrite applyPagination_first in Hres. injection Hres as <-.
    destruct all as [|y all]; [by apply list.elem_of_nil in Hn|]. apply list_elem_of_singleton in Hn as ->. apply list_elem_of_here. }
  apply Hel in Hin as [Hrow Hm]. unfold node_matches in Hm. simpl in Hm. rewrite !andb_true_r, andb_true_iff, !bool_decide_eq_true in Hm.
  destruct Hm as [Hid Hdel]. apply list_elem_of_singleton in Hid. by rewrite <- Hid.
Qed.
Lemma find_game_by_code c p s l s' : consistent s -> p = None \/ p = only_first ->
  on_game_table (GR_Find (FindGameByCodes [c]) [] p) s = (Ok l, s') -> forall g, g ∈ l -> lgames (shelf s) !! c = Some g.
Proof.
  intros Hc Hp. unfold on_game_table, on_library, on_world, on_games, zoom. destruct (GR_Find _ _ _ _) as [r x] eqn:E. intros [= -> <-].
  apply game_by_code in E; [|apply Hc|exact Hp]. subst l. unfold lgames, shelf. destruct (_ !! c) as [g'|]; [|by intros g ?%list.elem_of_nil].
  by intros g ->%list_elem_of_singleton.
Qed.
Lemma find_mod_by_id i p s l s' : consistent s -> p = None \/ p = only_first ->
  on_mod_table (MR_Find (FindGameModByIDs [i]) [] p) s = (Ok l, s') ->
  forall m, m ∈ l -> lmods (shelf s) !! i = Some m /\ gmod_ID m = i.
Proof.
  intros Hc Hp. unfold on_mod_table, on_library, on_world, on_mods, zoom. destruct (MR_Find _ _ _ _) as [r x] eqn:E. intros [= -> <-].
  apply mod_by_id in E; [|apply Hc|exact Hp]. subst l. unfold lmods, shelf. destruct (_ !! i) as [m'|] eqn:Em; [|by intros m ?%list.elem_of_nil].
  intros m ->%list_elem_of_singleton. split; [done|]. by destruct (mr_rows_id _ _ _ (proj2 (co_shelf _ Hc)) Em).
Qed.

(** *** Changes of the shelf *)

Lemma after_grows {B} k (x : M (Library G Q) B) (K : B -> S -> Prop) s : consistent s ->
  wp x (fun r l => grown k (shelf s) l /\ forall w, r <> Panic w) (shelf s) ->
  (forall v s', consistent s' -> K v s') ->
  wp (on_library x) (fun r s' => consistent s' /\ forall v, r = Ok v -> K v s') s.
Proof.
  intros Hc Hx Hk. unfold on_library, on_world. do 2 wp_step. eapply wp_mono; [exact Hx|]. intros r l [Hg _].
  assert (Hc' : consistent (mkDesk (de_servers s) (de_access s) (de_nodes s) (mkPark l (pk_control (de_world s)) (pk_sender (de_world s)) (pk_draws (de_world s)) (pk_runs (de_world s)))))
    by (apply (grown_consistent k s); [exact Hc|done|done|exact Hg]).
  split; [exact Hc'|]. intros v _. by apply Hk.
Qed.
Lemma wp_delete_game c s : consistent s -> (forall i server, sf_rows (de_servers s) !! i = Some server -> sv_GameID server <> c) ->
  wp (on_game_table (GR_Delete c)) (fun _ s' => consistent s') s.
Proof.
  intros [Hv Hn [Hg Hm] Hr] Hno. unfold on_game_table, on_library, on_world, on_games. do 3 wp_step. apply wp_intro. intros r g E.
  destruct (gr_delete_law _ _ _ _ Hg E) as [Hg' Hres]. constructor; [done|done|by split|]. intros i server Hs.
  destruct (Hr i server Hs) as (Hw & Hgame & Hrest). split; [done|]. split; [|exact Hrest]. unfold lgames, shelf in *. simpl in *.
  destruct r; [|by rewrite Hres|done]. rewrite Hres, lookup_delete_ne; [done|]. intros ->. by apply (Hno i server).
Qed.
Lemma wp_delete_mod c s : consistent s -> (forall i server, sf_rows (de_servers s) !! i = Some server -> sv_GameModID server <> c) ->
  wp (on_mod_table (MR_Delete c)) (fun _ s' => consistent s') s.
Proof.
  intros [Hv Hn [Hg Hm] Hr] Hno. unfold on_mod_table, on_library, on_world, on_mods. do 3 wp_step. apply wp_intro. intros r g E.
  destruct (mr_delete_law _ _ _ _ Hm E) as (Hm' & _ & Hres). constructor; [done|done|by split|]. intros i server Hs.
  destruct (Hr i server Hs) as (Hw & Hgame & Hmod & Hnode). split; [done|]. split; [done|]. split; [|done]. unfold lmods, shelf in *. simpl in *.
  destruct r; [|by rewrite Hres|done]. rewrite Hres, lookup_delete_ne; [done|]. intros ->. by apply (Hno i server).
Qed.
Lemma wp_delete_node i t node s : consistent s -> nr_rows (de_nodes s) !! i = Some node ->
  (forall j server, sf_rows (de_servers s) !! j = Some server -> sv_DSID server <> i) ->
  wp (on_node_table (ND_Save (nd_set_deleted t node))) (fun _ s' => consistent s') s.
Proof.
  intros [Hv Hn Hl Hr] Hnode Hno. destruct (nr_rows_id _ _ _ Hn Hnode) as [Hid Hnz]. unfold on_node_table. wp_step. apply wp_intro. intros r n E.
  apply nr_save_law in E as (Hn' & _ & Hres); [|done|simpl; rewrite decide_False by (by rewrite Hid); by rewrite Hid, Hnode].
  constructor; [done|done|done|]. intros j server Hs. destruct (Hr j server Hs) as (Hw & Hgame & Hmod & m & Hm & Hdel). split; [done|].
  split; [done|]. split; [done|]. exists m. split; [|done]. simpl. destruct r as [n'|e|w]; [|by rewrite Hres|done].
  destruct Hres as (_ & -> & Hid'). simpl in Hid'. rewrite decide_False in Hid' by (by rewrite Hid). rewrite Hid', Hid.
  rewrite lookup_insert_ne; [done|]. intros Heq. by apply (Hno j server).
Qed.

(** Saving a node that is not deleted, new or over its own row. *)
Lemma wp_save_node node s : consistent s -> nd_DeletedAt node = None ->
  (if decide (nd_ID node = 0%N) then nr_room 1 (de_nodes s) else is_Some (nr_rows (de_nodes s) !! nd_ID node)) ->
  wp (on_node_table (ND_Save node)) (fun r s' => consistent s' /\
    de_servers s' = de_servers s /\ de_world s' = de_world s) s.
Proof.
  intros [Hv Hn Hl Hr] Hdel Hroom. unfold on_node_table. wp_step. apply wp_intro. intros r n E.
  apply nr_save_law in E as (Hn' & _ & Hres); [|done|done]. split; [|done].
  constructor; [done|done|done|]. intros j server Hs. destruct (Hr j server Hs) as (Hw & Hgame & Hmod & m & Hm & Hd). split; [done|].
  split; [done|]. split; [done|]. simpl. destruct r as [n'|e|w]; [|rewrite Hres; eauto|done].
  destruct Hres as ((created & updated & Hn1) & -> & _). rewrite lookup_insert.
  destruct (decide (nd_ID n' = sv_DSID server)); [|eauto].
  exists n'. split; [done|]. by rewrite Hn1.
Qed.
Lemma wp_token_node i h t s : consistent s -> wp (on_node_table (ND_UpdateGDaemonAPIToken i h t)) (fun _ s' => consistent s') s.
Proof.
  intros [Hv Hn Hl Hr]. unfold on_node_table. wp_step. apply wp_intro. intros r n E.
  apply nr_token_law in E as (Hn' & _ & Hres); [|done].
  constructor; [done|done|done|]. intros j server Hs. destruct (Hr j server Hs) as (Hw & Hgame & Hmod & m & Hm & Hd). split; [done|].
  split; [done|]. split; [done|]. simpl. destruct r as [u|e|w]; [|rewrite Hres; eauto|done].
  rewrite Hres, lookup_alter. destruct (decide (i = sv_DSID server)); subst; [|eauto]. rewrite Hm. simpl. eexists. by split.
Qed.

(** *** Changes of the servers *)

Lemma wp_save_server server s : consistent s -> sv_DeletedAt server = None ->
  (if decide (sv_ID server = 0%N) then vt_room 1 (de_servers s) else is_Some (sf_rows (de_servers s) !! sv_ID server)) ->
  well_formed server -> refers s server -> wp (on_servers (VT_Save server)) (fun _ s' => consistent s') s.
Proof.
  intros [Hv Hn Hl Hr] Hdel Hroom Hw Href. unfold on_servers. wp_step. apply wp_intro. intros r v E.
  apply vt_save_law in E as (Hv' & _ & _ & Hres); [|done..]. constructor; [done|done|done|]. intros i server' Hs. simpl in Hs.
  destruct r as [sv|e|w]; [|apply (Hr i); by rewrite <- Hres|done]. destruct Hres as ((created & updated & Esv) & Hrows & _).
  rewrite Hrows, lookup_insert in Hs. case_decide; [|by apply (Hr i)]. injection Hs as <-. rewrite Esv. split; [by apply well_formed_saved|exact Href].
Qed.
Lemma wp_drop_server (soft : bool) i s : consistent s ->
  wp (on_servers (if soft then VT_SoftDelete i else VT_Delete i)) (fun _ s' => consistent s') s.
Proof.
  intros [Hv Hn Hl Hr]. unfold on_servers. wp_step. apply wp_intro. intros r v E.
  destruct (vt_delete_law soft i (de_servers s) r v Hv) as (Hv' & _ & Hres); [by destruct soft|]. constructor; [done|done|done|]. intros j server Hs. simpl in Hs.
  apply (Hr j). destruct r as [u|e|w]; [|by rewrite <- Hres|done]. rewrite Hres in Hs. by apply lookup_delete_Some in Hs as [_ Hs].
Qed.

(** *** Games and mods *)

(** A last change, of which only success or failure is left to tell. *)
Lemma keeps_call_last {B} msg (x : M S B) (k : B -> work) s : wp x (fun _ s' => consistent s') s ->
  (forall v, moves calm (k v)) -> keeps (call msg x k) s.
Proof.
  intros Hx Hk. apply keeps_calling. eapply wp_mono; [exact Hx|]. intros r s' Hc. split; [done|]. intros v _. by apply keeps_calm.
Qed.
Lemma keeps_call_grows {B} k msg (x : M (Library G Q) B) (f : B -> work) s : consistent s ->
  wp x (fun r l => grown k (shelf s) l /\ forall w, r <> Panic w) (shelf s) -> (forall v, moves calm (f v)) ->
  keeps (call msg (on_library x) f) s.
Proof. intros Hc Hx Hf. apply keeps_calling. eapply after_grows; [done|exact Hx|]. intros v s' Hc'. by apply keeps_calm. Qed.

Lemma calm_room k s s' : calm s s' -> consistent s -> lroom k (shelf s) -> lroom k (shelf s').
Proof. intros (_ & _ & Hl) Hc. by apply Hl, Hc. Qed.

Lemma PostGame_keeps decode ctx r s : consistent s -> lroom 0 (shelf s) -> keeps (PostGame decode ctx r) s.
Proof.
  intros Hc Hr. apply keeps_respond, keeps_decoded_valid; [done|]. intros input _. apply keeps_calling, after_calm; [moves|done|].
  intros [|g l] s' _ Hs Hc'; [|done]. eapply keeps_call_grows; [done|apply grows_save_game; [apply Hc'|by eapply calm_room]|intros; moves].
Qed.
Lemma PutGame_keeps decode ctx r s : consistent s -> lroom 0 (shelf s) -> keeps (PutGame json_vars pusher decode ctx r) s.
Proof.
  intros Hc Hr. apply keeps_respond. unfold need_code. cbv zeta. case_match; [done|]. apply keeps_decoded_valid; [done|]. intros input _.
  apply keeps_calling, after_calm; [moves|done|]. intros [|g l] s' _ Hs Hc'; [done|].
  eapply keeps_call_grows; [done|apply grows_save_game; [apply Hc'|by eapply calm_room]|intros; moves].
Qed.
Lemma DeleteGame_keeps ctx r s : consistent s -> keeps (DeleteGame ctx r) s.
Proof.
  intros Hc. apply keeps_respond. unfold need_code. cbv zeta. case_match; [done|]. apply keeps_calling, after_calm; [moves|done|].
  intros b s' E _ Hc'. destruct (used_exists _ _ _ _ _ Hc (used_game _) E) as [-> Hb]. destruct b; [done|].
  apply keeps_call_last; [|intros; moves]. apply wp_delete_game; [done|]. intros i server Hs Hg. enough (false = true) by done. apply Hb. eauto.
Qed.
Lemma PostGameMod_keeps decode ctx r s : consistent s -> lroom 1 (shelf s) -> keeps (PostGameMod decode ctx r) s.
Proof.
  intros Hc Hr. apply keeps_respond, keeps_decoded_valid; [done|]. intros input _.
  eapply keeps_call_grows; [done|apply grows_save_mod; [apply Hc|done|by left]|intros; moves].
Qed.
Lemma PutGameMod_keeps decode ctx r s : consistent s -> lroom 1 (shelf s) -> keeps (PutGameMod json_vars pusher decode ctx r) s.
Proof.
  intros Hc Hr. apply keeps_respond, keeps_decoding; [done|]. intros id _. apply keeps_decoded_valid; [done|]. intros input _.
  apply keeps_calling, after_calm; [moves|done|]. intros [|m l] s' E Hs Hc'; [done|].
  destruct (find_mod_by_id id only_first s _ _ Hc (or_intror eq_refl) E m (list_elem_of_here _ _)) as [Hm Hid].
  eapply keeps_call_grows; [done|apply grows_save_mod; [apply Hc'|by eapply calm_room|right]|intros; moves].
  simpl. destruct Hs as (_ & _ & Hl). destruct (Hl (co_shelf _ Hc)) as (_ & _ & -> & _). by rewrite Hid, Hm.
Qed.
Lemma DeleteGameMod_keeps ctx r s : consistent s -> keeps (DeleteGameMod ctx r) s.
Proof.
  intros Hc. apply keeps_respond. unfold mod_id. cbv zeta. case_match; [done|]. apply keeps_decoding; [done|]. intros id _. case_match; [done|].
  apply keeps_calling, after_calm; [moves|done|].
  intros b s' E _ Hc'. destruct (used_exists _ _ _ _ _ Hc (used_mod _) E) as [-> Hb]. destruct b; [done|].
  apply keeps_call_last; [|intros; moves]. apply wp_delete_mod; [done|]. intros i server Hs Hg. enough (false = true) by done. apply Hb. eauto.
Qed.

(** The mods an upgrade or an import may add. *)
Definition upgraded_mods (api : result (list GlobalAPIGame)) : nat :=
  match api with Ok l => sum_list_with (fun g => sum_list_with (fun _ => 1) (gag_Mods g)) l | _ => 0 end.
Definition imported_mods (e : result GameExport) : nat := match e with Ok e => length (ex_Mods e) | _ => 0 end.

Lemma PostUpgrade_keeps api ctx r s : consistent s -> lroom (upgraded_mods api) (shelf s) -> keeps (PostUpgrade tm_Do api ctx r) s.
Proof.
  intros Hc Hr. apply keeps_respond, keeps_bind. wp_step. destruct api as [l|e|w].
  - eapply wp_mono; [eapply (after_grows _ _ (fun _ s' => consistent s')); [done|apply (UpgradeGames_grows tm_Do Htm l); [apply Hc|exact Hr]|done]|].
    intros [v|e|w] s' [Hc' _]; (split; [done|]); intros v' [=]; subst; done.
  - apply wp_intro. intros rr s' E. injection E as <- <-. match goal with |- consistent ?s' /\ _ => assert (Hc' : consistent s') by (by apply (calm_consistent s); [apply calm_same|]) end.
    split; [exact Hc'|]. intros v [= <-]. exact Hc'.
  - apply wp_intro. intros rr s' E. injection E as <- <-. split; [by apply (calm_consistent s); [apply calm_same|]|done].
Qed.
Lemma ImportGameAP_keeps query from_yaml ctx r s : consistent s -> lroom (imported_mods (from_yaml (rq_Body r))) (shelf s) ->
  keeps (ImportGameAP tm_Do query from_yaml ctx r) s.
Proof.
  intros Hc Hr. apply keeps_respond. cbv zeta. repeat (case_match; [done|]). apply keeps_decoding; [done|]. intros e E. rewrite E in Hr.
  eapply keeps_call_grows; [done|apply (Import_grows tm_Do Htm e); [apply Hc|exact Hr]|intros; moves].
Qed.
Lemma ImportPelicanEgg_keeps `{Unicode} normalize query parse ctx r s : consistent s -> lroom 1 (shelf s) ->
  keeps (ImportPelicanEgg tm_Do normalize query parse ctx r) s.
Proof.
  intros Hc Hr. apply keeps_respond. cbv zeta. repeat (case_match; [done|]). apply keeps_decoding; [done|]. intros e E.
  eapply keeps_call_grows; [done|apply (ImportEgg_grows tm_Do Htm); [apply Hc|exact Hr]|intros; moves].
Qed.

(** *** Creating and changing servers *)

Lemma calm_shelf s s' : calm s s' -> consistent s -> lgames (shelf s') = lgames (shelf s) /\ lmods (shelf s') = lmods (shelf s).
Proof. intros (_ & _ & Hl) Hc. by destruct (Hl (co_shelf _ Hc)) as (_ & -> & -> & _). Qed.

Lemma keeps_need_one {B} what (x : M S (list B)) (k : B -> work) s : moves calm x -> consistent s ->
  (forall v l s', x s = (Ok (v :: l), s') -> calm s s' -> consistent s' -> keeps (k v) s') -> keeps (need_one what x k) s.
Proof.
  intros Hx Hc Hk. apply keeps_calling, after_calm; [done..|]. intros [|v l] s' E Hs Hc'; [done|]. by eapply Hk.
Qed.
Lemma keeps_ensure_rcon server (k : Server -> work) s : consistent s ->
  (forall rcon s', calm s s' -> consistent s' -> keeps (k (sv_set_rcon rcon server)) s') -> keeps (ensure_rcon server k) s.
Proof.
  intros Hc Hk. unfold ensure_rcon. destruct (empty_opt _).
  - apply keeps_calling, after_calm; [moves|done|]. intros p s1 _ Hs1 Hc1. by apply Hk.
  - specialize (Hk (sv_Rcon server) s (reflexivity s) Hc). by destruct server.
Qed.

Lemma prepareServer_keeps input n k s : consistent s -> serverInput_Validate input = None ->
  (forall server gameMod s', calm s s' -> consistent s' -> well_formed server -> refers s' server ->
     sv_ID server = 0%N -> sv_DeletedAt server = None -> keeps (k server gameMod) s') ->
  keeps (prepareServer input (serverInput_ToDomain (xid_New n) input) k) s.
Proof.
  intros Hc Hvalid Hk. unfold prepareServer. apply keeps_ensure_rcon; [done|]. intros rcon s1 Hs1 Hc1.
  apply keeps_need_one; [moves|done|]. intros node ns s2 En Hs2 Hc2.
  destruct (find_node_by_id _ None _ _ _ Hc1 (or_introl eq_refl) En) as [-> Hnode]. specialize (Hnode node (list_elem_of_here _ _)).
  apply keeps_need_one; [moves|done|]. intros game gs s3 Eg Hs3 Hc3.
  pose proof (find_game_by_code _ None _ _ _ Hc1 (or_introl eq_refl) Eg game (list_elem_of_here _ _)) as Hgame.
  apply keeps_need_one; [moves|done|]. intros gameMod ms s4 Em Hs4 Hc4.
  destruct (find_mod_by_id _ None _ _ _ Hc3 (or_introl eq_refl) Em gameMod (list_elem_of_here _ _)) as [Hmod _].
  case_match; [done|]. cbv zeta.
  destruct (calm_shelf _ _ Hs3 Hc1) as [Hg3 _], (calm_shelf _ _ Hs4 Hc3) as [Hg4 Hm4]. destruct Hs3 as (Hv3 & Hn3 & Hl3), Hs4 as (Hv4 & Hn4 & Hl4).
  pose proof (new_server_formed input n rcon
    (default_start node gameMod (sv_StartCommand (sv_set_rcon rcon (serverInput_ToDomain (xid_New n) input)))) Hvalid) as Hw.
  cbv zeta in Hw. match type of Hw with well_formed ?x => set (server := x) in * end.
  assert (Href : refers s4 server).
  { unfold refers. rewrite Hg4, Hm4, Hg3, Hn4, Hn3. split; [by exists game|]. split; [by exists gameMod|]. exists node. exact Hnode. }
  assert (Hs4 : calm s s4) by (etransitivity; [exact Hs1|]; etransitivity; split_and!; [exact Hv3|exact Hn3|exact Hl3|exact Hv4|exact Hn4|exact Hl4]).
  destruct (default false (nsi_Install input)); apply Hk; try done.
Qed.

Lemma PostServer_keeps decode ctx r s : consistent s -> vt_room 1 (de_servers s) ->
  keeps (PostServer clock taskDispatcher decode ctx r) s.
Proof.
  intros Hc Hroom. apply keeps_respond, keeps_decoded_valid; [done|]. intros input Hvalid.
  apply keeps_bind, after_calm; [moves|done|]. intros n s1 _ Hs1 Hc1. apply prepareServer_keeps; [done|done|].
  intros server gameMod s2 Hs2 Hc2 Hw Href Hid Hdel. apply keeps_call_last.
  - apply wp_save_server; [done|done| |done|done]. rewrite decide_True by done. destruct Hs1 as (Ev1 & _), Hs2 as (Ev2 & _). by rewrite Ev2, Ev1.
  - intros sv. unfold save_new_settings, handler_task. moves.
Qed.

(** Changing a server: the references that stay are known to hold, the others
    are looked up. *)
Section changing.
Context (server : Server) (input : updateServerInput) (k : work) (s : S).
Hypothesis Hc : consistent s.
Hypothesis Hrefers : refers s server.
Hypothesis Hk : forall s', calm s s' -> consistent s' -> refers s' (updateServer_Apply input server) -> keeps k s'.
Definition new_node_live s : Prop := exists node, nr_rows (de_nodes s) !! to_uint (usi_DSID input) = Some node /\ nd_DeletedAt node = None.

Lemma check_mod_keeps s' : calm s s' -> consistent s' -> is_Some (lgames (shelf s') !! usi_GameID input) -> new_node_live s' ->
  keeps (check_mod server input k) s'.
Proof.
  intros Hs Hc' Hg Hn. unfold check_mod. destruct (_ || _) eqn:Ech.
  - apply keeps_need_one; [moves|done|]. intros m ms s2 Em Hs2 Hc2. case_match; [done|].
    destruct (find_mod_by_id _ None _ _ _ Hc' (or_introl eq_refl) Em m (list_elem_of_here _ _)) as [Hm _].
    destruct (calm_shelf _ _ Hs2 Hc') as [Eg2 Em2]. pose proof Hs2 as (_ & En2 & _). apply Hk; [by etransitivity|done|].
    unfold refers. rewrite Eg2, Em2, En2. split; [exact Hg|]. split; [by exists m|exact Hn].
  - apply orb_false_iff in Ech as [_ Em%negb_false_iff%N.eqb_eq]. apply Hk; [done|done|]. split; [exact Hg|]. split; [|exact Hn].
    simpl. rewrite Em, (proj2 (calm_shelf _ _ Hs Hc)). apply Hrefers.
Qed.
Lemma check_game_keeps s' : calm s s' -> consistent s' -> new_node_live s' -> keeps (check_game server input k) s'.
Proof.
  intros Hs Hc' Hn. unfold check_game. destruct (gameChanged server input) eqn:Ech.
  - apply keeps_need_one; [moves|done|]. intros g gs s2 Eg Hs2 Hc2.
    pose proof (find_game_by_code _ None _ _ _ Hc' (or_introl eq_refl) Eg g (list_elem_of_here _ _)) as Hg.
    apply check_mod_keeps; [by etransitivity|done| |].
    + rewrite (proj1 (calm_shelf _ _ Hs2 Hc')). by exists g.
    + destruct Hs2 as (_ & En & _). unfold new_node_live. by rewrite En.
  - apply negb_false_iff, String.eqb_eq in Ech. apply check_mod_keeps; [done|done| |done].
    rewrite Ech, (proj1 (calm_shelf _ _ Hs Hc)). apply Hrefers.
Qed.
Lemma prepareUpdate_keeps : keeps (prepareUpdate server input k) s.
Proof.
  unfold prepareUpdate. cbv zeta. destruct (negb _) eqn:Ech.
  - apply keeps_need_one; [moves|done|]. intros node ns s1 En Hs1 Hc1. apply check_game_keeps; [done|done|].
    destruct (find_node_by_id _ None _ _ _ Hc (or_introl eq_refl) En) as [-> Hn]. exists node. apply Hn, list_elem_of_here.
  - apply negb_false_iff, N.eqb_eq in Ech. apply check_game_keeps; [done|done|]. unfold new_node_live. rewrite Ech. apply Hrefers.
Qed.
End changing.

Lemma keeps_at_server page (k : Server -> work) r s : consistent s -> page = None \/ page = only_first ->
  (forall i server, sf_rows (de_servers s) !! i = Some server -> keeps (k server) s) -> keeps (at_server page r k) s.
Proof.
  intros Hc Hp Hk. apply keeps_decoding; [done|]. intros i _. apply keeps_calling, after_calm; [moves|done|]. intros [|server l] s' E _ Hc'; [done|].
  destruct (find_server_by_id _ _ _ _ _ Hc Hp E) as [-> Hl]. apply (Hk i), Hl, list_elem_of_here.
Qed.
Lemma PutServer_keeps decode ctx r s : consistent s -> keeps (PutServer json_vars pusher decode ctx r) s.
Proof.
  intros Hc. apply keeps_respond, keeps_at_server; [done|by left|]. intros i server Hs.
  apply keeps_decoding; [done|]. intros [input|] _; [|done]. apply keeps_valid; [done|]. intros Hvalid.
  destruct (co_rows _ Hc i server Hs) as [Hw Href]. destruct (vt_rows_id _ _ _ (co_servers _ Hc) Hs) as (Hid & Hnz & Hdel).
  apply prepareUpdate_keeps; [done|done|]. intros s1 (Ev & _) Hc1 Href1. apply keeps_call_last; [|intros; moves].
  apply wp_save_server; [done|exact Hdel| |by apply updated_server_formed|exact Href1].
  simpl. rewrite decide_False by (by rewrite Hid). rewrite Ev, Hid, Hs. by eexists.
Qed.

(** *** Deleting servers and nodes *)

Lemma DeleteServer_keeps decode ctx r s : consistent s -> keeps (DeleteServer clock taskDispatcher decode ctx r) s.
Proof.
  intros Hc. apply keeps_respond_empty, keeps_decoding; [done|]. intros i _. apply keeps_decoding; [done|]. intros files _.
  apply keeps_calling, after_calm; [moves|done|]. intros [|server l] s1 _ Hs1 Hc1; [done|]. destruct files.
  - apply keeps_call_last; [|intros; moves]. unfold deleteWithFiles. apply keeps_bind, after_calm; [|done|].
    + unfold createDeleteFileTasks, handler_task. moves.
    + intros _ s2 _ _ Hc2. unfold keeps. wp_step. eapply wp_mono; [by apply (wp_drop_server true)|done].
  - unfold deleteWithoutFiles. apply keeps_bind, after_calm; [moves|done|]. intros t s2 _ Hs2 Hc2. case_match; [done|].
    apply keeps_calling, after_calm; [moves|done|]. intros b s3 _ Hs3 Hc3. destruct b; [done|].
    apply keeps_call_last; [by apply (wp_drop_server false)|intros; moves].
Qed.
Lemma DeleteNode_keeps ctx r s : consistent s -> keeps (DeleteNode clock ctx r) s.
Proof.
  intros Hc. unfold DeleteNode. case_match; [done|]. apply keeps_respond_empty, keeps_decoding; [done|]. intros i _.
  apply keeps_calling, after_calm; [moves|done|]. intros [|node l] s1 En _ Hc1; [done|].
  destruct (find_node_by_id _ only_first _ _ _ Hc (or_intror eq_refl) En) as [-> Hn]. destruct (Hn node (list_elem_of_here _ _)) as [Hrow _].
  apply keeps_calling, after_calm; [moves|done|]. intros b s2 Eb _ Hc2.
  destruct (used_exists _ _ _ _ _ Hc (used_node _) Eb) as [-> Hb]. destruct b; [done|].
  apply keeps_bind, after_calm; [moves|done|]. intros t s3 _ (Ev & Enodes & _) Hc3. apply keeps_call_last; [|intros; moves].
  apply (wp_delete_node i); [done|by rewrite Enodes|]. rewrite Ev. intros j server Hs Hd. enough (false = true) by done. apply Hb. eauto.
Qed.

(** *** Changing nodes *)

Section nodes.
Context `{Unicode} (SHA256 : string -> string).
Context (write_file : string -> string -> M S unit) (delete_file : string -> M S unit) (Encrypt : string -> M S string).
(** The file manager and the cipher do not touch the tables. *)
Context (Hwrite : forall p d, moves calm (write_file p d)) (Hremove : forall p, moves calm (delete_file p)).
Context (Hcipher : forall t, moves calm (Encrypt t)).

Lemma calm_ignoring (x : M S unit) : moves calm x -> moves calm (ignoring x).
Proof. intros Hx. unfold ignoring. apply (moves_bind calm); [by apply (moves_attempt calm)|]. intros []; moves. Qed.

(** What the steps before the save do to the node: not to its id, nor to
    whether it is deleted. *)
Definition same_node (n n' : Node) : Prop := nd_ID n' = nd_ID n /\ nd_DeletedAt n' = nd_DeletedAt n.

Lemma wp_store_cert input node s : consistent s ->
  wp (store_cert write_file input node) (fun r s' => calm s s' /\ consistent s' /\ forall n', r = Ok n' -> same_node node n') s.
Proof.
  intros Hc. unfold store_cert, failing_as. destruct (new_cert input) as [cert|]; [|wp_step; split_and!; [reflexivity|done|by intros n' [= <-]]].
  wp_step. apply wp_intro. intros r1 s1 E1. pose proof (calm_draw 1 s) as Hs1. rewrite E1 in Hs1. cbn [snd] in Hs1.
  destruct r1 as [k|e|w]; [|by split_and!; [|eapply calm_consistent|]..].
  do 3 wp_step. apply wp_intro. intros r2 s2 E2.
  assert (Hs2 : calm s s2) by (etransitivity; [exact Hs1|]; pose proof (Hwrite (FilePath.Join [certificatesPath; xid_String (xid_New k) +:+ ".crt"]) cert s1) as Hm; by rewrite E2 in Hm).
  destruct r2 as [[]|e|w]; repeat wp_step; (split; [done|]; split; [by eapply calm_consistent|]); [by intros n' [= <-]|done|done].
Qed.

Lemma updateNode_keeps node input s : consistent s -> nr_rows (de_nodes s) !! nd_ID node = Some node -> nd_DeletedAt node = None ->
  keeps (updateNode clock SHA256 write_file delete_file Encrypt node input) s.
Proof.
  intros Hc Hrow Hdel. destruct (nr_rows_id _ _ _ (co_nodes _ Hc) Hrow) as [_ Hnz].
  unfold updateNode. apply keeps_bind. eapply wp_mono; [by apply wp_store_cert|]. intros r s1 (Hs1 & Hc1 & Hsame). split; [done|].
  intros n1 Hr. destruct (Hsame n1 Hr) as [Hid1 Hdel1].
  apply keeps_bind. eapply (wp_mono _ (fun r s2 => calm s1 s2 /\ consistent s2 /\ forall n', r = Ok n' -> same_node node n')).
  { destruct (uni_GdaemonPassword input), (nd_GdaemonPassword (ApplyToNode SHA256 input n1)) as [pw|];
      try (wp_step; split; [reflexivity|]; split; [done|]; by intros n' [= <-]).
    apply wp_intro. unfold bind, wrap, ret. destruct (Encrypt pw s1) as [[enc|e|w] s2] eqn:E; intros r2 s3 [= <- <-];
      pose proof (Hcipher pw s1) as Hm; rewrite E in Hm; (split; [done|]; split; [by eapply calm_consistent|]); [|done|done].
    by intros n' [= <-]. }
  intros r2 s2 (Hs2 & Hc2 & Hsame2). split; [done|]. intros n2 Hr2. destruct (Hsame2 n2 Hr2) as [Hid2 Hdel2].
  apply keeps_bind, after_calm; [moves|done|]. intros t s3 _ Hs3 Hc3.
  set (n3 := nd_set_times (nd_CreatedAt n2) (Some t) n2).
  assert (Hnodes : de_nodes s3 = de_nodes s) by (destruct Hs1 as (_ & ? & _), Hs2 as (_ & ? & _), Hs3 as (_ & ? & _); congruence).
  apply keeps_bind. wp_step. eapply wp_mono; [apply (wp_save_node n3)|].
  { done. } { simpl. congruence. } { change (nd_ID n3) with (nd_ID n2). rewrite Hid2, decide_False, Hnodes, Hrow by done. by eexists. }
  intros saved s4 (Hc4 & _). destruct saved as [n'|e|w]; (split; [done|]); [intros ? [= <-]..|done].
  - apply keeps_calm; [|done]. destruct (new_cert input); [|moves]. destruct (is_empty _); [moves|].
    moves_step; [by apply calm_ignoring|moves].
  - apply keeps_calm; [|done]. destruct (new_cert input); [|moves]. moves_step; [by apply calm_ignoring|moves].
Qed.

Lemma PutNode_keeps decode ctx r s : consistent s ->
  keeps (PutNode clock SHA256 write_file delete_file Encrypt decode ctx r) s.
Proof.
  intros Hc. apply keeps_respond, keeps_decoding; [done|]. intros i _.
  apply keeps_calling, after_calm; [moves|done|]. intros [|node l] s1 En _ Hc1; [done|].
  destruct (find_node_by_id _ only_first _ _ _ Hc (or_intror eq_refl) En) as [-> Hn].
  destruct (Hn node (list_elem_of_here _ _)) as [Hrow Hdel]. destruct (nr_rows_id _ _ _ (co_nodes _ Hc) Hrow) as [Hid _].
  apply keeps_decoding; [done|]. intros input _. unfold checked. case_match; [by case_match|].
  apply keeps_call_last; [|intros; moves]. apply updateNode_keeps; [done|by rewrite Hid|done].
Qed.
End nodes.

(** *** What daemons report *)

Lemma reports_consistent s s' : consistent s -> sf_inv (de_servers s') -> de_nodes s' = de_nodes s -> shelf s' = shelf s ->
  (forall i row', sf_rows (de_servers s') !! i = Some row' -> exists row, sf_rows (de_servers s) !! i = Some row /\ reported row row') ->
  consistent s'.
Proof.
  intros [Hv Hn Hl Hr] Hv' En El Hrows. constructor; [done|by rewrite En|by rewrite El|]. intros i row' Hs.
  destruct (Hrows i row' Hs) as (row & Hrow & Hrep). destruct (Hr i row Hrow) as [Hw Href]. split; [by eapply reported_formed|].
  unfold refers in *. rewrite En, El. by destruct Hrep as (? & ? & ? & ? & ? & _ & [->| ->]).
Qed.

(** So is the installed state that ends a task: the row is saved with it. *)
Lemma installed_reported i installed row s : consistent s -> sf_rows (de_servers s) !! i = Some row ->
  ServerInstalledStatus_Valid installed = true ->
  let s' := snd (on_servers (VT_Save (sv_set_installed installed row)) s) in
  sf_inv (de_servers s') /\ de_nodes s' = de_nodes s /\ shelf s' = shelf s /\
  forall j row', sf_rows (de_servers s') !! j = Some row' -> exists row, sf_rows (de_servers s) !! j = Some row /\ reported row row'.
Proof.
  intros Hc Hrow Hi. destruct (vt_rows_id _ _ _ (co_servers _ Hc) Hrow) as (Hid & Hnz & Hdel).
  assert (Hself : forall j x, sf_rows (de_servers s) !! j = Some x -> reported x x)
    by (intros j x Hx; apply reported_same, (co_rows _ Hc j x Hx)).
  unfold on_servers, zoom. destruct (VT_Save (sv_set_installed installed row) (de_servers s)) as [r v] eqn:E. cbn [snd de_servers de_nodes].
  apply vt_save_law in E as (Hv' & _ & _ & Hres); [|apply Hc|exact Hdel|].
  2: { cbn [sv_ID sv_set_installed]. rewrite decide_False by (by rewrite Hid). rewrite Hid, Hrow. by eexists. }
  split_and!; [done..|]. intros j row' Hj. destruct r as [sv|e|w]; [|rewrite Hres in Hj; exists row'; split; [done|by eapply Hself]|done].
  destruct Hres as ((created & updated & Esv) & Hrows & Hid'). cbn [sv_ID sv_set_installed] in Hid'.
  rewrite decide_False in Hid' by (by rewrite Hid). rewrite Hrows, lookup_insert in Hj.
  destruct (decide (sv_ID sv = j)) as [Hd|]; [|exists row'; split; [done|by eapply Hself]].
  injection Hj as <-. exists row. subst j. split; [by rewrite Hid', Hid|].
  exists installed, (sv_ProcessActive row), (sv_LastProcessCheck row), created, updated. split; [done|]. right.
  rewrite Esv, Hid'. rewrite Hdel. by destruct row.
Qed.

(** ** Any series of requests *)

(** A request of the HTTP API, with the number of mods it may add. *)
Inductive park_request : nat -> Request -> M S (Response ParkAnswer) -> Prop :=
| rq_calm r x : calm_request x -> park_request 0 r x
| rq_post_game decode ctx r : park_request 0 r (PostGame decode ctx r)
| rq_put_game decode ctx r : park_request 0 r (PutGame json_vars pusher decode ctx r)
| rq_delete_game ctx r : park_request 0 r (DeleteGame ctx r)
| rq_post_mod decode ctx r : park_request 1 r (PostGameMod decode ctx r)
| rq_put_mod decode ctx r : park_request 1 r (PutGameMod json_vars pusher decode ctx r)
| rq_delete_mod ctx r : park_request 0 r (DeleteGameMod ctx r)
| rq_upgrade api ctx r : park_request (upgraded_mods api) r (PostUpgrade tm_Do api ctx r)
| rq_import query from_yaml ctx r : park_request (imported_mods (from_yaml (rq_Body r))) r (ImportGameAP tm_Do query from_yaml ctx r)
| rq_egg (U : Unicode) normalize query parse ctx r : park_request 1 r (ImportPelicanEgg tm_Do normalize query parse ctx r)
| rq_post_server decode ctx r : park_request 0 r (PostServer clock taskDispatcher decode ctx r)
| rq_put_server decode ctx r : park_request 0 r (PutServer json_vars pusher decode ctx r)
| rq_delete_server decode ctx r : park_request 0 r (DeleteServer clock taskDispatcher decode ctx r)
| rq_put_node (U : Unicode) SHA256 write_file delete_file Encrypt decode ctx r :
    (forall p d, moves calm (write_file p d)) -> (forall p, moves calm (delete_file p)) -> (forall t, moves calm (Encrypt t)) ->
    park_request 0 r (PutNode clock SHA256 write_file delete_file Encrypt decode ctx r)
| rq_delete_node ctx r : park_request 0 r (DeleteNode clock ctx r).

(** A request is handled; a daemon enrolls as a new node, is given a token, or
    reports on servers; or something else happens that leaves servers, nodes
    and the shelf alone: tasks are worked off, roles given, streams opened. *)
Inductive park_step : S -> S -> Prop :=
| step_request n r x s : park_request n r x -> lroom n (shelf s) -> vt_room 1 (de_servers s) -> park_step s (snd (x s))
| step_enroll node s : nd_ID node = 0%N -> nd_DeletedAt node = None -> nr_room 1 (de_nodes s) ->
    park_step s (snd (on_node_table (ND_Save node) s))
| step_token i h t s : park_step s (snd (on_node_table (ND_UpdateGDaemonAPIToken i h t) s))
| step_report s s' : sf_inv (de_servers s') -> de_nodes s' = de_nodes s -> shelf s' = shelf s ->
    (forall i row', sf_rows (de_servers s') !! i = Some row' ->
       exists row, sf_rows (de_servers s) !! i = Some row /\ reported row row') -> park_step s s'
| step_elsewhere s s' : calm s s' -> park_step s s'.

Lemma park_step_consistent s s' : park_step s s' -> consistent s -> consistent s'.
Proof.
  intros [n r x s0 Hx Hr Hv|node s0 Hid Hdel Hroom|i h t s0|s0 s1 Hv En El Hrows|s0 s1 Hs] Hc.
  2: { refine (wp_mono _ _ (fun _ s' => consistent s') s0 (wp_save_node node s0 Hc Hdel _) _); [by rewrite decide_True|by intros ? ? [? _]]. }
  2: exact (wp_token_node i h t s0 Hc).
  2: by eapply reports_consistent.
  2: by eapply calm_consistent.
  change (keeps x s0). destruct Hx.
  - apply keeps_calm; [by apply calm_requests|done].
  - by apply PostGame_keeps.
  - by apply PutGame_keeps.
  - by apply DeleteGame_keeps.
  - by apply PostGameMod_keeps.
  - by apply PutGameMod_keeps.
  - by apply DeleteGameMod_keeps.
  - by apply PostUpgrade_keeps.
  - by apply ImportGameAP_keeps.
  - by apply ImportPelicanEgg_keeps.
  - by apply PostServer_keeps.
  - by apply PutServer_keeps.
  - by apply DeleteServer_keeps.
  - by apply PutNode_keeps.
  - by apply DeleteNode_keeps.
Qed.

(** C10: whatever series of requests, handled one after another, creates,
    changes, upgrades, imports and deletes servers, games and mods and changes
    and deletes nodes, while daemons enroll as new nodes, are given tokens and
    report what is installed and running, every server that is not deleted
    stays well formed (a name, an address that is one, ports in range, limits
    that are not negative, a directory that is relative and does not lead up)
    and refers to a game and a mod that exist and to a node that is not
    deleted; this holds with any tables that keep their promises, whatever
    access control, task dispatcher, file manager and streams answer, and with
    transactions that fail.  The checks of a handler and its write are separate
    calls: two requests that overlap can leave a server on a node just deleted,
    and a plugin may save any server it likes. *)
Theorem park_stays_consistent s s' : rtc park_step s s' -> consistent s -> consistent s'.
Proof. induction 1 as [s|s1 s2 s3 Hs _ IH]; [done|]. intros Hc. by apply IH, (park_step_consistent s1). Qed.
End park.

(** ** An example: a server is created *)

Module ParkSample.
#[local] Existing Instance ShelfSample.order.
#[local] Instance clock_ : WallClock := {| now_at n := (Z.of_N n + 1)%Z |}.
(** Identifiers that print byte by byte, and dice. *)
Fixpoint text_of (f : N -> N) (l : list N) : string := match l with [] => ""%string | b :: l => String (ascii_of_N (f b)) (text_of f l) end.
#[local] Instance xids : XIDs := {|
  xid_New n := replicate 11 0%N ++ [n mod 256]%N; xid_String := text_of (fun b => 97 + b mod 20)%N;
  uuid_String := text_of (fun b => b); uuid_Bytes s := map N_of_ascii (String.list_ascii_of_string s);
|}.
#[local] Instance dice : Randomness := {| rand_Int k m := Ok (k mod m)%N; rand_xid n := FormatUint n |}.
#[local] Instance nobody_may : AccessControl unit := {|
  AC_Can _ _ := ret false; AC_CanOneOf _ _ := ret false; AC_CanForEntity _ _ _ _ := ret false;
  AC_GetRoles _ := ret []; AC_SetRolesToUser _ _ := ret tt; AC_AllowUserAbilitiesForEntity _ _ _ _ := ret tt;
  AC_RevokeOrForbidUserAbilitiesForEntity _ _ _ _ := ret tt;
|}.
#[local] Instance outbox : TaskSender (list GatewayMessage) := {| TS_SendTask _ m := modify (fun l => m :: l) |}.

Lemma xids_laws : XIDLaws xids.
Proof.
  split.
  - intros n. split; [done|]. change (Forall (fun b => b < 256)%N (replicate 11 0%N ++ [n mod 256]%N)). apply list.Forall_app.
    split; [by apply list.Forall_replicate|]. apply list.Forall_singleton. by apply N.mod_upper_bound.
  - intros id [Hl _]. split; [|by destruct id]. clear Hl. induction id as [|b id IH]; [done|].
    change (xid_char (ascii_of_N (97 + b mod 20)) && xid_text (xid_String id) = true). rewrite IH, andb_true_r.
    assert (Hb : (b mod 20 < 20)%N) by by apply N.mod_upper_bound.
    revert Hb. generalize (b mod 20)%N. intros c Hb. unfold xid_char. rewrite N_ascii_embedding by lia. apply orb_true_iff. right. apply andb_true_iff. split; apply N.leb_le; lia.
  - intros u [_ Hu]. simpl. induction Hu as [|b u Hb _ IH]; [done|]. cbn [text_of String.list_ascii_of_string map]. by rewrite IH, N_ascii_embedding.
Defined.
#[local] Existing Instance xids_laws.

Definition ticks (n : N) : time := Z.of_N n.

Definition nodes_ : memNodeRepo := NodesRepo.addToIndexes sample_node (mkNodeRepo {[7%N := sample_node]} 7 ∅ 0).
Lemma nodes_ok : nodes_inv nodes_.
Proof.
  change nodes_ with (NodesRepo.addToIndexes sample_node (mkNodeRepo (<[nd_ID sample_node := sample_node]> (nodes NewNodeRepository)) 7 (idIndex NewNodeRepository) 0)).
  by apply nodes_inv_insert; [| | |apply nodes_inv_new].
Qed.
Definition park : Park memGameRepo memGameModRepo memTaskRepo memSettingRepo unit (list GatewayMessage) :=
  mkPark ShelfSample.shelf (mkControl NewDaemonTaskRepository NewServerSettingRepository [] 0 tt) [] 0 0.
Definition before : Desk memServerRepo unit memNodeRepo _ := mkDesk NewServerRepository tt nodes_ park.
Definition wanted : serverInput :=
  mkServerInput (Some true) "arena" 7 "cs16" 1 "10.0.0.1" 27015 None None None None None None [("MAP", AnyString "de_inferno")]%string.
Definition request : Request := mkRequest "POST" "" "" None (fun _ => ""%string) "{}".
Definition created := PostServer (V:=memServerRepo) (A:=unit) (R:=memNodeRepo) (G:=memGameRepo) (Q:=memGameModRepo) (P:=list GatewayMessage)
  ticks None (fun _ => Ok (Some wanted)) None request before.
Definition no_vars (_ : gmap string string) : option string := None.
Definition at_once {St : Type} (B : Type) (x : M St B) : M St B := x.

Lemma before_consistent : consistent before.
Proof.
  constructor; [exact srv_inv_new|exact nodes_ok|exact ShelfSample.shelf_inv|]. intros i server Hs.
  assert (E : sf_rows (de_servers before) = ∅) by (vm_compute; reflexivity). by rewrite E in Hs.
Defined.

Lemma creating : park_step ticks no_vars false None None at_once at_once before (snd created).
Proof.
  eapply (step_request ticks no_vars false None None at_once at_once 0 request); [apply rq_post_server|vm_compute; reflexivity|vm_compute; reflexivity].
Defined.
Lemma created_consistent : consistent (snd created).
Proof.
  exact (park_step_consistent ticks no_vars false None None at_once at_once (fun B x s => or_introl eq_refl) before (snd created) creating before_consistent).
Qed.

(** A server is created, with a task to install it, and the park is consistent. *)
Lemma park_stays_consistent_witness :
  fst created = Ok (Write StatusCreated (ServerCreated 1 1)) /\
  (sv_Dir <$> servers (de_servers (snd created)) !! 1%N) = Some "servers/aaaaaaaaaaaa"%string /\
  consistent before /\ consistent (snd created).
Proof.
  split; [vm_compute; reflexivity|]. split; [vm_compute; reflexivity|]. split; [exact before_consistent|].
  exact (park_stays_consistent ticks no_vars false None None at_once at_once (fun B x s => or_introl eq_refl) before (snd created)
    (rtc_once _ _ creating) before_consistent).
Defined.
End ParkSample.
