(* ===== verification/ServerCommands.v ===== *)
(** What users may do to a server through [ServersApi]: run its commands, and
    change its settings. *)

From S2P Require Import Prelude.
From S2P Require Import GoNum.
From S2P Require Import Domain.
From S2P Require Import GoRuntime.
From S2P Require Import Repositories.
From S2P Require Import TaskRepo.
From S2P Require Import SettingsRepo.
From S2P Require Import NodesRepo.
From S2P Require Import ServersRepo.
From S2P Require Import ServerControl.
From S2P Require Import Http.
From S2P Require Import Accounts.
From S2P Require Import UserAuth.
From S2P Require Import RBACRepo.
From S2P Require Import RBAC.
From S2P Require Import ServerAccess.
From S2P Require Import FilePath.
From S2P Require Import Ids.
From S2P Require Import Games.
From S2P Require Import GameImport.
From S2P Require Import Park.
From S2P Require Import GamesApi.
From S2P Require Import ServersApi.
From stdpp Require Import base tactics strings list gmap numbers.
From Stdlib Require Import NArith ZArith Ascii.

(** ** Settings a user may set *)

(** The two settings of every server, and the variables of its mod; those for
    administrators by administrators only. *)
Definition settable (gameMod : GameMod) (isAdmin : bool) (name : string) : Prop :=
  name = autostartSettingKey \/ name = updateBeforeStartSettingKey \/
  exists v, v ∈ gmod_Vars gameMod /\ var_name v = name /\ (var_admin v = true -> isAdmin = true).

Lemma allowed_settable gameMod isAdmin name b : allowed_settings gameMod isAdmin !! name = Some b -> settable gameMod isAdmin name.
Proof.
  unfold allowed_settings, settable. generalize (gmod_Vars gameMod). intros vars.
  assert (Hgen : forall (m : gmap string bool),
    foldl (fun m v => if var_admin v && negb isAdmin then m else <[var_name v := var_admin v]> m) m vars !! name = Some b ->
    m !! name = Some b \/ exists v, v ∈ vars /\ var_name v = name /\ (var_admin v = true -> isAdmin = true)).
  { induction vars as [|v vars IH]; intros m; simpl; [by left|]. intros [Hm|(w & Hw & Hrest)]%IH.
    - destruct (var_admin v && negb isAdmin) eqn:Ea; [by left|]. apply lookup_insert_Some in Hm as [[<- <-]|[_ Hm]]; [|by left].
      right. exists v. split_and!; [apply list_elem_of_here|done|]. intros Hv. rewrite Hv in Ea. by destruct isAdmin.
    - right. exists w. split; [by apply list_elem_of_further|done]. }
  intros [Hm|Hv]%Hgen; [|by auto]. apply lookup_insert_Some in Hm as [[<- _]|[_ Hm]]; [by left|].
  apply lookup_singleton_Some in Hm as [<- _]. auto.
Qed.

Lemma existing_named l name old : existing_settings l !! name = Some old -> old ∈ l /\ ss_Name old = name.
Proof.
  unfold existing_settings.
  assert (Hgen : forall (m : gmap string ServerSetting), foldl (fun m s => <[ss_Name s := s]> m) m l !! name = Some old ->
    m !! name = Some old \/ old ∈ l /\ ss_Name old = name).
  { induction l as [|s l IH]; intros m; simpl; [by left|]. intros [Hm|[Hin Hn]]%IH.
    - apply lookup_insert_Some in Hm as [[<- <-]|[_ Hm]]; [right; split; [apply list_elem_of_here|done]|by left].
    - right. split; [by apply list_elem_of_further|done]. }
  intros [Hm|Hin]%Hgen; [by rewrite lookup_empty in Hm|done].
Qed.

Section users.
Context {V A R G Q T Y X P : Type}.
Context `{FinderRepositoryLaws V} `{!ServerTable V} `{AccessControl A} `{NodeRepository R}.
Context `{GameRepository G} `{GameModRepositoryLaws Q} `{DaemonTaskRepository T} `{ServerSettingRepositoryLaws Y} `{TaskSender P}.
Context `{XIDs} `{MapOrder} (clock : N -> time) (json_vars : gmap string string -> option string) (pusher : bool).
Context (pluginDispatcher : option (PluginEventType -> Server -> option PluginDispatchResult)).
Context (taskDispatcher : option (DaemonTask -> M (Control T Y X) DaemonTask)).
Context (control_tm : forall B, M (Control T Y X) B -> M (Control T Y X) B).
Abbreviation F := (Park G Q T Y X P).
Abbreviation S := (Desk V A R F).
Abbreviation work := (M S (ParkAnswer + api_error)).
Implicit Types s : S.

(** ** Commands *)

(** The work behind the commands changes nothing but tasks and settings. *)
Definition only_control s s' : Prop :=
  de_servers s' = de_servers s /\ de_nodes s' = de_nodes s /\ pk_library (de_world s') = pk_library (de_world s) /\
  pk_sender (de_world s') = pk_sender (de_world s) /\ pk_draws (de_world s') = pk_draws (de_world s) /\ pk_runs (de_world s') = pk_runs (de_world s).

Definition command_answer (out : result N) : result (Response ParkAnswer) :=
  match out with
  | Ok id => Ok (Write StatusOK (CommandTask id))
  | Err e => Ok (WriteError (OtherError (EWrap "failed to execute command" e)))
  | Panic w => Panic w
  end.

(** C11: a command (start, stop, restart, update, install, reinstall) reaches
    server control only from a signed-in user, for the server the path names,
    when that server is not deleted, access control calls the user an
    administrator or the server is one of his, and access control calls him an
    administrator or grants him the ability of this command next to the common
    one; then exactly this operation runs on this server and its outcome is
    the answer. Otherwise nothing at all changes and the answer is an error. *)
Theorem commands_need_abilities request_path ctx r s res s' : sf_inv (de_servers s) ->
  PostCommand clock pluginDispatcher taskDispatcher control_tm request_path ctx r s = (res, s') ->
  de_servers s' = de_servers s /\ de_nodes s' = de_nodes s /\
  (de_world s' = de_world s /\ (forall code a, res <> Ok (Write code a)) \/
   exists user server path op abilities out,
     se_User <$> ctx = Some (Some user) /\ request_path r = Ok path /\ ReadUint r "server" = Ok (sv_ID server) /\
     find_command (List.last (split_byte slash path) ""%string) = Some (op, abilities) /\ may_act s user server (Some abilities) /\
     run_op clock pluginDispatcher taskDispatcher control_tm (op server) (pk_control (de_world s)) = (out, pk_control (de_world s')) /\
     only_control s s' /\ res = command_answer out).
Proof.
  intros Hi. unfold PostCommand. destruct ctx as [[sid lg em [user|] tk]|]; [|intros [= <- <-]; split_and!; by auto..].
  destruct (IsAuthenticated _); cbn [negb]; [|intros [= <- <-]; split_and!; by auto].
  unfold respond, decoded, bind at 1. destruct (ReadUint r "server") as [i|e|w]; [|intros [= <- <-]; split_and!; by auto..].
  destruct (request_path r) as [path|e|w]; [|intros [= <- <-]; split_and!; by auto..].
  destruct (find_command _) as [[op abilities]|] eqn:Ec; [|intros [= <- <-]; split_and!; by auto].
  unfold bind at 1. destruct (FindUserServer user i s) as [fr s1] eqn:Ef. destruct (FindUserServer_spec _ _ _ _ _ Hi Ef) as [Hs1 Hf].
  destruct fr as [[server|e]|e|w]; [|destruct Hs1 as (Ev & En & Ew); intros [= <- <-]; split_and!; by auto..].
  destruct Hf as (Hid & adm & Hadm & Hrow & Hass). unfold bind at 1.
  destruct (CheckOrError _ _ abilities s1) as [cr s2] eqn:Ek. destruct (CheckOrError_spec _ _ _ _ _ _ Ek) as [Hs2 Hk].
  destruct (asked_trans _ _ _ Hs1 Hs2) as (Ev & En & Ew).
  destruct cr as [[e|]|e|w]; [intros [= <- <-]; split_and!; by auto| |intros [= <- <-]; split_and!; by auto..].
  unfold call, bind, attempt, on_control, on_world, zoom. rewrite Ew.
  destruct (run_op _ _ _ _ (op server) (pk_control (de_world s))) as [out c] eqn:Eo. cbn [de_servers de_nodes de_world].
  assert (Hmay : may_act s user server (Some abilities)) by (exists adm, (de_access s1); subst i; by split_and!).
  subst i. intros E. assert (Hs' : s' = mkDesk (de_servers s2) (de_access s2) (de_nodes s2)
    (mkPark (pk_library (de_world s)) c (pk_sender (de_world s)) (pk_draws (de_world s)) (pk_runs (de_world s)))) by by destruct out; injection E.
  assert (Hres : res = command_answer out) by by destruct out; injection E.
  subst s'. cbn [de_servers de_nodes de_world]. split; [done|]. split; [done|]. right.
  exists user, server, path, op, abilities, out. by split_and!.
Qed.

(** ** Settings *)

Definition stored s : gmap N ServerSetting := st_rows (c_settings (pk_control (de_world s))).
(** Nothing but the settings changes, apart from what access control remembers,
    runs and draws, and what is sent. *)
Definition quiet s s' : Prop := de_servers s' = de_servers s /\ de_nodes s' = de_nodes s.
Definition silent s s' : Prop := quiet s s' /\ pk_control (de_world s') = pk_control (de_world s).
#[local] Instance silent_preorder : PreOrder silent.
Proof.
  split; [by intros s; split_and!|]. intros s1 s2 s3 [[Hv Hn] Hc] [[Hv' Hn'] Hc']. split; [split|]; congruence.
Qed.
Lemma silent_access {B} (x : M A B) : moves silent (on_access (V:=V) (R:=R) (F:=F) x).
Proof. intros s. unfold on_access, zoom. by destruct (x _). Qed.
Lemma silent_library {B} (x : M (Library G Q) B) : moves silent (on_library (V:=V) (A:=A) (R:=R) (T:=T) (Y:=Y) (X:=X) (P:=P) x).
Proof. intros s. unfold on_library, on_world, zoom. by destruct (x _). Qed.
Lemma silent_sender {B} (x : M P B) : moves silent (on_sender (V:=V) (A:=A) (R:=R) (G:=G) (Q:=Q) (T:=T) (Y:=Y) (X:=X) x).
Proof. intros s. unfold on_sender, on_world, zoom. by destruct (x _). Qed.
Lemma silent_draw k : moves silent (draw (V:=V) (A:=A) (R:=R) k).
Proof. intros s. by split_and!. Qed.
Lemma silent_run : moves silent (next_run (V:=V) (A:=A) (R:=R)).
Proof. intros s. by split_and!. Qed.
#[local] Hint Resolve silent_access silent_library silent_sender silent_draw silent_run : park_moves.
Lemma silent_push i : moves silent (push_one json_vars pusher i).
Proof. unfold push_one, PushServerConfig. moves. Qed.
Lemma silent_check u i l : moves silent (CheckOrError u i l).
Proof. unfold CheckOrError, CheckAbility. moves. Qed.
#[local] Hint Resolve silent_push silent_check : park_moves.

(** What a request may do to the settings: rows of this server, named by
    something settable, with the value of the request, and only in place of a
    row of this server with this name or of none. *)
Definition only_settable (server : Server) (gameMod : GameMod) (isAdmin : bool) (input : gmap string any) (before after : gmap N ServerSetting) : Prop :=
  forall i, after !! i = before !! i \/
    exists row, after !! i = Some row /\ ss_ServerID row = sv_ID server /\ settable gameMod isAdmin (ss_Name row) /\
      (exists v, input !! ss_Name row = Some v /\ ss_Value row = NewServerSettingValue v) /\
      (forall old, before !! i = Some old -> ss_ServerID old = sv_ID server /\ ss_Name old = ss_Name row).

Section saving.
Context (server : Server) (gameMod : GameMod) (isAdmin : bool) (input : gmap string any) (before : gmap N ServerSetting).
Abbreviation done_well := (only_settable server gameMod isAdmin input before).

Lemma well_insert after i row : done_well after -> ss_ServerID row = sv_ID server -> settable gameMod isAdmin (ss_Name row) ->
  (exists v, input !! ss_Name row = Some v /\ ss_Value row = NewServerSettingValue v) ->
  (forall old, before !! i = Some old -> ss_ServerID old = sv_ID server /\ ss_Name old = ss_Name row) -> done_well (<[i := row]> after).
Proof.
  intros Ha Hs Hn Hv Hold j. rewrite lookup_insert. case_decide as Hij; [|apply Ha]. subst j. right. by exists row.
Qed.
Lemma well_kept after i : done_well after -> is_Some (before !! i) -> is_Some (after !! i).
Proof. intros Ha Hi. destruct (Ha i) as [->|(row & -> & _)]; [done|by eexists]. Qed.

(** The settings are well kept, with room for [k] more. *)
Definition saving_inv (k : nat) s : Prop :=
  st_inv (c_settings (pk_control (de_world s))) /\ (forall j, j <= k -> st_room j (c_settings (pk_control (de_world s)))) /\ done_well (stored s).

Lemma wp_save_setting (existing : gmap string ServerSetting) setting k s :
  (forall name old, existing !! name = Some old -> ss_Name old = name /\ before !! ss_ID old = Some old /\ ss_ID old <> 0%N /\ ss_ServerID old = sv_ID server) ->
  saving_inv (Datatypes.S k) s -> settable gameMod isAdmin setting.1 -> input !! setting.1 = Some setting.2 ->
  wp (save_setting server existing setting) (fun _ s' => quiet s s' /\ saving_inv k s') s.
Proof.
  intros Hex (Hi & Hroom & Hwell) Hset Hin. unfold save_setting, on_control, on_world, on_settings. repeat wp_step. apply wp_intro. intros r q E.
  assert (Hold : match existing !! setting.1 with
    | Some old => ss_Name old = setting.1 /\ before !! ss_ID old = Some old /\ ss_ID old <> 0%N /\ ss_ServerID old = sv_ID server
    | None => True end) by (destruct (existing !! setting.1) as [old|] eqn:Eo; [by apply Hex|done]).
  apply st_save_law in E as (Hi' & Hroom' & Hres); [|exact Hi|].
  2:{ simpl. destruct (existing !! setting.1) as [old|]; [|apply Hroom; lia]. destruct Hold as (_ & Hb & Hnz & _). rewrite decide_False by done.
      apply well_kept; [exact Hwell|by exists old]. }
  assert (Hk : forall j, j <= k -> st_room j q).
  { intros j Hj. apply Hroom'. case_decide; apply Hroom; lia. }
  assert (Hgoal : done_well (st_rows q)).
  { destruct r as [row|e|w]; [|by rewrite Hres|done]. destruct Hres as (Erow & -> & Hid). apply well_insert; [exact Hwell|..]; rewrite Erow; simpl.
    - done.
    - exact Hset.
    - exists setting.2. done.
    - intros old Ho. destruct (existing !! setting.1) as [o|]; simpl in Hid.
      + destruct Hold as (Hn & Hb & Hnz & Hsv). rewrite decide_False in Hid by done. rewrite Hid, Hb in Ho. injection Ho as <-. done.
      + exfalso. destruct (Hwell (ss_ID row)) as [Eq|(row' & Eq & _)]; unfold stored in Eq; [rewrite <- Eq in Ho|]; congruence. }
  destruct r; simpl; [wp_step|..]; by split_and!.
Qed.
End saving.

Lemma wp_call {B} msg (x : M S B) (k : B -> work) Q0 s :
  wp x (fun r s' => match r with
    | Ok v => wp (k v) Q0 s'
    | Err e => Q0 (Ok (inr (OtherError (EWrap msg e)))) s'
    | Panic w => Q0 (Panic w) s'
    end) s -> wp (call msg x k) Q0 s.
Proof. intros Hx. unfold call. do 2 wp_step. eapply wp_mono; [exact Hx|]. by intros [v|e|w] s' Hs. Qed.
Lemma wp_silent {B} (x : M S B) (Q0 : result B -> S -> Prop) s : moves silent x ->
  (forall r s', x s = (r, s') -> silent s s' -> Q0 r s') -> wp x Q0 s.
Proof. intros Hx Hq. apply wp_intro. intros r s' E. apply Hq; [done|]. specialize (Hx s). by rewrite E in Hx. Qed.

(** What is left of a request to change settings. *)
Definition settings_outcome s (server : Server) (isAdmin : bool) (input : gmap string any) s' : Prop :=
  quiet s s' /\ (stored s' = stored s \/
    exists gameMod, mr_rows (li_mods (pk_library (de_world s))) !! sv_GameModID server = Some gameMod /\
      only_settable server gameMod isAdmin input (stored s) (stored s')).
Lemma outcome_silent s server isAdmin input s' : silent s s' -> settings_outcome s server isAdmin input s'.
Proof. intros [Hq Hc]. split; [done|]. left. unfold stored. by rewrite Hc. Qed.
Lemma outcome_after s server isAdmin input s1 s' : settings_outcome s server isAdmin input s1 -> silent s1 s' -> settings_outcome s server isAdmin input s'.
Proof.
  intros [[Hv Hn] Ho] [[Hv' Hn'] Hc]. split; [split; congruence|]. unfold stored in *. by rewrite Hc.
Qed.

(** The loop over what is to be set. *)
Lemma wp_set_all server gameMod isAdmin input existing s0 s l :
  (forall name old, existing !! name = Some old -> ss_Name old = name /\ stored s0 !! ss_ID old = Some old /\ ss_ID old <> 0%N /\ ss_ServerID old = sv_ID server) ->
  (forall x, x ∈ l -> input !! x.1 = Some x.2) -> saving_inv server gameMod isAdmin input (stored s0) (length l) s ->
  wp (for_each l (fun setting =>
        match allowed_settings gameMod isAdmin !! setting.1 with
        | None => ret tt
        | Some adminVar => if adminVar && negb isAdmin then ret tt else save_setting server existing setting
        end)) (fun _ s' => quiet s s' /\ saving_inv server gameMod isAdmin input (stored s0) 0 s') s.
Proof.
  intros Hex. revert s. induction l as [|x l IH]; intros s Hin Hinv; cbn [for_each]; [wp_step; by split|].
  assert (Hdrop : forall s, saving_inv server gameMod isAdmin input (stored s0) (Datatypes.S (length l)) s -> saving_inv server gameMod isAdmin input (stored s0) (length l) s).
  { intros s1 (Hi & Hr & Hw). split_and!; [done| |done]. intros j Hj. apply Hr. lia. }
  assert (Hnext : forall (r : result unit) s', quiet s s' /\ saving_inv server gameMod isAdmin input (stored s0) (length l) s' ->
    match r with
    | Ok _ => wp (for_each l (fun setting => match allowed_settings gameMod isAdmin !! setting.1 with
        | None => ret tt | Some adminVar => if adminVar && negb isAdmin then ret tt else save_setting server existing setting end))
        (fun _ s' => quiet s s' /\ saving_inv server gameMod isAdmin input (stored s0) 0 s') s'
    | _ => quiet s s' /\ saving_inv server gameMod isAdmin input (stored s0) 0 s'
    end).
  { intros r s1 [[Hv Hn] Hs1]. destruct r.
    - eapply wp_mono; [apply IH; [intros y Hy; by apply Hin, list_elem_of_further|done]|]. intros _ s2 [[Hv2 Hn2] Hs2]. split; [split; congruence|done].
    - split; [done|]. destruct Hs1 as (Hi & Hr & Hw). split_and!; [done| |done]. intros j Hj. apply Hr. lia.
    - split; [done|]. destruct Hs1 as (Hi & Hr & Hw). split_and!; [done| |done]. intros j Hj. apply Hr. lia. }
  wp_step. destruct (allowed_settings gameMod isAdmin !! x.1) as [adm|] eqn:Ea; [|wp_step; apply (Hnext (Ok tt)); split; [by split|by apply Hdrop]].
  destruct (adm && negb isAdmin); [wp_step; apply (Hnext (Ok tt)); split; [by split|by apply Hdrop]|].
  eapply wp_mono; [apply (wp_save_setting server gameMod isAdmin input (stored s0) existing x (length l)); [exact Hex|exact Hinv| |apply Hin, list_elem_of_here]|].
  - by eapply allowed_settable.
  - intros r s1 Hs1. exact (Hnext r s1 Hs1).
Qed.

Lemma wp_saveSettings server isAdmin input (k : work) s : moves silent k ->
  mr_inv (li_mods (pk_library (de_world s))) -> st_inv (c_settings (pk_control (de_world s))) ->
  (forall j, j <= size input -> st_room j (c_settings (pk_control (de_world s)))) ->
  wp (saveSettings server input isAdmin k) (fun _ => settings_outcome s server isAdmin input) s.
Proof.
  intros Hk Hm Hst Hroom. unfold saveSettings. apply wp_call, wp_silent; [moves|]. intros [[|gameMod l]|e|w] s1 E Hs1; try by apply outcome_silent.
  assert (Hmod : mr_rows (li_mods (pk_library (de_world s))) !! sv_GameModID server = Some gameMod).
  { revert E. unfold wrap, on_mod_table, on_library, on_world, on_mods, zoom. destruct (MR_Find _ _ _ _) as [r q] eqn:E. intros [= Er _].
    destruct r as [l0|e|w]; [|done|done]. cbn [wrap_err] in Er. apply Ok_inj in Er. subst l0. apply mod_by_id in E; [|done|by right].
    destruct (mr_rows _ !! sv_GameModID server) as [m|]; [|done]. by injection E as -> _. }
  destruct Hs1 as [Hq1 Hc1]. apply wp_call. unfold settings_of. do 3 wp_step. wp_step.
  destruct (SS_Find (c_settings (pk_control (de_world s1))) (Some (mkFindServerSetting [] [sv_ID server] [])) [] None) as [found|e|w] eqn:Ef;
    cbn [wrap_err]; [|by apply outcome_silent..].
  rewrite Hc1 in Ef. pose proof (st_find_law _ _ _ Hst Ef) as Hfound.
  wp_step. apply wp_silent; [moves|]. intros [n|e|w] s2 _ [Hq2 Hc2]; cbv beta iota; [|destruct Hq1, Hq2; apply outcome_silent; split; [split|]; congruence..].
  assert (Hq : quiet s s2) by (destruct Hq1, Hq2; split; congruence). assert (Hc : pk_control (de_world s2) = pk_control (de_world s)) by congruence.
  apply wp_call. eapply wp_mono; [apply (wp_set_all server gameMod isAdmin input (existing_settings found) s)|].
  - intros name old [Hin Hn]%existing_named. apply Hfound in Hin as [Hrow Hmt]. destruct (st_rows_id _ _ _ Hst Hrow) as [_ Hnz].
    unfold setting_matches in Hmt. simpl in Hmt. rewrite !andb_true_r in Hmt. apply bool_decide_eq_true, list_elem_of_singleton in Hmt. by split_and!.
  - intros x Hx. rewrite (range_perm n input) in Hx. destruct x as [name v]. by apply elem_of_map_to_list in Hx.
  - assert (Hlen : length (range n input) = size input) by (rewrite (range_perm n input); apply length_map_to_list).
    unfold saving_inv, stored. rewrite Hc, Hlen. split_and!; [done|done|]. intros i. by left.
  - intros r s3 [Hq3 (_ & _ & Hw)]. assert (Ho : settings_outcome s server isAdmin input s3).
    { split; [destruct Hq, Hq3; split; congruence|]. right. by exists gameMod. }
    destruct r; [|exact Ho|exact Ho]. apply wp_silent; [exact Hk|]. intros r s4 _ Hs4. by eapply outcome_after.
Qed.

(** Access control, asked from [a] on, says whether the user is an
    administrator, and then that he may change the server's settings. *)
Definition granted_settings (a : A) (user : User) (server : Server) (isAdmin : bool) : Prop :=
  exists a1 adm a2, says_admin a (us_ID user) isAdmin a1 /\ says_admin a1 (us_ID user) adm a2 /\
    (adm = false -> exists a3, AC_CanForEntity (us_ID user) EntityTypeServer (sv_ID server) settings_abilities a2 = (Ok true, a3)).

(** The work of [PutServerSettings] behind the search for the server. *)
Definition granted_outcome s (body : string) (decode : string -> result (list (string * any))) (user : User) (server : Server) s' : Prop :=
  quiet s s' /\ (stored s' = stored s \/
    exists input isAdmin gameMod, decode body = Ok input /\ granted_settings (de_access s) user server isAdmin /\
      mr_rows (li_mods (pk_library (de_world s))) !! sv_GameModID server = Some gameMod /\
      only_settable server gameMod isAdmin (ToSettingsMap input) (stored s) (stored s')).

Definition settings_work (decode : string -> result (list (string * any))) (body : string) (user : User) (server : Server) : work :=
  call "failed to check admin permissions" (on_access (AC_Can (us_ID user) [AbilityNameAdminRolesPermissions])) (fun isAdmin =>
  let! denied := CheckOrError (us_ID user) (sv_ID server) settings_abilities in
  match denied with
  | Some e => refuse e
  | None =>
      decoded (fun e => bad_request (EWrap "failed to read request body" e)) (decode body) (fun input =>
      match settings_Validate input with
      | Some _ => refuse (bad_request (ENew "setting name is required"))
      | None => saveSettings server (ToSettingsMap input) isAdmin (do! push_one json_vars pusher (sv_ID server) ;; ret (inl Success))
      end)
  end).

Lemma wp_settings_work decode body user server s :
  mr_inv (li_mods (pk_library (de_world s))) -> st_inv (c_settings (pk_control (de_world s))) ->
  (forall input, decode body = Ok input -> forall j, j <= size (ToSettingsMap input) -> st_room j (c_settings (pk_control (de_world s)))) ->
  wp (settings_work decode body user server) (fun _ => granted_outcome s body decode user server) s.
Proof.
  intros Hm Hst Hroom. unfold settings_work. apply wp_call. unfold on_access. wp_step. apply wp_intro. intros [isAdmin|e|w] a1 Ea; [|by split; [|left]..].
  set (s1 := mkDesk _ a1 _ _). wp_step. apply wp_intro. intros r s2 Ec. destruct (CheckOrError_spec _ _ _ _ _ _ Ec) as [(Ev & En & Ew) Hgrant].
  change (de_servers s2 = de_servers s) in Ev. change (de_nodes s2 = de_nodes s) in En. change (de_world s2 = de_world s) in Ew.
  assert (Hnone : granted_outcome s body decode user server s2) by (split; [by split|left; unfold stored; by rewrite Ew]).
  destruct r as [[e|]|e|w]; [exact Hnone| |exact Hnone..]. unfold decoded. destruct (decode body) as [input|e|w] eqn:Ed; [|exact Hnone..].
  destruct (settings_Validate input); [exact Hnone|]. destruct Hgrant as (adm & a2 & Hadm & Hcan).
  assert (Hg : granted_settings (de_access s) user server isAdmin) by by exists a1, adm, a2.
  eapply wp_mono; [apply wp_saveSettings|].
  - moves.
  - rewrite Ew. exact Hm.
  - rewrite Ew. exact Hst.
  - rewrite Ew. by apply Hroom.
  - intros _ s3 [[Hv Hn] Ho]. split; [split; congruence|].
    assert (Hst2 : stored s2 = stored s) by (unfold stored; by rewrite Ew). rewrite Hst2, Ew in Ho.
    destruct Ho as [Ho|(gameMod & Hmod & Ho)]; [by left|right; exists input, isAdmin, gameMod; by split_and!].
Qed.

(** C12: a request to change the settings of a server changes nothing unless
    it comes from a signed-in user who may see the server and whom access
    control grants the settings of this server; and then every changed setting
    is one of this server, is named in the request and has the value given
    there, stands in place of none or of the setting of that name, and is
    [autostart], [update_before_start] or a variable of the server's mod, which
    is no administrators' variable unless access control called the user one. *)
Theorem settings_need_grants decode ctx r s res s' :
  sf_inv (de_servers s) -> mr_inv (li_mods (pk_library (de_world s))) -> st_inv (c_settings (pk_control (de_world s))) ->
  (forall input, decode (rq_Body r) = Ok input -> forall j, j <= size (ToSettingsMap input) -> st_room j (c_settings (pk_control (de_world s)))) ->
  PutServerSettings json_vars pusher decode ctx r s = (res, s') ->
  quiet s s' /\ (stored s' = stored s \/
    exists user server input isAdmin gameMod a, se_User <$> ctx = Some (Some user) /\ ReadUint r "server" = Ok (sv_ID server) /\
      may_act s user server None /\ granted_settings a user server isAdmin /\ decode (rq_Body r) = Ok input /\
      mr_rows (li_mods (pk_library (de_world s))) !! sv_GameModID server = Some gameMod /\
      only_settable server gameMod isAdmin (ToSettingsMap input) (stored s) (stored s')).
Proof.
  intros Hi Hm Hst Hroom E. unfold PutServerSettings in E.
  match type of E with with_server _ _ ?k _ _ _ = _ => destruct (with_server_spec "server" None k ctx r s Hi) as (s1 & (Ev & En & Ew) & Hcase) end.
  assert (Hnone : stored s1 = stored s) by (unfold stored; by rewrite Ew).
  destruct Hcase as [[e Ee]|[[w Ee]|(user & server & Ee & Hu & Hr & Hmay)]]; rewrite E in Ee; [by injection Ee as -> ->; split; [|left]..|].
  assert (Hwp : wp (respond StatusOK (settings_work decode (rq_Body r) user server)) (fun _ => granted_outcome s1 (rq_Body r) decode user server) s1).
  { unfold respond. wp_step. eapply wp_mono; [apply wp_settings_work; rewrite Ew; done|]. by intros [[x|e]|e|w] s2 Ho. }
  pose proof (wp_run _ _ _ _ _ Hwp (eq_sym Ee)) as [[Hv Hn] Ho]. split; [split; congruence|]. rewrite Hnone, Ew in Ho.
  destruct Ho as [Ho|(input & isAdmin & gameMod & Hd & Hg & Hmod & Ho)]; [by left|right].
  exists user, server, input, isAdmin, gameMod, (de_access s1). by split_and!.
Qed.
End users.

(** ** An example: a player stops his server and picks its map *)

Module PlayerSample.
#[local] Existing Instance ShelfSample.order.
#[local] Instance clock_ : WallClock := {| now_at n := (Z.of_N n + 1)%Z |}.
#[local] Instance xids : XIDs := {| xid_New n := [n]; xid_String _ := "id"%string; uuid_String _ := "uuid"%string; uuid_Bytes _ := [] |}.
#[local] Instance outbox : TaskSender (list N) := {| TS_SendTask n _ := modify (fun l => n :: l) |}.
Definition granted_names : list string :=
  [AbilityNameGameServerCommon; AbilityNameGameServerStop; AbilityNameGameServerSettings].
#[local] Instance player_access : AccessControl unit := {|
  AC_Can _ _ := ret false; AC_CanOneOf _ _ := ret false;
  AC_CanForEntity u t i names :=
    ret ((u =? 5)%N && String.eqb t EntityTypeServer && (i =? 2)%N && forallb (fun n => existsb (String.eqb n) granted_names) names);
  AC_GetRoles _ := ret []; AC_SetRolesToUser _ _ := ret tt; AC_AllowUserAbilitiesForEntity _ _ _ _ := ret tt;
  AC_RevokeOrForbidUserAbilitiesForEntity _ _ _ _ := ret tt;
|}.

Definition player : User := mkUser 5 "player" "player@example.org" "" None None None None.
Definition signed_in : option Session := Some (mkSession "" "player" "player@example.org" (Some player) None).
Definition park : Park memGameRepo memGameModRepo memTaskRepo memSettingRepo unit (list N) :=
  mkPark ShelfSample.shelf (mkControl NewDaemonTaskRepository NewServerSettingRepository [] 0 tt) [] 0 0.
Definition desk : Desk memServerRepo unit memNodeRepo _ := mkDesk sample_servers tt NewNodeRepository park.
Definition request (body : string) : Request :=
  mkRequest "POST" "" "" None (fun v => if String.eqb v "server" then "2"%string else ""%string) body.
Definition ticks (n : N) : time := Z.of_N n.
Definition no_vars (_ : gmap string string) : option string := None.
Definition at_once (B : Type) (x : M (Control memTaskRepo memSettingRepo unit) B) := x.
Definition stop_path (r : Request) : result string := Ok "/api/servers/2/stop"%string.
Definition choice (body : string) : result (list (string * any)) := Ok [("MAP", AnyString "de_inferno"); ("autostart_current", AnyBool true)]%string.

Abbreviation stopped := (PostCommand (V:=memServerRepo) (A:=unit) (R:=memNodeRepo) (G:=memGameRepo) (Q:=memGameModRepo) (P:=list N)
  ticks None None at_once stop_path signed_in (request "") desk).
Abbreviation chosen := (PutServerSettings (V:=memServerRepo) (A:=unit) (R:=memNodeRepo) (G:=memGameRepo) (Q:=memGameModRepo) (P:=list N)
  no_vars true choice signed_in (request "") desk).

Lemma desk_servers : sf_inv (de_servers desk).
Proof. exact (server_reachable_inv _ sample_servers_reachable). Defined.

Lemma stopped_task : fst stopped = Ok (Write StatusOK (CommandTask 1)).
Proof. vm_compute. reflexivity. Qed.
Lemma stopped_pair : stopped = (fst stopped, snd stopped).
Proof. exact (surjective_pairing _). Qed.

(** The command is run, for a user who may run it. *)
Lemma commands_need_abilities_witness :
  fst stopped = Ok (Write StatusOK (CommandTask 1)) /\
  exists user server abilities, may_act desk user server (Some abilities) /\ se_User <$> signed_in = Some (Some user) /\
    ReadUint (request "") "server" = Ok (sv_ID server).
Proof.
  split; [exact stopped_task|].
  destruct (commands_need_abilities ticks None None at_once stop_path signed_in (request "") desk (fst stopped) (snd stopped) desk_servers stopped_pair)
    as (_ & _ & [[_ Hno]|(user & server & path & op & abilities & out & Hu & _ & Hr & _ & Hmay & _)]).
  - exact (match Hno _ _ stopped_task with end).
  - exists user, server, abilities. exact (conj Hmay (conj Hu Hr)).
Defined.

Lemma desk_settings : st_inv (c_settings (pk_control (de_world desk))).
Proof. exact settings_inv_new. Defined.
Lemma desk_mods : mr_inv (li_mods (pk_library (de_world desk))).
Proof. exact (proj2 ShelfSample.shelf_inv). Defined.
Lemma choice_room input j : choice "" = Ok input -> j <= size (ToSettingsMap input) -> st_room j (c_settings (pk_control (de_world desk))).
Proof.
  intros E Hj. assert (Hsz : size (ToSettingsMap input) = 2) by (revert E; unfold choice; intros [= <-]; vm_compute; reflexivity).
  change (settings_room j NewServerSettingRepository). unfold settings_room, two32. change (ss_nextID NewServerSettingRepository) with 0%N. lia.
Qed.
Lemma chosen_stored : stored (snd chosen) <> stored desk.
Proof.
  intros E. assert (E1 : size (stored (snd chosen)) = 1) by (vm_compute; reflexivity). assert (E0 : size (stored desk) = 0) by (vm_compute; reflexivity).
  rewrite E, E0 in E1. done.
Qed.
Lemma chosen_pair : chosen = (fst chosen, snd chosen).
Proof. exact (surjective_pairing _). Qed.

(** One setting is kept, the one that is not the user's to set is not. *)
Lemma settings_need_grants_witness :
  fst chosen = Ok (Write StatusOK Success) /\ (ss_Name <$> map snd (map_to_list (stored (snd chosen)))) = ["MAP"%string] /\
  exists user a server isAdmin, se_User <$> signed_in = Some (Some user) /\ granted_settings a user server isAdmin.
Proof.
  split; [vm_compute; reflexivity|]. split; [vm_compute; reflexivity|].
  destruct (settings_need_grants no_vars true choice signed_in (request "") desk (fst chosen) (snd chosen) desk_servers desk_mods desk_settings
    (fun input E j Hj => choice_room input j E Hj) chosen_pair)
    as (_ & [Hno|(user & server & input & isAdmin & gameMod & a & Hu & _ & _ & Hg & _)]).
  - exact (match chosen_stored Hno with end).
  - exists user, a, server, isAdmin. exact (conj Hu Hg).
Defined.
End PlayerSample.
