(* ===== verification/ParkFiles.v ===== *)
(** The file manager over a consistent park: since every server's directory is
    relative and does not lead up ([ParkConsistent]), what the file manager
    asks of a daemon ([FileManager]) stays below the node's work path. *)

From S2P Require Import Prelude.
From S2P Require Import GoNum.
From S2P Require Import Domain.
From S2P Require Import GoRuntime.
From S2P Require Import Repositories.
From S2P Require Import NodesRepo.
From S2P Require Import ServersRepo.
From S2P Require Import ServerControl.
From S2P Require Import Http.
From S2P Require Import Accounts.
From S2P Require Import UserAuth.
From S2P Require Import ServerAccess.
From S2P Require Import FilePath.
From S2P Require Import Validation.
From S2P Require Import FileManager.
From S2P Require Import Games.
From S2P Require Import GameImport.
From S2P Require Import Park.
From S2P Require Import ParkConsistent.
From stdpp Require Import base tactics strings list gmap numbers.
From Stdlib Require Import NArith ZArith Ascii.

(** The directory of a well-formed server lies below the work path. *)
Lemma home_below work (server : Server) : work <> ""%string -> well_formed server -> below work (FilePath.Join [work; sv_Dir server]).
Proof.
  intros Hw Hs. assert (Hd : no_dotdot (parts (sv_Dir server))).
  { destruct (wf_dir _ Hs) as [->|Hd]; [by intros x ->%list_elem_of_singleton|]. by apply IsRelativeServerPath_safe. }
  apply below_Join; [done| |exact Hd]. split; [done|]. exists []. by rewrite app_nil_r.
Qed.
Lemma below_trans a b c : below a b -> below b c -> below a c.
Proof.
  intros (Hr & l & Hp & Hl) (Hr' & l' & Hp' & Hl'). split; [congruence|]. exists (l ++ l'). split; [by rewrite Hp', Hp, app_assoc|].
  by apply list.Forall_app.
Qed.

Section files.
Context {V A A' R F G Q T Y X P : Type}.
Context `{FinderRepositoryLaws V} `{AccessControl A} `{NodeRepositoryLaws R} `{DaemonNames F} `{Unicode}.
Context `{GameRepositoryLaws G} `{GameModRepositoryLaws Q}.
Context (query : Request -> string -> string).
Context (decode_delete : string -> result deleteRequest) (decode_chmod : string -> result chmodRequest)
  (decode_rename : string -> result renameRequest) (decode_paste : string -> result pasteRequest)
  (decode_create : string -> result createRequest) (ParseMultipartForm : Request -> result Form).

(** A call to the daemon of a live node, about paths below its work path. *)
Definition on_the_node (node : Node) (c : FileCall) : Prop :=
  fc_Node c = node /\ (nd_WorkPath node <> ""%string -> Forall (below (nd_WorkPath node)) (fc_Paths c)).

(** C37: over the servers and nodes of a consistent park, whatever a request to
    the file manager asks, the daemon asked is that of a node which is not
    deleted, for a user who may work with the files of a server of that node,
    and every path it is given is the server's directory or lies below it,
    however the request, the form or the clipboard spells the names, and lies
    below the work path of the node: the directory an administrator gave the
    server does not lead out of it. *)
Theorem files_stay_below_the_work_path (p : Desk V A' R (Park G Q T Y X P)) (f : Desk V A R (Recorded F)) h ctx r res f' :
  consistent p -> de_servers f = de_servers p -> de_nodes f = de_nodes p ->
  h ∈ file_handlers (F:=Recorded F) query decode_delete decode_chmod decode_rename decode_paste decode_create ParseMultipartForm ->
  h ctx r f = (res, f') ->
  exists calls, rc_calls (de_world f') = rc_calls (de_world f) ++ calls /\
    (calls = [] \/
     exists user server node,
       se_User <$> ctx = Some (Some user) /\ ReadUint r "server" = Ok (sv_ID server) /\ may_act f user server files_ability /\
       nr_rows (de_nodes p) !! sv_DSID server = Some node /\ nd_DeletedAt node = None /\
       Forall (fun c => inside node server c /\ on_the_node node c) calls).
Proof.
  intros Hc Ev En Hh E.
  pose proof (file_handlers_inside query decode_delete decode_chmod decode_rename decode_paste decode_create ParseMultipartForm) as Hall.
  rewrite list.Forall_forall in Hall. destruct (Hall h Hh ctx r f res f') as (calls & Hcalls & Hin); [rewrite Ev; apply Hc|rewrite En; apply Hc|exact E|].
  exists calls. split; [exact Hcalls|]. destruct Hin as [Hno|(user & server & node & Hu & Hr & Hmay & Hn & Hin)]; [by left|right].
  exists user, server, node. pose proof Hmay as (adm & a1 & Hadm & Hrow & Hrest). rewrite Ev in Hrow. rewrite En in Hn.
  destruct (co_rows _ Hc _ _ Hrow) as (Hw & _ & _ & node' & Hn' & Hdel). rewrite Hn in Hn'. injection Hn' as <-.
  split_and!; [done..|].
  eapply list.Forall_impl; [exact Hin|]. intros c Hc'. split; [exact Hc'|]. destruct Hc' as [Hnode Hpaths]. split; [exact Hnode|]. intros Hwp.
  eapply list.Forall_impl; [apply Hpaths; by left|]. intros q Hq. eapply below_trans; [by apply home_below|exact Hq].
Qed.
End files.

(** ** An example: an administrator pastes a file on the server just created *)

Module ParkFilesSample.
Import ParkSample.
#[local] Existing Instances ShelfSample.order ParkSample.clock_ ParkSample.xids ParkSample.xids_laws ParkSample.nobody_may ParkSample.outbox
  FileSample.willing FileSample.willing_names.
#[local] Existing Instance UserAccess.Sample.plain.
#[local] Instance everything : AccessControl unit := {|
  AC_Can _ _ := ret true; AC_CanOneOf _ _ := ret true; AC_CanForEntity _ _ _ _ := ret true;
  AC_GetRoles _ := ret []; AC_SetRolesToUser _ _ := ret tt; AC_AllowUserAbilitiesForEntity _ _ _ _ := ret tt;
  AC_RevokeOrForbidUserAbilitiesForEntity _ _ _ _ := ret tt;
|}.
Definition files_of {F} (d : Desk memServerRepo unit memNodeRepo F) : Desk memServerRepo unit memNodeRepo (Recorded unit) :=
  mkDesk (de_servers d) tt (de_nodes d) (mkRecorded [] tt).
Lemma files_of_tables {F} (d : Desk memServerRepo unit memNodeRepo F) : de_servers (files_of d) = de_servers d /\ de_nodes (files_of d) = de_nodes d.
Proof. by destruct d. Defined.
Abbreviation files := (files_of (snd created)).
Definition to_server_one : Request := mkRequest "POST" "" "" None (fun v => if String.eqb v "server" then "1"%string else ""%string) "".
Abbreviation pasted := (Paste (V:=memServerRepo) (A:=unit) (R:=memNodeRepo) (F:=Recorded unit) FileSample.clipboard_of FileSample.signed_in to_server_one files).

Lemma files_stay_below_the_work_path_witness :
  (exists calls, rc_calls (de_world (snd pasted)) = rc_calls (de_world files) ++ calls /\ (calls = [] \/ exists server node, Forall (fun c => inside node server c /\ on_the_node node c) calls)) /\
  map fc_Paths (rc_calls (de_world (snd pasted))) = [["/srv/servers/aaaaaaaaaaaa/cfg/server.cfg"; "/srv/servers/aaaaaaaaaaaa/backup/server.cfg"]]%string.
Proof.
  split; [|vm_compute; reflexivity].
  destruct (files_stay_below_the_work_path FileSample.no_query FileSample.unread FileSample.unread FileSample.unread FileSample.clipboard_of FileSample.unread
    (fun _ => FileSample.unread "") (snd created) files (Paste FileSample.clipboard_of) FileSample.signed_in to_server_one (fst pasted) (snd pasted)
    created_consistent (proj1 (files_of_tables (snd created))) (proj2 (files_of_tables (snd created)))) as (calls & E & Hcalls).
  - do 8 right. left.
  - exact (surjective_pairing _).
  - exists calls. split; [exact E|]. destruct Hcalls as [Hno|(u & server & node & _ & _ & _ & _ & _ & Hin)]; [by left|right; by exists server, node].
Defined.
End ParkFilesSample.
