(* ===== verification/FileStore.v ===== *)
(** File storages ([internal/files]): the interface [StreamFileManager] of the
    panel's own storage for transfers, what its users may rely on, and the
    in-memory storage ([inmemory.go]).  A stream is read as a whole: its content
    and the error it ends with, if not [io.EOF]. *)

From S2P Require Import Prelude.
From S2P Require Import GoRuntime.
From stdpp Require Import base tactics strings list gmap numbers.
From Stdlib Require Import NArith ZArith Ascii.
From S2P Require Import FilePath.

Record Stream : Type := mkStream { sm_content : string; sm_fault : option error }.
Definition whole (content : string) : Stream := mkStream content None.

(** [FileManager] and [StreamFileManager] ([files.go]), and [upload.Storage],
    which is the part of them an upload needs. *)
Class StreamFileManager (F : Type) : Type := {
  FM_Read : string -> M F string;
  FM_Write : string -> string -> M F unit;
  FM_Delete : string -> M F unit;
  FM_Exists : string -> M F bool;
  FM_List : string -> M F (list string);
  FM_ReadStream : string -> M F Stream;
  FM_ReadStreamAt : string -> Z -> M F Stream;
  FM_WriteStream : string -> Stream -> M F unit;
  FM_DeleteByPrefix : string -> M F unit;
}.

(** ** Paths *)

(** Names that stand for themselves in every storage. *)
Definition segment (x : string) : Prop := names x /\ has_byte slash x = false.
Definition plain (p : string) : Prop := exists l, l <> [] /\ Forall segment l /\ p = unparts l.
Definition under (prefix p : string) : bool := String.prefix prefix p.

Lemma segment_dec x : Decision (segment x).
Proof. unfold segment, names. apply _. Defined.
#[export] Existing Instance segment_dec.

Lemma plain_parts l : l <> [] -> Forall segment l -> parts (unparts l) = l.
Proof. intros Hl Hs. apply parts_unparts; [done|]. intros x Hx. rewrite list.Forall_forall in Hs. by apply Hs. Qed.
Lemma plain_inj l1 l2 : l1 <> [] -> l2 <> [] -> Forall segment l1 -> Forall segment l2 -> unparts l1 = unparts l2 -> l1 = l2.
Proof. intros H1 H2 S1 S2 E. rewrite <- (plain_parts l1 H1 S1), <- (plain_parts l2 H2 S2). by f_equal. Qed.

Lemma string_app_assoc (a b c : string) : (a +:+ b) +:+ c = a +:+ b +:+ c.
Proof. induction a as [|x a IH]; [done|]. by rewrite !String_app, IH. Qed.
Lemma string_app_empty s : s +:+ ""%string = s.
Proof. induction s as [|c s IH]; [done|]. by rewrite String_app, IH. Qed.
Lemma unparts_app l1 l2 : l1 <> [] -> l2 <> [] -> unparts (l1 ++ l2) = unparts l1 +:+ "/" +:+ unparts l2.
Proof.
  intros H1 H2. induction l1 as [|x l1 IH]; [done|]. destruct l1 as [|y l1]; [by destruct l2|].
  change (unparts ((x :: y :: l1) ++ l2)) with (x +:+ "/" +:+ unparts ((y :: l1) ++ l2)). rewrite IH by done.
  change (unparts (x :: y :: l1)) with (x +:+ "/" +:+ unparts (y :: l1)).
  by rewrite !string_app_assoc.
Qed.
Lemma under_parts l p : Forall segment l -> l <> [] -> plain p -> under (unparts l +:+ "/") p = true ->
  exists l2, l2 <> [] /\ Forall segment l2 /\ p = unparts (l ++ l2).
Proof.
  intros Hs Hl (l' & Hl' & Hs' & ->) (t & Ht)%prefix_spec.
  assert (E : l' = l ++ parts t).
  { rewrite <- (plain_parts l' Hl' Hs'), Ht. by rewrite string_app_assoc, parts_slash, (plain_parts l Hl Hs). }
  exists (parts t). split; [|split; [|by f_equal]].
  - destruct (parts_cons t) as (x & r & ->). done.
  - rewrite E in Hs'. by apply list.Forall_app in Hs' as [_ ?].
Qed.
Lemma parts_under l l2 : l <> [] -> l2 <> [] -> under (unparts l +:+ "/") (unparts (l ++ l2)) = true.
Proof.
  intros Hl Hl2. unfold under. rewrite prefix_spec. exists (unparts l2). rewrite unparts_app by done.
  by rewrite string_app_assoc.
Qed.

(** ** What a storage promises *)

(** One read on a state leaves every file as it was; a write or a removal touches
    the file it names only, and what a failed write leaves there is what was
    there, nothing, or a beginning of what was to be written. *)
Section promises.
Context {F : Type} (file : F -> string -> option string).
Definition same f f' : Prop := forall q, plain q -> file f' q = file f q.
Definition only p f f' : Prop := forall q, plain q -> q <> p -> file f' q = file f q.
Definition left_over f f' (p content : string) : Prop :=
  file f' p = file f p \/ file f' p = None \/ exists part rest, content = part +:+ rest /\ file f' p = Some part.
Lemma same_refl f : same f f.
Proof. by intros q. Qed.
Lemma same_trans f1 f2 f3 : same f1 f2 -> same f2 f3 -> same f1 f3.
Proof. intros H1 H2 q Hq. by rewrite H2, H1. Qed.
Lemma same_only p f f' : same f f' -> only p f f'.
Proof. intros H q Hq _. by apply H. Qed.
Lemma only_trans p f1 f2 f3 : only p f1 f2 -> only p f2 f3 -> only p f1 f3.
Proof. intros H1 H2 q Hq Hn. by rewrite H2, H1. Qed.
End promises.
(** What a listing calls a file below a directory: by its full path, by the name
    in the directory, or by that name and a slash. *)
Definition listing_name (dir e : string) : Prop :=
  under dir e = true /\ plain e \/ segment e \/ exists x, segment x /\ e = x +:+ "/".

Class StreamFileManagerLaws (F : Type) `{StreamFileManager F} : Type := {
  fm_inv : F -> Prop;
  fm_file : F -> string -> option string;
  fm_read_law : forall f p, fm_inv f -> plain p ->
    wp (FM_Read p) (fun r f' => fm_inv f' /\ same fm_file f f' /\ forall d, r = Ok d -> fm_file f p = Some d) f;
  fm_write_law : forall f p d, fm_inv f -> plain p ->
    wp (FM_Write p d) (fun r f' => fm_inv f' /\ only fm_file p f f' /\
      match r with Ok _ => fm_file f' p = Some d | _ => left_over fm_file f f' p d end) f;
  fm_delete_law : forall f p, fm_inv f -> plain p ->
    wp (FM_Delete p) (fun r f' => fm_inv f' /\ only fm_file p f f' /\
      (fm_file f' p = None \/ fm_file f' p = fm_file f p /\ r <> Ok tt)) f;
  fm_exists_law : forall f p, fm_inv f -> plain p ->
    wp (FM_Exists p) (fun r f' => fm_inv f' /\ same fm_file f f' /\ exists b, r = Ok b) f;
  fm_list_law : forall f p, fm_inv f ->
    wp (FM_List p) (fun r f' => fm_inv f' /\ same fm_file f f' /\ forall l e, r = Ok l -> e ∈ l -> listing_name p e) f;
  fm_read_stream_law : forall f p, fm_inv f -> plain p ->
    wp (FM_ReadStream p) (fun r f' => fm_inv f' /\ same fm_file f f' /\ forall s, r = Ok s -> sm_fault s = None -> fm_file f p = Some (sm_content s)) f;
  fm_write_stream_law : forall f p s, fm_inv f -> plain p ->
    wp (FM_WriteStream p s) (fun r f' => fm_inv f' /\ only fm_file p f f' /\
      match r with
      | Ok _ => sm_fault s = None /\ fm_file f' p = Some (sm_content s)
      | _ => left_over fm_file f f' p (sm_content s)
      end) f;
  fm_delete_prefix_law : forall f l, fm_inv f -> l <> [] -> Forall segment l ->
    wp (FM_DeleteByPrefix (unparts l +:+ "/")) (fun _ f' => fm_inv f' /\
      forall q, plain q -> fm_file f' q = fm_file f q \/ under (unparts l +:+ "/") q = true /\ fm_file f' q = None) f;
}.

(** Some storages have directories, which are in the way of a file of the same
    name, and files can be in the way of directories.  Nothing is in the way of a
    path when it is no directory and no part of it is a file. *)
Section ways.
Context {F : Type} (file : F -> string -> option string) (dir : F -> string -> Prop).
Definition free (f : F) (l : list string) : Prop :=
  ~ dir f (unparts l) /\ forall k, k <> [] -> k `prefix_of` l -> k <> l -> file f (unparts k) = None.
(** Every new directory is one of those that may be made. *)
Definition new_dirs (may : string -> Prop) (f f' : F) : Prop := forall q, plain q -> dir f' q -> dir f q \/ may q.
Definition no_dirs : F -> F -> Prop := new_dirs (fun _ => False).
Lemma no_dirs_refl f : no_dirs f f.
Proof. intros q _ Hq. by left. Qed.
Lemma new_dirs_trans may f1 f2 f3 : new_dirs may f1 f2 -> new_dirs may f2 f3 -> new_dirs may f1 f3.
Proof. intros H12 H23 q Hq H3. destruct (H23 q Hq H3) as [H2|?]; [by apply H12|by right]. Qed.
Lemma no_new_dirs may f f' : no_dirs f f' -> new_dirs may f f'.
Proof. intros H q Hq Hd. by destruct (H q Hq Hd) as [?|[]]; left. Qed.
End ways.
(** A directory that has to be there for a file. *)
Definition on_the_way (p q : string) : Prop := under (q +:+ "/") p = true.

(** A storage that works.  What is there can be read and removed, and what has
    nothing in its way can be written, with the directories on its way made and
    no others; [Exists] tells files and directories from nothing.  [List] of a
    directory below which there is a file finds every file in it, under its full
    path or its name there, and names nothing that is not there: a file below the
    directory by its full path, or what is in the directory by its name, which
    may end in a slash.  This is what the storage in memory does (full paths),
    that on a local disk (names), and what S3 is documented to do (names, with a
    slash when there is more below). *)
Class ReliableStorage (F : Type) `{StreamFileManagerLaws F} : Type := {
  fm_dir : F -> string -> Prop;
  fm_read_dirs : forall f p, fm_inv f -> plain p -> no_dirs fm_dir f (snd (FM_Read p f));
  fm_exists_dirs : forall f p, fm_inv f -> plain p -> no_dirs fm_dir f (snd (FM_Exists p f));
  fm_list_dirs : forall f p, fm_inv f -> no_dirs fm_dir f (snd (FM_List p f));
  fm_read_stream_dirs : forall f p, fm_inv f -> plain p -> no_dirs fm_dir f (snd (FM_ReadStream p f));
  fm_delete_dirs : forall f p, fm_inv f -> plain p -> no_dirs fm_dir f (snd (FM_Delete p f));
  fm_delete_prefix_dirs : forall f l, fm_inv f -> l <> [] -> Forall segment l -> no_dirs fm_dir f (snd (FM_DeleteByPrefix (unparts l +:+ "/") f));
  fm_write_dirs : forall f p d, fm_inv f -> plain p -> new_dirs fm_dir (on_the_way p) f (snd (FM_Write p d f));
  fm_write_stream_dirs : forall f p s, fm_inv f -> plain p -> new_dirs fm_dir (on_the_way p) f (snd (FM_WriteStream p s f));
  fm_read_ok : forall f p d, fm_inv f -> plain p -> fm_file f p = Some d -> fst (FM_Read p f) = Ok d;
  fm_read_stream_ok : forall f p d, fm_inv f -> plain p -> fm_file f p = Some d -> fst (FM_ReadStream p f) = Ok (whole d);
  fm_delete_ok : forall f p d, fm_inv f -> plain p -> fm_file f p = Some d -> fst (FM_Delete p f) = Ok tt;
  fm_write_ok : forall f l d, fm_inv f -> l <> [] -> Forall segment l -> free fm_file fm_dir f l -> fst (FM_Write (unparts l) d f) = Ok tt;
  fm_write_stream_ok : forall f l s, fm_inv f -> l <> [] -> Forall segment l -> free fm_file fm_dir f l -> sm_fault s = None ->
    fst (FM_WriteStream (unparts l) s f) = Ok tt;
  fm_exists_ok : forall f p, fm_inv f -> plain p ->
    exists b, fst (FM_Exists p f) = Ok b /\ (b = true <-> is_Some (fm_file f p) \/ fm_dir f p);
  fm_list_ok : forall f l, fm_inv f -> l <> [] -> Forall segment l ->
    (exists q, plain q /\ under (unparts l +:+ "/") q = true /\ is_Some (fm_file f q)) ->
    exists names, fst (FM_List (unparts l +:+ "/") f) = Ok names /\
      (forall e, e ∈ names ->
         plain e /\ under (unparts l +:+ "/") e = true /\ is_Some (fm_file f e) \/
         exists x, segment x /\ (e = x \/ e = x +:+ "/") /\
           ((exists more, Forall segment more /\ is_Some (fm_file f (unparts (l ++ x :: more)))) \/ fm_dir f (unparts (l ++ [x])))) /\
      forall x, segment x -> is_Some (fm_file f (unparts (l ++ [x]))) -> x ∈ names \/ unparts (l ++ [x]) ∈ names;
}.

(** ** In memory *)

Module InMemory.
Record FileManager : Type := mkFiles { files : gmap string string; lists : N }.
Definition New : FileManager := mkFiles ∅ 0.

Definition not_found (path : string) : error := ENew ("file not found: " +:+ path).
Definition Read (path : string) : M FileManager string :=
  let! fm := get in match files fm !! path with Some data => ret data | None => fail (not_found path) end.
Definition set_file (path data : string) : M FileManager unit := modify (fun fm => mkFiles (<[path := data]> (files fm)) (lists fm)).
Definition Write (path data : string) : M FileManager unit := set_file path data.
Definition Delete (path : string) : M FileManager unit := modify (fun fm => mkFiles (delete path (files fm)) (lists fm)).
Definition Exists (path : string) : M FileManager bool := let! fm := get in ret (bool_decide (is_Some (files fm !! path))).

Definition List `{MapOrder} (dir : string) : M FileManager (list string) :=
  let! fm := get in
  do! modify (fun fm => mkFiles (files fm) (lists fm + 1)) ;;
  ret (List.filter (under dir) (map fst (range (lists fm) (files fm)))).

Definition ReadStream (path : string) : M FileManager Stream :=
  let! fm := get in match files fm !! path with Some data => ret (whole data) | None => fail (not_found path) end.
(** A negative offset makes a slice with a negative index. *)
Definition ReadStreamAt (path : string) (offset : Z) : M FileManager Stream :=
  let! fm := get in
  match files fm !! path with
  | None => fail (not_found path)
  | Some data =>
      let size := String.length data in
      if (Z.of_nat size <=? offset)%Z then ret (whole "")
      else if (offset <? 0)%Z then lift (Panic "slice bounds out of range")
      else ret (whole (String.substring (Z.to_nat offset) (size - Z.to_nat offset) data))
  end.
Definition WriteStream (path : string) (data : Stream) : M FileManager unit :=
  match sm_fault data with
  | Some e => fail (EWrap "failed to read stream data" e)
  | None => set_file path (sm_content data)
  end.
Definition DeleteByPrefix (prefix : string) : M FileManager unit :=
  modify (fun fm => mkFiles (filter (fun kv => under prefix kv.1 = false) (files fm)) (lists fm)).
End InMemory.

#[export] Instance memory_files `{MapOrder} : StreamFileManager InMemory.FileManager := {
  FM_Read := InMemory.Read; FM_Write := InMemory.Write; FM_Delete := InMemory.Delete; FM_Exists := InMemory.Exists;
  FM_List := InMemory.List; FM_ReadStream := InMemory.ReadStream; FM_ReadStreamAt := InMemory.ReadStreamAt;
  FM_WriteStream := InMemory.WriteStream; FM_DeleteByPrefix := InMemory.DeleteByPrefix;
}.

Section memory.
Context `{MapOrder}.
Implicit Types fm : InMemory.FileManager.
Import InMemory.
Definition keys_plain fm : Prop := forall p, is_Some (files fm !! p) -> plain p.
Definition content_of fm (p : string) : option string := files fm !! p.

Lemma keys_insert fm p d n : keys_plain fm -> plain p -> keys_plain (mkFiles (<[p := d]> (files fm)) n).
Proof. intros Hk Hp q Hq. simpl in Hq. rewrite lookup_insert in Hq. case_decide; [by subst|by apply Hk]. Qed.
Lemma only_insert fm p d n : only content_of p fm (mkFiles (<[p := d]> (files fm)) n).
Proof. intros q _ Hq. unfold content_of. simpl. by rewrite lookup_insert_ne by done. Qed.
Lemma listed fm dir n p : p ∈ List.filter (under dir) (map fst (range n (files fm))) <-> under dir p = true /\ is_Some (files fm !! p).
Proof.
  rewrite list_elem_of_In, filter_In, <- list_elem_of_In, list_elem_of_fmap. setoid_rewrite range_perm.
  split.
  - intros [([q d] & -> & Hq%elem_of_map_to_list) Hu]. by eauto.
  - intros [Hu [d Hd]]. split; [|done]. exists (p, d). by rewrite elem_of_map_to_list.
Qed.
End memory.

#[export, program] Instance memory_laws `{MapOrder} : StreamFileManagerLaws InMemory.FileManager := {
  fm_inv := keys_plain; fm_file := content_of;
}.
Next Obligation.
  intros ? fm p Hk Hp. unfold FM_Read, memory_files, InMemory.Read. do 2 wp_step. unfold content_of.
  destruct (InMemory.files fm !! p) as [d|]; wp_step; (split; [done|]); (split; [apply same_refl|]); [by intros d' [= ->]|done].
Qed.
Next Obligation.
  intros ? fm p d Hk Hp. split; [by apply keys_insert|]. split; [apply only_insert|]. unfold content_of. simpl. by rewrite lookup_insert_eq.
Qed.
Next Obligation.
  intros ? fm p Hk Hp. split; [|split].
  - intros q Hq. simpl in Hq. rewrite lookup_delete in Hq. case_decide; [by destruct Hq|by apply Hk].
  - intros q _ Hq. unfold content_of. simpl. by rewrite lookup_delete_ne by done.
  - left. unfold content_of. simpl. by rewrite lookup_delete_eq.
Qed.
Next Obligation. intros ? fm p Hk Hp. split; [done|]. split; [apply same_refl|]. by eexists. Qed.
Next Obligation.
  intros ? fm p Hk. split; [done|]. split; [by intros q|]. intros l e [= <-] [Hu Hs]%listed. left. split; [done|by apply Hk].
Qed.
Next Obligation.
  intros ? fm p Hk Hp. unfold FM_ReadStream, memory_files, InMemory.ReadStream. do 2 wp_step. unfold content_of.
  destruct (InMemory.files fm !! p) as [d|]; wp_step; (split; [done|]); (split; [apply same_refl|]); [by intros s [= <-]|done].
Qed.
Next Obligation.
  intros ? fm p [d [e|]] Hk Hp; unfold FM_WriteStream, memory_files, InMemory.WriteStream; simpl.
  - wp_step. split; [done|]. split; [apply same_only, same_refl|]. by left.
  - split; [by apply keys_insert|]. split; [apply only_insert|]. split; [done|]. unfold content_of. simpl. by rewrite lookup_insert_eq.
Qed.
Next Obligation.
  intros ? fm l Hk Hl Hs. split.
  - intros q [d Hq]. simpl in Hq. apply map_lookup_filter_Some in Hq as [Hq _]. by apply Hk.
  - intros q _. unfold content_of. simpl. destruct (under (unparts l +:+ "/") q) eqn:Hu.
    + right. split; [done|]. apply map_lookup_filter_None. right. intros d _. simpl. by rewrite Hu.
    + left. destruct (InMemory.files fm !! q) as [d|] eqn:E; [|apply map_lookup_filter_None; by left].
      by apply map_lookup_filter_Some.
Qed.

(** There are no directories in memory. *)
#[export, program] Instance memory_reliable `{MapOrder} : ReliableStorage InMemory.FileManager := { fm_dir _ _ := False }.
Next Obligation. by intros ? f p _ _ q _. Qed.
Next Obligation. by intros ? f p _ _ q _. Qed.
Next Obligation. by intros ? f p _ q _. Qed.
Next Obligation. by intros ? f p _ _ q _. Qed.
Next Obligation. by intros ? f p _ _ q _. Qed.
Next Obligation. by intros ? f l _ _ _ q _. Qed.
Next Obligation. by intros ? f p d _ _ q _. Qed.
Next Obligation. by intros ? f p d _ _ q _. Qed.
Next Obligation. intros ? f p d _ _ Hd. unfold FM_Read, memory_files, InMemory.Read, bind, get. simpl in *. unfold content_of in Hd. by rewrite Hd. Qed.
Next Obligation. intros ? f p d _ _ Hd. unfold FM_ReadStream, memory_files, InMemory.ReadStream, bind, get. simpl in *. unfold content_of in Hd. by rewrite Hd. Qed.
Next Obligation. done. Qed.
Next Obligation. done. Qed.
Next Obligation. intros ? f l [d e] _ _ _ _ He. simpl in He. by rewrite He. Qed.
Next Obligation.
  intros ? f p _ _. exists (bool_decide (is_Some (InMemory.files f !! p))). split; [done|]. rewrite bool_decide_eq_true. unfold fm_file, memory_laws, content_of.
  split; [by left|by intros [|[]]].
Qed.
Next Obligation.
  intros ? f l Hk Hl Hs _. eexists. split; [reflexivity|]. split.
  - intros e [Hu He]%listed. left. split_and!; [by apply Hk|done|done].
  - intros x Hx Hf. right. apply listed. split; [by apply parts_under|done].
Qed.
