(* ===== verification/LocalFiles.v ===== *)
(** The storage in a directory of the panel's own disk ([internal/files/local.go]),
    over a tree of directories and files as [os.Root] gives access to it: paths
    that lead out of the root are refused, and so is what a file system refuses;
    other failures of the disk and symbolic links are not in the model. *)

From S2P Require Import Prelude.
From S2P Require Import GoRuntime.
From stdpp Require Import base tactics strings list gmap numbers.
From Stdlib Require Import NArith ZArith Ascii.
From S2P Require Import FilePath.
From S2P Require Import FileStore.

(** ** The file system *)

Inductive entry : Type := Directory | File (content : string).
Abbreviation tree := (gmap (list string) entry).
Record Root : Type := mkRoot { ro_tree : tree; ro_listings : N }.

Definition ErrNotExist : error := ENew "file does not exist".
Definition ErrExist : error := ENew "file already exists".
Definition ErrEscapes : error := ENew "path escapes from parent".
Definition ErrIsDir : error := ENew "is a directory".
Definition ErrNotDir : error := ENew "not a directory".
Definition ErrNotEmpty : error := ENew "directory not empty".
Definition ErrReadDir : error := ENew "readdirent: not a directory".

(** Where a path leads from the root, by its names. *)
Definition locate (p : string) : result (list string) :=
  if String.eqb p "" || rooted p then Err ErrEscapes
  else match place p with ".."%string :: _ => Err ErrEscapes | l => Ok l end.
Definition entry_at (t : tree) (l : list string) : option entry := match l with [] => Some Directory | _ => t !! l end.
Definition parent (l : list string) : list string := removelast l.

(** Why there is nothing at a path: a name on the way is a file, or is not there. *)
Definition blocked (t : tree) (l : list string) : bool :=
  existsb (fun i => match t !! take i l with Some (File _) => true | _ => false end) (seq 1 (length l - 1)).
Definition nothing_at (t : tree) (l : list string) : error := if blocked t l then ErrNotDir else ErrNotExist.

Definition at_path {B} (p : string) (k : list string -> M Root B) : M Root B := let! l := lift (locate p) in k l.
Definition put (l : list string) (e : entry) : M Root unit := modify (fun r => mkRoot (<[l := e]> (ro_tree r)) (ro_listings r)).
Definition drop_entry (l : list string) : M Root unit := modify (fun r => mkRoot (delete l (ro_tree r)) (ro_listings r)).
Definition children (t : tree) (l : list string) : tree := filter (fun kv => parent kv.1 = l) t.

Definition Stat (p : string) : M Root entry := at_path p (fun l =>
  let! r := get in match entry_at (ro_tree r) l with Some e => ret e | None => fail (nothing_at (ro_tree r) l) end).
Definition ReadFile (p : string) : M Root string :=
  let! e := Stat p in match e with File content => ret content | Directory => fail ErrIsDir end.
(** [WriteFile], and [OpenFile] to write with what is written to the end of it. *)
Definition WriteFile (p content : string) : M Root unit := at_path p (fun l =>
  let! r := get in
  match entry_at (ro_tree r) l, entry_at (ro_tree r) (parent l) with
  | Some Directory, _ => fail ErrIsDir
  | _, Some Directory => put l (File content)
  | _, _ => fail (nothing_at (ro_tree r) l)
  end).
Definition Mkdir (p : string) : M Root unit := at_path p (fun l =>
  let! r := get in
  match entry_at (ro_tree r) l, entry_at (ro_tree r) (parent l) with
  | Some _, _ => fail ErrExist
  | None, Some Directory => put l Directory
  | None, _ => fail (nothing_at (ro_tree r) l)
  end).
Definition Remove (p : string) : M Root unit := at_path p (fun l =>
  let! r := get in
  match entry_at (ro_tree r) l with
  | None => fail (nothing_at (ro_tree r) l)
  | Some (File _) => drop_entry l
  | Some Directory => if decide (children (ro_tree r) l = ∅ /\ l <> []) then drop_entry l else fail ErrNotEmpty
  end).
(** [Open] and [ReadDir(-1)]: the names in a directory, in the order of the disk. *)
Definition ReadDir `{MapOrder} (p : string) : M Root (list (string * entry)) := at_path p (fun l =>
  let! r := get in
  match entry_at (ro_tree r) l with
  | None => fail (nothing_at (ro_tree r) l)
  | Some (File _) => fail ErrReadDir
  | Some Directory =>
      do! modify (fun r => mkRoot (ro_tree r) (ro_listings r + 1)) ;;
      ret (map (fun kv => (List.last kv.1 ""%string, kv.2)) (range (ro_listings r) (children (ro_tree r) l)))
  end).

(** ** The storage *)

Module Local.
Section local.
Context `{MapOrder}.

Definition Read (path : string) : M Root string := wrap "failed to read file" (ReadFile path).
Definition Exists (path : string) : M Root bool :=
  let! r := attempt (Stat path) in match r with Ok _ => ret true | Err _ => ret false | Panic w => lift (Panic w) end.

(** The recursion goes up the path, which gets shorter. *)
Fixpoint mkdirAll (fuel : nat) (path : string) : M Root unit :=
  match fuel with
  | O => ret tt
  | S fuel =>
      if String.eqb path "" || String.eqb path "." then ret tt
      else
        let! there := Exists path in
        if there then ret tt
        else
          let up := Dir path in
          do! (if negb (String.eqb up path) && negb (String.eqb up ".") then wrap ("failed to create directory: " +:+ up) (mkdirAll fuel up) else ret tt) ;;
          let! made := attempt (Mkdir path) in
          match made with
          | Ok _ => ret tt
          | Err e => if errors_is e ErrExist then ret tt else fail (EWrap ("failed to create directory: " +:+ path) e)
          | Panic w => lift (Panic w)
          end
  end.
Definition make_dirs (path : string) : M Root unit :=
  let! there := Exists path in
  if there then ret tt
  else wrap ("failed to create directories: " +:+ Dir path) (mkdirAll (String.length (Dir path)) (Dir path)).

Definition Write (path data : string) : M Root unit := do! make_dirs path ;; wrap "failed to write file" (WriteFile path data).
Definition Delete (path : string) : M Root unit := wrap "failed to delete file" (Remove path).
(** [Open] fails, or [ReadDir] does. *)
Definition which (opening reading : string) (e : error) : string := if errors_is e ErrReadDir then reading else opening.
Definition List (dir : string) : M Root (list string) :=
  let! entries := attempt (ReadDir dir) in
  match entries with
  | Ok entries => ret (map fst entries)
  | Err e => fail (EWrap (which "failed to open directory" "failed to read directory" e) e)
  | Panic w => lift (Panic w)
  end.

(** A directory opens, but cannot be read. *)
Definition ReadStream (path : string) : M Root Stream :=
  let! e := wrap "failed to open file for reading" (Stat path) in
  match e with File content => ret (whole content) | Directory => ret (mkStream "" (Some ErrIsDir)) end.
Definition ReadStreamAt (path : string) (offset : Z) : M Root Stream :=
  let! e := wrap "failed to open file for reading at offset" (Stat path) in
  if (offset <? 0)%Z then fail (EWrap "failed to seek to offset" (ENew "invalid argument"))
  else match e with
       | File content => ret (whole (String.substring (Z.to_nat offset) (String.length content - Z.to_nat offset) content))
       | Directory => ret (mkStream "" (Some ErrIsDir))
       end.
(** What was read before the reader failed has been written. *)
Definition WriteStream (path : string) (data : Stream) : M Root unit :=
  do! make_dirs path ;;
  do! wrap "failed to open file for writing" (WriteFile path (sm_content data)) ;;
  match sm_fault data with Some e => fail (EWrap "failed to write stream data" e) | None => ret tt end.

Definition remove_file (path : string) : M Root unit :=
  let! r := attempt (Remove path) in
  match r with
  | Ok _ => ret tt
  | Err e => if errors_is e ErrNotExist then ret tt else fail e
  | Panic w => lift (Panic w)
  end.
(** The recursion goes down the tree. *)
Fixpoint removeDirRecursive (fuel : nat) (path : string) : M Root unit :=
  match fuel with
  | O => ret tt
  | S fuel =>
      let! entries := attempt (ReadDir path) in
      match entries with
      | Panic w => lift (Panic w)
      | Err e => if errors_is e ErrNotExist then ret tt else fail e
      | Ok entries =>
          do! for_each entries (fun en =>
            let childPath := Join [path; en.1] in
            match en.2 with Directory => removeDirRecursive fuel childPath | File _ => remove_file childPath end) ;;
          Remove path
      end
  end.
(** No path of the tree is longer than this. *)
Definition depth (t : tree) : nat := S (map_fold (fun l _ n => max (length l) n) 0 t).

Definition DeleteByPrefix (prefix : string) : M Root unit :=
  let dir := Dir prefix in
  let base := Base prefix in
  let! entries := attempt (ReadDir dir) in
  match entries with
  | Panic w => lift (Panic w)
  | Err e => if errors_is e ErrNotExist then ret tt else fail (EWrap (which "opening prefix directory" "reading prefix directory" e) e)
  | Ok entries =>
      for_each entries (fun en =>
        let fullPath := Join [dir; en.1] in
        if negb (String.prefix base en.1) && negb (String.eqb en.1 base) then ret tt
        else match en.2 with
             | Directory => let! r := get in wrap ("removing directory " +:+ fullPath) (removeDirRecursive (depth (ro_tree r)) fullPath)
             | File _ => wrap ("removing file " +:+ fullPath) (remove_file fullPath)
             end)
  end.
End local.
End Local.

#[export] Instance local_files `{MapOrder} : StreamFileManager Root := {
  FM_Read := Local.Read; FM_Write := Local.Write; FM_Delete := Local.Delete; FM_Exists := Local.Exists; FM_List := Local.List;
  FM_ReadStream := Local.ReadStream; FM_ReadStreamAt := Local.ReadStreamAt; FM_WriteStream := Local.WriteStream;
  FM_DeleteByPrefix := Local.DeleteByPrefix;
}.

(** ** Plain paths *)

Lemma segments_down l : Forall segment l -> down l = l.
Proof.
  induction 1 as [|x l Hx Hl IH]; [done|]. unfold down in *. simpl. destruct Hx as [(H1 & H2 & _) _].
  destruct (String.eqb_spec x ""); [done|]. destruct (String.eqb_spec x "."); [done|]. simpl. by rewrite IH.
Qed.
Lemma segments_no_dotdot l : Forall segment l -> no_dotdot l.
Proof. intros Hl x Hx. rewrite list.Forall_forall in Hl. by destruct (Hl x Hx) as [(_ & _ & ?) _]. Qed.
Lemma segments_rooted l : l <> [] -> Forall segment l -> rooted (unparts l) = false.
Proof.
  intros Hl Hs. apply rooted_unparts; [done|]. intros x Hx. rewrite list.Forall_forall in Hs. by destruct (Hs x Hx) as [(? & _) ?].
Qed.
Lemma segments_nonempty l : l <> [] -> Forall segment l -> unparts l <> ""%string.
Proof. intros Hl Hs. destruct l as [|x l]; [done|]. apply unparts_nonempty. apply list.Forall_cons in Hs as [[(? & _) _] _]. done. Qed.
Lemma place_segments l : l <> [] -> Forall segment l -> place (unparts l) = l.
Proof.
  intros Hl Hs. unfold place. rewrite segments_rooted, plain_parts by done. rewrite resolve_down by by apply segments_no_dotdot.
  by rewrite app_nil_r, rev_involutive, segments_down.
Qed.
Lemma locate_plain l : l <> [] -> Forall segment l -> locate (unparts l) = Ok l.
Proof.
  intros Hl Hs. unfold locate. rewrite segments_rooted by done. destruct (String.eqb_spec (unparts l) "") as [E|]; [by destruct (segments_nonempty l Hl Hs)|].
  simpl. rewrite place_segments by done. destruct l as [|x l]; [done|]. apply list.Forall_cons in Hs as [[(_ & _ & Hx) _] _].
  destruct (decide (x = "..")) as [|_]; [done|]. destruct x as [|a [|b [|d x]]]; try done; repeat (case_match; try done).
Qed.

Lemma locate_plain_slash l : l <> [] -> Forall segment l -> locate (unparts l +:+ "/") = Ok l.
Proof.
  intros Hl Hs. pose proof (locate_plain l Hl Hs) as E. unfold locate in *.
  assert (Hr : rooted (unparts l +:+ "/") = rooted (unparts l)) by (apply rooted_cons; by apply segments_nonempty).
  assert (Hp : place (unparts l +:+ "/") = place (unparts l)).
  { unfold place. rewrite Hr. change "/"%string with ("/" +:+ ""). rewrite parts_slash, resolve_app. done. }
  rewrite Hr, Hp. destruct (String.eqb_spec (unparts l) "") as [E0|_]; [by destruct (segments_nonempty l Hl Hs)|].
  destruct (String.eqb_spec (unparts l +:+ "/") "") as [E0|_]; [by destruct (unparts l)|exact E].
Qed.

Lemma cut_last_at c a b : has_byte c b = false -> cut_last c (a +:+ String c b) = Some (a, b).
Proof.
  intros Hb. assert (Hn : cut_last c b = None).
  { clear a. unfold has_byte in Hb. revert Hb. induction b as [|d b IH]; [done|]. simpl.
    destruct (Ascii.eqb d c); [done|]. intros Hb. rewrite IH; [done|]. by destruct (cut_byte c b) as [[]|]. }
  induction a as [|d a IH]; [simpl; by rewrite Hn, Ascii.eqb_refl|]. rewrite String_app. simpl. by rewrite IH.
Qed.
Lemma cut_last_none c b : has_byte c b = false -> cut_last c b = None.
Proof.
  unfold has_byte. induction b as [|d b IH]; [done|]. simpl. destruct (Ascii.eqb d c); [done|]. intros Hb. rewrite IH; [done|].
  by destruct (cut_byte c b) as [[]|].
Qed.

Lemma Clean_plain l : l <> [] -> Forall segment l -> Clean (unparts l) = unparts l.
Proof.
  intros Hl Hs. unfold Clean. destruct (String.eqb_spec (unparts l) "") as [E|_]; [by destruct (segments_nonempty l Hl Hs)|].
  rewrite segments_rooted, place_segments by done. by destruct l.
Qed.
Lemma Clean_plain_slash l : l <> [] -> Forall segment l -> Clean (unparts l +:+ "/") = unparts l.
Proof.
  intros Hl Hs. unfold Clean. destruct (String.eqb_spec (unparts l +:+ "/") "") as [E|_]; [by destruct (unparts l)|].
  assert (Hr : rooted (unparts l +:+ "/") = false) by (rewrite rooted_cons by (by apply segments_nonempty); by apply segments_rooted).
  rewrite Hr. unfold place. rewrite Hr. change "/"%string with ("/" +:+ ""). rewrite parts_slash, plain_parts by done.
  rewrite resolve_app, (resolve_down false [] l) by (by apply segments_no_dotdot). simpl. rewrite app_nil_r, rev_involutive, segments_down by done.
  by destruct l.
Qed.

Lemma unparts_snoc l x : l <> [] -> unparts (l ++ [x]) = unparts l +:+ "/" +:+ x.
Proof. intros Hl. by rewrite unparts_app. Qed.
Lemma segments_snoc l x : Forall segment (l ++ [x]) -> Forall segment l /\ segment x.
Proof. intros [Hl Hx]%list.Forall_app. split; [done|]. by inversion Hx. Qed.
Lemma parent_snoc l x : parent (l ++ [x]) = l.
Proof. unfold parent. apply removelast_last. Qed.

Lemma Dir_plain l x : Forall segment (l ++ [x]) -> Dir (unparts (l ++ [x])) = match l with [] => "."%string | _ => unparts l end.
Proof.
  intros [Hs [_ Hx]]%segments_snoc. unfold Dir, dir_part. destruct l as [|y l]; [simpl; by rewrite cut_last_none|].
  rewrite unparts_snoc by done. change ("/" +:+ x) with (String slash x). rewrite cut_last_at by done. by apply Clean_plain_slash.
Qed.
Lemma Dir_prefix l : l <> [] -> Forall segment l -> Dir (unparts l +:+ "/") = unparts l.
Proof. intros Hl Hs. unfold Dir, dir_part. change "/"%string with (String slash "") at 1. rewrite cut_last_at by done. by apply Clean_plain_slash. Qed.
Lemma Base_prefix l x : Forall segment (l ++ [x]) -> Base (unparts (l ++ [x]) +:+ "/") = x.
Proof.
  intros Hs. unfold Base. destruct (String.eqb_spec (unparts (l ++ [x]) +:+ "/") "") as [E|_]; [by destruct (unparts (l ++ [x]))|].
  change "/"%string with ("/" +:+ ""). rewrite parts_slash, plain_parts by (done || by destruct l). simpl.
  rewrite rev_app_distr, rev_app_distr. simpl. apply segments_snoc in Hs as [_ [(Hx & _) _]]. by destruct (String.eqb_spec x "").
Qed.
Lemma Join_plain l x : l <> [] -> Forall segment (l ++ [x]) -> FilePath.Join [unparts l; x] = unparts (l ++ [x]).
Proof.
  intros Hl Hs. unfold FilePath.Join. pose proof (segments_snoc _ _ Hs) as [Hs' _].
  destruct (String.eqb_spec (unparts l) "") as [E|_]; [by destruct (segments_nonempty l Hl Hs')|].
  change (unparts [unparts l; x]) with (unparts l +:+ "/" +:+ x). rewrite <- unparts_snoc by done. apply Clean_plain; [by destruct l|done].
Qed.

(** ** The tree *)

(** Every entry has a name and lies in a directory. *)
Definition closed (r : Root) : Prop := forall l e, ro_tree r !! l = Some e ->
  l <> [] /\ Forall segment l /\ entry_at (ro_tree r) (parent l) = Some Directory.
Definition file_at (r : Root) (p : string) : option string :=
  match ro_tree r !! parts p with Some (File content) => Some content | _ => None end.
(** Only directories appear. *)
Definition grows (r r' : Root) : Prop := closed r -> closed r' /\ forall l,
  ro_tree r' !! l = ro_tree r !! l \/ ro_tree r !! l = None /\ ro_tree r' !! l = Some Directory.
(** Only what is at a path and below goes. *)
Definition prunes (l : list string) (r r' : Root) : Prop := closed r -> closed r' /\ forall k,
  ro_tree r' !! k = ro_tree r !! k \/ l `prefix_of` k /\ ro_tree r' !! k = None.

#[export] Instance grows_preorder : PreOrder grows.
Proof.
  split; [intros r Hr; split; [done|by left]|]. intros r1 r2 r3 H12 H23 H1. destruct (H12 H1) as [H2 G12]. destruct (H23 H2) as [H3 G23].
  split; [done|]. intros l. destruct (G12 l) as [E|[E1 E2]], (G23 l) as [E'|[E1' E2']]; [left; congruence|right; split; congruence..].
Qed.
#[export] Instance prunes_preorder l : PreOrder (prunes l).
Proof.
  split; [intros r Hr; split; [done|by left]|]. intros r1 r2 r3 H12 H23 H1. destruct (H12 H1) as [H2 G12]. destruct (H23 H2) as [H3 G23].
  split; [done|]. intros k. destruct (G12 k) as [E|[Hk E]], (G23 k) as [E'|[Hk' E']]; [left; congruence|right; split; [done|congruence]..].
Qed.
Lemma prunes_deeper l l' r r' : l `prefix_of` l' -> prunes l' r r' -> prunes l r r'.
Proof. intros Hl Hp Hr. destruct (Hp Hr) as [H1 H2]. split; [done|]. intros k. destruct (H2 k) as [?|[Hk ?]]; [by left|right]. split; [|done]. by etransitivity. Qed.

Lemma closed_put r l e n : closed r -> l <> [] -> Forall segment l -> entry_at (ro_tree r) (parent l) = Some Directory ->
  (ro_tree r !! l = Some Directory -> e = Directory) -> closed (mkRoot (<[l := e]> (ro_tree r)) n).
Proof.
  intros Hr Hl Hs Hp He k e' Hk. simpl in *.
  assert (Hat : forall j, entry_at (ro_tree r) j = Some Directory -> entry_at (<[l := e]> (ro_tree r)) j = Some Directory).
  { intros j Hj. destruct j as [|y j]; [done|]. unfold entry_at in *. rewrite lookup_insert. case_decide as E; [|done].
    subst l. f_equal. by apply He. }
  destruct (decide (l = k)) as [<-|Hne]; [split_and!; [done|done|by apply Hat]|]. rewrite lookup_insert_ne in Hk by done.
  destruct (Hr _ _ Hk) as (? & ? & ?). split_and!; [done|done|by apply Hat].
Qed.
Lemma closed_delete r l n : closed r -> (ro_tree r !! l = Some Directory -> children (ro_tree r) l = ∅) -> closed (mkRoot (delete l (ro_tree r)) n).
Proof.
  intros Hr Hl k e Hk. simpl in *. apply lookup_delete_Some in Hk as [Hne Hk]. destruct (Hr _ _ Hk) as (H1 & H2 & H3).
  split_and!; [done|done|]. destruct (parent k) as [|y j] eqn:E; [done|]. simpl in *. rewrite lookup_delete_ne; [done|].
  intros ->. specialize (Hl H3). assert (Hc : children (ro_tree r) (y :: j) !! k = Some e) by (by apply map_lookup_filter_Some). by rewrite Hl in Hc.
Qed.

(** ** The operations *)

Section operations.
Context `{MapOrder}.

(** A path below the root, or the root. *)
Definition dir_path (p : string) (l : list string) : Prop := Forall segment l /\ p = match l with [] => "."%string | _ => unparts l end.

Lemma locate_dir p l : dir_path p l -> locate p = Ok l.
Proof. intros [Hs ->]. destruct l as [|x l]; [done|]. by apply locate_plain. Qed.
Lemma wp_at {B} p l (k : list string -> M Root B) Q r : dir_path p l -> wp (k l) Q r -> wp (at_path p k) Q r.
Proof. intros Hp Hk. unfold at_path. wp_step. wp_step. by rewrite (locate_dir p l). Qed.

Lemma Exists_pure p r : wp (Local.Exists p) (fun res r' => r' = r /\ exists b, res = Ok b) r.
Proof.
  unfold Local.Exists, Stat, at_path. do 2 wp_step. do 2 wp_step. destruct (locate p) as [l|e|w] eqn:E; simpl.
  - do 2 wp_step. destruct (entry_at (ro_tree r) l); do 2 wp_step; eauto.
  - wp_step. eauto.
  - exfalso. unfold locate in E. repeat case_match; done.
Qed.
Lemma Stat_there p l r : dir_path p l ->
  wp (Stat p) (fun res r' => r' = r /\ forall e, res = Ok e -> entry_at (ro_tree r) l = Some e) r.
Proof.
  intros Hp. eapply wp_at; [done|]. do 2 wp_step. destruct (entry_at (ro_tree r) l) as [e|]; wp_step; (split; [done|]); [by intros e' [= ->]|done].
Qed.

(** The directory above. *)
Lemma dir_path_up l x : Forall segment (l ++ [x]) -> dir_path (Dir (unparts (l ++ [x]))) l.
Proof. intros Hs. split; [by apply segments_snoc in Hs as [? _]|by apply Dir_plain]. Qed.
Lemma plain_dir l : l <> [] -> Forall segment l -> dir_path (unparts l) l.
Proof. intros Hl Hs. split; [done|]. by destruct l. Qed.

Lemma Mkdir_grows p l : dir_path p l -> moves grows (Mkdir p).
Proof.
  intros Hp r Hr. revert r Hr. enough (Hw : forall r, wp (Mkdir p) (fun _ r' => grows r r') r) by (intros r Hr; by apply Hw).
  intros r. eapply wp_at; [done|]. do 2 wp_step. destruct (entry_at (ro_tree r) l) as [e|] eqn:El; [by wp_step|].
  destruct (entry_at (ro_tree r) (parent l)) as [[|c]|] eqn:Ep; [|by wp_step..].
  assert (Hl : l <> []) by (by intros ->). assert (Hn : ro_tree r !! l = None) by (by destruct l). intros Hr. split.
  - apply closed_put; [done|done|by destruct Hp|done|congruence].
  - intros k. simpl. destruct (decide (l = k)) as [<-|Hne]; [right; by rewrite lookup_insert_eq|left; by rewrite lookup_insert_ne].
Qed.

Lemma Exists_moves P `{!PreOrder P} p : moves P (Local.Exists p).
Proof. intros r. destruct (Exists_pure p r) as [-> _]. reflexivity. Qed.

Lemma mkdirAll_grows fuel p l : dir_path p l -> moves grows (Local.mkdirAll fuel p).
Proof.
  revert p l. induction fuel as [|fuel IH]; intros p l Hp; [apply (moves_ret grows)|]. simpl.
  destruct (String.eqb p "" || String.eqb p ".") eqn:Edot; [apply (moves_ret grows)|].
  apply (moves_bind grows); [apply (Exists_moves grows)|]. intros []; [apply (moves_ret grows)|].
  destruct l as [|y l _] using rev_ind; [by destruct Hp as [_ ->]|]. assert (Hs := proj1 Hp).
  assert (Hpp : p = unparts (l ++ [y])) by (destruct Hp as [_ ->]; by destruct l).
  apply (moves_bind grows); [|intros _].
  - destruct (_ && _); [|apply (moves_ret grows)]. apply (moves_wrap grows), (IH _ l). rewrite Hpp. by apply dir_path_up.
  - apply (moves_bind grows); [apply (moves_attempt grows); by eapply Mkdir_grows|].
    intros [[]|e|w]; [apply (moves_ret grows)| |apply (moves_lift grows)].
    destruct (errors_is e ErrExist); [apply (moves_ret grows)|apply (moves_lift grows (Err _))].
Qed.
Lemma make_dirs_grows p : plain p -> moves grows (Local.make_dirs p).
Proof.
  intros (l & Hl & Hs & ->). destruct l as [|y l _] using rev_ind; [done|]. unfold Local.make_dirs.
  apply (moves_bind grows); [apply (Exists_moves grows)|]. intros []; [apply (moves_ret grows)|].
  apply (moves_wrap grows). eapply mkdirAll_grows. by apply dir_path_up.
Qed.
Lemma grows_same r r' : grows r r' -> closed r -> closed r' /\ same file_at r r'.
Proof.
  intros Hg Hr. destruct (Hg Hr) as [H1 H2]. split; [done|]. intros q _. unfold file_at.
  destruct (H2 (parts q)) as [->|[-> ->]]; done.
Qed.

(** The directories of a file are made, then the file is written. *)
Lemma written p content r : closed r -> plain p ->
  wp (WriteFile p content) (fun res r' => closed r' /\ only file_at p r r' /\
    match res with Ok _ => file_at r' p = Some content | _ => file_at r' p = file_at r p end) r.
Proof.
  intros Hr (l & Hl & Hs & ->). eapply wp_at; [by apply plain_dir|]. do 2 wp_step.
  assert (Hrefuse : closed r /\ only file_at (unparts l) r r /\ file_at r (unparts l) = file_at r (unparts l)) by done.
  assert (Hput : entry_at (ro_tree r) (parent l) = Some Directory -> ro_tree r !! l <> Some Directory ->
    closed (mkRoot (<[l := File content]> (ro_tree r)) (ro_listings r)) /\
    only file_at (unparts l) r (mkRoot (<[l := File content]> (ro_tree r)) (ro_listings r)) /\
    file_at (mkRoot (<[l := File content]> (ro_tree r)) (ro_listings r)) (unparts l) = Some content).
  { intros Hp Hd. split; [by apply closed_put|]. unfold file_at. simpl. rewrite plain_parts by done. split; [|by rewrite lookup_insert_eq].
    intros q (k & Hk & Hsk & ->) Hq. simpl. rewrite plain_parts by done. rewrite lookup_insert_ne; [done|]. by intros <-. }
  destruct l as [|y l]; [done|]. unfold entry_at at 1. destruct (ro_tree r !! (y :: l)) as [[|c]|] eqn:El; [by wp_step| |].
  all: destruct (entry_at (ro_tree r) (parent (y :: l))) as [[|c']|] eqn:Ep; [|by wp_step..]; by apply Hput.
Qed.

Lemma no_children r l k : children (ro_tree r) l = ∅ -> is_Some (ro_tree r !! k) -> parent k <> l.
Proof.
  intros Hc [e Hk] Hp. assert (Hin : children (ro_tree r) l !! k = Some e) by (by apply map_lookup_filter_Some). by rewrite Hc in Hin.
Qed.
(** Only the entry itself goes, and it goes when there is no error. *)
Lemma removed p l r : dir_path p l ->
  wp (Remove p) (fun res r' => (closed r -> closed r') /\ (forall k, k <> l -> ro_tree r' !! k = ro_tree r !! k) /\
    (ro_tree r' !! l = None \/ r' = r /\ res <> Ok tt)) r.
Proof.
  intros Hp. eapply wp_at; [done|]. do 2 wp_step.
  assert (Hdrop : (ro_tree r !! l = Some Directory -> children (ro_tree r) l = ∅) ->
    (closed r -> closed (mkRoot (delete l (ro_tree r)) (ro_listings r))) /\
    (forall k, k <> l -> ro_tree (mkRoot (delete l (ro_tree r)) (ro_listings r)) !! k = ro_tree r !! k) /\
    (ro_tree (mkRoot (delete l (ro_tree r)) (ro_listings r)) !! l = None \/
     mkRoot (delete l (ro_tree r)) (ro_listings r) = r /\ Ok tt <> Ok tt)).
  { intros Hc. split; [intros Hr; by apply closed_delete|]. simpl. split; [intros k Hk; by rewrite lookup_delete_ne|].
    left. by rewrite lookup_delete_eq. }
  destruct (entry_at (ro_tree r) l) as [[|c]|] eqn:El.
  - destruct (decide _) as [[Hc Hn]|_]; [by apply Hdrop|]. wp_step. split_and!; [done..|by right].
  - apply Hdrop. destruct l; simpl in El; congruence.
  - wp_step. split_and!; [done..|by right].
Qed.
Lemma removed_prunes p l : dir_path p l -> moves (prunes l) (Remove p).
Proof.
  intros Hp r Hr. destruct (removed p l r Hp) as (H1 & H2 & H3). split; [by apply H1|]. intros k.
  destruct (decide (k = l)) as [->|Hk]; [|left; by apply H2]. destruct H3 as [H3|[H3 _]]; [by right|left; by rewrite H3].
Qed.

(** What a directory is said to hold. *)
Lemma listed_children p l r : dir_path p l ->
  wp (ReadDir p) (fun res r' => ro_tree r' = ro_tree r /\
    forall entries x e, res = Ok entries -> closed r -> (x, e) ∈ entries -> ro_tree r !! (l ++ [x]) = Some e /\ Forall segment (l ++ [x])) r.
Proof.
  intros Hp. eapply wp_at; [done|]. do 2 wp_step. destruct (entry_at (ro_tree r) l) as [[|c]|]; [|by wp_step..].
  wp_step. split; [done|]. intros entries x e [= <-] Hr ([k e'] & [= -> ->] & Hk)%list_elem_of_fmap.
  setoid_rewrite range_perm in Hk. apply elem_of_map_to_list, map_lookup_filter_Some in Hk as [Hk Hpk]. simpl in *.
  destruct (Hr _ _ Hk) as (Hne & Hs & _). destruct (List.exists_last Hne) as (k' & y & ->). rewrite parent_snoc in Hpk. subst k'.
  by rewrite last_last.
Qed.
Lemma tree_closed r r' : ro_tree r' = ro_tree r -> closed r -> closed r'.
Proof. unfold closed. by intros ->. Qed.
Lemma tree_prunes l r r' : ro_tree r' = ro_tree r -> prunes l r r'.
Proof. intros E Hr. split; [by eapply tree_closed|]. left. by rewrite E. Qed.

(** A loop over the entries of a directory prunes it if each round does. *)
Lemma prunes_entries l (entries : list (string * entry)) (body : string * entry -> M Root unit) r :
  closed r -> (forall x e r', (x, e) ∈ entries -> closed r' -> wp (body (x, e)) (fun _ r'' => prunes l r' r'') r') ->
  wp (for_each entries body) (fun _ r' => prunes l r r') r.
Proof.
  intros Hr Hb. apply (wp_for_each (fun _ r' => closed r' /\ prunes l r r') body _ entries []).
  - split; [done|reflexivity].
  - intros pre [x e] r' [Hr' Hp] Hx. eapply wp_mono; [by apply (Hb x e r')|]. intros [[]|er|w] r'' H''; simpl in H''.
    + split; [by apply H''|by etransitivity].
    + by etransitivity.
    + by etransitivity.
  - by intros r' [_ ?].
Qed.

Lemma remove_file_prunes p l : dir_path p l -> moves (prunes l) (Local.remove_file p).
Proof.
  intros Hp. unfold Local.remove_file. apply (moves_bind (prunes l)); [apply (moves_attempt (prunes l)); by apply removed_prunes|].
  intros [[]|e|w]; [apply (moves_ret (prunes l))| |apply (moves_lift (prunes l))].
  destruct (errors_is e ErrNotExist); [apply (moves_ret (prunes l))|apply (moves_lift (prunes l) (Err _))].
Qed.

Lemma removeDirRecursive_prunes fuel : forall p l r, l <> [] -> dir_path p l -> closed r ->
  wp (Local.removeDirRecursive fuel p) (fun _ r' => prunes l r r') r.
Proof.
  induction fuel as [|fuel IH]; intros p l r Hl Hp Hr; [by apply wp_ret|]. simpl. do 2 wp_step.
  eapply wp_mono; [by apply listed_children|]. intros [entries|e|w] r1 [Ht Hlist].
  - apply wp_bind. assert (Hpp : p = unparts l) by (destruct Hp as [_ ->]; by destruct l). assert (Hr1 : closed r1) by (by eapply tree_closed).
    eapply wp_mono; [apply (prunes_entries l); [done|]|].
    + intros x e r' Hx Hr'. destruct (Hlist _ _ _ eq_refl Hr Hx) as [_ Hsx]. simpl.
      assert (Hd : dir_path (FilePath.Join [p; x]) (l ++ [x])).
      { rewrite Hpp, Join_plain by done. apply plain_dir; [by destruct l|done]. }
      assert (Hpre : l `prefix_of` l ++ [x]) by (by exists [x]).
      destruct e; [eapply wp_mono; [apply (IH _ (l ++ [x])); [by destruct l|done|done]|]; intros res0 r''; by apply prunes_deeper|].
      eapply prunes_deeper; [done|]. by apply (remove_file_prunes _ (l ++ [x])).
    + assert (H01 : prunes l r r1) by (by apply tree_prunes).
      intros [[]|er|w] r2 H2; [|by etransitivity..]. apply wp_intro. intros res r3 E. transitivity r1; [done|]. transitivity r2; [done|].
      pose proof (removed_prunes p l Hp r2) as Hrm. by rewrite E in Hrm.
  - destruct (errors_is e ErrNotExist); wp_step; by apply tree_prunes.
  - by apply tree_prunes.
Qed.

(** A prefix that ends in a slash: only what lies below goes. *)
Lemma DeleteByPrefix_prunes l r : l <> [] -> Forall segment l -> closed r ->
  wp (Local.DeleteByPrefix (unparts l +:+ "/")) (fun _ r' => closed r' /\ forall k,
    ro_tree r' !! k = ro_tree r !! k \/ l `prefix_of` k /\ k <> l /\ ro_tree r' !! k = None) r.
Proof.
  intros Hl Hs Hr. unfold Local.DeleteByPrefix. rewrite Dir_prefix by done. do 2 wp_step.
  eapply wp_mono; [apply listed_children, plain_dir; done|]. intros [entries|e|w] r1 [Ht Hlist].
  2: { destruct (errors_is e ErrNotExist); wp_step; (split; [by eapply tree_closed|left; by rewrite Ht]). }
  2: { split; [by eapply tree_closed|left; by rewrite Ht]. }
  assert (Hr1 : closed r1) by (by eapply tree_closed).
  pose (I := fun r' => closed r' /\ forall k, ro_tree r' !! k = ro_tree r !! k \/ l `prefix_of` k /\ k <> l /\ ro_tree r' !! k = None).
  assert (Hgo : forall x r' r'', I r' -> prunes (l ++ [x]) r' r'' -> I r'').
  { intros x r' r'' [Hr' HI] Hp. destruct (Hp Hr') as [Hr'' Hk]. split; [done|]. intros k.
    destruct (Hk k) as [->|[[t Hpre] Hn]]; [by apply HI|]. right. split_and!; [subst k; exists ([x] ++ t); by rewrite app_assoc| |done].
    intros ->. apply (f_equal length) in Hpre. rewrite !length_app in Hpre. simpl in Hpre. lia. }
  apply (wp_for_each (fun _ r' => I r') _ _ entries []).
  - split; [done|]. left. by rewrite Ht.
  - intros pre [x e] r' HI Hx. destruct (Hlist _ _ _ eq_refl Hr Hx) as [_ Hsx]. cbn [fst snd]. destruct (_ && _); [by wp_step|].
    assert (Hd : dir_path (FilePath.Join [unparts l; x]) (l ++ [x])).
    { rewrite Join_plain by done. apply plain_dir; [by destruct l|done]. }
    destruct e; [do 3 wp_step; eapply wp_mono; [apply (removeDirRecursive_prunes _ _ (l ++ [x])); [by destruct l|done|by apply HI]|]|wp_step].
    + intros res r'' Hp. apply (Hgo _ _ _ HI) in Hp. destruct res; exact Hp.
    + apply wp_intro. intros res r'' E. pose proof (remove_file_prunes _ _ Hd r') as Hp. rewrite E in Hp.
      apply (Hgo _ _ _ HI) in Hp. destruct res; exact Hp.
  - by intros r' HI.
Qed.
End operations.

(** ** The promises of a storage *)

Section disk.
Context `{MapOrder}.
Lemma closed_same r r' : ro_tree r' = ro_tree r -> closed r -> closed r' /\ same file_at r r'.
Proof. intros E Hr. split; [by eapply tree_closed|]. intros q _. unfold file_at. by rewrite E. Qed.
Lemma file_plain r l : l <> [] -> Forall segment l -> file_at r (unparts l) = match ro_tree r !! l with Some (File c) => Some c | _ => None end.
Proof. intros Hl Hs. unfold file_at. by rewrite plain_parts. Qed.

(** What is there at a plain path. *)
Lemma Stat_plain p r : plain p ->
  wp (Stat p) (fun res r' => r' = r /\ forall e, res = Ok e -> file_at r p = match e with File c => Some c | Directory => None end) r.
Proof.
  intros (l & Hl & Hs & ->). eapply wp_mono; [eapply Stat_there; by apply plain_dir|]. intros res r' [-> He]. split; [done|]. intros e ->.
  specialize (He e eq_refl). rewrite file_plain by done. destruct l as [|x l]; [done|]. simpl in He. by rewrite He.
Qed.

(** An item of a listing is a name in the directory. *)
Lemma List_names p r : closed r -> wp (Local.List p) (fun res r' => ro_tree r' = ro_tree r /\ forall l e, res = Ok l -> e ∈ l -> segment e) r.
Proof.
  intros Hr. unfold Local.List. do 2 wp_step. unfold ReadDir, at_path. do 2 wp_step. destruct (locate p) as [l|e|w]; [|by wp_step|done].
  do 2 wp_step. destruct (entry_at (ro_tree r) l) as [[|c]|]; [|by wp_step..]. wp_step. split; [done|].
  intros names e [= <-] He. rewrite map_map in He. apply list_elem_of_fmap in He as ([k e'] & -> & Hk).
  setoid_rewrite range_perm in Hk. apply elem_of_map_to_list, map_lookup_filter_Some in Hk as [Hk _].
  destruct (Hr _ _ Hk) as (Hne & Hs & _). destruct (List.exists_last Hne) as (k' & y & ->). simpl. rewrite last_last.
  by apply segments_snoc in Hs as [_ ?].
Qed.
End disk.

#[export, program] Instance local_laws `{MapOrder} : StreamFileManagerLaws Root := {
  fm_inv := closed; fm_file := file_at;
}.
Next Obligation.
  intros ? r p Hr Hp. unfold FM_Read, local_files, Local.Read, ReadFile. do 2 wp_step. eapply wp_mono; [by apply Stat_plain|].
  intros [[|c]|e|w] r' [-> He]; try (wp_step; simpl); (split; [done|]); (split; [apply same_refl|]); try done.
  intros d [= <-]. by apply (He (File c)).
Qed.
Next Obligation.
  intros ? r p d Hr Hp. unfold FM_Write, local_files, Local.Write.
  assert (Hno : forall e : result unit, (forall x, e <> Ok x) -> forall r1, closed r1 -> same file_at r r1 ->
    closed r1 /\ only file_at p r r1 /\ match e with Ok _ => file_at r1 p = Some d | _ => left_over file_at r r1 p d end).
  { intros e He r1 H1 H2. split; [done|]. split; [by apply same_only|]. destruct e; [by destruct (He a)|left; by apply H2..]. }
  wp_step. apply wp_intro. intros res r1 E. pose proof (make_dirs_grows p Hp r) as Hg. rewrite E in Hg. simpl in Hg.
  destruct (grows_same _ _ Hg Hr) as [H1 H2]. destruct res as [[]|e|w]; [|by apply (Hno (Err e))|by apply (Hno (Panic w))]. wp_step.
  eapply wp_mono; [by apply written|]. intros res r2 (H3 & H4 & H5). split; [done|]. split; [eapply only_trans; [by apply same_only|done]|].
  destruct res as [[]|e|w]; [done|left; rewrite H5; by apply H2..].
Qed.
Next Obligation.
  intros ? r p Hr (l & Hl & Hs & ->). unfold FM_Delete, local_files, Local.Delete. wp_step.
  eapply wp_mono; [by apply removed, plain_dir|]. intros res r' (H1 & H2 & H3). split; [by apply H1|]. split.
  - intros q (k & Hk & Hsk & ->) Hq. rewrite !file_plain by done. rewrite H2; [done|]. by intros ->.
  - rewrite !file_plain by done. destruct H3 as [->|[-> Hne]]; [by left|right]. split; [done|]. by destruct res as [[]|e|w].
Qed.
Next Obligation.
  intros ? r p Hr Hp. unfold FM_Exists, local_files. eapply wp_mono; [apply Exists_pure|]. intros res r' [-> Hb].
  split; [done|]. split; [apply same_refl|done].
Qed.
Next Obligation.
  intros ? r p Hr. unfold FM_List, local_files. eapply wp_mono; [by apply List_names|]. intros res r' [E Hl].
  destruct (closed_same _ _ E Hr) as [H1 H2]. split; [done|]. split; [done|]. intros l e Hres He. right. left. by eapply Hl.
Qed.
Next Obligation.
  intros ? r p Hr Hp. unfold FM_ReadStream, local_files, Local.ReadStream. do 2 wp_step. eapply wp_mono; [by apply Stat_plain|].
  intros [[|c]|e|w] r' [-> He]; try (wp_step; simpl); (split; [done|]); (split; [apply same_refl|]); try done; intros s [= <-] Hs; [done|].
  by apply (He (File c)).
Qed.
Next Obligation.
  intros ? r p s Hr Hp. unfold FM_WriteStream, local_files, Local.WriteStream.
  assert (Hno : forall e : result unit, (forall x, e <> Ok x) -> forall r1, closed r1 -> only file_at p r r1 -> left_over file_at r r1 p (sm_content s) ->
    closed r1 /\ only file_at p r r1 /\
    match e with Ok _ => sm_fault s = None /\ file_at r1 p = Some (sm_content s) | _ => left_over file_at r r1 p (sm_content s) end).
  { intros e He r1 H1 H2 H3. split; [done|]. split; [done|]. by destruct e; [destruct (He a)|..]. }
  wp_step. apply wp_intro. intros res r1 E. pose proof (make_dirs_grows p Hp r) as Hg. rewrite E in Hg. simpl in Hg.
  destruct (grows_same _ _ Hg Hr) as [H1 H2]. destruct res as [[]|e|w]; [|apply (Hno (Err e)); [done|done|by apply same_only|left; by apply H2]|apply (Hno (Panic w)); [done|done|by apply same_only|left; by apply H2]].
  do 2 wp_step. eapply wp_mono; [by apply written|]. intros res r2 (H3 & H4 & H5).
  assert (H6 : only file_at p r r2) by (eapply only_trans; [by apply same_only|done]).
  destruct res as [[]|e|w]; cbn [wrap_err]; [|apply (Hno (Err (EWrap "failed to open file for writing" e))); [done|done|done|left; rewrite H5; by apply H2]|apply (Hno (Panic w)); [done|done|done|left; rewrite H5; by apply H2]].
  destruct (sm_fault s) as [e|] eqn:Es; wp_step.
  - apply (Hno (Err (EWrap "failed to write stream data" e))); [done|done|done|]. right. right. exists (sm_content s), ""%string. split; [|done].
    symmetry. apply string_app_empty.
  - done.
Qed.
Next Obligation.
  intros ? r l Hr Hl Hs. unfold FM_DeleteByPrefix, local_files. eapply wp_mono; [by apply DeleteByPrefix_prunes|].
  intros res r' [H1 H2]. split; [done|]. intros q (k & Hk & Hsk & ->). rewrite !file_plain by done.
  destruct (H2 k) as [->|((t & ->) & Hne & ->)]; [by left|]. right. split; [|done]. apply parts_under; [done|].
  intros ->. by rewrite app_nil_r in Hne.
Qed.

(** ** The disk works *)

Section works.
Context `{MapOrder}.

Definition is_dir (r : Root) (p : string) : Prop := ro_tree r !! parts p = Some Directory.
Lemma is_dir_plain r l : l <> [] -> Forall segment l -> is_dir r (unparts l) <-> ro_tree r !! l = Some Directory.
Proof. intros Hl Hs. unfold is_dir. by rewrite plain_parts. Qed.

Lemma Exists_there p l r : dir_path p l -> Local.Exists p r = (Ok (bool_decide (is_Some (entry_at (ro_tree r) l))), r).
Proof.
  intros Hp. unfold Local.Exists, attempt, bind, Stat, at_path, lift. unfold bind. rewrite (locate_dir p l Hp). unfold get.
  by destruct (entry_at (ro_tree r) l).
Qed.
Lemma Mkdir_ok p l r : dir_path p l -> entry_at (ro_tree r) l = None -> entry_at (ro_tree r) (parent l) = Some Directory ->
  Mkdir p r = (Ok tt, mkRoot (<[l := Directory]> (ro_tree r)) (ro_listings r)).
Proof. intros Hp El Ep. unfold Mkdir, at_path, bind, lift. rewrite (locate_dir p l Hp). unfold get. by rewrite El, Ep. Qed.

(** The path of a directory, the root's being a dot. *)
Definition dir_name (l : list string) : string := match l with [] => "."%string | _ => unparts l end.
Lemma dir_name_path l : Forall segment l -> dir_path (dir_name l) l.
Proof. by intros Hs. Qed.
Lemma dir_name_dot l : Forall segment l -> String.eqb (dir_name l) "" || String.eqb (dir_name l) "." = bool_decide (l = []).
Proof.
  intros Hs. destruct l as [|x l]; [done|]. rewrite bool_decide_false by done. apply orb_false_intro; apply String.eqb_neq.
  - by apply (segments_nonempty (x :: l)).
  - intros E. change (unparts (x :: l) = unparts ["."%string]) in E. apply (f_equal parts) in E. rewrite plain_parts in E by done.
    change (parts (unparts ["."%string])) with ["."%string] in E. injection E as -> ->. apply list.Forall_cons in Hs as [[(_ & Hd & _) _] _]. done.
Qed.
Lemma dir_name_up l x : Forall segment (l ++ [x]) -> Dir (dir_name (l ++ [x])) = dir_name l /\ dir_name l <> dir_name (l ++ [x]).
Proof.
  intros Hs. assert (E : dir_name (l ++ [x]) = unparts (l ++ [x])) by by destruct l. rewrite E. split; [by apply Dir_plain|].
  pose proof (segments_snoc _ _ Hs) as [Hl _]. intros E2. rewrite <- E in E2. apply (f_equal locate) in E2.
  rewrite (locate_dir _ l), (locate_dir _ (l ++ [x])) in E2 by by apply dir_name_path. injection E2 as E2.
  apply (f_equal length) in E2. rewrite length_app in E2. simpl in E2. lia.
Qed.

(** Nothing but directories on the way to [l]. *)
Definition clear_way (r : Root) (l : list string) : Prop := forall k c, k `prefix_of` l -> ro_tree r !! k <> Some (File c).
(** The directories on the way to [l] appear, and nothing else changes. *)
Definition paves (l : list string) (r r' : Root) : Prop :=
  closed r' /\ entry_at (ro_tree r') l = Some Directory /\
  forall k, ro_tree r' !! k = ro_tree r !! k \/ k `prefix_of` l /\ ro_tree r !! k = None /\ ro_tree r' !! k = Some Directory.

Lemma prefix_up (k l : list string) x : k `prefix_of` l -> k `prefix_of` l ++ [x].
Proof. intros [t ->]. exists (t ++ [x]). by rewrite app_assoc. Qed.
Lemma mkdirAll_ok fuel : forall l r, closed r -> Forall segment l -> length l <= fuel -> clear_way r l ->
  exists r', Local.mkdirAll fuel (dir_name l) r = (Ok tt, r') /\ paves l r r'.
Proof.
  induction fuel as [|fuel IH]; intros l r Hr Hs Hlen Hway.
  - destruct l as [|x l]; [|simpl in Hlen; lia]. exists r. split; [done|]. split_and!; [done|done|by left].
  - destruct l as [|x l _] using rev_ind; [exists r; split; [done|]; split_and!; [done|done|by left]|].
    pose proof (segments_snoc _ _ Hs) as [Hl Hx]. cbn [Local.mkdirAll]. rewrite dir_name_dot by done. rewrite bool_decide_false by by destruct l.
    assert (Hat : forall t, entry_at t (l ++ [x]) = t !! (l ++ [x])) by by destruct l.
    unfold bind at 1. rewrite (Exists_there _ (l ++ [x])) by by apply dir_name_path. rewrite Hat.
    destruct (ro_tree r !! (l ++ [x])) as [e|] eqn:Ee.
    { cbn [bool_decide]. exists r. split; [done|]. split_and!; [done| |by left]. rewrite Hat, Ee. destruct e as [|c]; [done|].
      exfalso. by eapply (Hway (l ++ [x])). }
    cbn. destruct (dir_name_up l x Hs) as [-> Hne]. rewrite (proj2 (String.eqb_neq _ _) Hne). cbn [negb andb].
    assert (Hup : exists r1, (if negb (String.eqb (dir_name l) ".") then wrap ("failed to create directory: " +:+ dir_name l) (Local.mkdirAll fuel (dir_name l)) else ret tt) r = (Ok tt, r1) /\ paves l r r1).
    { destruct (String.eqb (dir_name l) ".") eqn:Edot; cbn [negb].
      - assert (l = []) as ->. { pose proof (dir_name_dot l Hl) as E. rewrite Edot, orb_true_r in E. symmetry in E. by apply bool_decide_eq_true in E. }
        exists r. split; [done|]. split_and!; [done|done|by left].
      - destruct (IH l r Hr Hl) as (r1 & E1 & H1'); [rewrite length_app in Hlen; simpl in Hlen; lia|intros k c Hk; by apply Hway, prefix_up|].
        exists r1. split; [|done]. unfold wrap. by rewrite E1. }
    destruct Hup as (r1 & E1 & Hr1 & Hd1 & Hk1). unfold bind at 1. rewrite E1. unfold bind, attempt.
    assert (Hn1 : ro_tree r1 !! (l ++ [x]) = None).
    { destruct (Hk1 (l ++ [x])) as [->|([t Ht] & _)]; [done|]. apply (f_equal length) in Ht. rewrite !length_app in Ht. simpl in Ht. lia. }
    rewrite (Mkdir_ok _ (l ++ [x])); [|by apply dir_name_path|by rewrite Hat|by rewrite parent_snoc].
    eexists. split; [done|]. split_and!.
    + apply closed_put; [done|by destruct l|done|by rewrite parent_snoc|congruence].
    + rewrite Hat. apply lookup_insert_eq.
    + intros k. simpl. destruct (decide (l ++ [x] = k)) as [<-|Hne']; [right; by rewrite lookup_insert_eq|]. rewrite lookup_insert_ne by done.
      destruct (Hk1 k) as [->|(Hp & ? & ?)]; [by left|right]. split; [by apply prefix_up|done].
Qed.

Lemma length_unparts l : Forall segment l -> length l <= String.length (dir_name l).
Proof.
  assert (Hone : forall x, segment x -> 1 <= String.length x) by (intros x [(Hx & _) _]; destruct x; [done|simpl; lia]).
  destruct l as [|x l]; [simpl; lia|]. intros Hs. change (dir_name (x :: l)) with (unparts (x :: l)). revert x Hs. induction l as [|y l IH]; intros x Hs.
  - apply list.Forall_cons in Hs as [Hx _]. simpl. by apply Hone.
  - change (unparts (x :: y :: l)) with (x +:+ "/" +:+ unparts (y :: l)). rewrite !length_string_app. apply list.Forall_cons in Hs as [Hx Hs].
    specialize (IH y Hs). specialize (Hone x Hx). simpl length in *. change (String.length "/") with 1. lia.
Qed.

Abbreviation way_free r l := (free file_at is_dir r l).
Lemma free_parent r l x : closed r -> Forall segment (l ++ [x]) -> way_free r (l ++ [x]) -> clear_way r l.
Proof.
  intros Hr Hs [_ Hway] k c Hk E. destruct (Hr _ _ E) as (Hne & Hsk & _). specialize (Hway k Hne (prefix_up _ _ _ Hk)).
  rewrite file_plain, E in Hway by done. discriminate Hway. intros ->. destruct Hk as [t Ht]. apply (f_equal length) in Ht.
  rewrite !length_app in Ht. simpl in Ht. lia.
Qed.

(** What has nothing in its way gets its directories. *)
Lemma make_dirs_ok r l x : closed r -> Forall segment (l ++ [x]) -> way_free r (l ++ [x]) ->
  exists r', Local.make_dirs (unparts (l ++ [x])) r = (Ok tt, r') /\ paves l r r'.
Proof.
  intros Hr Hs Hfree. pose proof (segments_snoc _ _ Hs) as [Hl _]. pose proof (free_parent _ _ _ Hr Hs Hfree) as Hway. unfold Local.make_dirs, bind.
  rewrite (Exists_there _ (l ++ [x])) by (apply plain_dir; [by destruct l|done]).
  assert (Hat : entry_at (ro_tree r) (l ++ [x]) = ro_tree r !! (l ++ [x])) by by destruct l. rewrite Hat.
  destruct (ro_tree r !! (l ++ [x])) as [e|] eqn:Ee.
  - cbn [bool_decide]. exists r. split; [done|]. split_and!; [done| |by left]. destruct (Hr _ _ Ee) as (_ & _ & Hp). by rewrite parent_snoc in Hp.
  - cbn. rewrite (Dir_plain l x Hs). fold (dir_name l). unfold wrap.
    destruct (mkdirAll_ok (String.length (dir_name l)) l r Hr Hl (length_unparts l Hl) Hway) as (r' & -> & Hp). by exists r'.
Qed.
Lemma WriteFile_ok r l x content : Forall segment (l ++ [x]) -> entry_at (ro_tree r) l = Some Directory -> ro_tree r !! (l ++ [x]) <> Some Directory ->
  WriteFile (unparts (l ++ [x])) content r = (Ok tt, mkRoot (<[l ++ [x] := File content]> (ro_tree r)) (ro_listings r)).
Proof.
  intros Hs Hp Hno. unfold WriteFile, at_path, bind, lift. rewrite (locate_dir _ (l ++ [x])) by (apply plain_dir; [by destruct l|done]). unfold get.
  assert (Hat : entry_at (ro_tree r) (l ++ [x]) = ro_tree r !! (l ++ [x])) by by destruct l. rewrite Hat, parent_snoc, Hp.
  by destruct (ro_tree r !! (l ++ [x])) as [[|c]|].
Qed.
Lemma made_and_written r l content : closed r -> l <> [] -> Forall segment l -> way_free r l ->
  exists r1 n, Local.make_dirs (unparts l) r = (Ok tt, r1) /\
    WriteFile (unparts l) content r1 = (Ok tt, mkRoot (<[l := File content]> (ro_tree r1)) n).
Proof.
  intros Hr Hl Hs Hfree. destruct l as [|x l _] using rev_ind; [done|]. destruct (make_dirs_ok r l x Hr Hs Hfree) as (r1 & E & Hr1 & Hd1 & Hk1).
  exists r1, (ro_listings r1). split; [exact E|]. apply WriteFile_ok; [done|done|].
  destruct (Hk1 (l ++ [x])) as [->|([t Ht] & _)]; [|apply (f_equal length) in Ht; rewrite !length_app in Ht; simpl in Ht; lia].
  rewrite <- is_dir_plain; [apply Hfree|by destruct l|done].
Qed.

(** *** New directories *)

(** Directories that appear are on the way to [l]. *)
Definition lays (l : list string) (r r' : Root) : Prop :=
  forall k, ro_tree r' !! k = Some Directory -> ro_tree r !! k = Some Directory \/ k `prefix_of` l.
#[export] Instance lays_preorder l : PreOrder (lays l).
Proof. split; [intros r k Hk; by left|]. intros r1 r2 r3 H12 H23 k Hk. destruct (H23 k Hk) as [?|?]; [by apply H12|by right]. Qed.
Lemma lays_same l r r' : ro_tree r' = ro_tree r -> lays l r r'.
Proof. intros E k Hk. left. by rewrite <- E. Qed.
Lemma lays_further k l r r' : k `prefix_of` l -> lays k r r' -> lays l r r'.
Proof. intros Hk Hr j Hj. destruct (Hr j Hj) as [?|?]; [by left|right]. by etransitivity. Qed.

Lemma Mkdir_lays p l : dir_path p l -> moves (lays l) (Mkdir p).
Proof.
  intros Hp r. enough (Hw : wp (Mkdir p) (fun _ r' => lays l r r') r) by by apply Hw.
  eapply wp_at; [done|]. do 2 wp_step. destruct (entry_at (ro_tree r) l) as [e|]; [by wp_step|].
  destruct (entry_at (ro_tree r) (parent l)) as [[|c]|]; [|by wp_step..]. intros k Hk. simpl in Hk. rewrite lookup_insert in Hk.
  case_decide as E; [right; by rewrite <- E|by left].
Qed.
Lemma mkdirAll_lays fuel : forall l, Forall segment l -> moves (lays l) (Local.mkdirAll fuel (dir_name l)).
Proof.
  induction fuel as [|fuel IH]; intros l Hs; [apply (moves_ret (lays l))|]. cbn [Local.mkdirAll]. rewrite dir_name_dot by done.
  destruct (bool_decide_reflect (l = [])) as [|Hl]; [apply (moves_ret (lays l))|]. destruct l as [|y l _] using rev_ind; [done|].
  apply (moves_bind (lays (l ++ [y]))); [apply (Exists_moves (lays (l ++ [y])))|]. intros []; [apply (moves_ret (lays (l ++ [y])))|].
  apply (moves_bind (lays (l ++ [y]))); [|intros _].
  - destruct (_ && _); [|apply (moves_ret (lays (l ++ [y])))]. apply (moves_wrap (lays (l ++ [y]))). destruct (dir_name_up l y Hs) as [-> _].
    intros r. apply (lays_further l); [by exists [y]|]. apply IH. by apply segments_snoc in Hs as [? _].
  - apply (moves_bind (lays (l ++ [y]))); [by apply (moves_attempt (lays (l ++ [y]))), Mkdir_lays, dir_name_path|].
    intros [[]|e|w]; [apply (moves_ret (lays (l ++ [y])))| |apply (moves_lift (lays (l ++ [y])))].
    destruct (errors_is e ErrExist); [apply (moves_ret (lays (l ++ [y])))|apply (moves_lift (lays (l ++ [y])) (Err _))].
Qed.
Lemma make_dirs_lays l x : Forall segment (l ++ [x]) -> moves (lays l) (Local.make_dirs (unparts (l ++ [x]))).
Proof.
  intros Hs. unfold Local.make_dirs. apply (moves_bind (lays l)); [apply (Exists_moves (lays l))|]. intros []; [apply (moves_ret (lays l))|].
  apply (moves_wrap (lays l)). rewrite (Dir_plain l x Hs). fold (dir_name l). apply mkdirAll_lays. by apply segments_snoc in Hs as [? _].
Qed.
Lemma WriteFile_lays l content j : l <> [] -> Forall segment l -> moves (lays j) (WriteFile (unparts l) content).
Proof.
  intros Hl Hs r. enough (Hw : wp (WriteFile (unparts l) content) (fun _ r' => lays j r r') r) by by apply Hw.
  eapply wp_at; [by apply plain_dir|]. do 2 wp_step.
  assert (Hput : lays j r (mkRoot (<[l := File content]> (ro_tree r)) (ro_listings r))).
  { intros k Hk. simpl in Hk. rewrite lookup_insert in Hk. case_decide; [done|by left]. }
  destruct (entry_at (ro_tree r) l) as [[|c]|]; [by wp_step| |].
  all: destruct (entry_at (ro_tree r) (parent l)) as [[|c']|]; [|by wp_step..]; exact Hput.
Qed.

Lemma lays_way l x r r' : Forall segment (l ++ [x]) -> lays l r r' -> new_dirs is_dir (on_the_way (unparts (l ++ [x]))) r r'.
Proof.
  intros Hs Hr q (k & Hk & Hsk & ->). rewrite !is_dir_plain by done. intros [?|[t Ht]]%Hr; [by left|right].
  unfold on_the_way. rewrite Ht, <- app_assoc. apply parts_under; [done|]. by destruct t.
Qed.
(** A shorter tree has no new directories. *)
Lemma pruned_dirs l r r' : (forall k, ro_tree r' !! k = ro_tree r !! k \/ l `prefix_of` k /\ ro_tree r' !! k = None) -> no_dirs is_dir r r'.
Proof. intros Hk q _ Hq. left. unfold is_dir in *. destruct (Hk (parts q)) as [E|[_ E]]; congruence. Qed.
Lemma same_dirs r r' : ro_tree r' = ro_tree r -> no_dirs is_dir r r'.
Proof. intros E q _ Hq. left. unfold is_dir in *. by rewrite <- E. Qed.

Lemma Stat_file r l c : l <> [] -> Forall segment l -> file_at r (unparts l) = Some c -> Stat (unparts l) r = (Ok (File c), r).
Proof.
  intros Hl Hs. rewrite file_plain by done. intros Hc. unfold Stat, at_path, bind, lift. rewrite (locate_dir _ l) by by apply plain_dir. unfold get.
  assert (Hat : entry_at (ro_tree r) l = ro_tree r !! l) by by destruct l. rewrite Hat. by destruct (ro_tree r !! l) as [[|c']|]; simplify_eq.
Qed.
(** The directories above a file. *)
Lemma above_is_dir r : closed r -> forall l2 l, l2 <> [] -> is_Some (ro_tree r !! (l ++ l2)) -> entry_at (ro_tree r) l = Some Directory.
Proof.
  intros Hr l2. induction l2 as [|x l2 IH] using rev_ind; [done|]. intros l _ [e He]. rewrite app_assoc in He. destruct (Hr _ _ He) as (_ & _ & Hp).
  rewrite parent_snoc in Hp. destruct l2 as [|y l2]; [by rewrite app_nil_r in Hp|]. apply IH; [done|]. exists Directory. by destruct l.
Qed.
End works.

#[export, program] Instance local_reliable `{MapOrder} : ReliableStorage Root := { fm_dir := is_dir }.
Next Obligation.
  intros ? r p Hr Hp. apply same_dirs. unfold FM_Read, local_files, Local.Read, ReadFile, wrap, bind. pose proof (Stat_plain p r Hp) as [Hst _].
  destruct (Stat p r) as [[[|c]|e|w] r']; simpl in *; by subst.
Qed.
Next Obligation. intros ? r p Hr Hp. apply same_dirs. unfold FM_Exists, local_files. by destruct (Exists_pure p r) as [-> _]. Qed.
Next Obligation. intros ? r p Hr. apply same_dirs. unfold FM_List, local_files. by destruct (List_names p r Hr) as [-> _]. Qed.
Next Obligation.
  intros ? r p Hr Hp. apply same_dirs. unfold FM_ReadStream, local_files, Local.ReadStream, wrap, bind. pose proof (Stat_plain p r Hp) as [Hst _].
  destruct (Stat p r) as [[[|c]|e|w] r']; simpl in *; by subst.
Qed.
Next Obligation.
  intros ? r p Hr (l & Hl & Hs & ->). unfold FM_Delete, local_files, Local.Delete. eapply (pruned_dirs l).
  pose proof (removed_prunes (unparts l) l (plain_dir l Hl Hs) r Hr) as [_ Hk]. unfold wrap. by destruct (Remove (unparts l) r) as [[] r'].
Qed.
Next Obligation.
  intros ? r l Hr Hl Hs. eapply (pruned_dirs l). destruct (DeleteByPrefix_prunes l r Hl Hs Hr) as [_ Hk]. intros k. destruct (Hk k) as [?|(? & _ & ?)]; auto.
Qed.
Next Obligation.
  intros ? r p d Hr (l & Hl & Hs & ->). destruct l as [|x l _] using rev_ind; [done|]. apply lays_way; [done|].
  revert r Hr. enough (Hm : moves (lays l) (FM_Write (unparts (l ++ [x])) d)) by (intros r _; apply Hm).
  unfold FM_Write, local_files, Local.Write. apply (moves_bind (lays l)); [by apply make_dirs_lays|]. intros _.
  by apply (moves_wrap (lays l)), WriteFile_lays.
Qed.
Next Obligation.
  intros ? r p s Hr (l & Hl & Hs & ->). destruct l as [|x l _] using rev_ind; [done|]. apply lays_way; [done|].
  revert r Hr. enough (Hm : moves (lays l) (FM_WriteStream (unparts (l ++ [x])) s)) by (intros r _; apply Hm).
  unfold FM_WriteStream, local_files, Local.WriteStream. apply (moves_bind (lays l)); [by apply make_dirs_lays|]. intros _.
  apply (moves_bind (lays l)); [by apply (moves_wrap (lays l)), WriteFile_lays|]. intros _.
  destruct (sm_fault s); [apply (moves_lift (lays l) (Err _))|apply (moves_ret (lays l))].
Qed.
Next Obligation.
  intros ? r p d Hr (l & Hl & Hs & ->) Hd. unfold FM_Read, local_files, Local.Read, ReadFile, wrap, bind. by rewrite (Stat_file r l d).
Qed.
Next Obligation.
  intros ? r p d Hr (l & Hl & Hs & ->) Hd. unfold FM_ReadStream, local_files, Local.ReadStream, wrap, bind. by rewrite (Stat_file r l d).
Qed.
Next Obligation.
  intros ? r p d Hr (l & Hl & Hs & ->). unfold fm_file, local_laws. rewrite file_plain by done. intros Hd.
  unfold FM_Delete, local_files, Local.Delete, Remove, wrap, at_path, bind, lift. rewrite (locate_dir _ l) by by apply plain_dir. unfold get.
  assert (Hat : entry_at (ro_tree r) l = ro_tree r !! l) by by destruct l. rewrite Hat. by destruct (ro_tree r !! l) as [[|c]|].
Qed.
Next Obligation.
  intros ? r l d Hr Hl Hs Hfree. destruct (made_and_written r l d Hr Hl Hs Hfree) as (r1 & n & E1 & E2).
  unfold FM_Write, local_files, Local.Write. unfold bind. rewrite E1.
  unfold wrap. destruct (WriteFile (unparts l) d r1) as [w r2]. by injection E2 as -> _.
Qed.
Next Obligation.
  intros ? r l [d e] Hr Hl Hs Hfree He. simpl in He. subst e. destruct (made_and_written r l d Hr Hl Hs Hfree) as (r1 & n & E1 & E2).
  unfold FM_WriteStream, local_files, Local.WriteStream. unfold bind. rewrite E1.
  unfold wrap. cbn [sm_content]. destruct (WriteFile (unparts l) d r1) as [w r2]. by injection E2 as -> _.
Qed.
Next Obligation.
  intros ? r p Hr (l & Hl & Hs & ->). exists (bool_decide (is_Some (entry_at (ro_tree r) l))). unfold FM_Exists, local_files.
  rewrite (Exists_there _ l) by by apply plain_dir. split; [done|]. rewrite bool_decide_eq_true. unfold fm_file, local_laws.
  rewrite file_plain, is_dir_plain by done. assert (Hat : entry_at (ro_tree r) l = ro_tree r !! l) by by destruct l. rewrite Hat.
  destruct (ro_tree r !! l) as [[|c]|]; split; intros Hx; try (by right); try (by left); try by eexists. by destruct Hx as [[? ?]|?].
Qed.
Next Obligation.
  intros ? r l Hr Hl Hs (q & Hq & Hu & Hsome). destruct (under_parts l q Hs Hl Hq Hu) as (l2 & Hl2 & Hs2 & ->).
  assert (Hd : entry_at (ro_tree r) l = Some Directory).
  { apply (above_is_dir r Hr l2); [done|]. unfold fm_file, local_laws in Hsome.
    rewrite file_plain in Hsome; [|by destruct l|by apply list.Forall_app].
    destruct (ro_tree r !! (l ++ l2)); [by eexists|by destruct Hsome]. }
  unfold FM_List, local_files, Local.List, bind, attempt, ReadDir, at_path, lift. unfold bind. rewrite (locate_plain_slash l Hl Hs). unfold get. rewrite Hd.
  eexists. split; [reflexivity|]. rewrite map_map. unfold fm_file, local_laws.
  assert (Hrow : forall k e, (k, e) ∈ range (ro_listings r) (children (ro_tree r) l) <-> ro_tree r !! k = Some e /\ parent k = l).
  { intros k e. setoid_rewrite range_perm. rewrite elem_of_map_to_list. unfold children. by rewrite map_lookup_filter_Some. }
  split.
  - intros e ([k en] & -> & [Hk Hpk]%Hrow)%list_elem_of_fmap. right. cbn [fst]. destruct (Hr _ _ Hk) as (Hne & Hsk & _).
    destruct (List.exists_last Hne) as (k' & x & ->). rewrite parent_snoc in Hpk. subst k'. rewrite last_last. exists x.
    split; [by apply segments_snoc in Hsk as [_ ?]|]. split; [by left|]. destruct en as [|c].
    + right. by apply is_dir_plain.
    + left. exists []. split; [done|]. rewrite file_plain, Hk by done. by eexists.
  - intros x Hx Hf. left. assert (Hsx : Forall segment (l ++ [x])) by (apply list.Forall_app; split; [done|by apply list.Forall_singleton]).
    rewrite file_plain in Hf; [|by destruct l|done]. destruct (ro_tree r !! (l ++ [x])) as [en|] eqn:Ex; [|by destruct Hf].
    apply list_elem_of_fmap. exists (l ++ [x], en). cbn [fst]. split; [by rewrite last_last|]. apply Hrow. split; [done|apply parent_snoc].
Qed.

(** ** A prefix that ends in a slash *)

(** [filepath.Dir] of such a prefix is the directory itself, and [filepath.Base]
    its own name: what goes is what lies in the directory under a name that begins
    with the directory's own. *)
Lemma other_names_stay `{MapOrder} l x r : closed r -> Forall segment (l ++ [x]) ->
  (forall y e, ro_tree r !! (l ++ [x; y]) = Some e -> String.prefix x y = false) ->
  wp (Local.DeleteByPrefix (unparts (l ++ [x]) +:+ "/")) (fun res r' => ro_tree r' = ro_tree r /\
    (ro_tree r !! (l ++ [x]) = Some Directory -> res = Ok tt)) r.
Proof.
  intros Hr Hs Hnames. assert (Hl : l ++ [x] <> []) by (by destruct l). unfold Local.DeleteByPrefix.
  rewrite Dir_prefix, Base_prefix by done. do 2 wp_step. unfold ReadDir. eapply wp_at; [by apply plain_dir|]. do 2 wp_step.
  assert (Hat : entry_at (ro_tree r) (l ++ [x]) = ro_tree r !! (l ++ [x])) by (by destruct l).
  rewrite Hat. destruct (ro_tree r !! (l ++ [x])) as [[|c]|] eqn:E.
  - wp_step. set (r1 := mkRoot (ro_tree r) (ro_listings r + 1)).
    apply (wp_for_each (fun _ r' => r' = r1) _ _ _ []); [done| |by intros r' ->].
    intros pre [y e] r' -> ([k e'] & [= -> ->] & Hk)%list_elem_of_fmap.
    setoid_rewrite range_perm in Hk. apply elem_of_map_to_list, map_lookup_filter_Some in Hk as [Hk Hpk]. simpl in Hk, Hpk.
    destruct (Hr _ _ Hk) as (Hne & Hsk & _). destruct (List.exists_last Hne) as (k' & y & ->). rewrite parent_snoc in Hpk. subst k'.
    cbn [fst snd]. rewrite last_last. rewrite <- app_assoc in Hk. simpl in Hk. rewrite (Hnames y _ Hk).
    destruct (String.eqb_spec y x) as [->|_]; [|simpl; by wp_step].
    specialize (Hnames x _ Hk). pose proof (string_prefix_app x "") as Hx. rewrite string_app_empty in Hx. congruence.
  - by wp_step.
  - wp_step. destruct (errors_is _ _); by wp_step.
Qed.
