(* ===== verification/Uploads.v ===== *)
(** Chunked uploads ([internal/upload]): the sessions a browser uploads a large
    file in ([session.go], [service.go]) and the janitor that removes those that
    have expired ([janitor.go]), over the panel's storage and the daemon that
    fetches the assembled file.  A request is one step; the cleaning up that a
    completed upload leaves to a goroutine is a step of its own. *)

From S2P Require Import Prelude.
From S2P Require Import GoNum.
From S2P Require Import Domain.
From S2P Require Import GoRuntime.
From S2P Require Import Http.
From S2P Require Import FileManager.
From stdpp Require Import base tactics strings list gmap numbers.
From Stdlib Require Import NArith ZArith Ascii.
From S2P Require Import Ids.
From S2P Require Import FilePath.
From S2P Require Import FileStore.

(** ** Paths of a session *)

Record Session : Type := mkSession {
  ss_UploadID : string; ss_ServerID : N; ss_NodeID : N; ss_UserID : N; ss_FullPath : string; ss_SuUser : string;
  ss_TotalSize : N; ss_ChunkSize : N; ss_TotalChunks : N; ss_ExpectedChecksum : string; ss_CreatedAt : time; ss_ExpiresAt : time;
}.

(** The last chunk is what the others leave; the arithmetic is that of [uint64]. *)
Definition ChunkSizeFor (s : Session) (index : N) : N :=
  if (add64 index 1 =? ss_TotalChunks s)%N
  then sub64 (ss_TotalSize s) (mul64 (ss_ChunkSize s) (sub64 (ss_TotalChunks s) 1))
  else ss_ChunkSize s.

Definition transferPrefix : string := "transfers/".
Definition transferRoot (uploadID : string) : string := transferPrefix +:+ uploadID +:+ "/".
Definition metadataPath (uploadID : string) : string := transferRoot uploadID +:+ "upload.json".
Definition dataPath (uploadID : string) : string := transferRoot uploadID +:+ "data".
Definition donePath (uploadID : string) : string := transferRoot uploadID +:+ "done".
Definition chunksPrefix (uploadID : string) : string := transferRoot uploadID +:+ "chunks" +:+ "/".

(** [fmt.Sprintf] with the pattern [%06d] *)
Definition chunkName (index : N) : string :=
  let digits := FormatUint index in String.string_of_list_ascii (replicate (6 - String.length digits) "0"%char) +:+ digits.
Definition chunkPath (uploadID : string) (index : N) : string := chunksPrefix uploadID +:+ chunkName index.

(** [strings.TrimSuffix] by one slash. *)
Fixpoint trim_slash (s : string) : string :=
  match s with
  | EmptyString => EmptyString
  | String c EmptyString => if Ascii.eqb c slash then EmptyString else s
  | String c s => String c (trim_slash s)
  end.

(** [fmt.Sscanf] with the pattern [%06d]: white space is skipped (a line break
    is an error; white space beyond ASCII is not in the model), then up to six
    digits are read, at least one; what follows is not looked at. *)
Fixpoint scan_digits (width : nat) (n : N) (s : string) : N :=
  match width, s with
  | S width, String c s => match char_digit c with Some d => scan_digits width (n * 10 + d) s | None => n end
  | _, _ => n
  end.
Fixpoint scan_index (s : string) : option N :=
  match s with
  | EmptyString => None
  | String c rest =>
      match char_digit c with
      | Some d => Some (scan_digits 5 d rest)
      | None => if is_space c && negb (Ascii.eqb c (ascii_of_N 10)) then scan_index rest else None
      end
  end.
Definition indexFromChunkPath (uploadID path : string) : option N :=
  let tail := trim_slash (TrimPrefix path (chunksPrefix uploadID)) in
  if String.eqb tail "" || has_byte slash tail then None else scan_index tail.

Definition uploadIDFromPath (path : string) : option string :=
  if String.prefix transferPrefix path then
    match cut_byte slash (TrimPrefix path transferPrefix) with
    | Some (id, _) => if String.eqb id "" then None else Some id
    | None => None
    end
  else
    let rest := trim_slash path in
    if String.eqb rest "" || has_byte slash rest then None else Some rest.

(** ** The service *)

Record Config : Type := mkConfig { cf_ChunkSize : N; cf_SessionTTL : Z; cf_MaxChunks : N }.
Record CreateParams : Type := mkCreate {
  cp_ServerID : N; cp_NodeID : N; cp_UserID : N; cp_FullPath : string; cp_SuUser : string; cp_TotalSize : N; cp_ExpectedChecksum : string;
}.
Record SessionStatus : Type := mkStatus {
  st_Session : Session; st_ReceivedChunks : list N; st_MissingChunks : list N; st_UploadedBytes : N; st_Completed : bool;
}.

(** [DaemonUploader] *)
Class DaemonUploader (D : Type) : Type := {
  UploadStreamPrepared : Node -> string -> string -> string -> N -> OwnerOptions -> M D unit;
}.

(** [encoding/json] on a session and on [DoneInfo]: what was written is read back,
    and a text cut short is no JSON object. *)
Class SessionCodec : Type := {
  marshal : Session -> result string; unmarshal : string -> result Session; marshalDone : bool -> string -> result string;
}.
Class SessionCodecLaws `{SessionCodec} : Prop := {
  unmarshal_marshal : forall s text, marshal s = Ok text -> unmarshal text = Ok s;
  marshalDone_returns : forall b sum w, marshalDone b sum <> Panic w;
  unmarshal_cut : forall s part rest, marshal s = Ok (part +:+ rest) -> rest <> ""%string -> is_ok (unmarshal part) = false;
}.

(** [idgen.New]: the text of an XID ([rs/xid]), lower-case letters and digits;
    no two are alike. *)
Class IDGen : Type := { New_at : N -> string }.
Class IDGenLaws `{IDGen} : Prop := {
  id_text : forall n, xid_text (New_at n) = true /\ New_at n <> ""%string;
  id_fresh : forall m n, New_at m = New_at n -> m = n;
}.

Definition StatusGone : Z := 410.
Definition StatusRequestEntityTooLarge : Z := 413.
Definition ErrSessionNotFound : api_error := APIError StatusNotFound "upload session not found".
Definition ErrSessionForbidden : api_error := APIError StatusForbidden "upload session belongs to another user".
Definition ErrSessionExpired : api_error := APIError StatusGone "upload session expired".
Definition ErrInvalidIndex : api_error := APIError StatusBadRequest "chunk index out of range".
Definition ErrChunkSizeMismatch : api_error := APIError StatusRequestEntityTooLarge "chunk size does not match expected size for this index".
Definition ErrIncompleteUpload : api_error := APIError StatusConflict "not all chunks have been uploaded".
Definition ErrChecksumMismatch : api_error := APIError StatusUnprocessableEntity "assembled file checksum does not match expected checksum".
Definition ErrInvalidChecksum : api_error := APIError StatusBadRequest "expected_checksum must be 64 lowercase hex characters".
Definition ErrInvalidTotalSize : api_error := APIError StatusBadRequest "total_size must be positive".
Definition ErrTooManyChunks : api_error := APIError StatusBadRequest "requested file would require too many chunks".
Definition ErrSessionAlreadyDone : api_error := APIError StatusConflict "upload session is already completed".
Definition ErrNodeMismatch : api_error := APIError StatusForbidden "node does not match upload session".

#[export] Instance api_error_eq_dec : EqDecision api_error.
Proof. solve_decision. Defined.

Definition is_hex_digit (c : ascii) : bool :=
  let n := N_of_ascii c in
  (48 <=? n)%N && (n <=? 57)%N || (97 <=? n)%N && (n <=? 102)%N || (65 <=? n)%N && (n <=? 70)%N.
Definition isHexSHA256 (s : string) : bool := (String.length s =? 64)%nat && forallb is_hex_digit (String.list_ascii_of_string s).

Definition maxInt64 : N := 9223372036854775807.
Definition safeChunkLimit (expectedSize : N) : N := if (maxInt64 <=? expectedSize)%N then maxInt64 else (expectedSize + 1)%N.
Definition size_of (s : string) : N := N.of_nat (String.length s).
(** [io.LimitReader] and [http.MaxBytesReader], which reports what it cuts off. *)
Definition LimitReader (limit : N) (r : Stream) : Stream :=
  if (size_of (sm_content r) <? limit)%N then r else whole (String.substring 0 (N.to_nat limit) (sm_content r)).
Definition MaxBytesReader (limit : N) (r : Stream) : Stream :=
  if (size_of (sm_content r) <=? limit)%N then r
  else mkStream (String.substring 0 (N.to_nat limit) (sm_content r)) (Some (ENew "http: request body too large")).

Record Uploads (F D : Type) : Type := mkUploads {
  up_storage : F; up_daemon : D; up_clock : N; up_ids : N; up_cleanups : list string;
}.
Arguments mkUploads {F D}. Arguments up_storage {F D}. Arguments up_daemon {F D}. Arguments up_clock {F D}. Arguments up_ids {F D}.
Arguments up_cleanups {F D}.

Definition chunk_indices (n : N) : list N := map N.of_nat (seq 0 (N.to_nat n)).

(** How many chunks [Create] plans; the sum is that of [uint64]. *)
Definition total_chunks (chunkSize totalSize : N) : N :=
  let totalChunks := (sub64 (add64 totalSize chunkSize) 1 / chunkSize)%N in
  if (totalChunks =? 0)%N then 1%N else totalChunks.
Definition new_session `{Unicode} (chunkSize : N) (id : string) (p : CreateParams) (now expires : time) : Session :=
  mkSession id (cp_ServerID p) (cp_NodeID p) (cp_UserID p) (cp_FullPath p) (cp_SuUser p) (cp_TotalSize p) chunkSize
    (total_chunks chunkSize (cp_TotalSize p)) (ToLower (cp_ExpectedChecksum p)) now expires.

Section service.
Context {F D : Type} `{StreamFileManager F} `{DaemonUploader D} `{WallClock} `{SessionCodec} `{IDGen} `{Unicode}.
Context (SHA256 : string -> string) (cfg : Config).
Abbreviation S := (Uploads F D).

Definition on_storage {B} (x : M F B) : M S B :=
  zoom up_storage (fun f s => mkUploads f (up_daemon s) (up_clock s) (up_ids s) (up_cleanups s)) x.
Definition on_daemon {B} (x : M D B) : M S B :=
  zoom up_daemon (fun d s => mkUploads (up_storage s) d (up_clock s) (up_ids s) (up_cleanups s)) x.
Definition Now : M S time := fun s => (Ok (now_at (up_clock s)), mkUploads (up_storage s) (up_daemon s) (up_clock s + 1) (up_ids s) (up_cleanups s)).
(** [idgen.New] *)
Definition idgen_New : M S string := fun s =>
  (Ok (New_at (up_ids s)), mkUploads (up_storage s) (up_daemon s) (up_clock s) (up_ids s + 1) (up_cleanups s)).

(** A call answers with a value or with the error of the API. *)
Abbreviation reply B := (M S (B + api_error)).
Definition reject {B} (e : api_error) : reply B := ret (inr e).
Definition accept {B} (b : B) : reply B := ret (inl b).
Definition after {B C} (x : reply B) (k : B -> reply C) : reply C :=
  let! r := x in match r with inl b => k b | inr e => reject e end.
Definition storing {B C} (msg : string) (x : M F B) (k : B -> reply C) : reply C :=
  let! r := attempt (on_storage x) in
  match r with
  | Panic w => lift (Panic w)
  | Err e => reject (OtherError (EWrap msg e))
  | Ok b => k b
  end.
(** A call whose error is dropped or logged. *)
Definition quietly {B} (x : M S B) : M S unit := do! attempt x ;; ret tt.

Definition Create (p : CreateParams) : reply Session :=
  if (cp_TotalSize p =? 0)%N then reject ErrInvalidTotalSize
  else if negb (isHexSHA256 (cp_ExpectedChecksum p)) then reject ErrInvalidChecksum
  else
    let chunkSize := cf_ChunkSize cfg in
    if (chunkSize =? 0)%N then reject (OtherError (ENew "chunk size is not configured"))
    else
      if (0 <? cf_MaxChunks cfg)%N && (cf_MaxChunks cfg <? total_chunks chunkSize (cp_TotalSize p))%N then reject ErrTooManyChunks
      else
        let! now := Now in
        let! id := idgen_New in
        let sess := new_session chunkSize id p now (now + cf_SessionTTL cfg)%Z in
        match marshal sess with
        | Panic w => lift (Panic w)
        | Err e => reject (OtherError (EWrap "marshal session metadata" e))
        | Ok data => storing "write session metadata" (FM_Write (metadataPath (ss_UploadID sess)) data) (fun _ => accept sess)
        end.

Definition load (uploadID : string) : reply Session :=
  let! raw := attempt (on_storage (FM_Read (metadataPath uploadID))) in
  match raw with
  | Panic w => lift (Panic w)
  | Err _ => reject ErrSessionNotFound
  | Ok raw =>
      match unmarshal raw with
      | Panic w => lift (Panic w)
      | Err e => reject (OtherError (EWrap "unmarshal session metadata" e))
      | Ok sess => accept sess
      end
  end.

Definition verifyAccess (sess : Session) (userID : N) : reply unit :=
  if negb (ss_UserID sess =? userID)%N then reject ErrSessionForbidden
  else if IsZero (ss_ExpiresAt sess) then accept tt
  else let! now := Now in if (ss_ExpiresAt sess <? now)%Z then reject ErrSessionExpired else accept tt.

Definition receivedChunks (uploadID : string) : reply (gset N) :=
  storing "list uploaded chunks" (FM_List (chunksPrefix uploadID)) (fun paths =>
  accept (list_to_set (omap (indexFromChunkPath uploadID) paths))).

Definition WriteChunk (uploadID : string) (userID index : N) (body : Stream) : reply unit :=
  after (load uploadID) (fun sess => after (verifyAccess sess userID) (fun _ =>
  let! completed := on_storage (FM_Exists (donePath uploadID)) in
  if completed then reject ErrSessionAlreadyDone
  else if (ss_TotalChunks sess <=? index)%N then reject ErrInvalidIndex
  else
    let expectedSize := ChunkSizeFor sess index in
    let limited := LimitReader (safeChunkLimit expectedSize) body in
    let cp := chunkPath uploadID index in
    let! written := attempt (on_storage (FM_WriteStream cp limited)) in
    match written with
    | Panic w => lift (Panic w)
    | Err e => do! quietly (on_storage (FM_Delete cp)) ;; reject (OtherError (EWrap "write chunk" e))
    | Ok _ =>
        if (size_of (sm_content limited) =? expectedSize)%N then accept tt
        else do! quietly (on_storage (FM_Delete cp)) ;; reject ErrChunkSizeMismatch
    end)).

(** The loop over the indices: what has been received, what is missing, and the
    sizes of what has been received. *)
Fixpoint sort_chunks (sess : Session) (received : gset N) (l : list N) : list N * list N * N :=
  match l with
  | [] => ([], [], 0%N)
  | i :: l =>
      let '(have, miss, size) := sort_chunks sess received l in
      if decide (i ∈ received) then (i :: have, miss, add64 (ChunkSizeFor sess i) size) else (have, i :: miss, size)
  end.
Definition Status (uploadID : string) (userID : N) : reply SessionStatus :=
  after (load uploadID) (fun sess => after (verifyAccess sess userID) (fun _ =>
  after (receivedChunks (ss_UploadID sess)) (fun received =>
  let '(have, miss, size) := sort_chunks sess received (chunk_indices (ss_TotalChunks sess)) in
  let! completed := on_storage (FM_Exists (donePath uploadID)) in
  accept (mkStatus sess have miss size completed)))).

(** [io.MultiReader] over the readers of the chunks, each opened when it is
    reached ([lazy_reader.go]). *)
Fixpoint read_chunks (uploadID : string) (l : list N) : M F Stream :=
  match l with
  | [] => ret (whole "")
  | i :: l =>
      let! opened := attempt (FM_ReadStream (chunkPath uploadID i)) in
      match opened with
      | Panic w => lift (Panic w)
      | Err e => ret (mkStream "" (Some (EWrap ("open chunk " +:+ chunkPath uploadID i) e)))
      | Ok chunk =>
          match sm_fault chunk with
          | Some _ => ret chunk
          | None => let! rest := read_chunks uploadID l in ret (mkStream (sm_content chunk +:+ sm_content rest) (sm_fault rest))
          end
      end
  end.

(** The chunks are read while the data is written, into another file. *)
Definition assemble (uploadID : string) (totalChunks : N) : M F string :=
  let! data := read_chunks uploadID (chunk_indices totalChunks) in
  do! FM_WriteStream (dataPath uploadID) data ;; ret (SHA256 (sm_content data)).

Definition write_done (uploadID checksum : string) : M S unit :=
  match marshalDone true checksum with
  | Ok info => quietly (on_storage (FM_Write (donePath uploadID) info))
  | Err _ => ret tt
  | Panic w => lift (Panic w)
  end.
Definition later (uploadID : string) : M S unit :=
  modify (fun s => mkUploads (up_storage s) (up_daemon s) (up_clock s) (up_ids s) (up_cleanups s ++ [uploadID])).

Definition Complete (uploadID : string) (userID : N) (node : option Node) : reply unit :=
  after (load uploadID) (fun sess => after (verifyAccess sess userID) (fun _ =>
  match node with
  | None => reject ErrNodeMismatch
  | Some node =>
      if negb (nd_ID node =? ss_NodeID sess)%N then reject ErrNodeMismatch
      else
        let! completed := on_storage (FM_Exists (donePath uploadID)) in
        if completed then accept tt
        else after (receivedChunks uploadID) (fun received =>
          if negb (N.of_nat (size received) =? ss_TotalChunks sess)%N then reject ErrIncompleteUpload
          else if negb (forallb (fun i => bool_decide (i ∈ received)) (chunk_indices (ss_TotalChunks sess))) then reject ErrIncompleteUpload
          else
            let dp := dataPath uploadID in
            let! assembled := attempt (on_storage (assemble uploadID (ss_TotalChunks sess))) in
            match assembled with
            | Panic w => lift (Panic w)
            | Err e => do! quietly (on_storage (FM_Delete dp)) ;; reject (OtherError (EWrap "assemble upload data" e))
            | Ok actual =>
                if negb (String.eqb actual (ss_ExpectedChecksum sess))
                then do! quietly (on_storage (FM_Delete dp)) ;; reject ErrChecksumMismatch
                else
                  let! sent := attempt (on_daemon (UploadStreamPrepared node (ss_FullPath sess) (ss_UploadID sess) actual (ss_TotalSize sess)
                                                     (mkOwner (ss_SuUser sess) 0 0))) in
                  match sent with
                  | Panic w => lift (Panic w)
                  | Err e => do! quietly (on_storage (FM_Delete dp)) ;; reject (OtherError (EWrap "dispatch upload to daemon" e))
                  | Ok _ => do! write_done uploadID actual ;; do! later uploadID ;; accept tt
                  end
            end)
  end)).

Definition cleanupAfterComplete (uploadID : string) : M S unit :=
  do! quietly (on_storage (FM_DeleteByPrefix (chunksPrefix uploadID))) ;;
  quietly (on_storage (FM_Delete (dataPath uploadID))).

Definition Abort (uploadID : string) (userID : N) : reply unit :=
  let! loaded := load uploadID in
  match loaded with
  | inr e => if decide (e = ErrSessionNotFound) then accept tt else reject e
  | inl sess => after (verifyAccess sess userID) (fun _ =>
      storing "delete upload session" (FM_DeleteByPrefix (transferRoot uploadID)) (fun _ => accept tt))
  end.

(** *** The janitor *)

Definition maybeRemove (uploadID : string) : M S unit :=
  let! raw := attempt (on_storage (FM_Read (metadataPath uploadID))) in
  match raw with
  | Panic w => lift (Panic w)
  | Err _ => ret tt
  | Ok raw =>
      match unmarshal raw with
      | Panic w => lift (Panic w)
      | Err _ => ret tt
      | Ok sess =>
          if IsZero (ss_ExpiresAt sess) then ret tt
          else
            let! now := Now in
            if (now <? ss_ExpiresAt sess)%Z then ret tt else quietly (on_storage (FM_DeleteByPrefix (transferRoot uploadID)))
      end
  end.
Fixpoint sweep (seen : gset string) (paths : list string) : M S unit :=
  match paths with
  | [] => ret tt
  | p :: paths =>
      match uploadIDFromPath p with
      | None => sweep seen paths
      | Some uploadID =>
          if decide (uploadID ∈ seen) then sweep seen paths
          else do! maybeRemove uploadID ;; sweep ({[uploadID]} ∪ seen) paths
      end
  end.
Definition Sweep : M S unit :=
  let! paths := attempt (on_storage (FM_List transferPrefix)) in
  match paths with
  | Panic w => lift (Panic w)
  | Err _ => ret tt
  | Ok paths => sweep ∅ paths
  end.
End service.
