(* ===== verification/UploadsSafe.v ===== *)
(** What a chunked upload ([Uploads]) delivers: whatever else happens to the
    storage, the daemon is only told of a file that was assembled from the chunks
    of the session, has the checksum announced for it, and goes where the session
    was created for. *)

From S2P Require Import Prelude.
From S2P Require Import GoNum.
From S2P Require Import Domain.
From S2P Require Import GoRuntime.
From S2P Require Import Http.
From S2P Require Import FileManager.
From stdpp Require Import base tactics strings list gmap numbers.
From Stdlib Require Import NArith ZArith Ascii.
From S2P Require Import Ids.
From S2P Require Import FilePath.
From S2P Require Import FileStore.
From S2P Require Import Uploads.
From S2P Require Dispatcher.

(** ** Paths *)

Lemma segment_text s : xid_text s = true -> s <> ""%string -> segment s.
Proof.
  intros Hx Hne. destruct (xid_text_part s Hx) as [Hs Hd]. split; [|exact Hs]. split; [done|]. split; [|done].
  intros ->. by vm_compute in Hx.
Qed.

(** Decimal digits only. *)
Definition decimal (s : string) : bool := forallb (fun c => bool_decide (is_Some (char_digit c))) (String.list_ascii_of_string s).
Lemma decimal_cons c s : decimal (String c s) = bool_decide (is_Some (char_digit c)) && decimal s.
Proof. reflexivity. Qed.
Lemma decimal_app s t : decimal (s +:+ t) = decimal s && decimal t.
Proof. induction s as [|c s IH]; [done|]. rewrite String_app, !decimal_cons, IH. by rewrite andb_assoc. Qed.
Lemma decimal_text s : decimal s = true -> xid_text s = true.
Proof.
  induction s as [|c s IH]; [done|]. rewrite decimal_cons. intros [Hc Hs]%andb_prop. simpl. rewrite IH by done. rewrite andb_true_r.
  apply bool_decide_eq_true in Hc as [d Hd]. unfold char_digit in Hd. unfold xid_char.
  by destruct ((48 <=? N_of_ascii c)%N && (N_of_ascii c <=? 57)%N).
Qed.
Lemma digit_decimal d : (d < 10)%N -> bool_decide (is_Some (char_digit (digit_char d))) = true.
Proof. intros Hd. rewrite digit_char_ok by done. by apply bool_decide_eq_true. Qed.
Lemma format_decimal fuel n acc : decimal acc = true -> decimal (format_fuel fuel n acc) = true.
Proof.
  revert n acc. induction fuel as [|fuel IH]; intros n acc Hacc; [done|]. simpl. pose proof (N.mod_lt n 10 ltac:(done)) as Hm.
  destruct (n / 10 =? 0)%N; [|apply IH]; rewrite decimal_cons, digit_decimal, Hacc by done; done.
Qed.
Lemma FormatUint_decimal n : decimal (FormatUint n) = true /\ FormatUint n <> ""%string.
Proof. split; [by apply format_decimal|]. by destruct (FormatUint_cons n) as (c & s & ->). Qed.

Lemma zeros_decimal k : decimal (String.string_of_list_ascii (replicate k "0"%char)) = true.
Proof. by induction k. Qed.
Lemma app_nonempty_r (s t : string) : t <> ""%string -> s +:+ t <> ""%string.
Proof. by destruct s. Qed.
Lemma chunkName_segment i : segment (chunkName i).
Proof.
  unfold chunkName. destruct (FormatUint_decimal i) as [Hd Hne]. apply segment_text; [|by apply app_nonempty_r].
  apply decimal_text. by rewrite decimal_app, zeros_decimal, Hd.
Qed.

(** *** A chunk's name gives its index back *)

Lemma scan_zeros k s : scan_index (String.string_of_list_ascii (replicate (S k) "0"%char) +:+ s) =
  Some (scan_digits 5 0 (String.string_of_list_ascii (replicate k "0"%char) +:+ s)).
Proof. reflexivity. Qed.
Lemma scan_digits_zeros w k s : scan_digits (k + w) 0 (String.string_of_list_ascii (replicate k "0"%char) +:+ s) = scan_digits w 0 s.
Proof. by induction k. Qed.
Lemma scan_digits_value w n s v : digits_value n s = Some v -> String.length s <= w -> scan_digits w n s = v.
Proof.
  revert n s. induction w as [|w IH]; intros n [|c s] Hv Hl; simpl in *; try lia; try congruence.
  destruct (char_digit c); [|done]. apply IH; [done|lia].
Qed.
Lemma scan_index_value s v : digits_value 0 s = Some v -> s <> ""%string -> String.length s <= 6 -> scan_index s = Some v.
Proof.
  destruct s as [|c s]; [done|]. cbn [digits_value scan_index String.length]. intros Hv _ Hl. destruct (char_digit c) as [d|]; [|done]. f_equal.
  apply scan_digits_value; [done|lia].
Qed.

Lemma format_length fuel k n acc : (n < 10 ^ N.of_nat (S k))%N -> k < fuel -> String.length (format_fuel fuel n acc) <= S k + String.length acc.
Proof.
  revert k n acc. induction fuel as [|fuel IH]; intros k n acc Hn Hk; [lia|]. simpl. destruct (n / 10 =? 0)%N eqn:E; [simpl; lia|].
  destruct k as [|k].
  - exfalso. apply N.eqb_neq in E. apply E. apply N.div_small. exact Hn.
  - etransitivity; [apply (IH k)|].
    + apply N.Div0.div_lt_upper_bound. rewrite (Nat2N.inj_succ (S k)), N.pow_succ_r' in Hn. lia.
    + lia.
    + simpl. lia.
Qed.
Lemma FormatUint_length n : (n < 1000000)%N -> String.length (FormatUint n) <= 6.
Proof. intros Hn. exact (format_length 20 5 n "" Hn ltac:(lia)). Qed.

Lemma scan_chunkName i : (i < 1000000)%N -> scan_index (chunkName i) = Some i.
Proof.
  intros Hi. assert (Hu : (i < two64)%N) by (unfold two64; lia). pose proof (FormatUint_length i Hi) as Hl.
  pose proof (FormatUint_value i Hu) as Hv. destruct (FormatUint_decimal i) as [_ Hne]. unfold chunkName.
  destruct (6 - String.length (FormatUint i)) as [|k] eqn:E; [by apply scan_index_value|].
  rewrite scan_zeros. f_equal. replace 5 with (k + (5 - k)) by lia. rewrite scan_digits_zeros. apply scan_digits_value; [done|lia].
Qed.

(** *** The files of a session *)

Definition in_session (u : string) (l : list string) : string := unparts (["transfers"; u] ++ l).

Section paths.
Context (u : string).
Lemma metadataPath_parts : metadataPath u = in_session u ["upload.json"].
Proof. unfold metadataPath, transferRoot, transferPrefix. by rewrite !string_app_assoc. Qed.
Lemma dataPath_parts : dataPath u = in_session u ["data"].
Proof. unfold dataPath, transferRoot, transferPrefix. by rewrite !string_app_assoc. Qed.
Lemma donePath_parts : donePath u = in_session u ["done"].
Proof. unfold donePath, transferRoot, transferPrefix. by rewrite !string_app_assoc. Qed.
Lemma transferRoot_parts : transferRoot u = unparts ["transfers"; u] +:+ "/".
Proof. unfold transferRoot, transferPrefix. simpl. by rewrite !string_app_assoc. Qed.
Lemma chunksPrefix_parts : chunksPrefix u = unparts ["transfers"; u; "chunks"] +:+ "/".
Proof. unfold chunksPrefix, transferRoot, transferPrefix. simpl. by rewrite !string_app_assoc. Qed.
Lemma chunkPath_parts i : chunkPath u i = in_session u ["chunks"; chunkName i].
Proof. unfold chunkPath. rewrite chunksPrefix_parts. unfold in_session. simpl. by rewrite !string_app_assoc. Qed.
End paths.

Lemma word_segment x : bool_decide (segment x) = true -> segment x.
Proof. apply bool_decide_eq_true. Qed.
Ltac segments :=
  repeat match goal with |- List.Forall _ (_ :: _) => constructor | |- List.Forall _ [] => constructor end;
  first [assumption|by apply word_segment|apply chunkName_segment].
Lemma root_segments u : segment u -> Forall segment ["transfers"; u].
Proof. intros Hu. segments. Qed.
Lemma in_session_plain u l : segment u -> Forall segment l -> plain (in_session u l).
Proof. intros Hu Hl. exists (["transfers"; u] ++ l). split; [done|]. split; [|done]. apply list.Forall_app. split; [by apply root_segments|done]. Qed.
Lemma in_session_inj u v l m : segment u -> segment v -> Forall segment l -> Forall segment m ->
  in_session u l = in_session v m -> u = v /\ l = m.
Proof.
  intros Hu Hv Hl Hm E. apply plain_inj in E; [by simplify_eq/=|done|done|..]; apply list.Forall_app; (split; [by apply root_segments|done]).
Qed.

Lemma meta_plain u : segment u -> plain (metadataPath u).
Proof. intros Hu. rewrite metadataPath_parts. apply in_session_plain; [done|]. segments. Qed.
Lemma data_plain u : segment u -> plain (dataPath u).
Proof. intros Hu. rewrite dataPath_parts. apply in_session_plain; [done|]. segments. Qed.
Lemma done_plain u : segment u -> plain (donePath u).
Proof. intros Hu. rewrite donePath_parts. apply in_session_plain; [done|]. segments. Qed.
Lemma chunk_segments i : Forall segment ["chunks"; chunkName i].
Proof. segments. Qed.
Lemma chunk_plain u i : segment u -> plain (chunkPath u i).
Proof. intros Hu. rewrite chunkPath_parts. apply in_session_plain; [done|apply chunk_segments]. Qed.
Create HintDb uploads.
#[export] Hint Resolve meta_plain data_plain done_plain chunk_plain chunk_segments : uploads.

(** Where in its session a file is. *)
Inductive place_in (u : string) : list string -> string -> Prop :=
| in_meta : place_in u ["upload.json"] (metadataPath u)
| in_data : place_in u ["data"] (dataPath u)
| in_done : place_in u ["done"] (donePath u)
| in_chunk i : place_in u ["chunks"; chunkName i] (chunkPath u i).
Lemma place_in_spec u l p : place_in u l p -> Forall segment l /\ p = in_session u l.
Proof.
  destruct 1.
  - split; [segments|apply metadataPath_parts].
  - split; [segments|apply dataPath_parts].
  - split; [segments|apply donePath_parts].
  - split; [apply chunk_segments|apply chunkPath_parts].
Qed.
Lemma places_apart u v l m p q : segment u -> segment v -> place_in u l p -> place_in v m q -> u <> v \/ l <> m -> p <> q.
Proof.
  intros Hu Hv [Hl ->]%place_in_spec [Hm ->]%place_in_spec Hne E. apply in_session_inj in E as [-> ->]; [|done..]. by destruct Hne.
Qed.
#[export] Hint Constructors place_in : uploads.

(** What is under the root of a session, or under its chunks. *)
Lemma place_under_root u v l p : segment u -> segment v -> place_in v l p -> under (transferRoot u) p = true -> u = v.
Proof.
  intros Hu Hv [Hl ->]%place_in_spec. rewrite transferRoot_parts. intros (l2 & Hne & Hs & E)%under_parts; [|by apply root_segments|done|by apply in_session_plain].
  change (unparts (["transfers"; u] ++ l2)) with (in_session u l2) in E. by apply in_session_inj in E as [-> _].
Qed.
Lemma place_under_chunks u v l p : segment u -> segment v -> place_in v l p -> under (chunksPrefix u) p = true -> u = v /\ head l = Some "chunks"%string.
Proof.
  intros Hu Hv [Hl ->]%place_in_spec. rewrite chunksPrefix_parts. intros (l2 & Hne & Hs & E)%under_parts; [| |done|by apply in_session_plain].
  - change (unparts (["transfers"; u; "chunks"] ++ l2)) with (in_session u ("chunks"%string :: l2)) in E.
    apply in_session_inj in E as [-> ->]; [done..|]. constructor; [by apply word_segment|done].
  - segments.
Qed.

(** ** Operations leave the description of a session alone, or remove it *)

Section safe.
Context {F D : Type} `{StreamFileManagerLaws F} `{DaemonUploader D} `{WallClock} `{SessionCodecLaws} `{IDGenLaws} `{Unicode}.
Context (SHA256 : string -> string) (cfg : Config).
Implicit Types s : Uploads F D.

Definition file_of s : string -> option string := fm_file (up_storage s).
Record gentle s s' : Prop := mkGentle {
  ge_inv : fm_inv (up_storage s) -> fm_inv (up_storage s');
  ge_ids : up_ids s' = up_ids s;
  ge_meta : fm_inv (up_storage s) -> forall u, segment u ->
    file_of s' (metadataPath u) = file_of s (metadataPath u) \/ file_of s' (metadataPath u) = None;
}.
#[local] Instance gentle_preorder : PreOrder gentle.
Proof.
  split.
  - intros s. split; auto.
  - intros s1 s2 s3 [I1 D1 M1] [I2 D2 M2]. split; [auto|congruence|]. intros Hi u Hu.
    destruct (M2 (I1 Hi) u Hu) as [->|E]; [by apply M1|by right].
Qed.

Lemma gentle_storage {B} (x : M F B) :
  (forall f, fm_inv f -> wp x (fun _ f' => fm_inv f' /\ forall u, segment u ->
     fm_file f' (metadataPath u) = fm_file f (metadataPath u) \/ fm_file f' (metadataPath u) = None) f) ->
  moves gentle (on_storage (D:=D) x).
Proof.
  intros Hx s. unfold on_storage, zoom. destruct (x (up_storage s)) as [r f'] eqn:E. simpl.
  assert (Hw : fm_inv (up_storage s) -> fm_inv f' /\ forall u, segment u ->
    fm_file f' (metadataPath u) = fm_file (up_storage s) (metadataPath u) \/ fm_file f' (metadataPath u) = None).
  { intros Hi. exact (wp_run _ _ _ _ _ (Hx (up_storage s) Hi) E). }
  split; simpl; [apply Hw|done|apply Hw].
Qed.
Lemma gentle_same {B} (x : M F B) : (forall f, fm_inv f -> wp x (fun _ f' => fm_inv f' /\ same fm_file f f') f) ->
  moves gentle (on_storage (D:=D) x).
Proof.
  intros Hx. apply gentle_storage. intros f Hi. eapply wp_mono; [by apply Hx|]. intros r f' [Hi' Hs]. split; [done|].
  intros u Hu. left. by apply Hs, meta_plain.
Qed.
Lemma gentle_only {B} u l p (x : M F B) : segment u -> place_in u l p -> l <> ["upload.json"%string] ->
  (forall f, fm_inv f -> wp x (fun _ f' => fm_inv f' /\ only fm_file p f f') f) -> moves gentle (on_storage (D:=D) x).
Proof.
  intros Hu Hp Hl Hx. apply gentle_storage. intros f Hi. eapply wp_mono; [by apply Hx|]. intros r f' [Hi' Hs]. split; [done|].
  intros v Hv. left. apply Hs; [by apply meta_plain|]. eapply places_apart; [exact Hv|exact Hu|constructor|exact Hp|by right].
Qed.

Lemma gentle_read u : segment u -> moves gentle (on_storage (D:=D) (FM_Read (metadataPath u))).
Proof. intros Hu. apply gentle_same. intros f Hi. eapply wp_mono; [apply fm_read_law; eauto with uploads|]. naive_solver. Qed.
Lemma gentle_exists u : segment u -> moves gentle (on_storage (D:=D) (FM_Exists (donePath u))).
Proof. intros Hu. apply gentle_same. intros f Hi. eapply wp_mono; [apply fm_exists_law; eauto with uploads|]. naive_solver. Qed.
Lemma gentle_list p : moves gentle (on_storage (D:=D) (FM_List p)).
Proof. apply gentle_same. intros f Hi. eapply wp_mono; [by apply fm_list_law|]. naive_solver. Qed.
Lemma gentle_delete u l p : segment u -> place_in u l p -> l <> ["upload.json"%string] -> moves gentle (on_storage (D:=D) (FM_Delete p)).
Proof.
  intros Hu Hp Hl. eapply gentle_only; [done..|]. intros f Hi. eapply wp_mono; [apply fm_delete_law; [done|]|naive_solver].
  destruct (place_in_spec _ _ _ Hp) as [? ->]. by apply in_session_plain.
Qed.
Lemma gentle_write u l p d : segment u -> place_in u l p -> l <> ["upload.json"%string] -> moves gentle (on_storage (D:=D) (FM_Write p d)).
Proof.
  intros Hu Hp Hl. eapply gentle_only; [done..|]. intros f Hi. eapply wp_mono; [apply fm_write_law; [done|]|naive_solver].
  destruct (place_in_spec _ _ _ Hp) as [? ->]. by apply in_session_plain.
Qed.
Lemma gentle_write_stream u l p d : segment u -> place_in u l p -> l <> ["upload.json"%string] -> moves gentle (on_storage (D:=D) (FM_WriteStream p d)).
Proof.
  intros Hu Hp Hl. eapply gentle_only; [done..|]. intros f Hi. eapply wp_mono; [apply fm_write_stream_law; [done|]|naive_solver].
  destruct (place_in_spec _ _ _ Hp) as [? ->]. by apply in_session_plain.
Qed.
Lemma gentle_delete_prefix l : l <> [] -> Forall segment l -> moves gentle (on_storage (D:=D) (FM_DeleteByPrefix (unparts l +:+ "/"))).
Proof.
  intros Hl Hs. apply gentle_storage. intros f Hi. eapply wp_mono; [by apply fm_delete_prefix_law|]. intros r f' [Hi' Hq]. split; [done|].
  intros u Hu. destruct (Hq (metadataPath u)) as [E|[_ E]]; [by apply meta_plain|by left|by right].
Qed.
Lemma gentle_now : moves gentle (Now (F:=F) (D:=D)).
Proof. by split; auto. Qed.
Lemma gentle_daemon {B} (x : M D B) : moves gentle (on_daemon (F:=F) x).
Proof. intros s. unfold on_daemon, zoom. destruct (x (up_daemon s)). by split; auto. Qed.

(** *** Putting the chunks together *)

Definition joined (l : list string) : string := foldr String.append ""%string l.
Definition chunks_are (file : string -> option string) (u : string) (l : list N) (ds : list string) : Prop :=
  Forall2 (fun i d => file (chunkPath u i) = Some d) l ds.

Lemma wp_read_chunks u l f : segment u -> fm_inv f ->
  wp (read_chunks u l) (fun r f' => fm_inv f' /\ same fm_file f f' /\
    forall st, r = Ok st -> sm_fault st = None -> exists ds, chunks_are (fm_file f) u l ds /\ sm_content st = joined ds) f.
Proof.
  intros Hu. revert f. induction l as [|i l IH]; intros f Hi; simpl.
  - wp_step. split; [done|]. split; [apply same_refl|]. intros st [= <-] _. exists []. split; [constructor|done].
  - do 2 wp_step. eapply wp_mono; [apply fm_read_stream_law; eauto with uploads|]. intros r f1 (Hi1 & Hs1 & Hr). destruct r as [chunk|e|w].
    + destruct (sm_fault chunk) eqn:Ef; [wp_step; split; [done|]; split; [done|]; intros st [= <-]; congruence|].
      wp_step. eapply wp_mono; [by apply IH|]. intros r f2 (Hi2 & Hs2 & Hds). destruct r as [rest|e|w]; [wp_step|..];
        (split; [done|]; split; [by eapply same_trans|]); [|done..].
      intros st [= <-] Hn. simpl in *. destruct (Hds rest eq_refl Hn) as (ds & Hall & E). exists (sm_content chunk :: ds). simpl.
      split; [|by rewrite E]. constructor; [by apply Hr|]. eapply list.Forall2_impl; [exact Hall|]. intros j d Hj. simpl in *.
      rewrite <- Hj. symmetry. by apply Hs1, chunk_plain.
    + wp_step. split; [done|]. split; [done|]. by intros st [= <-].
    + done.
Qed.

Lemma wp_assemble u n f : segment u -> fm_inv f ->
  wp (assemble SHA256 u n) (fun r f' => fm_inv f' /\ only fm_file (dataPath u) f f' /\
    forall sum, r = Ok sum -> exists ds, chunks_are (fm_file f) u (chunk_indices n) ds /\ sum = SHA256 (joined ds) /\
      fm_file f' (dataPath u) = Some (joined ds)) f.
Proof.
  intros Hu Hi. unfold assemble. wp_step. eapply wp_mono; [by apply wp_read_chunks|]. intros r f1 (Hi1 & Hs1 & Hds).
  destruct r as [st|e|w]; [|split; [done|]; split; [by apply same_only|done]..].
  wp_step. eapply wp_mono; [apply fm_write_stream_law; eauto with uploads|]. intros r f2 (Hi2 & Ho & Hr).
  assert (Hoo : only fm_file (dataPath u) f f2) by (eapply only_trans; [by apply same_only|done]).
  destruct r as [[]|e|w]; [wp_step|..]; (split; [done|]; split; [done|]); [|done..].
  intros sum [= <-]. destruct Hr as [Hn Hd]. destruct (Hds st eq_refl Hn) as (ds & Hall & E). exists ds. by rewrite <- E.
Qed.

(** *** Every operation but [Create] is gentle *)

Ltac gently_step :=
  lazymatch goal with
  | |- moves ?P (bind _ _) => apply (moves_bind P); [|intros ?]
  | |- moves ?P (attempt _) => apply (moves_attempt P)
  | |- moves ?P (ret _) => apply (moves_ret P)
  | |- moves ?P (lift _) => apply (moves_lift P)
  | |- moves _ (reject _) => unfold reject
  | |- moves _ (accept _) => unfold accept
  | |- moves _ (after _ _) => unfold after
  | |- moves _ (storing _ _ _) => unfold storing
  | |- moves _ (quietly _) => unfold quietly
  | |- moves _ (match ?x with _ => _ end) => destruct x
  | |- moves _ (on_storage (FM_Read _)) => by apply gentle_read
  | |- moves _ (on_storage (FM_Exists _)) => by apply gentle_exists
  | |- moves _ (on_storage (FM_List _)) => apply gentle_list
  | |- moves _ (on_storage (FM_Delete _)) => eapply gentle_delete; [eassumption|constructor|done]
  | |- moves _ (on_storage (FM_Write _ _)) => eapply gentle_write; [eassumption|constructor|done]
  | |- moves _ (on_storage (FM_WriteStream _ _)) => eapply gentle_write_stream; [eassumption|constructor|done]
  | |- moves _ (on_storage (FM_DeleteByPrefix _)) => eassumption
  | |- moves _ Now => apply gentle_now
  | |- moves _ (on_daemon _) => apply gentle_daemon
  end.
Ltac gently := cbv zeta; repeat gently_step.

Lemma gentle_load u : segment u -> moves gentle (load (D:=D) u).
Proof. intros Hu. unfold load. gently. Qed.
Lemma gentle_verify sess w : moves gentle (verifyAccess (F:=F) (D:=D) sess w).
Proof. unfold verifyAccess. gently. Qed.
Lemma gentle_received u : moves gentle (receivedChunks (D:=D) u).
Proof. unfold receivedChunks. gently. Qed.
Lemma gentle_root u : segment u -> moves gentle (on_storage (D:=D) (FM_DeleteByPrefix (transferRoot u))).
Proof. intros Hu. rewrite transferRoot_parts. apply gentle_delete_prefix; [done|by apply root_segments]. Qed.
Lemma gentle_chunks u : segment u -> moves gentle (on_storage (D:=D) (FM_DeleteByPrefix (chunksPrefix u))).
Proof. intros Hu. rewrite chunksPrefix_parts. apply gentle_delete_prefix; [done|segments]. Qed.
Lemma gentle_assemble u n : segment u -> moves gentle (on_storage (D:=D) (assemble SHA256 u n)).
Proof.
  intros Hu. eapply (gentle_only u ["data"%string]); [done|constructor|done|]. intros f Hi.
  eapply wp_mono; [by apply wp_assemble|]. naive_solver.
Qed.
Lemma gentle_later u : moves gentle (later (F:=F) (D:=D) u).
Proof. intros s. by split; auto. Qed.
Lemma write_done_gentle u c : segment u -> moves gentle (write_done (D:=D) u c).
Proof. intros Hu. unfold write_done. gently. Qed.
Create HintDb gentle.
#[local] Hint Resolve write_done_gentle gentle_load gentle_verify gentle_received gentle_root gentle_chunks gentle_assemble gentle_later : gentle.

Lemma WriteChunk_gentle u w i b : segment u -> moves gentle (WriteChunk (D:=D) u w i b).
Proof. intros Hu. unfold WriteChunk. gently; eauto with gentle. Qed.
Lemma Status_gentle u w : segment u -> moves gentle (Status (D:=D) u w).
Proof. intros Hu. unfold Status. gently; eauto with gentle. Qed.
Lemma Complete_gentle u w node : segment u -> moves gentle (Complete SHA256 u w node).
Proof. intros Hu. unfold Complete. gently; eauto with gentle. Qed.
Lemma cleanup_gentle u : segment u -> moves gentle (cleanupAfterComplete (D:=D) u).
Proof. intros Hu. unfold cleanupAfterComplete. gently; eauto with gentle. Qed.
Lemma Abort_gentle u w : segment u -> moves gentle (Abort (D:=D) u w).
Proof. intros Hu. unfold Abort. gently; eauto with gentle. Qed.

Lemma trim_slash_app x : x <> ""%string -> has_byte slash x = false -> trim_slash (x +:+ "/") = x /\ trim_slash x = x.
Proof.
  unfold has_byte. induction x as [|c x IH]; [done|]. intros _ Hx. simpl in Hx. destruct (Ascii.eqb c slash) eqn:Ec; [done|].
  destruct x as [|d x]; [cbn; by rewrite Ec|]. destruct IH as [E1 E2]; [done|by destruct (cut_byte slash (String d x)) as [[]|]|].
  rewrite String_app. cbn [trim_slash]. rewrite String_app in *. cbn [trim_slash] in *. by rewrite E1, E2.
Qed.
Lemma cut_first x t : has_byte slash x = false -> cut_byte slash (x +:+ "/" +:+ t) = Some (x, t).
Proof.
  unfold has_byte. induction x as [|c x IH]; [done|]. intros Hx. simpl in Hx. rewrite String_app. simpl.
  destruct (Ascii.eqb c slash); [done|]. rewrite IH; [done|]. by destruct (cut_byte slash x) as [[]|].
Qed.
Lemma cut_none x : has_byte slash x = false -> cut_byte slash x = None.
Proof. unfold has_byte. by destruct (cut_byte slash x). Qed.
Lemma trim_transfers t : String.prefix transferPrefix (transferPrefix +:+ t) = true /\ TrimPrefix (transferPrefix +:+ t) transferPrefix = t.
Proof. unfold TrimPrefix. by rewrite string_prefix_app, substring_suffix. Qed.
Lemma segment_unprefixed e : has_byte slash e = false -> String.prefix transferPrefix e = false.
Proof.
  intros He. destruct (String.prefix transferPrefix e) eqn:E; [|done]. apply prefix_spec in E as [t ->]. exfalso.
  assert (Hc : cut_byte slash (transferPrefix +:+ t) = Some ("transfers"%string, t)) by (exact (cut_first "transfers" t eq_refl)).
  unfold has_byte in He. by rewrite Hc in He.
Qed.

Lemma uploadID_segment e u : listing_name transferPrefix e -> uploadIDFromPath e = Some u -> segment u.
Proof.
  unfold uploadIDFromPath. intros [[Hu Hp]|[He|(x & Hx & ->)]].
  - destruct (under_parts ["transfers"%string] e) as (l2 & Hne & Hs2 & ->); [segments|done..|].
    assert (E : unparts (["transfers"%string] ++ l2) = transferPrefix +:+ unparts l2) by by apply unparts_app.
    rewrite E. destruct (trim_transfers (unparts l2)) as [-> ->]. destruct l2 as [|x l2]; [done|].
    apply list.Forall_cons in Hs2 as [Hx Hs2]. destruct l2 as [|y l2]; [change (unparts [x]) with x; by rewrite (cut_none x) by apply Hx|].
    change (unparts (x :: y :: l2)) with (x +:+ "/" +:+ unparts (y :: l2)). rewrite cut_first by apply Hx.
    destruct (String.eqb_spec x ""); [done|]. by intros [= <-].
  - rewrite segment_unprefixed by apply He. destruct (trim_slash_app e) as [_ ->]; [apply He..|].
    destruct (_ || _); [done|]. by intros [= <-].
  - assert (Hn : String.prefix transferPrefix (x +:+ "/") = false \/ x = "transfers"%string).
    { destruct (String.prefix transferPrefix (x +:+ "/")) eqn:E; [|by left]. apply prefix_spec in E as [t Et]. right.
      assert (Hc : cut_byte slash (x +:+ "/" +:+ ""%string) = Some (x, ""%string)) by (apply cut_first, Hx).
      change (x +:+ "/" +:+ ""%string) with (x +:+ "/") in Hc. rewrite Et in Hc.
      assert (Hc2 : cut_byte slash (transferPrefix +:+ t) = Some ("transfers"%string, t)) by (exact (cut_first "transfers" t eq_refl)).
      rewrite Hc2 in Hc. by injection Hc as <- _. }
    destruct Hn as [Hn|E]; [|subst x; by vm_compute]. rewrite Hn. destruct (trim_slash_app x) as [-> _]; [apply Hx..|].
    destruct (_ || _); [done|]. by intros [= <-].
Qed.

Lemma maybeRemove_gentle u : segment u -> moves gentle (maybeRemove (D:=D) u).
Proof. intros Hu. unfold maybeRemove. gently; eauto with gentle. Qed.
Lemma sweep_gentle l : (forall e, e ∈ l -> listing_name transferPrefix e) -> forall seen, moves gentle (sweep (D:=D) seen l).
Proof.
  induction l as [|e l IH]; intros Hl seen; simpl; [by apply (moves_ret gentle)|].
  assert (IH' : forall seen, moves gentle (sweep (D:=D) seen l)) by (apply IH; intros x Hx; apply Hl; by right).
  destruct (uploadIDFromPath e) as [u|] eqn:E; [|apply IH']. destruct (decide (u ∈ seen)); [apply IH'|].
  apply (moves_bind gentle); [|intros _; apply IH']. apply maybeRemove_gentle. eapply uploadID_segment; [apply Hl; by left|exact E].
Qed.
Lemma Sweep_gentle s : fm_inv (up_storage s) -> gentle s (snd (Sweep s)).
Proof.
  intros Hi. unfold Sweep, bind, attempt, on_storage, zoom. destruct (FM_List transferPrefix (up_storage s)) as [r f] eqn:E.
  pose proof (wp_run _ _ _ _ _ (fm_list_law (up_storage s) transferPrefix Hi) E) as (Hi' & Hs & Hl).
  assert (Hg : gentle s (mkUploads f (up_daemon s) (up_clock s) (up_ids s) (up_cleanups s))).
  { split; simpl; [done|done|]. intros _ u Hu. left. by apply Hs, meta_plain. }
  destruct r as [l|e|w]; simpl; [|exact Hg..]. etransitivity; [exact Hg|]. apply sweep_gentle. intros e He. by apply (Hl l).
Qed.

(** *** The sessions that were asked for *)

(** What has been asked for under each id so far, and when. *)
Abbreviation history := (gmap string (CreateParams * time)).
Definition planned (u : string) (p : CreateParams) (t : time) : Session := new_session (cf_ChunkSize cfg) u p t (t + cf_SessionTTL cfg)%Z.
(** Every description of a session that can be read is that of one asked for. *)
Record described (h : history) s : Prop := {
  de_inv : fm_inv (up_storage s);
  de_meta : forall u text, segment u -> file_of s (metadataPath u) = Some text ->
    (exists p t n, h !! u = Some (p, t) /\ (n < up_ids s)%N /\ u = New_at n /\ marshal (planned u p t) = Ok text) \/ is_ok (unmarshal text) = false;
}.

Lemma described_gentle h s s' : described h s -> gentle s s' -> described h s'.
Proof.
  intros [Hi Hm] [Gi Gd Gm]. split; [auto|]. intros u text Hu Ht. rewrite Gd. destruct (Gm Hi u Hu) as [E|E]; rewrite E in Ht; [|done]. by apply Hm.
Qed.
Lemma described_insert h s x : described h s -> described (<[New_at (up_ids s) := x]> h) s.
Proof.
  intros [Hi Hm]. split; [done|]. intros u text Hu Ht. destruct (Hm u text Hu Ht) as [(p & t & n & Hh & Hn & -> & Hj)|Hbad]; [left|by right].
  exists p, t, n. rewrite lookup_insert_ne; [done|]. intros E%id_fresh. lia.
Qed.
Lemma New_at_segment n : segment (New_at n).
Proof. destruct (id_text n). by apply segment_text. Qed.

Lemma Create_described h s p : described h s -> described (<[New_at (up_ids s) := (p, now_at (up_clock s))]> h) (snd (Create cfg p s)).
Proof.
  intros Hd. pose proof (described_insert h s (p, now_at (up_clock s)) Hd) as Hd1. unfold Create.
  repeat match goal with |- context [(if ?b then _ else _) s] => destruct b; [exact Hd1|] end.
  unfold bind at 1 2. unfold Now, idgen_New at 1. cbn [fst snd up_ids up_clock up_storage up_daemon up_cleanups].
  set (u := New_at (up_ids s)) in *. fold (planned u p (now_at (up_clock s))).
  set (s1 := mkUploads _ _ _ _ _).
  assert (Hd2 : described (<[u := (p, now_at (up_clock s))]> h) s1).
  { destruct Hd1 as [Hi1 Hm1]. split; [done|]. intros v text Hv Ht.
    destruct (Hm1 v text Hv Ht) as [(p0 & t & n & Hh & Hn & Hrest)|Hbad]; [left|by right]. exists p0, t, n. split_and!; [done|simpl; lia|apply Hrest..]. }
  destruct (marshal (planned u p (now_at (up_clock s)))) as [data|e|w] eqn:Ej.
  - unfold storing, bind, attempt, on_storage, zoom. cbn [ss_UploadID planned new_session].
    destruct (FM_Write (metadataPath u) data (up_storage s1)) as [r f] eqn:Ew.
    assert (Hu : segment u) by apply New_at_segment. destruct Hd as [Hi Hm].
    pose proof (wp_run _ _ _ _ _ (fm_write_law (up_storage s1) (metadataPath u) data Hi (meta_plain u Hu)) Ew) as (Hi' & Ho & Hr).
    set (s2 := mkUploads f _ _ _ _).
    assert (Hgoal : described (<[u := (p, now_at (up_clock s))]> h) s2).
    { split; [done|]. intros v text Hv Ht. destruct (decide (v = u)) as [->|Hne].
      - assert (Hnew : text = data -> exists p0 t n, <[u:=(p, now_at (up_clock s))]> h !! u = Some (p0, t) /\ (n < up_ids s2)%N /\ u = New_at n /\ marshal (planned u p0 t) = Ok text).
        { intros ->. exists p, (now_at (up_clock s)), (up_ids s). rewrite lookup_insert_eq. split_and!; [done|simpl; lia|done..]. }
        unfold file_of in Ht. simpl in Ht. assert (Hcase : left_over fm_file (up_storage s) f (metadataPath u) data \/ fm_file f (metadataPath u) = Some data) by (destruct r; tauto).
        destruct Hcase as [[E|[E|(part & rest & -> & E)]]|E]; rewrite E in Ht; [|done| |injection Ht as <-; left; by apply Hnew].
        + destruct (Hm u text Hu Ht) as [(p0 & t & n & _ & Hn & En%id_fresh & _)|Hbad]; [lia|by right].
        + injection Ht as <-. destruct (String.eqb_spec rest "") as [->|Hrest].
          * left. apply Hnew. clear. induction part as [|c part IH]; [done|]. rewrite String_app. by f_equal.
          * right. by eapply unmarshal_cut.
      - destruct (Hm v text Hv) as [(p0 & t & n & Hh & Hn & Ev & Hj)|Hbad]; [|left|by right].
        + unfold file_of in Ht |- *. simpl in Ht. rewrite Ho in Ht; [done|by apply meta_plain|]. intros E.
          rewrite !metadataPath_parts in E. apply in_session_inj in E as [-> _]; [done..|segments|segments].
        + exists p0, t, n. rewrite lookup_insert_ne by done. split_and!; [done|simpl; lia|done..]. }
    destruct r; exact Hgoal.
  - exact Hd2.
  - exact Hd2.
Qed.

(** *** Requests and deliveries *)

(** What a panel may be asked for besides new sessions; the id of a session in a
    request is one part of a path. *)
Inductive request : (Uploads F D -> Uploads F D) -> Prop :=
| ask_write u w i b : segment u -> request (fun s => snd (WriteChunk u w i b s))
| ask_status u w : segment u -> request (fun s => snd (Status u w s))
| ask_complete u w node : segment u -> request (fun s => snd (Complete SHA256 u w node s))
| ask_abort u w : segment u -> request (fun s => snd (Abort u w s))
| clean_up u : segment u -> request (fun s => snd (cleanupAfterComplete u s))
| sweep_all : request (fun s => snd (Sweep s)).

(** Any series of them, on a storage that held no session, with what was asked
    for under each id. *)
Inductive uploading : history -> Uploads F D -> Prop :=
| up_start s : fm_inv (up_storage s) -> (forall u, segment u -> file_of s (metadataPath u) = None) -> uploading ∅ s
| up_create h s p : uploading h s -> uploading (<[New_at (up_ids s) := (p, now_at (up_clock s))]> h) (snd (Create cfg p s))
| up_request h s x : uploading h s -> request x -> uploading h (x s).

Lemma request_gentle x s : request x -> fm_inv (up_storage s) -> gentle s (x s).
Proof.
  intros Hx Hi. destruct Hx as [u w i b Hu|u w Hu|u w node Hu|u w Hu|u Hu|].
  - by apply WriteChunk_gentle.
  - by apply Status_gentle.
  - by apply Complete_gentle.
  - by apply Abort_gentle.
  - by apply cleanup_gentle.
  - by apply Sweep_gentle.
Qed.
Lemma uploading_described h s : uploading h s -> described h s.
Proof.
  induction 1 as [s Hi Hnone|h s p _ IH|h s x _ IH Hx].
  - split; [done|]. intros u text Hu Ht. by rewrite Hnone in Ht.
  - by apply Create_described.
  - apply (described_gentle h s); [done|]. apply request_gentle; [done|apply IH].
Qed.
End safe.

(** ** What the daemons are told *)

Record Delivery : Type := mkDelivery {
  dv_Node : Node; dv_FullPath : string; dv_TransferID : string; dv_Checksum : string; dv_TotalSize : N; dv_Owner : OwnerOptions;
}.
Record Delivered (D : Type) : Type := mkDelivered { dd_made : list Delivery; dd_daemon : D }.
Arguments mkDelivered {D}. Arguments dd_made {D}. Arguments dd_daemon {D}.
(** A daemon whose deliveries are written down. *)
#[export] Instance recording {D} `{DaemonUploader D} : DaemonUploader (Delivered D) := {|
  UploadStreamPrepared node path id sum size owner := fun d =>
    let '(r, d') := UploadStreamPrepared node path id sum size owner (dd_daemon d) in
    (r, mkDelivered (dd_made d ++ [mkDelivery node path id sum size owner]) d');
|}.

Section delivered.
Context {F D : Type} `{StreamFileManagerLaws F} `{DaemonUploader D} `{WallClock} `{SessionCodecLaws} `{IDGenLaws} `{Unicode}.
Context (SHA256 : string -> string) (cfg : Config).
Abbreviation S := (Uploads F (Delivered D)).
Implicit Types s : S.

(** Nothing but the clock and what does not show has changed. *)
Record idle s s' : Prop := mkIdle {
  id_inv : fm_inv (up_storage s) -> fm_inv (up_storage s');
  id_files : fm_inv (up_storage s) -> same fm_file (up_storage s) (up_storage s');
  id_daemon : up_daemon s' = up_daemon s;
}.
#[local] Instance idle_preorder : PreOrder idle.
Proof.
  split; [intros s; split; [done|intros _; apply same_refl|done]|].
  intros s1 s2 s3 [I1 F1 D1] [I2 F2 D2]. split; [auto| |congruence]. intros Hi. eapply same_trans; [by apply F1|]. apply F2. auto.
Qed.

(** A call that leaves the files alone. *)
Lemma wp_storage_same {B} (x : M F B) (P : result B -> Prop) Q s : fm_inv (up_storage s) ->
  wp x (fun r f' => fm_inv f' /\ same fm_file (up_storage s) f' /\ P r) (up_storage s) ->
  (forall r s', idle s s' -> up_clock s' = up_clock s -> fm_inv (up_storage s') -> P r -> Q r s') ->
  wp (on_storage (D:=Delivered D) x) Q s.
Proof.
  intros Hi Hx HQ. unfold on_storage. wp_step. eapply wp_mono; [exact Hx|]. intros r f' (Hi' & Hs & Hp). apply HQ; [by split|done..].
Qed.

Lemma wp_load u (Q : result (Session + api_error) -> S -> Prop) s : segment u -> fm_inv (up_storage s) ->
  (forall r s', idle s s' -> up_clock s' = up_clock s -> fm_inv (up_storage s') ->
     (forall sess, r = Ok (inl sess) -> exists text, file_of s (metadataPath u) = Some text /\ unmarshal text = Ok sess) -> Q r s') ->
  wp (load (D:=Delivered D) u) Q s.
Proof.
  intros Hu Hi HQ. unfold load. do 2 wp_step.
  apply (wp_storage_same _ (fun r => forall d, r = Ok d -> file_of s (metadataPath u) = Some d)); [done|by apply fm_read_law, meta_plain|].
  intros r s' Hidle Hc Hi' Hr. destruct r as [raw|e|w]; [|by apply HQ..].
  destruct (unmarshal raw) as [sess|e|w] eqn:E; apply HQ; try done. intros sess' [= <-]. exists raw. split; [by apply Hr|done].
Qed.
Lemma wp_verify sess w (Q : result (unit + api_error) -> S -> Prop) s : fm_inv (up_storage s) ->
  (forall r s', idle s s' -> fm_inv (up_storage s') ->
     (forall v, r = Ok (inl v) -> ss_UserID sess = w /\ (ss_ExpiresAt sess = time_zero \/ (now_at (up_clock s) <= ss_ExpiresAt sess)%Z)) -> Q r s') ->
  wp (verifyAccess (F:=F) (D:=Delivered D) sess w) Q s.
Proof.
  intros Hi HQ. unfold verifyAccess. destruct (N.eqb_spec (ss_UserID sess) w) as [Hw|]; simpl; [|by apply HQ].
  unfold IsZero. destruct (Z.eqb_spec (ss_ExpiresAt sess) time_zero) as [Hz|]; [apply HQ; [done..|]; intros v _; by auto|].
  wp_step. apply wp_intro. intros r s' E. injection E as <- <-.
  destruct (Z.ltb_spec (ss_ExpiresAt sess) (now_at (up_clock s))); apply HQ; try done; try (split; simpl; [done|intros _; apply same_refl|done]).
  intros v _. by auto.
Qed.
Lemma wp_exists u (Q : result bool -> S -> Prop) s : segment u -> fm_inv (up_storage s) ->
  (forall b s', idle s s' -> up_clock s' = up_clock s -> fm_inv (up_storage s') -> Q (Ok b) s') -> wp (on_storage (D:=Delivered D) (FM_Exists (donePath u))) Q s.
Proof.
  intros Hu Hi HQ. apply (wp_storage_same _ (fun r => exists b, r = Ok b)); [done|by apply fm_exists_law, done_plain|].
  intros r s' Hidle Hc Hi' [b ->]. by apply HQ.
Qed.
Lemma wp_received u (Q : result (gset N + api_error) -> S -> Prop) s : fm_inv (up_storage s) ->
  (forall r s', idle s s' -> fm_inv (up_storage s') -> Q r s') -> wp (receivedChunks (D:=Delivered D) u) Q s.
Proof.
  intros Hi HQ. unfold receivedChunks, storing. do 2 wp_step. apply (wp_storage_same _ (fun _ => True)); [done| |].
  - eapply wp_mono; [by apply fm_list_law|]. naive_solver.
  - intros r s' Hidle _ Hi' _. destruct r; by apply HQ.
Qed.
(** What is dropped or logged still runs. *)
Lemma wp_quietly {B} (x : M S B) (Q : result unit -> S -> Prop) s :
  wp x (fun r s' => match r with Panic w => Q (Panic w) s' | _ => Q (Ok tt) s' end) s -> wp (quietly x) Q s.
Proof.
  intros Hx. unfold quietly. do 2 wp_step. eapply wp_mono; [exact Hx|]. by intros [] s' HQ.
Qed.

Definition made s : list Delivery := dd_made (up_daemon s).
Lemma made_idle s s' : idle s s' -> made s' = made s.
Proof. intros Hi. unfold made. by rewrite (id_daemon _ _ Hi). Qed.
Lemma made_storage {B} (x : M F B) s : made (snd (on_storage (D:=Delivered D) x s)) = made s.
Proof. unfold on_storage, zoom. by destruct (x (up_storage s)). Qed.
Lemma made_dropped {B} (x : M F B) (e : api_error) s :
  made (snd ((do! quietly (on_storage (D:=Delivered D) x) ;; reject (B:=unit) e) s)) = made s.
Proof.
  unfold quietly, bind, attempt, on_storage, zoom. by destruct (x (up_storage s)) as [[] f].
Qed.
Lemma dropped_refuses {B} (x : M F B) (e : api_error) s :
  fst ((do! quietly (on_storage (D:=Delivered D) x) ;; reject (B:=unit) e) s) <> Ok (inl tt).
Proof. unfold quietly, bind, attempt, on_storage, zoom. by destruct (x (up_storage s)) as [[] f]. Qed.

(** After [Complete] the daemon has been told nothing new, or it has been told of
    the file put together from the session's chunks. *)
Definition told_of (sess : Session) u (node : option Node) s (r : result (unit + api_error)) s' : Prop :=
  exists n ds, node = Some n /\ nd_ID n = ss_NodeID sess /\
    chunks_are (file_of s) u (chunk_indices (ss_TotalChunks sess)) ds /\ SHA256 (joined ds) = ss_ExpectedChecksum sess /\
    made s' = made s ++ [mkDelivery n (ss_FullPath sess) (ss_UploadID sess) (ss_ExpectedChecksum sess) (ss_TotalSize sess) (mkOwner (ss_SuUser sess) 0 0)] /\
    (r = Ok (inl tt) -> file_of s' (dataPath u) = Some (joined ds)).

Lemma chunks_are_same u l ds (file file' : string -> option string) : segment u -> (forall q, plain q -> file' q = file q) ->
  chunks_are file' u l ds -> chunks_are file u l ds.
Proof. intros Hu Hs Hc. eapply list.Forall2_impl; [exact Hc|]. intros i d Hd. simpl in *. rewrite <- Hs; [done|by apply chunk_plain]. Qed.

Lemma finish_keeps u c s : segment u -> fm_inv (up_storage s) ->
  wp (do! write_done (D:=Delivered D) u c ;; do! later u ;; accept tt) (fun _ s' => made s' = made s /\ file_of s' (dataPath u) = file_of s (dataPath u)) s.
Proof.
  intros Hu Hi. wp_step. unfold write_done.
  assert (Hlater : forall s1, wp (do! later (F:=F) (D:=Delivered D) u ;; accept tt) (fun _ s' => made s' = made s1 /\ file_of s' (dataPath u) = file_of s1 (dataPath u)) s1) by by intros s1.
  destruct (marshalDone true c) as [info|e|w]; [|wp_step; apply Hlater|by wp_step].
  apply wp_quietly. unfold on_storage. wp_step. eapply wp_mono; [apply fm_write_law; [done|by apply done_plain]|].
  intros r f (_ & Ho & _). assert (Hd : fm_file f (dataPath u) = fm_file (up_storage s) (dataPath u)).
  { apply Ho; [by apply data_plain|]. eapply places_apart; [done|done|constructor|constructor|by right]. }
  destruct r; [| |by split]; (eapply wp_mono; [apply Hlater|]; intros ? s' [-> ->]; split; [done|exact Hd]).
Qed.

Lemma wp_Complete u w node s : segment u -> fm_inv (up_storage s) ->
  wp (Complete SHA256 u w node) (fun r s' => made s' = made s \/
    exists sess text, file_of s (metadataPath u) = Some text /\ unmarshal text = Ok sess /\ ss_UserID sess = w /\
      (ss_ExpiresAt sess = time_zero \/ (now_at (up_clock s) <= ss_ExpiresAt sess)%Z) /\ told_of sess u node s r s') s.
Proof.
  intros Hu Hi. unfold Complete, after. wp_step. apply wp_load; [done..|]. intros r s1 Id1 Hc1 Hi1 Hload.
  destruct r as [[sess|e]|e|wh]; [|left; by apply made_idle..]. destruct (Hload sess eq_refl) as (text & Htext & Hun). clear Hload.
  wp_step. apply wp_verify; [done|]. intros r s2 Id2 Hi2 Hver. assert (Id12 : idle s s2) by by etransitivity.
  destruct r as [[[]|e]|e|wh]; [|left; by apply made_idle..]. destruct (Hver tt eq_refl) as [Hw Hexp]. rewrite Hc1 in Hexp. clear Hver.
  destruct node as [n|]; [|left; by apply made_idle]. destruct (N.eqb_spec (nd_ID n) (ss_NodeID sess)) as [Hn|]; [|left; by apply made_idle].
  simpl negb. cbv iota. wp_step. apply wp_exists; [done..|]. intros b s3 Id3 _ Hi3. assert (Id13 : idle s s3) by by etransitivity.
  destruct b; [left; by apply made_idle|].
  wp_step. apply wp_received; [done|]. intros r s4 Id4 Hi4. assert (Id14 : idle s s4) by by etransitivity.
  destruct r as [[received|e]|e|wh]; [|left; by apply made_idle..].
  destruct (negb _); [left; by apply made_idle|]. destruct (negb _); [left; by apply made_idle|].
  do 2 wp_step. unfold on_storage at 1. wp_step.
  eapply wp_mono; [by apply wp_assemble|]. intros r f (Hi5 & Ho5 & Hds). set (s5 := mkUploads f _ _ _ _).
  assert (Hm5 : made s5 = made s) by (rewrite <- (made_idle _ _ Id14); done).
  destruct r as [actual|e|wh]; [|left; etransitivity; [apply made_dropped|exact Hm5]|left; exact Hm5].
  destruct (Hds actual eq_refl) as (ds & Hall & -> & Hdata). clear Hds.
  destruct (String.eqb_spec (SHA256 (joined ds)) (ss_ExpectedChecksum sess)) as [Hsum|]; simpl negb; cbv iota; [|left; etransitivity; [apply made_dropped|exact Hm5]].
  eapply (wp_mono _ (told_of sess u (Some n) s)); [|intros r s' Htold; right; by exists sess, text].
  assert (Hall0 : chunks_are (file_of s) u (chunk_indices (ss_TotalChunks sess)) ds).
  { eapply chunks_are_same; [done| |exact Hall]. intros q Hq. by apply (id_files _ _ Id14). }
  do 2 wp_step. unfold on_daemon. wp_step. apply wp_intro. intros r d Ed. simpl in Ed.
  destruct (UploadStreamPrepared n _ _ _ _ _ (dd_daemon (up_daemon s4))) as [r0 d0]. injection Ed as <- <-.
  set (s6 := mkUploads _ _ _ _ _). assert (Hm6 : made s6 = made s5 ++ [mkDelivery n (ss_FullPath sess) (ss_UploadID sess) (SHA256 (joined ds)) (ss_TotalSize sess) (mkOwner (ss_SuUser sess) 0 0)]) by done.
  rewrite Hm5, Hsum in Hm6. destruct r0 as [[]|e|wh].
  - eapply wp_mono; [apply (finish_keeps u (SHA256 (joined ds)) s6 Hu Hi5)|].
    intros r s7 [Hm7 Hd7]. exists n, ds. split_and!; [done..|by rewrite Hm7|]. intros _. rewrite Hd7. exact Hdata.
  - exists n, ds. split_and!; [done..| |].
    + etransitivity; [apply made_dropped|exact Hm6].
    + intros E. by apply dropped_refuses in E.
  - exists n, ds. split_and!; [done..|exact Hm6|done].
Qed.

(** For any series of requests of any users, with storages that fail and
    leave parts of files behind, and with expired sessions being removed: a
    request to complete an upload tells the daemon nothing, or it tells the daemon
    of the node that was asked for when the session was created of one file, for
    the path, owner and size asked for then, at a time when the session had not
    expired, on the request of the user who created it; the file was put together
    from all the chunks of the session in order and has the SHA-256 that user
    announced, and once the daemon has taken it the storage holds it for him. *)
Lemma completed_delivers h s u w node r s' : uploading (D:=Delivered D) SHA256 cfg h s -> segment u ->
  Complete SHA256 u w node s = (r, s') ->
  made s' = made s \/
  exists n p t ds, node = Some n /\ h !! u = Some (p, t) /\ (exists k, u = New_at k /\ (k < up_ids s)%N) /\ cp_UserID p = w /\ nd_ID n = cp_NodeID p /\
    ((t + cf_SessionTTL cfg = 0)%Z \/ (now_at (up_clock s) <= t + cf_SessionTTL cfg)%Z) /\
    chunks_are (file_of s) u (chunk_indices (total_chunks (cf_ChunkSize cfg) (cp_TotalSize p))) ds /\
    SHA256 (joined ds) = ToLower (cp_ExpectedChecksum p) /\
    made s' = made s ++ [mkDelivery n (cp_FullPath p) u (ToLower (cp_ExpectedChecksum p)) (cp_TotalSize p) (mkOwner (cp_SuUser p) 0 0)] /\
    (r = Ok (inl tt) -> file_of s' (dataPath u) = Some (joined ds)).
Proof.
  intros Hup Hu E. destruct (uploading_described _ _ _ _ Hup) as [Hi Hm].
  destruct (wp_run _ _ _ _ _ (wp_Complete u w node s Hu Hi) E) as [Hno|(sess & text & Ht & Hun & Hw & Hexp & n & ds & -> & Hn & Hc & Hsum & Hmade & Hd)];
    [by left|right].
  destruct (Hm u text Hu Ht) as [(p & t & k & Hh & Hk & Eu & Hj)|Hbad]; [|by rewrite Hun in Hbad].
  apply unmarshal_marshal in Hj. rewrite Hun in Hj. injection Hj as ->. exists n, p, t, ds. split_and!; try done. by exists k.
Qed.
End delivered.

(** ** An example *)

Module UploadSample.
#[local] Existing Instance listed_order.
#[local] Instance clock : WallClock := ticking.
#[local] Instance plain_text : Unicode := {| unicode_lower s := s; unicode_trim s := s; unicode_fold s t := String.eqb s t |}.

(** Texts whose end can be told, one after the other. *)
Fixpoint packed (s : string) : string := match s with EmptyString => "e"%string | String c s => String "c" (String c (packed s)) end.
Fixpoint unpacked (s : string) : option (string * string) :=
  match s with
  | String "e"%char rest => Some (EmptyString, rest)
  | String "c"%char (String c rest) => match unpacked rest with Some (t, rest) => Some (String c t, rest) | None => None end
  | _ => None
  end.
Lemma unpacked_packed s rest : unpacked (packed s +:+ rest) = Some (s, rest).
Proof. induction s as [|c s IH]; [done|]. simpl packed. rewrite !String_app. simpl. by rewrite IH. Qed.
Lemma unpacked_more n : forall s t rest more, String.length s <= n -> unpacked s = Some (t, rest) -> unpacked (s +:+ more) = Some (t, rest +:+ more).
Proof.
  induction n as [|n IH]; intros [|c s] t rest more Hl; simpl in Hl; try lia; try done. rewrite String_app.
  destruct (Ascii.eqb_spec c "e") as [->|He]; [by intros [= <- <-]|]. destruct (Ascii.eqb_spec c "c") as [->|Hc].
  - destruct s as [|d s]; [done|]. rewrite String_app. simpl in *. destruct (unpacked s) as [[t' r']|] eqn:E; [|done]. intros [= <- <-].
    by rewrite (IH s t' r' more ltac:(lia) E).
  - intros Hu. exfalso. by destruct c as [[] [] [] [] [] [] [] []].
Qed.
Fixpoint pack_all (l : list string) : string := match l with [] => EmptyString | x :: l => packed x +:+ pack_all l end.
Fixpoint unpack (n : nat) (s : string) : option (list string * string) :=
  match n with
  | O => Some ([], s)
  | S n => match unpacked s with
           | Some (x, rest) => match unpack n rest with Some (l, rest) => Some (x :: l, rest) | None => None end
           | None => None
           end
  end.
Lemma unpack_pack l rest : unpack (length l) (pack_all l +:+ rest) = Some (l, rest).
Proof. induction l as [|x l IH]; [done|]. simpl. rewrite string_app_assoc, unpacked_packed. by rewrite IH. Qed.
Lemma unpack_more n : forall s l rest more, unpack n s = Some (l, rest) -> unpack n (s +:+ more) = Some (l, rest +:+ more).
Proof.
  induction n as [|n IH]; intros s l rest more; simpl; [by intros [= <- <-]|]. destruct (unpacked s) as [[x r]|] eqn:E; [|done].
  rewrite (unpacked_more _ _ _ _ more (le_n _) E). destruct (unpack n r) as [[l' r']|] eqn:E2; [|done]. intros [= <- <-]. by rewrite (IH _ _ _ more E2).
Qed.

Definition of_N (n : N) : string := GoNum.digits (encode n).
Definition to_N (s : string) : N := default 0%N (decode (number s)).
Definition of_Z (n : Z) : string := GoNum.digits (encode n).
Definition to_Z (s : string) : Z := default 0%Z (decode (number s)).
Lemma to_of_N n : to_N (of_N n) = n.
Proof. unfold to_N, of_N. by rewrite number_digits, decode_encode. Qed.
Lemma to_of_Z n : to_Z (of_Z n) = n.
Proof. unfold to_Z, of_Z. by rewrite number_digits, decode_encode. Qed.
Definition fields (s : Session) : list string :=
  [ss_UploadID s; of_N (ss_ServerID s); of_N (ss_NodeID s); of_N (ss_UserID s); ss_FullPath s; ss_SuUser s; of_N (ss_TotalSize s);
   of_N (ss_ChunkSize s); of_N (ss_TotalChunks s); ss_ExpectedChecksum s; of_Z (ss_CreatedAt s); of_Z (ss_ExpiresAt s)].
Definition read_fields (t : string) : result Session :=
  match unpack 12 t with
    | Some ([a; b; c; d; e; f; g; h; i; j; k; l], EmptyString) =>
        Ok (mkSession a (to_N b) (to_N c) (to_N d) e f (to_N g) (to_N h) (to_N i) j (to_Z k) (to_Z l))
    | _ => Err (ENew "unexpected end of JSON input")
    end.
#[local] Instance codec : SessionCodec := {|
  marshal s := Ok (pack_all (fields s));
  unmarshal := read_fields;
  marshalDone ok sum := Ok sum;
|}.
#[local] Instance codec_laws : SessionCodecLaws.
Proof.
  split.
  - intros s text Ht. change (Ok (pack_all (fields s)) = Ok text) in Ht. apply Ok_inj in Ht as <-.
    pose proof (unpack_pack (fields s) "") as E. rewrite string_app_empty in E. change (length (fields s)) with 12 in E.
    change (read_fields (pack_all (fields s)) = Ok s). unfold read_fields. rewrite E. unfold fields. rewrite !to_of_N, !to_of_Z. by destruct s.
  - done.
  - intros s part rest Ht Hrest. change (Ok (pack_all (fields s)) = Ok (part +:+ rest)) in Ht. apply Ok_inj in Ht as E.
    change (is_ok (read_fields part) = false). unfold read_fields. destruct (unpack 12 part) as [[l r]|] eqn:Ep; [|done].
    apply (unpack_more _ _ _ _ rest) in Ep. rewrite <- E in Ep. pose proof (unpack_pack (fields s) "") as E2. rewrite string_app_empty in E2.
    change (length (fields s)) with 12 in E2. rewrite E2 in Ep. injection Ep as <- Er. destruct r; [by destruct (Hrest (eq_sym Er))|done].
Qed.

#[local] Instance ids : IDGen := {| New_at n := String "a" (GoNum.digits (N.succ_pos n)) |}.
Lemma digits_text p : xid_text (GoNum.digits p) = true.
Proof. by induction p. Qed.
#[local] Instance ids_laws : IDGenLaws.
Proof.
  split.
  - intros n. split; [apply digits_text|done].
  - intros m n [= E]. apply (f_equal (fun s => N.pos (number s))) in E. cbv beta in E. rewrite !number_digits, !N.succ_pos_spec in E. lia.
Qed.
#[local] Instance daemon : DaemonUploader unit := {| UploadStreamPrepared _ _ _ _ _ _ := ret tt |}.

(** A checksum of 64 digits. *)
Definition sum (s : string) : string := String.string_of_list_ascii (replicate 63 "0"%char) +:+ FormatUint (N.of_nat (String.length s mod 10)).
Definition config : Config := mkConfig 4 3600 100.
Definition world_file : string := "hello world".
Definition wanted : CreateParams := mkCreate 2 7 5 "/srv/two/hello.txt" "player" 11 (sum world_file).
Definition empty : Uploads InMemory.FileManager (Delivered unit) := mkUploads InMemory.New (mkDelivered [] tt) 0 0 [].

Abbreviation id := (New_at 0).

Lemma id_segment : segment id.
Proof. apply New_at_segment. Defined.
End UploadSample.
