(* ===== verification/UploadsArrive.v ===== *)
(** A chunked upload ([Uploads]) arrives: on a storage that works, be it the
    panel's disk or the memory, a file whose chunks are sent in any order, any
    number of times, while others use the storage and the janitor runs, is put
    together as it was and handed to the daemon. *)

From S2P Require Import Prelude.
From S2P Require Import GoNum.
From S2P Require Import Domain.
From S2P Require Import GoRuntime.
From S2P Require Import Http.
From S2P Require Import FileManager.
From stdpp Require Import base tactics strings list gmap numbers.
From Stdlib Require Import NArith ZArith Ascii.
From S2P Require Import Ids.
From S2P Require Import FilePath.
From S2P Require Import FileStore.
From S2P Require Import LocalFiles.
From S2P Require Import Uploads.
From S2P Require Import UploadsSafe.

(** ** The pieces of a file *)

Definition chars (s : string) : list ascii := String.list_ascii_of_string s.
Definition text (l : list ascii) : string := String.string_of_list_ascii l.
(** What a browser sends as chunk [i]. *)
Definition piece (c : N) (file : string) (i : N) : string := text (take (N.to_nat c) (drop (N.to_nat i * N.to_nat c) (chars file))).

Lemma text_chars s : text (chars s) = s.
Proof. apply String.string_of_list_ascii_of_string. Qed.
Lemma text_app l1 l2 : text (l1 ++ l2) = text l1 +:+ text l2.
Proof. induction l1 as [|c l1 IH]; [done|]. simpl. rewrite IH. by rewrite String_app. Qed.
Lemma length_text l : String.length (text l) = length l.
Proof. induction l as [|c l IH]; [done|]. simpl. by f_equal. Qed.
Lemma length_chars s : length (chars s) = String.length s.
Proof. induction s as [|c s IH]; [done|]. simpl. by f_equal. Qed.

Lemma joined_pieces_from c (l : list ascii) k n : length l <= (k + n) * c ->
  joined (map (fun i => text (take c (drop (i * c) l))) (seq k n)) = text (drop (k * c) l).
Proof.
  revert k. induction n as [|n IH]; intros k Hl; simpl; [rewrite drop_ge; [done|lia]|].
  rewrite IH by lia. rewrite <- text_app. f_equal. rewrite <- (take_drop c (drop (k * c) l)) at 2. f_equal. rewrite drop_drop. f_equal. lia.
Qed.
Lemma joined_pieces c file n : (size_of file <= n * c)%N -> joined (map (piece c file) (chunk_indices n)) = file.
Proof.
  intros Hn. unfold chunk_indices. rewrite map_map.
  rewrite (map_ext _ (fun i => text (take (N.to_nat c) (drop (i * N.to_nat c) (chars file))))).
  - rewrite joined_pieces_from; [by rewrite Nat.mul_0_l, drop_0, text_chars|]. rewrite length_chars. unfold size_of in Hn. lia.
  - intros i. unfold piece. by rewrite Nat2N.id.
Qed.
Lemma size_piece c file i : size_of (piece c file i) = N.min c (size_of file - i * c).
Proof. unfold size_of, piece. rewrite length_text, length_take, length_drop, length_chars. lia. Qed.

(** *** As many and as large as the session plans *)

Section sizes.
Context `{Unicode} (c : N) (file : string).
Hypothesis (Hc : (0 < c)%N) (Hf : file <> ""%string) (Hsize : (size_of file + c < 9223372036854775807)%N).
Lemma size_pos : (0 < size_of file)%N.
Proof. unfold size_of. destruct file; [done|simpl; lia]. Qed.
Lemma total_chunks_ceil : let n := total_chunks c (size_of file) in ((n - 1) * c < size_of file <= n * c)%N /\ (0 < n)%N.
Proof.
  pose proof size_pos as Hp. unfold total_chunks, sub64, add64, wrap64, two64. rewrite (N.mod_small (size_of file + c)) by lia.
  replace (size_of file + c + 18446744073709551616 - 1)%N with (size_of file + c - 1 + 1 * 18446744073709551616)%N by lia.
  rewrite N.Div0.mod_add, N.mod_small by lia.
  pose proof (N.div_mod (size_of file + c - 1) c ltac:(lia)) as E. pose proof (N.mod_lt (size_of file + c - 1) c ltac:(lia)) as Hm.
  set (q := ((size_of file + c - 1) / c)%N) in *. set (m := ((size_of file + c - 1) mod c)%N) in *.
  assert (0 < q)%N by nia. destruct (N.eqb_spec q 0); [lia|]. cbv zeta. nia.
Qed.
Lemma chunk_size_piece u p now expires i : cp_TotalSize p = size_of file -> (i < total_chunks c (size_of file))%N ->
  ChunkSizeFor (new_session c u p now expires) i = size_of (piece c file i).
Proof.
  intros Hp Hi. destruct total_chunks_ceil as [[H1 H2] H3]. rewrite size_piece. unfold ChunkSizeFor. cbn [ss_TotalChunks ss_TotalSize ss_ChunkSize new_session].
  rewrite Hp. set (n := total_chunks c (size_of file)) in *.
  assert (Hn : (n <= size_of file)%N) by nia. unfold add64, sub64, mul64, wrap64, two64. rewrite (N.mod_small (i + 1)) by lia.
  destruct (N.eqb_spec (i + 1) n) as [E|E]; [|nia].
  replace (n + 18446744073709551616 - 1)%N with (n - 1 + 1 * 18446744073709551616)%N by lia.
  rewrite N.Div0.mod_add, (N.mod_small (n - 1)) by lia. replace (c * (n - 1))%N with ((n - 1) * c)%N by lia.
  rewrite (N.mod_small ((n - 1) * c)) by lia.
  replace (size_of file + 18446744073709551616 - (n - 1) * c)%N with (size_of file - (n - 1) * c + 1 * 18446744073709551616)%N by lia.
  rewrite N.Div0.mod_add, N.mod_small by lia. replace i with (n - 1)%N by lia. nia.
Qed.
End sizes.

Section arrive.
Context {F D : Type} `{ReliableStorage F} `{DaemonUploader D} `{GoClock} `{SessionCodecLaws} `{IDGenLaws} `{Unicode}.
Context (SHA256 : string -> string) (cfg : Config).
Abbreviation S := (Uploads F (Delivered D)).
Implicit Types s : S.

(** ** What others do leaves a session alone *)

Section others.
Context (u : string).
Hypothesis (Hu : segment u).

(** What must not become a file for the session's directories to be made. *)
Definition way_of : list (list string) := [["transfers"%string]; ["transfers"%string; u]].
(** The files of the session stay, no directory appears among them, nothing gets
    in their way, ids and clock only go on. *)
Record spares s s' : Prop := mkSpares {
  sp_inv : fm_inv (up_storage s) -> fm_inv (up_storage s');
  sp_ids : (up_ids s <= up_ids s')%N;
  sp_clock : (up_clock s <= up_clock s')%N;
  sp_files : fm_inv (up_storage s) -> forall q, plain q -> under (transferRoot u) q = true -> file_of s' q = file_of s q;
  sp_dirs : fm_inv (up_storage s) -> forall q, plain q -> under (transferRoot u) q = true -> fm_dir (up_storage s') q -> fm_dir (up_storage s) q;
  sp_way : fm_inv (up_storage s) -> forall k, k ∈ way_of -> file_of s (unparts k) = None -> file_of s' (unparts k) = None;
}.
#[local] Instance spares_preorder : PreOrder spares.
Proof.
  split; [by split|]. intros s1 s2 s3 [I1 D1 C1 F1 G1 W1] [I2 D2 C2 F2 G2 W2]. split; [auto|lia|lia| | |].
  - intros Hi q Hq Hr. rewrite F2 by auto. by apply F1.
  - auto.
  - auto.
Qed.

Lemma place_in_root v l p : segment v -> place_in v l p -> plain p.
Proof. intros Hv [Hl ->]%place_in_spec. by apply in_session_plain. Qed.
Lemma way_plain k : k ∈ way_of -> k <> [] /\ Forall segment k /\ plain (unparts k).
Proof.
  unfold way_of. intros Hk. assert (Hs : k <> [] /\ Forall segment k).
  { repeat (apply list.elem_of_cons in Hk as [->|Hk]); [split; [done|segments]|split; [done|by apply root_segments]|by apply list.elem_of_nil in Hk]. }
  destruct Hs as [Hne Hs]. split_and!; [done|done|by exists k].
Qed.
(** None of these is a file of a session, or below one of its directories. *)
Lemma way_no_place k v l p : k ∈ way_of -> segment v -> place_in v l p -> unparts k <> p.
Proof.
  intros Hk Hv Hp E. destruct (way_plain k Hk) as (Hne & Hs & _). destruct (place_in_spec _ _ _ Hp) as [Hl ->].
  assert (Hl0 : l <> []) by by destruct Hp. apply plain_inj in E; [|done|done|done|apply list.Forall_app; split; [by apply root_segments|done]].
  unfold way_of in Hk. repeat (apply list.elem_of_cons in Hk as [->|Hk]); [done|by destruct l|by apply list.elem_of_nil in Hk].
Qed.
Lemma spares_storage {B} (x : M F B) :
  (forall f, fm_inv f -> wp x (fun _ f' => fm_inv f' /\
     (forall q, plain q -> under (transferRoot u) q = true -> fm_file f' q = fm_file f q) /\
     forall k, k ∈ way_of -> fm_file f (unparts k) = None -> fm_file f' (unparts k) = None) f) ->
  (forall f, fm_inv f -> forall q, plain q -> under (transferRoot u) q = true -> fm_dir (snd (x f)) q -> fm_dir f q) ->
  moves spares (on_storage (D:=Delivered D) x).
Proof.
  intros Hx Hd s. specialize (Hd (up_storage s)). unfold on_storage, zoom. destruct (x (up_storage s)) as [r f'] eqn:E.
  assert (Hw : fm_inv (up_storage s) -> _) by (intros Hi; exact (wp_run _ _ _ _ _ (Hx (up_storage s) Hi) E)).
  split; simpl; [apply Hw|done|done|apply Hw|exact Hd|apply Hw].
Qed.
Lemma spares_same {B} (x : M F B) : (forall f, fm_inv f -> wp x (fun _ f' => fm_inv f' /\ same fm_file f f') f) ->
  (forall f, fm_inv f -> no_dirs fm_dir f (snd (x f))) -> moves spares (on_storage (D:=Delivered D) x).
Proof.
  intros Hx Hd. apply spares_storage.
  - intros f Hi. eapply wp_mono; [by apply Hx|]. intros r f' [Hi' Hs]. split; [done|]. split; [intros q Hq _; by apply Hs|].
    intros k Hk Hn. rewrite Hs; [done|by apply way_plain].
  - intros f Hi q Hq _ Hf. by destruct (Hd f Hi q Hq Hf) as [?|[]].
Qed.
Lemma spares_only {B} v l p may (x : M F B) : segment v -> v <> u -> place_in v l p ->
  (forall f, fm_inv f -> wp x (fun _ f' => fm_inv f' /\ only fm_file p f f') f) ->
  (forall f, fm_inv f -> new_dirs fm_dir may f (snd (x f))) -> (forall q, may q -> on_the_way p q) -> moves spares (on_storage (D:=Delivered D) x).
Proof.
  intros Hv Hne Hp Hx Hd Hmay. apply spares_storage.
  - intros f Hi. eapply wp_mono; [by apply Hx|]. intros r f' [Hi' Hs]. split; [done|]. split.
    + intros q Hq Hr. apply Hs; [done|]. intros ->. by apply (place_under_root u v l p) in Hr.
    + intros k Hk Hn. rewrite Hs; [done|by apply way_plain|by eapply way_no_place].
  - intros f Hi q Hq Hr Hf. destruct (Hd f Hi q Hq Hf) as [?|Hway%Hmay]; [done|]. exfalso. apply Hne. symmetry. apply (place_under_root u v l p); [done..|].
    unfold on_the_way, under in *. rewrite prefix_spec in *. destruct Hr as [t ->], Hway as [t' ->]. exists (t +:+ "/" +:+ t'). by rewrite !string_app_assoc.
Qed.
Lemma roots_apart v q : segment v -> v <> u -> plain q -> under (transferRoot u) q = true -> under (transferRoot v) q = true -> False.
Proof.
  intros Hv Hne Hq. rewrite !transferRoot_parts. intros (l1 & N1 & S1 & ->)%under_parts; [|by apply root_segments|done|done].
  intros (l2 & N2 & S2 & E)%under_parts; [|by apply root_segments|done|done].
  change (in_session u l1 = in_session v l2) in E. by apply in_session_inj in E as [-> _].
Qed.
Lemma chunks_in_root v q : under (chunksPrefix v) q = true -> under (transferRoot v) q = true.
Proof.
  unfold under, chunksPrefix. rewrite !prefix_spec. intros [t ->]. exists ("chunks" +:+ "/" +:+ t). by rewrite !string_app_assoc.
Qed.
Lemma spares_read p : plain p -> moves spares (on_storage (D:=Delivered D) (FM_Read p)).
Proof. intros Hp. apply spares_same; intros f Hi; [eapply wp_mono; [by apply fm_read_law|]; naive_solver|by apply fm_read_dirs]. Qed.
Lemma spares_exists p : plain p -> moves spares (on_storage (D:=Delivered D) (FM_Exists p)).
Proof. intros Hp. apply spares_same; intros f Hi; [eapply wp_mono; [by apply fm_exists_law|]; naive_solver|by apply fm_exists_dirs]. Qed.
Lemma spares_list p : moves spares (on_storage (D:=Delivered D) (FM_List p)).
Proof. apply spares_same; intros f Hi; [eapply wp_mono; [by apply fm_list_law|]; naive_solver|by apply fm_list_dirs]. Qed.
Lemma spares_delete v l p : segment v -> v <> u -> place_in v l p -> moves spares (on_storage (D:=Delivered D) (FM_Delete p)).
Proof.
  intros Hv Hne Hp. pose proof (place_in_root _ _ _ Hv Hp) as Hpl. apply (spares_only v l p (fun _ => False)); [done..| | |done]; intros f Hi;
    [eapply wp_mono; [by apply fm_delete_law|]; naive_solver|by apply fm_delete_dirs].
Qed.
Lemma spares_write v l p d : segment v -> v <> u -> place_in v l p -> moves spares (on_storage (D:=Delivered D) (FM_Write p d)).
Proof.
  intros Hv Hne Hp. pose proof (place_in_root _ _ _ Hv Hp) as Hpl. apply (spares_only v l p (on_the_way p)); [done..| | |done]; intros f Hi;
    [eapply wp_mono; [by apply fm_write_law|]; naive_solver|by apply fm_write_dirs].
Qed.
Lemma spares_write_stream v l p d : segment v -> v <> u -> place_in v l p -> moves spares (on_storage (D:=Delivered D) (FM_WriteStream p d)).
Proof.
  intros Hv Hne Hp. pose proof (place_in_root _ _ _ Hv Hp) as Hpl. apply (spares_only v l p (on_the_way p)); [done..| | |done]; intros f Hi;
    [eapply wp_mono; [by apply fm_write_stream_law|]; naive_solver|by apply fm_write_stream_dirs].
Qed.
Lemma read_chunks_dirs v l f : segment v -> fm_inv f -> fm_inv (snd (read_chunks v l f)) /\ no_dirs fm_dir f (snd (read_chunks v l f)).
Proof.
  intros Hv. revert f. induction l as [|i l IH]; intros f Hi; [split; [done|apply no_dirs_refl]|]. simpl. unfold bind, attempt.
  pose proof (chunk_plain v i Hv) as Hp. pose proof (fm_read_stream_law f _ Hi Hp) as Hlaw. pose proof (fm_read_stream_dirs f _ Hi Hp) as Hd.
  unfold wp in Hlaw. destruct (FM_ReadStream (chunkPath v i) f) as [r f1]. simpl in *. destruct Hlaw as (Hi1 & _).
  destruct r as [chunk|e|w]; [|done..]. destruct (sm_fault chunk); [done|]. destruct (IH f1 Hi1) as [Hi2 Hd2].
  destruct (read_chunks v l f1) as [[rest|e|w] f2]; (split; [done|by eapply new_dirs_trans]).
Qed.
Lemma assemble_dirs v n f : segment v -> fm_inv f -> new_dirs fm_dir (on_the_way (dataPath v)) f (snd (assemble SHA256 v n f)).
Proof.
  intros Hv Hi. unfold assemble, bind. destruct (read_chunks_dirs v (chunk_indices n) f Hv Hi) as [Hi1 Hd1].
  destruct (read_chunks v (chunk_indices n) f) as [[st|e|w] f1]; [|by apply no_new_dirs..]. simpl in *.
  pose proof (fm_write_stream_dirs f1 _ st Hi1 (data_plain v Hv)) as Hd2. destruct (FM_WriteStream (dataPath v) st f1) as [[[]|e|w] f2];
    (eapply new_dirs_trans; [by apply no_new_dirs|exact Hd2]).
Qed.
Lemma spares_assemble v n : segment v -> v <> u -> moves spares (on_storage (D:=Delivered D) (assemble SHA256 v n)).
Proof.
  intros Hv Hne. apply (spares_only v ["data"%string] (dataPath v) (on_the_way (dataPath v))); [done..|constructor| | |done]; intros f Hi;
    [eapply wp_mono; [by apply wp_assemble|]; by intros r f' (? & ? & _)|by apply assemble_dirs].
Qed.
Lemma spares_prefix v l : segment v -> v <> u -> l <> [] -> Forall segment l ->
  (forall q, under (unparts l +:+ "/") q = true -> under (transferRoot v) q = true) ->
  moves spares (on_storage (D:=Delivered D) (FM_DeleteByPrefix (unparts l +:+ "/"))).
Proof.
  intros Hv Hne Hl Hs Hin. apply spares_storage.
  - intros f Hi. eapply wp_mono; [by apply fm_delete_prefix_law|]. intros r f' [Hi' Hq]. split; [done|]. split.
    + intros q Hp Hr. destruct (Hq q Hp) as [E|[Hr' _]]; [done|]. destruct (roots_apart v q); try done. by apply Hin.
    + intros k Hk Hn. destruct (Hq (unparts k)) as [->|[_ ->]]; [by apply way_plain|done..].
  - intros f Hi q Hp _ Hf. by destruct (fm_delete_prefix_dirs f l Hi Hl Hs q Hp Hf) as [?|[]].
Qed.
Lemma spares_root v : segment v -> v <> u -> moves spares (on_storage (D:=Delivered D) (FM_DeleteByPrefix (transferRoot v))).
Proof. intros Hv Hne. rewrite (transferRoot_parts v). apply (spares_prefix v); [done..|by apply root_segments|]. intros q. by rewrite <- transferRoot_parts. Qed.
Lemma spares_chunks v : segment v -> v <> u -> moves spares (on_storage (D:=Delivered D) (FM_DeleteByPrefix (chunksPrefix v))).
Proof.
  intros Hv Hne. rewrite (chunksPrefix_parts v). apply (spares_prefix v); [done..|segments|]. intros q. rewrite <- chunksPrefix_parts. apply chunks_in_root.
Qed.
Lemma spares_now : moves spares (Now (F:=F) (D:=Delivered D)).
Proof. intros s. split; simpl; try done; lia. Qed.
Lemma spares_id : moves spares (idgen_New (F:=F) (D:=Delivered D)).
Proof. intros s. split; simpl; try done; lia. Qed.
Lemma spares_daemon {B} (x : M (Delivered D) B) : moves spares (on_daemon (F:=F) x).
Proof. intros s. unfold on_daemon, zoom. destruct (x (up_daemon s)). by split. Qed.
Lemma spares_later v : moves spares (later (F:=F) (D:=Delivered D) v).
Proof. intros s. by split. Qed.

Ltac spare_step :=
  lazymatch goal with
  | |- moves ?P (bind _ _) => apply (moves_bind P); [|intros ?]
  | |- moves ?P (attempt _) => apply (moves_attempt P)
  | |- moves ?P (ret _) => apply (moves_ret P)
  | |- moves ?P (lift _) => apply (moves_lift P)
  | |- moves _ (reject _) => unfold reject
  | |- moves _ (accept _) => unfold accept
  | |- moves _ (after _ _) => unfold after
  | |- moves _ (storing _ _ _) => unfold storing
  | |- moves _ (quietly _) => unfold quietly
  | |- moves _ (load _) => unfold load
  | |- moves _ (verifyAccess _ _) => unfold verifyAccess
  | |- moves _ (receivedChunks _) => unfold receivedChunks
  | |- moves _ (write_done _ _) => unfold write_done
  | |- moves _ (match ?x with _ => _ end) => destruct x
  | |- moves _ (on_storage (FM_Read _)) => apply spares_read; eauto with uploads
  | |- moves _ (on_storage (FM_Exists _)) => apply spares_exists; eauto with uploads
  | |- moves _ (on_storage (FM_List _)) => apply spares_list
  | |- moves _ (on_storage (FM_Delete _)) => eapply spares_delete; [eassumption|eassumption|constructor]
  | |- moves _ (on_storage (FM_Write _ _)) => eapply spares_write; [eassumption|eassumption|constructor]
  | |- moves _ (on_storage (FM_WriteStream _ _)) => eapply spares_write_stream; [eassumption|eassumption|constructor]
  | |- moves _ (on_storage (FM_DeleteByPrefix (transferRoot _))) => by apply spares_root
  | |- moves _ (on_storage (FM_DeleteByPrefix (chunksPrefix _))) => by apply spares_chunks
  | |- moves _ (on_storage (assemble _ _ _)) => by apply spares_assemble
  | |- moves _ Now => apply spares_now
  | |- moves _ idgen_New => apply spares_id
  | |- moves _ (later _) => apply spares_later
  | |- moves _ (on_daemon _) => apply spares_daemon
  end.
Ltac spared := cbv zeta; repeat spare_step.

Lemma load_spares v : segment v -> moves spares (load (D:=Delivered D) v).
Proof. intros Hv. spared. Qed.
Lemma verify_spares sess w : moves spares (verifyAccess (F:=F) (D:=Delivered D) sess w).
Proof. spared. Qed.
Lemma WriteChunk_spares v w i b : segment v -> v <> u -> moves spares (WriteChunk (D:=Delivered D) v w i b).
Proof. intros Hv Hne. unfold WriteChunk. spared. Qed.
Lemma Status_spares v w : segment v -> moves spares (Status (D:=Delivered D) v w).
Proof. intros Hv. unfold Status. spared. Qed.
Lemma Complete_spares v w node : segment v -> v <> u -> moves spares (Complete SHA256 v w node).
Proof. intros Hv Hne. unfold Complete. spared. Qed.
Lemma Abort_spares v w : segment v -> v <> u -> moves spares (Abort (D:=Delivered D) v w).
Proof. intros Hv Hne. unfold Abort. spared. Qed.
Lemma cleanup_spares v : segment v -> v <> u -> moves spares (cleanupAfterComplete (D:=Delivered D) v).
Proof. intros Hv Hne. unfold cleanupAfterComplete. spared. Qed.
Lemma maybeRemove_spares v : segment v -> v <> u -> moves spares (maybeRemove (D:=Delivered D) v).
Proof. intros Hv Hne. unfold maybeRemove. spared. Qed.
Lemma Create_spares p s n : u = New_at n -> (n < up_ids s)%N -> spares s (snd (Create cfg p s)).
Proof.
  intros Hn Hlt. unfold Create. repeat match goal with |- context [(if ?b then _ else _) s] => destruct b; [reflexivity|] end.
  unfold bind at 1 2. unfold Now, idgen_New at 1. cbn [fst snd up_ids up_clock up_storage up_daemon up_cleanups].
  set (s1 := mkUploads _ _ _ _ _). assert (Hs1 : spares s s1) by (split; simpl; try done; lia).
  etransitivity; [exact Hs1|]. assert (Hne : New_at (up_ids s) <> u) by (intros E; rewrite Hn in E; apply id_fresh in E; lia).
  pose proof (New_at_segment (up_ids s)) as Hs. destruct (marshal _); [|reflexivity..]. cbn [ss_UploadID new_session].
  match goal with |- spares s1 (snd (?m s1)) => revert s1 Hs1; assert (Hm : moves spares m) by spared; intros s1 _; apply Hm end.
Qed.
End others.
#[local] Existing Instance spares_preorder.

(** ** Calls on a storage that works *)

Lemma bind_run {T A B} (m : M T A) (k : A -> M T B) (s s1 : T) a : m s = (Ok a, s1) -> bind m k s = k a s1.
Proof. unfold bind. by intros ->. Qed.
Lemma attempt_run {T A} (m : M T A) (s s1 : T) a : m s = (Ok a, s1) -> attempt m s = (Ok (Ok a), s1).
Proof. unfold attempt. by intros ->. Qed.
Lemma after_run {A B} (x : M S (A + api_error)) (k : A -> M S (B + api_error)) s s1 a : x s = (Ok (inl a), s1) -> after x k s = k a s1.
Proof. unfold after, bind. by intros ->. Qed.

Definition with_storage (f : F) s : S := mkUploads f (up_daemon s) (up_clock s) (up_ids s) (up_cleanups s).
(** Only the storage has changed, and no file or directory of it. *)
Definition calm s s' : Prop := exists f, s' = with_storage f s /\ fm_inv f /\ same fm_file (up_storage s) f /\ no_dirs fm_dir (up_storage s) f.
Lemma calm_trans s1 s2 s3 : calm s1 s2 -> calm s2 s3 -> calm s1 s3.
Proof.
  intros (f & -> & _ & H1' & H1d) (g & -> & Hg & H2' & H2d). exists g. split_and!; [done|done|by eapply same_trans|by eapply new_dirs_trans].
Qed.
Lemma calm_spares u s s' : segment u -> calm s s' -> spares u s s'.
Proof.
  intros Hu (f & -> & Hf & Hs & Hd). split; simpl; [done|done|done| | |].
  - intros _ q Hq _. by apply Hs.
  - intros _ q Hq _ Hfd. by destruct (Hd q Hq Hfd) as [?|[]].
  - intros _ k Hk Hn. unfold file_of in *. simpl. rewrite Hs; [done|by apply (way_plain u Hu)].
Qed.

Lemma storage_calm {B} (x : M F B) b s : fst (x (up_storage s)) = Ok b ->
  wp x (fun _ f' => fm_inv f' /\ same fm_file (up_storage s) f') (up_storage s) -> no_dirs fm_dir (up_storage s) (snd (x (up_storage s))) ->
  exists s1, on_storage x s = (Ok b, s1) /\ calm s s1.
Proof.
  intros Hb Hx Hd. unfold wp in Hx. unfold on_storage, zoom. destruct (x (up_storage s)) as [r f]. simpl in *. subst r.
  eexists. split; [done|]. exists f. split; [done|]. split; [apply Hx|]. by split; [apply Hx|].
Qed.
Lemma read_run p d s : fm_inv (up_storage s) -> plain p -> file_of s p = Some d ->
  exists s1, on_storage (D:=Delivered D) (FM_Read p) s = (Ok d, s1) /\ calm s s1.
Proof.
  intros Hi Hp Hd. apply storage_calm; [by apply fm_read_ok| |by apply fm_read_dirs]. eapply wp_mono; [by apply fm_read_law|]. by intros r f' (? & ? & _).
Qed.
Lemma exists_run p s : fm_inv (up_storage s) -> plain p -> file_of s p = None -> ~ fm_dir (up_storage s) p ->
  exists s1, on_storage (D:=Delivered D) (FM_Exists p) s = (Ok false, s1) /\ calm s s1.
Proof.
  intros Hi Hp Hn Hd. destruct (fm_exists_ok (up_storage s) p Hi Hp) as (b & Hb & Hiff).
  assert (b = false) as ->.
  { destruct b; [|done]. destruct (proj1 Hiff eq_refl) as [[d E]|?]; [|done]. unfold file_of in Hn. congruence. }
  apply storage_calm; [done| |by apply fm_exists_dirs]. eapply wp_mono; [by apply fm_exists_law|]. by intros r f' (? & ? & _).
Qed.
Lemma write_stream_run l st s : fm_inv (up_storage s) -> l <> [] -> Forall segment l -> free fm_file fm_dir (up_storage s) l -> sm_fault st = None ->
  exists f, on_storage (D:=Delivered D) (FM_WriteStream (unparts l) st) s = (Ok tt, with_storage f s) /\ fm_inv f /\ only fm_file (unparts l) (up_storage s) f /\
    new_dirs fm_dir (on_the_way (unparts l)) (up_storage s) f /\ fm_file f (unparts l) = Some (sm_content st).
Proof.
  intros Hi Hl Hs Hfree Hst. assert (Hp : plain (unparts l)) by by exists l. pose proof (fm_write_stream_ok (up_storage s) l st Hi Hl Hs Hfree Hst) as Hok.
  pose proof (fm_write_stream_law (up_storage s) _ st Hi Hp) as Hw. pose proof (fm_write_stream_dirs (up_storage s) _ st Hi Hp) as Hd.
  unfold wp in Hw. unfold on_storage, zoom.
  destruct (FM_WriteStream (unparts l) st (up_storage s)) as [r f]. simpl in *. subst r. exists f. split; [done|]. by destruct Hw as (? & ? & _ & ?).
Qed.

(** The owner gets in while the session lasts, nobody else does. *)
Lemma verify_run u sess w s : ss_UserID sess = w -> (now_at (up_clock s) <= ss_ExpiresAt sess)%Z ->
  exists s1, verifyAccess sess w s = (Ok (inl tt), s1) /\ spares u s s1 /\ up_storage s1 = up_storage s /\ up_daemon s1 = up_daemon s.
Proof.
  intros <- Hnow. unfold verifyAccess. rewrite N.eqb_refl. change (negb true) with false. cbv iota.
  destruct (IsZero (ss_ExpiresAt sess)); [exists s; split_and!; [done|reflexivity|done..]|].
  unfold bind, Now. cbv beta iota. destruct (Z.ltb_spec (ss_ExpiresAt sess) (now_at (up_clock s))) as [|_]; [lia|].
  eexists. split; [reflexivity|]. split; [|by split]. split; simpl; try done; lia.
Qed.
Lemma verify_refuses sess w s : ss_UserID sess <> w -> verifyAccess sess w s = (Ok (inr ErrSessionForbidden), s).
Proof. intros Hne. unfold verifyAccess. by destruct (N.eqb_spec (ss_UserID sess) w). Qed.

(** ** Sending a file *)

(** What else may happen meanwhile: new sessions, requests about other sessions or
    of other users, questions about this one, cleaning up after others, and the
    janitor. *)
Inductive elsewhere (sess : Session) : (S -> S) -> Prop :=
| other_create q : elsewhere sess (fun s => snd (Create cfg q s))
| other_write v w i b : segment v -> v <> ss_UploadID sess \/ w <> ss_UserID sess -> elsewhere sess (fun s => snd (WriteChunk v w i b s))
| other_status v w : segment v -> elsewhere sess (fun s => snd (Status v w s))
| other_complete v w node : segment v -> v <> ss_UploadID sess \/ w <> ss_UserID sess -> elsewhere sess (fun s => snd (Complete SHA256 v w node s))
| other_abort v w : segment v -> v <> ss_UploadID sess \/ w <> ss_UserID sess -> elsewhere sess (fun s => snd (Abort v w s))
| other_cleanup v : segment v -> v <> ss_UploadID sess -> elsewhere sess (fun s => snd (cleanupAfterComplete v s))
| other_sweep : elsewhere sess (fun s => snd (Sweep s)).

(** Chunks of the file are sent, in any order and as often as one likes; [got] are
    those sent so far. *)
Inductive sending (sess : Session) (file : string) (s0 : S) : gset N -> S -> Prop :=
| send_start : sending sess file s0 ∅ s0
| send_chunk got s i : sending sess file s0 got s -> (i < ss_TotalChunks sess)%N ->
    sending sess file s0 ({[i]} ∪ got) (snd (WriteChunk (ss_UploadID sess) (ss_UserID sess) i (whole (piece (ss_ChunkSize sess) file i)) s))
| send_other got s x : sending sess file s0 got s -> elsewhere sess x -> sending sess file s0 got (x s).

(** The clock only goes on. *)
Definition ticks s s' : Prop := (up_clock s <= up_clock s')%N.
#[local] Instance ticks_preorder : PreOrder ticks.
Proof. split; [intros s; unfold ticks; lia|intros s1 s2 s3; unfold ticks; lia]. Qed.
Lemma ticks_storage {B} (x : M F B) : moves ticks (on_storage (D:=Delivered D) x).
Proof. intros s. unfold on_storage, zoom, ticks. destruct (x (up_storage s)). simpl. lia. Qed.
Lemma ticks_daemon {B} (x : M (Delivered D) B) : moves ticks (on_daemon (F:=F) x).
Proof. intros s. unfold on_daemon, zoom, ticks. destruct (x (up_daemon s)). simpl. lia. Qed.
Lemma ticks_now : moves ticks Now.
Proof. intros s. unfold ticks. simpl. lia. Qed.
Lemma ticks_id : moves ticks idgen_New.
Proof. intros s. unfold ticks. simpl. lia. Qed.
Lemma ticks_later u : moves ticks (later u).
Proof. intros s. unfold ticks. simpl. lia. Qed.
Ltac tick_step :=
  lazymatch goal with
  | |- moves ?P (bind _ _) => apply (moves_bind P); [|intros ?]
  | |- moves ?P (attempt _) => apply (moves_attempt P)
  | |- moves ?P (ret _) => apply (moves_ret P)
  | |- moves ?P (lift _) => apply (moves_lift P)
  | |- moves _ (match ?x with _ => _ end) => destruct x
  | |- moves _ (on_storage _) => apply ticks_storage
  | |- moves _ (on_daemon _) => apply ticks_daemon
  | |- moves _ Now => apply ticks_now
  | |- moves _ idgen_New => apply ticks_id
  | |- moves _ (later _) => apply ticks_later
  end.
Ltac ticking := unfold load, verifyAccess, receivedChunks, write_done, after, storing, quietly, reject, accept; cbv zeta; repeat tick_step.
Lemma ticks_quietly {B} (x : M F B) : moves ticks (quietly (on_storage x)).
Proof. ticking. Qed.
Lemma WriteChunk_ticks u w i b : moves ticks (WriteChunk u w i b).
Proof. unfold WriteChunk. ticking. Qed.
Lemma maybeRemove_ticks v : moves ticks (maybeRemove v).
Proof. unfold maybeRemove. ticking. Qed.
Lemma sweep_ticks l : forall seen, moves ticks (sweep seen l).
Proof.
  induction l as [|e l IH]; intros seen; simpl; [by apply (moves_ret ticks)|].
  destruct (uploadIDFromPath e) as [v|]; [|apply IH]. destruct (decide _); [apply IH|].
  apply (moves_bind ticks); [apply maybeRemove_ticks|intros _; apply IH].
Qed.
Lemma elsewhere_ticks sess x s : elsewhere sess x -> ticks s (x s).
Proof.
  destruct 1 as [q|v w i b|v w|v w node|v w|v|].
  - revert s. change (moves ticks (Create cfg q)). unfold Create. ticking.
  - apply WriteChunk_ticks.
  - revert s. change (moves ticks (Status v w)). unfold Status. ticking.
  - revert s. change (moves ticks (Complete SHA256 v w node)). unfold Complete. ticking.
  - revert s. change (moves ticks (Abort v w)). unfold Abort. ticking.
  - revert s. change (moves ticks (cleanupAfterComplete v)). unfold cleanupAfterComplete. ticking.
  - revert s. change (moves ticks Sweep). unfold Sweep. ticking. apply sweep_ticks.
Qed.

(** ** An upload under way *)

Section one_upload.
Context (p : CreateParams) (k : N) (t : time) (file : string).
Let c : N := cf_ChunkSize cfg.
Let u : string := New_at k.
Let sess : Session := planned cfg u p t.
Let n : N := total_chunks c (size_of file).
Hypothesis (Hc : (0 < c)%N) (Hf : file <> ""%string) (Hsize : (size_of file + c < 9223372036854775807)%N).
Hypothesis (Htotal : cp_TotalSize p = size_of file) (Hsum : ToLower (cp_ExpectedChecksum p) = SHA256 file) (Hmany : (n <= 1000000)%N).

(** The chunks in [got] have arrived, nothing else is among the chunks, and
    nothing is in the way of the files of the session. *)
Record under_way (got : gset N) s : Prop := {
  uw_inv : fm_inv (up_storage s);
  uw_meta : exists json, file_of s (metadataPath u) = Some json /\ marshal sess = Ok json;
  uw_done : file_of s (donePath u) = None;
  uw_range : forall i, i ∈ got -> (i < n)%N;
  uw_got : forall i, i ∈ got -> file_of s (chunkPath u i) = Some (piece c file i);
  uw_only : forall q, plain q -> under (chunksPrefix u) q = true -> is_Some (file_of s q) -> exists i, i ∈ got /\ q = chunkPath u i;
  uw_dirs : forall q, plain q -> under (transferRoot u) q = true -> fm_dir (up_storage s) q -> q = in_session u ["chunks"%string];
  uw_chunks : file_of s (in_session u ["chunks"%string]) = None;
  uw_way : forall l, l ∈ way_of u -> file_of s (unparts l) = None;
  uw_id : (k < up_ids s)%N;
}.
Lemma u_segment : segment u.
Proof. apply New_at_segment. Qed.
#[local] Hint Resolve u_segment : uploads.
Lemma root_place l q : place_in u l q -> plain q /\ under (transferRoot u) q = true.
Proof.
  intros Hp. split; [by eapply place_in_root; [apply u_segment|]|]. destruct (place_in_spec _ _ _ Hp) as [Hl ->].
  rewrite transferRoot_parts. assert (l <> []) by by destruct Hp. by apply (parts_under ["transfers"%string; u] l).
Qed.
Lemma chunk_under i : under (chunksPrefix u) (chunkPath u i) = true.
Proof. unfold under, chunkPath. apply string_prefix_app. Qed.

Lemma in_root l : l <> [] -> Forall segment l -> plain (in_session u l) /\ under (transferRoot u) (in_session u l) = true.
Proof.
  intros Hl Hs. split; [by apply in_session_plain; [apply u_segment|]|]. rewrite transferRoot_parts. by apply (parts_under ["transfers"%string; u] l).
Qed.
Lemma chunks_root : plain (in_session u ["chunks"%string]) /\ under (transferRoot u) (in_session u ["chunks"%string]) = true.
Proof. apply in_root; [done|segments]. Qed.
(** The directories of the session on the way to one of its files. *)
Lemma way_inside l q : l <> [] -> Forall segment l -> plain q -> under (transferRoot u) q = true -> on_the_way (in_session u l) q ->
  exists l1 l2, l1 <> [] /\ l2 <> [] /\ l = l1 ++ l2 /\ q = in_session u l1.
Proof.
  intros Hl Hs Hq Hr Hway. pose proof u_segment as Hu. rewrite transferRoot_parts in Hr.
  destruct (under_parts ["transfers"%string; u] q) as (l1 & N1 & S1 & ->); [by apply root_segments|done..|].
  unfold on_the_way in Hway. destruct (under_parts (["transfers"%string; u] ++ l1) (in_session u l)) as (l2 & N2 & S2 & E);
    [apply list.Forall_app; split; [by apply root_segments|done]|done|by apply in_root|done|].
  exists l1, l2. split_and!; [done|done| |done]. rewrite <- app_assoc in E. change (in_session u l = in_session u (l1 ++ l2)) in E.
  apply in_session_inj in E as [_ E]; [done..|apply list.Forall_app; by split].
Qed.
Lemma way_of_one x q : segment x -> plain q -> under (transferRoot u) q = true -> ~ on_the_way (in_session u [x]) q.
Proof.
  intros Hx Hq Hr Hway. destruct (way_inside [x] q) as (l1 & l2 & N1 & N2 & E & _); [done|by apply list.Forall_singleton|done..|].
  destruct l1 as [|y l1]; [done|]. injection E as _ E. by destruct l1, l2.
Qed.
Lemma way_of_chunk i q : plain q -> under (transferRoot u) q = true -> on_the_way (chunkPath u i) q -> q = in_session u ["chunks"%string].
Proof.
  intros Hq Hr. rewrite chunkPath_parts. intros Hway. destruct (way_inside ["chunks"; chunkName i]%string q) as (l1 & l2 & N1 & N2 & E & ->); [done|apply chunk_segments|done..|].
  destruct l1 as [|y [|z l1]]; [done|by injection E as <- _|]. exfalso. apply (f_equal length) in E. simpl in E. rewrite length_app in E. destruct l2; [done|simpl in E; lia].
Qed.

(** Nothing is in the way of the files of the session. *)
Lemma session_free f l : l <> [] -> ~ fm_dir f (in_session u l) -> (forall k, k ∈ way_of u -> fm_file f (unparts k) = None) ->
  (forall k, k <> [] -> k `prefix_of` l -> k <> l -> fm_file f (in_session u k) = None) -> free fm_file fm_dir f (["transfers"%string; u] ++ l).
Proof.
  intros Hl Hd Hway Hin. split; [exact Hd|]. intros k' Hk Hpre Hne. destruct k' as [|a [|b k']]; [done|..].
  - assert (a = "transfers"%string) as -> by (destruct Hpre as [tl [= -> _]]; done). apply Hway. by left.
  - assert (a = "transfers"%string /\ b = u /\ k' `prefix_of` l) as (-> & -> & Hk') by (destruct Hpre as [tl [= -> -> ->]]; split_and!; [done|done|by exists tl]).
    destruct k' as [|y k']; [apply Hway; right; by left|]. apply (Hin (y :: k')); [done|done|]. intros E. by rewrite <- E in Hne.
Qed.
Lemma one_free got s x : under_way got s -> segment x -> x <> "chunks"%string -> free fm_file fm_dir (up_storage s) (["transfers"%string; u] ++ [x]).
Proof.
  intros Hw Hx Hne. assert (Hsx : Forall segment [x]) by by apply list.Forall_singleton. destruct (in_root [x] ltac:(done) Hsx) as [Hp Hr]. apply session_free; [done| |apply (uw_way _ _ Hw)|].
  - intros Hd. apply (uw_dirs _ _ Hw) in Hd; [|done..]. apply in_session_inj in Hd as [_ E]; [congruence|apply u_segment|apply u_segment|done|segments].
  - intros k' Hk [tl Ht] Hne'. destruct k' as [|y [|z k']]; [done| |done]. by injection Ht as -> ->.
Qed.
Lemma chunk_free got s i : under_way got s -> free fm_file fm_dir (up_storage s) (["transfers"%string; u] ++ ["chunks"; chunkName i]%string).
Proof.
  intros Hw. destruct (in_root ["chunks"; chunkName i]%string ltac:(done) (chunk_segments i)) as [Hp Hr]. apply session_free; [done| |apply (uw_way _ _ Hw)|].
  - intros Hd. apply (uw_dirs _ _ Hw) in Hd; [|done..]. apply in_session_inj in Hd as [_ [=]]; [apply u_segment|apply u_segment|apply chunk_segments|segments].
  - intros k' Hk [tl Ht] Hne'. destruct k' as [|y [|z k']]; [done|injection Ht as <- _; apply (uw_chunks _ _ Hw)|]. exfalso. destruct k' as [|? k']; [|done].
    by injection Ht as <- <- _.
Qed.

Lemma under_way_spares got s s' : under_way got s -> spares u s s' -> under_way got s'.
Proof.
  intros [Hi (json & Hm & Hj) Hd Hr Hg Ho Hdirs Hch Hway Hk] [Si Sd Sc Sf Sg Sw]. specialize (Sf Hi).
  assert (Hp : forall l q, place_in u l q -> file_of s' q = file_of s q) by (intros l q Hq; destruct (root_place l q Hq); by apply Sf).
  split.
  - auto.
  - exists json. split; [|done]. by rewrite (Hp _ _ (in_meta u)).
  - by rewrite (Hp _ _ (in_done u)).
  - done.
  - intros i Hin. rewrite (Hp _ _ (in_chunk u i)). by apply Hg.
  - intros q Hq Hu. rewrite Sf; [by apply Ho|done|by apply chunks_in_root].
  - intros q Hq Hu Hfd. by apply Hdirs, Sg.
  - rewrite Sf; [done|apply chunks_root..].
  - intros l Hl. by apply Sw, Hway.
  - lia.
Qed.

Lemma load_run got s : under_way got s -> exists s1, load u s = (Ok (inl sess), s1) /\ calm s s1.
Proof.
  intros Hw. destruct (uw_meta _ _ Hw) as (json & Hm & Hj).
  destruct (read_run (metadataPath u) json s) as (s1 & E & Hcalm); [apply Hw|eauto with uploads|done|].
  exists s1. split; [|done]. unfold load. rewrite (bind_run _ _ _ _ _ (attempt_run _ _ _ _ E)). by rewrite (unmarshal_marshal _ _ Hj).
Qed.
Lemma stranger_refused {B} got w (x : Session -> M S (B + api_error)) s : under_way got s -> w <> cp_UserID p ->
  spares u s (snd (after (load u) (fun sess => after (verifyAccess sess w) (fun _ => x sess)) s)).
Proof.
  intros Hw Hne. destruct (load_run got s Hw) as (s1 & E & Hcalm). rewrite (after_run _ _ _ _ _ E).
  unfold after, bind. rewrite verify_refuses by (simpl; congruence). apply calm_spares; [apply u_segment|done].
Qed.

Lemma under_way_calm got s s' : under_way got s -> calm s s' -> under_way got s'.
Proof. intros Hw Hs. eapply under_way_spares; [exact Hw|apply calm_spares; [apply u_segment|done]]. Qed.
Lemma done_run got s : under_way got s -> exists s1, on_storage (D:=Delivered D) (FM_Exists (donePath u)) s = (Ok false, s1) /\ calm s s1.
Proof.
  intros Hw. pose proof u_segment as Hu. apply exists_run; [apply Hw|by apply done_plain|apply (uw_done _ _ Hw)|]. rewrite donePath_parts. apply (one_free got s "done" Hw); [by apply word_segment|done].
Qed.

(** *** A chunk *)

Lemma whole_chunk i : (i < n)%N -> LimitReader (safeChunkLimit (ChunkSizeFor sess i)) (whole (piece c file i)) = whole (piece c file i) /\
  (size_of (piece c file i) =? ChunkSizeFor sess i)%N = true.
Proof.
  intros Hi. pose proof (chunk_size_piece c file Hc Hf Hsize u p t (t + cf_SessionTTL cfg)%Z i Htotal Hi) as E. change (ChunkSizeFor sess i = size_of (piece c file i)) in E.
  split; [|apply N.eqb_eq; by rewrite E]. pose proof (size_piece c file i) as Hsz. rewrite E. unfold LimitReader, safeChunkLimit, maxInt64. simpl sm_content.
  destruct (N.leb_spec 9223372036854775807 (size_of (piece c file i))); [lia|].
  destruct (N.ltb_spec (size_of (piece c file i)) (size_of (piece c file i) + 1)); [done|lia].
Qed.

Lemma chunk_arrives got s i : under_way got s -> (i < n)%N -> (now_at (up_clock s) <= ss_ExpiresAt sess)%Z ->
  exists s', WriteChunk u (cp_UserID p) i (whole (piece c file i)) s = (Ok (inl tt), s') /\ under_way ({[i]} ∪ got) s'.
Proof.
  intros Hw Hi Hnow. destruct (load_run got s Hw) as (s1 & E1 & C1). pose proof (under_way_calm _ _ _ Hw C1) as Hw1.
  assert (Hnow1 : (now_at (up_clock s1) <= ss_ExpiresAt sess)%Z) by by destruct C1 as (f & -> & _).
  destruct (verify_run u sess (cp_UserID p) s1 eq_refl Hnow1) as (s2 & E2 & S2 & _). pose proof (under_way_spares _ _ _ Hw1 S2) as Hw2.
  destruct (done_run got s2 Hw2) as (s3 & E3 & C3).
  pose proof (under_way_calm _ _ _ Hw2 C3) as Hw3. destruct (whole_chunk i Hi) as [Hlim Hsz].
  destruct (write_stream_run (["transfers"%string; u] ++ ["chunks"; chunkName i]%string) (whole (piece c file i)) s3) as (f & E4 & Hf4 & Ho4 & Hn4 & Hd4);
    [apply Hw3|done|apply list.Forall_app; split; [apply root_segments, u_segment|apply chunk_segments]|by apply (chunk_free got)|done|].
  fold (in_session u ["chunks"; chunkName i]%string) in E4, Ho4, Hn4, Hd4. rewrite <- chunkPath_parts in E4, Ho4, Hn4, Hd4.
  exists (with_storage f s3). split.
  - unfold WriteChunk. rewrite (after_run _ _ _ _ _ E1), (after_run _ _ _ _ _ E2), (bind_run _ _ _ _ _ E3). cbv beta zeta.
    rewrite Hlim.
    assert (Hlt : (ss_TotalChunks sess <=? i)%N = false).
    { apply N.leb_gt. change (i < total_chunks c (cp_TotalSize p))%N. by rewrite Htotal. }
    rewrite Hlt, (bind_run _ _ _ _ _ (attempt_run _ _ _ _ E4)). cbn [sm_content whole]. by rewrite Hsz.
  - destruct Hw3 as [Ii (json & Hm & Hj) Hd Hr Hg Hon Hdirs Hch Hway Hk].
    assert (Hp : forall l q, place_in u l q -> q <> chunkPath u i -> file_of (with_storage f s3) q = file_of s3 q).
    { intros l q Hq Hne. destruct (root_place l q Hq) as [Hpl _]. by apply Ho4. }
    split; [done|..].
    + exists json. split; [|done]. rewrite (Hp _ _ (in_meta u)); [done|]. eapply places_apart; [apply u_segment|apply u_segment|constructor|constructor|by right].
    + rewrite (Hp _ _ (in_done u)); [done|]. eapply places_apart; [apply u_segment|apply u_segment|constructor|constructor|by right].
    + set_solver.
    + intros j Hj'. destruct (decide (j = i)) as [->|Hne]; [exact Hd4|]. assert (Hgot : j ∈ got) by set_solver.
      rewrite (Hp _ _ (in_chunk u j)); [by apply Hg|]. intros E. unfold chunkPath in E. pose proof (Hr j Hgot) as Hrj.
      assert (En : chunkName j = chunkName i).
      { rewrite <- (substring_suffix (chunksPrefix u) (chunkName j)), <- (substring_suffix (chunksPrefix u) (chunkName i)). by rewrite E. }
      assert (Es : scan_index (chunkName j) = scan_index (chunkName i)) by by rewrite En. rewrite !scan_chunkName in Es by lia. congruence.
    + intros q Hq Hu Hsome. destruct (decide (q = chunkPath u i)) as [->|Hne]; [exists i; set_solver|].
      destruct (Hon q Hq Hu) as (j & Hj' & ->); [|exists j; set_solver]. revert Hsome. unfold file_of. simpl. by rewrite Ho4.
    + intros q Hq Hr' Hfd. destruct (Hn4 q Hq Hfd) as [?|Hway']; [by apply Hdirs|by apply (way_of_chunk i)].
    + unfold file_of. simpl. rewrite Ho4; [done|apply chunks_root|]. rewrite chunkPath_parts. intros E.
      apply in_session_inj in E as [_ [=]]; [apply u_segment|apply u_segment|segments|apply chunk_segments].
    + intros l Hl. unfold file_of. simpl. rewrite Ho4; [by apply Hway|by apply (way_plain u u_segment)|].
      apply (way_no_place u u_segment l u ["chunks"; chunkName i]%string); [done|apply u_segment|constructor].
    + done.
Qed.

(** *** The janitor passes by *)

Lemma not_yet x y : (now_at y < ss_ExpiresAt sess)%Z -> (x <= y)%N -> (now_at x < ss_ExpiresAt sess)%Z.
Proof. intros Hy Hxy. pose proof (now_mono x y Hxy). lia. Qed.

Lemma maybeRemove_lasting got v s : segment v -> under_way got s ->
  (now_at (up_clock (snd (maybeRemove (D:=Delivered D) v s))) < ss_ExpiresAt sess)%Z -> spares u s (snd (maybeRemove (D:=Delivered D) v s)).
Proof.
  intros Hv Hw. destruct (decide (v = u)) as [->|Hne]; [|intros _; apply maybeRemove_spares; [apply u_segment|done..]].
  destruct (uw_meta _ _ Hw) as (json & Hm & Hj). destruct (read_run (metadataPath u) json s) as (s2 & E & C2); [apply Hw|eauto with uploads|done|].
  unfold maybeRemove. rewrite (bind_run _ _ _ _ _ (attempt_run _ _ _ _ E)), (unmarshal_marshal _ _ Hj). cbv beta iota.
  pose proof (calm_spares u _ _ u_segment C2) as S2. destruct (IsZero (ss_ExpiresAt sess)); [done|]. unfold bind, Now. cbv beta iota.
  set (s3 := mkUploads _ _ _ _ _). assert (S3 : spares u s s3) by (etransitivity; [exact S2|apply (spares_now u s2)]).
  destruct (Z.ltb_spec (now_at (up_clock s2)) (ss_ExpiresAt sess)) as [_|Hlate]; [intros _; exact S3|].
  intros Hnow. exfalso. assert (Hle : (up_clock s3 <= up_clock (snd (quietly (on_storage (D:=Delivered D) (FM_DeleteByPrefix (transferRoot u))) s3)))%N) by apply ticks_quietly.
  simpl in Hle. apply (not_yet (up_clock s2)) in Hnow; [lia|]. revert Hle. simpl. lia.
Qed.

Lemma sweep_spares l : (forall e, e ∈ l -> listing_name transferPrefix e) -> forall seen got s, under_way got s ->
  (now_at (up_clock (snd (sweep (D:=Delivered D) seen l s))) < ss_ExpiresAt sess)%Z -> spares u s (snd (sweep seen l s)).
Proof.
  induction l as [|e l IH]; intros Hl seen got s Hw Hnow; [reflexivity|]. simpl in *.
  assert (IH' : forall seen got s, under_way got s -> (now_at (up_clock (snd (sweep (D:=Delivered D) seen l s))) < ss_ExpiresAt sess)%Z -> spares u s (snd (sweep seen l s)))
    by (apply IH; intros x Hx; apply Hl; by right).
  destruct (uploadIDFromPath e) as [v|] eqn:Ev; [|by apply (IH' _ got)]. destruct (decide (v ∈ seen)); [by apply (IH' _ got)|].
  assert (Hv : segment v) by (eapply uploadID_segment; [apply Hl; by left|exact Ev]).
  pose proof (maybeRemove_lasting got v s Hv Hw) as Hone. unfold bind in *. destruct (maybeRemove v s) as [r s1]. simpl in Hone.
  pose proof (sweep_ticks l ({[v]} ∪ seen) s1) as Ht.
  destruct r as [x|x|x]; [|by apply Hone..]. assert (S1 : spares u s s1) by by apply Hone, (not_yet _ _ Hnow).
  etransitivity; [exact S1|]. apply (IH' _ got); [|done]. by eapply under_way_spares.
Qed.

Lemma Sweep_spares got s : under_way got s -> (now_at (up_clock (snd (Sweep (D:=Delivered D) s))) < ss_ExpiresAt sess)%Z ->
  spares u s (snd (Sweep s)).
Proof.
  intros Hw. unfold Sweep. unfold bind, attempt. pose proof (spares_list u u_segment transferPrefix s) as S1.
  unfold on_storage, zoom in *. pose proof (fm_list_law (up_storage s) transferPrefix (uw_inv _ _ Hw)) as Hl. unfold wp in Hl.
  destruct (FM_List transferPrefix (up_storage s)) as [r f]. simpl in *. destruct Hl as (_ & _ & Hl).
  destruct r as [l|e|w]; simpl; [|by intros _..]. intros Hnow. etransitivity; [exact S1|].
  eapply (sweep_spares l); [by intros e He; eapply Hl|by eapply under_way_spares|exact Hnow].
Qed.

(** *** Whatever happens meanwhile *)

Lemma elsewhere_spares got x s : under_way got s -> elsewhere sess x -> (now_at (up_clock (x s)) < ss_ExpiresAt sess)%Z -> spares u s (x s).
Proof.
  intros Hw Hx. pose proof u_segment as Hu. destruct Hx as [q|v w i b Hv Hne|v w Hv|v w node Hv Hne|v w Hv Hne|v Hv Hne|]; intros Hnow.
  - eapply (Create_spares u Hu q s k); [done|apply Hw].
  - destruct (decide (v = u)) as [->|Hvu]; [|by apply WriteChunk_spares].
    eapply (stranger_refused got w); [done|]. by destruct Hne.
  - by apply Status_spares.
  - destruct (decide (v = u)) as [->|Hvu]; [|by apply Complete_spares].
    eapply (stranger_refused got w); [done|]. by destruct Hne.
  - destruct (decide (v = u)) as [->|Hvu]; [|by apply Abort_spares].
    destruct (load_run got s Hw) as (s1 & E & C1). unfold Abort. rewrite (bind_run _ _ _ _ _ E). unfold after, bind.
    rewrite verify_refuses by (destruct Hne; simpl in *; congruence). by apply calm_spares.
  - by apply cleanup_spares.
  - by apply (Sweep_spares got).
Qed.

Lemma sending_under_way s0 got s : sending sess file s0 got s -> under_way ∅ s0 -> (now_at (up_clock s) < ss_ExpiresAt sess)%Z -> under_way got s.
Proof.
  intros Hs Hw. induction Hs as [|got s i Hs IH Hi|got s x Hs IH Hx]; intros Hnow.
  - done.
  - assert (Hnow' : (now_at (up_clock s) < ss_ExpiresAt sess)%Z) by (eapply not_yet; [exact Hnow|apply WriteChunk_ticks]).
    destruct (chunk_arrives got s i) as (s' & E & Hw'); [by apply IH| |lia|].
    + change (i < total_chunks c (cp_TotalSize p))%N in Hi. by rewrite Htotal in Hi.
    + change (WriteChunk (ss_UploadID sess) (ss_UserID sess) i (whole (piece (ss_ChunkSize sess) file i)) s = (Ok (inl tt), s')) in E. by rewrite E.
  - assert (Hnow' : (now_at (up_clock s) < ss_ExpiresAt sess)%Z) by (eapply not_yet; [exact Hnow|by apply (elsewhere_ticks sess)]).
    eapply under_way_spares; [by apply IH|]. apply (elsewhere_spares got); [by apply IH|done..].
Qed.

(** *** The upload is completed *)

Lemma indices_elem i m : i ∈ chunk_indices m <-> (i < m)%N.
Proof.
  unfold chunk_indices. rewrite list_elem_of_fmap. setoid_rewrite elem_of_seq. split; [intros (j & -> & ?); lia|].
  intros Hi. exists (N.to_nat i). split; [by rewrite N2Nat.id|lia].
Qed.
Lemma indices_nodup m : NoDup (chunk_indices m).
Proof. apply NoDup_fmap_2; [intros i j; lia|apply NoDup_seq]. Qed.

(** A chunk is known by each of the names it may have in a listing. *)
Lemma chunk_index i e : (i < n)%N -> e = chunkPath u i \/ e = chunkName i \/ e = chunkName i +:+ "/" -> indexFromChunkPath u e = Some i.
Proof.
  intros Hi He. destruct (chunkName_segment i) as [(Hne & _) Hs]. destruct (trim_slash_app (chunkName i)) as [Hts Ht]; [done..|].
  assert (Hplain : forall e, e = chunkName i \/ e = chunkName i +:+ "/" -> TrimPrefix e (chunksPrefix u) = e).
  { intros e' He'. unfold TrimPrefix. destruct (String.prefix (chunksPrefix u) e') eqn:E; [exfalso|done]. apply prefix_spec in E as [tl E].
    assert (Hc2 : cut_byte slash (chunksPrefix u +:+ tl) = Some ("transfers"%string, u +:+ "/chunks/" +:+ tl)).
    { change (chunksPrefix u) with ("transfers" +:+ "/" +:+ (u +:+ "/") +:+ "chunks/") || unfold chunksPrefix, transferRoot, transferPrefix.
      rewrite !string_app_assoc. by rewrite (cut_first "transfers"). }
    destruct He' as [->| ->]; rewrite <- E in Hc2.
    - by rewrite cut_none in Hc2.
    - change (chunkName i +:+ "/") with (chunkName i +:+ "/" +:+ ""%string) in Hc2. rewrite cut_first in Hc2 by done. injection Hc2 as Hc2 _.
      assert (Hsc : scan_index (chunkName i) = scan_index "transfers") by by rewrite Hc2. rewrite scan_chunkName in Hsc by lia. discriminate Hsc. }
  unfold indexFromChunkPath. assert (Htail : trim_slash (TrimPrefix e (chunksPrefix u)) = chunkName i).
  { destruct He as [->|He]; [unfold TrimPrefix, chunkPath; by rewrite string_prefix_app, substring_suffix|]. rewrite Hplain by done. by destruct He as [->| ->]. }
  rewrite Htail. destruct (String.eqb_spec (chunkName i) ""); [done|]. rewrite Hs. simpl. apply scan_chunkName. lia.
Qed.
Lemma received_run got s : under_way got s -> (exists i, i ∈ got) -> exists s1, receivedChunks u s = (Ok (inl got), s1) /\ calm s s1.
Proof.
  intros Hw [i0 Hi0]. pose proof u_segment as Hu. assert (Hsl : Forall segment ["transfers"%string; u; "chunks"%string]) by segments.
  set (l := ["transfers"%string; u; "chunks"%string]) in *. assert (Hpre : chunksPrefix u = unparts l +:+ "/") by apply chunksPrefix_parts.
  assert (Hat : forall i, chunkPath u i = unparts (l ++ [chunkName i])) by (intros i; apply chunkPath_parts).
  destruct (fm_list_ok (up_storage s) l) as (found & Hf' & Hnamed & Hfound); [apply Hw|done|done|exists (chunkPath u i0); split_and!; [by apply chunk_plain|rewrite <- Hpre; apply chunk_under|]|].
  { pose proof (uw_got _ _ Hw i0 Hi0) as E. unfold file_of in E. by exists (piece c file i0). }
  destruct (storage_calm (FM_List (unparts l +:+ "/")) found s Hf') as (s1 & E & C1).
  { eapply wp_mono; [apply fm_list_law, Hw|]. by intros r f' (? & ? & _). }
  { apply fm_list_dirs, Hw. }
  exists s1. split; [|done]. unfold receivedChunks, storing. rewrite Hpre, (bind_run _ _ _ _ _ (attempt_run _ _ _ _ E)). cbv beta iota.
  unfold accept, ret. repeat f_equal. apply set_eq. intros i. rewrite elem_of_list_to_set, list_elem_of_omap. split.
  - intros (e & Hin & Hidx).
    assert (Hone : exists j, j ∈ got /\ (e = chunkPath u j \/ e = chunkName j \/ e = chunkName j +:+ "/")).
    { destruct (Hnamed e Hin) as [(Hp & Hun & Hsome)|(x & Hx & Hex & Hthere)].
      - rewrite <- Hpre in Hun. destruct (uw_only _ _ Hw e Hp Hun Hsome) as (j & Hj & ->). exists j. split; [done|by left].
      - assert (Hsx : Forall segment (l ++ [x])) by (apply list.Forall_app; split; [done|by apply list.Forall_singleton]).
        destruct Hthere as [(more & Hmore & Hsome)|Hd].
        + assert (Hsm : Forall segment (l ++ x :: more)) by (apply list.Forall_app; split; [done|by constructor]).
          destruct (uw_only _ _ Hw (unparts (l ++ x :: more))) as (j & Hj & Ej); [by exists (l ++ x :: more)|rewrite Hpre; by apply parts_under|exact Hsome|].
          rewrite Hat in Ej. apply plain_inj in Ej; [|done|done|done|].
          * apply (app_inv_head l) in Ej. injection Ej as -> _. exists j. split; [done|]. by right.
          * apply list.Forall_app; split; [done|apply list.Forall_singleton, chunkName_segment].
        + exfalso. apply (uw_dirs _ _ Hw) in Hd; [|by exists (l ++ [x])|].
          * change (in_session u ["chunks"%string; x] = in_session u ["chunks"%string]) in Hd. apply in_session_inj in Hd as [_ [=]]; [done|done|by inversion Hsx as [|? ? _ Hsx1]; inversion Hsx1|segments].
          * rewrite transferRoot_parts. by apply (parts_under ["transfers"%string; u] ["chunks"%string; x]). }
    destruct Hone as (j & Hj & He). rewrite (chunk_index j) in Hidx; [by injection Hidx as <-|by apply (uw_range _ _ Hw)|done].
  - intros Hi. destruct (Hfound (chunkName i)) as [Hin|Hin]; [apply chunkName_segment| | |].
    + pose proof (uw_got _ _ Hw i Hi) as Ei. unfold file_of in Ei. rewrite Hat in Ei. by exists (piece c file i).
    + exists (chunkName i). split; [done|]. apply chunk_index; [by apply (uw_range _ _ Hw)|by right; left].
    + exists (chunkPath u i). rewrite Hat. split; [done|]. rewrite <- Hat. apply chunk_index; [by apply (uw_range _ _ Hw)|by left].
Qed.

Lemma read_chunks_run l f : fm_inv f -> (forall i, i ∈ l -> fm_file f (chunkPath u i) = Some (piece c file i)) ->
  exists f', read_chunks u l f = (Ok (whole (joined (map (piece c file) l))), f') /\ fm_inv f' /\ same fm_file f f'.
Proof.
  revert f. induction l as [|i l IH]; intros f Hf' Hl; [exists f; split; [done|]; split; [done|apply same_refl]|].
  pose proof (chunk_plain u i u_segment) as Hp. pose proof (fm_read_stream_ok f _ _ Hf' Hp (Hl i (list_elem_of_here _ _))) as Hok.
  pose proof (fm_read_stream_law f _ Hf' Hp) as Hlaw. unfold wp in Hlaw. destruct (FM_ReadStream (chunkPath u i) f) as [r f1] eqn:E.
  simpl in Hok, Hlaw. subst r. destruct Hlaw as (Hf1 & Hs1 & _). destruct (IH f1 Hf1) as (f2 & E2 & Hf2 & Hs2).
  - intros j Hj. rewrite Hs1; [apply Hl; by right|apply chunk_plain, u_segment].
  - exists f2. split; [|split; [done|by eapply same_trans]]. simpl. rewrite (bind_run _ _ _ _ _ (attempt_run _ _ _ _ E)). simpl.
    by rewrite (bind_run _ _ _ _ _ E2).
Qed.
Lemma assemble_run got s : under_way got s -> (forall i, (i < n)%N -> i ∈ got) ->
  exists f', assemble SHA256 u n (up_storage s) = (Ok (SHA256 file), f') /\ fm_inv f' /\ only fm_file (dataPath u) (up_storage s) f' /\
    new_dirs fm_dir (on_the_way (dataPath u)) (up_storage s) f' /\ fm_file f' (dataPath u) = Some file.
Proof.
  intros Hw Hall. pose proof u_segment as Hu. set (f := up_storage s).
  destruct (read_chunks_run (chunk_indices n) f) as (f1 & E1 & Hf1 & Hs1); [apply Hw|by intros i Hi%indices_elem%Hall; apply (uw_got _ _ Hw)|].
  pose proof (read_chunks_dirs u (chunk_indices n) f Hu (uw_inv _ _ Hw)) as [_ Hd1]. rewrite E1 in Hd1. cbn [snd] in Hd1.
  rewrite joined_pieces in E1 by apply (total_chunks_ceil c file Hc Hf Hsize).
  assert (Hdata : Forall segment ["data"%string]) by segments.
  pose proof (one_free got s "data" Hw ltac:(by apply word_segment) ltac:(done)) as Hfree.
  assert (Hfree1 : free fm_file fm_dir f1 (["transfers"%string; u] ++ ["data"%string])).
  { destruct Hfree as [F1 F2]. split.
    { pose proof (dataPath_parts u) as Edp. unfold in_session in Edp. rewrite <- Edp in *. intros Hd. by destruct (Hd1 _ (data_plain u Hu) Hd) as [?|[]]. }
    intros k' Hk Hpre Hne. rewrite Hs1; [by apply F2|]. exists k'. split; [done|]. split; [|done].
    destruct Hpre as [tl Hpre]. assert (Hsk : Forall segment (["transfers"%string; u] ++ ["data"%string])) by (apply list.Forall_app; split; [by apply root_segments|done]).
    rewrite Hpre in Hsk. by apply list.Forall_app in Hsk as [? _]. }
  pose proof (fm_write_stream_ok f1 (["transfers"%string; u] ++ ["data"%string]) (whole file) Hf1 ltac:(done)
    ltac:(apply list.Forall_app; split; [by apply root_segments|done]) Hfree1 eq_refl) as Hok.
  fold (in_session u ["data"%string]) in Hok. rewrite <- dataPath_parts in Hok.
  pose proof (fm_write_stream_law f1 _ (whole file) Hf1 (data_plain u Hu)) as Hlaw. pose proof (fm_write_stream_dirs f1 _ (whole file) Hf1 (data_plain u Hu)) as Hd2. unfold wp in Hlaw.
  destruct (FM_WriteStream (dataPath u) (whole file) f1) as [r f2] eqn:E2. simpl in Hok, Hlaw, Hd2. subst r. destruct Hlaw as (Hf2 & Ho2 & _ & Hdt).
  exists f2. split_and!; [|done| | |done].
  - unfold assemble. by rewrite (bind_run _ _ _ _ _ E1), (bind_run _ _ _ _ _ E2).
  - eapply only_trans; [by apply same_only|done].
  - eapply new_dirs_trans; [by apply no_new_dirs|done].
Qed.
(** The file that marks the end can still be written then. *)
Lemma done_free got s f : under_way got s -> only fm_file (dataPath u) (up_storage s) f -> new_dirs fm_dir (on_the_way (dataPath u)) (up_storage s) f ->
  free fm_file fm_dir f (["transfers"%string; u] ++ ["done"%string]).
Proof.
  intros Hw Ho Hn. pose proof u_segment as Hu. assert (Hsd : Forall segment ["done"%string]) by segments. destruct (in_root ["done"%string] ltac:(done) Hsd) as [Hp Hr].
  apply session_free; [done| | |].
  - intros Hd. destruct (Hn _ Hp Hd) as [Hd0|Hway].
    + apply (uw_dirs _ _ Hw) in Hd0; [|done..]. apply in_session_inj in Hd0 as [_ [=]]; [done|done|done|segments].
    + rewrite dataPath_parts in Hway. by apply (way_of_one "data" (in_session u ["done"%string])) in Hway; [|by apply word_segment|..].
  - intros l Hl. rewrite Ho; [by apply (uw_way _ _ Hw)|by apply (way_plain u Hu)|]. by apply (way_no_place u Hu l u ["data"%string]); [|done|constructor].
  - intros k' Hk [tl Ht] Hne. destruct k' as [|y [|z k']]; [done| |done]. by injection Ht as <- <-.
Qed.

Lemma size_all (got : gset N) : (forall i, i ∈ got <-> (i < n)%N) -> N.of_nat (size got) = n.
Proof.
  intros Hgot. assert (E : got = list_to_set (chunk_indices n)) by (apply set_eq; intros i; by rewrite elem_of_list_to_set, indices_elem).
  rewrite E, size_list_to_set by apply indices_nodup. unfold chunk_indices. rewrite length_fmap, length_seq. lia.
Qed.

(** The daemon is told of the whole file; where it takes it, the storage holds it
    and the request succeeds, and where it does not, everything is as before and
    the request can be repeated. *)
Definition delivered_whole node s (r : result (unit + api_error)) s' : Prop :=
  made s' = made s ++ [mkDelivery node (cp_FullPath p) u (SHA256 file) (size_of file) (mkOwner (cp_SuUser p) 0 0)] /\
  match fst (UploadStreamPrepared node (cp_FullPath p) u (SHA256 file) (size_of file) (mkOwner (cp_SuUser p) 0 0) (dd_daemon (up_daemon s))) with
  | Ok _ => r = Ok (inl tt) /\ file_of s' (dataPath u) = Some file
  | Err e => r = Ok (inr (OtherError (EWrap "dispatch upload to daemon" e))) /\
      forall q, plain q -> q <> dataPath u -> file_of s' q = file_of s q
  | Panic w => r = Panic w
  end.

Lemma quietly_delete_run s d : fm_inv (up_storage s) -> file_of s (dataPath u) = Some d ->
  exists f, quietly (on_storage (D:=Delivered D) (FM_Delete (dataPath u))) s = (Ok tt, with_storage f s) /\
  only fm_file (dataPath u) (up_storage s) f.
Proof.
  intros Hi Hd. pose proof (data_plain u u_segment) as Hp. pose proof (fm_delete_ok (up_storage s) _ _ Hi Hp Hd) as Hok.
  pose proof (fm_delete_law (up_storage s) _ Hi Hp) as Hlaw. unfold wp in Hlaw. unfold quietly, bind, attempt, on_storage, zoom.
  destruct (FM_Delete (dataPath u) (up_storage s)) as [r f]. simpl in *. subst r. exists f. split; [done|apply Hlaw].
Qed.

Lemma Complete_run got node s r s' : under_way got s -> (forall i, (i < n)%N -> i ∈ got) -> (now_at (up_clock s) <= ss_ExpiresAt sess)%Z ->
  nd_ID node = cp_NodeID p -> Complete SHA256 u (cp_UserID p) (Some node) s = (r, s') -> delivered_whole node s r s'.
Proof.
  intros Hw Hall Hnow Hnode. pose proof u_segment as Hu.
  destruct (load_run got s Hw) as (s1 & E1 & C1). pose proof (under_way_calm _ _ _ Hw C1) as Hw1.
  assert (Hnow1 : (now_at (up_clock s1) <= ss_ExpiresAt sess)%Z) by by destruct C1 as (f & -> & _).
  destruct (verify_run u sess (cp_UserID p) s1 eq_refl Hnow1) as (s2 & E2 & S2 & U2 & D2). pose proof (under_way_spares _ _ _ Hw1 S2) as Hw2.
  destruct (done_run got s2 Hw2) as (s3 & E3 & C3).
  pose proof (under_way_calm _ _ _ Hw2 C3) as Hw3. destruct (total_chunks_ceil c file Hc Hf Hsize) as [_ Hpos].
  destruct (received_run got s3 Hw3) as (s4 & E4 & C4); [exists 0%N; by apply Hall|].
  pose proof (under_way_calm _ _ _ Hw3 C4) as Hw4.
  assert (Hgot : forall i, i ∈ got <-> (i < n)%N) by (intros i; split; [apply (uw_range _ _ Hw)|apply Hall]).
  destruct (assemble_run got s4 Hw4 Hall) as (f & E5 & Hf5 & Ho5 & Hn5 & Hd5). pose proof (done_free got s4 f Hw4 Ho5 Hn5) as Hfree.
  assert (Hfiles : same fm_file (up_storage s) (up_storage s4) /\ up_daemon s4 = up_daemon s).
  { destruct C1 as (f1 & -> & _ & H1' & _), C3 as (f3 & -> & _ & H3' & _), C4 as (f4 & -> & _ & H4' & _). simpl in *. split; [|done].
    rewrite U2 in H3'. eapply same_trans; [exact H1'|]. by eapply same_trans. }
  destruct Hfiles as [Hfiles Hdaemon].
  unfold Complete. rewrite (after_run _ _ _ _ _ E1), (after_run _ _ _ _ _ E2).
  replace (nd_ID node =? ss_NodeID sess)%N with true by (symmetry; by apply N.eqb_eq). change (negb true) with false. cbv iota.
  rewrite (bind_run _ _ _ _ _ E3). cbv iota. rewrite (after_run _ _ _ _ _ E4).
  assert (Hn : ss_TotalChunks sess = n) by (change (total_chunks c (cp_TotalSize p) = n); by rewrite Htotal).
  rewrite Hn, (size_all got Hgot), N.eqb_refl. change (negb true) with false. cbv iota.
  assert (Hfor : forallb (fun i => bool_decide (i ∈ got)) (chunk_indices n) = true).
  { apply forallb_forall. intros i Hi. apply bool_decide_eq_true, Hgot, indices_elem. by apply list_elem_of_In. }
  rewrite Hfor. change (negb true) with false. cbv iota zeta.
  assert (E5' : on_storage (D:=Delivered D) (assemble SHA256 u n) s4 = (Ok (SHA256 file), with_storage f s4)) by (unfold on_storage, zoom; by rewrite E5).
  rewrite (bind_run _ _ _ _ _ (attempt_run _ _ _ _ E5')). cbv beta iota. set (s5 := with_storage f s4).
  replace (String.eqb (SHA256 file) (ss_ExpectedChecksum sess)) with true by (symmetry; apply String.eqb_eq; symmetry; exact Hsum).
  change (negb true) with false. cbv iota.
  change (ss_FullPath sess) with (cp_FullPath p). change (ss_UploadID sess) with u. change (ss_SuUser sess) with (cp_SuUser p).
  replace (ss_TotalSize sess) with (size_of file) by (symmetry; exact Htotal). unfold delivered_whole. rewrite <- Hdaemon.
  unfold bind at 1, attempt at 1, on_daemon at 1, zoom at 1. unfold recording at 1. cbn [UploadStreamPrepared]. change (up_daemon s5) with (up_daemon s4).
  destruct (UploadStreamPrepared node (cp_FullPath p) u (SHA256 file) (size_of file) (mkOwner (cp_SuUser p) 0 0) (dd_daemon (up_daemon s4))) as [rd d]. simpl fst.
  set (call := mkDelivery _ _ _ _ _ _). set (s6 := mkUploads _ (mkDelivered (dd_made (up_daemon s4) ++ [call]) d) _ _ _).
  assert (Hm6 : made s6 = made s ++ [call]) by (unfold made; rewrite <- Hdaemon; done).
  destruct rd as [[]|e|w]; intros E.
  - pose proof (finish_keeps u (SHA256 file) s6 Hu Hf5) as Hfin. unfold wp in Hfin. rewrite E in Hfin. simpl in Hfin. destruct Hfin as [Hm' Hd'].
    split; [by rewrite Hm'|]. split; [|by rewrite Hd'].
    assert (Hr : fst ((do! write_done (D:=Delivered D) u (SHA256 file) ;; do! later u ;; accept tt) s6) = Ok (inl tt)).
    { unfold write_done. pose proof (marshalDone_returns true (SHA256 file)) as Hret. destruct (marshalDone true (SHA256 file)) as [info|e|w]; [|done|by destruct (Hret w)].
      assert (Hok : fst (FM_Write (donePath u) info (up_storage s6)) = Ok tt).
      { rewrite donePath_parts. apply fm_write_ok; [exact Hf5|done|apply list.Forall_app; split; [by apply root_segments|segments]|exact Hfree]. }
      unfold quietly, bind, attempt, on_storage, zoom.
      destruct (FM_Write (donePath u) info (up_storage s6)) as [rw fw]. simpl in Hok. by subst rw. }
    by rewrite E in Hr.
  - destruct (quietly_delete_run s6 file Hf5 Hd5) as (g & Eg & Hog). rewrite (bind_run _ _ _ _ _ Eg) in E. injection E as <- <-.
    split; [exact Hm6|]. split; [done|]. intros q Hq Hne. unfold file_of. simpl. rewrite Hog, Ho5 by done. by apply Hfiles.
  - injection E as <- <-. by split.
Qed.
End one_upload.

(** *** From the first request to the last *)

Lemma created_session q s r s' : Create cfg q s = (Ok (inl r), s') -> r = planned cfg (New_at (up_ids s)) q (now_at (up_clock s)) /\ (0 < cf_ChunkSize cfg)%N /\
  exists data f, marshal r = Ok data /\ FM_Write (metadataPath (New_at (up_ids s))) data (up_storage s) = (Ok tt, f) /\
    s' = mkUploads f (up_daemon s) (up_clock s + 1) (up_ids s + 1) (up_cleanups s).
Proof.
  unfold Create. destruct (cp_TotalSize q =? 0)%N; [done|]. destruct (negb _); [done|]. destruct (N.eqb_spec (cf_ChunkSize cfg) 0) as [|Hc]; [done|].
  destruct (_ && _); [done|]. unfold bind at 1 2. unfold Now, idgen_New at 1. cbn [up_ids up_clock up_storage up_daemon up_cleanups].
  fold (planned cfg (New_at (up_ids s)) q (now_at (up_clock s))). set (sess := planned _ _ _ _).
  destruct (marshal sess) as [data|e|w] eqn:Ej; [|done..]. unfold storing, bind, attempt, on_storage, zoom. cbn [up_storage].
  change (ss_UploadID sess) with (New_at (up_ids s)). destruct (FM_Write _ data (up_storage s)) as [[[]|e|w] f] eqn:Ew; [|done..].
  intros [= <- <-]. split; [done|]. split; [lia|]. by exists data, f.
Qed.

(** Nothing of an upload is there yet, nor in the way of its directory. *)
Definition unused (u : string) s : Prop :=
  (forall q, plain q -> under (transferRoot u) q = true -> file_of s q = None /\ ~ fm_dir (up_storage s) q) /\
  forall k, k ∈ way_of u -> file_of s (unparts k) = None.

(** C39: on a storage that works ([ReliableStorage]: the panel's own disk and the
    storage in memory are shown to be such), where nothing is yet at or below the
    directory of the new upload nor in its way, a file whose upload was accepted
    and whose chunks have all been sent by the user who asked for it (in any
    order, any chunk any number of times, while other uploads, requests of other
    users and the janitor go on, one call after another, and before the session
    expires) is delivered when he asks for the upload to be completed: the daemon
    of the node is told of the path, owner, size and checksum that were announced;
    if it takes the file the request succeeds and the storage holds exactly the
    file for it, and if it refuses, the error is passed on and the session is as
    it was, so the request can be repeated.  The file has at most a million
    chunks. *)
Theorem uploaded_file_arrives p file s0 sess s1 got s2 node r s3 :
  fm_inv (up_storage s0) -> file <> ""%string -> (size_of file + cf_ChunkSize cfg < 9223372036854775807)%N ->
  cp_TotalSize p = size_of file -> ToLower (cp_ExpectedChecksum p) = SHA256 file ->
  unused (New_at (up_ids s0)) s0 ->
  Create cfg p s0 = (Ok (inl sess), s1) -> (ss_TotalChunks sess <= 1000000)%N ->
  sending sess file s1 got s2 -> (forall i, (i < ss_TotalChunks sess)%N -> i ∈ got) -> (now_at (up_clock s2) < ss_ExpiresAt sess)%Z ->
  nd_ID node = cp_NodeID p -> Complete SHA256 (ss_UploadID sess) (cp_UserID p) (Some node) s2 = (r, s3) ->
  made s3 = made s2 ++ [mkDelivery node (cp_FullPath p) (ss_UploadID sess) (SHA256 file) (size_of file) (mkOwner (cp_SuUser p) 0 0)] /\
  match fst (UploadStreamPrepared node (cp_FullPath p) (ss_UploadID sess) (SHA256 file) (size_of file) (mkOwner (cp_SuUser p) 0 0) (dd_daemon (up_daemon s2))) with
  | Ok _ => r = Ok (inl tt) /\ file_of s3 (dataPath (ss_UploadID sess)) = Some file
  | Err e => r = Ok (inr (OtherError (EWrap "dispatch upload to daemon" e))) /\
      forall q, plain q -> q <> dataPath (ss_UploadID sess) -> file_of s3 q = file_of s2 q
  | Panic w => r = Panic w
  end.
Proof.
  intros Hi Hf Hsize Htotal Hsum Hfresh Ecreate Hmany Hsend Hall Hnow Hnode Ecomplete.
  destruct (created_session _ _ _ _ Ecreate) as (-> & Hc & data & f & Ej & Ew & ->). set (u := New_at (up_ids s0)) in *.
  assert (Hu : segment u) by apply New_at_segment. destruct Hfresh as [Hfresh Hway].
  pose proof (fm_write_dirs (up_storage s0) _ data Hi (meta_plain u Hu)) as Hn1. rewrite Ew in Hn1. cbn [snd] in Hn1.
  pose proof (wp_run _ _ _ _ _ (fm_write_law (up_storage s0) (metadataPath u) data Hi (meta_plain u Hu)) Ew) as (Hi1 & Ho1 & Hd1). simpl in Hd1.
  change (ss_TotalChunks (planned cfg u p (now_at (up_clock s0)))) with (total_chunks (cf_ChunkSize cfg) (cp_TotalSize p)) in Hmany, Hall.
  rewrite Htotal in Hmany, Hall.
  assert (Hrest : forall l q, place_in u l q -> q <> metadataPath u -> fm_file f q = None).
  { intros l q Hq Hne. destruct (root_place (up_ids s0) l q Hq) as [Hpl Hun]. rewrite Ho1 by done. by apply Hfresh. }
  assert (Hch : plain (in_session u ["chunks"%string]) /\ under (transferRoot u) (in_session u ["chunks"%string]) = true) by apply chunks_root.
  assert (Hstart : under_way p (up_ids s0) (now_at (up_clock s0)) file ∅ (mkUploads f (up_daemon s0) (up_clock s0 + 1) (up_ids s0 + 1) (up_cleanups s0))).
  { split; simpl.
    - done.
    - by exists data.
    - apply (Hrest _ _ (in_done u)). eapply places_apart; [exact Hu|exact Hu|constructor|constructor|by right].
    - set_solver.
    - set_solver.
    - intros q Hq Hun [d Hd]. exfalso. unfold file_of in Hd. simpl in Hd. rewrite Ho1 in Hd; [|done|].
      + destruct (Hfresh q Hq (chunks_in_root _ _ Hun)) as [Hno _]. unfold file_of in Hno. congruence.
      + intros ->. apply (place_under_chunks u u _ _ Hu Hu (in_meta u)) in Hun as [_ Hh]. done.
    - intros q Hq Hr Hd. exfalso. destruct (Hn1 q Hq Hd) as [Hd0|Hw0]; [by apply (Hfresh q Hq Hr)|]. rewrite metadataPath_parts in Hw0.
      revert Hw0. apply (way_of_one (up_ids s0)); [by apply word_segment|done..].
    - unfold file_of. simpl. rewrite Ho1; [apply (Hfresh _ (proj1 Hch) (proj2 Hch))|apply Hch|]. rewrite metadataPath_parts. intros E. apply in_session_inj in E as [_ [=]]; [done|done|segments|segments].
    - intros l Hl. unfold file_of. simpl. rewrite Ho1; [by apply Hway|by apply (way_plain u Hu)|]. by apply (way_no_place u Hu l u ["upload.json"%string]); [|done|constructor].
    - lia. }
  pose proof (sending_under_way p (up_ids s0) (now_at (up_clock s0)) file Hc Hf Hsize Htotal Hsum Hmany _ _ _ Hsend Hstart Hnow) as Hw.
  exact (Complete_run p (up_ids s0) (now_at (up_clock s0)) file Hc Hf Hsize Htotal Hsum Hmany got node s2 r s3 Hw Hall (Z.lt_le_incl _ _ Hnow) Hnode Ecomplete).
Qed.
End arrive.

(** ** An example *)

Module ArrivalSample.
Import UploadSample.
#[local] Existing Instances listed_order clock plain_text codec codec_laws ids ids_laws daemon.
#[local] Instance going : GoClock clock := ticking_clock.
Definition slow : Config := mkConfig 4 (3600 * second) 100.
(** The panel's own disk, with nothing on it. *)
Definition fresh : Uploads Root (Delivered unit) := mkUploads (mkRoot ∅ 0) (up_daemon empty) 0 0 [].
Abbreviation started := (Create slow wanted fresh).
Definition accepted : Session := planned slow (New_at 0) wanted 1.
Definition put (i : N) (up : Uploads Root (Delivered unit)) :=
  snd (WriteChunk (ss_UploadID accepted) (ss_UserID accepted) i (whole (piece (ss_ChunkSize accepted) world_file i)) up).
(** The janitor comes by, and another user tries to remove the upload. *)
Abbreviation sent := (put 1 (snd (Abort (ss_UploadID accepted) 6 (put 0 (snd (Sweep (put 2 (snd started)))))))).
Abbreviation completed := (Complete sum (ss_UploadID accepted) 5 (Some Dispatcher.sample_node) sent).

Lemma started_accepted : fst started = Ok (inl accepted).
Proof. vm_compute. reflexivity. Defined.
Lemma started_pair : started = (Ok (inl accepted), snd started).
Proof. rewrite <- started_accepted. apply surjective_pairing. Defined.
Lemma sending_all : sending (D:=unit) sum slow accepted world_file (snd started) ({[1%N]} ∪ ({[0%N]} ∪ ({[2%N]} ∪ ∅))) sent.
Proof.
  apply (send_chunk sum slow accepted world_file (snd started) _ _ 1%N); [|reflexivity].
  apply (send_other sum slow accepted world_file (snd started) _ _ (fun s => snd (Abort (ss_UploadID accepted) 6 s))).
  2: { apply other_abort; [apply id_segment|right; discriminate]. }
  apply (send_chunk sum slow accepted world_file (snd started) _ _ 0%N); [|reflexivity].
  apply (send_other sum slow accepted world_file (snd started) _ _ (fun s => snd (Sweep s))); [|apply other_sweep].
  apply (send_chunk sum slow accepted world_file (snd started) _ _ 2%N); [|reflexivity]. apply send_start.
Defined.
Lemma before_expiry : (now_at (up_clock sent) < ss_ExpiresAt accepted)%Z.
Proof. vm_compute. reflexivity. Defined.
Lemma all_sent i : (i < ss_TotalChunks accepted)%N -> i ∈ ({[1%N]} ∪ ({[0%N]} ∪ ({[2%N]} ∪ (∅ : gset N)))).
Proof. change (ss_TotalChunks accepted) with 3%N. intros Hi. assert (i = 0 \/ i = 1 \/ i = 2)%N by lia. set_solver. Defined.

Lemma uploaded_file_arrives_witness :
  made (snd completed) = made sent ++ [mkDelivery Dispatcher.sample_node "/srv/two/hello.txt" (New_at 0) (sum world_file) 11 (mkOwner "player" 0 0)] /\
  file_of (snd completed) (dataPath (New_at 0)) = Some "hello world"%string.
Proof.
  destruct (uploaded_file_arrives sum slow wanted world_file fresh accepted (snd started) ({[1%N]} ∪ ({[0%N]} ∪ ({[2%N]} ∪ ∅))) sent Dispatcher.sample_node (fst completed) (snd completed))
    as [Hmade Hdata].
  - intros l e Hl. simpl in Hl. by rewrite lookup_empty in Hl.
  - discriminate.
  - reflexivity.
  - reflexivity.
  - vm_compute. reflexivity.
  - split; [|intros q _; unfold file_of; simpl; unfold file_at; simpl; by rewrite lookup_empty].
    intros q _ _. unfold file_of. simpl. unfold file_at, is_dir. simpl. by rewrite lookup_empty.
  - exact started_pair.
  - vm_compute. discriminate.
  - exact sending_all.
  - exact all_sent.
  - exact before_expiry.
  - reflexivity.
  - exact (surjective_pairing _).
  - split; [exact Hmade|exact (proj2 Hdata)].
Defined.
End ArrivalSample.
