(* ===== verification/UploadsDisk.v ===== *)
(** Chunked uploads over the storage on the panel's disk, the default one: what
    an aborted, expired or completed upload leaves there. *)

From S2P Require Import Prelude.
From S2P Require Import GoNum.
From S2P Require Import Domain.
From S2P Require Import GoRuntime.
From S2P Require Import Http.
From S2P Require Import FileManager.
From stdpp Require Import base tactics strings list gmap numbers.
From Stdlib Require Import NArith ZArith Ascii.
From S2P Require Import Ids.
From S2P Require Import FilePath.
From S2P Require Import FileStore.
From S2P Require Import LocalFiles.
From S2P Require Import Uploads.
From S2P Require Import UploadsSafe.

(** No name in the directory of an upload begins with the upload's own name; the
    service makes [upload.json], [chunks], [data] and [done] there, and an id is
    longer than each of them. *)
Definition names_apart (r : Root) : Prop :=
  forall u y e, ro_tree r !! ["transfers"%string; u; y] = Some e -> String.prefix u y = false.

Section disk.
Context {D : Type} `{MapOrder} `{DaemonUploader D} `{WallClock} `{SessionCodec} `{Unicode}.
Implicit Types s : Uploads Root D.
Definition disk s : gmap (list string) entry := ro_tree (up_storage s).
Record sound s : Prop := mkSound { so_closed : closed (up_storage s); so_names : names_apart (up_storage s) }.
(** The tree is as it was. *)
Definition untouched s s' : Prop := sound s -> sound s' /\ disk s' = disk s.
#[local] Instance untouched_preorder : PreOrder untouched.
Proof.
  split; [by intros s Hs|]. intros s1 s2 s3 H12 H23 Ha. destruct (H12 Ha) as [Hb E2]. destruct (H23 Hb) as [Hc E3].
  split; [done|congruence].
Qed.

Lemma untouched_storage {B} (x : M Root B) :
  (forall f, closed f -> names_apart f -> wp x (fun _ f' => ro_tree f' = ro_tree f) f) -> moves untouched (on_storage (D:=D) x).
Proof.
  intros Hx s [Hc Hn]. specialize (Hx _ Hc Hn). unfold wp in Hx. unfold on_storage, zoom. destruct (x (up_storage s)) as [r f']. simpl in Hx.
  split; [|done]. split; simpl; [by eapply tree_closed|]. unfold names_apart. by rewrite Hx.
Qed.
Lemma untouched_read u : segment u -> moves untouched (on_storage (D:=D) (FM_Read (metadataPath u))).
Proof.
  intros Hu. apply untouched_storage. intros f _ _. unfold FM_Read, local_files, Local.Read, ReadFile. do 2 wp_step.
  eapply wp_mono; [by apply Stat_plain, meta_plain|]. by intros [[|c]|e|w] f' [-> _].
Qed.
Lemma untouched_list p : moves untouched (on_storage (D:=D) (FM_List p)).
Proof. apply untouched_storage. intros f Hc _. eapply wp_mono; [by apply List_names|]. by intros r f' [? _]. Qed.

(** The removal of an upload finds its directory, and nothing in it. *)
Lemma transferRoot_removal u f : segment u -> closed f -> names_apart f ->
  wp (FM_DeleteByPrefix (transferRoot u)) (fun r f' => ro_tree f' = ro_tree f /\
    (ro_tree f !! ["transfers"%string; u] = Some Directory -> r = Ok tt)) f.
Proof.
  intros Hu Hc Hn. rewrite transferRoot_parts. apply (other_names_stay ["transfers"%string] u); [done|by apply root_segments|].
  intros y e. apply Hn.
Qed.
Lemma untouched_root u : segment u -> moves untouched (on_storage (D:=D) (FM_DeleteByPrefix (transferRoot u))).
Proof. intros Hu. apply untouched_storage. intros f Hc Hn. eapply wp_mono; [by apply transferRoot_removal|]. by intros r f' [? _]. Qed.
Lemma untouched_now : moves untouched (Now (F:=Root) (D:=D)).
Proof. by intros s [Hc Hn]. Qed.

Ltac untouched_step :=
  lazymatch goal with
  | |- moves ?P (bind _ _) => apply (moves_bind P); [|intros ?]
  | |- moves ?P (attempt _) => apply (moves_attempt P)
  | |- moves ?P (ret _) => apply (moves_ret P)
  | |- moves ?P (lift _) => apply (moves_lift P)
  | |- moves _ (reject _) => unfold reject
  | |- moves _ (accept _) => unfold accept
  | |- moves _ (after _ _) => unfold after
  | |- moves _ (storing _ _ _) => unfold storing
  | |- moves _ (quietly _) => unfold quietly
  | |- moves _ (match ?x with _ => _ end) => destruct x
  | |- moves _ (on_storage (FM_Read _)) => by apply untouched_read
  | |- moves _ (on_storage (FM_DeleteByPrefix _)) => by apply untouched_root
  | |- moves _ Now => apply untouched_now
  end.
Ltac untouched := cbv zeta; repeat untouched_step.

Lemma Abort_untouched u w : segment u -> moves untouched (Abort (F:=Root) (D:=D) u w).
Proof. intros Hu. unfold Abort, load, verifyAccess. untouched. Qed.
Lemma maybeRemove_untouched u : segment u -> moves untouched (maybeRemove (F:=Root) (D:=D) u).
Proof. intros Hu. unfold maybeRemove. untouched. Qed.
Lemma sweep_untouched l : (forall e, e ∈ l -> segment e) -> forall seen, moves untouched (sweep (F:=Root) (D:=D) seen l).
Proof.
  induction l as [|e l IH]; intros Hl seen; simpl; [by apply (moves_ret untouched)|].
  assert (IH' : forall seen, moves untouched (sweep (F:=Root) (D:=D) seen l)) by (apply IH; intros x Hx; apply Hl; by right).
  destruct (uploadIDFromPath e) as [u|] eqn:E; [|apply IH']. destruct (decide (u ∈ seen)); [apply IH'|].
  apply (moves_bind untouched); [|intros _; apply IH']. apply maybeRemove_untouched.
  eapply uploadID_segment; [right; left; apply Hl; by left|exact E].
Qed.
Lemma Sweep_untouched : moves untouched (Sweep (F:=Root) (D:=D)).
Proof.
  intros s Hs. unfold Sweep, bind, attempt. pose proof (untouched_list transferPrefix s Hs) as [Ha E1].
  unfold on_storage, zoom in *. destruct (FM_List transferPrefix (up_storage s)) as [r f] eqn:E. simpl in *.
  destruct (wp_run _ _ _ _ _ (List_names transferPrefix (up_storage s) (so_closed _ Hs)) E) as [_ Hl].
  destruct r as [l|e|w]; [|done..]. destruct (sweep_untouched l (fun e => Hl l e eq_refl) ∅ _ Ha) as [Hb E2]. split; [done|congruence].
Qed.

(** The session is read from the file of its upload, which lies in its directory. *)
Lemma loaded u s r s' : segment u -> sound s -> load (F:=Root) (D:=D) u s = (r, s') ->
  s' = s /\ forall sess, r = Ok (inl sess) -> disk s !! ["transfers"%string; u] = Some Directory.
Proof.
  intros Hu [Hc Hn]. unfold load, bind, attempt, on_storage, zoom. destruct (FM_Read (metadataPath u) (up_storage s)) as [r0 f] eqn:E.
  assert (Hr : f = up_storage s /\ forall d, r0 = Ok d -> file_at (up_storage s) (metadataPath u) = Some d).
  { unfold FM_Read, local_files, Local.Read, ReadFile in E. revert E. unfold wrap, bind.
    pose proof (Stat_plain (metadataPath u) (up_storage s) (meta_plain u Hu)) as Hst. unfold wp in Hst.
    destruct (Stat (metadataPath u) (up_storage s)) as [[[|c]|e|w] f1]; simpl in Hst; destruct Hst as [-> He]; intros [= <- <-]; (split; [done|]); try done.
    intros d [= <-]. by apply (He (File c)). }
  destruct Hr as [-> Hd]. assert (Hs : mkUploads (up_storage s) (up_daemon s) (up_clock s) (up_ids s) (up_cleanups s) = s) by by destruct s.
  rewrite Hs. destruct r0 as [d|e|w].
  - intros E2. assert (s' = s) as -> by (by destruct (unmarshal d); injection E2). split; [done|]. intros sess _.
    specialize (Hd d eq_refl). rewrite metadataPath_parts in Hd. unfold in_session in Hd.
    assert (Hseg : Forall segment (["transfers"%string; u] ++ ["upload.json"%string])) by (apply list.Forall_app; split; [by apply root_segments|segments]).
    rewrite file_plain in Hd by done.
    unfold disk. destruct (ro_tree (up_storage s) !! _) as [e|] eqn:El in Hd; [|done]. by destruct (Hc _ _ El) as (_ & _ & ?).
  - by intros [= <- <-].
  - by intros [= <- <-].
Qed.


(** C40: on the panel's disk the removal of an upload removes nothing, since the
    directory of the upload is searched for names that begin with the upload's own
    id: the user who aborts his upload is told that it is done, and every file and
    directory is still there; the janitor finds the sessions that have expired,
    again and again, and leaves them all. *)
Theorem uploads_stay_on_disk u w s r s' : segment u -> sound s -> Abort (D:=D) u w s = (r, s') ->
  disk s' = disk s /\ disk (snd (Sweep s')) = disk s /\
  (forall sess s1, load u s = (Ok (inl sess), s1) -> ss_UserID sess = w ->
     ss_ExpiresAt sess = time_zero \/ (now_at (up_clock s) <= ss_ExpiresAt sess)%Z -> r = Ok (inl tt)).
Proof.
  intros Hu Hs E. destruct (Abort_untouched u w Hu s Hs) as [Hs' Ed]. rewrite E in Hs', Ed. simpl in Hs', Ed.
  split; [done|]. split; [by destruct (Sweep_untouched s' Hs') as [_ ->]|]. intros sess s1 El Hw Hexp.
  destruct (loaded u s _ _ Hu Hs El) as [-> Hdir]. specialize (Hdir sess eq_refl). revert E.
  assert (Hok : forall s2, up_storage s2 = up_storage s ->
    fst (storing "delete upload session" (FM_DeleteByPrefix (transferRoot u)) (fun _ => accept (D:=D) tt) s2) = Ok (inl tt)).
  { intros s2 Es. unfold storing, bind, attempt, on_storage, zoom. rewrite Es.
    destruct (FM_DeleteByPrefix (transferRoot u) (up_storage s)) as [r0 f] eqn:Er.
    destruct (wp_run _ _ _ _ _ (transferRoot_removal u (up_storage s) Hu (so_closed _ Hs) (so_names _ Hs)) Er) as [_ Hres].
    by rewrite (Hres Hdir). }
  unfold Abort, bind at 1. rewrite El. unfold after, verifyAccess, IsZero. rewrite Hw, N.eqb_refl. simpl negb. change (if false then ?a else ?b) with b.
  destruct (Z.eqb_spec (ss_ExpiresAt sess) time_zero) as [Hz|Hz].
  - unfold bind at 1. simpl. intros E. enough (fst (r, s') = Ok (inl tt)) by done. rewrite <- E. exact (Hok s eq_refl).
  - destruct Hexp as [?|Hexp]; [done|]. unfold bind at 1. unfold bind at 1. unfold Now. cbv beta iota.
    destruct (Z.ltb_spec (ss_ExpiresAt sess) (now_at (up_clock s))); [lia|]. simpl. intros E.
    enough (fst (r, s') = Ok (inl tt)) by done. rewrite <- E.
    exact (Hok (mkUploads (up_storage s) (up_daemon s) (up_clock s + 1) (up_ids s) (up_cleanups s)) eq_refl).
Qed.
End disk.

(** ** An example *)

Module DiskSample.
Import UploadSample.
#[local] Existing Instances listed_order clock plain_text codec ids daemon.
(** A session that expires at once, with one of its chunks sent. *)
Definition brief : Config := mkConfig 4 5 100.
Abbreviation bare := (mkUploads (mkRoot ∅ 0) tt 0 0 []).
Abbreviation begun := (snd (WriteChunk (D:=unit) (New_at 0) 5 0 (whole "hell") (snd (Create brief wanted bare)))).
Abbreviation aborted := (Abort (New_at 0) 5 begun).
Definition in_place (t : gmap (list string) entry) (l : list string) : bool :=
  negb (bool_decide (l = [])) && forallb (fun x => bool_decide (segment x)) l &&
  match entry_at t (parent l) with Some Directory => true | _ => false end &&
  match l with [_; u; y] => negb (String.prefix u y) | _ => true end.
Lemma in_place_sound f : forallb (fun kv => in_place (ro_tree f) kv.1) (map_to_list (ro_tree f)) = true -> closed f /\ names_apart f.
Proof.
  intros Hall. rewrite forallb_forall in Hall.
  assert (Hin : forall l e, ro_tree f !! l = Some e -> in_place (ro_tree f) l = true).
  { intros l e Hl. apply (Hall (l, e)). by apply list_elem_of_In, elem_of_map_to_list. }
  split.
  - intros l e Hl. destruct (andb_prop _ _ (Hin l e Hl)) as [[[Hne Hs]%andb_prop Hp]%andb_prop _]. split_and!.
    + by apply negb_true_iff, bool_decide_eq_false in Hne.
    + rewrite list.Forall_forall. intros x Hx. rewrite forallb_forall in Hs. apply list_elem_of_In, Hs, bool_decide_eq_true in Hx. done.
    + by destruct (entry_at _ (parent l)) as [[]|].
  - intros u y e Hl. destruct (andb_prop _ _ (Hin _ _ Hl)) as [_ Hp]. by apply negb_true_iff in Hp.
Defined.
Lemma begun_sound : sound begun.
Proof.
  assert (Hall : forallb (fun kv => in_place (disk begun) kv.1) (map_to_list (disk begun)) = true) by (vm_compute; reflexivity).
  destruct (in_place_sound (up_storage begun) Hall) as [Hc Hn]. exact (mkSound _ Hc Hn).
Defined.
Lemma aborted_answer : fst aborted = Ok (inl tt).
Proof. vm_compute. reflexivity. Defined.

Lemma uploads_stay_on_disk_witness :
  fst aborted = Ok (inl tt) /\ disk (snd aborted) = disk begun /\ disk (snd (Sweep (snd aborted))) = disk begun /\
  disk begun !! ["transfers"; New_at 0; "chunks"; "000000"]%string = Some (File "hell").
Proof.
  destruct (uploads_stay_on_disk (New_at 0) 5 begun (fst aborted) (snd aborted) id_segment begun_sound (surjective_pairing _)) as (H1 & H2 & _).
  split; [exact aborted_answer|]. split; [exact H1|]. split; [exact H2|]. vm_compute. reflexivity.
Defined.
End DiskSample.
