(* ===== verification/UploadApi.v ===== *)
(** The requests of a chunked upload ([internal/api/filemanager/uploadsession]):
    the handlers over the checks of [ServerAccess] and [FilePath] and the service
    of [Uploads], and what any series of requests tells the daemons. *)

From S2P Require Import Prelude.
From S2P Require Import GoNum.
From S2P Require Import Domain.
From S2P Require Import GoRuntime.
From S2P Require Import FilePath.
From S2P Require Import FileStore.
From S2P Require Import Uploads.
From S2P Require Import UploadsSafe.
From S2P Require Import Repositories.
From S2P Require Import NodesRepo.
From S2P Require Import TaskRepo.
From S2P Require Import ServersRepo.
From S2P Require Import Http.
From S2P Require Import Accounts.
From S2P Require Import UserAuth.
From S2P Require Import RBACRepo.
From S2P Require Import RBAC.
From S2P Require Import ServerAccess.
From S2P Require Import FileManager.
From stdpp Require Import base tactics strings list gmap numbers.
From Stdlib Require Import NArith ZArith Ascii.

(** ** Requests and answers *)

Record Input : Type := mkInput { ip_Path : string; ip_Filename : string; ip_TotalSize : N; ip_ExpectedChecksum : string }.
Definition Input_Validate (i : Input) : option error :=
  match ValidatePath (ip_Path i) with
  | Some e => Some e
  | None =>
      match ValidateFilename (ip_Filename i) with
      | Some e => Some e
      | None =>
          if (ip_TotalSize i =? 0)%N then Some (ENew "total_size must be positive")
          else if String.eqb (ip_ExpectedChecksum i) "" then Some (ENew "expected_checksum is required")
          else None
      end
  end.

Inductive UploadAnswer : Type :=
| SessionCreated (UploadID : string) (ChunkSize TotalChunks TotalSize : N) (ExpiresAt : time)
| SessionState (UploadID : string) (TotalSize ChunkSize TotalChunks : N) (ReceivedChunks MissingChunks : list N) (UploadedBytes : N)
    (Completed : bool) (ExpiresAt : time)
| SessionCompleted (UploadID : string) (Completed : bool).
Definition newCreateResponse (sess : Uploads.Session) : UploadAnswer :=
  SessionCreated (ss_UploadID sess) (ss_ChunkSize sess) (ss_TotalChunks sess) (ss_TotalSize sess) (ss_ExpiresAt sess).
(** A missing list is an empty one. *)
Definition newStateResponse (status : SessionStatus) : UploadAnswer :=
  let sess := st_Session status in
  SessionState (ss_UploadID sess) (ss_TotalSize sess) (ss_ChunkSize sess) (ss_TotalChunks sess) (st_ReceivedChunks status)
    (st_MissingChunks status) (st_UploadedBytes status) (st_Completed status) (ss_ExpiresAt sess).

Definition ErrUserNotAuthenticated : api_error := APIError StatusUnauthorized "user not authenticated".
Definition ErrUploadIDRequired : api_error := APIError StatusBadRequest "uploadID is required".
Definition maxChunkSlack : N := 1.
(** [putchunk]'s [safeChunkLimit] *)
Definition request_limit (chunkSize : N) : N :=
  if (maxInt64 - maxChunkSlack <? chunkSize)%N then maxInt64 else (chunkSize + maxChunkSlack)%N.

Section handlers.
Context {V A R F D : Type} `{FinderRepository V} `{AccessControl A} `{NodeRepository R}.
Context `{StreamFileManager F} `{DaemonUploader D} `{WallClock} `{SessionCodec} `{IDGen} `{Unicode}.
Context (SHA256 : string -> string) (cfg : Config) (decode_input : string -> result Input) (body : Request -> FileStore.Stream).
Abbreviation S := (Desk V A R (Uploads F D)).
Abbreviation answer := (M S (Response UploadAnswer)).
Abbreviation Handler := (DeskHandler V A R (Uploads F D) UploadAnswer).

(** [Resolver.Resolve] *)
Definition Resolve (user : User) (serverID : N) : M S ((Server * Node) + api_error) :=
  let! server := FindUserServer user serverID in
  match server with
  | inr e => ret (inr e)
  | inl server =>
      let! denied := CheckOrError (us_ID user) (sv_ID server) [AbilityNameGameServerFiles] in
      match denied with
      | Some e => ret (inr e)
      | None => let! node := getNode (sv_DSID server) in match node with inr e => ret (inr e) | inl node => ret (inl (server, node)) end
      end
  end.

Definition for_server (k : User -> N -> Request -> answer) : Handler := fun ctx r =>
  match ctx with
  | Some (mkSession _ _ _ (Some user) _) =>
      if negb (IsAuthenticated ctx) then ret (WriteError ErrUserNotAuthenticated)
      else
        match ReadUint r "server" with
        | Panic w => lift (Panic w)
        | Err e => ret (WriteError (WrapHTTPError (EWrap "invalid server id" e) StatusBadRequest))
        | Ok serverID => k user serverID r
        end
  | _ => ret (WriteError ErrUserNotAuthenticated)
  end.
Definition with_id (r : Request) (k : string -> answer) : answer :=
  let uploadID := rq_Vars r "uploadID" in
  if String.eqb uploadID "" then ret (WriteError ErrUploadIDRequired) else k uploadID.
Definition resolving (user : User) (serverID : N) (k : Server -> Node -> answer) : answer :=
  let! resolved := Resolve user serverID in
  match resolved with inr e => ret (WriteError e) | inl (server, node) => k server node end.
Definition serving {B} (x : M (Uploads F D) (B + api_error)) (reply : B -> Response UploadAnswer) : answer :=
  let! r := on_world x in match r with inr e => ret (WriteError e) | inl b => ret (reply b) end.

Definition create_params (user : User) (server : Server) (node : Node) (input : Input) : CreateParams :=
  mkCreate (sv_ID server) (nd_ID node) (us_ID user) (FilePath.Join [nd_WorkPath node; sv_Dir server; ip_Path input; ip_Filename input])
    (match sv_SuUser server with Some u => u | None => ""%string end) (ip_TotalSize input) (ip_ExpectedChecksum input).
Definition CreateSession : Handler := for_server (fun user serverID r =>
  match decode_input (rq_Body r) with
  | Panic w => lift (Panic w)
  | Err e => ret (WriteError (WrapHTTPError (EWrap "invalid request body" e) StatusBadRequest))
  | Ok input =>
      match Input_Validate input with
      | Some e => ret (WriteError (WrapHTTPError e StatusBadRequest))
      | None => resolving user serverID (fun server node =>
          serving (Create cfg (create_params user server node input)) (fun sess => Write StatusCreated (newCreateResponse sess)))
      end
  end).

Definition PutChunk (chunkSize : N) : Handler := for_server (fun user serverID r => with_id r (fun uploadID =>
  match ReadUint r "index" with
  | Panic w => lift (Panic w)
  | Err e => ret (WriteError (WrapHTTPError (EWrap "invalid chunk index" e) StatusBadRequest))
  | Ok index => resolving user serverID (fun _ _ =>
      serving (WriteChunk uploadID (us_ID user) index (MaxBytesReader (request_limit chunkSize) (body r))) (fun _ => WriteHeader StatusNoContent))
  end)).
Definition GetSession : Handler := for_server (fun user serverID r => with_id r (fun uploadID =>
  resolving user serverID (fun _ _ =>
    serving (Status uploadID (us_ID user)) (fun status => Write StatusOK (newStateResponse status))))).
Definition CompleteSession : Handler := for_server (fun user serverID r => with_id r (fun uploadID =>
  resolving user serverID (fun _ node =>
    serving (Complete SHA256 uploadID (us_ID user) (Some node)) (fun _ => Write StatusOK (SessionCompleted uploadID true))))).
Definition AbortSession : Handler := for_server (fun user serverID r => with_id r (fun uploadID =>
  resolving user serverID (fun _ _ =>
    serving (Abort uploadID (us_ID user)) (fun _ => WriteHeader StatusNoContent)))).
End handlers.

(** ** What the requests do *)

Section requests.
Context {V A R F D : Type} `{FinderRepositoryLaws V} `{AccessControl A} `{NodeRepositoryLaws R}.
Context `{StreamFileManagerLaws F} `{DaemonUploader D} `{WallClock} `{SessionCodecLaws} `{IDGenLaws} `{Unicode}.
Context (SHA256 : string -> string) (cfg : Config) (decode_input : string -> result Input) (body : Request -> FileStore.Stream).
Abbreviation S := (Desk V A R (Uploads F D)).
Implicit Types s : S.

(** The user may work with the files of the server, which is on the node. *)
Definition entitled s (user : User) (server : Server) (node : Node) : Prop :=
  may_act s user server files_ability /\ nr_rows (de_nodes s) !! sv_DSID server = Some node.

Lemma Resolve_spec user i s r s' : sf_inv (de_servers s) -> nr_inv (de_nodes s) -> Resolve user i s = (r, s') ->
  asked s s' /\
  match r with
  | Ok (inl (server, node)) => sv_ID server = i /\ entitled s user server node
  | Err _ => False
  | _ => True
  end.
Proof.
  intros Hi Hn. unfold Resolve, bind. destruct (FindUserServer user i s) as [res s1] eqn:Ef. destruct (FindUserServer_spec _ _ _ _ _ Hi Ef) as [Hs1 Hres].
  destruct res as [[server|e]|e|w]; [|by intros [= <- <-]|done|by intros [= <- <-]].
  destruct Hres as (Hid & adm & Hadm & Hrow & Hass).
  destruct (CheckOrError (us_ID user) (sv_ID server) _ s1) as [res s2] eqn:Ec. destruct (CheckOrError_spec _ _ _ _ _ _ Ec) as [Hs2 Hres].
  assert (Hs : asked s s2) by (by eapply asked_trans).
  destruct res as [[e|]|e|w]; [by intros [= <- <-]| |done|by intros [= <- <-]].
  destruct (getNode (sv_DSID server) s2) as [res s3] eqn:En. apply getNode_spec in En as [-> Hnode].
  2: { destruct Hs as (_ & -> & _). done. }
  destruct res as [[node|e]|e|w]; [|by intros [= <- <-]|done|by intros [= <- <-]].
  intros [= <- <-]. split; [done|]. split; [done|]. split; [|by destruct Hs as (_ & <- & _)].
  exists adm, (de_access s1). subst i. split_and!; try done.
Qed.

(** The work behind the checks: one call of the service on the rest of the world,
    for a user who may make it, or none. *)
Definition one_call (user_of : option User) s s' (call : User -> Server -> Node -> Uploads F D -> Uploads F D -> Prop) : Prop :=
  de_servers s' = de_servers s /\ de_nodes s' = de_nodes s /\
  (de_world s' = de_world s \/
   exists user server node, user_of = Some user /\ entitled s user server node /\ call user server node (de_world s) (de_world s')).
Lemma one_call_none u s s' call : asked s s' -> one_call u s s' call.
Proof. intros (? & ? & ?). split_and!; [done..|by left]. Qed.

(** How a handler passes on what the service says. *)
Definition passed_on {B} (reply : B -> Response UploadAnswer) (r0 : result (B + api_error)) : result (Response UploadAnswer) :=
  match r0 with Ok (inl b) => Ok (reply b) | Ok (inr e) => Ok (WriteError e) | Err e => Err e | Panic w => Panic w end.
Lemma serving_runs {B} (x : M (Uploads F D) (B + api_error)) reply s r s' :
  serving (V:=V) (A:=A) (R:=R) x reply s = (r, s') ->
  de_servers s' = de_servers s /\ de_nodes s' = de_nodes s /\ exists r0, x (de_world s) = (r0, de_world s') /\ r = passed_on reply r0.
Proof.
  unfold serving, bind, on_world, zoom. destruct (x (de_world s)) as [[[b|e]|e|w] u]; intros [= <- <-]; (split; [done|]; split; [done|]; by eexists).
Qed.
Lemma for_server_spec (k : User -> N -> Request -> M S (Response UploadAnswer)) ctx req s r s' :
  for_server k ctx req s = (r, s') -> s' = s \/
  exists user i, se_User <$> ctx = Some (Some user) /\ ReadUint req "server" = Ok i /\ k user i req s = (r, s').
Proof.
  unfold for_server. destruct ctx as [[sid lg em [user|] tk]|]; [|intros [= <- <-]; by left..].
  destruct (negb _); [intros [= <- <-]; by left|]. destruct (ReadUint req "server") as [i|e|w]; [|intros [= <- <-]; by left..].
  intros E. right. by exists user, i.
Qed.
Lemma resolving_spec user i (k : Server -> Node -> M S (Response UploadAnswer)) s r s' :
  sf_inv (de_servers s) -> nr_inv (de_nodes s) -> resolving user i k s = (r, s') ->
  asked s s' \/ exists s1 server node, asked s s1 /\ sv_ID server = i /\ entitled s user server node /\ k server node s1 = (r, s').
Proof.
  intros Hi Hn. unfold resolving, bind. destruct (Resolve user i s) as [res s1] eqn:Er. destruct (Resolve_spec _ _ _ _ _ Hi Hn Er) as [Hs Hres].
  destruct res as [[[server node]|e]|e|w]; [|intros [= <- <-]; by left..].
  destruct Hres as [Hid Hent]. intros E. right. by exists s1, server, node.
Qed.
(** Both together. *)
Lemma served {B} user i (x : Server -> Node -> M (Uploads F D) (B + api_error)) reply s r s' call ctx :
  sf_inv (de_servers s) -> nr_inv (de_nodes s) -> se_User <$> ctx = Some (Some user) ->
  resolving (V:=V) (A:=A) (R:=R) user i (fun server node => serving (x server node) reply) s = (r, s') ->
  (forall server node r0, sv_ID server = i -> x server node (de_world s) = (r0, de_world s') -> r = passed_on reply r0 ->
     call user server node (de_world s) (de_world s')) ->
  one_call (mjoin (se_User <$> ctx)) s s' call.
Proof.
  intros Hi Hn Hu E Hcall. destruct (resolving_spec _ _ _ _ _ _ Hi Hn E) as [Hno|(s1 & server & node & (Hv & Hd & Hw) & Hid & Hent & Ek)]; [by apply one_call_none|].
  apply serving_runs in Ek as (Hv' & Hd' & r0 & Hw' & Hr). split_and!; [congruence..|]. right. exists user, server, node. rewrite Hw in Hw'.
  split; [by rewrite Hu|]. split; [done|]. by eapply Hcall.
Qed.

Lemma CreateSession_spec ctx req s r s' : sf_inv (de_servers s) -> nr_inv (de_nodes s) -> CreateSession cfg decode_input ctx req s = (r, s') ->
  one_call (mjoin (se_User <$> ctx)) s s' (fun user server node w w' =>
    exists input, ReadUint req "server" = Ok (sv_ID server) /\ decode_input (rq_Body req) = Ok input /\ Input_Validate input = None /\
      w' = snd (Create cfg (create_params user server node input) w)).
Proof.
  intros Hi Hn E. destruct (for_server_spec _ _ _ _ _ _ E) as [->|(user & i & Hu & Hid & Ek)]; [apply one_call_none, asked_refl|].
  destruct (decode_input _) as [input|e|w] eqn:Ed; [|injection Ek as <- <-; apply one_call_none, asked_refl..].
  destruct (Input_Validate input) as [e|] eqn:Ev; [injection Ek as <- <-; apply one_call_none, asked_refl|].
  eapply (served user i (fun server node => Create cfg (create_params user server node input))); [done|done|done|exact Ek|].
  intros server node r0 <- Ex _. exists input. by rewrite Ex.
Qed.
(** The requests for a session that exists. *)
Lemma named_spec {B} (x : string -> User -> Node -> M (Uploads F D) (B + api_error)) reply ctx req s r s' :
  sf_inv (de_servers s) -> nr_inv (de_nodes s) ->
  for_server (fun user i req => with_id req (fun u => resolving user i (fun _ node => serving (x u user node) (reply u)))) ctx req s = (r, s') ->
  one_call (mjoin (se_User <$> ctx)) s s' (fun user server node w w' => rq_Vars req "uploadID" <> ""%string /\
    exists r0, x (rq_Vars req "uploadID") user node w = (r0, w') /\ r = passed_on (reply (rq_Vars req "uploadID")) r0).
Proof.
  intros Hi Hn E. destruct (for_server_spec _ _ _ _ _ _ E) as [->|(user & i & Hu & _ & Ek)]; [apply one_call_none, asked_refl|].
  unfold with_id in Ek. destruct (String.eqb_spec (rq_Vars req "uploadID") "") as [|Hne]; [injection Ek as <- <-; apply one_call_none, asked_refl|].
  eapply (served user i (fun _ node => x (rq_Vars req "uploadID") user node)); [done|done|done|exact Ek|]. intros server node r0 _ Ex Hr. by eauto.
Qed.
Lemma PutChunk_spec n ctx req s r s' : sf_inv (de_servers s) -> nr_inv (de_nodes s) -> PutChunk body n ctx req s = (r, s') ->
  one_call (mjoin (se_User <$> ctx)) s s' (fun user _ _ w w' => rq_Vars req "uploadID" <> ""%string /\
    exists i, w' = snd (WriteChunk (rq_Vars req "uploadID") (us_ID user) i (MaxBytesReader (request_limit n) (body req)) w)).
Proof.
  intros Hi Hn E. destruct (for_server_spec _ _ _ _ _ _ E) as [->|(user & id & Hu & _ & Ek)]; [apply one_call_none, asked_refl|].
  unfold with_id in Ek. destruct (String.eqb_spec (rq_Vars req "uploadID") "") as [|Hne]; [injection Ek as <- <-; apply one_call_none, asked_refl|].
  destruct (ReadUint req "index") as [i|e|w]; [|injection Ek as <- <-; apply one_call_none, asked_refl..].
  eapply (served user id (fun _ _ => WriteChunk (rq_Vars req "uploadID") (us_ID user) i (MaxBytesReader (request_limit n) (body req)))); [done|done|done|exact Ek|].
  intros server node r0 _ Ex _. split; [done|]. exists i. by rewrite Ex.
Qed.
Lemma GetSession_spec ctx req s r s' : sf_inv (de_servers s) -> nr_inv (de_nodes s) -> GetSession ctx req s = (r, s') ->
  one_call (mjoin (se_User <$> ctx)) s s' (fun user _ _ w w' => rq_Vars req "uploadID" <> ""%string /\
    exists r0, Status (rq_Vars req "uploadID") (us_ID user) w = (r0, w') /\ r = passed_on (fun status => Write StatusOK (newStateResponse status)) r0).
Proof. intros Hi Hn E. eapply (named_spec (fun u user _ => Status u (us_ID user)) (fun _ status => Write StatusOK (newStateResponse status))); [done|done|exact E]. Qed.
Lemma CompleteSession_spec ctx req s r s' : sf_inv (de_servers s) -> nr_inv (de_nodes s) -> CompleteSession SHA256 ctx req s = (r, s') ->
  one_call (mjoin (se_User <$> ctx)) s s' (fun user _ node w w' => rq_Vars req "uploadID" <> ""%string /\
    exists r0, Complete SHA256 (rq_Vars req "uploadID") (us_ID user) (Some node) w = (r0, w') /\
      r = passed_on (fun _ => Write StatusOK (SessionCompleted (rq_Vars req "uploadID") true)) r0).
Proof. intros Hi Hn E. eapply (named_spec (fun u user node => Complete SHA256 u (us_ID user) (Some node)) (fun u _ => Write StatusOK (SessionCompleted u true))); [done|done|exact E]. Qed.
Lemma AbortSession_spec ctx req s r s' : sf_inv (de_servers s) -> nr_inv (de_nodes s) -> AbortSession ctx req s = (r, s') ->
  one_call (mjoin (se_User <$> ctx)) s s' (fun user _ _ w w' => rq_Vars req "uploadID" <> ""%string /\
    exists r0, Abort (rq_Vars req "uploadID") (us_ID user) w = (r0, w') /\ r = passed_on (fun _ => WriteHeader StatusNoContent) r0).
Proof. intros Hi Hn E. eapply (named_spec (fun u user _ => Abort u (us_ID user)) (fun _ _ => WriteHeader StatusNoContent)); [done|done|exact E]. Qed.
End requests.

(** ** Any series of requests *)

Section series.
Context {V A R F D : Type} `{FinderRepositoryLaws V} `{AccessControl A} `{NodeRepositoryLaws R}.
Context `{StreamFileManagerLaws F} `{DaemonUploader D} `{WallClock} `{SessionCodecLaws} `{IDGenLaws} `{Unicode}.
Context (SHA256 : string -> string) (cfg : Config) (decode_input : string -> result Input) (body : Request -> FileStore.Stream).
Abbreviation S := (Desk V A R (Uploads F (Delivered D))).
Implicit Types s : S.

(** The requests there are; a request to put a chunk has the size of the
    configuration its handler was made with. *)
Inductive upload_op : Type := OpCreate | OpPutChunk (chunkSize : N) | OpGet | OpComplete | OpAbort.
Definition upload_handler (o : upload_op) : DeskHandler V A R (Uploads F (Delivered D)) UploadAnswer :=
  match o with
  | OpCreate => CreateSession cfg decode_input
  | OpPutChunk chunkSize => PutChunk body chunkSize
  | OpGet => GetSession
  | OpComplete => CompleteSession SHA256
  | OpAbort => AbortSession
  end.
(** The router matches [uploadID] with one part of a cleaned path. *)
Definition routed (r : Request) : Prop := rq_Vars r "uploadID" = ""%string \/ segment (rq_Vars r "uploadID").
Definition with_uploads (f : Uploads F (Delivered D) -> Uploads F (Delivered D)) s : S :=
  mkDesk (de_servers s) (de_access s) (de_nodes s) (f (de_world s)).

(** What happens to a panel: a request of somebody, or anything else. *)
Inductive event : Type := Asked (o : upload_op) (ctx : option Session) (r : Request) | Elsewhere.
(** Requests of anybody, the janitor and the goroutines that clean up, and, in
    between, changes of the servers, the nodes and the rights, from a state
    without uploads; kept are the events and the states they met. *)
Inductive handled : list (S * event) -> S -> Prop :=
| hd_start s : sf_inv (de_servers s) -> nr_inv (de_nodes s) -> fm_inv (up_storage (de_world s)) ->
    (forall u, segment u -> file_of (de_world s) (metadataPath u) = None) -> handled [] s
| hd_request tr s o ctx r : handled tr s -> routed r -> handled (tr ++ [(s, Asked o ctx r)]) (snd (upload_handler o ctx r s))
| hd_sweep tr s : handled tr s -> handled (tr ++ [(s, Elsewhere)]) (with_uploads (fun w => snd (Sweep w)) s)
| hd_clean tr s u : handled tr s -> segment u -> handled (tr ++ [(s, Elsewhere)]) (with_uploads (fun w => snd (cleanupAfterComplete u w)) s)
| hd_other tr s s' : handled tr s -> de_world s' = de_world s -> sf_inv (de_servers s') -> nr_inv (de_nodes s') -> handled (tr ++ [(s, Elsewhere)]) s'.

(** A request that drew an id: for an upload that could be planned. *)
Definition drew (x : S * event) : Prop :=
  match x with
  | (s0, Asked OpCreate ctx0 r0) => up_ids (de_world (snd (CreateSession cfg decode_input ctx0 r0 s0))) = (up_ids (de_world s0) + 1)%N
  | _ => False
  end.
(** The request that made the upload [u]: it met [s0] at [t] and drew the id [u],
    and asked for [p]; whose session it carries, which server its path names,
    which node that server is on and what its body says is what [p] holds. *)
Definition announced (tr : list (S * event)) (u : string) (user0 : User) (server0 : Server) (node0 : Node) (p : CreateParams) (t : time) : Prop :=
  exists s0 ctx0 r0 input, (s0, Asked OpCreate ctx0 r0) ∈ tr /\ drew (s0, Asked OpCreate ctx0 r0) /\
    u = New_at (up_ids (de_world s0)) /\ t = now_at (up_clock (de_world s0)) /\
    se_User <$> ctx0 = Some (Some user0) /\ ReadUint r0 "server" = Ok (sv_ID server0) /\ entitled s0 user0 server0 node0 /\
    decode_input (rq_Body r0) = Ok input /\ Input_Validate input = None /\ p = create_params user0 server0 node0 input.

(** No id is drawn twice. *)
Definition drawn_once (tr : list (S * event)) (n : N) : Prop :=
  (forall x, x ∈ tr -> drew x -> (up_ids (de_world (fst x)) < n)%N) /\
  (forall x y, x ∈ tr -> y ∈ tr -> drew x -> drew y -> up_ids (de_world (fst x)) = up_ids (de_world (fst y)) -> x = y).
Lemma drawn_once_more tr s e n : drawn_once tr (up_ids (de_world s)) -> (up_ids (de_world s) <= n)%N ->
  (drew (s, e) -> (up_ids (de_world s) < n)%N) -> drawn_once (tr ++ [(s, e)]) n.
Proof.
  intros [Hlt Hone] Hn He. split.
  - intros x [Hx| ->%list_elem_of_singleton]%list.elem_of_app Hd; [|by apply He]. specialize (Hlt x Hx Hd). lia.
  - intros x y [Hx| ->%list_elem_of_singleton]%list.elem_of_app [Hy| ->%list_elem_of_singleton]%list.elem_of_app Hdx Hdy Eq;
      [by apply Hone|specialize (Hlt x Hx Hdx)|specialize (Hlt y Hy Hdy)|done]; simpl in *; lia.
Qed.

Record tracked (tr : list (S * event)) s (h : gmap string (CreateParams * time)) : Prop := mkTracked {
  tk_servers : sf_inv (de_servers s);
  tk_nodes : nr_inv (de_nodes s);
  tk_uploading : uploading SHA256 cfg h (de_world s);
  tk_once : drawn_once tr (up_ids (de_world s));
  tk_announced : forall k p t, (k < up_ids (de_world s))%N -> h !! New_at k = Some (p, t) ->
    exists user0 server0 node0, announced tr (New_at k) user0 server0 node0 p t;
}.
Lemma announced_more tr x u user0 server0 node0 p t : announced tr u user0 server0 node0 p t -> announced (tr ++ [x]) u user0 server0 node0 p t.
Proof. intros (s0 & ctx0 & r0 & input & Hin & Hrest). exists s0, ctx0, r0, input. split; [set_solver|done]. Qed.

(** An event that draws no id. *)
Lemma tracked_same tr e s s' h : tracked tr s h -> ~ drew (s, e) -> sf_inv (de_servers s') -> nr_inv (de_nodes s') ->
  uploading SHA256 cfg h (de_world s') -> up_ids (de_world s') = up_ids (de_world s) -> tracked (tr ++ [(s, e)]) s' h.
Proof.
  intros [_ _ _ Ho Ha] He Hi Hn Hu Hids. split; [done..| |]; rewrite Hids; [by apply drawn_once_more|]. intros k p t Hk Hh.
  destruct (Ha k p t Hk Hh) as (user0 & server0 & node0 & Hann). exists user0, server0, node0. by apply announced_more.
Qed.
Lemma request_ids h w x : uploading (D:=Delivered D) SHA256 cfg h w -> request SHA256 x -> up_ids (x w) = up_ids w.
Proof. intros Hu Hx. apply (request_gentle SHA256 x w Hx). by apply (uploading_described SHA256 cfg h). Qed.
Lemma tracked_request tr e s s' h f : tracked tr s h -> ~ drew (s, e) -> sf_inv (de_servers s') -> nr_inv (de_nodes s') ->
  request SHA256 f -> de_world s' = f (de_world s) -> tracked (tr ++ [(s, e)]) s' h.
Proof.
  intros Ht He Hi Hn Hf Ew. pose proof (tk_uploading _ _ _ Ht) as Hu. apply (tracked_same tr e s); [done..| |]; rewrite Ew; [by apply up_request|by eapply request_ids].
Qed.
(** A call of the service for a session that exists. *)
Lemma tracked_call tr e s s' h ctx call :
  tracked tr s h -> ~ drew (s, e) -> one_call (mjoin (se_User <$> ctx)) s s' call ->
  (forall user server node, call user server node (de_world s) (de_world s') -> exists f, request SHA256 f /\ de_world s' = f (de_world s)) ->
  tracked (tr ++ [(s, e)]) s' h.
Proof.
  intros Ht He (Hv & Hd & Hw) Hcall. pose proof Ht as [Hi Hn Hu _ _].
  assert (Hi' : sf_inv (de_servers s')) by (by rewrite Hv). assert (Hn' : nr_inv (de_nodes s')) by (by rewrite Hd).
  destruct Hw as [Hw|(user & server & node & _ & _ & Hw)]; [by apply tracked_same; [..|rewrite Hw|rewrite Hw]|].
  destruct (Hcall user server node Hw) as (f & Hf & Ew). by eapply tracked_request.
Qed.

Lemma Create_ids p (w : Uploads F (Delivered D)) : up_ids (snd (Create cfg p w)) = up_ids w \/ up_ids (snd (Create cfg p w)) = (up_ids w + 1)%N.
Proof.
  unfold Create. repeat match goal with |- context [(if ?b then _ else _) w] => destruct b; [by left|] end. right.
  cbv zeta. unfold bind at 1 2. unfold Uploads.Now, idgen_New at 1. cbn [fst snd up_ids up_clock up_storage up_daemon up_cleanups].
  match goal with |- context [marshal ?x] => destruct (marshal x) as [data|e|wh]; [|done..] end.
  unfold storing, bind, attempt, on_storage, zoom. cbn [up_storage].
  match goal with |- context [FM_Write ?x ?y ?z] => destruct (FM_Write x y z) as [[] f]; done end.
Qed.
Lemma tracked_create tr s ctx r res s' h : tracked tr s h -> CreateSession cfg decode_input ctx r s = (res, s') ->
  exists h', tracked (tr ++ [(s, Asked OpCreate ctx r)]) s' h'.
Proof.
  intros Ht E. pose proof Ht as [Hi Hn Hu Ho Ha]. destruct (CreateSession_spec _ _ ctx r s res s' Hi Hn E) as (Hv & Hd & Hw).
  assert (Hi' : sf_inv (de_servers s')) by (by rewrite Hv). assert (Hn' : nr_inv (de_nodes s')) by (by rewrite Hd).
  destruct Hw as [Hw|(user & server & node & Huser & Hent & input & Hid & Hdec & Hval & Hw)].
  { exists h. apply (tracked_same tr _ s); [done| |done|done|by rewrite Hw..]. unfold drew. rewrite E. cbn [snd]. rewrite Hw. lia. }
  eexists. split; [done|done|rewrite Hw; by apply up_create| |].
  { apply drawn_once_more; [done|destruct (Create_ids (create_params user server node input) (de_world s)); rewrite Hw; lia|].
    unfold drew. rewrite E. cbn [snd]. lia. }
  intros k p t Hk Hh.
  destruct (decide (k < up_ids (de_world s))%N) as [Hlt|Hge].
  - rewrite lookup_insert_ne in Hh by (intros Ek%id_fresh; lia). destruct (Ha k p t Hlt Hh) as (user0 & server0 & node0 & Hann).
    exists user0, server0, node0. by apply announced_more.
  - destruct (Create_ids (create_params user server node input) (de_world s)) as [Eids|Eids]; rewrite <- Hw in Eids; [lia|].
    assert (k = up_ids (de_world s)) as -> by lia. rewrite lookup_insert_eq in Hh. injection Hh as <- <-.
    exists user, server, node, s, ctx, r, input. split_and!; try done; [set_solver|unfold drew; by rewrite E|].
    destruct ctx as [se|]; [|done]. simpl in Huser |- *. by rewrite Huser.
Qed.

Lemma handled_tracked tr s : handled tr s -> exists h, tracked tr s h.
Proof.
  induction 1 as [s Hi Hn Hf Hnone|tr s o ctx r _ [hist Ht] Hr|tr s _ [hist Ht]|tr s u _ [hist Ht] Hs|tr s s' _ [hist Ht] Ew Hi' Hn'].
  - exists ∅. split; [done|done|by apply up_start|split; set_solver|]. intros k p t _ Hh. by rewrite lookup_empty in Hh.
  - pose proof Ht as [Hi Hn _ _ _]. assert (Hseg : rq_Vars r "uploadID" <> ""%string -> segment (rq_Vars r "uploadID")) by (by destruct Hr).
    destruct (upload_handler o ctx r s) as [res s'] eqn:E. cbn [snd]. destruct o as [|n| | |]; cbn [upload_handler] in E; [by eapply tracked_create|..]; exists hist.
    + eapply (tracked_call tr _ s s'); [done|by intros []|exact (PutChunk_spec _ _ ctx r s res s' Hi Hn E)|]. intros user server node (Hne & i & Ew).
      exists (fun w => snd (WriteChunk (rq_Vars r "uploadID") (us_ID user) i (MaxBytesReader (request_limit n) (body r)) w)). split; [by apply ask_write, Hseg|exact Ew].
    + eapply (tracked_call tr _ s s'); [done|by intros []|exact (GetSession_spec ctx r s res s' Hi Hn E)|]. intros user server node (Hne & r0 & Ew & _).
      exists (fun w => snd (Status (rq_Vars r "uploadID") (us_ID user) w)). split; [by apply ask_status, Hseg|by rewrite Ew].
    + eapply (tracked_call tr _ s s'); [done|by intros []|exact (CompleteSession_spec _ ctx r s res s' Hi Hn E)|]. intros user server node (Hne & r0 & Ew & _).
      exists (fun w => snd (Complete SHA256 (rq_Vars r "uploadID") (us_ID user) (Some node) w)). split; [by apply ask_complete, Hseg|by rewrite Ew].
    + eapply (tracked_call tr _ s s'); [done|by intros []|exact (AbortSession_spec ctx r s res s' Hi Hn E)|]. intros user server node (Hne & r0 & Ew & _).
      exists (fun w => snd (Abort (rq_Vars r "uploadID") (us_ID user) w)). split; [by apply ask_abort, Hseg|by rewrite Ew].
  - exists hist. eapply (tracked_request tr _ s); [done|by intros []|apply Ht|apply Ht|apply sweep_all|done].
  - exists hist. eapply (tracked_request tr _ s); [done|by intros []|apply Ht|apply Ht|by apply (clean_up _ u)|done].
  - exists hist. apply (tracked_same tr _ s); [done|by intros []|done|done|rewrite Ew; apply Ht|by rewrite Ew].
Qed.

(** The path of an upload lies in the directory of the server it was asked for. *)
Lemma upload_path_placed user server node input : Input_Validate input = None ->
  placed node server (cp_FullPath (create_params user server node input)).
Proof.
  unfold Input_Validate. destruct (ValidatePath (ip_Path input)) eqn:Ep; [done|]. destruct (ValidateFilename (ip_Filename input)) eqn:Ef; [done|]. intros _.
  apply placed_Join. repeat constructor; [by apply ValidatePath_safe|by apply filename_no_dotdot].
Qed.

(** C38: for any series of requests of any users to create, fill, complete and
    abort uploads, with the janitor and other changes of servers, nodes and rights
    in between, on a storage that may fail and leave parts of files: a request to
    complete the upload [u] tells the daemons nothing, or it tells the node of a
    server whose files the user may work with of one file.  The upload was made
    by the one request that drew the id [u], of the same user, when he could work
    with the files of the server it named, on the same node, and has not expired
    since; the file goes where that request said, in the directory of that server
    or below it, for that server's system user, with the size and the SHA-256
    announced; it was put together from all the chunks of the upload in order, has
    that SHA-256, and is what the storage holds for the daemon when the answer is
    200. *)
Theorem delivered_file_is_as_announced tr s ctx r res s' :
  let u := rq_Vars r "uploadID" in
  handled tr s -> routed r -> CompleteSession SHA256 ctx r s = (res, s') ->
  made (de_world s') = made (de_world s) \/
  exists user server node user0 server0 node0 p t ds,
    se_User <$> ctx = Some (Some user) /\ entitled s user server node /\
    announced tr u user0 server0 node0 p t /\ us_ID user0 = us_ID user /\ nd_ID node0 = nd_ID node /\ placed node0 server0 (cp_FullPath p) /\
    ((t + cf_SessionTTL cfg = 0)%Z \/ (now_at (up_clock (de_world s)) <= t + cf_SessionTTL cfg)%Z) /\
    chunks_are (file_of (de_world s)) u (chunk_indices (total_chunks (cf_ChunkSize cfg) (cp_TotalSize p))) ds /\
    SHA256 (joined ds) = ToLower (cp_ExpectedChecksum p) /\
    made (de_world s') = made (de_world s) ++
      [mkDelivery node (cp_FullPath p) u (ToLower (cp_ExpectedChecksum p)) (cp_TotalSize p) (mkOwner (cp_SuUser p) 0 0)] /\
    (res = Ok (Write StatusOK (SessionCompleted u true)) -> file_of (de_world s') (dataPath u) = Some (joined ds)).
Proof.
  intros u Hh Hr E. destruct (handled_tracked _ _ Hh) as [h [Hi Hn Hu _ Ha]].
  destruct (CompleteSession_spec _ _ _ _ _ _ Hi Hn E) as (_ & _ & [Hw|(user & server & node & Huser & Hent & Hne & r0 & Ec & Eres)]); [left; by rewrite Hw|].
  destruct Hr as [Hr|Hseg]; [done|]. fold u in Hseg, Ec, Eres |- *.
  destruct (completed_delivers _ _ _ _ _ _ _ _ _ Hu Hseg Ec) as [Hno|(n & p & t & ds & [= <-] & Hp & (k & Ek & Hk) & Hwho & Hnode & Htime & Hc & Hsum & Hm & Hdata)]; [by left|right].
  rewrite Ek in Hp. destruct (Ha _ _ _ Hk Hp) as (user0 & server0 & node0 & Hann). rewrite <- Ek in Hann.
  pose proof Hann as (s0 & ctx0 & req0 & input & _ & _ & _ & _ & _ & _ & Hent0 & _ & Hval & ->).
  exists user, server, node, user0, server0, node0, (create_params user0 server0 node0 input), t, ds. split_and!; try done.
  - destruct ctx as [se|]; [|done]. simpl in Huser |- *. by rewrite Huser.
  - by apply upload_path_placed.
  - intros ->. apply Hdata. by destruct r0 as [[[]|e]|e|w].
Qed.

(** There is only one such request, so what an upload was asked for is settled. *)
Lemma announced_once tr s u user0 server0 node0 p t user1 server1 node1 p1 t1 : handled tr s ->
  announced tr u user0 server0 node0 p t -> announced tr u user1 server1 node1 p1 t1 ->
  user1 = user0 /\ server1 = server0 /\ node1 = node0 /\ p1 = p /\ t1 = t.
Proof.
  intros Hh (s0 & c0 & r0 & i0 & Hin0 & Hd0 & -> & -> & Hu0 & Hs0 & (Hm0 & Hn0) & Hi0 & _ & ->)
    (s1 & c1 & r1 & i1 & Hin1 & Hd1 & Eu & -> & Hu1 & Hs1 & (Hm1 & Hn1) & Hi1 & _ & ->).
  destruct (handled_tracked _ _ Hh) as [h Ht]. apply id_fresh in Eu.
  pose proof (proj2 (tk_once _ _ _ Ht) _ _ Hin0 Hin1 Hd0 Hd1 Eu) as [= <- <- <-].
  assert (user1 = user0) as -> by congruence. assert (sv_ID server1 = sv_ID server0) as Es by congruence.
  destruct Hm0 as (? & ? & _ & Hr0 & _), Hm1 as (? & ? & _ & Hr1 & _). rewrite Es in Hr1.
  assert (server1 = server0) as -> by congruence. assert (node1 = node0) as -> by congruence. assert (i1 = i0) as -> by congruence. done.
Qed.
End series.

(** ** An example: a player uploads a file to his server *)

Module UploadApiSample.
Import UploadSample.
Import FileSample.
#[local] Existing Instances listed_order UploadSample.clock plain_text codec codec_laws ids ids_laws UploadSample.daemon player_access.
Definition hello : Input := mkInput "cfg" "hello.txt" 11 (sum world_file).
Definition reads_hello (text : string) : result Input := Ok hello.
Definition body_of (r : Request) : FileStore.Stream := whole (rq_Body r).
Definition upload_request (index text : string) : Request :=
  mkRequest "PUT" "" "" None (fun v => if String.eqb v "server" then "2"%string else if String.eqb v "uploadID" then New_at 0 else if String.eqb v "index" then index else ""%string) text.
Abbreviation office := (Desk memServerRepo unit memNodeRepo (Uploads InMemory.FileManager (Delivered unit))).
Definition at_start : office := desk UploadSample.empty.
Definition asks (o : upload_op) (r : Request) (s : office) : office :=
  snd (upload_handler sum UploadSample.config reads_hello body_of o signed_in r s).
Abbreviation s1 := (asks OpCreate (to_server_two "") at_start).
Abbreviation s2 := (asks (OpPutChunk 4) (upload_request "2" "rld") s1).
Abbreviation s3 := (asks (OpPutChunk 4) (upload_request "0" "hell") s2).
Abbreviation s4 := (asks (OpPutChunk 4) (upload_request "1" "o wo") s3).
Abbreviation finished := (CompleteSession (F:=InMemory.FileManager) (D:=Delivered unit) sum signed_in (upload_request "" "") s4).

Lemma routed_upload i b : routed (upload_request i b).
Proof. right. apply id_segment. Defined.
Abbreviation trace := (((([] ++ [(at_start, Asked OpCreate signed_in (to_server_two ""))])
  ++ [(s1, Asked (OpPutChunk 4) signed_in (upload_request "2" "rld"))]) ++ [(s2, Asked (OpPutChunk 4) signed_in (upload_request "0" "hell"))])
  ++ [(s3, Asked (OpPutChunk 4) signed_in (upload_request "1" "o wo"))]).
Lemma player_handled : handled (D:=unit) sum UploadSample.config reads_hello body_of trace s4.
Proof.
  assert (Hput : forall tr s i b, handled (D:=unit) sum UploadSample.config reads_hello body_of tr s ->
    handled sum UploadSample.config reads_hello body_of (tr ++ [(s, Asked (OpPutChunk 4) signed_in (upload_request i b))]) (asks (OpPutChunk 4) (upload_request i b) s)).
  { intros tr s i b Hs. apply (hd_request _ _ _ _ tr s (OpPutChunk 4) signed_in (upload_request i b) Hs), routed_upload. }
  do 3 apply Hput. apply (hd_request _ _ _ _ [] at_start OpCreate signed_in (to_server_two "")); [|by left].
  apply hd_start.
  - exact (server_reachable_inv _ sample_servers_reachable).
  - apply node_seven_inv.
  - intros p Hp. simpl in Hp. rewrite lookup_empty in Hp. by destruct Hp.
  - intros u _. apply lookup_empty.
Defined.
Lemma told_once : made (de_world (snd finished)) = [mkDelivery Dispatcher.sample_node "/srv/cfg/hello.txt" (New_at 0) (sum world_file) 11 (mkOwner "" 0 0)].
Proof. vm_compute. reflexivity. Defined.
Abbreviation named := (rq_Vars (upload_request "" "") "uploadID").
Lemma finished_ok : fst finished = Ok (Write StatusOK (SessionCompleted (named) true)).
Proof. vm_compute. reflexivity. Defined.

Lemma delivered_file_is_as_announced_witness :
  map dv_FullPath (made (de_world (snd finished))) = ["/srv/cfg/hello.txt"%string] /\
  exists user server node user0 server0 node0 p t ds,
    se_User <$> signed_in = Some (Some user) /\ entitled s4 user server node /\
    announced (D:=unit) UploadSample.config reads_hello trace (named) user0 server0 node0 p t /\ us_ID user0 = us_ID user /\ nd_ID node0 = nd_ID node /\
    placed node0 server0 (cp_FullPath p) /\
    sum (joined ds) = ToLower (cp_ExpectedChecksum p) /\ file_of (de_world (snd finished)) (dataPath (named)) = Some (joined ds).
Proof.
  split; [rewrite told_once; reflexivity|].
  destruct (delivered_file_is_as_announced sum UploadSample.config reads_hello body_of trace s4 signed_in (upload_request "" "") (fst finished) (snd finished)
    player_handled (routed_upload _ _) (surjective_pairing _))
    as [Hno|(user & server & node & user0 & server0 & node0 & p & t & ds & H1 & H2 & H3 & H4 & H5 & H6 & _ & _ & H7 & _ & H8)].
  - exfalso. rewrite told_once in Hno. vm_compute in Hno. discriminate Hno.
  - exists user, server, node, user0, server0, node0, p, t, ds.
    exact (conj H1 (conj H2 (conj H3 (conj H4 (conj H5 (conj H6 (conj H7 (H8 finished_ok)))))))).
Defined.
End UploadApiSample.
