(* ===== verification/Schedules.v ===== *)
(** Scheduled tasks of game servers ([internal/domain/server_task.go],
    [internal/filters/server_tasks.go]) and the reports of
    those that failed ([internal/filters/server_task_fails.go]): the tables as
    interfaces with laws, and the in-memory table of the tasks
    ([internal/repositories/inmemory/server_tasks.go]) with its hash indexes.  A
    search by nodes goes through the server table. *)

From S2P Require Import Prelude.
From S2P Require Import GoNum.
From S2P Require Import Domain.
From S2P Require Import GoRuntime.
From S2P Require Import Repositories.
From S2P Require Import TaskRepo.
From S2P Require Import ServersRepo.
From S2P Require Import ServerAccess.
From S2P Require Import Games.
From S2P Require Import Park.
From stdpp Require Import base tactics strings list gmap numbers sorting.
From Stdlib Require Import NArith ZArith.

(** ** Data *)

Definition ServerTaskCommandStart : string := "start".
Definition ServerTaskCommandStop : string := "stop".
Definition ServerTaskCommandRestart : string := "restart".
Definition ServerTaskCommandUpdate : string := "update".
Definition ServerTaskCommandReinstall : string := "reinstall".
Definition NewServerTaskCommandFromString (s : string) : string :=
  if bool_decide (s ∈ [ServerTaskCommandStart; ServerTaskCommandStop; ServerTaskCommandRestart; ServerTaskCommandUpdate; ServerTaskCommandReinstall])
  then s else ""%string.

(** [Repeat] is a byte, [RepeatPeriod] a [time.Duration] in nanoseconds. *)
Record ServerTask : Type := mkServerTask {
  sk_ID : N; sk_Command : string; sk_ServerID : N; sk_Repeat : N; sk_RepeatPeriod : Z; sk_Counter : N; sk_ExecuteDate : time;
  sk_Payload : option string; sk_CreatedAt : option time; sk_UpdatedAt : option time;
}.
Record ServerTaskFail : Type := mkServerTaskFail {
  sf_ID : N; sf_ServerTaskID : N; sf_Output : string; sf_CreatedAt : option time; sf_UpdatedAt : option time;
}.
Record FindServerTask : Type := mkFindServerTask { fk_IDs : list N; fk_ServersIDs : list N; fk_NodeIDs : list N; fk_Commands : list string }.
Record FindServerTaskFail : Type := mkFindServerTaskFail {
  ff_IDs : list N; ff_ServerTaskIDs : list N; ff_CreatedAfter : option time; ff_CreatedBefore : option time;
}.

Definition sk_set_id (i : N) (t : ServerTask) : ServerTask :=
  mkServerTask i (sk_Command t) (sk_ServerID t) (sk_Repeat t) (sk_RepeatPeriod t) (sk_Counter t) (sk_ExecuteDate t) (sk_Payload t) (sk_CreatedAt t) (sk_UpdatedAt t).
Definition sk_set_times (c u : option time) (t : ServerTask) : ServerTask :=
  mkServerTask (sk_ID t) (sk_Command t) (sk_ServerID t) (sk_Repeat t) (sk_RepeatPeriod t) (sk_Counter t) (sk_ExecuteDate t) (sk_Payload t) c u.
Definition sf_set_id (i : N) (t : ServerTaskFail) : ServerTaskFail :=
  mkServerTaskFail i (sf_ServerTaskID t) (sf_Output t) (sf_CreatedAt t) (sf_UpdatedAt t).
Definition sf_set_times (c u : option time) (t : ServerTaskFail) : ServerTaskFail :=
  mkServerTaskFail (sf_ID t) (sf_ServerTaskID t) (sf_Output t) c u.

(** Which rows a search means, given the servers that are not deleted. *)
Definition on_nodes (servers : gmap N Server) (nodes : list N) (i : N) : bool :=
  match servers !! i with Some s => bool_decide (sv_DSID s ∈ nodes) | None => false end.
Definition schedule_matches (servers : gmap N Server) (f : FindServerTask) (t : ServerTask) : bool :=
  in_or_any (sk_ID t) (fk_IDs f) && in_or_any (sk_ServerID t) (fk_ServersIDs f) &&
  (negb (nonempty (fk_NodeIDs f)) || on_nodes servers (fk_NodeIDs f) (sk_ServerID t)) && in_or_any (sk_Command t) (fk_Commands f).

(** ** The interface *)

Class ServerTaskRepository (V K : Type) : Type := {
  TK_Find : V -> K -> FindServerTask -> list Sorting -> option Pagination -> result (list ServerTask);
  TK_Save : ServerTask -> M K ServerTask;
  TK_Delete : N -> M K unit;
}.
Class ServerTaskFailRepository (J : Type) : Type := {
  TF_Find : J -> FindServerTaskFail -> list Sorting -> option Pagination -> result (list ServerTaskFail);
  TF_Save : ServerTaskFail -> M J ServerTaskFail;
}.

(** The searches of the handlers name at most one node. *)
Class ServerTaskRepositoryLaws (V K : Type) `{FinderRepositoryLaws V} `{ServerTaskRepository V K} : Type := {
  tk_inv : K -> Prop;
  tk_rows : K -> gmap N ServerTask;
  tk_room : nat -> K -> Prop;
  tk_room_weaken : forall n k, tk_room (S n) k -> tk_room n k;
  tk_rows_id : forall k i t, tk_inv k -> tk_rows k !! i = Some t -> sk_ID t = i /\ i <> 0%N;
  tk_find_law : forall v k f, sf_inv v -> tk_inv k -> length (fk_NodeIDs f) <= 1 ->
    match TK_Find v k f [] None with
    | Ok l => StronglySorted (fun a b => sk_ID a < sk_ID b)%N l /\
        forall t, t ∈ l <-> tk_rows k !! sk_ID t = Some t /\ schedule_matches (sf_rows v) f t = true
    | Err _ => True
    | Panic _ => False
    end;
  tk_save_law : forall t k res k', tk_inv k ->
    (if decide (sk_ID t = 0%N) then tk_room 1 k else is_Some (tk_rows k !! sk_ID t)) ->
    TK_Save t k = (res, k') ->
    tk_inv k' /\ (forall n, tk_room (if decide (sk_ID t = 0%N) then S n else n) k -> tk_room n k') /\
    match res with
    | Ok t' => (exists created updated, t' = sk_set_id (sk_ID t') (sk_set_times created updated t)) /\
        tk_rows k' = <[sk_ID t' := t']> (tk_rows k) /\
        (if decide (sk_ID t = 0%N) then tk_rows k !! sk_ID t' = None else sk_ID t' = sk_ID t)
    | Err _ => tk_rows k' = tk_rows k
    | Panic _ => False
    end;
  tk_delete_law : forall i k res k', tk_inv k -> TK_Delete i k = (res, k') ->
    tk_inv k' /\ (forall n, tk_room n k -> tk_room n k') /\
    match res with
    | Ok _ => tk_rows k' = delete i (tk_rows k)
    | Err _ => tk_rows k' = tk_rows k
    | Panic _ => False
    end;
}.
Class ServerTaskFailRepositoryLaws (J : Type) `{ServerTaskFailRepository J} : Type := {
  tf_inv : J -> Prop;
  tf_rows : J -> gmap N ServerTaskFail;
  tf_room : nat -> J -> Prop;
  tf_save_law : forall t j res j', tf_inv j -> sf_ID t = 0%N -> tf_room 1 j -> TF_Save t j = (res, j') ->
    tf_inv j' /\ (forall n, tf_room (S n) j -> tf_room n j') /\
    match res with
    | Ok t' => (exists created updated, t' = sf_set_id (sf_ID t') (sf_set_times created updated t)) /\
        tf_rows j' = <[sf_ID t' := t']> (tf_rows j) /\ tf_rows j !! sf_ID t' = None
    | Err _ => tf_rows j' = tf_rows j
    | Panic _ => False
    end;
}.

(** ** In memory: the schedule *)

Module InMemory.
Record ServerTasks : Type := mkTasks {
  tasks : gmap N ServerTask; nextID : N; serverIDIndex : gmap N (gset N); commandIndex : gmap string (gset N); ticks : N;
}.
Definition NewServerTaskRepository : ServerTasks := mkTasks ∅ 0 ∅ ∅ 0.

Definition addToIndexes (t : ServerTask) (r : ServerTasks) : ServerTasks :=
  mkTasks (tasks r) (nextID r) (idx_add (sk_ServerID t) (sk_ID t) (serverIDIndex r)) (idx_add (sk_Command t) (sk_ID t) (commandIndex r)) (ticks r).
Definition removeFromIndexes (t : ServerTask) (r : ServerTasks) : ServerTasks :=
  mkTasks (tasks r) (nextID r) (idx_remove (sk_ServerID t) (sk_ID t) (serverIDIndex r)) (idx_remove (sk_Command t) (sk_ID t) (commandIndex r)) (ticks r).
Definition set_tasks (m : gmap N ServerTask) (r : ServerTasks) : ServerTasks :=
  mkTasks m (nextID r) (serverIDIndex r) (commandIndex r) (ticks r).

Section find.
Context {V : Type} `{ServerTable V}.

(** A search that fails finds no servers. *)
Definition getServerIDsForNodes (servers : option V) (nodeIDs : list N) : result (list N) :=
  match servers with
  | None => Ok []
  | Some v => match VT_Find v (FindServerByNodeIDs nodeIDs) None with Ok l => Ok (map sv_ID l) | Err _ => Ok [] | Panic w => Panic w end
  end.
Definition getFilteredTaskIDs (servers : option V) (r : ServerTasks) (filter : option FindServerTask) : result (gset N) :=
  match filter with
  | None => Ok (dom (tasks r))
  | Some f =>
      let nodeFilterActive := nonempty (fk_NodeIDs f) in
      let? serverIDsFromNodes := (if nodeFilterActive then getServerIDsForNodes servers (fk_NodeIDs f) else Ok []) in
      if nodeFilterActive && negb (nonempty serverIDsFromNodes) then Ok ∅
      else
        let ids := nonempty (fk_IDs f) in
        let byServer := nonempty (fk_ServersIDs f) in
        let byNode := nonempty serverIDsFromNodes in
        let commands := nonempty (fk_Commands f) in
        let res :=
          if ids then foldl (fun acc id => if decide (is_Some (tasks r !! id)) then {[id]} ∪ acc else acc) ∅ (fk_IDs f)
          else if byServer then idx_union (fk_ServersIDs f) (serverIDIndex r)
          else if byNode then idx_union serverIDsFromNodes (serverIDIndex r)
          else if commands then idx_union (fk_Commands f) (commandIndex r)
          else dom (tasks r) in
        let res := if byServer && ids then idx_intersect res (fk_ServersIDs f) (serverIDIndex r) else res in
        let res := if byNode && (ids || byServer) then idx_intersect res serverIDsFromNodes (serverIDIndex r) else res in
        Ok (if commands && (ids || byServer || byNode) then idx_intersect res (fk_Commands f) (commandIndex r) else res)
  end.

Definition compareTasks (a b : ServerTask) (field : string) : comparison :=
  if String.eqb field "id" then N.compare (sk_ID a) (sk_ID b)
  else if String.eqb field "command" then String.compare (sk_Command a) (sk_Command b)
  else if String.eqb field "server_id" then N.compare (sk_ServerID a) (sk_ServerID b)
  else if String.eqb field "repeat" then N.compare (sk_Repeat a) (sk_Repeat b)
  else if String.eqb field "repeat_period" then Z.compare (sk_RepeatPeriod a) (sk_RepeatPeriod b)
  else if String.eqb field "counter" then N.compare (sk_Counter a) (sk_Counter b)
  else if String.eqb field "execute_date" then Z.compare (sk_ExecuteDate a) (sk_ExecuteDate b)
  else if String.eqb field "created_at" then opt_cmp Z.compare (sk_CreatedAt a) (sk_CreatedAt b)
  else if String.eqb field "updated_at" then opt_cmp Z.compare (sk_UpdatedAt a) (sk_UpdatedAt b)
  else Eq.
Definition sortTasks (l : list ServerTask) (order : list Sorting) : list ServerTask := sort_rows compareTasks sk_ID l order.
Definition rows_of (r : ServerTasks) (ids : gset N) : list ServerTask := omap (fun id => tasks r !! id) (elements ids).

Definition FindAll (r : ServerTasks) (order : list Sorting) (p : option Pagination) : result (list ServerTask) :=
  applyPagination (sortTasks (rows_of r (dom (tasks r))) order) p.
Definition Find (servers : option V) (r : ServerTasks) (filter : option FindServerTask) (order : list Sorting) (p : option Pagination)
  : result (list ServerTask) :=
  let? ids := getFilteredTaskIDs servers r filter in
  applyPagination (sortTasks (rows_of r ids) order) p.
End find.

Section save.
Context `{WallClock}.
Definition read_clock : M ServerTasks time := fun r =>
  (Ok (now_at (ticks r)), mkTasks (tasks r) (nextID r) (serverIDIndex r) (commandIndex r) (ticks r + 1)).
Definition store (t : ServerTask) : M ServerTasks ServerTask := fun r =>
  let '(t, r) :=
    if negb (sk_ID t =? 0)%N then (t, match tasks r !! sk_ID t with Some old => removeFromIndexes old r | None => r end)
    else let id := wrap32 (nextID r + 1) in (sk_set_id id t, mkTasks (tasks r) id (serverIDIndex r) (commandIndex r) (ticks r)) in
  (Ok t, addToIndexes t (set_tasks (<[sk_ID t := t]> (tasks r)) r)).
Definition Save (t : ServerTask) : M ServerTasks ServerTask :=
  let! now := read_clock in
  if (sk_ID t =? 0)%N && match sk_CreatedAt t with None => true | Some c => IsZero c end then
    let! created := read_clock in store (sk_set_times (Some created) (Some now) t)
  else store (sk_set_times (sk_CreatedAt t) (Some now) t).
Definition Delete (id : N) : M ServerTasks unit := fun r =>
  let r := match tasks r !! id with Some t => removeFromIndexes t r | None => r end in
  (Ok tt, set_tasks (delete id (tasks r)) r).
End save.
End InMemory.

(** ** The indexes agree with the table *)

Section schedule.
Import InMemory.
Definition key_sk_server (t : ServerTask) : option N := Some (sk_ServerID t).
Definition key_command (t : ServerTask) : option string := Some (sk_Command t).
Record schedule_inv (r : ServerTasks) : Prop := {
  ski_id : forall i t, tasks r !! i = Some t -> sk_ID t = i /\ (0 < i <= nextID r)%N;
  ski_server : idx_ok key_sk_server (serverIDIndex r) (tasks r);
  ski_command : idx_ok key_command (commandIndex r) (tasks r);
}.
Definition schedule_room (n : nat) (r : ServerTasks) : Prop := (nextID r + N.of_nat n < two32)%N.
Definition schedule_saveable (r : ServerTasks) (t : ServerTask) : Prop :=
  if decide (sk_ID t = 0%N) then schedule_room 1 r else is_Some (tasks r !! sk_ID t).

Lemma schedule_inv_new : schedule_inv NewServerTaskRepository.
Proof. split; try apply idx_ok_empty. intros i t. simpl. by rewrite lookup_empty. Qed.
Lemma schedule_inv_remove r id old :
  tasks r !! id = Some old -> schedule_inv r -> schedule_inv (set_tasks (delete id (tasks r)) (removeFromIndexes old r)).
Proof.
  intros Hold [Hids Hsrv Hc]. destruct (Hids _ _ Hold) as [Hid _]. split; simpl; rewrite ?Hid.
  - intros i t. rewrite lookup_delete. case_decide; [done|apply Hids].
  - by apply (idx_ok_delete key_sk_server).
  - by apply (idx_ok_delete key_command).
Qed.
Lemma schedule_inv_insert r row n :
  tasks r !! sk_ID row = None -> (0 < sk_ID row <= n)%N -> (nextID r <= n)%N -> schedule_inv r ->
  schedule_inv (addToIndexes row (set_tasks (<[sk_ID row := row]> (tasks r)) (mkTasks (tasks r) n (serverIDIndex r) (commandIndex r) (ticks r)))).
Proof.
  intros Hnone Hid Hn [Hids Hsrv Hc]. split; simpl.
  - intros i t. rewrite lookup_insert. case_decide; subst; [by intros [= <-]|]. intros Ht. destruct (Hids _ _ Ht). split; [done|lia].
  - by apply (idx_ok_insert key_sk_server).
  - by apply (idx_ok_insert key_command).
Qed.
(** The clock may have moved. *)
Lemma schedule_inv_ticks r n : schedule_inv r -> schedule_inv (mkTasks (tasks r) (nextID r) (serverIDIndex r) (commandIndex r) n).
Proof. by intros []. Qed.

Lemma stored_task t r : schedule_inv r -> schedule_saveable r t ->
  exists t' r', store t r = (Ok t', r') /\ schedule_inv r' /\ tasks r' = <[sk_ID t' := t']> (tasks r) /\ t' = sk_set_id (sk_ID t') t /\
    (if decide (sk_ID t = 0%N) then tasks r !! sk_ID t' = None else sk_ID t' = sk_ID t) /\
    (forall n, schedule_room (if decide (sk_ID t = 0%N) then S n else n) r -> schedule_room n r').
Proof.
  intros Hinv Hsv. unfold schedule_saveable, store in *. case_decide as Hid.
  - rewrite Hid. simpl. unfold wrap32. rewrite N.mod_small by exact Hsv. set (t' := sk_set_id (nextID r + 1) t).
    assert (Hnone : tasks r !! sk_ID t' = None).
    { destruct (tasks r !! sk_ID t') as [o|] eqn:E; [|done]. destruct (ski_id r Hinv _ _ E) as [_ ?]. simpl in *. lia. }
    eexists t', _. split_and!; [done| |done|done|done|intros n; unfold schedule_room; simpl; lia].
    apply (schedule_inv_insert r t' (nextID r + 1)); [done|simpl; lia|lia|done].
  - destruct Hsv as [old Hold]. apply N.eqb_neq in Hid as Hid'. rewrite Hid', Hold. simpl. destruct (ski_id r Hinv _ _ Hold) as [_ Hrange].
    eexists t, _. split_and!; [done| |done|by destruct t|done|done].
    pose proof (schedule_inv_remove r (sk_ID t) old Hold Hinv) as Hrem.
    pose proof (schedule_inv_insert (set_tasks (delete (sk_ID t) (tasks r)) (removeFromIndexes old r)) t (nextID r)) as HI.
    simpl in HI. rewrite insert_delete_eq, lookup_delete_eq in HI. by apply HI.
Qed.
Lemma schedule_Save_spec `{WallClock} t r : schedule_inv r -> schedule_saveable r t ->
  exists t' r', Save t r = (Ok t', r') /\ schedule_inv r' /\ tasks r' = <[sk_ID t' := t']> (tasks r) /\
    (exists created updated, t' = sk_set_id (sk_ID t') (sk_set_times created updated t)) /\
    (if decide (sk_ID t = 0%N) then tasks r !! sk_ID t' = None else sk_ID t' = sk_ID t) /\
    (forall n, schedule_room (if decide (sk_ID t = 0%N) then S n else n) r -> schedule_room n r').
Proof.
  intros Hinv Hsv. unfold Save, bind, read_clock. destruct (_ && _).
  - destruct (stored_task (sk_set_times (Some (now_at (ticks r + 1))) (Some (now_at (ticks r))) t)
      (mkTasks (tasks r) (nextID r) (serverIDIndex r) (commandIndex r) (ticks r + 1 + 1))) as (t' & r' & E & Hi & Hr & Ht & Hid & Hroom);
      [by apply schedule_inv_ticks|done|]. exists t', r'. cbn [ticks tasks nextID serverIDIndex commandIndex]. split_and!; eauto.
  - destruct (stored_task (sk_set_times (sk_CreatedAt t) (Some (now_at (ticks r))) t)
      (mkTasks (tasks r) (nextID r) (serverIDIndex r) (commandIndex r) (ticks r + 1))) as (t' & r' & E & Hi & Hr & Ht & Hid & Hroom);
      [by apply schedule_inv_ticks|done|]. exists t', r'. split_and!; eauto.
Qed.
Lemma schedule_Delete_spec id r : schedule_inv r ->
  exists r', Delete id r = (Ok tt, r') /\ schedule_inv r' /\ tasks r' = delete id (tasks r) /\ nextID r' = nextID r.
Proof.
  intros Hinv. unfold Delete. destruct (tasks r !! id) as [t|] eqn:Ht.
  - eexists. split; [done|]. split; [|done]. by apply (schedule_inv_remove r id t).
  - eexists. split; [done|]. split; [|done]. simpl. rewrite delete_id by done. destruct Hinv. by split.
Qed.

(** *** Searching is a table scan *)

Lemma existing_ids (m : gmap N ServerTask) ids (acc : gset N) id :
  id ∈ foldl (fun acc id => if decide (is_Some (m !! id)) then {[id]} ∪ acc else acc) acc ids
  <-> id ∈ acc \/ (id ∈ ids /\ is_Some (m !! id)).
Proof. revert acc. induction ids as [|i ids IH]; intros acc; simpl; [set_solver|]. rewrite IH. case_decide; set_solver. Qed.

Section scan.
Context `{WallClock}.
Implicit Types (v : memServerRepo) (r : ServerTasks) (f : FindServerTask).

(** The servers of the node of a search. *)
Lemma servers_of_node v f : srv_inv v -> length (fk_NodeIDs f) <= 1 ->
  exists l, (if nonempty (fk_NodeIDs f) then getServerIDsForNodes (Some v) (fk_NodeIDs f) else Ok []) = Ok l /\
    (fk_NodeIDs f = [] /\ l = [] \/ fk_NodeIDs f <> [] /\ forall i, i ∈ l <-> on_nodes (live_rows v) (fk_NodeIDs f) i = true).
Proof.
  intros Hv Hn. destruct (fk_NodeIDs f) as [|n [|n' ns]]; [by exists []; auto| |simpl in Hn; lia]. unfold getServerIDsForNodes. cbn [nonempty].
  pose proof (vt_find_used_law v (FindServerByNodeIDs [n]) (fun s => sv_DSID s = n) Hv (used_node n)) as Hl.
  destruct (VT_Find v (FindServerByNodeIDs [n]) None) as [l|e|w] eqn:E; [|done|done].
  eexists. split; [reflexivity|]. right. split; [done|]. intros i. rewrite list_elem_of_fmap. unfold on_nodes. split.
  - intros (s & -> & [Hs Hd]%Hl). simpl in Hs. rewrite Hs. apply bool_decide_eq_true. by apply list_elem_of_singleton.
  - destruct (live_rows v !! i) as [s|] eqn:Es; [|done]. intros Hd%bool_decide_eq_true%list_elem_of_singleton. exists s.
    pose proof Es as [Es' _]%live_row. destruct (si_id v Hv i s Es') as [Hi _]. split; [done|]. apply Hl. simpl. by rewrite Hi.
Qed.
Lemma nonempty_nil {A} (l : list A) : nonempty l = false <-> l = [].
Proof. by destruct l. Qed.

Lemma filtered_task v r f id t : srv_inv v -> schedule_inv r -> length (fk_NodeIDs f) <= 1 -> tasks r !! id = Some t ->
  exists ids, getFilteredTaskIDs (Some v) r (Some f) = Ok ids /\
    (id ∈ ids <-> schedule_matches (live_rows v) f t = true).
Proof.
  intros Hv [Hid Hsrv Hc] Hn Ht. unfold getFilteredTaskIDs, schedule_matches. destruct (servers_of_node v f Hv Hn) as (l & -> & Hl). cbn [result_bind].
  destruct (Hid _ _ Ht) as [Htid _].
  assert (H1 : forall ks : list N, (exists k, k ∈ ks /\ id ∈ idx_get k (serverIDIndex r)) <-> sk_ServerID t ∈ ks).
  { intros ks. setoid_rewrite (idx_ok_elem key_sk_server _ _ _ _ Hsrv). unfold key_sk_server. rewrite Ht. naive_solver. }
  assert (H2 : forall ks : list string, (exists k, k ∈ ks /\ id ∈ idx_get k (commandIndex r)) <-> sk_Command t ∈ ks).
  { intros ks. setoid_rewrite (idx_ok_elem key_command _ _ _ _ Hc). unfold key_command. rewrite Ht. naive_solver. }
  assert (Hnode : nonempty (fk_NodeIDs f) = false /\ l = [] \/ nonempty (fk_NodeIDs f) = true /\ (sk_ServerID t ∈ l <-> on_nodes (live_rows v) (fk_NodeIDs f) (sk_ServerID t) = true)).
  { destruct Hl as [[E1 E2]|[E1 E2]]; [left|right]; [by rewrite E1|]. split; [by destruct (fk_NodeIDs f)|done]. }
  clear Hl. destruct Hnode as [[-> ->]|[-> Hin]].
  - simpl. eexists. split; [reflexivity|]. rewrite !andb_true_iff, !in_or_any_true.
    destruct (nonempty (fk_IDs f)), (nonempty (fk_ServersIDs f)), (nonempty (fk_Commands f)); simpl;
      rewrite ?elem_of_idx_intersect, ?H2, ?elem_of_idx_intersect, ?H1, ?existing_ids, ?elem_of_idx_union, ?H1, ?H2,
        ?elem_of_dom, ?Ht, ?Htid; clear; set_unfold; naive_solver.
  - destruct (nonempty l) eqn:El.
    + simpl. eexists. split; [reflexivity|]. rewrite !andb_true_iff, !in_or_any_true, <- Hin.
      destruct (nonempty (fk_IDs f)), (nonempty (fk_ServersIDs f)), (nonempty (fk_Commands f)); simpl;
        rewrite ?elem_of_idx_intersect, ?H2, ?elem_of_idx_intersect, ?H1, ?elem_of_idx_intersect, ?H1, ?existing_ids, ?elem_of_idx_union, ?H1, ?H2,
          ?elem_of_dom, ?Ht, ?Htid; clear; set_unfold; naive_solver.
    + simpl. eexists. split; [reflexivity|]. apply nonempty_nil in El as ->. rewrite !andb_true_iff, <- Hin. clear. set_solver.
Qed.
Lemma schedules_filtered v r f : srv_inv v -> schedule_inv r -> length (fk_NodeIDs f) <= 1 ->
  exists ids, getFilteredTaskIDs (Some v) r (Some f) = Ok ids /\ forall id, id ∈ ids -> is_Some (tasks r !! id).
Proof.
  intros Hv [_ Hsrv Hc] Hn. unfold getFilteredTaskIDs. destruct (servers_of_node v f Hv Hn) as (l & -> & _). cbn [result_bind].
  assert (H1 : forall k id, id ∈ idx_get k (serverIDIndex r) -> is_Some (tasks r !! id)).
  { intros k id (t & -> & _)%(idx_ok_elem key_sk_server _ _ _ _ Hsrv). eauto. }
  assert (H2 : forall k id, id ∈ idx_get k (commandIndex r) -> is_Some (tasks r !! id)).
  { intros k id (t & -> & _)%(idx_ok_elem key_command _ _ _ _ Hc). eauto. }
  destruct (nonempty (fk_NodeIDs f) && negb (nonempty l)); (eexists; split; [reflexivity|]); [set_solver|]. intros id.
  destruct (nonempty (fk_IDs f)), (nonempty (fk_ServersIDs f)), (nonempty l), (nonempty (fk_Commands f)); simpl;
    rewrite ?elem_of_idx_intersect, ?existing_ids, ?elem_of_idx_union, ?elem_of_dom; clear -H1 H2; set_unfold; naive_solver.
Qed.

Lemma elem_of_rows r (ids : gset N) t : schedule_inv r -> t ∈ rows_of r ids <-> sk_ID t ∈ ids /\ tasks r !! sk_ID t = Some t.
Proof.
  intros Hinv. unfold rows_of. rewrite list_elem_of_omap. setoid_rewrite elem_of_elements. split; [|naive_solver].
  intros (i & Hi & Ht). destruct (ski_id r Hinv _ _ Ht) as [<- _]. done.
Qed.
Lemma rows_ids r (ids : gset N) : schedule_inv r -> (forall id, id ∈ ids -> is_Some (tasks r !! id)) -> map sk_ID (rows_of r ids) = elements ids.
Proof.
  intros Hinv Hin. unfold rows_of. assert (Hall : forall id, id ∈ elements ids -> is_Some (tasks r !! id)) by (intros id; rewrite elem_of_elements; apply Hin).
  clear Hin. induction (elements ids) as [|id l IH]; [done|]. simpl. destruct (Hall id) as [t Ht]; [set_solver|]. rewrite Ht. simpl.
  destruct (ski_id r Hinv _ _ Ht) as [-> _]. f_equal. apply IH. set_solver.
Qed.

(** In order of the ids, exactly the rows that match. *)
Lemma schedule_find_is_table_scan v r f : srv_inv v -> schedule_inv r -> length (fk_NodeIDs f) <= 1 ->
  exists l, Find (Some v) r (Some f) [] None = Ok l /\ StronglySorted (fun a b => sk_ID a < sk_ID b)%N l /\
    forall t, t ∈ l <-> tasks r !! sk_ID t = Some t /\ schedule_matches (live_rows v) f t = true.
Proof.
  intros Hv Hr Hn. destruct (schedules_filtered v r f Hv Hr Hn) as (ids & E & Hdom). eexists. unfold Find. rewrite E. split; [reflexivity|].
  unfold sortTasks. split.
  - apply (ids_strictly_sorted sk_ID); [apply sort_rows_default|]. rewrite (sort_rows_perm compareTasks sk_ID), rows_ids by done. apply NoDup_elements.
  - intros t. rewrite (sort_rows_perm compareTasks sk_ID), elem_of_rows by done.
    assert (Hm : tasks r !! sk_ID t = Some t -> sk_ID t ∈ ids <-> schedule_matches (live_rows v) f t = true).
    { intros Ht. destruct (filtered_task v r f _ t Hv Hr Hn Ht) as (ids' & E' & Hids'). rewrite E in E'. by injection E' as <-. }
    tauto.
Qed.
End scan.
End schedule.

#[export] Instance memory_schedule `{WallClock} : ServerTaskRepository memServerRepo InMemory.ServerTasks := {
  TK_Find v r f := InMemory.Find (Some v) r (Some f); TK_Save := InMemory.Save; TK_Delete := InMemory.Delete;
}.
#[export, program] Instance memory_schedule_laws `{WallClock} : ServerTaskRepositoryLaws memServerRepo InMemory.ServerTasks := {
  tk_inv := schedule_inv; tk_rows := InMemory.tasks; tk_room := schedule_room;
}.
Next Obligation. intros ? n k. unfold schedule_room. lia. Qed.
Next Obligation. intros ? k i t Hk Ht. destruct (ski_id k Hk _ _ Ht). split; [done|lia]. Qed.
Next Obligation.
  intros ? v k f Hv Hk Hn. destruct (schedule_find_is_table_scan v k f Hv Hk Hn) as (l & E & Hl). simpl. by rewrite E.
Qed.
Next Obligation.
  intros ? t k res k' Hk Hsv E. destruct (schedule_Save_spec t k Hk Hsv) as (t' & k1 & E1 & Hi & Hr & Ht & Hid & Hroom).
  simpl in E. rewrite E1 in E. by injection E as <- <-.
Qed.
Next Obligation.
  intros ? i k res k' Hk E. destruct (schedule_Delete_spec i k Hk) as (k1 & E1 & Hi & Hr & Hid). simpl in E. rewrite E1 in E. injection E as <- <-.
  split; [done|]. split; [|done]. intros n. unfold schedule_room. by rewrite Hid.
Qed.
