(* ===== verification/ScheduleFails.v ===== *)
(** The reports of scheduled tasks that failed, in memory
    ([internal/repositories/inmemory/server_task_fails.go]). *)

From S2P Require Import Prelude.
From S2P Require Import GoNum.
From S2P Require Import Domain.
From S2P Require Import GoRuntime.
From S2P Require Import Repositories.
From S2P Require Import TaskRepo.
From S2P Require Import ServersRepo.
From S2P Require Import Schedules.
From stdpp Require Import base tactics strings list gmap numbers sorting.
From Stdlib Require Import NArith ZArith.

(** ** In memory: the reports *)

Module Fails.
Record ServerTaskFails : Type := mkFails { fails : gmap N ServerTaskFail; nextID : N; serverTaskIDIndex : gmap N (gset N); ticks : N }.
Definition NewServerTaskFailRepository : ServerTaskFails := mkFails ∅ 0 ∅ 0.

Definition addToIndexes (t : ServerTaskFail) (r : ServerTaskFails) : ServerTaskFails :=
  mkFails (fails r) (nextID r) (idx_add (sf_ServerTaskID t) (sf_ID t) (serverTaskIDIndex r)) (ticks r).
Definition removeFromIndexes (t : ServerTaskFail) (r : ServerTaskFails) : ServerTaskFails :=
  mkFails (fails r) (nextID r) (idx_remove (sf_ServerTaskID t) (sf_ID t) (serverTaskIDIndex r)) (ticks r).
Definition set_fails (m : gmap N ServerTaskFail) (r : ServerTaskFails) : ServerTaskFails := mkFails m (nextID r) (serverTaskIDIndex r) (ticks r).

(** What is kept of the ids found, by the times of the reports. *)
Definition created_within (f : FindServerTaskFail) (t : ServerTaskFail) : bool :=
  match sf_CreatedAt t with
  | None => false
  | Some c =>
      match ff_CreatedAfter f with Some a => negb (c <? a)%Z | None => true end &&
      match ff_CreatedBefore f with Some b => negb (b <? c)%Z | None => true end
  end.
Definition filterByCreatedAt (r : ServerTaskFails) (res : gset N) (f : FindServerTaskFail) : gset N :=
  filter (fun id => match fails r !! id with Some t => created_within f t | None => false end = true) res.
Definition getFilteredFailIDs (r : ServerTaskFails) (filter : option FindServerTaskFail) : gset N :=
  match filter with
  | None => dom (fails r)
  | Some f =>
      let ids := nonempty (ff_IDs f) in
      let byTask := nonempty (ff_ServerTaskIDs f) in
      let res :=
        if ids then foldl (fun acc id => if decide (is_Some (fails r !! id)) then {[id]} ∪ acc else acc) ∅ (ff_IDs f)
        else if byTask then idx_union (ff_ServerTaskIDs f) (serverTaskIDIndex r)
        else dom (fails r) in
      let res := if byTask && ids then idx_intersect res (ff_ServerTaskIDs f) (serverTaskIDIndex r) else res in
      match ff_CreatedAfter f, ff_CreatedBefore f with None, None => res | _, _ => filterByCreatedAt r res f end
  end.

Definition compareFails (a b : ServerTaskFail) (field : string) : comparison :=
  if String.eqb field "id" then N.compare (sf_ID a) (sf_ID b)
  else if String.eqb field "server_task_id" then N.compare (sf_ServerTaskID a) (sf_ServerTaskID b)
  else if String.eqb field "output" then String.compare (sf_Output a) (sf_Output b)
  else if String.eqb field "created_at" then opt_cmp Z.compare (sf_CreatedAt a) (sf_CreatedAt b)
  else if String.eqb field "updated_at" then opt_cmp Z.compare (sf_UpdatedAt a) (sf_UpdatedAt b)
  else Eq.
Definition sortFails (l : list ServerTaskFail) (order : list Sorting) : list ServerTaskFail := sort_rows compareFails sf_ID l order.
Definition FindAll (r : ServerTaskFails) (order : list Sorting) (p : option Pagination) : result (list ServerTaskFail) :=
  applyPagination (sortFails (omap (fun id => fails r !! id) (elements (dom (fails r)))) order) p.
Definition Find (r : ServerTaskFails) (filter : option FindServerTaskFail) (order : list Sorting) (p : option Pagination) : result (list ServerTaskFail) :=
  applyPagination (sortFails (omap (fun id => fails r !! id) (elements (getFilteredFailIDs r filter))) order) p.

Section save.
Context `{WallClock}.
Definition read_clock : M ServerTaskFails time := fun r => (Ok (now_at (ticks r)), mkFails (fails r) (nextID r) (serverTaskIDIndex r) (ticks r + 1)).
Definition store (t : ServerTaskFail) : M ServerTaskFails ServerTaskFail := fun r =>
  let '(t, r) :=
    if negb (sf_ID t =? 0)%N then (t, match fails r !! sf_ID t with Some old => removeFromIndexes old r | None => r end)
    else let id := wrap32 (nextID r + 1) in (sf_set_id id t, mkFails (fails r) id (serverTaskIDIndex r) (ticks r)) in
  (Ok t, addToIndexes t (set_fails (<[sf_ID t := t]> (fails r)) r)).
Definition Save (t : ServerTaskFail) : M ServerTaskFails ServerTaskFail :=
  let! now := read_clock in
  if (sf_ID t =? 0)%N && match sf_CreatedAt t with None => true | Some c => IsZero c end then
    let! created := read_clock in store (sf_set_times (Some created) (Some now) t)
  else store (sf_set_times (sf_CreatedAt t) (Some now) t).
End save.
End Fails.

Section reports.
Import Fails.
Definition key_task (t : ServerTaskFail) : option N := Some (sf_ServerTaskID t).
Record fails_inv (r : ServerTaskFails) : Prop := {
  ffi_id : forall i t, fails r !! i = Some t -> sf_ID t = i /\ (0 < i <= nextID r)%N;
  ffi_task : idx_ok key_task (serverTaskIDIndex r) (fails r);
}.
Definition fails_room (n : nat) (r : ServerTaskFails) : Prop := (nextID r + N.of_nat n < two32)%N.

Lemma new_report t r : fails_inv r -> sf_ID t = 0%N -> fails_room 1 r ->
  exists t' r', store t r = (Ok t', r') /\ fails_inv r' /\ fails r' = <[sf_ID t' := t']> (fails r) /\ t' = sf_set_id (sf_ID t') t /\
    fails r !! sf_ID t' = None /\ (forall n, fails_room (S n) r -> fails_room n r').
Proof.
  intros [Hids Hk] Hid Hroom. unfold store. rewrite Hid. simpl. unfold wrap32. rewrite N.mod_small by exact Hroom. set (t' := sf_set_id (nextID r + 1) t).
  assert (Hnone : fails r !! sf_ID t' = None).
  { destruct (fails r !! sf_ID t') as [o|] eqn:E; [|done]. destruct (Hids _ _ E) as [_ ?]. simpl in *. lia. }
  eexists t', _. split_and!; [done| |done|done|done|intros n; unfold fails_room; simpl; lia]. split; simpl.
  - intros i x. rewrite lookup_insert. case_decide; subst; [intros [= <-]; simpl; split; [done|lia]|]. intros Hx. destruct (Hids _ _ Hx). split; [done|lia].
  - by apply (idx_ok_insert key_task (serverTaskIDIndex r) (fails r) (sf_ID t') t').
Qed.
End reports.

#[export] Instance memory_fails `{WallClock} : ServerTaskFailRepository Fails.ServerTaskFails := {
  TF_Find r f := Fails.Find r (Some f); TF_Save := Fails.Save;
}.
#[export, program] Instance memory_fails_laws `{WallClock} : ServerTaskFailRepositoryLaws Fails.ServerTaskFails := {
  tf_inv := fails_inv; tf_rows := Fails.fails; tf_room := fails_room;
}.
Next Obligation.
  intros ? t j res j' Hj Hid Hroom E. simpl in E. unfold Fails.Save, bind, Fails.read_clock in E.
  assert (Hticks : forall n, fails_inv (Fails.mkFails (Fails.fails j) (Fails.nextID j) (Fails.serverTaskIDIndex j) n)) by (by destruct Hj).
  destruct (_ && _).
  - edestruct (new_report (sf_set_times (Some (now_at (Fails.ticks j + 1))) (Some (now_at (Fails.ticks j))) t)) as (t' & r' & E' & Hi & Hr & Ht & Hn & Hro);
      [apply Hticks|exact Hid|exact Hroom|]. cbn [Fails.ticks Fails.fails Fails.nextID Fails.serverTaskIDIndex] in E. rewrite E' in E. injection E as <- <-.
    split; [done|]. split; [exact Hro|]. eauto.
  - edestruct (new_report (sf_set_times (sf_CreatedAt t) (Some (now_at (Fails.ticks j))) t)) as (t' & r' & E' & Hi & Hr & Ht & Hn & Hro);
      [apply Hticks|exact Hid|exact Hroom|]. rewrite E' in E. injection E as <- <-. split; [done|]. split; [exact Hro|]. eauto.
Qed.
