(* ===== verification/Carbon.v ===== *)
(** Durations as text ([pkg/carbon/interval.go]): reading an interval such as
    "1 hour 30 minutes" and writing a duration down for people.  The values are
    [float64]s, computed by the binary64 operations of [SpecFloat], each rounded
    on its own, and conversions to [int] that do not fit give the least [int], as
    on amd64. *)

From S2P Require Import Prelude.
From S2P Require Import GoNum.
From S2P Require Import Domain.
From S2P Require Import GoRuntime.
From stdpp Require Import base tactics strings list numbers.
From Stdlib Require Import NArith ZArith Ascii SpecFloat.

(** ** Numbers *)

(** [int64], and [int] on the 64-bit targets, wrap around. *)
Definition int64 (z : Z) : Z := ((z + 2 ^ 63) mod 2 ^ 64 - 2 ^ 63)%Z.
Definition minInt64 : Z := (- 2 ^ 63)%Z.

Definition float : Type := spec_float.
Definition fadd (x y : float) : float := SFadd 53 1024 x y.
Definition fsub (x y : float) : float := SFsub 53 1024 x y.
Definition fmul (x y : float) : float := SFmul 53 1024 x y.
Definition fdiv (x y : float) : float := SFdiv 53 1024 x y.
(** [float64(n)] and [int(f)] *)
Definition of_int (n : Z) : float := binary_normalize 53 1024 n 0 false.
Definition to_int (f : float) : Z :=
  let n :=
    match f with
    | S754_zero _ => 0
    | S754_finite s m e => cond_Zopp s (if 0 <=? e then Z.pos m * 2 ^ e else Z.pos m / 2 ^ (- e))
    | S754_infinity _ | S754_nan => minInt64
    end%Z in
  if (minInt64 <=? n)%Z && (n <? 2 ^ 63)%Z then n else minInt64.

(** [strconv.ParseFloat] of digits and digits behind a point: the nearest
    [float64]; what is too large for it is an error. *)
Fixpoint decimal_value (n : N) (s : string) : N :=
  match s with EmptyString => n | String c s => decimal_value (n * 10 + default 0%N (char_digit c)) s end.
Definition ParseFloat (whole part : string) : result float :=
  match decimal_value 0 (whole +:+ part) with
  | N0 => Ok (S754_zero false)
  | Npos m =>
      let '(q, e, l) := SFdiv_core_binary 53 1024 (Z.pos m) 0 (10 ^ Z.of_nat (String.length part)) 0 in
      match binary_round_aux 53 1024 false q e l with S754_infinity _ => Err ErrRange | f => Ok f end
  end.

Definition roundFloat (val : float) (ratio : Z) : float :=
  fdiv (of_int (to_int (fadd (fmul val (of_int ratio)) (fdiv (of_int 1) (of_int 2))))) (of_int ratio).

(** ** Reading an interval *)

(** The pattern: digits with an optional point and more digits, blanks, and a unit
    of anything but digits and blanks; leftmost and greedy, no choice is ever taken
    back. *)
Definition is_digit (c : ascii) : bool := bool_decide (is_Some (char_digit c)).
Definition is_blank (c : ascii) : bool :=
  bool_decide (N_of_ascii c ∈ [9; 10; 12; 13; 32]%N).
Fixpoint span (p : ascii -> bool) (s : string) : string * string :=
  match s with
  | EmptyString => (EmptyString, EmptyString)
  | String c t => if p c then let '(a, b) := span p t in (String c a, b) else (EmptyString, s)
  end.
Definition decimals (s : string) : string * string :=
  match s with
  | String "." t => match span is_digit t with (EmptyString, _) => (EmptyString, s) | r => r end
  | _ => (EmptyString, s)
  end.
Fixpoint matches (fuel : nat) (s : string) : list (string * string * string) :=
  match fuel, s with
  | S fuel, String c t =>
      if is_digit c then
        let '(whole, s) := span is_digit s in
        let '(part, s) := decimals s in
        let '(unit, s) := span (fun c => negb (is_digit c || is_blank c)) (snd (span is_blank s)) in
        (whole, part, unit) :: matches fuel s
      else matches fuel t
  | _, _ => []
  end.

Definition ErrInvalidNumber : error := ENew "invalid number in interval definition".
Definition ErrInvalidUnit : error := ENew "invalid unit in interval definition".
Record part : Type := mkPart { pt_value : float; pt_unit : string }.
Fixpoint to_parts (l : list (string * string * string)) : result (list part) :=
  match l with
  | [] => Ok []
  | (whole, frac, unit) :: l =>
      match ParseFloat whole frac with
      | Ok value => let? parts := to_parts l in Ok (mkPart value unit :: parts)
      | Err _ => Err (EWrap ("failed to parse value '" +:+ whole +:+ (if String.eqb frac "" then ""%string else ("." +:+ frac)) +:+ "'") ErrInvalidNumber)
      | Panic w => Panic w
      end
  end.

Record Components : Type := mkComponents {
  cm_years : Z; cm_months : Z; cm_weeks : Z; cm_days : Z; cm_hours : Z; cm_minutes : Z; cm_seconds : Z; cm_microseconds : Z;
}.
Definition plus (a b : Components) : Components :=
  mkComponents (int64 (cm_years a + cm_years b)) (int64 (cm_months a + cm_months b)) (int64 (cm_weeks a + cm_weeks b)) (int64 (cm_days a + cm_days b))
    (int64 (cm_hours a + cm_hours b)) (int64 (cm_minutes a + cm_minutes b)) (int64 (cm_seconds a + cm_seconds b)) (int64 (cm_microseconds a + cm_microseconds b)).
Definition none : Components := mkComponents 0 0 0 0 0 0 0 0.

Definition MonthsPerQuarter : Z := 3.
Definition DaysPerWeek : Z := 7.
Definition HoursPerDay : Z := 24.
Definition MinutesPerHour : Z := 60.
Definition SecondsPerMinute : Z := 60.
Definition MillisecondsPerSecond : Z := 1000.
Definition MicrosecondsPerMillisecond : Z := 1000.

(** The micro sign and an s. *)
Definition micro_s : string := String (ascii_of_N 194) (String (ascii_of_N 181) "s").
Inductive unit_kind : Type := Year | Quarter | Month | Week | Day | Hour | Minute | Second | Millisecond | Microsecond.
Definition unit_names (k : unit_kind) : list string :=
  match k with
  | Year => ["year"; "years"; "y"; "yr"; "yrs"]
  | Quarter => ["quarter"; "quarters"]
  | Month => ["month"; "months"; "mo"; "mos"]
  | Week => ["week"; "weeks"; "w"]
  | Day => ["day"; "days"; "d"]
  | Hour => ["hour"; "hours"; "h"]
  | Minute => ["minute"; "minutes"; "m"]
  | Second => ["second"; "seconds"; "s"]
  | Millisecond => ["millisecond"; "milliseconds"; "milli"; "ms"]
  | Microsecond => ["microsecond"; "microseconds"; "micro"; micro_s]
  end.
Definition find_unit (unit : string) : option unit_kind :=
  snd <$> list_find (fun k => unit ∈ unit_names k) [Year; Quarter; Month; Week; Day; Hour; Minute; Second; Millisecond; Microsecond].

Section reading.
Context `{Unicode}.

(** The whole part and the fraction, which is dropped when it rounds to nothing
    or to one. *)
Definition split_value (value : float) : Z * float :=
  let intValue := to_int value in
  let fraction := fsub value (of_int intValue) in
  let rounded := roundFloat fraction 1000000 in
  if SFeqb rounded (of_int 1) then (int64 (intValue + 1), of_int 0)
  else if SFeqb rounded (of_int 0) then (intValue, of_int 0)
  else (intValue, fraction).

(** What one part adds, and the part its fraction is handed on as. *)
Definition one_part (definition : string) (p : part) : result (Components * list part) :=
  let '(n, fraction) := split_value (pt_value p) in
  let unit := if String.eqb (pt_unit p) micro_s then micro_s else ToLower (pt_unit p) in
  let on (factor : Z) (smaller : string) := if SFltb (of_int 0) fraction then [mkPart (fmul fraction (of_int factor)) smaller] else [] in
  match find_unit unit with
  | Some Year => Ok (mkComponents n 0 0 0 0 0 0 0, [])
  | Some Quarter => Ok (mkComponents 0 (int64 (n * MonthsPerQuarter)) 0 0 0 0 0 0, [])
  | Some Month => Ok (mkComponents 0 n 0 0 0 0 0 0, [])
  | Some Week => Ok (mkComponents 0 0 n 0 0 0 0 0, on DaysPerWeek "d"%string)
  | Some Day => Ok (mkComponents 0 0 0 n 0 0 0 0, on HoursPerDay "h"%string)
  | Some Hour => Ok (mkComponents 0 0 0 0 n 0 0 0, on MinutesPerHour "m"%string)
  | Some Minute => Ok (mkComponents 0 0 0 0 0 n 0 0, on SecondsPerMinute "s"%string)
  | Some Second => Ok (mkComponents 0 0 0 0 0 0 n 0, on MillisecondsPerSecond "ms"%string)
  | Some Millisecond =>
      let rest := if SFltb (of_int 0) fraction then to_int (roundFloat (fmul fraction (of_int MicrosecondsPerMillisecond)) 1) else 0%Z in
      Ok (mkComponents 0 0 0 0 0 0 0 (int64 (int64 (n * MicrosecondsPerMillisecond) + rest)), [])
  | Some Microsecond => Ok (mkComponents 0 0 0 0 0 0 0 n, [])
  | None => Err (EWrap ("failed to parse unit '" +:+ pt_unit p +:+ "' in '" +:+ definition +:+ "'") ErrInvalidUnit)
  end.

(** The queue of parts: what a fraction becomes goes to its end. *)
Fixpoint process (fuel : nat) (definition : string) (parts : list part) (c : Components) : result Components :=
  match parts, fuel with
  | [], _ => Ok c
  | _, O => Panic "out of fuel"
  | p :: parts, S fuel =>
      match one_part definition p with
      | Ok (d, more) => process fuel definition (parts ++ more) (plus c d)
      | Err e => Err e
      | Panic w => Panic w
      end
  end.
(** A part is handed on five times at most. *)
Definition queue_fuel (parts : list part) : nat := 6 * length parts.

Definition total_micros (c : Components) : Z :=
  let add (total n micros : Z) := int64 (total + int64 (n * micros)) in
  let total := add 0%Z (cm_years c) (365 * 24 * 60 * 60 * 1000000)%Z in
  let total := add total (cm_months c) (30 * 24 * 60 * 60 * 1000000)%Z in
  let total := add total (cm_weeks c) (7 * 24 * 60 * 60 * 1000000)%Z in
  let total := add total (cm_days c) (24 * 60 * 60 * 1000000)%Z in
  let total := add total (cm_hours c) (60 * 60 * 1000000)%Z in
  let total := add total (cm_minutes c) (60 * 1000000)%Z in
  let total := add total (cm_seconds c) 1000000%Z in
  int64 (total + cm_microseconds c).

Definition ParseInterval (intervalDefinition : string) : result Z :=
  if String.eqb intervalDefinition "" then Ok 0%Z
  else
    let? parts := to_parts (matches (String.length intervalDefinition) intervalDefinition) in
    let? c := process (queue_fuel parts) intervalDefinition parts none in
    Ok (int64 (total_micros c * 1000)).
End reading.

(** ** Writing a duration *)

(** [Duration.Seconds] *)
Definition Seconds (d : Z) : float := fadd (of_int (Z.quot d second)) (fdiv (of_int (Z.rem d second)) (of_int second)).

Definition secondsPerMinute : Z := 60.
Definition secondsPerHour : Z := 60 * 60.
Definition secondsPerDay : Z := 24 * 60 * 60.
Definition secondsPerWeek : Z := 7 * 24 * 60 * 60.
Definition secondsPerMonth : Z := 30 * 24 * 60 * 60.
Definition secondsPerYear : Z := 365 * 24 * 60 * 60.

Definition Humanize (d : Z) : string :=
  if (d =? 0)%Z then "0 seconds"%string
  else
    let negative := (d <? 0)%Z in
    let d := if negative then int64 (- d) else d in
    let totalSeconds := to_int (Seconds d) in
    let sign := if negative then "-"%string else ""%string in
    let text (value : Z) (unit : string) := sign +:+ Itoa value +:+ " " +:+ unit +:+ (if (value =? 1)%Z then "" else "s")%string in
    if (secondsPerYear <=? totalSeconds)%Z then text (Z.quot totalSeconds secondsPerYear) "year"
    else if (secondsPerMonth <=? totalSeconds)%Z then text (Z.quot totalSeconds secondsPerMonth) "month"
    else if (secondsPerWeek <=? totalSeconds)%Z then text (Z.quot totalSeconds secondsPerWeek) "week"
    else if (secondsPerDay <=? totalSeconds)%Z then text (Z.quot totalSeconds secondsPerDay) "day"
    else if (secondsPerHour <=? totalSeconds)%Z then text (Z.quot totalSeconds secondsPerHour) "hour"
    else if (secondsPerMinute <=? totalSeconds)%Z then text (Z.quot totalSeconds secondsPerMinute) "minute"
    else if (d <? 1000000)%Z then text (Z.quot d 1000) "microsecond"
    else if (d <? second)%Z then text (Z.quot d 1000000) "millisecond"
    else text totalSeconds "second".


(** ** Conversions that are exact *)

Lemma digits2_pos_shift m k : digits2_pos (Pos.iter xO m k) = (digits2_pos m + k)%positive.
Proof.
  induction k as [|k IH] using Pos.peano_ind; [simpl; lia|]. rewrite Pos.iter_succ. simpl. rewrite IH. lia.
Qed.
Lemma iter_xO m k : Z.pos (Pos.iter xO m k) = (Z.pos m * 2 ^ Z.pos k)%Z.
Proof.
  induction k as [|k IH] using Pos.peano_ind; [simpl; lia|]. rewrite Pos.iter_succ, Pos2Z.inj_succ, Z.pow_succ_r by lia.
  rewrite Pos2Z.inj_xO, IH. lia.
Qed.
Lemma digits2_pos_bound m n : (Z.pos m < 2 ^ Z.pos n)%Z -> (digits2_pos m <= n)%positive.
Proof.
  revert n. induction m as [m IH|m IH|]; intros n Hm; simpl; [| |lia].
  all: destruct (decide (n = xH)) as [->|Hn]; [change (2 ^ 1)%Z with 2%Z in Hm; lia|].
  all: rewrite <- (Pos.succ_pred n Hn) in *; rewrite Pos2Z.inj_succ, Z.pow_succ_r in Hm by lia.
  all: assert (digits2_pos m <= Pos.pred n)%positive by (apply IH; lia); lia.
Qed.

Lemma fits z : (0 <= z < 2 ^ 53)%Z -> (if (minInt64 <=? z)%Z && (z <? 2 ^ 63)%Z then z else minInt64) = z.
Proof. intros Hz. unfold minInt64. destruct (Z.leb_spec (- 2 ^ 63) z), (Z.ltb_spec z (2 ^ 63)); simpl in *; lia. Qed.

(** An [int] of up to 53 binary digits is a [float64]. *)
Lemma to_int_of_int n : (0 <= n < 2 ^ 53)%Z -> to_int (of_int n) = n.
Proof.
  intros Hn. destruct n as [|p|p]; [done| |lia]. unfold of_int, binary_normalize, binary_round.
  assert (Hd : (digits2_pos p <= 53)%positive) by (apply digits2_pos_bound; lia).
  set (d := Z.pos (digits2_pos p)). assert (Hd' : (1 <= d <= 53)%Z) by (unfold d; lia).
  assert (Hf : fexp 53 1024 (d + 0) = (d - 53)%Z) by (unfold fexp, emin; lia). fold d. rewrite Hf.
  unfold shl_align. assert (Hround : forall m e, (Z.pos (digits2_pos m) = 53)%Z -> (- 52 <= e <= 0)%Z -> binary_round_aux 53 1024 false (Z.pos m) e loc_Exact = S754_finite false m e).
  { intros m e Hm He. unfold binary_round_aux, shr_fexp, Zdigits2.
    assert (Hfe : fexp 53 1024 (Z.pos (digits2_pos m) + e) = e) by (rewrite Hm; unfold fexp, emin; lia).
    rewrite Hfe, Z.sub_diag. simpl. rewrite Hfe, Z.sub_diag. simpl. by destruct (Z.leb_spec e (1024 - 53)); [|lia]. }
  destruct (d - 53 - 0)%Z as [|q|q] eqn:Eq; [|lia|].
  - rewrite Hround by (unfold d in *; lia). unfold to_int. cbn [cond_Zopp]. rewrite Z.leb_refl, Z.pow_0_r, Z.mul_1_r. by apply fits.
  - rewrite Hround by (rewrite ?digits2_pos_shift; unfold d in *; lia). unfold to_int.
    destruct (Z.leb_spec 0 (d - 53)); [lia|]. rewrite iter_xO. replace (- (d - 53))%Z with (Z.pos q) by lia.
    cbn [cond_Zopp]. rewrite Z.div_mul by lia. by apply fits.
Qed.
Lemma of_int_signed n : (0 < n < 2 ^ 53)%Z -> exists m e, of_int n = S754_finite false m e.
Proof.
  intros Hn. pose proof (to_int_of_int n) as H. destruct (of_int n) as [s|s| |[] m e] eqn:E; [..|eauto]; exfalso.
  - unfold to_int in H. simpl in H. lia.
  - unfold to_int in H. simpl in H. unfold minInt64 in H. lia.
  - unfold to_int in H. simpl in H. unfold minInt64 in H. lia.
  - destruct n as [|p|p]; [lia| |lia]. unfold of_int, binary_normalize, binary_round in E. destruct (shl_align _ _ _) as [mz ez].
    unfold binary_round_aux in E. destruct (shr_fexp _ _ _ _ _) as [? ?], (shr_fexp _ _ _ _ _) as [? ?]. repeat case_match; by simplify_eq.
Qed.

(** Whole seconds are counted exactly. *)
Lemma Seconds_whole n : (0 <= n < 2 ^ 53)%Z -> to_int (Seconds (n * second)) = n.
Proof.
  intros Hn. unfold Seconds. rewrite Z.quot_mul, Z.rem_mul by done. change (fdiv (of_int 0) (of_int second)) with (S754_zero false).
  rewrite <- (to_int_of_int n) at 2 by done. f_equal. destruct (decide (n = 0)%Z) as [->|]; [done|].
  destruct (of_int_signed n) as (m & e & ->); [lia|done].
Qed.

(** ** What is written down is read back *)

(** The units of [Humanize] with their lengths in seconds, and how many of one
    there are before the next, or before durations end. *)
Definition shown_units : list (string * Z * Z) :=
  [("year", secondsPerYear, 293); ("month", secondsPerMonth, 13); ("week", secondsPerWeek, 5); ("day", secondsPerDay, 7);
   ("hour", secondsPerHour, 24); ("minute", secondsPerMinute, 60); ("second", 1, 60)]%string%Z.
Definition counted (v : Z) (unit : string) : string := Itoa v +:+ " " +:+ unit +:+ (if (v =? 1)%Z then "" else "s")%string.

(** The largest unit that fits into [n] seconds. *)
Definition largest_unit (n : Z) : Z :=
  if (secondsPerYear <=? n)%Z then secondsPerYear else if (secondsPerMonth <=? n)%Z then secondsPerMonth
  else if (secondsPerWeek <=? n)%Z then secondsPerWeek else if (secondsPerDay <=? n)%Z then secondsPerDay
  else if (secondsPerHour <=? n)%Z then secondsPerHour else if (secondsPerMinute <=? n)%Z then secondsPerMinute else 1%Z.

Section round_trip.
Context `{Unicode}.

Definition reads_back (u : string * Z * Z) (v : Z) : bool :=
  bool_decide (ParseInterval (counted v u.1.1) = Ok (v * u.1.2 * second)%Z).
Lemma all_read_back : forallb (fun u => forallb (fun v => reads_back u (Z.of_nat v)) (seq 0 (Z.to_nat u.2))) shown_units = true.
Proof. vm_compute. reflexivity. Qed.
Lemma counted_reads_back u v : u ∈ shown_units -> (0 <= v < u.2)%Z -> ParseInterval (counted v u.1.1) = Ok (v * u.1.2 * second)%Z.
Proof.
  intros Hu Hv. pose proof all_read_back as H1. rewrite forallb_forall in H1. specialize (H1 u). rewrite <- list_elem_of_In in H1. specialize (H1 Hu).
  rewrite forallb_forall in H1. specialize (H1 (Z.to_nat v)). rewrite Z2Nat.id in H1 by lia. unfold reads_back in H1. rewrite bool_decide_eq_true in H1.
  apply H1, in_seq. lia.
Qed.

Lemma quot_counted n k b : (0 <= n)%Z -> (0 < k)%Z -> (n < k * b)%Z -> Z.quot n k = (n / k)%Z /\ (0 <= n / k < b)%Z /\ (n / k * k = n - n mod k)%Z.
Proof.
  intros Hn Hk Hb. rewrite Z.quot_div_nonneg by lia. pose proof (Z.div_mod n k). split; [done|]. split; [|lia].
  split; [apply Z.div_pos; lia|]. apply Z.div_lt_upper_bound; lia.
Qed.

Lemma unit_reads_back unit k b n : (unit, k, b) ∈ shown_units -> (0 <= n)%Z -> (0 < k)%Z -> (n < k * b)%Z ->
  ParseInterval (counted (Z.quot n k) unit) = Ok ((n - n mod k) * second)%Z.
Proof.
  intros Hu Hn Hk Hb. destruct (quot_counted n k b Hn Hk Hb) as (-> & Hv & <-). exact (counted_reads_back (unit, k, b) _ Hu Hv).
Qed.

(** A duration of whole seconds that was written down for people is read
    back as the whole number of the largest unit it holds: so it comes back
    unchanged exactly if it is a multiple of that unit, and shorter by less than
    the unit otherwise. *)
Lemma humanized_interval_reads_back n : (0 <= n * second < 2 ^ 63)%Z ->
  ParseInterval (Humanize (n * second)) = Ok ((n - n mod largest_unit n) * second)%Z.
Proof.
  intros Hn. unfold second in Hn. unfold Humanize. destruct (Z.eqb_spec (n * second) 0) as [H0|H0].
  { unfold second in H0. assert (n = 0)%Z as -> by lia. vm_compute. reflexivity. }
  destruct (Z.ltb_spec (n * second) 0); [unfold second in *; lia|]. rewrite Seconds_whole by lia. cbv zeta.
  unfold largest_unit. repeat (match goal with |- context [(?u <=? n)%Z] => destruct (Z.leb_spec u n) end).
  1-6: eapply unit_reads_back; [unfold shown_units; repeat constructor|lia|done|unfold secondsPerYear, secondsPerMonth, secondsPerWeek, secondsPerDay, secondsPerHour, secondsPerMinute in *; lia].
  destruct (Z.ltb_spec (n * second) 1000000), (Z.ltb_spec (n * second) second); try (unfold second in *; lia).
  pose proof (unit_reads_back "second" 1 60 n) as Hs. rewrite Z.quot_1_r in Hs. apply Hs; [unfold shown_units; repeat constructor|lia|done|unfold secondsPerMinute in *; lia].
Qed.
End round_trip.
(** ** Reading always ends *)

Section ends.
Context `{Unicode}.

(** How often a part is handed on, at most, and once more. *)
Definition rounds (p : part) : nat :=
  match find_unit (if String.eqb (pt_unit p) micro_s then micro_s else ToLower (pt_unit p)) with
  | Some Week => 6 | Some Day => 5 | Some Hour => 4 | Some Minute => 3 | Some Second => 2 | _ => 1
  end.
Lemma rounds_at_most p : 1 <= rounds p <= 6.
Proof. unfold rounds. repeat case_match; lia. Qed.
Definition all_rounds (l : list part) : nat := sum_list_with rounds l.
Lemma queue_fuel_enough l : all_rounds l <= queue_fuel l.
Proof.
  unfold queue_fuel. induction l as [|p l IH]; [done|]. unfold all_rounds in *. cbn [sum_list_with length]. pose proof (rounds_at_most p). lia.
Qed.

Lemma one_part_hands_on d p : match one_part d p with Ok (_, more) => all_rounds more < rounds p | Err _ => True | Panic _ => False end.
Proof.
  assert (Hd : forall v, rounds (mkPart v "d") = 5) by reflexivity. assert (Hh : forall v, rounds (mkPart v "h") = 4) by reflexivity.
  assert (Hm : forall v, rounds (mkPart v "m") = 3) by reflexivity. assert (Hs : forall v, rounds (mkPart v "s") = 2) by reflexivity.
  assert (Hms : forall v, rounds (mkPart v "ms") = 1) by reflexivity.
  unfold one_part. destruct (split_value (pt_value p)) as [n fraction]. pose proof (rounds_at_most p) as Hp. unfold rounds in Hp |- *.
  destruct (find_unit _) as [[]|]; try done; try (unfold all_rounds; simpl; lia); destruct (SFltb _ _); unfold all_rounds; cbn [sum_list_with]; rewrite ?Hd, ?Hh, ?Hm, ?Hs, ?Hms; lia.
Qed.
Lemma process_ends fuel d l c w : all_rounds l <= fuel -> process fuel d l c <> Panic w.
Proof.
  revert l c. induction fuel as [|fuel IH]; intros [|p l] c Hl; cbn [process]; [done| |done|].
  - unfold all_rounds in Hl. cbn [sum_list_with] in Hl. pose proof (rounds_at_most p). lia.
  - pose proof (one_part_hands_on d p) as Hp. destruct (one_part d p) as [[c' more]|e|w']; [|done|done]. apply IH.
    unfold all_rounds in *. cbn [sum_list_with] in Hl. rewrite sum_list_with_app. lia.
Qed.
Lemma to_parts_returns l w : to_parts l <> Panic w.
Proof.
  induction l as [|[[a b] u] l IH]; [done|]. cbn [to_parts]. assert (Hf : forall w, ParseFloat a b <> Panic w).
  { intros w'. unfold ParseFloat. destruct (decimal_value _ _); [done|]. destruct (SFdiv_core_binary _ _ _ _ _ _) as [[q e] loc]. by case_match. }
  destruct (ParseFloat a b) as [v|e|w']; [|done|by destruct (Hf w')]. by destruct (to_parts l).
Qed.

(** The fuel of the queue is never used up. *)
Lemma ParseInterval_returns s w : ParseInterval s <> Panic w.
Proof.
  unfold ParseInterval. destruct (String.eqb s ""); [done|]. pose proof (to_parts_returns (matches (String.length s) s)) as Hp.
  destruct (to_parts _) as [parts|e|w']; [|done|by destruct (Hp w')]. cbn [result_bind].
  pose proof (fun w => process_ends (queue_fuel parts) s parts none w (queue_fuel_enough parts)) as Hq. destruct (process _ _ _ _) as [c|e|w']; [done..|by destruct (Hq w')].
Qed.
End ends.

(** The text is used up with one step for each of its characters. *)
Lemma span_shorter p s : String.length (snd (span p s)) <= String.length s.
Proof. induction s as [|c s IH]; [done|]. simpl. destruct (p c); [|done]. destruct (span p s) as [a b]. simpl in *. lia. Qed.
Lemma decimals_shorter s : String.length (snd (decimals s)) <= String.length s.
Proof.
  unfold decimals. destruct s as [|c s]; [done|]. pose proof (span_shorter is_digit s) as Hs.
  repeat case_match; simpl in *; try done; lia.
Qed.
Lemma matches_enough fuel s : String.length s <= fuel -> matches fuel s = matches (String.length s) s.
Proof.
  revert s. induction fuel as [fuel IH] using lt_wf_ind. intros [|c s] Hs; [by destruct fuel|]. destruct fuel as [|fuel]; [simpl in Hs; lia|].
  cbn [matches String.length] in *. destruct (is_digit c) eqn:Ec.
  - cbn [span]. rewrite Ec. pose proof (span_shorter is_digit s) as H1. destruct (span is_digit s) as [a s1]. cbn [snd] in H1.
    pose proof (decimals_shorter s1) as H2. destruct (decimals s1) as [b s2]. cbn [snd] in H2. pose proof (span_shorter is_blank s2) as H3.
    pose proof (span_shorter (fun c => negb (is_digit c || is_blank c)) (snd (span is_blank s2))) as H4.
    destruct (span (fun c => negb (is_digit c || is_blank c)) _) as [u s4]. cbn [snd] in H4. f_equal.
    rewrite (IH fuel), (IH (String.length s)) by lia. done.
  - rewrite (IH fuel) by lia. done.
Qed.

(** A number of days beyond the range of [int64] comes out as some hours. *)
Lemma long_interval_wraps `{Unicode} : ParseInterval "18446744073710 days" = Ok (((10 * 60 + 45) * 60 + 40) * second + 377600000)%Z.
Proof. vm_compute. reflexivity. Qed.
Lemma mixed_interval `{Unicode} : ParseInterval "1 year 2 months 1.5 days 4h 5 Minutes" = Ok (((((365 + 60 + 1) * 24 + 12 + 4) * 60) + 5) * minute)%Z.
Proof. vm_compute. reflexivity. Qed.
Lemma wrong_unit `{Unicode} : ParseInterval "1 decade" = Err (EWrap "failed to parse unit 'decade' in '1 decade'" ErrInvalidUnit).
Proof. vm_compute. reflexivity. Qed.
