(* ===== verification/SchedulesApi.v ===== *)
(** The requests of users for the scheduled tasks of a server
    ([internal/api/servertasks]): reading the list, adding, changing and deleting
    a task, over the checks of [ServerAccess], the interval reader of [Carbon] and
    the table of [Schedules]; and what they change. *)

From S2P Require Import Prelude.
From S2P Require Import GoNum.
From S2P Require Import Domain.
From S2P Require Import GoRuntime.
From S2P Require Import Repositories.
From S2P Require Import TaskRepo.
From S2P Require Import ServersRepo.
From S2P Require Import NodesRepo.
From S2P Require Import Http.
From S2P Require Import Accounts.
From S2P Require Import UserAuth.
From S2P Require Import RBACRepo.
From S2P Require Import RBAC.
From S2P Require Import ServerAccess.
From S2P Require Import UserApi.
From S2P Require Import Park.
From S2P Require Import Carbon.
From S2P Require Import Schedules.
From S2P Require Import FileManager.
From stdpp Require Import base tactics strings list gmap numbers sorting.
From Stdlib Require Import NArith ZArith Ascii.

(** ** Requests and answers *)

Record serverTaskInput : Type := mkTaskInput {
  ti_Command : string; ti_Repeat : option Z; ti_RepeatPeriod : option string; ti_ExecuteDate : option time; ti_Payload : option string;
}.

Definition ErrCommandIsRequired : api_error := NewValidationError "command is required".
Definition ErrInvalidCommand : api_error := NewValidationError "invalid command, must be one of: start, stop, restart, update, reinstall".
Definition ErrExecuteDateIsRequired : api_error := NewValidationError "execute_date is required".
Definition ErrExecuteDateInPast : api_error := NewValidationError "execute_date must not be in the past".
Definition ErrInvalidRepeat : api_error := NewValidationError "repeat must be between 0 and 255".
Definition ErrRepeatPeriodRequired : api_error := NewValidationError "repeat_period is required when repeat is not 1".
Definition ErrInvalidRepeatPeriod : api_error :=
  NewValidationError "repeat_period must match format: '<number> <unit>' (e.g., '1 hour', '30 minutes')".
Definition ErrRepeatPeriodIsTooShort : api_error := NewValidationError "10 minutes is minimum repeat period".
Definition ErrRepeatPeriodIsTooLong : api_error := NewValidationError "repeat period is too long".

Definition validCommands : list string :=
  [ServerTaskCommandStart; ServerTaskCommandStop; ServerTaskCommandRestart; ServerTaskCommandUpdate; ServerTaskCommandReinstall].
Definition isValidCommand (command : string) : bool := bool_decide (command ∈ validCommands).

(** [repeatPeriodRegex]: digits, one blank, letters, digits and underscores. *)
Definition is_word (c : ascii) : bool :=
  let n := N_of_ascii c in
  is_digit c || (65 <=? n)%N && (n <=? 90)%N || (97 <=? n)%N && (n <=? 122)%N || (n =? 95)%N.
Definition repeatPeriod_matches (s : string) : bool :=
  let '(number, rest) := span is_digit s in
  match rest with
  | String c unit => negb (String.eqb number "") && is_blank c && negb (String.eqb unit "") && String.eqb (snd (span is_word unit)) ""
  | EmptyString => false
  end.

Definition given (s : option string) : option string := match s with Some s => if String.eqb s "" then None else Some s | None => None end.
Definition repeat_error (s : serverTaskInput) : option api_error :=
  match ti_Repeat s with
  | None => None
  | Some n =>
      if (255 <? n)%Z || (n <? 0)%Z then Some ErrInvalidRepeat
      else
        match given (ti_RepeatPeriod s) with
        | None => if (n =? 1)%Z then None else Some ErrRepeatPeriodRequired
        | Some p => if repeatPeriod_matches p then None else Some ErrInvalidRepeatPeriod
        end
  end.

Definition minRepeatPeriod : Z := 10 * minute.
Definition maxRepeatPeriod : Z := 365 * 24 * 60 * minute.
Definition check_period (t : ServerTask) : ServerTask + api_error :=
  if (1 <? sk_Repeat t)%N || (sk_Repeat t <=? 0)%N then
    if (sk_RepeatPeriod t <? minRepeatPeriod)%Z then inr ErrRepeatPeriodIsTooShort
    else if (maxRepeatPeriod <? sk_RepeatPeriod t)%Z then inr ErrRepeatPeriodIsTooLong
    else inl t
  else inl t.
(** [ToDomain] of a valid input; a task that is there lends its counter and times.
    The largest [Repeat] that is stored is 254: 255 becomes 0. *)
Definition ToDomain `{Unicode} (serverID : N) (existing : option ServerTask) (s : serverTaskInput) : result (ServerTask + api_error) :=
  match ti_ExecuteDate s with
  | None => Panic "nil pointer dereference"
  | Some date =>
      let Repeat := match ti_Repeat s with Some n => if (n <? 255)%Z then Z.to_N (n mod 256) else 0%N | None => 0%N end in
      let task (period : Z) := mkServerTask (match existing with Some t => sk_ID t | None => 0%N end) (NewServerTaskCommandFromString (ti_Command s)) serverID
        Repeat period (match existing with Some t => sk_Counter t | None => 0%N end) date (ti_Payload s)
        (match existing with Some t => sk_CreatedAt t | None => None end) (match existing with Some t => sk_UpdatedAt t | None => None end) in
      match given (ti_RepeatPeriod s) with
      | None => Ok (check_period (task 0%Z))
      | Some p => match ParseInterval p with Ok period => Ok (check_period (task period)) | Err _ => Ok (inr ErrInvalidRepeatPeriod) | Panic w => Panic w end
      end
  end.

Record serverTaskResponse : Type := mkTaskResponse {
  tr_ID : N; tr_Command : string; tr_ServerID : N; tr_Repeat : N; tr_RepeatPeriod : string; tr_Counter : N; tr_ExecuteDate : time;
  tr_Payload : option string; tr_CreatedAt : option time; tr_UpdatedAt : option time;
}.
Definition newServerTaskResponseFromServerTask (t : ServerTask) : serverTaskResponse :=
  mkTaskResponse (sk_ID t) (sk_Command t) (sk_ServerID t) (sk_Repeat t) (Humanize (sk_RepeatPeriod t)) (sk_Counter t) (sk_ExecuteDate t) (sk_Payload t)
    (sk_CreatedAt t) (sk_UpdatedAt t).
Inductive ScheduleAnswer : Type :=
| TaskBody (task : serverTaskResponse)
| TaskBodies (tasks : list serverTaskResponse).

(** Schedules, reports of failures and the clock of the panel. *)
Record Planner (K J : Type) : Type := mkPlanner { pn_tasks : K; pn_fails : J; pn_ticks : N }.
Arguments mkPlanner {K J}. Arguments pn_tasks {K J}. Arguments pn_fails {K J}. Arguments pn_ticks {K J}.

(** ** The handlers *)

Section handlers.
Context {V A R K J : Type} `{FinderRepository V} `{AccessControl A} `{ServerTaskRepository V K} `{WallClock} `{Unicode}.
Context (decode : string -> result (option serverTaskInput)).
Abbreviation S := (Desk V A R (Planner K J)).
Abbreviation answer := (M S (Response ScheduleAnswer)).
Abbreviation Handler := (DeskHandler V A R (Planner K J) ScheduleAnswer).

Definition on_tasks {B} (x : M K B) : M S B :=
  on_world (zoom pn_tasks (fun k p => mkPlanner k (pn_fails p) (pn_ticks p)) x).
Definition time_Now : M S time :=
  on_world (fun p => (Ok (now_at (pn_ticks p)), mkPlanner (pn_tasks p) (pn_fails p) (pn_ticks p + 1))).

Definition for_user (k : User -> Request -> answer) : Handler := fun ctx r =>
  match ctx with
  | Some (mkSession _ _ _ (Some user) _) =>
      if negb (IsAuthenticated ctx) then ret (WriteError (unauthorized (ENew "user not authenticated"))) else k user r
  | _ => ret (WriteError (unauthorized (ENew "user not authenticated")))
  end.
Definition id_in (r : Request) (var what : string) (k : N -> answer) : answer :=
  match ReadUint r var with
  | Panic w => lift (Panic w)
  | Err e => ret (WriteError (WrapHTTPError (EWrap ("invalid " +:+ what +:+ " id") e) StatusBadRequest))
  | Ok i => k i
  end.
Definition tasks_ability : list string := [AbilityNameGameServerTasks].
Definition allowed_on (user : User) (serverID : N) (k : Server -> answer) : answer :=
  let! server := FindUserServer user serverID in
  match server with
  | inr e => ret (WriteError e)
  | inl server =>
      let! denied := CheckOrError (us_ID user) (sv_ID server) tasks_ability in
      match denied with Some e => ret (WriteError e) | None => k server end
  end.
Definition doing {B} (msg : string) (x : M S B) (k : B -> answer) : answer :=
  let! r := attempt x in
  match r with
  | Panic w => lift (Panic w)
  | Err e => ret (WriteError (OtherError (EWrap msg e)))
  | Ok b => k b
  end.
Definition find_tasks (f : FindServerTask) : M S (list ServerTask) := fun s => (TK_Find (de_servers s) (pn_tasks (de_world s)) f [] None, s).
Definition existing_task (taskID serverID : N) (k : ServerTask -> answer) : answer :=
  doing "failed to find server task" (find_tasks (mkFindServerTask [taskID] [serverID] [] [])) (fun tasks =>
  match tasks with
  | [] => ret (WriteError (WrapHTTPError (ENew "server task not found") StatusNotFound))
  | task :: _ => k task
  end).

(** [Validate] *)
Definition Validate (s : serverTaskInput) : M S (option api_error) :=
  if String.eqb (ti_Command s) "" then ret (Some ErrCommandIsRequired)
  else if negb (isValidCommand (ti_Command s)) then ret (Some ErrInvalidCommand)
  else
    match ti_ExecuteDate s with
    | None => ret (Some ErrExecuteDateIsRequired)
    | Some date =>
        let! now := time_Now in
        if (date <? now - minute)%Z then ret (Some ErrExecuteDateInPast) else ret (repeat_error s)
    end.
(** The body of a request that adds or changes a task; a body of [null] makes the
    input a nil pointer. *)
Definition read_task (r : Request) (serverID : N) (existing : option ServerTask) (k : ServerTask -> answer) : answer :=
  match decode (rq_Body r) with
  | Panic w => lift (Panic w)
  | Err e => ret (WriteError (WrapHTTPError (EWrap "invalid request body" e) StatusBadRequest))
  | Ok None => lift (Panic "nil pointer dereference")
  | Ok (Some input) =>
      let! invalid := Validate input in
      match invalid with
      | Some e => ret (WriteError (with_message "validation failed" e))
      | None =>
          match ToDomain serverID existing input with
          | Panic w => lift (Panic w)
          | Err e => ret (WriteError (WrapHTTPError e StatusBadRequest))
          | Ok (inr e) => ret (WriteError (WrapHTTPError (cause_of e) StatusBadRequest))
          | Ok (inl task) => k task
          end
      end
  end.

Definition GetServerTasks : Handler := for_user (fun user r => id_in r "server" "server" (fun serverID =>
  allowed_on user serverID (fun _ =>
  doing "failed to find server tasks" (find_tasks (mkFindServerTask [] [serverID] [] [])) (fun tasks =>
  ret (Write StatusOK (TaskBodies (map newServerTaskResponseFromServerTask tasks))))))).

Definition PostServerTask : Handler := for_user (fun user r => id_in r "server" "server" (fun serverID =>
  allowed_on user serverID (fun _ =>
  read_task r serverID None (fun task =>
  doing "failed to save server task" (on_tasks (TK_Save task)) (fun saved =>
  ret (Write StatusCreated (TaskBody (newServerTaskResponseFromServerTask saved)))))))).

Definition PutServerTask : Handler := for_user (fun user r => id_in r "server" "server" (fun serverID => id_in r "id" "task" (fun taskID =>
  allowed_on user serverID (fun _ =>
  existing_task taskID serverID (fun existing =>
  read_task r serverID (Some existing) (fun task =>
  doing "failed to update server task" (on_tasks (TK_Save (sk_set_id taskID task))) (fun saved =>
  ret (Write StatusOK (TaskBody (newServerTaskResponseFromServerTask saved)))))))))).

Definition DeleteServerTask : Handler := for_user (fun user r => id_in r "server" "server" (fun serverID => id_in r "id" "task" (fun taskID =>
  allowed_on user serverID (fun _ =>
  existing_task taskID serverID (fun _ =>
  doing "failed to delete server task" (on_tasks (TK_Delete taskID)) (fun _ =>
  ret (WriteHeader StatusNoContent))))))).
End handlers.

(** ** What a valid request asks for *)

(** What users may schedule for a server at some time: a known command, not more
    than a minute ago, and, unless it runs once, with ten minutes to a year between
    two runs. *)
Record sound_task (serverID : N) (now : time) (t : ServerTask) : Prop := {
  so_server : sk_ServerID t = serverID;
  so_command : sk_Command t ∈ validCommands;
  so_repeat : (sk_Repeat t <= 254)%N;
  so_period : sk_Repeat t = 1%N \/ (minRepeatPeriod <= sk_RepeatPeriod t <= maxRepeatPeriod)%Z;
  so_date : (now - minute <= sk_ExecuteDate t)%Z;
}.
Definition keeps_of (existing : option ServerTask) (t : ServerTask) : Prop :=
  sk_ID t = match existing with Some e => sk_ID e | None => 0%N end /\
  sk_Counter t = match existing with Some e => sk_Counter e | None => 0%N end /\
  sk_CreatedAt t = match existing with Some e => sk_CreatedAt e | None => None end.

Lemma check_period_sound t t' : check_period t = inl t' -> t' = t /\ (sk_Repeat t = 1%N \/ (minRepeatPeriod <= sk_RepeatPeriod t <= maxRepeatPeriod)%Z).
Proof.
  unfold check_period. destruct (N.ltb_spec 1 (sk_Repeat t)), (N.leb_spec (sk_Repeat t) 0); simpl; try (intros [= <-]; split; [done|]; left; lia).
  all: destruct (Z.ltb_spec (sk_RepeatPeriod t) minRepeatPeriod); [done|]; destruct (Z.ltb_spec maxRepeatPeriod (sk_RepeatPeriod t)); [done|]; intros [= <-]; split; [done|]; right; lia.
Qed.
Lemma ToDomain_sound `{Unicode} i existing input date t :
  isValidCommand (ti_Command input) = true -> ti_ExecuteDate input = Some date -> repeat_error input = None ->
  ToDomain i existing input = Ok (inl t) -> forall now, (now - minute <= date)%Z -> sound_task i now t /\ keeps_of existing t.
Proof.
  intros Hc%bool_decide_eq_true Hd Hr. unfold ToDomain. rewrite Hd. cbv zeta.
  assert (Hcmd : NewServerTaskCommandFromString (ti_Command input) = ti_Command input).
  { unfold NewServerTaskCommandFromString. by rewrite bool_decide_eq_true_2. }
  assert (Hrep : (match ti_Repeat input with Some n => if (n <? 255)%Z then Z.to_N (n mod 256) else 0%N | None => 0%N end <= 254)%N).
  { unfold repeat_error in Hr. destruct (ti_Repeat input) as [n|]; [|lia]. destruct (Z.ltb_spec n 0); [by rewrite orb_true_r in Hr|].
    destruct (Z.ltb_spec n 255); [|lia]. rewrite Z.mod_small by lia. lia. }
  set (rep := match ti_Repeat input with Some n => _ | None => _ end) in *. intros E now Hnow.
  assert (Hgo : forall period, check_period (mkServerTask (match existing with Some e => sk_ID e | None => 0%N end) (NewServerTaskCommandFromString (ti_Command input)) i
      rep period (match existing with Some e => sk_Counter e | None => 0%N end) date (ti_Payload input)
      (match existing with Some e => sk_CreatedAt e | None => None end) (match existing with Some e => sk_UpdatedAt e | None => None end)) = inl t -> sound_task i now t /\ keeps_of existing t).
  { intros period Et. apply check_period_sound in Et as [-> Hp]. split; [|by split_and!]. split; [done|by simpl; rewrite Hcmd|done|exact Hp|exact Hnow]. }
  destruct (given (ti_RepeatPeriod input)) as [p|]; [destruct (ParseInterval p) as [period|e|w]; [|done..]|]; injection E as E; by eapply Hgo.
Qed.

(** ** What the requests change *)

Section effects.
Context {V A R K J : Type} `{FinderRepositoryLaws V} `{AccessControl A} `{NodeRepository R} `{!ServerTaskRepository V K} `{!ServerTaskRepositoryLaws V K} `{WallClock} `{Unicode}.
Context (decode : string -> result (option serverTaskInput)).
Abbreviation S := (Desk V A R (Planner K J)).
Abbreviation answer := (M S (Response ScheduleAnswer)).
Implicit Types s : S.

Definition schedule s : gmap N ServerTask := tk_rows (pn_tasks (de_world s)).
Definition idle s s' : Prop :=
  de_servers s' = de_servers s /\ de_nodes s' = de_nodes s /\ pn_tasks (de_world s') = pn_tasks (de_world s) /\ pn_fails (de_world s') = pn_fails (de_world s).
#[local] Instance idle_preorder : PreOrder idle.
Proof. split; [by intros s; split_and!|]. intros s1 s2 s3 (? & ? & ? & ?) (? & ? & ? & ?). split_and!; congruence. Qed.
Lemma asked_idle s s' : asked s s' -> idle s s'.
Proof. intros (? & ? & Hw). split_and!; [done|done|by rewrite Hw..]. Qed.

(** An answer that reports no change. *)
Definition reports_none (res : result (Response ScheduleAnswer)) : Prop :=
  match res with Ok (Write _ (TaskBody _)) | Ok (WriteHeader _) => False | _ => True end.
Definition nothing_done s res s' : Prop := idle s s' /\ reports_none res.

Lemma for_user_spec (k : User -> Request -> answer) ctx r s res s' : for_user k ctx r s = (res, s') ->
  nothing_done s res s' \/ exists user, se_User <$> ctx = Some (Some user) /\ k user r s = (res, s').
Proof.
  unfold for_user. destruct ctx as [[sid lg em [user|] tk]|]; [|intros [= <- <-]; by left..].
  destruct (negb _); [intros [= <- <-]; by left|]. intros E. right. by exists user.
Qed.
Lemma id_in_spec r var what (k : N -> answer) s res s' : id_in r var what k s = (res, s') ->
  nothing_done s res s' \/ exists i, ReadUint r var = Ok i /\ k i s = (res, s').
Proof. unfold id_in. destruct (ReadUint r var) as [i|e|w]; [|intros [= <- <-]; by left..]. intros E. right. by exists i. Qed.
Lemma allowed_on_spec user i (k : Server -> answer) s res s' : sf_inv (de_servers s) -> allowed_on user i k s = (res, s') ->
  nothing_done s res s' \/
  exists server s1, asked s s1 /\ sv_ID server = i /\ may_act s user server (Some tasks_ability) /\ k server s1 = (res, s').
Proof.
  intros Hi. unfold allowed_on, bind. destruct (FindUserServer user i s) as [fr s1] eqn:Ef. destruct (FindUserServer_spec _ _ _ _ _ Hi Ef) as [Hs1 Hf].
  destruct fr as [[server|e]|e|w]; [|intros [= <- <-]; left; by split; [apply asked_idle|]..].
  destruct Hf as (Hid & adm & Hadm & Hrow & Hass). destruct (CheckOrError _ _ tasks_ability s1) as [cr s2] eqn:Ek. destruct (CheckOrError_spec _ _ _ _ _ _ Ek) as [Hs2 Hk].
  pose proof (asked_trans _ _ _ Hs1 Hs2) as Hs. destruct cr as [[e|]|e|w]; [intros [= <- <-]; left; by split; [apply asked_idle|]| |done|intros [= <- <-]; left; by split; [apply asked_idle|]].
  intros E. right. exists server, s2. split_and!; [done|done| |done]. exists adm, (de_access s1). subst i. by split_and!.
Qed.
Lemma doing_spec {B} msg (x : M S B) (k : B -> answer) s res s' : doing msg x k s = (res, s') ->
  exists xr s1, x s = (xr, s1) /\ ((s' = s1 /\ reports_none res /\ is_ok xr = false) \/ exists b, xr = Ok b /\ k b s1 = (res, s')).
Proof.
  unfold doing, bind, attempt. destruct (x s) as [xr s1] eqn:Ex. intros E. exists xr, s1. split; [done|]. destruct xr as [b|e|w]; [right; by exists b|left..]; by injection E as <- <-.
Qed.
Lemma existing_task_spec i server (k : ServerTask -> answer) s res s' : sf_inv (de_servers s) -> tk_inv (pn_tasks (de_world s)) ->
  existing_task i server k s = (res, s') ->
  nothing_done s res s' \/ exists t, sk_ID t = i /\ sk_ServerID t = server /\ schedule s !! i = Some t /\ k t s = (res, s').
Proof.
  intros Hi Hk. intros (xr & s1 & [= <- <-] & E)%doing_spec.
  pose proof (tk_find_law (de_servers s) (pn_tasks (de_world s)) (mkFindServerTask [i] [server] [] []) Hi Hk) as Hf. simpl in Hf. specialize (Hf (Nat.le_0_l 1)).
  destruct E as [(-> & Hr & _)|(l & El & E)]; [by left|]. rewrite El in Hf. destruct l as [|t l]; [injection E as <- <-; by left|].
  right. exists t. destruct Hf as [_ Hf]. destruct (proj1 (Hf t)) as [Hrow Hm]; [constructor|]. unfold schedule_matches, in_or_any in Hm. simpl in Hm.
  rewrite !andb_true_r, andb_true_iff, !bool_decide_eq_true, !list_elem_of_singleton in Hm. destruct Hm as [Hid Hsrv]. split_and!; [done|done|by rewrite <- Hid|done].
Qed.
Definition now_of s : time := now_at (pn_ticks (de_world s)).
Lemma read_task_spec r i existing (k : ServerTask -> answer) s res s' : read_task decode r i existing k s = (res, s') ->
  nothing_done s res s' \/ exists t s1, idle s s1 /\ sound_task i (now_of s) t /\ keeps_of existing t /\ k t s1 = (res, s').
Proof.
  unfold read_task. destruct (decode (rq_Body r)) as [[input|]|e|w]; [|intros [= <- <-]; by left..].
  unfold bind at 1, Validate. destruct (String.eqb (ti_Command input) ""); [intros [= <- <-]; by left|].
  destruct (isValidCommand (ti_Command input)) eqn:Ec; cbn [negb]; [|intros [= <- <-]; by left].
  destruct (ti_ExecuteDate input) as [date|] eqn:Ed; [|intros [= <- <-]; by left]. unfold bind at 1, time_Now, on_world, zoom. cbn [fst snd].
  set (s1 := mkDesk _ _ _ _). assert (Hs1 : idle s s1) by by split_and!. fold (now_of s).
  destruct (Z.ltb_spec date (now_of s - minute)); [intros [= <- <-]; by left|]. unfold ret at 1.
  destruct (repeat_error input) as [e|] eqn:Er; [intros [= <- <-]; by left|].
  destruct (ToDomain i existing input) as [[t|e]|e|w] eqn:Et; [|intros [= <- <-]; by left..].
  intros E. right. exists t, s1. split; [done|]. destruct (ToDomain_sound _ _ _ _ _ Ec Ed Er Et (now_of s)) as [? ?]; [done|]. by split_and!.
Qed.

(** A call of the table behind a handler. *)
Lemma on_tasks_run {B} (x : M K B) s : on_tasks x s =
  (fst (x (pn_tasks (de_world s))), mkDesk (de_servers s) (de_access s) (de_nodes s) (mkPlanner (snd (x (pn_tasks (de_world s)))) (pn_fails (de_world s)) (pn_ticks (de_world s)))).
Proof. unfold on_tasks, on_world, zoom. by destruct (x (pn_tasks (de_world s))). Qed.

Definition schedule_handlers : list (DeskHandler V A R (Planner K J) ScheduleAnswer) :=
  [GetServerTasks; PostServerTask decode; PutServerTask decode; DeleteServerTask].

(** What may become of the schedule when a user who may plan for a server asks. *)
Inductive planned (server : Server) (r : Request) (now : time) (m : gmap N ServerTask) : result (Response ScheduleAnswer) -> gmap N ServerTask -> Prop :=
| pl_added t : m !! sk_ID t = None -> sound_task (sv_ID server) now t -> sk_Counter t = 0%N ->
    planned server r now m (Ok (Write StatusCreated (TaskBody (newServerTaskResponseFromServerTask t)))) (<[sk_ID t := t]> m)
| pl_changed old t : ReadUint r "id" = Ok (sk_ID t) -> m !! sk_ID t = Some old -> sk_ServerID old = sv_ID server ->
    sound_task (sv_ID server) now t -> sk_Counter t = sk_Counter old ->
    planned server r now m (Ok (Write StatusOK (TaskBody (newServerTaskResponseFromServerTask t)))) (<[sk_ID t := t]> m)
| pl_deleted i old : ReadUint r "id" = Ok i -> m !! i = Some old -> sk_ServerID old = sv_ID server ->
    planned server r now m (Ok (WriteHeader StatusNoContent)) (delete i m).

Record schedule_kept s s' : Prop := {
  sk_servers : de_servers s' = de_servers s;
  sk_nodes : de_nodes s' = de_nodes s;
  sk_fails : pn_fails (de_world s') = pn_fails (de_world s);
  sk_inv : tk_inv (pn_tasks (de_world s'));
  sk_room : forall n, tk_room (Datatypes.S n) (pn_tasks (de_world s)) -> tk_room n (pn_tasks (de_world s'));
}.
Lemma idle_kept s s' : tk_inv (pn_tasks (de_world s)) -> idle s s' -> schedule_kept s s'.
Proof. intros Hk (Ev & En & Et & Ef). split; [done|done|done|by rewrite Et|]. intros n Hn. rewrite Et. by apply tk_room_weaken. Qed.
Lemma idle_schedule s s' : idle s s' -> schedule s' = schedule s.
Proof. intros (_ & _ & E & _). unfold schedule. by rewrite E. Qed.
Lemma sound_same_fields i now t t' : sk_ServerID t' = sk_ServerID t -> sk_Command t' = sk_Command t -> sk_Repeat t' = sk_Repeat t ->
  sk_RepeatPeriod t' = sk_RepeatPeriod t -> sk_ExecuteDate t' = sk_ExecuteDate t -> sound_task i now t -> sound_task i now t'.
Proof. intros E1 E2 E3 E4 E5 [? ? ? ? ?]. split; by rewrite ?E1, ?E2, ?E3, ?E4, ?E5. Qed.

Definition asked_for s ctx (r : Request) res s' : Prop :=
  schedule s' = schedule s /\ reports_none res \/
  exists user server, se_User <$> ctx = Some (Some user) /\ ReadUint r "server" = Ok (sv_ID server) /\
    may_act s user server (Some tasks_ability) /\ planned server r (now_of s) (schedule s) res (schedule s').
Definition effect_of (h : DeskHandler V A R (Planner K J) ScheduleAnswer) : Prop := forall ctx r s res s',
  sf_inv (de_servers s) -> tk_inv (pn_tasks (de_world s)) -> tk_room 1 (pn_tasks (de_world s)) -> h ctx r s = (res, s') ->
  schedule_kept s s' /\ asked_for s ctx r res s'.
Lemma nothing_effect s ctx r res s' : tk_inv (pn_tasks (de_world s)) -> nothing_done s res s' -> schedule_kept s s' /\ asked_for s ctx r res s'.
Proof. intros Hk [Hs Hr]. split; [by apply idle_kept|]. left. split; [by apply idle_schedule|done]. Qed.
Lemma nothing_later s s1 res s' : idle s s1 -> nothing_done s1 res s' -> nothing_done s res s'.
Proof. intros Hs [Hs' Hr]. split; [by etransitivity|done]. Qed.

Lemma GetServerTasks_effect : effect_of GetServerTasks.
Proof.
  intros ctx r s res s' Hi Hk Hroom [Hn|(user & Hu & E)]%for_user_spec; [by apply nothing_effect|].
  apply id_in_spec in E as [Hn|(i & Hr & E)]; [by apply nothing_effect|]. apply allowed_on_spec in E as [Hn|(server & s1 & Hs & <- & Hmay & E)]; [by apply nothing_effect| |done].
  apply nothing_effect; [done|]. apply (nothing_later s s1); [by apply asked_idle|]. apply doing_spec in E as (xr & s2 & [= <- <-] & [(-> & Hq & _)|(l & _ & E)]); [done|].
  by injection E as <- <-.
Qed.
Lemma saved_effect s s1 t res s' (status : Z) user server ctx r msg : tk_inv (pn_tasks (de_world s)) -> tk_room 1 (pn_tasks (de_world s)) -> idle s s1 ->
  (if decide (sk_ID t = 0%N) then True else is_Some (schedule s !! sk_ID t)) ->
  doing msg (on_tasks (TK_Save t)) (fun saved => ret (Write status (TaskBody (newServerTaskResponseFromServerTask saved)))) s1 = (res, s') ->
  se_User <$> ctx = Some (Some user) -> ReadUint r "server" = Ok (sv_ID server) -> may_act s user server (Some tasks_ability) ->
  (forall t', sk_ServerID t' = sk_ServerID t -> sk_Command t' = sk_Command t -> sk_Repeat t' = sk_Repeat t -> sk_RepeatPeriod t' = sk_RepeatPeriod t ->
     sk_ExecuteDate t' = sk_ExecuteDate t -> sk_Counter t' = sk_Counter t -> (if decide (sk_ID t = 0%N) then schedule s !! sk_ID t' = None else sk_ID t' = sk_ID t) ->
     planned server r (now_of s) (schedule s) (Ok (Write status (TaskBody (newServerTaskResponseFromServerTask t')))) (<[sk_ID t' := t']> (schedule s))) ->
  schedule_kept s s' /\ asked_for s ctx r res s'.
Proof.
  intros Hk Hroom (Ev & En & Et & Ef) Hid E Hu Hr Hmay Hpl. apply doing_spec in E as (xr & s2 & Ex & E). rewrite on_tasks_run in Ex. injection Ex as <- <-. rewrite Et in E.
  destruct (TK_Save t (pn_tasks (de_world s))) as [sr k'] eqn:Es. cbn [fst snd] in E.
  destruct (tk_save_law t (pn_tasks (de_world s)) sr k' Hk) as (Hk' & Hro & Hres); [by case_decide|exact Es|].
  set (s2 := mkDesk (de_servers s1) (de_access s1) (de_nodes s1) (mkPlanner k' (pn_fails (de_world s1)) (pn_ticks (de_world s1)))) in E. assert (Hkept : schedule_kept s s2).
  { split; simpl; [done..|by rewrite Ef|done|]. intros n Hn. apply Hro. case_decide; [done|by apply tk_room_weaken]. }
  destruct E as [(-> & Hq & Herr)|(saved & -> & E)].
  - split; [exact Hkept|]. left. split; [|done]. unfold schedule. simpl. destruct sr as [saved|e|w]; [done|done|done].
  - injection E as <- <-. split; [exact Hkept|]. right. exists user, server. split_and!; [done..|]. destruct Hres as ((c & u & Heq) & Hrows & Hid').
    unfold schedule at 2. simpl. rewrite Hrows. fold (schedule s). apply Hpl; [by rewrite Heq..|]. done.
Qed.

Lemma PostServerTask_effect : effect_of (PostServerTask decode).
Proof.
  intros ctx r s res s' Hi Hk Hroom [Hn|(user & Hu & E)]%for_user_spec; [by apply nothing_effect|].
  apply id_in_spec in E as [Hn|(i & Hr & E)]; [by apply nothing_effect|]. apply allowed_on_spec in E as [Hn|(server & s1 & Hs & <- & Hmay & E)]; [by apply nothing_effect| |done].
  pose proof (asked_idle _ _ Hs) as Hidle. assert (Hnow : now_of s1 = now_of s) by (destruct Hs as (_ & _ & Hw); unfold now_of; by rewrite Hw).
  apply read_task_spec in E as [Hn|(t & s2 & Hs2 & Hsound & (Hid & Hcount & _) & E)]; [by apply nothing_effect, (nothing_later s s1)|]. rewrite Hnow in Hsound.
  eapply (saved_effect s s2 t); [done|done|by etransitivity|by rewrite decide_True|exact E|done|done|done|].
  intros t' E1 E2 E3 E4 E5 E6 Hfresh. rewrite decide_True in Hfresh by done. apply pl_added; [done|by apply (sound_same_fields _ _ t)|by rewrite E6].
Qed.
Lemma PutServerTask_effect : effect_of (PutServerTask decode).
Proof.
  intros ctx r s res s' Hi Hk Hroom [Hn|(user & Hu & E)]%for_user_spec; [by apply nothing_effect|].
  apply id_in_spec in E as [Hn|(i & Hr & E)]; [by apply nothing_effect|]. apply id_in_spec in E as [Hn|(j & Hj & E)]; [by apply nothing_effect|].
  apply allowed_on_spec in E as [Hn|(server & s1 & Hs & <- & Hmay & E)]; [by apply nothing_effect| |done].
  pose proof (asked_idle _ _ Hs) as Hidle. assert (Hnow : now_of s1 = now_of s) by (destruct Hs as (_ & _ & Hw); unfold now_of; by rewrite Hw).
  assert (Hk1 : tk_inv (pn_tasks (de_world s1))) by (destruct Hidle as (_ & _ & -> & _); done).
  assert (Hi1 : sf_inv (de_servers s1)) by (destruct Hidle as (-> & _); done).
  apply existing_task_spec in E as [Hn|(old & Hold & Hsrv & Hrow & E)]; [by apply nothing_effect, (nothing_later s s1)| |done|done].
  rewrite (idle_schedule s s1 Hidle) in Hrow.
  apply read_task_spec in E as [Hn|(t & s2 & Hs2 & Hsound & (Hid & Hcount & _) & E)]; [by apply nothing_effect, (nothing_later s s1)|]. rewrite Hnow in Hsound.
  destruct (tk_rows_id _ _ _ Hk Hrow) as [_ Hne].
  eapply (saved_effect s s2 (sk_set_id j t)); [done|done|by etransitivity|rewrite decide_False by done; by eexists|exact E|done|done|done|].
  intros t' E1 E2 E3 E4 E5 E6 E7. rewrite decide_False in E7 by done. simpl in E7. apply (pl_changed _ _ _ _ old); [by rewrite E7|by rewrite E7|done|by apply (sound_same_fields _ _ t)|by rewrite E6].
Qed.
Lemma DeleteServerTask_effect : effect_of DeleteServerTask.
Proof.
  intros ctx r s res s' Hi Hk Hroom [Hn|(user & Hu & E)]%for_user_spec; [by apply nothing_effect|].
  apply id_in_spec in E as [Hn|(i & Hr & E)]; [by apply nothing_effect|]. apply id_in_spec in E as [Hn|(j & Hj & E)]; [by apply nothing_effect|].
  apply allowed_on_spec in E as [Hn|(server & s1 & Hs & <- & Hmay & E)]; [by apply nothing_effect| |done].
  pose proof (asked_idle _ _ Hs) as Hidle. assert (Hk1 : tk_inv (pn_tasks (de_world s1))) by (destruct Hidle as (_ & _ & -> & _); done).
  assert (Hi1 : sf_inv (de_servers s1)) by (destruct Hidle as (-> & _); done).
  apply existing_task_spec in E as [Hn|(old & Hold & Hsrv & Hrow & E)]; [by apply nothing_effect, (nothing_later s s1)| |done|done].
  rewrite (idle_schedule s s1 Hidle) in Hrow. destruct Hidle as (Ev & En & Et & Ef).
  apply doing_spec in E as (xr & s2 & Ex & E). rewrite on_tasks_run in Ex. injection Ex as <- <-. rewrite Et in E.
  destruct (TK_Delete j (pn_tasks (de_world s))) as [dr k'] eqn:Ed. cbn [fst snd] in E.
  destruct (tk_delete_law j (pn_tasks (de_world s)) dr k' Hk Ed) as (Hk' & Hro & Hres).
  set (s2 := mkDesk _ _ _ _) in E. assert (Hkept : schedule_kept s s2).
  { split; simpl; [done..|]. intros n Hn. by apply Hro, tk_room_weaken. }
  destruct E as [(-> & Hq & Herr)|([] & -> & E)].
  - split; [exact Hkept|]. left. split; [|done]. unfold schedule. simpl. destruct dr as [u|e|w]; [done|done|done].
  - injection E as <- <-. split; [exact Hkept|]. right. exists user, server. split_and!; [done..|].
    unfold schedule at 2. simpl. rewrite Hres. by apply (pl_deleted _ _ _ _ j old).
Qed.

(** Whatever a request for scheduled tasks (read, add, change, delete)
    contains and however it ends, the schedule is as it was and no change is
    reported, or the request came from a signed-in user who may plan for the server
    its path names (the server is not deleted, he is an administrator or it is one
    of his, and he is an administrator or has the ability for its tasks), and one
    task of that server was added, changed or deleted, as the answer says. What was
    added or changed is a known command, is not due more than a minute ago, and is
    repeated, unless it runs once, in ten minutes at the least and a year at the
    most; a changed task keeps its id, its server and the count of its runs. *)
Lemma schedule_requests_need_ability h ctx r s res s' : h ∈ schedule_handlers ->
  sf_inv (de_servers s) -> tk_inv (pn_tasks (de_world s)) -> tk_room 1 (pn_tasks (de_world s)) -> h ctx r s = (res, s') ->
  schedule_kept s s' /\ asked_for s ctx r res s'.
Proof.
  intros Hh. cut (effect_of h); [intros He; apply He|]. unfold schedule_handlers in Hh.
  repeat (apply list.elem_of_cons in Hh as [->|Hh]); [..|by apply list.elem_of_nil in Hh].
  - apply GetServerTasks_effect.
  - apply PostServerTask_effect.
  - apply PutServerTask_effect.
  - apply DeleteServerTask_effect.
Qed.

(** The list is that of the server, in the order of the ids. *)
Lemma list_of_server ctx r s code l s' : sf_inv (de_servers s) -> tk_inv (pn_tasks (de_world s)) ->
  GetServerTasks ctx r s = (Ok (Write code (TaskBodies l)), s') ->
  exists server ts, ReadUint r "server" = Ok server /\ l = map newServerTaskResponseFromServerTask ts /\
    StronglySorted (fun a b => sk_ID a < sk_ID b)%N ts /\ forall t, t ∈ ts <-> schedule s !! sk_ID t = Some t /\ sk_ServerID t = server.
Proof.
  intros Hi Hk. unfold GetServerTasks, for_user. destruct ctx as [[sid lg em [user|] tk]|]; [|done..]. destruct (negb _); [done|].
  unfold id_in. destruct (ReadUint r "server") as [i|e|w]; [|done..]. unfold allowed_on, bind at 1. destruct (FindUserServer user i s) as [fr s1] eqn:Ef.
  destruct (FindUserServer_spec _ _ _ _ _ Hi Ef) as [Hs1 _]. destruct fr as [[server|e]|e|w]; [|done..]. unfold bind at 1.
  destruct (CheckOrError _ _ tasks_ability s1) as [cr s2] eqn:Ek. destruct (CheckOrError_spec _ _ _ _ _ _ Ek) as [Hs2 _].
  destruct (asked_trans _ _ _ Hs1 Hs2) as (Ev & _ & Ew). destruct cr as [[e|]|e|w]; [done| |done..].
  unfold doing, bind, attempt, find_tasks. rewrite Ev, Ew.
  pose proof (tk_find_law (de_servers s) (pn_tasks (de_world s)) (mkFindServerTask [] [i] [] []) Hi Hk (Nat.le_0_l 1)) as Hf.
  destruct (TK_Find _ _ _ _ _) as [ts|e|w]; [|done..]. intros E. injection E as <- <- <-.
  destruct Hf as [Hsort Hin]. exists i, ts. split_and!; [done|done|exact Hsort|]. intros t. rewrite Hin. unfold schedule_matches, in_or_any. simpl.
  by rewrite !andb_true_r, bool_decide_eq_true, list_elem_of_singleton.
Qed.
End effects.

(** ** Two inputs that are not kept as they are *)

(** The largest number of runs becomes none, which is no limit. *)
Lemma repeat_255_is_lost `{Unicode} i date :
  ToDomain i None (mkTaskInput ServerTaskCommandRestart (Some 255%Z) (Some "12 hours"%string) (Some date) None) =
  Ok (inl (mkServerTask 0 ServerTaskCommandRestart i 0 (12 * 60 * minute) 0 date None None None)).
Proof. vm_compute. reflexivity. Qed.
(** Ninety minutes are shown as one hour, which a form sends back as one hour. *)
Lemma shown_period_is_shorter `{Unicode} i date t : ToDomain i (Some t) (mkTaskInput ServerTaskCommandRestart (Some 3%Z)
    (Some (tr_RepeatPeriod (newServerTaskResponseFromServerTask (mkServerTask 1 ServerTaskCommandRestart i 3 (90 * minute) 0 date None None None)))) (Some date) None) =
  Ok (inl (mkServerTask (sk_ID t) ServerTaskCommandRestart i 3 (60 * minute) (sk_Counter t) date None (sk_CreatedAt t) (sk_UpdatedAt t))).
Proof. vm_compute. reflexivity. Qed.
